(* ===== verification/_CoqProject ===== *)
-Q . S2P
Prelude.v
Log.v
Vfs.v
FlashMmap.v
FlashOps.v
Partition.v
Image.v
Ota.v
Boot.v
RingBuf.v
HeapRegions.v
HeapCaps.v
IntrAlloc.v
Ulp.v
WearLevel.v
WearSpec.v
WearMount.v
WearWitness.v
RtosList.v
RtosStore.v
RtosTasks.v
RtosSched.v
RtosWake.v
RtosWitness.v
RtosQueue.v
RtosQueueSpec.v
RtosMutex.v
RtosQueueWitness.v
RtosNotify.v
RtosNotifyWitness.v
RtosTimers.v
RtosTimerSpec.v
RtosTimerService.v
RtosTimerCreate.v
RtosTimerWitness.v
EventGroup.v
EventWitness.v
