(* ===== verification/Prelude.v ===== *)
(** * ESP-IDF core components: a verification development

    The program is the system software of the ESP32: a second-stage boot
    loader that chooses and loads an application from flash, and the libraries
    the application runs on.  This development models the parts whose
    behaviour is the program's own data structures and protocols (rather than
    hardware registers or third-party code) as executable functions, and
    proves what makes them correct.

    ** The parts and how they interact

    The flash side.  [flash_ops.c] reads, writes and erases the flash chip
    through functions in ROM; [flash_mmap.c] maps flash pages into the address
    space and keeps track of pages written since the last cache flush, which
    [flash_ops.c] reports to it.  [partition.c] reads the partition table
    through a mapping and offers iterators and access confined to a partition.
    [esp_image_format.c] and [flash_partitions.c] check application images and
    tables; they are linked into the boot loader and into the application over
    two different flash readers.  [esp_ota_ops.c] writes a new image to a
    partition and records in the OTA data partition which one to boot; the
    boot loader ([bootloader_start.c]) reads that record and loads the image.
    Wear levelling ([WL_Flash.cpp], [wear_levelling.cpp]) offers a smaller
    flash on top of a partition and spreads its erasures over all sectors.

    The memory side.  [heap_alloc_caps.c] is [malloc]: it decides which
    regions of RAM are free at start-up, starts the tagged allocator
    [heap_regions.c] on them, and serves requests for memory with given
    capabilities from the tags that have them.

    Services.  [log.c] decides which messages are printed, [vfs.c] routes file
    operations to drivers, [ringbuf.c] passes items and bytes between tasks
    and interrupt handlers, [intr_alloc.c] gives the interrupts of the two
    CPUs to the drivers that ask for one, alone or shared.  [ulp_macro.c] and
    [ulp.c] assemble and load programs for the ULP coprocessor.

    The kernel.  The lists of [list.c] hold the tasks that are ready, delayed
    or blocked; [tasks.c] moves tasks between them, counts ticks and chooses
    for each of the two CPUs the task to run; [queue.c] (queues, semaphores,
    mutexes) and [event_groups.c] block tasks until there is an item, room or
    a bit, by means of the event lists of [tasks.c].  [timers.c] is a task that
    takes commands from a queue and calls the functions of the timers that
    expire, which it keeps in two lists by their tick.

    ** Files

    - [Prelude]: machine integers ([wrap], [u32], [to_signed]), the state and
      error monad [M] with its faults, C arrays ([rd], [wr], [at_]), byte
      encodings, weakest preconditions ([wp]) with their tactics, and lemmas
      shared by the components.
    - [Log] (components/log/log.c): tag list, tag cache as a binary min-heap.
    - [Vfs] (components/vfs/vfs.c): table of drivers, descriptors, syscalls.
    - [FlashMmap] (components/spi_flash/flash_mmap.c): MMU tables, reference
      counts, mappings, written pages.
    - [FlashOps] (components/spi_flash/flash_ops.c): erase, write, read,
      encrypted variants, over the class [RomFlash] with the laws [RomLaws].
    - [Partition] (components/spi_flash/partition.c): table, iterators, access.
    - [Image] (components/bootloader_support/src/esp_image_format.c,
      flash_partitions.c): verification, over the class [FlashReader].
    - [Ota] (components/app_update/esp_ota_ops.c): updates and the choice of
      the next application.
    - [Boot] (components/bootloader/src/main/bootloader_start.c,
      components/bootloader_support/src/bootloader_flash.c): the boot loader,
      over [RomFlash] and the class [RomCache].
    - [RingBuf] (components/freertos/ringbuf.c): item and byte rings.
    - [HeapRegions] (components/freertos/heap_regions.c): tagged allocator.
    - [HeapCaps] (components/esp32/heap_alloc_caps.c): start-up of the heap
      and allocation by capability.
    - [IntrAlloc] (components/esp32/intr_alloc.c): interrupts of both CPUs,
      their descriptors, shared lists and handlers.
    - [Ulp] (components/ulp/ulp_macro.c, ulp.c, include/esp32/ulp.h):
      instruction encodings, labels and branches, loading, over the class
      [Qsort] with the laws [QsortLaws].
    - [WearLevel] (components/wear_levelling/WL_Flash.cpp): the object, over
      the class [Flash_Access] of drivers.
    - [WearSpec]: what it guarantees over every driver with [FlashLaws].
    - [WearMount] (components/wear_levelling/wear_levelling.cpp, Partition.cpp,
      SPI_Flash.cpp): the handles, and the drivers with the proof of their laws
      from [RomLaws].
    - [WearWitness]: a flash that fails after some calls, runs and examples.
    - [RtosList] (components/freertos/list.c, include/freertos/list.h): doubly
      linked rings with a marker and an index.
    - [RtosStore]: many lists in one memory, as a map from lists to sequences.
    - [RtosTasks] (components/freertos/tasks.c): the kernel's variables, lists
      of tasks, ticks, delays, suspension, the choice of the task to run, event
      lists, time-outs, creation, deletion and priorities, over the class
      [TaskLists] of the addresses of the lists.
    - [RtosSched]: the invariant of the scheduler and the theorems about it,
      for every placement of the lists that obeys [TaskListsLaws].
    - [RtosWake]: what waking and blocking a task does to the lists, shared by
      queues and event groups.
    - [RtosWitness]: the invariant is decidable; a concrete kernel with four
      tasks on two CPUs.
    - [RtosQueue] (components/freertos/queue.c): queues, semaphores, mutexes
      and queue sets, over the memory of the items.
    - [RtosQueueSpec]: queues as sequences of items, and their waiting tasks.
    - [RtosMutex]: mutexes and the inheritance of priorities.
    - [RtosQueueWitness]: a concrete queue and a concrete mutex.
    - [RtosNotify] (components/freertos/tasks.c): task notifications, periodic
      delays and the state of a task; [RtosNotifyWitness]: a concrete case.
    - [RtosTimers] (components/freertos/timers.c, include/freertos/timers.h):
      software timers, over the class [TimerKernel] of what the timer service
      uses of the kernel.
    - [RtosTimerSpec]: the two lists as a map from timers to due times, and the
      laws [TimerKernelLaws] of the kernel.
    - [RtosTimerService]: what a turn of the service and a command do to that
      map; [RtosTimerCreate]: how a timer comes into it.
    - [RtosTimerWitness]: a small kernel with the laws, runs and examples.
    - [EventGroup] (components/freertos/event_groups.c): event groups; a wait
      is cut in two where the task gives up the CPU.
    - [EventWitness]: a concrete group in that kernel.

    Each C function is a definition of the same name; a loop or a long branch
    of one is a helper definition next to it.  File-static variables are the
    fields of a state record; a function that changes them is a computation
    [M state result], which either returns or stops on a [fault]: a failed
    assertion, [abort], a [NULL] dereference, an access outside an array, a
    division by zero.  Integers are [Z] with the wrap-around of their width
    written out where the code can reach it.  What the code takes from outside
    (ROM functions, the outcome of [malloc] where it can fail, linker symbols,
    addresses of buffers, other tasks) is an argument or a type class with
    laws, and every theorem that uses such a law has a witness with a concrete
    instance.

    ** What the theorems show

    - Invariants of the state, kept by every operation: [Log] (the cache is a
      min-heap that agrees with the tag list), [Vfs] (the table of drivers),
      [FlashMmap] (reference counts are the numbers of live mappings),
      [HeapRegions] and [HeapCaps] (block headers in memory, free list, byte
      counters; blocks held by callers never overlap), [IntrAlloc] (an
      interrupt is held by one caller or shared by several, never both),
      [RtosSched] (every task is in the ready list of its priority or asleep
      in a list sorted by its wake time).
    - Refinement of an abstract machine: [RingBuf] (item rings are FIFO queues
      with loans, byte rings are streams), [Boot] (the boot loader boots what
      the update library recorded), [RtosList] (rings of items are sequences
      with a position, walked round robin), [RtosQueueSpec] (queues are bounded
      double-ended queues), [WearSpec] and [WearMount] (a levelled flash is a
      plain flash, through every move of its pages and through mounts).
    - Loss of power ([WearSpec]): at whatever call of the driver it happens,
      the next start finds the contents.
    - Equivalence with a reference definition: [Ulp] (the macro processor gives
      what an assembler with a table of labels gives, for every [qsort]).
    - Functional behaviour, errors included: the flash operations change
      exactly the bytes they should, the image and table checks accept exactly
      the well-formed ones, allocation is first fit by priority, file
      operations reach the right driver.
    - Round trips: write and read, map and unmap, allocate and free, open and
      use, encode and load.
    - Scheduling ([RtosSched]): the task that is chosen is ready, may run on
      the CPU, is not run by the other one, and no such task has a higher
      priority; a task that delays itself is ready after that many ticks.
      Synchronisation ([EventGroup]): setting bits wakes exactly the tasks
      whose condition is met, and a wait returns the bits that woke it;
      [RtosQueueSpec]: a task that waits for an item gets the one that is sent;
      [RtosMutex]: the holder of a mutex runs at the priority of the task that
      waits for it until it gives back the last mutex that it holds;
      [RtosNotify]: a notification reaches the task that waits for it, unless
      the port is configured to stop in these functions.
    - Time ([RtosTimerService]): over 32-bit ticks that overflow, the timer
      service calls the timers in the order of their due times and none before
      its time, blocks only while nothing is due, and returns as long as its
      queue has room for the commands that it sends to itself.
    - Termination and liveness: theorems say that the code returns, not only
      that a result is right if it does; [RingBuf] also says when a send never
      returns.
    - Where the code falls short of what it means to do, an example or a
      theorem shows the input.

    ** Fuel

    Loops that are not structural take fuel.  Every theorem about such a loop
    either fixes the fuel as the number of rounds the loop can make (sectors
    left to erase, bytes left to copy, segments of an image) or asks for at
    least the length of the list that is walked ([HeapRegions]: the number of
    blocks; [RtosList], [RtosTasks] and [EventGroup]: the number of items in
    memory; [HeapCaps] uses the bound 2^29, more blocks than the address space
    can hold), and shows that [OutOfFuel] does not occur.  A call of
    [RtosQueue] that may block takes, instead of fuel, the rounds of its loop:
    what other tasks do while it gives up the CPU.  The loop of [RtosTimers] over
    the timers that expired before an overflow takes one round for each tick of
    each timer at most.

    ** Not modelled

    Of the FreeRTOS kernel: co-routines (not configured),
    the allocation of stacks, run-time statistics and the port.  The laws of
    [TimerKernelLaws] are shown for a small kernel, not for [RtosQueue], and
    the functions of the timers do not create timers there.  lwIP, mbedTLS,
    Bluetooth, the Wi-Fi supplicant, FAT, expat, nghttp and the JSON parsers
    are third-party code;
    drivers, start-up, panic handling and chip support are register access,
    whose effect lies in the hardware; NVS is a C++ library of its own;
    secure boot and flash encryption of the boot loader are not
    configured.  Of the modelled files, log output and statistics counters
    that are compiled out are not represented, and locks appear as the
    atomicity of the calls they protect.

    ** The prelude itself *)


From stdpp Require Export base tactics list option numbers gmap strings.
From Stdlib Require Export ZArith Lia.

#[local] Open Scope Z_scope.

(** ** Machine integers

    A C integer of [w] bits is a [Z]; unsigned arithmetic is reduced with
    [wrap w], a signed reading of a [w]-bit pattern is [to_signed w]. *)

Definition wrap (w z : Z) : Z := z mod 2 ^ w.
Definition u8 (z : Z) : Z := wrap 8 z.
Definition u16 (z : Z) : Z := wrap 16 z.
Definition u32 (z : Z) : Z := wrap 32 z.

Definition to_signed (w z : Z) : Z :=
  let v := wrap w z in if v <? 2 ^ (w - 1) then v else v - 2 ^ w.

Definition UINT32_MAX : Z := 0xFFFFFFFF.

Lemma wrap_range w z : 0 <= w -> 0 <= wrap w z < 2 ^ w.
Proof. intros. apply Z.mod_pos_bound. apply Z.pow_pos_nonneg; lia. Qed.

Lemma wrap_small w z : 0 <= z < 2 ^ w -> wrap w z = z.
Proof. apply Z.mod_small. Qed.

Lemma u32_range z : 0 <= u32 z < 2 ^ 32.
Proof. apply wrap_range; lia. Qed.

Lemma u32_small z : 0 <= z < 2 ^ 32 -> u32 z = z.
Proof. apply wrap_small. Qed.

Lemma u8_range z : 0 <= u8 z < 256.
Proof. apply (wrap_range 8); lia. Qed.

Lemma u8_small z : 0 <= z < 256 -> u8 z = z.
Proof. apply (wrap_small 8). Qed.

Lemma to_signed_pos w z : 0 < w -> 0 <= z < 2 ^ (w - 1) -> to_signed w z = z.
Proof.
  intros Hw Hz. assert (2 ^ w = 2 * 2 ^ (w - 1)) by (rewrite <- Z.pow_succ_r by lia; f_equal; lia).
  unfold to_signed. rewrite wrap_small by lia. by rewrite (proj2 (Z.ltb_lt _ _)) by lia.
Qed.

(** A multiple of [2^k] or-ed with something below [2^k]. *)
Lemma lor_add k a b : 0 <= k -> 0 <= b < 2 ^ k -> Z.lor (a * 2 ^ k) b = a * 2 ^ k + b.
Proof.
  intros Hk Hb. rewrite <- Z.add_nocarry_lor; [done|]. apply Z.bits_inj'. intros n Hn.
  rewrite Z.land_spec, Z.bits_0. destruct (Z_lt_le_dec n k) as [H|H].
  - by rewrite Z.mul_pow2_bits_low by lia.
  - rewrite <- (Z.mod_small b (2 ^ k)) by lia. by rewrite Z.mod_pow2_bits_high, andb_false_r by lia.
Qed.

(** ** Automation *)

(** Masking the low [k] bits of a [k + j]-bit number away. *)
Lemma land_high k j x :
  0 <= k -> 0 <= j -> 0 <= x < 2 ^ (k + j) -> Z.land x (Z.shiftl (Z.ones j) k) = x - x mod 2 ^ k.
Proof.
  intros Hk Hj Hx.
  assert (Z.land x (Z.shiftl (Z.ones j) k) = Z.shiftl (Z.land (Z.shiftr x k) (Z.ones j)) k) as ->.
  { apply Z.bits_inj'. intros n Hn. rewrite Z.land_spec, !Z.shiftl_spec by lia.
    destruct (Z_lt_le_dec n k) as [H|H]; [by rewrite !(Z.testbit_neg_r _ (n - k)), andb_false_r by lia|].
    rewrite Z.land_spec, Z.shiftr_spec by lia. do 2 f_equal. lia. }
  rewrite Z.land_ones, Z.shiftr_div_pow2, Z.shiftl_mul_pow2 by lia. rewrite Z.pow_add_r in Hx by lia.
  rewrite Z.mod_small by (split; [apply Z.div_pos; lia|apply Z.div_lt_upper_bound; lia]).
  pose proof (Z.div_mod x (2 ^ k) ltac:(lia)). lia.
Qed.

Lemma land_page x : 0 <= x < 2 ^ 32 -> Z.land x 0xffff0000 = x - x mod 65536.
Proof. exact (land_high 16 16 x ltac:(lia) ltac:(lia)). Qed.

Lemma land_word x : 0 <= x < 2 ^ 32 -> Z.land x 0xFFFFFFFC = x - x mod 4.
Proof. exact (land_high 2 30 x ltac:(lia) ltac:(lia)). Qed.

Create HintDb machine.
Create Rewrite HintDb machine.
#[export] Hint Resolve u32_range u8_range : machine.
#[export] Hint Rewrite @length_insert : machine.

(** Turn the boolean tests of the code into the propositions they decide. *)
Ltac simplify_bool :=
  repeat match goal with
  | H : andb _ _ = true |- _ => apply andb_true_iff in H; destruct H
  | H : orb _ _ = false |- _ => apply orb_false_iff in H; destruct H
  | H : negb _ = true |- _ => apply negb_true_iff in H
  | H : negb _ = false |- _ => apply negb_false_iff in H
  | H : (_ =? _) = true |- _ => apply Z.eqb_eq in H
  | H : (_ =? _) = false |- _ => apply Z.eqb_neq in H
  | H : (_ <? _) = true |- _ => apply Z.ltb_lt in H
  | H : (_ <? _) = false |- _ => apply Z.ltb_ge in H
  | H : (_ <=? _) = true |- _ => apply Z.leb_le in H
  | H : (_ <=? _) = false |- _ => apply Z.leb_gt in H
  end.

(** Case analysis on the first [if] of the goal, keeping the test. *)
Ltac case_test :=
  match goal with
  | |- context [if ?b then _ else _] =>
      let E := fresh "E" in destruct b eqn:E; simplify_bool
  end.

(** ** Outcomes of running C code

    A run either returns or stops on one of the faults below: a failed
    [assert]/[configASSERT], a call of [abort], a dereference of [NULL], an
    access outside an array, a division by zero.  [OutOfFuel] marks a loop
    whose bound was too small; the theorems rule it out wherever they state
    that the code returns. *)

Inductive fault : Type :=
| AssertFailed
| Aborted
| NullDeref
| OutOfBounds
| DivByZero
| OutOfFuel.

Inductive outcome (A : Type) : Type :=
| Ret (a : A)
| Stuck (f : fault).
Arguments Ret {A} a.
Arguments Stuck {A} f.

#[export] Instance fault_eq_dec : EqDecision fault.
Proof. solve_decision. Defined.

#[export] Instance outcome_ret : MRet outcome := @Ret.
#[export] Instance outcome_bind : MBind outcome := fun A B f m =>
  match m with Ret a => f a | Stuck e => Stuck e end.

Definition returns {A} (o : outcome A) : Prop := exists a, o = Ret a.

(** State passing with faults: every stateful component runs in [M S] for its
    own state record [S]. *)
Definition M (S A : Type) : Type := S -> outcome (A * S).

#[export] Instance M_ret S : MRet (M S) := fun A a s => Ret (a, s).
#[export] Instance M_bind S : MBind (M S) := fun A B f m s =>
  match m s with Ret (a, s') => f a s' | Stuck e => Stuck e end.

Definition get {S} : M S S := fun s => Ret (s, s).
Definition gets {S A} (f : S -> A) : M S A := fun s => Ret (f s, s).
Definition put {S} (s' : S) : M S unit := fun _ => Ret (tt, s').
Definition modify {S} (f : S -> S) : M S unit := fun s => Ret (tt, f s).
Definition stuck {S A} (e : fault) : M S A := fun _ => Stuck e.
Definition lift {S A} (o : outcome A) : M S A := fun s =>
  match o with Ret a => Ret (a, s) | Stuck e => Stuck e end.
(** [assert(b)] *)
Definition check {S} (b : bool) : M S unit :=
  if b then mret tt else stuck AssertFailed.

(** [for (i = i0; i < i0 + n; ++i) body(i)] *)
Fixpoint for_ {S} (n : nat) (i : Z) (body : Z -> M S unit) : M S unit :=
  match n with
  | O => mret tt
  | Datatypes.S n => body i;; for_ n (i + 1) body
  end.

(** ** C arrays: reads and writes that fault outside the bounds *)

Definition in_range (n : nat) (i : Z) : bool := (0 <=? i) && (i <? Z.of_nat n).

Definition rd {A} (l : list A) (i : Z) : outcome A :=
  if in_range (length l) i
  then match l !! Z.to_nat i with Some a => Ret a | None => Stuck OutOfBounds end
  else Stuck OutOfBounds.

Definition wr {A} (l : list A) (i : Z) (a : A) : outcome (list A) :=
  if in_range (length l) i then Ret (<[Z.to_nat i := a]> l) else Stuck OutOfBounds.

(** The element at [i], for specifications: [d] outside the bounds. *)
Definition at_ {A} (d : A) (l : list A) (i : Z) : A :=
  match rd l i with Ret a => a | Stuck _ => d end.

Lemma in_range_true n i : in_range n i = true <-> 0 <= i < Z.of_nat n.
Proof. unfold in_range. rewrite andb_true_iff, Z.leb_le, Z.ltb_lt. lia. Qed.

Lemma rd_ok {A} (l : list A) i a :
  rd l i = Ret a <-> 0 <= i < Z.of_nat (length l) /\ l !! Z.to_nat i = Some a.
Proof.
  unfold rd. destruct (in_range (length l) i) eqn:E.
  - apply in_range_true in E. destruct (l !! Z.to_nat i) eqn:F; naive_solver.
  - split; [done|]. intros [? _]. apply not_true_iff_false in E.
    destruct E. by apply in_range_true.
Qed.

Lemma rd_in {A} (d : A) (l : list A) i :
  0 <= i < Z.of_nat (length l) -> rd l i = Ret (at_ d l i).
Proof.
  intros H. destruct (lookup_lt_is_Some_2 l (Z.to_nat i)) as [a Ha]; [lia|].
  unfold at_. assert (E : rd l i = Ret a) by (apply rd_ok; done). by rewrite E.
Qed.

Lemma wr_in {A} (l : list A) i a :
  0 <= i < Z.of_nat (length l) -> wr l i a = Ret (<[Z.to_nat i := a]> l).
Proof. intros H. unfold wr. by rewrite (proj2 (in_range_true _ _) H). Qed.

Lemma at_insert_eq {A} (d : A) (l : list A) i a :
  0 <= i < Z.of_nat (length l) -> at_ d (<[Z.to_nat i := a]> l) i = a.
Proof.
  intros H. unfold at_. rewrite (proj2 (rd_ok _ _ a)); [done|].
  rewrite length_insert. split; [lia|]. apply list_lookup_insert_eq. lia.
Qed.

Lemma at_insert_ne {A} (d : A) (l : list A) i j a :
  0 <= i -> i <> j -> at_ d (<[Z.to_nat i := a]> l) j = at_ d l j.
Proof.
  intros Hi Hne. unfold at_, rd. rewrite length_insert.
  destruct (in_range (length l) j) eqn:E; [|done].
  apply in_range_true in E. rewrite list_lookup_insert_ne by lia. done.
Qed.

Lemma at_lookup {A} (d : A) (l : list A) i a :
  0 <= i -> l !! Z.to_nat i = Some a -> at_ d l i = a.
Proof.
  intros Hi H. unfold at_. rewrite (proj2 (rd_ok l i a)); [done|].
  split; [|done]. apply lookup_lt_Some in H. lia.
Qed.

Lemma at_ext {A} (d : A) (l l' : list A) :
  length l = length l' ->
  (forall i, 0 <= i < Z.of_nat (length l) -> at_ d l i = at_ d l' i) -> l = l'.
Proof.
  intros Hlen H. apply list_eq. intros i.
  destruct (l !! i) as [x|] eqn:E, (l' !! i) as [y|] eqn:F; try done.
  - pose proof (lookup_lt_Some _ _ _ E). specialize (H (Z.of_nat i) ltac:(lia)).
    rewrite (at_lookup d l _ x), (at_lookup d l' _ y) in H by (rewrite ?Nat2Z.id; lia || done).
    by rewrite H.
  - apply lookup_lt_Some in E. apply lookup_ge_None in F. lia.
  - apply lookup_lt_Some in F. apply lookup_ge_None in E. lia.
Qed.

(** Filtering the image of a list. *)
Lemma filter_fmap {A B} (f : A -> B) (P : B -> Prop) (Q : A -> Prop)
    `{forall x, Decision (P x)} `{forall x, Decision (Q x)} (l : list A) :
  (forall x, P (f x) <-> Q x) -> filter P (f <$> l) = f <$> filter Q l.
Proof.
  intros E. induction l as [|x l IH]; [done|]. rewrite fmap_cons. destruct (decide (Q x)) as [q|q].
  - rewrite (filter_cons_True P) by (by apply E). by rewrite (filter_cons_True Q), fmap_cons, IH.
  - rewrite (filter_cons_False P) by (by rewrite E). by rewrite (filter_cons_False Q).
Qed.

(** ** Byte buffers *)

Definition within (i n j : Z) : bool := (i <=? j) && (j <? i + n).

Lemma within_spec i n j : within i n j = true <-> i <= j < i + n.
Proof. unfold within. rewrite andb_true_iff, Z.leb_le, Z.ltb_lt. lia. Qed.

Lemma within_false i n j : within i n j = false <-> ~ (i <= j < i + n).
Proof. rewrite <- within_spec. by destruct (within i n j). Qed.

Definition slice {A} (l : list A) (off n : Z) : list A := take (Z.to_nat n) (drop (Z.to_nat off) l).

(** [memcpy(buf + off, data, length data)], faulting outside the buffer. *)
Definition blit (buf : list Z) (off : Z) (data : list Z) : outcome (list Z) :=
  if (0 <=? off) && (off + Z.of_nat (length data) <=? Z.of_nat (length buf))
  then Ret (take (Z.to_nat off) buf ++ data ++ drop (Z.to_nat off + length data) buf)
  else Stuck OutOfBounds.

Lemma at_out {A} (d : A) l i : ~ 0 <= i < Z.of_nat (length l) -> at_ d l i = d.
Proof.
  intros Hi. unfold at_. destruct (rd l i) eqn:E; [|done]. apply rd_ok in E as [? _]. lia.
Qed.

Lemma at_app {A} (d : A) l1 l2 i :
  0 <= i -> at_ d (l1 ++ l2) i = if i <? Z.of_nat (length l1) then at_ d l1 i
                       else at_ d l2 (i - Z.of_nat (length l1)).
Proof.
  intros H0. destruct (Z_lt_le_dec i (Z.of_nat (length (l1 ++ l2)))) as [Hi|Hi].
  - rewrite length_app in Hi.
    destruct (lookup_lt_is_Some_2 (l1 ++ l2) (Z.to_nat i)) as [x Hx]; [rewrite length_app; lia|].
    rewrite (at_lookup d _ _ x H0 Hx). case_test.
    + rewrite lookup_app_l in Hx by lia. by rewrite (at_lookup d l1 i x).
    + rewrite lookup_app_r in Hx by lia. rewrite (at_lookup d l2 _ x); [done|lia|].
      by replace (Z.to_nat (i - Z.of_nat (length l1))) with (Z.to_nat i - length l1)%nat by lia.
  - rewrite at_out by lia. rewrite length_app in Hi. case_test; [lia|]. by rewrite at_out by lia.
Qed.

Lemma at_slice {A} (d : A) l off n i :
  0 <= off -> 0 <= n -> off + n <= Z.of_nat (length l) ->
  at_ d (slice l off n) i = if within 0 n i then at_ d l (off + i) else d.
Proof.
  intros H0 H1 H2. assert (Hl : length (slice l off n) = Z.to_nat n).
  { unfold slice. rewrite length_take, length_drop. lia. }
  destruct (within 0 n i) eqn:E.
  - apply within_spec in E. destruct (lookup_lt_is_Some_2 l (Z.to_nat (off + i))) as [x Hx]; [lia|].
    rewrite (at_lookup d l _ x) by (lia || done). apply at_lookup; [lia|].
    unfold slice. rewrite lookup_take_lt by lia. rewrite lookup_drop.
    by replace (Z.to_nat off + Z.to_nat i)%nat with (Z.to_nat (off + i)) by lia.
  - apply within_false in E. apply at_out. lia.
Qed.

Lemma length_slice {A} (l : list A) off n :
  0 <= off -> 0 <= n -> off + n <= Z.of_nat (length l) -> Z.of_nat (length (slice l off n)) = n.
Proof. intros. unfold slice. rewrite length_take, length_drop. lia. Qed.

Lemma blit_spec buf off data :
  0 <= off -> off + Z.of_nat (length data) <= Z.of_nat (length buf) ->
  exists buf', blit buf off data = Ret buf' /\ length buf' = length buf
    /\ forall i, at_ 0 buf' i = if within off (Z.of_nat (length data)) i then at_ 0 data (i - off)
                                else at_ 0 buf i.
Proof.
  intros H0 H1. unfold blit. rewrite (proj2 (Z.leb_le 0 off) H0), (proj2 (Z.leb_le _ _) H1).
  eexists. split; [done|]. split; [rewrite !length_app, length_take, length_drop; lia|].
  intros i. destruct (Z_lt_le_dec i 0) as [Hi|Hi].
  { rewrite !at_out by lia. rewrite (proj2 (within_false _ _ _)) by lia. done. }
  rewrite !at_app by lia. rewrite length_take.
  replace (Z.of_nat (Z.to_nat off `min` length buf)) with off by lia.
  unfold within. destruct (Z.ltb_spec i off) as [Hlt|Hge].
  - rewrite (proj2 (Z.leb_gt off i)) by lia. cbn [andb].
    change (take (Z.to_nat off) buf) with (slice buf 0 off). rewrite at_slice by lia.
    rewrite (proj2 (within_spec _ _ _)) by lia. done.
  - rewrite (proj2 (Z.leb_le off i)) by lia. cbn [andb]. rewrite at_app by lia.
    destruct (Z.ltb_spec (i - off) (Z.of_nat (length data)));
      [by rewrite (proj2 (Z.ltb_lt _ _)) by lia|rewrite (proj2 (Z.ltb_ge _ _)) by lia].
    destruct (Z_lt_le_dec i (Z.of_nat (length buf))) as [Hb|Hb].
    + destruct (lookup_lt_is_Some_2 buf (Z.to_nat i)) as [x Hx]; [lia|].
      rewrite (at_lookup 0 buf i x) by (lia || done). apply at_lookup; [lia|].
      rewrite lookup_drop. rewrite <- Hx. f_equal. lia.
    + rewrite !at_out; [done|lia|rewrite length_drop; lia].
Qed.

(** ** Little-endian fields *)

(** The number a little-endian field holds, and the field of [n] bytes that
    holds a number. *)
Definition le_decode (l : list Z) : Z := foldr (fun b acc => b + 256 * acc) 0 l.

Fixpoint le_encode (n : nat) (z : Z) : list Z :=
  match n with
  | O => []
  | S n => z mod 256 :: le_encode n (z / 256)
  end.

Lemma length_le_encode n z : length (le_encode n z) = n.
Proof. revert z. induction n as [|n IH]; intros z; cbn; [done|]. by rewrite IH. Qed.

Lemma le_encode_bytes n z : Forall (fun b => 0 <= b < 256) (le_encode n z).
Proof.
  revert z. induction n as [|n IH]; intros z; cbn [le_encode]; constructor; [|apply IH].
  apply Z.mod_pos_bound. lia.
Qed.

Lemma le_decode_encode n z : 0 <= z < 256 ^ Z.of_nat n -> le_decode (le_encode n z) = z.
Proof.
  revert z. induction n as [|n IH]; intros z Hz; [cbn in *; lia|].
  cbn [le_encode]. change (le_decode (?x :: ?l)) with (x + 256 * le_decode l).
  replace (Z.of_nat (S n)) with (Z.of_nat n + 1) in Hz by lia.
  rewrite Z.pow_add_r in Hz by lia. rewrite IH.
  - pose proof (Z.div_mod z 256 ltac:(lia)). lia.
  - split; [apply Z.div_pos; lia|]. apply Z.div_lt_upper_bound; lia.
Qed.

Lemma slice_app_l {A} (l1 l2 : list A) n :
  n = Z.of_nat (length l1) -> slice (l1 ++ l2) 0 n = l1.
Proof. intros ->. unfold slice. rewrite Nat2Z.id. change (Z.to_nat 0) with 0%nat. apply take_app_length. Qed.

Lemma slice_app_r {A} (l1 l2 : list A) off n :
  Z.of_nat (length l1) <= off -> slice (l1 ++ l2) off n = slice l2 (off - Z.of_nat (length l1)) n.
Proof.
  intros H. unfold slice. f_equal. rewrite drop_app_ge by lia. f_equal. lia.
Qed.

(** A field between [l1] and [l2]. *)
Lemma slice_field {A} (l l1 f l2 : list A) off n :
  l = l1 ++ f ++ l2 -> off = Z.of_nat (length l1) -> n = Z.of_nat (length f) -> slice l off n = f.
Proof.
  intros -> -> ->. rewrite slice_app_r by lia. rewrite Z.sub_diag. by apply slice_app_l.
Qed.

(** ** Total correctness of a stateful run *)

Definition wp {S A} (m : M S A) (Q : A -> S -> Prop) (s : S) : Prop :=
  match m s with Ret (a, s') => Q a s' | Stuck _ => False end.

Section WP.
Context {S A B : Type}.
Implicit Types (s : S).

Lemma wp_ret (a : A) (Q : A -> S -> Prop) s : Q a s -> wp (mret a) Q s.
Proof. done. Qed.

Lemma wp_bind (m : M S A) (k : A -> M S B) Q s :
  wp m (fun a s' => wp (k a) Q s') s -> wp (m ≫= k) Q s.
Proof. unfold wp, mbind, M_bind. by destruct (m s) as [[a s']|]. Qed.

Lemma wp_get (Q : S -> S -> Prop) s : Q s s -> wp get Q s.
Proof. done. Qed.

Lemma wp_gets (f : S -> A) Q s : Q (f s) s -> wp (gets f) Q s.
Proof. done. Qed.

Lemma wp_put (s' : S) Q s : Q tt s' -> wp (put s') Q s.
Proof. done. Qed.

Lemma wp_modify (f : S -> S) Q s : Q tt (f s) -> wp (modify f) Q s.
Proof. done. Qed.

Lemma wp_check (b : bool) Q s : b = true -> Q tt s -> wp (check b) Q s.
Proof. by intros ->. Qed.

Lemma wp_lift (o : outcome A) (a : A) Q s : o = Ret a -> Q a s -> wp (lift o) Q s.
Proof. by intros ->. Qed.

Lemma wp_mono (m : M S A) (P Q : A -> S -> Prop) s :
  wp m P s -> (forall a s', P a s' -> Q a s') -> wp m Q s.
Proof. unfold wp. destruct (m s) as [[a s']|]; naive_solver. Qed.

Lemma wp_run (m : M S A) a s' (Q : A -> S -> Prop) s :
  m s = Ret (a, s') -> Q a s' -> wp m Q s.
Proof. unfold wp. by intros ->. Qed.

Lemma wp_inv (m : M S A) (Q : A -> S -> Prop) s :
  wp m Q s -> exists a s', m s = Ret (a, s') /\ Q a s'.
Proof. unfold wp. destruct (m s) as [[a s']|]; naive_solver. Qed.

Lemma wp_and (m : M S A) (P Q : A -> S -> Prop) s :
  wp m P s -> wp m Q s -> wp m (fun a s' => P a s' /\ Q a s') s.
Proof. unfold wp. destruct (m s) as [[a s']|]; naive_solver. Qed.
End WP.

(** The loop rule: [I k] holds after [k] rounds. *)
Lemma wp_for {S} (body : Z -> M S unit) (I : nat -> S -> Prop) n i s :
  I 0%nat s ->
  (forall k s, (k < n)%nat -> I k s ->
     wp (body (i + Z.of_nat k)) (fun _ s' => I (Datatypes.S k) s') s) ->
  wp (for_ n i body) (fun _ s' => I n s') s.
Proof.
  revert i I s. induction n as [|n IH]; intros i I s H0 Hstep; [done|].
  cbn [for_]. apply wp_bind. eapply wp_mono.
  { pose proof (Hstep 0%nat s ltac:(lia) H0) as H. by rewrite Z.add_0_r in H. }
  intros ? s1 H1. apply (IH (i + 1) (fun k => I (Datatypes.S k))); [done|].
  intros k s2 Hk Hs2. replace (i + 1 + Z.of_nat k) with (i + Z.of_nat (Datatypes.S k)) by lia.
  apply Hstep; [lia|done].
Qed.

(** ** Relations every returning run respects

    [respects R m]: whenever [m] returns, the states before and after are
    related by [R].  For a preorder [R] the primitives compose, so that the
    frame conditions of long handlers are proved by [auto with respects]. *)

Definition respects {S A} (R : S -> S -> Prop) (m : M S A) : Prop :=
  forall s a s', m s = Ret (a, s') -> R s s'.

Lemma bind_Ret {S A B} (m : M S A) (k : A -> M S B) s b s' :
  (m ≫= k) s = Ret (b, s') <-> exists a s1, m s = Ret (a, s1) /\ k a s1 = Ret (b, s').
Proof.
  unfold mbind, M_bind. split.
  - destruct (m s) as [[a s1]|]; [|done]. eauto.
  - by intros (a & s1 & -> & ?).
Qed.

Lemma run_bind {S A B} (m : M S A) (k : A -> M S B) s a s1 :
  m s = Ret (a, s1) -> (m ≫= k) s = k a s1.
Proof. unfold mbind, M_bind. by intros ->. Qed.

Lemma lift_Ret {S A} (o : outcome A) a (s : S) : o = Ret a -> lift o s = Ret (a, s).
Proof. by intros ->. Qed.

Section Respects.
Context {S : Type} (R : S -> S -> Prop) `{!PreOrder R}.

Lemma respects_ret {A} (a : A) : respects R (mret a : M S A).
Proof. intros s b s' [= <- <-]. reflexivity. Qed.

Lemma respects_bind {A B} (m : M S A) (k : A -> M S B) :
  respects R m -> (forall a, respects R (k a)) -> respects R (m ≫= k).
Proof.
  intros Hm Hk s b s' (a & s1 & H1 & H2)%bind_Ret.
  transitivity s1; [by eapply Hm|by eapply Hk].
Qed.

Lemma respects_get : respects R (get : M S S).
Proof. intros s b s' [= <- <-]. reflexivity. Qed.

Lemma respects_gets {A} (f : S -> A) : respects R (gets f).
Proof. intros s b s' [= <- <-]. reflexivity. Qed.

Lemma respects_stuck {A} f : respects R (stuck f : M S A).
Proof. done. Qed.

Lemma respects_lift {A} (o : outcome A) : respects R (lift o).
Proof. intros s b s'. destruct o; [|done]. intros [= <- <-]. reflexivity. Qed.

Lemma respects_check b : respects R (check b).
Proof. destruct b; [apply respects_ret|done]. Qed.

Lemma respects_modify (f : S -> S) : (forall s, R s (f s)) -> respects R (modify f).
Proof. intros H s b s' [= <- <-]. apply H. Qed.

Lemma respects_if {A} (b : bool) (m1 m2 : M S A) :
  respects R m1 -> respects R m2 -> respects R (if b then m1 else m2).
Proof. by destruct b. Qed.

Lemma respects_option {A B} (o : option A) (m1 : A -> M S B) (m2 : M S B) :
  (forall a, respects R (m1 a)) -> respects R m2 ->
  respects R (match o with Some a => m1 a | None => m2 end).
Proof. destruct o; auto. Qed.
End Respects.

Create HintDb respects.
#[export] Hint Resolve respects_ret respects_get respects_gets respects_stuck
  respects_lift respects_check respects_modify : respects.

(** Walk through a handler, leaving the calls no hint covers. *)
Ltac respects_auto :=
  repeat (cbn beta; match goal with
  | |- forall _, _ => intros
  | |- respects _ (if _ then _ else _) => apply respects_if
  | |- respects _ (match _ with Some _ => _ | None => _ end) => apply respects_option
  | |- respects _ (mbind _ _) => apply respects_bind
  | |- respects _ (let '(_, _) := ?p in _) => destruct p
  | |- respects _ _ => solve [eauto with respects typeclass_instances]
  | |- PreOrder _ => typeclasses eauto
  end).

(** [wp_step] runs one primitive of a command under [wp]; [wp_steps] all
    that need no side condition. *)
Ltac wp_step :=
  lazymatch goal with
  | |- wp (mbind _ _) _ _ => apply wp_bind
  | |- wp (mret _) _ _ => apply wp_ret
  | |- wp get _ _ => apply wp_get
  | |- wp (gets _) _ _ => apply wp_gets
  | |- wp (put _) _ _ => apply wp_put
  | |- wp (modify _) _ _ => apply wp_modify
  end; cbn beta.
Ltac wp_steps := repeat wp_step.

Lemma wp_rd {S A} (d : A) (l : list A) i (Q : A -> S -> Prop) s :
  0 <= i < Z.of_nat (length l) -> Q (at_ d l i) s -> wp (lift (rd l i)) Q s.
Proof. intros Hi. apply wp_lift, rd_in, Hi. Qed.

Lemma wp_wr {S A} (l : list A) i a (Q : list A -> S -> Prop) s :
  0 <= i < Z.of_nat (length l) -> Q (<[Z.to_nat i := a]> l) s -> wp (lift (wr l i a)) Q s.
Proof. intros Hi. apply wp_lift, wr_in, Hi. Qed.

(** One access to an array of numbers whose length is in the context. *)
Ltac wp_arr :=
  lazymatch goal with
  | |- wp (lift (rd _ _)) _ _ => apply (wp_rd 0); [rewrite ?length_insert; lia|]
  | |- wp (lift (wr _ _ _)) _ _ => apply wp_wr; [rewrite ?length_insert; lia|]
  end; cbn beta.

(** ** Error codes (components/esp32/include/esp_err.h) *)

Definition esp_err_t : Type := Z.
Definition ESP_OK : esp_err_t := 0.
Definition ESP_FAIL : esp_err_t := -1.
Definition ESP_ERR_NO_MEM : esp_err_t := 0x101.
Definition ESP_ERR_INVALID_ARG : esp_err_t := 0x102.
Definition ESP_ERR_INVALID_STATE : esp_err_t := 0x103.
Definition ESP_ERR_INVALID_SIZE : esp_err_t := 0x104.
Definition ESP_ERR_NOT_FOUND : esp_err_t := 0x105.
Definition ESP_ERR_NOT_SUPPORTED : esp_err_t := 0x106.
