(* ===== verification/Log.v ===== *)
(** * The log library (components/log/log.c)

    Every tag passed to [esp_log_level_set] is kept in a linked list, searched
    by string; the levels of the tags that were used recently are cached in a
    31-entry binary min-heap ordered on a generation counter, searched by
    pointer.  The list [s_log_tags] is the linked list from head to tail.  The
    mutex makes each call atomic; whether the wait for it timed out, and
    whether [malloc] succeeded, are arguments of the calls. *)

From S2P Require Import Prelude.

#[local] Open Scope Z_scope.

Module Log.

Definition TAG_CACHE_SIZE : nat := 31.

(** [level] is a 3-bit and [generation] a 29-bit field. *)
Record cached_tag_entry_t := Cached {
  c_tag : Z;
  c_level : Z;
  c_generation : Z
}.

Definition cached_entry (tag level generation : Z) : cached_tag_entry_t :=
  Cached tag (wrap 3 level) (wrap 29 generation).

Record uncached_tag_entry_t := Uncached { u_level : Z; u_tag : string }.

Record log_state := LogState {
  s_log_default_level : Z;
  s_log_tags : list uncached_tag_entry_t;
  s_log_cache : list cached_tag_entry_t;
  s_log_cache_max_generation : Z;
  s_log_cache_entry_count : nat;
  s_log_print_func : Z;
  timestamp_base : Z
}.

(** Static storage starts zeroed. *)
#[export] Instance cached_inhabited : Inhabited cached_tag_entry_t :=
  populate (Cached 0 0 0).

Definition ESP_LOG_VERBOSE : Z := 5.

Definition initial_state (vprintf : Z) : log_state :=
  LogState ESP_LOG_VERBOSE [] (replicate TAG_CACHE_SIZE (Cached 0 0 0)) 0 0 vprintf 0.

Definition with_cache (st : log_state) (cache : list cached_tag_entry_t)
    (max_generation : Z) (count : nat) : log_state :=
  LogState (s_log_default_level st) (s_log_tags st) cache max_generation count
    (s_log_print_func st) (timestamp_base st).

Definition gen (cache : list cached_tag_entry_t) (i : nat) : Z :=
  c_generation (cache !!! i).

Definition heap_swap (cache : list cached_tag_entry_t) (i j : nat) :
    list cached_tag_entry_t :=
  let tmp := cache !!! i in
  <[j := tmp]> (<[i := cache !!! j]> cache).

(** The loop of [heap_bubble_down]; [fuel] bounds its iterations. *)
Fixpoint bubble_loop (fuel : nat) (cache : list cached_tag_entry_t) (index : nat) :
    list cached_tag_entry_t :=
  match fuel with
  | O => cache
  | S fuel =>
      if (index <? TAG_CACHE_SIZE / 2)%nat then
        let left_index := (index * 2 + 1)%nat in
        let right_index := (left_index + 1)%nat in
        let next := if gen cache left_index <? gen cache right_index
                    then left_index else right_index in
        bubble_loop fuel (heap_swap cache index next) next
      else cache
  end.

Definition heap_bubble_down (cache : list cached_tag_entry_t) (index : nat) :
    list cached_tag_entry_t :=
  bubble_loop TAG_CACHE_SIZE cache index.

#[global] Arguments heap_bubble_down : simpl never.
#[global] Arguments TAG_CACHE_SIZE : simpl never.

(** First index from [i] on whose entry carries the pointer [tag]. *)
Fixpoint find_cached (tag : Z) (es : list cached_tag_entry_t) (i : nat) : option nat :=
  match es with
  | [] => None
  | e :: es => if c_tag e =? tag then Some i else find_cached tag es (S i)
  end.

Definition get_cached_log_level (tag : Z) (st : log_state) : option Z * log_state :=
  let cache := s_log_cache st in
  let count := s_log_cache_entry_count st in
  match find_cached tag (take count cache) 0 with
  | None => (None, st)
  | Some i =>
      let level := c_level (cache !!! i) in
      if (count =? TAG_CACHE_SIZE)%nat then
        let e := cache !!! i in
        let g := s_log_cache_max_generation st in
        let cache := <[i := Cached (c_tag e) (c_level e) (wrap 29 g)]> cache in
        (Some level, with_cache st (heap_bubble_down cache i) (u32 (g + 1)) count)
      else (Some level, st)
  end.

Definition add_to_cache (tag level : Z) (st : log_state) : log_state :=
  let generation := s_log_cache_max_generation st in
  let max_generation := u32 (generation + 1) in
  let cache := s_log_cache st in
  let count := s_log_cache_entry_count st in
  let e := cached_entry tag level generation in
  if (count <? TAG_CACHE_SIZE)%nat
  then with_cache st (<[count := e]> cache) max_generation (S count)
  else with_cache st (heap_bubble_down (<[0%nat := e]> cache) 0) max_generation count.

Definition should_output (level_for_message level_for_tag : Z) : bool :=
  level_for_message <=? level_for_tag.

Definition clear_log_level_list (st : log_state) : log_state :=
  LogState (s_log_default_level st) [] (s_log_cache st) 0 0
    (s_log_print_func st) (timestamp_base st).

Definition esp_log_set_vprintf (func : Z) (st : log_state) : log_state :=
  LogState (s_log_default_level st) (s_log_tags st) (s_log_cache st)
    (s_log_cache_max_generation st) (s_log_cache_entry_count st) func (timestamp_base st).

Section Calls.
(** The zero-terminated string a [const char*] points to. *)
Context (str : Z -> string).

Fixpoint get_uncached_log_level (tag : Z) (tags : list uncached_tag_entry_t) : option Z :=
  match tags with
  | [] => None
  | it :: rest =>
      if String.eqb (str tag) (u_tag it) then Some (u_level it)
      else get_uncached_log_level tag rest
  end.

Definition esp_log_level_set (malloc_ok : bool) (tag level : Z) (st : log_state) : log_state :=
  if String.eqb (str tag) "*" then
    clear_log_level_list
      (LogState level (s_log_tags st) (s_log_cache st) (s_log_cache_max_generation st)
         (s_log_cache_entry_count st) (s_log_print_func st) (timestamp_base st))
  else if malloc_ok then
    LogState (s_log_default_level st) (s_log_tags st ++ [Uncached (u8 level) (str tag)])
      (s_log_cache st) (s_log_cache_max_generation st) (s_log_cache_entry_count st)
      (s_log_print_func st) (timestamp_base st)
  else st.

(** The result says which print function was called, if any. *)
Definition esp_log_write (mutex_taken : bool) (level tag : Z) (st : log_state) :
    option Z * log_state :=
  if mutex_taken then
    let '(level_for_tag, st) :=
      match get_cached_log_level tag st with
      | (Some l, st) => (l, st)
      | (None, st) =>
          let l := match get_uncached_log_level tag (s_log_tags st) with
                   | Some l => l
                   | None => s_log_default_level st
                   end in
          (l, add_to_cache tag l st)
      end in
    if should_output level level_for_tag then (Some (s_log_print_func st), st)
    else (None, st)
  else (None, st).
End Calls.

Definition CPU_CLK_FREQ_ROM : Z := 26 * 1000000.

Definition esp_log_early_timestamp (ccount : Z) : Z := ccount / (CPU_CLK_FREQ_ROM / 1000).

Definition esp_log_timestamp (tick_rate_hz : Z) (scheduler_started : bool)
    (ccount ticks : Z) (st : log_state) : Z * log_state :=
  if scheduler_started then
    let base := if timestamp_base st =? 0 then esp_log_early_timestamp ccount
                else timestamp_base st in
    (u32 (base + ticks * (1000 / tick_rate_hz)),
     LogState (s_log_default_level st) (s_log_tags st) (s_log_cache st)
       (s_log_cache_max_generation st) (s_log_cache_entry_count st)
       (s_log_print_func st) base)
  else (esp_log_early_timestamp ccount, st).

(** ** The heap *)

Definition parent (i : nat) : nat := ((i - 1) / 2)%nat.

(** The check of [LOG_BUILTIN_CHECKS], over the first [n] entries. *)
Definition heap_ordered (n : nat) (cache : list cached_tag_entry_t) : Prop :=
  forall i, (0 < i < n)%nat -> gen cache (parent i) < gen cache i.

Definition distinct_generations (n : nat) (cache : list cached_tag_entry_t) : Prop :=
  forall i j, (i < n)%nat -> (j < n)%nat -> gen cache i = gen cache j -> i = j.

(** While [heap_bubble_down] runs, only the entry at [p] is out of place: it
    is younger than every other one, and its parent is older than its
    children. *)
Record bubbling (p : nat) (cache : list cached_tag_entry_t) : Prop := {
  bub_length : length cache = TAG_CACHE_SIZE;
  bub_index : (p < TAG_CACHE_SIZE)%nat;
  bub_order : forall i, (0 < i < TAG_CACHE_SIZE)%nat -> parent i <> p ->
    gen cache (parent i) < gen cache i;
  bub_grand : forall i, (0 < i < TAG_CACHE_SIZE)%nat -> parent i = p -> (0 < p)%nat ->
    gen cache (parent p) < gen cache i;
  bub_max : forall i, (i < TAG_CACHE_SIZE)%nat -> i <> p -> gen cache i < gen cache p;
  bub_distinct : distinct_generations TAG_CACHE_SIZE cache
}.

Lemma parent_child i p : (0 < i)%nat -> parent i = p -> (i = 2 * p + 1 \/ i = 2 * p + 2)%nat.
Proof.
  unfold parent. intros Hi <-. pose proof (Nat.div_mod_eq (i - 1) 2).
  pose proof (Nat.mod_upper_bound (i - 1) 2). lia.
Qed.

Lemma child_parent i p : (i = 2 * p + 1 \/ i = 2 * p + 2)%nat -> parent i = p.
Proof.
  unfold parent. intros [-> | ->]; symmetry; [apply (Nat.div_unique _ _ _ 0) | apply (Nat.div_unique _ _ _ 1)]; lia.
Qed.

Lemma parent_lt i : (0 < i)%nat -> (parent i < i)%nat.
Proof. intros. destruct (parent_child i (parent i)); lia. Qed.

Lemma lookup_total_swap cache i j k :
  (i < length cache)%nat -> (j < length cache)%nat ->
  heap_swap cache i j !!! k
  = if decide (k = j) then cache !!! i else if decide (k = i) then cache !!! j else cache !!! k.
Proof.
  intros Hi Hj. unfold heap_swap. case_decide; subst.
  - apply list_lookup_total_insert_eq. by rewrite length_insert.
  - rewrite list_lookup_total_insert_ne by done. case_decide; subst.
    + by apply list_lookup_total_insert_eq.
    + by apply list_lookup_total_insert_ne.
Qed.

Lemma heap_swap_permutation cache i j :
  (i < length cache)%nat -> (j < length cache)%nat -> heap_swap cache i j ≡ₚ cache.
Proof.
  intros Hi Hj. unfold heap_swap.
  apply (Permutation_insert_swap cache i j); by apply list_lookup_lookup_total_lt.
Qed.

(** One iteration of the loop. *)
Lemma bubbling_step p cache :
  bubbling p cache -> (p < TAG_CACHE_SIZE / 2)%nat ->
  let next := if gen cache (p * 2 + 1) <? gen cache (p * 2 + 1 + 1)
              then (p * 2 + 1)%nat else (p * 2 + 1 + 1)%nat in
  bubbling next (heap_swap cache p next).
Proof.
  intros [Hlen Hp Hord Hgr Hmax Hd] Hlt next.
  change (TAG_CACHE_SIZE / 2)%nat with 15%nat in Hlt.
  assert (Hnext : (next = 2 * p + 1 \/ next = 2 * p + 2)%nat) by (unfold next; case_match; lia).
  assert (Hpn : parent next = p) by by apply child_parent.
  assert (Hn31 : (next < TAG_CACHE_SIZE)%nat) by (unfold TAG_CACHE_SIZE; lia).
  assert (Hmin : forall i, (0 < i)%nat -> parent i = p -> i <> next -> gen cache next < gen cache i).
  { intros i Hi Hpi Hne. apply parent_child in Hpi; [|done].
    assert (gen cache i <> gen cache next).
    { intros E. apply Hne, Hd; unfold TAG_CACHE_SIZE; [lia..|done]. }
    unfold next in *. destruct (Z.ltb_spec (gen cache (p * 2 + 1)) (gen cache (p * 2 + 1 + 1))).
    - replace i with (p * 2 + 1 + 1)%nat in * by lia. lia.
    - replace i with (p * 2 + 1)%nat in * by lia. lia. }
  assert (Hsw : forall k, gen (heap_swap cache p next) k
    = if decide (k = next) then gen cache p else if decide (k = p) then gen cache next else gen cache k).
  { intros k. unfold gen. rewrite lookup_total_swap by (rewrite Hlen; done).
    by repeat case_decide. }
  clearbody next. split.
  - unfold heap_swap. by rewrite !length_insert.
  - done.
  - intros i Hi Hne. rewrite !Hsw. pose proof (parent_lt i).
    repeat case_decide; try congruence; try lia.
    + apply Hmax; lia.
    + apply Hmin; [lia|done|done].
    + replace i with p in * by done. apply Hgr; lia.
    + apply Hord; [lia|done].
  - intros i Hi Hpi Hpos. rewrite !Hsw. pose proof (parent_lt i). pose proof (parent_lt next).
    repeat case_decide; try congruence; try lia.
    rewrite <- Hpi. apply Hord; lia.
  - intros i Hi Hne. rewrite !Hsw. repeat case_decide; try congruence; apply Hmax; lia.
  - intros i j Hi Hj. rewrite !Hsw. repeat case_decide; try congruence; intros E;
      apply Hd in E; try done; congruence.
Qed.

Lemma bubble_loop_spec fuel cache p :
  bubbling p cache -> (TAG_CACHE_SIZE <= p + fuel)%nat ->
  let cache' := bubble_loop fuel cache p in
  heap_ordered TAG_CACHE_SIZE cache' /\ distinct_generations TAG_CACHE_SIZE cache'
  /\ cache' ≡ₚ cache.
Proof.
  revert cache p. induction fuel as [|fuel IH]; intros cache p Hb Hf.
  - pose proof (bub_index _ _ Hb). lia.
  - cbn [bubble_loop]. destruct (Nat.ltb_spec p (TAG_CACHE_SIZE / 2)) as [Hlt|Hge].
    + pose proof (bubbling_step _ _ Hb Hlt) as Hs. cbv zeta in Hs |- *.
      set (next := if _ <? _ then _ else _) in *.
      assert ((p < next)%nat) by (unfold next; case_match; lia).
      destruct (IH _ _ Hs) as (H1 & H2 & H3); [lia|].
      split; [done|]. split; [done|]. rewrite H3.
      apply heap_swap_permutation; rewrite (bub_length _ _ Hb).
      * apply (bub_index _ _ Hb).
      * apply (bub_index _ _ Hs).
    + split; [|split; [apply Hb|done]]. intros i Hi. apply (bub_order _ _ Hb); [done|].
      intros Hp. apply parent_child in Hp; [|lia].
      change (TAG_CACHE_SIZE / 2)%nat with 15%nat in Hge. unfold TAG_CACHE_SIZE in *. lia.
Qed.

Lemma heap_bubble_down_spec cache p :
  bubbling p cache ->
  heap_ordered TAG_CACHE_SIZE (heap_bubble_down cache p)
  /\ distinct_generations TAG_CACHE_SIZE (heap_bubble_down cache p)
  /\ heap_bubble_down cache p ≡ₚ cache.
Proof. intros H. apply bubble_loop_spec; [done|lia]. Qed.

(** Putting an entry younger than all others at [p] of an ordered heap starts
    a bubble-down. *)
Lemma bubbling_insert p cache e :
  length cache = TAG_CACHE_SIZE -> (p < TAG_CACHE_SIZE)%nat ->
  heap_ordered TAG_CACHE_SIZE cache -> distinct_generations TAG_CACHE_SIZE cache ->
  (forall i, (i < TAG_CACHE_SIZE)%nat -> gen cache i < c_generation e) ->
  bubbling p (<[p := e]> cache).
Proof.
  intros Hlen Hp Ho Hd Hmax.
  assert (Hg : forall k, gen (<[p := e]> cache) k = if decide (k = p) then c_generation e else gen cache k).
  { intros k. unfold gen. case_decide; subst.
    - by rewrite list_lookup_total_insert_eq by (rewrite Hlen; done).
    - by rewrite list_lookup_total_insert_ne by done. }
  split; try done.
  - by rewrite length_insert.
  - intros i Hi Hne. rewrite !Hg. pose proof (parent_lt i).
    repeat case_decide; subst; try congruence; try lia; [apply Hmax; lia|apply Ho; lia].
  - intros i Hi Hpi Hpos. rewrite !Hg. pose proof (parent_lt i). pose proof (parent_lt p).
    repeat case_decide; subst; try congruence; try lia.
    pose proof (Ho (parent i)). pose proof (Ho i). lia.
  - intros i Hi Hne. rewrite !Hg. repeat case_decide; subst; try congruence. by apply Hmax.
  - intros i j Hi Hj. rewrite !Hg. repeat case_decide; subst; try done; intros E.
    + pose proof (Hmax j Hj). lia.
    + pose proof (Hmax i Hi). lia.
    + by apply Hd.
Qed.

(** ** The state invariant *)

Definition live (st : log_state) : list cached_tag_entry_t :=
  take (s_log_cache_entry_count st) (s_log_cache st).

Record log_inv (st : log_state) : Prop := {
  inv_length : length (s_log_cache st) = TAG_CACHE_SIZE;
  inv_count : (s_log_cache_entry_count st <= TAG_CACHE_SIZE)%nat;
  inv_max : 0 <= s_log_cache_max_generation st <= 2 ^ 29;
  inv_gens : Forall (fun e => 0 <= c_generation e < s_log_cache_max_generation st) (live st);
  inv_order : heap_ordered (s_log_cache_entry_count st) (s_log_cache st);
  inv_distinct : distinct_generations (s_log_cache_entry_count st) (s_log_cache st);
  inv_tags : NoDup (c_tag <$> live st)
}.

Lemma live_lookup st i :
  log_inv st -> (i < s_log_cache_entry_count st)%nat ->
  live st !! i = Some (s_log_cache st !!! i).
Proof.
  intros H Hi. unfold live. rewrite lookup_take_lt by done.
  apply list_lookup_lookup_total_lt. rewrite (inv_length _ H).
  pose proof (inv_count _ H). lia.
Qed.

Lemma live_full st :
  log_inv st -> s_log_cache_entry_count st = TAG_CACHE_SIZE -> live st = s_log_cache st.
Proof. intros H Hc. unfold live. apply take_ge. rewrite (inv_length _ H). lia. Qed.

Lemma gen_bound st i :
  log_inv st -> (i < s_log_cache_entry_count st)%nat ->
  gen (s_log_cache st) i < s_log_cache_max_generation st.
Proof.
  intros H Hi. pose proof (inv_gens _ H) as Hg. rewrite Forall_lookup in Hg.
  destruct (Hg i _ (live_lookup _ _ H Hi)). done.
Qed.

Lemma find_cached_Some tag es i k :
  find_cached tag es i = Some k ->
  (i <= k < i + length es)%nat /\ exists e, es !! (k - i)%nat = Some e /\ c_tag e = tag.
Proof.
  revert i. induction es as [|e es IH]; intros i; cbn; [done|].
  destruct (Z.eqb_spec (c_tag e) tag).
  - intros [= <-]. split; [lia|]. exists e. by rewrite Nat.sub_diag.
  - intros H. destruct (IH _ H) as (Hr & e' & He & Ht). split; [lia|].
    exists e'. split; [|done]. replace (k - i)%nat with (S (k - S i)) by lia. done.
Qed.

Lemma find_cached_None tag es i :
  find_cached tag es i = None -> tag ∉ c_tag <$> es.
Proof.
  revert i. induction es as [|e es IH]; intros i; cbn; [intros _; apply not_elem_of_nil|].
  destruct (Z.eqb_spec (c_tag e) tag); [done|].
  intros H. apply not_elem_of_cons. split; [congruence|]. by eapply IH.
Qed.

(** Replacing entry [i] of a full cache by a fresh one and bubbling down. *)
Lemma refresh_inv st i e :
  log_inv st -> s_log_cache_entry_count st = TAG_CACHE_SIZE ->
  s_log_cache_max_generation st < 2 ^ 29 -> (i < TAG_CACHE_SIZE)%nat ->
  c_generation e = s_log_cache_max_generation st ->
  NoDup (c_tag <$> <[i := e]> (s_log_cache st)) ->
  let cache' := heap_bubble_down (<[i := e]> (s_log_cache st)) i in
  log_inv (with_cache st cache' (u32 (s_log_cache_max_generation st + 1)) TAG_CACHE_SIZE)
  /\ cache' ≡ₚ <[i := e]> (s_log_cache st).
Proof.
  intros H Hc Hmax Hi He Hnd cache'. pose proof (inv_max _ H).
  assert (Hu : u32 (s_log_cache_max_generation st + 1) = s_log_cache_max_generation st + 1)
    by (apply u32_small; lia).
  pose proof (inv_order _ H) as Ho. pose proof (inv_distinct _ H) as Hd. rewrite Hc in Ho, Hd.
  destruct (heap_bubble_down_spec (<[i := e]> (s_log_cache st)) i) as (H1 & H2 & H3).
  { apply bubbling_insert; try done; [apply H|]. intros k Hk. rewrite He.
    apply gen_bound; [done|by rewrite Hc]. }
  fold cache' in H1, H2, H3. clearbody cache'.
  assert (Hl : length cache' = TAG_CACHE_SIZE).
  { rewrite H3, length_insert. apply H. }
  assert (Hlive : live (with_cache st cache' (u32 (s_log_cache_max_generation st + 1)) TAG_CACHE_SIZE)
    = cache') by (unfold live; cbn; apply take_ge; lia).
  split; [|done]. split; rewrite ?Hlive; cbn; try done; try lia.
  - rewrite H3. apply Forall_insert.
    + rewrite <- (live_full _ H Hc). eapply Forall_impl; [apply H|]. cbn. lia.
    + lia.
  - by rewrite H3.
Qed.

Lemma get_cached_hit st i :
  log_inv st -> find_cached (c_tag (s_log_cache st !!! i)) (live st) 0 = Some i ->
  (i < s_log_cache_entry_count st)%nat.
Proof.
  intros H Hf. apply find_cached_Some in Hf as [Hf _]. unfold live in Hf.
  rewrite length_take in Hf. lia.
Qed.

(** A hit returns the cached level and keeps the entries up to generations. *)
Lemma get_cached_spec tag st :
  log_inv st -> s_log_cache_max_generation st < 2 ^ 29 ->
  match get_cached_log_level tag st with
  | (Some l, st') =>
      log_inv st' /\ s_log_tags st' = s_log_tags st
      /\ s_log_default_level st' = s_log_default_level st
      /\ s_log_print_func st' = s_log_print_func st
      /\ (exists e, e ∈ live st /\ c_tag e = tag /\ c_level e = l)
      /\ (forall P : Z -> Z -> Prop, Forall (fun e => P (c_tag e) (c_level e)) (live st) ->
            Forall (fun e => P (c_tag e) (c_level e)) (live st'))
  | (None, st') => st' = st /\ tag ∉ c_tag <$> live st
  end.
Proof.
  intros H Hm. unfold get_cached_log_level. fold (live st).
  destruct (find_cached tag (live st) 0) as [i|] eqn:Hf.
  2: { split; [done|]. by eapply find_cached_None. }
  apply find_cached_Some in Hf as (Hr & e & He & Ht). rewrite Nat.sub_0_r in He.
  assert (Hi : (i < s_log_cache_entry_count st)%nat)
    by (unfold live in Hr; rewrite length_take in Hr; lia).
  rewrite (live_lookup _ _ H Hi) in He. injection He as He. rewrite He.
  assert (Hin : e ∈ live st)
    by (apply list_elem_of_lookup; exists i; by rewrite (live_lookup _ _ H Hi), He).
  destruct (Nat.eqb_spec (s_log_cache_entry_count st) TAG_CACHE_SIZE) as [Hc|Hc].
  2: { repeat (split; [done|]). split; [by exists e|]. done. }
  rewrite (wrap_small 29) by (pose proof (inv_max _ H); lia).
  pose proof (live_full _ H Hc) as Hlf.
  destruct (refresh_inv st i (Cached (c_tag e) (c_level e) (s_log_cache_max_generation st)))
    as [Hinv Hperm]; try done.
  - by rewrite <- Hc.
  - rewrite list_fmap_insert, list_insert_id; [rewrite <- Hlf; apply H|].
    cbn. rewrite list_lookup_fmap, <- Hlf, (live_lookup _ _ H Hi), He. done.
  - rewrite Hc. split; [done|]. repeat (split; [done|]). split; [by exists e|].
    intros P HP. unfold live at 1. cbn. rewrite take_ge.
    2: { rewrite Hperm, length_insert, (inv_length _ H). done. }
    rewrite Hperm. apply Forall_insert; [by rewrite <- Hlf|]. cbn.
    rewrite Forall_forall in HP. by apply HP.
Qed.

Lemma cached_entry_small tag l g :
  0 <= l < 8 -> 0 <= g < 2 ^ 29 -> cached_entry tag l g = Cached tag l g.
Proof. intros. unfold cached_entry. by rewrite !wrap_small by lia. Qed.

(** A miss while the cache still has room: the entry goes to the end. *)
Lemma add_to_cache_room tag l st :
  log_inv st -> s_log_cache_max_generation st < 2 ^ 29 -> tag ∉ c_tag <$> live st ->
  0 <= l < 8 -> (s_log_cache_entry_count st < TAG_CACHE_SIZE)%nat ->
  let st' := add_to_cache tag l st in
  log_inv st' /\ live st' = live st ++ [Cached tag l (s_log_cache_max_generation st)].
Proof.
  intros H Hm Hnew Hl Hc st'. pose proof (inv_max _ H). pose proof (inv_length _ H) as Hlen.
  unfold st', add_to_cache. rewrite cached_entry_small by lia.
  rewrite (proj2 (Nat.ltb_lt _ _) Hc).
  set (n := s_log_cache_entry_count st) in *.
  set (e := Cached tag l (s_log_cache_max_generation st)).
  assert (Hu : u32 (s_log_cache_max_generation st + 1) = s_log_cache_max_generation st + 1)
    by (apply u32_small; lia).
  assert (Hlive : live (with_cache st (<[n := e]> (s_log_cache st))
    (u32 (s_log_cache_max_generation st + 1)) (S n)) = live st ++ [e]).
  { unfold live. cbn [with_cache s_log_cache s_log_cache_entry_count].
    rewrite (take_S_r _ n e) by (apply list_lookup_insert_eq; lia).
    by rewrite take_insert_ge. }
  assert (Hg : forall k, (k < S n)%nat -> gen (<[n := e]> (s_log_cache st)) k
               = if decide (k = n) then s_log_cache_max_generation st else gen (s_log_cache st) k).
  { intros k Hk. unfold gen. case_decide; subst.
    - by rewrite list_lookup_total_insert_eq by lia.
    - by rewrite list_lookup_total_insert_ne by done. }
  split; [|done]. split; rewrite ?Hlive; cbn; rewrite ?length_insert; try done; try lia.
  - apply Forall_app. split; [|by repeat constructor; cbn; lia].
    eapply Forall_impl; [apply H|]. cbn. lia.
  - intros i Hi. pose proof (parent_lt i). rewrite !Hg by lia.
    repeat case_decide; try lia; [apply (gen_bound st); [done|lia]|].
    apply (inv_order _ H). unfold n in *. lia.
  - intros i j Hi Hj. pose proof (gen_bound st i H). pose proof (gen_bound st j H).
    rewrite !Hg by done. repeat case_decide; unfold n in *; try lia.
    intros Eg. apply (inv_distinct _ H); lia.
  - rewrite fmap_app. apply NoDup_app. split; [apply H|]. split; [|apply NoDup_singleton].
    intros x Hx Hx'. cbn in Hx'. apply list_elem_of_singleton in Hx'. by subst.
Qed.

(** A miss on a full cache: the entry at the root, the oldest one, goes. *)
Lemma add_to_cache_full tag l st :
  log_inv st -> s_log_cache_max_generation st < 2 ^ 29 -> tag ∉ c_tag <$> live st ->
  0 <= l < 8 -> s_log_cache_entry_count st = TAG_CACHE_SIZE ->
  let st' := add_to_cache tag l st in
  log_inv st' /\ exists old rest, live st = old :: rest
    /\ live st' ≡ₚ Cached tag l (s_log_cache_max_generation st) :: rest.
Proof.
  intros H Hm Hnew Hl Hfull st'. pose proof (inv_max _ H). pose proof (inv_length _ H) as Hlen.
  unfold st', add_to_cache. rewrite cached_entry_small by lia. rewrite Hfull, Nat.ltb_irrefl.
  pose proof (live_full _ H Hfull) as Hlf.
  destruct (s_log_cache st) as [|x rest] eqn:Hcache; [done|].
  destruct (refresh_inv st 0%nat (Cached tag l (s_log_cache_max_generation st)))
    as [Hinv Hperm]; try done.
  - unfold TAG_CACHE_SIZE. lia.
  - rewrite Hcache. cbn. pose proof (inv_tags _ H) as Hnd. rewrite Hlf in Hnd, Hnew. cbn in Hnd, Hnew.
    apply NoDup_cons in Hnd as [_ Hnd]. apply not_elem_of_cons in Hnew as [_ Hnew].
    by apply NoDup_cons.
  - rewrite Hcache in Hinv, Hperm. split; [done|]. exists x, rest. split; [done|].
    unfold live. cbn. rewrite take_ge by (rewrite Hperm; cbn; cbn in Hlen; lia). done.
Qed.

Lemma add_to_cache_spec tag l st :
  log_inv st -> s_log_cache_max_generation st < 2 ^ 29 -> tag ∉ c_tag <$> live st ->
  0 <= l < 8 ->
  let st' := add_to_cache tag l st in
  log_inv st'
  /\ (forall P : Z -> Z -> Prop, Forall (fun e => P (c_tag e) (c_level e)) (live st) -> P tag l ->
        Forall (fun e => P (c_tag e) (c_level e)) (live st')).
Proof.
  intros H Hm Hnew Hl st'. destruct (decide (s_log_cache_entry_count st = TAG_CACHE_SIZE)) as [Hc|Hc].
  - destruct (add_to_cache_full tag l st) as (Hi & old & rest & Hlive & Hp); try done.
    split; [done|]. intros P HP Hnewp. fold st' in Hp. rewrite Hp. rewrite Hlive in HP.
    apply Forall_cons in HP as [_ HP]. by constructor.
  - destruct (add_to_cache_room tag l st) as (Hi & Hlive); try done.
    { pose proof (inv_count _ H). lia. }
    split; [done|]. intros P HP Hnewp. fold st' in Hlive. rewrite Hlive.
    apply Forall_app. split; [done|]. by constructor.
Qed.

(** The root of an ordered heap is older than every other entry. *)
Lemma root_oldest n cache i :
  heap_ordered n cache -> (0 < i < n)%nat -> gen cache 0 < gen cache i.
Proof.
  intros Ho. induction i as [i IH] using lt_wf_ind. intros Hi.
  pose proof (Ho i Hi). pose proof (parent_lt i ltac:(lia)).
  destruct (decide (parent i = 0%nat)) as [E|E]; [by rewrite <- E|].
  specialize (IH (parent i)). lia.
Qed.

(** ** What the library promises *)

Section Spec.
Context (str : Z -> string).

(** The level in force for a tag, ignoring the cache. *)
Definition effective_level (st : log_state) (tag : Z) : Z :=
  match get_uncached_log_level str tag (s_log_tags st) with
  | Some l => l
  | None => s_log_default_level st
  end.

Definition coherent (st : log_state) : Prop :=
  Forall (fun e => c_level e = effective_level st (c_tag e)) (live st).

Definition levels_ok (st : log_state) : Prop :=
  0 <= s_log_default_level st < 8 /\ Forall (fun u => 0 <= u_level u < 8) (s_log_tags st).

Lemma effective_level_range st tag : levels_ok st -> 0 <= effective_level st tag < 8.
Proof.
  intros [Hd Ht]. unfold effective_level.
  induction (s_log_tags st) as [|u us IH]; cbn; [done|].
  apply Forall_cons in Ht as [Hu Ht]. destruct (String.eqb _ _); [done|]. by apply IH.
Qed.

Lemma get_uncached_app tag us vs :
  get_uncached_log_level str tag (us ++ vs)
  = match get_uncached_log_level str tag us with
    | Some l => Some l
    | None => get_uncached_log_level str tag vs
    end.
Proof. induction us as [|u us IH]; cbn; [done|]. by destruct (String.eqb _ _). Qed.

(** One call of the library.  [log_write] is restricted to states where the
    29-bit generation field has not wrapped since the last reset. *)
Inductive log_step (st : log_state) : log_state -> Prop :=
| step_write mutex level tag :
    s_log_cache_max_generation st < 2 ^ 29 ->
    log_step st (snd (esp_log_write str mutex level tag st))
| step_level_set malloc tag level :
    0 <= level < 8 -> log_step st (esp_log_level_set str malloc tag level st)
| step_vprintf func : log_step st (esp_log_set_vprintf func st)
| step_timestamp hz started ccount ticks :
    log_step st (snd (esp_log_timestamp hz started ccount ticks st)).

Lemma log_write_spec st level tag :
  log_inv st -> levels_ok st -> s_log_cache_max_generation st < 2 ^ 29 ->
  let '(out, st') := esp_log_write str true level tag st in
  log_inv st' /\ s_log_tags st' = s_log_tags st
  /\ s_log_default_level st' = s_log_default_level st
  /\ (coherent st ->
        out = (if level <=? effective_level st tag then Some (s_log_print_func st) else None)
        /\ coherent st').
Proof.
  intros H Hl Hm. unfold esp_log_write. pose proof (get_cached_spec tag st H Hm) as Hg.
  destruct (get_cached_log_level tag st) as [[l|] st1].
  - destruct Hg as (H1 & Ht & Hd & Hpf & (e & He & <- & <-) & HP).
    assert (Heff : forall t, effective_level st1 t = effective_level st t)
      by (intros; unfold effective_level; by rewrite Ht, Hd).
    assert (Hco : coherent st -> coherent st1).
    { intros Hc. eapply Forall_impl; [by apply (HP (fun t l => l = effective_level st t))|].
      cbn. intros ? ->. by rewrite Heff. }
    unfold should_output. rewrite Hpf.
    destruct (level <=? c_level e) eqn:E; refine (conj H1 (conj Ht (conj Hd _))); intros Hc;
      (split; [|by apply Hco]); rewrite <- (proj1 (Forall_forall _ _) Hc e He); by rewrite E.
  - destruct Hg as [-> Hnew]. fold (effective_level st tag).
    set (l := effective_level st tag).
    destruct (add_to_cache_spec tag l st) as [H1 HP]; try done.
    { by apply effective_level_range. }
    set (st1 := add_to_cache tag l st) in *.
    assert (Hf : s_log_tags st1 = s_log_tags st /\ s_log_default_level st1 = s_log_default_level st
                 /\ s_log_print_func st1 = s_log_print_func st)
      by (unfold st1, add_to_cache; by case_match).
    destruct Hf as (Ht & Hd & Hpf). unfold should_output. rewrite Hpf.
    assert (Hco : coherent st -> coherent st1).
    { intros Hc. eapply Forall_impl; [by apply (HP (fun t l => l = effective_level st t))|].
      cbn. intros ? ->. unfold effective_level. by rewrite Ht, Hd. }
    destruct (level <=? l); refine (conj H1 (conj Ht (conj Hd _))); intros Hc; by split; [|apply Hco].
Qed.

Lemma cleared_inv st :
  length (s_log_cache st) = TAG_CACHE_SIZE -> log_inv (clear_log_level_list st).
Proof.
  intros Hl. split; cbn; try done; try lia; try by constructor.
  - intros i Hi. lia.
  - intros i j Hi. lia.
Qed.

Lemma step_preserves st st' :
  log_step st st' -> log_inv st -> levels_ok st -> log_inv st' /\ levels_ok st'.
Proof.
  intros [mutex level tag Hm|malloc tag level Hlv|func|hz started ccount ticks] H Hl.
  - destruct mutex; [|done]. pose proof (log_write_spec st level tag H Hl Hm) as Hw.
    destruct (esp_log_write _ _ _ _ _) as [out st1]. destruct Hw as (? & Ht & Hd & _).
    split; [done|]. unfold levels_ok. cbn. by rewrite Ht, Hd.
  - unfold esp_log_level_set. case_match; [|case_match].
    + split; [apply cleared_inv, H|]. by split; cbn.
    + split; [by destruct H; split|]. destruct Hl as [Hd Ht]. split; [done|]. cbn.
      apply Forall_app. split; [done|]. repeat constructor; cbn; rewrite u8_small; lia.
    + done.
  - by destruct H, Hl.
  - unfold esp_log_timestamp. case_match; [|done]. cbn. destruct H, Hl. by split; split.
Qed.

Lemma initial_inv vprintf : log_inv (initial_state vprintf) /\ levels_ok (initial_state vprintf).
Proof.
  split; [|split; cbn; [unfold ESP_LOG_VERBOSE; lia|constructor]].
  split; cbn; try done; try lia; try by constructor.
  - intros i Hi. lia.
  - intros i j Hi. lia.
Qed.

Lemma level_set_existing malloc tag level st l t :
  str tag <> "*"%string -> get_uncached_log_level str tag (s_log_tags st) = Some l ->
  effective_level (esp_log_level_set str malloc tag level st) t = effective_level st t.
Proof.
  intros Hw Hg. unfold esp_log_level_set.
  destruct (String.eqb_spec (str tag) "*"); [done|]. destruct malloc; [|done].
  unfold effective_level. cbn. rewrite get_uncached_app.
  destruct (get_uncached_log_level str t (s_log_tags st)) eqn:Ht; [done|]. cbn.
  destruct (String.eqb_spec (str t) (str tag)) as [E|E]; [|done]. exfalso.
  revert Hg Ht. clear -E. induction (s_log_tags st) as [|u us IH]; cbn; [done|].
  rewrite E. by destruct (String.eqb _ _).
Qed.

Lemma cached_output_ignores_tags st st2 level tag :
  s_log_cache st2 = s_log_cache st ->
  s_log_cache_entry_count st2 = s_log_cache_entry_count st ->
  s_log_print_func st2 = s_log_print_func st ->
  tag ∈ c_tag <$> live st ->
  fst (esp_log_write str true level tag st2) = fst (esp_log_write str true level tag st).
Proof.
  intros Hc Hn Hp Hin. unfold esp_log_write, get_cached_log_level. rewrite Hc, Hn. fold (live st).
  destruct (find_cached tag (live st) 0) eqn:Hf.
  2: { by apply find_cached_None in Hf. }
  destruct (Nat.eqb _ _); cbn; rewrite <- Hp; by case_match.
Qed.
End Spec.

(** ** Theorems *)

(** One call of [esp_log_write] that gets the mutex, on a state whose cache
    agrees with the configured levels and whose generation counter fits its
    29 bits, calls the print function exactly when the message level does not
    exceed the level in force for the tag; it leaves the cache a well-formed
    min-heap that still agrees with the configured levels, and changes no
    configured level. *)
Theorem esp_log_write_correct (str : Z -> string) (st : log_state) (level tag : Z) :
  log_inv st -> levels_ok st -> coherent str st -> s_log_cache_max_generation st < 2 ^ 29 ->
  let '(out, st') := esp_log_write str true level tag st in
  out = (if level <=? effective_level str st tag then Some (s_log_print_func st) else None)
  /\ log_inv st' /\ coherent str st'
  /\ (forall t, effective_level str st' t = effective_level str st t).
Proof.
  intros H Hl Hc Hm. pose proof (log_write_spec str st level tag H Hl Hm) as Hw.
  destruct (esp_log_write str true level tag st) as [out st'].
  destruct Hw as (Hi & Ht & Hd & Hw). destruct (Hw Hc) as [-> Hc'].
  repeat (split; [done|]). intros t. unfold effective_level. by rewrite Ht, Hd.
Qed.

Lemma esp_log_write_correct_witness :
  fst (esp_log_write (fun _ => "wifi"%string) true 3 100
         (esp_log_level_set (fun _ => "wifi"%string) true 100 2 (initial_state 7))) = None.
Proof.
  pose proof (esp_log_write_correct (fun _ => "wifi"%string)
    (esp_log_level_set (fun _ => "wifi"%string) true 100 2 (initial_state 7)) 3 100) as H.
  destruct (esp_log_write (fun _ => "wifi"%string) true 3 100
    (esp_log_level_set (fun _ => "wifi"%string) true 100 2 (initial_state 7))) as [out st'].
  cbn [fst]. destruct H as [-> _]; [| | | |reflexivity].
  - apply (step_preserves (fun _ => "wifi"%string) (initial_state 7)); [|apply initial_inv..].
    apply step_level_set. lia.
  - apply (step_preserves (fun _ => "wifi"%string) (initial_state 7)); [|apply initial_inv..].
    apply step_level_set. lia.
  - constructor.
  - vm_compute. reflexivity.
Defined.

(** Calls of the library, and a sequence of them. *)
Inductive log_call : Type :=
| CallWrite (mutex_taken : bool) (level tag : Z)
| CallLevelSet (malloc_ok : bool) (tag level : Z)
| CallSetVprintf (func : Z)
| CallTimestamp (tick_rate_hz : Z) (scheduler_started : bool) (ccount ticks : Z).

Definition log_exec (str : Z -> string) (c : log_call) (st : log_state) : log_state :=
  match c with
  | CallWrite mutex level tag => snd (esp_log_write str mutex level tag st)
  | CallLevelSet malloc tag level => esp_log_level_set str malloc tag level st
  | CallSetVprintf func => esp_log_set_vprintf func st
  | CallTimestamp hz started ccount ticks => snd (esp_log_timestamp hz started ccount ticks st)
  end.
Definition log_run (str : Z -> string) (cs : list log_call) (st : log_state) : log_state := foldl (fun st c => log_exec str c st) st cs.

(** Levels are those of [esp_log_level_t], or fit the three bits of a cache entry at least. *)
Definition call_ok (c : log_call) : Prop := match c with CallLevelSet _ _ level => 0 <= level < 8 | _ => True end.
Definition is_write (c : log_call) : bool := match c with CallWrite _ _ _ => true | _ => false end.
Definition writes (cs : list log_call) : Z := Z.of_nat (length (filter (fun c => is_write c = true) cs)).

Lemma writes_cons c cs : writes (c :: cs) = (if is_write c then 1 else 0) + writes cs.
Proof. unfold writes. rewrite filter_cons. destruct (is_write c); [rewrite decide_True by done; cbn [length]; lia|by rewrite decide_False by done]. Qed.

(** A write counts one generation at most, nothing else does. *)
Lemma exec_generation str c st : log_inv st -> s_log_cache_max_generation st < 2 ^ 29 \/ is_write c = false ->
  s_log_cache_max_generation (log_exec str c st) <= s_log_cache_max_generation st + (if is_write c then 1 else 0).
Proof.
  intros H Hm. pose proof (inv_max _ H) as [H0 _]. destruct c as [mutex level tag|malloc tag level|func|hz started ccount ticks]; cbn [log_exec is_write].
  - destruct Hm as [Hm|Hm]; [|done]. assert (E : u32 (s_log_cache_max_generation st + 1) = s_log_cache_max_generation st + 1) by (apply u32_small; lia).
    unfold esp_log_write. destruct mutex; [|cbn; lia]. unfold get_cached_log_level.
    destruct (find_cached _ _ _); [destruct (_ =? _)%nat|unfold add_to_cache; destruct (_ <? _)%nat]; cbn; destruct (should_output _ _); cbn; rewrite ?E; lia.
  - unfold esp_log_level_set. destruct (String.eqb _ _), malloc; cbn; lia.
  - cbn. lia.
  - unfold esp_log_timestamp. destruct started; cbn; lia.
Qed.

Lemma run_preserves str cs st : log_inv st -> levels_ok st -> Forall call_ok cs -> s_log_cache_max_generation st + writes cs <= 2 ^ 29 -> log_inv (log_run str cs st).
Proof.
  revert st. induction cs as [|c cs IH]; intros st H Hl Hok Hn; [done|]. apply Forall_cons in Hok as [Hc Hok]. rewrite writes_cons in Hn. assert (0 <= writes cs) by (unfold writes; lia).
  assert (Hm : s_log_cache_max_generation st < 2 ^ 29 \/ is_write c = false) by (destruct (is_write c); [left; lia|by right]).
  pose proof (exec_generation str c st H Hm) as Hg. destruct (step_preserves str st (log_exec str c st)) as [H' Hl']; [|done|done|].
  - destruct c; cbn; constructor; try done. by destruct Hm.
  - apply (IH _ H' Hl' Hok). destruct (is_write c); lia.
Qed.

(** C25: after any sequence of [esp_log_write], [esp_log_level_set],
    [esp_log_set_vprintf] and [esp_log_timestamp] calls from the static initial
    state, with levels below 8 and at most 2^29 of them writes, the live
    entries of the cache are strictly min-heap ordered on distinct generations
    and carry distinct tags.  (After 2^29 cache operations the generations of
    log.c:73 wrap around and the order is lost, [generation_wrap_breaks_order].) *)
Theorem log_reachable_invariant (str : Z -> string) (vprintf : Z) (cs : list log_call) :
  Forall call_ok cs -> writes cs <= 2 ^ 29 -> log_inv (log_run str cs (initial_state vprintf)).
Proof. intros Hok Hn. destruct (initial_inv vprintf) as [H0 Hl0]. by apply run_preserves. Qed.

(** Two tags in the cache, one with a level of its own. *)
Lemma log_reachable_invariant_witness :
  let st := log_run (fun p => if p =? 100 then "wifi"%string else "app"%string) [CallLevelSet true 100 2; CallWrite true 3 100; CallWrite true 3 200; CallWrite true 2 100] (initial_state 7) in
  log_inv st /\ live st = [Cached 100 2 0; Cached 200 5 1].
Proof.
  cbv zeta. split; [|vm_compute; reflexivity]. apply (log_reachable_invariant (fun p => if p =? 100 then "wifi"%string else "app"%string) 7).
  - repeat constructor; lia.
  - vm_compute. discriminate.
Defined.

(** A miss on a full cache evicts the entry with the smallest generation:
    the new entry takes the place of the one the other thirty are all younger
    than, and no other entry is lost. *)
Theorem add_to_cache_evicts_oldest (tag l : Z) (st : log_state) :
  log_inv st -> s_log_cache_max_generation st < 2 ^ 29 -> tag ∉ c_tag <$> live st ->
  0 <= l < 8 -> s_log_cache_entry_count st = TAG_CACHE_SIZE ->
  exists old rest, live st = old :: rest
    /\ Forall (fun e => c_generation old < c_generation e) rest
    /\ live (add_to_cache tag l st)
       ≡ₚ Cached tag l (s_log_cache_max_generation st) :: rest.
Proof.
  intros H Hm Hnew Hl Hc.
  destruct (add_to_cache_full tag l st) as (_ & old & rest & Hlive & Hp); try done.
  exists old, rest. split; [done|]. split; [|done].
  apply Forall_lookup. intros i e He.
  assert (Hi : (0 < S i < s_log_cache_entry_count st)%nat).
  { apply lookup_lt_Some in He. pose proof (f_equal length Hlive) as E.
    unfold live in E. rewrite length_take in E. cbn in E. lia. }
  pose proof (root_oldest _ _ _ (inv_order _ H) Hi) as Hlt. unfold gen in Hlt.
  pose proof (live_lookup st 0 H ltac:(lia)) as E0. pose proof (live_lookup st (S i) H ltac:(lia)) as E1.
  rewrite Hlive in E0, E1. change ((old :: rest) !! S i) with (rest !! i) in E1.
  rewrite He in E1. by simplify_eq/=.
Qed.

Definition full_cache : log_state :=
  fold_left (fun st tag => snd (esp_log_write (fun _ => "app"%string) true 0 tag st))
    (seqZ 1 31) (initial_state 0).

Lemma full_cache_inv : log_inv full_cache /\ levels_ok full_cache.
Proof.
  unfold full_cache. set (w := fun st tag => _).
  assert (H : rtc (log_step (fun _ => "app"%string)) (initial_state 0)
                (fold_left w (seqZ 1 31) (initial_state 0))).
  { vm_compute seqZ. cbn [fold_left].
    repeat (eapply rtc_r; [|apply step_write; vm_compute; reflexivity]). apply rtc_refl. }
  revert H. generalize (fold_left w (seqZ 1 31) (initial_state 0)). intros st Hr.
  destruct (initial_inv 0) as [H0 Hl0].
  induction Hr as [|a b c Hab Hbc IH]; [done|]. apply IH; by eapply step_preserves.
Qed.

Lemma add_to_cache_evicts_oldest_witness :
  exists old rest, live full_cache = old :: rest /\ c_tag old = 1
    /\ Forall (fun e => c_generation old < c_generation e) rest.
Proof.
  destruct (add_to_cache_evicts_oldest 99 2 full_cache) as (old & rest & H1 & H2 & _).
  - apply full_cache_inv.
  - vm_compute. reflexivity.
  - vm_compute. set_solver.
  - lia.
  - vm_compute. reflexivity.
  - exists old, rest. split; [exact H1|]. split; [|exact H2].
    vm_compute in H1. injection H1 as <- _. reflexivity.
Defined.

(** Setting a level through the wildcard tag puts that level in force for
    every tag; setting one for a tag that was neither configured nor cached
    before puts it in force for that tag and leaves every other tag alone.
    The cache stays well formed and in agreement in both cases. *)
Theorem esp_log_level_set_effect (str : Z -> string) (st : log_state) (tag level : Z) :
  log_inv st -> 0 <= level < 8 ->
  (str tag = "*"%string ->
     let st' := esp_log_level_set str true tag level st in
     log_inv st' /\ coherent str st' /\ forall t, effective_level str st' t = level)
  /\ (str tag <> "*"%string -> coherent str st ->
      get_uncached_log_level str tag (s_log_tags st) = None ->
      Forall (fun e => str (c_tag e) <> str tag) (live st) ->
      let st' := esp_log_level_set str true tag level st in
      log_inv st' /\ coherent str st'
      /\ forall t, effective_level str st' t
                   = if String.eqb (str t) (str tag) then level else effective_level str st t).
Proof.
  intros H Hl. split.
  - intros Hw. unfold esp_log_level_set. rewrite Hw, String.eqb_refl. cbn zeta.
    split; [apply cleared_inv, H|]. split; [constructor|done].
  - intros Hw Hc Hn Hcached.
    assert (He : forall t, effective_level str (esp_log_level_set str true tag level st) t
                   = if String.eqb (str t) (str tag) then level else effective_level str st t).
    { intros t. unfold esp_log_level_set. destruct (String.eqb_spec (str tag) "*"); [done|].
      unfold effective_level. cbn [s_log_tags s_log_default_level]. rewrite get_uncached_app.
      cbn. rewrite u8_small by lia. destruct (String.eqb_spec (str t) (str tag)) as [E|E].
      - replace (get_uncached_log_level str t (s_log_tags st)) with (@None Z); [done|].
        rewrite <- Hn. clear -E. induction (s_log_tags st) as [|u us IH]; cbn; [done|]. by rewrite E, IH.
      - by destruct (get_uncached_log_level str t (s_log_tags st)). }
    unfold esp_log_level_set in *. destruct (String.eqb_spec (str tag) "*"); [done|].
    split; [by destruct H; split|]. split; [|done].
    unfold coherent, live in *. cbn [s_log_cache s_log_cache_entry_count].
    rewrite Forall_forall in Hc, Hcached |- *. intros e Hin. rewrite He.
    destruct (String.eqb_spec (str (c_tag e)) (str tag)) as [E|E]; [by destruct (Hcached e Hin)|].
    by apply Hc.
Qed.

Lemma esp_log_level_set_effect_witness :
  effective_level (fun _ => "spi"%string)
    (esp_log_level_set (fun _ => "spi"%string) true 4 1 (initial_state 0)) 4 = 1.
Proof.
  destruct (esp_log_level_set_effect (fun _ => "spi"%string) (initial_state 0) 4 1) as [_ H].
  - apply initial_inv.
  - lia.
  - destruct H as (_ & _ & ->); [discriminate|constructor|reflexivity|constructor|reflexivity].
Defined.

(** A second [esp_log_level_set] for a tag does not change the level in
    force for any tag, and while a tag is cached no [esp_log_level_set] for a
    non-wildcard tag changes what [esp_log_write] does with it. *)
Theorem esp_log_level_set_not_updated (str : Z -> string) (st : log_state)
    (malloc : bool) (tag level l : Z) :
  str tag <> "*"%string ->
  get_uncached_log_level str tag (s_log_tags st) = Some l ->
  (forall t, effective_level str (esp_log_level_set str malloc tag level st) t
             = effective_level str st t)
  /\ (forall t lvl, t ∈ c_tag <$> live st ->
       fst (esp_log_write str true lvl t (esp_log_level_set str malloc tag level st))
       = fst (esp_log_write str true lvl t st)).
Proof.
  intros Hw Hg. split; [intros t; by apply level_set_existing with l|].
  intros t lvl Hin. unfold esp_log_level_set.
  destruct (String.eqb_spec (str tag) "*"); [done|]. destruct malloc; [|done].
  by apply cached_output_ignores_tags.
Qed.

Lemma esp_log_level_set_not_updated_witness :
  let str := fun _ : Z => "wifi"%string in
  effective_level str
    (esp_log_level_set str true 8 5 (esp_log_level_set str true 8 1 (initial_state 0))) 8 = 1.
Proof.
  intros str.
  destruct (esp_log_level_set_not_updated str (esp_log_level_set str true 8 1 (initial_state 0))
    true 8 5 1) as [H _]; [discriminate|reflexivity|]. rewrite H. reflexivity.
Defined.

(** The generation field wraps after 2^29 cache operations: the next entry
    then gets generation 0 and the order of the heap is lost. *)
Example generation_wrap_breaks_order :
  exists st, log_inv st /\ s_log_cache_max_generation st = 2 ^ 29
    /\ s_log_cache_entry_count st = 1%nat
    /\ ~ heap_ordered 2 (s_log_cache (add_to_cache 2 0 st)).
Proof.
  exists (LogState 5 [] (Cached 1 0 5 :: replicate 30 (Cached 0 0 0)) (2 ^ 29) 1 0 0).
  split; [|split; [done|split; [done|]]].
  - split; cbn; try done; try lia.
    + unfold TAG_CACHE_SIZE. lia.
    + repeat constructor; cbn; lia.
    + intros i Hi. lia.
    + intros i j Hi Hj. lia.
    + apply NoDup_singleton.
  - intros H. specialize (H 1%nat ltac:(lia)). vm_compute in H. discriminate.
Qed.

End Log.
