(* ===== verification/Vfs.v ===== *)
(** * The virtual filesystem switch (components/vfs/vfs.c)

    File descriptors seen by the application carry a VFS number in bits 12-14
    and the driver's own descriptor below; paths are routed to the driver
    whose registered prefix they start with.  A driver's function table is the
    map [ops] from the members of [esp_vfs_t] to functions on a world [W] that
    stands for everything the drivers own; a member is called with the context
    pointer exactly when [ESP_VFS_FLAG_CONTEXT_PTR] is set, which is what the
    unions of [esp_vfs_t] express.  Entries are identified by their slot in
    [s_vfs], since every entry is allocated for one slot. *)

From S2P Require Import Prelude.

#[local] Open Scope Z_scope.

Module Vfs.

Definition CONFIG_MAX_FD_BITS : Z := 12.
Definition MAX_VFS_ID_BITS : Z := 16 - CONFIG_MAX_FD_BITS - 1.
Definition VFS_FD_MASK : Z := Z.shiftl 1 CONFIG_MAX_FD_BITS - 1.
Definition VFS_MAX_COUNT : Z := Z.shiftl 1 MAX_VFS_ID_BITS - 1.
Definition VFS_INDEX_MASK : Z := Z.shiftl VFS_MAX_COUNT CONFIG_MAX_FD_BITS.
Definition VFS_INDEX_S : Z := CONFIG_MAX_FD_BITS.

Definition ESP_VFS_PATH_MAX : Z := 15.
Definition ESP_VFS_FLAG_CONTEXT_PTR : Z := 1.

Definition ENOENT : Z := 2.
Definition EBADF : Z := 9.
Definition EXDEV : Z := 18.
Definition ENOSYS : Z := 88.

Definition SLASH : Ascii.ascii := Ascii.Ascii true true true true false true false false.

(** The members of [esp_vfs_t] with their arguments; pointers are addresses. *)
Inductive request :=
| Write (fd data size : Z)
| Lseek (fd size mode : Z)
| Read (fd dst size : Z)
| Open (path : string) (flags mode : Z)
| Close (fd : Z)
| Fstat (fd st : Z)
| Stat (path : string) (st : Z)
| Link (n1 n2 : string)
| Unlink (path : string)
| Rename (src dst : string)
| Opendir (name : string)
| Readdir (pdir : Z)
| Readdir_r (pdir entry out_dirent : Z)
| Telldir (pdir : Z)
| Seekdir (pdir loc : Z)
| Closedir (pdir : Z)
| Mkdir (name : string) (mode : Z)
| Rmdir (name : string).

Inductive member :=
| m_write | m_lseek | m_read | m_open | m_close | m_fstat | m_stat | m_link | m_unlink
| m_rename | m_opendir | m_readdir | m_readdir_r | m_telldir | m_seekdir | m_closedir
| m_mkdir | m_rmdir.

Definition member_of (r : request) : member :=
  match r with
  | Write _ _ _ => m_write | Lseek _ _ _ => m_lseek | Read _ _ _ => m_read
  | Open _ _ _ => m_open | Close _ => m_close | Fstat _ _ => m_fstat
  | Stat _ _ => m_stat | Link _ _ => m_link | Unlink _ => m_unlink
  | Rename _ _ => m_rename | Opendir _ => m_opendir | Readdir _ => m_readdir
  | Readdir_r _ _ _ => m_readdir_r | Telldir _ => m_telldir | Seekdir _ _ => m_seekdir
  | Closedir _ => m_closedir | Mkdir _ _ => m_mkdir | Rmdir _ => m_rmdir
  end.

Section Vfs.
Context {W : Type}.

(** A driver function: context pointer if it is a [_p] variant, arguments,
    world; a [void] result is any number. *)
Definition driver_fn : Type := option Z -> request -> W -> Z * W.

Record esp_vfs_t := EspVfs {
  fd_offset : Z;
  flags : Z;
  ops : member -> option driver_fn
}.

Record vfs_entry_t := Entry {
  vfs : esp_vfs_t;
  path_prefix : string;
  path_prefix_len : Z;
  ctx : Z;
  offset : Z
}.

(** [dd_vfs_idx] holds that field of every [DIR] handed out. *)
Record vfs_state := VfsState {
  s_vfs : list (option vfs_entry_t);
  s_vfs_count : nat;
  errno : Z;
  dd_vfs_idx : gmap Z Z;
  world : W
}.

Definition initial_state (w : W) : vfs_state :=
  VfsState (replicate (Z.to_nat VFS_MAX_COUNT) None) 0 0 ∅ w.

Definition set_errno (e : Z) : M vfs_state unit :=
  modify (fun st => VfsState (s_vfs st) (s_vfs_count st) e (dd_vfs_idx st) (world st)).

Definition set_world (w : W) : M vfs_state unit :=
  modify (fun st => VfsState (s_vfs st) (s_vfs_count st) (errno st) (dd_vfs_idx st) w).

(** [memcmp(a, b, n) == 0] on strings. *)
Definition memcmp_eq (a b : string) (n : Z) : bool :=
  String.eqb (String.substring 0 (Z.to_nat n) a) (String.substring 0 (Z.to_nat n) b).

Definition strlen (s : string) : Z := Z.of_nat (String.length s).

(** First free slot below [s_vfs_count], or [s_vfs_count]. *)
Fixpoint free_slot (slots : list (option vfs_entry_t)) (i : nat) : nat :=
  match slots with
  | [] => i
  | None :: _ => i
  | Some _ :: rest => free_slot rest (S i)
  end.

Definition base_path_ok (base_path : string) : bool :=
  negb ((strlen base_path <? 2) || (ESP_VFS_PATH_MAX <? strlen base_path))
  && negb (bool_decide (String.get 0 base_path <> Some SLASH)
           || bool_decide (String.get (String.length base_path - 1) base_path = Some SLASH)).

Definition esp_vfs_register (malloc_ok : bool) (base_path : string) (v : esp_vfs_t)
    (context : Z) : M vfs_state esp_err_t :=
  if negb (base_path_ok base_path) then mret ESP_ERR_INVALID_ARG
  else if negb malloc_ok then mret ESP_ERR_NO_MEM
  else
    st ← get;
    let index := free_slot (take (s_vfs_count st) (s_vfs st)) 0 in
    if (index =? s_vfs_count st)%nat && (VFS_MAX_COUNT <=? Z.of_nat (s_vfs_count st))
    then mret ESP_ERR_NO_MEM
    else
      let count := if (index =? s_vfs_count st)%nat then S (s_vfs_count st)
                   else s_vfs_count st in
      let entry := Entry v base_path (strlen base_path) context (Z.of_nat index) in
      slots ← lift (wr (s_vfs st) (Z.of_nat index) (Some entry));
      put (VfsState slots count (errno st) (dd_vfs_idx st) (world st));;
      mret ESP_OK.

(** First slot whose prefix [base_path] starts with; an empty slot is
    dereferenced. *)
Fixpoint find_unregister (base_path : string) (slots : list (option vfs_entry_t)) (i : nat) :
    outcome (option nat) :=
  match slots with
  | [] => Ret None
  | None :: _ => Stuck NullDeref
  | Some e :: rest =>
      if memcmp_eq base_path (path_prefix e) (path_prefix_len e) then Ret (Some i)
      else find_unregister base_path rest (S i)
  end.

Definition esp_vfs_unregister (base_path : string) : M vfs_state esp_err_t :=
  st ← get;
  r ← lift (find_unregister base_path (take (s_vfs_count st) (s_vfs st)) 0);
  match r with
  | Some i =>
      slots ← lift (wr (s_vfs st) (Z.of_nat i) None);
      put (VfsState slots (s_vfs_count st) (errno st) (dd_vfs_idx st) (world st));;
      mret ESP_OK
  | None => mret ESP_ERR_INVALID_STATE
  end.

Definition get_vfs_for_fd (fd : Z) : M vfs_state (option vfs_entry_t) :=
  st ← get;
  let index := Z.shiftr (Z.land fd VFS_INDEX_MASK) VFS_INDEX_S in
  if Z.of_nat (s_vfs_count st) <=? index then mret None
  else lift (rd (s_vfs st) index).

Definition translate_fd (e : vfs_entry_t) (fd : Z) : Z :=
  Z.land fd VFS_FD_MASK + fd_offset (vfs e).

(** The suffix of [src_path] after the prefix. *)
Definition translate_path (e : vfs_entry_t) (src_path : string) : M vfs_state string :=
  check (memcmp_eq src_path (path_prefix e) (path_prefix_len e));;
  mret (String.substring (Z.to_nat (path_prefix_len e))
          (String.length src_path - Z.to_nat (path_prefix_len e)) src_path).

Fixpoint find_path (path : string) (slots : list (option vfs_entry_t)) (i : nat) :
    outcome (option (nat * vfs_entry_t)) :=
  match slots with
  | [] => Ret None
  | None :: _ => Stuck NullDeref
  | Some e :: rest =>
      if strlen path <? path_prefix_len e + 1 then find_path path rest (S i)
      else if negb (memcmp_eq path (path_prefix e) (path_prefix_len e))
      then find_path path rest (S i)
      else if bool_decide (String.get (Z.to_nat (path_prefix_len e)) path <> Some SLASH)
      then find_path path rest (S i)
      else Ret (Some (i, e))
  end.

Definition get_vfs_for_path (path : string) : M vfs_state (option (nat * vfs_entry_t)) :=
  st ← get; lift (find_path path (take (s_vfs_count st) (s_vfs st)) 0).

(** [CHECK_AND_CALL], [CHECK_AND_CALLP] and [CHECK_AND_CALLV]: [err] is what
    the caller returns when the member is [NULL], [k] continues with the
    driver's result. *)
Definition CHECK_AND_CALL (err : Z) (e : vfs_entry_t) (req : request)
    (k : Z -> M vfs_state Z) : M vfs_state Z :=
  match ops (vfs e) (member_of req) with
  | None => set_errno ENOSYS;; mret err
  | Some f =>
      w ← gets world;
      let c := if Z.land (flags (vfs e)) ESP_VFS_FLAG_CONTEXT_PTR =? 0 then None
               else Some (ctx e) in
      let '(ret, w') := f c req w in
      set_world w';; k ret
  end.

(** The chunk every descriptor syscall starts with. *)
Definition on_fd (fd : Z) (req : Z -> request) : M vfs_state Z :=
  r ← get_vfs_for_fd fd;
  match r with
  | None => set_errno EBADF;; mret (-1)
  | Some e => CHECK_AND_CALL (-1) e (req (translate_fd e fd)) mret
  end.

Definition esp_vfs_write (fd data size : Z) := on_fd fd (fun fd => Write fd data size).
Definition esp_vfs_lseek (fd size mode : Z) := on_fd fd (fun fd => Lseek fd size mode).
Definition esp_vfs_read (fd dst size : Z) := on_fd fd (fun fd => Read fd dst size).
Definition esp_vfs_close (fd : Z) := on_fd fd Close.
Definition esp_vfs_fstat (fd st : Z) := on_fd fd (fun fd => Fstat fd st).

(** The chunk every one-path syscall starts with. *)
Definition on_path (err : Z) (path : string) (req : string -> request)
    (k : vfs_entry_t -> Z -> M vfs_state Z) : M vfs_state Z :=
  r ← get_vfs_for_path path;
  match r with
  | None => set_errno ENOENT;; mret err
  | Some (_, e) =>
      path_within_vfs ← translate_path e path;
      CHECK_AND_CALL err e (req path_within_vfs) (k e)
  end.

Definition esp_vfs_open (path : string) (oflags mode : Z) : M vfs_state Z :=
  on_path (-1) path (fun p => Open p oflags mode) (fun e ret =>
    if ret <? 0 then mret ret
    else check (fd_offset (vfs e) <=? ret);;
         mret (ret - fd_offset (vfs e) + Z.shiftl (offset e) VFS_INDEX_S)).

Definition esp_vfs_stat (path : string) (st : Z) :=
  on_path (-1) path (fun p => Stat p st) (fun _ => mret).
Definition esp_vfs_unlink (path : string) := on_path (-1) path Unlink (fun _ => mret).
Definition mkdir (name : string) (mode : Z) :=
  on_path (-1) name (fun p => Mkdir p mode) (fun _ => mret).
Definition rmdir (name : string) := on_path (-1) name Rmdir (fun _ => mret).

(** The two-path syscalls refuse to cross drivers. *)
Definition on_paths (n1 n2 : string) (req : string -> string -> request) : M vfs_state Z :=
  r1 ← get_vfs_for_path n1;
  match r1 with
  | None => set_errno ENOENT;; mret (-1)
  | Some (i1, e) =>
      r2 ← get_vfs_for_path n2;
      if bool_decide (fst <$> r2 = Some i1) then
        path1_within_vfs ← translate_path e n1;
        path2_within_vfs ← translate_path e n2;
        CHECK_AND_CALL (-1) e (req path1_within_vfs path2_within_vfs) mret
      else set_errno EXDEV;; mret (-1)
  end.

Definition esp_vfs_link (n1 n2 : string) := on_paths n1 n2 Link.
Definition esp_vfs_rename (src dst : string) := on_paths src dst Rename.

Definition set_dd_vfs_idx (pdir idx : Z) : M vfs_state unit :=
  modify (fun st => VfsState (s_vfs st) (s_vfs_count st) (errno st)
                      (<[pdir := idx]> (dd_vfs_idx st)) (world st)).

Definition opendir (name : string) : M vfs_state Z :=
  on_path 0 name Opendir (fun e ret =>
    if ret =? 0 then mret ret
    else set_dd_vfs_idx ret (u16 (Z.shiftl (offset e) VFS_INDEX_S));; mret ret).

(** The directory calls find the driver through [pdir->dd_vfs_idx]. *)
Definition on_dir (err pdir : Z) (req : request) : M vfs_state Z :=
  st ← get;
  match dd_vfs_idx st !! pdir with
  | None => stuck NullDeref
  | Some idx =>
      r ← get_vfs_for_fd idx;
      match r with
      | None => set_errno EBADF;; mret err
      | Some e => CHECK_AND_CALL err e req mret
      end
  end.

Definition readdir (pdir : Z) := on_dir 0 pdir (Readdir pdir).
Definition readdir_r (pdir entry out_dirent : Z) :=
  on_dir (-1) pdir (Readdir_r pdir entry out_dirent).
Definition telldir (pdir : Z) := on_dir (-1) pdir (Telldir pdir).
Definition seekdir (pdir loc : Z) := on_dir 0 pdir (Seekdir pdir loc).
Definition rewinddir (pdir : Z) := seekdir pdir 0.
Definition closedir (pdir : Z) := on_dir (-1) pdir (Closedir pdir).

(** Every entry point, for statements about sequences of calls. *)
Inductive call :=
| CRegister (malloc_ok : bool) (base_path : string) (v : esp_vfs_t) (context : Z)
| CUnregister (base_path : string)
| COpen (path : string) (oflags mode : Z)
| CWrite (fd data size : Z)
| CLseek (fd size mode : Z)
| CRead (fd dst size : Z)
| CClose (fd : Z)
| CFstat (fd st : Z)
| CStat (path : string) (st : Z)
| CLink (n1 n2 : string)
| CUnlink (path : string)
| CRename (src dst : string)
| COpendir (name : string)
| CReaddir (pdir : Z)
| CReaddir_r (pdir entry out_dirent : Z)
| CTelldir (pdir : Z)
| CSeekdir (pdir loc : Z)
| CRewinddir (pdir : Z)
| CClosedir (pdir : Z)
| CMkdir (name : string) (mode : Z)
| CRmdir (name : string).

Definition run (c : call) : M vfs_state Z :=
  match c with
  | CRegister m b v x => esp_vfs_register m b v x
  | CUnregister b => esp_vfs_unregister b
  | COpen p f m => esp_vfs_open p f m
  | CWrite fd d n => esp_vfs_write fd d n
  | CLseek fd n m => esp_vfs_lseek fd n m
  | CRead fd d n => esp_vfs_read fd d n
  | CClose fd => esp_vfs_close fd
  | CFstat fd s => esp_vfs_fstat fd s
  | CStat p s => esp_vfs_stat p s
  | CLink a b => esp_vfs_link a b
  | CUnlink p => esp_vfs_unlink p
  | CRename a b => esp_vfs_rename a b
  | COpendir n => opendir n
  | CReaddir d => readdir d
  | CReaddir_r d e o => readdir_r d e o
  | CTelldir d => telldir d
  | CSeekdir d l => seekdir d l
  | CRewinddir d => rewinddir d
  | CClosedir d => closedir d
  | CMkdir n m => mkdir n m
  | CRmdir n => rmdir n
  end.

Inductive reachable (w : W) : vfs_state -> Prop :=
| reach_init : reachable w (initial_state w)
| reach_step c st r st' : reachable w st -> run c st = Ret (r, st') -> reachable w st'.

End Vfs.
Arguments esp_vfs_t : clear implicits.
Arguments vfs_entry_t : clear implicits.
Arguments vfs_state : clear implicits.

(** ** Strings *)

Lemma length_append (a b : string) :
  String.length (a ++ b) = (String.length a + String.length b)%nat.
Proof. induction a as [|x a IH]; [done|]. exact (f_equal S IH). Qed.

Lemma substring_all (s : string) : String.substring 0 (String.length s) s = s.
Proof. induction s as [|x s IH]; [done|]. exact (f_equal (String x) IH). Qed.

Lemma substring_app_l (p r : string) : String.substring 0 (String.length p) (p ++ r) = p.
Proof. induction p as [|x p IH]; [by destruct r|]. exact (f_equal (String x) IH). Qed.

Lemma substring_app_r (p r : string) :
  String.substring (String.length p) (String.length r) (p ++ r) = r.
Proof. induction p as [|x p IH]; [apply substring_all|exact IH]. Qed.

Lemma substring_prefix (p s : string) :
  String.substring 0 (String.length p) s = p -> exists r, s = (p ++ r)%string.
Proof.
  revert s. induction p as [|x p IH]; intros s H; [by exists s|].
  destruct s as [|y s]; [done|]. cbn in H. injection H as -> H.
  destruct (IH _ H) as [r ->]. by exists r.
Qed.

Lemma get_app (p r : string) : String.get (String.length p) (p ++ r) = String.get 0 r.
Proof. induction p as [|x p IH]; [done|exact IH]. Qed.

Lemma append_inj_l (p a b : string) : (p ++ a = p ++ b)%string -> a = b.
Proof. induction p as [|x p IH]; [done|]. intros H. injection H as H. auto. Qed.

(** [memcmp] against a whole prefix tests for that prefix. *)
Lemma memcmp_prefix (s p : string) :
  memcmp_eq s p (strlen p) = true <-> exists r, s = (p ++ r)%string.
Proof.
  unfold memcmp_eq, strlen. rewrite Nat2Z.id, String.eqb_eq, substring_all. split.
  - apply substring_prefix.
  - intros [r ->]. apply substring_app_l.
Qed.

(** ** The table *)

Section Theory.
Context {W : Type}.
Implicit Types (st : vfs_state W) (e : vfs_entry_t W) (path : string).

Definition entry_wf (i : nat) e : Prop :=
  base_path_ok (path_prefix e) = true /\ path_prefix_len e = strlen (path_prefix e)
  /\ offset e = Z.of_nat i.

Record table_wf st : Prop := {
  table_len : length (s_vfs st) = Z.to_nat VFS_MAX_COUNT;
  table_count : Z.of_nat (s_vfs_count st) <= VFS_MAX_COUNT;
  table_entry : forall i e, s_vfs st !! i = Some (Some e) ->
                (i < s_vfs_count st)%nat /\ entry_wf i e;
  table_dirs : forall d x, dd_vfs_idx st !! d = Some x ->
               exists i, (i < s_vfs_count st)%nat /\ x = Z.of_nat i * 4096
}.

Definition no_holes st : Prop :=
  forall i, (i < s_vfs_count st)%nat -> s_vfs st !! i <> Some None.

(** [path] names something under the prefix of [e]; [rest] is what the driver
    is given. *)
Definition under path e (rest : string) : Prop :=
  path = (path_prefix e ++ rest)%string /\ String.get 0 rest = Some SLASH.

(** The driver a path belongs to: the first slot it is under. *)
Definition routes st path (i : nat) e (rest : string) : Prop :=
  s_vfs st !! i = Some (Some e) /\ under path e rest
  /\ forall j, (j < i)%nat ->
       exists e', s_vfs st !! j = Some (Some e') /\ forall r, ~ under path e' r.

Lemma under_test (i : nat) path e :
  entry_wf i e ->
  (exists rest, under path e rest) <->
  (strlen path <? path_prefix_len e + 1) = false
  /\ memcmp_eq path (path_prefix e) (path_prefix_len e) = true
  /\ String.get (Z.to_nat (path_prefix_len e)) path = Some SLASH.
Proof.
  intros (_ & Hlen & _). rewrite Hlen. split.
  - intros (rest & -> & Hs). unfold strlen. rewrite Nat2Z.id, get_app. split; [|split; [|done]].
    + rewrite length_append. destruct rest; [done|]. cbn. apply Z.ltb_ge. lia.
    + apply memcmp_prefix. by eexists.
  - intros (_ & Hm & Hg). apply memcmp_prefix in Hm as [r ->].
    unfold strlen in Hg. rewrite Nat2Z.id, get_app in Hg. by exists r.
Qed.

Definition under_b path e : bool :=
  negb (strlen path <? path_prefix_len e + 1)
  && memcmp_eq path (path_prefix e) (path_prefix_len e)
  && bool_decide (String.get (Z.to_nat (path_prefix_len e)) path = Some SLASH).

Lemma under_b_spec (i : nat) path e :
  entry_wf i e -> under_b path e = true <-> exists rest, under path e rest.
Proof.
  intros Hwf. rewrite (under_test i path e Hwf). unfold under_b.
  rewrite !andb_true_iff, negb_true_iff, bool_decide_eq_true. naive_solver.
Qed.

Lemma find_path_cons path e rest i :
  find_path path (Some e :: rest) i =
  if under_b path e then Ret (Some (i, e)) else find_path path rest (S i).
Proof.
  cbn [find_path]. unfold under_b. destruct (strlen path <? path_prefix_len e + 1); [done|].
  destruct (memcmp_eq _ _ _); [|done]. cbn. repeat case_bool_decide; naive_solver.
Qed.

Lemma find_path_spec path (slots : list (option (vfs_entry_t W))) i :
  match find_path path slots i with
  | Ret (Some (k, e)) =>
      (i <= k)%nat /\ slots !! (k - i)%nat = Some (Some e) /\ under_b path e = true
      /\ (forall j, (j < k - i)%nat ->
            exists e', slots !! j = Some (Some e') /\ under_b path e' = false)
  | Ret None => forall j o, slots !! j = Some o -> exists e', o = Some e' /\ under_b path e' = false
  | Stuck f => f = NullDeref /\ exists k, slots !! k = Some None /\
      (forall j, (j < k)%nat -> exists e', slots !! j = Some (Some e') /\ under_b path e' = false)
  end.
Proof.
  revert i. induction slots as [|[e|] slots IH]; intros i.
  - cbn. intros j o H. by rewrite lookup_nil in H.
  - rewrite find_path_cons. destruct (under_b path e) eqn:E.
    + rewrite Nat.sub_diag. split_and!; try done. intros; lia.
    + specialize (IH (S i)). destruct (find_path path slots (S i)) as [[[k e']|]|f].
      * destruct IH as (Hk & Hl & Hu & Hj).
        replace (k - i)%nat with (S (k - S i)) by lia. split_and!; [lia|done|done|].
        intros [|j] Hlt; [by exists e|]. apply Hj. lia.
      * intros [|j] o H; cbn in H; [|by eapply IH]. simplify_eq. by exists e.
      * destruct IH as (-> & k & Hk & Hj). split; [done|]. exists (S k). split; [done|].
        intros [|j] Hlt; [by exists e|]. apply Hj. lia.
  - cbn. split; [done|]. exists 0%nat. split; [done|]. intros; lia.
Qed.

Lemma routes_fun st path i i' e e' r r' :
  routes st path i e r -> routes st path i' e' r' -> i = i' /\ e = e' /\ r = r'.
Proof.
  intros (H1 & H2 & H3) (K1 & K2 & K3).
  assert (i = i') as <-.
  { destruct (Nat.lt_trichotomy i i') as [L|[L|L]]; [|done|].
    - destruct (K3 _ L) as (x & Hx & Hn). simplify_eq. by destruct (Hn r).
    - destruct (H3 _ L) as (x & Hx & Hn). simplify_eq. by destruct (Hn r'). }
  simplify_eq. destruct H2 as [-> _], K2 as [K2 _]. by apply append_inj_l in K2.
Qed.

Lemma get_vfs_for_path_cases st path :
  table_wf st ->
  match get_vfs_for_path path st with
  | Ret (Some (i, e), st') => st' = st /\ exists rest, routes st path i e rest
  | Ret (None, st') =>
      st' = st /\ no_holes st
      /\ forall i e r, s_vfs st !! i = Some (Some e) -> ~ under path e r
  | Stuck f =>
      f = NullDeref /\ exists k, (k < s_vfs_count st)%nat /\ s_vfs st !! k = Some None
      /\ forall j e r, (j < k)%nat -> s_vfs st !! j = Some (Some e) -> ~ under path e r
  end.
Proof.
  intros Hwf. unfold get_vfs_for_path, lift, mbind, M_bind, get.
  pose proof (find_path_spec path (take (s_vfs_count st) (s_vfs st)) 0) as H.
  assert (Hneg : forall j e r, s_vfs st !! j = Some (Some e) ->
            (exists e', take (s_vfs_count st) (s_vfs st) !! j = Some (Some e')
                        /\ under_b path e' = false) -> ~ under path e r).
  { intros j e r Hj (e' & He' & Hu) Hr. apply lookup_take_Some in He' as [He' _]. simplify_eq.
    destruct (table_entry _ Hwf _ _ Hj) as [_ Hw].
    rewrite (proj2 (under_b_spec _ _ _ Hw)) in Hu; [done|by eexists]. }
  destruct (find_path path _ 0) as [[[k e]|]|f].
  - destruct H as (_ & Hl & Hu & Hj). rewrite Nat.sub_0_r in Hl, Hj.
    apply lookup_take_Some in Hl as [Hl Hk]. split; [done|].
    destruct (table_entry _ Hwf _ _ Hl) as [_ Hw].
    apply (under_b_spec _ _ _ Hw) in Hu as [rest Hr]. exists rest.
    split_and!; try done. intros j Hlt. destruct (Hj _ Hlt) as (e' & He' & Hb). exists e'.
    pose proof He' as He. apply lookup_take_Some in He as [He _]. split; [done|].
    intros r. eapply Hneg; eauto.
  - split; [done|]. split.
    + intros i Hi Hn. destruct (H i None) as (e' & [=] & _).
      rewrite lookup_take_lt; done.
    + intros i e r Hi. eapply Hneg; [done|]. destruct (table_entry _ Hwf _ _ Hi) as [Hlt _].
      destruct (H i (Some e)) as (e' & [= <-] & Hu); [by rewrite lookup_take_lt|].
      exists e. by rewrite lookup_take_lt.
  - destruct H as (-> & k & Hk & Hj). split; [done|].
    apply lookup_take_Some in Hk as [Hk Hlt]. exists k. repeat split; try done.
    intros j e r Hjk Hje. eapply Hneg; [done|]. by apply Hj.
Qed.

Lemma get_vfs_for_path_routes st path i e rest :
  table_wf st -> routes st path i e rest ->
  get_vfs_for_path path st = Ret (Some (i, e), st).
Proof.
  intros Hwf Hr. pose proof (get_vfs_for_path_cases st path Hwf) as H.
  destruct (get_vfs_for_path path st) as [[[[i' e']|] st']|f].
  - destruct H as (-> & r & Hr'). by destruct (routes_fun _ _ _ _ _ _ _ _ Hr Hr') as (-> & -> & _).
  - destruct H as (_ & _ & H), Hr as (H1 & H2 & _). by destruct (H _ _ _ H1 H2).
  - destruct H as (_ & k & _ & Hk & Hn), Hr as (H1 & H2 & H3).
    destruct (Nat.lt_trichotomy i k) as [L|[->|L]].
    + by destruct (Hn _ _ _ L H1 H2).
    + congruence.
    + destruct (H3 _ L) as (x & Hx & _). congruence.
Qed.

Lemma translate_path_under st path i e rest :
  entry_wf i e -> under path e rest -> translate_path e path st = Ret (rest, st).
Proof.
  intros (_ & Hlen & _) [-> _]. unfold translate_path. rewrite Hlen.
  rewrite (proj2 (memcmp_prefix _ _)) by (by eexists).
  unfold strlen. rewrite Nat2Z.id, length_append.
  replace (_ + _ - _)%nat with (String.length rest) by lia.
  by rewrite substring_app_r.
Qed.

Lemma routes_entry st path i e rest :
  table_wf st -> routes st path i e rest -> (i < s_vfs_count st)%nat /\ entry_wf i e.
Proof. intros Hwf (H & _). by apply table_entry. Qed.

Lemma on_path_routes st err path i e rest req k :
  table_wf st -> routes st path i e rest ->
  on_path err path req k st = CHECK_AND_CALL err e (req rest) (k e) st.
Proof.
  intros Hwf Hr. destruct (routes_entry _ _ _ _ _ Hwf Hr) as [_ He].
  unfold on_path, mbind at 1, M_bind. rewrite (get_vfs_for_path_routes _ _ _ _ _ Hwf Hr).
  unfold mbind, M_bind. by rewrite (translate_path_under _ _ _ _ _ He (proj1 (proj2 Hr))).
Qed.

(** ** Descriptors *)

(** A descriptor built by [esp_vfs_open] from slot [i] and local number [l]. *)
Lemma fd_split (i l : Z) :
  0 <= i < VFS_MAX_COUNT -> 0 <= l < 4096 ->
  Z.shiftr (Z.land (l + Z.shiftl i VFS_INDEX_S) VFS_INDEX_MASK) VFS_INDEX_S = i
  /\ Z.land (l + Z.shiftl i VFS_INDEX_S) VFS_FD_MASK = l.
Proof.
  intros Hi Hl. change VFS_MAX_COUNT with 7 in Hi. unfold VFS_INDEX_S, CONFIG_MAX_FD_BITS.
  rewrite Z.shiftl_mul_pow2 by lia. split.
  - rewrite Z.shiftr_land. change (Z.shiftr VFS_INDEX_MASK 12) with (Z.ones 3).
    rewrite Z.land_ones, Z.shiftr_div_pow2 by lia.
    rewrite Z.div_add by lia. rewrite (Z.div_small l) by (change (2 ^ 12) with 4096; lia).
    apply Z.mod_small. change (2 ^ 3) with 8. lia.
  - change VFS_FD_MASK with (Z.ones 12). rewrite Z.land_ones by lia.
    rewrite Z.mod_add by lia. apply Z.mod_small. change (2 ^ 12) with 4096. lia.
Qed.

Lemma get_vfs_for_fd_slot st i e fd :
  table_wf st -> s_vfs st !! i = Some (Some e) ->
  Z.shiftr (Z.land fd VFS_INDEX_MASK) VFS_INDEX_S = Z.of_nat i ->
  get_vfs_for_fd fd st = Ret (Some e, st).
Proof.
  intros Hwf Hi Hfd. destruct (table_entry _ Hwf _ _ Hi) as [Hlt _].
  unfold get_vfs_for_fd, mbind, M_bind, get. rewrite Hfd.
  case_test; [lia|]. unfold lift.
  rewrite (proj2 (rd_ok (s_vfs st) (Z.of_nat i) (Some e))); [done|].
  rewrite Nat2Z.id. split; [|done]. apply lookup_lt_Some in Hi. lia.
Qed.

Lemma on_fd_slot st i e l req :
  table_wf st -> s_vfs st !! i = Some (Some e) -> 0 <= l - fd_offset (vfs e) < 4096 ->
  on_fd (l - fd_offset (vfs e) + Z.shiftl (offset e) VFS_INDEX_S) req st
  = CHECK_AND_CALL (-1) e (req l) mret st.
Proof.
  intros Hwf Hi Hl. destruct (table_entry _ Hwf _ _ Hi) as [Hlt (_ & _ & Ho)].
  pose proof (table_count _ Hwf) as Hc.
  destruct (fd_split (offset e) (l - fd_offset (vfs e))) as [H1 H2]; [lia|done|].
  unfold on_fd, mbind, M_bind.
  rewrite (get_vfs_for_fd_slot _ _ _ _ Hwf Hi) by (by rewrite H1).
  unfold translate_fd. rewrite H2. do 2 f_equal. lia.
Qed.

(** ** What the calls leave alone *)

Definition same_table st st' : Prop :=
  s_vfs st' = s_vfs st /\ s_vfs_count st' = s_vfs_count st /\ dd_vfs_idx st' = dd_vfs_idx st.

#[local] Instance same_table_preorder : PreOrder same_table.
Proof. split; [done|]. intros a b c (?&?&?) (?&?&?). unfold same_table. split_and!; congruence. Qed.

Definition wf_kept st st' : Prop := table_wf st -> table_wf st'.

#[local] Instance wf_kept_preorder : PreOrder wf_kept.
Proof. split; [by intros ? ?|]. intros a b c ???; auto. Qed.

Lemma same_table_wf st st' : same_table st st' -> wf_kept st st'.
Proof.
  intros (H1 & H2 & H3) Hwf. split; rewrite ?H1, ?H2, ?H3; apply Hwf.
Qed.

Lemma respects_set_errno n : respects same_table (set_errno (W := W) n).
Proof. apply respects_modify. done. Qed.

Lemma respects_set_world w : respects same_table (set_world (W := W) w).
Proof. apply respects_modify. done. Qed.

Lemma respects_wf_kept {A} (m : M (vfs_state W) A) : respects same_table m -> respects wf_kept m.
Proof. intros H s a s' E. by eapply same_table_wf, H. Qed.

#[local] Hint Resolve respects_set_errno respects_set_world : respects.

Lemma respects_CHECK_AND_CALL (R : vfs_state W -> vfs_state W -> Prop) err e req k :
  PreOrder R -> (forall st st', same_table st st' -> R st st') ->
  (forall r, respects R (k r)) -> respects R (CHECK_AND_CALL err e req k).
Proof.
  intros HR Hsub Hk. assert (Hsame : forall A (m : M (vfs_state W) A),
    respects same_table m -> respects R m) by (intros A m H s a s' E; eapply Hsub, H, E).
  unfold CHECK_AND_CALL. respects_auto; auto with respects.
Qed.

Lemma same_call err e req : respects same_table (CHECK_AND_CALL err e req mret).
Proof. apply respects_CHECK_AND_CALL; [typeclasses eauto|done|intros; respects_auto]. Qed.

#[local] Hint Resolve same_call : respects.

Lemma same_on_fd fd req : respects same_table (on_fd (W := W) fd req).
Proof. unfold on_fd, get_vfs_for_fd. respects_auto. Qed.

Lemma same_on_dir err pdir req : respects same_table (on_dir (W := W) err pdir req).
Proof. unfold on_dir, get_vfs_for_fd. respects_auto. Qed.

Lemma same_on_paths n1 n2 req : respects same_table (on_paths (W := W) n1 n2 req).
Proof.
  unfold on_paths, get_vfs_for_path, translate_path. respects_auto.
Qed.

Lemma same_on_path err path req : respects same_table (on_path (W := W) err path req (fun _ => mret)).
Proof.
  unfold on_path, get_vfs_for_path, translate_path. respects_auto.
Qed.

Lemma same_open path f m : respects same_table (esp_vfs_open (W := W) path f m).
Proof.
  unfold esp_vfs_open, on_path, get_vfs_for_path, translate_path. respects_auto.
  apply respects_CHECK_AND_CALL; [typeclasses eauto|done|].
  respects_auto.
Qed.

#[local] Hint Resolve same_on_fd same_on_dir same_on_paths same_on_path same_open : respects.

(** ** Registration *)

Lemma free_slot_spec (slots : list (option (vfs_entry_t W))) i :
  let k := free_slot slots i in
  (i <= k <= i + length slots)%nat
  /\ ((k < i + length slots)%nat -> slots !! (k - i)%nat = Some None)
  /\ (forall j, (j < k - i)%nat -> exists e, slots !! j = Some (Some e)).
Proof.
  revert i. induction slots as [|[e|] slots IH]; intros i; cbn [free_slot length].
  - split_and!; intros; lia.
  - destruct (IH (S i)) as (H1 & H2 & H3). cbn zeta.
    split_and!; [lia|lia| |].
    + intros Hk. replace (_ - i)%nat with (S (free_slot slots (S i) - S i)) by lia.
      apply H2. lia.
    + intros [|j] Hj; [by exists e|]. apply H3. lia.
  - rewrite Nat.sub_diag. cbn. split_and!; [lia|lia|done|intros; lia].
Qed.

(** The slot [esp_vfs_register] fills and the count it leaves. *)
Lemma register_slot st :
  table_wf st ->
  let k := free_slot (take (s_vfs_count st) (s_vfs st)) 0 in
  (k <= s_vfs_count st)%nat
  /\ ((k < s_vfs_count st)%nat -> s_vfs st !! k = Some None)
  /\ (forall j, (j < k)%nat -> exists e, s_vfs st !! j = Some (Some e)).
Proof.
  intros Hwf k. pose proof (table_len _ Hwf) as Hl. pose proof (table_count _ Hwf) as Hc.
  destruct (free_slot_spec (take (s_vfs_count st) (s_vfs st)) 0) as (H1 & H2 & H3).
  fold k in H1, H2, H3. rewrite Nat.sub_0_r in H2, H3. cbn zeta in *.
  rewrite length_take_le in H1, H2 by lia. split_and!; [lia| |].
  - intros Hk. specialize (H2 ltac:(lia)). by apply lookup_take_Some in H2 as [? _].
  - intros j Hj. destruct (H3 j Hj) as [e He]. exists e. by apply lookup_take_Some in He as [? _].
Qed.

(** The table after [entry] was put in slot [k]. *)
Definition registered st (k : nat) entry : vfs_state W :=
  VfsState (<[k := Some entry]> (s_vfs st)) (Nat.max (s_vfs_count st) (S k)) (errno st)
    (dd_vfs_idx st) (world st).

Lemma register_ok st b v x :
  table_wf st -> base_path_ok b = true ->
  let k := free_slot (take (s_vfs_count st) (s_vfs st)) 0 in
  Z.of_nat k < VFS_MAX_COUNT ->
  esp_vfs_register true b v x st
  = Ret (ESP_OK, registered st k (Entry v b (strlen b) x (Z.of_nat k))).
Proof.
  intros Hwf Hb k Hk. destruct (register_slot st Hwf) as (H1 & _ & _). fold k in H1.
  pose proof (table_len _ Hwf) as Hl. cbn zeta in *.
  unfold esp_vfs_register. rewrite Hb. cbn [negb]. unfold mbind at 1, M_bind, get.
  fold k. destruct (Nat.eqb_spec k (s_vfs_count st)) as [E|E]; cbn [andb].
  - case_test; [lia|]. unfold mbind, M_bind, lift. rewrite wr_in by lia.
    unfold registered. by rewrite Nat2Z.id, Nat.max_r, E by lia.
  - unfold mbind, M_bind, lift. rewrite wr_in by lia.
    unfold registered. by rewrite Nat2Z.id, Nat.max_l by lia.
Qed.

Lemma registered_wf st b v x :
  table_wf st -> base_path_ok b = true ->
  let k := free_slot (take (s_vfs_count st) (s_vfs st)) 0 in
  Z.of_nat k < VFS_MAX_COUNT ->
  table_wf (registered st k (Entry v b (strlen b) x (Z.of_nat k))).
Proof.
  intros Hwf Hb k Hk. pose proof (table_count _ Hwf). split; cbn.
  - rewrite length_insert. apply Hwf.
  - lia.
  - intros i e Hi. destruct (decide (i = k)) as [->|Hne].
    + rewrite list_lookup_insert_eq in Hi by (rewrite (table_len _ Hwf); lia).
      simplify_eq. split; [lia|]. done.
    + rewrite list_lookup_insert_ne in Hi by done. destruct (table_entry _ Hwf _ _ Hi). split; [lia|done].
  - intros d y Hd. destruct (table_dirs _ Hwf _ _ Hd) as (i & Hi & ->). exists i. split; [lia|done].
Qed.

Lemma register_cases st m b v x :
  table_wf st ->
  exists r st', esp_vfs_register m b v x st = Ret (r, st')
    /\ (st' = st \/ r = ESP_OK /\ m = true /\ base_path_ok b = true /\
        let k := free_slot (take (s_vfs_count st) (s_vfs st)) 0 in
        Z.of_nat k < VFS_MAX_COUNT /\
        st' = registered st k (Entry v b (strlen b) x (Z.of_nat k))).
Proof.
  intros Hwf. destruct (base_path_ok b) eqn:Hb.
  2: { exists ESP_ERR_INVALID_ARG, st. unfold esp_vfs_register. rewrite Hb. auto. }
  destruct m; [|by exists ESP_ERR_NO_MEM, st; unfold esp_vfs_register; rewrite Hb; auto].
  set (k := free_slot (take (s_vfs_count st) (s_vfs st)) 0).
  destruct (Z_lt_le_dec (Z.of_nat k) VFS_MAX_COUNT) as [Hk|Hk].
  - eexists _, _. split; [by apply register_ok|]. right. done.
  - exists ESP_ERR_NO_MEM, st. split; [|by left].
    destruct (register_slot st Hwf) as (H1 & _ & _). fold k in H1.
    pose proof (table_count _ Hwf).
    unfold esp_vfs_register. rewrite Hb. cbn [negb]. unfold mbind at 1, M_bind, get.
    fold k. rewrite (proj2 (Nat.eqb_eq k (s_vfs_count st))) by lia.
    by rewrite (proj2 (Z.leb_le _ _)) by lia.
Qed.

Lemma wf_register m b v x : respects wf_kept (esp_vfs_register (W := W) m b v x).
Proof.
  intros st r st' H Hwf. destruct (register_cases st m b v x Hwf) as (r' & st2 & H' & Hc).
  rewrite H in H'. injection H' as <- <-. destruct Hc as [->|(_ & _ & Hb & Hk & ->)]; [done|].
  by apply registered_wf.
Qed.

(** ** Removal *)

Definition unregistered st (i : nat) : vfs_state W :=
  VfsState (<[i := None]> (s_vfs st)) (s_vfs_count st) (errno st) (dd_vfs_idx st) (world st).

Lemma find_unregister_spec b (slots : list (option (vfs_entry_t W))) i k :
  find_unregister b slots i = Ret (Some k) ->
  (i <= k)%nat /\ exists e, slots !! (k - i)%nat = Some (Some e)
  /\ memcmp_eq b (path_prefix e) (path_prefix_len e) = true
  /\ forall j, (j < k - i)%nat -> exists e', slots !! j = Some (Some e').
Proof.
  revert i. induction slots as [|[e|] slots IH]; intros i; cbn [find_unregister]; try done.
  destruct (memcmp_eq _ _ _) eqn:E.
  - intros [= <-]. split; [done|]. rewrite Nat.sub_diag. exists e. split_and!; try done. intros; lia.
  - intros (Hk & e' & H1 & H2 & H3)%IH. split; [lia|]. exists e'.
    replace (k - i)%nat with (S (k - S i)) by lia. split_and!; try done.
    intros [|j] Hj; [by exists e|]. apply H3. lia.
Qed.

Lemma unregister_cases st b r st' :
  table_wf st -> esp_vfs_unregister b st = Ret (r, st') ->
  r = ESP_ERR_INVALID_STATE /\ st' = st
  \/ r = ESP_OK /\ exists i e rest, s_vfs st !! i = Some (Some e)
      /\ b = (path_prefix e ++ rest)%string /\ st' = unregistered st i
      /\ forall j, (j < i)%nat -> exists e', s_vfs st !! j = Some (Some e').
Proof.
  intros Hwf. unfold esp_vfs_unregister. unfold mbind at 1, M_bind, get.
  intros ([i|] & s1 & H1 & H2)%bind_Ret; unfold lift in H1;
    destruct (find_unregister _ _ _) as [o|] eqn:Hf; simplify_eq; [|by injection H2 as <- <-; left].
  right. apply find_unregister_spec in Hf as (_ & e & He & Hm & Hj). rewrite Nat.sub_0_r in He, Hj.
  apply lookup_take_Some in He as [He Hlt].
  destruct (table_entry _ Hwf _ _ He) as [_ (_ & Hlen & _)]. rewrite Hlen in Hm.
  apply memcmp_prefix in Hm as [rest ->].
  unfold mbind, M_bind, lift in H2. rewrite wr_in in H2 by (apply lookup_lt_Some in He; lia).
  rewrite Nat2Z.id in H2. injection H2 as <- <-. split; [done|].
  exists i, e, rest. split_and!; try done.
  intros j Hlt'. destruct (Hj j Hlt') as [e' He']. exists e'. by apply lookup_take_Some in He' as [? _].
Qed.

Lemma unregistered_wf st i : table_wf st -> table_wf (unregistered st i).
Proof.
  intros Hwf. split; cbn; [rewrite length_insert; apply Hwf|apply Hwf| |apply Hwf].
  intros j e Hj. destruct (decide (i = j)) as [->|Hne].
  - apply list_lookup_insert_Some in Hj as [(_ & [=] & _)|(? & _)]; congruence.
  - rewrite list_lookup_insert_ne in Hj by done. by apply Hwf.
Qed.

Lemma wf_unregister b : respects wf_kept (esp_vfs_unregister (W := W) b).
Proof.
  intros st r st' H Hwf. apply unregister_cases in H; [|done].
  destruct H as [[_ ->]|(_ & i & e & rest & _ & _ & -> & _)]; [done|]. by apply unregistered_wf.
Qed.

(** ** Calls of a driver *)

Definition with_errno (n : Z) st : vfs_state W :=
  VfsState (s_vfs st) (s_vfs_count st) n (dd_vfs_idx st) (world st).

Definition with_world (w : W) st : vfs_state W :=
  VfsState (s_vfs st) (s_vfs_count st) (errno st) (dd_vfs_idx st) w.

Definition context_arg e : option Z :=
  if Z.testbit (flags (vfs e)) 0 then Some (ctx e) else None.

(** What one call of a driver amounts to. *)
Definition driver_call (err : Z) e (req : request) st : outcome (Z * vfs_state W) :=
  match ops (vfs e) (member_of req) with
  | None => Ret (err, with_errno ENOSYS st)
  | Some f => let '(ret, w) := f (context_arg e) req (world st) in Ret (ret, with_world w st)
  end.

Lemma CHECK_AND_CALL_eq err e req k st :
  CHECK_AND_CALL err e req k st =
  match ops (vfs e) (member_of req) with
  | None => Ret (err, with_errno ENOSYS st)
  | Some f => let '(ret, w) := f (context_arg e) req (world st) in k ret (with_world w st)
  end.
Proof.
  unfold CHECK_AND_CALL. destruct (ops _ _) as [f|]; [|done].
  unfold mbind at 1, M_bind, gets.
  assert ((if Z.land (flags (vfs e)) ESP_VFS_FLAG_CONTEXT_PTR =? 0 then None else Some (ctx e))
          = context_arg e) as ->.
  { unfold context_arg. change ESP_VFS_FLAG_CONTEXT_PTR with (Z.ones 1).
    rewrite Z.land_ones, Z.bit0_odd, <- Z.bit0_mod by lia. rewrite Z.bit0_odd.
    by destruct (Z.odd _). }
  by destruct (f _ _ _).
Qed.

Lemma driver_call_eq err e req st : CHECK_AND_CALL err e req mret st = driver_call err e req st.
Proof. rewrite CHECK_AND_CALL_eq. unfold driver_call. destruct (ops _ _); [by destruct (_ _ _ _)|done]. Qed.

Lemma on_path_cases st err path req k r st' :
  table_wf st -> on_path err path req k st = Ret (r, st') ->
  st' = with_errno ENOENT st \/
  exists i e rest, routes st path i e rest /\ CHECK_AND_CALL err e (req rest) (k e) st = Ret (r, st').
Proof.
  intros Hwf H. pose proof (get_vfs_for_path_cases st path Hwf) as Hc.
  destruct (get_vfs_for_path path st) as [[[[i e]|] st1]|f] eqn:Hg.
  - destruct Hc as (-> & rest & Hr). right. exists i, e, rest. split; [done|].
    by rewrite (on_path_routes _ _ _ _ _ _ _ _ Hwf Hr) in H.
  - destruct Hc as (-> & _). left. unfold on_path in H. apply bind_Ret in H as (o & s1 & H1 & H2).
    rewrite Hg in H1. injection H1 as <- <-. injection H2 as _ <-. done.
  - unfold on_path in H. apply bind_Ret in H as (o & s1 & H1 & H2). congruence.
Qed.

Lemma dd_index e i st :
  table_wf st -> (i < s_vfs_count st)%nat -> offset e = Z.of_nat i ->
  u16 (Z.shiftl (offset e) VFS_INDEX_S) = Z.of_nat i * 4096.
Proof.
  intros Hwf Hi ->. pose proof (table_count _ Hwf) as Hc. change VFS_MAX_COUNT with 7 in Hc.
  rewrite Z.shiftl_mul_pow2 by done. change (2 ^ VFS_INDEX_S) with 4096.
  apply wrap_small. change (2 ^ 16) with 65536. lia.
Qed.

Lemma wf_opendir name : respects wf_kept (opendir (W := W) name).
Proof.
  intros st r st' H Hwf. apply (on_path_cases _ _ _ _ _ _ _ Hwf) in H.
  destruct H as [->|(i & e & rest & Hr & H)]; [by apply (same_table_wf st)|].
  destruct (routes_entry _ _ _ _ _ Hwf Hr) as [Hi (_ & _ & Ho)].
  rewrite CHECK_AND_CALL_eq in H. destruct (ops _ _) as [f|].
  2: { injection H as _ <-. by apply (same_table_wf st). }
  destruct (f _ _ _) as [ret w].
  destruct (ret =? 0); [injection H as _ <-; by apply (same_table_wf st)|].
  injection H as _ <-. split; cbn; try apply Hwf.
  intros d x [[<- <-]|[_ Hx]]%lookup_insert_Some; [|by apply Hwf in Hx].
  exists i. split; [done|]. by eapply dd_index.
Qed.

#[local] Hint Resolve wf_register wf_unregister wf_opendir : respects.

Lemma wf_run c : respects wf_kept (run (W := W) c).
Proof.
  destruct c; cbn [run]; try solve [auto with respects];
    apply respects_wf_kept; first
    [ apply same_open | apply same_on_fd | apply same_on_path | apply same_on_paths
    | apply same_on_dir ].
Qed.

Lemma initial_wf w : table_wf (initial_state w : vfs_state W).
Proof.
  split; cbn [initial_state s_vfs s_vfs_count dd_vfs_idx]; [done|done| |].
  - intros i e H. apply lookup_replicate in H as [[=] _].
  - intros d x H. by rewrite lookup_empty in H.
Qed.

Lemma on_paths_same st n1 n2 i e rest1 rest2 req :
  table_wf st -> routes st n1 i e rest1 -> routes st n2 i e rest2 ->
  on_paths n1 n2 req st = CHECK_AND_CALL (-1) e (req rest1 rest2) mret st.
Proof.
  intros Hwf H1 H2. destruct (routes_entry _ _ _ _ _ Hwf H1) as [_ He].
  unfold on_paths. unfold mbind at 1, M_bind. rewrite (get_vfs_for_path_routes _ _ _ _ _ Hwf H1).
  unfold mbind at 1, M_bind. rewrite (get_vfs_for_path_routes _ _ _ _ _ Hwf H2).
  rewrite bool_decide_true by done.
  unfold mbind at 1, M_bind. rewrite (translate_path_under _ _ _ _ _ He (proj1 (proj2 H1))).
  unfold mbind at 1, M_bind. by rewrite (translate_path_under _ _ _ _ _ He (proj1 (proj2 H2))).
Qed.

Lemma on_paths_cross st n1 n2 i e rest1 j e2 rest2 req :
  table_wf st -> routes st n1 i e rest1 -> routes st n2 j e2 rest2 -> i <> j ->
  on_paths n1 n2 req st = Ret (-1, with_errno EXDEV st).
Proof.
  intros Hwf H1 H2 Hne. unfold on_paths.
  unfold mbind at 1, M_bind. rewrite (get_vfs_for_path_routes _ _ _ _ _ Hwf H1).
  unfold mbind at 1, M_bind. rewrite (get_vfs_for_path_routes _ _ _ _ _ Hwf H2).
  rewrite bool_decide_false; [done|]. cbn. congruence.
Qed.

Lemma get_vfs_for_path_none st path :
  table_wf st -> no_holes st ->
  (forall i e r, s_vfs st !! i = Some (Some e) -> ~ under path e r) ->
  get_vfs_for_path path st = Ret (None, st).
Proof.
  intros Hwf Hh Hn. pose proof (get_vfs_for_path_cases st path Hwf) as Hc.
  destruct (get_vfs_for_path path st) as [[[[i e]|] st1]|f].
  - destruct Hc as (_ & rest & H1 & H2 & _). by destruct (Hn _ _ _ H1 H2).
  - by destruct Hc as [-> _].
  - destruct Hc as (_ & k & Hk & Hnone & _). by destruct (Hh k Hk).
Qed.

Lemma on_path_none st err path req k :
  get_vfs_for_path path st = Ret (None, st) ->
  on_path err path req k st = Ret (err, with_errno ENOENT st).
Proof. intros H. unfold on_path. unfold mbind at 1, M_bind. by rewrite H. Qed.

Lemma on_paths_none st n1 n2 req :
  get_vfs_for_path n1 st = Ret (None, st) ->
  on_paths n1 n2 req st = Ret (-1, with_errno ENOENT st).
Proof. intros H. unfold on_paths. unfold mbind at 1, M_bind. by rewrite H. Qed.

Lemma get_vfs_for_path_hole st path i :
  table_wf st -> (i < s_vfs_count st)%nat ->
  (forall j, (j < i)%nat -> exists e, s_vfs st !! j = Some (Some e)) ->
  (forall j e r, (j < i)%nat -> s_vfs st !! j = Some (Some e) -> ~ under path e r) ->
  get_vfs_for_path path (unregistered st i) = Stuck NullDeref.
Proof.
  intros Hwf Hi Hfull Hn.
  assert (Hnone : s_vfs (unregistered st i) !! i = Some None).
  { apply list_lookup_insert_eq. rewrite (table_len _ Hwf). pose proof (table_count _ Hwf). lia. }
  pose proof (get_vfs_for_path_cases _ path (unregistered_wf st i Hwf)) as Hc.
  destruct (get_vfs_for_path path (unregistered st i)) as [[[[k e]|] st1]|f].
  - destruct Hc as (_ & rest & H1 & H2 & H3). destruct (Nat.lt_trichotomy k i) as [L|[->|L]].
    + cbn in H1. rewrite list_lookup_insert_ne in H1 by lia. by destruct (Hn _ _ _ L H1 H2).
    + congruence.
    + destruct (H3 _ L) as (e' & He' & _). congruence.
  - destruct Hc as (_ & Hh & _). by destruct (Hh i Hi).
  - by destruct Hc as [-> _].
Qed.

(** ** Properties *)

(** A handle for slot [i] is answered by entry [e] wherever slot [i] still
    holds [e]. *)
Definition fd_bound_to (fd : Z) (i : nat) e (local : Z) : Prop :=
  forall st, table_wf st -> s_vfs st !! i = Some (Some e) ->
  (forall d n, esp_vfs_write fd d n st = driver_call (-1) e (Write local d n) st)
  /\ (forall n m, esp_vfs_lseek fd n m st = driver_call (-1) e (Lseek local n m) st)
  /\ (forall d n, esp_vfs_read fd d n st = driver_call (-1) e (Read local d n) st)
  /\ esp_vfs_close fd st = driver_call (-1) e (Close local) st
  /\ (forall s, esp_vfs_fstat fd s st = driver_call (-1) e (Fstat local s) st).

(** C26: opening a path calls the driver the path is routed to with the path
    below its prefix, and the descriptor it returns is a non-negative 15-bit
    number through which write, lseek, read, close and fstat reach that same
    driver, with the descriptor the driver gave, in every later state in which
    the driver is still registered in its slot. *)
Theorem open_fd_roundtrip st path oflags mode i e rest f local w :
  table_wf st -> routes st path i e rest ->
  ops (vfs e) m_open = Some f ->
  f (context_arg e) (Open rest oflags mode) (world st) = (local, w) ->
  0 <= local -> 0 <= local - fd_offset (vfs e) < 4096 ->
  exists fd, esp_vfs_open path oflags mode st = Ret (fd, with_world w st)
    /\ 0 <= fd < 2 ^ 15 /\ fd_bound_to fd i e local.
Proof.
  intros Hwf Hr Hf Hcall Hret Hl. destruct (routes_entry _ _ _ _ _ Hwf Hr) as [Hi (_ & _ & Ho)].
  exists (local - fd_offset (vfs e) + Z.shiftl (offset e) VFS_INDEX_S). split_and!.
  - unfold esp_vfs_open. rewrite (on_path_routes _ _ _ _ _ _ _ _ Hwf Hr), CHECK_AND_CALL_eq.
    cbn [member_of]. rewrite Hf, Hcall. case_test; [lia|]. unfold mbind, M_bind.
    by rewrite (proj2 (Z.leb_le _ _)) by lia.
  - rewrite Ho, Z.shiftl_mul_pow2 by done. change (2 ^ VFS_INDEX_S) with 4096. lia.
  - pose proof (table_count _ Hwf) as Hc. change VFS_MAX_COUNT with 7 in Hc.
    rewrite Ho, Z.shiftl_mul_pow2 by done. change (2 ^ VFS_INDEX_S) with 4096.
    change (2 ^ 15) with 32768. lia.
  - intros st1 Hwf1 H1. unfold esp_vfs_write, esp_vfs_lseek, esp_vfs_read, esp_vfs_close, esp_vfs_fstat.
    split_and!; intros; rewrite <- driver_call_eq;
      by rewrite (on_fd_slot _ _ _ _ _ Hwf1 H1 Hl).
Qed.

(** A path syscall whose path is routed to driver [e] is exactly one call
    of [e] with the path below its prefix; link and rename are such a call when
    both paths belong to [e], and otherwise fail with [EXDEV]; a path no entry
    covers fails with [ENOENT], touching nothing but [errno]. *)
Theorem path_syscalls_dispatch st path :
  table_wf st ->
  (forall i e rest, routes st path i e rest ->
     (forall s, esp_vfs_stat path s st = driver_call (-1) e (Stat rest s) st)
     /\ esp_vfs_unlink path st = driver_call (-1) e (Unlink rest) st
     /\ (forall m, mkdir path m st = driver_call (-1) e (Mkdir rest m) st)
     /\ rmdir path st = driver_call (-1) e (Rmdir rest) st
     /\ (forall n2 rest2, routes st n2 i e rest2 ->
          esp_vfs_link path n2 st = driver_call (-1) e (Link rest rest2) st
          /\ esp_vfs_rename path n2 st = driver_call (-1) e (Rename rest rest2) st)
     /\ (forall n2 j e2 rest2, routes st n2 j e2 rest2 -> i <> j ->
          esp_vfs_link path n2 st = Ret (-1, with_errno EXDEV st)
          /\ esp_vfs_rename path n2 st = Ret (-1, with_errno EXDEV st)))
  /\ (no_holes st -> (forall i e r, s_vfs st !! i = Some (Some e) -> ~ under path e r) ->
      (forall f m, esp_vfs_open path f m st = Ret (-1, with_errno ENOENT st))
      /\ (forall s, esp_vfs_stat path s st = Ret (-1, with_errno ENOENT st))
      /\ esp_vfs_unlink path st = Ret (-1, with_errno ENOENT st)
      /\ (forall m, mkdir path m st = Ret (-1, with_errno ENOENT st))
      /\ rmdir path st = Ret (-1, with_errno ENOENT st)
      /\ opendir path st = Ret (0, with_errno ENOENT st)
      /\ (forall n2, esp_vfs_link path n2 st = Ret (-1, with_errno ENOENT st)
           /\ esp_vfs_rename path n2 st = Ret (-1, with_errno ENOENT st))).
Proof.
  intros Hwf. split.
  - intros i e rest Hr.
    unfold esp_vfs_stat, esp_vfs_unlink, mkdir, rmdir, esp_vfs_link, esp_vfs_rename.
    split_and!; intros; rewrite <- ?driver_call_eq;
      try by rewrite (on_path_routes _ _ _ _ _ _ _ _ Hwf Hr).
    + split; by erewrite on_paths_same by eassumption.
    + split; by erewrite on_paths_cross by eassumption.
  - intros Hh Hn. pose proof (get_vfs_for_path_none st path Hwf Hh Hn) as Hg.
    unfold esp_vfs_open, esp_vfs_stat, esp_vfs_unlink, mkdir, rmdir, opendir, esp_vfs_link,
      esp_vfs_rename.
    split_and!; intros; try (by rewrite on_path_none); split; by rewrite on_paths_none.
Qed.

(** Registering a driver under a valid prefix, with a slot free, takes the
    first free slot, keeps the table well formed and routes to the driver every
    path under the prefix that no earlier slot covers; paths routed to earlier
    slots keep their driver. *)
Theorem register_routes st b v x :
  table_wf st -> base_path_ok b = true ->
  let k := free_slot (take (s_vfs_count st) (s_vfs st)) 0 in
  Z.of_nat k < VFS_MAX_COUNT ->
  exists st', esp_vfs_register true b v x st = Ret (ESP_OK, st') /\ table_wf st'
    /\ (forall rest, String.get 0 rest = Some SLASH ->
         (forall j e r, (j < k)%nat -> s_vfs st !! j = Some (Some e) ->
                        ~ under (b ++ rest)%string e r) ->
         routes st' (b ++ rest)%string k (Entry v b (strlen b) x (Z.of_nat k)) rest)
    /\ (forall path i e rest, routes st path i e rest -> (i < k)%nat -> routes st' path i e rest).
Proof.
  intros Hwf Hb k Hk. eexists. split; [by apply register_ok|]. split; [by apply registered_wf|].
  destruct (register_slot st Hwf) as (Hle & _ & Hfull). fold k in Hle, Hfull.
  pose proof (table_len _ Hwf) as Hl. split.
  - intros rest Hs Hn. split_and!; cbn; [|done|].
    + apply list_lookup_insert_eq. fold k. lia.
    + intros j Hj. destruct (Hfull j Hj) as [e' He']. exists e'.
      rewrite list_lookup_insert_ne by (fold k; lia). split; [done|]. intros r. by apply (Hn j).
  - intros path i e rest (H1 & H2 & H3) Hi. split_and!; cbn; [|done|].
    + rewrite list_lookup_insert_ne by (fold k; lia). done.
    + intros j Hj. destruct (H3 j Hj) as (e' & He' & Hu). exists e'.
      rewrite list_lookup_insert_ne by (fold k; lia). done.
Qed.

(** In every state reachable from boot by any sequence of calls, whatever
    the drivers do, the table is well formed: at most seven entries, each
    holding a valid prefix, its true length and its own slot number, and every
    open directory carries the number of a slot in use. *)
Theorem reachable_table_wf w st : reachable w st -> table_wf st.
Proof.
  induction 1 as [|c st r st' _ IH Hrun]; [apply initial_wf|].
  by apply (wf_run c st r st' Hrun).
Qed.

(** After a successful [esp_vfs_unregister] the freed slot stays below the
    table's count, and every path syscall on a path that no earlier slot covers
    dereferences the empty slot instead of failing with [ENOENT]. *)
Theorem unregister_leaves_hole st b st' :
  table_wf st -> esp_vfs_unregister b st = Ret (ESP_OK, st') ->
  exists i, (i < s_vfs_count st')%nat /\ s_vfs st' !! i = Some None
    /\ forall path, (forall j e r, (j < i)%nat -> s_vfs st !! j = Some (Some e) -> ~ under path e r) ->
       (forall f m, esp_vfs_open path f m st' = Stuck NullDeref)
       /\ (forall s, esp_vfs_stat path s st' = Stuck NullDeref)
       /\ esp_vfs_unlink path st' = Stuck NullDeref
       /\ opendir path st' = Stuck NullDeref.
Proof.
  intros Hwf H. apply (unregister_cases _ _ _ _ Hwf) in H as [[[=] _]|(_ & i & e & rest & He & _ & -> & Hfull)].
  destruct (table_entry _ Hwf _ _ He) as [Hi _]. pose proof (lookup_lt_Some _ _ _ He) as Hlen.
  exists i. cbn. split; [done|]. split; [by apply list_lookup_insert_eq|].
  intros path Hn.
  assert (Hg : get_vfs_for_path path (unregistered st i) = Stuck NullDeref)
    by (by apply get_vfs_for_path_hole).
  split_and!; intros; unfold esp_vfs_open, esp_vfs_stat, esp_vfs_unlink, opendir, on_path,
    mbind at 1, M_bind; by rewrite Hg.
Qed.

End Theory.

(** ** Instances: a driver that answers 3 and records what it is asked *)

Definition ex_driver : esp_vfs_t (list request) :=
  EspVfs 0 0 (fun _ => Some (fun _ r w => (3, r :: w))).

Definition ex_entry : vfs_entry_t (list request) := Entry ex_driver "/data" 5 0 0.
Definition ex_state : vfs_state (list request) := registered (initial_state []) 0 ex_entry.

Lemma ex_state_wf : table_wf ex_state.
Proof. apply (registered_wf (initial_state []) "/data" ex_driver 0); [apply initial_wf|done|done]. Qed.

Lemma ex_routes : routes ex_state "/data/f" 0 ex_entry "/f".
Proof. split; [done|]. split; [done|]. intros j Hj. lia. Qed.

Lemma open_fd_roundtrip_witness :
  exists fd, esp_vfs_open "/data/f" 0 0 ex_state = Ret (fd, with_world [Open "/f" 0 0] ex_state)
    /\ 0 <= fd < 2 ^ 15 /\ fd_bound_to fd 0 ex_entry 3.
Proof.
  apply (open_fd_roundtrip ex_state "/data/f" 0 0 0 ex_entry "/f" (fun _ r w => (3, r :: w)));
    [apply ex_state_wf|apply ex_routes|done|done|lia|cbn; lia].
Defined.

Lemma path_syscalls_dispatch_witness :
  esp_vfs_unlink "/data/f" ex_state = driver_call (-1) ex_entry (Unlink "/f") ex_state.
Proof.
  destruct (path_syscalls_dispatch ex_state "/data/f" ex_state_wf) as [H _].
  destruct (H _ _ _ ex_routes) as (_ & Hu & _). exact Hu.
Defined.

Lemma register_routes_witness :
  exists st', esp_vfs_register true "/sd" ex_driver 0 ex_state = Ret (ESP_OK, st')
              /\ table_wf st' /\ routes st' "/sd/x" 1 (Entry ex_driver "/sd" 3 0 1) "/x".
Proof.
  destruct (register_routes ex_state "/sd" ex_driver 0 ex_state_wf eq_refl eq_refl)
    as (st' & H1 & H2 & H3 & _).
  exists st'. split; [exact H1|]. split; [exact H2|]. apply (H3 "/x"); [done|].
  intros [|j] e r Hj He [Hu _]; [|change (S j < 1)%nat in Hj; lia]. injection He as <-. discriminate Hu.
Defined.

Lemma reachable_table_wf_witness : table_wf ex_state.
Proof.
  apply (reachable_table_wf []).
  apply (reach_step [] (CRegister true "/data" ex_driver 0) (initial_state []) ESP_OK);
    [apply reach_init|vm_compute; reflexivity].
Defined.

Lemma unregister_leaves_hole_witness :
  exists i, (i < 1)%nat /\ esp_vfs_stat "/sd/x" 0 (unregistered ex_state i) = Stuck NullDeref.
Proof.
  destruct (unregister_leaves_hole ex_state "/data" (unregistered ex_state 0) ex_state_wf eq_refl)
    as (i & H1 & H2 & H3).
  assert (i = 0%nat) as -> by (cbn in H1; lia). exists 0%nat. split; [lia|].
  destruct (H3 "/sd/x") as (_ & Hs & _); [intros j e r Hj; lia|exact (Hs 0)].
Defined.

(** A longer name than the registered one also unregisters it. *)
Example unregister_by_longer_name :
  esp_vfs_unregister "/data1" ex_state = Ret (ESP_OK, unregistered ex_state 0).
Proof. reflexivity. Qed.

End Vfs.
