(* ===== verification/FlashMmap.v ===== *)
(** * Memory mapping of flash (components/spi_flash/flash_mmap.c)

    The two MMU tables, the reference counts of their 256 entries, the list of
    live mappings and the bitset of flash pages written since the last cache
    flush.  The result of [malloc] is an argument of [spi_flash_mmap]; cache
    flushes are recorded in [cache_flushes]; both CPUs are in use
    ([CONFIG_FREERTOS_UNICORE] is off).  The output pointers of
    [spi_flash_mmap] are returned as a pair, [None] where the code leaves them
    alone. *)

From S2P Require Import Prelude.

#[local] Open Scope Z_scope.

Module FlashMmap.

Definition SPI_FLASH_MMU_PAGE_SIZE : Z := 0x10000.
Definition REGIONS_COUNT : Z := 4.
Definition PAGES_PER_REGION : Z := 64.
Definition INVALID_ENTRY_VAL : Z := 0x100.
Definition VADDR0_START_ADDR : Z := 0x3F400000.
Definition VADDR1_START_ADDR : Z := 0x40000000.
Definition VADDR1_FIRST_USABLE_ADDR : Z := 0x400D0000.
Definition PRO_IRAM0_FIRST_USABLE_PAGE : Z :=
  (VADDR1_FIRST_USABLE_ADDR - VADDR1_START_ADDR) / SPI_FLASH_MMU_PAGE_SIZE + 64.
Definition SPI_FLASH_CACHE2PHYS_FAIL : Z := UINT32_MAX.

Inductive spi_flash_mmap_memory_t := SPI_FLASH_MMAP_DATA | SPI_FLASH_MMAP_INST.

Record mmap_entry_t := MmapEntry { handle : Z; page : Z; count : Z }.

Record mmap_state := MmapState {
  pro_table : list Z;                  (* DPORT_PRO_FLASH_MMU_TABLE *)
  app_table : list Z;                  (* DPORT_APP_FLASH_MMU_TABLE *)
  s_mmap_page_refcnt : list Z;
  s_mmap_entries : list mmap_entry_t;
  s_mmap_last_handle : Z;
  written_pages : list Z;
  chip_size : Z;                       (* g_rom_flashchip.chip_size *)
  cache_flushes : list Z               (* CPUs flushed, latest first *)
}.

Definition set_tables (p a : list Z) (s : mmap_state) : mmap_state :=
  MmapState p a (s_mmap_page_refcnt s) (s_mmap_entries s) (s_mmap_last_handle s)
    (written_pages s) (chip_size s) (cache_flushes s).

Definition set_refcnt (r : list Z) (s : mmap_state) : mmap_state :=
  MmapState (pro_table s) (app_table s) r (s_mmap_entries s) (s_mmap_last_handle s)
    (written_pages s) (chip_size s) (cache_flushes s).

Definition set_entries (l : list mmap_entry_t) (h : Z) (s : mmap_state) : mmap_state :=
  MmapState (pro_table s) (app_table s) (s_mmap_page_refcnt s) l h
    (written_pages s) (chip_size s) (cache_flushes s).

Definition set_written (w : list Z) (s : mmap_state) : mmap_state :=
  MmapState (pro_table s) (app_table s) (s_mmap_page_refcnt s) (s_mmap_entries s)
    (s_mmap_last_handle s) w (chip_size s) (cache_flushes s).

Definition set_flushes (f : list Z) (s : mmap_state) : mmap_state :=
  MmapState (pro_table s) (app_table s) (s_mmap_page_refcnt s) (s_mmap_entries s)
    (s_mmap_last_handle s) (written_pages s) (chip_size s) f.

Definition Cache_Flush (cpu : Z) : M mmap_state unit :=
  modify (fun s => set_flushes (cpu :: cache_flushes s) s).

(** *** Initialisation from the tables the boot loader left *)

Definition init_page (i : Z) : M mmap_state unit :=
  s ← get;
  pro ← lift (rd (pro_table s) i);
  app ← lift (rd (app_table s) i);
  let entry_pro := if pro =? app then pro else INVALID_ENTRY_VAL in
  if (Z.land entry_pro INVALID_ENTRY_VAL =? 0)
     && ((i =? 0) || (i =? PRO_IRAM0_FIRST_USABLE_PAGE) || negb (entry_pro =? 0))
  then r ← lift (wr (s_mmap_page_refcnt s) i 1); modify (set_refcnt r)
  else p ← lift (wr (pro_table s) i INVALID_ENTRY_VAL);
       a ← lift (wr (app_table s) i INVALID_ENTRY_VAL);
       modify (set_tables p a).

Definition spi_flash_mmap_init : M mmap_state unit :=
  s ← get;
  r0 ← lift (rd (s_mmap_page_refcnt s) 0);
  if negb (r0 =? 0) then mret tt
  else for_ (Z.to_nat (REGIONS_COUNT * PAGES_PER_REGION)) 0 init_page.

(** *** The bitset of written pages *)

(** [update_written_pages] from address [addr] on; every iteration either
    returns or moves to the next of 256 pages. *)
Fixpoint written_loop (fuel : nat) (mark : bool) (addr limit : Z) : M mmap_state bool :=
  match fuel with
  | O => stuck OutOfFuel
  | S fuel =>
      if addr <? limit then
        let page := addr / SPI_FLASH_MMU_PAGE_SIZE in
        if 256 <=? page then mret false
        else
          let idx := page / 32 in
          let bit := Z.shiftl 1 (page mod 32) in
          s ← get;
          w ← lift (rd (written_pages s) idx);
          if mark then
            l ← lift (wr (written_pages s) idx (Z.lor w bit));
            modify (set_written l);;
            written_loop fuel mark (u32 (addr + SPI_FLASH_MMU_PAGE_SIZE)) limit
          else if negb (Z.land w bit =? 0) then
            Cache_Flush 0;; Cache_Flush 1;;
            modify (set_written (replicate 8 0));;
            mret true
          else written_loop fuel mark (u32 (addr + SPI_FLASH_MMU_PAGE_SIZE)) limit
      else mret false
  end.

Definition update_written_pages (start_addr length : Z) (mark : bool) : M mmap_state bool :=
  let page_start_addr := Z.ldiff start_addr (SPI_FLASH_MMU_PAGE_SIZE - 1) in
  let length := u32 (length + (start_addr - page_start_addr)) in
  let length := Z.ldiff (u32 (length + SPI_FLASH_MMU_PAGE_SIZE - 1)) (SPI_FLASH_MMU_PAGE_SIZE - 1) in
  written_loop 257 mark page_start_addr (u32 (page_start_addr + length)).

Definition spi_flash_mark_modified_region (start_addr length : Z) : M mmap_state unit :=
  update_written_pages start_addr length true;; mret tt.

Definition spi_flash_ensure_unmodified_region (start_addr length : Z) : M mmap_state bool :=
  update_written_pages start_addr length false.

(** *** Mapping *)

(** Does the window of [n] entries at [pos] accept pages [page], ...? *)
Fixpoint window_fits (s : mmap_state) (n : nat) (pos page : Z) : outcome bool :=
  match n with
  | O => Ret true
  | S n =>
      table_val ← rd (pro_table s) pos;
      refcnt ← rd (s_mmap_page_refcnt s) pos;
      if negb (refcnt =? 0) && negb (table_val =? page) then Ret false
      else window_fits s n (pos + 1) (page + 1)
  end.

(** The search loop, [n] being [end - start]; the result is [start]. *)
Fixpoint find_window (s : mmap_state) (n : nat) (start phys_page page_count : Z) : outcome Z :=
  match n with
  | O => Ret start
  | S n =>
      fits ← window_fits s (Z.to_nat page_count) start phys_page;
      if fits : bool then Ret start else find_window s n (start + 1) phys_page page_count
  end.

(** The loop that sets up the mapping; the result is [need_flush]. *)
Fixpoint map_pages (n : nat) (i entry_val : Z) (need_flush : bool) : M mmap_state bool :=
  match n with
  | O => mret need_flush
  | S n =>
      s ← get;
      r ← lift (rd (s_mmap_page_refcnt s) i);
      p ← lift (rd (pro_table s) i);
      a ← lift (rd (app_table s) i);
      check ((r =? 0) || ((p =? entry_val) && (a =? entry_val)));;
      need ← (if (r =? 0) && (negb (p =? entry_val) || negb (a =? entry_val)) then
                p' ← lift (wr (pro_table s) i entry_val);
                a' ← lift (wr (app_table s) i entry_val);
                modify (set_tables p' a');;
                mret true
              else mret need_flush);
      r' ← lift (wr (s_mmap_page_refcnt s) i (u8 (r + 1)));
      modify (set_refcnt r');;
      map_pages n (i + 1) (entry_val + 1) need
  end.

Definition region_begin (memory : spi_flash_mmap_memory_t) : Z :=
  match memory with SPI_FLASH_MMAP_DATA => 0 | SPI_FLASH_MMAP_INST => PRO_IRAM0_FIRST_USABLE_PAGE end.
Definition region_size (memory : spi_flash_mmap_memory_t) : Z :=
  match memory with SPI_FLASH_MMAP_DATA => 64 | SPI_FLASH_MMAP_INST => 3 * 64 - PRO_IRAM0_FIRST_USABLE_PAGE end.
Definition region_addr (memory : spi_flash_mmap_memory_t) : Z :=
  match memory with SPI_FLASH_MMAP_DATA => VADDR0_START_ADDR | SPI_FLASH_MMAP_INST => VADDR1_FIRST_USABLE_ADDR end.

Definition spi_flash_mmap (malloc_ok : bool) (src_addr size : Z)
    (memory : spi_flash_mmap_memory_t) : M mmap_state (esp_err_t * option (Z * Z)) :=
  s0 ← get;
  if negb (Z.land src_addr 0xffff =? 0) then mret (ESP_ERR_INVALID_ARG, None)
  else if chip_size s0 <? u32 (src_addr + size) then mret (ESP_ERR_INVALID_ARG, None)
  else if negb malloc_ok then mret (ESP_ERR_NO_MEM, None)
  else
    did_flush ← spi_flash_ensure_unmodified_region src_addr size;
    spi_flash_mmap_init;;
    s ← get;
    let phys_page := src_addr / SPI_FLASH_MMU_PAGE_SIZE in
    let page_count := u32 (size + SPI_FLASH_MMU_PAGE_SIZE - 1) / SPI_FLASH_MMU_PAGE_SIZE in
    let end_ := region_begin memory + region_size memory - page_count in
    start ← lift (find_window s (Z.to_nat (end_ - region_begin memory)) (region_begin memory)
                    phys_page page_count);
    if start =? end_ then mret (ESP_ERR_NO_MEM, Some (0, 0))
    else
      need_flush ← map_pages (Z.to_nat page_count) start phys_page false;
      s ← get;
      let h := u32 (s_mmap_last_handle s + 1) in
      modify (set_entries (MmapEntry h start page_count :: s_mmap_entries s) h);;
      (if negb did_flush && need_flush then Cache_Flush 0;; Cache_Flush 1 else mret tt);;
      mret (ESP_OK, Some (region_addr memory
                          + (start - region_begin memory) * SPI_FLASH_MMU_PAGE_SIZE, h)).

(** *** Unmapping *)

Definition unmap_page (i : Z) : M mmap_state unit :=
  s ← get;
  r ← lift (rd (s_mmap_page_refcnt s) i);
  check (0 <? r);;
  r' ← lift (wr (s_mmap_page_refcnt s) i (u8 (r - 1)));
  modify (set_refcnt r');;
  if u8 (r - 1) =? 0 then
    p ← lift (wr (pro_table s) i INVALID_ENTRY_VAL);
    a ← lift (wr (app_table s) i INVALID_ENTRY_VAL);
    modify (set_tables p a)
  else mret tt.

Fixpoint find_handle (h : Z) (l : list mmap_entry_t) : option mmap_entry_t :=
  match l with
  | [] => None
  | e :: l => if handle e =? h then Some e else find_handle h l
  end.

(** [LIST_REMOVE] of the first entry with the handle. *)
Fixpoint remove_handle (h : Z) (l : list mmap_entry_t) : list mmap_entry_t :=
  match l with
  | [] => []
  | e :: l => if handle e =? h then l else e :: remove_handle h l
  end.

Definition spi_flash_munmap (h : Z) : M mmap_state unit :=
  s ← get;
  match find_handle h (s_mmap_entries s) with
  | Some it =>
      for_ (Z.to_nat (count it)) (page it) unmap_page;;
      s ← get;
      modify (set_entries (remove_handle h (s_mmap_entries s)) (s_mmap_last_handle s))
  | None => stuck AssertFailed
  end.

(** *** Address translation *)

Definition spi_flash_cache2phys (s : mmap_state) (cached : Z) : outcome Z :=
  let c := to_signed 32 cached in
  if (VADDR1_START_ADDR <=? c) && (c <? VADDR1_FIRST_USABLE_ADDR)
  then Ret SPI_FLASH_CACHE2PHYS_FAIL
  else
    let cache_page :=
      if c <? VADDR1_FIRST_USABLE_ADDR
      then u32 (Z.quot (c - VADDR0_START_ADDR) SPI_FLASH_MMU_PAGE_SIZE)
      else u32 (Z.quot (c - VADDR1_START_ADDR) SPI_FLASH_MMU_PAGE_SIZE + 64) in
    if 256 <=? cache_page then Ret SPI_FLASH_CACHE2PHYS_FAIL
    else
      phys_page ← rd (pro_table s) cache_page;
      if phys_page =? INVALID_ENTRY_VAL then Ret SPI_FLASH_CACHE2PHYS_FAIL
      else Ret (Z.lor (u32 (phys_page * SPI_FLASH_MMU_PAGE_SIZE))
                      (Z.land c (SPI_FLASH_MMU_PAGE_SIZE - 1))).

(** First table index in [n] entries from [i] that holds [phys_page]. *)
Fixpoint find_phys (s : mmap_state) (n : nat) (i phys_page : Z) : outcome (option Z) :=
  match n with
  | O => Ret None
  | S n =>
      p ← rd (pro_table s) i;
      if p =? phys_page then Ret (Some i) else find_phys s n (i + 1) phys_page
  end.

Definition spi_flash_phys2cache (s : mmap_state) (phys_offs : Z)
    (memory : spi_flash_mmap_memory_t) : outcome Z :=
  let phys_page := phys_offs / SPI_FLASH_MMU_PAGE_SIZE in
  let '(start, end_, base, page_delta) :=
    match memory with
    | SPI_FLASH_MMAP_DATA => (0, 64, VADDR0_START_ADDR, 0)
    | SPI_FLASH_MMAP_INST => (PRO_IRAM0_FIRST_USABLE_PAGE, 256, VADDR1_START_ADDR, 64)
    end in
  r ← find_phys s (Z.to_nat (end_ - start)) start phys_page;
  match r with
  | Some i => Ret (Z.lor (base + SPI_FLASH_MMU_PAGE_SIZE * (i - page_delta))
                         (Z.land phys_offs (SPI_FLASH_MMU_PAGE_SIZE - 1)))
  | None => Ret 0
  end.

(** *** The dump *)

Inductive dump_line := DumpHandle (handle page count : Z) | DumpPage (page refcnt paddr : Z).

Fixpoint dump_pages (s : mmap_state) (n : nat) (i : Z) : outcome (list dump_line) :=
  match n with
  | O => Ret []
  | S n =>
      r ← rd (s_mmap_page_refcnt s) i;
      p ← rd (pro_table s) i;
      rest ← dump_pages s n (i + 1);
      Ret (if r =? 0 then rest else DumpPage i r p :: rest)
  end.

(** The lines printed. *)
Definition spi_flash_mmap_dump : M mmap_state (list dump_line) :=
  spi_flash_mmap_init;;
  s ← get;
  pages ← lift (dump_pages s (Z.to_nat (REGIONS_COUNT * PAGES_PER_REGION)) 0);
  mret (((fun e => DumpHandle (handle e) (page e) (count e)) <$> s_mmap_entries s) ++ pages).

(** ** Views of the state *)

Notation rc s := (at_ 0 (s_mmap_page_refcnt s)).
Notation pro s := (at_ 0 (pro_table s)).
Notation app_ s := (at_ 0 (app_table s)).

Record sized (s : mmap_state) : Prop := {
  len_pro : length (pro_table s) = 256%nat;
  len_app : length (app_table s) = 256%nat;
  len_rc : length (s_mmap_page_refcnt s) = 256%nat;
  len_w : length (written_pages s) = 8%nat
}.

(** Everything the page loops leave alone. *)
Definition rest_eq (s s' : mmap_state) : Prop :=
  s_mmap_entries s' = s_mmap_entries s /\ s_mmap_last_handle s' = s_mmap_last_handle s
  /\ written_pages s' = written_pages s /\ chip_size s' = chip_size s
  /\ cache_flushes s' = cache_flushes s.

(** ** The search *)

Definition fits (s : mmap_state) (n pos page : Z) : Prop :=
  forall k, 0 <= k < n -> rc s (pos + k) = 0 \/ pro s (pos + k) = page + k.

Lemma window_fits_spec s n pos page :
  sized s -> 0 <= pos -> pos + Z.of_nat n <= 256 ->
  exists b, window_fits s n pos page = Ret b /\ (b = true <-> fits s (Z.of_nat n) pos page).
Proof.
  intros Hs. revert pos page. induction n as [|n IH]; intros pos page H0 Hn; cbn [window_fits].
  - exists true. split; [done|]. split; [|done]. intros _ k Hk. lia.
  - rewrite !(rd_in 0) by (rewrite ?(len_pro _ Hs), ?(len_rc _ Hs); lia). cbn [mbind outcome_bind].
    case_test.
    + exists false. split; [done|]. split; [done|]. intros Hf.
      destruct (Hf 0 ltac:(lia)) as [Hk|Hk]; rewrite ?Z.add_0_r in Hk; lia.
    + destruct (IH (pos + 1) (page + 1)) as (b & -> & Hb); [lia|lia|].
      exists b. split; [done|]. rewrite Hb. unfold fits. split.
      * intros Hf k Hk. destruct (decide (k = 0)) as [->|Hne].
        { rewrite !Z.add_0_r. apply andb_false_iff in E. rewrite !negb_false_iff, !Z.eqb_eq in E. done. }
        specialize (Hf (k - 1) ltac:(lia)). by replace (pos + 1 + (k - 1)) with (pos + k) in Hf by lia;
          replace (page + 1 + (k - 1)) with (page + k) in Hf by lia.
      * intros Hf k Hk. specialize (Hf (k + 1) ltac:(lia)).
        by replace (pos + (k + 1)) with (pos + 1 + k) in Hf by lia;
          replace (page + (k + 1)) with (page + 1 + k) in Hf by lia.
Qed.

Lemma find_window_spec s n start page cnt :
  sized s -> 0 <= start -> 0 <= cnt -> start + Z.of_nat n + cnt <= 257 ->
  exists r, find_window s n start page cnt = Ret r /\ start <= r <= start + Z.of_nat n
    /\ (r < start + Z.of_nat n -> fits s cnt r page)
    /\ (forall q, start <= q < r -> ~ fits s cnt q page).
Proof.
  intros Hs. revert start. induction n as [|n IH]; intros start H0 Hc Hn; cbn [find_window].
  - exists start. split; [done|]. repeat split; lia.
  - destruct (window_fits_spec s (Z.to_nat cnt) start page Hs) as (b & -> & Hb); [lia|lia|].
    rewrite Z2Nat.id in Hb by lia. cbn [mbind outcome_bind]. destruct b.
    + exists start. split; [done|]. split; [lia|]. split; [|lia]. intros _. by apply Hb.
    + destruct (IH (start + 1)) as (r & -> & Hr & Hf & Hq); [lia|lia|lia|].
      exists r. split; [done|]. split; [lia|]. split; [intros; apply Hf; lia|].
      intros q Hq'. destruct (decide (q = start)) as [->|]; [|apply Hq; lia].
      rewrite <- Hb. done.
Qed.

(** ** The page loops *)

(** [s'] is [s] with the entries [i .. i+n-1] mapped to [v], [v+1], ... and
    their reference counts incremented. *)
Record mapped_range (s s' : mmap_state) (i n v : Z) : Prop := {
  mr_sized : sized s';
  mr_rest : rest_eq s s';
  mr_rc : forall j, rc s' j = if within i n j then rc s j + 1 else rc s j;
  mr_pro : forall j, pro s' j = if within i n j then v + (j - i) else pro s j;
  mr_app : forall j, app_ s' j = if within i n j then v + (j - i) else app_ s j
}.

Lemma within_step i n j : 0 <= n -> within i (1 + n) j = (i =? j) || within (i + 1) n j.
Proof. intros. unfold within. lia. Qed.

Lemma mapped_range_step s s1 s' i n v :
  0 <= n ->
  rc s1 i = rc s i + 1 -> (forall j, j <> i -> rc s1 j = rc s j) ->
  pro s1 i = v -> (forall j, j <> i -> pro s1 j = pro s j) ->
  app_ s1 i = v -> (forall j, j <> i -> app_ s1 j = app_ s j) ->
  rest_eq s s1 ->
  mapped_range s1 s' (i + 1) n (v + 1) -> mapped_range s s' i (1 + n) v.
Proof.
  intros Hn Hr Hr' Hp Hp' Ha Ha' (E1 & E2 & E3 & E4 & E5) [H1 (F1 & F2 & F3 & F4 & F5) H3 H4 H5].
  assert (Hi : within (i + 1) n i = false) by (apply within_false; lia).
  split; [done|unfold rest_eq; split_and!; congruence| | |]; intros j;
    rewrite within_step by lia; rewrite ?H3, ?H4, ?H5;
    (destruct (Z.eqb_spec i j) as [<-|Hne]; cbn [orb]; [rewrite Hi; lia|]);
    destruct (within (i + 1) n j); rewrite ?Hr', ?Hp', ?Ha' by lia; lia.
Qed.

Lemma map_pages_spec n i v need s :
  sized s -> 0 <= i -> i + Z.of_nat n <= 256 ->
  (forall j, i <= j < i + Z.of_nat n ->
     0 <= rc s j < 255 /\ (rc s j = 0 \/ pro s j = v + (j - i) /\ app_ s j = v + (j - i))) ->
  wp (map_pages n i v need) (fun _ s' => mapped_range s s' i (Z.of_nat n) v) s.
Proof.
  revert i v need s. induction n as [|n IH]; intros i v need s Hs Hi Hn Hpre; cbn [map_pages].
  { apply wp_ret. split; [done|done| | |]; intros j;
      by rewrite (proj2 (within_false i (Z.of_nat 0) j)) by lia. }
  pose proof (len_pro _ Hs) as Lp. pose proof (len_app _ Hs) as La. pose proof (len_rc _ Hs) as Lr.
  destruct (Hpre i ltac:(lia)) as [Hrc Hor]. rewrite Z.sub_diag, Z.add_0_r in Hor.
  repeat (wp_step || wp_arr). apply wp_check; [lia|].
  replace (Z.of_nat (S n)) with (1 + Z.of_nat n) by lia.
  assert (Hgo : forall s1 need',
    sized s1 -> s_mmap_page_refcnt s1 = s_mmap_page_refcnt s -> rest_eq s s1 ->
    pro s1 i = v -> (forall j, j <> i -> pro s1 j = pro s j) ->
    app_ s1 i = v -> (forall j, j <> i -> app_ s1 j = app_ s j) ->
    wp (r' ← lift (wr (s_mmap_page_refcnt s) i (u8 (rc s i + 1)));
        modify (set_refcnt r');; map_pages n (i + 1) (v + 1) need')
       (fun _ s' => mapped_range s s' i (1 + Z.of_nat n) v) s1).
  { intros s1 need' Hs1 E1 Hrest Hp Hp' Ha Ha'.
    repeat (wp_step || wp_arr).
    assert (Hrc1 : forall j, j <> i -> at_ 0 (<[Z.to_nat i:=u8 (rc s i + 1)]> (s_mmap_page_refcnt s)) j = rc s j)
      by (intros; apply at_insert_ne; lia).
    eapply wp_mono; [apply IH|].
    - destruct Hs1 as [A B C D]. split; cbn; try done. by rewrite length_insert.
    - lia.
    - lia.
    - intros j Hj. cbn. rewrite Hrc1, Hp', Ha' by lia. destruct (Hpre j ltac:(lia)) as [? Hj'].
      split; [done|]. by replace (v + 1 + (j - (i + 1))) with (v + (j - i)) by lia.
    - intros ? s' H. eapply mapped_range_step; [lia|..|exact H]; cbn; try done.
      rewrite at_insert_eq by lia. apply u8_small. lia. }
  wp_step. destruct (_ && _) eqn:Et.
  - simplify_bool. do 6 (wp_step || wp_arr). apply wp_ret.
    apply Hgo; cbn; try done; try (apply at_insert_eq; lia); try (intros; apply at_insert_ne; lia).
    destruct Hs as [A B C D]. split; cbn; rewrite ?length_insert; done.
  - wp_step. apply Hgo; try done; lia.
Qed.

(** [s'] is [s] with the reference counts of [i .. i+n-1] decremented and the
    entries whose count reached zero invalidated. *)
Record unmapped_range (s s' : mmap_state) (i n : Z) : Prop := {
  ur_sized : sized s';
  ur_rest : rest_eq s s';
  ur_rc : forall j, rc s' j = if within i n j then rc s j - 1 else rc s j;
  ur_pro : forall j, pro s' j = if within i n j && (rc s j =? 1) then INVALID_ENTRY_VAL else pro s j;
  ur_app : forall j, app_ s' j = if within i n j && (rc s j =? 1) then INVALID_ENTRY_VAL else app_ s j
}.

Lemma unmap_page_spec s s1 i k :
  unmapped_range s s1 i k -> 0 <= k -> 0 <= i -> i + k < 256 -> 0 < rc s (i + k) < 256 ->
  wp (unmap_page (i + k)) (fun _ s' => unmapped_range s s' i (k + 1)) s1.
Proof.
  intros [Hs Hrest Hr Hp Ha] Hk Hi Hik Hrc.
  pose proof (len_pro _ Hs) as Lp. pose proof (len_app _ Hs) as La. pose proof (len_rc _ Hs) as Lr.
  assert (Hout : within i k (i + k) = false) by (apply within_false; lia).
  assert (Hw : forall j, within i (k + 1) j = within i k j || (i + k =? j)) by (intros; unfold within; lia).
  unfold unmap_page. do 4 (wp_step || wp_arr). wp_step.
  rewrite (Hr (i + k)), Hout. apply wp_check; [lia|]. repeat (wp_step || wp_arr).
  rewrite u8_small by lia. case_test.
  - repeat (wp_step || wp_arr). split.
    + destruct Hs. split; cbn; rewrite ?length_insert; done.
    + exact Hrest.
    + intros j. cbn. rewrite Hw. destruct (Z.eqb_spec (i + k) j) as [<-|Hne].
      * by rewrite at_insert_eq, orb_true_r by lia.
      * by rewrite at_insert_ne, orb_false_r by lia.
    + intros j. cbn. rewrite Hw. destruct (Z.eqb_spec (i + k) j) as [<-|Hne].
      * rewrite at_insert_eq, orb_true_r by lia. by rewrite (proj2 (Z.eqb_eq _ _)) by lia.
      * by rewrite at_insert_ne, orb_false_r by lia.
    + intros j. cbn. rewrite Hw. destruct (Z.eqb_spec (i + k) j) as [<-|Hne].
      * rewrite at_insert_eq, orb_true_r by lia. by rewrite (proj2 (Z.eqb_eq _ _)) by lia.
      * by rewrite at_insert_ne, orb_false_r by lia.
  - repeat (wp_step || wp_arr). split.
    + destruct Hs. split; cbn; rewrite ?length_insert; done.
    + exact Hrest.
    + intros j. cbn. rewrite Hw. destruct (Z.eqb_spec (i + k) j) as [<-|Hne].
      * by rewrite at_insert_eq, orb_true_r by lia.
      * by rewrite at_insert_ne, orb_false_r by lia.
    + intros j. cbn. rewrite Hw, Hp. destruct (Z.eqb_spec (i + k) j) as [<-|Hne]; [|by rewrite orb_false_r].
      rewrite Hout. by rewrite (proj2 (Z.eqb_neq (rc s (i + k)) 1)), andb_false_r by lia.
    + intros j. cbn. rewrite Hw, Ha. destruct (Z.eqb_spec (i + k) j) as [<-|Hne]; [|by rewrite orb_false_r].
      rewrite Hout. by rewrite (proj2 (Z.eqb_neq (rc s (i + k)) 1)), andb_false_r by lia.
Qed.

Lemma unmap_pages_spec s i n :
  sized s -> 0 <= i -> i + Z.of_nat n <= 256 ->
  (forall j, i <= j < i + Z.of_nat n -> 0 < rc s j < 256) ->
  wp (for_ n i unmap_page) (fun _ s' => unmapped_range s s' i (Z.of_nat n)) s.
Proof.
  intros Hs Hi Hn Hrc.
  apply (wp_for unmap_page (fun k s1 => unmapped_range s s1 i (Z.of_nat k))).
  - split; [done|done| | |]; intros j; by rewrite (proj2 (within_false i (Z.of_nat 0) j)) by lia.
  - intros k s1 Hk H1. replace (Z.of_nat (S k)) with (Z.of_nat k + 1) by lia.
    apply unmap_page_spec; try done; try lia. apply Hrc. lia.
Qed.

(** ** Written pages *)

Definition marked (s : mmap_state) (p : Z) : bool :=
  Z.testbit (at_ 0 (written_pages s) (p / 32)) (p mod 32).

(** The state after flushing both caches. *)
Definition flushed (s : mmap_state) : mmap_state :=
  MmapState (pro_table s) (app_table s) (s_mmap_page_refcnt s) (s_mmap_entries s)
    (s_mmap_last_handle s) (replicate 8 0) (chip_size s) (1 :: 0 :: cache_flushes s).

Lemma land_bit w k : 0 <= k -> (Z.land w (Z.shiftl 1 k) =? 0) = negb (Z.testbit w k).
Proof.
  intros Hk. rewrite Z.shiftl_1_l. destruct (Z.testbit w k) eqn:E; cbn.
  - apply Z.eqb_neq. intros H. apply (f_equal (fun z => Z.testbit z k)) in H.
    by rewrite Z.land_spec, E, Z.pow2_bits_true, Z.bits_0 in H by lia.
  - apply Z.eqb_eq. apply Z.bits_inj'. intros n Hn. rewrite Z.land_spec, Z.bits_0.
    destruct (decide (n = k)) as [->|]; [by rewrite E|].
    by rewrite Z.pow2_bits_false, andb_false_r by lia.
Qed.

Lemma page_addr p : 0 <= p < 256 ->
  p * SPI_FLASH_MMU_PAGE_SIZE / SPI_FLASH_MMU_PAGE_SIZE = p
  /\ u32 (p * SPI_FLASH_MMU_PAGE_SIZE + SPI_FLASH_MMU_PAGE_SIZE) = (p + 1) * SPI_FLASH_MMU_PAGE_SIZE.
Proof.
  intros Hp. split; [by rewrite Z.div_mul|]. rewrite <- (Z.mul_1_l SPI_FLASH_MMU_PAGE_SIZE) at 2.
  rewrite <- Z.mul_add_distr_r. apply u32_small. unfold SPI_FLASH_MMU_PAGE_SIZE. lia.
Qed.

Lemma marked_set s p x :
  length (written_pages s) = 8%nat -> 0 <= p < 256 -> 0 <= x < 256 ->
  marked (set_written (<[Z.to_nat (p / 32) :=
            Z.lor (at_ 0 (written_pages s) (p / 32)) (Z.shiftl 1 (p mod 32))]> (written_pages s)) s) x
  = marked s x || (p =? x).
Proof.
  intros Hl Hp Hx. unfold marked. cbn.
  pose proof (Z.div_mod p 32 ltac:(lia)). pose proof (Z.mod_pos_bound p 32 ltac:(lia)).
  pose proof (Z.div_mod x 32 ltac:(lia)). pose proof (Z.mod_pos_bound x 32 ltac:(lia)).
  destruct (decide (p / 32 = x / 32)) as [E|E].
  - rewrite <- E, at_insert_eq by lia. rewrite Z.lor_spec, Z.shiftl_1_l. f_equal.
    destruct (Z.eqb_spec p x) as [->|Hne]; [apply Z.pow2_bits_true; lia|].
    apply Z.pow2_bits_false. lia.
  - rewrite at_insert_ne by lia. destruct (Z.eqb_spec p x) as [->|]; [done|]. by rewrite orb_false_r.
Qed.

Lemma mark_loop_spec fuel p q s :
  length (written_pages s) = 8%nat -> 0 <= p <= 256 -> q <= 256 -> (257 <= Z.of_nat fuel + p) ->
  wp (written_loop fuel true (p * SPI_FLASH_MMU_PAGE_SIZE) (q * SPI_FLASH_MMU_PAGE_SIZE))
     (fun b s' => b = false /\ (exists w, s' = set_written w s) /\ length (written_pages s') = 8%nat
        /\ forall x, 0 <= x < 256 -> marked s' x = marked s x || within p (q - p) x) s.
Proof.
  revert p s. induction fuel as [|fuel IH]; intros p s Hl Hp Hq Hf; [|cbn [written_loop]].
  { lia. }
  destruct (Z.ltb_spec (p * SPI_FLASH_MMU_PAGE_SIZE) (q * SPI_FLASH_MMU_PAGE_SIZE)) as [Hlt|Hge].
  2: { apply wp_ret. split_and!; [done|by exists (written_pages s); destruct s|done|].
       intros x Hx. rewrite (proj2 (within_false _ _ _)), orb_false_r by (unfold SPI_FLASH_MMU_PAGE_SIZE in *; lia).
       done. }
  assert (p < q) by (unfold SPI_FLASH_MMU_PAGE_SIZE in *; lia).
  destruct (page_addr p) as [-> ->]; [lia|]. case_test; [lia|].
  pose proof (Z.div_mod p 32 ltac:(lia)). pose proof (Z.mod_pos_bound p 32 ltac:(lia)).
  repeat (wp_step || wp_arr). eapply wp_mono; [apply IH; cbn; rewrite ?length_insert; try done; lia|].
  intros b s' (-> & [w ->] & Hl' & Hm). split_and!; [done|by exists w|done|].
  intros x Hx. rewrite Hm by done. rewrite marked_set by lia. rewrite <- orb_assoc. f_equal.
  unfold within. lia.
Qed.

Lemma ensure_loop_spec fuel p q s :
  length (written_pages s) = 8%nat -> 0 <= p <= 256 -> q <= 256 -> (257 <= Z.of_nat fuel + p) ->
  wp (written_loop fuel false (p * SPI_FLASH_MMU_PAGE_SIZE) (q * SPI_FLASH_MMU_PAGE_SIZE))
     (fun b s' => if b then s' = flushed s /\ exists x, p <= x < q /\ marked s x = true
                  else s' = s /\ forall x, p <= x < q -> marked s x = false) s.
Proof.
  revert p s. induction fuel as [|fuel IH]; intros p s Hl Hp Hq Hf; [|cbn [written_loop]].
  { lia. }
  destruct (Z.ltb_spec (p * SPI_FLASH_MMU_PAGE_SIZE) (q * SPI_FLASH_MMU_PAGE_SIZE)) as [Hlt|Hge].
  2: { apply wp_ret. split; [done|]. unfold SPI_FLASH_MMU_PAGE_SIZE in *. intros; lia. }
  assert (p < q) by (unfold SPI_FLASH_MMU_PAGE_SIZE in *; lia).
  destruct (page_addr p) as [-> ->]; [lia|]. case_test; [lia|].
  pose proof (Z.div_mod p 32 ltac:(lia)). pose proof (Z.mod_pos_bound p 32 ltac:(lia)).
  do 4 (wp_step || wp_arr). rewrite land_bit, negb_involutive by lia. fold (marked s p). case_test.
  - unfold Cache_Flush. wp_steps. split; [done|]. exists p. split; [lia|done].
  - eapply wp_mono; [apply IH; try done; lia|]. intros [] s'.
    + intros (-> & x & Hx & Hm). split; [done|]. exists x. split; [lia|done].
    + intros (-> & Hm). split; [done|]. intros x Hx. destruct (decide (x = p)) as [->|]; [done|]. apply Hm. lia.
Qed.

Lemma update_pages_eq start len mark :
  0 <= start -> 0 <= len -> start + len <= 2 ^ 24 ->
  update_written_pages start len mark =
  written_loop 257 mark (start / SPI_FLASH_MMU_PAGE_SIZE * SPI_FLASH_MMU_PAGE_SIZE)
    ((start + len + 65535) / SPI_FLASH_MMU_PAGE_SIZE * SPI_FLASH_MMU_PAGE_SIZE).
Proof.
  intros H0 H1 H2. unfold update_written_pages. change (SPI_FLASH_MMU_PAGE_SIZE - 1) with (Z.ones 16).
  rewrite !Z.ldiff_ones_r, !Z.shiftl_mul_pow2, !Z.shiftr_div_pow2 by lia.
  change (2 ^ 16) with 65536. unfold SPI_FLASH_MMU_PAGE_SIZE.
  change (2 ^ 24) with 16777216 in H2. change (0x10000) with 65536.
  pose proof (Z.div_mod start 65536 ltac:(lia)). pose proof (Z.mod_pos_bound start 65536 ltac:(lia)).
  assert (0 <= start / 65536) by (apply Z.div_pos; lia).
  generalize 257%nat. intros fuel. f_equal. rewrite (u32_small (len + _)) by lia. rewrite (u32_small (len + _ + _ - 1)) by lia.
  replace (len + (start - start / 65536 * 65536) + 65536 - 1)
    with (start + len + 65535 + (- (start / 65536)) * 65536) by lia.
  rewrite Z.div_add by lia.
  pose proof (Z.div_mod (start + len + 65535) 65536 ltac:(lia)).
  pose proof (Z.mod_pos_bound (start + len + 65535) 65536 ltac:(lia)).
  rewrite u32_small by lia. lia.
Qed.

(** The flash pages the bytes [start .. start+len-1] lie in. *)
Definition touches (start len x : Z) : Prop :=
  start / SPI_FLASH_MMU_PAGE_SIZE <= x < (start + len + 65535) / SPI_FLASH_MMU_PAGE_SIZE.

Lemma region_pages start len :
  0 <= start -> 0 <= len -> start + len <= 2 ^ 24 ->
  0 <= start / SPI_FLASH_MMU_PAGE_SIZE <= 256
  /\ 0 <= (start + len + 65535) / SPI_FLASH_MMU_PAGE_SIZE <= 256.
Proof.
  unfold SPI_FLASH_MMU_PAGE_SIZE. change (2 ^ 24) with (256 * 65536). intros. split; split.
  - apply Z.div_pos; lia.
  - apply Z.div_le_upper_bound; lia.
  - apply Z.div_pos; lia.
  - apply Z.lt_succ_r, Z.div_lt_upper_bound; lia.
Qed.

Lemma ensure_spec start len s :
  sized s -> 0 <= start -> 0 <= len -> start + len <= 2 ^ 24 ->
  wp (spi_flash_ensure_unmodified_region start len)
     (fun b s' => if b then s' = flushed s /\ exists x, touches start len x /\ marked s x = true
                  else s' = s /\ forall x, touches start len x -> marked s x = false) s.
Proof.
  intros Hs H0 H1 H2. destruct (region_pages start len H0 H1 H2) as [Ha Hb].
  unfold spi_flash_ensure_unmodified_region. rewrite update_pages_eq by done.
  apply ensure_loop_spec; [apply Hs|lia|lia|lia].
Qed.

Lemma mark_spec start len s :
  sized s -> 0 <= start -> 0 <= len -> start + len <= 2 ^ 24 ->
  wp (spi_flash_mark_modified_region start len)
     (fun _ s' => (exists w, s' = set_written w s) /\ sized s'
        /\ forall x, 0 <= x < 256 -> marked s' x = true <-> marked s x = true \/ touches start len x) s.
Proof.
  intros Hs H0 H1 H2. destruct (region_pages start len H0 H1 H2) as [Ha Hb].
  unfold spi_flash_mark_modified_region. rewrite update_pages_eq by done. wp_step.
  eapply wp_mono; [apply mark_loop_spec; [apply Hs|lia|lia|lia]|].
  intros b s' (_ & [w ->] & Hl & Hm). wp_step. split_and!; [by exists w| |].
  - destruct Hs. by split.
  - intros x Hx. rewrite Hm by done. rewrite orb_true_iff, within_spec. unfold touches. intuition lia.
Qed.

(** ** Initialisation *)

Definition usable (s : mmap_state) (i : Z) : bool :=
  (pro s i =? app_ s i) && (Z.land (pro s i) INVALID_ENTRY_VAL =? 0)
  && ((i =? 0) || (i =? PRO_IRAM0_FIRST_USABLE_PAGE) || negb (pro s i =? 0)).

Record initialised (s s' : mmap_state) (n : Z) : Prop := {
  in_sized : sized s';
  in_rest : rest_eq s s';
  in_rc : forall j, rc s' j = if within 0 n j && usable s j then 1 else rc s j;
  in_pro : forall j, pro s' j = if within 0 n j && negb (usable s j) then INVALID_ENTRY_VAL else pro s j;
  in_app : forall j, app_ s' j = if within 0 n j && negb (usable s j) then INVALID_ENTRY_VAL else app_ s j
}.

Lemma init_page_spec s s1 i :
  initialised s s1 i -> 0 <= i < 256 ->
  wp (init_page i) (fun _ s' => initialised s s' (i + 1)) s1.
Proof.
  intros [Hs Hrest Hr Hp Ha] Hi.
  pose proof (len_pro _ Hs) as Lp. pose proof (len_app _ Hs) as La. pose proof (len_rc _ Hs) as Lr.
  assert (Hout : within 0 i i = false) by (apply within_false; lia).
  assert (Hw : forall j, 0 <= j -> within 0 (i + 1) j = within 0 i j || (i =? j))
    by (intros; unfold within; lia).
  assert (Hneg : forall n j, j < 0 -> within 0 n j = false) by (intros; apply within_false; lia).
  unfold init_page. do 6 (wp_step || wp_arr). rewrite Hp, Ha, Hout. cbn [andb].
  assert (Ht : ((Z.land (if pro s i =? app_ s i then pro s i else INVALID_ENTRY_VAL) INVALID_ENTRY_VAL =? 0)
     && ((i =? 0) || (i =? PRO_IRAM0_FIRST_USABLE_PAGE)
         || negb ((if pro s i =? app_ s i then pro s i else INVALID_ENTRY_VAL) =? 0))) = usable s i).
  { unfold usable. destruct (pro s i =? app_ s i); [done|]. done. }
  rewrite Ht. destruct (usable s i) eqn:Eu; repeat (wp_step || wp_arr);
    (split; [destruct Hs; split; cbn; rewrite ?length_insert; done|exact Hrest|..]);
    intros j; cbn; (destruct (Z_lt_le_dec j 0) as [Hj|Hj];
      [rewrite Hneg by lia; rewrite ?at_insert_ne by lia; rewrite ?Hr, ?Hp, ?Ha, Hneg by lia; done|]);
    rewrite Hw by lia; (destruct (Z.eqb_spec i j) as [<-|Hne];
      [rewrite ?at_insert_eq, orb_true_r by lia; rewrite ?Hr, ?Hp, ?Ha, Eu, ?andb_false_r by lia; done
      |rewrite ?at_insert_ne, orb_false_r by lia; done]).
Qed.

Lemma init_loop_spec s :
  sized s -> wp (for_ 256 0 init_page) (fun _ s' => initialised s s' 256) s.
Proof.
  intros Hs. eapply (wp_for init_page (fun k s1 => initialised s s1 (Z.of_nat k))).
  - split; [done|done| | |]; intros j; by rewrite (proj2 (within_false 0 (Z.of_nat 0) j)) by lia.
  - intros k s1 Hk H1. rewrite Z.add_0_l. replace (Z.of_nat (S k)) with (Z.of_nat k + 1) by lia.
    apply init_page_spec; [done|lia].
Qed.

(** ** The invariant *)

Definition covers (e : mmap_entry_t) (i : Z) : bool := within (page e) (count e) i.

(** How many live mappings cover entry [i]. *)
Fixpoint live (l : list mmap_entry_t) (i : Z) : Z :=
  match l with
  | [] => 0
  | e :: l => (if covers e i then 1 else 0) + live l i
  end.

Lemma live_range l i : 0 <= live l i <= Z.of_nat (length l).
Proof. induction l as [|e l IH]; cbn [live length]; [lia|]. destruct (covers e i); lia. Qed.

Lemma live_remove h l e i :
  find_handle h l = Some e ->
  live (remove_handle h l) i = live l i - (if covers e i then 1 else 0).
Proof.
  induction l as [|x l IH]; cbn [find_handle remove_handle]; [done|].
  destruct (handle x =? h); cbn [live].
  - intros [= ->]. lia.
  - intros H. rewrite IH by done. lia.
Qed.

Lemma live_elem l e i : e ∈ l -> covers e i = true -> 1 <= live l i.
Proof.
  intros He Hc. induction l as [|x l IH]; [by apply not_elem_of_nil in He|].
  cbn [live]. pose proof (live_range l i).
  apply elem_of_cons in He as [<-|He]; [rewrite Hc; lia|]. specialize (IH He).
  destruct (covers x i); lia.
Qed.

Lemma find_handle_elem h l e : find_handle h l = Some e -> e ∈ l /\ handle e = h.
Proof.
  induction l as [|x l IH]; cbn [find_handle]; [done|]. case_test.
  - intros [= <-]. split; [left|done].
  - intros [He ?]%IH. split; [by right|done].
Qed.

Lemma remove_handle_elem h l e : e ∈ remove_handle h l -> e ∈ l.
Proof.
  induction l as [|x l IH]; cbn [remove_handle]; [done|]. case_test; [by right|].
  intros [->|He]%elem_of_cons; [left|right]; auto.
Qed.

Lemma remove_handle_length h l : (length (remove_handle h l) <= length l)%nat.
Proof. induction l as [|x l IH]; cbn [remove_handle]; [done|]. case_test; cbn; lia. Qed.

Lemma remove_handle_other h l e : e ∈ l -> handle e <> h -> e ∈ remove_handle h l.
Proof.
  intros He Hne. induction l as [|x l IH]; [by apply not_elem_of_nil in He|].
  cbn [remove_handle]. apply elem_of_cons in He as [<-|He]; case_test.
  - done.
  - left.
  - done.
  - right. auto.
Qed.

Lemma remove_handle_NoDup h l : NoDup (handle <$> l) -> NoDup (handle <$> remove_handle h l).
Proof.
  induction l as [|x l IH]; cbn [remove_handle fmap list_fmap]; [done|].
  intros [Hx Hl]%NoDup_cons. case_test; [done|]. cbn. apply NoDup_cons. split; [|by apply IH].
  intros (y & Hy & Hin)%list_elem_of_fmap. apply Hx. apply list_elem_of_fmap.
  exists y. split; [done|]. by eapply remove_handle_elem.
Qed.

Record entry_ok (last : Z) (e : mmap_entry_t) : Prop := {
  eo_page : 0 <= page e; eo_count : 0 <= count e; eo_end : page e + count e <= 256;
  eo_handle : 0 < handle e <= last
}.

(** [base i] is 1 for the entries the application image was booted with. *)
Record inv (base : Z -> Z) (s : mmap_state) : Prop := {
  inv_sized : sized s;
  inv_base : forall i, 0 <= base i <= 1;
  inv_base0 : base 0 = 1;
  inv_rc : forall i, 0 <= i < 256 -> rc s i = base i + live (s_mmap_entries s) i;
  inv_count : Z.of_nat (length (s_mmap_entries s)) <= 254;
  inv_mapped : forall i, 0 <= i < 256 -> rc s i <> 0 -> pro s i = app_ s i /\ 0 <= pro s i < 256;
  inv_free : forall i, 0 <= i < 256 -> rc s i = 0 ->
             pro s i = INVALID_ENTRY_VAL /\ app_ s i = INVALID_ENTRY_VAL;
  inv_entries : forall e, e ∈ s_mmap_entries s -> entry_ok (s_mmap_last_handle s) e;
  inv_handles : NoDup (handle <$> s_mmap_entries s);
  inv_last : 0 <= s_mmap_last_handle s < 2 ^ 32;
  inv_chip : 0 <= chip_size s <= 2 ^ 24
}.

(** The parts of the state the invariant speaks of. *)
Definition same_mmu (s s' : mmap_state) : Prop :=
  pro_table s' = pro_table s /\ app_table s' = app_table s
  /\ s_mmap_page_refcnt s' = s_mmap_page_refcnt s /\ s_mmap_entries s' = s_mmap_entries s
  /\ s_mmap_last_handle s' = s_mmap_last_handle s /\ chip_size s' = chip_size s.

Lemma inv_same base s s' : inv base s -> same_mmu s s' -> length (written_pages s') = 8%nat -> inv base s'.
Proof.
  intros H (E1 & E2 & E3 & E4 & E5 & E6) Hl. destruct H as [[] ? ? ? ? ? ? ? ? ? ?].
  split; rewrite ?E1, ?E2, ?E3, ?E4, ?E5, ?E6; try done. split; congruence.
Qed.

Lemma inv_rc_range base s i : inv base s -> 0 <= i < 256 -> 0 <= rc s i < 256.
Proof.
  intros H Hi. rewrite (inv_rc _ _ H i Hi). pose proof (live_range (s_mmap_entries s) i).
  pose proof (inv_base _ _ H i). pose proof (inv_count _ _ H). lia.
Qed.

(** The state in which the boot loader leaves the tables. *)
Record booted (s : mmap_state) : Prop := {
  bt_sized : sized s;
  bt_rc : s_mmap_page_refcnt s = replicate 256 0;
  bt_entries : s_mmap_entries s = [];
  bt_last : s_mmap_last_handle s = 0;
  bt_tables : forall i, 0 <= i < 256 -> 0 <= pro s i < 512;
  bt_page0 : usable s 0 = true;
  bt_chip : 0 <= chip_size s <= 2 ^ 24
}.

Lemma at_replicate_0 n j : at_ 0 (replicate n 0) j = 0.
Proof.
  unfold at_. destruct (rd (replicate n 0) j) as [a|] eqn:E; [|done].
  apply rd_ok in E as [_ E]. by apply lookup_replicate in E as [-> _].
Qed.

Lemma land_256_low x : 0 <= x < 512 -> Z.land x INVALID_ENTRY_VAL = 0 -> x < 256.
Proof.
  intros Hx H. destruct (Z_lt_le_dec x 256) as [|Hge]; [done|]. exfalso.
  apply (f_equal (fun z => Z.testbit z 8)) in H. rewrite Z.land_spec, Z.bits_0 in H.
  change (Z.testbit INVALID_ENTRY_VAL 8) with true in H. rewrite andb_true_r in H.
  rewrite Z.testbit_odd, Z.shiftr_div_pow2 in H by lia. change (2 ^ 8) with 256 in H.
  replace (x / 256) with 1 in H; [done|]. apply (Z.div_unique_pos x 256 1 (x - 256)); lia.
Qed.

Lemma init_inv s s' :
  booted s -> initialised s s' 256 -> inv (fun i => if usable s i then 1 else 0) s'.
Proof.
  intros [Hs Hrc He Hl Ht H0 Hc] [Hs' (E1 & E2 & E3 & E4 & E5) Hr Hp Ha].
  assert (Hrc0 : forall j, rc s j = 0) by (intros; rewrite Hrc; apply at_replicate_0).
  assert (Hw : forall i, 0 <= i < 256 -> within 0 256 i = true) by (intros; apply within_spec; lia).
  split; rewrite ?E1, ?E2, ?E4, ?He, ?Hl; try done.
  - intros i. destruct (usable s i); lia.
  - by rewrite H0.
  - intros i Hi. rewrite Hr, Hw, Hrc0 by done. cbn. destruct (usable s i); done.
  - intros i Hi. rewrite Hr, Hp, Ha, Hw, Hrc0 by done. cbn. destruct (usable s i) eqn:Eu; [|done].
    intros _. cbn. unfold usable in Eu. simplify_bool. split; [done|].
    pose proof (Ht i Hi). split; [lia|]. by apply land_256_low.
  - intros i Hi. rewrite Hr, Hp, Ha, Hw, Hrc0 by done. cbn. by destruct (usable s i).
  - intros e Hin. by apply not_elem_of_nil in Hin.
  - apply NoDup_nil_2.
Qed.

(** ** Mapping *)

Definition pages_of (size : Z) : Z := (size + 65535) / SPI_FLASH_MMU_PAGE_SIZE.

Lemma region_facts memory :
  0 <= region_begin memory /\ 0 < region_size memory
  /\ region_begin memory + region_size memory <= 192.
Proof. destruct memory; vm_compute; split_and!; congruence. Qed.

Lemma pages_of_range src size :
  0 <= src -> 0 <= size -> src + size <= 2 ^ 24 -> src mod SPI_FLASH_MMU_PAGE_SIZE = 0 ->
  u32 (size + SPI_FLASH_MMU_PAGE_SIZE - 1) / SPI_FLASH_MMU_PAGE_SIZE = pages_of size
  /\ 0 <= pages_of size /\ src / SPI_FLASH_MMU_PAGE_SIZE + pages_of size <= 256.
Proof.
  unfold pages_of, SPI_FLASH_MMU_PAGE_SIZE. change (2 ^ 24) with (256 * 65536). intros.
  change (0x10000) with 65536 in *.
  pose proof (Z.div_mod src 65536 ltac:(lia)). pose proof (Z.div_mod (size + 65535) 65536 ltac:(lia)).
  pose proof (Z.mod_pos_bound (size + 65535) 65536 ltac:(lia)).
  split_and!; [|lia|lia]. rewrite u32_small by lia. f_equal. lia.
Qed.

(** [s'] is [s] plus one mapping. *)
Record added (s s' : mmap_state) (start cnt phys : Z) : Prop := {
  ad_sized : sized s';
  ad_entries : s_mmap_entries s' = MmapEntry (s_mmap_last_handle s + 1) start cnt :: s_mmap_entries s;
  ad_last : s_mmap_last_handle s' = s_mmap_last_handle s + 1;
  ad_chip : chip_size s' = chip_size s;
  ad_rc : forall j, rc s' j = if within start cnt j then rc s j + 1 else rc s j;
  ad_pro : forall j, pro s' j = if within start cnt j then phys + (j - start) else pro s j;
  ad_app : forall j, app_ s' j = if within start cnt j then phys + (j - start) else app_ s j
}.

Lemma added_inv base s s' start cnt phys :
  inv base s -> Z.of_nat (length (s_mmap_entries s)) < 254 -> s_mmap_last_handle s + 1 < 2 ^ 32 ->
  0 <= start -> 0 <= cnt -> start + cnt <= 256 -> 0 <= phys -> phys + cnt <= 256 ->
  added s s' start cnt phys -> inv base s'.
Proof.
  intros H Hlen Hlast H1 H2 H3 H4 H5 [Hs He Hl Hc Hr Hp Ha]. pose proof (inv_last _ _ H).
  split; rewrite ?He, ?Hl, ?Hc; try apply H; try done.
  - intros i Hi. rewrite Hr. cbn [live]. unfold covers. cbn [page count].
    rewrite (inv_rc _ _ H i Hi). destruct (within start cnt i); lia.
  - cbn [length]. lia.
  - intros i Hi. rewrite Hr, Hp, Ha. destruct (within start cnt i) eqn:E; [|by apply (inv_mapped _ _ H)].
    apply within_spec in E. intros _. split; [done|lia].
  - intros i Hi. rewrite Hr, Hp, Ha. destruct (within start cnt i) eqn:E; [|by apply (inv_free _ _ H)].
    pose proof (inv_rc_range _ _ i H Hi). lia.
  - intros e [->|Hin]%elem_of_cons; [by split; cbn; lia|].
    destruct (inv_entries _ _ H e Hin). split; lia.
  - cbn. apply NoDup_cons. split; [|apply H].
    intros (y & Hy & Hin)%list_elem_of_fmap. pose proof (eo_handle _ _ (inv_entries _ _ H y Hin)).
    cbn in Hy. lia.
  - lia.
Qed.

Lemma init_noop base s : inv base s -> spi_flash_mmap_init s = Ret (tt, s).
Proof.
  intros H. unfold spi_flash_mmap_init, mbind at 1, M_bind, get. unfold mbind, M_bind, lift.
  rewrite (rd_in 0) by (rewrite (len_rc _ (inv_sized _ _ H)); lia).
  assert (rc s 0 <> 0).
  { rewrite (inv_rc _ _ H) by lia. rewrite (inv_base0 _ _ H).
    pose proof (live_range (s_mmap_entries s) 0). lia. }
  case_test; [done|]. lia.
Qed.

(** The outcomes of a mapping request. *)
Definition mmap_post base (s : mmap_state) (src size : Z) memory
    (r : esp_err_t * option (Z * Z)) (s' : mmap_state) : Prop :=
  inv base s' /\
  (forall x, touches src size x -> marked s x = true ->
     written_pages s' = replicate 8 0 /\ cache_flushes s' = 1 :: 0 :: cache_flushes s) /\
  ((r = (ESP_ERR_NO_MEM, Some (0, 0)) /\ same_mmu s s'
    /\ forall q, region_begin memory <= q < region_begin memory + region_size memory - pages_of size ->
        ~ fits s (pages_of size) q (src / SPI_FLASH_MMU_PAGE_SIZE))
   \/ exists start,
       r = (ESP_OK, Some (region_addr memory + (start - region_begin memory) * SPI_FLASH_MMU_PAGE_SIZE,
                          s_mmap_last_handle s + 1))
       /\ region_begin memory <= start < region_begin memory + region_size memory - pages_of size
       /\ fits s (pages_of size) start (src / SPI_FLASH_MMU_PAGE_SIZE)
       /\ added s s' start (pages_of size) (src / SPI_FLASH_MMU_PAGE_SIZE)).

(** A window that fits may be mapped. *)
Lemma fits_mappable base s start cnt phys :
  inv base s -> Z.of_nat (length (s_mmap_entries s)) < 254 ->
  0 <= start -> start + cnt <= 256 -> fits s cnt start phys ->
  forall j, start <= j < start + cnt ->
  0 <= rc s j < 255 /\ (rc s j = 0 \/ pro s j = phys + (j - start) /\ app_ s j = phys + (j - start)).
Proof.
  intros H Hlen H0 H1 Hf j Hj. split.
  { rewrite (inv_rc _ _ H) by lia. pose proof (live_range (s_mmap_entries s) j).
    pose proof (inv_base _ _ H j). lia. }
  destruct (Hf (j - start) ltac:(lia)) as [Hz|Hz]; replace (start + (j - start)) with j in Hz by lia;
    [by left|].
  destruct (decide (rc s j = 0)) as [|Hne]; [by left|right].
  destruct (inv_mapped _ _ H j ltac:(lia) Hne) as [<- _]. done.
Qed.

(** The mapped pages together with the new list entry. *)
Lemma commit_added s s1 s2 start cnt phys f :
  same_mmu s s1 -> mapped_range s1 s2 start cnt phys ->
  added s (set_flushes f (set_entries (MmapEntry (s_mmap_last_handle s + 1) start cnt
                                         :: s_mmap_entries s) (s_mmap_last_handle s + 1) s2))
    start cnt phys.
Proof.
  intros (E1 & E2 & E3 & E4 & E5 & E6) [[L1 L2 L3 L4] (F1 & F2 & F3 & F4 & F5) Hr Hp Ha].
  split; cbn; try done; try congruence; intros j; rewrite ?Hr, ?Hp, ?Ha, ?E1, ?E2, ?E3; done.
Qed.

Lemma mmap_spec base s src size memory :
  inv base s -> 0 <= src -> 0 <= size -> src + size <= chip_size s ->
  src mod SPI_FLASH_MMU_PAGE_SIZE = 0 -> pages_of size <= region_size memory ->
  Z.of_nat (length (s_mmap_entries s)) < 254 -> s_mmap_last_handle s + 1 < 2 ^ 32 ->
  wp (spi_flash_mmap true src size memory) (mmap_post base s src size memory) s.
Proof.
  intros H H0 H1 H2 H3 H4 H5 H6. pose proof (inv_chip _ _ H) as Hchip.
  destruct (pages_of_range src size H0 H1 ltac:(lia) H3) as (Hpc & Hpc0 & Hpc1).
  destruct (region_facts memory) as (R1 & R2 & R3).
  assert (0 <= src / SPI_FLASH_MMU_PAGE_SIZE) by (apply Z.div_pos; [lia|done]).
  unfold spi_flash_mmap. do 2 wp_step.
  assert (Z.land src 0xffff = 0) as -> by
    (change 0xffff with (Z.ones 16); rewrite Z.land_ones by lia; done).
  cbn [Z.eqb negb]. change (2 ^ 24) with 16777216 in Hchip.
  rewrite (u32_small (src + size)) by lia. case_test; [lia|]. cbn [negb].
  wp_step. eapply wp_mono; [apply ensure_spec; [apply H|done|done|change (2 ^ 24) with 16777216; lia]|].
  intros fl s1 Hfl.
  assert (Hs1 : same_mmu s s1 /\ length (written_pages s1) = 8%nat).
  { destruct fl; destruct Hfl as [-> _]; [done|]. split; [done|apply H]. }
  destruct Hs1 as [Hs1 Hw1]. pose proof (inv_same _ _ _ H Hs1 Hw1) as Hi1. clear Hw1.
  assert (Hfl' : forall x, touches src size x -> marked s x = true -> fl = true /\ s1 = flushed s).
  { intros x Hx Hm. destruct fl; [by destruct Hfl|]. destruct Hfl as [_ Hfl].
    by rewrite (Hfl x Hx) in Hm. }
  clear Hfl.
  pose proof Hs1 as (E1 & _ & E3 & E4 & E5 & _).
  wp_step. eapply wp_run; [by eapply init_noop|]. cbn beta. do 2 wp_step. rewrite Hpc.
  destruct (find_window_spec s1 (Z.to_nat (region_begin memory + region_size memory - pages_of size
              - region_begin memory)) (region_begin memory) (src / SPI_FLASH_MMU_PAGE_SIZE) (pages_of size)
              (inv_sized _ _ Hi1)) as (start & Hst & Hr & Hf & Hq); [lia|lia|lia|].
  rewrite Z2Nat.id in Hr, Hf by lia. wp_step. eapply wp_lift; [exact Hst|]. case_test.
  { wp_step. split; [done|]. split; [intros x Hx Hm; by destruct (Hfl' x Hx Hm) as [_ ->]|].
    left. split; [done|]. split; [done|].
    intros q Hq'. specialize (Hq q ltac:(lia)). unfold fits in *. by rewrite E1, E3 in Hq. }
  specialize (Hf ltac:(lia)). wp_step. eapply wp_mono.
  { apply map_pages_spec; [apply Hi1|lia|lia|]. rewrite Z2Nat.id by lia.
    eapply fits_mappable; eauto; [by rewrite E4|lia|lia]. }
  rewrite Z2Nat.id by lia. intros need s2 Hmr. pose proof (mr_rest _ _ _ _ _ Hmr) as (F1 & F2 & F3 & _ & F5).
  pose proof (inv_last _ _ H). do 4 wp_step. rewrite F1, F2, E4, E5, u32_small by lia.
  assert (Hfin : forall f s3, (fl = true -> f = cache_flushes s2) -> s3 = set_flushes f (set_entries (MmapEntry (s_mmap_last_handle s + 1) start
      (pages_of size) :: s_mmap_entries s) (s_mmap_last_handle s + 1) s2) ->
    mmap_post base s src size memory (ESP_OK, Some (region_addr memory +
      (start - region_begin memory) * SPI_FLASH_MMU_PAGE_SIZE, s_mmap_last_handle s + 1)) s3).
  { intros f s3 Hf' ->. pose proof (commit_added s s1 s2 _ _ _ f Hs1 Hmr) as Had.
    split; [eapply added_inv; [exact H|..|exact Had]; lia|]. split.
    { intros x Hx Hm. destruct (Hfl' x Hx Hm) as [-> ->]. cbn.
      rewrite (Hf' eq_refl), F3, F5. done. }
    right. exists start.
    split_and!; try done; try lia. unfold fits in *. by rewrite E1, E3 in Hf. }
  wp_step. destruct (negb fl && need) eqn:Ef.
  - unfold Cache_Flush. wp_steps. eapply Hfin; [|done]. by destruct fl.
  - wp_steps. by eapply (Hfin (cache_flushes s2)).
Qed.

(** ** Unmapping *)

Lemma munmap_spec base s h e :
  inv base s -> find_handle h (s_mmap_entries s) = Some e ->
  wp (spi_flash_munmap h) (fun _ s' => inv base s'
     /\ s_mmap_entries s' = remove_handle h (s_mmap_entries s)
     /\ s_mmap_last_handle s' = s_mmap_last_handle s
     /\ exists s1, unmapped_range s s1 (page e) (count e)
         /\ s' = set_entries (remove_handle h (s_mmap_entries s)) (s_mmap_last_handle s) s1) s.
Proof.
  intros H Hf. destruct (find_handle_elem _ _ _ Hf) as [Hin Hh].
  destruct (inv_entries _ _ H e Hin) as [P1 P2 P3 P4].
  assert (Hrc : forall j, page e <= j < page e + count e -> 0 < rc s j < 256).
  { intros j Hj. pose proof (inv_rc_range _ _ j H ltac:(lia)). pose proof (inv_rc _ _ H j ltac:(lia)).
    pose proof (live_elem _ e j Hin (proj2 (within_spec _ _ _) Hj)). pose proof (inv_base _ _ H j). lia. }
  unfold spi_flash_munmap. do 2 wp_step. rewrite Hf. wp_step.
  eapply wp_mono; [apply unmap_pages_spec; [apply H|done|lia|]; rewrite Z2Nat.id by lia; done|].
  rewrite Z2Nat.id by lia. intros _ s1 Hur. wp_steps.
  pose proof Hur as [Hs (F1 & F2 & F3 & F4 & F5) Hr Hp Ha]. rewrite F1, F2.
  split_and!; [|done|done|by exists s1].
  split; cbn [set_entries s_mmap_entries s_mmap_last_handle chip_size pro_table app_table
              s_mmap_page_refcnt]; try apply H; try done.
  - destruct Hs. by split.
  - intros i Hi. rewrite Hr, (live_remove _ _ _ _ Hf), (inv_rc _ _ H i Hi).
    fold (covers e i). destruct (covers e i); lia.
  - pose proof (inv_count _ _ H). pose proof (remove_handle_length h (s_mmap_entries s)). lia.
  - intros i Hi. rewrite Hr, Hp, Ha. pose proof (inv_rc_range _ _ i H Hi).
    destruct (within _ _ i) eqn:E; cbn [andb]; [|by apply (inv_mapped _ _ H)].
    intros Hne. specialize (Hrc i (proj1 (within_spec _ _ _) E)).
    rewrite (proj2 (Z.eqb_neq _ _)) by lia. apply (inv_mapped _ _ H i Hi). lia.
  - intros i Hi. rewrite Hr, Hp, Ha.
    destruct (within _ _ i) eqn:E; cbn [andb]; [|by apply (inv_free _ _ H)].
    intros Hz. by rewrite (proj2 (Z.eqb_eq _ _)) by lia.
  - intros x Hx%remove_handle_elem. by apply H.
  - apply remove_handle_NoDup, H.
  - by rewrite F4; apply H.
Qed.

(** ** Address translation *)

Definition page_ptr (memory : spi_flash_mmap_memory_t) (pg : Z) : Z :=
  region_addr memory + (pg - region_begin memory) * SPI_FLASH_MMU_PAGE_SIZE.

(** The MMU entry that serves address [c]. *)
Definition serves (c pg : Z) : Prop :=
  0x3F400000 <= c < 0x40000000 /\ (c - 0x3F400000) / 65536 = pg
  \/ 0x400D0000 <= c < 0x80000000 /\ (c - 0x40000000) / 65536 + 64 = pg.

Lemma cache2phys_at s c pg v :
  sized s -> serves c pg -> 0 <= pg < 256 -> pro s pg = v -> 0 <= v < 256 ->
  spi_flash_cache2phys s c = Ret (v * SPI_FLASH_MMU_PAGE_SIZE + c mod 65536).
Proof.
  intros Hs Hc Hpg Hp Hv. unfold spi_flash_cache2phys.
  rewrite (to_signed_pos 32 c) by (change (2 ^ (32 - 1)) with 0x80000000; destruct Hc; lia).
  unfold VADDR1_START_ADDR, VADDR1_FIRST_USABLE_ADDR, VADDR0_START_ADDR.
  destruct ((0x40000000 <=? c) && (c <? 0x400D0000)) eqn:E; [simplify_bool; destruct Hc; lia|].
  assert (Hpage : (if c <? 0x400D0000 then u32 (Z.quot (c - 0x3F400000) SPI_FLASH_MMU_PAGE_SIZE)
                   else u32 (Z.quot (c - 0x40000000) SPI_FLASH_MMU_PAGE_SIZE + 64)) = pg).
  { unfold SPI_FLASH_MMU_PAGE_SIZE. destruct (Z.ltb_spec c 0x400D0000), Hc as [[? <-]|[? <-]]; try lia;
      rewrite Z.quot_div_nonneg by lia; apply u32_small; lia. }
  rewrite Hpage. case_test; [lia|].
  rewrite (rd_in 0) by (rewrite (len_pro _ Hs); lia). cbn [mbind outcome_bind]. rewrite Hp.
  rewrite (proj2 (Z.eqb_neq v INVALID_ENTRY_VAL)) by (unfold INVALID_ENTRY_VAL; lia).
  change (SPI_FLASH_MMU_PAGE_SIZE - 1) with (Z.ones 16). rewrite Z.land_ones by lia.
  unfold SPI_FLASH_MMU_PAGE_SIZE. rewrite u32_small by lia.
  f_equal. apply (lor_add 16); [lia|]. apply Z.mod_pos_bound. lia.
Qed.

(** An address written as a multiple of the page size plus an offset. *)
Lemma addr_split q off : 0 <= off < 65536 ->
  (q * 65536 + off) mod 65536 = off /\ forall b, (q * 65536 + off - b * 65536) / 65536 = q - b.
Proof.
  intros. split; [symmetry; apply (Z.mod_unique_pos _ _ q); lia|].
  intros b. symmetry. apply (Z.div_unique_pos _ _ _ off); lia.
Qed.

Lemma cache2phys_page s memory pg off v :
  sized s -> region_begin memory <= pg < region_begin memory + region_size memory ->
  0 <= off < SPI_FLASH_MMU_PAGE_SIZE -> pro s pg = v -> 0 <= v < 256 ->
  spi_flash_cache2phys s (page_ptr memory pg + off) = Ret (v * SPI_FLASH_MMU_PAGE_SIZE + off).
Proof.
  intros Hs Hpg Hoff Hp Hv. unfold SPI_FLASH_MMU_PAGE_SIZE in Hoff.
  destruct (region_facts memory) as (R1 & R2 & R3).
  set (q := region_addr memory / 65536 + (pg - region_begin memory)).
  assert (page_ptr memory pg + off = q * 65536 + off) as ->.
  { unfold page_ptr, q, SPI_FLASH_MMU_PAGE_SIZE. destruct memory; cbn [region_addr].
    - change VADDR0_START_ADDR with (0x3F40 * 65536). rewrite Z.div_mul by lia. lia.
    - change VADDR1_FIRST_USABLE_ADDR with (0x400D * 65536). rewrite Z.div_mul by lia. lia. }
  destruct (addr_split q off ltac:(lia)) as [Hm Hd].
  rewrite (cache2phys_at _ _ pg v); [by rewrite Hm|done| |lia|done|done].
  unfold serves. change 0x3F400000 with (0x3F40 * 65536). change 0x40000000 with (0x4000 * 65536).
  rewrite !Hd. subst q. destruct memory; cbn [region_addr region_begin region_size] in *.
  - change (VADDR0_START_ADDR / 65536) with 0x3F40. lia.
  - change (VADDR1_FIRST_USABLE_ADDR / 65536) with 0x400D.
    change PRO_IRAM0_FIRST_USABLE_PAGE with 77 in *. lia.
Qed.

Lemma cache2phys_stable s s' c p :
  sized s -> sized s' ->
  (forall j, 0 <= j < 256 -> pro s j <> INVALID_ENTRY_VAL -> pro s' j = pro s j) ->
  spi_flash_cache2phys s c = Ret p -> p <> SPI_FLASH_CACHE2PHYS_FAIL ->
  spi_flash_cache2phys s' c = Ret p.
Proof.
  intros Hs Hs' Hst. unfold spi_flash_cache2phys.
  destruct (_ && _); [congruence|].
  set (pg := if to_signed 32 c <? _ then _ else _).
  assert (0 <= pg) by (subst pg; case_match; apply u32_range).
  clearbody pg. case_test; [congruence|].
  rewrite !(rd_in 0) by (rewrite ?(len_pro _ Hs), ?(len_pro _ Hs'); lia).
  cbn [mbind outcome_bind]. destruct (Z.eqb_spec (pro s pg) INVALID_ENTRY_VAL); [congruence|].
  rewrite Hst by (done || lia). by rewrite (proj2 (Z.eqb_neq _ _)) by done.
Qed.

Lemma find_phys_spec s n i p :
  sized s -> 0 <= i -> i + Z.of_nat n <= 256 ->
  exists r, find_phys s n i p = Ret r /\
    match r with
    | Some k => i <= k < i + Z.of_nat n /\ pro s k = p
    | None => forall k, i <= k < i + Z.of_nat n -> pro s k <> p
    end.
Proof.
  intros Hs. revert i. induction n as [|n IH]; intros i Hi Hn; cbn [find_phys].
  - exists None. split; [done|]. intros; lia.
  - rewrite (rd_in 0) by (rewrite (len_pro _ Hs); lia). cbn [mbind outcome_bind]. case_test.
    + exists (Some i). split; [done|]. split; [lia|done].
    + destruct (IH (i + 1)) as (r & -> & Hr); [lia|lia|]. exists r. split; [done|].
      destruct r as [k|]; [destruct Hr; split; [lia|done]|].
      intros k Hk. destruct (decide (k = i)) as [->|]; [done|]. apply Hr. lia.
Qed.

Lemma added_stable base s s' start cnt phys :
  inv base s -> added s s' start cnt phys -> fits s cnt start phys -> 0 <= start -> start + cnt <= 256 ->
  forall j, 0 <= j < 256 -> pro s j <> INVALID_ENTRY_VAL -> pro s' j = pro s j.
Proof.
  intros H Had Hf H0 H1 j Hj Hne. rewrite (ad_pro _ _ _ _ _ Had). destruct (within start cnt j) eqn:E; [|done].
  apply within_spec in E. destruct (Hf (j - start) ltac:(lia)) as [Hz|Hz];
    replace (start + (j - start)) with j in Hz by lia; [|done].
  by destruct (inv_free _ _ H j Hj Hz).
Qed.

(** What a caller of [spi_flash_mmap] must respect: the chip's range, a window
    no larger than the region, fewer than 254 live mappings and fewer than
    2^32 - 1 handles ever given out. *)
Record mmap_request (s : mmap_state) (src size : Z) (memory : spi_flash_mmap_memory_t) : Prop := {
  rq_src : 0 <= src; rq_size : 0 <= size; rq_chip : src + size <= chip_size s;
  rq_align : src mod SPI_FLASH_MMU_PAGE_SIZE = 0;
  rq_window : pages_of size <= region_size memory;
  rq_live : Z.of_nat (length (s_mmap_entries s)) < 254;
  rq_handles : s_mmap_last_handle s + 1 < 2 ^ 32
}.

Lemma mmap_run base s src size memory :
  inv base s -> mmap_request s src size memory ->
  exists r s', spi_flash_mmap true src size memory s = Ret (r, s') /\ mmap_post base s src size memory r s'.
Proof. intros H []. apply wp_inv, mmap_spec; done. Qed.

Lemma mmap_visible base s src size memory ptr h s' :
  inv base s -> mmap_request s src size memory ->
  spi_flash_mmap true src size memory s = Ret ((ESP_OK, Some (ptr, h)), s') ->
  inv base s'
  /\ (forall off, 0 <= off < size -> spi_flash_cache2phys s' (ptr + off) = Ret (src + off))
  /\ (forall c p, spi_flash_cache2phys s c = Ret p -> p <> SPI_FLASH_CACHE2PHYS_FAIL ->
       spi_flash_cache2phys s' c = Ret p).
Proof.
  intros H Hrq Hrun. destruct (mmap_run _ _ _ _ _ H Hrq) as (r & s2 & Hrun' & Hinv & _ & Hpost).
  rewrite Hrun in Hrun'. injection Hrun' as <- <-.
  destruct Hpost as [([=] & _)|(start & [= -> ->] & Hst & Hf & Had)].
  destruct Hrq as [Q1 Q2 Q3 Q4 Q5 Q6 Q7]. pose proof (inv_chip _ _ H).
  destruct (pages_of_range src size Q1 Q2 ltac:(lia) Q4) as (_ & P0 & P1).
  destruct (region_facts memory) as (R1 & R2 & R3).
  split; [done|]. split.
  - intros off Hoff. fold (page_ptr memory start).
    pose proof (Z.div_mod off SPI_FLASH_MMU_PAGE_SIZE ltac:(done)) as Hd.
    pose proof (Z.mod_pos_bound off SPI_FLASH_MMU_PAGE_SIZE ltac:(done)) as Hm.
    assert (0 <= off / SPI_FLASH_MMU_PAGE_SIZE < pages_of size) as Hk.
    { split; [apply Z.div_pos; lia|]. unfold pages_of, SPI_FLASH_MMU_PAGE_SIZE in *.
      pose proof (Z.div_mod (size + 65535) 65536 ltac:(lia)).
      pose proof (Z.mod_pos_bound (size + 65535) 65536 ltac:(lia)). lia. }
    replace (page_ptr memory start + off) with
      (page_ptr memory (start + off / SPI_FLASH_MMU_PAGE_SIZE) + off mod SPI_FLASH_MMU_PAGE_SIZE)
      by (unfold page_ptr; lia).
    assert (0 <= src / SPI_FLASH_MMU_PAGE_SIZE) by (apply Z.div_pos; done).
    rewrite (cache2phys_page _ _ _ _ (src / SPI_FLASH_MMU_PAGE_SIZE + off / SPI_FLASH_MMU_PAGE_SIZE));
      [|apply Had|lia|done| |lia].
    + f_equal. pose proof (Z.div_mod src SPI_FLASH_MMU_PAGE_SIZE ltac:(done)). lia.
    + rewrite (ad_pro _ _ _ _ _ Had), (proj2 (within_spec _ _ _)) by lia. lia.
  - intros c p. apply cache2phys_stable; [apply H|apply Hinv|]. eapply added_stable; eauto; lia.
Qed.

Lemma munmap_restores base s src size memory ptr h s1 :
  inv base s -> mmap_request s src size memory ->
  spi_flash_mmap true src size memory s = Ret ((ESP_OK, Some (ptr, h)), s1) ->
  exists s2, spi_flash_munmap h s1 = Ret (tt, s2)
    /\ pro_table s2 = pro_table s /\ app_table s2 = app_table s
    /\ s_mmap_page_refcnt s2 = s_mmap_page_refcnt s /\ s_mmap_entries s2 = s_mmap_entries s
    /\ inv base s2 /\ s_mmap_last_handle s2 = s_mmap_last_handle s + 1 /\ chip_size s2 = chip_size s.
Proof.
  intros H Hrq Hrun. destruct (mmap_run _ _ _ _ _ H Hrq) as (r & s' & Hrun' & Hinv & _ & Hpost).
  rewrite Hrun in Hrun'. injection Hrun' as <- <-.
  destruct Hpost as [([=] & _)|(start & [= -> ->] & Hst & Hf & Had)].
  pose proof Had as [Hs He Hl Hc Hr Hp Ha].
  destruct (region_facts memory) as (R1 & R2 & R3). destruct Hrq as [Q1 Q2 Q3 Q4 Q5 Q6 Q7].
  pose proof (inv_chip _ _ H).
  destruct (pages_of_range src size Q1 Q2 ltac:(lia) Q4) as (_ & P0 & P1).
  assert (Hfind : find_handle (s_mmap_last_handle s + 1) (s_mmap_entries s1)
                  = Some (MmapEntry (s_mmap_last_handle s + 1) start (pages_of size)))
    by (rewrite He; cbn; by rewrite Z.eqb_refl).
  destruct (wp_inv _ _ _ (munmap_spec _ _ _ _ Hinv Hfind)) as ([] & s2 & Hrun2 & Hi2 & He2 & Hl2 & s3 & Hur & ->).
  exists (set_entries (remove_handle (s_mmap_last_handle s + 1) (s_mmap_entries s1)) (s_mmap_last_handle s1) s3).
  split; [done|]. destruct Hur as [Hs3 (_ & _ & _ & Uc & _) Ur Up Ua]. destruct Hs3 as [L1 L2 L3 _].
  pose proof (inv_sized _ _ H) as [K1 K2 K3 _]. cbn [page count] in *. cbn.
  split_and!.
  - apply (at_ext 0); [congruence|]. intros j Hj. rewrite L1 in Hj. rewrite Up, Hr, Hp.
    destruct (within start (pages_of size) j) eqn:E; cbn [andb]; [|done].
    apply within_spec in E. destruct (Z.eqb_spec (rc s j + 1) 1) as [E1|E1].
    + destruct (inv_free _ _ H j) as [-> _]; [lia|lia|done].
    + destruct (Hf (j - start) ltac:(lia)) as [Hz|Hz];
        replace (start + (j - start)) with j in Hz by lia; lia.
  - apply (at_ext 0); [congruence|]. intros j Hj. rewrite L2 in Hj. rewrite Ua, Hr, Ha.
    destruct (within start (pages_of size) j) eqn:E; cbn [andb]; [|done].
    apply within_spec in E. destruct (Z.eqb_spec (rc s j + 1) 1) as [E1|E1].
    + destruct (inv_free _ _ H j) as [_ ->]; [lia|lia|done].
    + destruct (inv_mapped _ _ H j) as [<- _]; [lia|lia|].
      destruct (Hf (j - start) ltac:(lia)) as [Hz|Hz];
        replace (start + (j - start)) with j in Hz by lia; lia.
  - apply (at_ext 0); [congruence|]. intros j Hj. rewrite Ur, Hr.
    destruct (within start (pages_of size) j); lia.
  - rewrite He. cbn. by rewrite Z.eqb_refl.
  - exact Hi2.
  - exact Hl.
  - by rewrite Uc, Hc.
Qed.

(** ** Properties *)

(** C17: a successful [spi_flash_mmap] returns a pointer through which every
    byte of the requested flash range is visible at its own offset
    ([spi_flash_cache2phys] maps it back to the source address), keeps the
    reference-count invariant, and leaves every address that was mapped before
    mapped to the same flash byte. *)
Theorem mmap_maps_flash base s src size memory ptr h s' :
  inv base s -> mmap_request s src size memory ->
  spi_flash_mmap true src size memory s = Ret ((ESP_OK, Some (ptr, h)), s') ->
  inv base s'
  /\ (forall off, 0 <= off < size -> spi_flash_cache2phys s' (ptr + off) = Ret (src + off))
  /\ (forall c p, spi_flash_cache2phys s c = Ret p -> p <> SPI_FLASH_CACHE2PHYS_FAIL ->
       spi_flash_cache2phys s' c = Ret p).
Proof. apply mmap_visible. Qed.

(** On a legal request [spi_flash_mmap] always returns; it reports
    [ESP_ERR_NO_MEM] exactly when none of the windows it examines is free or
    already mapped to the requested pages, and then changes neither the MMU
    tables nor the reference counts nor the list of mappings. *)
Theorem mmap_returns base s src size memory :
  inv base s -> mmap_request s src size memory ->
  exists err out s', spi_flash_mmap true src size memory s = Ret ((err, out), s')
    /\ (err = ESP_OK \/ err = ESP_ERR_NO_MEM)
    /\ (err = ESP_ERR_NO_MEM <->
         forall q, region_begin memory <= q < region_begin memory + region_size memory - pages_of size ->
         ~ fits s (pages_of size) q (src / SPI_FLASH_MMU_PAGE_SIZE))
    /\ (err = ESP_ERR_NO_MEM -> same_mmu s s').
Proof.
  intros H Hrq. destruct (mmap_run _ _ _ _ _ H Hrq) as (r & s' & Hrun & _ & _ & Hpost).
  destruct Hpost as [(-> & Hsame & Hn)|(start & -> & Hst & Hf & _)]; eexists _, _, _; (split; [exact Hrun|]).
  - split; [by right|]. done.
  - split; [by left|]. split; [|done]. split; [done|]. intros Hn. by destruct (Hn start Hst).
Qed.

(** C23: unmapping the handle a successful [spi_flash_mmap] returned puts the
    MMU tables, the reference counts and the list of mappings back exactly as
    they were, and keeps the invariant. *)
Theorem munmap_undoes_mmap base s src size memory ptr h s1 :
  inv base s -> mmap_request s src size memory ->
  spi_flash_mmap true src size memory s = Ret ((ESP_OK, Some (ptr, h)), s1) ->
  exists s2, spi_flash_munmap h s1 = Ret (tt, s2)
    /\ pro_table s2 = pro_table s /\ app_table s2 = app_table s
    /\ s_mmap_page_refcnt s2 = s_mmap_page_refcnt s /\ s_mmap_entries s2 = s_mmap_entries s
    /\ inv base s2.
Proof.
  intros H1 H2 H3. destruct (munmap_restores _ _ _ _ _ _ _ _ H1 H2 H3) as (s2 & ? & ? & ? & ? & ? & ? & _).
  by exists s2.
Qed.

(** *** From boot on *)

Lemma initialised_eq s a b : initialised s a 256 -> initialised s b 256 -> a = b.
Proof.
  intros [[L1 L2 L3 _] (E1 & E2 & E3 & E4 & E5) Hr Hp Ha] [[K1 K2 K3 _] (F1 & F2 & F3 & F4 & F5) Kr Kp Ka].
  destruct a as [ap aa ar ae al aw ac af], b as [bp ba br be bl bw bc bf]; cbn in *.
  assert (ap = bp) as -> by (apply (at_ext 0); [congruence|]; intros j _; by rewrite Hp, Kp).
  assert (aa = ba) as -> by (apply (at_ext 0); [congruence|]; intros j _; by rewrite Ha, Ka).
  assert (ar = br) as -> by (apply (at_ext 0); [congruence|]; intros j _; by rewrite Hr, Kr).
  congruence.
Qed.

Lemma init_boot s : booted s ->
  exists s1, spi_flash_mmap_init s = Ret (tt, s1) /\ initialised s s1 256
             /\ inv (fun i => if usable s i then 1 else 0) s1.
Proof.
  intros H. destruct (wp_inv _ _ _ (init_loop_spec s (bt_sized _ H))) as ([] & s1 & Hrun & Hin).
  exists s1. split; [|split; [done|by apply init_inv]].
  unfold spi_flash_mmap_init, mbind at 1, M_bind, get. unfold mbind, M_bind, lift.
  rewrite (rd_in 0) by (rewrite (len_rc _ (bt_sized _ H)); lia).
  rewrite (bt_rc _ H), at_replicate_0. cbn [Z.eqb negb]. exact Hrun.
Qed.

Lemma booted_flushed s : booted s -> booted (flushed s).
Proof. intros [[] ? ? ? ? ? ?]. by split. Qed.

Lemma initialised_flushed s s1 : initialised s s1 256 -> initialised (flushed s) (flushed s1) 256.
Proof.
  intros [[L1 L2 L3 L4] (E1 & E2 & E3 & E4 & E5) Hr Hp Ha]. split; try done.
  unfold rest_eq. cbn. by rewrite E1, E2, E4, E5.
Qed.

(** The first call after boot initialises the tables and then behaves as on
    initialised tables. *)
Lemma mmap_boot m s s1 src size memory :
  booted s -> spi_flash_mmap_init s = Ret (tt, s1) -> 0 <= src -> 0 <= size -> src + size <= 2 ^ 24 ->
  forall r s', spi_flash_mmap m src size memory s = Ret (r, s') ->
  s' = s \/ spi_flash_mmap m src size memory s1 = Ret (r, s').
Proof.
  intros Hb Hi H0 H1 H2 r s'. destruct (init_boot s Hb) as (s1' & Hi' & Hin & Hinv).
  rewrite Hi in Hi'. injection Hi' as <-. pose proof (in_rest _ _ _ Hin) as (E1 & E2 & E3 & E4 & E5).
  unfold spi_flash_mmap. intros (x & sx & [= <- <-] & Hrun)%bind_Ret.
  destruct (negb (Z.land src 0xffff =? 0)) eqn:T1; [injection Hrun as _ <-; by left|].
  destruct (chip_size s <? _) eqn:T2; [injection Hrun as _ <-; by left|].
  destruct (negb m) eqn:T3; [injection Hrun as _ <-; by left|]. right.
  destruct (wp_inv _ _ _ (ensure_spec src size s (bt_sized _ Hb) H0 H1 H2)) as (b & s2 & Hr2 & Hp2).
  destruct (wp_inv _ _ _ (ensure_spec src size s1 (inv_sized _ _ Hinv) H0 H1 H2)) as (b' & s3 & Hr3 & Hp3).
  assert (Hm : forall x, marked s1 x = marked s x) by (intros; unfold marked; by rewrite E3).
  assert (b = b' /\ spi_flash_mmap_init s2 = Ret (tt, s3) /\ spi_flash_mmap_init s3 = Ret (tt, s3))
    as (<- & I2 & I3).
  { destruct b, b'.
    - destruct Hp2 as [-> _], Hp3 as [-> _]. split; [done|].
      destruct (init_boot _ (booted_flushed s Hb)) as (s4 & Hi4 & Hin4 & Hinv4).
      rewrite (initialised_eq _ _ _ Hin4 (initialised_flushed _ _ Hin)) in *.
      split; [done|]. by eapply init_noop.
    - destruct Hp2 as (_ & x & Hx & Hmx), Hp3 as (_ & Hn). rewrite <- Hm, Hn in Hmx by done. done.
    - destruct Hp2 as (_ & Hn), Hp3 as (_ & x & Hx & Hmx). rewrite Hm, Hn in Hmx by done. done.
    - destruct Hp2 as [-> _], Hp3 as [-> _]. split; [done|]. split; [done|]. by eapply init_noop. }
  apply bind_Ret in Hrun as (b2 & s2' & Hr2' & Hrun). rewrite Hr2 in Hr2'. injection Hr2' as <- <-.
  apply bind_Ret in Hrun as (u & s3' & Hi2' & Hrun). rewrite I2 in Hi2'. injection Hi2' as <- <-.
  apply bind_Ret. exists s1, s1. split; [done|]. rewrite E4, T2.
  apply bind_Ret. exists b, s3. split; [done|]. apply bind_Ret. exists tt, s3. done.
Qed.

(** The calls an application may make: legal mapping requests, unmapping,
    marking written regions inside the 16 MB address range, dumping. *)
Inductive reachable : mmap_state -> Prop :=
| r_boot s : booted s -> reachable s
| r_mmap m src size memory s r s' :
    reachable s -> mmap_request s src size memory ->
    spi_flash_mmap m src size memory s = Ret (r, s') -> reachable s'
| r_munmap h s s' : reachable s -> spi_flash_munmap h s = Ret (tt, s') -> reachable s'
| r_mark a n s s' :
    reachable s -> 0 <= a -> 0 <= n -> a + n <= 2 ^ 24 ->
    spi_flash_mark_modified_region a n s = Ret (tt, s') -> reachable s'
| r_dump s l s' : reachable s -> spi_flash_mmap_dump s = Ret (l, s') -> reachable s'.

Lemma mmap_inv base m s src size memory r s' :
  inv base s -> mmap_request s src size memory ->
  spi_flash_mmap m src size memory s = Ret (r, s') -> inv base s'.
Proof.
  intros H Hrq Hrun. destruct m.
  - destruct (mmap_run _ _ _ _ _ H Hrq) as (r2 & s2 & Hrun' & Hinv & _).
    rewrite Hrun in Hrun'. by injection Hrun' as <- <-.
  - unfold spi_flash_mmap in Hrun. apply bind_Ret in Hrun as (x & sx & [= <- <-] & Hrun).
    destruct (negb (Z.land src _ =? 0)); [by injection Hrun as _ <-|].
    destruct (chip_size s <? _); by injection Hrun as _ <-.
Qed.

Lemma mark_inv base a n s s' :
  0 <= a -> 0 <= n -> a + n <= 2 ^ 24 -> spi_flash_mark_modified_region a n s = Ret (tt, s') ->
  (inv base s -> inv base s') /\ (booted s -> booted s').
Proof.
  intros H0 H1 H2 Hrun.
  assert (Hgo : sized s -> (exists w, s' = set_written w s) /\ sized s').
  { intros Hs. destruct (wp_inv _ _ _ (mark_spec a n s Hs H0 H1 H2)) as (u & s2 & Hrun' & Hw & Hs2 & _).
    rewrite Hrun in Hrun'. by injection Hrun' as <- <-. }
  split.
  - intros H. destruct (Hgo (inv_sized _ _ H)) as [[w ->] [_ _ _ Hl]]. by eapply inv_same.
  - intros [Hs ? ? ? ? ? ?]. destruct (Hgo Hs) as [[w ->] Hs']. by split.
Qed.

(** From boot on, whatever mappings are made, released and written over,
    every MMU entry's reference count equals the number of live mappings that
    cover it (plus one for the booted image), an entry is valid in both CPUs'
    tables exactly when its count is not zero, and live handles are distinct. *)
Theorem mmap_reachable_inv s : reachable s -> booted s \/ exists base, inv base s.
Proof.
  induction 1 as [s H|m src size memory s r s' _ IH Hrq Hrun|h s s' _ IH Hrun
                 |a n s s' _ IH H0 H1 H2 Hrun|s l s' _ IH Hrun]; [by left|..].
  - destruct IH as [Hb|[base H]]; [|right; exists base; by eapply mmap_inv].
    destruct (init_boot s Hb) as (s1 & Hi & Hin & Hinv).
    destruct Hrq as [Q1 Q2 Q3 Q4 Q5 Q6 Q7]. pose proof (bt_chip _ Hb).
    destruct (mmap_boot _ _ _ _ _ _ Hb Hi Q1 Q2 ltac:(lia) _ _ Hrun) as [->|Hrun1]; [by left|].
    right. eexists. eapply mmap_inv; [exact Hinv| |exact Hrun1].
    destruct (in_rest _ _ _ Hin) as (E1 & E2 & _ & E4 & _). split; rewrite ?E1, ?E2, ?E4; done.
  - destruct (find_handle h (s_mmap_entries s)) as [e|] eqn:Hf.
    + destruct IH as [Hb|[base H]]; [by rewrite (bt_entries _ Hb) in Hf|]. right. exists base.
      destruct (wp_inv _ _ _ (munmap_spec _ _ _ _ H Hf)) as ([] & s2 & Hrun' & Hi & _).
      rewrite Hrun in Hrun'. by injection Hrun' as <-.
    + unfold spi_flash_munmap in Hrun. apply bind_Ret in Hrun as (x & sx & [= <- <-] & Hrun).
      by rewrite Hf in Hrun.
  - destruct IH as [Hb|[base H]].
    + left. by apply (mark_inv (fun _ => 0) _ _ _ _ H0 H1 H2 Hrun).
    + right. exists base. by apply (mark_inv base _ _ _ _ H0 H1 H2 Hrun).
  - unfold spi_flash_mmap_dump in Hrun. apply bind_Ret in Hrun as (u & s1 & Hi & Hrun).
    apply bind_Ret in Hrun as (x & sx & [= <- <-] & Hrun).
    apply bind_Ret in Hrun as (y & sy & Hl & [= _ <-]).
    assert (sy = s1) as -> by (unfold lift in Hl; destruct (dump_pages _ _ _); [by injection Hl|done]).
    destruct u. right. destruct IH as [Hb|[base H]].
    + destruct (init_boot s Hb) as (s2 & Hi' & _ & Hinv). rewrite Hi in Hi'. injection Hi' as <-. by eexists.
    + exists base. rewrite (init_noop _ _ H) in Hi. by injection Hi as <-.
Qed.

(** Mapping a page that was written since the last flush always flushes
    both CPUs' caches and clears the record of written pages, so no stale cache
    line is visible through the new mapping. *)
Theorem write_then_mmap_flushes base s a n src size memory s1 r s2 x :
  inv base s -> 0 <= a -> 0 <= n -> a + n <= 2 ^ 24 -> mmap_request s src size memory ->
  spi_flash_mark_modified_region a n s = Ret (tt, s1) ->
  spi_flash_mmap true src size memory s1 = Ret (r, s2) ->
  touches a n x -> touches src size x ->
  cache_flushes s2 = 1 :: 0 :: cache_flushes s /\ forall y, marked s2 y = false.
Proof.
  intros H H0 H1 H2 Hrq Hm Hmap Hx1 Hx2.
  destruct (wp_inv _ _ _ (mark_spec a n s (inv_sized _ _ H) H0 H1 H2)) as ([] & s1' & Hm' & [w ->] & Hs1 & Hmk).
  rewrite Hm in Hm'. injection Hm' as ->.
  assert (Hi1 : inv base (set_written w s)) by (by apply (mark_inv base _ _ _ _ H0 H1 H2 Hm)).
  destruct (mmap_run base _ src size memory Hi1) as (r' & s2' & Hmap' & _ & Hfl & _).
  { by destruct Hrq. }
  rewrite Hmap in Hmap'. injection Hmap' as <- <-.
  destruct (region_pages a n H0 H1 H2) as [Ra Rb].
  destruct (Hfl x Hx2) as [Hw Hc].
  { apply Hmk; [unfold touches in Hx1; lia|by right]. }
  split; [exact Hc|]. intros y. unfold marked. rewrite Hw.
  change (replicate 8 0) with (replicate 8 (0 : Z)). rewrite at_replicate_0. apply Z.bits_0.
Qed.

(** Translating a flash offset to a cached address and back gives the
    offset again, for data and instruction memory; the pointer is [NULL]
    exactly when no MMU entry of the memory type holds the flash page. *)
Theorem phys2cache_roundtrip base s phys memory :
  inv base s -> 0 <= phys < 2 ^ 24 ->
  exists c, spi_flash_phys2cache s phys memory = Ret c
    /\ (c <> 0 -> spi_flash_cache2phys s c = Ret phys)
    /\ (c = 0 <-> forall i, region_begin memory <= i <
                    match memory with SPI_FLASH_MMAP_DATA => 64 | SPI_FLASH_MMAP_INST => 256 end ->
                    pro s i <> phys / SPI_FLASH_MMU_PAGE_SIZE).
Proof.
  intros H Hp. change (2 ^ 24) with (256 * 65536) in Hp.
  pose proof (Z.div_mod phys 65536 ltac:(lia)) as Hd. pose proof (Z.mod_pos_bound phys 65536 ltac:(lia)) as Hm.
  set (n := match memory with SPI_FLASH_MMAP_DATA => 64 | SPI_FLASH_MMAP_INST => 256 end).
  assert (Hn : 0 <= region_begin memory < n /\ n <= 256) by (destruct memory; vm_compute; split_and!; congruence).
  destruct (find_phys_spec s (Z.to_nat (n - region_begin memory)) (region_begin memory)
    (phys / SPI_FLASH_MMU_PAGE_SIZE) (inv_sized _ _ H)) as (r & Hr & Hspec); [lia|lia|].
  rewrite Z2Nat.id in Hspec by lia. replace (region_begin memory + (n - region_begin memory)) with n in Hspec by lia.
  set (q i := match memory with SPI_FLASH_MMAP_DATA => 0x3F40 + i | SPI_FLASH_MMAP_INST => 0x4000 + (i - 64) end).
  assert (Hc : spi_flash_phys2cache s phys memory
               = Ret (match r with Some i => q i * 65536 + phys mod 65536 | None => 0 end)).
  { unfold spi_flash_phys2cache. change (SPI_FLASH_MMU_PAGE_SIZE - 1) with (Z.ones 16).
    rewrite Z.land_ones by lia. subst n q. destruct memory; cbn [region_begin] in Hr; rewrite Hr; cbn [mbind outcome_bind];
      (destruct r as [i|]; [|done]); f_equal; rewrite <- (lor_add 16) by (change (2 ^ 16) with 65536; lia); f_equal;
      unfold VADDR0_START_ADDR, VADDR1_START_ADDR, SPI_FLASH_MMU_PAGE_SIZE; lia. }
  eexists. split; [exact Hc|]. destruct r as [i|]; [|split; [done|]; split; [by intros _ j Hj; apply Hspec|done]].
  destruct Hspec as [Hi Hpi].
  assert (Hq : 0x3F40 <= q i < 0x8000) by
    (subst n q; destruct memory; cbn [region_begin] in *; change PRO_IRAM0_FIRST_USABLE_PAGE with 77 in *; lia).
  destruct (addr_split (q i) (phys mod 65536) Hm) as [Hqm Hqd]. split.
  - intros _. rewrite (cache2phys_at _ _ i (phys / 65536) (inv_sized _ _ H)); [|..|done|lia].
    + rewrite Hqm. f_equal. unfold SPI_FLASH_MMU_PAGE_SIZE. lia.
    + unfold serves. change 0x3F400000 with (0x3F40 * 65536). change 0x40000000 with (0x4000 * 65536).
      rewrite !Hqd. subst n q. destruct memory; cbn [region_begin] in *;
        change PRO_IRAM0_FIRST_USABLE_PAGE with 77 in *; lia.
    + lia.
  - split; [lia|]. intros Hno. by destruct (Hno i Hi).
Qed.

(** A request for more pages than the region has is not refused: the search
    loop is skipped because its end lies before its beginning, and the mapping
    is attempted from the first page of the region on. *)
Theorem mmap_oversized_asserts base s src size :
  inv base s -> 0 <= src -> 0 <= size -> src + size <= chip_size s ->
  src mod SPI_FLASH_MMU_PAGE_SIZE = 0 -> region_size SPI_FLASH_MMAP_DATA < pages_of size ->
  pro s 0 <> src / SPI_FLASH_MMU_PAGE_SIZE ->
  spi_flash_mmap true src size SPI_FLASH_MMAP_DATA s = Stuck AssertFailed.
Proof.
  intros H H0 H1 H2 H3 H4 Hne. pose proof (inv_chip _ _ H) as Hchip.
  destruct (pages_of_range src size H0 H1 ltac:(lia) H3) as (Hpc & Hpc0 & Hpc1).
  cbn [region_size] in H4. unfold spi_flash_mmap, mbind at 1, M_bind at 1, get at 1.
  assert (Z.land src 0xffff = 0) as -> by
    (change 0xffff with (Z.ones 16); rewrite Z.land_ones by lia; done).
  cbn [Z.eqb negb]. change (2 ^ 24) with 16777216 in *.
  rewrite (u32_small (src + size)) by lia. case_test; [lia|]. cbn [negb].
  destruct (wp_inv _ _ _ (ensure_spec src size s (inv_sized _ _ H) H0 H1
    ltac:(change (2 ^ 24) with 16777216; lia))) as (fl & s1 & Hr1 & Hfl).
  assert (Hs1 : same_mmu s s1 /\ length (written_pages s1) = 8%nat).
  { destruct fl; destruct Hfl as [-> _]; [done|]. split; [done|apply H]. }
  destruct Hs1 as [Hs1 Hw1]. pose proof (inv_same _ _ _ H Hs1 Hw1) as Hi1.
  unfold mbind at 1, M_bind at 1. rewrite Hr1. unfold mbind at 1, M_bind at 1.
  rewrite (init_noop _ _ Hi1). unfold mbind at 1, M_bind at 1, get at 1. rewrite Hpc.
  cbn [region_begin region_size]. rewrite (Z2Nat.nonpos (0 + 64 - pages_of size - 0)) by lia.
  cbn [find_window]. unfold mbind at 1, M_bind at 1, lift at 1. case_test; [lia|].
  destruct (Z.to_nat (pages_of size)) as [|n] eqn:En; [lia|]. cbn [map_pages].
  assert (rc s1 0 <> 0).
  { rewrite (inv_rc _ _ Hi1) by lia. rewrite (inv_base0 _ _ Hi1).
    pose proof (live_range (s_mmap_entries s1) 0). lia. }
  destruct Hi1 as [[L1 L2 L3 _] _ _ _ _ _ _ _ _ _ _]. destruct Hs1 as (E1 & _ & E3 & _).
  unfold mbind, M_bind, get, lift. rewrite !(rd_in 0) by lia. rewrite E1.
  rewrite (proj2 (Z.eqb_neq (rc s1 0) 0)), (proj2 (Z.eqb_neq (pro s 0) _)) by done. done.
Qed.

(** ** Instances: an image mapped at page 0 only *)

Definition ex_boot : mmap_state :=
  MmapState (0 :: replicate 255 INVALID_ENTRY_VAL) (0 :: replicate 255 INVALID_ENTRY_VAL)
    (replicate 256 0) [] 0 (replicate 8 0) 0x400000 [].

Definition ex_state : mmap_state := set_refcnt (1 :: replicate 255 0) ex_boot.

Lemma ex_boot_booted : booted ex_boot.
Proof.
  split; try done.
  intros i Hi. unfold at_. destruct (rd _ i) as [a|] eqn:E; [|lia].
  apply rd_ok in E as [_ E]. unfold ex_boot, pro_table in E.
  destruct (Z.to_nat i) as [|n]; [by injection E as <-|].
  change (replicate 255 INVALID_ENTRY_VAL !! n = Some a) in E.
  apply lookup_replicate in E as [-> _]. unfold INVALID_ENTRY_VAL. lia.
Qed.

Definition ex_base (i : Z) : Z := if usable ex_boot i then 1 else 0.

Lemma ex_state_inv : inv ex_base ex_state.
Proof.
  destruct (init_boot ex_boot ex_boot_booted) as (s1 & Hrun & _ & Hinv).
  assert (Heq : spi_flash_mmap_init ex_boot = Ret (tt, ex_state)) by (vm_compute; reflexivity).
  rewrite Heq in Hrun. injection Hrun as <-. exact Hinv.
Qed.

Lemma ex_request : mmap_request ex_state 0x20000 70000 SPI_FLASH_MMAP_DATA.
Proof. split; vm_compute; congruence. Qed.

Definition ex_mapped : mmap_state :=
  match spi_flash_mmap true 0x20000 70000 SPI_FLASH_MMAP_DATA ex_state with
  | Ret (_, s) => s | Stuck _ => ex_state
  end.

Lemma ex_mmap : spi_flash_mmap true 0x20000 70000 SPI_FLASH_MMAP_DATA ex_state
                = Ret ((ESP_OK, Some (0x3F410000, 1)), ex_mapped).
Proof. vm_compute. reflexivity. Qed.

Lemma mmap_maps_flash_witness : spi_flash_cache2phys ex_mapped (0x3F410000 + 66000) = Ret (0x20000 + 66000).
Proof.
  destruct (mmap_maps_flash ex_base ex_state _ _ _ _ _ _ ex_state_inv ex_request ex_mmap) as (_ & H & _).
  apply (H 66000). lia.
Defined.

Lemma mmap_returns_witness :
  exists err out s', spi_flash_mmap true 0x20000 70000 SPI_FLASH_MMAP_DATA ex_state = Ret ((err, out), s')
    /\ (err = ESP_OK \/ err = ESP_ERR_NO_MEM).
Proof.
  destruct (mmap_returns ex_base ex_state _ _ _ ex_state_inv ex_request) as (err & out & s' & H1 & H2 & _).
  exists err, out, s'. split; [exact H1|exact H2].
Defined.

Lemma munmap_undoes_mmap_witness :
  exists s2, spi_flash_munmap 1 ex_mapped = Ret (tt, s2) /\ pro_table s2 = pro_table ex_state.
Proof.
  destruct (munmap_undoes_mmap ex_base ex_state _ _ _ _ _ _ ex_state_inv ex_request ex_mmap)
    as (s2 & H1 & H2 & _).
  exists s2. split; [exact H1|exact H2].
Defined.

Lemma mmap_reachable_inv_witness : booted ex_mapped \/ exists base, inv base ex_mapped.
Proof.
  apply mmap_reachable_inv.
  apply (r_mmap true 0x20000 70000 SPI_FLASH_MMAP_DATA ex_boot (ESP_OK, Some (0x3F410000, 1)));
    [apply r_boot, ex_boot_booted|split; vm_compute; congruence|vm_compute; reflexivity].
Defined.

Definition ex_marked : mmap_state := set_written (4 :: replicate 7 0) ex_state.

Lemma write_then_mmap_flushes_witness :
  exists s2, spi_flash_mmap true 0x20000 70000 SPI_FLASH_MMAP_DATA ex_marked
             = Ret ((ESP_OK, Some (0x3F410000, 1)), s2) /\ cache_flushes s2 = [1; 0].
Proof.
  eexists. split; [vm_compute; reflexivity|].
  eapply (write_then_mmap_flushes ex_base ex_state 0x20100 16 0x20000 70000 SPI_FLASH_MMAP_DATA
            ex_marked (ESP_OK, Some (0x3F410000, 1)) _ 2 ex_state_inv); try lia;
    [exact ex_request|vm_compute; reflexivity|vm_compute; reflexivity|by vm_compute|by vm_compute].
Defined.

Lemma phys2cache_roundtrip_witness :
  exists c, spi_flash_phys2cache ex_mapped 0x20100 SPI_FLASH_MMAP_DATA = Ret c
            /\ (c <> 0 -> spi_flash_cache2phys ex_mapped c = Ret 0x20100).
Proof.
  destruct (mmap_run _ _ _ _ _ ex_state_inv ex_request) as (r & s' & Hrun & Hinv & _).
  rewrite ex_mmap in Hrun. injection Hrun as <- <-.
  destruct (phys2cache_roundtrip ex_base ex_mapped 0x20100 SPI_FLASH_MMAP_DATA Hinv ltac:(lia))
    as (c & H1 & H2 & _).
  exists c. split; [exact H1|exact H2].
Defined.

(** Addresses up to 64 KB below the mapped region are translated as if they
    were in its first page, because C division rounds towards zero. *)
Example cache2phys_below_region :
  spi_flash_cache2phys ex_state (VADDR0_START_ADDR - 16) = Ret 0xFFF0.
Proof. vm_compute. reflexivity. Qed.

End FlashMmap.
