(* ===== verification/FlashOps.v ===== *)
(** * Reading, writing and erasing flash (components/spi_flash/flash_ops.c)

    The functions that touch the flash chip live in ROM: they are the class
    [RomFlash] over a type [W] of chips, and [RomLaws] states what their
    documentation promises (a word-aligned write clears bits of exactly the
    bytes written, an erase sets a sector or a 64 KB block to ones, a read
    returns the bytes).  Source and destination buffers are lists of bytes;
    the address of a buffer is an argument where the code looks at it.  The
    guard callbacks and the ROM calls are recorded in [trace]. *)

From S2P Require Import Prelude FlashMmap.

#[local] Open Scope Z_scope.

Module FlashOps.
Import FlashMmap.

Definition SPI_FLASH_SEC_SIZE : Z := 4096.
Definition BLOCK_ERASE_SIZE : Z := 65536.
Definition MAX_WRITE_CHUNK : Z := 8192.
Definition MAX_READ_CHUNK : Z := 16384.
Definition ESP_ERR_FLASH_BASE : esp_err_t := 0x10010.
Definition ESP_ERR_FLASH_OP_FAIL : esp_err_t := ESP_ERR_FLASH_BASE + 1.
Definition ESP_ERR_FLASH_OP_TIMEOUT : esp_err_t := ESP_ERR_FLASH_BASE + 2.

Inductive esp_rom_spiflash_result_t := RESULT_OK | RESULT_ERR | RESULT_TIMEOUT.

#[export] Instance rom_result_eq_dec : EqDecision esp_rom_spiflash_result_t.
Proof. solve_decision. Defined.

Notation rom_result := esp_rom_spiflash_result_t.

(** The ROM functions, and two views of the chip: its raw bytes and the bytes
    the (decrypting) cache shows. *)
Class RomFlash (W : Type) := {
  rom_unlock : W -> rom_result * W;
  rom_erase_sector : Z -> W -> rom_result * W;
  rom_erase_block : Z -> W -> rom_result * W;
  rom_write : Z -> list Z -> W -> rom_result * W;
  rom_read : Z -> Z -> W -> rom_result * list Z;
  rom_write_encrypted : Z -> list Z -> W -> rom_result * W;
  content : W -> Z -> Z;
  decrypted : W -> Z -> Z
}.

(** Programming [data] at [dst] clears bits; [-1] outside the data leaves a
    byte alone. *)
Definition programmed (c : Z -> Z) (dst : Z) (data : list Z) (a : Z) : Z :=
  Z.land (c a) (at_ (-1) data (a - dst)).

Class RomLaws (W : Type) `{RomFlash W} := {
  rom_byte : forall w a, 0 <= content w a < 256;
  rom_unlock_content : forall w r w', rom_unlock w = (r, w') -> forall a, content w' a = content w a;
  rom_erase_sector_ok : forall n w w', rom_erase_sector n w = (RESULT_OK, w') ->
    forall a, content w' a = if within (n * 4096) 4096 a then 255 else content w a;
  rom_erase_block_ok : forall n w w', rom_erase_block n w = (RESULT_OK, w') ->
    forall a, content w' a = if within (n * 65536) 65536 a then 255 else content w a;
  rom_write_ok : forall d data w w', rom_write d data w = (RESULT_OK, w') ->
    d mod 4 = 0 -> Z.of_nat (length data) mod 4 = 0 ->
    forall a, content w' a = programmed (content w) d data a;
  rom_read_ok : forall s n w l, rom_read s n w = (RESULT_OK, l) -> s mod 4 = 0 -> 0 <= n ->
    Z.of_nat (length l) = n /\ forall i, 0 <= i < n -> at_ 0 l i = content w (s + i)
}.

Inductive event :=
| GuardStart | GuardEnd | OpLock | OpUnlock
| RomUnlock | RomEraseSector (n : Z) | RomEraseBlock (n : Z)
| RomWrite (dst len : Z) | RomRead (src len : Z) | RomWriteEncrypted (dst len : Z).

(** Which callbacks of [spi_flash_guard_funcs_t] are set. *)
Record guard_funcs := GuardFuncs { has_start : bool; has_end : bool; has_op_lock : bool; has_op_unlock : bool }.

Definition g_flash_guard_default_ops : guard_funcs := GuardFuncs true true true true.
Definition g_flash_guard_no_os_ops : guard_funcs := GuardFuncs true true false false.

Section FlashOps.
Context {W : Type} `{RomFlash W}.

Record flash_state := FlashState {
  chip : W;
  mm : mmap_state;
  s_flash_guard_ops : option guard_funcs;
  unlocked : bool;
  trace : list event                    (* latest first *)
}.

Definition set_chip (w : W) (s : flash_state) : flash_state :=
  FlashState w (mm s) (s_flash_guard_ops s) (unlocked s) (trace s).
Definition set_mm (m : mmap_state) (s : flash_state) : flash_state :=
  FlashState (chip s) m (s_flash_guard_ops s) (unlocked s) (trace s).
Definition set_unlocked (s : flash_state) : flash_state :=
  FlashState (chip s) (mm s) (s_flash_guard_ops s) true (trace s).
Definition add_event (e : event) (s : flash_state) : flash_state :=
  FlashState (chip s) (mm s) (s_flash_guard_ops s) (unlocked s) (e :: trace s).

Definition emit (e : event) : M flash_state unit := modify (add_event e).

(** A call of the mapping component. *)
Definition on_mm {A} (m : M mmap_state A) : M flash_state A := fun s =>
  match m (mm s) with Ret (a, m') => Ret (a, set_mm m' s) | Stuck f => Stuck f end.

(** A ROM call that may change the chip. *)
Definition rom (e : event) (f : W -> rom_result * W) : M flash_state rom_result :=
  s ← get;
  let '(rc, w) := f (chip s) in
  modify (set_chip w);; emit e;; mret rc.

Definition guard_call (has : guard_funcs -> bool) (e : event) : M flash_state unit :=
  s ← get;
  match s_flash_guard_ops s with
  | Some g => if has g then emit e else mret tt
  | None => mret tt
  end.

Definition spi_flash_guard_start := guard_call has_start GuardStart.
Definition spi_flash_guard_end := guard_call has_end GuardEnd.
Definition spi_flash_guard_op_lock := guard_call has_op_lock OpLock.
Definition spi_flash_guard_op_unlock := guard_call has_op_unlock OpUnlock.

Definition spi_flash_guard_set (funcs : option guard_funcs) : M flash_state unit :=
  modify (fun s => FlashState (chip s) (mm s) funcs (unlocked s) (trace s)).

Definition spi_flash_get_chip_size (s : flash_state) : Z := chip_size (mm s).

Definition spi_flash_translate_rc (rc : rom_result) : esp_err_t :=
  match rc with
  | RESULT_OK => ESP_OK
  | RESULT_TIMEOUT => ESP_ERR_FLASH_OP_TIMEOUT
  | RESULT_ERR => ESP_ERR_FLASH_OP_FAIL
  end.

Definition spi_flash_unlock : M flash_state rom_result :=
  s ← get;
  if unlocked s then mret RESULT_OK
  else
    spi_flash_guard_start;;
    rc ← rom RomUnlock rom_unlock;
    spi_flash_guard_end;;
    if decide (rc = RESULT_OK) then modify set_unlocked;; mret RESULT_OK else mret rc.

(** *** Erasing *)

Definition sectors_per_block : Z := BLOCK_ERASE_SIZE / SPI_FLASH_SEC_SIZE.

Fixpoint erase_loop (fuel : nat) (sector end_ : Z) (rc : rom_result) : M flash_state rom_result :=
  if (sector =? end_) || bool_decide (rc <> RESULT_OK) then mret rc
  else
    match fuel with
    | O => stuck OutOfFuel
    | S fuel =>
        spi_flash_guard_start;;
        if (sector mod sectors_per_block =? 0) && (sectors_per_block <? end_ - sector) then
          rc ← rom (RomEraseBlock (sector / sectors_per_block))
                   (rom_erase_block (sector / sectors_per_block));
          spi_flash_guard_end;;
          erase_loop fuel (sector + sectors_per_block) end_ rc
        else
          rc ← rom (RomEraseSector sector) (rom_erase_sector sector);
          spi_flash_guard_end;;
          erase_loop fuel (sector + 1) end_ rc
    end.

Definition spi_flash_erase_range (start_addr size : Z) : M flash_state esp_err_t :=
  s ← get;
  if negb (start_addr mod SPI_FLASH_SEC_SIZE =? 0) then mret ESP_ERR_INVALID_ARG
  else if negb (size mod SPI_FLASH_SEC_SIZE =? 0) then mret ESP_ERR_INVALID_SIZE
  else if spi_flash_get_chip_size s <? u32 (size + start_addr) then mret ESP_ERR_INVALID_SIZE
  else
    let start := start_addr / SPI_FLASH_SEC_SIZE in
    let end_ := start + size / SPI_FLASH_SEC_SIZE in
    rc ← spi_flash_unlock;
    rc ← (if decide (rc = RESULT_OK) then erase_loop (Z.to_nat (end_ - start)) start end_ rc
          else mret rc);
    mret (spi_flash_translate_rc rc).

Definition spi_flash_erase_sector (sec : Z) : M flash_state esp_err_t :=
  spi_flash_erase_range (u32 (sec * SPI_FLASH_SEC_SIZE)) SPI_FLASH_SEC_SIZE.

(** *** Writing *)

(** [uint32_t t = 0xffffffff] with [data] copied to byte [off] of it. *)
Definition padded_word (off : Z) (data : list Z) : list Z :=
  take 4 (replicate (Z.to_nat off) 255 ++ data ++ replicate 4 255).

Definition rom_write_op (dst : Z) (data : list Z) : M flash_state rom_result :=
  rom (RomWrite dst (Z.of_nat (length data))) (rom_write dst data).

(** The middle part.  The chunk size bounds the progress of a round, the ROM
    is given everything that is left. *)
Fixpoint write_mid (fuel : nat) (dst : Z) (src : list Z) (direct_write : bool)
    (mid_off mid_size : Z) : M flash_state rom_result :=
  if mid_size <=? 0 then mret RESULT_OK
  else
    match fuel with
    | O => stuck OutOfFuel
    | S fuel =>
        let write_size := Z.min mid_size (if direct_write then MAX_WRITE_CHUNK else 32) in
        spi_flash_guard_start;;
        rc ← rom_write_op (dst + mid_off) (slice src mid_off mid_size);
        spi_flash_guard_end;;
        if decide (rc = RESULT_OK)
        then write_mid fuel dst src direct_write (mid_off + write_size) (mid_size - write_size)
        else mret rc
    end.

(** The parts of a write up to the label [out]. *)
Definition write_parts (dst srcc : Z) (src : list Z) (size : Z) : M flash_state rom_result :=
  let left_off := Z.ldiff dst 3 in
  let left_size := Z.min (Z.ldiff (dst + 3) 3 - dst) size in
  let mid_off := left_size in
  let mid_size := Z.ldiff (size - left_size) 3 in
  let right_off := left_size + mid_size in
  let right_size := size - mid_size - left_size in
  rc ← spi_flash_unlock;
  if decide (rc <> RESULT_OK) then mret rc
  else
    rc ← (if 0 <? left_size then
            spi_flash_guard_start;;
            rc ← rom_write_op left_off (padded_word (dst - left_off) (slice src 0 left_size));
            spi_flash_guard_end;;
            mret rc
          else mret RESULT_OK);
    if decide (rc <> RESULT_OK) then mret rc
    else
      let direct_write := (0x3FFAE000 <=? srcc) && (srcc <? 0x40000000)
                          && ((srcc + mid_off) mod 4 =? 0) in
      rc ← write_mid (Z.to_nat mid_size) dst src direct_write mid_off mid_size;
      if decide (rc <> RESULT_OK) then mret rc
      else if 0 <? right_size then
        spi_flash_guard_start;;
        rc ← rom_write_op (dst + right_off) (padded_word 0 (slice src right_off right_size));
        spi_flash_guard_end;;
        mret rc
      else mret RESULT_OK.

Definition spi_flash_write (dst srcc : Z) (src : list Z) : M flash_state esp_err_t :=
  let size := Z.of_nat (length src) in
  s ← get;
  if chip_size (mm s) <? u32 (dst + size) then mret ESP_ERR_INVALID_SIZE
  else if size =? 0 then mret ESP_OK
  else
    rc ← write_parts dst srcc src size;
    spi_flash_guard_op_lock;;
    on_mm (spi_flash_mark_modified_region dst size);;
    spi_flash_guard_op_unlock;;
    mret (spi_flash_translate_rc rc).

(** *** Reading *)

Definition rom_read_op (src len : Z) : M flash_state (rom_result * list Z) :=
  s ← get;
  let r := rom_read src len (chip s) in
  emit (RomRead src len);; mret r.

Fixpoint read_mid (fuel : nat) (src dst_off mid_read mid_remaining : Z) (buf : list Z) :
    M flash_state (rom_result * list Z) :=
  if mid_remaining <=? 0 then mret (RESULT_OK, buf)
  else
    match fuel with
    | O => stuck OutOfFuel
    | S fuel =>
        let read_size := Z.min mid_remaining MAX_READ_CHUNK in
        r ← rom_read_op (src + mid_read) read_size;
        if decide (fst r <> RESULT_OK) then mret (fst r, buf)
        else
          buf ← lift (blit buf (dst_off + mid_read) (snd r));
          (if 0 <? mid_remaining - read_size then spi_flash_guard_end;; spi_flash_guard_start
           else mret tt);;
          read_mid fuel src dst_off (mid_read + read_size) (mid_remaining - read_size) buf
    end.

(** The reads up to the label [out]: result and destination buffer. *)
Definition read_parts (src dsti : Z) (buf : list Z) (size : Z) : M flash_state (rom_result * list Z) :=
  if size <? 16 then
    let read_src := Z.ldiff src 3 in
    let left_off := Z.land src 3 in
    let read_size := Z.ldiff (left_off + size + 3) 3 in
    r ← rom_read_op read_src read_size;
    if decide (fst r <> RESULT_OK) then mret (fst r, buf)
    else buf ← lift (blit buf 0 (slice (snd r) left_off size)); mret (RESULT_OK, buf)
  else
    let src_mid_off := if src mod 4 =? 0 then 0 else 4 - src mod 4 in
    let dst_mid_off := if dsti mod 4 =? 0 then 0 else 4 - dsti mod 4 in
    let mid_size := Z.ldiff (size - Z.max src_mid_off dst_mid_off) 3 in
    let pad_left_src := Z.ldiff src 3 in
    let pad_left_size := src_mid_off in
    let pad_right_src := Z.ldiff (src + pad_left_size + mid_size) 3 in
    let pad_right_off := pad_right_src - src in
    let pad_right_size := size - pad_right_off in
    r ← read_mid (Z.to_nat mid_size) (src + src_mid_off) dst_mid_off 0 mid_size buf;
    let '(rc, buf) := r in
    if decide (rc <> RESULT_OK) then mret (rc, buf)
    else
      buf ← (if (0 <? mid_size) && negb (src_mid_off =? dst_mid_off)
             then lift (blit buf src_mid_off (slice buf dst_mid_off mid_size))
             else mret buf);
      r ← (if 0 <? pad_left_size then
             r ← rom_read_op pad_left_src 4;
             if decide (fst r <> RESULT_OK) then mret (fst r, buf)
             else buf ← lift (blit buf 0 (slice (snd r) (4 - pad_left_size) pad_left_size));
                  mret (RESULT_OK, buf)
           else mret (RESULT_OK, buf));
      let '(rc, buf) := r in
      if decide (rc <> RESULT_OK) then mret (rc, buf)
      else if 0 <? pad_right_size then
        let read_size := if pad_right_size <=? 4 then 4 else 8 in
        r ← rom_read_op pad_right_src read_size;
        if decide (fst r <> RESULT_OK) then mret (fst r, buf)
        else buf ← lift (blit buf pad_right_off (slice (snd r) 0 pad_right_size));
             mret (RESULT_OK, buf)
      else mret (RESULT_OK, buf).

(** [buf] is the destination before the call, [dsti] its address. *)
Definition spi_flash_read (src dsti : Z) (buf : list Z) : M flash_state (esp_err_t * list Z) :=
  let size := Z.of_nat (length buf) in
  s ← get;
  if chip_size (mm s) <? u32 (src + size) then mret (ESP_ERR_INVALID_SIZE, buf)
  else if size =? 0 then mret (ESP_OK, buf)
  else
    spi_flash_guard_start;;
    r ← read_parts src dsti buf size;
    spi_flash_guard_end;;
    mret (spi_flash_translate_rc (fst r), snd r).

(** *** Encrypted flash *)

(** The bytes an application sees at [ptr], [ptr + 1], ... through the cache. *)
Fixpoint cached_bytes (s : flash_state) (ptr : Z) (n : nat) : outcome (list Z) :=
  match n with
  | O => Ret []
  | S n =>
      p ← spi_flash_cache2phys (mm s) ptr;
      rest ← cached_bytes s (ptr + 1) n;
      Ret (decrypted (chip s) p :: rest)
  end.

(** [None] when the destination was not written. *)
Definition spi_flash_read_encrypted (malloc_ok : bool) (src size : Z) :
    M flash_state (esp_err_t * option (list Z)) :=
  s ← get;
  if chip_size (mm s) <? u32 (src + size) then mret (ESP_ERR_INVALID_SIZE, None)
  else if size =? 0 then mret (ESP_OK, Some [])
  else
    let map_src := Z.ldiff src (SPI_FLASH_MMU_PAGE_SIZE - 1) in
    let map_size := size + (src - map_src) in
    r ← on_mm (spi_flash_mmap malloc_ok map_src map_size SPI_FLASH_MMAP_DATA);
    match r with
    | (err, out) =>
        if negb (err =? ESP_OK) then mret (err, None)
        else
          match out with
          | None => stuck NullDeref
          | Some (map, map_handle) =>
              s ← get;
              data ← lift (cached_bytes s (map + (src - map_src)) (Z.to_nat size));
              on_mm (spi_flash_munmap map_handle);;
              mret (err, Some data)
          end
    end.

(** One row of [spi_flash_write_encrypted] at offset [i]: row size, row address
    and the contents of [encrypt_buf]; the result of
    [spi_flash_read_encrypted] is not looked at. *)
Definition encrypted_row (malloc_ok : bool) (dest_addr : Z) (src : list Z) (i : Z) (encrypt_buf : list Z) :
    M flash_state (Z * Z * list Z) :=
  let size := Z.of_nat (length src) in
  let row_addr := dest_addr + i in
  if (i =? 0) && negb (row_addr mod 32 =? 0) then
    r ← spi_flash_read_encrypted malloc_ok (row_addr - 16) 16;
    mret (16, row_addr - 16,
          default (slice encrypt_buf 0 16) (snd r) ++ slice src i 16)
  else if size - i =? 16 then
    r ← spi_flash_read_encrypted malloc_ok (row_addr + 16) 16;
    mret (16, row_addr, slice src i 16 ++ default (slice encrypt_buf 16 16) (snd r))
  else mret (32, row_addr, slice src i 32).

Fixpoint encrypted_loop (fuel : nat) (malloc_ok : bool) (dest_addr : Z) (src : list Z) (i : Z)
    (encrypt_buf : list Z) (rc : rom_result) : M flash_state rom_result :=
  if Z.of_nat (length src) <=? i then mret rc
  else
    match fuel with
    | O => stuck OutOfFuel
    | S fuel =>
        row ← encrypted_row malloc_ok dest_addr src i encrypt_buf;
        let '(row_size, row_addr, encrypt_buf) := row in
        spi_flash_guard_start;;
        rc ← rom (RomWriteEncrypted row_addr 32) (rom_write_encrypted row_addr encrypt_buf);
        spi_flash_guard_end;;
        if decide (rc <> RESULT_OK) then mret rc
        else encrypted_loop fuel malloc_ok dest_addr src (i + row_size) encrypt_buf rc
    end.

(** [junk] is what the uninitialised [encrypt_buf] happens to hold. *)
Definition spi_flash_write_encrypted (malloc_ok : bool) (junk : list Z) (dest_addr : Z) (src : list Z) :
    M flash_state esp_err_t :=
  let size := Z.of_nat (length src) in
  if negb (dest_addr mod 16 =? 0) then mret ESP_ERR_INVALID_ARG
  else if negb (size mod 16 =? 0) then mret ESP_ERR_INVALID_SIZE
  else
    rc ← spi_flash_unlock;
    rc ← (if decide (rc = RESULT_OK)
          then encrypted_loop (length src) malloc_ok dest_addr src 0 junk rc
          else mret rc);
    spi_flash_guard_op_lock;;
    on_mm (spi_flash_mark_modified_region dest_addr size);;
    spi_flash_guard_op_unlock;;
    mret (spi_flash_translate_rc rc).

End FlashOps.
Arguments flash_state : clear implicits.

(** ** Theory *)

Section Theory.
Context {W : Type} `{!RomFlash W} `{!RomLaws W}.
Implicit Types (s : flash_state W).

Definition set_trace (tr : list event) s : flash_state W :=
  FlashState (chip s) (mm s) (s_flash_guard_ops s) (unlocked s) tr.

Lemma wp_guard has e (Q : unit -> flash_state W -> Prop) s :
  (forall tr, Q tt (set_trace tr s)) -> wp (guard_call has e) Q s.
Proof.
  intros HQ. unfold guard_call. do 2 wp_step.
  assert (Q tt s) by (destruct s as [? ? ? ? tr]; apply (HQ tr)).
  destruct (s_flash_guard_ops s) as [g|]; [destruct (has g)|]; [apply (HQ (e :: trace s))|done|done].
Qed.

Lemma wp_rom e f (Q : rom_result -> flash_state W -> Prop) s :
  (forall rc w tr, f (chip s) = (rc, w) -> Q rc (set_trace tr (set_chip w s))) -> wp (rom e f) Q s.
Proof.
  intros HQ. unfold rom. do 2 wp_step. destruct (f (chip s)) as [rc w] eqn:E.
  unfold emit. wp_steps. by apply (HQ rc w (e :: trace s)).
Qed.

(** [s'] differs from [s] only in its trace, in having been unlocked and in the
    chip, whose bytes are now [c]. *)
Definition now s (c : Z -> Z) (s' : flash_state W) : Prop :=
  mm s' = mm s /\ s_flash_guard_ops s' = s_flash_guard_ops s
  /\ forall a, content (chip s') a = c a.

Lemma unlock_spec s :
  wp spi_flash_unlock (fun _ s' => now s (content (chip s)) s') s.
Proof.
  unfold spi_flash_unlock. do 2 wp_step. destruct (unlocked s); [by wp_step|].
  wp_step. apply wp_guard. intros tr1. wp_step. apply wp_rom. intros rc w tr2 Hrc.
  wp_step. apply wp_guard. intros tr3. cbn in Hrc.
  assert (forall a, content w a = content (chip s) a) by (by eapply rom_unlock_content).
  destruct (decide (rc = RESULT_OK)); wp_steps; done.
Qed.

(** *** Erasing *)

Definition erased_range (c : Z -> Z) (start len a : Z) : Z := if within start len a then 255 else c a.

Lemma erase_step s s1 s' sector n end_ :
  0 < n -> sector + n <= end_ ->
  now s (erased_range (content (chip s)) (sector * 4096) (n * 4096)) s1 ->
  now s1 (erased_range (content (chip s1)) ((sector + n) * 4096) ((end_ - (sector + n)) * 4096)) s' ->
  now s (erased_range (content (chip s)) (sector * 4096) ((end_ - sector) * 4096)) s'.
Proof.
  intros Hn Hle (A1 & A2 & A3) (B1 & B2 & B3). split; [congruence|]. split; [congruence|].
  intros a. rewrite B3. unfold erased_range in *. rewrite A3. unfold within. repeat case_test; lia.
Qed.

Lemma erase_loop_spec fuel sector end_ rc s :
  0 <= sector <= end_ -> end_ - sector <= Z.of_nat fuel ->
  wp (erase_loop fuel sector end_ rc)
     (fun rc' s' => mm s' = mm s
        /\ (rc' = RESULT_OK -> rc = RESULT_OK /\
            now s (erased_range (content (chip s)) (sector * 4096) ((end_ - sector) * 4096)) s')) s.
Proof.
  revert sector rc s. induction fuel as [|fuel IH]; intros sector rc s Hs Hf; cbn [erase_loop].
  all: destruct (Z.eqb_spec sector end_) as [->|Hne]; cbn [orb].
  all: try (wp_step; split; [done|]; intros ->; split; [done|]; split; [done|]; split; [done|]; intros a;
            unfold erased_range; rewrite (proj2 (within_false _ _ _)) by lia; done).
  { lia. }
  case_bool_decide as Hrc0; [wp_step; split; [done|]; by intros ->|].
  wp_step. apply wp_guard. intros tr.
  destruct ((sector mod sectors_per_block =? 0) && (sectors_per_block <? end_ - sector)) eqn:E;
    wp_step; apply wp_rom; intros rc1 w tr1 Hrc; wp_step; apply wp_guard; intros tr2;
    cbn [set_trace set_chip chip] in Hrc.
  - simplify_bool. change sectors_per_block with 16 in *.
    pose proof (Z.div_mod sector 16 ltac:(lia)).
    eapply wp_mono; [apply IH; lia|]. intros rc' s' [Hm Hok]. split; [done|]. intros Hrc'.
    destruct (Hok Hrc') as (-> & Hnow). split; [by destruct (decide (rc = RESULT_OK))|].
    eapply (erase_step _ _ _ _ 16); [lia|lia| |exact Hnow].
    split; [done|]. split; [done|]. intros a. cbn. rewrite (rom_erase_block_ok _ _ _ Hrc).
    unfold erased_range. by replace (sector / 16 * 65536) with (sector * 4096) by lia.
  - eapply wp_mono; [apply IH; lia|]. intros rc' s' [Hm Hok]. split; [done|]. intros Hrc'.
    destruct (Hok Hrc') as (-> & Hnow). split; [by destruct (decide (rc = RESULT_OK))|].
    eapply (erase_step _ _ _ _ 1); [lia|lia| |exact Hnow].
    split; [done|]. split; [done|]. intros a. cbn. by rewrite (rom_erase_sector_ok _ _ _ Hrc).
Qed.

Lemma translate_ok rc : spi_flash_translate_rc rc = ESP_OK -> rc = RESULT_OK.
Proof. by destruct rc. Qed.

Lemma erase_range_spec s start size :
  0 <= start -> 0 <= size -> start + size < 2 ^ 32 ->
  wp (spi_flash_erase_range start size)
     (fun r s' => mm s' = mm s
        /\ (r = ESP_OK -> start mod 4096 = 0 /\ size mod 4096 = 0 /\ start + size <= chip_size (mm s)
                          /\ now s (erased_range (content (chip s)) start size) s')) s.
Proof.
  intros H0 H1 H2. unfold spi_flash_erase_range. do 2 wp_step. rewrite u32_small by lia.
  unfold spi_flash_get_chip_size, SPI_FLASH_SEC_SIZE.
  case_test; [by wp_step|]. case_test; [by wp_step|]. case_test; [by wp_step|].
  pose proof (Z.div_mod start 4096 ltac:(lia)). pose proof (Z.div_mod size 4096 ltac:(lia)).
  wp_step. eapply wp_mono; [apply unlock_spec|]. intros rc s1 (U1 & U2 & U3). wp_step.
  destruct (decide (rc = RESULT_OK)) as [->|Hrc].
  2: { wp_steps. split; [done|]. intros ?%translate_ok. done. }
  eapply wp_mono; [apply erase_loop_spec; lia|]. intros rc s2 [Hm Hok]. wp_step. split; [congruence|].
  intros Hr%translate_ok. destruct (Hok Hr) as (_ & V1 & V2 & V3).
  split; [done|]. split; [done|]. split; [lia|]. split; [congruence|]. split; [congruence|].
  intros a. rewrite V3. unfold erased_range. rewrite U3.
  replace (start / 4096 * 4096) with start by lia.
  by replace ((start / 4096 + size / 4096 - start / 4096) * 4096) with size by lia.
Qed.

(** *** Writing *)

Lemma programmed_slice c dst src off n a :
  0 <= off -> 0 <= n -> off + n <= Z.of_nat (length src) ->
  programmed c (dst + off) (slice src off n) a
  = if within (dst + off) n a then Z.land (c a) (at_ (-1) src (a - dst)) else c a.
Proof.
  intros. unfold programmed. rewrite at_slice by done.
  replace (within 0 n (a - (dst + off))) with (within (dst + off) n a) by (unfold within; lia).
  destruct (within (dst + off) n a).
  - by replace (off + (a - (dst + off))) with (a - dst) by lia.
  - apply Z.land_m1_r.
Qed.

Lemma length_padded off data :
  0 <= off -> off + Z.of_nat (length data) <= 4 -> length (padded_word off data) = 4%nat.
Proof. intros. unfold padded_word. rewrite length_take, !length_app, !length_replicate. lia. Qed.

Lemma at_replicate {A} (d x : A) n i : at_ d (replicate n x) i = if within 0 (Z.of_nat n) i then x else d.
Proof.
  destruct (within 0 (Z.of_nat n) i) eqn:E.
  - apply within_spec in E. apply at_lookup; [lia|]. apply lookup_replicate. split; [done|lia].
  - apply within_false in E. apply at_out. rewrite length_replicate. lia.
Qed.

Lemma padded_program (c : Z -> Z) base off data a :
  (forall a, 0 <= c a < 256) -> 0 <= off -> off + Z.of_nat (length data) <= 4 ->
  programmed c base (padded_word off data) a = programmed c (base + off) data a.
Proof.
  intros Hc H0 H1. unfold programmed.
  assert (H255 : forall x, Z.land (c x) 255 = c x).
  { intros x. change 255 with (Z.ones 8). rewrite Z.land_ones by lia. apply Z.mod_small, Hc. }
  destruct (Z_lt_le_dec (a - base) 0).
  { by rewrite !at_out by (rewrite ?length_padded by done; lia). }
  destruct (Z_lt_le_dec (a - base) 4).
  2: { by rewrite !at_out by (rewrite ?length_padded by done; lia). }
  unfold padded_word.
  change (take 4 ?l) with (slice l 0 4). rewrite at_slice by (rewrite ?length_app, ?length_replicate; lia).
  rewrite (proj2 (within_spec _ _ _)), Z.add_0_l by lia.
  rewrite !at_app by (rewrite ?length_replicate; lia). rewrite !length_replicate, Z2Nat.id by lia.
  replace (a - (base + off)) with (a - base - off) by lia.
  case_test; [rewrite at_replicate, Z2Nat.id, (proj2 (within_spec _ _ _)), (at_out _ data) by lia; by rewrite H255, Z.land_m1_r|].
  rewrite at_app by lia. case_test; [done|].
  rewrite at_replicate, (proj2 (within_spec _ _ _)), (at_out _ data) by lia. by rewrite H255, Z.land_m1_r.
Qed.

Lemma rom_write_spec s d data :
  wp (rom_write_op d data) (fun rc s' => mm s' = mm s /\ (rc = RESULT_OK ->
     d mod 4 = 0 -> Z.of_nat (length data) mod 4 = 0 -> now s (programmed (content (chip s)) d data) s')) s.
Proof.
  unfold rom_write_op. apply wp_rom. intros rc w tr Hrc. split; [done|]. intros -> Ha Hl.
  split; [done|]. split; [done|]. by apply rom_write_ok.
Qed.

Lemma write_mid_spec fuel dst src direct off n s :
  0 <= off -> 0 <= n <= Z.of_nat fuel -> off + n <= Z.of_nat (length src) ->
  (dst + off) mod 4 = 0 -> n mod 4 = 0 ->
  wp (write_mid fuel dst src direct off n)
     (fun rc s' => mm s' = mm s /\ (rc = RESULT_OK ->
        now s (programmed (content (chip s)) (dst + off) (slice src off n)) s')) s.
Proof.
  revert off n s. induction fuel as [|fuel IH]; intros off n s H0 Hn Hl Ha Hm; cbn [write_mid].
  all: destruct (Z.leb_spec n 0); try lia.
  1,2: wp_step; split; [done|]; intros _; split; [done|]; split; [done|]; intros a;
       rewrite programmed_slice, (proj2 (within_false _ _ _)) by lia; done.
  set (k := Z.min n _).
  assert (Hk : 0 < k <= n /\ k mod 4 = 0).
  { subst k. destruct direct; [change MAX_WRITE_CHUNK with 8192|];
      (destruct (Z.min_spec n 8192) as [[? ->]|[? ->]] || destruct (Z.min_spec n 32) as [[? ->]|[? ->]]);
      split; try lia; try done. }
  clearbody k. wp_step. apply wp_guard. intros tr. wp_step.
  eapply wp_mono; [apply rom_write_spec|]. intros rc s1 [Hm1 Hok1]. cbn in Hm1.
  wp_step. apply wp_guard. intros tr1. destruct (decide (rc = RESULT_OK)) as [->|].
  2: { wp_step. split; [done|]. done. }
  destruct (Hok1 eq_refl Ha) as (N1 & N2 & N3); [by rewrite length_slice by lia|].
  destruct Hk as [Hk1 Hk2].
  eapply wp_mono; [apply IH; try lia|].
  - rewrite Z.add_assoc. rewrite Z.add_mod, Ha, Hk2 by lia. done.
  - rewrite Zminus_mod, Hm, Hk2. done.
  - cbn. intros rc s' [Hm' Hok]. split; [congruence|]. intros Hrc. destruct (Hok Hrc) as (A1 & A2 & A3).
    unfold now; cbn in *. split; [congruence|]. split; [congruence|]. intros a. rewrite A3, Z.add_assoc.
    rewrite <- Z.add_assoc. rewrite programmed_slice by lia. rewrite N3. rewrite !programmed_slice by lia.
    cbn. unfold within. repeat case_test; try lia; try done.
    rewrite <- Z.land_assoc. by rewrite Z.land_diag.
Qed.

Lemma ldiff_3 x : Z.ldiff x 3 = x - x mod 4.
Proof.
  change 3 with (Z.ones 2). rewrite Z.ldiff_ones_r, Z.shiftl_mul_pow2, Z.shiftr_div_pow2 by lia.
  change (2 ^ 2) with 4. pose proof (Z.div_mod x 4 ltac:(lia)). lia.
Qed.

(** The three parts of a write: [l] bytes up to the first word boundary, [m]
    bytes of whole words, [r] bytes after the last boundary. *)
Lemma write_split dst size :
  0 <= dst -> 0 < size ->
  let l := Z.min (Z.ldiff (dst + 3) 3 - dst) size in
  let m := Z.ldiff (size - l) 3 in
  let r := size - m - l in
  Z.ldiff dst 3 mod 4 = 0 /\ 0 <= dst - Z.ldiff dst 3 /\ 0 <= l <= size /\
  (0 < l -> dst - Z.ldiff dst 3 + l <= 4) /\ 0 <= m /\ m mod 4 = 0 /\ 0 <= r < 4
  /\ (0 < m -> (dst + l) mod 4 = 0) /\ (0 < r -> (dst + (l + m)) mod 4 = 0).
Proof.
  intros H0 H1 l m r. subst r m l. rewrite !ldiff_3.
  assert (forall x, (x - x mod 4) mod 4 = 0) as Hal
    by (intros x; rewrite Zminus_mod, Z.mod_mod, Z.sub_diag by lia; done).
  pose proof (Z.mod_pos_bound dst 4 ltac:(lia)). pose proof (Z.mod_pos_bound (dst + 3) 4 ltac:(lia)).
  pose proof (Z.div_mod dst 4 ltac:(lia)). pose proof (Z.div_mod (dst + 3) 4 ltac:(lia)).
  set (l := Z.min _ _).
  pose proof (Z.mod_pos_bound (size - l) 4 ltac:(lia)).
  assert (0 <= l <= size) by (subst l; lia).
  assert (Hl : l < size -> (dst + l) mod 4 = 0).
  { intros Hlt. subst l. rewrite Z.min_l by lia. replace (dst + _) with (dst + 3 - (dst + 3) mod 4) by lia.
    apply Hal. }
  pose proof (Z.div_mod (size - l) 4 ltac:(lia)).
  split_and!; try lia; try apply Hal.
  - intros Hr. rewrite Z.add_assoc, Z.add_mod, Hl, Hal by lia. done.
Qed.

Lemma write_word_spec s base off src o n :
  base mod 4 = 0 -> 0 <= off -> 0 <= o -> 0 <= n -> off + n <= 4 -> o + n <= Z.of_nat (length src) ->
  wp (spi_flash_guard_start;; rc ← rom_write_op base (padded_word off (slice src o n));
      spi_flash_guard_end;; mret rc)
     (fun rc s' => mm s' = mm s /\ (rc = RESULT_OK ->
        now s (programmed (content (chip s)) (base + off) (slice src o n)) s')) s.
Proof.
  intros Hb H0 H1 H2 H3 H4. pose proof (length_slice src o n H1 H2 H4) as Hls.
  wp_step. apply wp_guard. intros tr. wp_step. eapply wp_mono; [apply rom_write_spec|].
  intros rc s1 [M1 O1]. wp_step. apply wp_guard. intros tr1. wp_step. split; [done|].
  intros Hrc. destruct (O1 Hrc Hb) as (A1 & A2 & A3); [by rewrite length_padded by lia|].
  split; [done|]. split; [done|]. intros a. cbn in *. rewrite A3.
  apply padded_program; [apply rom_byte|lia|lia].
Qed.

Lemma programmed_all c dst src a :
  programmed c dst src a = if within dst (Z.of_nat (length src)) a
                           then Z.land (c a) (at_ (-1) src (a - dst)) else c a.
Proof.
  pose proof (programmed_slice c dst src 0 (Z.of_nat (length src)) a) as H.
  rewrite Z.add_0_r in H. rewrite <- H by lia. f_equal. unfold slice.
  by rewrite drop_0, firstn_all2 by lia.
Qed.

(** Two adjacent slices make one. *)
Lemma programmed_join s s1 s2 dst src l m :
  0 <= l -> 0 <= m -> l + m <= Z.of_nat (length src) ->
  now s (programmed (content (chip s)) (dst + 0) (slice src 0 l)) s1 ->
  now s1 (programmed (content (chip s1)) (dst + l) (slice src l m)) s2 ->
  now s (programmed (content (chip s)) (dst + 0) (slice src 0 (l + m))) s2.
Proof.
  intros H0 H1 H2 (A1 & A2 & A3) (B1 & B2 & B3). split; [congruence|]. split; [congruence|].
  intros a. rewrite B3, !programmed_slice by lia. rewrite A3, programmed_slice by lia.
  unfold within. repeat case_test; try lia; done.
Qed.

Lemma write_parts_spec dst srcc src s :
  0 <= dst -> 0 < Z.of_nat (length src) ->
  wp (write_parts dst srcc src (Z.of_nat (length src)))
     (fun rc s' => mm s' = mm s /\ (rc = RESULT_OK ->
        now s (programmed (content (chip s)) dst src) s')) s.
Proof.
  intros H0 Hn. destruct (write_split dst _ H0 Hn) as (W1 & W2 & W3 & W4 & W5 & W6 & W7 & W8 & W9).
  unfold write_parts. cbv zeta in *.
  set (size := Z.of_nat (length src)) in *. set (lo := Z.ldiff dst 3) in *.
  set (l := Z.min _ size) in *. set (m := Z.ldiff (size - l) 3) in *. clearbody lo l m.
  assert (Hnone : forall s off, 0 <= off <= size ->
            now s (programmed (content (chip s)) (dst + off) (slice src off 0)) s).
  { intros s' off Ho. split; [done|]. split; [done|]. intros a.
    rewrite programmed_slice, (proj2 (within_false _ _ _)) by lia. done. }
  wp_step. eapply wp_mono; [apply unlock_spec|]. intros rc s0 U0.
  destruct (decide (rc <> RESULT_OK)); [wp_step; by split; [apply U0|]|].
  wp_step. eapply (wp_mono _ (fun rc s1 => mm s1 = mm s0 /\ (rc = RESULT_OK ->
            now s0 (programmed (content (chip s0)) (dst + 0) (slice src 0 l)) s1))).
  { destruct (Z.ltb_spec 0 l).
    - pose proof (write_word_spec s0 lo (dst - lo) src 0 l) as Hw.
      replace (lo + (dst - lo)) with (dst + 0) in Hw by lia. apply Hw; done || lia.
    - wp_step. split; [done|]. intros _. replace l with 0 by lia. apply Hnone. lia. }
  intros rc1 s1 [M1 O1]. destruct (decide (rc1 <> RESULT_OK)) as [|E1].
  { wp_step. split; [rewrite M1; apply U0|done]. }
  specialize (O1 ltac:(by destruct (decide (rc1 = RESULT_OK)))).
  wp_step. eapply (wp_mono _ (fun rc s2 => mm s2 = mm s0 /\ (rc = RESULT_OK ->
            now s0 (programmed (content (chip s0)) (dst + 0) (slice src 0 (l + m))) s2))).
  { destruct (Z.ltb_spec 0 m).
    - eapply wp_mono; [apply write_mid_spec; try lia; auto|]. intros rc2 s2 [M2 O2]. split; [congruence|].
      intros Hrc. eapply programmed_join; eauto; lia.
    - assert (m = 0) as -> by lia. change (Z.to_nat 0) with 0%nat. cbn [write_mid].
      change (0 <=? 0) with true. cbv iota. wp_step. split; [done|]. intros _. by rewrite (Z.add_0_r l). }
  intros rc2 s2 [M2 O2]. destruct (decide (rc2 <> RESULT_OK)) as [|E2].
  { wp_step. split; [rewrite M2; apply U0|done]. }
  specialize (O2 ltac:(by destruct (decide (rc2 = RESULT_OK)))).
  eapply (wp_mono _ (fun rc s3 => mm s3 = mm s2 /\ (rc = RESULT_OK ->
            now s2 (programmed (content (chip s2)) (dst + (l + m)) (slice src (l + m) (size - m - l))) s3))).
  { destruct (Z.ltb_spec 0 (size - m - l)).
    - pose proof (write_word_spec s2 (dst + (l + m)) 0 src (l + m) (size - m - l)) as Hw.
      rewrite (Z.add_0_r (dst + (l + m))) in Hw. apply Hw; lia.
    - wp_step. split; [done|]. intros _. replace (size - m - l) with 0 by lia. apply Hnone. lia. }
  intros rc3 s3 [M3 O3]. destruct U0 as (U1 & U2 & U3). split; [congruence|]. intros Hrc.
  destruct (programmed_join s0 s2 s3 dst src (l + m) (size - m - l)) as (C1 & C2 & C3); auto; try lia.
  split; [congruence|]. split; [congruence|]. intros a.
  rewrite C3, programmed_slice, programmed_all, Z.add_0_r, U3 by lia.
  by replace (l + m + (size - m - l)) with size by lia.
Qed.

(** *** Reading *)

(** The buffer [buf'] is [buf] with bytes [off .. off+n-1] read from flash
    address [src] on. *)
Definition filled (c : Z -> Z) (buf buf' : list Z) (off n src : Z) : Prop :=
  length buf' = length buf
  /\ forall i, at_ 0 buf' i = if within off n i then c (src + (i - off)) else at_ 0 buf i.

Lemma now_now s s1 s2 :
  now s (content (chip s)) s1 -> now s1 (content (chip s1)) s2 -> now s (content (chip s)) s2.
Proof.
  intros (A1 & A2 & A3) (B1 & B2 & B3). split; [congruence|]. split; [congruence|].
  intros a. by rewrite B3.
Qed.

(** The ROM's read never reports an error. *)
Definition rom_reliable : Prop := forall src n (w : W), fst (rom_read src n w) = RESULT_OK.

Lemma rom_read_spec s src n :
  src mod 4 = 0 -> 0 <= n ->
  wp (rom_read_op src n) (fun r s' => now s (content (chip s)) s' /\ (rom_reliable -> fst r = RESULT_OK) /\
     (fst r = RESULT_OK -> Z.of_nat (length (snd r)) = n
        /\ forall i, 0 <= i < n -> at_ 0 (snd r) i = content (chip s) (src + i))) s.
Proof.
  intros Ha Hn. unfold rom_read_op, emit. wp_steps. split; [done|]. split; [intros Hr; apply Hr|].
  destruct (rom_read src n (chip s)) as [rc l] eqn:E. cbn. intros ->. by apply rom_read_ok.
Qed.

Lemma read_blit_spec s rsrc rlen off so n buf :
  rsrc mod 4 = 0 -> 0 <= so -> 0 <= n -> so + n <= rlen -> 0 <= off ->
  off + n <= Z.of_nat (length buf) ->
  wp (r ← rom_read_op rsrc rlen;
      if decide (fst r <> RESULT_OK) then mret (fst r, buf)
      else buf ← lift (blit buf off (slice (snd r) so n)); mret (RESULT_OK, buf))
     (fun r s' => now s (content (chip s)) s' /\ length (snd r) = length buf
        /\ (fst r = RESULT_OK -> filled (content (chip s)) buf (snd r) off n (rsrc + so))
        /\ (rom_reliable -> fst r = RESULT_OK)) s.
Proof.
  intros Ha H0 H1 H2 H3 H4. wp_step. eapply wp_mono; [apply rom_read_spec; [done|lia]|].
  intros [rc l] s1 (N1 & Rel & O1). cbn [fst snd] in *. destruct (decide (rc <> RESULT_OK)) as [|E].
  { wp_step. done. }
  destruct O1 as [Hl Hc]; [by destruct (decide (rc = RESULT_OK))|].
  pose proof (length_slice l so n H0 H1 ltac:(lia)) as Hls.
  destruct (blit_spec buf off (slice l so n) H3 ltac:(lia)) as (buf' & Hb & Hlb & Hat).
  wp_step. eapply wp_lift; [exact Hb|]. wp_step. split; [done|]. split; [done|]. split; [|done]. intros _.
  split; [done|]. intros i. cbn. rewrite Hat, Hls. destruct (within off n i) eqn:E1; [|done].
  apply within_spec in E1. rewrite at_slice, (proj2 (within_spec _ _ _)), Hc by lia. f_equal. lia.
Qed.

Lemma read_mid_spec fuel src off k n buf s :
  src mod 4 = 0 -> k mod 4 = 0 -> n mod 4 = 0 -> 0 <= off -> 0 <= k -> 0 <= n <= Z.of_nat fuel ->
  off + k + n <= Z.of_nat (length buf) ->
  wp (read_mid fuel src off k n buf)
     (fun r s' => now s (content (chip s)) s' /\ length (snd r) = length buf
        /\ (fst r = RESULT_OK -> filled (content (chip s)) buf (snd r) (off + k) n (src + k))
        /\ (rom_reliable -> fst r = RESULT_OK)) s.
Proof.
  revert k n buf s. induction fuel as [|fuel IH]; intros k n buf s Ha Hk Hn H0 H1 H2 H3; cbn [read_mid].
  all: destruct (Z.leb_spec n 0); try lia.
  1,2: wp_step; split; [done|]; split; [done|]; split; [|done]; intros _; split; [done|]; intros i; cbn;
       rewrite (proj2 (within_false _ _ _)) by lia; done.
  set (m := Z.min n _).
  assert (Hm : 0 < m <= n /\ m mod 4 = 0).
  { subst m. change MAX_READ_CHUNK with 16384. destruct (Z.min_spec n 16384) as [[? ->]|[? ->]]; split; done || lia. }
  clearbody m. destruct Hm as [Hm0 Hm4].
  wp_step. eapply wp_mono; [apply rom_read_spec; [|lia]|].
  { by rewrite Z.add_mod, Ha, Hk by lia. }
  intros [rc l] s1 (N1 & Rel & O1). cbn [fst snd] in *. destruct (decide (rc <> RESULT_OK)) as [|E].
  { wp_step. done. }
  destruct O1 as [Hl Hc]; [by destruct (decide (rc = RESULT_OK))|].
  destruct (blit_spec buf (off + k) l ltac:(lia) ltac:(lia)) as (buf' & Hb & Hlb & Hat).
  wp_step. eapply wp_lift; [exact Hb|]. wp_step.
  apply (wp_mono _ (fun _ s2 => now s (content (chip s)) s2)).
  { case_test; [|by wp_step]. wp_step. apply wp_guard. intros tr. apply wp_guard. intros tr2. exact N1. }
  intros _ s2 N2. eapply wp_mono.
  { apply (IH (k + m) (n - m) buf' s2); try lia; try done.
    - by rewrite Z.add_mod, Hk, Hm4 by lia.
    - by rewrite Zminus_mod, Hn, Hm4. }
  intros [rc' b'] s' (N3 & L3 & O3 & R3). cbn [fst snd] in *. split; [by eapply now_now|]. split; [congruence|].
  split; [|done]. intros Hrc. destruct (O3 Hrc) as [L4 F4]. split; [congruence|]. intros i. rewrite F4, Hat, Hl.
  destruct N2 as (_ & _ & N2). rewrite N2. unfold within. repeat case_test; try lia; try done.
  - f_equal. lia.
  - rewrite Hc by lia. f_equal; lia.
Qed.

(** The offsets of a read of at least 16 bytes. *)
Lemma read_split src dsti size :
  0 <= src -> 16 <= size ->
  let so := if src mod 4 =? 0 then 0 else 4 - src mod 4 in
  let d0 := if dsti mod 4 =? 0 then 0 else 4 - dsti mod 4 in
  let m := Z.ldiff (size - Z.max so d0) 3 in
  0 <= so < 4 /\ 0 <= d0 < 4 /\ 0 < m /\ m mod 4 = 0 /\ d0 + m <= size /\ so + m <= size
  /\ size - (so + m) < 8 /\ (src + so) mod 4 = 0
  /\ Z.ldiff (src + so + m) 3 = src + so + m /\ (src + so + m) mod 4 = 0
  /\ Z.ldiff src 3 mod 4 = 0 /\ (0 < so -> Z.ldiff src 3 + (4 - so) = src).
Proof.
  intros H0 H1 so d0 m. pose proof (Z.mod_pos_bound src 4 ltac:(lia)).
  pose proof (Z.mod_pos_bound dsti 4 ltac:(lia)).
  assert (Hso : 0 <= so < 4) by (subst so; case_test; lia).
  assert (Hd0 : 0 <= d0 < 4) by (subst d0; case_test; lia).
  pose proof (Z.mod_pos_bound (size - Z.max so d0) 4 ltac:(lia)).
  assert (Hm : m = size - Z.max so d0 - (size - Z.max so d0) mod 4) by apply ldiff_3.
  assert (Hm4 : m mod 4 = 0) by (rewrite Hm, Zminus_mod, Z.mod_mod, Z.sub_diag by lia; done).
  assert (Hs4 : (src + so) mod 4 = 0).
  { subst so. case_test; [by rewrite Z.add_0_r|].
    replace (src + (4 - src mod 4)) with (src - src mod 4 + 1 * 4) by lia.
    rewrite Z.mod_add, Zminus_mod, Z.mod_mod, Z.sub_diag by lia. done. }
  assert (Hsm : (src + so + m) mod 4 = 0) by (by rewrite Z.add_mod, Hs4, Hm4 by lia).
  split_and!; try lia; try done.
  - rewrite ldiff_3, Hsm. lia.
  - rewrite ldiff_3, Zminus_mod, Z.mod_mod, Z.sub_diag by lia. done.
  - intros Hpos. rewrite ldiff_3. subst so. destruct (Z.eqb_spec (src mod 4) 0); lia.
Qed.

Definition read_post s (src : Z) (buf : list Z) (r : rom_result * list Z) (s' : flash_state W) : Prop :=
  now s (content (chip s)) s' /\ length (snd r) = length buf
  /\ (fst r = RESULT_OK ->
      forall i, 0 <= i < Z.of_nat (length buf) -> at_ 0 (snd r) i = content (chip s) (src + i))
  /\ (rom_reliable -> fst r = RESULT_OK).

Lemma read_short_spec s src buf :
  0 <= src -> Z.of_nat (length buf) < 16 ->
  wp (r ← rom_read_op (Z.ldiff src 3) (Z.ldiff (Z.land src 3 + Z.of_nat (length buf) + 3) 3);
      if decide (fst r <> RESULT_OK) then mret (fst r, buf)
      else buf ← lift (blit buf 0 (slice (snd r) (Z.land src 3) (Z.of_nat (length buf))));
           mret (RESULT_OK, buf)) (read_post s src buf) s.
Proof.
  intros H0 H1. rewrite !ldiff_3.
  assert (Z.land src 3 = src mod 4) as -> by (change 3 with (Z.ones 2); by rewrite Z.land_ones).
  set (n := Z.of_nat (length buf)) in *.
  pose proof (Z.mod_pos_bound src 4 ltac:(lia)). pose proof (Z.mod_pos_bound (src mod 4 + n + 3) 4 ltac:(lia)).
  eapply wp_mono; [apply read_blit_spec; try lia|].
  - rewrite Zminus_mod, Z.mod_mod, Z.sub_diag by lia. done.
  - intros r s' (N & L & O & R). split; [done|]. split; [done|]. split; [|done]. intros Hrc i Hi.
    destruct (O Hrc) as [_ F]. rewrite F, (proj2 (within_spec _ _ _)) by lia. f_equal. lia.
Qed.

Lemma read_parts_spec s src dsti buf :
  0 <= src -> wp (read_parts src dsti buf (Z.of_nat (length buf))) (read_post s src buf) s.
Proof.
  intros H0. unfold read_parts. destruct (Z.ltb_spec (Z.of_nat (length buf)) 16) as [Hlt|Hge].
  { by apply read_short_spec. }
  pose proof (read_split src dsti _ H0 Hge) as HR. cbv zeta in HR.
  set (size := Z.of_nat (length buf)) in *. set (so := if src mod 4 =? 0 then 0 else 4 - src mod 4) in *.
  set (d0 := if dsti mod 4 =? 0 then 0 else 4 - dsti mod 4) in *.
  set (m := Z.ldiff (size - Z.max so d0) 3) in *. clearbody so d0 m.
  destruct HR as (R1 & R2 & R3 & R4 & R5 & R6 & R7 & R8 & R9 & R10 & R11 & R12). rewrite R9.
  wp_step. eapply wp_mono; [apply (read_mid_spec _ (src + so) d0 0 m); done || lia|].
  intros [rc1 b1] s1 (N1 & L1 & O1 & Q1). cbn [fst snd] in *.
  destruct (decide (rc1 <> RESULT_OK)) as [|E1]; [wp_step; done|].
  destruct O1 as [_ F1]; [by destruct (decide (rc1 = RESULT_OK))|]. rewrite !Z.add_0_r in F1.
  rewrite (proj2 (Z.ltb_lt 0 m) R3). cbn [andb].
  wp_step. apply (wp_mono _ (fun b2 s2 => s2 = s1 /\ length b2 = length buf /\
    forall i, so <= i < so + m -> at_ 0 b2 i = content (chip s) (src + i))).
  { destruct (Z.eqb_spec so d0) as [->|Hne]; cbn [negb].
    - wp_step. split; [done|]. split; [done|]. intros i Hi.
      rewrite F1, (proj2 (within_spec _ _ _)) by lia. f_equal. lia.
    - pose proof (length_slice b1 d0 m ltac:(lia) ltac:(lia) ltac:(lia)) as Hls.
      destruct (blit_spec b1 so (slice b1 d0 m) ltac:(lia) ltac:(lia)) as (b2 & Hb & Hlb & Hat).
      eapply wp_lift; [exact Hb|]. split; [done|]. split; [congruence|]. intros i Hi.
      rewrite Hat, Hls, (proj2 (within_spec _ _ _)), at_slice, (proj2 (within_spec _ _ _)) by lia.
      rewrite F1, (proj2 (within_spec _ _ _)) by lia. f_equal. lia. }
  intros b2 s2 (-> & L2 & F2). destruct N1 as (N1a & N1b & N1c).
  wp_step. apply (wp_mono _ (fun r s3 => now s (content (chip s)) s3 /\ length (snd r) = length buf /\
    (fst r = RESULT_OK -> forall i, 0 <= i < so + m -> at_ 0 (snd r) i = content (chip s) (src + i)) /\
    (rom_reliable -> fst r = RESULT_OK))).
  { destruct (Z.ltb_spec 0 so).
    - eapply wp_mono; [apply (read_blit_spec s1 _ 4 0 (4 - so) so b2); done || lia|].
      intros r s3 (N & L & O & Q). split; [by eapply now_now|]. split; [congruence|]. split; [|done]. intros Hrc i Hi.
      destruct (O Hrc) as [_ F]. rewrite F. destruct (within 0 so i) eqn:E; [|apply within_false in E; apply F2; lia].
      rewrite N1c. f_equal. lia.
    - wp_step. split; [done|]. split; [done|]. split; [|done]. intros _ i Hi. apply F2. lia. }
  intros [rc3 b3] s3 (N3 & L3 & O3 & Q3). cbn [fst snd] in *.
  destruct (decide (rc3 <> RESULT_OK)) as [|E3]; [wp_step; done|].
  specialize (O3 ltac:(by destruct (decide (rc3 = RESULT_OK)))).
  replace (src + so + m - src) with (so + m) by lia. destruct (Z.ltb_spec 0 (size - (so + m))).
  - eapply wp_mono; [apply (read_blit_spec s3 _ _ (so + m) 0 (size - (so + m)) b3); try done; try lia|].
    { destruct (Z.leb_spec (size - (so + m)) 4); lia. }
    intros r s4 (N & L & O & Q). split; [by eapply now_now|]. split; [congruence|]. split; [|done]. intros Hrc i Hi.
    destruct (O Hrc) as [_ F]. rewrite F. destruct (within (so + m) _ i) eqn:E.
    + destruct N3 as (_ & _ & N3). rewrite N3. f_equal. lia.
    + apply within_false in E. apply O3. lia.
  - wp_step. split; [done|]. split; [done|]. split; [|done]. intros _ i Hi. apply O3. lia.
Qed.

(** *** The public calls *)

Lemma write_spec s dst srcc src :
  sized (mm s) -> chip_size (mm s) <= 2 ^ 24 -> 0 <= dst -> dst + Z.of_nat (length src) < 2 ^ 32 ->
  wp (spi_flash_write dst srcc src) (fun r s' =>
    (r = ESP_OK -> dst + Z.of_nat (length src) <= chip_size (mm s)
       /\ (forall a, content (chip s') a = programmed (content (chip s)) dst src a)
       /\ forall x, 0 <= x < 256 -> touches dst (Z.of_nat (length src)) x -> src <> [] ->
           marked (mm s') x = true)
    /\ sized (mm s') /\ same_mmu (mm s) (mm s')) s.
Proof.
  intros Hs Hc H0 H1. unfold spi_flash_write. do 2 wp_step. rewrite u32_small by lia.
  case_test; [by wp_step|]. case_test.
  { assert (src = []) as -> by (destruct src; [done|cbn in *; lia]). wp_step.
    split; [|by split]. intros _. split; [lia|]. split; [|done]. intros a.
    rewrite programmed_all, (proj2 (within_false _ _ _)) by (cbn; lia). done. }
  wp_step. eapply wp_mono; [apply write_parts_spec; lia|]. intros rc s1 [M1 O1].
  wp_step. apply wp_guard. intros tr. wp_step.
  destruct (wp_inv _ _ _ (mark_spec dst (Z.of_nat (length src)) (mm s) Hs H0 ltac:(lia) ltac:(lia)))
    as ([] & m' & Hrun & [w ->] & Hs' & Hm).
  eapply (wp_run _ tt (set_mm (set_written w (mm s)) (set_trace tr s1))).
  { unfold on_mm. change (mm (set_trace tr s1)) with (mm s1). rewrite M1, Hrun. done. }
  wp_step. apply wp_guard. intros tr2. wp_step. split; [|by split].
  intros Hr%translate_ok. destruct (O1 Hr) as (_ & _ & Hcont). split; [lia|]. split; [done|].
  intros x Hx Ht _. cbn. apply Hm; [done|by right].
Qed.

Lemma read_spec s src dsti buf :
  0 <= src -> src + Z.of_nat (length buf) < 2 ^ 32 ->
  wp (spi_flash_read src dsti buf) (fun r s' =>
    (fst r = ESP_OK -> src + Z.of_nat (length buf) <= chip_size (mm s)
       /\ forall i, 0 <= i < Z.of_nat (length buf) -> at_ 0 (snd r) i = content (chip s) (src + i))
    /\ length (snd r) = length buf /\ now s (content (chip s)) s'
    /\ (rom_reliable -> src + Z.of_nat (length buf) <= chip_size (mm s) -> fst r = ESP_OK)) s.
Proof.
  intros H0 H1. unfold spi_flash_read. do 2 wp_step. rewrite u32_small by lia.
  case_test; [wp_step; split_and!; try done; intros; lia|]. case_test.
  { wp_step. cbn. split; [|done]. intros _. split; [lia|]. intros; lia. }
  wp_step. apply wp_guard. intros tr. wp_step. eapply wp_mono; [by apply read_parts_spec|].
  intros [rc b] s1 (N1 & L1 & O1 & Q1). wp_step. apply wp_guard. intros tr2. wp_step. cbn [fst snd] in *.
  split; [intros Hr%translate_ok; split; [lia|]; by apply O1|]. split; [done|]. split; [done|].
  intros Hrel _. by rewrite (Q1 Hrel).
Qed.

Lemma programmed_erased c dst src a :
  Forall (fun b => 0 <= b < 256) src -> within dst (Z.of_nat (length src)) a = true ->
  c a = 255 -> programmed c dst src a = at_ 0 src (a - dst).
Proof.
  intros Hb Hw Hc. rewrite programmed_all, Hw, Hc. apply within_spec in Hw.
  destruct (lookup_lt_is_Some_2 src (Z.to_nat (a - dst))) as [x Hx]; [lia|].
  rewrite !(at_lookup _ src _ x) by (lia || done).
  pose proof (Forall_lookup_1 _ _ _ _ Hb Hx) as Hx'. cbn in Hx'.
  rewrite Z.land_comm. change 255 with (Z.ones 8). rewrite Z.land_ones by lia. by apply Z.mod_small.
Qed.

(** ** Properties *)

(** C24: [spi_flash_erase_range] always returns; when it reports success the
    range is sector aligned and inside the chip, every byte of the range reads
    0xFF and no byte outside it has changed.  It never touches the record of
    written pages. *)
Theorem erase_range_effect s start size :
  0 <= start -> 0 <= size -> start + size < 2 ^ 32 ->
  exists r s', spi_flash_erase_range start size s = Ret (r, s') /\ mm s' = mm s
    /\ (r = ESP_OK ->
        start mod SPI_FLASH_SEC_SIZE = 0 /\ size mod SPI_FLASH_SEC_SIZE = 0
        /\ start + size <= spi_flash_get_chip_size s
        /\ forall a, content (chip s') a = if within start size a then 255 else content (chip s) a).
Proof.
  intros H0 H1 H2. destruct (wp_inv _ _ _ (erase_range_spec s start size H0 H1 H2)) as (r & s' & Hrun & Hm & Hok).
  exists r, s'. split; [done|]. split; [done|]. intros Hr. destruct (Hok Hr) as (A1 & A2 & A3 & _ & _ & A4). done.
Qed.

(** [spi_flash_write] always returns; when it reports success exactly the
    bytes [dst .. dst+len-1] have been programmed (bits cleared as NOR flash
    does), whatever the alignment of destination and source, and every flash
    page written to is recorded so that the next mapping of it flushes the
    cache. *)
Theorem write_effect s dst srcc src :
  sized (mm s) -> chip_size (mm s) <= 2 ^ 24 -> 0 <= dst -> dst + Z.of_nat (length src) < 2 ^ 32 ->
  exists r s', spi_flash_write dst srcc src s = Ret (r, s')
    /\ (r = ESP_OK -> forall a, content (chip s') a
          = if within dst (Z.of_nat (length src)) a
            then Z.land (content (chip s) a) (at_ (-1) src (a - dst)) else content (chip s) a)
    /\ (r = ESP_OK -> src <> [] -> forall x, 0 <= x < 256 -> touches dst (Z.of_nat (length src)) x ->
          marked (mm s') x = true)
    /\ (r = ESP_OK -> dst + Z.of_nat (length src) <= chip_size (mm s)).
Proof.
  intros Hs Hc H0 H1. destruct (wp_inv _ _ _ (write_spec s dst srcc src Hs Hc H0 H1)) as (r & s' & Hrun & Hok & _).
  exists r, s'. split; [done|]. split; [|split]; intros Hr; destruct (Hok Hr) as (A1 & A2 & A3).
  - intros a. by rewrite A2, programmed_all.
  - intros Hne x Hx Ht. by apply A3.
  - done.
Qed.

(** [spi_flash_read] always returns, never writes outside the destination
    buffer, whatever the alignment of source and destination, and on success
    leaves in the buffer exactly the bytes of the flash. *)
Theorem read_effect s src dsti buf :
  0 <= src -> src + Z.of_nat (length buf) < 2 ^ 32 ->
  exists r buf' s', spi_flash_read src dsti buf s = Ret ((r, buf'), s')
    /\ length buf' = length buf
    /\ (r = ESP_OK -> forall i, 0 <= i < Z.of_nat (length buf) -> at_ 0 buf' i = content (chip s) (src + i))
    /\ (forall a, content (chip s') a = content (chip s) a).
Proof.
  intros H0 H1. destruct (wp_inv _ _ _ (read_spec s src dsti buf H0 H1)) as ([r b] & s' & Hrun & Hok & Hl & (_ & _ & Hc) & _).
  exists r, b, s'. split; [done|]. split; [done|]. split; [|done]. intros Hr. by apply Hok.
Qed.

(** What was written to an erased range is what a later read returns. *)
Theorem erase_write_read s start n s1 dst srcc src s2 dsti buf buf' s3 :
  sized (mm s) -> chip_size (mm s) <= 2 ^ 24 -> 0 <= start -> 0 <= n -> start + n < 2 ^ 32 ->
  spi_flash_erase_range start n s = Ret (ESP_OK, s1) ->
  start <= dst -> dst + Z.of_nat (length src) <= start + n -> Forall (fun b => 0 <= b < 256) src ->
  spi_flash_write dst srcc src s1 = Ret (ESP_OK, s2) ->
  length buf = length src -> spi_flash_read dst dsti buf s2 = Ret ((ESP_OK, buf'), s3) ->
  buf' = src.
Proof.
  intros Hs Hc H0 H1 H2 He Hd Hl Hb Hw Hbuf Hr.
  destruct (wp_inv _ _ _ (erase_range_spec s start n H0 H1 H2)) as (r1 & s1' & He' & Hm & Hok1).
  rewrite He in He'. injection He' as <- <-. destruct (Hok1 eq_refl) as (_ & _ & _ & _ & _ & E1).
  destruct (wp_inv _ _ _ (write_spec s1 dst srcc src ltac:(by rewrite Hm) ltac:(by rewrite Hm)
              ltac:(lia) ltac:(lia))) as (r2 & s2' & Hw' & Hok2 & _).
  rewrite Hw in Hw'. injection Hw' as <- <-. destruct (Hok2 eq_refl) as (_ & E2 & _).
  destruct (wp_inv _ _ _ (read_spec s2 dst dsti buf ltac:(lia) ltac:(lia))) as (r3 & s3' & Hr' & Hok3 & Hlb & _).
  rewrite Hr in Hr'. injection Hr' as <- <-. destruct (Hok3 eq_refl) as (_ & E3). cbn in E3, Hlb.
  apply (at_ext 0); [congruence|]. intros i Hi. rewrite E3 by lia. rewrite E2.
  rewrite programmed_erased; [f_equal; lia|done|apply within_spec; lia|].
  rewrite E1. unfold erased_range. rewrite (proj2 (within_spec _ _ _)) by lia. done.
Qed.

Lemma cached_bytes_spec s ptr n phys :
  (forall i, 0 <= i < Z.of_nat n -> spi_flash_cache2phys (mm s) (ptr + i) = Ret (phys + i)) ->
  exists data, cached_bytes s ptr n = Ret data /\ length data = n
    /\ forall i, 0 <= i < Z.of_nat n -> at_ 0 data i = decrypted (chip s) (phys + i).
Proof.
  revert ptr phys. induction n as [|n IH]; intros ptr phys Hc; cbn [cached_bytes].
  { exists []. split; [done|]. split; [done|]. intros; lia. }
  pose proof (Hc 0 ltac:(lia)) as Hc0. rewrite !Z.add_0_r in Hc0. rewrite Hc0. cbn [mbind outcome_bind].
  destruct (IH (ptr + 1) (phys + 1)) as (data & Hd & Hl & Hat).
  { intros i Hi. rewrite <- !Z.add_assoc. replace (1 + i) with (i + 1) by lia. apply Hc. lia. }
  rewrite Hd. eexists. split; [done|]. split; [by cbn; rewrite Hl|]. intros i Hi.
  change (decrypted (chip s) phys :: data) with ([decrypted (chip s) phys] ++ data).
  rewrite at_app by lia. cbn [length]. case_test.
  - assert (i = 0) as -> by lia. by rewrite Z.add_0_r.
  - rewrite Hat by lia. f_equal. lia.
Qed.

(** [spi_flash_read_encrypted] returns the decrypted bytes of the range and
    leaves MMU tables, reference counts and mappings as it found them, or
    reports [ESP_ERR_NO_MEM] without changing them. *)
Theorem read_encrypted_effect base s src size :
  inv base (mm s) -> 0 <= src -> 0 < size -> src + size <= chip_size (mm s) ->
  mmap_request (mm s) (src - src mod 65536) (size + src mod 65536) SPI_FLASH_MMAP_DATA ->
  exists err out s', spi_flash_read_encrypted true src size s = Ret ((err, out), s')
    /\ chip s' = chip s
    /\ pro_table (mm s') = pro_table (mm s) /\ app_table (mm s') = app_table (mm s)
    /\ s_mmap_page_refcnt (mm s') = s_mmap_page_refcnt (mm s)
    /\ s_mmap_entries (mm s') = s_mmap_entries (mm s)
    /\ ((err = ESP_ERR_NO_MEM /\ out = None)
        \/ err = ESP_OK /\ exists data, out = Some data /\ Z.of_nat (length data) = size
            /\ forall i, 0 <= i < size -> at_ 0 data i = decrypted (chip s) (src + i)).
Proof.
  intros H H0 H1 H2 Hrq. pose proof (inv_chip _ _ H).
  pose proof (Z.mod_pos_bound src 65536 ltac:(lia)).
  unfold spi_flash_read_encrypted, mbind at 1, M_bind at 1, get at 1. rewrite u32_small by lia.
  case_test; [lia|]. case_test; [lia|].
  assert (Z.ldiff src (SPI_FLASH_MMU_PAGE_SIZE - 1) = src - src mod 65536) as ->.
  { change (SPI_FLASH_MMU_PAGE_SIZE - 1) with (Z.ones 16).
    rewrite Z.ldiff_ones_r, Z.shiftl_mul_pow2, Z.shiftr_div_pow2 by lia. change (2 ^ 16) with 65536.
    pose proof (Z.div_mod src 65536 ltac:(lia)). lia. }
  replace (src - (src - src mod 65536)) with (src mod 65536) by lia.
  destruct (mmap_run _ _ _ _ _ H Hrq) as (r & m1 & Hrun & Hinv1 & _ & Hpost).
  unfold mbind at 1, M_bind at 1, on_mm at 1. rewrite Hrun.
  destruct Hpost as [(-> & (E1 & E2 & E3 & E4 & _) & _)|(start & -> & _)].
  { eexists _, _, _. split; [done|]. cbn. split_and!; try done. by left. }
  set (ptr := region_addr _ + _) in *. set (h := s_mmap_last_handle (mm s) + 1) in *. clearbody ptr h.
  destruct (mmap_visible _ _ _ _ _ _ _ _ H Hrq Hrun) as (_ & Hvis & _).
  destruct (munmap_restores _ _ _ _ _ _ _ _ H Hrq Hrun) as (m2 & Hun & R1 & R2 & R3 & R4 & _).
  cbn [negb Z.eqb ESP_OK]. unfold mbind at 1, M_bind at 1, get at 1.
  destruct (cached_bytes_spec (set_mm m1 s) (ptr + src mod 65536) (Z.to_nat size) src) as (data & Hd & Hl & Hat).
  { intros i Hi. cbn [mm set_mm]. rewrite <- Z.add_assoc, Hvis by lia. f_equal. lia. }
  unfold mbind at 1, M_bind at 1, lift at 1. rewrite Hd. unfold mbind at 1, M_bind at 1, on_mm at 1.
  cbn [mm set_mm]. rewrite Hun. eexists _, _, _. split; [done|]. cbn. split_and!; try done.
  right. split; [done|]. exists data. split; [done|]. split; [lia|]. intros i Hi. apply Hat. lia.
Qed.

End Theory.

(** ** Instance: an ideal NOR chip *)

(** A chip is the history of the operations on it, latest first; every
    operation succeeds. *)
Inductive nor_op := NorErase (start len : Z) | NorWrite (dst : Z) (data : list Z).

Fixpoint nor_byte (w : list nor_op) (a : Z) : Z :=
  match w with
  | [] => 0
  | NorErase start len :: w => if within start len a then 255 else nor_byte w a
  | NorWrite dst data :: w => Z.land (nor_byte w a) (at_ (-1) data (a - dst))
  end.

#[export] Instance ideal_rom : RomFlash (list nor_op) := {|
  rom_unlock w := (RESULT_OK, w);
  rom_erase_sector n w := (RESULT_OK, NorErase (n * 4096) 4096 :: w);
  rom_erase_block n w := (RESULT_OK, NorErase (n * 65536) 65536 :: w);
  rom_write d data w := (RESULT_OK, NorWrite d data :: w);
  rom_read s n w := (RESULT_OK, (fun i => nor_byte w (s + i)) <$> seqZ 0 n);
  rom_write_encrypted d data w := (RESULT_OK, NorWrite d data :: w);
  content := nor_byte;
  decrypted := nor_byte
|}.

Lemma nor_byte_range w a : 0 <= nor_byte w a < 256.
Proof.
  induction w as [|[start len|dst data] w IH]; cbn [nor_byte]; [lia|case_test; lia|].
  replace (Z.land (nor_byte w a) (at_ (-1) data (a - dst)))
    with (u8 (Z.land (nor_byte w a) (at_ (-1) data (a - dst)))); [apply u8_range|].
  unfold u8, wrap. rewrite <- Z.land_ones by lia. rewrite Z.land_comm, Z.land_assoc. f_equal.
  rewrite Z.land_comm, Z.land_ones by lia. by apply Z.mod_small.
Qed.

#[export] Instance ideal_laws : RomLaws (list nor_op).
Proof.
  split.
  - apply nor_byte_range.
  - intros w r w' [= <- <-]. done.
  - intros n w w' [= <-] a. done.
  - intros n w w' [= <-] a. done.
  - intros d data w w' [= <-] _ _ a. done.
  - intros s n w l [= <-] _ Hn. rewrite length_fmap, length_seqZ. split; [lia|]. intros i Hi.
    apply at_lookup; [lia|]. rewrite list_lookup_fmap, lookup_seqZ_lt by lia. by rewrite Z2Nat.id by lia.
Qed.

Definition ex_state : flash_state (list nor_op) :=
  FlashState [] FlashMmap.ex_state (Some g_flash_guard_default_ops) false [].

Definition ex_data : list Z := [1; 2; 3; 4; 5; 6; 7; 8; 9].

Definition ex_erased : flash_state (list nor_op) :=
  match spi_flash_erase_range 4096 8192 ex_state with Ret (_, s) => s | Stuck _ => ex_state end.
Definition ex_written : flash_state (list nor_op) :=
  match spi_flash_write 8190 0x3FFB0000 ex_data ex_erased with Ret (_, s) => s | Stuck _ => ex_state end.

Lemma erase_range_effect_witness :
  exists r s', spi_flash_erase_range 4096 8192 ex_state = Ret (r, s') /\ mm s' = mm ex_state.
Proof.
  destruct (erase_range_effect ex_state 4096 8192) as (r & s' & H1 & H2 & _); [lia|lia|lia|].
  exists r, s'. split; [exact H1|exact H2].
Defined.

Lemma write_effect_witness :
  exists r s', spi_flash_write 8190 0x3FFB0000 ex_data ex_erased = Ret (r, s').
Proof.
  destruct (write_effect ex_erased 8190 0x3FFB0000 ex_data) as (r & s' & H1 & _);
    [split; vm_compute; reflexivity|vm_compute; congruence|lia|vm_compute; reflexivity|].
  exists r, s'. exact H1.
Defined.

Lemma read_effect_witness :
  exists r b s', spi_flash_read 8190 3 (replicate 9 0) ex_written = Ret ((r, b), s') /\ length b = 9%nat.
Proof.
  destruct (read_effect ex_written 8190 3 (replicate 9 0)) as (r & b & s' & H1 & H2 & _); [lia|vm_compute; reflexivity|].
  exists r, b, s'. split; [exact H1|exact H2].
Defined.

Definition ex_read : list Z * flash_state (list nor_op) :=
  match spi_flash_read 8190 3 (replicate 9 0) ex_written with
  | Ret ((_, b), s) => (b, s) | Stuck _ => ([], ex_state)
  end.

Lemma ex_erase_ok : spi_flash_erase_range 4096 8192 ex_state = Ret (ESP_OK, ex_erased).
Proof. vm_compute. reflexivity. Qed.
Lemma ex_write_ok : spi_flash_write 8190 0x3FFB0000 ex_data ex_erased = Ret (ESP_OK, ex_written).
Proof. vm_compute. reflexivity. Qed.
Lemma ex_read_ok : spi_flash_read 8190 3 (replicate 9 0) ex_written = Ret ((ESP_OK, fst ex_read), snd ex_read).
Proof. vm_compute. reflexivity. Qed.

Lemma erase_write_read_witness : fst ex_read = ex_data.
Proof.
  apply (erase_write_read ex_state 4096 8192 ex_erased 8190 0x3FFB0000 ex_data ex_written 3
           (replicate 9 0) _ (snd ex_read)); try lia;
    [split; vm_compute; reflexivity|vm_compute; congruence|exact ex_erase_ok|vm_compute; congruence|
     repeat constructor; lia|exact ex_write_ok|reflexivity|exact ex_read_ok].
Defined.

Lemma read_encrypted_effect_witness :
  exists err out s', spi_flash_read_encrypted true 0x20010 16 ex_state = Ret ((err, out), s')
                     /\ pro_table (mm s') = pro_table (mm ex_state).
Proof.
  destruct (read_encrypted_effect FlashMmap.ex_base ex_state 0x20010 16) as (err & out & s' & H1 & _ & H2 & _);
    [apply FlashMmap.ex_state_inv|lia|lia|vm_compute; congruence|split; vm_compute; congruence|].
  exists err, out, s'. split; [exact H1|exact H2].
Defined.

(** The ROM is handed the whole rest of the buffer in every round, not the
    chunk of at most [MAX_WRITE_CHUNK] (or 32) bytes the code computes. *)
Example write_ignores_chunk :
  match spi_flash_write 0 0x20000000 (replicate 64 7) ex_state with
  | Ret (_, s) => omap (fun e => match e with RomWrite d n => Some (d, n) | _ => None end) (trace s)
  | Stuck _ => []
  end = [(32, 32); (0, 64)].
Proof. vm_compute. reflexivity. Qed.

End FlashOps.
