(* ===== verification/Partition.v ===== *)
(** * The partition API (components/spi_flash/partition.c)

    The partition table is read once, through a flash mapping, into
    [s_partition_list]; iterators walk that list.  An iterator's [next_item]
    is the part of the list it still has to visit.  Labels are the bytes up to
    the terminating zero.  Whether flash encryption is enabled is fixed by
    eFuses and is a field of the state; allocations of list items and
    iterators succeed (the code does not test them). *)

From S2P Require Import Prelude FlashMmap FlashOps.

#[local] Open Scope Z_scope.

Module Partition.
Import FlashMmap FlashOps.

Definition ESP_PARTITION_TABLE_ADDR : Z := 0x8000.
Definition ESP_PARTITION_MAGIC : Z := 0x50AA.
Definition PART_TYPE_APP : Z := 0x00.
Definition PART_TYPE_DATA : Z := 0x01.
Definition PART_SUBTYPE_DATA_OTA : Z := 0x00.
Definition PART_FLAG_ENCRYPTED : Z := 1.
Definition ESP_PARTITION_SUBTYPE_ANY : Z := 0xff.

(** An entry of the table in flash. *)
Record esp_partition_info_t := PartInfo {
  i_magic : Z; i_type : Z; i_subtype : Z; i_offset : Z; i_size : Z; i_label : list Z; i_flags : Z
}.

Record esp_partition_t := Part {
  p_type : Z; p_subtype : Z; p_address : Z; p_size : Z; p_label : list Z; p_encrypted : bool
}.

#[export] Instance esp_partition_t_eq_dec : EqDecision esp_partition_t.
Proof. solve_decision. Defined.

Definition decode_info (e : list Z) : esp_partition_info_t :=
  PartInfo (le_decode (slice e 0 2)) (le_decode (slice e 2 1)) (le_decode (slice e 3 1))
    (le_decode (slice e 4 4)) (le_decode (slice e 8 4)) (slice e 12 16) (le_decode (slice e 28 4)).

(** The C string in a buffer. *)
Fixpoint c_string (l : list Z) : list Z :=
  match l with
  | [] => []
  | b :: l => if b =? 0 then [] else b :: c_string l
  end.

(** What [load_partitions] makes of a table entry. *)
Definition list_item (encryption_enabled : bool) (it : esp_partition_info_t) : esp_partition_t :=
  Part (i_type it) (i_subtype it) (i_offset it) (i_size it) (c_string (i_label it))
    (negb (Z.land (i_flags it) PART_FLAG_ENCRYPTED =? 0)
     || (encryption_enabled
         && ((i_type it =? PART_TYPE_APP)
             || ((i_type it =? PART_TYPE_DATA) && (i_subtype it =? PART_SUBTYPE_DATA_OTA))))).

(** The loop over at most [n] entries. *)
Fixpoint read_entries (enc : bool) (n : nat) (data : list Z) : list esp_partition_t :=
  match n with
  | O => []
  | S n =>
      let it := decode_info data in
      if negb (i_magic it =? ESP_PARTITION_MAGIC) then []
      else list_item enc it :: read_entries enc n (drop 32 data)
  end.

Record iterator := Iter {
  it_type : Z; it_subtype : Z; it_label : option (list Z);
  next_item : list esp_partition_t; it_info : option esp_partition_t
}.

Section Partition.
Context {W : Type} `{RomFlash W}.

Record part_state := PartState {
  fl : flash_state W;
  s_partition_list : list esp_partition_t;
  flash_encryption_enabled : bool
}.

Definition on_fl {A} (m : M (flash_state W) A) : M part_state A := fun s =>
  match m (fl s) with
  | Ret (a, f) => Ret (a, PartState f (s_partition_list s) (flash_encryption_enabled s))
  | Stuck e => Stuck e
  end.

Definition load_partitions (malloc_ok : bool) : M part_state esp_err_t :=
  r ← on_fl (on_mm (spi_flash_mmap malloc_ok (Z.land ESP_PARTITION_TABLE_ADDR 0xffff0000)
                      SPI_FLASH_SEC_SIZE SPI_FLASH_MMAP_DATA));
  let '(err, out) := r in
  if negb (err =? ESP_OK) then mret err
  else
    match out with
    | None => stuck NullDeref
    | Some (ptr, h) =>
        s ← get;
        data ← lift (cached_bytes (fl s) (ptr + Z.land ESP_PARTITION_TABLE_ADDR 0xffff)
                       (Z.to_nat SPI_FLASH_SEC_SIZE));
        modify (fun s => PartState (fl s)
          (s_partition_list s
             ++ read_entries (flash_encryption_enabled s) (Z.to_nat (SPI_FLASH_SEC_SIZE / 32)) data)
          (flash_encryption_enabled s));;
        on_fl (on_mm (spi_flash_munmap h));;
        mret ESP_OK
    end.

Definition iterator_create (type subtype : Z) (label : option (list Z)) : M part_state iterator :=
  s ← get; mret (Iter type subtype label (s_partition_list s) None).

(** Does a partition meet the constraints of an iterator? *)
Definition matches (type subtype : Z) (label : option (list Z)) (p : esp_partition_t) : bool :=
  (type =? p_type p)
  && ((subtype =? ESP_PARTITION_SUBTYPE_ANY) || (subtype =? p_subtype p))
  && match label with None => true | Some l => bool_decide (l = p_label p) end.

(** The loop of [esp_partition_next]: the list from the first match on. *)
Fixpoint skip_to (type subtype : Z) (label : option (list Z)) (l : list esp_partition_t) :
    list esp_partition_t :=
  match l with
  | [] => []
  | p :: l' => if matches type subtype label p then l else skip_to type subtype label l'
  end.

(** [None] is the released iterator. *)
Definition esp_partition_next (it : iterator) : option iterator :=
  match skip_to (it_type it) (it_subtype it) (it_label it) (next_item it) with
  | [] => None
  | p :: rest => Some (Iter (it_type it) (it_subtype it) (it_label it) rest (Some p))
  end.

Definition esp_partition_find (malloc_ok : bool) (type subtype : Z) (label : option (list Z)) :
    M part_state (option iterator) :=
  s ← get;
  err ← (match s_partition_list s with [] => load_partitions malloc_ok | _ => mret ESP_OK end);
  if negb (err =? ESP_OK) then mret None
  else it ← iterator_create type subtype label; mret (esp_partition_next it).

Definition esp_partition_get (it : iterator) : option esp_partition_t := it_info it.

Definition esp_partition_find_first (malloc_ok : bool) (type subtype : Z) (label : option (list Z)) :
    M part_state (option esp_partition_t) :=
  it ← esp_partition_find malloc_ok type subtype label;
  mret (it ≫= esp_partition_get).

(** The loop of [esp_partition_verify], [n] being the partitions left. *)
Fixpoint verify_loop (n : nat) (partition : esp_partition_t) (it : option iterator) :
    outcome (option esp_partition_t) :=
  match it with
  | None => Ret None
  | Some it =>
      match n with
      | O => Stuck OutOfFuel
      | S n =>
          match esp_partition_get it with
          | None => Stuck NullDeref
          | Some p =>
              if (p_address p =? p_address partition) && (p_size partition =? p_size p)
                 && eqb (p_encrypted partition) (p_encrypted p)
              then Ret (Some p)
              else verify_loop n partition (esp_partition_next it)
          end
      end
  end.

Definition esp_partition_verify (malloc_ok : bool) (partition : esp_partition_t) :
    M part_state (option esp_partition_t) :=
  let label := match p_label partition with [] => None | l => Some l end in
  it ← esp_partition_find malloc_ok (p_type partition) (p_subtype partition) label;
  s ← get;
  lift (verify_loop (S (length (s_partition_list s))) partition it).

Definition esp_partition_mmap (malloc_ok : bool) (partition : esp_partition_t) (offset size : Z)
    (memory : spi_flash_mmap_memory_t) : M part_state (esp_err_t * option (Z * Z)) :=
  if p_size partition <? offset then mret (ESP_ERR_INVALID_ARG, None)
  else if p_size partition <? u32 (offset + size) then mret (ESP_ERR_INVALID_SIZE, None)
  else
    let phys_addr := u32 (p_address partition + offset) in
    let region_offset := Z.land phys_addr 0xffff in
    let mmap_addr := Z.land phys_addr 0xffff0000 in
    r ← on_fl (on_mm (spi_flash_mmap malloc_ok mmap_addr size memory));
    match r with
    | (rc, Some (out_ptr, out_handle)) =>
        mret (rc, Some (if rc =? ESP_OK then out_ptr + region_offset else out_ptr, out_handle))
    | (rc, None) => mret (rc, None)
    end.

(** [dst] is the destination buffer before the call and [dsti] its address. *)
Definition esp_partition_read (malloc_ok : bool) (partition : esp_partition_t) (src_offset : Z)
    (dsti : Z) (dst : list Z) : M part_state (esp_err_t * list Z) :=
  let size := Z.of_nat (length dst) in
  if p_size partition <? src_offset then mret (ESP_ERR_INVALID_ARG, dst)
  else if p_size partition <? u32 (src_offset + size) then mret (ESP_ERR_INVALID_SIZE, dst)
  else if negb (p_encrypted partition) then
    on_fl (spi_flash_read (u32 (p_address partition + src_offset)) dsti dst)
  else
    r ← esp_partition_mmap malloc_ok partition src_offset size SPI_FLASH_MMAP_DATA;
    match r with
    | (err, out) =>
        if negb (err =? ESP_OK) then mret (err, dst)
        else
          match out with
          | None => stuck NullDeref
          | Some (buf, h) =>
              s ← get;
              data ← lift (cached_bytes (fl s) buf (length dst));
              on_fl (on_mm (spi_flash_munmap h));;
              mret (ESP_OK, data)
          end
    end.

Definition esp_partition_write (malloc_ok : bool) (junk : list Z) (partition : esp_partition_t)
    (dst_offset srcc : Z) (src : list Z) : M part_state esp_err_t :=
  let size := Z.of_nat (length src) in
  if p_size partition <? dst_offset then mret ESP_ERR_INVALID_ARG
  else if p_size partition <? u32 (dst_offset + size) then mret ESP_ERR_INVALID_SIZE
  else
    let dst := u32 (p_address partition + dst_offset) in
    if p_encrypted partition then on_fl (spi_flash_write_encrypted malloc_ok junk dst src)
    else on_fl (spi_flash_write dst srcc src).

Definition esp_partition_erase_range (partition : esp_partition_t) (start_addr size : Z) :
    M part_state esp_err_t :=
  if p_size partition <? start_addr then mret ESP_ERR_INVALID_ARG
  else if p_size partition <? u32 (start_addr + size) then mret ESP_ERR_INVALID_SIZE
  else if negb (size mod SPI_FLASH_SEC_SIZE =? 0) then mret ESP_ERR_INVALID_SIZE
  else if negb (start_addr mod SPI_FLASH_SEC_SIZE =? 0) then mret ESP_ERR_INVALID_ARG
  else on_fl (spi_flash_erase_range (u32 (p_address partition + start_addr)) size).

End Partition.
Arguments part_state : clear implicits.

(** ** Iterators *)

(** All partitions an iterator yields, the current one first. *)
Fixpoint iterate (n : nat) (it : option iterator) : list (option esp_partition_t) :=
  match n, it with
  | S n, Some it => esp_partition_get it :: iterate n (esp_partition_next it)
  | _, _ => []
  end.

Lemma skip_to_filter type subtype label l :
  match skip_to type subtype label l with
  | [] => filter (fun p => matches type subtype label p = true) l = []
  | p :: rest => filter (fun p => matches type subtype label p = true) l
                 = p :: filter (fun p => matches type subtype label p = true) rest
                 /\ matches type subtype label p = true /\ (length rest < length l)%nat
  end.
Proof.
  induction l as [|x l IH]; cbn [skip_to]; [done|]. destruct (matches type subtype label x) eqn:E.
  - rewrite filter_cons_True by done. split; [done|]. split; [done|]. cbn. lia.
  - rewrite filter_cons_False by congruence.
    destruct (skip_to type subtype label l) as [|p rest]; [done|].
    destruct IH as (H1 & H2 & H3). split; [done|]. split; [done|]. cbn. lia.
Qed.

Lemma iterate_next n type subtype label l i :
  (length l <= n)%nat ->
  iterate n (esp_partition_next (Iter type subtype label l i))
  = Some <$> filter (fun p => matches type subtype label p = true) l.
Proof.
  revert l i. induction n as [|n IH]; intros l i Hn.
  - destruct l; [done|cbn in Hn; lia].
  - unfold esp_partition_next. cbn [it_type it_subtype it_label next_item].
    pose proof (skip_to_filter type subtype label l) as H.
    destruct (skip_to type subtype label l) as [|p rest]; [by rewrite H|].
    destruct H as (-> & _ & Hlt). cbn [iterate]. rewrite IH by lia. done.
Qed.

Lemma verify_loop_spec n partition it l i type subtype label :
  (length l < n)%nat -> it = esp_partition_next (Iter type subtype label l i) ->
  verify_loop n partition it
  = Ret (head (filter (fun p => (p_address p =? p_address partition) && (p_size partition =? p_size p)
                                && eqb (p_encrypted partition) (p_encrypted p) = true)
          (filter (fun p => matches type subtype label p = true) l))).
Proof.
  revert l i it. induction n as [|n IH]; intros l i it Hn ->; [lia|].
  unfold esp_partition_next. cbn [it_type it_subtype it_label next_item].
  pose proof (skip_to_filter type subtype label l) as H.
  destruct (skip_to type subtype label l) as [|p rest]; [by rewrite H|].
  destruct H as (-> & _ & Hlt). cbn [verify_loop esp_partition_get it_info].
  destruct (_ && _ && _) eqn:E.
  - by rewrite filter_cons_True.
  - rewrite filter_cons_False by congruence. by eapply IH; [lia|].
Qed.

(** ** The table in flash *)

(** The format of an entry (docs/partition_tables.rst). *)
Definition encode_info (i : esp_partition_info_t) : list Z :=
  le_encode 2 (i_magic i) ++ le_encode 1 (i_type i) ++ le_encode 1 (i_subtype i)
  ++ le_encode 4 (i_offset i) ++ le_encode 4 (i_size i) ++ i_label i ++ le_encode 4 (i_flags i).

Record info_ok (i : esp_partition_info_t) : Prop := {
  io_magic : i_magic i = ESP_PARTITION_MAGIC;
  io_type : 0 <= i_type i < 256; io_subtype : 0 <= i_subtype i < 256;
  io_offset : 0 <= i_offset i < 2 ^ 32; io_size : 0 <= i_size i < 2 ^ 32;
  io_label : length (i_label i) = 16%nat; io_flags : 0 <= i_flags i < 2 ^ 32
}.

Lemma length_encode_info i : length (i_label i) = 16%nat -> length (encode_info i) = 32%nat.
Proof. intros H. unfold encode_info. by rewrite !length_app, !length_le_encode, H. Qed.

Lemma decode_encode_info i tail : info_ok i -> decode_info (encode_info i ++ tail) = i.
Proof.
  intros [Hm Ht Hs Ho Hz Hl Hf]. unfold decode_info.
  set (f1 := le_encode 2 (i_magic i)). set (f2 := le_encode 1 (i_type i)).
  set (f3 := le_encode 1 (i_subtype i)). set (f4 := le_encode 4 (i_offset i)).
  set (f5 := le_encode 4 (i_size i)). set (f7 := le_encode 4 (i_flags i)).
  assert (E : encode_info i ++ tail = f1 ++ f2 ++ f3 ++ f4 ++ f5 ++ i_label i ++ f7 ++ tail)
    by (unfold encode_info; by rewrite <- !app_assoc).
  assert (L : length f1 = 2%nat /\ length f2 = 1%nat /\ length f3 = 1%nat /\ length f4 = 4%nat
              /\ length f5 = 4%nat /\ length f7 = 4%nat) by (split_and!; apply length_le_encode).
  destruct L as (L1 & L2 & L3 & L4 & L5 & L7).
  rewrite (slice_field _ [] f1 _ 0 2 E) by (by rewrite ?L1).
  rewrite (slice_field _ f1 f2 _ 2 1 E) by (by rewrite ?L1, ?L2).
  rewrite (slice_field _ (f1 ++ f2) f3 (f4 ++ f5 ++ i_label i ++ f7 ++ tail) 3 1)
    by (rewrite ?E, <- ?app_assoc, ?length_app, ?L1, ?L2, ?L3; done).
  rewrite (slice_field _ (f1 ++ f2 ++ f3) f4 (f5 ++ i_label i ++ f7 ++ tail) 4 4)
    by (rewrite ?E, <- ?app_assoc, ?length_app, ?L1, ?L2, ?L3, ?L4; done).
  rewrite (slice_field _ (f1 ++ f2 ++ f3 ++ f4) f5 (i_label i ++ f7 ++ tail) 8 4)
    by (rewrite ?E, <- ?app_assoc, ?length_app, ?L1, ?L2, ?L3, ?L4, ?L5; done).
  rewrite (slice_field _ (f1 ++ f2 ++ f3 ++ f4 ++ f5) (i_label i) (f7 ++ tail) 12 16)
    by (rewrite ?E, <- ?app_assoc, ?length_app, ?L1, ?L2, ?L3, ?L4, ?L5, ?Hl; done).
  rewrite (slice_field _ (f1 ++ f2 ++ f3 ++ f4 ++ f5 ++ i_label i) f7 tail 28 4)
    by (rewrite ?E, <- ?app_assoc, ?length_app, ?L1, ?L2, ?L3, ?L4, ?L5, ?L7, ?Hl; done).
  subst f1 f2 f3 f4 f5 f7. rewrite !le_decode_encode; try done; [by destruct i|].
  rewrite Hm. done.
Qed.

Lemma read_entries_encoded enc n infos rest :
  Forall info_ok infos -> (length infos <= n)%nat ->
  (length infos = n \/ i_magic (decode_info rest) <> ESP_PARTITION_MAGIC) ->
  read_entries enc n (concat (encode_info <$> infos) ++ rest) = list_item enc <$> infos.
Proof.
  intros Hok. revert n. induction Hok as [|i infos Hi _ IH]; intros n Hn Hend.
  - destruct n as [|n]; [done|]. cbn [fmap list_fmap concat app read_entries].
    destruct Hend as [[=]|Hend]. by rewrite (proj2 (Z.eqb_neq _ _) Hend).
  - destruct n as [|n]; [cbn in Hn; lia|]. cbn [fmap list_fmap concat]. rewrite <- app_assoc.
    cbn [read_entries]. rewrite decode_encode_info by done. rewrite (io_magic _ Hi), Z.eqb_refl. cbn [negb].
    f_equal. rewrite <- (length_encode_info i (io_label _ Hi)), drop_app_length. apply IH; [cbn in Hn; lia|].
    destruct Hend as [Hend|]; [left; by injection Hend|by right].
Qed.

(** ** Properties *)

Section Properties.
Context {W : Type} `{!RomFlash W} `{!RomLaws W}.
Implicit Types (s : part_state W).

Definition mmu s : mmap_state := mm (fl s).

Definition with_mm (m : mmap_state) s : part_state W :=
  PartState (set_mm m (fl s)) (s_partition_list s) (flash_encryption_enabled s).

Lemma on_mm_run {A} (m : M mmap_state A) a m' s :
  m (mm (fl s)) = Ret (a, m') -> on_fl (on_mm m) s = Ret (a, with_mm m' s).
Proof. intros H. unfold on_fl, on_mm. by rewrite H. Qed.

(** C36: when flash at the table's address holds the encoding of [infos] and
    then no further entry, loading yields exactly these partitions in table
    order, encrypted when flagged or when flash encryption forces it, and the
    mapping used for reading is released; the only failure is
    [ESP_ERR_NO_MEM], which changes neither the list nor the mappings. *)
Theorem load_partitions_table base s infos rest :
  inv base (mmu s) -> mmap_request (mmu s) 0 SPI_FLASH_SEC_SIZE SPI_FLASH_MMAP_DATA ->
  s_partition_list s = [] ->
  Forall info_ok infos -> Z.of_nat (length (concat (encode_info <$> infos) ++ rest)) = SPI_FLASH_SEC_SIZE ->
  (length infos <= 128)%nat ->
  (length infos = 128%nat \/ i_magic (decode_info rest) <> ESP_PARTITION_MAGIC) ->
  (forall i, 0 <= i < 4096 ->
     decrypted (chip (fl s)) (ESP_PARTITION_TABLE_ADDR + i) = at_ 0 (concat (encode_info <$> infos) ++ rest) i) ->
  exists err s', load_partitions true s = Ret (err, s')
    /\ pro_table (mmu s') = pro_table (mmu s) /\ s_mmap_page_refcnt (mmu s') = s_mmap_page_refcnt (mmu s)
    /\ s_mmap_entries (mmu s') = s_mmap_entries (mmu s)
    /\ ((err = ESP_ERR_NO_MEM /\ s_partition_list s' = [])
        \/ (err = ESP_OK /\ s_partition_list s' = list_item (flash_encryption_enabled s) <$> infos)).
Proof.
  intros H Hrq Hnil Hok Hlen Hn Hend Hflash. unfold mmu, load_partitions in *.
  change (Z.land ESP_PARTITION_TABLE_ADDR 4294901760) with 0.
  change (Z.land ESP_PARTITION_TABLE_ADDR 65535) with ESP_PARTITION_TABLE_ADDR.
  destruct (mmap_run _ _ _ _ _ H Hrq) as (r & m1 & Hrun & _ & _ & Hpost).
  destruct Hpost as [(-> & (E1 & E2 & E3 & E4 & _) & _)|(start & -> & Hst & _ & Had)].
  { exists ESP_ERR_NO_MEM, (with_mm m1 s). split.
    - apply bind_Ret. eexists _, _. split; [apply (on_mm_run _ _ _ s Hrun)|done].
    - cbn [fl mm with_mm set_mm s_partition_list]. split_and!; try done. by left. }
  assert (Hvis : forall i, 0 <= i < 65536 ->
    spi_flash_cache2phys m1 (page_ptr SPI_FLASH_MMAP_DATA start + i) = Ret i).
  { intros i Hi. rewrite (cache2phys_page _ _ _ _ 0); try done; [apply Had| |].
    - cbn [region_begin region_size] in *. change (pages_of SPI_FLASH_SEC_SIZE) with 1 in Hst. lia.
    - rewrite (ad_pro _ _ _ _ _ Had). change (pages_of SPI_FLASH_SEC_SIZE) with 1.
      rewrite (proj2 (within_spec _ _ _)) by lia. change (0 / SPI_FLASH_MMU_PAGE_SIZE) with 0. lia. }
  destruct (munmap_restores _ _ _ _ _ _ _ _ H Hrq Hrun) as (m2 & Hun & R1 & R2 & R3 & R4 & _).
  fold (page_ptr SPI_FLASH_MMAP_DATA start) in *.
  set (ptr := page_ptr SPI_FLASH_MMAP_DATA start) in *. clearbody ptr.
  destruct (cached_bytes_spec (set_mm m1 (fl s)) (ptr + ESP_PARTITION_TABLE_ADDR)
              (Z.to_nat SPI_FLASH_SEC_SIZE) ESP_PARTITION_TABLE_ADDR)
    as (data & Hd & Hl & Hat).
  { intros i Hi. cbn [mm set_mm]. rewrite <- Z.add_assoc. rewrite Hvis; [done|].
    unfold ESP_PARTITION_TABLE_ADDR, SPI_FLASH_SEC_SIZE in *. lia. }
  assert (data = concat (encode_info <$> infos) ++ rest) as ->.
  { apply (at_ext 0); [lia|]. intros i Hi. unfold SPI_FLASH_SEC_SIZE in *.
    rewrite Hat by lia. apply Hflash. lia. }
  set (s2 := PartState (set_mm m1 (fl s)) (list_item (flash_encryption_enabled s) <$> infos)
               (flash_encryption_enabled s)).
  exists ESP_OK, (with_mm m2 s2). split.
  - apply bind_Ret. eexists _, _. split; [apply (on_mm_run _ _ _ s Hrun)|].
    apply bind_Ret. eexists _, _. split; [reflexivity|].
    apply bind_Ret. eexists _, _. split; [apply lift_Ret, Hd|].
    apply bind_Ret. exists tt, s2. split.
    { unfold modify. do 2 f_equal. cbn [with_mm fl s_partition_list flash_encryption_enabled].
      rewrite Hnil, read_entries_encoded by done. done. }
    apply bind_Ret. eexists _, _. split; [apply (on_mm_run _ _ _ s2 Hun)|done].
  - cbn [fl mm with_mm set_mm s_partition_list]. split_and!; try done. by right.
Qed.

(** Once the table is loaded, finding does not change the state. *)
Lemma find_run s m type subtype label :
  s_partition_list s <> [] ->
  esp_partition_find m type subtype label s
  = Ret (esp_partition_next (Iter type subtype label (s_partition_list s) None), s).
Proof.
  intros Hne. unfold esp_partition_find, mbind at 1, M_bind at 1, get at 1.
  destruct (s_partition_list s) eqn:E; [done|]. unfold mbind, M_bind, mret, M_ret. cbn [negb Z.eqb ESP_OK].
  unfold iterator_create, mbind, M_bind, get. rewrite E. done.
Qed.

(** The partitions that match, and the first of them. *)
Definition found (type subtype : Z) (label : option (list Z)) (l : list esp_partition_t) : list esp_partition_t :=
  filter (fun p => matches type subtype label p = true) l.

Lemma next_found type subtype label l i :
  esp_partition_next (Iter type subtype label l i) ≫= esp_partition_get = head (found type subtype label l).
Proof.
  unfold esp_partition_next, found. cbn [it_type it_subtype it_label next_item].
  pose proof (skip_to_filter type subtype label l) as Hs.
  destruct (skip_to type subtype label l) as [|p rest]; [by rewrite Hs|]. by destruct Hs as (-> & _).
Qed.

Lemma find_first_run s m type subtype label :
  s_partition_list s <> [] ->
  esp_partition_find_first m type subtype label s = Ret (head (found type subtype label (s_partition_list s)), s).
Proof.
  intros Hne. unfold esp_partition_find_first, mbind at 1, M_bind at 1. rewrite find_run by done.
  unfold mret, M_ret. by rewrite next_found.
Qed.

Lemma verify_run s m p :
  s_partition_list s <> [] ->
  esp_partition_verify m p s
  = Ret (head (filter (fun q => (p_address q =? p_address p) && (p_size p =? p_size q)
                                && eqb (p_encrypted p) (p_encrypted q) = true)
                (found (p_type p) (p_subtype p) (match p_label p with [] => None | l => Some l end)
                   (s_partition_list s))), s).
Proof.
  intros Hne. unfold esp_partition_verify, mbind at 1, M_bind at 1. rewrite find_run by done.
  unfold mbind, M_bind, get, lift.
  by rewrite (verify_loop_spec (S (length (s_partition_list s))) p _ (s_partition_list s) None
               (p_type p) (p_subtype p) _ ltac:(lia) eq_refl).
Qed.

(** Once the table is loaded, an iterator yields exactly the partitions
    that match type, subtype and label, in table order; [esp_partition_find_first]
    yields the first of them, and [esp_partition_verify] the first that also
    agrees in address, size and encryption. *)
Theorem find_enumerates s m type subtype label :
  s_partition_list s <> [] ->
  let found := filter (fun p => matches type subtype label p = true) (s_partition_list s) in
  (exists it, esp_partition_find m type subtype label s = Ret (it, s)
     /\ iterate (length (s_partition_list s)) it = Some <$> found)
  /\ esp_partition_find_first m type subtype label s = Ret (head found, s)
  /\ (forall p, p_type p = type -> p_subtype p = subtype ->
       label = match p_label p with [] => None | l => Some l end ->
       esp_partition_verify m p s
       = Ret (head (filter (fun q => (p_address q =? p_address p) && (p_size p =? p_size q)
                                     && eqb (p_encrypted p) (p_encrypted q) = true) found), s)).
Proof.
  intros Hne fnd. split; [|split].
  - eexists. split; [by apply find_run|]. apply iterate_next. lia.
  - by apply find_first_run.
  - intros p <- <- ->. by apply verify_run.
Qed.

(** The state with another flash. *)
Definition with_fl (f : flash_state W) s : part_state W :=
  PartState f (s_partition_list s) (flash_encryption_enabled s).

Lemma partition_write_run s p m junk off srcc src :
  sized (mmu s) -> chip_size (mmu s) <= 2 ^ 24 ->
  0 <= p_address p -> 0 <= p_size p -> p_address p + p_size p < 2 ^ 32 -> p_encrypted p = false ->
  0 <= off -> off + Z.of_nat (length src) < 2 ^ 32 ->
  exists r f, esp_partition_write m junk p off srcc src s = Ret (r, with_fl f s)
    /\ sized (mm f) /\ same_mmu (mmu s) (mm f)
    /\ (r = ESP_OK -> off + Z.of_nat (length src) <= p_size p /\
        forall a, content (chip f) a = programmed (content (chip (fl s))) (p_address p + off) src a).
Proof.
  intros Hs Hc H0 H1 H2 Henc Ho Hl. unfold esp_partition_write. rewrite Henc.
  case_test; [by exists ESP_ERR_INVALID_ARG, (fl s); destruct s|]. rewrite (u32_small (off + _)) by lia.
  case_test; [by exists ESP_ERR_INVALID_SIZE, (fl s); destruct s|]. rewrite u32_small by lia.
  destruct (wp_inv _ _ _ (write_spec (fl s) (p_address p + off) srcc src Hs Hc ltac:(lia) ltac:(lia)))
    as (r & f & Hrun & Hok & Hs' & Hm).
  unfold on_fl. rewrite Hrun. exists r, f. split_and!; try done. intros Hr.
  destruct (Hok Hr) as (_ & Hcont & _). split; [lia|done].
Qed.

Lemma partition_erase_run s p start n :
  0 <= p_address p -> 0 <= p_size p -> p_address p + p_size p < 2 ^ 32 ->
  0 <= start -> 0 <= n -> start + n < 2 ^ 32 ->
  exists r f, esp_partition_erase_range p start n s = Ret (r, with_fl f s) /\ mm f = mmu s
    /\ (r = ESP_OK -> start + n <= p_size p /\
        forall a, content (chip f) a = if within (p_address p + start) n a then 255 else content (chip (fl s)) a).
Proof.
  intros H0 H1 H2 Ho Hn Hl. unfold esp_partition_erase_range.
  case_test; [by exists ESP_ERR_INVALID_ARG, (fl s); destruct s|]. rewrite (u32_small (start + _)) by lia.
  case_test; [by exists ESP_ERR_INVALID_SIZE, (fl s); destruct s|].
  case_test; [by exists ESP_ERR_INVALID_SIZE, (fl s); destruct s|].
  case_test; [by exists ESP_ERR_INVALID_ARG, (fl s); destruct s|].
  rewrite u32_small by lia.
  destruct (wp_inv _ _ _ (erase_range_spec (fl s) (p_address p + start) n ltac:(lia) ltac:(lia) ltac:(lia)))
    as (r & f & Hrun & Hm & Hok).
  unfold on_fl. rewrite Hrun. exists r, f. split_and!; try done. intros Hr.
  destruct (Hok Hr) as (_ & _ & _ & _ & _ & Hcont). split; [lia|]. exact Hcont.
Qed.

(** A range that does not end inside the partition is refused, and nothing changes. *)
Lemma range_refused {A} (bad_arg bad_size : A) s psize off n (P : A -> Prop) :
  0 <= off -> 0 <= n -> off + n < 2 ^ 32 -> psize < off + n -> P bad_arg -> P bad_size ->
  exists r, (forall m : M (part_state W) A, (if psize <? off then mret bad_arg else if psize <? u32 (off + n) then mret bad_size else m) s = Ret (r, s)) /\ P r.
Proof. intros Ho Hn Hl Hout H1 H2. rewrite u32_small by lia. case_test; [by exists bad_arg|]. case_test; [by exists bad_size|lia]. Qed.

(** C39: reads, writes and erases of an unencrypted partition that lies below
    2^32, on a chip of at most 16 MB, stay inside it: for an offset and a
    length whose sum is below 2^32 the call returns; a range that does not end
    inside the partition is refused and changes nothing at all; a read never
    changes the flash; and on success a read returns the partition's own bytes,
    a write programs only the addressed bytes of the partition and an erase
    clears only the addressed sectors, and no other byte changes.  (What a ROM
    operation that reports an error has done to the flash is not known.  The
    sum of offset and length is not checked for overflow, partition.c:282.) *)
Theorem partition_ops_confined s p :
  sized (mmu s) -> chip_size (mmu s) <= 2 ^ 24 ->
  0 <= p_address p -> 0 <= p_size p -> p_address p + p_size p < 2 ^ 32 -> p_encrypted p = false ->
  (forall m off dsti dst, 0 <= off -> off + Z.of_nat (length dst) < 2 ^ 32 ->
     exists r dst' s', esp_partition_read m p off dsti dst s = Ret ((r, dst'), s')
       /\ (p_size p < off + Z.of_nat (length dst) -> r <> ESP_OK /\ dst' = dst /\ s' = s)
       /\ (forall a, content (chip (fl s')) a = content (chip (fl s)) a)
       /\ (r = ESP_OK -> off + Z.of_nat (length dst) <= p_size p /\
           forall i, 0 <= i < Z.of_nat (length dst) ->
             at_ 0 dst' i = content (chip (fl s)) (p_address p + off + i)))
  /\ (forall m junk off srcc src, 0 <= off -> off + Z.of_nat (length src) < 2 ^ 32 ->
     exists r s', esp_partition_write m junk p off srcc src s = Ret (r, s')
       /\ (p_size p < off + Z.of_nat (length src) -> r <> ESP_OK /\ s' = s)
       /\ (r = ESP_OK -> off + Z.of_nat (length src) <= p_size p /\
           forall a, content (chip (fl s')) a
             = if within (p_address p + off) (Z.of_nat (length src)) a
               then Z.land (content (chip (fl s)) a) (at_ (-1) src (a - (p_address p + off)))
               else content (chip (fl s)) a))
  /\ (forall start n, 0 <= start -> 0 <= n -> start + n < 2 ^ 32 ->
     exists r s', esp_partition_erase_range p start n s = Ret (r, s')
       /\ (p_size p < start + n -> r <> ESP_OK /\ s' = s)
       /\ (r = ESP_OK -> start + n <= p_size p /\
           forall a, content (chip (fl s')) a
             = if within (p_address p + start) n a then 255 else content (chip (fl s)) a)).
Proof.
  intros Hs Hc H0 H1 H2 Henc. split; [|split].
  - intros m off dsti dst Ho Hl. unfold esp_partition_read. rewrite Henc. cbn [negb].
    destruct (Z.lt_ge_cases (p_size p) (off + Z.of_nat (length dst))) as [Hout|Hin].
    { destruct (range_refused (ESP_ERR_INVALID_ARG, dst) (ESP_ERR_INVALID_SIZE, dst) s (p_size p) off (Z.of_nat (length dst)) (fun r => r.1 <> ESP_OK /\ r.2 = dst)) as ([r d] & Hrun & Hr & Ed); [lia..|done|done|].
      eexists _, _, _. split; [apply Hrun|]. cbn in Hr, Ed. subst d. split_and!; [done|done|]. by intros ->. }
    case_test; [lia|]. rewrite (u32_small (off + _)) by lia. case_test; [lia|]. rewrite u32_small by lia.
    destruct (wp_inv _ _ _ (read_spec (fl s) (p_address p + off) dsti dst ltac:(lia) ltac:(lia)))
      as ([r d] & f & Hrun & Hok & _ & (_ & _ & Hcont) & _).
    unfold on_fl. rewrite Hrun. eexists _, _, _. split; [done|]. split; [lia|]. split; [done|].
    intros Hr. split; [lia|]. by apply Hok.
  - intros m junk off srcc src Ho Hl. destruct (Z.lt_ge_cases (p_size p) (off + Z.of_nat (length src))) as [Hout|Hin].
    { unfold esp_partition_write. destruct (range_refused ESP_ERR_INVALID_ARG ESP_ERR_INVALID_SIZE s (p_size p) off (Z.of_nat (length src)) (fun r => r <> ESP_OK)) as (r & Hrun & Hr); [lia..|done|done|].
      eexists _, _. split; [apply Hrun|]. split; [done|]. by intros ->. }
    destruct (partition_write_run s p m junk off srcc src) as (r & f & Hrun & _ & _ & Hok); try done.
    eexists _, _. split; [exact Hrun|]. split; [lia|]. intros Hr. destruct (Hok Hr) as [_ Hcont]. split; [done|].
    intros a. cbn [with_fl fl]. by rewrite Hcont, programmed_all.
  - intros start n Ho Hn Hl. destruct (Z.lt_ge_cases (p_size p) (start + n)) as [Hout|Hin].
    { unfold esp_partition_erase_range. destruct (range_refused ESP_ERR_INVALID_ARG ESP_ERR_INVALID_SIZE s (p_size p) start n (fun r => r <> ESP_OK)) as (r & Hrun & Hr); [lia..|done|done|].
      eexists _, _. split; [apply Hrun|]. split; [done|]. by intros ->. }
    destruct (partition_erase_run s p start n) as (r & f & Hrun & _ & Hok); try done.
    eexists _, _. split; [exact Hrun|]. split; [lia|exact Hok].
Qed.

(** The addresses of a mapping that lie in its pages. *)
Lemma added_visible base (m : mmap_state) m1 phys size memory start i :
  inv base m -> mmap_request m (phys - phys mod 65536) size memory -> 0 <= phys ->
  region_begin memory <= start < region_begin memory + region_size memory - pages_of size ->
  added m m1 start (pages_of size) ((phys - phys mod 65536) / SPI_FLASH_MMU_PAGE_SIZE) ->
  0 <= i -> phys mod 65536 + i < pages_of size * 65536 ->
  spi_flash_cache2phys m1 (page_ptr memory start + phys mod 65536 + i) = Ret (phys + i).
Proof.
  intros H Hrq Hph Hst Had Hi Hlt.
  pose proof (rq_size _ _ _ _ Hrq). pose proof (rq_chip _ _ _ _ Hrq). pose proof (inv_chip _ _ H).
  pose proof (Z.mod_pos_bound phys 65536 ltac:(lia)).
  pose proof (Z.div_mod (phys mod 65536 + i) 65536 ltac:(lia)) as Hd.
  pose proof (Z.mod_pos_bound (phys mod 65536 + i) 65536 ltac:(lia)).
  assert (0 <= (phys mod 65536 + i) / 65536 < pages_of size) as Hk.
  { split; [apply Z.div_pos; lia|apply Z.div_lt_upper_bound; lia]. }
  destruct (pages_of_range _ _ (rq_src _ _ _ _ Hrq) (rq_size _ _ _ _ Hrq) ltac:(lia) (rq_align _ _ _ _ Hrq))
    as (_ & _ & P1).
  destruct (region_facts memory) as (R1 & R2 & R3).
  assert (Hq : (phys - phys mod 65536) / SPI_FLASH_MMU_PAGE_SIZE = phys / 65536).
  { unfold SPI_FLASH_MMU_PAGE_SIZE. symmetry. apply (Z.div_unique_pos _ _ _ 0); [lia|].
    pose proof (Z.div_mod phys 65536 ltac:(lia)). lia. }
  rewrite Hq in *. assert (0 <= phys / 65536) by (apply Z.div_pos; lia).
  replace (page_ptr memory start + phys mod 65536 + i)
    with (page_ptr memory (start + (phys mod 65536 + i) / 65536) + (phys mod 65536 + i) mod 65536)
    by (unfold page_ptr, SPI_FLASH_MMU_PAGE_SIZE; lia).
  rewrite (cache2phys_page _ _ _ _ (phys / 65536 + (phys mod 65536 + i) / 65536));
    [|apply Had|lia|unfold SPI_FLASH_MMU_PAGE_SIZE; lia| |lia].
  - f_equal. unfold SPI_FLASH_MMU_PAGE_SIZE. pose proof (Z.div_mod phys 65536 ltac:(lia)). lia.
  - rewrite (ad_pro _ _ _ _ _ Had), (proj2 (within_spec _ _ _)) by lia. lia.
Qed.

(** [esp_partition_mmap] of a legal request, and undoing it. *)
Lemma partition_mmap_run base s p offset size memory :
  inv base (mmu s) -> 0 <= p_address p -> p_address p + p_size p < 2 ^ 32 -> 0 <= offset ->
  offset + size <= p_size p ->
  let phys := p_address p + offset in
  mmap_request (mmu s) (phys - phys mod 65536) size memory ->
  exists rc out m1, esp_partition_mmap true p offset size memory s = Ret ((rc, out), with_mm m1 s)
    /\ ((rc = ESP_ERR_NO_MEM
         /\ forall q, region_begin memory <= q < region_begin memory + region_size memory - pages_of size ->
             ~ fits (mmu s) (pages_of size) q (phys / 65536))
        \/ exists ptr h m2, rc = ESP_OK /\ out = Some (ptr, h)
            /\ (forall i, 0 <= i -> phys mod 65536 + i < pages_of size * 65536 ->
                 spi_flash_cache2phys m1 (ptr + i) = Ret (phys + i))
            /\ spi_flash_munmap h m1 = Ret (tt, m2)
            /\ pro_table m2 = pro_table (mmu s) /\ s_mmap_page_refcnt m2 = s_mmap_page_refcnt (mmu s)
            /\ s_mmap_entries m2 = s_mmap_entries (mmu s) /\ inv base m2
            /\ s_mmap_last_handle m2 = s_mmap_last_handle (mmu s) + 1 /\ chip_size m2 = chip_size (mmu s)).
Proof.
  intros H Ha Hp Ho Hsz phys Hrq. unfold esp_partition_mmap, mmu in *.
  pose proof (rq_size _ _ _ _ Hrq). pose proof (Z.mod_pos_bound phys 65536 ltac:(lia)).
  case_test; [lia|]. fold phys. rewrite (u32_small (offset + size)) by lia.
  case_test; [lia|]. rewrite (u32_small phys) by lia.
  assert (Z.land phys 65535 = phys mod 65536) as -> by
    (change 65535 with (Z.ones 16); rewrite Z.land_ones by lia; done).
  assert (Z.land phys 4294901760 = phys - phys mod 65536) as -> by (apply land_page; lia).
  destruct (mmap_run _ _ _ _ _ H Hrq) as (r & m1 & Hrun & _ & _ & Hpost).
  assert (Hq : (phys - phys mod 65536) / SPI_FLASH_MMU_PAGE_SIZE = phys / 65536).
  { unfold SPI_FLASH_MMU_PAGE_SIZE. symmetry. apply (Z.div_unique_pos _ _ _ 0); [lia|].
    pose proof (Z.div_mod phys 65536 ltac:(lia)). lia. }
  unfold mbind at 1, M_bind at 1. rewrite (on_mm_run _ _ _ s Hrun).
  destruct Hpost as [(-> & _ & Hn)|(start & -> & Hst & Hf & Had)].
  { eexists _, _, m1. split; [done|]. left. by rewrite <- Hq. }
  destruct (munmap_restores _ _ _ _ _ _ _ _ H Hrq Hrun) as (m2 & Hun & R1 & R2 & R3 & R4 & R5 & R6 & R7).
  fold (page_ptr memory start) in *. cbn [ESP_OK Z.eqb]. eexists _, _, m1. split; [done|]. right.
  eexists _, _, m2. split; [done|]. split; [done|]. split; [|by split_and!].
  intros i Hi Hlt. eapply (added_visible base (mm (fl s)) m1 phys size); try done. lia.
Qed.

(** The pointer [esp_partition_mmap] returns shows the partition's bytes
    from the requested offset on, up to the end of the last 64 KB page that
    [size] bytes from the start of the first page reach. *)
Theorem partition_mmap_window base s p offset size memory ptr h s' :
  inv base (mmu s) -> 0 <= p_address p -> p_address p + p_size p < 2 ^ 32 -> 0 <= offset ->
  let phys := p_address p + offset in
  mmap_request (mmu s) (phys - phys mod 65536) size memory ->
  esp_partition_mmap true p offset size memory s = Ret ((ESP_OK, Some (ptr, h)), s') ->
  offset + size <= p_size p
  /\ forall i, 0 <= i -> phys mod 65536 + i < pages_of size * 65536 ->
     spi_flash_cache2phys (mmu s') (ptr + i) = Ret (phys + i).
Proof.
  intros H Ha Hp Ho phys Hrq Hrun.
  pose proof (rq_size _ _ _ _ Hrq). pose proof (rq_chip _ _ _ _ Hrq). pose proof (inv_chip _ _ H).
  pose proof (Z.mod_pos_bound phys 65536 ltac:(lia)).
  assert (Hsz : offset + size <= p_size p).
  { revert Hrun. unfold esp_partition_mmap. case_test; [done|]. rewrite u32_small by lia. case_test; [done|lia]. }
  split; [done|].
  destruct (partition_mmap_run base s p offset size memory H Ha Hp Ho Hsz Hrq) as (rc & out & m1 & Hrun' & Hpost).
  rewrite Hrun in Hrun'. injection Hrun' as <- <- ->.
  destruct Hpost as [[? _]|(ptr' & h' & m2 & _ & [= <- <-] & Hv & _)]; [done|exact Hv].
Qed.

End Properties.

(** ** Instances *)

Definition ex_info : esp_partition_info_t :=
  PartInfo ESP_PARTITION_MAGIC 1 2 0x9000 0x6000 [110; 118; 115; 0; 0; 0; 0; 0; 0; 0; 0; 0; 0; 0; 0; 0] 0.

Definition ex_chip : list nor_op := [NorWrite 0x8000 (encode_info ex_info); NorErase 0x8000 4096].

Definition ex_state : part_state (list nor_op) :=
  PartState (set_chip ex_chip FlashOps.ex_state) [] false.

Definition ex_part : esp_partition_t := Part 1 2 0x9000 0x6000 [110; 118; 115] false.

Definition ex_loaded : part_state (list nor_op) := PartState (fl ex_state) [ex_part] false.

Lemma load_partitions_table_witness :
  exists err s', load_partitions true ex_state = Ret (err, s')
    /\ ((err = ESP_ERR_NO_MEM /\ s_partition_list s' = []) \/ (err = ESP_OK /\ s_partition_list s' = [ex_part])).
Proof.
  destruct (load_partitions_table FlashMmap.ex_base ex_state [ex_info] (replicate (Z.to_nat 4064) 255))
    as (err & s' & H1 & _ & _ & _ & H2).
  - apply FlashMmap.ex_state_inv.
  - split; vm_compute; congruence.
  - reflexivity.
  - repeat constructor; vm_compute; congruence.
  - vm_compute. reflexivity.
  - vm_compute. lia.
  - right. vm_compute. congruence.
  - intros i Hi.
    assert (Hall : forallb (fun i => decrypted (chip (fl ex_state)) (ESP_PARTITION_TABLE_ADDR + i)
                     =? at_ 0 (concat (encode_info <$> [ex_info]) ++ replicate (Z.to_nat 4064) 255) i)
                     (seqZ 0 4096) = true) by (vm_compute; reflexivity).
    rewrite forallb_forall in Hall. apply Z.eqb_eq, Hall. apply list_elem_of_In, elem_of_seqZ. lia.
  - exists err, s'. split; [exact H1|exact H2].
Defined.

Lemma find_enumerates_witness :
  esp_partition_find_first true 1 0xff None ex_loaded = Ret (Some ex_part, ex_loaded).
Proof.
  destruct (find_enumerates ex_loaded true 1 0xff None) as (_ & H & _); [discriminate|]. exact H.
Defined.

Lemma partition_ops_confined_witness :
  (exists r s', esp_partition_erase_range ex_part 0 4096 ex_loaded = Ret (r, s') /\ (r = ESP_OK -> forall a, content (chip (fl s')) a = if within (p_address ex_part + 0) 4096 a then 255 else content (chip (fl ex_loaded)) a))
  /\ exists r s', esp_partition_erase_range ex_part 0 (p_size ex_part + 4096) ex_loaded = Ret (r, s') /\ r <> ESP_OK /\ s' = ex_loaded.
Proof.
  destruct (partition_ops_confined ex_loaded ex_part) as (_ & _ & H);
    [split; reflexivity|vm_compute; congruence|vm_compute; congruence|vm_compute; congruence|reflexivity|reflexivity|].
  split.
  - destruct (H 0 4096) as (r & s' & H1 & _ & H2); [lia|lia|lia|]. exists r, s'. split; [exact H1|]. intros E. exact (proj2 (H2 E)).
  - destruct (H 0 (p_size ex_part + 4096)) as (r & s' & H1 & H2 & _); [lia|vm_compute; discriminate|vm_compute; reflexivity|]. exists r, s'. split; [exact H1|]. apply H2. lia.
Defined.

Definition ex_mapped : outcome ((esp_err_t * option (Z * Z)) * part_state (list nor_op)) :=
  esp_partition_mmap true ex_part 0x100 64 SPI_FLASH_MMAP_DATA ex_loaded.

Definition ex_mapped_state : part_state (list nor_op) :=
  match ex_mapped with Ret (_, s) => s | Stuck _ => ex_loaded end.

Lemma partition_mmap_window_witness :
  spi_flash_cache2phys (mmu ex_mapped_state) (0x3F409100 + 3) = Ret (0x9100 + 3).
Proof.
  assert (Hrq : mmap_request (mmu ex_loaded) (0x9100 - 0x9100 mod 65536) 64 SPI_FLASH_MMAP_DATA)
    by (split; vm_compute; congruence).
  assert (Hrun : ex_mapped = Ret ((ESP_OK, Some (0x3F409100, 1)), ex_mapped_state)) by (vm_compute; reflexivity).
  destruct (partition_mmap_window FlashMmap.ex_base ex_loaded ex_part 0x100 64 SPI_FLASH_MMAP_DATA
              0x3F409100 1 ex_mapped_state FlashMmap.ex_state_inv ltac:(vm_compute; congruence)
              ltac:(reflexivity) ltac:(lia) Hrq Hrun) as [_ H].
  apply (H 3); [lia|vm_compute; reflexivity].
Defined.

(** The mapped length is not extended by the offset within the first page:
    mapping 0x2000 bytes at 0xF000 into a page leaves the second half out. *)
Example partition_mmap_too_short :
  match esp_partition_mmap true (Part 1 2 0x10000 0x20000 [] false) 0xF000 0x2000 SPI_FLASH_MMAP_DATA ex_loaded with
  | Ret ((ESP_OK, Some (ptr, _)), s) => spi_flash_cache2phys (mmu s) (ptr + 0x1000) = Ret SPI_FLASH_CACHE2PHYS_FAIL
  | _ => False
  end.
Proof. vm_compute. reflexivity. Qed.

End Partition.
