(* ===== verification/Image.v ===== *)
(** * Application images (components/bootloader_support/src/esp_image_format.c,
      flash_partitions.c)

    Images are read through [bootloader_flash_read], which exists in two
    versions (application and boot loader).  The class [FlashReader] is what
    the image code needs of it: a read into a buffer, with a view of the bytes
    a successful read yields.  The application's version, on top of
    [spi_flash_read], is an instance.  Log output is not represented, so
    [log_errors] has no effect. *)

From S2P Require Import Prelude FlashMmap FlashOps Partition.

#[local] Open Scope Z_scope.

Module Image.

Definition ESP_ERR_IMAGE_BASE : esp_err_t := 0x2000.
Definition ESP_ERR_IMAGE_INVALID : esp_err_t := ESP_ERR_IMAGE_BASE + 2.
Definition ESP_IMAGE_HEADER_MAGIC : Z := 0xE9.
Definition SIXTEEN_MB : Z := 0x1000000.
Definition ESP_ROM_CHECKSUM_INITIAL : Z := 0xEF.

(** [flash_read src dest] reads [length dest] bytes; the result is the buffer
    afterwards. *)
Class FlashReader (S : Type) := {
  flash_read : Z -> list Z -> M S (esp_err_t * list Z);
  flash_view : S -> Z -> Z;
  flash_limit : S -> Z;       (* the size of the chip *)
  reader_ok : S -> Prop;      (* the reader is set up *)
  reader_frame : S -> S -> Prop;  (* what reading keeps of the state *)
  reliable : Prop             (* the chip never reports an error *)
}.

(** The bytes of a view. *)
Definition bytes (v : Z -> Z) (a n : Z) : list Z := (fun i => v (a + i)) <$> seqZ 0 n.

(** What a reader leaves alone. *)
Definition same_flash {S} `{FlashReader S} (s s' : S) : Prop :=
  reader_ok s' /\ flash_limit s' = flash_limit s /\ (forall a, flash_view s' a = flash_view s a)
  /\ reader_frame s s'.

(** Reads return, keep the buffer's length and the contents of the flash; a
    successful one lies inside the chip and delivers its bytes, and on a
    reliable chip every read inside the chip succeeds. *)
Definition read_promise {S} `{FlashReader S} (src : Z) (dest : list Z) (s : S)
    (r : esp_err_t * list Z) (s' : S) : Prop :=
  same_flash s s' /\ length (snd r) = length dest
  /\ (fst r = ESP_OK -> src + Z.of_nat (length dest) <= flash_limit s
                        /\ snd r = bytes (flash_view s) src (Z.of_nat (length dest)))
  /\ (reliable -> src + Z.of_nat (length dest) <= flash_limit s -> fst r = ESP_OK).

Class FlashReaderLaws (S : Type) `{FlashReader S} := {
  flash_read_spec : forall src dest s, reader_ok s -> 0 <= src ->
    src + Z.of_nat (length dest) < 2 ^ 32 -> wp (flash_read src dest) (read_promise src dest s) s;
  flash_limit_16MB : forall s, reader_ok s -> flash_limit s <= 2 ^ 24;
  flash_view_byte : forall s a, 0 <= flash_view s a < 256;
  #[global] reader_frame_preorder :: PreOrder reader_frame
}.

Record esp_image_header_t := ImageHeader {
  magic : Z; segment_count : Z; spi_mode : Z; spi_speed : Z; spi_size : Z; entry_addr : Z; encrypt_flag : Z
}.

Record esp_image_segment_header_t := SegmentHeader { load_addr : Z; data_len : Z }.

Definition zero_header : esp_image_header_t := ImageHeader 0 0 0 0 0 0 0.
Definition zero_segment : esp_image_segment_header_t := SegmentHeader 0 0.

(** The structures in memory: 24 and 8 bytes. *)
Definition decode_header (b : list Z) : esp_image_header_t :=
  ImageHeader (at_ 0 b 0) (at_ 0 b 1) (at_ 0 b 2) (Z.land (at_ 0 b 3) 15) (Z.shiftr (at_ 0 b 3) 4)
    (le_decode (slice b 4 4)) (at_ 0 b 8).

Definition decode_segment (b : list Z) : esp_image_segment_header_t :=
  SegmentHeader (le_decode (slice b 0 4)) (le_decode (slice b 4 4)).

Section Image.
Context {S : Type} `{FlashReader S}.

Definition esp_image_load_header (src_addr : Z) : M S (esp_err_t * esp_image_header_t) :=
  r ← flash_read src_addr (replicate 24 0);
  let '(err, b) := r in
  let image_header := decode_header b in
  let err := if (err =? ESP_OK) && negb (magic image_header =? ESP_IMAGE_HEADER_MAGIC)
             then ESP_ERR_IMAGE_INVALID else err in
  mret (err, if negb (err =? ESP_OK) then zero_header else image_header).

(** The loop over the [n] segment headers from [next_addr] on. *)
Fixpoint segment_loop (n : nat) (next_addr : Z) (err : esp_err_t) (hdr : esp_image_segment_header_t)
    (data_offset : Z) : M S (esp_err_t * esp_image_segment_header_t * Z) :=
  match n with
  | O => mret (err, hdr, data_offset)
  | Datatypes.S n =>
      if negb (err =? ESP_OK) then mret (err, hdr, data_offset)
      else
        r ← flash_read next_addr (replicate 8 0);
        let '(err, b) := r in
        if err =? ESP_OK then
          let hdr := decode_segment b in
          let err := if negb (Z.land (data_len hdr) 3 =? 0) || (SIXTEEN_MB <=? data_len hdr)
                     then ESP_ERR_IMAGE_INVALID else ESP_OK in
          let data_offset := u32 (next_addr + 8) in
          segment_loop n (u32 (data_offset + data_len hdr)) err hdr data_offset
        else segment_loop n next_addr err hdr data_offset
  end.

(** Result, segment header and data offset; [hdr0] and [offs0] are what the
    caller's variables held before. *)
Definition esp_image_load_segment_header (index src_addr : Z) (image_header : esp_image_header_t)
    (hdr0 : esp_image_segment_header_t) (offs0 : Z) : M S (esp_err_t * esp_image_segment_header_t * Z) :=
  if segment_count image_header <=? index then mret (ESP_ERR_INVALID_ARG, hdr0, offs0)
  else
    r ← segment_loop (Z.to_nat (index + 1)) (u32 (src_addr + 24)) ESP_OK hdr0 offs0;
    let '(err, hdr, offs) := r in
    if negb (err =? ESP_OK) then mret (err, zero_segment, 0) else mret (err, hdr, offs).

(** Xor of the first [min (length buf) n] bytes. *)
Definition xor_bytes (checksum : Z) (buf : list Z) (n : Z) : Z :=
  foldl Z.lxor checksum (take (Z.to_nat n) buf).

(** The checksum of a segment, in blocks of the 128-byte buffer; [fuel] counts
    the blocks. *)
Fixpoint checksum_loop (fuel : nat) (data_offs len i checksum : Z) (buf : list Z) :
    M S (esp_err_t * Z * list Z) :=
  if len <=? i then mret (ESP_OK, checksum, buf)
  else
    match fuel with
    | O => stuck OutOfFuel
    | Datatypes.S fuel =>
        r ← flash_read (u32 (data_offs + i)) buf;
        let '(err, buf) := r in
        if negb (err =? ESP_OK) then mret (err, checksum, buf)
        else checksum_loop fuel data_offs len (i + 128) (xor_bytes checksum buf (len - i)) buf
    end.

(** The loop over the segments from [i] on: last header and data offset. *)
Fixpoint segments_loop (n : nat) (i src_addr : Z) (image_header : esp_image_header_t)
    (checksum : Z) (buf : list Z) (hdr : esp_image_segment_header_t) (offs : Z) :
    M S (esp_err_t * Z * list Z * esp_image_segment_header_t * Z) :=
  match n with
  | O => mret (ESP_OK, checksum, buf, hdr, offs)
  | Datatypes.S n =>
      r ← esp_image_load_segment_header i src_addr image_header hdr offs;
      let '(err, hdr, offs) := r in
      if negb (err =? ESP_OK) then mret (err, checksum, buf, hdr, offs)
      else
        r ← checksum_loop (Z.to_nat ((data_len hdr + 127) / 128)) offs (data_len hdr) 0 checksum buf;
        let '(err, checksum, buf) := r in
        if negb (err =? ESP_OK) then mret (err, checksum, buf, hdr, offs)
        else segments_loop n (i + 1) src_addr image_header checksum buf hdr offs
  end.

(** Result and image length ([*p_length]). *)
Definition esp_image_basic_verify (src_addr : Z) : M S (esp_err_t * Z) :=
  r ← esp_image_load_header src_addr;
  let '(err, image_header) := r in
  if negb (err =? ESP_OK) then mret (err, 0)
  else
    r ← segments_loop (Z.to_nat (segment_count image_header)) 0 src_addr image_header
          ESP_ROM_CHECKSUM_INITIAL (replicate 128 0) zero_segment 0;
    let '(err, checksum, buf, hdr, offs) := r in
    if negb (err =? ESP_OK) then mret (err, 0)
    else
      let end_addr := u32 (offs + data_len hdr) in
      if end_addr <? src_addr then mret (ESP_ERR_IMAGE_INVALID, 0)
      else
        let length := end_addr - src_addr in
        if SIXTEEN_MB <=? length then mret (ESP_ERR_IMAGE_INVALID, 0)
        else
          let length := length + 16 - (length + 16) mod 16 in
          r ← flash_read (u32 (src_addr + length - 16)) (take 16 buf);
          let buf := snd r ++ drop 16 buf in
          if negb (checksum =? at_ 0 buf 15) then mret (ESP_ERR_IMAGE_INVALID, 0)
          else mret (ESP_OK, length).

End Image.

(** ** The partition table check of the boot loader (flash_partitions.c) *)

Definition ESP_PARTITION_TABLE_MAX_ENTRIES : nat := 96.
Definition PART_TYPE_END : Z := 0xff.
Definition PART_SUBTYPE_END : Z := 0xff.

(** Result and [*num_partitions]; [table] is the mapped partition table. *)
Fixpoint table_verify_loop (n : nat) (chip_size num_parts : Z) (table : list Z) : esp_err_t * Z :=
  match n with
  | O => (ESP_ERR_INVALID_STATE, 0)
  | Datatypes.S n =>
      let part := Partition.decode_info table in
      if (Partition.i_magic part =? 0xFFFF) && (Partition.i_type part =? PART_TYPE_END)
         && (Partition.i_subtype part =? PART_SUBTYPE_END)
      then (ESP_OK, num_parts)
      else if negb (Partition.i_magic part =? Partition.ESP_PARTITION_MAGIC)
      then (ESP_ERR_INVALID_STATE, 0)
      else if (chip_size <? Partition.i_offset part)
              || (chip_size <? u32 (Partition.i_offset part + Partition.i_size part))
      then (ESP_ERR_INVALID_SIZE, 0)
      else table_verify_loop n chip_size (num_parts + 1) (drop 32 table)
  end.

Definition esp_partition_table_basic_verify (chip_size : Z) (table : list Z) : esp_err_t * Z :=
  table_verify_loop ESP_PARTITION_TABLE_MAX_ENTRIES chip_size 0 table.

(** ** What an image is *)

(** The [n] segments whose first header is at [a]: data offset and header. *)
Fixpoint layout (v : Z -> Z) (n : nat) (a : Z) : list (Z * esp_image_segment_header_t) :=
  match n with
  | O => []
  | S n =>
      let hdr := decode_segment (bytes v a 8) in
      let offs := u32 (a + 8) in
      (offs, hdr) :: layout v n (u32 (offs + data_len hdr))
  end.

Definition seg_ok (seg : Z * esp_image_segment_header_t) : Prop :=
  Z.land (data_len (snd seg)) 3 = 0 /\ data_len (snd seg) < SIXTEEN_MB.

(** The segments of the image at [src], and the data they hold. *)
Definition segments (v : Z -> Z) (src : Z) : list (Z * esp_image_segment_header_t) :=
  layout v (Z.to_nat (v (src + 1))) (u32 (src + 24)).

Definition seg_data (v : Z -> Z) (seg : Z * esp_image_segment_header_t) : list Z :=
  bytes v (fst seg) (data_len (snd seg)).

(** The end of the last segment. *)
Definition image_end (v : Z -> Z) (src : Z) : Z :=
  match last (segments v src) with
  | Some (offs, hdr) => u32 (offs + data_len hdr)
  | None => 0
  end.

(** The image at [src] is well formed and [len] bytes long, the last of which
    is the checksum of the data. *)
Record image_valid (v : Z -> Z) (src len : Z) : Prop := {
  iv_magic : v src = ESP_IMAGE_HEADER_MAGIC;
  iv_segments : Forall seg_ok (segments v src);
  iv_end : src <= image_end v src < src + SIXTEEN_MB;
  iv_len : len = image_end v src - src + 16 - (image_end v src - src + 16) mod 16;
  iv_checksum : foldl Z.lxor ESP_ROM_CHECKSUM_INITIAL (concat (seg_data v <$> segments v src))
                = v (src + len - 1)
}.

(** ** Reading images *)

Lemma length_bytes v a n : length (bytes v a n) = Z.to_nat n.
Proof. unfold bytes. by rewrite length_fmap, length_seqZ. Qed.

Lemma at_bytes v a n i : 0 <= i < n -> at_ 0 (bytes v a n) i = v (a + i).
Proof.
  intros Hi. apply at_lookup; [lia|]. unfold bytes.
  rewrite list_lookup_fmap, lookup_seqZ_lt by lia. by rewrite Z2Nat.id by lia.
Qed.

Lemma bytes_ext v v' a n : (forall x, v' x = v x) -> bytes v' a n = bytes v a n.
Proof. intros H. unfold bytes. apply list_fmap_ext. intros; apply H. Qed.

Lemma layout_ext v v' n a : (forall x, v' x = v x) -> layout v' n a = layout v n a.
Proof.
  intros H. revert a. induction n as [|n IH]; intros a; cbn [layout]; [done|].
  by rewrite (bytes_ext v v'), IH.
Qed.

Lemma layout_take v n m a : (n <= m)%nat -> layout v n a = take n (layout v m a).
Proof.
  revert m a. induction n as [|n IH]; intros m a Hn; [done|]. destruct m as [|m]; [lia|].
  cbn [layout take]. f_equal. apply IH. lia.
Qed.

Lemma length_layout v n a : length (layout v n a) = n.
Proof. revert a. induction n as [|n IH]; intros a; cbn [layout]; [done|]. cbn. by rewrite IH. Qed.

Section Reading.
Context {S : Type} `{!FlashReader S} `{!FlashReaderLaws S}.
Implicit Types (s : S).

#[local] Instance same_flash_trans : Transitive same_flash.
Proof. 
  intros a b c (A1 & A2 & A3 & A4) (B1 & B2 & B3 & B4). split; [done|]. split; [congruence|].
  split; [intros x; by rewrite B3|by transitivity b].
Qed.

Lemma same_flash_refl s : reader_ok s -> same_flash s s.
Proof. done. Qed.
#[local] Hint Resolve same_flash_refl : core.

(** [bytes] of the same flash. *)
Lemma same_bytes s s' a n : same_flash s s' -> bytes (flash_view s') a n = bytes (flash_view s) a n.
Proof. intros (_ & _ & E & _). by apply bytes_ext. Qed.

Lemma same_layout s s' n a : same_flash s s' -> layout (flash_view s') n a = layout (flash_view s) n a.
Proof. intros (_ & _ & E & _). by apply layout_ext. Qed.

Lemma seg_ok_test hdr o :
  (negb (Z.land (data_len hdr) 3 =? 0) || (SIXTEEN_MB <=? data_len hdr)) = false <-> seg_ok (o, hdr).
Proof.
  unfold seg_ok. cbn. rewrite orb_false_iff, negb_false_iff, Z.eqb_eq, Z.leb_gt. done.
Qed.

(** All headers of a layout lie inside the chip. *)
Definition headers_in (limit : Z) (l : list (Z * esp_image_segment_header_t)) : Prop :=
  Forall (fun seg => 8 <= fst seg <= limit) l.

(** A header address that does not wrap. *)
Lemma next_header z limit : 0 <= z < 2 ^ 32 -> limit <= 2 ^ 24 -> 8 <= u32 (z + 8) <= limit -> z + 8 <= limit.
Proof.
  intros Hz Hl Hu. destruct (Z_lt_le_dec (z + 8) (2 ^ 32)) as [|Hge]; [rewrite u32_small in Hu by lia; lia|].
  unfold u32, wrap in Hu. rewrite <- (Z.mod_unique_pos (z + 8) (2 ^ 32) 1 (z + 8 - 2 ^ 32)) in Hu by lia. lia.
Qed.

Lemma segment_loop_step n a hdr0 offs0 :
  segment_loop (S := S) (Datatypes.S n) a ESP_OK hdr0 offs0 =
  (r ← flash_read a (replicate 8 0);
   let '(err, b) := r in
   if err =? ESP_OK then
     let hdr := decode_segment b in
     segment_loop n (u32 (u32 (a + 8) + data_len hdr))
       (if negb (Z.land (data_len hdr) 3 =? 0) || (SIXTEEN_MB <=? data_len hdr)
        then ESP_ERR_IMAGE_INVALID else ESP_OK) hdr (u32 (a + 8))
   else segment_loop n a err hdr0 offs0).
Proof. reflexivity. Qed.

Lemma segment_loop_error n a err hdr0 offs0 :
  err <> ESP_OK -> segment_loop (S := S) n a err hdr0 offs0 = mret (err, hdr0, offs0).
Proof.
  intros H. destruct n as [|n]; [done|]. cbn [segment_loop]. by rewrite (proj2 (Z.eqb_neq _ _) H).
Qed.

(** Fields of numbers that are not negative. *)
Lemma le_decode_nonneg l : Forall (fun b => 0 <= b) l -> 0 <= le_decode l.
Proof. induction 1 as [|b l Hb _ IH]; [done|]. change (le_decode (b :: l)) with (b + 256 * le_decode l). lia. Qed.

Lemma data_len_nonneg s a : 0 <= data_len (decode_segment (bytes (flash_view s) a 8)).
Proof.
  apply le_decode_nonneg. unfold slice. apply Forall_take, Forall_drop, Forall_fmap, Forall_true.
  intros i. apply flash_view_byte.
Qed.

(** The loop over segment headers walks the layout. *)
Lemma segment_loop_spec n a hdr0 offs0 s :
  reader_ok s -> 0 <= a -> a + 8 < 2 ^ 32 ->
  wp (segment_loop (Datatypes.S n) a ESP_OK hdr0 offs0) (fun r s' =>
    let '(err, hdr, offs) := r in
    let l := layout (flash_view s) (Datatypes.S n) a in
    same_flash s s'
    /\ (err = ESP_OK -> last l = Some (offs, hdr) /\ Forall seg_ok l /\ offs <= flash_limit s)
    /\ (reliable -> Forall seg_ok l -> a + 8 <= flash_limit s -> headers_in (flash_limit s) l -> err = ESP_OK)) s.
Proof.
  revert a hdr0 offs0 s. induction n as [|n IH]; intros a hdr0 offs0 s Hok Ha Ha8.
  all: rewrite segment_loop_step; wp_step;
    eapply wp_mono; [apply flash_read_spec; [done|done|by rewrite length_replicate]|];
    intros [err b] s1 (Hs & Hl & Hb & Hrel); cbn [fst snd] in *; rewrite length_replicate in Hb, Hrel;
    change (Z.of_nat 8) with 8 in *; cbv zeta;
    (destruct (Z.eqb_spec err ESP_OK) as [->|Hne];
      [|rewrite segment_loop_error by done; wp_step; split; [done|]; split; [done|];
        intros Hr _ Hlim _; by apply Hrel]);
    destruct (Hb eq_refl) as [Hin ->]; pose proof (data_len_nonneg s a) as Hpos; pose proof (flash_limit_16MB s Hok) as H16;
    set (hdr := decode_segment (bytes (flash_view s) a 8));
    (destruct (negb (Z.land (data_len hdr) 3 =? 0) || (SIXTEEN_MB <=? data_len hdr)) eqn:Et;
      [rewrite segment_loop_error by done; wp_step; split; [done|]; split; [done|]; intros _ Hsg _ _;
       apply Forall_cons_1 in Hsg as [Hsg _]; apply seg_ok_test in Hsg; fold hdr in Hsg; congruence|]).
  - cbn [segment_loop]. wp_step. split; [done|]. split; [|done]. intros _. split; [done|].
    split; [constructor; [by apply seg_ok_test|done]|]. rewrite u32_small by lia. done.
  - fold hdr in Hpos. pose proof (proj1 (seg_ok_test hdr 0) Et) as [_ Hlt]. cbn [snd] in Hlt.
    change SIXTEEN_MB with (2 ^ 24) in Hlt.
    eapply wp_mono; [apply (IH (u32 (u32 (a + 8) + data_len hdr)) hdr (u32 (a + 8)) s1);
      [apply Hs|apply u32_range|rewrite (u32_small (a + 8)), u32_small by lia; lia]|].
    intros [[err h] o] s' (Hs' & Hok' & Hrel'). split; [by transitivity s1|].
    rewrite !(same_layout s s1) in * by done. rewrite (proj1 (proj2 Hs)) in *.
    change (layout (flash_view s) (Datatypes.S (Datatypes.S n)) a)
      with ((u32 (a + 8), hdr) :: layout (flash_view s) (Datatypes.S n) (u32 (u32 (a + 8) + data_len hdr))).
    split.
    + intros Herr. destruct (Hok' Herr) as (H1 & H2 & H3). split; [by rewrite last_cons, H1|].
      split; [constructor; [by apply seg_ok_test|done]|done].
    + intros Hr [_ Hsg]%Forall_cons_1 Hlim [Hh1 Hh2]%Forall_cons_1. apply Hrel'; try done.
      cbn [layout] in Hh2. apply Forall_cons_1 in Hh2 as [Hh2 _]. cbn [fst] in Hh1, Hh2.
      eapply next_header; [apply u32_range| |exact Hh2]. lia.
Qed.

Lemma bytes_app v a n m : 0 <= n -> 0 <= m -> bytes v a (n + m) = bytes v a n ++ bytes v (a + n) m.
Proof.
  intros Hn Hm. unfold bytes. rewrite seqZ_app by lia. rewrite fmap_app. f_equal.
  apply list_eq. intros i. rewrite !list_lookup_fmap.
  destruct (decide (Z.of_nat i < m)) as [Hi|Hi].
  - rewrite !lookup_seqZ_lt by lia. cbn. do 2 f_equal. lia.
  - by rewrite !lookup_seqZ_ge by lia.
Qed.

Lemma take_bytes v a n m : 0 <= n <= m -> take (Z.to_nat n) (bytes v a m) = bytes v a n.
Proof.
  intros H. replace m with (n + (m - n)) by lia. rewrite bytes_app by lia.
  rewrite <- (length_bytes v a n) at 1. apply take_app_length.
Qed.

Lemma checksum_loop_spec fuel offs len i c buf s :
  reader_ok s -> length buf = 128%nat -> 0 <= i -> i mod 128 = 0 -> 0 <= offs <= flash_limit s ->
  len < 2 ^ 24 -> len - i <= Z.of_nat fuel * 128 ->
  wp (checksum_loop fuel offs len i c buf) (fun r s' =>
    let '(err, c', buf') := r in
    same_flash s s' /\ length buf' = 128%nat
    /\ (err = ESP_OK -> c' = foldl Z.lxor c (bytes (flash_view s) (offs + i) (len - i)))
    /\ (reliable -> offs + (len + 127) / 128 * 128 <= flash_limit s -> err = ESP_OK)) s.
Proof.
  revert i c buf s. induction fuel as [|fuel IH]; intros i c buf s Hok Hbuf Hi Hi128 Ho Hlen Hf; cbn [checksum_loop].
  all: destruct (Z.leb_spec len i); try lia.
  1,2: wp_step; split; [done|]; split; [done|]; split; [|done]; intros _;
       assert (bytes (flash_view s) (offs + i) (len - i) = []) as -> by
         (apply nil_length_inv; rewrite length_bytes; lia); done.
  pose proof (flash_limit_16MB s Hok). rewrite u32_small by lia.
  wp_step. eapply wp_mono; [apply flash_read_spec; [done|lia|lia]|].
  intros [err b] s1 (Hs & Hl & Hb & Hrel). cbn [fst snd] in *. rewrite Hbuf in *. change (Z.of_nat 128) with 128 in *.
  assert (Hup : i + 128 <= (len + 127) / 128 * 128).
  { pose proof (Z.div_mod i 128 ltac:(lia)). pose proof (Z.div_mod (len + 127) 128 ltac:(lia)).
    pose proof (Z.mod_pos_bound (len + 127) 128 ltac:(lia)). nia. }
  destruct (Z.eqb_spec err ESP_OK) as [->|Hne]; cbn [negb].
  2: { wp_step. split; [done|]. split; [done|]. split; [done|]. intros Hr Hlim. apply Hrel; [done|lia]. }
  destruct (Hb eq_refl) as [Hin ->]. eapply wp_mono.
  { apply (IH (i + 128) _ _ s1); rewrite ?(proj1 (proj2 Hs)); try lia;
      first [apply Hs|by rewrite length_bytes|by rewrite Z.add_mod, Hi128 by lia]. }
  intros [[err c'] buf'] s' (Hs' & Hb' & Hc' & Hr'). split; [by transitivity s1|]. split; [done|]. split.
  - intros Herr. rewrite (Hc' Herr), (same_bytes s s1) by done. unfold xor_bytes.
    destruct (Z_lt_le_dec (len - i) 128).
    + rewrite take_bytes by lia. assert (bytes (flash_view s) (offs + (i + 128)) (len - (i + 128)) = []) as ->
        by (apply nil_length_inv; rewrite length_bytes; lia). done.
    + rewrite firstn_all2 by (rewrite length_bytes; lia). rewrite <- foldl_app, Z.add_assoc, <- bytes_app by lia.
      do 2 f_equal. lia.
  - intros Hr Hlim. apply Hr'; [done|]. by rewrite (proj1 (proj2 Hs)).
Qed.

(** Loading header [i] of an image finds the [i]-th segment of its layout. *)
Lemma load_segment_spec i src h hdr0 offs0 s :
  reader_ok s -> 0 <= i < segment_count h -> 0 <= src -> src + 24 <= flash_limit s ->
  wp (esp_image_load_segment_header i src h hdr0 offs0) (fun r s' =>
    let '(err, hdr, offs) := r in
    let l := layout (flash_view s) (Z.to_nat (segment_count h)) (u32 (src + 24)) in
    same_flash s s'
    /\ (err = ESP_OK -> l !! Z.to_nat i = Some (offs, hdr) /\ Forall seg_ok (take (Z.to_nat (i + 1)) l)
                         /\ offs <= flash_limit s)
    /\ (reliable -> Forall seg_ok l -> u32 (src + 24) + 8 <= flash_limit s ->
        headers_in (flash_limit s) l -> err = ESP_OK)) s.
Proof.
  intros Hok Hi Hsrc Hs24. pose proof (flash_limit_16MB s Hok). unfold esp_image_load_segment_header. case_test; [lia|].
  replace (Z.to_nat (i + 1)) with (Datatypes.S (Z.to_nat i)) by lia.
  wp_step. eapply wp_mono; [apply segment_loop_spec; [done|apply u32_range|rewrite u32_small by lia; lia]|].
  intros [[err hdr] offs] s' (Hs & Hok' & Hrel).
  set (l := layout (flash_view s) (Z.to_nat (segment_count h)) (u32 (src + 24))).
  assert (Hl : layout (flash_view s) (Datatypes.S (Z.to_nat i)) (u32 (src + 24)) = take (Datatypes.S (Z.to_nat i)) l)
    by (apply layout_take; lia).
  assert (Hlen : length l = Z.to_nat (segment_count h)) by apply length_layout.
  rewrite Hl in *. case_test.
  - wp_step. split; [done|]. split; [done|]. intros Hr Hsg Hlim Hh.
    apply Hrel; try done; by apply Forall_take.
  - wp_step. split; [done|]. split; [|done]. intros Herr. destruct (Hok' Herr) as (H1 & H2 & H3). split; [|done].
    rewrite last_lookup, length_take, lookup_take_lt in H1 by lia. rewrite <- H1. f_equal. lia.
Qed.

(** The blocks the checksum reads of a segment lie inside the chip. *)
Definition data_in (limit : Z) (l : list (Z * esp_image_segment_header_t)) : Prop :=
  Forall (fun seg => fst seg + (data_len (snd seg) + 127) / 128 * 128 <= limit) l.

Lemma layout_offs v n a k offs hdr : layout v n a !! k = Some (offs, hdr) -> 0 <= offs < 2 ^ 32.
Proof.
  revert a k. induction n as [|n IH]; intros a k H; [done|]. destruct k as [|k]; [|cbn in H; eapply IH, H].
  cbn in H. injection H as <- _. apply u32_range.
Qed.

Lemma segments_loop_spec n i src h c buf hdr0 offs0 s :
  reader_ok s -> length buf = 128%nat -> 0 <= i -> i + Z.of_nat n = segment_count h ->
  0 <= src -> src + 24 <= flash_limit s ->
  wp (segments_loop n i src h c buf hdr0 offs0) (fun r s' =>
    let '(err, c', buf', hdr, offs) := r in
    let l := layout (flash_view s) (Z.to_nat (segment_count h)) (u32 (src + 24)) in
    same_flash s s' /\ length buf' = 128%nat
    /\ (err = ESP_OK ->
        c' = foldl Z.lxor c (concat (seg_data (flash_view s) <$> drop (Z.to_nat i) l))
        /\ (offs, hdr) = (if decide (n = 0%nat) then (offs0, hdr0) else default (offs0, hdr0) (last l))
        /\ (n <> 0%nat -> Forall seg_ok l))
    /\ (reliable -> Forall seg_ok l -> u32 (src + 24) + 8 <= flash_limit s ->
        headers_in (flash_limit s) l -> data_in (flash_limit s) l -> err = ESP_OK)) s.
Proof.
  revert i c buf hdr0 offs0 s. induction n as [|n IH]; intros i c buf hdr0 offs0 s Hok Hbuf Hi Hn Hsrc Hs24;
    cbn [segments_loop].
  { wp_step. split; [done|]. split; [done|]. split; [|done]. intros _.
    rewrite drop_ge by (rewrite length_layout; lia). done. }
  set (l := layout (flash_view s) (Z.to_nat (segment_count h)) (u32 (src + 24))).
  assert (Hlen : length l = Z.to_nat (segment_count h)) by apply length_layout.
  wp_step. eapply wp_mono; [apply load_segment_spec; [done|lia|done|done]|].
  intros [[err hdr] offs] s1 (Hs & Hok1 & Hrel1). fold l in Hok1, Hrel1.
  destruct (Z.eqb_spec err ESP_OK) as [->|Hne]; cbn [negb].
  2: { wp_step. split; [done|]. split; [done|]. split; [done|]. intros Hr H1 H2 H3 H4. by apply Hrel1. }
  destruct (Hok1 eq_refl) as (Hlook & Hsg & Hoffs).
  assert (Hseg : seg_ok (offs, hdr)).
  { apply (Forall_lookup_1 _ _ (Z.to_nat i) _ Hsg). rewrite lookup_take_lt by lia. exact Hlook. }
  pose proof (layout_offs _ _ _ _ _ _ Hlook) as Ho. destruct Hseg as [_ Hlt]. cbn in Hlt. change SIXTEEN_MB with (2 ^ 24) in Hlt.
  wp_step. eapply wp_mono.
  { apply checksum_loop_spec; [apply Hs|done|lia|done|rewrite (proj1 (proj2 Hs)); lia|done|].
    pose proof (Z.div_mod (data_len hdr + 127) 128 ltac:(lia)).
    pose proof (Z.mod_pos_bound (data_len hdr + 127) 128 ltac:(lia)). lia. }
  intros [[err c1] buf1] s2 (Hs2 & Hb2 & Hc2 & Hrel2). rewrite (same_bytes s s1) in Hc2 by done.
  rewrite (proj1 (proj2 Hs)) in Hrel2. rewrite Z.add_0_r, Z.sub_0_r in Hc2.
  assert (Hdata : data_in (flash_limit s) l -> offs + (data_len hdr + 127) / 128 * 128 <= flash_limit s).
  { intros Hd. apply (Forall_lookup_1 _ _ _ _ Hd Hlook). }
  destruct (Z.eqb_spec err ESP_OK) as [->|Hne]; cbn [negb].
  2: { wp_step. split; [by transitivity s1|]. split; [done|]. split; [done|]. auto. }
  eapply wp_mono; [apply (IH (i + 1) c1 buf1 hdr offs s2);
    [apply Hs2|done|lia|lia|done|rewrite (proj1 (proj2 Hs2)), (proj1 (proj2 Hs)); done]|].
  intros [[[[err c'] buf'] hdr'] offs'] s' (Hs' & Hb' & Hok' & Hrel').
  assert (H02 : same_flash s s2) by (by transitivity s1).
  rewrite (same_layout s s2) in Hok', Hrel' by done. fold l in Hok', Hrel'.
  rewrite (proj1 (proj2 H02)) in Hrel'. split; [by transitivity s2|]. split; [done|]. split; [|done].
  intros Herr. destruct (Hok' Herr) as (E1 & E2 & E3). rewrite E1, (Hc2 eq_refl).
  rewrite (drop_S l (offs, hdr) (Z.to_nat i)) by done.
  assert (Hview : seg_data (flash_view s2) <$> drop (Z.to_nat (i + 1)) l
                  = seg_data (flash_view s) <$> drop (Z.to_nat (i + 1)) l).
  { apply list_fmap_ext. intros k seg _. unfold seg_data. by apply same_bytes. }
  rewrite Hview. cbn [fmap list_fmap concat]. rewrite foldl_app.
  replace (Z.to_nat (i + 1)) with (Datatypes.S (Z.to_nat i)) by lia. split; [done|].
  destruct (decide (n = 0%nat)) as [->|Hn0].
  - split; [|intros _; revert Hsg; rewrite firstn_all2 by lia; done].
    cbn. rewrite last_lookup. replace (Init.Nat.pred (length l)) with (Z.to_nat i) by lia. by rewrite Hlook.
  - split; [|intros _; by apply E3]. cbn. rewrite E2.
    destruct (last l) eqn:El; [done|]. apply last_None in El. rewrite El in Hlen. cbn in Hlen. lia.
Qed.

Lemma load_header_spec src s :
  reader_ok s -> 0 <= src -> src + 24 < 2 ^ 32 ->
  wp (esp_image_load_header src) (fun r s' =>
    same_flash s s'
    /\ (fst r = ESP_OK -> src + 24 <= flash_limit s /\ flash_view s src = ESP_IMAGE_HEADER_MAGIC
                          /\ segment_count (snd r) = flash_view s (src + 1))
    /\ (reliable -> src + 24 <= flash_limit s -> flash_view s src = ESP_IMAGE_HEADER_MAGIC -> fst r = ESP_OK)) s.
Proof.
  intros Hok Hsrc Hs24. unfold esp_image_load_header. wp_step.
  eapply wp_mono; [apply flash_read_spec; [done|done|by rewrite length_replicate]|].
  intros [err b] s1 (Hs & Hl & Hb & Hrel). cbn [fst snd] in *. rewrite length_replicate in Hb, Hrel.
  change (Z.of_nat 24) with 24 in *. wp_step. split; [done|].
  destruct (Z.eqb_spec err ESP_OK) as [->|Hne]; cbn [andb].
  2: { rewrite (proj2 (Z.eqb_neq _ _) Hne). cbn [negb fst snd]. split; [done|]. intros Hr Hlim _. by apply Hrel. }
  destruct (Hb eq_refl) as [Hlim ->].
  assert (Hmag : magic (decode_header (bytes (flash_view s) src 24)) = flash_view s src)
    by (cbn [decode_header magic]; rewrite at_bytes, Z.add_0_r by lia; done).
  rewrite Hmag. destruct (Z.eqb_spec (flash_view s src) ESP_IMAGE_HEADER_MAGIC) as [E|E]; cbn [negb].
  - split; [|done]. intros _. split; [done|]. split; [done|]. cbn [Z.eqb negb ESP_OK snd].
    cbn [decode_header segment_count]. rewrite at_bytes by lia. done.
  - split; [done|]. intros _ _ ?. done.
Qed.

(** The last step: comparing the checksum byte at the end of the padded image
    ending at [e]. *)
Lemma checksum_block_spec s s2 src c buf e :
  reader_ok s -> same_flash s s2 -> length buf = 128%nat -> 0 <= src <= flash_limit s -> src <= e < src + 2 ^ 24 ->
  let len := e - src + 16 - (e - src + 16) mod 16 in
  wp (r ← flash_read (u32 (src + len - 16)) (take 16 buf);
      let buf := snd r ++ drop 16 buf in
      if negb (c =? at_ 0 buf 15) then mret (ESP_ERR_IMAGE_INVALID, 0) else mret (ESP_OK, len))
     (fun r s' => same_flash s s' /\ (fst r = ESP_OK -> snd r = len)
        /\ (reliable -> src + len <= flash_limit s -> (fst r = ESP_OK <-> c = flash_view s (src + len - 1)))) s2.
Proof.
  intros Hok H02 Hbuf Hsrc He len. pose proof (flash_limit_16MB s Hok). pose proof (Z.mod_pos_bound (e - src + 16) 16 ltac:(lia)).
  pose proof (Z.div_mod (e - src + 16) 16 ltac:(lia)).
  assert (Hlen : 16 <= len /\ src + len < 2 ^ 32) by (subst len; lia). clearbody len.
  assert (Htk : length (take 16 buf) = 16%nat) by (rewrite length_take; lia).
  rewrite u32_small by lia. wp_step. eapply wp_mono; [apply flash_read_spec; [apply H02|lia|lia]|].
  intros [err b] s3 (Hs3 & Hl3 & Hb3 & Hrel3). cbn [fst snd] in *. rewrite Htk in *.
  change (Z.of_nat 16) with 16 in *. rewrite (proj1 (proj2 H02)) in *.
  rewrite at_app by lia. rewrite Hl3. change (15 <? Z.of_nat 16) with true. cbv iota.
  assert (Hat : reliable -> src + len <= flash_limit s -> at_ 0 b 15 = flash_view s (src + len - 1)).
  { intros Hr Hin. destruct (Hb3 (Hrel3 Hr ltac:(lia))) as [_ ->].
    rewrite at_bytes by lia. destruct H02 as (_ & _ & -> & _). f_equal. lia. }
  destruct (Z.eqb_spec c (at_ 0 b 15)) as [E|E]; cbn [negb]; wp_step; cbn [fst snd];
    (split; [by transitivity s2|]); (split; [done|]); intros Hr Hin; rewrite <- (Hat Hr Hin); naive_solver.
Qed.

(** The conditions under which no read of the verification leaves the chip. *)
Record image_fits (s : S) (src len : Z) : Prop := {
  if_header : src + 32 <= flash_limit s;
  if_headers : headers_in (flash_limit s) (segments (flash_view s) src);
  if_data : data_in (flash_limit s) (segments (flash_view s) src);
  if_end : src + len <= flash_limit s
}.

Lemma basic_verify_spec src s :
  reader_ok s -> 0 <= src -> src + 24 < 2 ^ 32 ->
  wp (esp_image_basic_verify src) (fun r s' =>
    same_flash s s'
    /\ (reliable -> fst r = ESP_OK -> src + snd r <= flash_limit s -> image_valid (flash_view s) src (snd r))
    /\ (reliable -> forall len, image_valid (flash_view s) src len -> image_fits s src len -> r = (ESP_OK, len))) s.
Proof.
  intros Hok Hsrc Hs24. pose proof (flash_limit_16MB s Hok) as Hlim16. unfold esp_image_basic_verify. wp_step.
  eapply wp_mono; [by apply load_header_spec|]. intros [err h] s1 (Hs1 & Hok1 & Hrel1). cbn [fst snd] in *.
  destruct (Z.eqb_spec err ESP_OK) as [->|Hne]; cbn [negb].
  2: { wp_step. split; [done|]. split; [done|]. intros Hr len Hv [F1 F2 F3 F4]. destruct Hne. apply Hrel1; [done|lia|].
       apply Hv. }
  destruct (Hok1 eq_refl) as (Hh & Hmagic & Hcount). pose proof (flash_view_byte s (src + 1)).
  wp_step. eapply wp_mono; [apply segments_loop_spec;
    [apply Hs1|apply length_replicate|lia|lia|done|rewrite (proj1 (proj2 Hs1)); done]|].
  intros [[[[err c] buf] hdr] offs] s2 (Hs2 & Hbuf & Hok2 & Hrel2).
  rewrite (same_layout s s1), Hcount in Hok2, Hrel2 by done. fold (segments (flash_view s) src) in Hok2, Hrel2.
  rewrite (proj1 (proj2 Hs1)) in Hrel2. rewrite (u32_small (src + 24)) in Hrel2 by lia.
  assert (H02 : same_flash s s2) by (by transitivity s1).
  destruct (Z.eqb_spec err ESP_OK) as [->|Hne]; cbn [negb].
  2: { wp_step. split; [done|]. split; [done|]. intros Hr len Hv [F1 F2 F3 F4]. destruct Hne.
       apply Hrel2; try done; [apply Hv|lia]. }
  destruct (Hok2 eq_refl) as (E1 & E2 & E3). clear Hok2 Hrel2.
  assert (Hend : u32 (offs + data_len hdr) = image_end (flash_view s) src).
  { unfold image_end. revert E2. destruct (decide (Z.to_nat (flash_view s (src + 1)) = 0%nat)) as [Hz|Hnz].
    - intros [= -> ->]. unfold segments. rewrite Hz. done.
    - destruct (last (segments (flash_view s) src)) as [[o hd]|] eqn:El; by intros [= -> ->]. }
  assert (Hsegs : Forall seg_ok (segments (flash_view s) src)).
  { destruct (decide (Z.to_nat (flash_view s (src + 1)) = 0%nat)) as [Hz|Hnz]; [|by apply E3].
    unfold segments. rewrite Hz. constructor. }
  assert (Hck : c = foldl Z.lxor ESP_ROM_CHECKSUM_INITIAL (concat (seg_data (flash_view s) <$> segments (flash_view s) src))).
  { rewrite E1. do 2 f_equal. apply list_fmap_ext. intros k seg _. unfold seg_data. by apply same_bytes. }
  pose proof (u32_range (offs + data_len hdr)) as He. rewrite Hend in *.
  case_test; [wp_step; split; [done|]; split; [done|]; intros _ len [] _; lia|].
  case_test; [wp_step; split; [done|]; split; [done|]; intros _ len [] _; lia|].
  change SIXTEEN_MB with (2 ^ 24) in *. eapply wp_mono; [apply (checksum_block_spec s s2 src c buf); done || lia|].
  intros [err len] s' (Hs' & Hsnd & Hcmp). split; [done|]. cbn [fst snd] in *. split.
  - intros Hr -> Hin. rewrite (Hsnd eq_refl) in *. split; try done; [change SIXTEEN_MB with (2 ^ 24); lia|].
    rewrite <- Hck. by apply (Hcmp Hr Hin).
  - intros Hr len' Hv [F1 F2 F3 F4]. pose proof (iv_len _ _ _ Hv) as El. rewrite <- El in Hcmp.
    destruct (Hcmp Hr F4) as [_ Hc]. rewrite El in Hc. specialize (Hc ltac:(rewrite <- El, Hck; apply Hv)).
    by rewrite (Hsnd Hc), Hc, El.
Qed.

(** C34: image verification always returns and leaves the flash alone. On a
    chip whose reads do not fail, an image it accepts and that ends inside the
    chip is well formed, has the reported length and carries the xor of its
    segment data as checksum; and conversely every well-formed image whose
    headers and 128-byte blocks lie inside the chip is accepted with its
    length. (A read of the checksum block that fails goes unnoticed,
    esp_image_format.c:176; the last block may reach beyond the end of the
    chip, :142.) *)
Theorem image_verify_correct src s :
  reader_ok s -> 0 <= src -> src + 24 < 2 ^ 32 ->
  exists err len s', esp_image_basic_verify src s = Ret ((err, len), s')
    /\ same_flash s s'
    /\ (reliable -> err = ESP_OK -> src + len <= flash_limit s -> image_valid (flash_view s) src len)
    /\ (reliable -> forall l, image_valid (flash_view s) src l -> image_fits s src l -> err = ESP_OK /\ len = l).
Proof.
  intros Hok H0 H1. destruct (wp_inv _ _ _ (basic_verify_spec src s Hok H0 H1)) as ([err len] & s' & Hrun & H2 & H3 & H4).
  exists err, len, s'. split_and!; try done. intros Hr l Hv Hf. by injection (H4 Hr l Hv Hf) as -> ->.
Qed.

End Reading.

(** ** The partition table *)

(** Entry [k] of a table, and what the check asks of it. *)
Definition entry (table : list Z) (k : nat) : Partition.esp_partition_info_t :=
  Partition.decode_info (drop (32 * k) table).

Definition is_end (i : Partition.esp_partition_info_t) : Prop :=
  Partition.i_magic i = 0xFFFF /\ Partition.i_type i = PART_TYPE_END /\ Partition.i_subtype i = PART_SUBTYPE_END.

Definition entry_ok (chip_size : Z) (i : Partition.esp_partition_info_t) : Prop :=
  Partition.i_magic i = Partition.ESP_PARTITION_MAGIC
  /\ Partition.i_offset i <= chip_size /\ u32 (Partition.i_offset i + Partition.i_size i) <= chip_size.

Lemma end_not_ok c i : is_end i -> ~ entry_ok c i.
Proof. intros (E & _) (F & _). rewrite E in F. discriminate F. Qed.

Lemma table_loop_spec n c num table k :
  table_verify_loop n c num table = (ESP_OK, num + Z.of_nat k)
  <-> (k < n)%nat /\ is_end (entry table k) /\ forall j, (j < k)%nat -> entry_ok c (entry table j).
Proof.
  revert num table k. induction n as [|n IH]; intros num table k; cbn [table_verify_loop].
  { split; [done|lia]. }
  change (Partition.decode_info table) with (entry table 0).
  assert (Hd : forall j, entry (drop 32 table) j = entry table (S j)).
  { intros j. unfold entry. rewrite drop_drop. do 2 f_equal. lia. }
  destruct (_ && _ && _) eqn:Ee.
  - apply andb_true_iff in Ee as [[E1%Z.eqb_eq E2%Z.eqb_eq]%andb_true_iff E3%Z.eqb_eq].
    destruct k as [|k]; [split; [|by rewrite Z.add_0_r]; intros _; split_and!; done || lia|].
    split; [intros [= H]; lia|]. intros (_ & _ & H). by destruct (end_not_ok c (entry table 0) ltac:(done) (H 0%nat ltac:(lia))).
  - assert (Hne : ~ is_end (entry table 0)).
    { intros (E1 & E2 & E3). rewrite E1, E2, E3 in Ee. done. }
    destruct (negb _) eqn:Em.
    { split; [done|]. apply negb_true_iff, Z.eqb_neq in Em. intros (_ & He & H).
      destruct k as [|k]; [done|]. destruct (H 0%nat ltac:(lia)) as [? _]. done. }
    apply negb_false_iff, Z.eqb_eq in Em.
    destruct (_ || _) eqn:Er.
    { split; [done|]. intros (_ & He & H). destruct k as [|k]; [done|].
      destruct (H 0%nat ltac:(lia)) as (_ & H1 & H2). apply orb_true_iff in Er as [Er%Z.ltb_lt|Er%Z.ltb_lt]; lia. }
    apply orb_false_iff in Er as [E1%Z.ltb_ge E2%Z.ltb_ge]. destruct k as [|k].
    { split; [|by intros (_ & ? & _)]. intros H. exfalso. clear -H.
      assert (Hlow : forall n c num table m, table_verify_loop n c num table = (ESP_OK, m) -> num <= m).
      { clear. induction n as [|n IH]; intros c num table m; cbn [table_verify_loop]; [done|].
        repeat case_match; try done; [by intros [= ->]|]. intros Hr%IH. lia. }
      apply Hlow in H. lia. }
    replace (num + Z.of_nat (S k)) with (num + 1 + Z.of_nat k) by lia. rewrite IH, Hd.
    split; intros (H1 & H2 & H3); (split; [lia|]); (split; [done|]); intros j Hj.
    + destruct j as [|j]; [done|]. rewrite <- Hd. apply H3. lia.
    + rewrite Hd. apply H3. lia.
Qed.

Lemma read_entries_upto enc m table k :
  (k < m)%nat -> Partition.i_magic (entry table k) <> Partition.ESP_PARTITION_MAGIC ->
  (forall j, (j < k)%nat -> Partition.i_magic (entry table j) = Partition.ESP_PARTITION_MAGIC) ->
  Partition.read_entries enc m table = Partition.list_item enc <$> (entry table <$> seq 0 k).
Proof.
  revert m table. induction k as [|k IH]; intros m table Hk Hend Hall; (destruct m as [|m]; [lia|]);
    cbn [Partition.read_entries]; change (Partition.decode_info table) with (entry table 0).
  { by rewrite (proj2 (Z.eqb_neq _ _) Hend). }
  assert (Hd : forall j, entry (drop 32 table) j = entry table (S j)).
  { intros j. unfold entry. rewrite drop_drop. do 2 f_equal. lia. }
  rewrite (Hall 0%nat) by lia. rewrite Z.eqb_refl. cbn [negb].
  rewrite (IH m (drop 32 table)); [|lia|by rewrite Hd|intros j Hj; rewrite Hd; apply Hall; lia].
  cbn [seq]. rewrite !fmap_cons. f_equal. rewrite <- fmap_S_seq. f_equal.
  rewrite <- list_fmap_compose. apply list_fmap_ext. intros i x _. apply Hd.
Qed.

(** The boot loader accepts a partition table with [n] entries exactly when
    entry [n] (below the limit of 96) is the terminator and the [n] entries
    before it have the magic number and end inside the chip (in 32-bit
    arithmetic); the application's loader then lists exactly these [n]
    entries. *)
Theorem table_verify_correct chip_size table n :
  (esp_partition_table_basic_verify chip_size table = (ESP_OK, Z.of_nat n)
   <-> (n < ESP_PARTITION_TABLE_MAX_ENTRIES)%nat /\ is_end (entry table n)
       /\ forall j, (j < n)%nat -> entry_ok chip_size (entry table j))
  /\ (esp_partition_table_basic_verify chip_size table = (ESP_OK, Z.of_nat n) ->
      forall enc, Partition.read_entries enc (Z.to_nat (FlashOps.SPI_FLASH_SEC_SIZE / 32)) table
                  = Partition.list_item enc <$> (entry table <$> seq 0 n)).
Proof.
  pose proof (table_loop_spec ESP_PARTITION_TABLE_MAX_ENTRIES chip_size 0 table n) as H.
  rewrite Z.add_0_l in H. fold (esp_partition_table_basic_verify chip_size table) in H.
  split; [exact H|]. intros Hv enc. destruct (proj1 H Hv) as (H1 & H2 & H3). apply read_entries_upto.
  - change (Z.to_nat (FlashOps.SPI_FLASH_SEC_SIZE / 32)) with 128%nat. unfold ESP_PARTITION_TABLE_MAX_ENTRIES in H1. lia.
  - destruct H2 as [-> _]. done.
  - intros j Hj. apply (H3 j Hj).
Qed.


(** ** The reader of applications (bootloader_flash.c) *)

Section App.
Import FlashMmap FlashOps Partition.
Context {W : Type} `{!RomFlash W} `{!RomLaws W}.

(** [dsti] is the address of [dest]. *)
Definition bootloader_flash_read (malloc_ok : bool) (src dsti : Z) (dest : list Z) (allow_decrypt : bool) :
    M (part_state W) (esp_err_t * list Z) :=
  s ← get;
  if allow_decrypt && flash_encryption_enabled s then
    r ← on_fl (spi_flash_read_encrypted malloc_ok src (Z.of_nat (length dest)));
    mret (fst r, default dest (snd r))
  else on_fl (spi_flash_read src dsti dest).

(** The image code's buffers are on the stack, at some address. *)
#[export] Instance app_reader (malloc_ok : bool) (dsti : Z) : FlashReader (part_state W) := {|
  flash_read src dest := bootloader_flash_read malloc_ok src dsti dest true;
  flash_view s := content (chip (fl s));
  flash_limit s := chip_size (mmu s);
  reader_ok s := flash_encryption_enabled s = false /\ chip_size (mmu s) <= 2 ^ 24;
  reader_frame s s' := mmu s' = mmu s /\ s_partition_list s' = s_partition_list s
                       /\ flash_encryption_enabled s' = flash_encryption_enabled s;
  reliable := rom_reliable (W := W)
|}.

(** Without flash encryption the reader keeps what the image code relies on. *)
#[export] Instance app_reader_laws malloc_ok dsti :
  @FlashReaderLaws (part_state W) (app_reader malloc_ok dsti).
Proof.
  split.
  - intros src dest s [Henc Hsz] H0 H1. cbn [flash_read app_reader]. unfold bootloader_flash_read.
    do 2 wp_step. rewrite Henc. cbn [andb].
    destruct (wp_inv _ _ _ (read_spec (fl s) src dsti dest H0 H1))
      as ([err b] & f & Hrun & Hok & Hl & (Hm & Hg & Hc) & Hrel). cbn [fst snd] in *.
    eapply (wp_run _ (err, b)); [unfold on_fl; by rewrite Hrun|].
    unfold read_promise, same_flash, mmu in *. 
    cbn [flash_view flash_limit reader_ok reader_frame app_reader fl flash_encryption_enabled s_partition_list fst snd].
    unfold mmu. cbn [fl]. rewrite Hm. split_and!; try done. intros Herr. destruct (Hok Herr) as [Hin Hb].
    split; [done|]. apply (at_ext 0); [rewrite length_bytes; lia|]. intros i Hi. rewrite Hl in Hi.
    by rewrite at_bytes, Hb by lia.
  - by intros s [_ H].
  - intros s a. apply rom_byte.
  - split; [by intros s|]. intros a b c (A1 & A2 & A3) (B1 & B2 & B3). cbn. split_and!; congruence.
Qed.

End App.

(** ** Instances *)

(** A one-segment image of 48 bytes at 0x10000. *)
Definition ex_image : list Z :=
  [0xE9; 1; 2; 0x20; 0; 0; 8; 0x40] ++ replicate 16 0
  ++ [0; 0; 0xFB; 0x3F; 4; 0; 0; 0] ++ [1; 2; 3; 4] ++ replicate 11 0 ++ [0xEB].

Definition ex_flash : Partition.part_state (list FlashOps.nor_op) :=
  Partition.PartState
    (FlashOps.set_chip [FlashOps.NorWrite 0x10000 ex_image; FlashOps.NorErase 0x10000 4096] FlashOps.ex_state)
    [] false.

#[local] Existing Instances FlashOps.ideal_rom FlashOps.ideal_laws.

#[local] Instance ex_reader : FlashReader (Partition.part_state (list FlashOps.nor_op)) :=
  app_reader true 0x3FFB0000.

Lemma image_verify_correct_witness :
  exists s', esp_image_basic_verify 0x10000 ex_flash = Ret ((ESP_OK, 48), s').
Proof.
  destruct (@image_verify_correct _ ex_reader (app_reader_laws true 0x3FFB0000) 0x10000 ex_flash)
    as (err & len & s' & Hrun & _ & _ & Hok); [split; [reflexivity|vm_compute; congruence]|lia|lia|].
  destruct (Hok ltac:(intros src n w; reflexivity) 48) as [-> ->].
  - split; [vm_compute; reflexivity| |vm_compute; split; congruence|vm_compute; reflexivity|vm_compute; reflexivity].
    repeat constructor.
  - split; [vm_compute; congruence| | |vm_compute; congruence]; repeat constructor; vm_compute; congruence.
  - exists s'. exact Hrun.
Defined.

Definition ex_table : list Z := Partition.encode_info Partition.ex_info ++ replicate 3040 255.

Lemma table_verify_correct_witness :
  Partition.read_entries false (Z.to_nat (FlashOps.SPI_FLASH_SEC_SIZE / 32)) ex_table
  = [Partition.list_item false (entry ex_table 0)].
Proof.
  destruct (table_verify_correct 0x400000 ex_table 1) as [_ H].
  apply H. vm_compute. reflexivity.
Defined.

(** A partition whose end wraps around passes the check against the chip size. *)
Example table_verify_wraps :
  esp_partition_table_basic_verify 0x400000
    (Partition.encode_info (Partition.PartInfo Partition.ESP_PARTITION_MAGIC 1 2 0x9000 0xFFFFF000 (replicate 16 0) 0)
     ++ replicate 3040 255) = (ESP_OK, 1).
Proof. vm_compute. reflexivity. Qed.

End Image.
