(* ===== verification/Ota.v ===== *)
(** * Over-the-air updates (components/app_update/esp_ota_ops.c)

    The state is the partition API's plus the list of open updates, the last
    handle, the two cached copies of the OTA data ([s_ota_select]) and the
    static mapping handle of [esp_ota_get_boot_partition].  A pointer to a
    partition of the loaded table is the partition itself, so comparing
    pointers is comparing records.  What the code takes from outside is an
    [env]: the CRC routine in ROM, the address of
    [esp_ota_get_running_partition], the addresses of its buffers and the
    outcome of its allocations.  Secure boot is not configured. *)

From S2P Require Import Prelude FlashMmap FlashOps Partition Image.

#[local] Open Scope Z_scope.

Module Ota.
Import FlashMmap FlashOps Partition.

Definition OTA_SIZE_UNKNOWN : Z := 0xffffffff.
Definition ESP_ERR_OTA_BASE : esp_err_t := 0x1500.
Definition ESP_ERR_OTA_PARTITION_CONFLICT : esp_err_t := ESP_ERR_OTA_BASE + 1.
Definition ESP_ERR_OTA_VALIDATE_FAILED : esp_err_t := ESP_ERR_OTA_BASE + 3.
Definition ESP_PARTITION_TYPE_APP : Z := 0x00.
Definition ESP_PARTITION_TYPE_DATA : Z := 0x01.
Definition ESP_PARTITION_SUBTYPE_APP_FACTORY : Z := 0x00.
Definition ESP_PARTITION_SUBTYPE_APP_OTA_MIN : Z := 0x10.
Definition ESP_PARTITION_SUBTYPE_APP_OTA_0 : Z := ESP_PARTITION_SUBTYPE_APP_OTA_MIN + 0.
Definition ESP_PARTITION_SUBTYPE_APP_OTA_MAX : Z := ESP_PARTITION_SUBTYPE_APP_OTA_MIN + 16.
Definition ESP_PARTITION_SUBTYPE_DATA_OTA : Z := 0x00.

Definition OTA_MAX (a b : Z) : Z := if b <=? a then a else b.
Definition OTA_MIN (a b : Z) : Z := if a <=? b then a else b.
Definition SUB_TYPE_ID (i : Z) : Z := Z.land i 0x0F.

Record ota_ops_entry_t := OtaEntry {
  o_handle : Z; o_part : esp_partition_t; erased_size : Z; wrote_size : Z;
  partial_bytes : Z; partial_data : list Z
}.

Record ota_select := OtaSelect { ota_seq : Z; seq_label : list Z; crc : Z }.

(** The 32 bytes of an [ota_select] in memory. *)
Definition decode_select (b : list Z) : ota_select :=
  OtaSelect (le_decode (slice b 0 4)) (slice b 4 24) (le_decode (slice b 28 4)).
Definition encode_select (s : ota_select) : list Z :=
  le_encode 4 (ota_seq s) ++ seq_label s ++ le_encode 4 (crc s).

Record env := Env {
  crc32_le : Z -> list Z -> Z;
  self_addr : Z;            (* of esp_ota_get_running_partition *)
  buf_addr : Z;             (* of the data handed to the flash functions *)
  malloc_ok : bool;
  junk : list Z             (* of uninitialised buffers *)
}.

Definition is_ota_partition (p : esp_partition_t) : bool :=
  (p_type p =? ESP_PARTITION_TYPE_APP)
  && (ESP_PARTITION_SUBTYPE_APP_OTA_0 <=? p_subtype p)
  && (p_subtype p <? ESP_PARTITION_SUBTYPE_APP_OTA_MAX).

Fixpoint find_entry (h : Z) (l : list ota_ops_entry_t) : option ota_ops_entry_t :=
  match l with
  | [] => None
  | e :: l => if o_handle e =? h then Some e else find_entry h l
  end.

(** Assignment through the pointer to the entry with the handle. *)
Fixpoint update_entry (h : Z) (f : ota_ops_entry_t -> ota_ops_entry_t) (l : list ota_ops_entry_t) :
    list ota_ops_entry_t :=
  match l with
  | [] => []
  | e :: l => if o_handle e =? h then f e :: l else e :: update_entry h f l
  end.

(** [LIST_REMOVE] *)
Fixpoint remove_entry (h : Z) (l : list ota_ops_entry_t) : list ota_ops_entry_t :=
  match l with
  | [] => []
  | e :: l => if o_handle e =? h then l else e :: remove_entry h l
  end.

Definition set_wrote (n : Z) (e : ota_ops_entry_t) : ota_ops_entry_t :=
  OtaEntry (o_handle e) (o_part e) (erased_size e) n (partial_bytes e) (partial_data e).
Definition set_partial (n : Z) (d : list Z) (e : ota_ops_entry_t) : ota_ops_entry_t :=
  OtaEntry (o_handle e) (o_part e) (erased_size e) (wrote_size e) n d.

Section Ota.
Context {W : Type} `{RomFlash W} (E : env).

Record ota_state := OtaState {
  op : part_state W;
  s_ota_ops_entries : list ota_ops_entry_t;
  s_ota_ops_last_handle : Z;
  sel0 : ota_select;      (* s_ota_select[0] *)
  sel1 : ota_select;      (* s_ota_select[1] *)
  ota_data_map : Z        (* of esp_ota_get_boot_partition *)
}.

Definition set_op (p : part_state W) (s : ota_state) : ota_state :=
  OtaState p (s_ota_ops_entries s) (s_ota_ops_last_handle s) (sel0 s) (sel1 s) (ota_data_map s).
Definition set_entries (l : list ota_ops_entry_t) (s : ota_state) : ota_state :=
  OtaState (op s) l (s_ota_ops_last_handle s) (sel0 s) (sel1 s) (ota_data_map s).
Definition set_select (a b : ota_select) (s : ota_state) : ota_state :=
  OtaState (op s) (s_ota_ops_entries s) (s_ota_ops_last_handle s) a b (ota_data_map s).
Definition set_map (h : Z) (s : ota_state) : ota_state :=
  OtaState (op s) (s_ota_ops_entries s) (s_ota_ops_last_handle s) (sel0 s) (sel1 s) h.

Definition on_part {A} (m : M (part_state W) A) : M ota_state A := fun s =>
  match m (op s) with
  | Ret (a, p) => Ret (a, set_op p s)
  | Stuck e => Stuck e
  end.

Definition with_entry (h : Z) (f : ota_ops_entry_t -> ota_ops_entry_t) : M ota_state unit :=
  modify (fun s => set_entries (update_entry h f (s_ota_ops_entries s)) s).

Definition find_first (type subtype : Z) : M ota_state (option esp_partition_t) :=
  on_part (esp_partition_find_first (malloc_ok E) type subtype None).

Definition part_write (p : esp_partition_t) (off : Z) (data : list Z) : M ota_state esp_err_t :=
  on_part (esp_partition_write (malloc_ok E) (junk E) p off (buf_addr E) data).

Definition verify_image (src : Z) : M ota_state (esp_err_t * Z) :=
  on_part (@Image.esp_image_basic_verify _ (Image.app_reader (malloc_ok E) (buf_addr E)) src).

(** The loop over the application partitions, [n] being those left. *)
Fixpoint running_loop (n : nat) (phys_offs : Z) (it : option iterator) : outcome esp_partition_t :=
  match it with
  | None => Stuck Aborted
  | Some it =>
      match n with
      | O => Stuck OutOfFuel
      | S n =>
          match esp_partition_get it with
          | None => Stuck NullDeref
          | Some p =>
              if (p_address p <=? phys_offs) && (phys_offs <? u32 (p_address p + p_size p)) then Ret p
              else running_loop n phys_offs (esp_partition_next it)
          end
      end
  end.

Definition esp_ota_get_running_partition : M ota_state esp_partition_t :=
  s ← get;
  phys_offs ← lift (spi_flash_cache2phys (mmu (op s)) (self_addr E));
  check (negb (phys_offs =? SPI_FLASH_CACHE2PHYS_FAIL));;
  it ← on_part (esp_partition_find (malloc_ok E) ESP_PARTITION_TYPE_APP ESP_PARTITION_SUBTYPE_ANY None);
  check (match it with Some _ => true | None => false end);;
  s ← get;
  lift (running_loop (S (length (s_partition_list (op s)))) phys_offs it).

(** [None] is a null [partition]; the result carries [*out_handle]. *)
Definition esp_ota_begin (partition : option esp_partition_t) (image_size : Z) :
    M ota_state (esp_err_t * option Z) :=
  match partition with
  | None => mret (ESP_ERR_INVALID_ARG, None)
  | Some partition =>
      partition ← on_part (esp_partition_verify (malloc_ok E) partition);
      match partition with
      | None => mret (ESP_ERR_NOT_FOUND, None)
      | Some partition =>
          if negb (is_ota_partition partition) then mret (ESP_ERR_INVALID_ARG, None)
          else
            running ← esp_ota_get_running_partition;
            if bool_decide (partition = running) then mret (ESP_ERR_OTA_PARTITION_CONFLICT, None)
            else
              let whole := (image_size =? 0) || (image_size =? OTA_SIZE_UNKNOWN) in
              ret ← on_part (esp_partition_erase_range partition 0
                      (if whole then p_size partition
                       else u32 ((image_size / SPI_FLASH_SEC_SIZE + 1) * SPI_FLASH_SEC_SIZE)));
              if negb (ret =? ESP_OK) then mret (ret, None)
              else if negb (malloc_ok E) then mret (ESP_ERR_NO_MEM, None)
              else
                s ← get;
                let h := u32 (s_ota_ops_last_handle s + 1) in
                put (OtaState (op s)
                       (OtaEntry h partition (if whole then p_size partition else image_size) 0 0 (replicate 16 0)
                          :: s_ota_ops_entries s) h (sel0 s) (sel1 s) (ota_data_map s));;
                mret (ESP_OK, Some h)
      end
  end.

(** Lines 185-189: write the remaining bytes. *)
Definition write_rest (handle : Z) (it : ota_ops_entry_t) (data : list Z) : M ota_state esp_err_t :=
  ret ← part_write (o_part it) (wrote_size it) data;
  (if ret =? ESP_OK
   then with_entry handle (fun e => set_wrote (u32 (wrote_size e + Z.of_nat (length data))) e)
   else mret tt);;
  mret ret.

(** Lines 177-183: keep the trailing bytes that fill no block of 16. *)
Definition write_blocks (handle : Z) (it : ota_ops_entry_t) (data : list Z) : M ota_state esp_err_t :=
  let size := Z.of_nat (length data) in
  let partial := size mod 16 in
  pd ← lift (if negb (partial =? 0) then blit (partial_data it) 0 (slice data (size - partial) partial)
             else Ret (partial_data it));
  with_entry handle (set_partial partial pd);;
  write_rest handle it (slice data 0 (size - partial)).

Definition esp_ota_write (handle : Z) (data : option (list Z)) : M ota_state esp_err_t :=
  match data with
  | None => mret ESP_ERR_INVALID_ARG
  | Some data_bytes =>
      s ← get;
      match find_entry handle (s_ota_ops_entries s) with
      | None => mret ESP_ERR_INVALID_ARG
      | Some it =>
          let size := Z.of_nat (length data_bytes) in
          check (0 <? erased_size it);;
          if (wrote_size it =? 0) && (0 <? size) && negb (at_ 0 data_bytes 0 =? 0xE9)
          then mret ESP_ERR_OTA_VALIDATE_FAILED
          else if flash_encryption_enabled (op s) then
            if negb (partial_bytes it =? 0) then
              let copy_len := OTA_MIN (16 - partial_bytes it) size in
              pd ← lift (blit (partial_data it) (partial_bytes it) (slice data_bytes 0 copy_len));
              let partial := u8 (partial_bytes it + copy_len) in
              with_entry handle (set_partial partial pd);;
              if negb (partial =? 16) then mret ESP_OK
              else
                ret ← part_write (o_part it) (wrote_size it) pd;
                if negb (ret =? ESP_OK) then mret ret
                else
                  let it := set_wrote (u32 (wrote_size it + 16)) (set_partial 0 (replicate 16 0xFF) it) in
                  with_entry handle (fun _ => it);;
                  write_blocks handle it (slice data_bytes copy_len (size - copy_len))
            else write_blocks handle it data_bytes
          else write_rest handle it data_bytes
      end
  end.

Definition esp_ota_end (handle : Z) : M ota_state esp_err_t :=
  s ← get;
  match find_entry handle (s_ota_ops_entries s) with
  | None => mret ESP_ERR_NOT_FOUND
  | Some it =>
      ret ← (if (erased_size it =? 0) || (wrote_size it =? 0) then mret ESP_ERR_INVALID_ARG
             else
               ret ← (if 0 <? partial_bytes it then
                        ret ← part_write (o_part it) (wrote_size it) (partial_data it);
                        if negb (ret =? ESP_OK) then mret ESP_ERR_INVALID_STATE
                        else
                          with_entry handle (fun e => set_wrote (u32 (wrote_size e + 16)) (set_partial 0 (partial_data e) e));;
                          mret ESP_OK
                      else mret ESP_OK);
               if negb (ret =? ESP_OK) then mret ret
               else
                 r ← verify_image (p_address (o_part it));
                 mret (if negb (fst r =? ESP_OK) then ESP_ERR_OTA_VALIDATE_FAILED else ESP_OK));
      modify (fun s => set_entries (remove_entry handle (s_ota_ops_entries s)) s);;
      mret ret
  end.

Definition ota_select_crc (s : ota_select) : Z := u32 (crc32_le E UINT32_MAX (le_encode 4 (ota_seq s))).

Definition ota_select_valid (s : ota_select) : bool :=
  negb (ota_seq s =? UINT32_MAX) && (crc s =? ota_select_crc s).

Definition rewrite_ota_seq (seq sec_id : Z) (ota_data_partition : esp_partition_t) : M ota_state esp_err_t :=
  if (sec_id =? 0) || (sec_id =? 1) then
    s ← get;
    let old := if sec_id =? 0 then sel0 s else sel1 s in
    let seq_set := OtaSelect seq (seq_label old) (crc old) in
    let new := OtaSelect seq (seq_label old) (ota_select_crc seq_set) in
    modify (fun s => if sec_id =? 0 then set_select new (sel1 s) s else set_select (sel0 s) new s);;
    ret ← on_part (esp_partition_erase_range ota_data_partition (sec_id * SPI_FLASH_SEC_SIZE) SPI_FLASH_SEC_SIZE);
    if negb (ret =? ESP_OK) then mret ret
    else part_write ota_data_partition (SPI_FLASH_SEC_SIZE * sec_id) (encode_select new)
  else mret ESP_ERR_INVALID_ARG.

(** The loop of [get_ota_partition_count]; at most 16 rounds pass the assertion. *)
Fixpoint count_loop (fuel : nat) (ota_app_count : Z) : M ota_state Z :=
  p ← find_first ESP_PARTITION_TYPE_APP (ESP_PARTITION_SUBTYPE_APP_OTA_MIN + ota_app_count);
  match p with
  | None => mret (u8 ota_app_count)
  | Some _ =>
      check (ota_app_count <? 16);;
      match fuel with
      | O => stuck OutOfFuel
      | S fuel => count_loop fuel (ota_app_count + 1)
      end
  end.

Definition get_ota_partition_count : M ota_state Z := count_loop 16 0.

(** [while (seq > r + i * n) i++;]: the value of [r + i * n] at the end. *)
Fixpoint seq_loop (fuel : nat) (seq r n i : Z) : outcome Z :=
  let v := u32 (r + u32 (i * n)) in
  if v <? seq then
    match fuel with
    | O => Stuck OutOfFuel
    | S fuel => seq_loop fuel seq r n (u32 (i + 1))
    end
  else Ret v.

Definition next_seq (seq subtype ota_app_count : Z) : outcome Z :=
  seq_loop (Z.to_nat (seq / ota_app_count + 1)) seq ((SUB_TYPE_ID subtype + 1) mod ota_app_count) ota_app_count 0.

(** The two copies of the OTA data, read through the mapping at [result]. *)
Definition read_selects (s : ota_state) (result : Z) : outcome (ota_select * ota_select) :=
  a ← cached_bytes (fl (op s)) result 32;
  b ← cached_bytes (fl (op s)) (result + SPI_FLASH_SEC_SIZE) 32;
  Ret (decode_select a, decode_select b).

Definition esp_rewrite_ota_data (subtype : Z) : M ota_state esp_err_t :=
  find_partition ← find_first ESP_PARTITION_TYPE_DATA ESP_PARTITION_SUBTYPE_DATA_OTA;
  match find_partition with
  | None => mret ESP_ERR_NOT_FOUND
  | Some part =>
      ota_app_count ← get_ota_partition_count;
      if ota_app_count <=? SUB_TYPE_ID subtype then mret ESP_ERR_INVALID_ARG
      else
        r ← on_part (esp_partition_mmap (malloc_ok E) part 0 (p_size part) SPI_FLASH_MMAP_DATA);
        match r with
        | (ret, out) =>
            if negb (ret =? ESP_OK) then mret ret
            else
              match out with
              | None => stuck NullDeref
              | Some (result, h) =>
                  s ← get;
                  ab ← lift (read_selects s result);
                  let '(a, b) := ab in
                  modify (set_select a b);;
                  on_part (on_fl (on_mm (spi_flash_munmap h)));;
                  if ota_select_valid a && ota_select_valid b then
                    seq ← lift (next_seq (OTA_MAX (ota_seq a) (ota_seq b)) subtype ota_app_count);
                    rewrite_ota_seq seq (if ota_seq b <=? ota_seq a then 1 else 0) part
                  else if ota_select_valid a then
                    seq ← lift (next_seq (ota_seq a) subtype ota_app_count);
                    rewrite_ota_seq seq 1 part
                  else if ota_select_valid b then
                    seq ← lift (next_seq (ota_seq b) subtype ota_app_count);
                    rewrite_ota_seq seq 0 part
                  else rewrite_ota_seq (SUB_TYPE_ID subtype + 1) 0 part
              end
        end
  end.

Definition esp_ota_set_boot_partition (partition : option esp_partition_t) : M ota_state esp_err_t :=
  match partition with
  | None => mret ESP_ERR_INVALID_ARG
  | Some partition =>
      r ← verify_image (p_address partition);
      if negb (fst r =? ESP_OK) then mret ESP_ERR_OTA_VALIDATE_FAILED
      else if p_type partition =? ESP_PARTITION_TYPE_APP then
        find_partition ← find_first ESP_PARTITION_TYPE_DATA ESP_PARTITION_SUBTYPE_DATA_OTA;
        match find_partition with
        | None => mret ESP_ERR_NOT_FOUND
        | Some part =>
            if p_subtype partition =? ESP_PARTITION_SUBTYPE_APP_FACTORY
            then on_part (esp_partition_erase_range part 0 (p_size part))
            else esp_rewrite_ota_data (p_subtype partition)
        end
      else mret ESP_ERR_INVALID_ARG
  end.

(** [(seq - 1) % ota_app_count] in unsigned arithmetic. *)
Definition slot_of (seq ota_app_count : Z) : outcome Z :=
  if ota_app_count =? 0 then Stuck DivByZero else Ret (u32 (seq - 1) mod ota_app_count).

Definition esp_ota_get_boot_partition : M ota_state (option esp_partition_t) :=
  find_partition ← find_first ESP_PARTITION_TYPE_DATA ESP_PARTITION_SUBTYPE_DATA_OTA;
  match find_partition with
  | None => mret None
  | Some part =>
      r ← on_part (esp_partition_mmap (malloc_ok E) part 0 (p_size part) SPI_FLASH_MMAP_DATA);
      let '(ret, out) := r in
      (match out with Some (_, h) => modify (set_map h) | None => mret tt end);;
      s ← get;
      if negb (ret =? ESP_OK) then
        on_part (on_fl (on_mm (spi_flash_munmap (ota_data_map s))));; mret None
      else
        match out with
        | None => stuck NullDeref
        | Some (result, _) =>
            ab ← lift (read_selects s result);
            let '(a, b) := ab in
            modify (set_select a b);;
            on_part (on_fl (on_mm (spi_flash_munmap (ota_data_map s))));;
            ota_app_count ← get_ota_partition_count;
            if (ota_seq a =? 0xFFFFFFFF) && (ota_seq b =? 0xFFFFFFFF)
            then find_first ESP_PARTITION_TYPE_APP ESP_PARTITION_SUBTYPE_APP_FACTORY
            else if ota_select_valid a && ota_select_valid b then
              slot ← lift (slot_of (OTA_MAX (ota_seq a) (ota_seq b)) ota_app_count);
              find_first ESP_PARTITION_TYPE_APP (ESP_PARTITION_SUBTYPE_APP_OTA_MIN + slot)
            else if ota_select_valid a then
              slot ← lift (slot_of (ota_seq a) ota_app_count);
              find_first ESP_PARTITION_TYPE_APP (ESP_PARTITION_SUBTYPE_APP_OTA_MIN + slot)
            else if ota_select_valid b then
              slot ← lift (slot_of (ota_seq b) ota_app_count);
              find_first ESP_PARTITION_TYPE_APP (ESP_PARTITION_SUBTYPE_APP_OTA_MIN + slot)
            else find_first ESP_PARTITION_TYPE_APP ESP_PARTITION_SUBTYPE_APP_FACTORY
        end
  end.

(** The loop over the OTA subtypes from [t] on. *)
Fixpoint next_loop (n : nat) (t : Z) (start_from : esp_partition_t) (default_ota : option esp_partition_t)
    (next_is_result : bool) : M ota_state (option esp_partition_t) :=
  match n with
  | O => mret default_ota
  | S n =>
      p ← find_first ESP_PARTITION_TYPE_APP t;
      match p with
      | None => next_loop n (t + 1) start_from default_ota next_is_result
      | Some p =>
          let default_ota := match default_ota with None => Some p | d => d end in
          if bool_decide (p = start_from) then next_loop n (t + 1) start_from default_ota true
          else if next_is_result then mret (Some p)
          else next_loop n (t + 1) start_from default_ota next_is_result
      end
  end.

Definition esp_ota_get_next_update_partition (start_from : option esp_partition_t) :
    M ota_state (option esp_partition_t) :=
  start ← (match start_from with
           | None => p ← esp_ota_get_running_partition; mret (Some p)
           | Some p => on_part (esp_partition_verify (malloc_ok E) p)
           end);
  match start with
  | None => stuck AssertFailed
  | Some start =>
      next_loop (Z.to_nat (ESP_PARTITION_SUBTYPE_APP_OTA_MAX - ESP_PARTITION_SUBTYPE_APP_OTA_0))
        ESP_PARTITION_SUBTYPE_APP_OTA_0 start None false
  end.

End Ota.
Arguments ota_state : clear implicits.

(** ** Sequence numbers *)

Lemma seq_loop_spec fuel seq r n i :
  0 < n -> 0 <= r < n -> 0 <= i -> seq + n < 2 ^ 32 -> r + i * n < seq + n \/ i = 0 /\ n < 2 ^ 32 ->
  seq <= r + (i + Z.of_nat fuel) * n ->
  exists v, seq_loop fuel seq r n i = Ret v /\ seq <= v < Z.max (seq + n) n /\ v mod n = r.
Proof.
  intros Hn Hr. revert i. induction fuel as [|fuel IH]; intros i Hi Hs Hlt Hf.
  all: assert (Hb : 0 <= i * n < 2 ^ 32 /\ r + i * n < 2 ^ 32) by nia.
  all: cbn [seq_loop]; rewrite (u32_small (i * n)), u32_small by lia; case_test; try lia.
  1: exists (r + i * n); split; [done|]; split; [lia|]; by rewrite Z.mod_add, Z.mod_small by lia.
  - rewrite u32_small by nia. apply IH; lia.
  - exists (r + i * n). split; [done|]. split; [lia|]. by rewrite Z.mod_add, Z.mod_small by lia.
Qed.

Lemma SUB_TYPE_ID_slot k : 0 <= k < 16 -> SUB_TYPE_ID (ESP_PARTITION_SUBTYPE_APP_OTA_MIN + k) = k.
Proof.
  intros Hk. unfold SUB_TYPE_ID. change 0x0F with (Z.ones 4). rewrite Z.land_ones by lia.
  change (2 ^ 4) with 16. unfold ESP_PARTITION_SUBTYPE_APP_OTA_MIN.
  replace (0x10 + k) with (k + 1 * 16) by lia. rewrite Z.mod_add by lia. apply Z.mod_small. lia.
Qed.

(** [next_seq] finds a sequence number, at least the current one, that stands
    for slot [k]. *)
Lemma next_seq_spec seq k n :
  0 <= k < n -> n <= 16 -> 1 <= seq -> seq + n < 2 ^ 32 - 1 ->
  exists v, next_seq seq (ESP_PARTITION_SUBTYPE_APP_OTA_MIN + k) n = Ret v
    /\ seq <= v < 2 ^ 32 - 1 /\ slot_of v n = Ret k.
Proof.
  intros Hk Hn Hs Hsn. unfold next_seq.
  rewrite SUB_TYPE_ID_slot by lia. pose proof (Z.mod_pos_bound (k + 1) n ltac:(lia)) as Hr.
  pose proof (Z.div_mod seq n ltac:(lia)). pose proof (Z.mod_pos_bound seq n ltac:(lia)).
  assert (0 <= seq / n) by (apply Z.div_pos; lia).
  destruct (seq_loop_spec (Z.to_nat (seq / n + 1)) seq ((k + 1) mod n) n 0) as (v & Hv & Hle & Hmod);
    [lia|lia|lia|lia|lia|nia|].
  exists v. split; [done|]. split; [lia|]. unfold slot_of. rewrite (proj2 (Z.eqb_neq _ _)) by lia.
  rewrite u32_small by lia. f_equal.
  rewrite Zminus_mod, Hmod, <- Zminus_mod. replace (k + 1 - 1) with k by lia. apply Z.mod_small. lia.
Qed.

(** ** The OTA data in flash *)

Lemma decode_encode_select s tail :
  0 <= ota_seq s < 2 ^ 32 -> length (seq_label s) = 24%nat -> 0 <= crc s < 2 ^ 32 ->
  decode_select (encode_select s ++ tail) = s.
Proof.
  intros H1 H2 H3. unfold decode_select.
  set (f1 := le_encode 4 (ota_seq s)). set (f3 := le_encode 4 (crc s)).
  assert (E : encode_select s ++ tail = f1 ++ seq_label s ++ f3 ++ tail)
    by (unfold encode_select; by rewrite <- !app_assoc).
  assert (L1 : length f1 = 4%nat) by apply length_le_encode.
  assert (L3 : length f3 = 4%nat) by apply length_le_encode.
  rewrite (slice_field _ [] f1 _ 0 4 E) by (by rewrite ?L1).
  rewrite (slice_field _ f1 (seq_label s) _ 4 24 E) by (by rewrite ?L1, ?H2).
  rewrite (slice_field _ (f1 ++ seq_label s) f3 tail 28 4)
    by (rewrite ?E, <- ?app_assoc, ?length_app, ?L1, ?H2, ?L3; done).
  subst f1 f3. rewrite !le_decode_encode by done. by destruct s.
Qed.

Lemma length_encode_select s : length (seq_label s) = 24%nat -> length (encode_select s) = 32%nat.
Proof. intros H. unfold encode_select. by rewrite !length_app, !length_le_encode, H. Qed.

(** ** Choosing the boot partition *)

(** The table has OTA data in [part] and the OTA slots [0 .. n-1]. *)
Record table_ok (part : esp_partition_t) (n : Z) (l : list esp_partition_t) : Prop := {
  to_data : head (found ESP_PARTITION_TYPE_DATA ESP_PARTITION_SUBTYPE_DATA_OTA None l) = Some part;
  to_slots : forall k, 0 <= k < n ->
    head (found ESP_PARTITION_TYPE_APP (ESP_PARTITION_SUBTYPE_APP_OTA_MIN + k) None l) <> None;
  to_end : head (found ESP_PARTITION_TYPE_APP (ESP_PARTITION_SUBTYPE_APP_OTA_MIN + n) None l) = None;
  to_n : 0 < n <= 16;
  to_plain : p_encrypted part = false;
  to_addr : 0 <= p_address part;
  to_size : 8192 <= p_size part;
  to_pages : p_address part mod 65536 + 8192 <= pages_of (p_size part) * 65536
}.

Lemma to_ne part n l : table_ok part n l -> l <> [].
Proof. intros [H _ _ _ _ _ _ _] ->. done. Qed.

(** The OTA code can run: the table [l] is loaded, the OTA data partition can be
    mapped [k] times and flash is not encrypted. *)
Record ready_with {W} `{RomFlash W} (l : list esp_partition_t) (base : Z -> Z) (part : esp_partition_t) (n k : Z) (s : part_state W) : Prop := {
  rd_table : table_ok part n (s_partition_list s);
  rd_inv : inv base (mmu s);
  rd_live : Z.of_nat (length (s_mmap_entries (mmu s))) < 254;
  rd_handles : s_mmap_last_handle (mmu s) + k < 2 ^ 32;
  rd_chip : p_address part - p_address part mod 65536 + p_size part <= chip_size (mmu s)
            /\ p_address part + 8192 <= chip_size (mmu s) /\ p_address part + p_size part < 2 ^ 32;
  rd_window : exists q, 0 <= q < 64 - pages_of (p_size part)
              /\ fits (mmu s) (pages_of (p_size part)) q (p_address part / 65536);
  rd_enc : flash_encryption_enabled s = false;
  rd_list : s_partition_list s = l
}.

(** The two copies of the OTA data that [c] holds. *)
Definition selects (c : Z -> Z) (part : esp_partition_t) : ota_select * ota_select :=
  (decode_select (Image.bytes c (p_address part) 32),
   decode_select (Image.bytes c (p_address part + SPI_FLASH_SEC_SIZE) 32)).

Section Boot.
Context {W : Type} `{!RomFlash W} `{!RomLaws W} (E : env) (tbl : list esp_partition_t).
Implicit Types (s : ota_state W).
#[local] Notation ready := (ready_with tbl).

(** The cache shows the chip as it is. *)
Definition plain : Prop := forall (w : W) a, decrypted w a = content w a.

Lemma set_op_op s : set_op (op s) s = s.
Proof. by destruct s. Qed.

Lemma on_part_run {A} (m : M (part_state W) A) a p s :
  m (op s) = Ret (a, p) -> on_part m s = Ret (a, set_op p s).
Proof. intros H. unfold on_part. by rewrite H. Qed.

Lemma find_first_ota s type subtype :
  s_partition_list (op s) <> [] ->
  find_first E type subtype s = Ret (head (found type subtype None (s_partition_list (op s))), s).
Proof.
  intros H. unfold find_first. erewrite on_part_run by (by apply find_first_run). by rewrite set_op_op.
Qed.

Lemma count_loop_run part n s fuel c :
  table_ok part n (s_partition_list (op s)) -> 0 <= c <= n -> n - c <= Z.of_nat fuel ->
  count_loop E fuel c s = Ret (n, s).
Proof.
  intros Ht. pose proof (to_ne _ _ _ Ht). pose proof (to_n _ _ _ Ht). revert c.
  induction fuel as [|fuel IH]; intros c Hc Hf; cbn [count_loop]; apply bind_Ret;
    eexists _, _; (split; [by apply find_first_ota|]).
  - assert (c = n) as -> by lia. rewrite (to_end _ _ _ Ht). rewrite u8_small by lia. done.
  - destruct (decide (c = n)) as [->|Hne]; [rewrite (to_end _ _ _ Ht), u8_small by lia; done|].
    destruct (head _) eqn:Eh; [|by destruct (to_slots _ _ _ Ht c ltac:(lia))].
    apply bind_Ret. exists tt, s. split; [unfold check; by rewrite (proj2 (Z.ltb_lt _ _)) by lia|].
    apply IH; lia.
Qed.

Lemma ready_request base part n k (p : part_state W) :
  ready base part n (k + 1) p -> 0 <= k ->
  mmap_request (mmu p) (p_address part - p_address part mod 65536) (p_size part) SPI_FLASH_MMAP_DATA.
Proof.
  intros [Ht Hi Hl Hh [Hc _] (q & Hq & _) _ _] Hk.
  pose proof (to_addr _ _ _ Ht). pose proof (to_size _ _ _ Ht).
  pose proof (Z.mod_pos_bound (p_address part) 65536 ltac:(lia)).
  pose proof (Z.div_mod (p_address part) 65536 ltac:(lia)).
  assert (0 <= p_address part / 65536) by (apply Z.div_pos; lia).
  split; try done; try lia.
  - unfold SPI_FLASH_MMU_PAGE_SIZE. rewrite Zminus_mod, Zmod_mod, Z.sub_diag. done.
  - change (region_size SPI_FLASH_MMAP_DATA) with 64. lia.
Qed.

(** Mapping the OTA data, reading both copies, and unmapping it. *)
Lemma map_selects base part n k s :
  plain -> ready base part n (k + 1) (op s) -> 0 <= k ->
  exists ptr h m1 m2,
    esp_partition_mmap true part 0 (p_size part) SPI_FLASH_MMAP_DATA (op s)
    = Ret ((ESP_OK, Some (ptr, h)), with_mm m1 (op s))
    /\ (forall s1, op s1 = with_mm m1 (op s) ->
         read_selects s1 ptr = Ret (selects (content (chip (fl (op s)))) part)
         /\ on_part (on_fl (on_mm (spi_flash_munmap h))) s1 = Ret (tt, set_op (with_mm m2 (op s)) s1))
    /\ ready base part n k (with_mm m2 (op s)).
Proof.
  intros Hpl Hrd Hk. pose proof (ready_request _ _ _ _ _ Hrd Hk) as Hrq.
  pose proof Hrd as [Ht Hi Hl Hh (Hc & Hc2 & Hc3) (q & Hq & Hfit) Henc Htb].
  pose proof (to_addr _ _ _ Ht). pose proof (to_size _ _ _ Ht). pose proof (inv_chip _ _ Hi).
  destruct (partition_mmap_run base (op s) part 0 (p_size part) SPI_FLASH_MMAP_DATA)
    as (rc & out & m1 & Hrun & Hpost); rewrite ?Z.add_0_r; try done; try lia.
  rewrite Z.add_0_r in Hpost.
  destruct Hpost as [[_ Hno]|(ptr & h & m2 & -> & -> & Hvis & Hun & R1 & R3 & R4 & R5 & R6 & R7)].
  { destruct (Hno q); [|done]. cbn [region_begin region_size]. lia. }
  exists ptr, h, m1, m2. split; [done|]. split.
  - intros s1 Es1. pose proof (to_pages _ _ _ Ht) as Hpg.
    assert (Hread : forall off, 0 <= off <= 4096 ->
      exists b, cached_bytes (fl (op s1)) (ptr + off) 32 = Ret b
        /\ b = Image.bytes (content (chip (fl (op s)))) (p_address part + off) 32).
    { intros off Hoff. rewrite Es1. cbn [fl with_mm].
      destruct (cached_bytes_spec (set_mm m1 (fl (op s))) (ptr + off) 32 (p_address part + off)) as (b & Hb & Hlb & Hat).
      - intros i Hii. cbn [mm set_mm]. rewrite <- !Z.add_assoc. apply Hvis; lia.
      - exists b. split; [done|]. apply (at_ext 0); [by rewrite Hlb, Image.length_bytes|]. intros i Hii.
        rewrite Hat, Image.at_bytes by lia. cbn [chip set_mm]. apply Hpl. }
    split.
    + destruct (Hread 0) as (b0 & Hb0 & E0); [lia|]. destruct (Hread 4096) as (b1 & Hb1 & E1); [lia|].
      rewrite Z.add_0_r in Hb0, E0. unfold read_selects, SPI_FLASH_SEC_SIZE. rewrite Hb0. cbn [mbind outcome_bind].
      rewrite Hb1. unfold selects, SPI_FLASH_SEC_SIZE. by subst.
    + erewrite on_part_run; [done|]. rewrite Es1. by apply (on_mm_run _ _ _ (with_mm m1 (op s))).
  - split; try done; unfold mmu in *; cbn [with_mm fl mm set_mm]; rewrite ?R4, ?R6, ?R7; try done; [lia|].
    exists q. split; [done|]. intros j Hj. rewrite R1, R3. by apply Hfit.
Qed.

Definition label_ok (x : ota_select) : Prop :=
  length (seq_label x) = 24%nat /\ Forall (fun b => 0 <= b < 256) (seq_label x).

Lemma selects_labels (w : W) part a b :
  selects (content w) part = (a, b) -> label_ok a /\ label_ok b.
Proof.
  assert (H : forall addr, label_ok (decode_select (Image.bytes (content w) addr 32))).
  { intros addr. split; cbn [decode_select seq_label]; unfold slice.
    - by rewrite length_take, length_drop, Image.length_bytes.
    - apply Forall_take, Forall_drop, Forall_fmap, Forall_true. intros i. apply rom_byte. }
  intros [= <- <-]. split; apply H.
Qed.

(** What erasing a sector and programming an entry into it leaves. *)
Lemma programmed_select c c1 c2 part (sec : Z) new :
  (sec = 0 \/ sec = 1) -> label_ok new -> 0 <= ota_seq new < 2 ^ 32 -> 0 <= crc new < 2 ^ 32 ->
  (forall a, c1 a = if within (p_address part + sec * SPI_FLASH_SEC_SIZE) SPI_FLASH_SEC_SIZE a then 255 else c a) ->
  (forall a, c2 a = programmed c1 (p_address part + SPI_FLASH_SEC_SIZE * sec) (encode_select new) a) ->
  selects c2 part = if sec =? 0 then (new, snd (selects c part)) else (fst (selects c part), new).
Proof.
  intros Hsec [Hlab Hbytes] Hseq Hcrc H1 H2. unfold SPI_FLASH_SEC_SIZE in *.
  pose proof (length_encode_select _ Hlab) as Hlen.
  assert (Hnew : decode_select (Image.bytes c2 (p_address part + sec * 4096) 32) = new).
  { rewrite <- (decode_encode_select new []) by done. rewrite app_nil_r. f_equal.
    apply (at_ext 0); [by rewrite Image.length_bytes, Hlen|]. intros i Hi. rewrite Image.length_bytes in Hi.
    rewrite Image.at_bytes, H2 by lia. rewrite programmed_erased.
    - f_equal. lia.
    - unfold encode_select. rewrite !Forall_app. split_and!; [apply le_encode_bytes|done|apply le_encode_bytes].
    - apply within_spec. rewrite Hlen. lia.
    - rewrite H1, (proj2 (within_spec _ _ _)) by lia. done. }
  assert (Hold : Image.bytes c2 (p_address part + (1 - sec) * 4096) 32
                 = Image.bytes c (p_address part + (1 - sec) * 4096) 32).
  { apply (at_ext 0); [by rewrite !Image.length_bytes|]. intros i Hi. rewrite Image.length_bytes in Hi.
    rewrite !Image.at_bytes, H2, programmed_all, H1, Hlen by lia.
    rewrite !(proj2 (within_false _ _ _)) by lia. done. }
  unfold selects, SPI_FLASH_SEC_SIZE.
  destruct Hsec as [-> | ->]; cbn [Z.eqb fst snd];
    change ((1 - 0) * 4096) with 4096 in *; change ((1 - 1) * 4096) with 0 in *;
    change (0 * 4096) with 0 in *; change (1 * 4096) with 4096 in *; rewrite ?Z.add_0_r in *;
    by rewrite Hnew, Hold.
Qed.

Lemma ready_same base part n k (p p' : part_state W) :
  ready base part n k p -> same_mmu (mmu p) (mmu p') -> length (written_pages (mmu p')) = 8%nat ->
  s_partition_list p' = s_partition_list p -> flash_encryption_enabled p' = flash_encryption_enabled p ->
  ready base part n k p'.
Proof.
  intros [H1 H2 H3 H4 H5 (q & Hq & Hf) H7 H8] Hs Hw Hl He. pose proof Hs as (E1 & E2 & E3 & E4 & E5 & E6).
  split; rewrite ?Hl, ?He, ?E4, ?E5, ?E6; try done; [by eapply inv_same|].
  exists q. split; [done|]. intros j Hj. rewrite E1, E3. by apply Hf.
Qed.

(** The entry [rewrite_ota_seq] makes, and the state after caching it. *)
Definition new_entry (v sec : Z) s : ota_select :=
  let old := if sec =? 0 then sel0 s else sel1 s in
  OtaSelect v (seq_label old) (ota_select_crc E (OtaSelect v (seq_label old) (crc old))).

Definition cached (v sec : Z) s : ota_state W :=
  if sec =? 0 then set_select (new_entry v sec s) (sel1 s) s else set_select (sel0 s) (new_entry v sec s) s.

Lemma rewrite_eq v sec part s :
  sec = 0 \/ sec = 1 ->
  rewrite_ota_seq E v sec part s
  = (ret ← on_part (esp_partition_erase_range part (sec * SPI_FLASH_SEC_SIZE) SPI_FLASH_SEC_SIZE);
     if negb (ret =? ESP_OK) then mret ret
     else part_write E part (SPI_FLASH_SEC_SIZE * sec) (encode_select (new_entry v sec s))) (cached v sec s).
Proof. by intros [-> | ->]. Qed.

Lemma new_entry_ok v sec s :
  sec = 0 \/ sec = 1 -> 0 <= v < 2 ^ 32 - 1 -> label_ok (sel0 s) -> label_ok (sel1 s) ->
  label_ok (new_entry v sec s) /\ ota_select_valid E (new_entry v sec s) = true /\ ota_seq (new_entry v sec s) = v
  /\ 0 <= crc (new_entry v sec s) < 2 ^ 32 /\ op (cached v sec s) = op s.
Proof.
  intros Hsec Hv Hl0 Hl1. unfold ota_select_valid. cbn [new_entry ota_seq crc].
  split_and!; try done; [destruct Hsec as [-> | ->]; done| |apply u32_range|apply u32_range|by destruct Hsec as [-> | ->]].
  rewrite (proj2 (Z.eqb_neq _ _)) by (unfold UINT32_MAX; lia). cbn [negb andb]. apply Z.eqb_eq. done.
Qed.

Lemma rewrite_run base part n k v sec s :
  ready base part n k (op s) -> sec = 0 \/ sec = 1 -> 0 <= v < 2 ^ 32 - 1 -> label_ok (sel0 s) -> label_ok (sel1 s) ->
  exists r s', rewrite_ota_seq E v sec part s = Ret (r, s')
    /\ (r = ESP_OK -> ready base part n k (op s')
        /\ exists new, ota_seq new = v /\ ota_select_valid E new = true
           /\ let c := content (chip (fl (op s))) in
              selects (content (chip (fl (op s')))) part
              = if sec =? 0 then (new, snd (selects c part)) else (fst (selects c part), new)).
Proof.
  intros Hrd Hsec Hv Hl0 Hl1. pose proof Hrd as [Ht Hi Hl Hh (_ & Hc2 & Hc3) _ Henc _].
  pose proof (to_addr _ _ _ Ht). pose proof (to_size _ _ _ Ht). pose proof (inv_chip _ _ Hi).
  rewrite rewrite_eq by done.
  destruct (new_entry_ok v sec s Hsec Hv Hl0 Hl1) as (Hlab & Hval & Hseq & Hcrc & Ho1).
  generalize dependent (new_entry v sec s). intros new Hlab Hval Hseq Hcrc.
  generalize dependent (cached v sec s). intros s1 Ho1.
  destruct (partition_erase_run (op s) part (sec * SPI_FLASH_SEC_SIZE) SPI_FLASH_SEC_SIZE)
    as (r1 & f1 & Hrun1 & Hm1 & Hok1); try (unfold SPI_FLASH_SEC_SIZE; lia).
  destruct (partition_write_run (with_fl f1 (op s)) part (malloc_ok E) (junk E) (SPI_FLASH_SEC_SIZE * sec)
              (buf_addr E) (encode_select new)) as (r2 & f2 & Hrun2 & Hs2 & Hm2 & Hok2);
    try (rewrite ?length_encode_select by apply Hlab; unfold SPI_FLASH_SEC_SIZE; lia);
    unfold mmu in *; cbn [with_fl fl]; rewrite ?Hm1; try lia; try apply Hi; [apply Ht|].
  rewrite <- Ho1 in Hrun1. unfold mbind, M_bind. rewrite (on_part_run _ _ _ s1 Hrun1).
  destruct (Z.eqb_spec r1 ESP_OK) as [->|Hne]; cbn [negb].
  2: { exists r1, (set_op (with_fl f1 (op s1)) s1). split; [done|by intros ->]. }
  destruct (Hok1 eq_refl) as [_ Hc1]. rewrite <- Ho1 in Hrun2.
  exists r2, (set_op (with_fl f2 (with_fl f1 (op s1))) (set_op (with_fl f1 (op s1)) s1)).
  split; [apply (on_part_run _ _ _ (set_op (with_fl f1 (op s1)) s1) Hrun2)|].
  intros Hr. destruct (Hok2 Hr) as [_ Hcc]. rewrite Ho1. split.
  - apply (ready_same _ _ _ _ (op s)); try done; unfold mmu; cbn [set_op op with_fl fl];
      [cbn [with_fl fl] in Hm2; by rewrite Hm1 in Hm2|apply Hs2].
  - exists new. split; [done|]. split; [done|].
    apply (programmed_select (content (chip (fl (op s)))) (content (chip f1)) _ part sec new); try done. lia.
Qed.

(** The sequence number two copies of the OTA data agree on. *)
Definition chosen (ab : ota_select * ota_select) : option Z :=
  let '(a, b) := ab in
  if ota_select_valid E a && ota_select_valid E b then Some (OTA_MAX (ota_seq a) (ota_seq b))
  else if ota_select_valid E a then Some (ota_seq a)
  else if ota_select_valid E b then Some (ota_seq b)
  else None.

(** It is not zero and leaves room for a higher one. *)
Definition seq_ok (n : Z) (ab : ota_select * ota_select) : Prop :=
  forall q, chosen ab = Some q -> 1 <= q /\ q + n < 2 ^ 32 - 1.

Lemma OTA_MAX_max a b : OTA_MAX a b = Z.max a b.
Proof. unfold OTA_MAX. case_test; lia. Qed.

Lemma chosen_rewritten a b new v (sec : Z) :
  ota_seq new = v -> ota_select_valid E new = true ->
  (let old := if sec =? 0 then b else a in ota_select_valid E old = true -> ota_seq old <= v) ->
  chosen (if sec =? 0 then (new, b) else (a, new)) = Some v.
Proof.
  intros Hs Hv Hle. unfold chosen. destruct (sec =? 0); cbn in Hle; rewrite Hv, ?andb_true_r.
  - destruct (ota_select_valid E b); cbn [andb]; [|by rewrite Hs]. rewrite OTA_MAX_max, Hs. f_equal.
    specialize (Hle eq_refl). lia.
  - destruct (ota_select_valid E a); [|by rewrite Hs]. rewrite OTA_MAX_max, Hs. f_equal.
    specialize (Hle eq_refl). lia.
Qed.

(** Writing a new entry for [slot] into the sector [sec], [seq] being the
    highest valid sequence number. *)
Lemma rewrite_slot base part n k s a b slot seq sec :
  ready base part n k (op s) -> selects (content (chip (fl (op s)))) part = (a, b) ->
  sel0 s = a -> sel1 s = b -> 0 <= slot < n -> 1 <= seq -> seq + n < 2 ^ 32 - 1 -> sec = 0 \/ sec = 1 ->
  (let old := if sec =? 0 then b else a in ota_select_valid E old = true -> ota_seq old <= seq) ->
  exists r s', (v ← lift (next_seq seq (ESP_PARTITION_SUBTYPE_APP_OTA_MIN + slot) n);
                rewrite_ota_seq E v sec part) s = Ret (r, s')
    /\ (r = ESP_OK -> ready base part n k (op s') /\ exists q,
          chosen (selects (content (chip (fl (op s')))) part) = Some q /\ slot_of q n = Ret slot).
Proof.
  intros Hrd Hsel H0 H1 Hslot Hseq1 Hseq2 Hsec Hle. pose proof (to_n _ _ _ (rd_table _ _ _ _ _ _ Hrd)).
  destruct (next_seq_spec seq slot n) as (v & Hv & Hvr & Hvs); [done|lia|done|done|].
  destruct (selects_labels _ _ _ _ Hsel) as [La Lb].
  destruct (rewrite_run base part n k v sec s) as (r & s' & Hrun & Hok); try done; [lia|by rewrite H0|by rewrite H1|].
  exists r, s'. split; [apply bind_Ret; eexists _, _; split; [by apply lift_Ret|exact Hrun]|].
  intros Hr. destruct (Hok Hr) as (Hrd' & new & N1 & N2 & N3). split; [done|]. exists v. split; [|done].
  rewrite N3, Hsel. apply chosen_rewritten; [done|done|]. intros old Hold. apply (Z.le_trans _ seq); [by apply Hle|lia].
Qed.

(** The tail of [esp_rewrite_ota_data], after both copies have been read. *)
Lemma rewrite_tail base part n k s a b slot :
  ready base part n k (op s) -> selects (content (chip (fl (op s)))) part = (a, b) ->
  sel0 s = a -> sel1 s = b -> 0 <= slot < n -> seq_ok n (a, b) ->
  let subtype := ESP_PARTITION_SUBTYPE_APP_OTA_MIN + slot in
  exists r s', (if ota_select_valid E a && ota_select_valid E b then
       seq ← lift (next_seq (OTA_MAX (ota_seq a) (ota_seq b)) subtype n);
       rewrite_ota_seq E seq (if ota_seq b <=? ota_seq a then 1 else 0) part
     else if ota_select_valid E a then
       seq ← lift (next_seq (ota_seq a) subtype n); rewrite_ota_seq E seq 1 part
     else if ota_select_valid E b then
       seq ← lift (next_seq (ota_seq b) subtype n); rewrite_ota_seq E seq 0 part
     else rewrite_ota_seq E (SUB_TYPE_ID subtype + 1) 0 part) s = Ret (r, s')
    /\ (r = ESP_OK -> ready base part n k (op s') /\ exists q,
          chosen (selects (content (chip (fl (op s')))) part) = Some q /\ slot_of q n = Ret slot).
Proof.
  intros Hrd Hsel H0 H1 Hslot Hseq subtype. pose proof (to_n _ _ _ (rd_table _ _ _ _ _ _ Hrd)).
  unfold seq_ok, chosen in Hseq.
  destruct (ota_select_valid E a) eqn:Va, (ota_select_valid E b) eqn:Vb; cbn [andb] in *.
  - specialize (Hseq _ eq_refl). rewrite OTA_MAX_max in *.
    apply (rewrite_slot base part n k s a b); try done; try lia; destruct (Z.leb_spec (ota_seq b) (ota_seq a)); auto;
      cbn; lia.
  - specialize (Hseq _ eq_refl). apply (rewrite_slot base part n k s a b); try done; try lia; auto; cbn; lia.
  - specialize (Hseq _ eq_refl). apply (rewrite_slot base part n k s a b); try done; try lia; auto; cbn; lia.
  - unfold subtype. rewrite SUB_TYPE_ID_slot by lia. destruct (selects_labels _ _ _ _ Hsel) as [La Lb].
    destruct (rewrite_run base part n k (slot + 1) 0 s) as (r & s' & Hrun & Hok);
      [done|by left|lia|by rewrite H0|by rewrite H1|].
    exists r, s'. split; [done|]. intros Hr. destruct (Hok Hr) as (Hrd' & new & N1 & N2 & N3). split; [done|].
    exists (slot + 1). split; [rewrite N3, Hsel; apply (chosen_rewritten a b new _ 0); [done|done|cbn; congruence]|].
    unfold slot_of. rewrite (proj2 (Z.eqb_neq _ _)), u32_small by lia.
    replace (slot + 1 - 1) with slot by lia. by rewrite Z.mod_small by lia.
Qed.

Lemma rewrite_data_run base part n k s slot :
  plain -> malloc_ok E = true -> ready base part n (k + 1) (op s) -> 0 <= k -> 0 <= slot < n ->
  seq_ok n (selects (content (chip (fl (op s)))) part) ->
  exists r s', esp_rewrite_ota_data E (ESP_PARTITION_SUBTYPE_APP_OTA_MIN + slot) s = Ret (r, s')
    /\ (r = ESP_OK -> ready base part n k (op s') /\ exists q,
          chosen (selects (content (chip (fl (op s')))) part) = Some q /\ slot_of q n = Ret slot).
Proof.
  intros Hpl Hma Hrd Hk Hslot Hseq. pose proof (rd_table _ _ _ _ _ _ Hrd) as Ht. pose proof (to_n _ _ _ Ht).
  pose proof (to_ne _ _ _ Ht) as Hne.
  destruct (map_selects base part n k s Hpl Hrd Hk) as (ptr & h & m1 & m2 & Hmap & Hrest & Hrd2).
  destruct (selects (content (chip (fl (op s)))) part) as [a b] eqn:Hsel.
  set (s1 := set_op (with_mm m1 (op s)) s). destruct (Hrest s1 eq_refl) as [Hread _].
  destruct (Hrest (set_select a b s1) eq_refl) as [_ Hun].
  set (s2 := set_op (with_mm m2 (op s)) (set_select a b s1)) in *.
  destruct (rewrite_tail base part n k s2 a b slot) as (r & s' & Htail & Hok); try done.
  exists r, s'. split; [|done]. unfold esp_rewrite_ota_data.
  apply bind_Ret. eexists _, _. split; [by apply find_first_ota|]. rewrite (to_data _ _ _ Ht).
  apply bind_Ret. eexists _, _. split; [apply (count_loop_run part n); [done|lia|lia]|].
  rewrite SUB_TYPE_ID_slot, (proj2 (Z.leb_gt n slot)) by lia.
  apply bind_Ret. eexists _, _. split; [apply on_part_run; rewrite Hma; exact Hmap|]. fold s1.
  change (negb (ESP_OK =? ESP_OK)) with false. cbv iota.
  apply bind_Ret. exists s1, s1. split; [done|]. apply bind_Ret. eexists _, _. split; [by apply lift_Ret|].
  apply bind_Ret. exists tt, (set_select a b s1). split; [done|].
  apply bind_Ret. eexists _, _. split; [exact Hun|]. cbv zeta in Htail. rewrite SUB_TYPE_ID_slot in Htail by lia. exact Htail.
Qed.

Lemma verify_image_run s src :
  flash_encryption_enabled (op s) = false -> chip_size (mmu (op s)) <= 2 ^ 24 -> 0 <= src -> src + 24 < 2 ^ 32 ->
  exists r p, verify_image E src s = Ret (r, set_op p s)
    /\ mmu p = mmu (op s) /\ s_partition_list p = s_partition_list (op s)
    /\ flash_encryption_enabled p = flash_encryption_enabled (op s)
    /\ (forall a, content (chip (fl p)) a = content (chip (fl (op s))) a).
Proof.
  intros Henc Hc H0 H1.
  destruct (wp_inv _ _ _ (@Image.basic_verify_spec _ (Image.app_reader (malloc_ok E) (buf_addr E))
              (Image.app_reader_laws _ _) src (op s) (conj Henc Hc) H0 H1))
    as (r & p & Hrun & ((_ & _ & Hcont & (Hm & Hl & He)) & _)).
  exists r, p. split; [by apply on_part_run|]. done.
Qed.

Lemma selects_ext c c' part : (forall a, c' a = c a) -> selects c' part = selects c part.
Proof. intros H. unfold selects. by rewrite !(Image.bytes_ext c c'). Qed.

Lemma set_boot_run base part n k s p slot :
  plain -> malloc_ok E = true -> ready base part n (k + 1) (op s) -> 0 <= k -> 0 <= slot < n ->
  seq_ok n (selects (content (chip (fl (op s)))) part) ->
  p_type p = ESP_PARTITION_TYPE_APP -> p_subtype p = ESP_PARTITION_SUBTYPE_APP_OTA_MIN + slot ->
  0 <= p_address p -> p_address p + 24 < 2 ^ 32 ->
  exists r s', esp_ota_set_boot_partition E (Some p) s = Ret (r, s')
    /\ (r = ESP_OK -> ready base part n k (op s') /\ exists q,
          chosen (selects (content (chip (fl (op s')))) part) = Some q /\ slot_of q n = Ret slot).
Proof.
  intros Hpl Hma Hrd Hk Hslot Hseq Hty Hsub Ha Ha24. pose proof Hrd as [Ht Hi _ _ _ _ Henc _].
  destruct (verify_image_run s (p_address p)) as (r & p1 & Hv & V1 & V2 & V3 & V4);
    [done|apply Hi|done|done|].
  assert (Hrd1 : ready base part n (k + 1) p1).
  { apply (ready_same _ _ _ _ (op s)); try done; [by rewrite V1|rewrite V1; apply Hi]. }
  unfold esp_ota_set_boot_partition, mbind at 1, M_bind at 1. rewrite Hv.
  destruct (negb _); [by eexists _, _|].
  rewrite Hty, Z.eqb_refl. set (s1 := set_op p1 s).
  assert (Hne : s_partition_list (op s1) <> []) by (apply (to_ne part n), Hrd1).
  destruct (rewrite_data_run base part n k s1 slot) as (r' & s' & Hrun & Hok); try done.
  { unfold s1. cbn [set_op op]. by rewrite (selects_ext _ _ _ V4). }
  exists r', s'. split; [|done]. apply bind_Ret. eexists _, _. split; [by apply find_first_ota|].
  change (op s1) with p1. rewrite (to_data _ _ _ (rd_table _ _ _ _ _ _ Hrd1)), Hsub.
  rewrite (proj2 (Z.eqb_neq _ _)) by (unfold ESP_PARTITION_SUBTYPE_APP_FACTORY, ESP_PARTITION_SUBTYPE_APP_OTA_MIN; lia).
  exact Hrun.
Qed.

(** [esp_ota_get_boot_partition] follows the chosen sequence number. *)
Lemma get_boot_run base part n k s q slot :
  plain -> malloc_ok E = true -> ready base part n (k + 1) (op s) -> 0 <= k ->
  chosen (selects (content (chip (fl (op s)))) part) = Some q -> slot_of q n = Ret slot ->
  exists s', esp_ota_get_boot_partition E s
    = Ret (head (found ESP_PARTITION_TYPE_APP (ESP_PARTITION_SUBTYPE_APP_OTA_MIN + slot) None
                  (s_partition_list (op s))), s').
Proof.
  intros Hpl Hma Hrd Hk Hch Hslot. pose proof (rd_table _ _ _ _ _ _ Hrd) as Ht. pose proof (to_n _ _ _ Ht).
  pose proof (to_ne _ _ _ Ht) as Hne.
  destruct (map_selects base part n k s Hpl Hrd Hk) as (ptr & h & m1 & m2 & Hmap & Hrest & Hrd2).
  destruct (selects (content (chip (fl (op s)))) part) as [a b] eqn:Hsel.
  set (s1 := set_map h (set_op (with_mm m1 (op s)) s)). destruct (Hrest s1 eq_refl) as [Hread _].
  destruct (Hrest (set_select a b s1) eq_refl) as [_ Hun].
  set (s2 := set_op (with_mm m2 (op s)) (set_select a b s1)) in *.
  assert (Hf : forall ty su, find_first E ty su s2 = Ret (head (found ty su None (s_partition_list (op s))), s2)).
  { intros ty su. by rewrite find_first_ota. }
  assert (Hseqs : (ota_seq a =? 0xFFFFFFFF) && (ota_seq b =? 0xFFFFFFFF) = false).
  { apply not_true_iff_false. intros [Ea Eb]%andb_true_iff. unfold chosen, ota_select_valid, UINT32_MAX in Hch.
    by rewrite Ea, Eb in Hch. }
  exists s2. unfold esp_ota_get_boot_partition.
  apply bind_Ret. eexists _, _. split; [by apply find_first_ota|]. rewrite (to_data _ _ _ Ht).
  apply bind_Ret. eexists _, _. split; [apply on_part_run; rewrite Hma; exact Hmap|].
  apply bind_Ret. exists tt, s1. split; [done|]. apply bind_Ret. exists s1, s1. split; [done|].
  change (negb (ESP_OK =? ESP_OK)) with false. cbv iota.
  apply bind_Ret. eexists _, _. split; [by apply lift_Ret|].
  apply bind_Ret. exists tt, (set_select a b s1). split; [done|].
  apply bind_Ret. eexists _, _. split; [exact Hun|].
  apply bind_Ret. exists n, s2. split; [apply (count_loop_run part n); [done|lia|lia]|]. rewrite Hseqs.
  unfold chosen in Hch. destruct (_ && _); [|destruct (ota_select_valid E a); [|destruct (ota_select_valid E b); [|done]]];
    injection Hch as ->; apply bind_Ret; eexists _, _; (split; [by apply lift_Ret|apply Hf]).
Qed.

(** C29: choosing an OTA slot takes effect.  With OTA data in [part] and slots
    [0 .. n-1], [esp_ota_set_boot_partition] of a partition of slot [slot]
    always returns, and once it has reported success
    [esp_ota_get_boot_partition] returns a partition of the table with that
    subtype, whatever valid sequence numbers the OTA data held before (a
    current number of at least 1 with room for a higher one). *)
Theorem set_boot_takes_effect base part n s p slot :
  plain -> malloc_ok E = true -> ready base part n 2 (op s) -> 0 <= slot < n ->
  seq_ok n (selects (content (chip (fl (op s)))) part) ->
  p_type p = ESP_PARTITION_TYPE_APP -> p_subtype p = ESP_PARTITION_SUBTYPE_APP_OTA_MIN + slot ->
  0 <= p_address p -> p_address p + 24 < 2 ^ 32 ->
  exists r s', esp_ota_set_boot_partition E (Some p) s = Ret (r, s')
    /\ (r = ESP_OK -> exists p' s'', esp_ota_get_boot_partition E s' = Ret (Some p', s'')
         /\ p' ∈ s_partition_list (op s') /\ p_type p' = ESP_PARTITION_TYPE_APP /\ p_subtype p' = p_subtype p).
Proof.
  intros Hpl Hma Hrd Hslot Hseq Hty Hsub Ha Ha24.
  destruct (set_boot_run base part n 1 s p slot) as (r & s' & Hrun & Hok); try done.
  exists r, s'. split; [done|]. intros Hr. destruct (Hok Hr) as (Hrd' & q & Hq & Hqs).
  destruct (get_boot_run base part n 0 s' q slot) as (s'' & Hget); try done.
  pose proof (to_slots _ _ _ (rd_table _ _ _ _ _ _ Hrd') slot Hslot) as Hsome.
  destruct (head _) as [p'|] eqn:Eh; [|done]. exists p', s''. split; [done|].
  apply head_Some in Eh as [l Eh].
  assert (Hin : p' ∈ found ESP_PARTITION_TYPE_APP (ESP_PARTITION_SUBTYPE_APP_OTA_MIN + slot) None (s_partition_list (op s')))
    by (rewrite Eh; left).
  apply list_elem_of_filter in Hin as [Hm Hin]. split; [done|]. unfold matches in Hm.
  apply andb_true_iff in Hm as [[H1%Z.eqb_eq H2]%andb_true_iff _]. split; [done|]. rewrite Hsub.
  apply orb_true_iff in H2 as [H2%Z.eqb_eq|H2%Z.eqb_eq]; [|done].
  pose proof (to_n _ _ _ (rd_table _ _ _ _ _ _ Hrd')). unfold ESP_PARTITION_SUBTYPE_ANY, ESP_PARTITION_SUBTYPE_APP_OTA_MIN in *. lia.
Qed.

(** ** Writing an image *)

Lemma running_same s p s' :
  s_partition_list (op s) <> [] -> esp_ota_get_running_partition E s = Ret (p, s') -> s' = s.
Proof.
  intros Hne. unfold esp_ota_get_running_partition. intros (s1 & s2 & [= <- <-] & H)%bind_Ret.
  apply bind_Ret in H as (ph & s2 & H1 & H). unfold lift in H1. destruct (spi_flash_cache2phys _ _); [|done].
  injection H1 as <- <-. apply bind_Ret in H as ([] & s2 & H1 & H). unfold check in H1.
  destruct (negb _); [|done]. injection H1 as <-. apply bind_Ret in H as (it & s2 & H1 & H).
  erewrite on_part_run in H1 by (by apply find_run). injection H1 as <- <-. rewrite set_op_op in H.
  apply bind_Ret in H as ([] & s2 & H1 & H). destruct (esp_partition_next _) as [it|]; [|done].
  injection H1 as <-. apply bind_Ret in H as (? & s2 & [= <- <-] & H). unfold lift in H.
  destruct (running_loop _ _ _); [|done]. by injection H.
Qed.

(** What a successful [esp_ota_begin] has done. *)
Lemma begin_inv p image_size s h s' :
  s_partition_list (op s) <> [] -> esp_ota_begin E (Some p) image_size s = Ret ((ESP_OK, Some h), s') ->
  let whole := (image_size =? 0) || (image_size =? OTA_SIZE_UNKNOWN) in
  exists p' o, p_address p' = p_address p /\ p_size p' = p_size p /\ p_encrypted p' = p_encrypted p
    /\ esp_partition_erase_range p' 0 (if whole then p_size p' else u32 ((image_size / SPI_FLASH_SEC_SIZE + 1) * SPI_FLASH_SEC_SIZE))
         (op s) = Ret (ESP_OK, o)
    /\ op s' = o
    /\ s_ota_ops_entries s' = OtaEntry h p' (if whole then p_size p' else image_size) 0 0 (replicate 16 0) :: s_ota_ops_entries s.
Proof.
  intros Hne H whole. unfold esp_ota_begin in H. apply bind_Ret in H as (vp & s1 & H1 & H).
  erewrite on_part_run in H1 by (by apply verify_run). rewrite set_op_op in H1. injection H1 as Hvp <-.
  destruct vp as [p'|]; [|done]. apply head_Some in Hvp as [l Hvp].
  assert (Hin : p' ∈ p' :: l) by left. rewrite <- Hvp in Hin. apply list_elem_of_filter in Hin as [Hm _].
  apply andb_true_iff in Hm as [[M1%Z.eqb_eq M2%Z.eqb_eq]%andb_true_iff M3%eqb_prop].
  destruct (negb _); [done|]. apply bind_Ret in H as (rp & s1 & H1 & H). apply running_same in H1 as ->; [|done].
  destruct (bool_decide _); [done|]. fold whole in H. apply bind_Ret in H as (r & s1 & H1 & H).
  unfold on_part in H1. destruct (esp_partition_erase_range _ _ _ _) as [[r1 o]|] eqn:Her; [|done].
  injection H1 as -> <-. destruct (Z.eqb_spec r ESP_OK) as [->|]; cbn [negb] in H; [|injection H as ? _; done].
  destruct (malloc_ok E); [|done]. cbn [negb] in H. apply bind_Ret in H as (s2 & s3 & [= <- <-] & H).
  apply bind_Ret in H as ([] & s4 & [= <-] & H). injection H as <- <-.
  exists p', o. by split_and!.
Qed.

(** Writing a list of chunks, stopping at the first error. *)
Fixpoint ota_write_all (h : Z) (chunks : list (list Z)) : M (ota_state W) esp_err_t :=
  match chunks with
  | [] => mret ESP_OK
  | c :: chunks =>
      r ← esp_ota_write E h (Some c);
      if negb (r =? ESP_OK) then mret r else ota_write_all h chunks
  end.

(** [data] has been written to update [h] of a partition at [addr], of which
    [room] bytes were erased; [c0] is the flash elsewhere. *)
Record streaming (h addr size room : Z) (c0 : Z -> Z) (data : list Z) s : Prop := {
  st_entry : exists it, find_entry h (s_ota_ops_entries s) = Some it
    /\ p_address (o_part it) = addr /\ p_size (o_part it) = size /\ p_encrypted (o_part it) = false
    /\ 0 < erased_size it /\ wrote_size it = Z.of_nat (length data);
  st_room : Z.of_nat (length data) <= room <= size /\ 0 <= addr /\ addr + size < 2 ^ 32;
  st_data : forall i, 0 <= i < Z.of_nat (length data) -> content (chip (fl (op s))) (addr + i) = at_ 0 data i;
  st_free : forall i, Z.of_nat (length data) <= i < room -> content (chip (fl (op s))) (addr + i) = 255;
  st_out : forall a, ~ addr <= a < addr + room -> content (chip (fl (op s))) a = c0 a;
  st_mmu : sized (mmu (op s)) /\ chip_size (mmu (op s)) <= 2 ^ 24;
  st_enc : flash_encryption_enabled (op s) = false
}.

Lemma find_update h f l it :
  (forall e, o_handle (f e) = o_handle e) -> find_entry h l = Some it -> find_entry h (update_entry h f l) = Some (f it).
Proof.
  intros Hf. induction l as [|e l IH]; cbn [find_entry update_entry]; [done|]. destruct (o_handle e =? h) eqn:Eh.
  - intros [= ->]. cbn [find_entry]. by rewrite Hf, Eh.
  - intros H%IH. cbn [find_entry]. by rewrite Eh.
Qed.

(** One write returns; if it succeeds the chunk is appended. *)
Lemma stream_write h addr size room c0 data chunk s :
  streaming h addr size room c0 data s -> Forall (fun b => 0 <= b < 256) chunk ->
  Z.of_nat (length data) + Z.of_nat (length chunk) <= room ->
  exists r s', esp_ota_write E h (Some chunk) s = Ret (r, s')
    /\ (r = ESP_OK -> streaming h addr size room c0 (data ++ chunk) s').
Proof.
  intros [(it & Hf & A1 & A2 & A3 & A4 & A5) (Hroom & Ha0 & Ha1) Hd Hfr Hout [Hsz Hc] Henc] Hb Hlen.
  unfold esp_ota_write, mbind at 1, M_bind at 1, get at 1. rewrite Hf.
  unfold mbind at 1, M_bind at 1, check. rewrite (proj2 (Z.ltb_lt _ _) A4). unfold mret at 1, M_ret at 1.
  destruct (_ && _ && _); [by eexists _, _|]. rewrite Henc. unfold write_rest.
  destruct (partition_write_run (op s) (o_part it) (malloc_ok E) (junk E) (wrote_size it) (buf_addr E) chunk)
    as (r & f & Hrun & Hs' & Hm & Hok); try done; try (rewrite ?A1, ?A2, ?A5; lia).
  unfold mbind at 1, M_bind at 1, part_write. rewrite (on_part_run _ _ _ s Hrun).
  destruct (Z.eqb_spec r ESP_OK) as [->|Hne].
  2: { eexists _, _. split; [done|]. done. }
  eexists _, _. split; [done|]. intros _. destruct (Hok eq_refl) as [_ Hcont]. rewrite A1, A5 in Hcont.
  assert (Hl : length (data ++ chunk) = (length data + length chunk)%nat) by apply length_app.
  assert (Hp : forall a, content (chip f) a
     = if within (addr + Z.of_nat (length data)) (Z.of_nat (length chunk)) a
       then (if decide (content (chip (fl (op s))) a = 255) then at_ 0 chunk (a - (addr + Z.of_nat (length data)))
             else content (chip f) a)
       else content (chip (fl (op s))) a).
  { intros a. destruct (within _ _ a) eqn:Ew.
    - destruct (decide _) as [E5|]; [|done]. rewrite Hcont. apply programmed_erased; [done|done|exact E5].
    - by rewrite Hcont, programmed_all, Ew. }
  split; cbn [set_op set_entries op s_ota_ops_entries fl with_fl flash_encryption_enabled]; try done.
  - exists (set_wrote (u32 (wrote_size it + Z.of_nat (length chunk))) it). split.
    + rewrite (find_update h _ _ it); done.
    + cbn [set_wrote o_part erased_size wrote_size]. rewrite A5, u32_small, Hl by lia. split_and!; try done. lia.
  - lia.
  - intros i Hi. rewrite Hp, at_app by lia. rewrite Hl in Hi. destruct (Z.ltb_spec i (Z.of_nat (length data))).
    + rewrite (proj2 (within_false _ _ _)) by lia. apply Hd. lia.
    + rewrite (proj2 (within_spec _ _ _)) by lia. rewrite decide_True by (apply Hfr; lia). f_equal. lia.
  - intros i Hi. rewrite Hp, (proj2 (within_false _ _ _)) by lia. apply Hfr. lia.
  - intros a Hna. rewrite Hp, (proj2 (within_false _ _ _)) by lia. apply Hout. lia.
  - split; [done|]. destruct Hm as (_ & _ & _ & _ & _ & Hcs). unfold mmu in *. cbn [fl with_fl]. lia.
Qed.

Lemma stream_write_all h addr size room c0 chunks data s :
  streaming h addr size room c0 data s -> Forall (Forall (fun b => 0 <= b < 256)) chunks ->
  Z.of_nat (length data) + Z.of_nat (length (concat chunks)) <= room ->
  exists r s', ota_write_all h chunks s = Ret (r, s')
    /\ (r = ESP_OK -> streaming h addr size room c0 (data ++ concat chunks) s').
Proof.
  intros Hst Hb. revert data s Hst. induction Hb as [|c chunks Hc _ IH]; intros data s Hst Hlen.
  { eexists _, _. split; [done|]. cbn. by rewrite app_nil_r. }
  cbn [concat] in *. rewrite length_app in Hlen.
  destruct (stream_write h addr size room c0 data c s Hst Hc ltac:(lia)) as (r & s1 & Hrun & Hok).
  cbn [ota_write_all]. unfold mbind, M_bind. rewrite Hrun. destruct (Z.eqb_spec r ESP_OK) as [->|Hne]; cbn [negb].
  - destruct (IH (data ++ c) s1 (Hok eq_refl)) as (r & s' & Hrun' & Hok'); [rewrite length_app; lia|].
    exists r, s'. split; [done|]. intros Hr. rewrite app_assoc. by apply Hok'.
  - by exists r, s1.
Qed.

(** An update of an unencrypted partition stores what it is given.  After
    a successful [esp_ota_begin] of [image_size] bytes, writing any chunks that
    fit always returns; if every write succeeds, the partition holds exactly
    the concatenation of the chunks from its start on, and no byte outside the
    erased part of the partition has changed. *)
Theorem ota_write_stores s p image_size h s1 chunks :
  s_partition_list (op s) <> [] -> flash_encryption_enabled (op s) = false ->
  sized (mmu (op s)) -> chip_size (mmu (op s)) <= 2 ^ 24 ->
  0 <= p_address p -> p_address p + p_size p < 2 ^ 32 -> p_encrypted p = false ->
  0 < image_size -> image_size + 4096 <= p_size p ->
  esp_ota_begin E (Some p) image_size s = Ret ((ESP_OK, Some h), s1) ->
  Forall (Forall (fun b => 0 <= b < 256)) chunks -> Z.of_nat (length (concat chunks)) <= image_size ->
  exists r s2, ota_write_all h chunks s1 = Ret (r, s2)
    /\ (r = ESP_OK ->
        (forall i, 0 <= i < Z.of_nat (length (concat chunks)) ->
           content (chip (fl (op s2))) (p_address p + i) = at_ 0 (concat chunks) i)
        /\ forall a, ~ p_address p <= a < p_address p + p_size p ->
             content (chip (fl (op s2))) a = content (chip (fl (op s))) a).
Proof.
  intros Hne Henc Hsz Hc Ha0 Ha1 Hpe Hi0 Hi1 Hbeg Hb Hlen.
  destruct (begin_inv _ _ _ _ _ Hne Hbeg) as (p' & o & P1 & P2 & P3 & Her & Ho & Hent).
  rewrite (proj2 (Z.eqb_neq image_size 0)), (proj2 (Z.eqb_neq image_size OTA_SIZE_UNKNOWN)) in Her, Hent
    by (unfold OTA_SIZE_UNKNOWN; lia). cbn [orb] in Her, Hent.
  pose proof (Z.div_mod image_size 4096 ltac:(lia)). pose proof (Z.mod_pos_bound image_size 4096 ltac:(lia)).
  change SPI_FLASH_SEC_SIZE with 4096 in Her. rewrite u32_small in Her by lia.
  set (room := (image_size / 4096 + 1) * 4096) in *.
  destruct (partition_erase_run (op s) p' 0 room) as (r & f & Hrun & Hm & Hok); rewrite ?P1, ?P2; try lia.
  rewrite Her in Hrun. injection Hrun as <- ->. destruct (Hok eq_refl) as [_ Hcont]. rewrite P1, Z.add_0_r in Hcont.
  destruct (stream_write_all h (p_address p) (p_size p) room (content (chip (fl (op s)))) chunks [] s1)
    as (r & s2 & Hrun2 & Hst); [|done|cbn [length]; lia|].
  - split; rewrite ?Ho; cbn [fl with_fl flash_encryption_enabled]; try done.
    + rewrite Hent. eexists. cbn [find_entry o_handle]. rewrite Z.eqb_refl. split; [done|].
      cbn [o_part erased_size wrote_size length]. split_and!; congruence || lia.
    + cbn [length]. lia.
    + cbn [length]. lia.
    + intros i Hi. rewrite Hcont, (proj2 (within_spec _ _ _)) by lia. done.
    + intros a Hna. by rewrite Hcont, (proj2 (within_false _ _ _)) by lia.
    + unfold mmu in *. cbn [with_fl fl]. by rewrite Hm.
  - exists r, s2. split; [done|]. intros Hr. destruct (Hst Hr) as [_ _ Hd _ Hout _ _]. cbn [app] in Hd.
    split; [done|]. intros a Hna. apply Hout. lia.
Qed.

(** ** The next partition to update *)

(** The first partition of each OTA subtype from [t] on. *)
Definition slots_from (l : list esp_partition_t) (t : Z) (n : nat) : list esp_partition_t :=
  omap (fun t => head (found ESP_PARTITION_TYPE_APP t None l)) (seqZ t (Z.of_nat n)).

Definition slots (l : list esp_partition_t) : list esp_partition_t :=
  slots_from l ESP_PARTITION_SUBTYPE_APP_OTA_0 16.

Lemma slots_from_S l t n :
  slots_from l t (S n) = match head (found ESP_PARTITION_TYPE_APP t None l) with
                         | Some p => p :: slots_from l (t + 1) n
                         | None => slots_from l (t + 1) n
                         end.
Proof.
  unfold slots_from. rewrite seqZ_cons by lia. cbn [omap list_omap].
  by replace (Z.pred (Z.of_nat (S n))) with (Z.of_nat n) by lia; replace (Z.succ t) with (t + 1) by lia.
Qed.

Lemma found_head l t p :
  t <> ESP_PARTITION_SUBTYPE_ANY -> head (found ESP_PARTITION_TYPE_APP t None l) = Some p ->
  p ∈ l /\ p_type p = ESP_PARTITION_TYPE_APP /\ p_subtype p = t.
Proof.
  intros Ht [r Hr]%head_Some.
  assert (Hin : p ∈ found ESP_PARTITION_TYPE_APP t None l) by (rewrite Hr; left).
  apply list_elem_of_filter in Hin as [Hm Hin]. unfold matches in Hm.
  apply andb_true_iff in Hm as [[H1%Z.eqb_eq H2]%andb_true_iff _].
  apply orb_true_iff in H2 as [H2%Z.eqb_eq|H2%Z.eqb_eq]; done.
Qed.

Lemma slots_from_elem l t n p :
  t + Z.of_nat n <= 255 -> p ∈ slots_from l t n ->
  p ∈ l /\ p_type p = ESP_PARTITION_TYPE_APP /\ t <= p_subtype p < t + Z.of_nat n.
Proof.
  revert t. induction n as [|n IH]; intros t Ht; [by intros ?%not_elem_of_nil|]. rewrite slots_from_S.
  intros Hin. assert (Hc : head (found ESP_PARTITION_TYPE_APP t None l) = Some p \/ p ∈ slots_from l (t + 1) n).
  { destruct (head _) as [q|]; [|by right]. apply elem_of_cons in Hin as [->|]; auto. }
  destruct Hc as [(H1 & H2 & H3)%found_head|(H1 & H2 & H3)%IH]; unfold ESP_PARTITION_SUBTYPE_ANY; try lia;
    split_and!; done || lia.
Qed.

Lemma slots_from_NoDup l t n : t + Z.of_nat n <= 255 -> NoDup (slots_from l t n).
Proof.
  revert t. induction n as [|n IH]; intros t Ht; [constructor|]. rewrite slots_from_S.
  destruct (head _) as [p|] eqn:Eh; [|apply IH; lia]. apply NoDup_cons. split; [|apply IH; lia].
  intros (_ & _ & Hs)%slots_from_elem; [|lia].
  apply found_head in Eh as (_ & _ & Hp); [lia|unfold ESP_PARTITION_SUBTYPE_ANY; lia].
Qed.

Lemma next_loop_run s n t start d nir :
  s_partition_list (op s) <> [] -> t + Z.of_nat n <= 255 -> (nir = true -> is_Some d /\ p_subtype start < t) ->
  let l := slots_from (s_partition_list (op s)) t n in
  exists r, next_loop E n t start d nir s = Ret (r, s)
    /\ (nir = true -> r = match l with [] => d | p :: _ => Some p end)
    /\ (nir = false ->
        let d' := match d with None => head l | _ => d end in
        (start ∉ l -> r = d') /\ (forall j, l !! j = Some start -> r = match l !! S j with None => d' | x => x end)).
Proof.
  intros Hne. revert t d nir. induction n as [|n IH]; intros t d nir Ht Hnir l; cbn [next_loop].
  { exists d. split; [done|]. split; [done|]. intros _. split; [by destruct d|done]. }
  unfold l. rewrite slots_from_S. unfold mbind, M_bind. rewrite find_first_ota by done.
  destruct (head (found ESP_PARTITION_TYPE_APP t None _)) as [p|] eqn:Eh.
  2: { destruct (IH (t + 1) d nir) as (r & Hr); [lia|intros Hn; destruct (Hnir Hn); split; [done|lia]|]. by exists r. }
  destruct (found_head _ t p ltac:(unfold ESP_PARTITION_SUBTYPE_ANY; lia) Eh) as (_ & _ & Hsub).
  set (d1 := match d with None => Some p | _ => d end).
  destruct (bool_decide_reflect (p = start)) as [->|Hps].
  - destruct nir; [destruct (Hnir eq_refl); lia|].
    destruct (IH (t + 1) d1 true) as (r & Hr & H1 & _); [lia|intros _; split; [by destruct d|lia]|].
    exists r. split; [exact Hr|]. split; [done|]. intros _. split; [intros Hni; destruct Hni; left|].
    intros j Hj. rewrite (H1 eq_refl). destruct j as [|j]; cbn [lookup list_lookup].
    + destruct (slots_from (s_partition_list (op s)) (t + 1) n) as [|x l2]; [by unfold d1; destruct d|reflexivity].
    + exfalso. cbn in Hj. apply list_elem_of_lookup_2, slots_from_elem in Hj as (_ & _ & Hj); lia.
  - destruct nir.
    { exists (Some p). split; [done|]. split; [done|]. done. }
    destruct (IH (t + 1) d1 false) as (r & Hr & _ & H2); [lia|done|]. exists r. split; [exact Hr|]. split; [done|].
    intros _. destruct (H2 eq_refl) as [H3 H4].
    assert (Hdd : match d1 with None => head (slots_from (s_partition_list (op s)) (t + 1) n) | _ => d1 end
                  = match d with None => Some p | _ => d end) by (unfold d1; by destruct d).
    rewrite Hdd in H3, H4. split.
    + intros Hni. apply H3. intros Hin. apply Hni. by right.
    + intros [|j] Hj; [by injection Hj|]. cbn [lookup list_lookup] in Hj |- *. by apply H4.
Qed.

(** Updates rotate through the OTA slots.  With the table loaded,
    [esp_ota_get_next_update_partition] of a partition the table holds returns
    the next of the OTA slots in subtype order, cyclically, and the first slot
    if the partition is in none; the result is an OTA application partition of
    the table, and another one than the given whenever there are two slots. *)
Theorem next_update_rotates s p start :
  s_partition_list (op s) <> [] -> esp_partition_verify (malloc_ok E) p (op s) = Ret (Some start, op s) ->
  let l := slots (s_partition_list (op s)) in
  exists r, esp_ota_get_next_update_partition E (Some p) s = Ret (r, s)
    /\ (start ∉ l -> r = head l)
    /\ (forall j, l !! j = Some start -> r = l !! (S j mod length l)%nat)
    /\ (forall q, r = Some q -> q ∈ s_partition_list (op s) /\ is_ota_partition q = true
                                /\ ((2 <= length l)%nat -> q <> start)).
Proof.
  intros Hne Hver l. unfold slots in l. unfold esp_ota_get_next_update_partition, mbind, M_bind.
  rewrite (on_part_run _ _ _ s Hver), set_op_op.
  destruct (next_loop_run s 16 ESP_PARTITION_SUBTYPE_APP_OTA_0 start None false) as (r & Hr & _ & H); [done|done|done|].
  change (Z.to_nat (ESP_PARTITION_SUBTYPE_APP_OTA_MAX - ESP_PARTITION_SUBTYPE_APP_OTA_0)) with 16%nat.
  exists r. split; [exact Hr|]. fold l in H. destruct (H eq_refl) as [H1 H2]. clear H Hr.
  cbv zeta in H1, H2. fold l in H1, H2.
  assert (Hnd : NoDup l) by (by apply slots_from_NoDup).
  assert (Hmod : forall j, l !! j = Some start -> r = l !! (S j mod length l)%nat).
  { intros j Hj. rewrite (H2 j Hj). pose proof (lookup_lt_Some _ _ _ Hj) as Hlt.
    destruct (l !! S j) as [x|] eqn:Ex.
    - apply lookup_lt_Some in Ex as Hx. by rewrite Nat.mod_small.
    - apply lookup_ge_None in Ex. replace (S j) with (length l) by lia. rewrite Nat.Div0.mod_same. by destruct l. }
  split; [done|]. split; [done|]. intros q ->.
  assert (Hq : q ∈ l).
  { destruct (decide (start ∈ l)) as [Hin|Hin].
    - apply list_elem_of_lookup_1 in Hin as [j Hj]. apply (list_elem_of_lookup_2 _ (S j mod length l)). by rewrite <- (Hmod j Hj).
    - specialize (H1 Hin). destruct l; [done|]. injection H1 as ->. left. }
  destruct (slots_from_elem (s_partition_list (op s)) ESP_PARTITION_SUBTYPE_APP_OTA_0 16 q ltac:(unfold ESP_PARTITION_SUBTYPE_APP_OTA_0, ESP_PARTITION_SUBTYPE_APP_OTA_MIN; lia) Hq) as (Q1 & Q2 & Q3). split; [done|]. split.
  { unfold is_ota_partition. rewrite Q2, (proj2 (Z.leb_le _ _)), (proj2 (Z.ltb_lt _ _)); [done|apply Q3|apply Q3]. }
  intros Hlen ->. apply list_elem_of_lookup_1 in Hq as [j Hj]. pose proof (Hmod j Hj) as Hj2.
  pose proof (NoDup_lookup _ _ _ _ Hnd Hj (eq_sym Hj2)) as Heq. pose proof (lookup_lt_Some _ _ _ Hj).
  destruct (decide (S j = length l)) as [El|El]; [rewrite El, Nat.Div0.mod_same in Heq; lia|].
  rewrite Nat.mod_small in Heq by lia. lia.
Qed.

End Boot.

(** ** Instances *)

#[local] Existing Instances ideal_rom ideal_laws.

Definition ex_env : env := Env (fun _ l => le_decode l) 0x3F40E100 0x3FFB0000 true [].

Definition ex_data : esp_partition_t := Part 1 0 0x9000 0x2000 [111; 116; 97] false.
Definition ex_factory : esp_partition_t := Part 0 0 0xE000 0x1000 [102] false.
Definition ex_ota0 : esp_partition_t := Part 0 0x10 0x10000 0x10000 [48] false.
Definition ex_ota1 : esp_partition_t := Part 0 0x11 0x20000 0x10000 [49] false.

(** Sequence number 5 (slot 0) is in the first sector, an image in slot 1. *)
Definition ex_select : ota_select := OtaSelect 5 (replicate 24 0) 5.

Definition ex_chip : list nor_op :=
  [NorWrite 0x20000 Image.ex_image; NorErase 0x20000 4096;
   NorWrite 0x9000 (encode_select ex_select); NorErase 0x9000 8192].

Definition ex_ota : ota_state (list nor_op) :=
  OtaState (PartState (set_chip ex_chip FlashOps.ex_state) [ex_data; ex_factory; ex_ota1; ex_ota0] false)
    [] 0 ex_select ex_select 0.

Definition ex_set : outcome (esp_err_t * ota_state (list nor_op)) :=
  esp_ota_set_boot_partition ex_env (Some ex_ota1) ex_ota.

Lemma ex_ready : ready_with (s_partition_list (op ex_ota)) FlashMmap.ex_base ex_data 2 2 (op ex_ota).
Proof.
  split; try apply FlashMmap.ex_state_inv; try done.
  - split; try done. intros k Hk. assert (k = 0 \/ k = 1) as [-> | ->] by lia; done.
  - exists 0. split; [done|]. intros k Hk. right. change (pages_of (p_size ex_data)) with 1 in Hk.
    assert (k = 0) as -> by lia. reflexivity.
Qed.

Lemma set_boot_takes_effect_witness :
  exists s' p' s'', ex_set = Ret (ESP_OK, s') /\ esp_ota_get_boot_partition ex_env s' = Ret (Some p', s'')
    /\ p_subtype p' = 0x11.
Proof.
  destruct (set_boot_takes_effect ex_env (s_partition_list (op ex_ota)) FlashMmap.ex_base ex_data 2 ex_ota ex_ota1 1) as (r & s' & Hrun & Hok);
    [intros w a; reflexivity|reflexivity|apply ex_ready|lia| |reflexivity|reflexivity|
     vm_compute; congruence|vm_compute; reflexivity|].
  - intros q Hq. assert (E : chosen ex_env (selects (content (chip (fl (op ex_ota)))) ex_data) = Some 5)
      by (vm_compute; reflexivity). rewrite E in Hq. injection Hq as <-. lia.
  - assert (E : match ex_set with Ret (r, _) => r | Stuck _ => 1 end = ESP_OK) by (vm_compute; reflexivity).
    unfold ex_set in *. rewrite Hrun in E. subst r. destruct (Hok eq_refl) as (p' & s'' & H1 & _ & _ & H2).
    exists s', p', s''. split_and!; [exact Hrun|exact H1|exact H2].
Defined.

Definition ex_begin : ota_state (list nor_op) :=
  match esp_ota_begin ex_env (Some ex_ota0) 48 ex_ota with Ret (_, s) => s | Stuck _ => ex_ota end.

Lemma ota_write_stores_witness :
  exists s2, ota_write_all ex_env 1 [take 20 Image.ex_image; drop 20 Image.ex_image] ex_begin = Ret (ESP_OK, s2)
    /\ content (chip (fl (op s2))) (0x10000 + 47) = 0xEB.
Proof.
  destruct (ota_write_stores ex_env ex_ota ex_ota0 48 1 ex_begin [take 20 Image.ex_image; drop 20 Image.ex_image])
    as (r & s2 & Hrun & Hok);
    [discriminate|reflexivity|split; reflexivity|vm_compute; congruence|vm_compute; congruence|reflexivity|reflexivity|
     lia|vm_compute; congruence|vm_compute; reflexivity| |vm_compute; congruence|].
  - repeat constructor; vm_compute; congruence.
  - assert (E : match ota_write_all ex_env 1 [take 20 Image.ex_image; drop 20 Image.ex_image] ex_begin with
                | Ret (r, _) => r | Stuck _ => 1 end = ESP_OK) by (vm_compute; reflexivity).
    rewrite Hrun in E. subst r. exists s2. split; [exact Hrun|].
    destruct (Hok eq_refl) as [Hd _]. change (0x10000 + 47) with (p_address ex_ota0 + 47). rewrite (Hd 47); [vm_compute; reflexivity|].
    split; [lia|vm_compute; reflexivity].
Defined.

Lemma next_update_rotates_witness :
  exists r, esp_ota_get_next_update_partition ex_env (Some ex_ota1) ex_ota = Ret (r, ex_ota) /\ r = Some ex_ota0.
Proof.
  destruct (next_update_rotates ex_env ex_ota ex_ota1 ex_ota1) as (r & Hrun & _ & Hj & _);
    [discriminate|vm_compute; reflexivity|].
  exists r. split; [exact Hrun|]. rewrite (Hj 1%nat); vm_compute; reflexivity.
Defined.

(** With flash encryption, an update whose first write is shorter than 16 bytes
    must repeat the magic byte in the next write. *)
Example ota_short_first_write :
  match (_ ← esp_ota_write ex_env 1 (Some (take 4 Image.ex_image)); esp_ota_write ex_env 1 (Some (drop 4 Image.ex_image)))
          (set_op (PartState (fl (op ex_begin)) (s_partition_list (op ex_begin)) true) ex_begin) with
  | Ret (r, _) => r = ESP_ERR_OTA_VALIDATE_FAILED
  | Stuck _ => False
  end.
Proof. vm_compute. reflexivity. Qed.

(** Choosing the test application (subtype 0x20) selects slot 0. *)
Example set_boot_of_test_app :
  match (_ ← esp_ota_set_boot_partition ex_env (Some (Part 0 0x20 0x20000 0x10000 [] false));
         esp_ota_get_boot_partition ex_env) ex_ota with
  | Ret (p, _) => p = Some ex_ota0
  | Stuck _ => False
  end.
Proof. vm_compute. reflexivity. Qed.

End Ota.
