(* ===== verification/Boot.v ===== *)
(** * The second-stage boot loader (components/bootloader/src/main/bootloader_start.c,
      components/bootloader_support/src/bootloader_flash.c)

    The boot loader runs on ROM functions only: the flash chip is a
    [RomFlash], the cache MMU a [RomCache], whose laws are the documentation
    of [cache_flash_mmu_set] and [mmu_init] (rom/cache.h).  [shows k cpu page]
    is the flash page the 64 KB page [page] of the address space shows.  RAM is
    the list of the blocks copied into it.  Clock, console, watchdog, random
    number source and cache enabling are hardware set-up and not represented;
    secure boot and flash encryption are not configured. *)

From S2P Require Import Prelude FlashMmap FlashOps Partition Image Ota.

#[local] Open Scope Z_scope.

Module Boot.
Import FlashOps.

Definition MMU_BLOCK0_VADDR : Z := 0x3f400000.
Definition MMU_BLOCK50_VADDR : Z := 0x3f720000.
Definition MMU_FLASH_MASK : Z := 0xffff0000.
Definition MMU_BLOCK_SIZE : Z := 0x00010000.
Definition SPI_SEC_SIZE : Z := 0x1000.
Definition PART_SUBTYPE_FACTORY : Z := 0x00.
Definition PART_SUBTYPE_OTA_FLAG : Z := 0x10.
Definition PART_SUBTYPE_OTA_MASK : Z := 0x0f.
Definition PART_SUBTYPE_TEST : Z := 0x20.
Definition SOC_IROM_LOW : Z := 0x400D0000.
Definition SOC_IROM_HIGH : Z := 0x40400000.
Definition SOC_DROM_LOW : Z := 0x3F400000.
Definition SOC_DROM_HIGH : Z := 0x3F800000.
Definition SOC_RTC_IRAM_LOW : Z := 0x400C0000.
Definition SOC_RTC_IRAM_HIGH : Z := 0x400C2000.
Definition SOC_RTC_DATA_LOW : Z := 0x50000000.
Definition SOC_RTC_DATA_HIGH : Z := 0x50002000.

(** [cache_flash_mmu_set cpu 0 vaddr paddr 64 num], with its error status, and
    [mmu_init cpu]. *)
Class RomCache (K : Type) := {
  cache_flash_mmu_set : Z -> Z -> Z -> Z -> K -> Z * K;
  mmu_init : Z -> K -> K;
  shows : K -> Z -> Z -> option Z
}.

(** Aligned requests inside the data window succeed and map consecutive pages,
    on the given CPU only. *)
Class RomCacheLaws (K : Type) `{RomCache K} := {
  mmu_set_maps : forall cpu v p n k k', cache_flash_mmu_set cpu v p n k = (0, k') ->
    forall c page, shows k' c page
      = if (c =? cpu) && within (v / MMU_BLOCK_SIZE) n page then Some (p / MMU_BLOCK_SIZE + (page - v / MMU_BLOCK_SIZE))
        else shows k c page;
  mmu_set_accepts : forall cpu v p n k, v mod MMU_BLOCK_SIZE = 0 -> p mod MMU_BLOCK_SIZE = 0 ->
    SOC_DROM_LOW <= v -> 0 <= n -> v + n * MMU_BLOCK_SIZE <= SOC_DROM_HIGH ->
    0 <= p -> p + n * MMU_BLOCK_SIZE <= 2 ^ 24 ->
    fst (cache_flash_mmu_set cpu v p n k) = 0
}.

Record esp_partition_pos_t := Pos { offset : Z; size : Z }.

Record bootloader_state_t := BootloaderState {
  ota_info : esp_partition_pos_t; factory : esp_partition_pos_t; test : esp_partition_pos_t;
  ota : list esp_partition_pos_t; app_count : Z
}.

Definition zero_pos : esp_partition_pos_t := Pos 0 0.
Definition zero_bs : bootloader_state_t := BootloaderState zero_pos zero_pos zero_pos (replicate 16 zero_pos) 0.

Definition spi_to_esp_err (r : rom_result) : esp_err_t :=
  match r with
  | RESULT_OK => ESP_OK
  | RESULT_ERR => ESP_ERR_FLASH_OP_FAIL
  | RESULT_TIMEOUT => ESP_ERR_FLASH_OP_TIMEOUT
  end.

Section Boot.
Context {W K : Type} `{RomFlash W} `{RomCache K}.

Record boot_state := BootState {
  b_chip : W;
  b_cache : K;
  mapped : bool;
  current_read_mapping : Z;
  g_rom_flashchip_size : Z;
  ram : list (Z * list Z)       (* address and contents of the blocks copied, in order *)
}.

Definition set_cache (k : K) (s : boot_state) : boot_state :=
  BootState (b_chip s) k (mapped s) (current_read_mapping s) (g_rom_flashchip_size s) (ram s).
Definition set_mapped (b : bool) (s : boot_state) : boot_state :=
  BootState (b_chip s) (b_cache s) b (current_read_mapping s) (g_rom_flashchip_size s) (ram s).
Definition set_read_mapping (z : Z) (s : boot_state) : boot_state :=
  BootState (b_chip s) (b_cache s) (mapped s) z (g_rom_flashchip_size s) (ram s).
Definition set_bchip (w : W) (s : boot_state) : boot_state :=
  BootState w (b_cache s) (mapped s) (current_read_mapping s) (g_rom_flashchip_size s) (ram s).

Definition mmu_set (cpu vaddr paddr num : Z) : M boot_state Z :=
  s ← get;
  let '(e, k) := cache_flash_mmu_set cpu vaddr paddr num (b_cache s) in
  modify (set_cache k);; mret e.

(** A ROM call that may change the chip. *)
Definition rom_call (f : W -> rom_result * W) : M boot_state rom_result :=
  s ← get;
  let '(r, w) := f (b_chip s) in
  modify (set_bchip w);; mret r.

(** The bytes the PRO CPU reads at [ptr], [ptr + 1], ... through the cache. *)
Fixpoint cache_bytes (s : boot_state) (ptr : Z) (n : nat) : outcome (list Z) :=
  match n with
  | O => Ret []
  | S n =>
      match shows (b_cache s) 0 (ptr / MMU_BLOCK_SIZE) with
      | None => Stuck OutOfBounds
      | Some page =>
          rest ← cache_bytes s (ptr + 1) n;
          Ret (decrypted (b_chip s) (page * MMU_BLOCK_SIZE + ptr mod MMU_BLOCK_SIZE) :: rest)
      end
  end.

(** ** bootloader_flash.c *)

Definition bootloader_mmap (src_addr size : Z) : M boot_state (option Z) :=
  s ← get;
  if mapped s then mret None
  else if 0x320000 <? size then mret None
  else
    let src_addr_aligned := Z.land src_addr MMU_FLASH_MASK in
    let count := u32 (size + (src_addr - src_addr_aligned) + 0xffff) / MMU_BLOCK_SIZE in
    e ← mmu_set 0 MMU_BLOCK0_VADDR src_addr_aligned count;
    if negb (e =? 0) then mret None
    else
      modify (set_mapped true);;
      mret (Some (MMU_BLOCK0_VADDR + (src_addr - src_addr_aligned))).

Definition bootloader_munmap : M boot_state unit :=
  s ← get;
  if mapped s then
    modify (fun s => set_read_mapping UINT32_MAX (set_mapped false (set_cache (mmu_init 0 (b_cache s)) s)))
  else mret tt.

(** [dest] is the destination before the call; a failed read leaves it. *)
Definition bootloader_flash_read_no_decrypt (src_addr : Z) (dest : list Z) : M boot_state (esp_err_t * list Z) :=
  s ← get;
  match rom_read src_addr (Z.of_nat (length dest)) (b_chip s) with
  | (RESULT_OK, l) => mret (ESP_OK, l)
  | (r, _) => mret (spi_to_esp_err r, dest)
  end.

(** The loop over the words from [word] on, [n] of them left. *)
Fixpoint read_words (n : nat) (word src_addr : Z) (dest : list Z) : M boot_state (esp_err_t * list Z) :=
  match n with
  | O => mret (ESP_OK, dest)
  | S n =>
      let word_src := u32 (src_addr + word * 4) in
      let map_at := Z.land word_src MMU_FLASH_MASK in
      s ← get;
      e ← (if negb (map_at =? current_read_mapping s) then
             e ← mmu_set 0 MMU_BLOCK50_VADDR map_at 1;
             if negb (e =? 0) then mret e else modify (set_read_mapping map_at);; mret 0
           else mret 0);
      if negb (e =? 0) then mret (ESP_FAIL, dest)
      else
        s ← get;
        b ← lift (cache_bytes s (MMU_BLOCK50_VADDR + (word_src - map_at)) 4);
        dest ← lift (blit dest (word * 4) b);
        read_words n (word + 1) src_addr dest
  end.

Definition bootloader_flash_read_allow_decrypt (src_addr : Z) (dest : list Z) : M boot_state (esp_err_t * list Z) :=
  read_words (length dest / 4) 0 src_addr dest.

Definition bootloader_flash_read (src_addr dsti : Z) (dest : list Z) (allow_decrypt : bool) :
    M boot_state (esp_err_t * list Z) :=
  if negb (Z.land src_addr 3 =? 0) then mret (ESP_FAIL, dest)
  else if negb (Z.land (Z.of_nat (length dest)) 3 =? 0) then mret (ESP_FAIL, dest)
  else if negb (Z.land dsti 3 =? 0) then mret (ESP_FAIL, dest)
  else if allow_decrypt then bootloader_flash_read_allow_decrypt src_addr dest
  else bootloader_flash_read_no_decrypt src_addr dest.

Definition bootloader_flash_write (dest_addr srcc : Z) (src : list Z) (write_encrypted : bool) :
    M boot_state esp_err_t :=
  let alignment := if write_encrypted then 32 else 4 in
  if negb (dest_addr mod alignment =? 0) then mret ESP_FAIL
  else if negb (Z.of_nat (length src) mod alignment =? 0) then mret ESP_FAIL
  else if negb (srcc mod 4 =? 0) then mret ESP_FAIL
  else
    r ← rom_call rom_unlock;
    if negb (spi_to_esp_err r =? ESP_OK) then mret (spi_to_esp_err r)
    else
      r ← rom_call (if write_encrypted then rom_write_encrypted dest_addr src else rom_write dest_addr src);
      mret (spi_to_esp_err r).

Definition bootloader_flash_erase_sector (sector : Z) : M boot_state esp_err_t :=
  r ← rom_call (rom_erase_sector sector); mret (spi_to_esp_err r).

(** The image code's reader in the boot loader; its buffers are aligned. *)
#[export] Instance boot_reader : Image.FlashReader boot_state := {|
  Image.flash_read src dest := bootloader_flash_read src 0 dest true;
  Image.flash_view s := decrypted (b_chip s);
  Image.flash_limit s := g_rom_flashchip_size s;
  Image.reader_ok s := True;
  Image.reader_frame s s' := b_chip s' = b_chip s;
  Image.reliable := rom_reliable (W := W)
|}.

(** ** bootloader_start.c *)

(** One entry of the partition table. *)
Definition load_entry (bs : bootloader_state_t) (partition : Partition.esp_partition_info_t) : bootloader_state_t :=
  let pos := Pos (Partition.i_offset partition) (Partition.i_size partition) in
  let subtype := Partition.i_subtype partition in
  if Partition.i_type partition =? Partition.PART_TYPE_APP then
    if subtype =? PART_SUBTYPE_FACTORY then BootloaderState (ota_info bs) pos (test bs) (ota bs) (app_count bs)
    else if subtype =? PART_SUBTYPE_TEST then BootloaderState (ota_info bs) (factory bs) pos (ota bs) (app_count bs)
    else if Z.ldiff subtype PART_SUBTYPE_OTA_MASK =? PART_SUBTYPE_OTA_FLAG then
      BootloaderState (ota_info bs) (factory bs) (test bs)
        (<[Z.to_nat (Z.land subtype PART_SUBTYPE_OTA_MASK) := pos]> (ota bs)) (u32 (app_count bs + 1))
    else bs
  else if Partition.i_type partition =? Partition.PART_TYPE_DATA then
    if subtype =? Partition.PART_SUBTYPE_DATA_OTA
    then BootloaderState pos (factory bs) (test bs) (ota bs) (app_count bs)
    else bs
  else bs.

Definition ESP_PARTITION_TABLE_DATA_LEN : Z := 0xC00.

(** The result carries the state [*bs]. *)
Definition load_partition_table (bs : bootloader_state_t) : M boot_state (bool * bootloader_state_t) :=
  partitions ← bootloader_mmap Partition.ESP_PARTITION_TABLE_ADDR ESP_PARTITION_TABLE_DATA_LEN;
  match partitions with
  | None => mret (false, bs)
  | Some partitions =>
      s ← get;
      table ← lift (cache_bytes s partitions (Z.to_nat ESP_PARTITION_TABLE_DATA_LEN));
      let '(err, num_partitions) := Image.esp_partition_table_basic_verify (g_rom_flashchip_size s) table in
      if negb (err =? ESP_OK) then mret (false, bs)
      else
        let bs := foldl load_entry bs (Image.entry table <$> seq 0 (Z.to_nat num_partitions)) in
        bootloader_munmap;;
        mret (true, bs)
  end.

Context (crc32_le : Z -> list Z -> Z).

Definition ota_select_crc (s : Ota.ota_select) : Z := u32 (crc32_le UINT32_MAX (le_encode 4 (Ota.ota_seq s))).

Definition ota_select_valid (s : Ota.ota_select) : bool :=
  negb (Ota.ota_seq s =? UINT32_MAX) && (Ota.crc s =? ota_select_crc s).

(** [bs.ota[(seq - 1) % bs.app_count]] *)
Definition ota_slot (bs : bootloader_state_t) (seq : Z) : outcome esp_partition_pos_t :=
  if app_count bs =? 0 then Stuck DivByZero else rd (ota bs) (u32 (seq - 1) mod app_count bs).

(** Lines 317-337: no factory application, start with slot 0. *)
Definition init_ota_data (bs : bootloader_state_t) (sa sb : Ota.ota_select) : M boot_state (option esp_partition_pos_t) :=
  pos ← lift (rd (ota bs) 0);
  let with_seq seq x := Ota.OtaSelect seq (Ota.seq_label x) (Ota.crc x) in
  let with_crc x := Ota.OtaSelect (Ota.ota_seq x) (Ota.seq_label x) (ota_select_crc x) in
  let sa := with_crc (with_seq 1 sa) in
  let sb := with_crc (with_seq 0 sb) in
  r1 ← rom_call (rom_erase_sector (offset (ota_info bs) / 0x1000));
  r2 ← rom_call (rom_erase_sector (offset (ota_info bs) / 0x1000 + 1));
  if negb (bool_decide (r1 = RESULT_OK)) || negb (bool_decide (r2 = RESULT_OK)) then mret None
  else
    r1 ← rom_call (rom_write (offset (ota_info bs)) (Ota.encode_select sa));
    r2 ← rom_call (rom_write (u32 (offset (ota_info bs) + 0x1000)) (Ota.encode_select sb));
    if negb (bool_decide (r1 = RESULT_OK)) || negb (bool_decide (r2 = RESULT_OK)) then mret None
    else mret (Some pos).

(** Lines 293-365 of [bootloader_main]: the partition to load, [None] when the
    boot loader gives up. *)
Definition select_partition (bs : bootloader_state_t) : M boot_state (option esp_partition_pos_t) :=
  if negb (offset (ota_info bs) =? 0) then
    if size (ota_info bs) <? 2 * SPI_SEC_SIZE then mret None
    else
      map ← bootloader_mmap (offset (ota_info bs)) (size (ota_info bs));
      match map with
      | None => mret None
      | Some ota_select_map =>
          s ← get;
          a ← lift (cache_bytes s ota_select_map 32);
          b ← lift (cache_bytes s (ota_select_map + SPI_SEC_SIZE) 32);
          bootloader_munmap;;
          let sa := Ota.decode_select a in
          let sb := Ota.decode_select b in
          if (Ota.ota_seq sa =? 0xFFFFFFFF) && (Ota.ota_seq sb =? 0xFFFFFFFF) then
            if negb (offset (factory bs) =? 0) then mret (Some (factory bs)) else init_ota_data bs sa sb
          else if ota_select_valid sa && ota_select_valid sb then
            p ← lift (ota_slot bs (Z.max (Ota.ota_seq sa) (Ota.ota_seq sb))); mret (Some p)
          else if ota_select_valid sa then p ← lift (ota_slot bs (Ota.ota_seq sa)); mret (Some p)
          else if ota_select_valid sb then p ← lift (ota_slot bs (Ota.ota_seq sb)); mret (Some p)
          else if negb (offset (factory bs) =? 0) then mret (Some (factory bs))
          else mret None
      end
  else if negb (offset (factory bs) =? 0) then mret (Some (factory bs))
  else if negb (offset (test bs) =? 0) then mret (Some (test bs))
  else mret None.

(** ** Loading the application *)

(** Where the mapped segments are: flash address, load address, size. *)
Record rom_seg := RomSeg { rom_addr : Z; rom_load_addr : Z; rom_size : Z }.

Definition in_region (lo hi a : Z) : bool := (lo <=? a) && (a <? hi).

(** Is the segment copied to RAM?  [load_rtc_memory] is false after deep sleep. *)
Definition is_loaded (load_rtc_memory : bool) (address : Z) : bool :=
  negb (address =? 0x00000000) && negb (address =? 0x00000004)
  && negb (in_region SOC_DROM_LOW SOC_DROM_HIGH address) && negb (in_region SOC_IROM_LOW SOC_IROM_HIGH address)
  && (load_rtc_memory || (negb (in_region SOC_RTC_IRAM_LOW SOC_RTC_IRAM_HIGH address)
                          && negb (in_region SOC_RTC_DATA_LOW SOC_RTC_DATA_HIGH address))).

(** Lines 512-546: copy a segment; [false] when it cannot be loaded.  [sp] is
    the stack pointer. *)
Definition load_segment (sp : Z) (hdr : Image.esp_image_segment_header_t) (data_offs : Z) : M boot_state bool :=
  let end_addr := to_signed 32 (Image.load_addr hdr + Image.data_len hdr) in
  if (end_addr <? 0x40000000) && (to_signed 32 sp <? end_addr) then mret false
  else
    data ← bootloader_mmap data_offs (Image.data_len hdr);
    match data with
    | None => mret false
    | Some ptr =>
        s ← get;
        b ← lift (cache_bytes s ptr (Z.to_nat (Image.data_len hdr)));
        modify (fun s => BootState (b_chip s) (b_cache s) (mapped s) (current_read_mapping s)
                           (g_rom_flashchip_size s) (ram s ++ [(Image.load_addr hdr, b)]));;
        bootloader_munmap;;
        mret true
    end.

(** The loop over the segments: the mapped regions, [None] on failure. *)
Fixpoint load_segments (n : nat) (i : Z) (sp : Z) (load_rtc : bool) (src : Z) (h : Image.esp_image_header_t)
    (drom irom : rom_seg) : M boot_state (option (rom_seg * rom_seg)) :=
  match n with
  | O => mret (Some (drom, irom))
  | S n =>
      r ← Image.esp_image_load_segment_header i src h Image.zero_segment 0;
      let '(err, hdr, data_offs) := r in
      if negb (err =? ESP_OK) then mret None
      else
        let address := Image.load_addr hdr in
        let seg := RomSeg data_offs address (u32 (Image.data_len hdr + 8)) in
        let drom := if in_region SOC_DROM_LOW SOC_DROM_HIGH address then seg else drom in
        let irom := if in_region SOC_IROM_LOW SOC_IROM_HIGH address then seg else irom in
        ok ← (if is_loaded load_rtc address then load_segment sp hdr data_offs else mret true);
        if negb ok then mret None
        else load_segments n (i + 1) sp load_rtc src h drom irom
  end.

(** Map a region on both CPUs; results are ignored. *)
Definition map_rom (r : rom_seg) : M boot_state unit :=
  let page_count := u32 (rom_size r + 64 * 1024 - 1) / (64 * 1024) in
  mmu_set 0 (Z.land (rom_load_addr r) 0xffff0000) (Z.land (rom_addr r) 0xffff0000) page_count;;
  mmu_set 1 (Z.land (rom_load_addr r) 0xffff0000) (Z.land (rom_addr r) 0xffff0000) page_count;;
  mret tt.

(** [Some entry]: control went to the application's entry point. *)
Definition set_cache_and_start_app (drom irom : rom_seg) (entry_addr : Z) : M boot_state (option Z) :=
  map_rom drom;; map_rom irom;; mret (Some entry_addr).

Definition unpack_load_app (sp : Z) (load_rtc : bool) (partition : esp_partition_pos_t) : M boot_state (option Z) :=
  r ← Image.esp_image_basic_verify (offset partition);
  if negb (fst r =? ESP_OK) then mret None
  else
    r ← Image.esp_image_load_header (offset partition);
    let '(err, h) := r in
    if negb (err =? ESP_OK) then mret None
    else
      r ← load_segments (Z.to_nat (Image.segment_count h)) 0 sp load_rtc (offset partition) h
            (RomSeg 0 0 0) (RomSeg 0 0 0);
      match r with
      | None => mret None
      | Some (drom, irom) => set_cache_and_start_app drom irom (Image.entry_addr h)
      end.

(** The flash size the image header announces, in bytes. *)
Definition flash_size_of (spi_size : Z) : Z :=
  (if spi_size =? 0 then 1 else if spi_size =? 1 then 2 else if spi_size =? 2 then 4
   else if spi_size =? 3 then 8 else if spi_size =? 4 then 16 else 2) * 0x100000.

Definition update_flash_config (h : Image.esp_image_header_t) : M boot_state unit :=
  modify (fun s => BootState (b_chip s) (b_cache s) (mapped s) (current_read_mapping s)
                     (flash_size_of (Image.spi_size h)) (ram s)).

Definition bootloader_main (sp : Z) (load_rtc : bool) : M boot_state (option Z) :=
  rom_call rom_unlock;;
  r ← Image.esp_image_load_header 0x1000;
  let '(err, fhdr) := r in
  if negb (err =? ESP_OK) then mret None
  else
    update_flash_config fhdr;;
    r ← load_partition_table zero_bs;
    let '(ok, bs) := r in
    if negb ok then mret None
    else
      p ← select_partition bs;
      match p with
      | None => mret None
      | Some pos => unpack_load_app sp load_rtc pos
      end.

End Boot.
Arguments boot_state : clear implicits.

(** ** Reading through the cache *)

Section Cache.
Context {W K : Type} `{!RomFlash W} `{!RomCache K} `{!RomCacheLaws K}.
Implicit Types (s : boot_state W K).

(** The pages [ptr .. ptr + n) shows are those of flash from [phys] on. *)
Definition visible s (ptr phys n : Z) : Prop :=
  forall i, 0 <= i < n -> exists page, shows (b_cache s) 0 ((ptr + i) / MMU_BLOCK_SIZE) = Some page
    /\ page * MMU_BLOCK_SIZE + (ptr + i) mod MMU_BLOCK_SIZE = phys + i.

Lemma cache_bytes_run s ptr phys n :
  visible s ptr phys (Z.of_nat n) -> cache_bytes s ptr n = Ret (Image.bytes (decrypted (b_chip s)) phys (Z.of_nat n)).
Proof.
  revert ptr phys. induction n as [|n IH]; intros ptr phys Hv; [done|]. cbn [cache_bytes].
  destruct (Hv 0 ltac:(lia)) as (page & Hs & Hp). rewrite !Z.add_0_r in Hs, Hp. rewrite Hs.
  rewrite (IH (ptr + 1) (phys + 1)).
  - cbn [mbind outcome_bind]. f_equal. replace (Z.of_nat (S n)) with (1 + Z.of_nat n) by lia.
    rewrite Image.bytes_app, Hp by lia. reflexivity.
  - intros i Hi. destruct (Hv (1 + i) ltac:(lia)) as (pg & H1 & H2). exists pg.
    rewrite (Z.add_assoc ptr), (Z.add_assoc phys) in *. done.
Qed.

(** A window of [n] pages set to show flash from page [p] on. *)
Lemma window_visible (k k' : K) s v p n off phys len :
  cache_flash_mmu_set 0 v p n k = (0, k') -> b_cache s = k' -> v mod MMU_BLOCK_SIZE = 0 -> p mod MMU_BLOCK_SIZE = 0 ->
  0 <= off -> phys = p + off -> off + len <= n * MMU_BLOCK_SIZE -> visible s (v + off) phys len.
Proof.
  intros Hset Hk Hv Hp Ho -> Hlen i Hi. unfold MMU_BLOCK_SIZE in *.
  pose proof (Z.div_mod v 65536 ltac:(lia)) as Dv. pose proof (Z.div_mod p 65536 ltac:(lia)) as Dp.
  rewrite Hv, Z.add_0_r in Dv. rewrite Hp, Z.add_0_r in Dp.
  pose proof (Z.div_mod (off + i) 65536 ltac:(lia)) as Do. pose proof (Z.mod_pos_bound (off + i) 65536 ltac:(lia)).
  assert (Hq : (v + off + i) / 65536 = v / 65536 + (off + i) / 65536).
  { rewrite <- Z.add_assoc, Dv at 1. rewrite Z.mul_comm, Z.div_add_l by lia. done. }
  assert (Hm : (v + off + i) mod 65536 = (off + i) mod 65536).
  { rewrite <- Z.add_assoc, Dv at 1. rewrite Z.mul_comm, Z.add_comm, Z.mod_add by lia. done. }
  assert (0 <= (off + i) / 65536 < n).
  { split; [apply Z.div_pos; lia|apply Z.div_lt_upper_bound; lia]. }
  exists (p / 65536 + (off + i) / 65536). rewrite Hk, (mmu_set_maps _ _ _ _ _ _ Hset), Hq, Hm.
  unfold MMU_BLOCK_SIZE. rewrite Z.eqb_refl, (proj2 (within_spec _ _ _)) by lia. cbn [andb].
  split; [f_equal; lia|lia].
Qed.

Lemma mmu_set_run cpu v p n s :
  exists k, mmu_set cpu v p n s = Ret (fst (cache_flash_mmu_set cpu v p n (b_cache s)), set_cache k s)
    /\ cache_flash_mmu_set cpu v p n (b_cache s) = (fst (cache_flash_mmu_set cpu v p n (b_cache s)), k).
Proof.
  unfold mmu_set, mbind, M_bind, get. destruct (cache_flash_mmu_set cpu v p n (b_cache s)) as [e k]. by exists k.
Qed.

(** The pages [bootloader_mmap] sets. *)
Definition map_count (src size : Z) : Z := (size + src mod 65536 + 0xffff) / MMU_BLOCK_SIZE.

Lemma land_mask src : 0 <= src < 2 ^ 32 -> Z.land src MMU_FLASH_MASK = src - src mod 65536.
Proof. intros H. unfold MMU_FLASH_MASK. by apply land_page. Qed.

Lemma mask_aligned src : (src - src mod 65536) mod MMU_BLOCK_SIZE = 0.
Proof. unfold MMU_BLOCK_SIZE. rewrite Zminus_mod, Zmod_mod, Z.sub_diag. done. Qed.

(** Mapping a range of flash that is not too large. *)
Lemma boot_mmap_run src sz s :
  mapped s = false -> 0 <= src -> 0 <= sz <= 0x320000 -> src + sz <= 2 ^ 24 ->
  exists k, bootloader_mmap src sz s = Ret (Some (MMU_BLOCK0_VADDR + src mod 65536), set_mapped true (set_cache k s))
    /\ cache_flash_mmu_set 0 MMU_BLOCK0_VADDR (src - src mod 65536) (map_count src sz) (b_cache s) = (0, k)
    /\ visible (set_mapped true (set_cache k s)) (MMU_BLOCK0_VADDR + src mod 65536) src sz.
Proof.
  intros Hm H0 H1 H2. unfold bootloader_mmap, mbind at 1, M_bind at 1, get at 1. rewrite Hm.
  rewrite (proj2 (Z.ltb_ge _ _)) by lia. rewrite land_mask by lia.
  pose proof (Z.mod_pos_bound src 65536 ltac:(lia)). pose proof (Z.div_mod src 65536 ltac:(lia)).
  replace (src - (src - src mod 65536)) with (src mod 65536) by lia. rewrite u32_small by lia.
  fold (map_count src sz).
  pose proof (Z.div_mod (sz + src mod 65536 + 65535) 65536 ltac:(lia)) as Hd.
  pose proof (Z.mod_pos_bound (sz + src mod 65536 + 65535) 65536 ltac:(lia)).
  change ((sz + src mod 65536 + 65535) / 65536) with (map_count src sz) in Hd.
  assert (0 <= map_count src sz) by (apply Z.div_pos; [lia|done]).
  assert (src / 65536 * 65536 + map_count src sz * 65536 <= 2 ^ 24) by lia.
  destruct (mmu_set_run 0 MMU_BLOCK0_VADDR (src - src mod 65536) (map_count src sz) s) as (k & Hr & Hs).
  assert (Hacc : fst (cache_flash_mmu_set 0 MMU_BLOCK0_VADDR (src - src mod 65536) (map_count src sz) (b_cache s)) = 0).
  { apply mmu_set_accepts; try done; [apply mask_aligned| |lia|unfold MMU_BLOCK_SIZE; lia].
    unfold MMU_BLOCK0_VADDR, SOC_DROM_HIGH, MMU_BLOCK_SIZE. lia. }
  rewrite Hacc in Hr, Hs.
  exists k. split.
  - unfold mbind, M_bind. rewrite Hr. done.
  - split; [done|]. eapply window_visible; [exact Hs|done|done|apply mask_aligned|lia|lia|unfold MMU_BLOCK_SIZE; lia].
Qed.

Lemma visible_sub s ptr phys n off len :
  visible s ptr phys n -> 0 <= off -> off + len <= n -> visible s (ptr + off) (phys + off) len.
Proof. intros Hv Ho Hl i Hi. rewrite <- !Z.add_assoc. apply Hv. lia. Qed.

(** The window for reads shows the block [current_read_mapping] names. *)
Definition read_ok s : Prop :=
  current_read_mapping s = UINT32_MAX
  \/ exists p, current_read_mapping s = p * 65536
      /\ shows (b_cache s) 0 (MMU_BLOCK50_VADDR / MMU_BLOCK_SIZE) = Some p.

(** Moving the window to the block of [a], if it is not there. *)
Lemma window_run a s :
  read_ok s -> 0 <= a -> a + 4 <= 2 ^ 24 -> a mod 4 = 0 ->
  let map_at := a - a mod 65536 in
  exists s', (if negb (map_at =? current_read_mapping s) then
                e ← mmu_set 0 MMU_BLOCK50_VADDR map_at 1;
                if negb (e =? 0) then mret e else modify (set_read_mapping map_at);; mret 0
              else mret 0) s = Ret (0, s')
    /\ b_chip s' = b_chip s /\ mapped s' = mapped s /\ read_ok s'
    /\ visible s' (MMU_BLOCK50_VADDR + a mod 65536) a 4.
Proof.
  intros Hok H0 H1 H4 map_at. pose proof (Z.mod_pos_bound a 65536 ltac:(lia)) as Hmb.
  pose proof (Z.div_mod a 65536 ltac:(lia)) as Hd. assert (Hma : map_at = a / 65536 * 65536) by (unfold map_at; lia).
  assert (Hin : a mod 65536 + 4 <= 65536).
  { assert ((a mod 65536) mod 4 = 0) by (rewrite Z.mod_mod_divide; [done|by exists 16384]).
    pose proof (Z.div_mod (a mod 65536) 4 ltac:(lia)). lia. }
  assert (0 <= a / 65536) by (apply Z.div_pos; lia).
  destruct (Z.eqb_spec map_at (current_read_mapping s)) as [Heq|Hne]; cbn [negb].
  - exists s. split; [done|]. split_and!; try done.
    destruct Hok as [Hu|(p & Hp & Hsh)]; [unfold UINT32_MAX in Hu; lia|].
    assert (p = a / 65536) as -> by lia. intros i Hi. exists (a / 65536). unfold MMU_BLOCK50_VADDR, MMU_BLOCK_SIZE in *.
    replace (0x3f720000 + a mod 65536 + i) with (a mod 65536 + i + 16242 * 65536) by lia.
    rewrite Z.div_add, Z.mod_add, (Z.div_small (a mod 65536 + i)), (Z.mod_small (a mod 65536 + i)) by lia.
    change (0 + 16242) with 16242. change (0x3f720000 / 65536) with 16242 in Hsh. split; [done|lia].
  - destruct (mmu_set_run 0 MMU_BLOCK50_VADDR map_at 1 s) as (k & Hr & Hs).
    assert (Hacc : fst (cache_flash_mmu_set 0 MMU_BLOCK50_VADDR map_at 1 (b_cache s)) = 0).
    { apply mmu_set_accepts; try apply mask_aligned; unfold MMU_BLOCK_SIZE, map_at in *; done || lia. }
    rewrite Hacc in Hr, Hs. exists (set_read_mapping map_at (set_cache k s)). unfold mbind, M_bind. rewrite Hr.
    split; [done|]. split_and!; try done.
    + right. exists (a / 65536). split; [done|]. cbn [set_read_mapping set_cache b_cache].
      rewrite (mmu_set_maps _ _ _ _ _ _ Hs), Z.eqb_refl, (proj2 (within_spec _ _ _)) by lia. cbn [andb].
      rewrite Hma. unfold MMU_BLOCK_SIZE. rewrite Z.div_mul by lia. f_equal. lia.
    + eapply window_visible; [exact Hs|done|done|apply mask_aligned|lia|unfold map_at; lia|unfold MMU_BLOCK_SIZE; lia].
Qed.

Lemma read_words_run n word src dest s :
  read_ok s -> 0 <= src -> src mod 4 = 0 -> 0 <= word -> 4 * (word + Z.of_nat n) = Z.of_nat (length dest) ->
  src + Z.of_nat (length dest) <= 2 ^ 24 ->
  exists dest' s', read_words n word src dest s = Ret ((ESP_OK, dest'), s')
    /\ b_chip s' = b_chip s /\ mapped s' = mapped s /\ read_ok s' /\ length dest' = length dest
    /\ forall i, 0 <= i -> at_ 0 dest' i = if within (4 * word) (4 * Z.of_nat n) i
                                          then decrypted (b_chip s) (src + i) else at_ 0 dest i.
Proof.
  revert word dest s. induction n as [|n IH]; intros word dest s Hok H0 H4 Hw Hlen Hlim; cbn [read_words].
  { exists dest, s. split; [done|]. split_and!; try done. intros i Hi. by rewrite (proj2 (within_false _ _ _)) by lia. }
  rewrite (u32_small (src + word * 4)), land_mask by lia.
  destruct (window_run (src + word * 4) s) as (s1 & Hrun & C1 & M1 & R1 & V1); [done|lia|lia| |].
  { by rewrite Z.mod_add by lia. }
  set (a := src + word * 4) in *. replace (a - (a - a mod 65536)) with (a mod 65536) by lia.
  unfold mbind at 1, M_bind at 1, get at 1. unfold mbind at 1, M_bind at 1. rewrite Hrun. cbn [Z.eqb negb].
  unfold mbind at 1, M_bind at 1, get at 1. unfold mbind at 1, M_bind at 1, lift at 1.
  rewrite (cache_bytes_run s1 _ a 4 V1), C1. change (Z.of_nat 4) with 4.
  destruct (blit_spec dest (word * 4) (Image.bytes (decrypted (b_chip s)) a 4)) as (d1 & Hd1 & Ld1 & Ad1);
    [lia|rewrite Image.length_bytes; lia|].
  unfold mbind, M_bind, lift. rewrite Hd1.
  destruct (IH (word + 1) d1 s1) as (d' & s' & Hr' & C' & M' & R' & L' & A'); try done; [lia|lia|rewrite Ld1; lia|].
  exists d', s'. split; [exact Hr'|]. split_and!; try done; try congruence.
  intros i Hi. rewrite A', C1, Ad1 by done. rewrite Image.length_bytes. change (Z.of_nat (Z.to_nat 4)) with 4.
  destruct (within (4 * (word + 1)) (4 * Z.of_nat n) i) eqn:E1.
  - apply within_spec in E1. by rewrite (proj2 (within_spec _ _ _)) by lia.
  - apply within_false in E1. destruct (within (word * 4) 4 i) eqn:E2.
    + apply within_spec in E2. rewrite (proj2 (within_spec _ _ _)) by lia. rewrite Image.at_bytes by lia.
      f_equal. unfold a. lia.
    + apply within_false in E2. by rewrite (proj2 (within_false _ _ _)) by lia.
Qed.

Lemma land_3 x : Z.land x 3 = x mod 4.
Proof. change 3 with (Z.ones 2). apply Z.land_ones. lia. Qed.

(** Reads of the boot loader return flash.  While the read window shows the
    block it is recorded to show, a word-aligned [bootloader_flash_read] (with
    decryption) of a range below 16 MB succeeds, fills the buffer with the
    range's bytes, moving the 64 KB window as often as the range requires, and
    keeps the window's record true; a misaligned read fails and changes
    nothing. *)
Theorem boot_read_correct src dsti dest s :
  read_ok s -> 0 <= src -> src + Z.of_nat (length dest) <= 2 ^ 24 ->
  exists err dest' s', bootloader_flash_read src dsti dest true s = Ret ((err, dest'), s')
    /\ b_chip s' = b_chip s /\ read_ok s'
    /\ (src mod 4 = 0 /\ Z.of_nat (length dest) mod 4 = 0 /\ dsti mod 4 = 0 ->
        err = ESP_OK /\ dest' = Image.bytes (decrypted (b_chip s)) src (Z.of_nat (length dest)))
    /\ (~ (src mod 4 = 0 /\ Z.of_nat (length dest) mod 4 = 0 /\ dsti mod 4 = 0) -> err = ESP_FAIL /\ dest' = dest).
Proof.
  intros Hok H0 H1. unfold bootloader_flash_read. rewrite !land_3.
  case_test; [eexists _, _, _; split; [done|]; split_and!; try done; intros [? _]; done|].
  case_test; [eexists _, _, _; split; [done|]; split_and!; try done; intros (_ & ? & _); done|].
  case_test; [eexists _, _, _; split; [done|]; split_and!; try done; intros (_ & _ & ?); done|].
  unfold bootloader_flash_read_allow_decrypt.
  assert (Hl : 4 * Z.of_nat (length dest / 4) = Z.of_nat (length dest)).
  { rewrite Nat2Z.inj_div. change (Z.of_nat 4) with 4. pose proof (Z.div_mod (Z.of_nat (length dest)) 4 ltac:(lia)). lia. }
  destruct (read_words_run (length dest / 4) 0 src dest s) as (d' & s' & Hr & C' & M' & R' & L' & A'); try done; try lia.
  exists ESP_OK, d', s'. split; [done|]. split_and!; try done; [|by intros []].
  intros _. split; [done|]. apply (at_ext 0); [rewrite L', Image.length_bytes; lia|]. intros i Hi. rewrite L' in Hi.
  rewrite A', (proj2 (within_spec _ _ _)), Image.at_bytes by lia. done.
Qed.

(** ** The partition table *)

Lemma boot_munmap_run s : mapped s = true ->
  bootloader_munmap s
  = Ret (tt, set_read_mapping UINT32_MAX (set_mapped false (set_cache (mmu_init 0 (b_cache s)) s))).
Proof. intros H. unfold bootloader_munmap, mbind, M_bind, get. by rewrite H. Qed.

(** An entry for OTA slot [k]. *)
Definition is_slot (k : Z) (i : Partition.esp_partition_info_t) : bool :=
  (Partition.i_type i =? Partition.PART_TYPE_APP) && (Partition.i_subtype i =? PART_SUBTYPE_OTA_FLAG + k).

Definition is_ota (i : Partition.esp_partition_info_t) : bool :=
  (Partition.i_type i =? Partition.PART_TYPE_APP)
  && within PART_SUBTYPE_OTA_FLAG 16 (Partition.i_subtype i).

Definition is_ota_data (i : Partition.esp_partition_info_t) : bool :=
  (Partition.i_type i =? Partition.PART_TYPE_DATA) && (Partition.i_subtype i =? Partition.PART_SUBTYPE_DATA_OTA).

Definition pos_of (i : Partition.esp_partition_info_t) : esp_partition_pos_t :=
  Pos (Partition.i_offset i) (Partition.i_size i).

Lemma ota_subtype x : 0 <= x < 256 ->
  (Z.ldiff x PART_SUBTYPE_OTA_MASK =? PART_SUBTYPE_OTA_FLAG) = within PART_SUBTYPE_OTA_FLAG 16 x
  /\ (within PART_SUBTYPE_OTA_FLAG 16 x = true -> Z.land x PART_SUBTYPE_OTA_MASK = x - PART_SUBTYPE_OTA_FLAG).
Proof.
  intros Hx. unfold PART_SUBTYPE_OTA_MASK, PART_SUBTYPE_OTA_FLAG. change 0x0f with (Z.ones 4).
  rewrite Z.ldiff_ones_r, Z.shiftr_div_pow2, Z.shiftl_mul_pow2, Z.land_ones by lia. change (2 ^ 4) with 16.
  pose proof (Z.div_mod x 16 ltac:(lia)). pose proof (Z.mod_pos_bound x 16 ltac:(lia)).
  destruct (within 16 16 x) eqn:E.
  - apply within_spec in E. assert (x / 16 = 1) by lia. split; [apply Z.eqb_eq; lia|lia].
  - apply within_false in E. split; [|done]. apply Z.eqb_neq. lia.
Qed.

(** What one entry does to the slots, the count and the OTA data. *)
Lemma load_entry_spec bs i :
  length (ota bs) = 16%nat -> 0 <= Partition.i_subtype i < 256 ->
  let bs' := load_entry bs i in
  length (ota bs') = 16%nat
  /\ (forall k, 0 <= k < 16 -> ota bs' !! Z.to_nat k = if is_slot k i then Some (pos_of i) else ota bs !! Z.to_nat k)
  /\ app_count bs' = (if is_ota i then u32 (app_count bs + 1) else app_count bs)
  /\ ota_info bs' = (if is_ota_data i then pos_of i else ota_info bs).
Proof.
  intros Hl Hs. destruct (ota_subtype _ Hs) as [Hd Hland]. cbv zeta. unfold load_entry, is_slot, is_ota, is_ota_data.
  destruct (Z.eqb_spec (Partition.i_type i) Partition.PART_TYPE_APP) as [Ht|Ht]; cbn [andb].
  - rewrite (proj2 (Z.eqb_neq (Partition.i_type i) Partition.PART_TYPE_DATA)) by (rewrite Ht; done). cbn [andb].
    rewrite Hd. unfold PART_SUBTYPE_FACTORY, PART_SUBTYPE_TEST, PART_SUBTYPE_OTA_FLAG in *.
    destruct (Z.eqb_spec (Partition.i_subtype i) 0) as [E0|E0].
    { rewrite E0. split_and!; try done. intros k Hk. by rewrite (proj2 (Z.eqb_neq 0 _)) by lia. }
    destruct (Z.eqb_spec (Partition.i_subtype i) 0x20) as [E2|E2].
    { rewrite E2. split_and!; try done. intros k Hk. by rewrite (proj2 (Z.eqb_neq 0x20 _)) by lia. }
    destruct (within 16 16 (Partition.i_subtype i)) eqn:Ew; cbn [ota app_count ota_info].
    + apply within_spec in Ew as Hw. rewrite (Hland eq_refl). split_and!; try done; [by rewrite length_insert|].
      intros k Hk. destruct (Z.eqb_spec (Partition.i_subtype i) (16 + k)) as [E|E].
      * replace (Z.to_nat (Partition.i_subtype i - 16)) with (Z.to_nat k) by lia. apply list_lookup_insert_eq. lia.
      * apply list_lookup_insert_ne. lia.
    + apply within_false in Ew. split_and!; try done. intros k Hk. by rewrite (proj2 (Z.eqb_neq _ (16 + k))) by lia.
  - destruct (Partition.i_type i =? Partition.PART_TYPE_DATA); cbn [andb]; [|done].
    by destruct (Partition.i_subtype i =? Partition.PART_SUBTYPE_DATA_OTA).
Qed.

(** The whole table: a slot is the last entry for it. *)
Lemma load_entries_spec infos bs :
  length (ota bs) = 16%nat -> Forall (fun i => 0 <= Partition.i_subtype i < 256) infos ->
  let bs' := foldl load_entry bs infos in
  (forall k, 0 <= k < 16 -> ota bs' !! Z.to_nat k
     = match last (filter (fun i => is_slot k i = true) infos) with Some i => Some (pos_of i) | None => ota bs !! Z.to_nat k end)
  /\ ota_info bs' = match last (filter (fun i => is_ota_data i = true) infos) with
                    | Some i => pos_of i | None => ota_info bs end.
Proof.
  intros Hl Hf. revert bs Hl. induction Hf as [|i infos Hi _ IH]; intros bs Hl; [done|]. cbn [foldl].
  destruct (load_entry_spec bs i Hl Hi) as (L1 & S1 & _ & I1).
  destruct (IH (load_entry bs i) L1) as [S2 I2]. cbv zeta in *. split.
  - intros k Hk. rewrite S2, S1 by done. destruct (is_slot k i) eqn:E.
    + rewrite filter_cons_True, last_cons by done. by match goal with |- match ?x with _ => _ end = _ => destruct x end.
    + by rewrite filter_cons_False by congruence.
  - rewrite I2, I1. destruct (is_ota_data i) eqn:E.
    + rewrite filter_cons_True, last_cons by done. by case_match.
    + by rewrite filter_cons_False by congruence.
Qed.

(** Loading the partition table at boot.  The loader always returns, leaves
    the chip alone, and succeeds exactly when the table at 0x8000 passes the
    check; then the slots it records are, for each OTA subtype, the last entry
    of that subtype (no position when there is none), likewise for the OTA
    data, and the mapping is released. *)
Theorem load_table_correct s :
  mapped s = false ->
  let table := Image.bytes (decrypted (b_chip s)) Partition.ESP_PARTITION_TABLE_ADDR ESP_PARTITION_TABLE_DATA_LEN in
  exists ok bs s', load_partition_table zero_bs s = Ret ((ok, bs), s')
    /\ b_chip s' = b_chip s
    /\ (ok = true <-> exists n, Image.esp_partition_table_basic_verify (g_rom_flashchip_size s) table = (ESP_OK, n))
    /\ forall n, Image.esp_partition_table_basic_verify (g_rom_flashchip_size s) table = (ESP_OK, Z.of_nat n) ->
        let infos := Image.entry table <$> seq 0 n in
        mapped s' = false /\ bs = foldl load_entry zero_bs infos
        /\ (Forall (fun i => 0 <= Partition.i_subtype i < 256) infos ->
            (forall k, 0 <= k < 16 -> ota bs !! Z.to_nat k
               = Some (default zero_pos (pos_of <$> last (filter (fun i => is_slot k i = true) infos))))
            /\ ota_info bs = default zero_pos (pos_of <$> last (filter (fun i => is_ota_data i = true) infos))).
Proof.
  intros Hm table. unfold load_partition_table.
  destruct (boot_mmap_run Partition.ESP_PARTITION_TABLE_ADDR ESP_PARTITION_TABLE_DATA_LEN s) as (k & Hrun & _ & Hv);
    try done. set (s1 := set_mapped true (set_cache k s)) in *.
  unfold mbind at 1, M_bind at 1. rewrite Hrun. unfold mbind at 1, M_bind at 1, get at 1.
  unfold mbind at 1, M_bind at 1, lift at 1.
  rewrite (cache_bytes_run s1 _ Partition.ESP_PARTITION_TABLE_ADDR (Z.to_nat ESP_PARTITION_TABLE_DATA_LEN))
    by (by rewrite Z2Nat.id by done). rewrite Z2Nat.id by done.
  change (b_chip s1) with (b_chip s). change (g_rom_flashchip_size s1) with (g_rom_flashchip_size s). fold table.
  destruct (Image.esp_partition_table_basic_verify (g_rom_flashchip_size s) table) as [err n] eqn:Ev.
  destruct (Z.eqb_spec err ESP_OK) as [->|Hne]; cbn [negb].
  - unfold mbind at 1, M_bind at 1. rewrite boot_munmap_run by done. eexists _, _, _. split; [done|]. split; [done|].
    split; [split; [by exists n|done]|]. intros m [= ->]. rewrite Nat2Z.id. split; [done|]. split; [done|].
    intros Hf. destruct (load_entries_spec (Image.entry table <$> seq 0 m) zero_bs) as [S1 I1]; [done|done|].
    cbv zeta in *. rewrite I1. split; [|by match goal with |- match ?x with _ => _ end = _ => destruct x end].
    intros j Hj. rewrite S1 by done. match goal with |- match ?x with _ => _ end = _ => destruct x end; [done|]. cbn [zero_bs ota]. cbn [fmap option_fmap option_map default].
    by rewrite lookup_replicate_2 by lia.
  - eexists _, _, _. split; [done|]. split; [done|]. split; [split; [done|by intros (? & [= ? _])]|].
    intros m [= ? _]. done.
Qed.

(** ** The boot loader and the application agree *)

(** The selection, when the OTA data holds a valid sequence number. *)
Lemma select_run E bs part s q pos :
  mapped s = false -> ota_info bs = Pos (Partition.p_address part) (Partition.p_size part) ->
  0 < Partition.p_address part -> 8192 <= Partition.p_size part <= 0x320000 ->
  Partition.p_address part + Partition.p_size part <= 2 ^ 24 ->
  Ota.chosen E (Ota.selects (decrypted (b_chip s)) part) = Some q ->
  ota_slot bs q = Ret pos ->
  exists s', select_partition (Ota.crc32_le E) bs s = Ret (Some pos, s').
Proof.
  intros Hm Hinfo Ha Hsz Hlim Hch Hslot. unfold select_partition. rewrite Hinfo. cbn [offset size].
  rewrite (proj2 (Z.eqb_neq _ _)) by lia. cbn [negb].
  rewrite (proj2 (Z.ltb_ge _ _)) by (unfold SPI_SEC_SIZE; lia).
  destruct (boot_mmap_run (Partition.p_address part) (Partition.p_size part) s) as (k & Hrun & _ & Hv); try done; try lia.
  set (s1 := set_mapped true (set_cache k s)) in *. set (ptr := MMU_BLOCK0_VADDR + _) in *.
  assert (Ha0 : cache_bytes s1 ptr 32 = Ret (Image.bytes (decrypted (b_chip s)) (Partition.p_address part) 32)).
  { apply (cache_bytes_run s1 ptr _ 32). intros j Hj. apply Hv. lia. }
  assert (Hb0 : cache_bytes s1 (ptr + SPI_SEC_SIZE) 32
                = Ret (Image.bytes (decrypted (b_chip s)) (Partition.p_address part + SPI_FLASH_SEC_SIZE) 32)).
  { apply (cache_bytes_run s1 (ptr + SPI_SEC_SIZE) _ 32).
    apply (visible_sub s1 ptr _ (Partition.p_size part) SPI_SEC_SIZE); [done|done|unfold SPI_SEC_SIZE; lia]. }
  unfold Ota.selects in Hch.
  set (sa := Ota.decode_select (Image.bytes _ _ 32)) in Hch at 1. set (sb := Ota.decode_select (Image.bytes _ _ 32)) in Hch.
  set (s2 := set_read_mapping UINT32_MAX (set_mapped false (set_cache (mmu_init 0 (b_cache s1)) s1))).
  exists s2. apply bind_Ret. eexists _, _. split; [exact Hrun|]. apply bind_Ret. exists s1, s1. split; [done|].
  apply bind_Ret. eexists _, _. split; [apply lift_Ret, Ha0|]. apply bind_Ret. eexists _, _. split; [apply lift_Ret, Hb0|].
  apply bind_Ret. exists tt, s2. split; [by apply boot_munmap_run|]. cbv zeta. fold sa sb. clearbody sa sb.
  assert (Hseqs : (Ota.ota_seq sa =? 0xFFFFFFFF) && (Ota.ota_seq sb =? 0xFFFFFFFF) = false).
  { apply not_true_iff_false. intros [Ea Eb]%andb_true_iff. unfold Ota.chosen, Ota.ota_select_valid, UINT32_MAX in Hch.
    by rewrite Ea, Eb in Hch. }
  rewrite Hseqs. unfold Ota.chosen in Hch. rewrite Ota.OTA_MAX_max in Hch.
  change (ota_select_valid (Ota.crc32_le E)) with (Ota.ota_select_valid E).
  destruct (_ && _); [|destruct (Ota.ota_select_valid E sa); [|destruct (Ota.ota_select_valid E sb); [|done]]];
    injection Hch as ->; apply bind_Ret; eexists _, _; (split; [by apply lift_Ret|done]).
Qed.

(** The partitions the application finds are the entries the boot loader sees. *)
Lemma found_slot infos k :
  0 <= k < 16 ->
  Partition.found Ota.ESP_PARTITION_TYPE_APP (Ota.ESP_PARTITION_SUBTYPE_APP_OTA_MIN + k) None (Partition.list_item false <$> infos)
  = Partition.list_item false <$> filter (fun i => is_slot k i = true) infos.
Proof.
  intros Hk. unfold Partition.found. apply filter_fmap. intros i.
  unfold Partition.matches, is_slot. cbn [Partition.list_item Partition.p_type Partition.p_subtype].
  rewrite (proj2 (Z.eqb_neq (Ota.ESP_PARTITION_SUBTYPE_APP_OTA_MIN + k) Partition.ESP_PARTITION_SUBTYPE_ANY))
    by (unfold Ota.ESP_PARTITION_SUBTYPE_APP_OTA_MIN, Partition.ESP_PARTITION_SUBTYPE_ANY; lia).
  cbn [orb]. rewrite andb_true_r, !andb_true_iff, !Z.eqb_eq.
  unfold Ota.ESP_PARTITION_TYPE_APP, Partition.PART_TYPE_APP, Ota.ESP_PARTITION_SUBTYPE_APP_OTA_MIN, PART_SUBTYPE_OTA_FLAG. lia.
Qed.

Lemma found_data infos :
  Partition.found Ota.ESP_PARTITION_TYPE_DATA Ota.ESP_PARTITION_SUBTYPE_DATA_OTA None (Partition.list_item false <$> infos)
  = Partition.list_item false <$> filter (fun i => is_ota_data i = true) infos.
Proof.
  unfold Partition.found. apply filter_fmap. intros i.
  unfold Partition.matches, is_ota_data. cbn [Partition.list_item Partition.p_type Partition.p_subtype].
  change (Ota.ESP_PARTITION_SUBTYPE_DATA_OTA =? Partition.ESP_PARTITION_SUBTYPE_ANY) with false.
  cbn [orb]. rewrite andb_true_r, !andb_true_iff, !Z.eqb_eq.
  unfold Ota.ESP_PARTITION_TYPE_DATA, Partition.PART_TYPE_DATA, Ota.ESP_PARTITION_SUBTYPE_DATA_OTA, Partition.PART_SUBTYPE_DATA_OTA. lia.
Qed.

(** With at most one entry of a kind, the first is the last. *)
Lemma head_item (l : list Partition.esp_partition_info_t) p :
  (length l <= 1)%nat -> head (Partition.list_item false <$> l) = Some p ->
  exists i, last l = Some i /\ pos_of i = Pos (Partition.p_address p) (Partition.p_size p).
Proof. destruct l as [|i [|j l]]; cbn; [done| |lia]. intros _ [= <-]. by exists i. Qed.

(** C8: the boot loader starts what the application chose. The application's
    partition list and the boot loader's record both come from the table
    entries [infos], which have exactly one entry for each of the OTA slots 0
    to [n] - 1 and no other OTA entry, so no gap in the subtypes, and one OTA
    data entry; the flash is not encrypted and there is memory. Once
    [esp_ota_set_boot_partition] of a slot has reported success, the boot
    loader, run on the flash as it is then, selects the very partition
    [esp_ota_get_boot_partition] returns. (With a gap the two count
    differently, bootloader_start.c:179.) *)
Theorem boot_follows_ota `{!RomLaws W} E base part n (s s' : Ota.ota_state W) p slot (infos : list Partition.esp_partition_info_t) (b : boot_state W K) :
  Ota.plain (W := W) -> Ota.malloc_ok E = true ->
  Ota.ready_with (Partition.list_item false <$> infos) base part n 2 (Ota.op s) -> 0 <= slot < n ->
  Ota.seq_ok E n (Ota.selects (content (chip (Partition.fl (Ota.op s)))) part) ->
  Partition.p_type p = Ota.ESP_PARTITION_TYPE_APP ->
  Partition.p_subtype p = Ota.ESP_PARTITION_SUBTYPE_APP_OTA_MIN + slot ->
  0 <= Partition.p_address p -> Partition.p_address p + 24 < 2 ^ 32 ->
  0 < Partition.p_address part -> Partition.p_size part <= 0x320000 ->
  Partition.p_address part + Partition.p_size part <= 2 ^ 24 ->
  Forall (fun i => 0 <= Partition.i_subtype i < 256) infos ->
  let bs := foldl load_entry zero_bs infos in
  app_count bs = n ->
  (forall k, 0 <= k < 16 -> (length (filter (fun i => is_slot k i = true) infos) <= 1)%nat) ->
  (length (filter (fun i => is_ota_data i = true) infos) <= 1)%nat ->
  Ota.esp_ota_set_boot_partition E (Some p) s = Ret (ESP_OK, s') ->
  mapped b = false -> b_chip b = chip (Partition.fl (Ota.op s')) ->
  exists p' o b', Ota.esp_ota_get_boot_partition E s' = Ret (Some p', o)
    /\ Partition.p_subtype p' = Partition.p_subtype p
    /\ select_partition (Ota.crc32_le E) bs b = Ret (Some (Pos (Partition.p_address p') (Partition.p_size p')), b').
Proof.
  intros Hpl Hma Hrd Hslot Hseq Hty Hsub Ha Ha24 Hp0 Hp1 Hp2 Hf bs Hn Hone Hdata Hset Hm Hchip.
  destruct (Ota.set_boot_run E (Partition.list_item false <$> infos) base part n 1 s p slot) as (r & s1 & Hrun & Hok); try done.
  rewrite Hset in Hrun. injection Hrun as <- <-. destruct (Hok eq_refl) as (Hrd' & q & Hq & Hqs).
  destruct (Ota.get_boot_run E (Partition.list_item false <$> infos) base part n 0 s' q slot) as (s'' & Hget); try done.
  pose proof (Ota.rd_table _ _ _ _ _ _ Hrd') as Ht. pose proof (Ota.rd_list _ _ _ _ _ _ Hrd') as Hl.
  pose proof (Ota.to_slots _ _ _ Ht slot Hslot) as Hsome.
  pose proof (Ota.to_n _ _ _ Ht) as Hn16. rewrite Hl in *. rewrite found_slot in Hget, Hsome by lia.
  destruct (head _) as [p'|] eqn:Eh; [|done]. destruct (head_item _ _ (Hone slot ltac:(lia)) Eh) as (i & Hi & Hpos).
  pose proof (Ota.to_data _ _ _ Ht) as Hd. rewrite found_data in Hd.
  destruct (head_item _ _ Hdata Hd) as (d & Hdl & Hdp).
  destruct (load_entries_spec infos zero_bs) as [S1 I1]; [done|done|]. fold bs in S1, I1. rewrite Hdl, Hdp in I1.
  specialize (S1 slot ltac:(lia)). rewrite Hi, Hpos in S1.
  destruct (select_run E bs part b q (Pos (Partition.p_address p') (Partition.p_size p'))) as (b' & Hsel); try done.
  - pose proof (Ota.to_size _ _ _ Ht). lia.
  - rewrite Hchip. rewrite (Ota.selects_ext (content (chip (Partition.fl (Ota.op s'))))); [done|]. intros a. apply Hpl.
  - unfold ota_slot. rewrite Hn. unfold Ota.slot_of in Hqs. destruct (n =? 0); [done|].
    injection Hqs as ->. apply rd_ok. split; [|exact S1]. apply lookup_lt_Some in S1. lia.
  - exists p', s'', b'. split; [done|]. split; [|done].
    rewrite Hsub. rewrite <- found_slot in Eh by lia. apply Ota.found_head in Eh as (_ & _ & ->); [done|].
    unfold Ota.ESP_PARTITION_SUBTYPE_APP_OTA_MIN, Partition.ESP_PARTITION_SUBTYPE_ANY. lia.
Qed.

End Cache.

(** ** Instance: an MMU as the list of its settings, latest first *)

Record mmu_op := MmuOp { mo_cpu : Z; mo_page : Z; mo_num : Z; mo_flash : Z }.

Definition mmu_accepts (v p n : Z) : bool :=
  (v mod MMU_BLOCK_SIZE =? 0) && (p mod MMU_BLOCK_SIZE =? 0) && (SOC_DROM_LOW <=? v)
  && (v + n * MMU_BLOCK_SIZE <=? SOC_DROM_HIGH) && (p + n * MMU_BLOCK_SIZE <=? 2 ^ 24).

Fixpoint list_shows (k : list mmu_op) (cpu page : Z) : option Z :=
  match k with
  | [] => None
  | o :: k => if (cpu =? mo_cpu o) && within (mo_page o) (mo_num o) page
              then Some (mo_flash o + (page - mo_page o)) else list_shows k cpu page
  end.

#[export] Instance list_cache : RomCache (list mmu_op) := {|
  cache_flash_mmu_set cpu v p n k :=
    if mmu_accepts v p n then (0, MmuOp cpu (v / MMU_BLOCK_SIZE) n (p / MMU_BLOCK_SIZE) :: k) else (1, k);
  mmu_init cpu k := filter (fun o => mo_cpu o <> cpu) k;
  shows := list_shows
|}.

#[export] Instance list_cache_laws : RomCacheLaws (list mmu_op).
Proof.
  split.
  - intros cpu v p n k k'. cbn [cache_flash_mmu_set list_cache]. destruct (mmu_accepts v p n); [|done].
    intros [= <-] c page. done.
  - intros cpu v p n k H1 H2 H3 H4 H5 H6 H7. cbn [cache_flash_mmu_set list_cache]. unfold mmu_accepts.
    rewrite H1, H2, (proj2 (Z.leb_le _ _) H3), (proj2 (Z.leb_le _ _) H5), (proj2 (Z.leb_le _ _) H7). done.
Qed.

#[local] Existing Instances ideal_rom ideal_laws.

Definition ex_boot (w : list nor_op) : boot_state (list nor_op) (list mmu_op) :=
  BootState w [] false UINT32_MAX 0x400000 [].

Lemma boot_read_correct_witness :
  exists s', bootloader_flash_read 0x2FFFC 0 (replicate 8 0) true (ex_boot Ota.ex_chip)
             = Ret ((ESP_OK, Image.bytes (nor_byte Ota.ex_chip) 0x2FFFC 8), s').
Proof.
  destruct (boot_read_correct 0x2FFFC 0 (replicate 8 0) (ex_boot Ota.ex_chip))
    as (err & d & s' & Hrun & _ & _ & Hok & _); [left; reflexivity|lia|vm_compute; congruence|].
  destruct Hok as [-> ->]; [split_and!; reflexivity|]. exists s'. exact Hrun.
Defined.

(** The table of the update example: OTA data, factory, two slots. *)
Definition ex_entry (p : Partition.esp_partition_t) : Partition.esp_partition_info_t :=
  Partition.PartInfo Partition.ESP_PARTITION_MAGIC (Partition.p_type p) (Partition.p_subtype p)
    (Partition.p_address p) (Partition.p_size p) (take 16 (Partition.p_label p ++ replicate 16 0)) 0.

Definition ex_infos : list Partition.esp_partition_info_t :=
  ex_entry <$> [Ota.ex_data; Ota.ex_factory; Ota.ex_ota1; Ota.ex_ota0].

Definition ex_table_chip : list nor_op :=
  [NorWrite 0x8000 (concat (Partition.encode_info <$> ex_infos)); NorErase 0x8000 4096].

Definition ex_loaded_table : list Z :=
  Image.bytes (decrypted (b_chip (ex_boot ex_table_chip))) Partition.ESP_PARTITION_TABLE_ADDR ESP_PARTITION_TABLE_DATA_LEN.

Lemma load_table_correct_witness :
  exists s', load_partition_table zero_bs (ex_boot ex_table_chip) = Ret ((true, foldl load_entry zero_bs ex_infos), s').
Proof.
  assert (Ev : Image.esp_partition_table_basic_verify 0x400000 ex_loaded_table = (ESP_OK, Z.of_nat 4))
    by (vm_compute; reflexivity).
  assert (Ei : Image.entry ex_loaded_table <$> seq 0 4 = ex_infos) by (vm_compute; reflexivity).
  destruct (load_table_correct (ex_boot ex_table_chip)) as (ok & bs & s' & Hrun & _ & Hiff & Hok); [reflexivity|].
  exists s'. assert (ok = true) as -> by (apply Hiff; exists (Z.of_nat 4); exact Ev).
  destruct (Hok 4%nat Ev) as (_ & Hbs & _). rewrite Hrun, Hbs, <- Ei. reflexivity.
Defined.

Definition ex_chosen : Ota.ota_state (list nor_op) :=
  match Ota.ex_set with Ret (_, s) => s | Stuck _ => Ota.ex_ota end.

Lemma boot_follows_ota_witness :
  exists b', select_partition (Ota.crc32_le Ota.ex_env) (foldl load_entry zero_bs ex_infos)
               (ex_boot (chip (Partition.fl (Ota.op ex_chosen)))) = Ret (Some (Pos 0x20000 0x10000), b').
Proof.
  destruct (boot_follows_ota Ota.ex_env FlashMmap.ex_base Ota.ex_data 2 Ota.ex_ota ex_chosen Ota.ex_ota1 1 ex_infos
              (ex_boot (chip (Partition.fl (Ota.op ex_chosen))))) as (p' & o & b' & Hget & _ & Hsel);
    [intros w a; reflexivity|reflexivity|apply Ota.ex_ready|lia| |reflexivity|reflexivity|vm_compute; congruence|
     vm_compute; reflexivity|vm_compute; reflexivity|vm_compute; congruence|vm_compute; congruence| |
     vm_compute; reflexivity| |vm_compute; lia|vm_compute; reflexivity|reflexivity|reflexivity|].
  - intros q Hq. assert (E : Ota.chosen Ota.ex_env (Ota.selects (content (chip (Partition.fl (Ota.op Ota.ex_ota)))) Ota.ex_data) = Some 5)
      by (vm_compute; reflexivity). rewrite E in Hq. injection Hq as <-. lia.
  - repeat constructor; vm_compute; congruence.
  - intros k Hk. unfold is_slot, ex_infos. cbn [fmap list_fmap]. unfold ex_entry.
    destruct (decide (k = 0)) as [->|]; [vm_compute; lia|]. destruct (decide (k = 1)) as [->|]; [vm_compute; lia|].
    rewrite !filter_cons_False; [cbn; lia|..]; cbn [Partition.i_type Partition.i_subtype]; rewrite andb_true_iff, !Z.eqb_eq;
      unfold PART_SUBTYPE_OTA_FLAG, Partition.PART_TYPE_APP, Ota.ex_data, Ota.ex_factory, Ota.ex_ota0, Ota.ex_ota1;
      cbn [Partition.p_type Partition.p_subtype]; lia.
  - assert (Ep : match Ota.esp_ota_get_boot_partition Ota.ex_env ex_chosen with Ret (p, _) => p | Stuck _ => None end = Some Ota.ex_ota1)
      by (vm_compute; reflexivity).
    rewrite Hget in Ep. injection Ep as ->. exists b'. exact Hsel.
Defined.

(** A mapping of 50 blocks that does not start at a block boundary covers the
    window for reads, which then shows another block than the one recorded. *)
Example mmap_covers_read_window :
  match (_ ← bootloader_flash_read 0x10000 0 (replicate 4 0) true; _ ← bootloader_mmap 0x8000 0x320000;
         bootloader_flash_read 0x10000 0 (replicate 4 0) true)
          (ex_boot [NorWrite 0x10000 [1; 2; 3; 4]; NorErase 0 0x20000]) with
  | Ret ((err, d), _) => err = ESP_OK /\ d <> [1; 2; 3; 4]
  | Stuck _ => False
  end.
Proof. vm_compute. split; [reflexivity|congruence]. Qed.

(** The pages mapped for a region are counted from the start of its data, not
    of its first page: 0xFFF8 bytes at offset 0x20 of a page get one page. *)
Example map_rom_too_few_pages :
  match map_rom (RomSeg 0x10020 0x3F400020 0xFFF8) (ex_boot []) with
  | Ret (_, s) => shows (b_cache s) 0 (0x3F400020 / MMU_BLOCK_SIZE) = Some 1
                  /\ shows (b_cache s) 0 ((0x3F400020 + 0xFFF0 - 1) / MMU_BLOCK_SIZE) = None
  | Stuck _ => False
  end.
Proof. vm_compute. split; reflexivity. Qed.

End Boot.
