(* ===== verification/RingBuf.v ===== *)
(** * Ring buffers (components/freertos/ringbuf.c)

    A ring buffer is a record with its storage [data] and three positions in
    it.  The pointers of the C structure are offsets from [rb->data], which
    [malloc] aligns to four bytes.  Item headers live inside the storage, as
    two little-endian words (length, flags), the way [buf_entry_hdr_t]
    overlays it; every access faults outside the storage.

    The first part holds the operations: the three ways to write, the two
    ways to read and to give back, the handlers for interrupt context, which
    run under the spinlock, and the blocking calls, where other tasks run
    while the caller waits for a semaphore.  The second part relates a ring of
    items to an abstract queue with outstanding loans, the third a byte ring
    to a stream of bytes. *)

From S2P Require Import Prelude.

#[local] Open Scope Z_scope.

(** ** The structure *)

Inductive ringbuf_type_t : Type :=
| RINGBUF_TYPE_NOSPLIT
| RINGBUF_TYPE_ALLOWSPLIT
| RINGBUF_TYPE_BYTEBUF
| RINGBUF_TYPE_OTHER (n : Z).

Definition flag_allowsplit : Z := 1.
Definition flag_bytebuf : Z := 2.

Definition iflag_free : Z := 1.
Definition iflag_dummydata : Z := 2.

(** The function pointers of the structure. *)
Inductive copy_impl : Type :=
| copyItemToRingbufNoSplit_ptr
| copyItemToRingbufAllowSplit_ptr
| copyItemToRingbufByteBuf_ptr.
Inductive get_impl : Type :=
| getItemFromRingbufDefault_ptr
| getItemFromRingbufByteBuf_ptr.
Inductive return_impl : Type :=
| returnItemToRingbufDefault_ptr
| returnItemToRingbufBytebuf_ptr.

Record ringbuf_t : Type := Ringbuf {
  size : Z;
  write_ptr : Z;
  read_ptr : Z;
  free_ptr : Z;
  data : list Z;
  flags : Z;
  maxItemSize : Z;
  copyItemToRingbufImpl : copy_impl;
  getItemFromRingbufImpl : get_impl;
  returnItemToRingbufImpl : return_impl;
  free_space_sem : bool;
  items_buffered_sem : bool
}.

Definition with_write (p : Z) (rb : ringbuf_t) : ringbuf_t :=
  let '(Ringbuf n w r f d fl m c g b fs is_) := rb in Ringbuf n p r f d fl m c g b fs is_.
Definition with_read (p : Z) (rb : ringbuf_t) : ringbuf_t :=
  let '(Ringbuf n w r f d fl m c g b fs is_) := rb in Ringbuf n w p f d fl m c g b fs is_.
Definition with_free (p : Z) (rb : ringbuf_t) : ringbuf_t :=
  let '(Ringbuf n w r f d fl m c g b fs is_) := rb in Ringbuf n w r p d fl m c g b fs is_.
Definition with_data (d' : list Z) (rb : ringbuf_t) : ringbuf_t :=
  let '(Ringbuf n w r f d fl m c g b fs is_) := rb in Ringbuf n w r f d' fl m c g b fs is_.
Definition with_free_space (x : bool) (rb : ringbuf_t) : ringbuf_t :=
  let '(Ringbuf n w r f d fl m c g b fs is_) := rb in Ringbuf n w r f d fl m c g b x is_.
Definition with_items_buffered (x : bool) (rb : ringbuf_t) : ringbuf_t :=
  let '(Ringbuf n w r f d fl m c g b fs is_) := rb in Ringbuf n w r f d fl m c g b fs x.

(** [sizeof(buf_entry_hdr_t)]: [len] at offset 0, [flags] at offset 4. *)
Definition HDR : Z := 8.

(** Words of the storage. *)
Definition ld32 (off : Z) : M ringbuf_t Z :=
  rb ← get;
  if (0 <=? off) && (off + 4 <=? Z.of_nat (length (data rb)))
  then mret (le_decode (slice (data rb) off 4)) else stuck OutOfBounds.

Definition st32 (off v : Z) : M ringbuf_t unit :=
  rb ← get;
  d ← lift (blit (data rb) off (le_encode 4 v));
  modify (with_data d).

Definition hdr_len (p : Z) : M ringbuf_t Z := ld32 p.
Definition hdr_flags (p : Z) : M ringbuf_t Z := ld32 (p + 4).
Definition set_hdr_len (p v : Z) : M ringbuf_t unit := st32 p v.
Definition set_hdr_flags (p v : Z) : M ringbuf_t unit := st32 (p + 4) v.

(** [memcpy(data + off, buffer, n)] *)
Definition memcpy_in (off : Z) (buffer : list Z) (n : Z) : M ringbuf_t unit :=
  if n <=? Z.of_nat (length buffer) then
    rb ← get;
    d ← lift (blit (data rb) off (take (Z.to_nat n) buffer));
    modify (with_data d)
  else stuck OutOfBounds.

(** [(n + 3) & ~3] *)
Definition round4 (n : Z) : Z := Z.land (u32 (n + 3)) 0xFFFFFFFC.

Definition ringbufferFreeMem (rb : ringbuf_t) : Z :=
  let free_size := free_ptr rb - write_ptr rb in
  let free_size :=
    if free_size <=? 0 then to_signed 32 (u32 (free_size + size rb)) else free_size in
  free_size - 1.

(** ** Writing *)

(** The end of both item writers: header, payload, and the wrap when there
    is no room for another header. *)
Definition write_item (buffer : list Z) (buffer_size rbuffer_size : Z) : M ringbuf_t bool :=
  p ← gets write_ptr;
  set_hdr_len p buffer_size;;
  set_hdr_flags p 0;;
  modify (with_write (p + HDR));;
  memcpy_in (p + HDR) buffer buffer_size;;
  modify (with_write (p + HDR + rbuffer_size));;
  rb ← get;
  (if u32 (size rb - write_ptr rb) <? HDR then modify (with_write 0) else mret tt);;
  mret true.

Definition copyItemToRingbufNoSplit (buffer : list Z) (buffer_size : Z) : M ringbuf_t bool :=
  let rbuffer_size := round4 buffer_size in
  rb ← get;
  check (Z.land (write_ptr rb) 3 =? 0);;
  check (HDR <=? u32 (write_ptr rb - size rb));;
  let rem_len := u32 (size rb - write_ptr rb) in
  ok ← (if rem_len <? u32 (rbuffer_size + HDR) then
          if u32 (free_ptr rb) <? u32 (rbuffer_size + HDR + 4) then mret false
          else if write_ptr rb <? free_ptr rb then mret false
          else
            set_hdr_flags (write_ptr rb) iflag_dummydata;;
            modify (with_write 0);;
            mret true
        else mret (negb (u32 (ringbufferFreeMem rb) <? u32 (HDR + rbuffer_size))));
  if ok : bool then write_item buffer buffer_size rbuffer_size else mret false.

Definition copyItemToRingbufAllowSplit (buffer : list Z) (buffer_size : Z) : M ringbuf_t bool :=
  let rbuffer_size := round4 buffer_size in
  rb ← get;
  check (Z.land (write_ptr rb) 3 =? 0);;
  check (HDR <=? u32 (write_ptr rb - size rb));;
  let rem_len := u32 (size rb - write_ptr rb) in
  if rem_len <? u32 (rbuffer_size + HDR) then
    if u32 (ringbufferFreeMem rb) <? u32 (HDR * 2 + rbuffer_size) then mret false
    else
      check (HDR <=? rem_len);;
      let p := write_ptr rb in
      set_hdr_flags p 0;;
      set_hdr_len p (rem_len - HDR);;
      modify (with_write (p + HDR));;
      let rem_len := rem_len - HDR in
      if negb (rem_len =? 0) then
        memcpy_in (p + HDR) buffer rem_len;;
        modify (with_write 0);;
        write_item (drop (Z.to_nat rem_len) buffer)
          (u32 (buffer_size - rem_len)) (u32 (rbuffer_size - rem_len))
      else
        fl ← hdr_flags p;
        set_hdr_flags p (Z.lor fl iflag_dummydata);;
        modify (with_write 0);;
        write_item buffer buffer_size rbuffer_size
  else if u32 (ringbufferFreeMem rb) <? u32 (HDR + rbuffer_size) then mret false
  else write_item buffer buffer_size rbuffer_size.

Definition copyItemToRingbufByteBuf (buffer : list Z) (buffer_size : Z) : M ringbuf_t bool :=
  rb ← get;
  let rem_len := u32 (size rb - write_ptr rb) in
  '(buffer, buffer_size) ←
    (if rem_len <? buffer_size then
       memcpy_in (write_ptr rb) buffer rem_len;;
       modify (with_write 0);;
       mret (drop (Z.to_nat rem_len) buffer, buffer_size - rem_len)
     else mret (buffer, buffer_size));
  p ← gets write_ptr;
  memcpy_in p buffer buffer_size;;
  modify (with_write (p + buffer_size));;
  rb ← get;
  (if size rb =? write_ptr rb then modify (with_write 0) else mret tt);;
  mret true.

(** ** Reading: the payload pointer and its length, or [NULL] *)

Definition getItemFromRingbufDefault (wanted_length : Z) : M ringbuf_t (option (Z * Z)) :=
  rb ← get;
  check (Z.land (read_ptr rb) 3 =? 0);;
  if read_ptr rb =? write_ptr rb then mret None
  else
    len ← hdr_len (read_ptr rb);
    fl ← hdr_flags (read_ptr rb);
    check ((len <? size rb) || negb (Z.land fl iflag_dummydata =? 0));;
    len ← (if negb (Z.land fl iflag_dummydata =? 0) then
             modify (with_read 0);;
             len ← hdr_len 0;
             check (len <? size rb);;
             mret len
           else mret len);
    p ← gets read_ptr;
    modify (with_read (p + HDR + round4 len));;
    rb ← get;
    (if u32 (size rb - read_ptr rb) <? HDR then modify (with_read 0) else mret tt);;
    mret (Some (p + HDR, len)).

Definition getItemFromRingbufByteBuf (wanted_length : Z) : M ringbuf_t (option (Z * Z)) :=
  rb ← get;
  if negb (read_ptr rb =? free_ptr rb) then mret None
  else if read_ptr rb =? write_ptr rb then mret None
  else
    let ret := read_ptr rb in
    if write_ptr rb <? read_ptr rb then
      let length := u32 (size rb - read_ptr rb) in
      if negb (wanted_length =? 0) && (u32 wanted_length <? length) then
        modify (with_read (read_ptr rb + wanted_length));;
        mret (Some (ret, u32 wanted_length))
      else
        modify (with_read 0);;
        mret (Some (ret, length))
    else
      let length := u32 (write_ptr rb - read_ptr rb) in
      if negb (wanted_length =? 0) && (u32 wanted_length <? length) then
        modify (with_read (read_ptr rb + wanted_length));;
        mret (Some (ret, u32 wanted_length))
      else
        modify (with_read (write_ptr rb));;
        mret (Some (ret, length)).

(** ** Giving back *)

(** The clean-up loop of [returnItemToRingbufDefault]; every round moves
    [free_ptr] at least one header further round the ring. *)
Fixpoint free_loop (fuel : nat) : M ringbuf_t unit :=
  rb ← get;
  fl ← hdr_flags (free_ptr rb);
  if (negb (Z.land fl iflag_free =? 0) || negb (Z.land fl iflag_dummydata =? 0))
     && negb (free_ptr rb =? write_ptr rb) then
    match fuel with
    | O => stuck OutOfFuel
    | S fuel =>
        (if negb (Z.land fl iflag_dummydata =? 0) then modify (with_free 0)
         else
           len ← hdr_len (free_ptr rb);
           modify (with_free (free_ptr rb + (round4 len + HDR)));;
           rb ← get;
           check (free_ptr rb <=? size rb));;
        rb ← get;
        (if u32 (size rb - free_ptr rb) <? HDR then modify (with_free 0) else mret tt);;
        rb ← get;
        if free_ptr rb =? read_ptr rb then mret tt else free_loop fuel
    end
  else mret tt.

Definition returnItemToRingbufDefault (item : Z) : M ringbuf_t unit :=
  rb ← get;
  check (Z.land (free_ptr rb) 3 =? 0);;
  check (0 <=? item);;
  check (item <? size rb);;
  len ← hdr_len (item - HDR);
  check (len <? size rb);;
  fl ← hdr_flags (item - HDR);
  check (Z.land fl iflag_dummydata =? 0);;
  check (Z.land fl iflag_free =? 0);;
  set_hdr_flags (item - HDR) (Z.lor fl iflag_free);;
  free_loop (Z.to_nat (size rb)).

Definition returnItemToRingbufBytebuf (item : Z) : M ringbuf_t unit :=
  rb ← get;
  check (0 <=? item);;
  check (item <? size rb);;
  modify (with_free (read_ptr rb)).

(** ** Calls through the function pointers *)

Definition copy_item (buffer : list Z) (buffer_size : Z) : M ringbuf_t bool :=
  rb ← get;
  match copyItemToRingbufImpl rb with
  | copyItemToRingbufNoSplit_ptr => copyItemToRingbufNoSplit buffer buffer_size
  | copyItemToRingbufAllowSplit_ptr => copyItemToRingbufAllowSplit buffer buffer_size
  | copyItemToRingbufByteBuf_ptr => copyItemToRingbufByteBuf buffer buffer_size
  end.

Definition get_item (wanted_length : Z) : M ringbuf_t (option (Z * Z)) :=
  rb ← get;
  match getItemFromRingbufImpl rb with
  | getItemFromRingbufDefault_ptr => getItemFromRingbufDefault wanted_length
  | getItemFromRingbufByteBuf_ptr => getItemFromRingbufByteBuf wanted_length
  end.

Definition return_item (item : Z) : M ringbuf_t unit :=
  rb ← get;
  match returnItemToRingbufImpl rb with
  | returnItemToRingbufDefault_ptr => returnItemToRingbufDefault item
  | returnItemToRingbufBytebuf_ptr => returnItemToRingbufBytebuf item
  end.

(** ** Creation and deletion

    What the calls to the allocators return is an argument: the structure
    ([malloc] gave memory or not), the storage (its initial bytes) and the two
    semaphores.  The result comes with the objects that are freed. *)

Inductive resource : Type := RStruct | RData | RFreeSem | RItemsSem.

Record allocs : Type := Allocs {
  al_struct : bool;
  al_data : option (list Z);
  al_free_sem : bool;
  al_items_sem : bool
}.

Definition release_objects (has_data has_free has_items : bool) : list resource :=
  (if has_data then [RData] else []) ++ (if has_free then [RFreeSem] else [])
  ++ (if has_items then [RItemsSem] else []) ++ [RStruct].

Definition xRingbufferCreate (al : allocs) (buf_length : Z) (type : ringbuf_type_t)
  : outcome (option ringbuf_t * list resource) :=
  if negb (al_struct al) then Ret (None, [])
  else match al_data al with
  | None => Ret (None, release_objects false false false)
  | Some bytes =>
      let mk fl mx c g b :=
        Ringbuf buf_length 0 0 0 bytes fl mx c g b false false in
      rb ← match type with
        | RINGBUF_TYPE_ALLOWSPLIT =>
            Ret (mk flag_allowsplit (u32 (buf_length - HDR * 2 - 4))
              copyItemToRingbufAllowSplit_ptr getItemFromRingbufDefault_ptr
              returnItemToRingbufDefault_ptr)
        | RINGBUF_TYPE_BYTEBUF =>
            Ret (mk flag_bytebuf (u32 (buf_length - 1))
              copyItemToRingbufByteBuf_ptr getItemFromRingbufByteBuf_ptr
              returnItemToRingbufBytebuf_ptr)
        | RINGBUF_TYPE_NOSPLIT =>
            Ret (mk 0 (u32 (buf_length / 2 - HDR - 4))
              copyItemToRingbufNoSplit_ptr getItemFromRingbufDefault_ptr
              returnItemToRingbufDefault_ptr)
        | RINGBUF_TYPE_OTHER _ => Stuck AssertFailed
        end;
      if negb (al_free_sem al) || negb (al_items_sem al)
      then Ret (None, release_objects true (al_free_sem al) (al_items_sem al))
      else Ret (Some rb, [])
  end.

Definition vRingbufferDelete (rb : option ringbuf_t) : list resource :=
  match rb with Some _ => release_objects true true true | None => [] end.

Definition xRingbufferGetMaxItemSize (rb : ringbuf_t) : Z := maxItemSize rb.

(** ** Handlers for interrupt context: one critical section each *)

Definition xRingbufferSendFromISR (buffer : list Z) (dataSize : Z) : M ringbuf_t bool :=
  let needed_size := u32 (dataSize + HDR) in
  rb ← get;
  write_succeeded ←
    (if u32 (ringbufferFreeMem rb) <? needed_size then mret false
     else copy_item buffer dataSize);
  (if write_succeeded : bool then modify (with_items_buffered true) else mret tt);;
  mret write_succeeded.

Definition xRingbufferReceiveFromISR : M ringbuf_t (option (Z * Z)) := get_item 0.


Definition vRingbufferReturnItemFromISR (item : Z) : M ringbuf_t unit :=
  return_item item;;
  modify (with_free_space true).

(** ** Blocking calls

    [world] lists what happens at the points where the caller lets others
    run: an entry says whether the semaphore was obtained before the timeout,
    what the other tasks did to the ring in the meantime, and the tick count
    afterwards.  An empty list is a world where nothing else runs, so that a
    wait times out. *)

Record event : Type := Event {
  ev_taken : bool;
  ev_others : ringbuf_t -> ringbuf_t;
  ev_now : Z
}.

Record task_state : Type := Task { rb_of : ringbuf_t; world : list event; now : Z }.

Definition on_rb {A} (m : M ringbuf_t A) : M task_state A := fun s =>
  match m (rb_of s) with
  | Ret (a, rb) => Ret (a, Task rb (world s) (now s))
  | Stuck e => Stuck e
  end.

(** Let the others run. *)
Definition yield_ : M task_state bool := fun s =>
  match world s with
  | [] => Ret (false, s)
  | e :: w => Ret (ev_taken e, Task (ev_others e (rb_of s)) w (ev_now e))
  end.

(** [xSemaphoreTake] of a binary semaphore: at once when it is available,
    after blocking otherwise. *)
Definition take_sem (sem : ringbuf_t -> bool) (clear : ringbuf_t -> ringbuf_t) : M task_state bool :=
  rb ← gets rb_of;
  if sem rb then on_rb (modify clear);; mret true else yield_.

Definition portMAX_DELAY : Z := 0xFFFFFFFF.

(** The [do ... while] of [xRingbufferSend]: wait until there is room or the
    time is over.  Gives the remaining ticks, or [None] on the timeout that
    returns at once. *)
Fixpoint wait_room (fuel : nat) (needed_size ticks_to_wait ticks_end ticks_remaining : Z)
  : M task_state (option Z) :=
  match fuel with
  | O => stuck OutOfFuel
  | S fuel =>
      rb ← gets rb_of;
      r ← (if u32 (ringbufferFreeMem rb) <? needed_size then
             r ← take_sem free_space_sem (with_free_space false);
             if negb r then mret None
             else if negb (ticks_to_wait =? portMAX_DELAY) then
               t ← gets now; mret (Some (u32 (ticks_end - t)))
             else mret (Some ticks_remaining)
           else mret (Some ticks_remaining));
      match r with
      | None => mret None
      | Some ticks_remaining =>
          rb ← gets rb_of;
          if (u32 (ringbufferFreeMem rb) <? needed_size) && (0 <? ticks_remaining)
             && (ticks_remaining <=? ticks_to_wait)
          then wait_room fuel needed_size ticks_to_wait ticks_end ticks_remaining
          else mret (Some ticks_remaining)
      end
  end.

(** [while (!done)]: the others may run before the critical section. *)
Fixpoint send_loop (fuel : nat) (buffer : list Z)
    (dataSize needed_size ticks_to_wait ticks_end ticks_remaining : Z) : M task_state bool :=
  match fuel with
  | O => stuck OutOfFuel
  | S fuel' =>
      r ← wait_room fuel needed_size ticks_to_wait ticks_end ticks_remaining;
      match r with
      | None => mret false
      | Some ticks_remaining =>
          _ ← yield_;
          done ← on_rb (copy_item buffer dataSize);
          if done : bool then on_rb (modify (with_items_buffered true));; mret true
          else send_loop fuel' buffer dataSize needed_size ticks_to_wait ticks_end ticks_remaining
      end
  end.

Definition xRingbufferSend (fuel : nat) (buffer : list Z) (dataSize ticks_to_wait : Z)
  : M task_state bool :=
  let needed_size := u32 (dataSize + HDR) in
  t ← gets now;
  let ticks_end := u32 (t + ticks_to_wait) in
  rb ← gets rb_of;
  if xRingbufferGetMaxItemSize rb <? dataSize then mret false
  else send_loop fuel buffer dataSize needed_size ticks_to_wait ticks_end ticks_to_wait.

(** The inner loop of the receiver: [false] on a timeout. *)
Fixpoint wait_data (fuel : nat) : M task_state bool :=
  match fuel with
  | O => stuck OutOfFuel
  | S fuel =>
      rb ← gets rb_of;
      if read_ptr rb =? write_ptr rb then
        r ← take_sem items_buffered_sem (with_items_buffered false);
        if negb r then mret false else wait_data fuel
      else mret true
  end.

Fixpoint xRingbufferReceiveGeneric (fuel : nat) (wanted_size : Z)
  : M task_state (option (Z * Z)) :=
  match fuel with
  | O => stuck OutOfFuel
  | S fuel' =>
      ready ← wait_data fuel;
      if negb ready then mret None
      else
        _ ← yield_;
        itemData ← on_rb (get_item (to_signed 32 wanted_size));
        match itemData with
        | Some r => mret (Some r)
        | None => xRingbufferReceiveGeneric fuel' wanted_size
        end
  end.

Definition xRingbufferReceive (fuel : nat) : M task_state (option (Z * Z)) :=
  xRingbufferReceiveGeneric fuel 0.

Definition xRingbufferReceiveUpTo (fuel : nat) (wanted_size : Z) : M task_state (option (Z * Z)) :=
  if wanted_size =? 0 then mret None
  else
    rb ← gets rb_of;
    check (negb (Z.land (flags rb) flag_bytebuf =? 0));;
    xRingbufferReceiveGeneric fuel wanted_size.

Definition vRingbufferReturnItem (item : Z) : M task_state unit :=
  on_rb (return_item item);;
  on_rb (modify (with_free_space true)).

(** ** Storage updates *)

(** [d'] is [d] with the bytes [bs] written at [off]. *)
Definition upd (d : list Z) (off : Z) (bs : list Z) (d' : list Z) : Prop :=
  length d' = length d
  /\ forall i, at_ 0 d' i = if within off (Z.of_nat (length bs)) i then at_ 0 bs (i - off)
                            else at_ 0 d i.

(** [d] and [d'] agree on [P]. *)
Definition agree (P : Z -> Prop) (d d' : list Z) : Prop :=
  length d' = length d /\ forall i, P i -> at_ 0 d' i = at_ 0 d i.

Lemma slice_ext (l l' : list Z) off n :
  0 <= off -> 0 <= n -> off + n <= Z.of_nat (length l) -> agree (fun i => off <= i < off + n) l l' ->
  slice l' off n = slice l off n.
Proof.
  intros H0 H1 H2 [Hl H]. assert (Hn : forall k : list Z, length k = length l -> length (slice k off n) = Z.to_nat n).
  { intros k Hk. unfold slice. rewrite length_take, length_drop. lia. }
  apply (at_ext 0); [by rewrite !Hn|]. intros i Hi. rewrite (Hn l') in Hi by done.
  rewrite !at_slice by lia. destruct (within 0 n i) eqn:E; [|done].
  apply within_spec in E. apply H. lia.
Qed.

Lemma upd_agree d off bs d' :
  upd d off bs d' -> agree (fun i => ~ (off <= i < off + Z.of_nat (length bs))) d d'.
Proof. intros [Hl H]. split; [done|]. intros i Hi. by rewrite H, (proj2 (within_false _ _ _)). Qed.

Lemma agree_trans P d1 d2 d3 : agree P d1 d2 -> agree P d2 d3 -> agree P d1 d3.
Proof. intros [H1 H2] [H3 H4]. split; [lia|]. intros i Hi. rewrite H4, H2; auto. Qed.

Lemma agree_mono (P Q : Z -> Prop) d d' : (forall i, Q i -> P i) -> agree P d d' -> agree Q d d'.
Proof. intros H [H1 H2]. split; auto. Qed.

Lemma upd_slice_in d off bs d' n :
  n = Z.of_nat (length bs) -> 0 <= off -> off + n <= Z.of_nat (length d) -> upd d off bs d' ->
  slice d' off n = bs.
Proof.
  intros -> H0 H1 [Hl H].
  assert (E : length (slice d' off (Z.of_nat (length bs))) = length bs)
    by (unfold slice; rewrite length_take, length_drop; lia).
  apply (at_ext 0); [done|]. intros i Hi. rewrite at_slice by lia.
  rewrite E in Hi. rewrite (proj2 (within_spec _ _ _)) by lia.
  rewrite H, (proj2 (within_spec _ _ _)) by lia. f_equal. lia.
Qed.

Lemma upd_slice_out d off bs d' o n :
  0 <= o -> 0 <= n -> o + n <= Z.of_nat (length d) ->
  o + n <= off \/ off + Z.of_nat (length bs) <= o -> upd d off bs d' ->
  slice d' o n = slice d o n.
Proof.
  intros ? ? ? Hd H. apply slice_ext; [done..|]. eapply agree_mono; [|by apply upd_agree].
  cbn beta. lia.
Qed.

(** ** Running the primitives *)

Lemma wp_ld32 off (Q : Z -> ringbuf_t -> Prop) rb :
  0 <= off -> off + 4 <= Z.of_nat (length (data rb)) ->
  Q (le_decode (slice (data rb) off 4)) rb -> wp (ld32 off) Q rb.
Proof.
  intros H0 H1 HQ. unfold ld32. wp_steps.
  by rewrite (proj2 (Z.leb_le 0 off) H0), (proj2 (Z.leb_le _ _) H1).
Qed.

Lemma wp_blit off bs (Q : unit -> ringbuf_t -> Prop) rb :
  0 <= off -> off + Z.of_nat (length bs) <= Z.of_nat (length (data rb)) ->
  (forall d', upd (data rb) off bs d' -> Q tt (with_data d' rb)) ->
  wp (d ← lift (blit (data rb) off bs); modify (with_data d)) Q rb.
Proof.
  intros H0 H1 HQ. destruct (blit_spec (data rb) off bs) as (d' & Hb & Hu); [done..|].
  apply wp_bind. eapply wp_lift; [exact Hb|]. apply wp_modify. by apply HQ.
Qed.

Lemma wp_st32 off v (Q : unit -> ringbuf_t -> Prop) rb :
  0 <= off -> off + 4 <= Z.of_nat (length (data rb)) ->
  (forall d', upd (data rb) off (le_encode 4 v) d' -> Q tt (with_data d' rb)) ->
  wp (st32 off v) Q rb.
Proof. intros H0 H1 HQ. unfold st32. wp_step. wp_step. by apply wp_blit. Qed.

Lemma wp_memcpy_in off buffer n (Q : unit -> ringbuf_t -> Prop) rb :
  0 <= n <= Z.of_nat (length buffer) -> 0 <= off -> off + n <= Z.of_nat (length (data rb)) ->
  (forall d', upd (data rb) off (take (Z.to_nat n) buffer) d' -> Q tt (with_data d' rb)) ->
  wp (memcpy_in off buffer n) Q rb.
Proof.
  intros Hn H0 H1 HQ. unfold memcpy_in. rewrite (proj2 (Z.leb_le _ _)) by lia. wp_step. wp_step.
  apply wp_blit; [done|rewrite length_take; lia|done].
Qed.

Lemma round4_spec n : 0 <= n < 2 ^ 31 -> n <= round4 n <= n + 3 /\ round4 n mod 4 = 0.
Proof.
  intros Hn. unfold round4. rewrite u32_small by lia.
  rewrite land_word by lia. pose proof (Z.div_mod (n + 3) 4 ltac:(lia)) as D.
  pose proof (Z.mod_pos_bound (n + 3) 4 ltac:(lia)). split; [lia|].
  replace (n + 3 - (n + 3) mod 4) with ((n + 3) / 4 * 4) by lia. apply Z.mod_mul. lia.
Qed.

(** A multiple of four needs no rounding, and comes out of a sum. *)
Lemma round4_sub n k : 0 <= k <= n -> n < 2 ^ 31 -> k mod 4 = 0 -> round4 (n - k) = round4 n - k.
Proof.
  intros Hk Hn Hm. pose proof (round4_spec n ltac:(lia)) as [A B].
  pose proof (round4_spec (n - k) ltac:(lia)) as [C D].
  apply Z.mod_divide in B as [b Hb]; [|lia]. apply Z.mod_divide in D as [c Hc]; [|lia].
  apply Z.mod_divide in Hm as [m Hm]; [|lia]. lia.
Qed.

Lemma aligned4 p : 0 <= p -> (Z.land p 3 =? 0) = true <-> p mod 4 = 0.
Proof. intros H. change 3 with (Z.ones 2). by rewrite Z.land_ones, Z.eqb_eq by lia. Qed.

Lemma FreeMem_eq rb :
  0 <= size rb < 2 ^ 31 -> 0 <= free_ptr rb -> free_ptr rb <= size rb ->
  0 <= write_ptr rb <= size rb ->
  ringbufferFreeMem rb =
    (if free_ptr rb <=? write_ptr rb then free_ptr rb - write_ptr rb + size rb
     else free_ptr rb - write_ptr rb) - 1.
Proof.
  intros H0 H1 H2 H3. unfold ringbufferFreeMem.
  destruct (Z.leb_spec (free_ptr rb) (write_ptr rb)).
  - rewrite (proj2 (Z.leb_le _ _)) by lia. rewrite u32_small by lia. by rewrite to_signed_pos by lia.
  - by rewrite (proj2 (Z.leb_gt _ _)) by lia.
Qed.

(** ** The chain of items

    Positions are counted on past the end of the storage: the virtual
    position [v] stands for the offset [phys sz v], and everything between
    [free_ptr] and [write_ptr] lies in a window of less than [sz] positions
    that starts at [free_ptr]. *)

Definition phys (sz v : Z) : Z := if v <? sz then v else v - sz.

(** An item in the ring: whether the writer put a dummy header in front of it
    to reach the start of the storage, where its payload is, the payload, and
    whether it has been given back. *)
Record item : Type := Item {
  it_dummy : bool;
  it_ptr : Z;
  it_data : list Z;
  it_freed : bool
}.

Definition it_len (i : item) : Z := Z.of_nat (length (it_data i)).

(** Where the next header goes after an item whose header is at [u]. *)
Definition advance (sz u len : Z) : Z :=
  if sz - (phys sz u + HDR + round4 len) <? HDR then u - phys sz u + sz
  else u + HDR + round4 len.

Definition item_at (d : list Z) (sz v : Z) (i : item) (u : Z) : Prop :=
  (if it_dummy i then v + HDR <= sz /\ le_decode (slice d (v + 4) 4) = iflag_dummydata /\ u = sz
   else u = v)
  /\ phys sz u mod 4 = 0
  /\ phys sz u + HDR + round4 (it_len i) <= sz
  /\ it_ptr i = phys sz u + HDR
  /\ le_decode (slice d (phys sz u) 4) = it_len i
  /\ le_decode (slice d (phys sz u + 4) 4) = (if it_freed i then iflag_free else 0)
  /\ slice d (phys sz u + HDR) (it_len i) = it_data i.

Fixpoint chain (d : list Z) (sz v : Z) (l : list item) (w : Z) : Prop :=
  match l with
  | [] => w = v
  | i :: l => exists u, item_at d sz v i u /\ chain d sz (advance sz u (it_len i)) l w
  end.

(** A place where a header can go. *)
Definition hdr_ok (sz v : Z) : Prop := phys sz v mod 4 = 0 /\ phys sz v + HDR <= sz.

(** Linear arithmetic over virtual positions. *)
Ltac phys_lia :=
  unfold phys, HDR in *;
  repeat match goal with
  | H : context [if ?a <? ?b then _ else _] |- _ => destruct (Z.ltb_spec a b)
  | |- context [if ?a <? ?b then _ else _] => destruct (Z.ltb_spec a b)
  end; lia.

Lemma it_len_nonneg i : 0 <= it_len i.
Proof. unfold it_len. lia. Qed.

Section Chain.
Variables (sz : Z).
Hypothesis Hsz : 8 <= sz < 2 ^ 31.

Lemma round4_len i : it_len i < 2 ^ 31 -> it_len i <= round4 (it_len i).
Proof. intros H. pose proof (round4_spec (it_len i)). pose proof (it_len_nonneg i). lia. Qed.

Lemma round4_nonneg n : 0 <= round4 n.
Proof. unfold round4. apply Z.land_nonneg. left. apply u32_range. Qed.

Lemma advance_bounds u len :
  phys sz u + HDR + round4 len <= sz ->
  u + HDR + round4 len <= advance sz u len <= u - phys sz u + sz.
Proof. unfold advance, HDR in *. intros H. case_test; lia. Qed.

Lemma item_at_bounds d v i u :
  item_at d sz v i u -> v <= u /\ u + HDR + round4 (it_len i) <= advance sz u (it_len i).
Proof.
  intros (Hd & _ & Hr & _). split; [destruct (it_dummy i); unfold HDR in *; lia|].
  by apply advance_bounds.
Qed.

Lemma item_at_len d v i u : Z.of_nat (length d) = sz -> item_at d sz v i u -> it_len i <= sz.
Proof.
  intros Hl (_ & _ & _ & _ & _ & _ & Hdat). pose proof (f_equal (@length Z) Hdat) as E.
  unfold slice in E. rewrite length_take, length_drop in E. unfold it_len in *. lia.
Qed.

Lemma chain_app d v l1 l2 w :
  chain d sz v (l1 ++ l2) w <-> exists m, chain d sz v l1 m /\ chain d sz m l2 w.
Proof.
  revert v. induction l1 as [|i l1 IH]; intros v; cbn [chain app].
  - split; [eauto|]. intros (m & -> & ?). done.
  - split.
    + intros (u & Hu & (m & H1 & H2)%IH). eauto 6.
    + intros (m & (u & Hu & H1) & H2). exists u. split; [done|]. apply IH. eauto.
Qed.

(** The end of a chain depends on the places its items take only. *)
Definition same_place (i j : item) : Prop := it_dummy i = it_dummy j /\ it_len i = it_len j.

Lemma same_place_refl l : Forall2 same_place l l.
Proof. induction l; by constructor. Qed.

Lemma chain_fun d d' v l l' w w' :
  Forall2 same_place l l' -> chain d sz v l w -> chain d' sz v l' w' -> w = w'.
Proof.
  intros HF. revert v. induction HF as [|i j l l' [E1 E2] HF IH]; intros v; cbn [chain]; [congruence|].
  intros (u & (Hd & _) & H1) (u' & (Hd' & _) & H2). rewrite <- E1 in Hd'. rewrite <- E2 in H2.
  assert (u' = u) as -> by (destruct (it_dummy i); intuition congruence). eauto.
Qed.

Lemma chain_snoc d v l i m u :
  chain d sz v l m -> item_at d sz m i u -> chain d sz v (l ++ [i]) (advance sz u (it_len i)).
Proof. intros H1 H2. apply chain_app. exists m. split; [done|]. exists u. done. Qed.

Lemma chain_le d v l w : chain d sz v l w -> v + HDR * Z.of_nat (length l) <= w.
Proof.
  revert v. induction l as [|i l IH]; intros v; cbn [chain length]; [lia|].
  intros (u & Hu & H%IH). apply item_at_bounds in Hu. pose proof (round4_nonneg (it_len i)).
  unfold HDR in *. lia.
Qed.

(** The bytes of the virtual window [v, w). *)
Definition window (v w i : Z) : Prop := exists x, v <= x < w /\ i = phys sz x.

Lemma window_intro v w i x : v <= x < w -> i = phys sz x -> window v w i.
Proof. exists x. done. Qed.

Lemma slice_window d d' v w u k n :
  Z.of_nat (length d) = sz -> 0 <= v -> v <= u -> 0 <= k -> 0 <= n -> w <= 2 * sz ->
  phys sz u + k + n <= sz -> u + k + n <= w ->
  agree (window v w) d d' -> slice d' (phys sz u + k) n = slice d (phys sz u + k) n.
Proof.
  intros Hl Hv Hu Hk Hn Hw Hp Huw Ha. assert (0 <= phys sz u) by (unfold phys; case_test; lia).
  apply slice_ext; [lia..|]. eapply agree_mono; [|exact Ha]. cbn beta. intros i Hi.
  apply (window_intro _ _ _ (u + (i - phys sz u))); [lia|]. phys_lia.
Qed.

Lemma item_at_agree d d' v w i u :
  Z.of_nat (length d) = sz -> 0 <= v -> w <= 2 * sz -> advance sz u (it_len i) <= w ->
  agree (window v w) d d' -> item_at d sz v i u -> item_at d' sz v i u.
Proof.
  intros Hl Hv Hw Ha Hg Hi. pose proof (item_at_bounds _ _ _ _ Hi) as [Hu Hn].
  pose proof (item_at_len _ _ _ _ Hl Hi) as Hsmall.
  destruct Hi as (Hd & H4 & Hr & Hp & Hlen & Hfl & Hdat).
  pose proof (it_len_nonneg i) as Hi0. pose proof (round4_nonneg (it_len i)).
  assert (Hil : it_len i <= round4 (it_len i)) by (apply round4_len; lia).
  assert (S : forall k n, 0 <= k -> 0 <= n -> k + n <= HDR + it_len i ->
    slice d' (phys sz u + k) n = slice d (phys sz u + k) n).
  { intros k n ? ? ?. apply (slice_window _ _ v w); [done|lia..|done]. }
  split_and!; try done.
  - destruct (it_dummy i); [|done]. destruct Hd as (Hd1 & Hd2 & Hd3).
    split_and!; [done| |done]. rewrite <- Hd2. f_equal.
    assert (E : phys sz v = v) by (unfold phys, HDR in *; case_test; lia).
    replace (v + 4) with (phys sz v + 4) by lia.
    apply (slice_window _ _ v w); unfold HDR in *; rewrite ?E; try done; lia.
  - etrans; [|exact Hlen]. f_equal. pose proof (S 0 4) as E. rewrite Z.add_0_r in E.
    apply E; unfold HDR; lia.
  - rewrite <- Hfl. f_equal. apply S; unfold HDR; lia.
  - etrans; [|exact Hdat]. apply S; unfold HDR; lia.
Qed.

Lemma chain_agree d d' v l w :
  Z.of_nat (length d) = sz -> 0 <= v -> w <= 2 * sz ->
  agree (window v w) d d' -> chain d sz v l w -> chain d' sz v l w.
Proof.
  intros Hl. revert v. induction l as [|i l IH]; intros v Hv Hw Ha; cbn [chain]; [done|].
  intros (u & Hu & Hc). pose proof (item_at_bounds _ _ _ _ Hu) as [H1 H2].
  pose proof (chain_le _ _ _ _ Hc). pose proof (round4_nonneg (it_len i)).
  exists u. split; [apply (item_at_agree d _ _ w); [done|done|done|unfold HDR in *; lia|done|done]|].
  apply IH; [unfold HDR in *; lia|done| |done].
  eapply agree_mono; [|exact Ha]. intros k (x & Hx & ->). apply (window_intro _ _ _ x); [|done].
  unfold HDR in *. lia.
Qed.

Lemma windows_disjoint v w e i :
  0 <= v < sz -> e <= v + sz -> window v w i -> window w e i -> False.
Proof. intros Hv He (x & Hx & ->) (y & Hy & E). phys_lia. Qed.

Lemma window_range w e u k n i :
  0 <= w -> w <= u + k -> 0 <= k -> u + k + n <= e -> e <= 2 * sz -> phys sz u + k + n <= sz ->
  phys sz u + k <= i < phys sz u + k + n -> window w e i.
Proof.
  intros ? ? ? ? ? ? Hi. apply (window_intro _ _ _ (u + (i - phys sz u))); [lia|].
  phys_lia.
Qed.

(** Writing a new item behind the chain leaves the chain as it was. *)
Lemma chain_push d d' v l w i u :
  Z.of_nat (length d) = sz -> 0 <= v < sz -> w <= v + sz ->
  agree (fun k => ~ window w (v + sz) k) d d' ->
  chain d sz v l w -> item_at d' sz w i u -> chain d' sz v (l ++ [i]) (advance sz u (it_len i)).
Proof.
  intros Hl Hv Hw Ha Hc Hi. apply (chain_snoc _ _ _ _ w); [|done].
  apply (chain_agree d); [done|lia|lia| |done]. eapply agree_mono; [|exact Ha].
  intros k H1 H2. by apply (windows_disjoint v w (v + sz) k).
Qed.

Lemma phys_advance u len :
  phys sz u + HDR + round4 len <= sz -> 0 <= u -> advance sz u len < 2 * sz ->
  phys sz (advance sz u len) =
    if sz - (phys sz u + HDR + round4 len) <? HDR then 0 else phys sz u + HDR + round4 len.
Proof.
  intros H Hu Ha. pose proof (round4_nonneg len). unfold advance, HDR in *. case_test.
  - phys_lia.
  - phys_lia.
Qed.

Lemma hdr_ok_item d v i u :
  Z.of_nat (length d) = sz -> 0 <= v -> advance sz u (it_len i) < 2 * sz ->
  item_at d sz v i u -> hdr_ok sz (advance sz u (it_len i)).
Proof.
  intros Hl Hv Ha Hi. pose proof (item_at_bounds _ _ _ _ Hi) as [Hu _].
  pose proof (item_at_len _ _ _ _ Hl Hi) as Hs. pose proof (it_len_nonneg i).
  destruct Hi as (_ & H4 & Hr & _). unfold hdr_ok. rewrite phys_advance by (done || lia).
  pose proof (round4_spec (it_len i) ltac:(lia)) as [_ Hm]. unfold HDR in *.
  case_test; [split; [done|lia]|]. split; [|lia].
  rewrite <- Zplus_mod_idemp_r, Hm, Z.add_0_r, <- Zplus_mod_idemp_l, H4. done.
Qed.

Lemma hdr_ok_chain d v l w :
  Z.of_nat (length d) = sz -> 0 <= v -> w < 2 * sz -> hdr_ok sz v -> chain d sz v l w -> hdr_ok sz w.
Proof.
  intros Hl. revert v. induction l as [|i l IH]; intros v Hv Hw Hok; cbn [chain]; [by intros ->|].
  intros (u & Hu & Hc). pose proof (chain_le _ _ _ _ Hc).
  pose proof (item_at_bounds _ _ _ _ Hu) as [H1 H2]. pose proof (round4_nonneg (it_len i)).
  assert (advance sz u (it_len i) < 2 * sz) by (unfold HDR in *; lia).
  apply (IH (advance sz u (it_len i))); [unfold HDR in *; lia|done| |done].
  by apply (hdr_ok_item d v i u).
Qed.


End Chain.

(** ** Writing one item *)

(** [d'] is [d] with an unread item written at [p]. *)
Definition written (d d' : list Z) (p : Z) (buffer : list Z) : Prop :=
  let n := Z.of_nat (length buffer) in
  agree (fun i => ~ (p <= i < p + HDR + n)) d d'
  /\ le_decode (slice d' p 4) = n
  /\ le_decode (slice d' (p + 4) 4) = 0
  /\ slice d' (p + HDR) n = buffer.

Lemma upd_written d d1 d2 d3 p buffer :
  Z.of_nat (length buffer) < 2 ^ 31 -> 0 <= p ->
  p + HDR + Z.of_nat (length buffer) <= Z.of_nat (length d) ->
  upd d p (le_encode 4 (Z.of_nat (length buffer))) d1 ->
  upd d1 (p + 4) (le_encode 4 0) d2 -> upd d2 (p + HDR) buffer d3 -> written d d3 p buffer.
Proof.
  intros Hn Hp Hb H1 H2 H3. pose proof (proj1 H1) as L1. pose proof (proj1 H2) as L2.
  assert (Hout : agree (fun i => ~ (p <= i < p + HDR + Z.of_nat (length buffer))) d d3).
  { apply (agree_trans _ _ d2); [apply (agree_trans _ _ d1)|].
    all: eapply agree_mono; [|by eapply upd_agree]; cbn beta; rewrite ?length_le_encode; unfold HDR; lia. }
  unfold HDR in *. split_and!; [done|..].
  - rewrite (upd_slice_out d2 (p + 8) buffer) by (done || lia).
    rewrite (upd_slice_out d1 (p + 4) (le_encode 4 0)) by (done || rewrite ?length_le_encode; lia).
    rewrite (upd_slice_in d p (le_encode 4 (Z.of_nat (length buffer)))) by (done || lia).
    apply le_decode_encode. change (256 ^ Z.of_nat 4) with (2 ^ 32). lia.
  - rewrite (upd_slice_out d2 (p + 8) buffer) by (done || lia).
    rewrite (upd_slice_in d1 (p + 4) (le_encode 4 0)) by (done || lia). done.
  - apply (upd_slice_in d2); unfold HDR; [done|lia..|done].
Qed.

Lemma write_item_spec buffer n r rb :
  n = Z.of_nat (length buffer) -> n <= r -> 0 <= write_ptr rb ->
  Z.of_nat (length (data rb)) = size rb -> size rb < 2 ^ 31 -> write_ptr rb + HDR + r <= size rb ->
  wp (write_item buffer n r) (fun ok rb' => ok = true /\ exists d',
    rb' = with_write (if size rb - (write_ptr rb + HDR + r) <? HDR then 0 else write_ptr rb + HDR + r)
            (with_data d' rb)
    /\ written (data rb) d' (write_ptr rb) buffer) rb.
Proof.
  intros -> Hr Hp Hl Hs Hw. unfold write_item, set_hdr_len, set_hdr_flags.
  destruct rb as [sz p rp fp d fl mx c g b fs is_].
  cbn [size write_ptr data] in *. wp_step. wp_step. cbn [write_ptr].
  wp_step. apply wp_st32; cbn [data]; [unfold HDR in *; lia..|]. intros d1 U1. pose proof (proj1 U1) as L1.
  cbn [with_data]. wp_step. apply wp_st32; cbn [data]; [unfold HDR in *; lia..|]. intros d2 U2.
  pose proof (proj1 U2) as L2. cbn [with_data]. wp_step. wp_step. cbn [with_write]. wp_step.
  apply wp_memcpy_in; cbn [data]; [unfold HDR in *; lia..|]. intros d3 U3.
  rewrite Nat2Z.id, firstn_all in U3. cbn [with_data]. wp_step. wp_step. cbn [with_write].
  wp_step. wp_step. cbn [size write_ptr]. rewrite u32_small by (unfold HDR in *; lia).
  assert (W : written d d3 p buffer).
  { apply (upd_written d d1 d2); done || unfold HDR in *; lia. }
  wp_step. destruct (_ <? HDR); wp_steps; (split; [done|]); by exists d3.
Qed.

(** ** The invariant of a ring of items

    [out] are the items between [free_ptr] and [read_ptr]: handed out, some of
    them given back already but not yet reclaimed.  [que] are the items
    between [read_ptr] and [write_ptr]: sent and not yet received. *)
Record ring_inv (sz wp_ rp fp : Z) (d : list Z) (out que : list item) : Prop := {
  ri_size : 8 <= sz < 2 ^ 31;
  ri_len : Z.of_nat (length d) = sz;
  ri_free : 0 <= fp /\ hdr_ok sz fp /\ fp < sz;
  ri_chain : exists r w, chain d sz fp out r /\ chain d sz r que w /\ w < fp + sz
      /\ rp = phys sz r /\ wp_ = phys sz w;
  ri_head : match out with i :: _ => it_freed i = false | [] => True end;
  ri_que : Forall (fun i => it_freed i = false) que
}.

Definition items_inv (rb : ringbuf_t) : list item -> list item -> Prop :=
  ring_inv (size rb) (write_ptr rb) (read_ptr rb) (free_ptr rb) (data rb).

(** The fresh item written at [u] behind the end [w] of the chain. *)
Lemma written_item d d' sz w u (dm : bool) buffer :
  written d d' (phys sz u) buffer -> phys sz u mod 4 = 0 ->
  phys sz u + HDR + round4 (Z.of_nat (length buffer)) <= sz ->
  (if dm then w + HDR <= sz /\ le_decode (slice d' (w + 4) 4) = iflag_dummydata /\ u = sz else u = w) ->
  item_at d' sz w (Item dm (phys sz u + HDR) buffer false) u.
Proof. intros (_ & H1 & H2 & H3) H4 H5 H6. unfold item_at. cbn. by split_and!. Qed.

Lemma ring_inv_push sz rp fp d d' out que r w (i : item) u :
  8 <= sz < 2 ^ 31 -> Z.of_nat (length d) = sz -> 0 <= fp /\ hdr_ok sz fp /\ fp < sz ->
  match out with i :: _ => it_freed i = false | [] => True end ->
  Forall (fun i => it_freed i = false) que -> it_freed i = false ->
  chain d sz fp out r -> chain d sz r que w -> w < fp + sz -> rp = phys sz r ->
  agree (fun k => ~ window sz w (fp + sz) k) d d' -> item_at d' sz w i u ->
  advance sz u (it_len i) < fp + sz ->
  ring_inv sz (phys sz (advance sz u (it_len i))) rp fp d' out (que ++ [i]).
Proof.
  intros Hs Hl Hf Hh Hq Hi Hc1 Hc2 Hw Hr Ha Hit Hadv.
  pose proof (chain_push sz Hs d d' fp (out ++ que) w i u Hl ltac:(lia) ltac:(lia) Ha) as Hp.
  rewrite chain_app in Hp. specialize (Hp (ex_intro _ r (conj Hc1 Hc2)) Hit).
  rewrite <- app_assoc in Hp. apply chain_app in Hp as (r' & Hc1' & Hc2').
  assert (r' = r) as ->.
  { apply (chain_fun sz Hs d' d fp out out); [apply same_place_refl|done|done]. }
  split; [done|destruct Ha; lia|done| |done|].
  - exists r, (advance sz u (it_len i)). by split_and!.
  - apply Forall_app. split; [done|]. by constructor.
Qed.

(** The item would end so close to the end of the storage that [write_ptr]
    wraps onto [free_ptr] at the start, which makes a full ring look empty. *)
Definition exact_fill (rb : ringbuf_t) (n : Z) : bool :=
  (free_ptr rb =? 0) && (size rb - HDR <? write_ptr rb + HDR + round4 n)
  && (write_ptr rb + HDR + round4 n <=? size rb).

Lemma exact_fill_false rb n :
  exact_fill rb n = false <->
  ~ (free_ptr rb = 0 /\ size rb - HDR < write_ptr rb + HDR + round4 n <= size rb).
Proof.
  unfold exact_fill. rewrite <- not_true_iff_false, !andb_true_iff, Z.eqb_eq, Z.ltb_lt, Z.leb_le. lia.
Qed.

(** What a successful write does: [parts] join the queue. *)
Definition pushed (rb rb' : ringbuf_t) (out que : list item) (parts : list (list Z)) : Prop :=
  exists w' d' new, rb' = with_write w' (with_data d' rb)
    /\ it_data <$> new = parts /\ items_inv rb' out (que ++ new).

(** The positions of a ring in its invariant, unfolded. *)
Lemma inv_positions sz wp_ rp fp d out que :
  ring_inv sz wp_ rp fp d out que ->
  exists r w, chain d sz fp out r /\ chain d sz r que w /\ fp <= r <= w /\ w < fp + sz
    /\ rp = phys sz r /\ wp_ = phys sz w /\ hdr_ok sz r /\ hdr_ok sz w /\ 0 <= phys sz r /\ 0 <= phys sz w.
Proof.
  intros [Hs Hl (Hf0 & Hf1 & Hf2) (r & w & Hc1 & Hc2 & Hw & -> & ->) _ _].
  pose proof (chain_le _ _ _ _ _ Hc1). pose proof (chain_le _ _ _ _ _ Hc2). exists r, w.
  assert (fp <= r <= w) by (unfold HDR in *; lia).
  assert (hdr_ok sz r) by (apply (hdr_ok_chain sz Hs d fp out); done || lia).
  assert (hdr_ok sz w) by (apply (hdr_ok_chain sz Hs d r que); done || lia).
  split_and!; try done; try lia; phys_lia.
Qed.

(** The second assertion of the writers holds at every header position: the
    negative distance to the end is read as an unsigned number. *)
Lemma write_assert p sz :
  0 <= p -> p + HDR <= sz < 2 ^ 31 -> (HDR <=? u32 (p - sz)) = true.
Proof.
  intros H0 H1. apply Z.leb_le. unfold u32, wrap.
  replace (p - sz) with ((p - sz + 2 ^ 32) + (-1) * 2 ^ 32) by lia.
  rewrite Z.mod_add, Z.mod_small by (unfold HDR in *; lia). unfold HDR in *. lia.
Qed.

(** One item written contiguously at the write pointer. *)
Lemma write_item_push buffer n rb out que :
  items_inv rb out que -> n = Z.of_nat (length buffer) -> n < 2 ^ 31 - 16 ->
  write_ptr rb + HDR + round4 n <= size rb ->
  HDR + round4 n <= ringbufferFreeMem rb -> exact_fill rb n = false ->
  wp (write_item buffer n (round4 n))
     (fun ok rb' => ok = true /\ pushed rb rb' out que [buffer]) rb.
Proof.
  intros Hinv Hn Hsm Hfit Hroom Hex. pose proof (inv_positions _ _ _ _ _ _ _ Hinv)
    as (r & w & Hc1 & Hc2 & Hrw & Hw & Hr & Hwp & _ & [Ho1 Ho2] & _ & Hw0).
  destruct Hinv as [Hs Hl (Hf0 & Hf1 & Hf2) _ Hh Hq].
  pose proof (round4_spec n ltac:(lia)) as [Hr4 _].
  rewrite FreeMem_eq in Hroom by (unfold HDR in *; lia). rewrite Hwp in *.
  eapply wp_mono; [apply write_item_spec; (done || unfold HDR in *; lia)|].
  cbn beta. rewrite Hwp. intros ok rb' (-> & d' & -> & Hwr). split; [done|].
  assert (Hadv : advance (size rb) w n < free_ptr rb + size rb).
  { apply exact_fill_false in Hex. rewrite Hwp in Hex. destruct Hf1 as [_ Hf1]. unfold advance.
    revert Hroom. repeat case_test; intros; phys_lia. }
  exists (phys (size rb) (advance (size rb) w n)), d', [Item false (phys (size rb) w + HDR) buffer false].
  rewrite phys_advance by (done || lia). split_and!; [done|done|].
  rewrite <- phys_advance by (done || lia).
  - destruct rb as [sz p rp fp d fl mx c g b fs is_]. unfold items_inv.
    cbn [size write_ptr read_ptr free_ptr data with_write with_data] in *.
    assert (Ei : it_len (Item false (phys sz w + HDR) buffer false) = n) by done.
    rewrite <- Ei. apply (ring_inv_push sz rp fp d d' out que r w); try done.
    + pose proof (advance_bounds sz w n Hfit).
      eapply agree_mono; [|apply Hwr]. cbn beta. intros k Hk Hin. apply Hk.
      apply (window_range sz Hs w (fp + sz) w 0 (HDR + n)); unfold HDR in *; lia.
    + apply (written_item d); [done|done| |done]. by rewrite <- Hn.
    + by rewrite Ei.
Qed.

(** The item written at the start of the storage, behind a dummy header. *)
Lemma write_item_wrap buffer n rb d1 out que :
  items_inv rb out que -> n = Z.of_nat (length buffer) -> n < 2 ^ 31 - 16 ->
  free_ptr rb <= write_ptr rb -> round4 n + HDR < free_ptr rb ->
  agree (fun i => ~ (write_ptr rb <= i < write_ptr rb + HDR)) (data rb) d1 ->
  le_decode (slice d1 (write_ptr rb + 4) 4) = iflag_dummydata ->
  wp (write_item buffer n (round4 n))
     (fun ok rb' => ok = true /\ pushed rb rb' out que [buffer]) (with_write 0 (with_data d1 rb)).
Proof.
  intros Hinv Hn Hsm Hfw Hroom Hd1 Hdm. pose proof (inv_positions _ _ _ _ _ _ _ Hinv)
    as (r & w & Hc1 & Hc2 & Hrw & Hw & Hr & Hwp & _ & [Ho1 Ho2] & _ & Hw0).
  destruct Hinv as [Hs Hl (Hf0 & Hf1 & Hf2) _ Hh Hq]. pose proof (proj2 Hf1) as Hf3.
  pose proof (round4_spec n ltac:(lia)) as [Hr4 _].
  destruct rb as [sz p rp fp d fl mx c g b fs is_].
  cbn [size write_ptr read_ptr free_ptr data with_write with_data] in *.
  assert (p = w /\ w + HDR <= sz) as [-> Hwsz] by phys_lia. pose proof (proj1 Hd1) as Hl1.
  eapply wp_mono; [apply write_item_spec; cbn [size write_ptr data]; (done || phys_lia)|].
  cbn beta. cbn [size write_ptr data]. intros ok rb' (-> & d' & -> & Hwr). split; [done|].
  assert (E0 : phys sz sz = 0) by phys_lia.
  assert (Hwr' : written d1 d' (phys sz sz) buffer) by (by rewrite E0).
  set (i := Item true (phys sz sz + HDR) buffer false). assert (Ei : it_len i = n) by done.
  assert (Hfit : phys sz sz + HDR + round4 n <= sz) by phys_lia.
  assert (Hadv : advance sz sz n < fp + sz) by (unfold advance; phys_lia).
  exists (phys sz (advance sz sz n)), d', [i].
  replace (if sz - (0 + HDR + round4 n) <? HDR then 0 else 0 + HDR + round4 n)
    with (phys sz (advance sz sz n)) by (rewrite phys_advance by (done || lia); by rewrite E0).
  split_and!; [done|done|].
  unfold items_inv.
  cbn [size write_ptr read_ptr free_ptr data with_write with_data].
  rewrite <- Ei. apply (ring_inv_push sz rp fp d d' out que r w); try done.
  - apply (agree_trans _ _ d1).
    + eapply agree_mono; [|exact Hd1]. cbn beta. intros k Hk Hin. apply Hk.
      apply (window_range sz Hs w (fp + sz) w 0 HDR); phys_lia.
    + eapply agree_mono; [|apply Hwr]. cbn beta. intros k Hk Hin. apply Hk.
      apply (window_range sz Hs w (fp + sz) sz 0 (HDR + n)); phys_lia.
  - apply (written_item d1); [done|by rewrite E0|by rewrite <- Hn|]. split_and!; [done| |done].
    rewrite <- Hdm. f_equal. apply slice_ext; [phys_lia..|].
    eapply agree_mono; [|apply Hwr]. cbn beta. phys_lia.
  - by rewrite Ei.
Qed.

(** There is no place for [n] bytes: the tests of the two item writers. *)
Definition no_place (allow : bool) (rb : ringbuf_t) (n : Z) : bool :=
  if size rb - write_ptr rb <? round4 n + HDR then
    if allow then ringbufferFreeMem rb <? HDR * 2 + round4 n
    else (free_ptr rb <? round4 n + HDR + 4) || (write_ptr rb <? free_ptr rb)
  else ringbufferFreeMem rb <? HDR + round4 n.

Lemma u32_FreeMem rb out que : items_inv rb out que -> u32 (ringbufferFreeMem rb) = ringbufferFreeMem rb.
Proof.
  intros Hinv. pose proof (inv_positions _ _ _ _ _ _ _ Hinv)
    as (r & w & _ & _ & _ & _ & _ & Hwp & _ & [_ Ho2] & _ & Hw0).
  pose proof (ri_size _ _ _ _ _ _ _ Hinv) as Hs.
  destruct (ri_free _ _ _ _ _ _ _ Hinv) as (Hf0 & _ & Hf2). rewrite <- Hwp in *.
  rewrite FreeMem_eq by (unfold HDR in *; lia). apply u32_small. case_test; unfold HDR in *; lia.
Qed.

Lemma nosplit_spec buffer n rb out que :
  items_inv rb out que -> n = Z.of_nat (length buffer) -> n < 2 ^ 31 - 16 -> exact_fill rb n = false ->
  wp (copyItemToRingbufNoSplit buffer n)
     (fun ok rb' => if ok : bool then pushed rb rb' out que [buffer]
        else rb' = rb /\ no_place false rb n = true) rb.
Proof.
  intros Hinv Hn Hsm Hex. pose proof (inv_positions _ _ _ _ _ _ _ Hinv)
    as (r & w & _ & _ & _ & _ & _ & Hwp & _ & [Ho1 Ho2] & _ & Hw0).
  pose proof (ri_size _ _ _ _ _ _ _ Hinv) as Hs. pose proof (ri_len _ _ _ _ _ _ _ Hinv) as Hl.
  destruct (ri_free _ _ _ _ _ _ _ Hinv) as (Hf0 & [_ Hf1] & Hf2).
  pose proof (round4_spec n ltac:(lia)) as [Hr4 _]. rewrite <- Hwp in *.
  unfold copyItemToRingbufNoSplit, no_place. do 2 wp_step.
  apply wp_bind, wp_check; [by apply aligned4|]. apply wp_bind, wp_check; [apply write_assert; lia|].
  rewrite (u32_FreeMem rb out que Hinv), (u32_small (size rb - _)), (u32_small (round4 n + HDR)),
    (u32_small (round4 n + HDR + 4)), (u32_small (HDR + _)), (u32_small (free_ptr rb))
    by (unfold HDR in *; lia).
  wp_step. destruct (_ - _ <? _) eqn:E1.
  - destruct (free_ptr rb <? _) eqn:E2; [by wp_steps|].
    destruct (write_ptr rb <? _) eqn:E3; [by wp_steps|]. simplify_bool.
    wp_step. apply wp_st32; [unfold HDR in *; lia..|]. intros d1 U1. wp_steps. cbn beta iota.
    eapply wp_mono; [apply (write_item_wrap buffer n rb d1 out que); [done..| | | |]|].
    + lia.
    + unfold HDR in *. lia.
    + eapply agree_mono; [|by eapply upd_agree]. cbn beta. rewrite length_le_encode. unfold HDR. lia.
    + rewrite (upd_slice_in (data rb) (write_ptr rb + 4) (le_encode 4 iflag_dummydata))
        by (done || unfold HDR in *; lia). done.
    + cbn beta. by intros ok rb' [-> H].
  - wp_steps. destruct (ringbufferFreeMem rb <? _) eqn:E2; cbn [negb]; [by wp_steps|]. simplify_bool.
    eapply wp_mono; [apply (write_item_push buffer n rb out que); try done; unfold HDR in *; lia|].
    cbn beta. by intros ok rb' [-> H].
Qed.

(** Two updates of separate places commute. *)
Lemma upd_swap d a x d1 b y d2 :
  0 <= b -> b + Z.of_nat (length y) <= Z.of_nat (length d) ->
  a + Z.of_nat (length x) <= b \/ b + Z.of_nat (length y) <= a ->
  upd d a x d1 -> upd d1 b y d2 -> exists d1', upd d b y d1' /\ upd d1' a x d2.
Proof.
  intros H0 H1 Hd [L1 U1] [L2 U2]. destruct (blit_spec d b y) as (d1' & _ & L & U); [done..|].
  exists d1'. split; [done|]. split; [lia|]. intros i. rewrite U2, U1, U.
  destruct (within a _ i) eqn:Ea, (within b _ i) eqn:Eb; try done.
  apply within_spec in Ea, Eb. lia.
Qed.

(** The first part of a split item fills the storage up to its end. *)
Lemma split_first rb d' part out que :
  items_inv rb out que -> size rb mod 4 = 0 ->
  Z.of_nat (length part) = size rb - write_ptr rb - HDR ->
  free_ptr rb <= write_ptr rb -> 0 < free_ptr rb -> written (data rb) d' (write_ptr rb) part ->
  items_inv (with_write 0 (with_data d' rb)) out
    (que ++ [Item false (write_ptr rb + HDR) part false]).
Proof.
  intros Hinv Hm Hp Hfw Hf Hwr. pose proof (inv_positions _ _ _ _ _ _ _ Hinv)
    as (r & w & Hc1 & Hc2 & Hrw & Hw & Hr & Hwp & _ & [Ho1 Ho2] & _ & Hw0).
  destruct Hinv as [Hs Hl (Hf0 & Hf1 & Hf2) _ Hh Hq]. pose proof (proj2 Hf1) as Hf3.
  destruct rb as [sz p rp fp d fl mx c g b fs is_]. unfold items_inv.
  cbn [size write_ptr read_ptr free_ptr data with_write with_data] in *.
  assert (p = w /\ phys sz w = w) as [-> E] by phys_lia. rewrite E in *.
  set (i := Item false (w + HDR) part false). set (k := Z.of_nat (length part)) in *.
  assert (Hk : round4 k = k).
  { pose proof (round4_sub k k ltac:(unfold HDR in *; lia) ltac:(unfold HDR in *; lia)) as H.
    pose proof (round4_spec k ltac:(unfold HDR in *; lia)) as [Ha Hb].
    apply Z.mod_divide in Hb as [x Hb]; [|lia]. apply Z.mod_divide in Hm as [y Hm]; [|lia].
    apply Z.mod_divide in Ho1 as [z Ho1]; [|lia]. unfold HDR in *. lia. }
  assert (Ha : advance sz w (it_len i) = sz).
  { unfold advance. change (it_len i) with k. rewrite E, Hk. unfold HDR in *. case_test; lia. }
  replace 0 with (phys sz (advance sz w (it_len i))) by (rewrite Ha; phys_lia).
  apply (ring_inv_push sz rp fp d d' out que r w); try done.
  - eapply agree_mono; [|apply Hwr]. cbn beta. fold k. intros x Hx Hin. apply Hx.
    apply (window_range sz Hs w (fp + sz) w 0 (HDR + k)); rewrite ?E; unfold HDR in *; lia.
  - pose proof (written_item d d' sz w w false part) as H. rewrite E in H. apply H; [done..| |done].
    fold k. rewrite Hk. unfold HDR in *. lia.
  - rewrite Ha. lia.
Qed.

Lemma pushed_app rb rb1 rb' out que i parts w1 d1 :
  rb1 = with_write w1 (with_data d1 rb) ->
  pushed rb1 rb' out (que ++ [i]) parts -> pushed rb rb' out que (it_data i :: parts).
Proof.
  intros -> (w' & d' & new & -> & <- & H). exists w', d', (i :: new). split_and!; [by destruct rb|done|].
  by rewrite <- app_assoc in H.
Qed.

(** The branch of the splitting writer that goes past the end. *)
Lemma allowsplit_wrap (buffer : list Z) n rb out que :
  items_inv rb out que -> size rb mod 4 = 0 -> n = Z.of_nat (length buffer) -> n < 2 ^ 31 - 16 ->
  size rb - write_ptr rb < round4 n + HDR -> HDR * 2 + round4 n <= ringbufferFreeMem rb ->
  free_ptr rb <= write_ptr rb /\ HDR + round4 n < free_ptr rb + (size rb - write_ptr rb) - HDR
  /\ (size rb - write_ptr rb - HDR) mod 4 = 0
  /\ 0 <= size rb - write_ptr rb - HDR /\ size rb - write_ptr rb - HDR <= Z.max 0 (n - 1).
Proof.
  intros Hinv Hm Hn Hsm Hrem Hroom. pose proof (inv_positions _ _ _ _ _ _ _ Hinv)
    as (r & w & _ & _ & _ & _ & _ & Hwp & _ & [Ho1 Ho2] & _ & Hw0).
  pose proof (ri_size _ _ _ _ _ _ _ Hinv) as Hs.
  destruct (ri_free _ _ _ _ _ _ _ Hinv) as (Hf0 & _ & Hf2). rewrite <- Hwp in *.
  rewrite FreeMem_eq in Hroom by (unfold HDR in *; lia).
  pose proof (round4_spec n ltac:(lia)) as [Hr4 Hr5].
  apply Z.mod_divide in Hm as [a Hm]; [|lia]. apply Z.mod_divide in Ho1 as [b Ho1]; [|lia].
  apply Z.mod_divide in Hr5 as [c Hr5]; [|lia]. revert Hroom. unfold HDR in *.
  case_test; [|lia]. intros Hroom. split_and!; try lia.
  apply Z.mod_divide; [lia|]. exists (a - b - 2). lia.
Qed.

(** Only the header fits: it becomes a dummy. *)
Lemma allowsplit_dummy buffer n rb out que :
  items_inv rb out que -> n = Z.of_nat (length buffer) -> n < 2 ^ 31 - 16 ->
  free_ptr rb <= write_ptr rb -> round4 n + HDR < free_ptr rb -> 0 <= write_ptr rb ->
  write_ptr rb + HDR = size rb ->
  wp (set_hdr_flags (write_ptr rb) 0;; set_hdr_len (write_ptr rb) 0;;
      modify (with_write (write_ptr rb + HDR));;
      fl ← hdr_flags (write_ptr rb); set_hdr_flags (write_ptr rb) (Z.lor fl iflag_dummydata);;
      modify (with_write 0);; write_item buffer n (round4 n))
     (fun ok rb' => ok = true /\ pushed rb rb' out que [buffer]) rb.
Proof.
  intros Hinv Hn Hsm Hfw Hroom Hw Hend. pose proof (ri_len _ _ _ _ _ _ _ Hinv) as Hl.
  pose proof (fun d1 => write_item_wrap buffer n rb d1 out que Hinv Hn Hsm Hfw Hroom) as HW.
  destruct rb as [sz p rp fp d fl mx c g b fs is_].
  cbn [size write_ptr read_ptr free_ptr data with_write with_data] in *.
  unfold set_hdr_flags, set_hdr_len, hdr_flags.
  wp_step. apply wp_st32; cbn [data]; [unfold HDR in *; lia..|]. intros d1 U1. pose proof (proj1 U1) as L1.
  cbn [with_data]. wp_step. apply wp_st32; cbn [data]; [unfold HDR in *; lia..|]. intros d2 U2.
  pose proof (proj1 U2) as L2. cbn [with_data]. do 2 wp_step. cbn [with_write].
  wp_step. apply wp_ld32; cbn [data]; [unfold HDR in *; lia..|].
  assert (E : le_decode (slice d2 (p + 4) 4) = 0).
  { rewrite (upd_slice_out d1 p (le_encode 4 0)) by (done || rewrite ?length_le_encode; unfold HDR in *; lia).
    rewrite (upd_slice_in d (p + 4) (le_encode 4 0)) by (done || unfold HDR in *; lia). done. }
  rewrite E. wp_step. apply wp_st32; cbn [data]; [unfold HDR in *; lia..|]. intros d3 U3.
  cbn [with_data]. do 2 wp_step. cbn [with_write].
  eapply wp_mono; [apply HW|].
  - apply (agree_trans _ _ d2); [apply (agree_trans _ _ d1)|];
      (eapply agree_mono; [|by eapply upd_agree]); cbn beta; rewrite ?length_le_encode; unfold HDR; lia.
  - rewrite (upd_slice_in d2 (p + 4) (le_encode 4 (Z.lor 0 iflag_dummydata)))
      by (done || unfold HDR in *; lia). done.
  - done.
Qed.

(** Part of the payload fits: two items. *)
Lemma allowsplit_two buffer n k rb out que :
  items_inv rb out que -> size rb mod 4 = 0 -> n = Z.of_nat (length buffer) -> n < 2 ^ 31 - 16 ->
  k = size rb - write_ptr rb - HDR -> k mod 4 = 0 -> 0 < k < n -> 0 <= write_ptr rb ->
  free_ptr rb <= write_ptr rb -> HDR + round4 n < free_ptr rb + k ->
  wp (set_hdr_flags (write_ptr rb) 0;; set_hdr_len (write_ptr rb) k;;
      modify (with_write (write_ptr rb + HDR));;
      memcpy_in (write_ptr rb + HDR) buffer k;; modify (with_write 0);;
      write_item (drop (Z.to_nat k) buffer) (n - k) (round4 n - k))
     (fun ok rb' => ok = true
        /\ pushed rb rb' out que [take (Z.to_nat k) buffer; drop (Z.to_nat k) buffer]) rb.
Proof.
  intros Hinv Hm Hn Hsm Hk Hk4 Hkn Hw Hfw Hroom. pose proof (ri_len _ _ _ _ _ _ _ Hinv) as Hl.
  pose proof (ri_size _ _ _ _ _ _ _ Hinv) as Hs.
  pose proof (ri_free _ _ _ _ _ _ _ Hinv) as (Hf0 & [_ Hf1] & Hf2).
  pose proof (round4_spec n ltac:(lia)) as [Hr4 _].
  assert (Lp : Z.of_nat (length (take (Z.to_nat k) buffer)) = k) by (rewrite length_take; lia).
  pose proof (fun d' => split_first rb d' (take (Z.to_nat k) buffer) out que Hinv Hm) as HF.
  rewrite Lp in HF. remember rb as rb0 eqn:Erb.
  destruct rb0 as [sz p rp fp d fl mx c g b fs is_].
  cbn [size write_ptr read_ptr free_ptr data with_write with_data] in *.
  unfold set_hdr_flags, set_hdr_len.
  wp_step. apply wp_st32; cbn [data]; [unfold HDR in *; lia..|]. intros d1 U1. pose proof (proj1 U1) as L1.
  cbn [with_data]. wp_step. apply wp_st32; cbn [data]; [unfold HDR in *; lia..|]. intros d2 U2.
  pose proof (proj1 U2) as L2. cbn [with_data]. do 2 wp_step. cbn [with_write].
  wp_step. apply wp_memcpy_in; cbn [data]; [unfold HDR in *; lia..|]. intros d3 U3.
  cbn [with_data]. do 2 wp_step. cbn [with_write].
  destruct (upd_swap d (p + 4) (le_encode 4 0) d1 p (le_encode 4 k) d2) as (d1' & U1' & U2');
    [lia|rewrite length_le_encode; unfold HDR in *; lia|rewrite !length_le_encode; lia|done|done|].
  assert (W : written d d3 p (take (Z.to_nat k) buffer)).
  { apply (upd_written d d1' d2); rewrite ?Lp; done || unfold HDR in *; lia. }
  rewrite <- (round4_sub n k) by (done || lia).
  eapply wp_mono; [eapply write_item_push; [apply HF; unfold HDR in *; done || lia|..]|].
  - rewrite length_drop. lia.
  - lia.
  - cbn [size write_ptr]. rewrite round4_sub by (done || lia). phys_lia.
  - rewrite FreeMem_eq; cbn [size write_ptr free_ptr]; rewrite ?round4_sub by (done || lia); [|lia..].
    unfold HDR in *. case_test; lia.
  - apply exact_fill_false. cbn [free_ptr]. unfold HDR in *. lia.
  - intros ok rb' [-> H]. split; [done|]. eapply (pushed_app _ _ rb') in H; [exact H|]. done.
Qed.

(** The ways a payload may be cut: not at all, or into two parts where the
    ring allows it. *)
Inductive splits (allow : bool) (b : list Z) : list (list Z) -> Prop :=
| splits_whole : splits allow b [b]
| splits_two b1 b2 : allow = true -> b1 <> [] -> b2 <> [] -> b = b1 ++ b2 -> splits allow b [b1; b2].

Lemma allowsplit_spec buffer n rb out que :
  items_inv rb out que -> size rb mod 4 = 0 ->
  n = Z.of_nat (length buffer) -> n < 2 ^ 31 - 16 -> exact_fill rb n = false ->
  wp (copyItemToRingbufAllowSplit buffer n)
     (fun ok rb' => if ok : bool then exists parts, splits true buffer parts /\ pushed rb rb' out que parts
        else rb' = rb /\ no_place true rb n = true) rb.
Proof.
  intros Hinv Hm Hn Hsm Hex. pose proof (inv_positions _ _ _ _ _ _ _ Hinv)
    as (r & w & _ & _ & _ & _ & _ & Hwp & _ & [Ho1 Ho2] & _ & Hw0).
  pose proof (ri_size _ _ _ _ _ _ _ Hinv) as Hs. pose proof (ri_len _ _ _ _ _ _ _ Hinv) as Hl.
  destruct (ri_free _ _ _ _ _ _ _ Hinv) as (Hf0 & [_ Hf1] & Hf2).
  pose proof (round4_spec n ltac:(lia)) as [Hr4 _]. rewrite <- Hwp in *.
  unfold copyItemToRingbufAllowSplit, no_place. do 2 wp_step.
  apply wp_bind, wp_check; [by apply aligned4|]. apply wp_bind, wp_check; [apply write_assert; lia|].
  rewrite (u32_FreeMem rb out que Hinv), (u32_small (size rb - _)), (u32_small (round4 n + HDR)),
    (u32_small (HDR * 2 + _)), (u32_small (HDR + _)) by (unfold HDR in *; lia).
  destruct (_ - _ <? _) eqn:E1; (destruct (ringbufferFreeMem rb <? _) eqn:E2; [by wp_steps|]); simplify_bool.
  - destruct (allowsplit_wrap buffer n rb out que) as (A1 & A2 & A3 & A4 & A5); [done..|].
    apply wp_bind, wp_check; [apply Z.leb_le; lia|].
    remember (size rb - write_ptr rb - HDR) as k eqn:Ek.
    destruct (k =? 0) eqn:Ek0; simplify_bool; cbn [negb].
    + rewrite Ek0. eapply wp_mono; [apply (allowsplit_dummy buffer n rb out que); try done; lia|].
      intros ok rb' [-> H]. exists [buffer]. split; [constructor|exact H].
    + rewrite (u32_small (n - k)), (u32_small (round4 n - k)) by lia.
      eapply wp_mono; [apply (allowsplit_two buffer n k rb out que); try done; lia|].
      intros ok rb' [-> H]. eexists. split; [|exact H].
      constructor; [done|..|by rewrite take_drop]; intros E3; apply (f_equal length) in E3;
        rewrite ?length_take, ?length_drop in E3; cbn in E3; lia.
  - eapply wp_mono; [apply (write_item_push buffer n rb out que); try done; unfold HDR in *; lia|].
    intros ok rb' [-> H]. exists [buffer]. split; [constructor|exact H].
Qed.

(** ** Receiving an item *)



Definition undummy (i : item) : item := Item false (it_ptr i) (it_data i) (it_freed i).



(** ** Giving an item back *)




(** What the clean-up pass leaves of the outstanding items: the returned
    items in front are gone, and so is a dummy in front of the rest. *)
Fixpoint clean (out : list item) : list item :=
  match out with
  | [] => []
  | i :: l => if it_freed i then clean l else undummy i :: l
  end.








Lemma clean_head l : match clean l with i :: _ => it_freed i = false | [] => True end.
Proof. induction l as [|i l IH]; cbn [clean]; [done|]. by destruct (it_freed i) eqn:E. Qed.


(** ** A ring of items is a queue with loans

    The abstract state: the payloads that have been handed out and not given
    back, each with the address it was handed out at, and the payloads
    waiting, in the order they were sent. *)

Record loans : Type := Loans { lent : list (Z * list Z); queued : list (list Z) }.

Inductive ring_op : Type := Send (b : list Z) | Receive | Return_ (p : Z).
Inductive ring_res : Type := Sent (ok : bool) | Got (r : option (Z * Z)) | Returned.




(** The same operations on the ring. *)
Definition ring_exec (op : ring_op) : M ringbuf_t ring_res :=
  match op with
  | Send b => ok ← xRingbufferSendFromISR b (Z.of_nat (length b)); mret (Sent ok)
  | Receive => r ← xRingbufferReceiveFromISR; mret (Got r)
  | Return_ p => vRingbufferReturnItemFromISR p;; mret Returned
  end.

Definition loan (i : item) : Z * list Z := (it_ptr i, it_data i).
Definition loans_of (out que : list item) : loans :=
  Loans (loan <$> filter (fun i => it_freed i = false) out) (it_data <$> que).

(** The ring was created to hold items. *)
Definition items_ring (allow : bool) (rb : ringbuf_t) : Prop :=
  copyItemToRingbufImpl rb = (if allow then copyItemToRingbufAllowSplit_ptr else copyItemToRingbufNoSplit_ptr)
  /\ getItemFromRingbufImpl rb = getItemFromRingbufDefault_ptr
  /\ returnItemToRingbufImpl rb = returnItemToRingbufDefault_ptr
  /\ maxItemSize rb = u32 (if allow then size rb - HDR * 2 - 4 else size rb / 2 - HDR - 4)
  /\ (allow = true -> size rb mod 4 = 0).

Definition ring_rel (allow : bool) (rb : ringbuf_t) (a : loans) : Prop :=
  items_ring allow rb /\ exists out que, items_inv rb out que /\ a = loans_of out que.

(** Which calls are covered: a payload below 2 GB that does not make the write
    pointer land on the free pointer, and the return of an address that is on
    loan and inside the storage. *)
Definition op_ok (rb : ringbuf_t) (a : loans) (op : ring_op) : Prop :=
  match op with
  | Send b => Z.of_nat (length b) < 2 ^ 31 - 16 /\ exact_fill rb (Z.of_nat (length b)) = false
  | Receive => True
  | Return_ p => p ∈ (lent a).*1 /\ p < size rb
  end.





Lemma items_ring_write allow w d rb : items_ring allow rb -> items_ring allow (with_write w (with_data d rb)).
Proof. by destruct rb. Qed.


(** The copy routine of the ring, whichever it is. *)
Lemma copy_item_spec allow b rb out que :
  items_ring allow rb -> items_inv rb out que -> Z.of_nat (length b) < 2 ^ 31 - 16 ->
  exact_fill rb (Z.of_nat (length b)) = false ->
  wp (copy_item b (Z.of_nat (length b))) (fun ok rb' =>
    if ok : bool then exists parts, splits allow b parts /\ pushed rb rb' out que parts
    else rb' = rb /\ no_place allow rb (Z.of_nat (length b)) = true) rb.
Proof.
  intros (Hc & _ & _ & _ & Hm) Hinv Hb Hex. unfold copy_item. do 2 wp_step. rewrite Hc. destruct allow.
  - apply allowsplit_spec; auto.
  - eapply wp_mono; [by apply nosplit_spec|]. intros ok rb' H. destruct ok; [|done].
    eexists. split; [constructor|exact H].
Qed.


(** The whole send handler: an accepted payload is in the queue, a refused
    one found no place. *)
Lemma send_isr_spec allow b rb out que :
  items_ring allow rb -> items_inv rb out que -> op_ok rb (loans_of out que) (Send b) ->
  wp (xRingbufferSendFromISR b (Z.of_nat (length b))) (fun ok rb' =>
    if ok : bool then exists parts rb1, splits allow b parts /\ pushed rb rb1 out que parts
      /\ rb' = with_items_buffered true rb1
    else rb' = rb /\ (ringbufferFreeMem rb < Z.of_nat (length b) + HDR
                      \/ no_place allow rb (Z.of_nat (length b)) = true)) rb.
Proof.
  intros Hr Hinv [Hb Hex]. unfold xRingbufferSendFromISR. do 3 wp_step.
  rewrite (u32_FreeMem rb out que Hinv), u32_small by (unfold HDR; lia).
  destruct (ringbufferFreeMem rb <? _) eqn:E; [wp_steps; simplify_bool; auto|].
  eapply wp_mono; [by apply (copy_item_spec allow)|]. intros ok rb' H. destruct ok; wp_steps.
  - destruct H as (parts & ? & ?). eauto.
  - destruct H. auto.
Qed.








(** A new ring is empty. *)
Lemma create_ring_rel al n allow bytes :
  al = Allocs true (Some bytes) true true -> Z.of_nat (length bytes) = n -> 8 <= n < 2 ^ 31 ->
  (allow = true -> n mod 4 = 0) ->
  exists rb, xRingbufferCreate al n (if allow then RINGBUF_TYPE_ALLOWSPLIT else RINGBUF_TYPE_NOSPLIT)
      = Ret (Some rb, []) /\ size rb = n /\ ring_rel allow rb (Loans [] []).
Proof.
  intros -> Hl Hn Hm. assert (Hinv : ring_inv n 0 0 0 bytes [] []).
  { assert (Hp : phys n 0 = 0) by phys_lia. split; try done.
    - unfold hdr_ok. rewrite Hp. unfold HDR. split_and!; done || lia.
    - exists 0, 0. rewrite Hp. split_and!; done || lia. }
  destruct allow; (eexists; split; [done|]; split; [done|]; split; [by split_and!|]; by exists [], []).
Qed.

(** Creation that fails gives back everything it had obtained. *)
Lemma create_no_leak al n type rb freed :
  xRingbufferCreate al n type = Ret (rb, freed) -> rb = None ->
  freed = (if al_struct al then
             (match al_data al with
              | Some _ => [RData] ++ (if al_free_sem al then [RFreeSem] else [])
                          ++ (if al_items_sem al then [RItemsSem] else [])
              | None => [] end) ++ [RStruct]
           else []).
Proof.
  unfold xRingbufferCreate. destruct (al_struct al); [|by intros [= <- <-]].
  destruct (al_data al); [|by intros [= <- <-]]. destruct type; [| | |done];
    cbn; destruct (al_free_sem al), (al_items_sem al); cbn; intros [= <- <-]; done.
Qed.

(** ** An empty ring takes every item up to its advertised maximum *)

Lemma empty_positions rb out que :
  items_inv rb out que -> loans_of out que = Loans [] [] ->
  read_ptr rb = free_ptr rb /\ write_ptr rb = free_ptr rb.
Proof.
  intros Hinv [= Ho Hq]. destruct (ri_free _ _ _ _ _ _ _ Hinv) as (Hf0 & _ & Hf2).
  pose proof (ri_head _ _ _ _ _ _ _ Hinv) as Hh. apply fmap_nil_inv in Hq as ->.
  destruct out as [|i out]; [|by rewrite filter_cons_True in Ho].
  destruct (ri_chain _ _ _ _ _ _ _ Hinv) as (r & w & -> & -> & _ & -> & ->). split; phys_lia.
Qed.

Lemma empty_has_place allow rb n :
  items_ring allow rb -> 24 <= size rb < 2 ^ 31 -> 0 <= free_ptr rb < size rb -> free_ptr rb mod 4 = 0 ->
  write_ptr rb = free_ptr rb -> 0 <= n <= maxItemSize rb ->
  n < 2 ^ 31 - 16 /\ exact_fill rb n = false /\ n + HDR <= ringbufferFreeMem rb
  /\ no_place allow rb n = false.
Proof.
  intros (_ & _ & _ & Hmax & Hm) Hs Hf H4 Hw Hn. rewrite Hmax in Hn.
  assert (Hle : n <= (if allow then size rb - 20 else size rb / 2 - 12)).
  { pose proof (Z.div_mod (size rb) 2 ltac:(lia)). pose proof (Z.mod_pos_bound (size rb) 2 ltac:(lia)).
    unfold HDR in *. destruct allow; rewrite u32_small in Hn; lia. }
  assert (Hdiv : 2 * (size rb / 2) <= size rb) by (apply Z.mul_div_le; lia).
  assert (Hsm : n < 2 ^ 31 - 16) by (destruct allow; lia).
  pose proof (round4_spec n ltac:(lia)) as [Hr Hr4]. apply Z.mod_divide in Hr4 as [a Ha]; [|lia].
  apply Z.mod_divide in H4 as [c Hc]; [|lia].
  assert (Hr2 : round4 n <= (if allow then size rb - 20 else size rb / 2 - 9)).
  { destruct allow; [|lia]. specialize (Hm eq_refl). apply Z.mod_divide in Hm as [e He]; lia. }
  assert (HF : ringbufferFreeMem rb = size rb - 1).
  { rewrite FreeMem_eq by lia. rewrite Hw, Z.leb_refl. lia. }
  split_and!; [done| | |].
  - apply exact_fill_false. rewrite Hw. unfold HDR. destruct allow; lia.
  - rewrite HF. unfold HDR. destruct allow; lia.
  - unfold no_place. rewrite HF, Hw, Z.ltb_irrefl, orb_false_r. unfold HDR.
    destruct (Z.ltb_spec (size rb - free_ptr rb) (round4 n + 8)); [destruct allow|];
      apply Z.ltb_ge; try lia. destruct allow; lia.
Qed.

(** An item ring from which everything has been received and returned
    accepts any payload up to the size [xRingbufferGetMaxItemSize] reports,
    wherever its pointers have come to rest: the handler returns [pdTRUE] and
    the payload, whole or in two parts, is the content of the queue. *)
Theorem empty_ring_accepts allow rb b :
  ring_rel allow rb (Loans [] []) -> 24 <= size rb ->
  Z.of_nat (length b) <= xRingbufferGetMaxItemSize rb ->
  exists rb' parts, xRingbufferSendFromISR b (Z.of_nat (length b)) rb = Ret (true, rb')
    /\ splits allow b parts /\ ring_rel allow rb' (Loans [] parts).
Proof.
  intros (Hr & out & que & Hinv & Ha) H24 Hb. pose proof (ri_size _ _ _ _ _ _ _ Hinv) as Hs.
  destruct (ri_free _ _ _ _ _ _ _ Hinv) as (Hf0 & [Hf1 _] & Hf2).
  destruct (empty_positions rb out que Hinv (eq_sym Ha)) as [Er Ew].
  assert (Pf : phys (size rb) (free_ptr rb) = free_ptr rb) by phys_lia. rewrite Pf in Hf1.
  destruct (empty_has_place allow rb (Z.of_nat (length b))) as (P1 & P2 & P3 & P4); try done; try lia.
  { unfold xRingbufferGetMaxItemSize in Hb. lia. }
  pose proof (send_isr_spec allow b rb out que Hr Hinv (conj P1 P2)) as HS.
  apply wp_inv in HS as (ok & rb' & Hrun & H). destruct ok; [|destruct H as [_ [H|H]]; [lia|congruence]].
  destruct H as (parts & rb1 & Hsp & (w' & d' & new & -> & Hp & Hi) & ->).
  eexists _, parts. split; [exact Hrun|]. split; [done|]. split; [by destruct rb|].
  injection Ha as Ho Hq. exists out, (que ++ new). split; [by destruct rb|].
  unfold loans_of. by rewrite fmap_app, Hp, <- Ho, <- Hq.
Qed.

(** ** A byte ring is a stream

    [vbytes d sz v w] are the bytes of the virtual window [v, w). *)

































(** ** The blocking send in a quiet system

    Nobody else runs and the free-space semaphore has not been given. *)

Section Quiet.
Context (b : list Z) (rb : ringbuf_t) (t : Z).
Let n := Z.of_nat (length b).
Let s := Task rb [] t.





End Quiet.


(** ** Examples *)

Definition new_ring (n : nat) (type : ringbuf_type_t) : ringbuf_t :=
  match xRingbufferCreate (Allocs true (Some (replicate n 0)) true true) (Z.of_nat n) type with
  | Ret (Some rb, _) => rb
  | _ => Ringbuf 0 0 0 0 [] 0 0 copyItemToRingbufNoSplit_ptr getItemFromRingbufDefault_ptr
           returnItemToRingbufDefault_ptr false false
  end.

Fixpoint ring_run (ops : list ring_op) : M ringbuf_t (list ring_res) :=
  match ops with
  | [] => mret []
  | op :: ops => r ← ring_exec op; rs ← ring_run ops; mret (r :: rs)
  end.

Definition results {A} (o : outcome (A * ringbuf_t)) : outcome A :=
  match o with Ret (a, _) => Ret a | Stuck f => Stuck f end.

Definition after {A} (m : M ringbuf_t A) (rb : ringbuf_t) : ringbuf_t :=
  match m rb with Ret (_, rb') => rb' | Stuck _ => rb end.

(** Three items that end four bytes before the end of the storage fill the
    ring; the write pointer wraps onto the free pointer, and all three are
    lost. *)
Example exact_fill_loses_items :
  let item := replicate 24 7 in
  results (ring_run [Send item; Send item; Send item; Receive] (new_ring 100 RINGBUF_TYPE_NOSPLIT))
  = Ret [Sent true; Sent true; Sent true; Got None].
Proof. vm_compute. reflexivity. Qed.

(** An empty item in the last eight bytes is handed out at the end of the
    storage, and giving it back fails the assertion on its address. *)
Example empty_item_at_end :
  let item := replicate 8 7 in
  let rb := after (ring_run [Send item; Send item; Receive; Return_ 8; Receive; Return_ 24; Send []])
              (new_ring 40 RINGBUF_TYPE_NOSPLIT) in
  results (ring_run [Receive] rb) = Ret [Got (Some (40, 0))]
  /\ ring_run [Receive; Return_ 40] rb = Stuck AssertFailed.
Proof. vm_compute. split; reflexivity. Qed.

(** With a size that is not a multiple of four, the splitting writer reads
    past the payload. *)
Example split_unaligned_size :
  let rb := after (ring_run [Send (replicate 8 7); Receive; Return_ 8]) (new_ring 31 RINGBUF_TYPE_ALLOWSPLIT) in
  ring_run [Send (replicate 5 9)] rb = Stuck OutOfBounds.
Proof. vm_compute. reflexivity. Qed.

(** A byte ring whose free-space semaphore is still given from an earlier
    return: a send of twelve bytes with eight free and no time to wait is
    accepted, and three pending bytes remain of nineteen. *)
Example stale_semaphore_overwrites :
  let seven := [1; 2; 3; 4; 5; 6; 7] in
  let prepare := (xRingbufferSendFromISR seven 7;; xRingbufferReceiveFromISR;;
                  vRingbufferReturnItemFromISR 0;; xRingbufferSendFromISR seven 7) in
  let rb := after prepare (new_ring 16 RINGBUF_TYPE_BYTEBUF) in
  match xRingbufferSend 5 (replicate 12 9) 12 0 (Task rb [] 100) with
  | Ret (ok, s) => (ringbufferFreeMem rb, ok, ringbufferFreeMem (rb_of s),
                    results (xRingbufferReceiveFromISR (rb_of s)))
                   = (8, true, 12, Ret (Some (7, 3)))
  | Stuck _ => False
  end.
Proof. vm_compute. reflexivity. Qed.

(** The advertised maximum of a byte ring does not fit an empty one; that of a
    small item ring wraps around. *)
Example byte_ring_maximum :
  let rb := new_ring 16 RINGBUF_TYPE_BYTEBUF in
  xRingbufferGetMaxItemSize rb = 15
  /\ results (xRingbufferSendFromISR (replicate 15 1) 15 rb) = Ret false
  /\ xRingbufferGetMaxItemSize (new_ring 16 RINGBUF_TYPE_NOSPLIT) = 4294967292.
Proof. vm_compute. done. Qed.

Lemma new_ring_rel (n : nat) (allow : bool) :
  8 <= Z.of_nat n < 2 ^ 31 -> (allow = true -> Z.of_nat n mod 4 = 0) ->
  let rb := new_ring n (if allow then RINGBUF_TYPE_ALLOWSPLIT else RINGBUF_TYPE_NOSPLIT) in
  size rb = Z.of_nat n /\ ring_rel allow rb (Loans [] []).
Proof.
  intros Hn Hm. destruct (create_ring_rel (Allocs true (Some (replicate n 0)) true true) (Z.of_nat n) allow
    (replicate n 0)) as (rb & E & Hs & Hrel); [done|by rewrite length_replicate|done|done|].
  unfold new_ring. by rewrite E.
Qed.



Lemma empty_ring_accepts_witness :
  let rb := new_ring 64 RINGBUF_TYPE_ALLOWSPLIT in
  let b := replicate 44 5 in
  ring_rel true rb (Loans [] []) /\ Z.of_nat (length b) = xRingbufferGetMaxItemSize rb
  /\ exists rb' parts, xRingbufferSendFromISR b (Z.of_nat (length b)) rb = Ret (true, rb')
    /\ splits true b parts /\ ring_rel true rb' (Loans [] parts).
Proof.
  destruct (new_ring_rel 64 true) as [Hs Hrel]; [lia|done|]. cbn beta iota zeta in Hs, Hrel.
  split_and!; [exact Hrel|vm_compute; reflexivity|].
  apply (empty_ring_accepts true _ (replicate 44 5) Hrel); [rewrite Hs; lia|vm_compute; discriminate].
Defined.




