(* ===== verification/HeapRegions.v ===== *)
(** * The heap (components/freertos/heap_regions.c)

    Memory is a function from addresses of 32-bit words to their values.  A
    block header is two words, laid out as the compiler lays out
    [BlockLink_t]: the next pointer, and the bit fields [xBlockSize] (24 bits),
    [xTag] (7 bits) and [xAllocated] (1 bit) in one word, the first two signed.
    The headers of free and used blocks are therefore shared with the
    application's memory the way they are on the device, and a header written
    over another one destroys it.

    The configuration is the default one, without memory debugging:
    [BLOCK_HEAD_LEN] and [BLOCK_TAIL_LEN] are 0, [portBYTE_ALIGNMENT] is 4.
    The address of the static [xStart] is a parameter.

    The second part describes a heap by the list of its blocks in the order of
    their addresses, and shows what the operations do to that list. *)

From S2P Require Import Prelude.

#[local] Open Scope Z_scope.

(** ** Memory and block headers *)

Definition memory : Type := Z -> Z.
Definition st (m : memory) (a v : Z) : memory := fun x => if x =? a then v else m x.

Definition HEAPREGIONS_MAX_TAGCOUNT : Z := 16.
Definition HEAPREGIONS_MAX_REGIONSIZE : Z := 16 * 1024 * 1024.
Definition portBYTE_ALIGNMENT : Z := 4.
Definition portBYTE_ALIGNMENT_MASK : Z := 3.
(** [(sizeof(BlockLink_t) + 3) & ~3] *)
Definition uxHeapStructSize : Z := 8.
Definition heapMINIMUM_BLOCK_SIZE : Z := Z.shiftl uxHeapStructSize 1.

(** The bit fields of the second word. *)
Definition get_size (w : Z) : Z := to_signed 24 w.
Definition get_tag (w : Z) : Z := to_signed 7 (w / 2 ^ 24).
Definition get_alloc (w : Z) : Z := to_signed 1 (w / 2 ^ 31).
Definition put_size (w v : Z) : Z := w / 2 ^ 24 * 2 ^ 24 + wrap 24 v.
Definition put_tag (w v : Z) : Z := w / 2 ^ 31 * 2 ^ 31 + wrap 7 v * 2 ^ 24 + w mod 2 ^ 24.
Definition put_alloc (w v : Z) : Z := wrap 1 v * 2 ^ 31 + w mod 2 ^ 31.

Record heap : Type := Heap {
  mem : memory;
  pxEnd : Z;
  xFreeBytesRemaining : list Z;
  xMinimumEverFreeBytesRemaining : list Z
}.

Definition with_mem (m : memory) (h : heap) : heap :=
  Heap m (pxEnd h) (xFreeBytesRemaining h) (xMinimumEverFreeBytesRemaining h).
Definition with_end (e : Z) (h : heap) : heap :=
  Heap (mem h) e (xFreeBytesRemaining h) (xMinimumEverFreeBytesRemaining h).
Definition with_bytes (f : list Z) (h : heap) : heap :=
  Heap (mem h) (pxEnd h) f (xMinimumEverFreeBytesRemaining h).
Definition with_minimum (f : list Z) (h : heap) : heap :=
  Heap (mem h) (pxEnd h) (xFreeBytesRemaining h) f.

(** Fields of the header [p] points to. *)
Definition deref {A} (p : Z) (f : memory -> A) : M heap A :=
  if p =? 0 then stuck NullDeref else gets (fun h => f (mem h)).
Definition assign (p : Z) (f : memory -> memory) : M heap unit :=
  if p =? 0 then stuck NullDeref else modify (fun h => with_mem (f (mem h)) h).

Definition pxNextFreeBlock (p : Z) : M heap Z := deref p (fun m => m p).
Definition xBlockSize (p : Z) : M heap Z := deref p (fun m => get_size (m (p + 4))).
Definition xTag (p : Z) : M heap Z := deref p (fun m => get_tag (m (p + 4))).
Definition xAllocated (p : Z) : M heap Z := deref p (fun m => get_alloc (m (p + 4))).
Definition set_pxNextFreeBlock (p v : Z) : M heap unit := assign p (fun m => st m p v).
Definition set_xBlockSize (p v : Z) : M heap unit :=
  assign p (fun m => st m (p + 4) (put_size (m (p + 4)) v)).
Definition set_xTag (p v : Z) : M heap unit :=
  assign p (fun m => st m (p + 4) (put_tag (m (p + 4)) v)).
Definition set_xAllocated (p v : Z) : M heap unit :=
  assign p (fun m => st m (p + 4) (put_alloc (m (p + 4)) v)).

Record HeapRegionTagged_t : Type := HeapRegionTagged {
  pucStartAddress : Z;
  xSizeInBytes : Z;
  region_xTag : Z;
  xExecAddr : Z
}.

(** ** The operations *)

Section Code.
Variable xStart : Z.

(** [for (it = &xStart; it->next < block; it = it->next)] *)
Fixpoint find_iterator (fuel : nat) (pxBlockToInsert pxIterator : Z) : M heap Z :=
  next ← pxNextFreeBlock pxIterator;
  if next <? pxBlockToInsert then
    match fuel with
    | O => stuck OutOfFuel
    | S fuel => find_iterator fuel pxBlockToInsert next
    end
  else mret pxIterator.

(** The second half of [prvInsertBlockIntoFreeList]: merge with the block
    behind, and link. *)
Definition link_block (pxIterator pxBlockToInsert : Z) : M heap unit :=
  blk_size ← xBlockSize pxBlockToInsert;
  next ← pxNextFreeBlock pxIterator;
  merge ← (if u32 (pxBlockToInsert + blk_size) =? next then
             blk_tag ← xTag pxBlockToInsert;
             next_tag ← xTag next;
             mret (blk_tag =? next_tag)
           else mret false);
  (if merge : bool then
     e ← gets pxEnd;
     if negb (next =? e) then
       next_size ← xBlockSize next;
       set_xBlockSize pxBlockToInsert (blk_size + next_size);;
       next_next ← pxNextFreeBlock next;
       set_pxNextFreeBlock pxBlockToInsert next_next
     else set_pxNextFreeBlock pxBlockToInsert e
   else set_pxNextFreeBlock pxBlockToInsert next);;
  if negb (pxIterator =? pxBlockToInsert) then set_pxNextFreeBlock pxIterator pxBlockToInsert
  else mret tt.

Definition prvInsertBlockIntoFreeList (fuel : nat) (pxBlockToInsert : Z) : M heap unit :=
  pxIterator ← find_iterator fuel pxBlockToInsert xStart;
  it_size ← xBlockSize pxIterator;
  left ← (if u32 (pxIterator + it_size) =? pxBlockToInsert then
            blk_tag ← xTag pxBlockToInsert;
            it_tag ← xTag pxIterator;
            mret (blk_tag =? it_tag)
          else mret false);
  if left : bool then
    blk_size ← xBlockSize pxBlockToInsert;
    set_xBlockSize pxIterator (it_size + blk_size);;
    link_block pxIterator pxIterator
  else link_block pxIterator pxBlockToInsert.

(** The search of [pvPortMallocTagged]: the previous block and the block. *)
Fixpoint find_block (fuel : nat) (xWantedSize tag pxPreviousBlock pxBlock : Z) : M heap (Z * Z) :=
  t ← xTag pxBlock;
  size ← xBlockSize pxBlock;
  next ← pxNextFreeBlock pxBlock;
  if (negb (t =? tag) || (u32 size <? xWantedSize)) && negb (next =? 0) then
    match fuel with
    | O => stuck OutOfFuel
    | S fuel => find_block fuel xWantedSize tag pxBlock next
    end
  else mret (pxPreviousBlock, pxBlock).

(** The size of the block that serves a request: header and padding. *)
Definition wanted_size (xWantedSize : Z) : Z :=
  if 0 <? xWantedSize then
    let w := u32 (xWantedSize + uxHeapStructSize) in
    if negb (Z.land w portBYTE_ALIGNMENT_MASK =? 0)
    then u32 (w + (portBYTE_ALIGNMENT - Z.land w portBYTE_ALIGNMENT_MASK)) else w
  else xWantedSize.

(** The block is taken out of the list, and what is left over put back. *)
Definition cut_block (fuel : nat) (xWantedSize tag pxPreviousBlock pxBlock : Z) : M heap Z :=
  found ← pxNextFreeBlock pxPreviousBlock;
  let pvReturn := u32 (found + uxHeapStructSize) in
  next ← pxNextFreeBlock pxBlock;
  set_pxNextFreeBlock pxPreviousBlock next;;
  size ← xBlockSize pxBlock;
  (if heapMINIMUM_BLOCK_SIZE <? u32 (size - xWantedSize) then
     let pxNewBlockLink := u32 (pxBlock + xWantedSize) in
     set_xBlockSize pxNewBlockLink (size - xWantedSize);;
     set_xTag pxNewBlockLink tag;;
     set_xBlockSize pxBlock xWantedSize;;
     prvInsertBlockIntoFreeList fuel pxNewBlockLink
   else mret tt);;
  mret pvReturn.

(** The free bytes of the tag, and their minimum. *)
Definition account (tag size : Z) : M heap unit :=
  h ← get;
  free ← lift (rd (xFreeBytesRemaining h) tag);
  let free := u32 (free - size) in
  bytes ← lift (wr (xFreeBytesRemaining h) tag free);
  modify (with_bytes bytes);;
  minimum ← lift (rd (xMinimumEverFreeBytesRemaining h) tag);
  if free <? minimum then
    minima ← lift (wr (xMinimumEverFreeBytesRemaining h) tag free);
    modify (with_minimum minima)
  else mret tt.

Definition take_block (fuel : nat) (xWantedSize tag pxPreviousBlock pxBlock : Z) : M heap Z :=
  pvReturn ← cut_block fuel xWantedSize tag pxPreviousBlock pxBlock;
  size ← xBlockSize pxBlock;
  account tag size;;
  set_xAllocated pxBlock 1;;
  set_pxNextFreeBlock pxBlock 0;;
  mret pvReturn.

(** [NULL] is 0. *)
Definition pvPortMallocTagged (fuel : nat) (xWantedSize tag : Z) : M heap Z :=
  e ← gets pxEnd;
  check (negb (e =? 0));;
  let xWantedSize := wanted_size xWantedSize in
  if 0 <? xWantedSize then
    h ← get;
    free ← lift (rd (xFreeBytesRemaining h) tag);
    if xWantedSize <=? free then
      first ← pxNextFreeBlock xStart;
      '(pxPreviousBlock, pxBlock) ← find_block fuel xWantedSize tag xStart first;
      if negb (pxBlock =? e) then take_block fuel xWantedSize tag pxPreviousBlock pxBlock
      else mret 0
    else mret 0
  else mret 0.

Definition vPortFreeTagged (fuel : nat) (pv : Z) : M heap unit :=
  if negb (pv =? 0) then
    let pxLink := u32 (pv - uxHeapStructSize) in
    allocated ← xAllocated pxLink;
    check (negb (allocated =? 0));;
    next ← pxNextFreeBlock pxLink;
    check (next =? 0);;
    set_xAllocated pxLink 0;;
    tag ← xTag pxLink;
    size ← xBlockSize pxLink;
    h ← get;
    free ← lift (rd (xFreeBytesRemaining h) tag);
    bytes ← lift (wr (xFreeBytesRemaining h) tag (u32 (free + size)));
    modify (with_bytes bytes);;
    prvInsertBlockIntoFreeList fuel pxLink
  else mret tt.

Definition xPortGetFreeHeapSizeTagged (tag : Z) : M heap Z :=
  h ← get; lift (rd (xFreeBytesRemaining h) tag).

Definition xPortGetMinimumEverFreeHeapSizeTagged (tag : Z) : M heap Z :=
  h ← get; lift (rd (xMinimumEverFreeBytesRemaining h) tag).

(** [xArr[i] += v] *)
Definition add_at (l : list Z) (i v : Z) : outcome (list Z) :=
  x ← rd l i; wr l i (u32 (x + v)).

(** One region: its first block and its end marker.  [first] says that no
    region has been added yet.  Gives the size of the block. *)
Definition define_region (first : bool) (r : HeapRegionTagged_t) : M heap Z :=
  check (region_xTag r <? HEAPREGIONS_MAX_TAGCOUNT);;
  check (xSizeInBytes r <? HEAPREGIONS_MAX_REGIONSIZE);;
  let start := pucStartAddress r in
  let '(ulAddress, xTotalRegionSize) :=
    if negb (Z.land start portBYTE_ALIGNMENT_MASK =? 0) then
      let a := Z.land (u32 (start + (portBYTE_ALIGNMENT - 1))) 0xFFFFFFFC in
      (a, u32 (xSizeInBytes r - (a - start)))
    else (start, xSizeInBytes r) in
  let pucAlignedHeap := ulAddress in
  e ← gets pxEnd;
  (if first : bool then
     set_pxNextFreeBlock xStart pucAlignedHeap;;
     set_xBlockSize xStart 0
   else
     check (negb (e =? 0));;
     check (e <? ulAddress));;
  let pxPreviousFreeBlock := e in
  let ulAddress := Z.land (u32 (u32 (pucAlignedHeap + xTotalRegionSize) - uxHeapStructSize)) 0xFFFFFFFC in
  modify (with_end ulAddress);;
  set_xBlockSize ulAddress 0;;
  set_pxNextFreeBlock ulAddress 0;;
  set_xTag ulAddress (-1);;
  set_xBlockSize pucAlignedHeap (u32 (ulAddress - pucAlignedHeap));;
  set_pxNextFreeBlock pucAlignedHeap ulAddress;;
  set_xTag pucAlignedHeap (region_xTag r);;
  (if negb (pxPreviousFreeBlock =? 0)
   then set_pxNextFreeBlock pxPreviousFreeBlock pucAlignedHeap else mret tt);;
  size ← xBlockSize pucAlignedHeap;
  h ← get;
  minima ← lift (add_at (xMinimumEverFreeBytesRemaining h) (region_xTag r) size);
  bytes ← lift (add_at (xFreeBytesRemaining h) (region_xTag r) size);
  modify (fun h => with_minimum minima (with_bytes bytes h));;
  mret size.

(** The regions up to the one of size 0; gives [xTotalHeapSize]. *)
Fixpoint define_regions (first : bool) (regions : list HeapRegionTagged_t) : M heap Z :=
  match regions with
  | [] => stuck OutOfBounds
  | r :: rest =>
      if 0 <? xSizeInBytes r then
        if region_xTag r =? -1 then define_regions first rest
        else
          size ← define_region first r;
          total ← define_regions false rest;
          mret (u32 (size + total))
      else mret 0
  end.

Definition vPortDefineHeapRegionsTagged (regions : list HeapRegionTagged_t) : M heap unit :=
  e ← gets pxEnd;
  check (e =? 0);;
  xTotalHeapSize ← define_regions true regions;
  check (negb (xTotalHeapSize =? 0)).
End Code.

Definition empty_heap (m : memory) : heap := Heap m 0 (replicate 16 0) (replicate 16 0).

(** ** Bit fields *)

Create Rewrite HintDb fields.

Lemma to_signed_range w z : 0 < w -> - 2 ^ (w - 1) <= to_signed w z < 2 ^ (w - 1).
Proof.
  intros Hw. assert (2 ^ w = 2 * 2 ^ (w - 1)) by (rewrite <- Z.pow_succ_r by lia; f_equal; lia).
  pose proof (wrap_range w z ltac:(lia)). unfold to_signed. case_test; lia.
Qed.

Lemma to_signed_neg w z : 0 < w -> - 2 ^ (w - 1) <= z < 0 -> to_signed w z = z.
Proof.
  intros Hw Hz. assert (2 ^ w = 2 * 2 ^ (w - 1)) by (rewrite <- Z.pow_succ_r by lia; f_equal; lia).
  assert (E : wrap w z = z + 2 ^ w).
  { unfold wrap. rewrite <- (Z.mod_add z 1), Z.mod_small by lia. lia. }
  unfold to_signed. rewrite E. case_test; lia.
Qed.

Lemma to_signed_small w z : 0 < w -> - 2 ^ (w - 1) <= z < 2 ^ (w - 1) -> to_signed w z = z.
Proof. intros Hw Hz. destruct (Z_lt_le_dec z 0); [apply to_signed_neg|apply to_signed_pos]; lia. Qed.

Lemma to_signed_wrap w z : 0 <= w -> to_signed w (wrap w z) = to_signed w z.
Proof. intros Hw. unfold to_signed, wrap. by rewrite Z.mod_mod by (apply Z.pow_nonzero; lia). Qed.

(** Adding a multiple of the modulus does not change a field. *)
Lemma to_signed_add w z k : 0 <= w -> to_signed w (z + k * 2 ^ w) = to_signed w z.
Proof. intros Hw. unfold to_signed, wrap. by rewrite Z.mod_add by (apply Z.pow_nonzero; lia). Qed.

Lemma get_put_size w v : get_size (put_size w v) = to_signed 24 v.
Proof.
  unfold get_size, put_size. rewrite Z.add_comm, to_signed_add by lia. by apply to_signed_wrap.
Qed.

Lemma div_put_size w v : put_size w v / 2 ^ 24 = w / 2 ^ 24.
Proof.
  unfold put_size. rewrite Z.div_add_l, (Z.div_small (wrap 24 v)) by (try apply wrap_range; lia). lia.
Qed.

Lemma tag_put_size w v : get_tag (put_size w v) = get_tag w.
Proof. unfold get_tag. by rewrite div_put_size. Qed.

Lemma alloc_put_size w v : get_alloc (put_size w v) = get_alloc w.
Proof.
  unfold get_alloc. change (2 ^ 31) with (2 ^ 24 * 2 ^ 7). rewrite <- !Z.div_div by lia. by rewrite div_put_size.
Qed.

Lemma div_put_tag w v : put_tag w v / 2 ^ 24 = w / 2 ^ 31 * 2 ^ 7 + wrap 7 v.
Proof.
  unfold put_tag. replace (w / 2 ^ 31 * 2 ^ 31 + wrap 7 v * 2 ^ 24 + w mod 2 ^ 24)
    with ((w / 2 ^ 31 * 2 ^ 7 + wrap 7 v) * 2 ^ 24 + w mod 2 ^ 24) by lia.
  rewrite Z.div_add_l by lia. rewrite (Z.div_small (w mod 2 ^ 24)); [lia|]. apply Z.mod_pos_bound. lia.
Qed.

Lemma get_put_tag w v : get_tag (put_tag w v) = to_signed 7 v.
Proof.
  unfold get_tag. rewrite div_put_tag, Z.add_comm, to_signed_add by lia. by apply to_signed_wrap.
Qed.

Lemma size_put_tag w v : get_size (put_tag w v) = get_size w.
Proof.
  unfold get_size, put_tag. replace (w / 2 ^ 31 * 2 ^ 31 + wrap 7 v * 2 ^ 24 + w mod 2 ^ 24)
    with (wrap 24 w + (w / 2 ^ 31 * 2 ^ 7 + wrap 7 v) * 2 ^ 24) by (unfold wrap at 1; lia).
  rewrite to_signed_add by lia. by apply to_signed_wrap.
Qed.

Lemma get_put_alloc w v : get_alloc (put_alloc w v) = to_signed 1 v.
Proof.
  unfold get_alloc, put_alloc. rewrite Z.div_add_l by lia.
  rewrite (Z.div_small (w mod 2 ^ 31)) by (apply Z.mod_pos_bound; lia). rewrite Z.add_0_r. by apply to_signed_wrap.
Qed.

Lemma size_put_alloc w v : get_size (put_alloc w v) = get_size w.
Proof.
  unfold get_size, put_alloc. pose proof (Z.div_mod w (2 ^ 31) ltac:(lia)) as E.
  transitivity (to_signed 24 (w mod 2 ^ 31 + w / 2 ^ 31 * 2 ^ 7 * 2 ^ 24)); [|f_equal; lia].
  rewrite to_signed_add by lia.
  replace (wrap 1 v * 2 ^ 31 + w mod 2 ^ 31) with (w mod 2 ^ 31 + wrap 1 v * 2 ^ 7 * 2 ^ 24) by lia.
  by apply to_signed_add.
Qed.

Lemma tag_put_alloc w v : get_tag (put_alloc w v) = get_tag w.
Proof.
  unfold get_tag, put_alloc. pose proof (Z.div_mod w (2 ^ 31) ltac:(lia)) as E.
  transitivity (to_signed 7 ((w mod 2 ^ 31) / 2 ^ 24)).
  - replace (wrap 1 v * 2 ^ 31 + w mod 2 ^ 31) with (wrap 1 v * 2 ^ 7 * 2 ^ 24 + w mod 2 ^ 31) by lia.
    rewrite Z.div_add_l by lia. rewrite Z.add_comm. by apply to_signed_add.
  - rewrite <- (to_signed_add 7 _ (w / 2 ^ 31)) by lia. f_equal.
    rewrite <- Z.div_add by lia. f_equal. lia.
Qed.

#[export] Hint Rewrite get_put_size tag_put_size alloc_put_size get_put_tag size_put_tag
  get_put_alloc size_put_alloc tag_put_alloc : fields.

Lemma st_eq m a v : st m a v a = v.
Proof. unfold st. by rewrite Z.eqb_refl. Qed.

Lemma st_ne m a v x : x <> a -> st m a v x = m x.
Proof. intros H. unfold st. by rewrite (proj2 (Z.eqb_neq _ _) H). Qed.

(** ** Consecutive elements of a list *)

Section Adj.
Context {A : Type} (R : A -> A -> Prop).

Fixpoint adj (l : list A) : Prop :=
  match l with
  | [] => True
  | a :: l' => match l' with [] => True | b :: _ => R a b end /\ adj l'
  end.

Lemma adj_app l1 a l2 : adj (l1 ++ a :: l2) <-> adj (l1 ++ [a]) /\ adj (a :: l2).
Proof.
  induction l1 as [|x l1 IH]; [cbn; tauto|].
  change ((x :: l1) ++ a :: l2) with (x :: (l1 ++ a :: l2)).
  change ((x :: l1) ++ [a]) with (x :: (l1 ++ [a])). cbn [adj].
  rewrite IH. destruct l1; cbn; tauto.
Qed.

Lemma adj_join l1 a b l2 : adj (l1 ++ a :: b :: l2) <-> adj (l1 ++ [a]) /\ R a b /\ adj (b :: l2).
Proof. rewrite adj_app. cbn. tauto. Qed.

End Adj.

Lemma adj_mono_snoc {A} (R Q : A -> A -> Prop) l a :
  (forall x y, x ∈ l -> R x y -> Q x y) -> adj R (l ++ [a]) -> adj Q (l ++ [a]).
Proof.
  induction l as [|x l IH]; intros H; [done|]. cbn. intros [H1 H2]. split.
  - destruct (l ++ [a]); [done|]. apply H; [left|done].
  - apply IH; [|done]. intros ? ? ?. apply H. by right.
Qed.

Lemma last_mid {A} (l1 : list A) x l2 : l2 <> [] -> last (l1 ++ x :: l2) = last l2.
Proof.
  destruct l2 as [|n k2] using rev_ind; [done|]. intros _. by rewrite app_comm_cons, app_assoc, !last_snoc.
Qed.

(** ** The blocks of a heap, in the order of their addresses *)

Inductive kind : Type := Free | Used | End_.

#[export] Instance kind_eq_dec : EqDecision kind.
Proof. solve_decision. Defined.

Record block : Type := Block { b_addr : Z; b_size : Z; b_tag : Z; b_kind : kind }.

(** The bytes a block takes; an end marker is a header. *)
Definition extent (b : block) : Z :=
  match b_kind b with End_ => uxHeapStructSize | _ => b_size b end.

Definition wf_block (b : block) : Prop :=
  0 < b_addr b /\ b_addr b mod 4 = 0 /\ b_addr b + extent b <= 2 ^ 32
  /\ match b_kind b with
     | End_ => b_size b = 0 /\ b_tag b = -1
     | _ => 8 <= b_size b < 2 ^ 23 /\ b_size b mod 4 = 0 /\ 0 <= b_tag b < 16
     end.

(** [b2] is the next block after [b1]: right behind it and with its tag,
    unless a region ends in between; two free blocks are never neighbours. *)
Definition follows (b1 b2 : block) : Prop :=
  b_addr b1 + extent b1 <= b_addr b2
  /\ (b_kind b1 <> End_ -> b_addr b2 = b_addr b1 + b_size b1
      /\ (b_kind b2 <> End_ -> b_tag b2 = b_tag b1 /\ ~ (b_kind b1 = Free /\ b_kind b2 = Free))).

Definition unused (b : block) : Prop := b_kind b <> Used.
#[export] Instance unused_dec b : Decision (unused b).
Proof. unfold unused. apply _. Defined.

(** Free bytes with a tag. *)
Definition free_of (t : Z) (b : block) : Z :=
  match b_kind b with Free => if b_tag b =? t then b_size b else 0 | _ => 0 end.
Definition free_sum (t : Z) (bl : list block) : Z := foldr (fun b acc => free_of t b + acc) 0 bl.

Lemma free_sum_app t l1 l2 : free_sum t (l1 ++ l2) = free_sum t l1 + free_sum t l2.
Proof. unfold free_sum. induction l1 as [|b l1 IH]; cbn; [done|]. rewrite IH. lia. Qed.

Lemma extent_ge b : wf_block b -> 8 <= extent b.
Proof. intros (_ & _ & _ & H). unfold extent, uxHeapStructSize. destruct (b_kind b); lia. Qed.

Lemma adj_before l1 b l2 y :
  adj follows (l1 ++ b :: l2) -> Forall wf_block (l1 ++ b :: l2) -> y ∈ l1 ->
  b_addr y + extent y <= b_addr b.
Proof.
  intros Ha Hw Hy. apply list_elem_of_split in Hy as (k1 & k2 & ->).
  rewrite <- app_assoc, <- app_comm_cons in *. apply Forall_app in Hw as [_ Hw].
  apply adj_app in Ha as [_ Ha]. clear k1. revert y Ha Hw. induction k2 as [|z k2 IH]; intros y Ha Hw.
  - cbn in Ha. apply Ha.
  - cbn [app] in *. destruct Ha as [[H1 _] H2]. apply Forall_cons in Hw as [_ Hw].
    specialize (IH z H2 Hw). apply Forall_cons in Hw as [Hz _]. pose proof (extent_ge z Hz). lia.
Qed.

Lemma adj_after l1 b l2 y :
  adj follows (l1 ++ b :: l2) -> Forall wf_block (l1 ++ b :: l2) -> y ∈ l2 ->
  b_addr b + extent b <= b_addr y.
Proof.
  intros Ha Hw Hy. apply list_elem_of_split in Hy as (k1 & k2 & ->).
  rewrite app_comm_cons, app_assoc in Ha, Hw. apply (adj_before _ _ _ b Ha Hw).
  apply elem_of_app. right. left.
Qed.

(** The free bytes fit in the address space. *)
Lemma free_sum_bound t bl b :
  adj follows (b :: bl) -> Forall wf_block (b :: bl) -> 0 <= free_sum t (b :: bl) <= 2 ^ 32 - b_addr b.
Proof.
  revert b. induction bl as [|c bl IH]; intros b Ha Hw.
  - apply Forall_cons in Hw as [Hb _]. destruct Hb as (_ & _ & H1 & H2). cbn. unfold free_of, extent, uxHeapStructSize in *.
    destruct (b_kind b); try lia. case_test; lia.
  - destruct Ha as [[H1 _] H2]. apply Forall_cons in Hw as [Hb Hw]. specialize (IH c H2 Hw).
    change (free_sum t (b :: c :: bl)) with (free_of t b + free_sum t (c :: bl)).
    destruct Hb as (_ & _ & H3 & H4). unfold free_of, extent in *.
    destruct (b_kind b); unfold uxHeapStructSize in *; try lia. case_test; lia.
Qed.

(** ** The free list in memory *)

Definition nx (m : memory) (p : Z) : Z := m p.
Definition fld (m : memory) (p : Z) : Z := m (p + 4).
Definition set_nx (m : memory) (p v : Z) : memory := st m p v.
Definition set_fld (m : memory) (p w : Z) : memory := st m (p + 4) w.

(** Headers at [H] do not overlap. *)
Definition Sep (H : list Z) : Prop := forall p q, p ∈ H -> q ∈ H -> p = q \/ p + 8 <= q \/ q + 8 <= p.

Section Words.
Context (H : list Z) (HS : Sep H).

Lemma nx_set_nx m p q v : nx (set_nx m p v) q = if q =? p then v else nx m q.
Proof. done. Qed.

Lemma fld_set_nx m p q v : p ∈ H -> q ∈ H -> fld (set_nx m p v) q = fld m q.
Proof.
  intros Hp Hq. destruct (HS p q Hp Hq); unfold nx, fld, set_nx, set_fld; by rewrite st_ne by lia.
Qed.

Lemma nx_set_fld m p q w : p ∈ H -> q ∈ H -> nx (set_fld m p w) q = nx m q.
Proof.
  intros Hp Hq. destruct (HS p q Hp Hq); unfold nx, fld, set_nx, set_fld; by rewrite st_ne by lia.
Qed.

Lemma fld_set_fld m p q w : fld (set_fld m p w) q = if q =? p then w else fld m q.
Proof.
  unfold fld, set_fld, st. destruct (Z.eqb_spec q p) as [->|E]; [by rewrite Z.eqb_refl|].
  by rewrite (proj2 (Z.eqb_neq _ _)) by lia.
Qed.
End Words.

(** ** Running the accessors *)

Section Access.
Implicit Types (h : heap) (p v : Z).

Lemma wp_deref {A} p (f : memory -> A) Q h : p <> 0 -> Q (f (mem h)) h -> wp (deref p f) Q h.
Proof. intros Hp. unfold deref. by rewrite (proj2 (Z.eqb_neq _ _) Hp). Qed.

Lemma wp_assign p f Q h : p <> 0 -> Q tt (with_mem (f (mem h)) h) -> wp (assign p f) Q h.
Proof. intros Hp. unfold assign. by rewrite (proj2 (Z.eqb_neq _ _) Hp). Qed.

Lemma wp_next p Q h : p <> 0 -> Q (nx (mem h) p) h -> wp (pxNextFreeBlock p) Q h.
Proof. apply (wp_deref p (fun m => m p)). Qed.
Lemma wp_size p Q h : p <> 0 -> Q (get_size (fld (mem h) p)) h -> wp (xBlockSize p) Q h.
Proof. apply (wp_deref p (fun m => get_size (m (p + 4)))). Qed.
Lemma wp_tag p Q h : p <> 0 -> Q (get_tag (fld (mem h) p)) h -> wp (xTag p) Q h.
Proof. apply (wp_deref p (fun m => get_tag (m (p + 4)))). Qed.
Lemma wp_alloc p Q h : p <> 0 -> Q (get_alloc (fld (mem h) p)) h -> wp (xAllocated p) Q h.
Proof. apply (wp_deref p (fun m => get_alloc (m (p + 4)))). Qed.

Lemma wp_set_next p v Q h :
  p <> 0 -> Q tt (with_mem (set_nx (mem h) p v) h) -> wp (set_pxNextFreeBlock p v) Q h.
Proof. apply (wp_assign p (fun m => st m p v)). Qed.
Lemma wp_set_size p v Q h :
  p <> 0 -> Q tt (with_mem (set_fld (mem h) p (put_size (fld (mem h) p) v)) h) ->
  wp (set_xBlockSize p v) Q h.
Proof. apply (wp_assign p (fun m => st m (p + 4) (put_size (m (p + 4)) v))). Qed.
Lemma wp_set_tag p v Q h :
  p <> 0 -> Q tt (with_mem (set_fld (mem h) p (put_tag (fld (mem h) p) v)) h) -> wp (set_xTag p v) Q h.
Proof. apply (wp_assign p (fun m => st m (p + 4) (put_tag (m (p + 4)) v))). Qed.
Lemma wp_set_alloc p v Q h :
  p <> 0 -> Q tt (with_mem (set_fld (mem h) p (put_alloc (fld (mem h) p) v)) h) -> wp (set_xAllocated p v) Q h.
Proof. apply (wp_assign p (fun m => st m (p + 4) (put_alloc (m (p + 4)) v))). Qed.
End Access.

(** One access to a header whose address is not [NULL]. *)
Ltac wp_field :=
  lazymatch goal with
  | |- wp (pxNextFreeBlock _) _ _ => apply wp_next
  | |- wp (xBlockSize _) _ _ => apply wp_size
  | |- wp (xTag _) _ _ => apply wp_tag
  | |- wp (xAllocated _) _ _ => apply wp_alloc
  | |- wp (set_pxNextFreeBlock _ _) _ _ => apply wp_set_next
  | |- wp (set_xBlockSize _ _) _ _ => apply wp_set_size
  | |- wp (set_xTag _ _) _ _ => apply wp_set_tag
  | |- wp (set_xAllocated _ _) _ _ => apply wp_set_alloc
  end; [done || lia|]; cbn beta; cbn [mem with_mem].

(** Only words of the headers [H] differ. *)
Definition untouched (H : list Z) (m m' : memory) : Prop :=
  forall a, (forall p, p ∈ H -> a <> p /\ a <> p + 4) -> m' a = m a.

Lemma untouched_refl H m : untouched H m m.
Proof. done. Qed.

Lemma untouched_set_nx H m m' p v : p ∈ H -> untouched H m m' -> untouched H m (set_nx m' p v).
Proof. intros Hp Hu a Ha. destruct (Ha p Hp). unfold set_nx. rewrite st_ne by done. by apply Hu. Qed.

Lemma untouched_set_fld H m m' p v : p ∈ H -> untouched H m m' -> untouched H m (set_fld m' p v).
Proof. intros Hp Hu a Ha. destruct (Ha p Hp). unfold set_fld. rewrite st_ne by done. by apply Hu. Qed.

Lemma untouched_trans H m1 m2 m3 : untouched H m1 m2 -> untouched H m2 m3 -> untouched H m1 m3.
Proof. intros H1 H2 a Ha. rewrite H2, H1; done. Qed.

Lemma untouched_mono H H' m m' : (forall p, p ∈ H -> p ∈ H') -> untouched H m m' -> untouched H' m m'.
Proof. intros Hi Hu a Ha. apply Hu. intros p Hp. by apply Ha, Hi. Qed.

Definition nxt (m : memory) (p q : Z) : Prop := nx m p = q.

(** The fields of a header. *)
Definition fields (m : memory) (b : block) : Prop :=
  get_size (fld m (b_addr b)) = b_size b /\ get_tag (fld m (b_addr b)) = b_tag b.
Definition resize (b : block) (s : Z) : block := Block (b_addr b) s (b_tag b) (b_kind b).
Definition set_kind (b : block) (k : kind) : block := Block (b_addr b) (b_size b) (b_tag b) k.

Section Nodes.
Variable xStart : Z.

Definition nodes (bl : list block) : list Z := b_addr <$> filter unused bl.
Definition headers (bl : list block) : list Z := xStart :: (b_addr <$> bl).

Lemma nodes_app l1 l2 : nodes (l1 ++ l2) = nodes l1 ++ nodes l2.
Proof. unfold nodes. by rewrite filter_app, fmap_app. Qed.

Lemma nodes_unused b l : unused b -> nodes (b :: l) = b_addr b :: nodes l.
Proof. intros Hb. unfold nodes. by rewrite filter_cons_True. Qed.

Lemma nodes_used b l : b_kind b = Used -> nodes (b :: l) = nodes l.
Proof. intros Hb. unfold nodes. rewrite filter_cons_False; [done|]. intros Hu. by apply Hu. Qed.

Lemma nodes_headers bl p : p ∈ nodes bl -> p ∈ b_addr <$> bl.
Proof.
  unfold nodes. intros (b & -> & [_ Hb]%list_elem_of_filter)%list_elem_of_fmap.
  apply list_elem_of_fmap. eauto.
Qed.

(** The node in front of a place in the list, and the node behind it. *)
Definition before (l1 : list block) : Z := default xStart (last (nodes l1)).
Definition behind (l2 : list block) : Z := default 0 (head (nodes l2)).

Lemma before_split l1 : exists L, xStart :: nodes l1 = L ++ [before l1].
Proof.
  unfold before. destruct (nodes l1) as [|x l] eqn:E using rev_ind; [by exists []|].
  exists (xStart :: l). by rewrite last_snoc.
Qed.

Lemma behind_split l2 : exists L, nodes l2 ++ [0] = behind l2 :: L.
Proof. unfold behind. destruct (nodes l2) as [|x l]; cbn; eauto. Qed.

Lemma used_not_node bl x : NoDup (headers bl) -> x ∈ bl -> b_kind x = Used -> b_addr x ∉ xStart :: nodes bl.
Proof.
  intros [Hs Hn]%NoDup_cons Hx Hu [E|Hin]%elem_of_cons.
  - apply Hs. rewrite <- E. apply list_elem_of_fmap. eauto.
  - unfold nodes in Hin. apply list_elem_of_fmap in Hin as (y & E & [Hy Hyb]%list_elem_of_filter).
    apply Hy. apply list_elem_of_lookup_1 in Hx as [i Hi], Hyb as [j Hj].
    assert (i = j) as <-; [|congruence]. apply (NoDup_lookup _ _ _ (b_addr x) Hn).
    + by rewrite list_lookup_fmap, Hi.
    + by rewrite list_lookup_fmap, Hj, E.
Qed.

Lemma before_node l1 : before l1 ∈ xStart :: nodes l1.
Proof. destruct (before_split l1) as [L ->]. apply elem_of_app. right. left. Qed.

End Nodes.

(** ** Geometry *)

(** The blocks of each region, which an end marker closes, stay below the
    largest number the signed 24-bit size field can hold. *)
Fixpoint region_ok (acc : Z) (bl : list block) : Prop :=
  match bl with
  | [] => True
  | b :: l => if decide (b_kind b = End_) then region_ok 0 l
              else acc + b_size b < 2 ^ 23 /\ region_ok (acc + b_size b) l
  end.

Fixpoint region_acc (acc : Z) (bl : list block) : Z :=
  match bl with
  | [] => acc
  | b :: l => region_acc (if decide (b_kind b = End_) then 0 else acc + b_size b) l
  end.

Lemma region_ok_app acc l1 l2 :
  region_ok acc (l1 ++ l2) <-> region_ok acc l1 /\ region_ok (region_acc acc l1) l2.
Proof.
  revert acc. induction l1 as [|b l1 IH]; intros acc; cbn; [tauto|].
  destruct (decide _); rewrite IH; tauto.
Qed.

Lemma region_acc_nonneg acc l : 0 <= acc -> Forall wf_block l -> 0 <= region_acc acc l.
Proof.
  revert acc. induction l as [|b l IH]; intros acc Ha Hw; cbn; [done|].
  apply Forall_cons in Hw as [(_ & _ & _ & Hb) Hw]. apply IH; [|done].
  destruct (decide _); [lia|]. destruct (b_kind b); lia || done.
Qed.

Record geometry (xStart : Z) (bl : list block) : Prop := {
  g_adj : adj follows bl;
  g_wf : Forall wf_block bl;
  g_region : region_ok 0 bl;
  g_start : 0 < xStart /\ xStart + 8 <= 2 ^ 32
    /\ Forall (fun b => xStart + 8 <= b_addr b \/ b_addr b + extent b <= xStart) bl
}.

Lemma geometry_sep xStart bl : geometry xStart bl -> Sep (headers xStart bl).
Proof.
  intros [Ha Hw _ (Hs & _ & Hap)]. rewrite Forall_forall in Hap.
  assert (Hst : forall b, b ∈ bl -> xStart + 8 <= b_addr b \/ b_addr b + 8 <= xStart).
  { intros b Hb. rewrite Forall_forall in Hw. pose proof (extent_ge b (Hw b Hb)). destruct (Hap b Hb); lia. }
  intros p q [->|Hp]%elem_of_cons [->|Hq]%elem_of_cons; [auto|..].
  - apply list_elem_of_fmap in Hq as (y & -> & Hy). destruct (Hst y Hy); lia.
  - apply list_elem_of_fmap in Hp as (x & -> & Hx). destruct (Hst x Hx); lia.
  - apply list_elem_of_fmap in Hp as (x & -> & Hx), Hq as (y & -> & Hy).
    apply list_elem_of_split in Hx as (l1 & l2 & ->).
    assert (8 <= extent x /\ (y ∈ l1 -> 8 <= extent y)) as [Ex Ey].
    { rewrite Forall_forall in Hw. split; [|intros Hy1]; apply extent_ge, Hw; set_solver. }
    apply elem_of_app in Hy as [Hy|[->|Hy]%elem_of_cons].
    + pose proof (adj_before _ _ _ _ Ha Hw Hy). specialize (Ey Hy). lia.
    + auto.
    + pose proof (adj_after _ _ _ _ Ha Hw Hy). lia.
Qed.

Lemma geometry_NoDup xStart bl : geometry xStart bl -> NoDup (headers xStart bl).
Proof.
  intros [Ha Hw _ (Hs & _ & Hap)]. apply NoDup_cons. split.
  - intros (b & E & Hb)%list_elem_of_fmap. rewrite Forall_forall in Hap, Hw.
    pose proof (extent_ge b (Hw b Hb)). destruct (Hap b Hb); lia.
  - clear Hap. induction bl as [|b bl IH]; [constructor|]. rewrite fmap_cons. apply NoDup_cons. split.
    + intros (c & E & Hc)%list_elem_of_fmap. pose proof (adj_after [] b bl c Ha Hw Hc).
      apply Forall_cons in Hw as [Hw _]. pose proof (extent_ge b Hw). lia.
    + apply IH; [apply Ha|by apply Forall_cons in Hw as [_ ?]].
Qed.

Lemma before_header xStart k1 l2 : before xStart k1 ∈ headers xStart (k1 ++ l2).
Proof.
  pose proof (before_node xStart k1) as B. apply elem_of_cons in B as [->|B]; [left|right].
  rewrite fmap_app. apply elem_of_app. left. by apply nodes_headers.
Qed.

(** The place of a block in the heap. *)
Lemma nodup_middle xStart l1 b l2 :
  NoDup (headers xStart (l1 ++ b :: l2)) -> NoDup (b_addr b :: headers xStart (l1 ++ l2)).
Proof.
  unfold headers. rewrite !fmap_app, fmap_cons. intros H.
  pose proof (Permutation_middle (xStart :: (b_addr <$> l1)) (b_addr <$> l2) (b_addr b)) as P.
  cbn [app] in P. by rewrite P.
Qed.

Lemma headers_middle xStart l1 b l2 p :
  p ∈ headers xStart (l1 ++ b :: l2) <-> p ∈ b_addr b :: headers xStart (l1 ++ l2).
Proof.
  unfold headers. rewrite !fmap_app, fmap_cons, !elem_of_cons, !elem_of_app, elem_of_cons. tauto.
Qed.

Lemma header_pos xStart bl p : geometry xStart bl -> p ∈ headers xStart bl -> 0 < p.
Proof.
  intros [_ Hw _ (Hs & _)] [->|Hp]%elem_of_cons; [done|].
  apply list_elem_of_fmap in Hp as (b & -> & Hb). rewrite Forall_forall in Hw. apply (Hw b Hb).
Qed.

Lemma end_addr bl e x :
  adj follows bl -> Forall wf_block bl -> last bl = Some e -> x ∈ bl -> b_kind x <> b_kind e ->
  b_addr x < b_addr e.
Proof.
  intros Ha Hw (L & ->)%last_Some Hx Hne. apply elem_of_app in Hx as [Hx|Hx%list_elem_of_singleton].
  - pose proof (adj_before _ _ _ _ Ha Hw Hx). rewrite Forall_app, Forall_forall in Hw. destruct Hw as [Hw _].
    pose proof (extent_ge x (Hw x Hx)). lia.
  - by subst.
Qed.

Lemma before_cases xStart l1 :
  before xStart l1 = xStart \/ exists y, y ∈ l1 /\ unused y /\ before xStart l1 = b_addr y.
Proof.
  pose proof (before_node xStart l1) as B. apply elem_of_cons in B as [->|B]; [by left|right].
  unfold nodes in B. apply list_elem_of_fmap in B as (y & E & [Hu Hy]%list_elem_of_filter). eauto.
Qed.

Lemma before_snoc xStart k p :
  before xStart (k ++ [p]) = if decide (unused p) then b_addr p else before xStart k.
Proof.
  unfold before. rewrite nodes_app. destruct (decide (unused p)) as [Hu|Hu].
  - rewrite nodes_unused by done. cbn. by rewrite last_snoc.
  - rewrite nodes_used; [by rewrite app_nil_r|]. destruct (decide (b_kind p = Used)) as [|Hk]; [done|].
    by destruct (Hu Hk).
Qed.

Lemma nodes_free n k : b_kind n = Free -> nodes (n :: k) = b_addr n :: nodes k.
Proof. intros E. apply nodes_unused. unfold unused. by rewrite E. Qed.

Lemma behind_free n k : b_kind n = Free -> behind (n :: k) = b_addr n.
Proof. intros E. unfold behind. by rewrite nodes_free. Qed.

Lemma resize_fields m c s :
  0 <= s < 2 ^ 23 -> fields m c ->
  fields (set_fld m (b_addr c) (put_size (fld m (b_addr c)) s)) (resize c s).
Proof.
  intros Hs [H1 H2]. unfold fields. cbn [resize b_addr b_size b_tag]. rewrite fld_set_fld, Z.eqb_refl.
  autorewrite with fields. split; [|done]. apply to_signed_small; lia.
Qed.

(** ** The walk to the place of a block *)

Lemma find_iterator_spec a z L p fuel h :
  adj (nxt (mem h)) (p :: L ++ [z]) -> Forall (fun q => 0 < q < a) L -> p <> 0 -> a <= z ->
  (length L <= fuel)%nat ->
  wp (find_iterator fuel a p) (fun r h' => r = default p (last L) /\ h' = h) h.
Proof.
  revert p fuel. induction L as [|q L IH]; intros p fuel Ha HL Hp Hz Hf.
  - cbn in Ha. destruct Ha as [Ha _]. unfold nxt in Ha. destruct fuel; cbn [find_iterator];
      apply wp_bind; wp_field; rewrite Ha, (proj2 (Z.ltb_ge _ _) Hz); by wp_steps.
  - cbn [app] in Ha. destruct Ha as [Ha Ha2]. unfold nxt in Ha. apply Forall_cons in HL as [Hq HL].
    destruct fuel as [|fuel]; [cbn in Hf; lia|]. cbn [find_iterator]. apply wp_bind. wp_field.
    rewrite Ha, (proj2 (Z.ltb_lt _ _)) by lia.
    eapply wp_mono; [apply (IH q fuel); [done|done|lia|done|cbn in Hf; lia]|].
    intros r h' [-> ->]. split; [|done]. rewrite last_cons. by destruct (last L).
Qed.

Definition absorb_right (b : block) (l2 : list block) : block * list block :=
  match l2 with
  | n :: k2 => if decide (b_kind n = Free) then (resize b (b_size b + b_size n), k2) else (b, l2)
  | [] => (b, [])
  end.

Definition absorb_left (l1 : list block) (b : block) : list block * block :=
  match last l1 with
  | Some p => if decide (b_kind p = Free) then (removelast l1, resize p (b_size p + b_size b))
              else (l1, set_kind b Free)
  | None => (l1, set_kind b Free)
  end.

(** The heap with the used block [b] between [l1] and [l2] freed. *)
Definition coalesce (l1 : list block) (b : block) (l2 : list block) : list block :=
  let '(k1, c) := absorb_left l1 b in
  let '(d, k2) := absorb_right c l2 in
  k1 ++ [d] ++ k2.

(** A region keeps [p], [b] and [n] together below the size limit. *)
Lemma region_bounds xStart l1 b l2 :
  geometry xStart (l1 ++ b :: l2) -> b_kind b = Used ->
  0 <= region_acc 0 l1 /\ region_acc 0 l1 + b_size b < 2 ^ 23
  /\ (forall n k2, l2 = n :: k2 -> b_kind n = Free -> region_acc 0 l1 + b_size b + b_size n < 2 ^ 23).
Proof.
  intros [_ Hw Hr _] Hk. apply Forall_app in Hw as [Hw _].
  apply region_ok_app in Hr as [_ Hr]. cbn in Hr. rewrite Hk in Hr. cbn in Hr. destruct Hr as [H1 H2].
  split; [by apply region_acc_nonneg|]. split; [done|]. intros n k2 -> Hn. cbn in H2. rewrite Hn in H2. cbn in H2. by destruct H2.
Qed.

Lemma region_acc_snoc acc k p : region_acc acc (k ++ [p]) = if decide (b_kind p = End_) then 0 else region_acc acc k + b_size p.
Proof. revert acc. induction k as [|x k IH]; intros acc; cbn; [done|apply IH]. Qed.

Lemma nodes_below xStart l1 b l2 :
  geometry xStart (l1 ++ b :: l2) -> Forall (fun q => 0 < q < b_addr b) (nodes l1).
Proof.
  intros [Ha Hw _ _]. apply Forall_forall. intros q Hq. unfold nodes in Hq.
  apply list_elem_of_fmap in Hq as (y & -> & [_ Hy]%list_elem_of_filter).
  pose proof (adj_before _ _ _ _ Ha Hw Hy). rewrite Forall_forall in Hw.
  assert (Hwy : wf_block y) by (apply Hw; set_solver). pose proof (extent_ge y Hwy). destruct Hwy. lia.
Qed.

Lemma behind_above xStart l1 b l2 e :
  geometry xStart (l1 ++ b :: l2) -> b_kind b = Used -> last (l1 ++ b :: l2) = Some e -> b_kind e = End_ ->
  b_addr b <= behind l2.
Proof.
  intros [Ha Hw _ _] Hk Hlast He.
  assert (Hl2 : e ∈ l2).
  { destruct l2 as [|n k2] using rev_ind; [rewrite last_snoc in Hlast; injection Hlast as <-; congruence|].
    rewrite app_comm_cons, app_assoc, last_snoc in Hlast. injection Hlast as ->. set_solver. }
  assert (He2 : b_addr e ∈ nodes l2).
  { unfold nodes. apply list_elem_of_fmap. exists e. split; [done|]. apply list_elem_of_filter.
    split; [|done]. unfold unused. by rewrite He. }
  unfold behind. destruct (nodes l2) as [|q L] eqn:EL; [by apply elem_of_nil in He2|]. cbn.
  assert (Hq : q ∈ nodes l2) by (rewrite EL; left). unfold nodes in Hq.
  apply list_elem_of_fmap in Hq as (y & -> & [_ Hy]%list_elem_of_filter).
  pose proof (adj_after _ _ _ _ Ha Hw Hy). rewrite Forall_forall in Hw.
  pose proof (extent_ge b (Hw b ltac:(set_solver))). lia.
Qed.

(** ** The free list

    [settled] says of which used blocks the mark and the empty link are
    required: of all of them between two calls, not of the block a call is
    working on. *)

Section Settled.
Variable settled : Z -> Prop.

(** The header of a block, with a used block's mark and empty link. *)
Definition hdr (m : memory) (b : block) : Prop :=
  fields m b /\ (b_kind b = Used -> settled (b_addr b) ->
                 get_alloc (fld m (b_addr b)) <> 0 /\ nx m (b_addr b) = 0).

Section Links.
Variable xStart : Z.

(** The headers of [bl] are in memory, and the free list runs from [xStart]
    through the unused ones in order to [NULL]. *)
Record links (m : memory) (bl : list block) : Prop := {
  lk_hdr : Forall (hdr m) bl;
  lk_list : adj (nxt m) (xStart :: nodes bl ++ [0]);
  lk_start : get_size (fld m xStart) = 0
}.

Lemma hdr_frame m m' b :
  fld m' (b_addr b) = fld m (b_addr b) -> nx m' (b_addr b) = nx m (b_addr b) -> hdr m b -> hdr m' b.
Proof. unfold hdr, fields. intros -> ->. done. Qed.

(** Nothing at the headers of [bl] changes. *)
Lemma links_frame m m' bl :
  (forall p, p ∈ headers xStart bl -> fld m' p = fld m p /\ nx m' p = nx m p) -> links m bl -> links m' bl.
Proof.
  intros Hp [H1 H2 H3]. split.
  - apply Forall_forall. intros b Hb. destruct (Hp (b_addr b)).
    { right. apply list_elem_of_fmap. eauto. }
    apply (hdr_frame m); [done..|]. rewrite Forall_forall in H1. auto.
  - rewrite app_comm_cons in *. apply (adj_mono_snoc (nxt m)); [|done].
    intros x y Hx. unfold nxt. destruct (Hp x) as [_ ->]; [|done].
    apply elem_of_cons in Hx as [->|Hx]; [left|right; by apply nodes_headers].
  - destruct (Hp xStart) as [-> _]; [left|done].
Qed.

(** The list, cut at the two ends of [mid]. *)
Lemma list_cut m l1 mid l2 L1 L2 :
  xStart :: nodes l1 = L1 ++ [before xStart l1] -> nodes l2 ++ [0] = behind l2 :: L2 ->
  adj (nxt m) (xStart :: nodes (l1 ++ mid ++ l2) ++ [0])
  <-> adj (nxt m) (L1 ++ [before xStart l1]) /\ adj (nxt m) (before xStart l1 :: nodes mid ++ [behind l2])
      /\ adj (nxt m) (behind l2 :: L2).
Proof.
  intros E1 E2. rewrite !nodes_app, <- !app_assoc, app_comm_cons, E1, E2, <- app_assoc. cbn [app].
  pose proof (adj_app (nxt m) (before xStart l1 :: nodes mid) (behind l2) L2) as E. cbn [app] in E.
  rewrite (adj_app _ L1). rewrite E. done.
Qed.

Lemma links_mid m l1 mid l2 :
  links m (l1 ++ mid ++ l2) -> adj (nxt m) (before xStart l1 :: nodes mid ++ [behind l2]).
Proof.
  intros [_ Hl _]. destruct (before_split xStart l1) as [L1 E1], (behind_split l2) as [L2 E2].
  apply (list_cut _ _ _ _ L1 L2) in Hl; [|done|done]. by destruct Hl as (_ & ? & _).
Qed.

(** Replacing the blocks in the middle: nothing else changes but the link of
    the node in front, and the new middle is linked in. *)
Lemma splice m m' l1 mid mid' l2 :
  NoDup (headers xStart (l1 ++ l2)) -> links m (l1 ++ mid ++ l2) ->
  (forall p, p ∈ headers xStart (l1 ++ l2) -> fld m' p = fld m p /\ (p <> before xStart l1 -> nx m' p = nx m p)) ->
  Forall (hdr m') mid' -> adj (nxt m') (before xStart l1 :: nodes mid' ++ [behind l2]) ->
  links m' (l1 ++ mid' ++ l2).
Proof.
  intros Hnd [Hh Hl Hs] Hf Hm Hmid.
  destruct (before_split xStart l1) as [L1 E1], (behind_split l2) as [L2 E2].
  apply (list_cut _ _ _ _ L1 L2) in Hl; [|done|done]. destruct Hl as (H1 & _ & H3).
  assert (Hx : forall x, x ∈ l1 ++ l2 -> hdr m x -> hdr m' x).
  { intros x Hx [Hfx Hux]. destruct (Hf (b_addr x)) as [F N].
    { right. apply list_elem_of_fmap. eauto. }
    split; [unfold fields in *; by rewrite F|]. intros Hk. rewrite F, N; [by apply Hux|].
    intros E. apply (used_not_node xStart _ _ Hnd Hx Hk). rewrite E. pose proof (before_node xStart l1) as B.
    rewrite nodes_app. apply elem_of_cons in B as [->|B]; [left|right; apply elem_of_app; by left]. }
  assert (Hnn : NoDup (xStart :: nodes (l1 ++ l2))).
  { eapply sublist_NoDup; [exact Hnd|]. apply sublist_skip, fmap_sublist, sublist_filter. }
  rewrite nodes_app, app_comm_cons, E1 in Hnn. rewrite !Forall_app in Hh. destruct Hh as (Hh1 & _ & Hh2).
  assert (Hhd : forall p, p ∈ (xStart :: nodes l1) ++ nodes l2 -> p ∈ headers xStart (l1 ++ l2)).
  { intros p Hp. rewrite <- app_comm_cons, <- nodes_app in Hp.
    apply elem_of_cons in Hp as [->|Hp]; [left|right; by apply nodes_headers]. }
  rewrite E1 in Hhd. apply NoDup_app in Hnn as (Hn1 & Hn2 & _). apply NoDup_app in Hn1 as (_ & Hn1 & _).
  split.
  - rewrite !Forall_app, !Forall_forall in *. split_and!; intros x Hx'; [|by apply Hm|];
      apply Hx; [apply elem_of_app; auto|auto|apply elem_of_app; auto|auto].
  - apply (list_cut _ _ _ _ L1 L2); [done|done|]. split_and!; [|done|].
    + apply (adj_mono_snoc (nxt m)); [|done]. intros x y Hxl. unfold nxt.
      destruct (Hf x) as [_ Hn]; [apply Hhd; rewrite !elem_of_app; auto|].
      rewrite Hn; [done|].
      intros ->. apply (Hn1 _ Hxl). left.
    + rewrite <- E2 in *. apply (adj_mono_snoc (nxt m)); [|done]. intros x y Hxl. unfold nxt.
      destruct (Hf x) as [_ Hn]; [apply Hhd; rewrite !elem_of_app; auto|].
      rewrite Hn; [done|].
      intros ->. apply (Hn2 (before xStart l1)); [|done]. apply elem_of_app. right. left.
  - destruct (Hf xStart) as [-> _]; [left|done].
Qed.
End Links.

(** ** Inserting a block *)

(** What the second half needs to know: [c] is a block with its final left
    end, [it] the node to link it to, which is [c] itself when [c] is in the
    list already; [m0] is a memory in which the blocks [mid] stand in the place
    of [c]. *)
Record linkable (xStart : Z) (H : list Z) (h : heap) (m0 : memory) (k1 mid : list block) (c : block)
    (l2 : list block) (it : Z) : Prop := {
  la_sep : Sep H;
  la_in : forall p, p ∈ it :: b_addr c :: headers xStart (k1 ++ l2) -> p ∈ H /\ 0 < p;
  la_nodup : NoDup (b_addr c :: headers xStart (k1 ++ l2));
  la_links : links xStart m0 (k1 ++ mid ++ l2);
  la_same : forall p, p ∈ headers xStart (k1 ++ l2) ->
      fld (mem h) p = fld m0 p /\ nx (mem h) p = nx m0 p;
  la_fields : fields (mem h) c;
  la_block : b_kind c = Free /\ 0 <= b_size c < 2 ^ 23 /\ 0 <= b_tag c < 16;
  la_it : (it = b_addr c /\ nx (mem h) (before xStart k1) = b_addr c) \/ (it = before xStart k1 /\ it <> b_addr c);
  la_next : nx (mem h) it = behind l2;
  la_right : match l2 with
      | [] => False
      | n :: k2 => b_addr n = b_addr c + b_size c /\ b_addr n < 2 ^ 32 /\ hdr m0 n /\
          match b_kind n with
          | Free => b_tag n = b_tag c /\ b_addr n <> pxEnd h /\ b_size c + b_size n < 2 ^ 23 /\ 0 <= b_size n
          | Used => b_addr n <> behind l2
          | End_ => b_tag n = -1
          end
      end
}.

(** The last step: the node in front points to [d]. *)
Lemma relink xStart H m0 m2 k1 mid d k2 it :
  Sep H -> (forall p, p ∈ it :: b_addr d :: headers xStart (k1 ++ k2) -> p ∈ H) ->
  NoDup (b_addr d :: headers xStart (k1 ++ k2)) -> links xStart m0 (k1 ++ mid ++ k2) ->
  (forall p, p ∈ headers xStart (k1 ++ k2) -> fld m2 p = fld m0 p /\ nx m2 p = nx m0 p) ->
  fields m2 d -> b_kind d = Free -> nx m2 (b_addr d) = behind k2 ->
  (it = b_addr d /\ nx m2 (before xStart k1) = b_addr d) \/ (it = before xStart k1 /\ it <> b_addr d) ->
  links xStart (if negb (it =? b_addr d) then set_nx m2 it (b_addr d) else m2) (k1 ++ [d] ++ k2).
Proof.
  intros HS Hin [Hd Hnd]%NoDup_cons Hl Hsame Hf Hk Hnx Hit.
  assert (Hb : before xStart k1 ∈ headers xStart (k1 ++ k2)) by apply before_header.
  assert (Hbd : before xStart k1 <> b_addr d) by (intros E; apply Hd; by rewrite <- E).
  assert (Hunused : unused d) by (unfold unused; by rewrite Hk).
  assert (Hfld : forall p, p ∈ b_addr d :: headers xStart (k1 ++ k2) ->
    fld (if negb (it =? b_addr d) then set_nx m2 it (b_addr d) else m2) p = fld m2 p).
  { intros p Hp. destruct (negb _); [|done].
    apply (fld_set_nx H HS); apply Hin; [left|right; exact Hp]. }
  apply (splice xStart m0 _ k1 mid); [done|done| | |].
  - intros p Hp. rewrite Hfld by (by right). destruct (Hsame p Hp) as [E1 E2]. split; [done|].
    intros Hne. rewrite <- E2. destruct (Z.eqb_spec it (b_addr d)); [done|]. cbn [negb].
    rewrite nx_set_nx. destruct Hit as [[? _]|[-> _]]; [done|]. by rewrite (proj2 (Z.eqb_neq _ _) Hne).
  - constructor; [|done]. split; [|by rewrite Hk]. unfold fields. rewrite Hfld by left. exact Hf.
  - rewrite nodes_unused by done. cbn. unfold nxt. destruct Hit as [[-> E]|[-> Hne]].
    + rewrite Z.eqb_refl. cbn. by split_and!.
    + rewrite (proj2 (Z.eqb_neq _ _) Hne). cbn [negb]. rewrite !nx_set_nx, Z.eqb_refl.
      rewrite (proj2 (Z.eqb_neq (b_addr d) _)) by done. by split_and!.
Qed.

Lemma link_block_plain xStart H h m0 k1 mid c l2 it :
  linkable xStart H h m0 k1 mid c l2 it -> absorb_right c l2 = (c, l2) ->
  wp (link_block it (b_addr c)) (fun _ h' => exists m', h' = with_mem m' h /\ untouched H (mem h) m'
    /\ links xStart m' (k1 ++ [c] ++ l2)) h.
Proof.
  intros [HS Hin Hnd Hl Hsame [Hf1 Hf2] (Hk & Hs & Ht) Hit Hnx Hr] Habs.
  assert (Hc : b_addr c ∈ H /\ 0 < b_addr c) by (apply Hin; right; left).
  assert (Hi : it ∈ H /\ 0 < it) by (apply Hin; left).
  unfold link_block. apply wp_bind. wp_field. apply wp_bind. wp_field. rewrite Hf1, Hnx. apply wp_bind.
  eapply (wp_mono _ (fun merge h' => merge = false /\ h' = h)).
  { destruct l2 as [|n k2]; [done|]. destruct Hr as (E & Hlt & Hh & Hk2).
    rewrite u32_small by lia. rewrite <- E. destruct (b_kind n) eqn:Ek.
    - exfalso. cbn in Habs. rewrite Ek in Habs. rewrite decide_True in Habs by done.
      injection Habs as _ Habs. apply (f_equal length) in Habs. cbn in Habs. lia.
    - rewrite (proj2 (Z.eqb_neq _ _) Hk2). by wp_steps.
    - assert (Hb : behind (n :: k2) = b_addr n) by (unfold behind; rewrite nodes_unused by (unfold unused; by rewrite Ek); done).
      rewrite Hb, Z.eqb_refl. apply wp_bind. wp_field.
      assert (Hn : b_addr n ∈ headers xStart (k1 ++ n :: k2)) by (right; rewrite fmap_app; set_solver).
      apply wp_bind. apply wp_tag; [lia|]. wp_steps. rewrite (proj1 (Hsame _ Hn)), Hf2.
      rewrite (proj2 (proj1 Hh)), Hk2. split; [|done]. apply Z.eqb_neq. lia. }
  intros merge h' [-> ->]. apply wp_bind. wp_field.
  set (m2 := set_nx (mem h) (b_addr c) (behind l2)).
  assert (Hlinks : links xStart (if negb (it =? b_addr c) then set_nx m2 it (b_addr c) else m2) (k1 ++ [c] ++ l2)).
  { apply (relink xStart H m0 m2 k1 mid); try done.
    - intros p Hp. by apply Hin.
    - intros p Hp. destruct (Hsame p Hp) as [<- <-]. unfold m2. split.
      + apply (fld_set_nx H HS); [apply Hc|]. apply Hin. by do 2 right.
      + rewrite nx_set_nx. apply NoDup_cons in Hnd as [Hd _].
        rewrite (proj2 (Z.eqb_neq _ _)); [done|]. by intros ->.
    - unfold fields, m2. rewrite (fld_set_nx H HS) by apply Hc. done.
    - unfold m2. by rewrite nx_set_nx, Z.eqb_refl.
    - destruct Hit as [[-> E]|?]; [left|by right]. split; [done|]. unfold m2. rewrite nx_set_nx.
      apply NoDup_cons in Hnd as [Hd _]. rewrite (proj2 (Z.eqb_neq _ _)); [done|].
      intros E2. apply Hd. rewrite <- E2. apply before_header. }
  assert (Hu : untouched H (mem h) m2) by (apply untouched_set_nx; [apply Hc|done]).
  destruct (negb (it =? b_addr c)).
  - wp_field. eexists. split; [done|]. split; [|exact Hlinks]. apply untouched_set_nx; [apply Hi|done].
  - wp_steps. exists m2. by split_and!.
Qed.

Lemma link_block_merge xStart H h m0 k1 mid c n k2 it :
  linkable xStart H h m0 k1 mid c (n :: k2) it -> b_kind n = Free ->
  wp (link_block it (b_addr c)) (fun _ h' => exists m', h' = with_mem m' h /\ untouched H (mem h) m'
    /\ links xStart m' (k1 ++ [resize c (b_size c + b_size n)] ++ k2)) h.
Proof.
  intros [HS Hin Hnd Hl Hsame [Hf1 Hf2] (Hk & Hs & Ht) Hit Hnx (E & Hlt & Hh & Hr)] Ek. rewrite Ek in Hr.
  destruct Hr as (Htag & Hend & Hsum & Hpos).
  assert (Hc : b_addr c ∈ H /\ 0 < b_addr c) by (apply Hin; right; left).
  assert (Hi : it ∈ H /\ 0 < it) by (apply Hin; left).
  assert (Hn : b_addr n ∈ headers xStart (k1 ++ n :: k2)) by (right; rewrite fmap_app; set_solver).
  assert (HnH : b_addr n ∈ H /\ 0 < b_addr n) by (apply Hin; by do 2 right).
  assert (Hsub : forall p, p ∈ headers xStart (k1 ++ k2) -> p ∈ headers xStart (k1 ++ n :: k2)).
  { unfold headers. rewrite !fmap_app, fmap_cons. intros p. rewrite !elem_of_cons, !elem_of_app, elem_of_cons. tauto. }
  destruct (Hsame _ Hn) as [Hnf Hnn]. destruct Hh as [[Hh1 Hh2] _].
  rewrite (behind_free n k2 Ek) in Hnx. unfold link_block.
  apply wp_bind. wp_field. apply wp_bind. wp_field. rewrite Hf1, Hnx, u32_small, E, Z.eqb_refl by lia.
  rewrite <- E. apply wp_bind. apply wp_bind. wp_field. apply wp_bind. wp_field. wp_steps.
  rewrite Hf2, Hnf, Hh2, Htag, Z.eqb_refl. do 2 wp_step. rewrite (proj2 (Z.eqb_neq _ _) Hend). cbn [negb].
  apply wp_bind. wp_field. apply wp_bind. rewrite Hnf, Hh1. wp_field. apply wp_bind. wp_field. wp_field.
  set (m1 := set_fld (mem h) (b_addr c) (put_size (fld (mem h) (b_addr c)) (b_size c + b_size n))).
  set (m2 := set_nx m1 (b_addr c) (nx m1 (b_addr n))).
  assert (Hnn' : nx m0 (b_addr n) = behind k2).
  { pose proof (links_mid xStart m0 (k1 ++ mid) [n] k2) as HM. rewrite <- app_assoc in HM. specialize (HM Hl).
    rewrite nodes_free in HM by done. cbn in HM. apply HM. }
  apply NoDup_cons in Hnd as [Hd Hnd].
  assert (HL : links xStart (if negb (it =? b_addr c) then set_nx m2 it (b_addr c) else m2)
    (k1 ++ [resize c (b_size c + b_size n)] ++ k2)).
  { apply (relink xStart H m0 m2 k1 (mid ++ [n]) (resize c (b_size c + b_size n))); try done.
    - intros p Hp. cbn [resize b_addr] in Hp. apply Hin. rewrite !elem_of_cons in *. naive_solver.
    - cbn [resize b_addr]. apply NoDup_cons. split; [auto|]. eapply sublist_NoDup; [exact Hnd|].
      apply sublist_skip, fmap_sublist, sublist_app; [done|]. by apply sublist_cons.
    - by rewrite <- app_assoc.
    - intros p Hp. destruct (Hsame p (Hsub p Hp)) as [<- <-].
      assert (HpH : p ∈ H) by (apply Hin; do 2 right; auto).
      assert (Hpc : p <> b_addr c) by (intros ->; auto). unfold m2. split.
      + rewrite (fld_set_nx H HS) by (done || apply Hc). unfold m1. rewrite fld_set_fld.
        by rewrite (proj2 (Z.eqb_neq _ _) Hpc).
      + rewrite nx_set_nx, (proj2 (Z.eqb_neq _ _) Hpc). unfold m1. rewrite (nx_set_fld H HS) by (done || apply Hc). done.
    - unfold fields, m2. cbn [resize b_addr]. rewrite (fld_set_nx H HS) by apply Hc.
      apply (resize_fields (mem h) c); [lia|done].
    - unfold m2. cbn [resize b_addr]. rewrite nx_set_nx, Z.eqb_refl. unfold m1.
      rewrite (nx_set_fld H HS) by (apply Hc || apply HnH). by rewrite Hnn.
    - cbn [resize b_addr]. destruct Hit as [[-> E2]|?]; [left|by right]. split; [done|]. unfold m2. rewrite nx_set_nx.
      pose proof (before_header xStart k1 (n :: k2)) as HB.
      assert (Hne : before xStart k1 <> b_addr c) by (intros E3; apply Hd; by rewrite <- E3).
      rewrite (proj2 (Z.eqb_neq _ _) Hne). unfold m1. rewrite (nx_set_fld H HS); [done|apply Hc|].
      apply Hin. by do 2 right. }
  assert (Hu : untouched H (mem h) m2).
  { apply untouched_set_nx; [apply Hc|]. apply untouched_set_fld; [apply Hc|done]. }
  destruct (negb (it =? b_addr c)).
  - wp_field. eexists. split; [done|]. split; [|exact HL]. apply untouched_set_nx; [apply Hi|done].
  - wp_steps. exists m2. by split_and!.
Qed.

Lemma link_block_spec xStart H h m0 k1 mid c l2 it :
  linkable xStart H h m0 k1 mid c l2 it ->
  wp (link_block it (b_addr c)) (fun _ h' => exists m', h' = with_mem m' h /\ untouched H (mem h) m'
    /\ let '(d, k2) := absorb_right c l2 in links xStart m' (k1 ++ [d] ++ k2)) h.
Proof.
  intros HL. pose proof (la_right _ _ _ _ _ _ _ _ _ HL).
  destruct l2 as [|n k2]; [done|]. cbn [absorb_right]. destruct (decide (b_kind n = Free)) as [Ek|Ek].
  - by apply (link_block_merge xStart H h m0 k1 mid).
  - apply (link_block_plain xStart H h m0 k1 mid); [done|]. cbn. by rewrite decide_False.
Qed.

(** The node in front touches the block exactly when it is its free left
    neighbour. *)
Lemma touches_left xStart m l1 b l2 :
  geometry xStart (l1 ++ b :: l2) -> links xStart m (l1 ++ l2) ->
  let it := before xStart l1 in
  let e := it + get_size (fld m it) in
  0 <= e < 2 ^ 32 /\ (e = b_addr b -> exists k p, l1 = k ++ [p] /\ b_kind p = Free).
Proof.
  intros [Ha Hw _ (Hs & Hs2 & Hap)] [Hh _ Hst]. cbn zeta.
  assert (Hb : wf_block b) by (rewrite Forall_forall in Hw; apply Hw; set_solver).
  destruct Hb as (B1 & _ & B2 & _). pose proof (extent_ge b ltac:(rewrite Forall_forall in Hw; apply Hw; set_solver)) as B3.
  assert (Hsb : xStart <> b_addr b).
  { rewrite Forall_forall in Hap. destruct (Hap b ltac:(set_solver)); lia. }
  destruct (before_cases xStart l1) as [-> | (y & Hy & Hu & ->)].
  { rewrite Hst. lia. }
  assert (Hfy : get_size (fld m (b_addr y)) = b_size y).
  { rewrite Forall_forall in Hh. apply Hh. set_solver. }
  rewrite Hfy. pose proof (adj_before _ _ _ _ Ha Hw Hy) as Hyb.
  assert (Hwy : wf_block y) by (rewrite Forall_forall in Hw; apply Hw; set_solver).
  destruct Hwy as (Y1 & _ & _ & Y2). unfold unused, extent, uxHeapStructSize in *.
  destruct (b_kind y) eqn:Ek; [|done|lia]. split; [lia|]. intros E.
  apply list_elem_of_split in Hy as (k & k2 & ->). destruct k2 as [|z k2]; [by exists k, y|].
  exfalso. assert (Hz : z ∈ (k ++ [y]) ++ z :: k2) by set_solver.
  replace (k ++ y :: z :: k2) with ((k ++ [y]) ++ z :: k2) in * by (by rewrite <- app_assoc).
  pose proof (adj_before _ _ _ z Ha Hw Hz) as Hzb. rewrite <- app_assoc in Ha, Hw.
  rewrite <- (app_assoc k), <- app_comm_cons in Ha, Hw. cbn [app] in Ha, Hw.
  pose proof (adj_after k y _ z Ha Hw ltac:(set_solver)) as Hyz. unfold extent in Hyz. rewrite Ek in Hyz.
  assert (Hwz : wf_block z) by (rewrite Forall_forall in Hw; apply Hw; set_solver).
  pose proof (extent_ge z Hwz). lia.
Qed.

Lemma right_facts xStart m l1 b l2 c e pe :
  geometry xStart (l1 ++ b :: l2) -> b_kind b = Used -> links xStart m (l1 ++ l2) ->
  last (l1 ++ b :: l2) = Some e -> b_kind e = End_ -> b_addr e = pe ->
  b_addr c + b_size c = b_addr b + b_size b -> b_tag c = b_tag b ->
  (forall n k2, l2 = n :: k2 -> b_kind n = Free -> b_size c + b_size n < 2 ^ 23) ->
  match l2 with
  | [] => False
  | n :: k2 => b_addr n = b_addr c + b_size c /\ b_addr n < 2 ^ 32 /\ hdr m n /\
      match b_kind n with
      | Free => b_tag n = b_tag c /\ b_addr n <> pe /\ b_size c + b_size n < 2 ^ 23 /\ 0 <= b_size n
      | Used => b_addr n <> behind l2
      | End_ => b_tag n = -1
      end
  end.
Proof.
  intros [Ha Hw _ _] Hk [Hh _ _] Hlast He Hpe Hc Ht Hsum. destruct l2 as [|n k2].
  { rewrite last_snoc in Hlast. injection Hlast as <-. congruence. }
  assert (Hn : wf_block n) by (rewrite Forall_forall in Hw; apply Hw; set_solver).
  pose proof (extent_ge n Hn) as En. pose proof Hn as (N1 & _ & N2 & N3).
  pose proof Ha as Ha'. apply adj_join in Ha' as (_ & [_ Hf] & _).
  destruct Hf as [Haddr Hf]; [by rewrite Hk|]. split_and!; [lia|lia| |].
  { rewrite Forall_forall in Hh. apply Hh. set_solver. }
  destruct (b_kind n) eqn:Ek.
  - destruct Hf as [Htag _]; [done|]. split_and!; [congruence| |by eapply Hsum|lia].
    pose proof (end_addr _ e n Ha Hw Hlast ltac:(set_solver) ltac:(congruence)). lia.
  - unfold behind. rewrite nodes_used by done. destruct (nodes k2) as [|q L] eqn:EL; cbn; [lia|].
    assert (Hq : q ∈ nodes k2) by (rewrite EL; left). unfold nodes in Hq.
    apply list_elem_of_fmap in Hq as (y & -> & [_ Hy]%list_elem_of_filter).
    replace (l1 ++ b :: n :: k2) with ((l1 ++ [b]) ++ n :: k2) in * by (by rewrite <- app_assoc).
    pose proof (adj_after _ _ _ _ Ha Hw Hy). lia.
  - by destruct N3.
Qed.

(** The block merges with its free left neighbour [p]. *)
Lemma linkable_left xStart h k1 p b l2 e :
  geometry xStart ((k1 ++ [p]) ++ b :: l2) -> b_kind b = Used -> b_kind p = Free ->
  links xStart (mem h) ((k1 ++ [p]) ++ l2) -> fields (mem h) b ->
  last ((k1 ++ [p]) ++ b :: l2) = Some e -> b_kind e = End_ -> b_addr e = pxEnd h ->
  linkable xStart (headers xStart ((k1 ++ [p]) ++ b :: l2))
    (with_mem (set_fld (mem h) (b_addr p) (put_size (fld (mem h) (b_addr p)) (b_size p + b_size b))) h)
    (mem h) k1 [p] (resize p (b_size p + b_size b)) l2 (b_addr p).
Proof.
  intros Hg Hkb Hkp Hl Hfb Hlast He Hpe. pose proof (geometry_sep _ _ Hg) as HS.
  pose proof (geometry_NoDup _ _ Hg) as HN. pose proof Hg as [Ha Hw _ _].
  destruct (region_bounds _ _ _ _ Hg Hkb) as (R1 & R2 & R3). 
  rewrite region_acc_snoc, decide_False in R1, R2, R3 by (by rewrite Hkp).
  assert (Hwp : wf_block p) by (rewrite Forall_forall in Hw; apply Hw; set_solver).
  assert (Hwb : wf_block b) by (rewrite Forall_forall in Hw; apply Hw; set_solver).
  destruct Hwp as (_ & _ & _ & Hwp), Hwb as (_ & _ & _ & Hwb). rewrite Hkp in Hwp. rewrite Hkb in Hwb.
  pose proof Ha as Ha2. rewrite <- app_assoc in Ha2. cbn [app] in Ha2. apply adj_join in Ha2 as (_ & [_ Hf] & _).
  destruct Hf as [Hadj Htag]; [by rewrite Hkp|]. destruct Htag as [Htag _]; [by rewrite Hkb|].
  assert (Racc : 0 <= region_acc 0 k1).
  { apply region_acc_nonneg; [done|]. rewrite <- app_assoc in Hw. by apply Forall_app in Hw as [? _]. }
  assert (HpH : b_addr p ∈ headers xStart ((k1 ++ [p]) ++ b :: l2)) by (right; rewrite !fmap_app; set_solver).
  assert (HN2 : NoDup (b_addr p :: headers xStart (k1 ++ l2))).
  { apply nodup_middle in HN. apply NoDup_cons in HN as [_ HN]. rewrite <- app_assoc in HN. by apply nodup_middle in HN. }
  assert (Hsub : forall q, q ∈ headers xStart (k1 ++ l2) -> q ∈ headers xStart ((k1 ++ [p]) ++ b :: l2)).
  { intros q Hq. apply headers_middle. right. rewrite <- app_assoc. apply headers_middle. by right. }
  rewrite <- app_assoc in Hl. pose proof (links_mid xStart (mem h) k1 [p] l2 Hl) as Hmid.
  rewrite nodes_free in Hmid by done. cbn in Hmid. destruct Hmid as (M1 & M2 & _). unfold nxt in M1, M2.
  assert (Hfp : fields (mem h) p).
  { destruct Hl as [Hh _ _]. rewrite Forall_forall in Hh. apply (Hh p). set_solver. }
  split; cbn [mem with_mem pxEnd]; [done|..].
  - intros q Hq. assert (q ∈ headers xStart ((k1 ++ [p]) ++ b :: l2)) as HqH; [|split; [done|by eapply header_pos]].
    rewrite !elem_of_cons in Hq. destruct Hq as [->|[->|Hq]]; [done|done|auto].
  - exact HN2.
  - exact Hl.
  - intros q Hq. apply NoDup_cons in HN2 as [Hp _]. split.
    + rewrite fld_set_fld, (proj2 (Z.eqb_neq _ _)); [done|]. by intros ->.
    + by apply (nx_set_fld _ HS); [|auto].
  - apply resize_fields; [lia|done].
  - cbn [resize b_kind b_size b_tag]. split_and!; [done|lia..].
  - left. split; [done|]. rewrite (nx_set_fld _ HS); [done|done|]. apply Hsub, before_header.
  - by rewrite (nx_set_fld _ HS).
  - apply (right_facts xStart _ (k1 ++ [p]) b l2 _ e); try done.
    + by rewrite <- app_assoc.
    + cbn [resize b_addr b_size]. lia.
    + intros n k2 -> Hn. cbn [resize b_size]. specialize (R3 n k2 eq_refl Hn). lia.
Qed.

Lemma linkable_new xStart h l1 b l2 e :
  geometry xStart (l1 ++ b :: l2) -> b_kind b = Used ->
  links xStart (mem h) (l1 ++ l2) -> fields (mem h) b ->
  last (l1 ++ b :: l2) = Some e -> b_kind e = End_ -> b_addr e = pxEnd h ->
  linkable xStart (headers xStart (l1 ++ b :: l2)) h (mem h) l1 [] (set_kind b Free) l2 (before xStart l1).
Proof.
  intros Hg Hkb Hl Hfb Hlast He Hpe. pose proof Hg as [Ha Hw _ _].
  destruct (region_bounds _ _ _ _ Hg Hkb) as (R1 & R2 & R3).
  pose proof (nodup_middle _ _ _ _ (geometry_NoDup _ _ Hg)) as HN.
  assert (Hwb : wf_block b) by (rewrite Forall_forall in Hw; apply Hw; set_solver).
  destruct Hwb as (_ & _ & _ & Hwb). rewrite Hkb in Hwb.
  split; cbn [set_kind b_addr b_size b_tag b_kind].
  - by apply geometry_sep.
  - intros q Hq. assert (q ∈ headers xStart (l1 ++ b :: l2)) as HqH; [|split; [done|by eapply header_pos]].
    apply headers_middle. rewrite !elem_of_cons in Hq. rewrite elem_of_cons.
    destruct Hq as [->|[->|Hq]]; [right; apply before_header|by left|by right].
  - exact HN.
  - exact Hl.
  - done.
  - exact Hfb.
  - split_and!; [done|lia..].
  - right. split; [done|]. apply NoDup_cons in HN as [HN _]. intros E. apply HN. rewrite <- E. apply before_header.
  - apply (links_mid xStart (mem h) l1 [] l2) in Hl. cbn in Hl. apply Hl.
  - apply (right_facts xStart _ l1 b l2 _ e); try done.
    intros n k2 -> Hn. cbn [set_kind b_size]. specialize (R3 n k2 eq_refl Hn). lia.
Qed.

Lemma insert_spec xStart fuel h l1 b l2 e :
  geometry xStart (l1 ++ b :: l2) -> b_kind b = Used ->
  links xStart (mem h) (l1 ++ l2) -> fields (mem h) b ->
  last (l1 ++ b :: l2) = Some e -> b_kind e = End_ -> b_addr e = pxEnd h -> (length l1 <= fuel)%nat ->
  wp (prvInsertBlockIntoFreeList xStart fuel (b_addr b)) (fun _ h' => exists m', h' = with_mem m' h
    /\ untouched (headers xStart (l1 ++ b :: l2)) (mem h) m' /\ links xStart m' (coalesce l1 b l2)) h.
Proof.
  intros Hg Hkb Hl Hfb Hlast He Hpe Hfu. destruct Hg as [Ha Hw Hr Hst] eqn:Eg. clear Eg.
  assert (Hwb : wf_block b) by (rewrite Forall_forall in Hw; apply Hw; set_solver).
  destruct Hst as (Hs0 & Hs1 & Hap) eqn:Es. clear Es.
  assert (Hbpos : 0 < b_addr b) by apply Hwb.
  assert (Hit : 0 < before xStart l1).
  { apply (header_pos _ _ _ Hg), headers_middle. right. apply before_header. }
  unfold prvInsertBlockIntoFreeList. apply wp_bind. eapply wp_mono.
  { apply (find_iterator_spec (b_addr b) (behind l2) (nodes l1)); [| |lia| |].
    - destruct (before_split xStart l1) as [L1 E1], (behind_split l2) as [L2 E2].
      pose proof (lk_list _ _ _ Hl) as HL. rewrite nodes_app, <- app_assoc, E2 in HL.
      rewrite app_comm_cons in HL. apply adj_app in HL as [HL _]. exact HL.
    - by eapply nodes_below.
    - by eapply behind_above.
    - etrans; [|exact Hfu]. unfold nodes. rewrite length_fmap. apply length_filter. }
  intros it h' [-> ->]. change (default xStart (last (nodes l1))) with (before xStart l1).
  destruct (touches_left xStart (mem h) l1 b l2 Hg Hl) as [T1 T2].
  apply wp_bind. wp_field. rewrite u32_small by lia. apply wp_bind.
  destruct (Z.eqb_spec (before xStart l1 + get_size (fld (mem h) (before xStart l1))) (b_addr b)) as [E|E].
  - destruct (T2 E) as (k1 & p & -> & Hkp). 
    assert (Hb : before xStart (k1 ++ [p]) = b_addr p).
    { rewrite before_snoc, decide_True; [done|]. unfold unused. by rewrite Hkp. }
    rewrite Hb in *. assert (Hfp : fields (mem h) p).
    { destruct Hl as [Hh _ _]. rewrite Forall_forall in Hh. apply (Hh p). set_solver. }
    apply wp_bind. wp_field. apply wp_bind. wp_field. wp_steps. rewrite (proj2 Hfb), (proj2 Hfp).
    pose proof Ha as Ha2. rewrite <- app_assoc in Ha2. cbn [app] in Ha2. apply adj_join in Ha2 as (_ & [_ Hf] & _).
    destruct Hf as [_ Htag]; [by rewrite Hkp|]. destruct Htag as [Htag _]; [by rewrite Hkb|].
    rewrite Htag, Z.eqb_refl. apply wp_bind. wp_field. rewrite (proj1 Hfb), (proj1 Hfp). apply wp_bind. wp_field.
    pose proof (linkable_left xStart h k1 p b l2 e Hg Hkb Hkp Hl Hfb Hlast He Hpe) as HK.
    eapply wp_mono; [apply (link_block_spec _ _ _ _ _ _ _ _ _ HK)|]. cbn beta.
    intros _ h' (m' & -> & Hu & HL). exists m'. split; [done|]. split.
    + cbn [mem with_mem] in Hu. eapply untouched_trans; [|exact Hu].
      apply untouched_set_fld; [|done]. right. rewrite !fmap_app. set_solver.
    + unfold coalesce, absorb_left. rewrite last_snoc, decide_True, removelast_last by done.
      by destruct (absorb_right _ l2).
  - wp_steps. pose proof (linkable_new xStart h l1 b l2 e Hg Hkb Hl Hfb Hlast He Hpe) as HK.
    change (b_addr b) with (b_addr (set_kind b Free)).
    eapply wp_mono; [apply (link_block_spec _ _ _ _ _ _ _ _ _ HK)|]. cbn beta.
    intros _ h' (m' & -> & Hu & HL). exists m'. split_and!; [done|done|].
    unfold coalesce, absorb_left. destruct (last l1) as [p|] eqn:Elast; [|by destruct (absorb_right _ l2)].
    destruct (decide (b_kind p = Free)) as [Hkp|Hkp]; [|by destruct (absorb_right _ l2)]. exfalso. apply E.
    apply last_Some in Elast as [k1 ->]. rewrite before_snoc, decide_True by (unfold unused; by rewrite Hkp).
    destruct Hl as [Hh _ _]. rewrite Forall_forall in Hh. destruct (Hh p ltac:(set_solver)) as [[-> _] _].
    rewrite <- app_assoc in Ha. cbn [app] in Ha. apply adj_join in Ha as (_ & [_ Hf] & _).
    destruct Hf as [Hf _]; [by rewrite Hkp|]. lia.
Qed.

(** A used block left out of the list. *)
Lemma links_drop_used xStart m l1 b l2 :
  b_kind b = Used -> links xStart m (l1 ++ b :: l2) -> links xStart m (l1 ++ l2).
Proof.
  intros Hk [Hh Hl Hs]. split; [|by rewrite nodes_app, nodes_used, <- nodes_app in Hl by done|done].
  rewrite !Forall_app, Forall_cons in *. tauto.
Qed.

(** A change in the header of a block that is not in the list. *)
Lemma links_set_fld xStart H m bl p w :
  Sep H -> p ∈ H -> (forall q, q ∈ headers xStart bl -> q ∈ H) -> p ∉ headers xStart bl ->
  links xStart m bl -> links xStart (set_fld m p w) bl.
Proof.
  intros HS Hp Hin Hnot. apply links_frame. intros q Hq. split.
  - rewrite fld_set_fld, (proj2 (Z.eqb_neq _ _)); [done|]. by intros ->.
  - by apply (nx_set_fld H HS); [|auto].
Qed.

Lemma links_set_nx xStart H m bl p v :
  Sep H -> p ∈ H -> (forall q, q ∈ headers xStart bl -> q ∈ H) -> p ∉ headers xStart bl ->
  links xStart m bl -> links xStart (set_nx m p v) bl.
Proof.
  intros HS Hp Hin Hnot. apply links_frame. intros q Hq. split.
  - by apply (fld_set_nx H HS); [|auto].
  - rewrite nx_set_nx, (proj2 (Z.eqb_neq _ _)); [done|]. by intros ->.
Qed.

End Settled.

(** Between calls every used block is settled. *)
Definition all (_ : Z) : Prop := True.

(** ** Geometry of a heap in which a run of blocks becomes one *)

Lemma adj_replace {A} (R : A -> A -> Prop) k1 x run y k2 d :
  last (x :: run) = Some y -> adj R (k1 ++ (x :: run) ++ k2) ->
  (forall q, last k1 = Some q -> R q x -> R q d) -> (forall r, head k2 = Some r -> R y r -> R d r) ->
  adj R (k1 ++ [d] ++ k2).
Proof.
  intros Hlast Ha Hl Hr. apply adj_app in Ha as [H1 H2]. cbn [app]. apply adj_app. split.
  - destruct k1 as [|q k1] using rev_ind; [done|]. rewrite <- app_assoc in *. cbn [app] in *.
    apply adj_join in H1 as (H1 & H3 & _). apply adj_join. split_and!; [done| |done].
    apply Hl; [by rewrite last_snoc|done].
  - apply last_Some in Hlast as [L EL]. destruct k2 as [|r k2]; [done|].
    change (adj R ((x :: run) ++ r :: k2)) in H2.
    rewrite EL, <- app_assoc in H2. change ([y] ++ r :: k2) with (y :: r :: k2) in H2.
    apply adj_join in H2 as (_ & H3 & H4). split; [by apply Hr|done].
Qed.

Definition total (run : list block) : Z := foldr (fun b acc => b_size b + acc) 0 run.

Lemma total_app l1 l2 : total (l1 ++ l2) = total l1 + total l2.
Proof. unfold total. induction l1 as [|b l1 IH]; cbn; [done|]. rewrite IH. lia. Qed.

Lemma region_ok_run acc run k2 :
  Forall (fun b => b_kind b <> End_) run -> run <> [] -> region_ok acc (run ++ k2) ->
  acc + total run < 2 ^ 23 /\ region_ok (acc + total run) k2.
Proof.
  intros HF. revert acc. induction HF as [|b run Hb HF IH]; intros acc Hne; [done|]. cbn [app region_ok].
  rewrite decide_False by done. intros [H1 H2]. cbn [total foldr].
  change (foldr (fun b acc => b_size b + acc) 0 run) with (total run).
  destruct run as [|c run]; [cbn in *; rewrite Z.add_0_r; done|].
  rewrite Z.add_assoc. apply IH; done.
Qed.

Lemma geometry_replace xStart k1 x run y k2 d :
  geometry xStart (k1 ++ (x :: run) ++ k2) -> last (x :: run) = Some y ->
  Forall (fun b => b_kind b <> End_) (x :: run) -> b_kind d <> End_ -> b_size d = total (x :: run) ->
  (forall q, last k1 = Some q -> follows q x -> follows q d) ->
  (forall r, head k2 = Some r -> follows y r -> follows d r) ->
  wf_block d -> (xStart + 8 <= b_addr d \/ b_addr d + extent d <= xStart) ->
  geometry xStart (k1 ++ [d] ++ k2).
Proof.
  intros [Ha Hw Hr (Hs & Hs2 & Hap)] Hlast HF Hd Hsz Hq Hr2 Hwd Hapd. split.
  - by eapply adj_replace.
  - rewrite !Forall_app in *. split_and!; [apply Hw|by constructor|apply Hw].
  - apply region_ok_app in Hr as [H1 H2]. apply region_ok_run in H2 as [H2 H3]; [|done|done].
    apply region_ok_app. split; [done|]. cbn [app region_ok]. rewrite decide_False by done. by rewrite Hsz.
  - rewrite !Forall_app in *. split_and!; [done|done|apply Hap|by constructor|apply Hap].
Qed.

Lemma follows_second q x d :
  b_addr d = b_addr x -> b_tag d = b_tag x -> b_kind x <> End_ -> (b_kind q = Free -> b_kind d = b_kind x) ->
  follows q x -> follows q d.
Proof.
  intros E1 E2 E3 E4 [H1 H2]. split; [lia|]. intros Hq. destruct (H2 Hq) as [H3 H4]. split; [lia|].
  intros _. destruct (H4 E3) as [H5 H6]. split; [congruence|]. intros [F1 F2]. apply H6.
  rewrite <- (E4 F1). done.
Qed.

Lemma follows_first d y r :
  b_addr d + b_size d = b_addr y + b_size y -> b_tag d = b_tag y -> b_kind y <> End_ -> b_kind d <> End_ ->
  (b_kind r = Free -> b_kind d = b_kind y) -> follows y r -> follows d r.
Proof.
  intros E1 E2 E3 E4 E5 [H1 H2]. destruct (H2 E3) as [H3 H4]. split.
  - unfold extent. destruct (b_kind d); try done; lia.
  - intros _. split; [lia|]. intros Hr. destruct (H4 Hr) as [H5 H6]. split; [congruence|].
    intros [F1 F2]. apply H6. rewrite <- (E5 F2). done.
Qed.

(** Two blocks next to each other in one region. *)
Lemma geometry_pair xStart k1 x y k2 :
  geometry xStart (k1 ++ x :: y :: k2) -> b_kind x <> End_ -> b_kind y <> End_ ->
  b_addr y = b_addr x + b_size x /\ b_tag y = b_tag x /\ ~ (b_kind x = Free /\ b_kind y = Free).
Proof.
  intros [Ha _ _ _] Hx Hy. apply adj_join in Ha as (_ & [_ Hf] & _). destruct (Hf Hx) as [H1 H2].
  destruct (H2 Hy). done.
Qed.

Lemma geometry_block xStart k1 x k2 :
  geometry xStart (k1 ++ x :: k2) -> b_kind x <> End_ ->
  0 < b_addr x /\ b_addr x mod 4 = 0 /\ b_addr x + b_size x <= 2 ^ 32 /\ 8 <= b_size x < 2 ^ 23
  /\ b_size x mod 4 = 0 /\ 0 <= b_tag x < 16
  /\ (xStart + 8 <= b_addr x \/ b_addr x + b_size x <= xStart).
Proof.
  intros [_ Hw _ (_ & _ & Hap)] Hx. rewrite Forall_app, Forall_cons in Hw, Hap.
  destruct Hw as (_ & (H1 & H2 & H3 & H4) & _), Hap as (_ & H5 & _). unfold extent in *.
  destruct (b_kind x); try done; tauto.
Qed.

Lemma mod4_add a b : a mod 4 = 0 -> b mod 4 = 0 -> (a + b) mod 4 = 0.
Proof. intros Ha Hb. by rewrite Zplus_mod, Ha, Hb. Qed.

Lemma wf_intro xStart d :
  b_kind d <> End_ -> 0 < b_addr d -> b_addr d mod 4 = 0 -> b_addr d + b_size d <= 2 ^ 32 ->
  8 <= b_size d < 2 ^ 23 -> b_size d mod 4 = 0 -> 0 <= b_tag d < 16 ->
  (xStart + 8 <= b_addr d \/ b_addr d + b_size d <= xStart) ->
  wf_block d /\ (xStart + 8 <= b_addr d \/ b_addr d + extent d <= xStart).
Proof. intros. unfold wf_block, extent. destruct (b_kind d); try done; split_and!; done || lia. Qed.

(** The block [c] stands for a run of blocks that ends with [b]; it takes in
    the free block behind as well. *)
Record stands_for (xStart : Z) (l1 k1 : list block) (b c : block) : Prop := {
  sf_end : b_addr c + b_size c = b_addr b + b_size b;
  sf_tag : b_tag c = b_tag b;
  sf_kind : b_kind c = Free;
  sf_align : b_addr c mod 4 = 0 /\ b_size c mod 4 = 0 /\ 0 < b_addr c;
  sf_size : 8 <= b_size c <= region_acc 0 l1 + b_size b;
  sf_apart : xStart + 8 <= b_addr c \/ b_addr c + b_size c <= xStart;
  sf_run : exists x run, l1 ++ [b] = k1 ++ (x :: run) /\ last (x :: run) = Some b
     /\ Forall (fun b => b_kind b <> End_) (x :: run) /\ total (x :: run) = b_size c /\ b_addr x = b_addr c
     /\ (forall q, last k1 = Some q -> follows q x -> follows q c)
}.

Lemma geometry_absorb_right xStart l1 k1 b c l2 :
  geometry xStart (l1 ++ b :: l2) -> b_kind b = Used -> stands_for xStart l1 k1 b c ->
  geometry xStart (let '(d, k2) := absorb_right c l2 in k1 ++ [d] ++ k2).
Proof.
  intros Hg Hkb [C1 C2 C3 (C4 & C5 & C6) C7 C9 (x & run & E & Hlast & HF & Ht & Hax & Hq)].
  destruct (region_bounds _ _ _ _ Hg Hkb) as (R1 & R2 & R3).
  pose proof (geometry_block _ _ _ _ Hg ltac:(congruence)) as (B1 & B2 & B3 & B4 & B5 & B6 & B7).
  assert (Hg2 : geometry xStart (k1 ++ (x :: run) ++ l2)).
  { rewrite app_assoc, <- E, <- app_assoc. exact Hg. }
  assert (Hplain : (forall r, head l2 = Some r -> b_kind r <> Free) -> geometry xStart (k1 ++ [c] ++ l2)).
  { intros Hh. destruct (wf_intro xStart c) as [W1 W2]; try done; try lia; [congruence|].
    apply (geometry_replace _ _ x run b l2 c); try done; [congruence|]. intros r Hr.
    apply follows_first; try congruence. intros Hrk. by destruct (Hh r Hr). }
  destruct l2 as [|n k2]; [by apply Hplain|]. cbn [absorb_right].
  destruct (decide (b_kind n = Free)) as [Hn|Hn]; [|apply Hplain; by intros r [= <-]].
  destruct (geometry_pair _ _ _ _ _ Hg ltac:(congruence) ltac:(congruence)) as (N1 & N2 & _).
  rewrite (cons_middle b l1), app_assoc in Hg.
  pose proof (geometry_block _ _ _ _ Hg ltac:(congruence)) as (P1 & P2 & P3 & P4 & P5 & P6 & P7).
  specialize (R3 n k2 eq_refl Hn).
  destruct (wf_intro xStart (resize c (b_size c + b_size n))) as [W1 W2];
    cbn [resize b_addr b_size b_tag b_kind]; try done; try lia; [congruence|by apply mod4_add|].
  assert (El : (x :: run) ++ n :: k2 = (x :: (run ++ [n])) ++ k2) by (cbn; by rewrite <- app_assoc).
  rewrite El in Hg2. apply (geometry_replace _ _ x (run ++ [n]) n k2); try done.
  - by rewrite app_comm_cons, last_snoc.
  - rewrite app_comm_cons. apply Forall_app. split; [done|]. constructor; [congruence|done].
  - cbn. congruence.
  - cbn [resize b_size]. rewrite <- Ht, app_comm_cons, total_app. cbn. lia.
  - intros r Hr. apply follows_first; cbn [resize b_addr b_size b_tag b_kind]; congruence || lia.
Qed.

(** The free block that replaces [b] and its free neighbours. *)
Lemma geometry_coalesce xStart l1 b l2 :
  geometry xStart (l1 ++ b :: l2) -> b_kind b = Used -> geometry xStart (coalesce l1 b l2).
Proof.
  intros Hg Hkb. pose proof (geometry_block _ _ _ _ Hg ltac:(congruence)) as (B1 & B2 & B3 & B4 & B5 & B6 & B7).
  assert (Hacc : 0 <= region_acc 0 l1).
  { apply region_acc_nonneg; [done|]. destruct Hg as [_ Hw _ _]. by apply Forall_app in Hw as [? _]. }
  assert (Hnew : (forall q, last l1 = Some q -> b_kind q <> Free) -> stands_for xStart l1 l1 b (set_kind b Free)).
  { intros Hq. split; cbn [set_kind b_addr b_size b_tag b_kind]; try done; try lia.
    exists b, []. split_and!; [done|done|repeat constructor; congruence|cbn; lia|done|].
    intros q Hl. apply follows_second; cbn; try congruence. intros Hk. by destruct (Hq q Hl). }
  unfold coalesce, absorb_left. destruct (last l1) as [p|] eqn:El; [|by apply (geometry_absorb_right _ l1 l1 b); [..|apply Hnew]].
  destruct (decide (b_kind p = Free)) as [Hp|Hp];
    [|by apply (geometry_absorb_right _ l1 l1 b); [..|apply Hnew; intros q [= <-]]].
  apply last_Some in El as [k1 ->]. rewrite removelast_last.
  assert (Hg2 := Hg). rewrite <- app_assoc in Hg2. cbn [app] in Hg2.
  destruct (geometry_pair _ _ _ _ _ Hg2 ltac:(congruence) ltac:(congruence)) as (N1 & N2 & _).
  pose proof (geometry_block _ _ _ _ Hg2 ltac:(congruence)) as (P1 & P2 & P3 & P4 & P5 & P6 & P7).
  assert (Hacc2 : 0 <= region_acc 0 k1).
  { apply region_acc_nonneg; [done|]. destruct Hg2 as [_ Hw _ _]. by apply Forall_app in Hw as [? _]. }
  apply (geometry_absorb_right _ (k1 ++ [p]) k1 b); [done|done|].
  split; cbn [resize b_addr b_size b_tag b_kind]; try done; try lia.
  - split_and!; [done|by apply mod4_add|lia].
  - rewrite region_acc_snoc, decide_False by congruence. lia.
  - exists p, [b]. split_and!; [by rewrite <- app_assoc|done|repeat constructor; congruence|cbn; lia|done|].
    intros q _. apply follows_second; cbn; congruence.
Qed.

(** ** The invariant of the heap *)

Record heap_inv (xStart : Z) (h : heap) (bl : list block) : Prop := {
  hi_links : links all xStart (mem h) bl;
  hi_geo : geometry xStart bl;
  hi_end : exists e, last bl = Some e /\ b_kind e = End_ /\ b_addr e = pxEnd h;
  hi_bytes : length (xFreeBytesRemaining h) = 16%nat
    /\ forall t, 0 <= t < 16 -> at_ 0 (xFreeBytesRemaining h) t = free_sum t bl;
  hi_min : length (xMinimumEverFreeBytesRemaining h) = 16%nat
    /\ forall t, 0 <= t < 16 ->
         at_ 0 (xMinimumEverFreeBytesRemaining h) t <= at_ 0 (xFreeBytesRemaining h) t
}.

(** The blocks determine the counters. *)
Lemma bytes_determined xStart h h' bl :
  heap_inv xStart h bl -> heap_inv xStart h' bl -> xFreeBytesRemaining h' = xFreeBytesRemaining h.
Proof.
  intros [_ _ _ [L Hb] _] [_ _ _ [L' Hb'] _]. apply (at_ext 0); [lia|]. intros t Ht. rewrite L' in Ht.
  by rewrite Hb', Hb by lia.
Qed.

Lemma free_sum_range xStart bl t : geometry xStart bl -> 0 <= free_sum t bl < 2 ^ 32.
Proof.
  intros [Ha Hw _ _]. destruct bl as [|b bl]; [cbn; lia|]. pose proof (free_sum_bound t bl b Ha Hw).
  apply Forall_cons in Hw as [[? _] _]. lia.
Qed.

Lemma free_sum_cons t b l : free_sum t (b :: l) = free_of t b + free_sum t l.
Proof. done. Qed.

Lemma free_of_free t b : b_kind b = Free -> free_of t b = if b_tag b =? t then b_size b else 0.
Proof. intros E. unfold free_of. by rewrite E. Qed.

Lemma free_of_other t b : b_kind b <> Free -> free_of t b = 0.
Proof. intros E. unfold free_of. by destruct (b_kind b). Qed.

Lemma absorb_right_sum t c l2 :
  b_kind c = Free -> (forall n k2, l2 = n :: k2 -> b_kind n = Free -> b_tag n = b_tag c) ->
  (let '(d, k2) := absorb_right c l2 in free_sum t ([d] ++ k2)) = free_of t c + free_sum t l2.
Proof.
  intros Hc Hn. destruct l2 as [|n k2]; [done|]. cbn [absorb_right].
  destruct (decide (b_kind n = Free)) as [E|E]; [|done]. specialize (Hn n k2 eq_refl E).
  cbn [app]. rewrite !free_sum_cons, !free_of_free by done. cbn [resize b_tag b_size]. rewrite Hn.
  case_test; lia.
Qed.

(** Freeing a block adds its size to the free bytes of its tag. *)
Lemma free_sum_coalesce xStart l1 b l2 t :
  geometry xStart (l1 ++ b :: l2) -> b_kind b = Used ->
  free_sum t (coalesce l1 b l2) = free_sum t (l1 ++ b :: l2) + (if b_tag b =? t then b_size b else 0).
Proof.
  intros Hg Hkb. rewrite free_sum_app, free_sum_cons, (free_of_other t b) by congruence.
  assert (Hn : forall n k2, l2 = n :: k2 -> b_kind n = Free -> b_tag n = b_tag b).
  { intros n k2 -> Hn. by destruct (geometry_pair _ _ _ _ _ Hg ltac:(congruence) ltac:(congruence)) as (_ & ? & _). }
  unfold coalesce, absorb_left.
  assert (Hnew : free_sum t (let '(d, k2) := absorb_right (set_kind b Free) l2 in l1 ++ [d] ++ k2)
    = free_sum t l1 + (0 + free_sum t l2) + (if b_tag b =? t then b_size b else 0)).
  { pose proof (absorb_right_sum t (set_kind b Free) l2 eq_refl Hn) as H.
    destruct (absorb_right _ l2) as [d k2]. rewrite free_sum_app, H. rewrite free_of_free by done.
    cbn [set_kind b_tag b_size]. lia. }
  destruct (last l1) as [p|] eqn:El; [|done]. destruct (decide (b_kind p = Free)) as [Hp|Hp]; [|done].
  apply last_Some in El as [k1 ->]. rewrite removelast_last.
  assert (Hg2 := Hg). rewrite <- app_assoc in Hg2. cbn [app] in Hg2.
  destruct (geometry_pair _ _ _ _ _ Hg2 ltac:(congruence) ltac:(congruence)) as (_ & N2 & _).
  assert (Hn' : forall n k2, l2 = n :: k2 -> b_kind n = Free -> b_tag n = b_tag (resize p (b_size p + b_size b))).
  { intros n k2 E Hk. cbn. rewrite <- N2. eauto. }
  pose proof (absorb_right_sum t (resize p (b_size p + b_size b)) l2 Hp Hn') as H.
  destruct (absorb_right (resize p (b_size p + b_size b)) l2) as [d k2]. rewrite free_sum_app, H, free_sum_app.
  rewrite free_sum_cons, !free_of_free by done. cbn [resize b_tag b_size]. rewrite N2.
  change (free_sum t []) with 0. case_test; lia.
Qed.

Lemma last_coalesce xStart l1 b l2 e :
  geometry xStart (l1 ++ b :: l2) -> b_kind b = Used -> last (l1 ++ b :: l2) = Some e -> b_kind e = End_ ->
  last (coalesce l1 b l2) = Some e.
Proof.
  intros _ Hkb Hlast He. assert (H2 : forall L d, last (L ++ [d] ++ l2) = Some e \/ l2 = []).
  { intros L d. destruct l2 as [|n k2] using rev_ind; [by right|left].
    rewrite app_comm_cons, app_assoc, last_snoc in Hlast. by rewrite !app_assoc, last_snoc. }
  unfold coalesce. destruct (absorb_left l1 b) as [k1 c].
  destruct l2 as [|n k2]; [rewrite last_snoc in Hlast; injection Hlast as <-; congruence|].
  cbn [absorb_right]. destruct (decide (b_kind n = Free)) as [Hn|Hn].
  - destruct k2 as [|r k2].
    + rewrite cons_middle, app_assoc, last_snoc in Hlast. injection Hlast as <-. congruence.
    + replace (l1 ++ b :: n :: r :: k2) with ((l1 ++ [b; n]) ++ r :: k2) in Hlast by (by rewrite <- app_assoc).
      rewrite !last_app in *. cbn [last] in *. rewrite last_cons in *. by destruct (last k2).
  - by destruct (H2 k1 c) as [?|?].
Qed.

(** ** Freeing *)

(** [xArr[tag] = v], at the other tags and at this one. *)
Lemma at_counter l i v t :
  length l = 16%nat -> 0 <= i < 16 -> 0 <= t < 16 ->
  at_ 0 (<[Z.to_nat i := v]> l) t = if i =? t then v else at_ 0 l t.
Proof.
  intros Hl Hi Ht. destruct (Z.eqb_spec i t) as [->|E].
  - apply at_insert_eq. lia.
  - apply at_insert_ne; lia.
Qed.

Lemma used_room xStart l1 b l2 e :
  geometry xStart (l1 ++ b :: l2) -> b_kind b = Used -> last (l1 ++ b :: l2) = Some e -> b_kind e = End_ ->
  b_addr b + b_size b < 2 ^ 32.
Proof.
  intros [Ha Hw _ _] Hk Hlast He. destruct l2 as [|n k2].
  { rewrite last_snoc in Hlast. injection Hlast as <-. congruence. }
  apply adj_join in Ha as (_ & [_ Hf] & _). destruct Hf as [Hf _]; [by rewrite Hk|].
  rewrite Forall_app, !Forall_cons in Hw. destruct Hw as (_ & _ & Hn & _).
  pose proof (extent_ge n Hn). destruct Hn as (_ & _ & Hn & _). lia.
Qed.

Lemma free_spec xStart fuel h l1 b l2 :
  heap_inv xStart h (l1 ++ b :: l2) -> b_kind b = Used -> (length l1 <= fuel)%nat ->
  wp (vPortFreeTagged xStart fuel (b_addr b + uxHeapStructSize)) (fun _ h' =>
    heap_inv xStart h' (coalesce l1 b l2)
    /\ untouched (headers xStart (l1 ++ b :: l2)) (mem h) (mem h')) h.
Proof.
  intros [Hl Hg (e & Hlast & He & Hpe) [Lb Hb] [Lm Hm]] Hkb Hfu.
  pose proof (geometry_block _ _ _ _ Hg ltac:(congruence)) as (B1 & B2 & B3 & B4 & B5 & B6 & B7).
  pose proof (used_room _ _ _ _ _ Hg Hkb Hlast He) as B8. pose proof (geometry_sep _ _ Hg) as HS.
  set (H := headers xStart (l1 ++ b :: l2)) in *.
  assert (HbH : b_addr b ∈ H) by (apply headers_middle; left).
  assert (Hsub : forall q, q ∈ headers xStart (l1 ++ l2) -> q ∈ H) by (intros q Hq; apply headers_middle; by right).
  assert (Hbn : b_addr b ∉ headers xStart (l1 ++ l2)).
  { pose proof (nodup_middle _ _ _ _ (geometry_NoDup _ _ Hg)) as HN. by apply NoDup_cons in HN as [? _]. }
  assert (Hhb : hdr all (mem h) b).
  { destruct Hl as [Hh _ _]. rewrite Forall_app, Forall_cons in Hh. tauto. }
  destruct Hhb as [[F1 F2] Hu]. destruct (Hu Hkb I) as [Hal Hnx].
  unfold vPortFreeTagged. rewrite (proj2 (Z.eqb_neq _ _)) by (unfold uxHeapStructSize; lia). cbn [negb].
  rewrite u32_small by (unfold uxHeapStructSize; lia).
  replace (b_addr b + uxHeapStructSize - uxHeapStructSize) with (b_addr b) by lia.
  apply wp_bind. wp_field. apply wp_bind, wp_check; [by rewrite (proj2 (Z.eqb_neq _ _) Hal)|].
  apply wp_bind. wp_field. apply wp_bind, wp_check; [by rewrite Hnx|].
  apply wp_bind. wp_field. apply wp_bind. wp_field. apply wp_bind. wp_field.
  rewrite fld_set_fld, Z.eqb_refl. autorewrite with fields. rewrite F1, F2.
  do 2 wp_step. cbn [xFreeBytesRemaining with_mem]. apply wp_bind. wp_arr. apply wp_bind. wp_arr. do 2 wp_step.
  rewrite Hb by lia.
  assert (Hsum := free_sum_coalesce xStart l1 b l2). pose proof (geometry_coalesce _ _ _ _ Hg Hkb) as Hg'.
  eapply wp_mono.
  { apply (insert_spec all xStart fuel _ l1 b l2 e); try done.
    - cbn [mem with_bytes with_mem]. apply (links_set_fld all xStart H); try done. by eapply links_drop_used.
    - unfold fields. cbn [mem with_bytes with_mem]. rewrite fld_set_fld, Z.eqb_refl. by autorewrite with fields. }
  cbn beta. intros _ h' (m' & -> & Hu' & HL). cbn [mem with_mem with_bytes] in *. split.
  - split; cbn [mem pxEnd xFreeBytesRemaining xMinimumEverFreeBytesRemaining with_mem with_bytes].
    + exact HL.
    + exact Hg'.
    + exists e. split_and!; [by eapply last_coalesce|done|done].
    + split; [by rewrite length_insert|]. intros t Ht. rewrite at_counter by (done || lia).
      rewrite (Hsum t Hg Hkb), Hb by lia. pose proof (free_sum_range _ _ t Hg'). rewrite (Hsum t Hg Hkb) in *.
      destruct (Z.eqb_spec (b_tag b) t) as [->|E]; [by apply u32_small|lia].
    + split; [done|]. intros t Ht. rewrite at_counter by (done || lia). specialize (Hm t Ht).
      rewrite Hb in Hm by lia. pose proof (free_sum_range _ _ t Hg') as Hr. rewrite (Hsum t Hg Hkb) in Hr.
      destruct (Z.eqb_spec (b_tag b) t) as [->|E]; [rewrite u32_small by lia; lia|by rewrite Hb].
  - eapply untouched_trans; [|exact Hu']. by apply untouched_set_fld.
Qed.

(** ** Allocating *)

(** A free block that can serve a request. *)
Definition fits (tag want : Z) (b : block) : Prop :=
  b_kind b = Free /\ b_tag b = tag /\ want <= b_size b.

(** A block taken for a request: what is left over stays free when it is
    more than two headers. *)
Definition carve (x : block) (want : Z) : list block :=
  if heapMINIMUM_BLOCK_SIZE <? b_size x - want
  then [Block (b_addr x) want (b_tag x) Used; Block (b_addr x + want) (b_size x - want) (b_tag x) Free]
  else [set_kind x Used].

Lemma filter_cut {A} (P : A -> Prop) `{forall x, Decision (P x)} (l r1 : list A) x r2 :
  filter P l = r1 ++ x :: r2 ->
  exists l1 l2, l = l1 ++ x :: l2 /\ filter P l1 = r1 /\ filter P l2 = r2.
Proof.
  revert r1. induction l as [|a l IH]; intros r1; [by destruct r1|].
  rewrite filter_cons. destruct (decide (P a)) as [Ha|Ha].
  - destruct r1 as [|b r1]; cbn; intros [= -> E].
    + exists [], l. done.
    + destruct (IH r1 E) as (l1 & l2 & -> & <- & <-). exists (b :: l1), l2.
      by rewrite filter_cons_True.
  - intros E. destruct (IH r1 E) as (l1 & l2 & -> & <- & <-). exists (a :: l1), l2.
    by rewrite filter_cons_False.
Qed.

Lemma find_block_spec want tag h b rest p fuel :
  Forall (fields (mem h)) (b :: rest) -> adj (nxt (mem h)) ((b_addr <$> b :: rest) ++ [0]) ->
  Forall (fun b => 0 < b_addr b /\ 0 <= b_size b < 2 ^ 32) (b :: rest) -> (length rest <= fuel)%nat ->
  wp (find_block fuel want tag p (b_addr b)) (fun r h' => h' = h /\ exists r1 x r2,
    b :: rest = r1 ++ x :: r2 /\ r = (default p (last (b_addr <$> r1)), b_addr x)
    /\ Forall (fun b => ~ (b_tag b = tag /\ want <= b_size b)) r1
    /\ ((b_tag x = tag /\ want <= b_size x) \/ r2 = [])) h.
Proof.
  revert b p fuel. induction rest as [|c rest IH]; intros b p fuel HF Ha Hp Hfu;
    apply Forall_cons in HF as [[F1 F2] HF]; apply Forall_cons in Hp as [[P1 P2] Hp];
    destruct Ha as [Ha Ha2]; unfold nxt in Ha.
  - destruct fuel; cbn [find_block]; (apply wp_bind; wp_field; apply wp_bind; wp_field; apply wp_bind; wp_field);
      cbn in Ha; rewrite Ha, andb_false_r; wp_steps; (split; [done|]); exists [], b, []; (split_and!; [done|done|constructor|by right]).
  - cbn [fmap list_fmap app] in Ha. assert (Hc : 0 < b_addr c) by (by apply Forall_cons in Hp as [[? _] _]).
    assert (Hno : forall r, (r = ((negb (b_tag b =? tag) || (b_size b <? want)) && negb (b_addr c =? 0))) ->
      if r then ~ (b_tag b = tag /\ want <= b_size b) else b_tag b = tag /\ want <= b_size b).
    { intros r ->. rewrite (proj2 (Z.eqb_neq (b_addr c) 0)) by lia. cbn [negb]. rewrite andb_true_r.
      destruct (Z.eqb_spec (b_tag b) tag), (Z.ltb_spec (b_size b) want); cbn; lia. }
    destruct fuel as [|fuel]; [cbn in Hfu; lia|]. cbn [find_block].
    apply wp_bind. wp_field. apply wp_bind. wp_field. apply wp_bind. wp_field.
    rewrite F1, F2, Ha, u32_small by lia. specialize (Hno _ eq_refl). destruct (_ && _) eqn:Et.
    + eapply wp_mono; [apply (IH c (b_addr b) fuel HF Ha2 Hp); cbn in Hfu; lia|]. cbn beta.
      intros r h' (-> & r1 & x & r2 & E & -> & HN & HX). split; [done|]. exists (b :: r1), x, r2.
      split_and!; [by rewrite E| |by constructor|done]. f_equal. rewrite fmap_cons, last_cons.
      by destruct (last (b_addr <$> r1)).
    + wp_steps. split; [done|]. exists [], b, (c :: rest). split_and!; [done|done|constructor|by left].
Qed.

Lemma wanted_size_spec n :
  0 < n <= 2 ^ 32 - 12 ->
  n + 8 <= wanted_size n <= n + 11 /\ wanted_size n mod 4 = 0 /\ wanted_size n < 2 ^ 32.
Proof.
  intros Hn. unfold wanted_size. rewrite (proj2 (Z.ltb_lt 0 n)) by lia.
  unfold uxHeapStructSize, portBYTE_ALIGNMENT, portBYTE_ALIGNMENT_MASK. rewrite u32_small by lia.
  change 3 with (Z.ones 2). rewrite Z.land_ones by lia. change (2 ^ 2) with 4.
  pose proof (Z.mod_pos_bound (n + 8) 4 ltac:(lia)). pose proof (Z.div_mod (n + 8) 4 ltac:(lia)) as D.
  destruct (Z.eqb_spec ((n + 8) mod 4) 0) as [E|E]; cbn [negb]; [lia|].
  assert (Em : n + 8 + (4 - (n + 8) mod 4) = ((n + 8) / 4 + 1) * 4) by lia.
  assert (n + 8 + (4 - (n + 8) mod 4) < 2 ^ 32) by lia.
  rewrite u32_small by lia. split_and!; [lia|lia| |lia]. rewrite Em. apply Z.mod_mul. lia.
Qed.

Lemma follows_to_used q x d :
  b_addr d = b_addr x -> b_tag d = b_tag x -> b_kind x <> End_ -> b_kind d = Used -> follows q x -> follows q d.
Proof.
  intros E1 E2 E3 E4 [H1 H2]. split; [lia|]. intros Hq. destruct (H2 Hq) as [H3 H4]. split; [lia|].
  intros _. destruct (H4 E3) as [H5 H6]. split; [congruence|]. intros [_ ?]. congruence.
Qed.

Lemma follows_from_used d y r :
  b_addr d + b_size d = b_addr y + b_size y -> b_tag d = b_tag y -> b_kind y <> End_ -> b_kind d = Used ->
  follows y r -> follows d r.
Proof.
  intros E1 E2 E3 E4 [H1 H2]. destruct (H2 E3) as [H3 H4]. split.
  - unfold extent. rewrite E4. lia.
  - intros _. split; [lia|]. intros Hr. destruct (H4 Hr) as [H5 H6]. split; [congruence|].
    intros [? _]. congruence.
Qed.

(** A block taken as it is. *)
Lemma geometry_take xStart l1 x l2 :
  geometry xStart (l1 ++ x :: l2) -> b_kind x = Free -> geometry xStart (l1 ++ set_kind x Used :: l2).
Proof.
  intros Hg Hk. pose proof (geometry_block _ _ _ _ Hg ltac:(congruence)) as (B1 & B2 & B3 & B4 & B5 & B6 & B7).
  destruct (wf_intro xStart (set_kind x Used)) as [W1 W2]; try done.
  apply (geometry_replace xStart l1 x [] x l2 (set_kind x Used)); try done.
  - constructor; [congruence|done].
  - cbn. lia.
  - intros q _. apply follows_to_used; cbn; congruence.
  - intros r _. apply follows_from_used; cbn; congruence.
Qed.

(** A block cut in two. *)
Lemma geometry_cut xStart l1 x l2 want :
  geometry xStart (l1 ++ x :: l2) -> b_kind x = Free -> 8 <= want -> want mod 4 = 0 -> want + 8 <= b_size x ->
  geometry xStart (l1 ++ Block (b_addr x) want (b_tag x) Used
                      :: Block (b_addr x + want) (b_size x - want) (b_tag x) Used :: l2).
Proof.
  intros Hg Hk Hw Hw4 Hfit. pose proof (geometry_block _ _ _ _ Hg ltac:(congruence)) as (B1 & B2 & B3 & B4 & B5 & B6 & B7).
  set (u := Block (b_addr x) want (b_tag x) Used). set (f := Block (b_addr x + want) (b_size x - want) (b_tag x) Used).
  assert (Hm : (b_size x - want) mod 4 = 0).
  { apply Z.mod_divide in B5 as [i Hi], Hw4 as [j Hj]; try lia. apply Z.mod_divide; [lia|]. exists (i - j). lia. }
  destruct (wf_intro xStart u) as [U1 U2]; cbn; try done; try lia.
  destruct (wf_intro xStart f) as [F1 F2]; cbn; try done; try lia; [by apply mod4_add|].
  destruct Hg as [Ha Hwf Hr (Hs & Hs2 & Hap)]. split.
  - apply adj_app in Ha as [Ha1 Ha2]. apply adj_join. split_and!.
    + apply (adj_replace follows l1 x [] x [] u); [done|done| |done].
      intros q _. apply follows_to_used; cbn; congruence.
    + split; [cbn; lia|]. intros _. split; [done|]. intros _. split; [done|]. by intros [? _].
    + apply (adj_replace follows [] x [] x l2 f); [done|done|done|].
      intros r _. apply follows_from_used; cbn; congruence || lia.
  - rewrite Forall_app, Forall_cons in Hwf. rewrite Forall_app, !Forall_cons. tauto.
  - apply region_ok_app in Hr as [R1 R2]. apply region_ok_app. split; [done|].
    cbn [region_ok] in *. rewrite decide_False in R2 by congruence. rewrite !decide_False by done.
    cbn [b_size u f]. destruct R2 as [R2 R3]. split_and!; [lia|lia|].
    replace (region_acc 0 l1 + want + (b_size x - want)) with (region_acc 0 l1 + b_size x) by lia. done.
  - rewrite Forall_app, Forall_cons in Hap. split; [done|]. split; [done|]. rewrite Forall_app, !Forall_cons. tauto.
Qed.

(** Cutting [x] and freeing the second part gives [carve]. *)
Lemma coalesce_cut xStart l1 x l2 want :
  geometry xStart (l1 ++ x :: l2) -> b_kind x = Free -> heapMINIMUM_BLOCK_SIZE < b_size x - want ->
  coalesce (l1 ++ [Block (b_addr x) want (b_tag x) Used])
    (Block (b_addr x + want) (b_size x - want) (b_tag x) Used) l2 = l1 ++ carve x want ++ l2.
Proof.
  intros Hg Hk Hlt. unfold coalesce, absorb_left, carve. rewrite last_snoc, decide_False by done.
  rewrite (proj2 (Z.ltb_lt _ _) Hlt). unfold set_kind. cbn [b_addr b_size b_tag].
  assert (E : absorb_right (Block (b_addr x + want) (b_size x - want) (b_tag x) Free) l2
    = (Block (b_addr x + want) (b_size x - want) (b_tag x) Free, l2)).
  { destruct l2 as [|n k2]; [done|]. cbn [absorb_right]. rewrite decide_False; [done|]. intros Hn.
    destruct (geometry_pair _ _ _ _ _ Hg ltac:(congruence) ltac:(congruence)) as (_ & _ & []). done. }
  cbn iota. rewrite E. by rewrite <- app_assoc.
Qed.

(** The block is marked as used. *)
Lemma links_settle S xStart H m l1 u k2 :
  Sep H -> NoDup (b_addr u :: headers xStart (l1 ++ k2)) ->
  (forall q, q ∈ b_addr u :: headers xStart (l1 ++ k2) -> q ∈ H) ->
  (forall a, a <> b_addr u -> S a) -> b_kind u = Used -> fields m u -> links S xStart m (l1 ++ k2) ->
  links all xStart (set_nx (set_fld m (b_addr u) (put_alloc (fld m (b_addr u)) 1)) (b_addr u) 0) (l1 ++ [u] ++ k2).
Proof.
  intros HS HN Hin Hset Hk Hf Hl. pose proof HN as [Hu HN2]%NoDup_cons.
  assert (HuH : b_addr u ∈ H) by (apply Hin; left).
  assert (Hl2 : links all xStart m (l1 ++ k2)).
  { destruct Hl as [Hh ? ?]. split; [|done|done]. rewrite Forall_forall in *. intros x Hx.
    destruct (Hh x Hx) as [F U]. split; [done|]. intros Hux _. apply U; [done|]. apply Hset.
    intros E. apply Hu. rewrite <- E. right. apply list_elem_of_fmap. eauto. }
  assert (Hsub : forall q, q ∈ headers xStart (l1 ++ k2) -> q ∈ H) by (intros q Hq; apply Hin; by right).
  set (m1 := set_fld m (b_addr u) (put_alloc (fld m (b_addr u)) 1)).
  assert (Hl3 : links all xStart (set_nx m1 (b_addr u) 0) (l1 ++ [] ++ k2)).
  { apply (links_set_nx all xStart H); try done. by apply (links_set_fld all xStart H). }
  apply (splice all xStart (set_nx m1 (b_addr u) 0) _ l1 []); try done.
  - constructor; [|done]. unfold hdr, fields. rewrite (fld_set_nx H HS) by done. unfold m1.
    rewrite fld_set_fld, Z.eqb_refl. autorewrite with fields. split; [exact Hf|]. intros _ _.
    split; [done|]. by rewrite nx_set_nx, Z.eqb_refl.
  - rewrite nodes_used by done. by apply (links_mid all xStart _ l1 [] k2).
Qed.

(** The memory after the block has been cut. *)
Record cut_done (xStart : Z) (H : list Z) (h : heap) (m' : memory) (l1 : list block) (u : block)
    (k2 : list block) : Prop := {
  cd_links : links (fun a => a <> b_addr u) xStart m' (l1 ++ k2);
  cd_fields : fields m' u;
  cd_untouched : untouched H (mem h) m'
}.

Lemma links_weaken S xStart m bl : links all xStart m bl -> links S xStart m bl.
Proof.
  intros [Hh ? ?]. split; [|done|done]. eapply Forall_impl; [exact Hh|].
  intros b [F U]. split; [done|]. intros Hk _. by apply U.
Qed.

(** Taking [x] out of the list. *)
Lemma unlink xStart h l1 x l2 :
  geometry xStart (l1 ++ x :: l2) -> b_kind x = Free -> links all xStart (mem h) (l1 ++ x :: l2) ->
  nx (mem h) (before xStart l1) = b_addr x /\ nx (mem h) (b_addr x) = behind l2
  /\ links all xStart (set_nx (mem h) (before xStart l1) (behind l2)) (l1 ++ l2)
  /\ fields (set_nx (mem h) (before xStart l1) (behind l2)) x.
Proof.
  intros Hg Hk Hl. pose proof (geometry_sep _ _ Hg) as HS.
  pose proof (nodup_middle _ _ _ _ (geometry_NoDup _ _ Hg)) as [Hx HN]%NoDup_cons.
  pose proof (links_mid all xStart (mem h) l1 [x] l2 Hl) as Hm. rewrite nodes_free in Hm by done. cbn in Hm.
  destruct Hm as (M1 & M2 & _). unfold nxt in M1, M2.
  assert (Hsub : forall q, q ∈ headers xStart (l1 ++ l2) -> q ∈ headers xStart (l1 ++ x :: l2)).
  { intros q Hq. apply headers_middle. by right. }
  assert (Hb : before xStart l1 ∈ headers xStart (l1 ++ x :: l2)) by (apply Hsub, before_header).
  assert (HxH : b_addr x ∈ headers xStart (l1 ++ x :: l2)) by (apply headers_middle; left).
  split_and!; [done|done| |].
  - apply (splice all xStart (mem h) _ l1 [x] [] l2); [done|done| |done|].
    + intros q Hq. split; [by apply (fld_set_nx _ HS); [|auto]|]. intros Hne.
      by rewrite nx_set_nx, (proj2 (Z.eqb_neq _ _) Hne).
    + cbn. unfold nxt. by rewrite nx_set_nx, Z.eqb_refl.
  - unfold fields. rewrite (fld_set_nx _ HS) by done. destruct Hl as [Hh _ _].
    rewrite Forall_app, Forall_cons in Hh. apply Hh.
Qed.

(** The headers of the two parts of a cut block are written. *)
Lemma write_parts xStart m l1 x l2 want :
  geometry xStart (l1 ++ x :: l2) -> b_kind x = Free -> 8 <= want -> want mod 4 = 0 -> want + 8 <= b_size x ->
  links all xStart m (l1 ++ l2) -> fields m x ->
  let u := Block (b_addr x) want (b_tag x) Used in
  let f := Block (b_addr x + want) (b_size x - want) (b_tag x) Used in
  let H := headers xStart ((l1 ++ [u]) ++ f :: l2) in
  let m1 := set_fld m (b_addr f) (put_size (fld m (b_addr f)) (b_size x - want)) in
  let m2 := set_fld m1 (b_addr f) (put_tag (fld m1 (b_addr f)) (b_tag x)) in
  let m3 := set_fld m2 (b_addr x) (put_size (fld m2 (b_addr x)) want) in
  fields m3 f /\ fields m3 u /\ untouched H m m3
  /\ links (fun a => a <> b_addr x) xStart m3 ((l1 ++ [u]) ++ l2).
Proof.
  intros Hg Hk Hw Hw4 Hfit Hl [F1 F2] u f H m1 m2 m3.
  pose proof (geometry_cut _ _ _ _ _ Hg Hk Hw Hw4 Hfit) as Hgc. fold u f in Hgc.
  replace (l1 ++ u :: f :: l2) with ((l1 ++ [u]) ++ f :: l2) in Hgc by (by rewrite <- app_assoc).
  pose proof (geometry_block _ _ _ _ Hg ltac:(congruence)) as (B1 & B2 & B3 & B4 & B5 & B6 & B7).
  pose proof (geometry_sep _ _ Hgc) as HS. fold H in HS.
  pose proof (nodup_middle _ _ _ _ (geometry_NoDup _ _ Hgc)) as [Hf HN]%NoDup_cons.
  rewrite <- app_assoc in Hf, HN. cbn [app] in Hf, HN.
  assert (HfH : b_addr f ∈ H) by (apply headers_middle; left).
  assert (Hsub : forall q, q ∈ headers xStart (l1 ++ u :: l2) -> q ∈ H).
  { intros q Hq. apply headers_middle. right. by rewrite <- app_assoc. }
  assert (HxH : b_addr x ∈ H) by (apply Hsub, headers_middle; left).
  pose proof (nodup_middle _ _ _ _ HN) as [Hx HN2]%NoDup_cons.
  assert (Hsub2 : forall q, q ∈ headers xStart (l1 ++ l2) -> q ∈ headers xStart (l1 ++ u :: l2)).
  { intros q Hq. apply headers_middle. by right. }
  assert (Hxf : (b_addr x =? b_addr f) = false) by (apply Z.eqb_neq; cbn; lia).
  assert (Hfx : (b_addr f =? b_addr x) = false) by (apply Z.eqb_neq; cbn; lia).
  assert (Ff : fields m3 f).
  { unfold fields, m3, m2, m1. rewrite !fld_set_fld, Hfx, Z.eqb_refl. autorewrite with fields.
    cbn [f b_size b_tag]. split; apply to_signed_small; lia. }
  assert (Fu : fields m3 u).
  { unfold fields, m3. cbn [u b_addr]. rewrite fld_set_fld, Z.eqb_refl. unfold m2, m1. rewrite !fld_set_fld, Hxf.
    autorewrite with fields. cbn [u b_size b_tag]. split; [apply to_signed_small; lia|done]. }
  split_and!; [done|done| |].
  - repeat apply untouched_set_fld; done.
  - assert (Hfn : b_addr f ∉ headers xStart (l1 ++ l2)) by auto.
    assert (HL : links all xStart m3 (l1 ++ [] ++ l2)).
    { apply (links_set_fld all xStart H); auto. apply (links_set_fld all xStart H); auto.
      apply (links_set_fld all xStart H); auto. }
    apply (links_weaken (fun a => a <> b_addr x)) in HL. rewrite <- app_assoc.
    apply (splice (fun a => a <> b_addr x) xStart m3 m3 l1 []); try done.
    + constructor; [|done]. split; [done|]. intros _ Hne. by destruct Hne.
    + rewrite nodes_used by done. by apply (links_mid (fun a => a <> b_addr x) xStart m3 l1 [] l2).
Qed.

Lemma cut_spec xStart fuel h l1 x l2 e want :
  links all xStart (mem h) (l1 ++ x :: l2) -> geometry xStart (l1 ++ x :: l2) ->
  last (l1 ++ x :: l2) = Some e -> b_kind e = End_ -> b_addr e = pxEnd h ->
  fits (b_tag x) want x -> 8 <= want -> want mod 4 = 0 -> (length l1 < fuel)%nat ->
  wp (cut_block xStart fuel want (b_tag x) (before xStart l1) (b_addr x)) (fun r h' =>
    r = b_addr x + 8 /\ exists m' u k2, h' = with_mem m' h /\ carve x want ++ l2 = u :: k2
      /\ b_addr u = b_addr x /\ cut_done xStart (headers xStart (l1 ++ u :: k2)) h m' l1 u k2) h.
Proof.
  intros Hl Hg Hlast He Hpe (Hk & _ & Hfit) Hw Hw4 Hfu.
  pose proof (geometry_block _ _ _ _ Hg ltac:(congruence)) as (B1 & B2 & B3 & B4 & B5 & B6 & B7).
  destruct (unlink xStart h l1 x l2 Hg Hk Hl) as (N1 & N2 & Hl1 & Hf1).
  assert (Hbp : 0 < before xStart l1).
  { apply (header_pos _ _ _ Hg), headers_middle. right. apply before_header. }
  assert (Hne : l2 <> []).
  { intros ->. rewrite last_snoc in Hlast. injection Hlast as <-. congruence. }
  assert (Hlim : b_addr x + b_size x < 2 ^ 32).
  { pose proof (geometry_take _ _ _ _ Hg Hk) as Hg'. apply (used_room xStart l1 (set_kind x Used) l2 e); try done.
    rewrite last_mid in * by done. done. }
  unfold cut_block. apply wp_bind. wp_field. apply wp_bind. wp_field. rewrite N1, N2.
  apply wp_bind. wp_field. apply wp_bind. wp_field.
  set (m0 := set_nx (mem h) (before xStart l1) (behind l2)) in *.
  assert (Hu0 : forall H, before xStart l1 ∈ H -> untouched H (mem h) m0).
  { intros H HH. by apply untouched_set_nx. }
  rewrite (proj1 Hf1), !u32_small by (unfold uxHeapStructSize; lia).
  destruct (Z.ltb_spec heapMINIMUM_BLOCK_SIZE (b_size x - want)) as [Hsp|Hsp].
  - assert (Hmin : want + 8 <= b_size x) by (change heapMINIMUM_BLOCK_SIZE with 16 in Hsp; lia).
    destruct (write_parts xStart m0 l1 x l2 want Hg Hk Hw Hw4 Hmin Hl1 Hf1) as (Ff & Fu & Hun & HL).
    pose proof (geometry_cut _ _ _ _ _ Hg Hk Hw Hw4 Hmin) as Hgc.
    set (u := Block (b_addr x) want (b_tag x) Used) in *.
    set (f := Block (b_addr x + want) (b_size x - want) (b_tag x) Used) in *.
    replace (l1 ++ u :: f :: l2) with ((l1 ++ [u]) ++ f :: l2) in Hgc by (by rewrite <- app_assoc).
    apply wp_bind. apply wp_bind. wp_field. apply wp_bind. wp_field. apply wp_bind. wp_field.
    change (b_addr x + want) with (b_addr f).
    eapply wp_mono.
    { eapply (insert_spec _ xStart fuel _ (l1 ++ [u]) f l2 e); try done.
      - rewrite last_mid in * by done. done.
      - rewrite length_app. cbn. lia. }
    cbn beta. intros _ h' (m' & -> & Hu' & HL'). wp_steps. split; [unfold uxHeapStructSize; lia|].
    exists m', u, (Block (b_addr x + want) (b_size x - want) (b_tag x) Free :: l2).
    unfold u, f in HL'. rewrite (coalesce_cut xStart) in HL' by done. unfold carve in *.
    rewrite (proj2 (Z.ltb_lt _ _) Hsp) in *. fold u in HL'. split_and!; try done.
    assert (Hhd : forall q, q ∈ headers xStart ((l1 ++ [u]) ++ f :: l2) ->
      q ∈ headers xStart (l1 ++ u :: Block (b_addr x + want) (b_size x - want) (b_tag x) Free :: l2)).
    { intros q. rewrite <- app_assoc. unfold headers. by rewrite !fmap_app, !fmap_cons. }
    split.
    + cbn [app] in HL'. by apply links_drop_used in HL'.
    + destruct HL' as [Hh _ _]. cbn [app] in Hh. rewrite Forall_app, Forall_cons in Hh. apply Hh.
    + eapply untouched_trans; [apply Hu0|].
      { apply Hhd. rewrite <- app_assoc. apply headers_middle. right. apply before_header. }
      eapply untouched_trans; (eapply untouched_mono; [exact Hhd|]); [exact Hun|exact Hu'].
  - wp_steps. split; [unfold uxHeapStructSize; lia|]. exists m0, (set_kind x Used), l2.
    unfold carve. rewrite (proj2 (Z.ltb_ge _ _) Hsp). split_and!; try done. split; cbn [set_kind b_addr].
    + by apply links_weaken.
    + exact Hf1.
    + apply Hu0. apply headers_middle. right. apply before_header.
Qed.

Lemma account_spec h tag size :
  length (xFreeBytesRemaining h) = 16%nat -> length (xMinimumEverFreeBytesRemaining h) = 16%nat ->
  0 <= tag < 16 -> 0 <= at_ 0 (xFreeBytesRemaining h) tag - size < 2 ^ 32 ->
  (forall t, 0 <= t < 16 ->
     at_ 0 (xMinimumEverFreeBytesRemaining h) t <= at_ 0 (xFreeBytesRemaining h) t) ->
  wp (account tag size) (fun _ h' => mem h' = mem h /\ pxEnd h' = pxEnd h
    /\ length (xFreeBytesRemaining h') = 16%nat /\ length (xMinimumEverFreeBytesRemaining h') = 16%nat
    /\ forall t, 0 <= t < 16 -> at_ 0 (xFreeBytesRemaining h') t =
           at_ 0 (xFreeBytesRemaining h) t - (if tag =? t then size else 0)
         /\ at_ 0 (xMinimumEverFreeBytesRemaining h') t <= at_ 0 (xFreeBytesRemaining h') t) h.
Proof.
  intros Lb Lm Ht Hr Hm. unfold account. do 2 wp_step. apply wp_bind. wp_arr. rewrite u32_small by lia.
  apply wp_bind. wp_arr. do 2 wp_step. apply wp_bind. wp_arr.
  set (free := at_ 0 (xFreeBytesRemaining h) tag - size) in *.
  assert (Hpost : forall mn, length mn = 16%nat ->
    (forall t, 0 <= t < 16 -> at_ 0 mn t <= if tag =? t then free else at_ 0 (xFreeBytesRemaining h) t) ->
    length (<[Z.to_nat tag := free]> (xFreeBytesRemaining h)) = 16%nat /\ length mn = 16%nat
    /\ forall t, 0 <= t < 16 -> at_ 0 (<[Z.to_nat tag := free]> (xFreeBytesRemaining h)) t =
           at_ 0 (xFreeBytesRemaining h) t - (if tag =? t then size else 0)
         /\ at_ 0 mn t <= at_ 0 (<[Z.to_nat tag := free]> (xFreeBytesRemaining h)) t).
  { intros mn Ln Hmn. split_and!; [by rewrite length_insert|done|]. intros t Htr.
    rewrite at_counter by (done || lia). specialize (Hmn t Htr). split; [|done].
    destruct (Z.eqb_spec tag t) as [->|E]; unfold free; lia. }
  destruct (Z.ltb_spec free (at_ 0 (xMinimumEverFreeBytesRemaining h) tag)).
  - apply wp_bind. wp_arr. wp_steps. split; [done|]. split; [done|].
    apply (Hpost (<[Z.to_nat tag := free]> (xMinimumEverFreeBytesRemaining h))); [by rewrite length_insert|].
    intros t Htr. rewrite at_counter by (done || lia). specialize (Hm t Htr). case_test; lia.
  - wp_steps. split; [done|]. split; [done|]. apply Hpost; [done|]. intros t Htr. specialize (Hm t Htr).
    destruct (Z.eqb_spec tag t) as [E|E]; cbn [with_bytes xMinimumEverFreeBytesRemaining]; [rewrite <- E|]; lia.
Qed.

(** A request takes the size of the block from the free bytes of its tag. *)
Lemma free_sum_carve t x want u k2 l2 :
  b_kind x = Free -> carve x want ++ l2 = u :: k2 ->
  free_of t x + free_sum t l2 - (if b_tag x =? t then b_size u else 0) = free_sum t (u :: k2).
Proof.
  intros Hk E. rewrite <- E, free_sum_app, free_of_free by done. unfold carve in *.
  destruct (_ <? _); cbn [app] in E; injection E as <- <-;
    rewrite !free_sum_cons; cbn [free_of set_kind b_kind b_tag b_size];
    change (free_sum t []) with 0; case_test; lia.
Qed.

Lemma geometry_carve xStart l1 x l2 want :
  geometry xStart (l1 ++ x :: l2) -> b_kind x = Free -> 8 <= want -> want mod 4 = 0 -> want <= b_size x ->
  geometry xStart (l1 ++ carve x want ++ l2).
Proof.
  intros Hg Hk Hw Hw4 Hfit. unfold carve. destruct (Z.ltb_spec heapMINIMUM_BLOCK_SIZE (b_size x - want)) as [Hsp|Hsp].
  - change heapMINIMUM_BLOCK_SIZE with 16 in Hsp. pose proof (geometry_cut _ _ _ _ _ Hg Hk Hw Hw4 ltac:(lia)) as Hgc.
    replace (l1 ++ _ :: _ :: l2) with ((l1 ++ [Block (b_addr x) want (b_tag x) Used])
      ++ Block (b_addr x + want) (b_size x - want) (b_tag x) Used :: l2) in Hgc by (by rewrite <- app_assoc).
    apply geometry_coalesce in Hgc; [|done]. rewrite (coalesce_cut xStart) in Hgc; [|done|done|by change heapMINIMUM_BLOCK_SIZE with 16].
    unfold carve in Hgc. by rewrite (proj2 (Z.ltb_lt _ _)) in Hgc by (by change heapMINIMUM_BLOCK_SIZE with 16).
  - by apply geometry_take.
Qed.

Lemma carve_head x want l2 u k2 :
  b_kind x = Free -> carve x want ++ l2 = u :: k2 ->
  b_kind u = Used /\ b_addr u = b_addr x /\ b_tag u = b_tag x
  /\ b_size u = (if heapMINIMUM_BLOCK_SIZE <? b_size x - want then want else b_size x).
Proof. intros Hk. unfold carve. destruct (_ <? _); cbn; by intros [= <- <-]. Qed.

Lemma take_spec xStart fuel h l1 x l2 want :
  heap_inv xStart h (l1 ++ x :: l2) -> fits (b_tag x) want x -> 8 <= want -> want mod 4 = 0 ->
  (length l1 < fuel)%nat ->
  wp (take_block xStart fuel want (b_tag x) (before xStart l1) (b_addr x)) (fun r h' =>
    r = b_addr x + 8 /\ heap_inv xStart h' (l1 ++ carve x want ++ l2)
    /\ untouched (headers xStart (l1 ++ carve x want ++ l2)) (mem h) (mem h')) h.
Proof.
  intros [Hl Hg (e & Hlast & He & Hpe) [Lb Hb] [Lm Hm]] Hfit Hw Hw4 Hfu. pose proof Hfit as (Hk & _ & Hle).
  pose proof (geometry_block _ _ _ _ Hg ltac:(congruence)) as (B1 & B2 & B3 & B4 & B5 & B6 & B7).
  pose proof (geometry_carve _ _ _ _ _ Hg Hk Hw Hw4 Hle) as Hg'.
  assert (Hne : l2 <> []).
  { intros ->. rewrite last_snoc in Hlast. injection Hlast as <-. congruence. }
  unfold take_block. apply wp_bind. eapply wp_mono; [by apply (cut_spec xStart fuel h l1 x l2 e)|]. cbn beta.
  intros r h' (-> & m' & u & k2 & -> & Ecar & Eu & [HL HF HU]). rewrite <- Eu in *.
  destruct (carve_head x want l2 u k2 Hk Ecar) as (Hku & _ & Htu & Hsu).
  apply wp_bind. wp_field. rewrite (proj1 HF). rewrite Ecar in Hg' |- *.
  assert (Hsum : forall t, free_sum t (l1 ++ x :: l2) - (if b_tag x =? t then b_size u else 0)
    = free_sum t (l1 ++ u :: k2)).
  { intros t. rewrite !free_sum_app, <- (free_sum_carve t x want u k2 l2 Hk Ecar), free_sum_cons. lia. }
  apply wp_bind. eapply wp_mono.
  { apply account_spec; cbn [xFreeBytesRemaining xMinimumEverFreeBytesRemaining with_mem]; try done.
    rewrite Hb by lia. specialize (Hsum (b_tag x)). rewrite Z.eqb_refl in Hsum. rewrite Hsum.
    by apply (free_sum_range xStart). }
  cbn [mem pxEnd xFreeBytesRemaining xMinimumEverFreeBytesRemaining with_mem].
  intros _ h' (Em & Ee & Lb' & Lm' & Hc). apply wp_bind. wp_field. apply wp_bind. wp_field. wp_steps.
  rewrite Em. split; [done|]. pose proof (geometry_sep _ _ Hg') as HS.
  pose proof (geometry_NoDup _ _ Hg') as HN. apply nodup_middle in HN.
  assert (HuH : b_addr u ∈ headers xStart (l1 ++ u :: k2)) by (apply headers_middle; left).
  split.
  - split; cbn [mem pxEnd xFreeBytesRemaining xMinimumEverFreeBytesRemaining with_mem].
    + apply (links_settle (fun a => a <> b_addr u) xStart (headers xStart (l1 ++ u :: k2))); try done.
      intros q Hq. by apply headers_middle.
    + done.
    + exists e. rewrite Ee. split_and!; try done. rewrite <- Ecar. rewrite last_mid in Hlast by done.
      unfold carve. destruct (_ <? _); cbn [app].
      * by rewrite cons_middle, app_assoc, last_mid.
      * by rewrite last_mid.
    + split; [done|]. intros t Ht. destruct (Hc t Ht) as [-> _]. rewrite Hb by lia. apply Hsum.
    + split; [done|]. intros t Ht. by apply Hc.
  - cbn [mem with_mem]. apply untouched_set_nx; [done|]. apply untouched_set_fld; [done|]. exact HU.
Qed.

Lemma free_sum_ge t bl y : Forall wf_block bl -> y ∈ bl -> b_kind y = Free -> b_tag y = t -> b_size y <= free_sum t bl.
Proof.
  intros Hw Hy Hk Ht. assert (Hpos : forall l, Forall wf_block l -> 0 <= free_sum t l).
  { intros l. induction 1 as [|b l (_ & _ & _ & Hb) _ IH]; [done|]. rewrite free_sum_cons.
    unfold free_of. destruct (b_kind b); try lia. case_test; lia. }
  apply list_elem_of_split in Hy as (l1 & l2 & ->). apply Forall_app in Hw as [Hw1 Hw2].
  apply Forall_cons in Hw2 as [_ Hw2]. rewrite free_sum_app, free_sum_cons, free_of_free by done.
  rewrite Ht, Z.eqb_refl. pose proof (Hpos l1 Hw1). pose proof (Hpos l2 Hw2). lia.
Qed.

Lemma unused_last bl e :
  last bl = Some e -> b_kind e = End_ -> exists b rest, filter unused bl = b :: rest.
Proof.
  intros (L & ->)%last_Some He. rewrite filter_app, (filter_cons_True _ e) by (unfold unused; by rewrite He).
  destruct (filter unused L); cbn; eauto.
Qed.

(** The search ends at the first block that fits, or at the end marker. *)
Lemma search_spec xStart fuel h bl e want tag :
  heap_inv xStart h bl -> last bl = Some e -> b_kind e = End_ -> 0 <= tag -> (length bl <= fuel)%nat ->
  wp (first ← pxNextFreeBlock xStart; find_block fuel want tag xStart first) (fun r h' => h' = h
    /\ ((exists l1 x l2, bl = l1 ++ x :: l2 /\ fits tag want x /\ Forall (fun b => ~ fits tag want b) l1
          /\ r = (before xStart l1, b_addr x))
        \/ (Forall (fun b => ~ fits tag want b) bl /\ r.2 = b_addr e))) h.
Proof.
  intros [Hl Hg _ _ _] Hlast He Htag Hfu. destruct (unused_last bl e Hlast He) as (b & rest & Ef).
  pose proof Hg as [Ha Hw _ (Hs & _)]. destruct Hl as [Hh Hlist _]. rewrite Forall_forall in Hh, Hw.
  assert (Hin : forall y, y ∈ b :: rest -> y ∈ bl /\ unused y).
  { intros y Hy. rewrite <- Ef in Hy. apply list_elem_of_filter in Hy. tauto. }
  unfold nodes in Hlist. rewrite Ef in Hlist. cbn [fmap list_fmap app] in Hlist. destruct Hlist as [Hfirst Hlist].
  unfold nxt in Hfirst. apply wp_bind. wp_field. rewrite Hfirst. eapply wp_mono.
  { apply (find_block_spec want tag h b rest xStart fuel); [| exact Hlist | |].
    - apply Forall_forall. intros y Hy. by apply Hh, Hin.
    - apply Forall_forall. intros y Hy. destruct (Hw y (proj1 (Hin y Hy))) as (P1 & _ & _ & P2).
      destruct (b_kind y); lia.
    - apply (f_equal length) in Ef. pose proof (length_filter unused bl). cbn in Ef. lia. }
  cbn beta. intros r h' (-> & r1 & x & r2 & E & -> & HN & HX). split; [done|].
  rewrite <- Ef in E. destruct (filter_cut unused bl r1 x r2 E) as (l1 & l2 & -> & E1 & E2).
  assert (Hux : unused x).
  { apply Hin. rewrite <- Ef, E. set_solver. }
  assert (HN1 : Forall (fun b => ~ fits tag want b) l1).
  { apply Forall_forall. intros y Hy (F1 & F2 & F3). rewrite Forall_forall in HN. apply (HN y); [|done].
    rewrite <- E1. apply list_elem_of_filter. split; [unfold unused; by rewrite F1|done]. }
  destruct HX as [[HX1 HX2]|HX].
  - left. exists l1, x, l2. split_and!; try done.
    + destruct (Hw x ltac:(set_solver)) as (_ & _ & _ & P2). unfold unused in Hux. split_and!; try done.
      destruct (b_kind x); [done|done|lia].
    + by rewrite <- E1.
  - right. subst r2. assert (l2 = []) as ->.
    { destruct l2 as [|n k2] using rev_ind; [done|]. rewrite app_comm_cons, app_assoc, last_snoc in Hlast.
      injection Hlast as ->. rewrite filter_app, (filter_cons_True _ e) in E2 by (unfold unused; by rewrite He).
      by destruct (filter unused k2). }
    rewrite last_snoc in Hlast. injection Hlast as ->. split; [|done]. apply Forall_app. split; [done|].
    constructor; [|done]. intros (F1 & _). congruence.
Qed.

Lemma malloc_spec xStart fuel h bl n tag :
  heap_inv xStart h bl -> 0 <= tag < 16 -> 0 <= n <= 2 ^ 32 - 12 -> (length bl <= fuel)%nat ->
  wp (pvPortMallocTagged xStart fuel n tag) (fun p h' =>
    (p = 0 /\ h' = h /\ (n = 0 \/ Forall (fun b => ~ fits tag (wanted_size n) b) bl))
    \/ exists l1 x l2, 0 < n /\ bl = l1 ++ x :: l2 /\ fits tag (wanted_size n) x
         /\ Forall (fun b => ~ fits tag (wanted_size n) b) l1 /\ p = b_addr x + 8
         /\ heap_inv xStart h' (l1 ++ carve x (wanted_size n) ++ l2)
         /\ untouched (headers xStart (l1 ++ carve x (wanted_size n) ++ l2)) (mem h) (mem h')) h.
Proof.
  intros Hinv Htag Hn Hfu. pose proof Hinv as [_ Hg (e & Hlast & He & Hpe) [Lb Hb] _].
  pose proof Hg as [Ha Hw _ _]. assert (He0 : 0 < b_addr e).
  { apply last_Some in Hlast as [L ->]. apply Forall_app in Hw as [_ Hw]. apply Forall_cons in Hw as [[? _] _]. done. }
  unfold pvPortMallocTagged. do 2 wp_step. apply wp_bind, wp_check.
  { rewrite <- Hpe. by rewrite (proj2 (Z.eqb_neq _ _)) by lia. }
  destruct (Z_le_gt_dec n 0) as [Hn0|Hn0].
  { assert (n = 0) as -> by lia. change (0 <? wanted_size 0) with false. wp_steps. left. auto. }
  destruct (wanted_size_spec n ltac:(lia)) as (W1 & W2 & W3). remember (wanted_size n) as want eqn:Ew.
  rewrite (proj2 (Z.ltb_lt _ _)) by lia. do 2 wp_step. apply wp_bind. wp_arr. rewrite Hb by lia.
  destruct (Z.leb_spec want (free_sum tag bl)) as [Hle|Hgt].
  2:{ wp_steps. left. split_and!; try done. right. apply Forall_forall. intros y Hy (F1 & F2 & F3).
      pose proof (free_sum_ge tag bl y Hw Hy F1 F2). lia. }
  pose proof (search_spec xStart fuel h bl e want tag Hinv Hlast He ltac:(lia) Hfu) as HS.
  apply wp_inv in HS as (r & h' & Hrun & -> & HS). apply bind_Ret in Hrun as (first & h1 & Hfirst & Hrun).
  apply wp_bind. eapply wp_run; [exact Hfirst|]. apply wp_bind. eapply wp_run; [exact Hrun|].
  destruct HS as [(l1 & x & l2 & -> & Hfit & HN & ->)|[HN Er]].
  - destruct Hfit as (F1 & <- & F3). pose proof (end_addr _ e x Ha Hw Hlast ltac:(set_solver) ltac:(congruence)).
    rewrite (proj2 (Z.eqb_neq (b_addr x) _)) by lia. cbn [negb].
    eapply wp_mono; [apply (take_spec xStart fuel h l1 x l2 want); [done|by split_and!|lia|done|]|].
    { rewrite length_app in Hfu. cbn in Hfu. lia. }
    cbn beta. intros p h' (-> & Hinv' & HU). right. exists l1, x, l2. split_and!; try done; lia || by split_and!.
  - destruct r as [prev blk]. cbn in Er. subst blk. rewrite <- Hpe, Z.eqb_refl. wp_steps. left. auto.
Qed.

(** ** What the application sees *)

(** The memory of the blocks the application holds, behind their headers. *)
Definition kept (bl : list block) (m m' : memory) : Prop :=
  forall (y : block) a, y ∈ bl -> b_kind y = Used -> b_addr y + 8 <= a < b_addr y + b_size y -> m' a = m a.

Lemma header_outside xStart l1 y l2 p a :
  geometry xStart (l1 ++ y :: l2) -> b_kind y = Used -> p ∈ headers xStart (l1 ++ y :: l2) ->
  b_addr y + 8 <= a < b_addr y + b_size y -> a <> p /\ a <> p + 4.
Proof.
  intros [Had Hw _ (_ & _ & Hap)] Hk Hp Ha.
  assert (Hwy : wf_block y) by (rewrite Forall_forall in Hw; apply Hw; set_solver).
  assert (Ey : extent y = b_size y) by (unfold extent; by rewrite Hk).
  apply elem_of_cons in Hp as [->|Hp].
  { rewrite Forall_forall in Hap. destruct (Hap y ltac:(set_solver)); lia. }
  apply list_elem_of_fmap in Hp as (z & -> & Hz).
  assert (Hwz : wf_block z) by (rewrite Forall_forall in Hw; by apply Hw).
  pose proof (extent_ge z Hwz). apply elem_of_app in Hz as [Hz|[->|Hz]%elem_of_cons].
  - pose proof (adj_before _ _ _ _ Had Hw Hz). lia.
  - lia.
  - pose proof (adj_after _ _ _ _ Had Hw Hz). rewrite Ey in *. lia.
Qed.

Lemma payload_kept xStart (bl bl' : list block) m m' :
  geometry xStart bl' -> (forall y, y ∈ bl -> b_kind y = Used -> y ∈ bl') ->
  untouched (headers xStart bl') m m' -> kept bl m m'.
Proof.
  intros Hg Hsub Hu y a Hy Hk Ha. apply Hsub in Hy; [|done]. apply list_elem_of_split in Hy as (l1 & l2 & ->).
  apply Hu. intros p Hp. by apply (header_outside xStart l1 y l2).
Qed.

(** The application writes to a block it holds. *)
Definition written (u : block) (m m' : memory) : Prop :=
  forall a, ~ b_addr u + 8 <= a < b_addr u + b_size u -> m' a = m a.

Lemma heap_inv_payload xStart h l1 u l2 m' :
  heap_inv xStart h (l1 ++ u :: l2) -> b_kind u = Used -> written u (mem h) m' ->
  heap_inv xStart (with_mem m' h) (l1 ++ u :: l2).
Proof.
  intros [Hl Hg He Hb Hm] Hk Hw. split; try done. cbn [mem with_mem].
  apply (links_frame all xStart (mem h)); [|done]. intros p Hp.
  split; apply Hw; intros Hin; by apply (header_outside _ _ _ _ p _ Hg Hk Hp) in Hin as [? ?].
Qed.

(** Used blocks do not overlap. *)
Lemma payloads_apart xStart l1 u l2 (y : block) a :
  geometry xStart (l1 ++ u :: l2) -> b_kind u = Used -> y ∈ l1 ++ l2 -> b_kind y = Used ->
  b_addr y + 8 <= a < b_addr y + b_size y -> ~ b_addr u + 8 <= a < b_addr u + b_size u.
Proof.
  intros [Had Hw _ _] Hk Hy Hky Ha Hin. assert (Eu : extent u = b_size u) by (unfold extent; by rewrite Hk).
  assert (Ey : extent y = b_size y) by (unfold extent; by rewrite Hky).
  apply elem_of_app in Hy as [Hy|Hy].
  - pose proof (adj_before _ _ _ _ Had Hw Hy). lia.
  - pose proof (adj_after _ _ _ _ Had Hw Hy). lia.
Qed.

Lemma used_carved l1 x l2 want (y : block) :
  b_kind x = Free -> y ∈ l1 ++ x :: l2 -> b_kind y = Used -> y ∈ l1 ++ carve x want ++ l2.
Proof. intros Hx Hy Hk. apply elem_of_app in Hy as [?|[->|?]%elem_of_cons]; [set_solver|congruence|set_solver]. Qed.

(** Freeing the block that was carved out of [x] gives [x] back. *)
Lemma coalesce_carve xStart l1 x l2 want u k2 :
  geometry xStart (l1 ++ x :: l2) -> b_kind x = Free -> carve x want ++ l2 = u :: k2 ->
  coalesce l1 u k2 = l1 ++ x :: l2.
Proof.
  intros Hg Hx Hc. assert (HL : absorb_left l1 u = (l1, set_kind u Free)).
  { unfold absorb_left. destruct (last l1) as [p|] eqn:El; [|done]. rewrite decide_False; [done|]. intros Hp.
    apply last_Some in El as [k1 ->]. rewrite <- app_assoc in Hg. cbn [app] in Hg.
    destruct (geometry_pair _ _ _ _ _ Hg ltac:(congruence) ltac:(congruence)) as (_ & _ & []). done. }
  unfold coalesce. rewrite HL. unfold carve in Hc. destruct (_ <? _); cbn [app] in Hc; injection Hc as <- <-.
  - cbn [absorb_right]. rewrite decide_True by done. cbn [set_kind resize b_addr b_size b_tag b_kind app].
    replace (want + (b_size x - want)) with (b_size x) by lia. destruct x. cbn in *. by subst.
  - replace (set_kind (set_kind x Used) Free) with x by (destruct x; cbn in *; by subst).
    destruct l2 as [|n k2]; [done|]. cbn [absorb_right]. rewrite decide_False; [done|]. intros Hn.
    destruct (geometry_pair _ _ _ _ _ Hg ltac:(congruence) ltac:(congruence)) as (_ & _ & []). done.
Qed.

(** ** The heap the regions make *)

(** The first byte and the end marker of a region, and its two blocks. *)
Definition region_first (r : HeapRegionTagged_t) : Z := (pucStartAddress r + 3) / 4 * 4.
Definition region_last (r : HeapRegionTagged_t) : Z := (pucStartAddress r + xSizeInBytes r - 8) / 4 * 4.
Definition region_blocks (r : HeapRegionTagged_t) : list block :=
  [Block (region_first r) (region_last r - region_first r) (region_xTag r) Free;
   Block (region_last r) 0 (-1) End_].

(** A region that a heap can be made of, apart from [xStart]. *)
Definition region_fits (xStart : Z) (r : HeapRegionTagged_t) : Prop :=
  0 <= region_xTag r < 16 /\ 0 < pucStartAddress r /\ pucStartAddress r + xSizeInBytes r <= 2 ^ 32
  /\ xSizeInBytes r < 2 ^ 23 /\ region_first r + 8 <= region_last r
  /\ (xStart + 8 <= region_first r \/ region_last r + 8 <= xStart).

(** A table of regions in the order of their addresses, closed by one of
    size 0; regions with tag -1 are skipped. *)
Fixpoint regions_fit (xStart lo : Z) (regions : list HeapRegionTagged_t) : Prop :=
  match regions with
  | [] => False
  | r :: rest =>
      if 0 <? xSizeInBytes r then
        if region_xTag r =? -1 then regions_fit xStart lo rest
        else region_fits xStart r /\ lo <= region_first r /\ regions_fit xStart (region_last r + 8) rest
      else True
  end.

Fixpoint heap_blocks (regions : list HeapRegionTagged_t) : list block :=
  match regions with
  | [] => []
  | r :: rest =>
      if 0 <? xSizeInBytes r then
        if region_xTag r =? -1 then heap_blocks rest else region_blocks r ++ heap_blocks rest
      else []
  end.

Lemma region_numbers xStart r :
  region_fits xStart r -> region_first r mod 4 = 0 /\ region_last r mod 4 = 0
  /\ pucStartAddress r <= region_first r /\ region_last r + 8 <= pucStartAddress r + xSizeInBytes r.
Proof.
  intros (_ & H1 & H2 & H3 & H4 & _). unfold region_first, region_last in *. rewrite !Z.mod_mul by lia.
  pose proof (Z.div_mod (pucStartAddress r + 3) 4 ltac:(lia)).
  pose proof (Z.mod_pos_bound (pucStartAddress r + 3) 4 ltac:(lia)).
  pose proof (Z.div_mod (pucStartAddress r + xSizeInBytes r - 8) 4 ltac:(lia)).
  pose proof (Z.mod_pos_bound (pucStartAddress r + xSizeInBytes r - 8) 4 ltac:(lia)). lia.
Qed.

(** What the code computes for them. *)
Lemma region_aligned xStart r :
  region_fits xStart r ->
  (if negb (Z.land (pucStartAddress r) portBYTE_ALIGNMENT_MASK =? 0) then
     let a := Z.land (u32 (pucStartAddress r + (portBYTE_ALIGNMENT - 1))) 0xFFFFFFFC in
     (a, u32 (xSizeInBytes r - (a - pucStartAddress r)))
   else (pucStartAddress r, xSizeInBytes r))
  = (region_first r, xSizeInBytes r - (region_first r - pucStartAddress r)).
Proof.
  intros Hr. pose proof (region_numbers _ _ Hr) as (_ & _ & N1 & N2). destruct Hr as (_ & H1 & H2 & H3 & H4 & _).
  unfold portBYTE_ALIGNMENT_MASK, portBYTE_ALIGNMENT. change 3 with (Z.ones 2) at 1.
  rewrite Z.land_ones by lia. change (2 ^ 2) with 4. set (a := pucStartAddress r) in *.
  pose proof (Z.div_mod a 4 ltac:(lia)) as D. pose proof (Z.mod_pos_bound a 4 ltac:(lia)).
  destruct (Z.eqb_spec (a mod 4) 0) as [E|E]; cbn [negb].
  - assert (region_first r = a) as ->; [|f_equal; lia].
    unfold region_first. fold a. rewrite <- (Z.div_unique (a + 3) 4 (a / 4) 3); lia.
  - rewrite u32_small, land_word by lia. assert (a + 3 - (a + 3) mod 4 = region_first r) as E2.
    { unfold region_first. fold a. pose proof (Z.div_mod (a + 3) 4 ltac:(lia)). lia. }
    change (a + (4 - 1)) with (a + 3). rewrite E2. cbv zeta. by rewrite u32_small by lia.
Qed.

Lemma region_marker xStart r :
  region_fits xStart r ->
  Z.land (u32 (u32 (region_first r + (xSizeInBytes r - (region_first r - pucStartAddress r))) - uxHeapStructSize))
    0xFFFFFFFC = region_last r.
Proof.
  intros Hr. pose proof (region_numbers _ _ Hr) as (_ & _ & N1 & N2). destruct Hr as (_ & H1 & H2 & H3 & H4 & _).
  replace (region_first r + _) with (pucStartAddress r + xSizeInBytes r) by lia.
  unfold u32, wrap, uxHeapStructSize. rewrite Zminus_mod_idemp_l, Z.mod_small, land_word by lia.
  unfold region_last. pose proof (Z.div_mod (pucStartAddress r + xSizeInBytes r - 8) 4 ltac:(lia)). lia.
Qed.

Lemma geometry_append xStart bl r :
  geometry xStart bl -> region_fits xStart r ->
  (forall e, last bl = Some e -> b_kind e = End_ /\ b_addr e + 8 <= region_first r) ->
  geometry xStart (bl ++ region_blocks r).
Proof.
  intros [Ha Hw Hr (Hs1 & Hs2 & Hs3)] Hf He. pose proof (region_numbers _ _ Hf) as (N1 & N2 & N3 & N4).
  destruct Hf as (F1 & F2 & F3 & F4 & F5 & F6). unfold region_blocks.
  set (b1 := Block (region_first r) _ _ _). set (b2 := Block (region_last r) _ _ _).
  assert (Hm : (region_last r - region_first r) mod 4 = 0) by (rewrite Zminus_mod, N1, N2; done).
  assert (H12 : follows b1 b2) by (split; cbn; [lia|split; [lia|done]]).
  assert (Hwb : wf_block b1 /\ wf_block b2).
  { unfold wf_block, extent. cbn. split_and!; try done; unfold uxHeapStructSize; lia. }
  split.
  - destruct (last bl) as [e|] eqn:El.
    + destruct (He e eq_refl) as [He1 He2]. apply last_Some in El as [k ->]. rewrite <- app_assoc. apply adj_join.
      split_and!; [done| |by cbn]. split; [unfold extent; rewrite He1; cbn; unfold uxHeapStructSize; lia|done].
    + apply last_None in El as ->. done.
  - rewrite Forall_app, !Forall_cons. destruct Hwb. done.
  - apply region_ok_app. split; [done|]. assert (region_acc 0 bl = 0) as ->.
    { destruct (last bl) as [e|] eqn:El; [|by apply last_None in El as ->]. destruct (He e eq_refl) as [He1 _].
      apply last_Some in El as [k ->]. by rewrite region_acc_snoc, decide_True. }
    cbn [region_ok b1 b2]. rewrite decide_False, decide_True by done. split; [subst b1; cbn; lia|done].
  - rewrite Forall_app, !Forall_cons. split_and!; try done; unfold extent, uxHeapStructSize; cbn; lia.
Qed.

(** The heap while its regions are added. *)
Record growing (xStart : Z) (h : heap) (bl : list block) : Prop := {
  gr_links : bl <> [] -> links all xStart (mem h) bl;
  gr_geo : geometry xStart bl;
  gr_end : pxEnd h = match last bl with Some e => b_addr e | None => 0 end;
  gr_last : forall e, last bl = Some e -> b_kind e = End_;
  gr_bytes : length (xFreeBytesRemaining h) = 16%nat
    /\ forall t, 0 <= t < 16 -> at_ 0 (xFreeBytesRemaining h) t = free_sum t bl;
  gr_min : xMinimumEverFreeBytesRemaining h = xFreeBytesRemaining h
}.

Lemma growing_empty xStart m : 0 < xStart -> xStart + 8 <= 2 ^ 32 -> growing xStart (empty_heap m) [].
Proof.
  intros H1 H2. split; [done|split; try done|done|done| |done]. split; [done|].
  intros t Ht. apply at_lookup; [lia|]. apply lookup_replicate_2. lia.
Qed.

Lemma growing_inv xStart h bl : growing xStart h bl -> bl <> [] -> heap_inv xStart h bl.
Proof.
  intros [Hl Hg He Hk Hb Hm] Hne. destruct (last bl) as [e|] eqn:El; [|by apply last_None in El].
  split; [auto|done|exists e; auto|done|]. rewrite Hm. split; [apply Hb|lia].
Qed.

(** The end marker is the node in front of the next region. *)
Lemma before_marker xStart bl e : last bl = Some e -> b_kind e = End_ -> before xStart bl = b_addr e.
Proof.
  intros [k ->]%last_Some He. unfold before. rewrite nodes_app, nodes_unused by (unfold unused; congruence).
  change (nodes []) with (@nil Z). by rewrite last_snoc.
Qed.

(** Headers written for a region, and the region linked in behind [bl]. *)
Lemma links_append xStart m m' bl r :
  links all xStart m bl -> geometry xStart (bl ++ region_blocks r) ->
  (forall p, p ∈ headers xStart bl -> fld m' p = fld m p /\ (p <> before xStart bl -> nx m' p = nx m p)) ->
  Forall (hdr all m') (region_blocks r) ->
  nx m' (before xStart bl) = region_first r -> nx m' (region_first r) = region_last r -> nx m' (region_last r) = 0 ->
  links all xStart m' (bl ++ region_blocks r).
Proof.
  intros Hl Hg Hf Hh N1 N2 N3. rewrite <- (app_nil_r (region_blocks r)).
  apply (splice all xStart m m' bl [] (region_blocks r) []); rewrite ?app_nil_r; try done.
  pose proof (geometry_NoDup _ _ Hg) as HN. unfold headers in *. rewrite fmap_app in HN.
  rewrite app_comm_cons in HN. by apply NoDup_app in HN as [? _].
Qed.

(** The memory after the six writes of [define_region] to a region. *)
Definition region_memory (m : memory) (s e tag : Z) : memory :=
  let m1 := set_nx (set_fld m e (put_size (fld m e) 0)) e 0 in
  let m2 := set_fld m1 e (put_tag (fld m1 e) (-1)) in
  let m3 := set_nx (set_fld m2 s (put_size (fld m2 s) (u32 (e - s)))) s e in
  set_fld m3 s (put_tag (fld m3 s) tag).

Lemma region_memory_spec H m r xStart :
  Sep H -> region_first r ∈ H -> region_last r ∈ H -> region_fits xStart r ->
  let m' := region_memory m (region_first r) (region_last r) (region_xTag r) in
  Forall (hdr all m') (region_blocks r) /\ nx m' (region_first r) = region_last r /\ nx m' (region_last r) = 0
  /\ get_size (fld m' (region_first r)) = region_last r - region_first r
  /\ forall p, p ∈ H -> p <> region_first r -> p <> region_last r -> fld m' p = fld m p /\ nx m' p = nx m p.
Proof.
  intros HS Hs He Hf. pose proof (region_numbers _ _ Hf) as (_ & _ & N3 & N4). destruct Hf as (F1 & F2 & F3 & F4 & F5 & _).
  unfold region_memory, region_blocks. cbv zeta. set (s := region_first r) in *. set (e := region_last r) in *.
  assert (Hse : (s =? e) = false) by (apply Z.eqb_neq; lia).
  assert (Hes : (e =? s) = false) by (apply Z.eqb_neq; lia).
  rewrite !Forall_cons. unfold hdr, fields. cbn [b_addr b_size b_tag b_kind].
  repeat (rewrite fld_set_fld || (rewrite (fld_set_nx H HS) by done) || (rewrite (nx_set_fld H HS) by done)
    || rewrite nx_set_nx || rewrite Z.eqb_refl || rewrite Hse || rewrite Hes).
  rewrite u32_small by lia. autorewrite with fields. rewrite !to_signed_small by lia.
  split_and!; try done; try lia.
  intros p Hp Hps Hpe. apply Z.eqb_neq in Hps, Hpe.
  repeat (rewrite fld_set_fld || (rewrite (fld_set_nx H HS) by done) || (rewrite (nx_set_fld H HS) by done)
    || rewrite nx_set_nx || rewrite Hps || rewrite Hpe). done.
Qed.

Lemma at_add l t v :
  length l = 16%nat -> 0 <= t < 16 -> add_at l t v = Ret (<[Z.to_nat t := u32 (at_ 0 l t + v)]> l).
Proof. intros Hl Ht. unfold add_at. rewrite (rd_in 0) by lia. cbn. by rewrite wr_in by lia. Qed.

(** Everything but the memory, once the headers are in place. *)
Lemma growing_append xStart h m' bl r :
  growing xStart h bl -> geometry xStart (bl ++ region_blocks r) -> links all xStart m' (bl ++ region_blocks r) ->
  0 <= region_xTag r < 16 ->
  let f := <[Z.to_nat (region_xTag r) := u32 (at_ 0 (xFreeBytesRemaining h) (region_xTag r)
                                              + (region_last r - region_first r))]> (xFreeBytesRemaining h) in
  growing xStart (Heap m' (region_last r) f f) (bl ++ region_blocks r).
Proof.
  intros [Hl Hg He Hk [Lb Hb] Hm] Hg' Hl' Ht f. split; cbn [mem pxEnd xFreeBytesRemaining xMinimumEverFreeBytesRemaining].
  - done.
  - done.
  - unfold region_blocks. by rewrite last_app.
  - unfold region_blocks. rewrite last_app. cbn. by intros e [= <-].
  - split; [by unfold f; rewrite length_insert|]. intros t Ht'. unfold f. rewrite at_counter by done.
    pose proof (free_sum_range _ _ t Hg') as Hr. rewrite free_sum_app in *. unfold region_blocks in *.
    rewrite !free_sum_cons in *. cbn [free_of b_kind b_tag b_size free_sum foldr] in *. rewrite !Hb by done.
    destruct (Z.eqb_spec (region_xTag r) t) as [->|E]; [rewrite u32_small by lia|]; lia.
  - done.
Qed.

(** The first region sets up [xStart]; a later one is checked against the
    end of the heap so far. *)
Lemma region_setup xStart h bl s :
  growing xStart h bl -> 0 < s -> (forall e, last bl = Some e -> b_addr e + 8 <= s) ->
  wp (if bool_decide (bl = []) then set_pxNextFreeBlock xStart s;; set_xBlockSize xStart 0
      else check (negb (pxEnd h =? 0));; check (pxEnd h <? s)) (fun _ h1 =>
    exists m0, h1 = with_mem (mem h1) h /\ links all xStart m0 bl
    /\ (forall p, p ∈ headers xStart bl ->
          fld (mem h1) p = fld m0 p /\ (p <> before xStart bl -> nx (mem h1) p = nx m0 p))
    /\ (bl = [] -> nx (mem h1) xStart = s)) h.
Proof.
  intros [Hl Hg He Hk _ _] Hs Hlo. pose proof Hg as [_ Hw _ (Hx & Hx2 & _)].
  destruct (last bl) as [e|] eqn:El.
  - rewrite bool_decide_false by (by intros ->). specialize (Hlo e eq_refl). rewrite He.
    apply last_Some in El as [k ->]. apply Forall_app in Hw as [_ Hw]. apply Forall_cons in Hw as [[Hpos _] _].
    apply wp_bind, wp_check; [by rewrite (proj2 (Z.eqb_neq _ _)) by lia|].
    apply wp_check; [apply Z.ltb_lt; lia|]. exists (mem h). split_and!; [by destruct h| |done|].
    + apply Hl. by destruct k.
    + by destruct k.
  - apply last_None in El as ->. rewrite bool_decide_true by done.
    apply wp_bind. wp_field. wp_field. set (m1 := set_nx (mem h) xStart s).
    exists (set_nx (set_fld m1 xStart (put_size (fld m1 xStart) 0)) xStart 0).
    assert (HS : Sep [xStart]) by (intros p q ->%list_elem_of_singleton ->%list_elem_of_singleton; auto).
    assert (HxS : xStart ∈ [xStart]) by left. split_and!; [done| | |].
    + split; [done| |].
      * cbn. split; [|done]. unfold nxt. by rewrite nx_set_nx, Z.eqb_refl.
      * rewrite (fld_set_nx _ HS), fld_set_fld, Z.eqb_refl by done. by autorewrite with fields.
    + intros p ->%list_elem_of_singleton. by rewrite (fld_set_nx _ HS) by done.
    + intros _. rewrite (nx_set_fld _ HS) by done. unfold m1. by rewrite nx_set_nx, Z.eqb_refl.
Qed.

(** The end of the heap so far is linked to the new region. *)
Lemma region_link xStart H h bl pe s :
  Sep H -> geometry xStart bl -> (forall p, p ∈ headers xStart bl -> p ∈ H) ->
  pe = match last bl with Some e => b_addr e | None => 0 end -> (forall e, last bl = Some e -> b_kind e = End_) ->
  (bl = [] -> nx (mem h) xStart = s) ->
  wp (if negb (pe =? 0) then set_pxNextFreeBlock pe s else mret tt) (fun _ h1 =>
    h1 = with_mem (mem h1) h /\ nx (mem h1) (before xStart bl) = s
    /\ forall p, p ∈ H -> fld (mem h1) p = fld (mem h) p /\ (p <> before xStart bl -> nx (mem h1) p = nx (mem h) p)) h.
Proof.
  intros HS Hg Hin -> Hk Hst. destruct (last bl) as [e|] eqn:El.
  - rewrite (before_marker xStart bl e) by auto.
    assert (HeH : b_addr e ∈ headers xStart bl).
    { apply last_Some in El as [k ->]. right. rewrite fmap_app. apply elem_of_app. right. left. }
    pose proof (header_pos _ _ _ Hg HeH). rewrite (proj2 (Z.eqb_neq _ _)) by lia. cbn [negb]. wp_field.
    split_and!; [done|by rewrite nx_set_nx, Z.eqb_refl|]. intros p Hp. split; [by apply (fld_set_nx H HS); [auto|]|].
    intros Hne. by rewrite nx_set_nx, (proj2 (Z.eqb_neq _ _)).
  - apply last_None in El as ->. apply wp_ret. split_and!; [by destruct h|auto|done].
Qed.

Lemma region_apart xStart bl r p :
  geometry xStart (bl ++ region_blocks r) -> p ∈ headers xStart bl -> p <> region_first r /\ p <> region_last r.
Proof.
  intros Hg Hp. pose proof (geometry_NoDup _ _ Hg) as HN. unfold headers in *.
  rewrite fmap_app, app_comm_cons in HN. apply NoDup_app in HN as (_ & HN & _). specialize (HN p Hp).
  cbn in HN. set_solver.
Qed.

Lemma define_region_spec xStart h bl r :
  growing xStart h bl -> region_fits xStart r -> (forall e, last bl = Some e -> b_addr e + 8 <= region_first r) ->
  wp (define_region xStart (bool_decide (bl = [])) r) (fun size h' =>
    size = region_last r - region_first r /\ growing xStart h' (bl ++ region_blocks r)) h.
Proof.
  intros Hgr Hf Hlo. pose proof Hgr as [Hl Hg He Hk [Lb Hb] Hm].
  assert (Hg' : geometry xStart (bl ++ region_blocks r)) by (apply geometry_append; naive_solver).
  pose proof (region_numbers _ _ Hf) as (_ & _ & N3 & N4). pose proof Hf as (F1 & F2 & F3 & F4 & F5 & F6).
  pose proof (geometry_sep _ _ Hg') as HS. set (H := headers xStart (bl ++ region_blocks r)) in *.
  assert (HH : region_first r ∈ H /\ region_last r ∈ H /\ forall p, p ∈ headers xStart bl -> p ∈ H).
  { unfold H, headers, region_blocks. rewrite fmap_app. cbn. set_solver. }
  destruct HH as (Hs & Hle & Hin).
  unfold define_region. apply wp_bind, wp_check; [apply Z.ltb_lt; unfold HEAPREGIONS_MAX_TAGCOUNT; lia|].
  apply wp_bind, wp_check; [apply Z.ltb_lt; unfold HEAPREGIONS_MAX_REGIONSIZE; lia|]. cbv zeta.
  rewrite (region_aligned xStart) by done. cbv beta iota. do 2 wp_step. apply wp_bind.
  eapply wp_mono; [by apply (region_setup xStart h bl (region_first r)); [|lia|]|]. cbn beta.
  intros _ h1 (m0 & -> & Hl0 & Hfr & Hst). cbn [mem with_mem] in *. set (m1 := mem h1) in *.
  rewrite (region_marker xStart) by done. do 2 wp_step. do 6 (apply wp_bind; wp_field).
  cbn [with_mem with_end mem pxEnd xFreeBytesRemaining xMinimumEverFreeBytesRemaining].
  change (set_fld _ (region_first r) (put_tag _ (region_xTag r))) with (region_memory m1 (region_first r) (region_last r) (region_xTag r)).
  assert (HR : exists M, M = region_memory m1 (region_first r) (region_last r) (region_xTag r)) by eauto.
  destruct HR as [m7 E7]. pose proof (region_memory_spec H m1 r xStart HS Hs Hle Hf) as HR. cbv zeta in HR.
  rewrite <- E7 in *. destruct HR as (R1 & R2 & R3 & R4 & R5). apply wp_bind.
  assert (H7 : bl = [] -> nx m7 xStart = region_first r).
  { intros ->. destruct (R5 xStart) as [_ ->]; [apply Hin; left|lia|lia|auto]. }
  eapply wp_mono; [by apply (region_link xStart H _ bl (pxEnd h) (region_first r))|].
  cbn beta. intros _ h2 (-> & L1 & L2). cbn [with_mem mem pxEnd xFreeBytesRemaining xMinimumEverFreeBytesRemaining] in *.
  set (m8 := mem h2) in *. apply wp_bind. wp_field. do 2 wp_step.
  cbn [xFreeBytesRemaining xMinimumEverFreeBytesRemaining with_mem with_end].
  destruct (L2 _ Hs) as [-> _]. rewrite R4, Hm. apply wp_bind. eapply wp_lift; [by apply at_add|].
  apply wp_bind. eapply wp_lift; [by apply at_add|]. do 3 wp_step. split; [done|].
  apply (growing_append xStart h m8 bl r); [done|done| |done].
  pose proof (before_header xStart bl []) as HB. rewrite app_nil_r in HB.
  destruct (region_apart _ _ _ _ Hg' HB) as [B1 B2].
  apply (links_append xStart m0); try done.
  - intros p Hp. destruct (region_apart _ _ _ _ Hg' Hp) as [P1 P2]. destruct (L2 p (Hin p Hp)) as [-> Hnx].
    destruct (R5 p (Hin p Hp) P1 P2) as [-> E5]. destruct (Hfr p Hp) as [-> E0]. split; [done|].
    intros Hne. by rewrite Hnx, E5, E0.
  - destruct (L2 _ Hs) as [Es Ns], (L2 _ Hle) as [Ee Ne]. apply Forall_cons in R1 as [R1 [R1' _]%Forall_cons].
    repeat constructor; cbn [b_addr b_size b_tag b_kind]; rewrite ?Es, ?Ee; try apply R1; try apply R1'; done.
  - destruct (L2 _ Hs) as [_ ->]; done.
  - destruct (L2 _ Hle) as [_ ->]; done.
Qed.

Lemma define_regions_spec xStart regions : forall lo h bl,
  growing xStart h bl -> regions_fit xStart lo regions -> 0 <= lo <= 2 ^ 32 ->
  (forall e, last bl = Some e -> b_addr e + 8 <= lo) ->
  wp (define_regions xStart (bool_decide (bl = [])) regions) (fun total h' =>
    growing xStart h' (bl ++ heap_blocks regions) /\ 0 <= total <= 2 ^ 32 - lo
    /\ (heap_blocks regions <> [] -> 0 < total < 2 ^ 32)) h.
Proof.
  induction regions as [|r rest IH]; intros lo h bl Hgr Hfit Hlo He; [done|]. cbn [regions_fit define_regions heap_blocks] in *.
  destruct (0 <? xSizeInBytes r).
  2:{ wp_step. rewrite app_nil_r. split_and!; [done|lia|lia|done]. }
  destruct (region_xTag r =? -1); [by apply IH|]. destruct Hfit as (Hf & Hle & Hrest).
  pose proof (region_numbers _ _ Hf) as (_ & _ & N3 & N4). pose proof Hf as (F1 & F2 & F3 & F4 & F5 & F6).
  apply wp_bind. eapply wp_mono; [apply define_region_spec; [done|done|]|].
  { intros e Hl. specialize (He e Hl). lia. }
  cbn beta. intros size h1 [-> Hg1]. apply wp_bind.
  pose proof (IH (region_last r + 8) h1 (bl ++ region_blocks r) Hg1 Hrest ltac:(lia)) as IH1.
  rewrite bool_decide_false in IH1 by (by destruct bl).
  eapply wp_mono; [apply IH1|].
  { unfold region_blocks. rewrite last_app. cbn. intros e [= <-]. cbn. lia. }
  cbn beta. intros total h2 (Hg2 & Ht & _). rewrite <- app_assoc in Hg2. wp_step.
  rewrite u32_small by lia. split_and!; [done|lia|lia|lia].
Qed.

(** No block can serve the request. *)
Definition refuses (bl : list block) (tag n : Z) : Prop :=
  n = 0 \/ Forall (fun b => ~ fits tag (wanted_size n) b) bl.

(** The first block [x] that fits serves the request: [u] is its front part
    or all of it, [p] the payload, and [l1 ++ u :: k2] the blocks after. *)
Record serves (xStart : Z) (h' : heap) (bl : list block) (tag n p : Z)
    (l1 : list block) (x : block) (l2 : list block) (u : block) (k2 : list block) : Prop := {
  sv_pos : 0 < n;
  sv_split : bl = l1 ++ x :: l2;
  sv_fits : fits tag (wanted_size n) x;
  sv_first : Forall (fun b => ~ fits tag (wanted_size n) b) l1;
  sv_carve : carve x (wanted_size n) ++ l2 = u :: k2;
  sv_inv : heap_inv xStart h' (l1 ++ u :: k2);
  sv_addr : p = b_addr u + 8;
  sv_aligned : p mod 4 = 0;
  sv_inside : b_addr x = b_addr u /\ b_size u <= b_size x;
  sv_room : p + n <= b_addr u + b_size u
}.

Lemma malloc_cases xStart fuel h bl n tag :
  heap_inv xStart h bl -> 0 <= tag < 16 -> 0 <= n <= 2 ^ 32 - 12 -> (length bl <= fuel)%nat ->
  exists p h', pvPortMallocTagged xStart fuel n tag h = Ret (p, h') /\ kept bl (mem h) (mem h')
    /\ ((p = 0 /\ h' = h /\ refuses bl tag n) \/ exists l1 x l2 u k2, serves xStart h' bl tag n p l1 x l2 u k2).
Proof.
  intros Hinv Htag Hn Hfu. destruct (wp_inv _ _ _ (malloc_spec _ _ _ _ _ _ Hinv Htag Hn Hfu)) as (p & h' & Hrun & Hcase).
  exists p, h'. split; [done|]. destruct Hcase as [(-> & -> & Hno)|(l1 & x & l2 & Hp & -> & Hfit & HN & -> & Hinv' & Hu)].
  { split; [by intros y a _|left; auto]. }
  pose proof Hfit as (Hk & Ht & Hw). destruct (wanted_size_spec n ltac:(lia)) as (W1 & W2 & W3).
  split; [eapply payload_kept; [by destruct Hinv'| |done]; intros y; by apply used_carved|].
  right. destruct (carve x (wanted_size n) ++ l2) as [|u k2] eqn:Ec; [unfold carve in Ec; by destruct (_ <? _)|].
  destruct (carve_head _ _ _ _ _ Hk Ec) as (U1 & U2 & U3 & U4).
  destruct Hinv as [_ Hg _ _ _]. pose proof (geometry_block _ _ _ _ Hg ltac:(congruence)) as (B1 & B2 & B3 & B4 & B5 & _).
  exists l1, x, l2, u, k2. split; rewrite ?U2; try done.
  - by apply mod4_add.
  - split; [done|]. rewrite U4. destruct (Z.ltb_spec heapMINIMUM_BLOCK_SIZE (b_size x - wanted_size n)); [|lia].
    change heapMINIMUM_BLOCK_SIZE with 16 in *. lia.
  - rewrite U4. destruct (_ <? _); lia.
Qed.

Lemma define_spec xStart regions m :
  0 < xStart -> xStart + 8 <= 2 ^ 32 -> regions_fit xStart 0 regions -> heap_blocks regions <> [] ->
  wp (vPortDefineHeapRegionsTagged xStart regions) (fun _ h => heap_inv xStart h (heap_blocks regions)) (empty_heap m).
Proof.
  intros H1 H2 Hf Hne. unfold vPortDefineHeapRegionsTagged. do 2 wp_step. apply wp_bind, wp_check; [done|]. apply wp_bind.
  eapply wp_mono; [by apply (define_regions_spec xStart regions 0 _ []); [apply growing_empty| |lia|]|].
  cbn beta. intros total h (Hg & _ & Ht). destruct (Ht Hne). apply wp_check.
  - by rewrite (proj2 (Z.eqb_neq _ _)) by lia.
  - by apply growing_inv.
Qed.

(** A heap of two regions, the first not aligned, with one skipped in
    between; and the same heap after two allocations of 100 and 24 bytes. *)
Definition ex_regions : list HeapRegionTagged_t :=
  [HeapRegionTagged 0x1001 0x203 1 0; HeapRegionTagged 0x2000 64 (-1) 0; HeapRegionTagged 0x3000 256 2 0;
   HeapRegionTagged 0 0 0 0].
Definition ex_heap : heap :=
  match vPortDefineHeapRegionsTagged 0x100 ex_regions (empty_heap (fun _ => 0)) with
  | Ret (_, h) => h | Stuck _ => empty_heap (fun _ => 0) end.
Definition ex_blocks : list block := Eval vm_compute in heap_blocks ex_regions.

Lemma ex_heap_inv : heap_inv 0x100 ex_heap ex_blocks.
Proof.
  assert (HW : wp (vPortDefineHeapRegionsTagged 0x100 ex_regions)
    (fun _ h => heap_inv 0x100 h (heap_blocks ex_regions)) (empty_heap (fun _ => 0))).
  { apply define_spec; [lia|lia| |done]. unfold ex_regions, region_fits. vm_compute. intuition discriminate. }
  unfold ex_heap. apply wp_inv in HW as (? & h & -> & Hi). exact Hi.
Qed.

(** The block of the first allocation. *)
Definition ex_used : block := Block 0x1004 108 1 Used.
Definition ex_rest : list block :=
  [Block 0x1070 396 1 Free; Block 0x11FC 0 (-1) End_; Block 0x3000 248 2 Free; Block 0x30F8 0 (-1) End_].
Definition ex_after : heap :=
  match pvPortMallocTagged 0x100 8 100 1 ex_heap with Ret (_, h) => h | Stuck _ => ex_heap end.

Lemma ex_after_inv : heap_inv 0x100 ex_after ([] ++ ex_used :: ex_rest).
Proof.
  pose proof (malloc_spec 0x100 8 ex_heap ex_blocks 100 1 ex_heap_inv ltac:(lia) ltac:(lia) ltac:(cbn; lia)) as HM.
  unfold ex_after. apply wp_inv in HM as (p & h & -> & [(_ & _ & [?|Hno])|(l1 & x & l2 & _ & E & (F1 & F2 & F3) & HN & _ & Hi & _)]); [done| |].
  { apply Forall_cons in Hno as [Hno _]. destruct Hno. by split_and!. }
  destruct l1 as [|y l1]; [injection E as <- <-; exact Hi|]. injection E as <- E. apply Forall_cons in HN as [HN _].
  destruct HN. by split_and!.
Qed.

(** ** The claims *)

(** C38: a table of regions in the order of their addresses (each large
    enough for a header and an end marker, below 8 MiB and apart from
    [xStart]; aligned or not, those with tag -1 skipped) gives a heap that
    satisfies the invariant of the allocator, with one free block per region:
    every header is in memory with its bit fields, the free list runs through
    the blocks and end markers in order, and the byte counters of all sixteen
    tags are exact. *)
Theorem define_gives_heap xStart regions m :
  0 < xStart -> xStart + 8 <= 2 ^ 32 -> regions_fit xStart 0 regions -> heap_blocks regions <> [] ->
  exists h, vPortDefineHeapRegionsTagged xStart regions (empty_heap m) = Ret (tt, h)
    /\ heap_inv xStart h (heap_blocks regions).
Proof.
  intros H1 H2 Hf Hne. destruct (wp_inv _ _ _ (define_spec _ _ m H1 H2 Hf Hne)) as ([] & h & Hrun & Hi). by exists h.
Qed.

Lemma define_gives_heap_witness :
  regions_fit 0x100 0 ex_regions
  /\ exists h, vPortDefineHeapRegionsTagged 0x100 ex_regions (empty_heap (fun _ => 0)) = Ret (tt, h)
       /\ heap_inv 0x100 h (heap_blocks ex_regions).
Proof.
  assert (H : regions_fit 0x100 0 ex_regions) by (vm_compute; intuition discriminate).
  split; [exact H|]. apply define_gives_heap; [lia|lia|exact H|discriminate].
Defined.

(** C18: [pvPortMallocTagged] of at most 2^32 - 12 bytes on a heap that
    satisfies the invariant always returns. It gives [NULL] and changes
    nothing when the request is 0 or no free block with the tag is large
    enough; otherwise it takes the first one that is, and gives an aligned
    payload of at least the size asked for, inside the block that was free.
    The invariant holds again (block headers, free list, byte counters), with
    the block cut when more than two headers are left over, and no word of a
    block in use has changed. (For larger requests heap_regions.c:206
    overflows, [malloc_size_overflow].) *)
Theorem malloc_first_fit xStart fuel h bl n tag :
  heap_inv xStart h bl -> 0 <= tag < 16 -> 0 <= n <= 2 ^ 32 - 12 -> (length bl <= fuel)%nat ->
  exists p h', pvPortMallocTagged xStart fuel n tag h = Ret (p, h') /\ kept bl (mem h) (mem h')
    /\ ((p = 0 /\ h' = h /\ refuses bl tag n) \/ exists l1 x l2 u k2, serves xStart h' bl tag n p l1 x l2 u k2).
Proof. exact (malloc_cases xStart fuel h bl n tag). Qed.

Lemma malloc_first_fit_witness :
  exists p h', pvPortMallocTagged 0x100 8 100 1 ex_heap = Ret (p, h') /\ kept ex_blocks (mem ex_heap) (mem h').
Proof.
  destruct (malloc_first_fit 0x100 8 ex_heap ex_blocks 100 1 ex_heap_inv) as (p & h' & H1 & H2 & _);
    [lia|lia|cbn; lia|]. exists p, h'. split; [exact H1|exact H2].
Defined.

(** C19: [vPortFreeTagged] of a block in use always returns.  The block joins
    the free blocks in front of it and behind it, so that two free blocks are
    never neighbours; the invariant holds again, the free bytes of its tag
    grow by its size and those of the other tags stay, and no word of the
    blocks in use has changed. *)
Theorem free_coalesces xStart fuel h l1 b l2 :
  heap_inv xStart h (l1 ++ b :: l2) -> b_kind b = Used -> (length l1 <= fuel)%nat ->
  exists h', vPortFreeTagged xStart fuel (b_addr b + 8) h = Ret (tt, h')
    /\ heap_inv xStart h' (coalesce l1 b l2) /\ kept (l1 ++ b :: l2) (mem h) (mem h')
    /\ forall t, 0 <= t < 16 ->
         at_ 0 (xFreeBytesRemaining h') t
         = at_ 0 (xFreeBytesRemaining h) t + if b_tag b =? t then b_size b else 0.
Proof.
  intros Hinv Hk Hfu. destruct (wp_inv _ _ _ (free_spec _ _ _ _ _ _ Hinv Hk Hfu)) as ([] & h' & Hrun & Hinv' & Hu).
  pose proof Hinv as [_ Hg _ [_ Hb] _]. pose proof Hinv' as [_ _ _ [_ Hb'] _].
  exists h'. split_and!; [done|done|by eapply payload_kept|].
  intros t Ht. rewrite Hb', Hb by done. by rewrite (free_sum_coalesce xStart).
Qed.

Lemma free_coalesces_witness :
  exists h', vPortFreeTagged 0x100 8 0x100C ex_after = Ret (tt, h')
    /\ heap_inv 0x100 h' (coalesce [] ex_used ex_rest) /\ coalesce [] ex_used ex_rest = ex_blocks.
Proof.
  destruct (free_coalesces 0x100 8 ex_after [] ex_used ex_rest ex_after_inv) as (h' & H1 & H2 & _);
    [reflexivity|cbn; lia|]. exists h'. split; [exact H1|]. split; [exact H2|]. vm_compute. reflexivity.
Defined.

(** Allocating and freeing again gives back the very same blocks: what
    [pvPortMallocTagged] cut off and what it left over are joined, and nothing
    else is. *)
Theorem malloc_free_roundtrip xStart fuel h bl n tag p h1 :
  heap_inv xStart h bl -> 0 <= tag < 16 -> 0 <= n <= 2 ^ 32 - 12 -> (length bl <= fuel)%nat ->
  pvPortMallocTagged xStart fuel n tag h = Ret (p, h1) ->
  exists h2, vPortFreeTagged xStart fuel p h1 = Ret (tt, h2) /\ heap_inv xStart h2 bl
    /\ xFreeBytesRemaining h2 = xFreeBytesRemaining h.
Proof.
  intros Hinv Htag Hn Hfu Hrun. pose proof (malloc_spec _ _ _ _ _ _ Hinv Htag Hn Hfu) as HM. unfold wp in HM. rewrite Hrun in HM.
  destruct HM as [(-> & -> & _)|(l1 & x & l2 & Hp & -> & (Hk & _) & _ & -> & Hinv1 & _)]; [by exists h|].
  destruct (carve x (wanted_size n) ++ l2) as [|u k2] eqn:Ec; [unfold carve in Ec; by destruct (_ <? _)|].
  destruct (carve_head _ _ _ _ _ Hk Ec) as (U1 & U2 & _). rewrite length_app in Hfu.
  destruct (wp_inv _ _ _ (free_spec _ fuel _ _ _ _ Hinv1 U1 ltac:(lia))) as ([] & h2 & Hrun2 & Hinv2 & _).
  pose proof Hinv as [_ Hg _ _ _]. rewrite (coalesce_carve xStart _ x l2 (wanted_size n)) in Hinv2 by done.
  exists h2. rewrite <- U2. split_and!; [done|done|by eapply bytes_determined].
Qed.

Lemma malloc_free_roundtrip_witness :
  exists p h1 h2, pvPortMallocTagged 0x100 8 100 1 ex_heap = Ret (p, h1) /\ p = 0x100C
    /\ vPortFreeTagged 0x100 8 p h1 = Ret (tt, h2) /\ heap_inv 0x100 h2 ex_blocks.
Proof.
  assert (E : match pvPortMallocTagged 0x100 8 100 1 ex_heap with Ret (p, _) => p | Stuck _ => 0 end = 0x100C)
    by (vm_compute; reflexivity).
  destruct (pvPortMallocTagged 0x100 8 100 1 ex_heap) as [[p h1]|] eqn:Hrun; [|discriminate E].
  destruct (malloc_free_roundtrip 0x100 8 ex_heap ex_blocks 100 1 p h1 ex_heap_inv) as (h2 & H1 & H2 & _);
    [lia|lia|cbn; lia|exact Hrun|]. exists p, h1, h2. split; [reflexivity|]. split; [exact E|]. split; [exact H1|exact H2].
Defined.

(** ** Sizes the code does not check *)

(** The size of a request plus its header is not checked for overflow: a
    request for almost 4 GiB is served with a block of 4 bytes, the header
    of what is left over is written over its own, and the counter of free
    bytes wraps. *)
Example malloc_size_overflow :
  match pvPortMallocTagged 0x100 8 0xFFFFFFFC 1 ex_heap with
  | Ret (p, h) => (p, get_size (mem h 0x1008), xFreeBytesRemaining h !! 1%nat)
  | Stuck _ => (0, 0, None)
  end = (0x100C, 0x11FC, Some 4294963196).
Proof. vm_compute. reflexivity. Qed.

(** A region of 9 MiB is accepted, but its size does not fit the signed
    24-bit field: the counter of free bytes is near 4 GiB, and a request that
    no block can serve runs past the end of the list. *)
Definition big_regions : list HeapRegionTagged_t := [HeapRegionTagged 0x100000 0x900000 1 0; HeapRegionTagged 0 0 0 0].
Example region_too_large :
  match vPortDefineHeapRegionsTagged 0x100 big_regions (empty_heap (fun _ => 0)) with
  | Ret (_, h) => (xFreeBytesRemaining h !! 1%nat, get_size (mem h 0x100004))
  | Stuck _ => (None, 0)
  end = (Some 4287627256, -7340040).
Proof. vm_compute. reflexivity. Qed.
