(* ===== verification/HeapCaps.v ===== *)
(** * The capability-aware heap (components/esp32/heap_alloc_caps.c)

    [malloc] and [free] of the system.  The RAM of the chip comes in regions
    with a tag, and a table says which capabilities memory with a tag has and
    with which priority it serves them.  [pvPortMallocCaps] goes through the
    table and calls the tagged allocator of [HeapRegions]; memory that must be
    executable and comes from a region with an alias in the instruction space
    is handed out by its alias, with the address to free in the word before
    it.  [heap_alloc_caps_init] cuts what the program and the ROM occupy out
    of the table of regions, joins neighbours and starts the tagged allocator.

    State: the tagged heap, the table of regions and the flag that keeps the
    start-up stacks' memory out of reach.  The symbols of the linker script
    are arguments, the Kconfig options a record.  A word of the D/IRAM region
    has two addresses, in opposite order; memory is indexed by the data
    address, and [alias] translates. *)

From stdpp Require Import sorting.
From S2P Require Import Prelude HeapRegions.

#[local] Open Scope Z_scope.

(** ** Tables *)

Definition MALLOC_CAP_EXEC : Z := Z.shiftl 1 0.
Definition MALLOC_CAP_32BIT : Z := Z.shiftl 1 1.
Definition MALLOC_CAP_8BIT : Z := Z.shiftl 1 2.
Definition MALLOC_CAP_DMA : Z := Z.shiftl 1 3.
Definition MALLOC_CAP_PID2 : Z := Z.shiftl 1 4.
Definition MALLOC_CAP_PID3 : Z := Z.shiftl 1 5.
Definition MALLOC_CAP_PID4 : Z := Z.shiftl 1 6.
Definition MALLOC_CAP_PID5 : Z := Z.shiftl 1 7.
Definition MALLOC_CAP_PID6 : Z := Z.shiftl 1 8.
Definition MALLOC_CAP_PID7 : Z := Z.shiftl 1 9.
Definition MALLOC_CAP_SPISRAM : Z := Z.shiftl 1 10.
Definition MALLOC_CAP_INVALID : Z := Z.shiftl 1 31.

Definition NO_PRIOS : nat := 3.

Record tag_desc_t : Type := TagDesc { name : string; prio : list Z; aliasedIram : bool }.

Notation "a .| b" := (Z.lor a b) (at level 50, left associativity).

Definition tag_desc : list tag_desc_t :=
  [ TagDesc "DRAM" [MALLOC_CAP_DMA .| MALLOC_CAP_8BIT; MALLOC_CAP_32BIT; 0] false;
    TagDesc "D/IRAM" [0; MALLOC_CAP_DMA .| MALLOC_CAP_8BIT; MALLOC_CAP_32BIT .| MALLOC_CAP_EXEC] true;
    TagDesc "IRAM" [MALLOC_CAP_EXEC .| MALLOC_CAP_32BIT; 0; 0] false;
    TagDesc "PID2IRAM" [MALLOC_CAP_PID2; 0; MALLOC_CAP_EXEC .| MALLOC_CAP_32BIT] false;
    TagDesc "PID3IRAM" [MALLOC_CAP_PID3; 0; MALLOC_CAP_EXEC .| MALLOC_CAP_32BIT] false;
    TagDesc "PID4IRAM" [MALLOC_CAP_PID4; 0; MALLOC_CAP_EXEC .| MALLOC_CAP_32BIT] false;
    TagDesc "PID5IRAM" [MALLOC_CAP_PID5; 0; MALLOC_CAP_EXEC .| MALLOC_CAP_32BIT] false;
    TagDesc "PID6IRAM" [MALLOC_CAP_PID6; 0; MALLOC_CAP_EXEC .| MALLOC_CAP_32BIT] false;
    TagDesc "PID7IRAM" [MALLOC_CAP_PID7; 0; MALLOC_CAP_EXEC .| MALLOC_CAP_32BIT] false;
    TagDesc "PID2DRAM" [MALLOC_CAP_PID2; MALLOC_CAP_8BIT; MALLOC_CAP_32BIT] false;
    TagDesc "PID3DRAM" [MALLOC_CAP_PID3; MALLOC_CAP_8BIT; MALLOC_CAP_32BIT] false;
    TagDesc "PID4DRAM" [MALLOC_CAP_PID4; MALLOC_CAP_8BIT; MALLOC_CAP_32BIT] false;
    TagDesc "PID5DRAM" [MALLOC_CAP_PID5; MALLOC_CAP_8BIT; MALLOC_CAP_32BIT] false;
    TagDesc "PID6DRAM" [MALLOC_CAP_PID6; MALLOC_CAP_8BIT; MALLOC_CAP_32BIT] false;
    TagDesc "PID7DRAM" [MALLOC_CAP_PID7; MALLOC_CAP_8BIT; MALLOC_CAP_32BIT] false;
    TagDesc "SPISRAM" [MALLOC_CAP_SPISRAM; 0; MALLOC_CAP_DMA .| MALLOC_CAP_8BIT .| MALLOC_CAP_32BIT] false;
    TagDesc "" [MALLOC_CAP_INVALID; MALLOC_CAP_INVALID; MALLOC_CAP_INVALID] false ].

(** [n] regions of 8 KiB from [start] on: the pages of a pool. *)
Fixpoint pages (start : Z) (tag : Z) (n : nat) : list HeapRegionTagged_t :=
  match n with
  | O => []
  | S n => HeapRegionTagged start 0x2000 tag 0 :: pages (start + 0x2000) tag n
  end.

Definition initial_regions : list HeapRegionTagged_t :=
  [ HeapRegionTagged 0x3F800000 0x20000 15 0;
    HeapRegionTagged 0x3FFAE000 0x2000 0 0;
    HeapRegionTagged 0x3FFB0000 0x8000 0 0;
    HeapRegionTagged 0x3FFB8000 0x8000 0 0 ]
  ++ pages 0x3FFC0000 0 16
  ++ [ HeapRegionTagged 0x3FFE0000 0x4000 1 0x400BC000;
       HeapRegionTagged 0x3FFE4000 0x4000 1 0x400B8000;
       HeapRegionTagged 0x3FFE8000 0x8000 1 0x400B0000;
       HeapRegionTagged 0x3FFF0000 0x8000 1 0x400A8000;
       HeapRegionTagged 0x3FFF8000 0x4000 1 0x400A4000;
       HeapRegionTagged 0x3FFFC000 0x4000 1 0x400A0000;
       HeapRegionTagged 0x40070000 0x8000 2 0;
       HeapRegionTagged 0x40078000 0x8000 2 0 ]
  ++ pages 0x40080000 2 16
  ++ [ HeapRegionTagged 0 0 0 0 ].

Record caps_state : Type := CapsState {
  the_heap : heap;
  regions : list HeapRegionTagged_t;
  nonos_stack_in_use : bool
}.

Definition with_heap (h : heap) (s : caps_state) : caps_state := CapsState h (regions s) (nonos_stack_in_use s).
Definition with_regions (r : list HeapRegionTagged_t) (s : caps_state) : caps_state :=
  CapsState (the_heap s) r (nonos_stack_in_use s).

(** A call of the tagged allocator. *)
Definition on_heap {A} (m : M heap A) : M caps_state A := fun s =>
  match m (the_heap s) with Ret (a, h) => Ret (a, with_heap h s) | Stuck e => Stuck e end.

Definition NONOS_STACK_TAG : Z := 1.

Definition heap_alloc_enable_nonos_stack_tag : M caps_state unit :=
  modify (fun s => CapsState (the_heap s) (regions s) false).

(** ** Start-up *)

Definition retag (r : HeapRegionTagged_t) (tag : Z) : HeapRegionTagged_t :=
  HeapRegionTagged (pucStartAddress r) (xSizeInBytes r) tag (xExecAddr r).

(** The body of the loop of [disable_mem_region]. *)
Definition disable_region (from to : Z) (r : HeapRegionTagged_t) : HeapRegionTagged_t :=
  let regStart := pucStartAddress r in
  let regEnd := u32 (pucStartAddress r + xSizeInBytes r) in
  if (from <=? regStart) && (regEnd <=? to) then retag r (-1)
  else if (from <=? regStart) && (to <? regEnd) && (regStart <? to) then
    let overlap := to - regStart in
    HeapRegionTagged (u32 (regStart + overlap)) (u32 (xSizeInBytes r - overlap)) (region_xTag r)
      (if negb (xExecAddr r =? 0) then u32 (xExecAddr r + overlap) else xExecAddr r)
  else if (regStart <? from) && (from <? regEnd) && (regEnd <=? to) then
    HeapRegionTagged regStart (u32 (xSizeInBytes r - (regEnd - from))) (region_xTag r) (xExecAddr r)
  else if (regStart <? from) && (to <? regEnd) then retag r (-1)
  else r.

(** [for (i = 0; regions[i].xSizeInBytes != 0; i++)] *)
Fixpoint map_regions (f : HeapRegionTagged_t -> HeapRegionTagged_t) (l : list HeapRegionTagged_t) :
    outcome (list HeapRegionTagged_t) :=
  match l with
  | [] => Stuck OutOfBounds
  | r :: rest =>
      if xSizeInBytes r =? 0 then Ret l
      else rest ← map_regions f rest; Ret (f r :: rest)
  end.

Definition disable_mem_region (from to : Z) : M caps_state unit :=
  let from := Z.land from 0xFFFFFFFC in
  let to := Z.land (u32 (to + 3)) 0xFFFFFFFC in
  s ← get;
  l ← lift (map_regions (disable_region from to) (regions s));
  modify (with_regions l).

(** [for (i = 1; ...)]: neighbours with one tag are joined in the second. *)
Fixpoint coalesce_regions (prev : HeapRegionTagged_t) (l : list HeapRegionTagged_t) :
    outcome (list HeapRegionTagged_t) :=
  match l with
  | [] => Stuck OutOfBounds
  | r :: rest =>
      if xSizeInBytes r =? 0 then Ret (prev :: l)
      else if (pucStartAddress r =? u32 (pucStartAddress prev + xSizeInBytes prev))
              && (region_xTag r =? region_xTag prev) then
        let joined := HeapRegionTagged (pucStartAddress prev) (u32 (xSizeInBytes r + xSizeInBytes prev))
                        (region_xTag r) (xExecAddr r) in
        rest ← coalesce_regions joined rest; Ret (retag prev (-1) :: rest)
      else rest ← coalesce_regions r rest; Ret (prev :: rest)
  end.

Record config : Type := Config {
  BT_ENABLED : bool;
  BT_DRAM_RELEASE : bool;
  MEMMAP_TRACEMEM : bool;
  MEMMAP_TRACEMEM_TWOBANKS : bool
}.

(** The calls of [disable_mem_region], in order. *)
Definition reserved (c : config) (data_start heap_start init_start iram_text_end : Z) : list (Z * Z) :=
  [ (data_start, heap_start); (init_start, iram_text_end); (0x40070000, 0x40078000); (0x40078000, 0x40080000);
    (0x3ffe0000, 0x3ffe0440); (0x3ffe4000, 0x3ffe4350) ]
  ++ (if BT_ENABLED c then
        (if BT_DRAM_RELEASE c
         then [(0x3ffb0000, 0x3ffb3000); (0x3ffb8000, 0x3ffbbb28); (0x3ffbdb28, 0x3ffc0000)]
         else [(0x3ffb0000, 0x3ffc0000)]) ++ [(0x3ffae000, 0x3ffaff10)]
      else [(0x3ffae000, 0x3ffae2a0)])
  ++ (if MEMMAP_TRACEMEM c
      then if MEMMAP_TRACEMEM_TWOBANKS c then [(0x3fff8000, 0x40000000)] else [(0x3fff8000, 0x3fffc000)]
      else [])
  ++ [(0x3f800000, 0x3f820000)].

Fixpoint disable_all (l : list (Z * Z)) : M caps_state unit :=
  match l with
  | [] => mret tt
  | (from, to) :: l => disable_mem_region from to;; disable_all l
  end.

(** [heap_alloc_caps_init] up to the call of the tagged allocator. *)
Definition prepare_regions (c : config) (data_start heap_start init_start iram_text_end : Z) : M caps_state unit :=
  disable_all (reserved c data_start heap_start init_start iram_text_end);;
  s ← get;
  l ← lift (match regions s with [] => Stuck OutOfBounds | r :: rest => coalesce_regions r rest end);
  modify (with_regions l).

Section Code.
Variable xStart : Z.
Variable fuel : nat.

Definition heap_alloc_caps_init (c : config) (data_start heap_start init_start iram_text_end : Z) :
    M caps_state unit :=
  prepare_regions c data_start heap_start init_start iram_text_end;;
  l ← gets regions;
  on_heap (vPortDefineHeapRegionsTagged xStart l).

(** ** Allocation by capability *)

Definition DIRAM_IRAM_START : Z := 0x400A0000.
Definition DIRAM_IRAM_END : Z := 0x400BFFFC.
Definition DIRAM_DRAM_START : Z := 0x3FFE0000.
Definition DIRAM_DRAM_END : Z := 0x3FFFFFFC.

(** The data address of a word: the alias runs from the highest data address
    down. *)
Definition alias (a : Z) : Z :=
  if (DIRAM_IRAM_START <=? a) && (a <=? DIRAM_IRAM_END) then DIRAM_DRAM_END - (a - DIRAM_IRAM_START) else a.

Definition dram_alloc_to_iram_addr (addr len : Z) : M caps_state Z :=
  let dstart := addr in
  let dend := u32 (addr + len - 4) in
  check (DIRAM_DRAM_START <=? dstart);;
  check (dend <=? DIRAM_DRAM_END);;
  check (Z.land dstart 3 =? 0);;
  check (Z.land dend 3 =? 0);;
  let istart := u32 (DIRAM_IRAM_START + (DIRAM_DRAM_END - dend)) in
  modify (fun s => with_heap (with_mem (st (mem (the_heap s)) (alias istart) dstart) (the_heap s)) s);;
  mret (u32 (istart + 4)).

(** [remCaps] after the priorities [ps]. *)
Fixpoint remaining (remCaps : Z) (ps : list Z) : Z :=
  match ps with
  | [] => remCaps
  | p :: ps => if remCaps =? 0 then remCaps else remaining (Z.ldiff remCaps p) ps
  end.

(** One tag that satisfies the request; [None] is [NULL]. *)
Definition alloc_from (xWantedSize caps tag : Z) (d : tag_desc_t) : M caps_state (option Z) :=
  if negb (Z.land caps MALLOC_CAP_EXEC =? 0) && aliasedIram d then
    ret ← on_heap (pvPortMallocTagged xStart fuel (u32 (xWantedSize + 4)) tag);
    if negb (ret =? 0) then
      p ← dram_alloc_to_iram_addr ret (u32 (xWantedSize + 4)); mret (Some p)
    else mret None
  else
    ret ← on_heap (pvPortMallocTagged xStart fuel xWantedSize tag);
    if negb (ret =? 0) then mret (Some ret) else mret None.

(** The tags for one priority. *)
Fixpoint try_tags (xWantedSize caps : Z) (i : nat) (tag : Z) (descs : list tag_desc_t) : M caps_state (option Z) :=
  match descs with
  | [] => stuck OutOfBounds
  | d :: descs =>
      p ← lift (rd (prio d) (Z.of_nat i));
      if p =? MALLOC_CAP_INVALID then mret None
      else
        nonos ← gets nonos_stack_in_use;
        r ← (if nonos && (tag =? NONOS_STACK_TAG) then mret None
             else if negb (Z.land p caps =? 0)
                     && (remaining (Z.ldiff caps p) (drop (S i) (prio d)) =? 0)
             then alloc_from xWantedSize caps tag d
             else mret None);
        match r with
        | Some ret => mret (Some ret)
        | None => try_tags xWantedSize caps i (tag + 1) descs
        end
  end.

Fixpoint try_prios (xWantedSize caps : Z) (i n : nat) : M caps_state Z :=
  match n with
  | O => mret 0
  | S n =>
      r ← try_tags xWantedSize caps i 0 tag_desc;
      match r with
      | Some ret => mret ret
      | None => try_prios xWantedSize caps (S i) n
      end
  end.

Definition pvPortMallocCaps (xWantedSize caps : Z) : M caps_state Z :=
  if negb (Z.land caps MALLOC_CAP_EXEC =? 0) then
    if negb (Z.land caps MALLOC_CAP_8BIT =? 0) || negb (Z.land caps MALLOC_CAP_DMA =? 0) then mret 0
    else try_prios (Z.land (u32 (xWantedSize + 3)) 0xFFFFFFFC) caps 0 NO_PRIOS
  else try_prios xWantedSize caps 0 NO_PRIOS.

Definition pvPortMalloc (xWantedSize : Z) : M caps_state Z := pvPortMallocCaps xWantedSize MALLOC_CAP_8BIT.

Definition vPortFree (pv : Z) : M caps_state unit :=
  if (DIRAM_IRAM_START <=? to_signed 32 pv) && (to_signed 32 pv <=? DIRAM_IRAM_END) then
    s ← get;
    on_heap (vPortFreeTagged xStart fuel (mem (the_heap s) (alias (u32 (pv - 4)))))
  else on_heap (vPortFreeTagged xStart fuel pv).
End Code.

(** ** Statistics *)

(** The sum over the tags for one priority. *)
Fixpoint sum_tags (size : Z -> M heap Z) (caps : Z) (i : nat) (tag : Z) (descs : list tag_desc_t) (ret : Z) :
    M caps_state Z :=
  match descs with
  | [] => stuck OutOfBounds
  | d :: descs =>
      p ← lift (rd (prio d) (Z.of_nat i));
      if p =? MALLOC_CAP_INVALID then mret ret
      else if negb (Z.land p caps =? 0) then
        v ← on_heap (size tag);
        sum_tags size caps i (tag + 1) descs (u32 (ret + v))
      else sum_tags size caps i (tag + 1) descs ret
  end.

Fixpoint sum_prios (size : Z -> M heap Z) (caps : Z) (i n : nat) (ret : Z) : M caps_state Z :=
  match n with
  | O => mret ret
  | S n => ret ← sum_tags size caps i 0 tag_desc ret; sum_prios size caps (S i) n ret
  end.

Definition xPortGetFreeHeapSizeCaps (caps : Z) : M caps_state Z :=
  sum_prios xPortGetFreeHeapSizeTagged caps 0 NO_PRIOS 0.
Definition xPortGetMinimumEverFreeHeapSizeCaps (caps : Z) : M caps_state Z :=
  sum_prios xPortGetMinimumEverFreeHeapSizeTagged caps 0 NO_PRIOS 0.
Definition xPortGetFreeHeapSize : M caps_state Z := xPortGetFreeHeapSizeCaps MALLOC_CAP_8BIT.
Definition xPortGetMinimumEverFreeHeapSize : M caps_state Z := xPortGetMinimumEverFreeHeapSizeCaps MALLOC_CAP_8BIT.

Definition initial_state (m : memory) : caps_state := CapsState (empty_heap m) initial_regions true.

(** ** What a caller gets *)

(** Addresses that [vPortFree] takes for an alias, and the address it frees. *)
Definition in_alias (p : Z) : bool := (DIRAM_IRAM_START <=? to_signed 32 p) && (to_signed 32 p <=? DIRAM_IRAM_END).
Definition handle (m : memory) (p : Z) : Z := if in_alias p then m (alias (u32 (p - 4))) else p.

(** The words of the [n] bytes at [p]. *)
Definition owns (p n a : Z) : Prop := exists i, 0 <= i < n /\ a = alias ((p + i) / 4 * 4).

(** The size that is asked of the tagged allocator. *)
Definition executable (caps : Z) : bool := negb (Z.land caps MALLOC_CAP_EXEC =? 0).
Definition rounded (n caps : Z) : Z := if executable caps then n + (- n) mod 4 else n.
Definition asked (n caps : Z) (d : tag_desc_t) : Z :=
  if executable caps && aliasedIram d then rounded n caps + 4 else rounded n caps.

(** The memory map: nothing of the heap lies at or above the alias, and
    blocks with the tag of the D/IRAM region lie in it. *)
Definition placed (b : block) : Prop :=
  b_addr b + extent b <= DIRAM_IRAM_START
  /\ (b_tag b = 1 -> DIRAM_DRAM_START <= b_addr b /\ b_addr b + b_size b <= DIRAM_DRAM_END + 4).

Lemma alias_low a : a < DIRAM_IRAM_START -> alias a = a.
Proof. intros H. unfold alias. by rewrite (proj2 (Z.leb_gt _ _)). Qed.

Lemma alias_high a :
  DIRAM_IRAM_START <= a <= DIRAM_IRAM_END -> alias a = DIRAM_DRAM_END - (a - DIRAM_IRAM_START).
Proof. intros [H1 H2]. unfold alias. apply Z.leb_le in H1, H2. by rewrite H1, H2. Qed.

Lemma in_alias_low p : 0 <= p < DIRAM_IRAM_START -> in_alias p = false.
Proof.
  intros H. unfold in_alias. rewrite to_signed_pos by (unfold DIRAM_IRAM_START in *; lia).
  by rewrite (proj2 (Z.leb_gt _ _)) by lia.
Qed.

Lemma in_alias_high p : DIRAM_IRAM_START <= p <= DIRAM_IRAM_END -> in_alias p = true.
Proof.
  intros H. unfold in_alias. rewrite to_signed_pos by (unfold DIRAM_IRAM_START, DIRAM_IRAM_END in *; lia).
  destruct H as [H1 H2]. apply Z.leb_le in H1, H2. by rewrite H1, H2.
Qed.

Lemma free_by_handle xStart fuel p s :
  vPortFree xStart fuel p s = on_heap (vPortFreeTagged xStart fuel (handle (mem (the_heap s)) p)) s.
Proof. unfold vPortFree, handle, in_alias. by destruct (_ && _). Qed.

(** The words behind a data pointer are the ones at it. *)
Lemma owns_data p n a :
  p mod 4 = 0 -> 0 <= p -> p + n <= DIRAM_IRAM_START -> owns p n a -> p <= a < p + n.
Proof.
  intros Hp H0 Hn (i & Hi & ->). pose proof (Z.div_mod (p + i) 4 ltac:(lia)). pose proof (Z.mod_pos_bound (p + i) 4 ltac:(lia)).
  rewrite alias_low by lia. pose proof (Z.div_mod p 4 ltac:(lia)).
  pose proof (Z.div_le_mono p (p + i) 4 ltac:(lia) ltac:(lia)). lia.
Qed.

(** The words behind an alias run downwards from the word before it. *)
Lemma owns_alias p n a :
  p mod 4 = 0 -> n mod 4 = 0 -> DIRAM_IRAM_START < p -> p + n <= DIRAM_IRAM_END + 4 -> owns p n a ->
  alias (p - 4) - n <= a < alias (p - 4).
Proof.
  intros Hp Hm H0 Hn (i & Hi & ->). pose proof (Z.div_mod (p + i) 4 ltac:(lia)) as D. pose proof (Z.mod_pos_bound (p + i) 4 ltac:(lia)).
  pose proof (Z.div_mod p 4 ltac:(lia)) as Dp. pose proof (Z.div_mod n 4 ltac:(lia)).
  pose proof (Z.div_le_mono p (p + i) 4 ltac:(lia) ltac:(lia)).
  assert ((p + i) / 4 < p / 4 + n / 4) by (apply Z.div_lt_upper_bound; lia).
  assert (DIRAM_IRAM_START mod 4 = 0) as D0 by done. pose proof (Z.div_mod DIRAM_IRAM_START 4 ltac:(lia)).
  rewrite !alias_high by (unfold DIRAM_IRAM_END in *; lia). lia.
Qed.

Definition in_payload (u : block) (a : Z) : Prop := b_addr u + 8 <= a < b_addr u + b_size u.

Section Caps.
Variable xStart : Z.
Variable fuel : nat.

Record caps_inv (s : caps_state) (bl : list block) : Prop := {
  ci_heap : heap_inv xStart (the_heap s) bl;
  ci_placed : Forall placed bl
}.

(** The request for [n] bytes was served at [p]: a block of the tagged heap,
    in which the caller's words lie, and from which [vPortFree] can find the
    address to free however the caller fills them. *)
Record granted (s s' : caps_state) (bl : list block) (tag n size p : Z) (u : block) (l1 k2 : list block) : Prop := {
  gd_block : exists x l2 pu, serves xStart (the_heap s') bl tag size pu l1 x l2 u k2;
  gd_inv : caps_inv s' (l1 ++ u :: k2);
  gd_rest : regions s' = regions s /\ nonos_stack_in_use s' = nonos_stack_in_use s;
  gd_kept : kept bl (mem (the_heap s)) (mem (the_heap s'));
  gd_aligned : 0 < p /\ p mod 4 = 0;
  gd_inside : forall a, owns p n a -> in_payload u a;
  gd_handle : forall m, (forall a, in_payload u a -> ~ owns p n a -> m a = mem (the_heap s') a) ->
    handle m p = b_addr u + 8
}.

Lemma placed_carve l1 x l2 want u k2 :
  Forall placed (l1 ++ x :: l2) -> b_kind x = Free -> 8 <= want <= b_size x ->
  carve x want ++ l2 = u :: k2 -> Forall placed (l1 ++ u :: k2).
Proof.
  rewrite !Forall_app, Forall_cons. intros (H1 & [Hx1 Hx2] & H3) Hk Hw <-. split; [done|].
  apply Forall_app. split; [|done]. unfold extent in Hx1. rewrite Hk in Hx1.
  unfold carve. destruct (Z.ltb_spec heapMINIMUM_BLOCK_SIZE (b_size x - want)) as [Hlt|Hge];
    repeat apply Forall_cons_2; try apply Forall_nil_2;
    (split; cbn; change heapMINIMUM_BLOCK_SIZE with 16 in *; [lia|intros Ht; specialize (Hx2 Ht); lia]).
Qed.
Lemma wp_on_heap {A} (m : M heap A) a h Q s :
  m (the_heap s) = Ret (a, h) -> Q a (with_heap h s) -> wp (on_heap m) Q s.
Proof. intros E HQ. unfold wp, on_heap. by rewrite E. Qed.

Lemma with_same s : with_heap (the_heap s) s = s.
Proof. by destruct s. Qed.

(** What a try at one tag does. *)
Definition tried (s : caps_state) (bl : list block) (tag n size : Z) (r : option Z) (s' : caps_state) : Prop :=
  match r with
  | None => s' = s /\ refuses bl tag size
  | Some p => exists u l1 k2, granted s s' bl tag n size p u l1 k2
  end.

(** The block that serves a request, in the memory map. *)
Lemma served_block h bl tag n p l1 x l2 u k2 :
  serves xStart h bl tag n p l1 x l2 u k2 -> Forall placed bl -> n <= 2 ^ 32 - 12 ->
  Forall placed (l1 ++ u :: k2) /\ b_kind u = Used /\ b_tag u = tag /\ placed u /\ 0 < b_addr u
  /\ b_addr u mod 4 = 0 /\ (forall y, y ∈ bl -> b_kind y = Used -> y ∈ l1 ++ k2).
Proof.
  intros [Hn Hs (F1 & F2 & F3) _ Hc Hi _ _ _ _] Hp Hn2. subst bl. destruct (wanted_size_spec n ltac:(lia)) as (W1 & _ & _).
  pose proof (placed_carve _ _ _ (wanted_size n) _ _ Hp F1 ltac:(lia) Hc) as Hp'.
  destruct (carve_head _ _ _ _ _ F1 Hc) as (U1 & U2 & U3 & _). destruct Hi as [_ Hg _ _ _].
  pose proof (geometry_block _ _ _ _ Hg ltac:(congruence)) as (B1 & B2 & _).
  split_and!; [done|done|congruence| |done|done|].
  { apply Forall_app in Hp' as [_ Hp']. by apply Forall_cons in Hp' as [? _]. }
  intros y Hy Hk. assert (l2 `suffix_of` k2) as [k ->].
  { unfold carve in Hc. destruct (_ <? _); cbn in Hc; injection Hc as _ <-; [by eexists [_]|by exists []]. }
  apply elem_of_app in Hy as [?|[->|?]%elem_of_cons]; [set_solver|congruence|set_solver].
Qed.

Lemma alloc_plain s bl tag n :
  caps_inv s bl -> 0 <= tag < 16 -> 0 <= n <= 2 ^ 32 - 12 -> (length bl <= fuel)%nat ->
  wp (ret ← on_heap (pvPortMallocTagged xStart fuel n tag);
      if negb (ret =? 0) then mret (Some ret) else mret None) (tried s bl tag n n) s.
Proof.
  intros [Hh Hp] Ht Hn Hfu. destruct (malloc_cases xStart fuel _ bl n tag Hh Ht Hn Hfu) as (p & h' & Hrun & Hk & Hcase).
  apply wp_bind. apply (wp_on_heap _ _ _ _ _ Hrun). destruct Hcase as [(-> & -> & Hr)|(l1 & x & l2 & u & k2 & Hs)].
  { apply wp_ret. by rewrite with_same. }
  destruct (served_block _ _ _ _ _ _ _ _ _ _ Hs Hp ltac:(lia)) as (P1 & P2 & P3 & [P4 _] & P5 & P6 & _).
  unfold extent in P4. rewrite P2 in P4. pose proof Hs as [Hpos _ _ _ _ Hi -> Hal _ Hroom].
  rewrite (proj2 (Z.eqb_neq _ _)) by lia. apply wp_ret. exists u, l1, k2. split; try done.
  - by exists x, l2, (b_addr u + 8).
  - lia.
  - intros a Ha. apply owns_data in Ha; [unfold in_payload; lia|done|lia|lia].
  - intros m _. unfold handle. by rewrite in_alias_low by lia.
Qed.
Lemma land3 x : x mod 4 = 0 -> (Z.land x 3 =? 0) = true.
Proof. intros H. change 3 with (Z.ones 2). rewrite Z.land_ones by lia. by apply Z.eqb_eq. Qed.

(** The executable alias of a block. *)
Lemma to_iram s u n :
  placed u -> b_kind u = Used -> b_tag u = 1 -> 0 < b_addr u -> b_addr u mod 4 = 0 ->
  0 <= n -> n mod 4 = 0 -> n + 12 <= b_size u ->
  wp (dram_alloc_to_iram_addr (b_addr u + 8) (n + 4)) (fun p s' => exists m',
    s' = with_heap (with_mem m' (the_heap s)) s /\ written u (mem (the_heap s)) m' /\ 0 < p /\ p mod 4 = 0
    /\ (forall a, owns p n a -> in_payload u a)
    /\ forall m, (forall a, in_payload u a -> ~ owns p n a -> m a = m' a) -> handle m p = b_addr u + 8) s.
Proof.
  intros [P1 P2] Hk Ht Ha Ha4 Hn Hn4 Hroom. specialize (P2 Ht) as [P2 P3].
  unfold extent in P1. rewrite Hk in P1. remember (b_addr u + 8 + n) as dend eqn:Ed.
  assert (Hd4 : dend mod 4 = 0) by (subst; apply mod4_add; [by apply mod4_add|done]).
  assert (Hdr : DIRAM_DRAM_START + 8 <= dend <= DIRAM_DRAM_END) by lia.
  set (istart := DIRAM_IRAM_START + (DIRAM_DRAM_END - dend)).
  assert (Hi : DIRAM_IRAM_START <= istart <= DIRAM_IRAM_END - 8).
  { unfold istart, DIRAM_DRAM_START, DIRAM_DRAM_END, DIRAM_IRAM_START, DIRAM_IRAM_END in *. lia. }
  assert (Hi4 : istart mod 4 = 0).
  { unfold istart. replace (DIRAM_IRAM_START + (DIRAM_DRAM_END - dend)) with ((DIRAM_IRAM_START + DIRAM_DRAM_END) - dend) by lia.
    by rewrite Zminus_mod, Hd4. }
  assert (Hal : alias istart = dend) by (rewrite alias_high by lia; unfold istart; lia).
  assert (Hbig : DIRAM_IRAM_END < 2 ^ 31 /\ DIRAM_DRAM_END < 2 ^ 31 /\ 0 < DIRAM_DRAM_START) by done.
  unfold dram_alloc_to_iram_addr. replace (b_addr u + 8 + (n + 4) - 4) with dend by lia. rewrite (u32_small dend) by lia.
  apply wp_bind, wp_check; [apply Z.leb_le; lia|]. apply wp_bind, wp_check; [apply Z.leb_le; lia|].
  apply wp_bind, wp_check; [by apply land3, mod4_add|]. apply wp_bind, wp_check; [by apply land3|].
  fold istart. rewrite (u32_small istart), (u32_small (istart + 4)), Hal by lia. do 3 wp_step.
  exists (st (mem (the_heap s)) dend (b_addr u + 8)). split_and!; [done| |lia|by apply mod4_add| |].
  - intros a Hout. apply st_ne. lia.
  - intros a Ho. apply owns_alias in Ho; [|by apply mod4_add|done|lia|]. 
    + replace (istart + 4 - 4) with istart in Ho by lia. rewrite Hal in Ho. unfold in_payload. lia.
    + unfold istart, DIRAM_DRAM_START, DIRAM_DRAM_END, DIRAM_IRAM_START, DIRAM_IRAM_END in *. lia.
  - intros m Hm. unfold handle. rewrite in_alias_high by lia. replace (istart + 4 - 4) with istart by lia.
    rewrite u32_small by lia. rewrite Hal, Hm; [apply st_eq|unfold in_payload; lia|]. intros Ho.
    apply owns_alias in Ho; [|by apply mod4_add|done|lia|].
    + replace (istart + 4 - 4) with istart in Ho by lia. lia.
    + unfold istart, DIRAM_DRAM_START, DIRAM_DRAM_END, DIRAM_IRAM_START, DIRAM_IRAM_END in *. lia.
Qed.
Lemma alloc_from_spec s bl n caps tag d :
  caps_inv s bl -> 0 <= tag < 16 -> (aliasedIram d = true -> tag = 1) -> 0 <= n <= 2 ^ 32 - 20 ->
  (executable caps = true -> n mod 4 = 0) -> (length bl <= fuel)%nat ->
  wp (alloc_from xStart fuel n caps tag d)
    (tried s bl tag n (if executable caps && aliasedIram d then n + 4 else n)) s.
Proof.
  intros Hinv Ht Hd Hn Hn4 Hfu. unfold alloc_from. fold (executable caps).
  destruct (executable caps) eqn:Ex, (aliasedIram d) eqn:Ed; cbn [andb]; try (apply alloc_plain; lia || done).
  specialize (Hd eq_refl). subst tag. specialize (Hn4 eq_refl). rewrite u32_small by lia. destruct Hinv as [Hh Hp].
  destruct (malloc_cases xStart fuel _ bl (n + 4) 1 Hh ltac:(lia) ltac:(lia) Hfu) as (p & h' & Hrun & Hk & Hcase).
  apply wp_bind. apply (wp_on_heap _ _ _ _ _ Hrun). destruct Hcase as [(-> & -> & Hr)|(l1 & x & l2 & u & k2 & Hs)].
  { apply wp_ret. by rewrite with_same. }
  destruct (served_block _ _ _ _ _ _ _ _ _ _ Hs Hp ltac:(lia)) as (P1 & P2 & P3 & P4 & P5 & P6 & P7).
  pose proof Hs as [_ _ _ _ _ Hi -> Hal _ Hroom]. rewrite (proj2 (Z.eqb_neq _ _)) by lia. cbn [negb]. apply wp_bind.
  eapply wp_mono; [apply (to_iram _ u n); try done; lia|]. cbn beta.
  intros p s' (m' & -> & Hw & Hp0 & Hp4 & Hown & Hhan). apply wp_ret. exists u, l1, k2.
  cbn [the_heap with_heap] in *. pose proof (heap_inv_payload _ _ _ _ _ _ Hi P2 Hw) as Hi'.
  split; cbn [the_heap with_heap mem with_mem regions nonos_stack_in_use]; try done.
  - exists x, l2, (b_addr u + 8). destruct Hs. by split.
  - intros y a Hy Hky Ha. rewrite Hw; [by apply (Hk y a)|]. destruct Hi as [_ Hg _ _ _].
    by apply (payloads_apart _ _ _ _ y a Hg P2); [apply P7| |].
Qed.
(** ** The order in which tags are tried *)

(** A tag that has, from a priority on, all the capabilities asked for. *)
Definition candidate (nonos : bool) (caps : Z) (i : nat) (td : Z * tag_desc_t) : bool :=
  let p := at_ 0 (prio td.2) (Z.of_nat i) in
  negb (nonos && (td.1 =? NONOS_STACK_TAG))
  && negb (Z.land p caps =? 0) && (remaining (Z.ldiff caps p) (drop (S i) (prio td.2)) =? 0).

(** The entries of the table up to its end. *)
Fixpoint entries (i : nat) (tag : Z) (descs : list tag_desc_t) : list (Z * tag_desc_t) :=
  match descs with
  | [] => []
  | d :: descs => if at_ 0 (prio d) (Z.of_nat i) =? MALLOC_CAP_INVALID then []
                  else (tag, d) :: entries i (tag + 1) descs
  end.

Definition candidates (nonos : bool) (caps : Z) (i : nat) : list (Z * tag_desc_t) :=
  filter (fun td => candidate nonos caps i td = true) (entries i 0 tag_desc).
Definition all_candidates (nonos : bool) (caps : Z) : list (Z * tag_desc_t) :=
  candidates nonos caps 0 ++ candidates nonos caps 1 ++ candidates nonos caps 2.

Fixpoint table_ok (i : nat) (tag : Z) (descs : list tag_desc_t) : Prop :=
  match descs with
  | [] => False
  | d :: descs => Z.of_nat i < Z.of_nat (length (prio d))
      /\ (at_ 0 (prio d) (Z.of_nat i) = MALLOC_CAP_INVALID
          \/ 0 <= tag < 16 /\ (aliasedIram d = true -> tag = 1) /\ table_ok i (tag + 1) descs)
  end.

Lemma tag_desc_ok i : (i < 3)%nat -> table_ok i 0 tag_desc.
Proof.
  intros Hi. destruct i as [|[|[|i]]]; [..|lia];
    repeat (split; [done|right; split; [lia|split; [done|]]]); by (split; [|left]).
Qed.

(** The outcome of going through candidates: the first that can serves. *)
Definition chosen (s : caps_state) (bl : list block) (n : Z) (size : tag_desc_t -> Z) (cs : list (Z * tag_desc_t))
    (r : option Z) (s' : caps_state) : Prop :=
  match r with
  | None => s' = s /\ Forall (fun td => refuses bl td.1 (size td.2)) cs
  | Some p => exists c1 tag d c2 u l1 k2, cs = c1 ++ (tag, d) :: c2
      /\ Forall (fun td => refuses bl td.1 (size td.2)) c1 /\ granted s s' bl tag n (size d) p u l1 k2
  end.

Lemma chosen_cons s bl n size td cs r s' :
  refuses bl td.1 (size td.2) -> chosen s bl n size cs r s' -> chosen s bl n size (td :: cs) r s'.
Proof.
  intros Hr. destruct r as [p|]; cbn.
  - intros (c1 & tag & d & c2 & u & l1 & k2 & -> & Hf & Hg). exists (td :: c1), tag, d, c2, u, l1, k2. auto.
  - intros [-> Hf]. auto.
Qed.

Lemma chosen_app s bl n size cs1 cs2 r s' :
  Forall (fun td => refuses bl td.1 (size td.2)) cs1 -> chosen s bl n size cs2 r s' ->
  chosen s bl n size (cs1 ++ cs2) r s'.
Proof. induction 1 as [|td cs1 Hr _ IH]; [done|]. intros H. by apply chosen_cons; [|apply IH]. Qed.

Lemma chosen_more s bl n size cs1 cs2 p s' :
  chosen s bl n size cs1 (Some p) s' -> chosen s bl n size (cs1 ++ cs2) (Some p) s'.
Proof.
  intros (c1 & tag & d & c2 & u & l1 & k2 & -> & Hf & Hg). exists c1, tag, d, (c2 ++ cs2), u, l1, k2.
  by rewrite <- app_assoc.
Qed.

Section Search.
Context (s : caps_state) (bl : list block) (n caps : Z).
Context (Hinv : caps_inv s bl) (Hn : 0 <= n <= 2 ^ 32 - 20) (Hn4 : executable caps = true -> n mod 4 = 0).
Context (Hfu : (length bl <= fuel)%nat).

Let size (d : tag_desc_t) : Z := if executable caps && aliasedIram d then n + 4 else n.

Lemma try_tags_spec i tag descs :
  table_ok i tag descs ->
  wp (try_tags xStart fuel n caps i tag descs)
    (chosen s bl n size
       (filter (fun td => candidate (nonos_stack_in_use s) caps i td = true) (entries i tag descs))) s.
Proof.
  revert tag. induction descs as [|d descs IH]; intros tag; [done|]. intros [Hl Hd]. cbn [try_tags entries].
  apply wp_bind. eapply wp_lift; [apply (rd_in 0); lia|].
  destruct (Z.eqb_spec (at_ 0 (prio d) (Z.of_nat i)) MALLOC_CAP_INVALID) as [E|E]; [by wp_step|].
  destruct Hd as [?|(Ht & Hal & Hrest)]; [done|]. do 2 wp_step. rewrite filter_cons.
  remember (candidate (nonos_stack_in_use s) caps i (tag, d)) as c eqn:Ec. unfold candidate in Ec. cbn [fst snd] in Ec.
  apply wp_bind. specialize (IH (tag + 1) Hrest).
  destruct (nonos_stack_in_use s && (tag =? NONOS_STACK_TAG)); cbn [negb andb] in Ec.
  { subst c. rewrite decide_False by done. by wp_step. }
  rewrite <- Ec. destruct c; [rewrite decide_True by done|rewrite decide_False by done; by wp_step].
  eapply wp_mono; [by apply (alloc_from_spec s bl)|]. cbn beta. intros [p|] s'.
  - intros (u & l1 & k2 & Hg). wp_step. eexists [], tag, d, _, u, l1, k2. by split_and!.
  - intros [-> Hr]. eapply wp_mono; [exact IH|]. cbn beta. intros r s' Hc. by apply chosen_cons.
Qed.

Lemma try_prios_spec i k :
  (i + k = 3)%nat ->
  wp (try_prios xStart fuel n caps i k) (fun p s' =>
    exists r, p = default 0 r
    /\ chosen s bl n size (concat (candidates (nonos_stack_in_use s) caps <$> seq i k)) r s') s.
Proof.
  revert i. induction k as [|k IH]; intros i Hik; cbn [try_prios].
  { wp_step. by exists None. }
  apply wp_bind. eapply wp_mono; [apply try_tags_spec, tag_desc_ok; lia|]. cbn beta.
  cbn [seq fmap list_fmap concat]. intros [p|] s' Hc.
  - wp_step. exists (Some p). split; [done|]. by apply chosen_more.
  - destruct Hc as [-> Hf]. eapply wp_mono; [apply IH; lia|]. cbn beta. intros p s' (r & -> & Hc).
    exists r. split; [done|]. by apply chosen_app.
Qed.
End Search.
End Caps.

(** ** Capabilities *)

(** What memory with a tag can do, at any priority. *)
Definition capabilities (d : tag_desc_t) : Z := foldr Z.lor 0 (prio d).

(** The tag has all the capabilities asked for, and may be used. *)
Definition capable (nonos : bool) (caps : Z) (td : Z * tag_desc_t) : Prop :=
  Z.ldiff caps (capabilities td.2) = 0 /\ caps <> 0 /\ (nonos = true -> td.1 <> NONOS_STACK_TAG).

Lemma ldiff_lor a b c : Z.ldiff (Z.ldiff a b) c = Z.ldiff a (Z.lor b c).
Proof.
  apply Z.bits_inj'. intros k Hk. rewrite !Z.ldiff_spec, Z.lor_spec, negb_orb. by rewrite andb_assoc.
Qed.

Lemma remaining_zero r ps : remaining r ps = 0 <-> Z.ldiff r (foldr Z.lor 0 ps) = 0.
Proof.
  revert r. induction ps as [|p ps IH]; intros r; cbn [remaining foldr]; [by rewrite Z.ldiff_0_r|].
  destruct (Z.eqb_spec r 0) as [->|E]; [by rewrite Z.ldiff_0_l|]. by rewrite IH, ldiff_lor.
Qed.

Lemma ldiff_disjoint a b c : Z.land b a = 0 -> Z.ldiff a (Z.lor b c) = Z.ldiff a c.
Proof.
  intros H. rewrite <- ldiff_lor. f_equal. apply Z.bits_inj'. intros k Hk. rewrite Z.ldiff_spec.
  apply (f_equal (fun z => Z.testbit z k)) in H. rewrite Z.land_spec, Z.bits_0 in H.
  destruct (Z.testbit a k), (Z.testbit b k); done.
Qed.

Lemma ldiff_weaken a b c : Z.ldiff a c = 0 -> Z.ldiff a (Z.lor b c) = 0.
Proof. intros H. by rewrite Z.lor_comm, <- ldiff_lor, H, Z.ldiff_0_l. Qed.

Lemma entries_same i : (i < 3)%nat -> entries i 0 tag_desc = entries 0 0 tag_desc.
Proof. intros Hi. destruct i as [|[|[|i]]]; [done|vm_compute; done..|lia]. Qed.

Lemma entries_prios td : td ∈ entries 0 0 tag_desc -> exists p0 p1 p2, prio td.2 = [p0; p1; p2].
Proof.
  intros Htd. assert (HF : Forall (fun td => length (prio td.2) = 3%nat) (entries 0 0 tag_desc)) by (vm_compute; repeat constructor).
  rewrite Forall_forall in HF. specialize (HF td Htd). destruct (prio td.2) as [|p0 [|p1 [|p2 [|]]]]; naive_solver.
Qed.

Lemma candidate_iff nonos caps i td :
  candidate nonos caps i td = true <->
  (nonos = true -> td.1 <> NONOS_STACK_TAG) /\ Z.land (at_ 0 (prio td.2) (Z.of_nat i)) caps <> 0
  /\ Z.ldiff caps (Z.lor (at_ 0 (prio td.2) (Z.of_nat i)) (foldr Z.lor 0 (drop (S i) (prio td.2)))) = 0.
Proof.
  unfold candidate. cbv zeta. rewrite !andb_true_iff, !negb_true_iff, Z.eqb_neq, Z.eqb_eq, remaining_zero, ldiff_lor.
  rewrite andb_false_iff, Z.eqb_neq. destruct nonos; naive_solver.
Qed.

(** The tags that are tried are the tags that can serve the request. *)
Lemma candidates_capable nonos caps td :
  td ∈ all_candidates nonos caps <-> td ∈ entries 0 0 tag_desc /\ capable nonos caps td.
Proof.
  unfold all_candidates, candidates. rewrite !elem_of_app, !list_elem_of_filter, (entries_same 1), (entries_same 2) by lia.
  rewrite !candidate_iff. split.
  - intros Hc. assert (Htd : td ∈ entries 0 0 tag_desc) by tauto. split; [done|].
    destruct (entries_prios td Htd) as (p0 & p1 & p2 & Hp). unfold capable, capabilities. rewrite Hp in *.
    change (at_ 0 [p0; p1; p2] (Z.of_nat 0)) with p0 in Hc. change (at_ 0 [p0; p1; p2] (Z.of_nat 1)) with p1 in Hc.
    change (at_ 0 [p0; p1; p2] (Z.of_nat 2)) with p2 in Hc. cbn [drop foldr] in *.
    assert (caps <> 0) by (intros ->; rewrite !Z.land_0_r in Hc; tauto).
    destruct Hc as [[(H1 & _ & H3) _]|[[(H1 & _ & H3) _]|[(H1 & _ & H3) _]]]; split_and!; try done.
    + by apply ldiff_weaken.
    + by do 2 apply ldiff_weaken.
  - intros [Htd (H1 & H2 & H3)]. destruct (entries_prios td Htd) as (p0 & p1 & p2 & Hp).
    unfold capabilities in H1. rewrite Hp in *.
    change (at_ 0 [p0; p1; p2] (Z.of_nat 0)) with p0. change (at_ 0 [p0; p1; p2] (Z.of_nat 1)) with p1.
    change (at_ 0 [p0; p1; p2] (Z.of_nat 2)) with p2. cbn [drop foldr] in *.
    destruct (decide (Z.land p0 caps = 0)) as [E0|E0]; [rewrite ldiff_disjoint in H1 by done|tauto].
    destruct (decide (Z.land p1 caps = 0)) as [E1|E1]; [rewrite ldiff_disjoint in H1 by done|tauto].
    destruct (decide (Z.land p2 caps = 0)) as [E2|E2]; [|tauto].
    rewrite ldiff_disjoint, Z.ldiff_0_r in H1 by done. done.
Qed.

(** The first priority at which a tag has one of the capabilities asked for. *)
Definition rank (caps : Z) (d : tag_desc_t) : Z :=
  if negb (Z.land (at_ 0 (prio d) 0) caps =? 0) then 0 else if negb (Z.land (at_ 0 (prio d) 1) caps =? 0) then 1 else 2.

(** The order of the search: by this priority, then by the number of the tag. *)
Definition tried_before (caps : Z) (a b : Z * tag_desc_t) : Prop := rank caps a.2 < rank caps b.2 \/ rank caps a.2 = rank caps b.2 /\ a.1 < b.1.

Lemma entries_sorted i tag descs : StronglySorted (fun a b => a.1 < b.1) (entries i tag descs) /\ Forall (fun td => tag <= td.1) (entries i tag descs).
Proof.
  revert tag. induction descs as [|d descs IH]; intros tag; cbn [entries]; [by split; constructor|]. destruct (_ =? _); [by split; constructor|].
  destruct (IH (tag + 1)) as [H1 H2]. split; constructor; [done| |cbn; lia|]; (eapply Forall_impl; [exact H2|]); cbn; lia.
Qed.

(** No tag has the same capability at two priorities. *)
Lemma entries_disjoint td p0 p1 p2 : td ∈ entries 0 0 tag_desc -> prio td.2 = [p0; p1; p2] -> Z.land p0 (Z.lor p1 p2) = 0 /\ Z.land p1 p2 = 0.
Proof.
  intros Htd. assert (HF : Forall (fun td => match prio td.2 with [p0; p1; p2] => Z.land p0 (Z.lor p1 p2) = 0 /\ Z.land p1 p2 = 0 | _ => False end) (entries 0 0 tag_desc)) by (vm_compute; repeat constructor).
  rewrite Forall_forall in HF. specialize (HF td Htd). intros E. by rewrite E in HF.
Qed.

Lemma land_apart p q caps : Z.land p q = 0 -> Z.ldiff caps q = 0 -> Z.land p caps = 0.
Proof.
  intros H1 H2. apply Z.bits_inj'. intros k Hk. apply (f_equal (fun z => Z.testbit z k)) in H1, H2. rewrite Z.land_spec, Z.bits_0 in *. rewrite Z.ldiff_spec in H2.
  destruct (Z.testbit p k), (Z.testbit q k), (Z.testbit caps k); done.
Qed.

(** A tag is tried at its first priority. *)
Lemma candidate_rank nonos caps i td : (i < 3)%nat -> td ∈ entries 0 0 tag_desc -> candidate nonos caps i td = true -> rank caps td.2 = Z.of_nat i.
Proof.
  intros Hi Htd (_ & H1 & H2)%candidate_iff. destruct (entries_prios td Htd) as (p0 & p1 & p2 & Hp). destruct (entries_disjoint td p0 p1 p2 Htd Hp) as [D0 D1].
  unfold rank. rewrite Hp in *. change (at_ 0 [p0; p1; p2] 0) with p0. change (at_ 0 [p0; p1; p2] 1) with p1.
  destruct i as [|[|[|i]]]; [..|lia]; cbn [drop foldr] in H2; rewrite ?Z.lor_0_r in H2.
  - change (at_ 0 [p0; p1; p2] (Z.of_nat 0)) with p0 in H1. by rewrite (proj2 (Z.eqb_neq _ _) H1).
  - change (at_ 0 [p0; p1; p2] (Z.of_nat 1)) with p1 in H1, H2. rewrite (proj2 (Z.eqb_neq _ _) H1), (land_apart p0 (Z.lor p1 p2) caps D0 H2). done.
  - change (at_ 0 [p0; p1; p2] (Z.of_nat 2)) with p2 in H2. rewrite (land_apart p1 p2 caps D1 H2), (land_apart p0 (Z.lor p1 p2) caps D0); [done|]. by apply ldiff_weaken.
Qed.

Lemma candidates_sorted nonos caps i : (i < 3)%nat -> StronglySorted (tried_before caps) (candidates nonos caps i) /\ forall td, td ∈ candidates nonos caps i -> rank caps td.2 = Z.of_nat i.
Proof.
  intros Hi. unfold candidates. rewrite entries_same by done.
  assert (Hr : forall td, td ∈ filter (fun td => candidate nonos caps i td = true) (entries 0 0 tag_desc) -> rank caps td.2 = Z.of_nat i).
  { intros td [Hc Htd]%list_elem_of_filter. by eapply candidate_rank. }
  split; [|done]. pose proof (proj1 (entries_sorted 0 0 tag_desc)) as Hs. revert Hr. induction Hs as [|x l Hl IH Hx]; [constructor|].
  rewrite filter_cons. case_decide as E; [|done]. intros Hr. constructor; [apply IH; intros td Htd; apply Hr; by right|]. apply Forall_forall. intros y Hy.
  right. rewrite (Hr x ltac:(left)), (Hr y ltac:(by right)). split; [done|]. apply list_elem_of_filter in Hy as [_ Hy]. by eapply Forall_forall in Hx.
Qed.

(** The tags are tried in the order of priority, then of their numbers. *)
Lemma all_candidates_sorted nonos caps : StronglySorted (tried_before caps) (all_candidates nonos caps).
Proof.
  destruct (candidates_sorted nonos caps 0 ltac:(lia)) as [S0 R0], (candidates_sorted nonos caps 1 ltac:(lia)) as [S1 R1], (candidates_sorted nonos caps 2 ltac:(lia)) as [S2 R2].
  unfold all_candidates. repeat apply StronglySorted_app_2; try done.
  - intros x y Hx Hy. left. rewrite (R0 x Hx). apply elem_of_app in Hy as [Hy|Hy]; [rewrite (R1 y Hy)|rewrite (R2 y Hy)]; lia.
  - intros x y Hx Hy. left. rewrite (R1 x Hx), (R2 y Hy). lia.
Qed.

Lemma rounded_spec n caps :
  0 <= n <= 2 ^ 32 - 24 ->
  n <= rounded n caps <= n + 3 /\ (executable caps = true -> rounded n caps mod 4 = 0)
  /\ (executable caps = true -> Z.land (u32 (n + 3)) 0xFFFFFFFC = rounded n caps).
Proof.
  intros Hn. unfold rounded. destruct (executable caps); [|split_and!; [lia|lia|done|done]].
  pose proof (Z.mod_pos_bound (- n) 4 ltac:(lia)). pose proof (Z.div_mod (- n) 4 ltac:(lia)) as D.
  assert (E : n + (- n) mod 4 = (- (- n / 4)) * 4) by lia.
  split_and!; [lia|lia|intros _; rewrite E; apply Z.mod_mul; lia|]. intros _. rewrite u32_small, land_word by lia.
  assert ((n + 3) mod 4 = n + 3 - (n + (- n) mod 4)); [|lia].
  symmetry. apply (Z.mod_unique_pos _ _ (- (- n / 4))); lia.
Qed.

(** The whole search, by what the tags can do. *)
Lemma search_spec_caps xStart fuel s bl n caps :
  caps_inv xStart s bl -> 0 <= n <= 2 ^ 32 - 24 -> (length bl <= fuel)%nat ->
  exists p s', try_prios xStart fuel (rounded n caps) caps 0 NO_PRIOS s = Ret (p, s')
    /\ exists cs, (forall td, td ∈ cs <-> td ∈ entries 0 0 tag_desc /\ capable (nonos_stack_in_use s) caps td) /\ StronglySorted (tried_before caps) cs
      /\ ((p = 0 /\ s' = s /\ Forall (fun td => refuses bl td.1 (asked n caps td.2)) cs)
          \/ exists c1 tag d c2 u l1 k2, cs = c1 ++ (tag, d) :: c2
               /\ Forall (fun td => refuses bl td.1 (asked n caps td.2)) c1
               /\ granted xStart s s' bl tag (rounded n caps) (asked n caps d) p u l1 k2).
Proof.
  intros Hinv Hn Hfu. destruct (rounded_spec n caps Hn) as (R1 & R2 & _).
  pose proof (try_prios_spec xStart fuel s bl (rounded n caps) caps Hinv ltac:(lia) R2 Hfu 0 3 eq_refl) as HT.
  apply wp_inv in HT as (p & s' & Hrun & r & -> & Hc). cbn [seq fmap list_fmap concat] in Hc. rewrite app_nil_r in Hc.
  exists (default 0 r), s'. split; [exact Hrun|]. exists (all_candidates (nonos_stack_in_use s) caps).
  split; [intros td; apply candidates_capable|]. split; [apply all_candidates_sorted|]. destruct r as [p|]; [right|left].
  - destruct Hc as (c1 & tag & d & c2 & u & l1 & k2 & Hc). by exists c1, tag, d, c2, u, l1, k2.
  - by destruct Hc.
Qed.

(** A request is a search, unless it is refused at once. *)
Lemma malloc_is_search xStart fuel n caps s :
  0 <= n <= 2 ^ 32 - 24 ->
  pvPortMallocCaps xStart fuel n caps s =
  if executable caps && (negb (Z.land caps MALLOC_CAP_8BIT =? 0) || negb (Z.land caps MALLOC_CAP_DMA =? 0))
  then Ret (0, s) else try_prios xStart fuel (rounded n caps) caps 0 NO_PRIOS s.
Proof.
  intros Hn. destruct (rounded_spec n caps Hn) as (_ & _ & R3). unfold pvPortMallocCaps. fold (executable caps).
  destruct (executable caps) eqn:Ex; cbn [andb]; [destruct (_ || _); [done|by rewrite R3]|].
  unfold rounded. by rewrite Ex.
Qed.

(** C37: [pvPortMallocCaps] always returns, for requests of up to 2^32 - 24
    bytes.  An executable request that also asks for byte or DMA access is
    refused.  Any other is tried at the tags that have all the capabilities
    asked for, the start-up stacks' tag left out while they are in use, in the
    order of the first priority at which the tag has one of them and then of
    the tags' numbers; it gives [NULL], changing nothing, exactly when the
    tagged allocator refuses at every one of them, and otherwise memory from
    the first that does not refuse: aligned, inside one block of the heap, with
    the heap's invariant kept and no block in use changed.  (For larger
    requests the size computed by heap_regions.c:206 overflows.) *)
Theorem caps_malloc_serves xStart fuel s bl n caps :
  caps_inv xStart s bl -> 0 <= n <= 2 ^ 32 - 24 -> (length bl <= fuel)%nat ->
  exists p s', pvPortMallocCaps xStart fuel n caps s = Ret (p, s')
    /\ if executable caps && (negb (Z.land caps MALLOC_CAP_8BIT =? 0) || negb (Z.land caps MALLOC_CAP_DMA =? 0))
       then p = 0 /\ s' = s
       else exists cs, (forall td, td ∈ cs <-> td ∈ entries 0 0 tag_desc /\ capable (nonos_stack_in_use s) caps td) /\ StronglySorted (tried_before caps) cs
         /\ ((p = 0 /\ s' = s /\ Forall (fun td => refuses bl td.1 (asked n caps td.2)) cs)
             \/ exists c1 tag d c2 u l1 k2, cs = c1 ++ (tag, d) :: c2
                  /\ Forall (fun td => refuses bl td.1 (asked n caps td.2)) c1
                  /\ granted xStart s s' bl tag (rounded n caps) (asked n caps d) p u l1 k2).
Proof.
  intros Hinv Hn Hfu. rewrite malloc_is_search by done. destruct (executable caps && _); [by exists 0, s|].
  by apply search_spec_caps.
Qed.

(** Whatever the caller writes to the memory that [pvPortMallocCaps]
    gave it, [vPortFree] finds the block it came from, also when the memory
    was handed out by its executable alias, and gives back the very blocks and
    byte counters of before the allocation. *)
Theorem caps_malloc_free xStart fuel s bl n caps p s1 m :
  caps_inv xStart s bl -> 0 <= n <= 2 ^ 32 - 24 -> (length bl <= fuel)%nat ->
  pvPortMallocCaps xStart fuel n caps s = Ret (p, s1) -> p <> 0 ->
  (forall a, ~ owns p (rounded n caps) a -> m a = mem (the_heap s1) a) ->
  exists s2, vPortFree xStart fuel p (with_heap (with_mem m (the_heap s1)) s1) = Ret (tt, s2)
    /\ caps_inv xStart s2 bl /\ xFreeBytesRemaining (the_heap s2) = xFreeBytesRemaining (the_heap s).
Proof.
  intros Hinv Hn Hfu Hrun Hp Hm. rewrite malloc_is_search in Hrun by done.
  destruct (executable caps && _); [congruence|].
  destruct (search_spec_caps xStart fuel s bl n caps Hinv Hn Hfu) as (p' & s' & Hrun' & cs & _ & _ & Hcase).
  rewrite Hrun in Hrun'. injection Hrun' as <- <-. destruct Hcase as [[-> _]|(c1 & tag & d & c2 & u & l1 & k2 & _ & _ & Hg)]; [done|].
  destruct Hg as [(x & l2 & pu & Hs) [Hi _] _ _ _ Hin Hh]. rewrite free_by_handle. cbn [the_heap with_heap mem with_mem].
  rewrite (Hh m) by (intros a _; apply Hm). destruct Hs as [Hpos -> (F1 & _) _ Hc _ _ _ _ _].
  destruct (carve_head _ _ _ _ _ F1 Hc) as (U1 & _).
  assert (Hw : written u (mem (the_heap s1)) m).
  { intros a Ha. apply Hm. intros Ho. by apply Ha, Hin. }
  pose proof (heap_inv_payload _ _ _ _ _ _ Hi U1 Hw) as Hi1. rewrite length_app in Hfu.
  destruct (wp_inv _ _ _ (free_spec _ fuel _ _ _ _ Hi1 U1 ltac:(lia))) as ([] & h2 & Hrun2 & Hinv2 & _).
  destruct Hinv as [Hi0 Hpl]. pose proof Hi0 as [_ Hg _ _ _].
  rewrite (coalesce_carve xStart _ x l2 _ u k2 Hg F1 Hc) in Hinv2.
  exists (with_heap h2 (with_heap (with_mem m (the_heap s1)) s1)). unfold on_heap. cbn [the_heap with_heap].
  change (b_addr u + 8) with (b_addr u + uxHeapStructSize). rewrite Hrun2. split_and!; [done|done|by eapply bytes_determined].
Qed.

(** ** The table of regions at start-up *)

Definition region_end (r : HeapRegionTagged_t) : Z := pucStartAddress r + xSizeInBytes r.
Definition region_wf (r : HeapRegionTagged_t) : Prop :=
  0 < pucStartAddress r /\ 0 < xSizeInBytes r /\ region_end r < 2 ^ 32
  /\ pucStartAddress r mod 4 = 0 /\ xSizeInBytes r mod 4 = 0.

(** The entries before the end marker, and those that are in use. *)
Fixpoint body (l : list HeapRegionTagged_t) : list HeapRegionTagged_t :=
  match l with
  | [] => []
  | r :: rest => if xSizeInBytes r =? 0 then [] else r :: body rest
  end.
Fixpoint terminated (l : list HeapRegionTagged_t) : Prop :=
  match l with
  | [] => False
  | r :: rest => if xSizeInBytes r =? 0 then True else terminated rest
  end.
Definition live (l : list HeapRegionTagged_t) : list HeapRegionTagged_t :=
  filter (fun r => region_xTag r <> -1) (body l).

Fixpoint ordered (lo : Z) (rs : list HeapRegionTagged_t) : Prop :=
  match rs with
  | [] => True
  | r :: rs => lo <= pucStartAddress r /\ ordered (region_end r) rs
  end.

Record table_wf (l : list HeapRegionTagged_t) : Prop := {
  tw_end : terminated l;
  tw_wf : Forall region_wf (body l);
  tw_ordered : ordered 0 (body l)
}.

(** Memory in use, with its tag; less of it. *)
Definition provides (l : list HeapRegionTagged_t) (tag a : Z) : Prop :=
  exists r, r ∈ live l /\ region_xTag r = tag /\ pucStartAddress r <= a < region_end r.
Definition within_table (l l0 : list HeapRegionTagged_t) : Prop := forall tag a, provides l tag a -> provides l0 tag a.
Definition avoids (from to : Z) (l : list HeapRegionTagged_t) : Prop :=
  forall tag a, provides l tag a -> ~ from <= a < to.

Lemma ordered_weaken lo lo' rs : lo' <= lo -> ordered lo rs -> ordered lo' rs.
Proof. destruct rs; cbn; [done|]. intros ? [? ?]. split; [lia|done]. Qed.

Lemma avoids_within from to l l0 : within_table l l0 -> avoids from to l0 -> avoids from to l.
Proof. intros Hw Ha tag a Hp. by eapply Ha, Hw. Qed.

(** One region and one range. *)
Lemma disable_region_spec from to r :
  region_wf r -> 0 <= from <= to -> to < 2 ^ 32 -> from mod 4 = 0 -> to mod 4 = 0 ->
  let r' := disable_region from to r in
  region_wf r' /\ pucStartAddress r <= pucStartAddress r' /\ region_end r' <= region_end r
  /\ (region_xTag r' <> -1 -> region_xTag r' = region_xTag r
      /\ (region_end r' <= from \/ to <= pucStartAddress r')).
Proof.
  intros (H1 & H2 & H3 & H4 & H5) Hft Ht Hf4 Ht4. unfold disable_region. fold (region_end r). cbv zeta.
  rewrite (u32_small (region_end r)) by (unfold region_end in *; lia).
  assert (He4 : region_end r mod 4 = 0) by (by apply mod4_add).
  assert (Hsub : forall x y, x mod 4 = 0 -> y mod 4 = 0 -> (x - y) mod 4 = 0).
  { intros x y Hx Hy. by rewrite Zminus_mod, Hx, Hy. }
  unfold region_end in *.
  repeat case_test; unfold region_wf, region_end; cbn [pucStartAddress xSizeInBytes region_xTag retag]; rewrite ?u32_small by lia;
    try (split_and!; try done; try lia; auto).
  all: by apply mod4_add; [|apply Hsub].
Qed.

(** A table after a change of its entries. *)
Lemma map_regions_spec f l :
  terminated l -> Forall (fun r => 0 < xSizeInBytes (f r)) (body l) ->
  exists l', map_regions f l = Ret l' /\ terminated l' /\ body l' = f <$> body l.
Proof.
  induction l as [|r rest IH]; cbn [terminated body map_regions]; [done|].
  destruct (xSizeInBytes r =? 0) eqn:E.
  { intros _ _. exists (r :: rest). cbn [terminated body]. by rewrite E. }
  intros Ht [Hr Hf]%Forall_cons. destruct (IH Ht Hf) as (l' & -> & H1 & H2). exists (f r :: l').
  cbn [terminated body mbind]. rewrite (proj2 (Z.eqb_neq _ _)) by lia. cbn. by rewrite H2.
Qed.

Lemma disabled_ordered from to rs : forall lo,
  ordered lo rs -> Forall region_wf rs -> 0 <= from <= to -> to < 2 ^ 32 -> from mod 4 = 0 -> to mod 4 = 0 ->
  ordered lo (disable_region from to <$> rs).
Proof.
  induction rs as [|r rs IH]; intros lo; [done|]. intros [H1 H2] [Hr Hw]%Forall_cons Hft Ht Hf4 Ht4.
  destruct (disable_region_spec from to r Hr Hft Ht Hf4 Ht4) as (_ & H3 & H4 & _).
  cbn [fmap list_fmap ordered]. split; [lia|]. apply (ordered_weaken (region_end r)); [done|]. by apply IH.
Qed.

Lemma disable_table from to l :
  table_wf l -> 0 <= from <= to -> to < 2 ^ 32 -> from mod 4 = 0 -> to mod 4 = 0 ->
  exists l', map_regions (disable_region from to) l = Ret l' /\ table_wf l' /\ within_table l' l /\ avoids from to l'
    /\ length (body l') = length (body l).
Proof.
  intros [He Hw Ho] Hft Ht Hf4 Ht4.
  assert (HD : forall r, r ∈ body l -> region_wf r) by (by apply Forall_forall).
  destruct (map_regions_spec (disable_region from to) l He) as (l' & Hrun & He' & Hb).
  { apply Forall_forall. intros r Hr. by destruct (disable_region_spec from to r (HD r Hr) Hft Ht Hf4 Ht4) as [(_ & ? & _) _]. }
  assert (HP : forall tag a, provides l' tag a -> provides l tag a /\ ~ from <= a < to).
  { intros tag a (r' & [Hlive Hr']%list_elem_of_filter & Htag & Ha). rewrite Hb in Hr'.
    apply list_elem_of_fmap in Hr' as (r & -> & Hr).
    destruct (disable_region_spec from to r (HD r Hr) Hft Ht Hf4 Ht4) as (_ & D1 & D2 & D3).
    destruct (D3 Hlive) as [D4 D5]. split; [|lia]. exists r. rewrite <- Htag, D4. split_and!; [|done|lia|lia].
    apply list_elem_of_filter. by rewrite <- D4. }
  exists l'. split_and!; [done| |intros tag a Hp; by apply HP|intros tag a Hp; by apply (HP tag a)|by rewrite Hb, length_fmap].
  split; [done| |].
  - rewrite Hb. apply Forall_fmap, Forall_forall. intros r Hr. cbn.
    by destruct (disable_region_spec from to r (HD r Hr) Hft Ht Hf4 Ht4) as [? _].
  - rewrite Hb. by apply disabled_ordered.
Qed.

(** A range that the program or the ROM occupies. *)
Definition range_ok (ft : Z * Z) : Prop := 0 <= ft.1 <= ft.2 /\ ft.2 < 2 ^ 32 - 4.

Lemma disable_mem_region_spec from to s :
  table_wf (regions s) -> range_ok (from, to) ->
  wp (disable_mem_region from to) (fun _ s' => exists l, s' = with_regions l s /\ table_wf l
    /\ within_table l (regions s) /\ avoids from to l /\ length (body l) = length (body (regions s))) s.
Proof.
  intros Hw [Hft Ht]. cbn [fst snd] in *. unfold disable_mem_region. rewrite u32_small, !land_word by lia.
  pose proof (Z.div_mod from 4 ltac:(lia)). pose proof (Z.mod_pos_bound from 4 ltac:(lia)).
  pose proof (Z.div_mod (to + 3) 4 ltac:(lia)). pose proof (Z.mod_pos_bound (to + 3) 4 ltac:(lia)).
  destruct (disable_table (from - from mod 4) (to + 3 - (to + 3) mod 4) (regions s) Hw) as (l & Hrun & W1 & W2 & W3 & W4); try lia.
  { replace (from - from mod 4) with (from / 4 * 4) by lia. apply Z.mod_mul. lia. }
  { replace (to + 3 - (to + 3) mod 4) with ((to + 3) / 4 * 4) by lia. apply Z.mod_mul. lia. }
  do 2 wp_step. apply wp_bind. eapply wp_lift; [exact Hrun|]. wp_step. exists l. split_and!; try done.
  intros tag a Hp Ha. apply (W3 tag a Hp). lia.
Qed.

Lemma disable_all_spec rs : forall s,
  table_wf (regions s) -> Forall range_ok rs ->
  wp (disable_all rs) (fun _ s' => exists l, s' = with_regions l s /\ table_wf l
    /\ within_table l (regions s) /\ Forall (fun ft => avoids ft.1 ft.2 l) rs
    /\ length (body l) = length (body (regions s))) s.
Proof.
  induction rs as [|[from to] rs IH]; intros s Hw; cbn [disable_all].
  { intros _. wp_step. exists (regions s). split_and!; [by destruct s|done|by intros tag a|done|done]. }
  intros [Hr Hrs]%Forall_cons. apply wp_bind. eapply wp_mono; [by apply disable_mem_region_spec|]. cbn beta.
  intros _ s1 (l1 & -> & H1 & H2 & H3 & H4). eapply wp_mono; [by apply IH|]. cbn beta.
  intros _ s2 (l2 & -> & G1 & G2 & G3 & G4). cbn [regions with_regions] in *.
  exists l2. split_and!; [done|done|intros tag a; auto| |congruence].
  apply Forall_cons. split; [by eapply avoids_within|done].
Qed.

Lemma body_cons r l : region_wf r -> body (r :: l) = r :: body l.
Proof. intros (_ & H & _). cbn [body]. by rewrite (proj2 (Z.eqb_neq _ _)) by lia. Qed.

Lemma terminated_cons r l : region_wf r -> terminated (r :: l) <-> terminated l.
Proof. intros (_ & H & _). cbn [terminated]. by rewrite (proj2 (Z.eqb_neq _ _)) by lia. Qed.

Lemma live_cons r l :
  region_wf r -> live (r :: l) = if decide (region_xTag r <> -1) then r :: live l else live l.
Proof. intros Hr. unfold live. by rewrite body_cons, filter_cons by done. Qed.

Lemma provides_cons r l tag a :
  region_wf r ->
  provides (r :: l) tag a
  <-> (region_xTag r <> -1 /\ region_xTag r = tag /\ pucStartAddress r <= a < region_end r) \/ provides l tag a.
Proof.
  intros Hr. unfold provides. rewrite live_cons by done. destruct (decide _) as [E|E]; [|naive_solver].
  setoid_rewrite elem_of_cons. naive_solver.
Qed.

Lemma retag_wf r tag : region_wf r -> region_wf (retag r tag).
Proof. done. Qed.

(** Joining neighbours provides no memory that was not there. *)
Lemma coalesce_table l : forall prev lo,
  region_wf prev -> terminated l -> Forall region_wf (body l) -> ordered lo (prev :: body l) ->
  exists l', coalesce_regions prev l = Ret l' /\ terminated l' /\ Forall region_wf (body l') /\ ordered lo (live l')
    /\ within_table l' (prev :: l).
Proof.
  induction l as [|r rest IH]; intros prev lo Hp; [done|]. cbn [coalesce_regions].
  destruct (Z.eqb_spec (xSizeInBytes r) 0) as [E|E].
  { intros _ _ [Ho _]. assert (Hb : body (r :: rest) = []) by (cbn; by rewrite E).
    exists (prev :: r :: rest). rewrite terminated_cons, body_cons, live_cons by done. unfold live. rewrite Hb.
    split_and!; [done|cbn; by rewrite E|by apply Forall_singleton|by destruct (decide _)|by intros tag a]. }
  intros Ht Hw Ho. cbn [terminated body] in Ht, Hw, Ho. rewrite (proj2 (Z.eqb_neq _ _) E) in Ht, Hw, Ho.
  apply Forall_cons in Hw as [Hr Hw]. destruct Ho as (Ho1 & Ho2 & Ho3).
  pose proof Hp as (P1 & P2 & P3 & P4 & P5). pose proof Hr as (R1 & R2 & R3 & R4 & R5). unfold region_end in *.
  rewrite !u32_small by lia. destruct (_ && _) eqn:Ej; simplify_bool.
  - set (joined := HeapRegionTagged _ _ _ _).
    assert (Hj : region_wf joined).
    { unfold joined, region_wf, region_end. cbn. split_and!; [lia|lia|lia|done|by apply mod4_add]. }
    destruct (IH joined lo Hj Ht Hw) as (l' & -> & H1 & H2 & H3 & H4).
    { split; [done|]. unfold joined, region_end. cbn. eapply ordered_weaken; [|exact Ho3]. lia. }
    exists (retag prev (-1) :: l'). rewrite terminated_cons, body_cons, live_cons by done. cbn [mbind]. split_and!; [done|done| | |].
    + by apply Forall_cons.
    + by rewrite decide_False by (cbn; lia).
    + intros tag a Hpr. rewrite !provides_cons in * by done. destruct Hpr as [[? _]|Hpr]; [done|].
      apply H4 in Hpr. rewrite provides_cons in Hpr by done. unfold joined, region_end in *. cbn in Hpr. lia || (destruct Hpr as [Hpr|?]; [|auto]; lia).
  - destruct (IH r (region_end prev) Hr Ht Hw) as (l' & -> & H1 & H2 & H3 & H4).
    { split; [done|done]. }
    exists (prev :: l'). rewrite terminated_cons, body_cons, live_cons by done. cbn [mbind]. split_and!; [done|done| | |].
    + by apply Forall_cons.
    + destruct (decide _); [by split|]. eapply ordered_weaken; [|exact H3]. unfold region_end. lia.
    + intros tag a Hpr. rewrite !(provides_cons prev) in * by done. destruct Hpr as [?|Hpr]; [by left|right; by apply H4].
Qed.

(** ** The heap at start-up *)

(** A test of every entry of a table, by computation. *)
Lemma test_all (test : HeapRegionTagged_t -> bool) l r : forallb test l = true -> r ∈ l -> test r = true.
Proof. intros H Hr. rewrite forallb_forall in H. apply H. by apply list_elem_of_In. Qed.

Lemma initial_table : table_wf initial_regions.
Proof.
  split; [done| |vm_compute; intuition discriminate].
  apply Forall_forall. intros r Hr. unfold region_wf, region_end.
  eapply (test_all (fun r => (0 <? pucStartAddress r) && (0 <? xSizeInBytes r) && (pucStartAddress r + xSizeInBytes r <? 2 ^ 32)
    && (pucStartAddress r mod 4 =? 0) && (xSizeInBytes r mod 4 =? 0))) in Hr; [|vm_compute; reflexivity].
  cbn beta in Hr. simplify_bool. auto.
Qed.

(** The addresses of a tag. *)
Definition span (tag : Z) : Z * Z :=
  if tag =? 0 then (0x3FFAE000, 0x3FFE0000) else if tag =? 1 then (0x3FFE0000, 0x40000000)
  else if tag =? 2 then (0x40070000, 0x400A0000) else (0x3F800000, 0x3F820000).

Lemma initial_span tag a :
  provides initial_regions tag a -> 0 <= tag < 16 /\ (span tag).1 <= a < (span tag).2.
Proof.
  intros (r & Hr & <- & Ha).
  eapply (test_all (fun r => (0 <=? region_xTag r) && (region_xTag r <? 16)
    && ((span (region_xTag r)).1 <=? pucStartAddress r) && (region_end r <=? (span (region_xTag r)).2))) in Hr;
    [|vm_compute; reflexivity].
  cbn beta in Hr. simplify_bool. lia.
Qed.

Lemma span_facts tag :
  0 < (span tag).1 /\ (span tag).2 <= 0x400A0000 /\ (span tag).2 - (span tag).1 < 2 ^ 23.
Proof. unfold span. repeat case_test; cbn; lia. Qed.

Lemma aligned_region r :
  region_wf r -> 16 <= xSizeInBytes r -> region_first r = pucStartAddress r /\ region_last r = region_end r - 8.
Proof.
  intros (_ & _ & _ & H4 & H5) Hs. unfold region_first, region_last, region_end.
  pose proof (Z.div_mod (pucStartAddress r) 4 ltac:(lia)). pose proof (Z.div_mod (xSizeInBytes r) 4 ltac:(lia)). split.
  - rewrite <- (Z.div_unique (pucStartAddress r + 3) 4 (pucStartAddress r / 4) 3); lia.
  - rewrite <- (Z.div_unique (pucStartAddress r + xSizeInBytes r - 8) 4
      (pucStartAddress r / 4 + xSizeInBytes r / 4 - 2) 0); lia.
Qed.

(** A region of a table cut out of the initial one. *)
Lemma live_region l r :
  within_table l initial_regions -> r ∈ live l -> region_wf r ->
  0 <= region_xTag r < 16 /\ (span (region_xTag r)).1 <= pucStartAddress r /\ region_end r <= (span (region_xTag r)).2.
Proof.
  intros Hw Hr (H1 & H2 & _).
  assert (HP : forall a, pucStartAddress r <= a < region_end r -> provides initial_regions (region_xTag r) a).
  { intros a Ha. apply Hw. exists r. auto. }
  unfold region_end in *.
  destruct (initial_span _ _ (HP (pucStartAddress r) ltac:(lia))) as [? ?].
  destruct (initial_span _ _ (HP (pucStartAddress r + xSizeInBytes r - 1) ltac:(lia))) as [_ ?]. lia.
Qed.

Lemma regions_fit_live xStart l : forall lo,
  terminated l -> Forall region_wf (body l) -> ordered lo (live l) -> Forall (region_fits xStart) (live l) ->
  Forall (fun r => 16 <= xSizeInBytes r) (live l) -> regions_fit xStart lo l.
Proof.
  induction l as [|r rest IH]; intros lo; [done|]. cbn [regions_fit]. destruct (Z.ltb_spec 0 (xSizeInBytes r)) as [Hs|Hs]; [|done].
  intros Ht Hw. cbn [terminated body] in Ht, Hw. rewrite (proj2 (Z.eqb_neq _ _)) in Ht, Hw by lia.
  apply Forall_cons in Hw as [Hr Hw]. rewrite live_cons by done. destruct (Z.eqb_spec (region_xTag r) (-1)) as [E|E].
  { rewrite decide_False by (by intros []). by apply IH. }
  rewrite decide_True by done. intros [H1 H2] [F1 F2]%Forall_cons [S1 S2]%Forall_cons.
  destruct (aligned_region r Hr S1) as [A1 A2]. split_and!; [done|lia|]. apply IH; try done. by replace (region_last r + 8) with (region_end r) by lia.
Qed.

Lemma heap_blocks_live l :
  terminated l -> Forall region_wf (body l) -> heap_blocks l = concat (region_blocks <$> live l).
Proof.
  induction l as [|r rest IH]; [done|]. cbn [terminated body heap_blocks]. intros Ht Hw.
  destruct (Z.eqb_spec (xSizeInBytes r) 0) as [E|E].
  { unfold live. cbn [body]. by rewrite E. }
  apply Forall_cons in Hw as [Hr Hw]. pose proof Hr as (_ & Hpos & _). rewrite (proj2 (Z.ltb_lt _ _) Hpos), live_cons, IH by done.
  destruct (Z.eqb_spec (region_xTag r) (-1)) as [E1|E1]; [by rewrite decide_False by (by intros [])|by rewrite decide_True].
Qed.

Lemma reserved_ok c ds hs is_ ie :
  range_ok (ds, hs) -> range_ok (is_, ie) -> Forall range_ok (reserved c ds hs is_ ie).
Proof.
  intros H1 H2. destruct c as [[] [] [] []]; cbn; repeat (apply Forall_cons_2; [done || (unfold range_ok; cbn; lia)|]); by apply Forall_nil_2.
Qed.

(** The table that the tagged allocator is started with. *)
Record prepared (c : config) (ds hs is_ ie : Z) (l : list HeapRegionTagged_t) : Prop := {
  pr_end : terminated l;
  pr_wf : Forall region_wf (body l);
  pr_ordered : ordered 0 (live l);
  pr_within : within_table l initial_regions;
  pr_avoids : Forall (fun ft => avoids ft.1 ft.2 l) (reserved c ds hs is_ ie)
}.

Lemma prepare_spec c ds hs is_ ie m :
  range_ok (ds, hs) -> range_ok (is_, ie) ->
  wp (prepare_regions c ds hs is_ ie)
    (fun _ s => exists l, s = with_regions l (initial_state m) /\ prepared c ds hs is_ ie l) (initial_state m).
Proof.
  intros H1 H2. unfold prepare_regions. apply wp_bind.
  eapply wp_mono; [apply disable_all_spec; [exact initial_table|by apply reserved_ok]|]. cbn beta.
  intros _ s (l & -> & [Te Tw To] & Hwi & Ha & Hlen). do 2 wp_step. cbn [regions with_regions].
  assert (HL : exists r rest, l = r :: rest) by (destruct l; [done|eauto]). destruct HL as (r & rest & ->).
  destruct (Z.eqb_spec (xSizeInBytes r) 0) as [E|E].
  { assert (Hb : body (r :: rest) = []) by (cbn; by rewrite E). by rewrite Hb in Hlen. }
  cbn [terminated body] in Te, Tw, To. rewrite (proj2 (Z.eqb_neq _ _) E) in Te, Tw, To. apply Forall_cons in Tw as [Hr Tw].
  destruct (coalesce_table rest r 0 Hr Te Tw To) as (l' & Hrun & C1 & C2 & C3 & C4).
  apply wp_bind. eapply wp_lift; [exact Hrun|]. wp_step. exists l'. split; [done|]. split; try done.
  - intros tag a Hp. by apply Hwi, C4.
  - eapply Forall_impl; [exact Ha|]. cbn beta. intros ft Hft. by eapply avoids_within.
Qed.

(** Two headers fit in every region that is left. *)
Definition roomy (l : list HeapRegionTagged_t) : Prop :=
  live l <> [] /\ Forall (fun r => 16 <= xSizeInBytes r) (live l).

(** Every block lies in the region it was made from. *)
Lemma heap_block_region l (b : block) :
  terminated l -> Forall region_wf (body l) -> Forall (fun r => 16 <= xSizeInBytes r) (live l) -> b ∈ heap_blocks l ->
  exists r, r ∈ live l /\ region_wf r /\ pucStartAddress r <= b_addr b /\ b_addr b + extent b <= region_end r
    /\ (b_kind b = Free -> b_tag b = region_xTag r) /\ (b_tag b = 1 -> region_xTag r = 1) /\ b_size b <= extent b.
Proof.
  intros Ht Hw Hroom Hb. rewrite heap_blocks_live in Hb by done.
  apply list_elem_of_In, in_concat in Hb as (bs & Hbs & Hb). apply list_elem_of_In, list_elem_of_fmap in Hbs as (r & -> & Hr).
  apply list_elem_of_In in Hb. exists r. rewrite Forall_forall in Hw, Hroom. specialize (Hroom r Hr).
  assert (Hwr : region_wf r) by (apply list_elem_of_filter in Hr as [_ ?]; auto).
  destruct (aligned_region r Hwr Hroom) as [A1 A2]. split; [done|]. split; [done|].
  unfold region_blocks, region_end in *. rewrite A1, A2 in Hb.
  apply elem_of_cons in Hb as [->|Hb]; [|apply list_elem_of_singleton in Hb as ->];
    unfold extent, uxHeapStructSize; cbn; split_and!; try done; lia.
Qed.

Lemma prepared_fits xStart c ds hs is_ ie l r :
  prepared c ds hs is_ ie l -> ds <= xStart -> xStart + 8 <= hs -> r ∈ live l -> 16 <= xSizeInBytes r ->
  region_fits xStart r.
Proof.
  intros [_ Pw _ Pi Pa] Hx1 Hx2 Hr Hroom. rewrite Forall_forall in Pw.
  assert (Hwr : region_wf r) by (apply list_elem_of_filter in Hr as [_ ?]; auto).
  destruct (live_region l r Pi Hr Hwr) as (T1 & T2 & T3). pose proof Hwr as (W1 & W2 & W3 & _ & _).
  destruct (aligned_region r Hwr Hroom) as [A1 A2], (span_facts (region_xTag r)) as (_ & _ & S3).
  unfold region_fits. rewrite A1, A2. unfold region_end in *. split_and!; try lia.
  destruct (Z_le_gt_dec (xStart + 8) (pucStartAddress r)); [by left|]. right.
  destruct (Z_le_gt_dec (pucStartAddress r + xSizeInBytes r) xStart); [lia|].
  apply Forall_cons in Pa as [Pa _]. destruct (Pa (region_xTag r) (Z.max (pucStartAddress r) xStart)); cbn; [|lia].
  exists r. unfold region_end. split_and!; [done|done|lia|lia].
Qed.

Lemma prepared_placed c ds hs is_ ie l :
  prepared c ds hs is_ ie l -> roomy l -> Forall placed (heap_blocks l).
Proof.
  intros [Pe Pw _ Pi _] [_ Hroom]. apply Forall_forall. intros b Hb.
  destruct (heap_block_region l b Pe Pw Hroom Hb) as (r & Hr & Hwr & G1 & G2 & _ & G4 & G5).
  destruct (live_region l r Pi Hr Hwr) as (T1 & T2 & T3), (span_facts (region_xTag r)) as (_ & S2 & _).
  split; [unfold DIRAM_IRAM_START; lia|]. intros Ht. rewrite (G4 Ht) in *. cbn in T2, T3.
  unfold DIRAM_DRAM_START, DIRAM_DRAM_END. lia.
Qed.

Lemma init_spec xStart c ds hs is_ ie m s1 :
  range_ok (ds, hs) -> range_ok (is_, ie) -> ds <= xStart -> xStart + 8 <= hs -> 0 < xStart ->
  prepare_regions c ds hs is_ ie (initial_state m) = Ret (tt, s1) -> roomy (regions s1) ->
  exists s, heap_alloc_caps_init xStart c ds hs is_ ie (initial_state m) = Ret (tt, s)
    /\ caps_inv xStart s (heap_blocks (regions s1)) /\ prepared c ds hs is_ ie (regions s1).
Proof.
  intros R1 R2 Hx1 Hx2 Hx0 Hrun Hroom. pose proof (prepare_spec c ds hs is_ ie m R1 R2) as HP. unfold wp in HP. rewrite Hrun in HP.
  destruct HP as (l & -> & HP). cbn [regions with_regions] in *. pose proof HP as [Pe Pw Po _ _]. pose proof Hroom as [Hne Hr16].
  assert (Hfit : regions_fit xStart 0 l).
  { apply regions_fit_live; try done. apply Forall_forall. intros r Hr. eapply prepared_fits; try done.
    rewrite Forall_forall in Hr16. auto. }
  assert (Hnb : heap_blocks l <> []).
  { rewrite heap_blocks_live by done. by destruct (live l). }
  destruct R1 as [_ R1]. cbn in R1.
  destruct (wp_inv _ _ _ (define_spec xStart l m Hx0 ltac:(lia) Hfit Hnb)) as ([] & h & Hdef & Hinv).
  exists (with_heap h (with_regions l (initial_state m))). split_and!; [|split; [done|by eapply prepared_placed]|done].
  unfold heap_alloc_caps_init. rewrite (run_bind _ _ _ _ _ Hrun). cbn [regions with_regions].
  rewrite (run_bind (gets regions) _ _ l (with_regions l (initial_state m))) by done.
  unfold on_heap. cbn [the_heap with_regions initial_state]. by rewrite Hdef.
Qed.

(** C33: [heap_alloc_caps_init] gives a heap that satisfies the invariant of
    the allocator and never reaches into memory that is in use: when the
    tables' regions that are left have room for two block headers, it returns,
    and every byte of every block of the heap, headers and end markers
    included, belongs to a region of the initial table (of the block's tag, if
    it is free) and to none of the ranges that are reserved for the program's
    data and code, the ROM, the caches, Bluetooth or the trace memory. *)
Theorem init_heap_avoids_reserved xStart c ds hs is_ ie m s1 :
  range_ok (ds, hs) -> range_ok (is_, ie) -> ds <= xStart -> xStart + 8 <= hs -> 0 < xStart ->
  prepare_regions c ds hs is_ ie (initial_state m) = Ret (tt, s1) -> roomy (regions s1) ->
  exists s bl, heap_alloc_caps_init xStart c ds hs is_ ie (initial_state m) = Ret (tt, s) /\ caps_inv xStart s bl
    /\ forall (b : block) a, b ∈ bl -> b_addr b <= a < b_addr b + extent b ->
         (exists tag, provides initial_regions tag a /\ (b_kind b = Free -> b_tag b = tag))
         /\ Forall (fun ft => ~ ft.1 <= a < ft.2) (reserved c ds hs is_ ie).
Proof.
  intros R1 R2 Hx1 Hx2 Hx0 Hrun Hroom.
  destruct (init_spec xStart c ds hs is_ ie m s1 R1 R2 Hx1 Hx2 Hx0 Hrun Hroom) as (s & Hinit & Hinv & [Pe Pw _ Pi Pa]).
  exists s, (heap_blocks (regions s1)). split_and!; [done|done|]. intros b a Hb Ha. destruct Hroom as [_ Hroom].
  destruct (heap_block_region _ b Pe Pw Hroom Hb) as (r & Hr & _ & G1 & G2 & G3 & _).
  assert (HP : provides (regions s1) (region_xTag r) a) by (exists r; split_and!; [done|done|lia|lia]).
  split; [exists (region_xTag r); split; [by apply Pi|done]|].
  eapply Forall_impl; [exact Pa|]. cbn beta. intros ft Hft. by eapply Hft.
Qed.

(** ** The invariant after [vPortFree] in any order *)

Lemma placed_merge x y :
  placed x -> placed y -> b_kind x <> End_ -> b_kind y <> End_ -> b_addr y = b_addr x + b_size x -> b_tag y = b_tag x ->
  placed (resize x (b_size x + b_size y)).
Proof.
  intros [X1 X2] [Y1 Y2] Kx Ky Ha Ht. assert (Ey : extent y = b_size y) by (unfold extent; by destruct (b_kind y)).
  assert (Er : extent (resize x (b_size x + b_size y)) = b_size x + b_size y) by (unfold extent; cbn; by destruct (b_kind x)).
  split; rewrite ?Er; cbn; [lia|]. rewrite Ht in Y2. intros H1. specialize (X2 H1). specialize (Y2 H1). lia.
Qed.

Lemma placed_set_kind x : placed x -> b_kind x = Used -> placed (set_kind x Free).
Proof. intros [X1 X2] Hk. unfold extent in X1. rewrite Hk in X1. done. Qed.

Lemma placed_coalesce xStart l1 b l2 :
  geometry xStart (l1 ++ b :: l2) -> b_kind b = Used -> Forall placed (l1 ++ b :: l2) -> Forall placed (coalesce l1 b l2).
Proof.
  intros Hg Hk [P1 [Pb P2]%Forall_cons]%Forall_app. unfold coalesce.
  assert (HL : exists k1 c, absorb_left l1 b = (k1, c) /\ Forall placed k1 /\ placed c /\ b_kind c = Free
    /\ b_addr c + b_size c = b_addr b + b_size b /\ b_tag c = b_tag b).
  { unfold absorb_left. destruct (last l1) as [p|] eqn:El; [|eexists _, _; split_and!; eauto using placed_set_kind].
    destruct (decide (b_kind p = Free)) as [Hp|Hp]; [|eexists _, _; split_and!; eauto using placed_set_kind].
    apply last_Some in El as [k1 ->]. rewrite removelast_last. apply Forall_app in P1 as [P1 [Pp _]%Forall_cons].
    rewrite <- app_assoc in Hg. cbn [app] in Hg.
    destruct (geometry_pair _ _ _ _ _ Hg ltac:(congruence) ltac:(congruence)) as (N1 & N2 & _).
    eexists _, _. split_and!; [done|done|apply placed_merge; congruence|done|cbn; lia|by cbn]. }
  destruct HL as (k1 & c & -> & Pk & Pc & Hc & Ec & Tc). destruct l2 as [|n k2]; cbn [absorb_right].
  { apply Forall_app. split; [done|by apply Forall_singleton]. }
  destruct (decide (b_kind n = Free)) as [Hn|Hn]; cbn [app]; (apply Forall_app; split; [done|]).
  - apply Forall_cons in P2 as [Pn P2]. apply Forall_cons. split; [|done].
    destruct (geometry_pair _ _ _ _ _ Hg ltac:(congruence) ltac:(congruence)) as (N1 & N2 & _).
    apply placed_merge; congruence || lia.
  - by apply Forall_cons.
Qed.

Lemma caps_free_inv xStart fuel s l1 b l2 p :
  caps_inv xStart s (l1 ++ b :: l2) -> b_kind b = Used -> (length l1 <= fuel)%nat ->
  handle (mem (the_heap s)) p = b_addr b + 8 ->
  exists s', vPortFree xStart fuel p s = Ret (tt, s') /\ caps_inv xStart s' (coalesce l1 b l2)
    /\ kept (l1 ++ b :: l2) (mem (the_heap s)) (mem (the_heap s')).
Proof.
  intros [Hi Hp] Hk Hfu Hh. rewrite free_by_handle, Hh. pose proof Hi as [_ Hg _ _ _].
  destruct (wp_inv _ _ _ (free_spec _ fuel _ _ _ _ Hi Hk Hfu)) as ([] & h2 & Hrun2 & Hinv2 & Hu).
  exists (with_heap h2 s). unfold on_heap. change (b_addr b + 8) with (b_addr b + uxHeapStructSize). rewrite Hrun2.
  split_and!; [done|split; [done|by eapply placed_coalesce]|by eapply payload_kept].
Qed.

(** ** Many allocations at once

    What callers do with the heap: allocate, release what they hold, store to
    what they hold; and the kernel that starts.  [held] lists the pointers
    given out and not yet released, with the bytes behind them. *)

Inductive event : Type :=
| Allocate (n caps p : Z)
| Release (p n : Z)
| Store (p n : Z)
| StartKernel.

Inductive step (xStart : Z) (fuel : nat) : caps_state * list (Z * Z) -> event -> caps_state * list (Z * Z) -> Prop :=
| step_allocate s held n caps p s' :
    0 <= n <= 2 ^ 32 - 24 -> pvPortMallocCaps xStart fuel n caps s = Ret (p, s') ->
    step xStart fuel (s, held) (Allocate n caps p) (s', if p =? 0 then held else (p, rounded n caps) :: held)
| step_release s h1 p n h2 s' :
    vPortFree xStart fuel p s = Ret (tt, s') ->
    step xStart fuel (s, h1 ++ (p, n) :: h2) (Release p n) (s', h1 ++ h2)
| step_store s held p n m :
    (p, n) ∈ held -> (forall a, ~ owns p n a -> m a = mem (the_heap s) a) ->
    step xStart fuel (s, held) (Store p n) (with_heap (with_mem m (the_heap s)) s, held)
| step_start s held s' :
    heap_alloc_enable_nonos_stack_tag s = Ret (tt, s') -> step xStart fuel (s, held) StartKernel (s', held).

Inductive reachable (xStart : Z) (fuel : nat) (st0 : caps_state * list (Z * Z)) : caps_state * list (Z * Z) -> Prop :=
| reach_start : reachable xStart fuel st0 st0
| reach_step st1 e st2 :
    reachable xStart fuel st0 st1 -> step xStart fuel st1 e st2 -> reachable xStart fuel st0 st2.

(** Each held pointer has a block of its own. *)
Definition held_ok (m : memory) (pn : Z * Z) (u : block) : Prop :=
  (forall a, owns pn.1 pn.2 a -> in_payload u a)
  /\ forall m', (forall a, in_payload u a -> ~ owns pn.1 pn.2 a -> m' a = m a) -> handle m' pn.1 = b_addr u + 8.

Record held_inv (xStart : Z) (s : caps_state) (held : list (Z * Z)) (bl us : list block) : Prop := {
  he_inv : caps_inv xStart s bl;
  he_nodup : NoDup us;
  he_used : Forall (fun u => u ∈ bl /\ b_kind u = Used) us;
  he_held : Forall2 (held_ok (mem (the_heap s))) held us
}.

Lemma held_ok_frame m m' pn u :
  held_ok m pn u -> (forall a, in_payload u a -> ~ owns pn.1 pn.2 a -> m' a = m a) -> held_ok m' pn u.
Proof. intros [H1 H2] Hm. split; [done|]. intros m2 Hm2. apply H2. intros a Ha Ho. by rewrite Hm2, Hm. Qed.

(** The number of blocks is bounded by the address space. *)
Lemma blocks_bound xStart bl : geometry xStart bl -> Z.of_nat (length bl) * 8 <= 2 ^ 32.
Proof.
  intros [Ha Hw _ _]. destruct bl as [|b l]; [cbn; lia|].
  assert (HB : b_addr b + Z.of_nat (length (b :: l)) * 8 <= 2 ^ 32).
  { revert b Ha Hw. induction l as [|c l IH]; intros b Ha Hw; apply Forall_cons in Hw as [Hb Hw]; pose proof (extent_ge b Hb).
    - destruct Hb as (_ & _ & Hb & _). cbn. lia.
    - destruct Ha as [[Hf _] Ha]. specialize (IH c Ha Hw). cbn [length] in *. lia. }
  apply Forall_cons in Hw as [(Hb & _) _]. lia.
Qed.

Lemma fuel_enough xStart fuel s bl :
  caps_inv xStart s bl -> 2 ^ 29 <= Z.of_nat fuel -> (length bl <= fuel)%nat.
Proof. intros [[_ Hg _ _ _] _] Hf. pose proof (blocks_bound _ _ Hg). lia. Qed.

(** Blocks in use, other than the freed one, stay. *)
Lemma used_coalesced l1 b l2 (y : block) :
  y ∈ l1 ++ l2 -> b_kind y = Used -> y ∈ coalesce l1 b l2.
Proof.
  intros Hy Hk. unfold coalesce.
  assert (HL : forall k1 c, absorb_left l1 b = (k1, c) -> y ∈ l1 -> y ∈ k1).
  { unfold absorb_left. intros k1 c. destruct (last l1) as [p|] eqn:El; [|by intros [= <- <-]].
    destruct (decide (b_kind p = Free)) as [Hp|Hp]; [|by intros [= <- <-]]. apply last_Some in El as [k ->].
    rewrite removelast_last. intros [= <- <-] Hy'. apply elem_of_app in Hy' as [?|Hy']; [done|].
    apply list_elem_of_singleton in Hy' as ->. congruence. }
  destruct (absorb_left l1 b) as [k1 c] eqn:EL. specialize (HL _ _ eq_refl).
  destruct (absorb_right c l2) as [d k2] eqn:ER.
  assert (HR : y ∈ l2 -> y ∈ k2).
  { unfold absorb_right in ER. destruct l2 as [|n l2]; [by injection ER as <- <-|].
    destruct (decide (b_kind n = Free)); injection ER as <- <-; [|done]. intros [->|?]%elem_of_cons; [congruence|done]. }
  set_solver.
Qed.

(** The block of a held pointer. *)
Lemma held_block xStart s held bl us i pn :
  held_inv xStart s held bl us -> held !! i = Some pn ->
  exists u, us !! i = Some u /\ u ∈ bl /\ b_kind u = Used /\ held_ok (mem (the_heap s)) pn u.
Proof.
  intros [_ _ Hu Hh] Hi. destruct (Forall2_lookup_l _ _ _ _ _ Hh Hi) as (u & Hui & Hok).
  rewrite Forall_lookup in Hu. destruct (Hu i u Hui). eauto.
Qed.

Lemma held_frame held (bl us : list block) m m' :
  Forall (fun u => u ∈ bl /\ b_kind u = Used) us -> Forall2 (held_ok m) held us -> kept bl m m' ->
  Forall2 (held_ok m') held us.
Proof.
  intros Hu Hh Hk. apply Forall2_same_length_lookup in Hh as [Hl Hh]. apply Forall2_same_length_lookup.
  split; [done|]. intros i pn u Hpn Hui. rewrite Forall_lookup in Hu. destruct (Hu i u Hui).
  eapply held_ok_frame; [by eapply Hh|]. intros a Ha _. by apply (Hk u).
Qed.

Lemma held_grant xStart s s' held bl us tag n size p u l1 k2 :
  held_inv xStart s held bl us -> granted xStart s s' bl tag n size p u l1 k2 -> size <= 2 ^ 32 - 12 ->
  held_inv xStart s' ((p, n) :: held) (l1 ++ u :: k2) (u :: us).
Proof.
  intros Hinv [(x & l2 & pu & Hs) Hi _ Hk _ Hin Hh] Hsz. pose proof Hinv as [[_ Hpl] Hnd Hu Hhe].
  destruct (served_block _ _ _ _ _ _ _ _ _ _ _ Hs Hpl Hsz) as (_ & U1 & _ & _ & _ & _ & U2).
  assert (Hus : forall y, y ∈ us -> y ∈ l1 ++ k2 /\ b_kind y = Used).
  { intros y Hy. rewrite Forall_forall in Hu. destruct (Hu y Hy). auto. }
  split; [done| | |].
  - apply NoDup_cons. split; [|done]. intros Hy. destruct (Hus u Hy) as [Hy' _]. destruct Hi as [[_ Hg _ _ _] _].
    pose proof (nodup_middle _ _ _ _ (geometry_NoDup _ _ Hg)) as [Hno _]%NoDup_cons. apply Hno. right.
    apply list_elem_of_fmap. eauto.
  - apply Forall_cons. split; [split; [set_solver|done]|]. apply Forall_forall. intros y Hy. destruct (Hus y Hy).
    split; [set_solver|done].
  - constructor; [by split|]. by eapply held_frame.
Qed.

Lemma held_release xStart fuel s h1 p n h2 bl us :
  held_inv xStart s (h1 ++ (p, n) :: h2) bl us -> (length bl <= fuel)%nat ->
  exists s', vPortFree xStart fuel p s = Ret (tt, s') /\ kept bl (mem (the_heap s)) (mem (the_heap s'))
    /\ exists bl' us', held_inv xStart s' (h1 ++ h2) bl' us'.
Proof.
  intros Hinv Hfu. pose proof Hinv as [Hi Hnd Hu Hh].
  apply Forall2_app_inv_l in Hh as (us1 & us2 & Hh1 & Hh2 & ->).
  apply Forall2_cons_inv_l in Hh2 as (u & us2' & [Hown Hhan] & Hh2 & ->).
  rewrite Forall_app, Forall_cons in Hu. destruct Hu as (Hu1 & [Hub Huk] & Hu2).
  pose proof (list_elem_of_split _ _ Hub) as (l1 & l2 & ->). rewrite length_app in Hfu.
  destruct (caps_free_inv xStart fuel s l1 u l2 p Hi Huk ltac:(lia)) as (s' & Hrun & Hinv' & Hk); [by apply Hhan|].
  exists s'. split_and!; [done|done|]. exists (coalesce l1 u l2), (us1 ++ us2').
  apply NoDup_app in Hnd as (N1 & N2 & [N3 N4]%NoDup_cons).
  assert (Hin : forall y, y ∈ us1 ++ us2' -> y ∈ l1 ++ u :: l2 -> b_kind y = Used -> y ∈ coalesce l1 u l2).
  { intros y Hy Hyb Hyk. apply used_coalesced; [|done]. assert (y <> u); [|set_solver]. intros ->.
    apply elem_of_app in Hy as [Hy|Hy]; [|done]. apply (N2 u Hy). left. }
  split; [done| | |].
  - apply NoDup_app. split_and!; [done| |done]. intros y Hy1 Hy2. apply (N2 y Hy1). by right.
  - rewrite Forall_forall in Hu1, Hu2. apply Forall_forall. intros y Hy.
    assert (y ∈ l1 ++ u :: l2 /\ b_kind y = Used) as [? ?] by (apply elem_of_app in Hy as [?|?]; auto). auto.
  - eapply held_frame; [|by apply Forall2_app|exact Hk]. by apply Forall_app.
Qed.

Lemma held_store xStart s held bl us p n m :
  held_inv xStart s held bl us -> (p, n) ∈ held -> (forall a, ~ owns p n a -> m a = mem (the_heap s) a) ->
  held_inv xStart (with_heap (with_mem m (the_heap s)) s) held bl us
  /\ forall i pn, held !! i = Some pn -> pn <> (p, n) -> forall a, owns pn.1 pn.2 a -> m a = mem (the_heap s) a.
Proof.
  intros Hinv [j Hj]%list_elem_of_lookup Hm. pose proof Hinv as [[Hi Hpl] Hnd Hu Hh].
  destruct (held_block _ _ _ _ _ _ _ Hinv Hj) as (u & Huj & Hub & Huk & [Hown Hhan]).
  pose proof (list_elem_of_split _ _ Hub) as (l1 & l2 & ->). cbn [fst snd] in *.
  assert (Hw : written u (mem (the_heap s)) m) by (intros a Ha; apply Hm; intros Ho; by apply Ha, Hown).
  assert (Hother : forall i pn u', i <> j -> us !! i = Some u' -> held !! i = Some pn ->
    forall a, in_payload u' a -> m a = mem (the_heap s) a).
  { intros i pn u' Hij Hui Hpn a Ha. apply Hw. destruct (held_block _ _ _ _ _ _ _ Hinv Hpn) as (u2 & E & Hb2 & Hk2 & _).
    rewrite Hui in E. injection E as <-. destruct Hi as [_ Hg _ _ _]. apply (payloads_apart _ _ _ _ u' a Hg Huk); [|done|done].
    assert (u' <> u); [|set_solver]. intros ->. by apply Hij, (NoDup_lookup us _ _ u). }
  split.
  - split; [split; [by apply heap_inv_payload|done]|done|done|]. cbn [the_heap with_heap mem with_mem].
    apply Forall2_same_length_lookup in Hh as [Hl Hh]. apply Forall2_same_length_lookup. split; [done|].
    intros i pn u' Hpn Hui. eapply held_ok_frame; [by eapply Hh|]. intros a Ha Ho. destruct (decide (i = j)) as [->|Hij].
    + apply Hm. rewrite Hj in Hpn. by injection Hpn as <-.
    + by eapply Hother.
  - intros i pn Hpn Hne a Ho. destruct (held_block _ _ _ _ _ _ _ Hinv Hpn) as (u' & Hui & _ & _ & [Hown' _]).
    eapply (Hother i pn u'); [|done|done|by apply Hown']. intros ->. rewrite Hj in Hpn. by injection Hpn as <-.
Qed.

(** One step keeps the invariant, and every held word that the step is not a
    store to. *)
Lemma step_held xStart fuel s held bl us e s' held' :
  held_inv xStart s held bl us -> 2 ^ 29 <= Z.of_nat fuel -> step xStart fuel (s, held) e (s', held') ->
  (exists bl' us', held_inv xStart s' held' bl' us')
  /\ forall i p n, held !! i = Some (p, n) -> e <> Store p n ->
       forall a, owns p n a -> mem (the_heap s') a = mem (the_heap s) a.
Proof.
  intros Hinv Hfu Hstep. pose proof Hinv as [Hi _ _ _]. pose proof (fuel_enough _ _ _ _ Hi Hfu) as Hfb.
  assert (HK : forall s', kept bl (mem (the_heap s)) (mem (the_heap s')) -> forall i p n, held !! i = Some (p, n) ->
    forall a, owns p n a -> mem (the_heap s') a = mem (the_heap s) a).
  { intros s2 Hk i p n Hpn a Ho. destruct (held_block _ _ _ _ _ _ _ Hinv Hpn) as (u & _ & Hub & Huk & [Hown _]).
    apply (Hk u); [done|done|by apply Hown]. }
  inversion Hstep as [? ? n caps p ? Hn Hrun|? h1 p n h2 ? Hrun|? ? p n m Hin Hm|? ? ? Hrun]; subst.
  - rewrite malloc_is_search in Hrun by done. destruct (executable caps && _) eqn:Er.
    { injection Hrun as <- <-. split; [eauto|done]. }
    destruct (search_spec_caps xStart fuel s bl n caps Hi Hn Hfb) as (p' & s2 & Hrun' & cs & _ & _ & Hcase).
    rewrite Hrun in Hrun'. injection Hrun' as <- <-.
    destruct Hcase as [(-> & -> & _)|(c1 & tag & d & c2 & u & l1 & k2 & _ & _ & Hg)]; [split; [eauto|done]|].
    pose proof Hg as [_ _ _ Hk [Hp _] _ _]. rewrite (proj2 (Z.eqb_neq _ _)) by lia. split; [|eauto].
    exists (l1 ++ u :: k2), (u :: us). eapply held_grant; [done|done|].
    destruct (rounded_spec n caps Hn) as (R1 & _). unfold asked. clear - R1 Hn. case_match; lia.
  - destruct (held_release _ fuel _ _ _ _ _ _ _ Hinv Hfb) as (s2 & Hrun2 & Hk & Hex). rewrite Hrun in Hrun2.
    injection Hrun2 as <-. split; [done|eauto].
  - destruct (held_store _ _ _ _ _ _ _ _ Hinv Hin Hm) as [Hinv' Hkeep]. split; [eauto|].
    intros i q k Hq Hne a Ho. apply (Hkeep i (q, k)); [done|congruence|done].
  - injection Hrun as <-. split; [|done]. exists bl, us. destruct Hinv as [[] ? ? ?]. by split.
Qed.

Lemma reachable_held xStart fuel s0 bl0 st :
  caps_inv xStart s0 bl0 -> 2 ^ 29 <= Z.of_nat fuel -> reachable xStart fuel (s0, []) st ->
  exists bl us, held_inv xStart st.1 st.2 bl us.
Proof.
  intros H0 Hfu. induction 1 as [|[s1 h1] e [s2 h2] _ (bl & us & IH) Hstep].
  - exists bl0, []. split; [done|constructor|constructor|constructor].
  - exact (proj1 (step_held _ _ _ _ _ _ _ _ _ IH Hfu Hstep)).
Qed.

(** C7: after any sequence of allocations of up to 2^32 - 24 bytes each,
    releases and stores by any number of callers, the words behind two held pointers are disjoint; a held
    pointer can be released at any time; and no step changes a word behind a
    held pointer but a store through that pointer.  (For larger requests the
    size computed by heap_regions.c:206 overflows.) *)
Theorem held_memory_private xStart fuel s0 bl0 s held :
  caps_inv xStart s0 bl0 -> 2 ^ 29 <= Z.of_nat fuel -> reachable xStart fuel (s0, []) (s, held) ->
  (forall i j p n q k a, held !! i = Some (p, n) -> held !! j = Some (q, k) -> i <> j ->
     owns p n a -> owns q k a -> False)
  /\ (forall p n, (p, n) ∈ held -> exists s', vPortFree xStart fuel p s = Ret (tt, s'))
  /\ (forall e s' held' i p n a, step xStart fuel (s, held) e (s', held') -> held !! i = Some (p, n) ->
        e <> Store p n -> owns p n a -> mem (the_heap s') a = mem (the_heap s) a).
Proof.
  intros H0 Hfu Hr. destruct (reachable_held _ _ _ _ _ H0 Hfu Hr) as (bl & us & Hinv). cbn [fst snd] in Hinv. split_and!.
  - intros i j p n q k a Hi Hj Hij Ho1 Ho2. pose proof Hinv as [[[_ Hg _ _ _] _] Hnd _ _].
    destruct (held_block _ _ _ _ _ _ _ Hinv Hi) as (u & Hui & Hub & Huk & [Hown _]).
    destruct (held_block _ _ _ _ _ _ _ Hinv Hj) as (v & Hvj & Hvb & Hvk & [Hown' _]).
    apply list_elem_of_split in Hub as (l1 & l2 & ->).
    apply (payloads_apart _ _ _ _ v a Hg Huk); [|done|by apply Hown'|by apply Hown].
    assert (v <> u); [|set_solver]. intros ->. by apply Hij, (NoDup_lookup us _ _ u).
  - intros p n Hin. apply list_elem_of_split in Hin as (h1 & h2 & ->).
    destruct (held_release _ fuel _ _ _ _ _ _ _ Hinv) as (s' & Hrun & _); [|eauto].
    destruct Hinv as [Hi _ _ _]. by eapply fuel_enough.
  - intros e s' held' i p n a Hstep Hi Hne Ho.
    exact (proj2 (step_held _ _ _ _ _ _ _ _ _ Hinv Hfu Hstep) i p n Hi Hne a Ho).
Qed.

(** ** A concrete system *)

Definition ex_config : config := Config false false false false.
Definition ex_xStart : Z := 0x3FFB0100.
Definition ex_init : M caps_state unit :=
  heap_alloc_caps_init ex_xStart ex_config 0x3FFB0000 0x3FFB4321 0x40080000 0x40089999.
Definition ex_prepared : outcome (unit * caps_state) :=
  prepare_regions ex_config 0x3FFB0000 0x3FFB4321 0x40080000 0x40089999 (initial_state (fun _ => 0)).
Definition ex_table : list HeapRegionTagged_t :=
  Eval vm_compute in match ex_prepared with Ret (_, s) => regions s | Stuck _ => [] end.
Definition ex_s1 : caps_state := with_regions ex_table (initial_state (fun _ => 0)).

Lemma ex_prepared_eq : ex_prepared = Ret (tt, ex_s1).
Proof.
  destruct (wp_inv _ _ _ (prepare_spec ex_config 0x3FFB0000 0x3FFB4321 0x40080000 0x40089999 (fun _ => 0)
    ltac:(unfold range_ok; cbn; lia) ltac:(unfold range_ok; cbn; lia))) as ([] & s & Hrun & l & -> & _).
  assert (E : match ex_prepared with Ret (_, s) => regions s | Stuck _ => [] end = ex_table) by (vm_compute; reflexivity).
  unfold ex_prepared in *. rewrite Hrun in *. cbn [regions with_regions] in E. by rewrite E.
Qed.

Lemma ex_roomy : roomy ex_table.
Proof. split; [discriminate|]. apply Forall_forall. intros r Hr.
  eapply (test_all (fun r => 16 <=? xSizeInBytes r)) in Hr; [|vm_compute; reflexivity]. by apply Z.leb_le.
Qed.

Definition ex_state : caps_state :=
  match ex_init (initial_state (fun _ => 0)) with Ret (_, s) => s | Stuck _ => initial_state (fun _ => 0) end.

Lemma ex_caps_inv : ex_init (initial_state (fun _ => 0)) = Ret (tt, ex_state) /\ caps_inv ex_xStart ex_state (heap_blocks ex_table).
Proof.
  destruct (init_spec ex_xStart ex_config 0x3FFB0000 0x3FFB4321 0x40080000 0x40089999 (fun _ => 0) ex_s1) as (s & Hrun & Hinv & _);
    [unfold range_ok; cbn; lia|unfold range_ok; cbn; lia|unfold ex_xStart; lia|unfold ex_xStart; lia|unfold ex_xStart; lia|exact ex_prepared_eq|exact ex_roomy|].
  change (regions ex_s1) with ex_table in Hinv. change (ex_init (initial_state (fun _ => 0)) = Ret (tt, s)) in Hrun.
  unfold ex_state. rewrite Hrun. split; [reflexivity|exact Hinv].
Qed.

Lemma init_heap_avoids_reserved_witness :
  roomy ex_table
  /\ exists s bl, heap_alloc_caps_init ex_xStart ex_config 0x3FFB0000 0x3FFB4321 0x40080000 0x40089999
                    (initial_state (fun _ => 0)) = Ret (tt, s) /\ caps_inv ex_xStart s bl.
Proof.
  split; [exact ex_roomy|].
  destruct (init_heap_avoids_reserved ex_xStart ex_config 0x3FFB0000 0x3FFB4321 0x40080000 0x40089999 (fun _ => 0) ex_s1)
    as (s & bl & H1 & H2 & _);
    [unfold range_ok; cbn; lia|unfold range_ok; cbn; lia|unfold ex_xStart; lia|unfold ex_xStart; lia|unfold ex_xStart; lia
    |exact ex_prepared_eq|exact ex_roomy|].
  exists s, bl. split; [exact H1|exact H2].
Defined.

Lemma ex_length : length (heap_blocks ex_table) = 10%nat.
Proof. vm_compute. reflexivity. Qed.

Lemma caps_malloc_serves_witness :
  exists p s', pvPortMallocCaps ex_xStart 100 100 MALLOC_CAP_8BIT ex_state = Ret (p, s')
    /\ exists cs : list (Z * tag_desc_t), (forall td, td ∈ cs <-> td ∈ entries 0 0 tag_desc
         /\ capable (nonos_stack_in_use ex_state) MALLOC_CAP_8BIT td) /\ StronglySorted (tried_before MALLOC_CAP_8BIT) cs.
Proof.
  destruct (caps_malloc_serves ex_xStart 100 ex_state (heap_blocks ex_table) 100 MALLOC_CAP_8BIT) as (p & s' & H1 & H2);
    [exact (proj2 ex_caps_inv)|lia|rewrite ex_length; lia|].
  exists p, s'. split; [exact H1|]. destruct H2 as (cs & H2 & H3 & _). exists cs. split; [exact H2|exact H3].
Defined.

(** The caller of the first allocation stores 42 in its first word. *)
Lemma caps_malloc_free_witness :
  exists s1 s2, pvPortMallocCaps ex_xStart 100 100 MALLOC_CAP_8BIT ex_state = Ret (0x3FFAE2A8, s1)
    /\ vPortFree ex_xStart 100 0x3FFAE2A8
         (with_heap (with_mem (HeapRegions.st (mem (the_heap s1)) 0x3FFAE2A8 42) (the_heap s1)) s1) = Ret (tt, s2)
    /\ caps_inv ex_xStart s2 (heap_blocks ex_table).
Proof.
  assert (E : match pvPortMallocCaps ex_xStart 100 100 MALLOC_CAP_8BIT ex_state with Ret (p, _) => p | Stuck _ => 0 end
    = 0x3FFAE2A8) by (vm_compute; reflexivity).
  destruct (pvPortMallocCaps ex_xStart 100 100 MALLOC_CAP_8BIT ex_state) as [[p s1]|] eqn:Hrun; [|discriminate E].
  subst p. exists s1.
  destruct (caps_malloc_free ex_xStart 100 ex_state (heap_blocks ex_table) 100 MALLOC_CAP_8BIT 0x3FFAE2A8 s1
    (HeapRegions.st (mem (the_heap s1)) 0x3FFAE2A8 42)) as (s2 & H1 & H2 & _);
    [exact (proj2 ex_caps_inv)|lia|rewrite ex_length; lia|exact Hrun|lia| |].
  { intros a Ha. apply st_ne. intros ->. apply Ha. exists 0. split; [split; [lia|vm_compute; reflexivity]|vm_compute; reflexivity]. }
  exists s2. split; [reflexivity|]. split; [exact H1|exact H2].
Defined.

Lemma held_memory_private_witness :
  let fuel := Z.to_nat (2 ^ 29) in
  exists s held, reachable ex_xStart fuel (ex_state, []) (s, held)
    /\ forall p n, (p, n) ∈ held -> exists s', vPortFree ex_xStart fuel p s = Ret (tt, s').
Proof.
  intros fuel. assert (Hf : 2 ^ 29 <= Z.of_nat fuel) by (unfold fuel; rewrite Z2Nat.id; lia).
  pose proof (proj2 ex_caps_inv) as Hinv.
  destruct (search_spec_caps ex_xStart fuel ex_state (heap_blocks ex_table) 100 MALLOC_CAP_8BIT Hinv) as (p & s & Hrun & _);
    [lia|rewrite ex_length; lia|].
  assert (Hr : reachable ex_xStart fuel (ex_state, []) (s, if p =? 0 then [] else [(p, rounded 100 MALLOC_CAP_8BIT)])).
  { eapply reach_step; [apply reach_start|]. apply (step_allocate _ _ _ _ 100 MALLOC_CAP_8BIT); [lia|].
    rewrite malloc_is_search by lia. exact Hrun. }
  eexists s, _. split; [exact Hr|].
  exact (proj1 (proj2 (held_memory_private ex_xStart fuel ex_state (heap_blocks ex_table) s _ Hinv Hf Hr))).
Defined.

(** ** Two surprises *)

(** [xPortGetFreeHeapSizeCaps] adds a tag once for every priority at which it
    has one of the capabilities: DRAM and D/IRAM count twice for
    [MALLOC_CAP_8BIT | MALLOC_CAP_32BIT]. *)
Example free_size_counts_twice :
  match xPortGetFreeHeapSizeCaps (MALLOC_CAP_8BIT .| MALLOC_CAP_32BIT) ex_state with Ret (v, _) => v | Stuck _ => 0 end
  = 2 * 186924 + 2 * 129120 + 91740.
Proof. vm_compute. reflexivity. Qed.

(** When the static data ends four bytes before the end of a region, those
    four bytes are given to the allocator, whose end marker overwrites the
    last word of the static data. *)
Example short_region_overwrites_data :
  match heap_alloc_caps_init ex_xStart ex_config 0x3FFB0000 0x3FFDFFFC 0x40080000 0x40089999 (initial_state (fun _ => 7)) with
  | Ret (_, s) => mem (the_heap s) 0x3FFDFFF8
  | Stuck _ => 7
  end = 0x3FFE0440.
Proof. vm_compute. reflexivity. Qed.
