(* ===== verification/IntrAlloc.v ===== *)
(** * The interrupt allocator (components/esp32/intr_alloc.c)

    Each CPU has 32 interrupts, of which a peripheral or an internal source
    can be given one, alone or shared with others.  A vector descriptor per
    interrupt that was ever used is kept in a list sorted by CPU and number;
    the handlers that share an interrupt hang in a list off its descriptor.

    A descriptor is never freed and there is one per CPU and number, so a
    pointer to it is the pair of these; an entry of a shared list is named by
    its address.  The hardware is part of the state: the table of handlers
    (xtensa_intr.c), the interrupt matrix, and the interrupt enable registers.
    [spinlock] counts how often the lock is held.  The CPU the code runs on
    and the results of [malloc] are arguments. *)

From stdpp Require Import sorting.
From S2P Require Import Prelude.

#[local] Open Scope Z_scope.

(** ** Constants and tables *)

Definition portNUM_PROCESSORS : Z := 2.

Definition ESP_INTR_FLAG_LEVEL1 : Z := Z.shiftl 1 1.
Definition ESP_INTR_FLAG_LEVEL2 : Z := Z.shiftl 1 2.
Definition ESP_INTR_FLAG_LEVEL3 : Z := Z.shiftl 1 3.
Definition ESP_INTR_FLAG_LEVEL4 : Z := Z.shiftl 1 4.
Definition ESP_INTR_FLAG_LEVEL5 : Z := Z.shiftl 1 5.
Definition ESP_INTR_FLAG_LEVEL6 : Z := Z.shiftl 1 6.
Definition ESP_INTR_FLAG_NMI : Z := Z.shiftl 1 7.
Definition ESP_INTR_FLAG_SHARED : Z := Z.shiftl 1 8.
Definition ESP_INTR_FLAG_EDGE : Z := Z.shiftl 1 9.
Definition ESP_INTR_FLAG_IRAM : Z := Z.shiftl 1 10.
Definition ESP_INTR_FLAG_INTRDISABLED : Z := Z.shiftl 1 11.

Definition ESP_INTR_FLAG_LOWMED : Z :=
  Z.lor (Z.lor ESP_INTR_FLAG_LEVEL1 ESP_INTR_FLAG_LEVEL2) ESP_INTR_FLAG_LEVEL3.
Definition ESP_INTR_FLAG_HIGH : Z :=
  Z.lor (Z.lor ESP_INTR_FLAG_LEVEL4 ESP_INTR_FLAG_LEVEL5) (Z.lor ESP_INTR_FLAG_LEVEL6 ESP_INTR_FLAG_NMI).
Definition ESP_INTR_FLAG_LEVELMASK : Z := Z.lor ESP_INTR_FLAG_LOWMED ESP_INTR_FLAG_HIGH.

Definition has (flags bit : Z) : bool := negb (Z.land flags bit =? 0).

Inductive int_desc_flag_t : Type := INTDESC_NORMAL | INTDESC_RESVD | INTDESC_SPECIAL.
Inductive int_type_t : Type := INTTP_LEVEL | INTTP_EDGE | INTTP_NA.

#[export] Instance int_desc_flag_eq_dec : EqDecision int_desc_flag_t.
Proof. solve_decision. Defined.
#[export] Instance int_type_eq_dec : EqDecision int_type_t.
Proof. solve_decision. Defined.

Record int_desc_t : Type := IntDesc { level : Z; type : int_type_t; cpuflags : int_desc_flag_t * int_desc_flag_t }.
Definition cpuflag (d : int_desc_t) (cpu : Z) : int_desc_flag_t := if cpu =? 0 then (cpuflags d).1 else (cpuflags d).2.

(** The table, for the timer that FreeRTOS uses: CORETIMER_0 or 1. *)
Definition int_desc (coretimer_0 : bool) : list int_desc_t :=
  let N := INTDESC_NORMAL in let R := INTDESC_RESVD in let S := INTDESC_SPECIAL in
  let r6 := if coretimer_0 then R else S in
  let r15 := if coretimer_0 then S else R in
  [ IntDesc 1 INTTP_LEVEL (R, R);   IntDesc 1 INTTP_LEVEL (R, R);
    IntDesc 1 INTTP_LEVEL (N, N);   IntDesc 1 INTTP_LEVEL (N, N);
    IntDesc 1 INTTP_LEVEL (R, N);   IntDesc 1 INTTP_LEVEL (R, N);
    IntDesc 1 INTTP_NA    (r6, r6); IntDesc 1 INTTP_NA    (S, S);
    IntDesc 1 INTTP_LEVEL (R, R);   IntDesc 1 INTTP_LEVEL (R, R);
    IntDesc 1 INTTP_EDGE  (R, R);   IntDesc 3 INTTP_NA    (S, S);
    IntDesc 1 INTTP_LEVEL (N, N);   IntDesc 1 INTTP_LEVEL (N, N);
    IntDesc 7 INTTP_LEVEL (R, R);   IntDesc 3 INTTP_NA    (r15, r15);
    IntDesc 5 INTTP_NA    (S, S);   IntDesc 1 INTTP_LEVEL (N, N);
    IntDesc 1 INTTP_LEVEL (N, N);   IntDesc 2 INTTP_LEVEL (N, N);
    IntDesc 2 INTTP_LEVEL (N, N);   IntDesc 2 INTTP_LEVEL (N, N);
    IntDesc 3 INTTP_EDGE  (R, N);   IntDesc 3 INTTP_LEVEL (N, N);
    IntDesc 4 INTTP_LEVEL (R, N);   IntDesc 4 INTTP_LEVEL (R, R);
    IntDesc 5 INTTP_LEVEL (R, R);   IntDesc 3 INTTP_LEVEL (R, R);
    IntDesc 4 INTTP_EDGE  (N, N);   IntDesc 3 INTTP_NA    (S, S);
    IntDesc 4 INTTP_EDGE  (R, R);   IntDesc 5 INTTP_LEVEL (R, R) ].

Definition VECDESC_FL_RESERVED : Z := Z.shiftl 1 0.
Definition VECDESC_FL_INIRAM : Z := Z.shiftl 1 1.
Definition VECDESC_FL_SHARED : Z := Z.shiftl 1 2.
Definition VECDESC_FL_NONSHARED : Z := Z.shiftl 1 3.

(** ** State *)

Record shared_vector_desc_t : Type := SharedVec {
  sv_addr : Z;
  disabled : bool;
  sv_source : Z;
  statusreg : Z;
  statusmask : Z;
  isr : Z;
  sv_arg : Z
}.

Record vector_desc_t : Type := VectorDesc {
  flags : Z;
  cpu : Z;
  intno : Z;
  source : Z;
  shared_vec_info : list shared_vector_desc_t
}.

(** An entry of [_xt_interrupt_table]: [xt_unhandled_interrupt],
    [shared_intr_isr] with a descriptor, or a handler with its argument. *)
Inductive xt_handler : Type :=
| Unhandled
| SharedIsr (cpu intno : Z)
| Handler (f arg : Z).

#[export] Instance xt_handler_eq_dec : EqDecision xt_handler.
Proof. solve_decision. Defined.

Record intr_state : Type := IntrState {
  vector_desc_head : list vector_desc_t;
  non_iram_int_mask : list Z;
  non_iram_int_disabled : list Z;
  non_iram_int_disabled_flag : list bool;
  xt_interrupt_table : list xt_handler;
  matrix : gmap (Z * Z) Z;
  intenable : list Z;
  spinlock : Z
}.

(** [intr_handle_data_t]: the descriptor, and the entry of its shared list. *)
Record intr_handle : Type := IntrHandle { h_cpu : Z; h_intno : Z; h_shared : option Z }.

Definition with_descs (l : list vector_desc_t) (s : intr_state) : intr_state :=
  IntrState l (non_iram_int_mask s) (non_iram_int_disabled s) (non_iram_int_disabled_flag s)
    (xt_interrupt_table s) (matrix s) (intenable s) (spinlock s).
Definition with_mask (l : list Z) (s : intr_state) : intr_state :=
  IntrState (vector_desc_head s) l (non_iram_int_disabled s) (non_iram_int_disabled_flag s)
    (xt_interrupt_table s) (matrix s) (intenable s) (spinlock s).
Definition with_disabled (l : list Z) (f : list bool) (s : intr_state) : intr_state :=
  IntrState (vector_desc_head s) (non_iram_int_mask s) l f
    (xt_interrupt_table s) (matrix s) (intenable s) (spinlock s).
Definition with_table (l : list xt_handler) (s : intr_state) : intr_state :=
  IntrState (vector_desc_head s) (non_iram_int_mask s) (non_iram_int_disabled s) (non_iram_int_disabled_flag s)
    l (matrix s) (intenable s) (spinlock s).
Definition with_matrix (m : gmap (Z * Z) Z) (s : intr_state) : intr_state :=
  IntrState (vector_desc_head s) (non_iram_int_mask s) (non_iram_int_disabled s) (non_iram_int_disabled_flag s)
    (xt_interrupt_table s) m (intenable s) (spinlock s).
Definition with_intenable (l : list Z) (s : intr_state) : intr_state :=
  IntrState (vector_desc_head s) (non_iram_int_mask s) (non_iram_int_disabled s) (non_iram_int_disabled_flag s)
    (xt_interrupt_table s) (matrix s) l (spinlock s).
Definition with_spinlock (n : Z) (s : intr_state) : intr_state :=
  IntrState (vector_desc_head s) (non_iram_int_mask s) (non_iram_int_disabled s) (non_iram_int_disabled_flag s)
    (xt_interrupt_table s) (matrix s) (intenable s) n.

Definition portENTER_CRITICAL : M intr_state unit := modify (fun s => with_spinlock (spinlock s + 1) s).
Definition portEXIT_CRITICAL : M intr_state unit := modify (fun s => with_spinlock (spinlock s - 1) s).

Definition initial_state : intr_state :=
  IntrState [] [0; 0] [0; 0] [false; false] (replicate 64 Unhandled) ∅ [0; 0] 0.

(** ** The list of descriptors *)

(** The order of the list: CPU, then number. *)
Definition stops (to_insert vd : vector_desc_t) : bool :=
  (cpu to_insert <? cpu vd) || ((cpu vd =? cpu to_insert) && (intno to_insert <=? intno vd)).

(** [prev] is whether the loop has passed an entry.  Without one, and with
    the list not empty, the code writes through [prev == NULL]. *)
Fixpoint insert_from (prev : bool) (to_insert : vector_desc_t) (vd : list vector_desc_t) :
    outcome (list vector_desc_t) :=
  match vd with
  | d :: rest =>
      if stops to_insert d then if prev then Ret (to_insert :: vd) else Stuck NullDeref
      else rest ← insert_from true to_insert rest; Ret (d :: rest)
  | [] => Ret [to_insert]
  end.

Definition insert_vector_desc (to_insert : vector_desc_t) : M intr_state unit :=
  s ← get;
  l ← lift (insert_from false to_insert (vector_desc_head s));
  modify (with_descs l).

Fixpoint find_desc (no c : Z) (vd : list vector_desc_t) : option vector_desc_t :=
  match vd with
  | [] => None
  | d :: rest => if (cpu d =? c) && (intno d =? no) then Some d else find_desc no c rest
  end.

Definition find_desc_for_int (s : intr_state) (no c : Z) : option vector_desc_t := find_desc no c (vector_desc_head s).

(** Gives the number and CPU of the descriptor; its fields have 5 bits and 1. *)
Definition get_desc_for_int (malloc_ok : bool) (no c : Z) : M intr_state (option (Z * Z)) :=
  s ← get;
  match find_desc_for_int s no c with
  | None =>
      if malloc_ok then
        insert_vector_desc (VectorDesc 0 (wrap 1 c) (wrap 5 no) 0 []);;
        mret (Some (wrap 5 no, wrap 1 c))
      else mret None
  | Some vd => mret (Some (intno vd, cpu vd))
  end.

(** Access through a pointer to a descriptor. *)
Definition desc (no c : Z) : M intr_state vector_desc_t :=
  s ← get;
  match find_desc_for_int s no c with Some d => mret d | None => stuck NullDeref end.

Fixpoint update_desc (no c : Z) (f : vector_desc_t -> vector_desc_t) (vd : list vector_desc_t) : list vector_desc_t :=
  match vd with
  | [] => []
  | d :: rest => if (cpu d =? c) && (intno d =? no) then f d :: rest else d :: update_desc no c f rest
  end.
Definition set_desc (no c : Z) (f : vector_desc_t -> vector_desc_t) : M intr_state unit :=
  desc no c;; modify (fun s => with_descs (update_desc no c f (vector_desc_head s)) s).

Definition with_flags (fl : Z) (d : vector_desc_t) : vector_desc_t :=
  VectorDesc fl (cpu d) (intno d) (source d) (shared_vec_info d).
Definition with_source (src : Z) (d : vector_desc_t) : vector_desc_t :=
  VectorDesc (flags d) (cpu d) (intno d) src (shared_vec_info d).
Definition with_shared (l : list shared_vector_desc_t) (d : vector_desc_t) : vector_desc_t :=
  VectorDesc (flags d) (cpu d) (intno d) (source d) l.

Definition esp_intr_mark_shared (malloc_ok : bool) (no c : Z) (is_int_ram : bool) : M intr_state esp_err_t :=
  if 31 <? no then mret ESP_ERR_INVALID_ARG
  else if portNUM_PROCESSORS <=? c then mret ESP_ERR_INVALID_ARG
  else
    portENTER_CRITICAL;;
    vd ← get_desc_for_int malloc_ok no c;
    match vd with
    | None => portEXIT_CRITICAL;; mret ESP_ERR_NO_MEM
    | Some (no, c) =>
        (set_desc no c (with_flags VECDESC_FL_SHARED);;
         if is_int_ram then set_desc no c (fun d => with_flags (Z.lor (flags d) VECDESC_FL_INIRAM) d) else mret tt);;
        portEXIT_CRITICAL;;
        mret ESP_OK
    end.

Definition esp_intr_reserve (malloc_ok : bool) (no c : Z) : M intr_state esp_err_t :=
  if 31 <? no then mret ESP_ERR_INVALID_ARG
  else if portNUM_PROCESSORS <=? c then mret ESP_ERR_INVALID_ARG
  else
    portENTER_CRITICAL;;
    vd ← get_desc_for_int malloc_ok no c;
    match vd with
    | None => portEXIT_CRITICAL;; mret ESP_ERR_NO_MEM
    | Some (no, c) => set_desc no c (with_flags VECDESC_FL_RESERVED);; portEXIT_CRITICAL;; mret ESP_OK
    end.

(** ** Hardware *)

Definition intr_matrix_set (c src no : Z) : M intr_state unit :=
  modify (fun s => with_matrix (<[(c, src) := no]> (matrix s)) s).

Definition change_intenable (core : Z) (f : Z -> Z) : M intr_state unit :=
  s ← get;
  v ← lift (rd (intenable s) core);
  l ← lift (wr (intenable s) core (f v));
  modify (with_intenable l).
Definition ESP_INTR_ENABLE (core no : Z) : M intr_state unit := change_intenable core (fun v => Z.lor v (Z.shiftl 1 no)).
Definition ESP_INTR_DISABLE (core no : Z) : M intr_state unit := change_intenable core (fun v => Z.ldiff v (Z.shiftl 1 no)).

Definition change_mask (c : Z) (f : Z -> Z) : M intr_state unit :=
  s ← get;
  v ← lift (rd (non_iram_int_mask s) c);
  l ← lift (wr (non_iram_int_mask s) c (f v));
  modify (with_mask l).

Definition XCHAL_EXCM_LEVEL : Z := 3.

Section Code.
(** Whether FreeRTOS uses core timer 0. *)
Variable coretimer_0 : bool.
(** [xPortGetCoreID()] *)
Variable core : Z.

(** xtensa_intr.c; [Xthal_intlevel] has the levels of [int_desc]. *)
Definition xt_set_interrupt_handler (n : Z) (f : xt_handler) : M intr_state unit :=
  if (n <? 0) || (32 <=? n) then mret tt
  else
    d ← lift (rd (int_desc coretimer_0) n);
    if XCHAL_EXCM_LEVEL <? level d then mret tt
    else
      s ← get;
      l ← lift (wr (xt_interrupt_table s) (n * portNUM_PROCESSORS + core) f);
      modify (with_table l).

Definition int_has_handler (s : intr_state) (intr c : Z) : outcome bool :=
  h ← rd (xt_interrupt_table s) (intr * portNUM_PROCESSORS + c);
  Ret (negb (bool_decide (h = Unhandled))).

(** ** Finding an interrupt *)

Definition INT_MAX : Z := 2 ^ 31 - 1.
Definition empty_vect_desc : vector_desc_t := VectorDesc 0 0 0 0 [].

Record pick : Type := Pick { best : Z; bestLevel : Z; bestSharedCt : Z }.

(** The body of the loop for interrupt [x] with descriptor table entry [d]. *)
Definition consider (s : intr_state) (fl c force x : Z) (d : int_desc_t) (p : pick) : outcome pick :=
  let vd := default empty_vect_desc (find_desc_for_int s x c) in
  if negb (force =? -1) && negb (force =? x) then Ret p
  else if bool_decide (cpuflag d c = INTDESC_RESVD) then Ret p
  else if bool_decide (cpuflag d c = INTDESC_SPECIAL) && (force =? -1) then Ret p
  else if negb (has fl (Z.shiftl 1 (level d))) then Ret p
  else if (has fl ESP_INTR_FLAG_EDGE && bool_decide (type d = INTTP_LEVEL))
          || (negb (has fl ESP_INTR_FLAG_EDGE) && bool_decide (type d = INTTP_EDGE)) then Ret p
  else
    hasIsr ← int_has_handler s x c;
    if hasIsr && negb (has (flags vd) VECDESC_FL_SHARED) then Ret p
    else if has (flags vd) VECDESC_FL_SHARED && has (flags vd) VECDESC_FL_NONSHARED then Stuck AssertFailed
    else if has (flags vd) VECDESC_FL_RESERVED then Ret p
    else if has (flags vd) VECDESC_FL_NONSHARED then Ret p
    else if has fl ESP_INTR_FLAG_SHARED then
      let in_iram_flag := has fl ESP_INTR_FLAG_IRAM in
      let desc_in_iram_flag := has (flags vd) VECDESC_FL_INIRAM in
      if has (flags vd) VECDESC_FL_SHARED && negb (eqb desc_in_iram_flag in_iram_flag) then Ret p
      else if has (flags vd) VECDESC_FL_SHARED then
        let no := Z.of_nat (length (shared_vec_info vd)) in
        if (no <? bestSharedCt p) || (level d <? bestLevel p) then Ret (Pick x (level d) no) else Ret p
      else if best p =? -1 then
        if level d <? bestLevel p then Ret (Pick x (level d) (bestSharedCt p)) else Ret p
      else Ret p
    else if has (flags vd) VECDESC_FL_SHARED then Ret p
    else if level d <? bestLevel p then Ret (Pick x (level d) (bestSharedCt p)) else Ret p.

Fixpoint consider_all (s : intr_state) (fl c force x : Z) (descs : list int_desc_t) (p : pick) : outcome pick :=
  match descs with
  | [] => Ret p
  | d :: descs => p ← consider s fl c force x d p; consider_all s fl c force (x + 1) descs p
  end.

Definition get_free_int (s : intr_state) (fl c force : Z) : outcome Z :=
  let fl := if negb (has fl ESP_INTR_FLAG_LEVELMASK) then Z.lor fl ESP_INTR_FLAG_LOWMED else fl in
  p ← consider_all s fl c force 0 (int_desc coretimer_0) (Pick (-1) 9 INT_MAX);
  Ret (best p).

(** ** Enabling and disabling *)

Definition INT_MUX_DISABLED_INTNO : Z := 6.

(** [shared_vector_desc->disabled = b] through a handle's pointer; gives the
    source. *)
Definition mark_disabled (a : Z) (b : bool) (v : shared_vector_desc_t) : shared_vector_desc_t :=
  if sv_addr v =? a
  then SharedVec (sv_addr v) b (sv_source v) (statusreg v) (statusmask v) (isr v) (sv_arg v) else v.
Definition find_shared (a : Z) (l : list shared_vector_desc_t) : option shared_vector_desc_t :=
  head (filter (fun v => sv_addr v = a) l).

Definition switch_source (h : intr_handle) (b : bool) : M intr_state Z :=
  d ← desc (h_intno h) (h_cpu h);
  match h_shared h with
  | Some a =>
      match find_shared a (shared_vec_info d) with
      | Some v =>
          set_desc (h_intno h) (h_cpu h) (fun d => with_shared (mark_disabled a b <$> shared_vec_info d) d);;
          mret (sv_source v)
      | None => stuck NullDeref
      end
  | None => mret (source d)
  end.

Definition esp_intr_enable (handle : option intr_handle) : M intr_state esp_err_t :=
  match handle with
  | None => mret ESP_ERR_INVALID_ARG
  | Some h =>
      portENTER_CRITICAL;;
      src ← switch_source h false;
      if 0 <=? src then
        intr_matrix_set (h_cpu h) src (h_intno h);;
        portEXIT_CRITICAL;;
        mret ESP_OK
      else if negb (h_cpu h =? core) then mret ESP_ERR_INVALID_ARG
      else
        ESP_INTR_ENABLE core (h_intno h);;
        portEXIT_CRITICAL;;
        mret ESP_OK
  end.

Definition esp_intr_disable (handle : option intr_handle) : M intr_state esp_err_t :=
  match handle with
  | None => mret ESP_ERR_INVALID_ARG
  | Some h =>
      portENTER_CRITICAL;;
      src ← switch_source h true;
      if 0 <=? src then
        intr_matrix_set (h_cpu h) src INT_MUX_DISABLED_INTNO;;
        portEXIT_CRITICAL;;
        mret ESP_OK
      else if negb (h_cpu h =? core) then portEXIT_CRITICAL;; mret ESP_ERR_INVALID_ARG
      else
        ESP_INTR_DISABLE core (h_intno h);;
        portEXIT_CRITICAL;;
        mret ESP_OK
  end.

(** ** Allocation *)

(** The sources inside the CPU, and their interrupts. *)
Definition forced (src : Z) : Z :=
  if src =? -6 then 11 else if src =? -5 then 29 else if src =? -4 then 7
  else if src =? -3 then 16 else if src =? -2 then 15 else if src =? -1 then 6 else -1.

Definition args_ok (src fl reg mask handler : Z) : bool :=
  negb ((has fl ESP_INTR_FLAG_SHARED && has fl ESP_INTR_FLAG_EDGE)
        || (has fl ESP_INTR_FLAG_HIGH && negb (handler =? 0))
        || (has fl ESP_INTR_FLAG_SHARED && ((handler =? 0) || (src <? 0)))
        || (negb (reg =? 0) && (mask =? 0))
        || (has fl ESP_INTR_FLAG_IRAM && (0x400C0000 <=? to_signed 32 handler)
            && (to_signed 32 handler <? 0x50000000))).

Definition default_level (fl : Z) : Z :=
  if negb (has fl ESP_INTR_FLAG_LEVELMASK) then
    if has fl ESP_INTR_FLAG_SHARED then Z.lor fl ESP_INTR_FLAG_LEVEL1 else Z.lor fl ESP_INTR_FLAG_LOWMED
  else fl.

(** The interrupt [intr] is the caller's: its entry in the descriptor and in
    the table of handlers.  [None] is a failed [malloc]. *)
Definition take_int (malloc_sh : option Z) (src fl reg mask handler arg intr : Z) : M intr_state (option unit) :=
  if has fl ESP_INTR_FLAG_SHARED then
    match malloc_sh with
    | None => mret None
    | Some a =>
        set_desc intr core (fun d => with_flags (Z.lor (flags d) VECDESC_FL_SHARED)
          (with_shared (SharedVec a false (to_signed 8 src) reg mask handler arg :: shared_vec_info d) d));;
        xt_set_interrupt_handler intr (SharedIsr core intr);;
        mret (Some tt)
    end
  else
    set_desc intr core (with_flags VECDESC_FL_NONSHARED);;
    (if negb (handler =? 0) then xt_set_interrupt_handler intr (Handler handler arg) else mret tt);;
    set_desc intr core (with_source (to_signed 8 src));;
    mret (Some tt).

(** What is left after the interrupt is taken; gives the handle. *)
Definition connect (src fl intr : Z) : M intr_state intr_handle :=
  (if has fl ESP_INTR_FLAG_IRAM then
     set_desc intr core (fun d => with_flags (Z.lor (flags d) VECDESC_FL_INIRAM) d);;
     change_mask core (fun v => Z.ldiff v (Z.shiftl 1 intr))
   else
     set_desc intr core (fun d => with_flags (Z.ldiff (flags d) VECDESC_FL_INIRAM) d);;
     change_mask core (fun v => Z.lor v (Z.shiftl 1 intr)));;
  (if 0 <=? src then intr_matrix_set core src intr else mret tt);;
  d ← desc intr core;
  let ret := IntrHandle core intr (sv_addr <$> head (shared_vec_info d)) in
  ESP_INTR_ENABLE core intr;;
  (if has fl ESP_INTR_FLAG_INTRDISABLED then esp_intr_disable (Some ret);; mret tt else mret tt);;
  mret ret.

(** The results of the three [malloc]s are the first arguments: handle,
    descriptor, entry of a shared list. *)
Definition esp_intr_alloc_intrstatus (malloc_ret malloc_vd : bool) (malloc_sh : option Z)
    (src fl intrstatusreg intrstatusmask handler arg : Z) : M intr_state (esp_err_t * option intr_handle) :=
  if negb (args_ok src fl intrstatusreg intrstatusmask handler) then mret (ESP_ERR_INVALID_ARG, None)
  else
    let fl := default_level fl in
    if negb malloc_ret then mret (ESP_ERR_NO_MEM, None)
    else
      portENTER_CRITICAL;;
      s ← get;
      intr ← lift (get_free_int s fl core (forced src));
      if intr =? -1 then portEXIT_CRITICAL;; mret (ESP_ERR_NOT_FOUND, None)
      else
        vd ← get_desc_for_int malloc_vd intr core;
        if bool_decide (vd = None) then portEXIT_CRITICAL;; mret (ESP_ERR_NO_MEM, None)
        else
          taken ← take_int malloc_sh src fl intrstatusreg intrstatusmask handler arg intr;
          match taken with
          | None => portEXIT_CRITICAL;; mret (ESP_ERR_NO_MEM, None)
          | Some _ =>
              ret ← connect src fl intr;
              portEXIT_CRITICAL;;
              mret (ESP_OK, Some ret)
          end.

Definition esp_intr_alloc (malloc_ret malloc_vd : bool) (malloc_sh : option Z) (src fl handler arg : Z) :
    M intr_state (esp_err_t * option intr_handle) :=
  esp_intr_alloc_intrstatus malloc_ret malloc_vd malloc_sh src fl 0 0 handler arg.

(** ** Freeing *)

Fixpoint unlink (a : option Z) (svd : list shared_vector_desc_t) : list shared_vector_desc_t :=
  match svd with
  | [] => []
  | v :: next => if bool_decide (Some (sv_addr v) = a) then next else v :: unlink a next
  end.

(** The entry leaves the list of a shared interrupt; gives whether none is
    left. *)
Definition drop_shared (h : intr_handle) : M intr_state bool :=
  d ← desc (h_intno h) (h_cpu h);
  if has (flags d) VECDESC_FL_SHARED then
    check (negb (bool_decide (shared_vec_info d = [])));;
    set_desc (h_intno h) (h_cpu h)
      (fun d => with_shared (unlink (h_shared h) (shared_vec_info d)) d);;
    d ← desc (h_intno h) (h_cpu h);
    mret (bool_decide (shared_vec_info d = []))
  else mret false.

(** [flags &= !(VECDESC_FL_NONSHARED|VECDESC_FL_RESERVED)]: a logical not. *)
Definition esp_intr_free (handle : option intr_handle) : M intr_state esp_err_t :=
  match handle with
  | None => mret ESP_ERR_INVALID_ARG
  | Some h =>
      d ← desc (h_intno h) (h_cpu h);
      if negb (cpu d =? core) then mret ESP_ERR_INVALID_ARG
      else
        portENTER_CRITICAL;;
        esp_intr_disable handle;;
        free_shared_vector ← drop_shared h;
        d ← desc (h_intno h) (h_cpu h);
        (if has (flags d) VECDESC_FL_NONSHARED || free_shared_vector then
           xt_set_interrupt_handler (h_intno h) Unhandled;;
           set_desc (h_intno h) (h_cpu h) (fun d => with_flags (Z.land (flags d) 0) d);;
           change_mask (h_cpu h) (fun v => Z.ldiff v (Z.shiftl 1 (h_intno h)))
         else mret tt);;
        portEXIT_CRITICAL;;
        mret ESP_OK
  end.

Definition esp_intr_get_intno (h : intr_handle) : M intr_state Z := d ← desc (h_intno h) (h_cpu h); mret (intno d).
Definition esp_intr_get_cpu (h : intr_handle) : M intr_state Z := d ← desc (h_intno h) (h_cpu h); mret (cpu d).

(** ** Interrupts that must not run while the flash cache is off *)

Definition esp_intr_noniram_disable : M intr_state unit :=
  s ← get;
  mask ← lift (rd (non_iram_int_mask s) core);
  flag ← lift (rd (non_iram_int_disabled_flag s) core);
  if flag : bool then stuck Aborted
  else
    f ← lift (wr (non_iram_int_disabled_flag s) core true);
    oldint ← lift (rd (intenable s) core);
    change_intenable core (fun v => Z.ldiff v mask);;
    l ← lift (wr (non_iram_int_disabled s) core (Z.land oldint mask));
    modify (with_disabled l f).

Definition esp_intr_noniram_enable : M intr_state unit :=
  s ← get;
  intmask ← lift (rd (non_iram_int_disabled s) core);
  flag ← lift (rd (non_iram_int_disabled_flag s) core);
  if negb flag then stuck Aborted
  else
    f ← lift (wr (non_iram_int_disabled_flag s) core false);
    modify (with_disabled (non_iram_int_disabled s) f);;
    change_intenable core (fun v => Z.lor v intmask).

(** [xt_ints_on] and [xt_ints_off] of xtensa_intr_asm.S, without software
    priorities. *)
Definition ets_isr_unmask (mask : Z) : M intr_state unit := change_intenable core (fun v => Z.lor v mask).
Definition ets_isr_mask (mask : Z) : M intr_state unit := change_intenable core (fun v => Z.ldiff v mask).
End Code.

(** ** Dispatch of a shared interrupt

    The handlers and the registers they look at are a world [W]. *)
Section Dispatch.
Context {W : Type} (read : W -> Z -> Z) (call : Z -> Z -> W -> W).

Fixpoint shared_intr_isr (sh_vec : list shared_vector_desc_t) (w : W) : W :=
  match sh_vec with
  | [] => w
  | v :: next =>
      let w :=
        if negb (disabled v) && ((statusreg v =? 0) || negb (Z.land (read w (statusreg v)) (statusmask v) =? 0))
        then call (isr v) (sv_arg v) w else w in
      shared_intr_isr next w
  end.
End Dispatch.

(** ** The list as a map from CPU and number *)

Definition at_key (no c : Z) (d : vector_desc_t) : bool := (cpu d =? c) && (intno d =? no).
Definition key (d : vector_desc_t) : Z := cpu d * 32 + intno d.
Definition in_bounds (d : vector_desc_t) : Prop := 0 <= cpu d < 2 /\ 0 <= intno d < 32.

(** The list is sorted and has one entry per interrupt. *)
Record sorted (l : list vector_desc_t) : Prop := {
  so_order : StronglySorted Z.lt (key <$> l);
  so_bounds : Forall in_bounds l
}.

Lemma at_key_iff no c d : in_bounds d -> 0 <= c < 2 -> 0 <= no < 32 -> at_key no c d = true <-> key d = c * 32 + no.
Proof. intros [H1 H2] Hc Hn. unfold at_key, key. rewrite andb_true_iff, !Z.eqb_eq. lia. Qed.

Lemma find_at_key no c l d : find_desc no c l = Some d -> d ∈ l /\ cpu d = c /\ intno d = no.
Proof.
  induction l as [|e l IH]; cbn; [done|]. destruct (_ && _) eqn:E; [|intros H; apply IH in H as (? & ? & ?); split; [by right|done]].
  intros [= ->]. simplify_bool. split; [left|done].
Qed.

Lemma find_none no c l : find_desc no c l = None <-> Forall (fun d => at_key no c d = false) l.
Proof.
  induction l as [|e l IH]; cbn [find_desc]; [by split; [constructor|]|]. rewrite Forall_cons, <- IH.
  unfold at_key. destruct (_ && _); naive_solver.
Qed.

Lemma find_desc_update no c f l no' c' :
  (forall d, cpu (f d) = cpu d /\ intno (f d) = intno d) ->
  find_desc no' c' (update_desc no c f l)
  = if (c =? c') && (no =? no') then f <$> find_desc no' c' l else find_desc no' c' l.
Proof.
  intros Hf. induction l as [|d l IH]; cbn [update_desc find_desc]; [by destruct (_ && _)|].
  destruct ((cpu d =? c) && (intno d =? no)) eqn:E; cbn [find_desc].
  - destruct (Hf d) as [-> ->]. simplify_bool. subst c no. destruct (_ && _) eqn:E2; [|done]. done.
  - destruct ((cpu d =? c') && (intno d =? no')) eqn:E2; [|done]. simplify_bool. subst c' no'.
    destruct ((c =? cpu d) && (no =? intno d)) eqn:E3; [|done]. simplify_bool. subst. by rewrite !Z.eqb_refl in E.
Qed.

Lemma update_keys no c f l :
  (forall d, cpu (f d) = cpu d /\ intno (f d) = intno d) -> key <$> update_desc no c f l = key <$> l.
Proof.
  intros Hf. induction l as [|d l IH]; cbn [update_desc]; [done|]. unfold key in *.
  destruct (_ && _); cbn; [by destruct (Hf d) as [-> ->]|by rewrite IH].
Qed.

Lemma update_sorted no c f l :
  (forall d, cpu (f d) = cpu d /\ intno (f d) = intno d) -> sorted l -> sorted (update_desc no c f l).
Proof.
  intros Hf [Ho Hb]. split; [by rewrite update_keys|]. clear Ho. induction Hb as [|d l Hd Hb IH]; cbn [update_desc]; [constructor|].
  destruct (_ && _); constructor; try done. unfold in_bounds. by destruct (Hf d) as [-> ->].
Qed.

Lemma stops_key n d : in_bounds n -> in_bounds d -> stops n d = (key n <=? key d).
Proof.
  intros [N1 N2] [D1 D2]. unfold stops, key. apply eq_true_iff_eq.
  rewrite orb_true_iff, andb_true_iff, Z.ltb_lt, Z.eqb_eq, !Z.leb_le. lia.
Qed.

(** Where the new entry goes; the code cannot put it in front of another. *)
Lemma insert_split prev n l :
  exists l1 l2, l = l1 ++ l2 /\ Forall (fun d => stops n d = false) l1
    /\ (forall d, head l2 = Some d -> stops n d = true)
    /\ insert_from prev n l
       = if prev || bool_decide (l = []) || negb (bool_decide (l1 = [])) then Ret (l1 ++ n :: l2) else Stuck NullDeref.
Proof.
  revert prev. induction l as [|d l IH]; intros prev; [exists [], []; by destruct prev|]. cbn [insert_from].
  destruct (stops n d) eqn:E.
  - exists [], (d :: l). split_and!; [done|done|by intros ? [= <-]|by destruct prev].
  - destruct (IH true) as (l1 & l2 & -> & H1 & H2 & ->). exists (d :: l1), l2. cbn [orb].
    split_and!; [done|by constructor|done|by destruct prev].
Qed.

Lemma insert_sorted n l1 l2 :
  in_bounds n -> sorted (l1 ++ l2) -> find_desc (intno n) (cpu n) (l1 ++ l2) = None ->
  Forall (fun d => stops n d = false) l1 -> (forall d, head l2 = Some d -> stops n d = true) -> sorted (l1 ++ n :: l2).
Proof.
  intros Hn [Ho Hb] Hf H1 H2. pose proof Hn as [Hn1 Hn2]. rewrite fmap_app in Ho. apply StronglySorted_app in Ho as (Ho12 & Ho1 & Ho2).
  apply Forall_app in Hb as [Hb1 Hb2]. apply find_none, Forall_app in Hf as [_ Hf2].
  assert (Hlt1 : forall d, d ∈ l1 -> key d < key n).
  { intros d Hd. rewrite Forall_forall in H1, Hb1. specialize (H1 d Hd). rewrite stops_key in H1 by auto.
    by apply Z.leb_gt. }
  assert (Hlt2 : forall d, d ∈ l2 -> key n < key d).
  { destruct l2 as [|e l2]; [by intros d Hd; apply elem_of_nil in Hd|]. specialize (H2 e eq_refl). apply Forall_cons in Hb2 as [He Hb2], Hf2 as [Hfe _].
    rewrite stops_key in H2 by done. apply Z.leb_le in H2. assert (key e <> key n).
    { intros E. apply not_true_iff_false in Hfe. apply Hfe. by apply at_key_iff. }
    cbn in Ho2. apply StronglySorted_inv in Ho2 as [_ Ho2]. rewrite Forall_fmap, Forall_forall in Ho2. cbn in Ho2.
    intros d [->|Hd]%elem_of_cons; [lia|]. specialize (Ho2 d Hd). lia. }
  split; [|apply Forall_app; split; [done|by constructor]].
  rewrite fmap_app, fmap_cons. apply StronglySorted_app. split_and!; [|done|].
  - intros x y (d & -> & Hd)%list_elem_of_fmap [->|(e & -> & He)%list_elem_of_fmap]%elem_of_cons; [auto|].
    specialize (Hlt1 d Hd). specialize (Hlt2 e He). lia.
  - constructor; [done|]. apply Forall_fmap, Forall_forall. auto.
Qed.

Lemma find_insert n l1 l2 no c :
  find_desc (intno n) (cpu n) (l1 ++ l2) = None ->
  find_desc no c (l1 ++ n :: l2) = if at_key no c n then Some n else find_desc no c (l1 ++ l2).
Proof.
  intros Hf%find_none. induction l1 as [|d l1 IH]; cbn [app find_desc]; [done|]. apply Forall_cons in Hf as [Hd Hf].
  rewrite IH by done. fold (at_key no c d). destruct (at_key no c d) eqn:E; [|done].
  destruct (at_key no c n) eqn:En; [|done]. unfold at_key in *. simplify_bool. lia.
Qed.

(** ** Which interrupts can be used *)

Definition vec (s : intr_state) (x c : Z) : vector_desc_t := default empty_vect_desc (find_desc_for_int s x c).
Definition is_shared (s : intr_state) (x c : Z) : bool := has (flags (vec s x c)) VECDESC_FL_SHARED.

(** The tests of the loop of [get_free_int]. *)
Definition usable (s : intr_state) (fl c force x : Z) (d : int_desc_t) : bool :=
  let vd := vec s x c in
  ((force =? -1) || (force =? x)) && negb (bool_decide (cpuflag d c = INTDESC_RESVD))
  && negb (bool_decide (cpuflag d c = INTDESC_SPECIAL) && (force =? -1))
  && has fl (Z.shiftl 1 (level d))
  && negb ((has fl ESP_INTR_FLAG_EDGE && bool_decide (type d = INTTP_LEVEL))
           || (negb (has fl ESP_INTR_FLAG_EDGE) && bool_decide (type d = INTTP_EDGE)))
  && (bool_decide (at_ Unhandled (xt_interrupt_table s) (x * 2 + c) = Unhandled) || is_shared s x c)
  && negb (has (flags vd) VECDESC_FL_RESERVED) && negb (has (flags vd) VECDESC_FL_NONSHARED)
  && (if has fl ESP_INTR_FLAG_SHARED
      then negb (is_shared s x c) || eqb (has (flags vd) VECDESC_FL_INIRAM) (has fl ESP_INTR_FLAG_IRAM)
      else negb (is_shared s x c)).

(** What the loop makes of a usable interrupt. *)
Definition choose (s : intr_state) (fl c x : Z) (d : int_desc_t) (p : pick) : pick :=
  let no := Z.of_nat (length (shared_vec_info (vec s x c))) in
  if has fl ESP_INTR_FLAG_SHARED then
    if is_shared s x c then
      if (no <? bestSharedCt p) || (level d <? bestLevel p) then Pick x (level d) no else p
    else if best p =? -1 then if level d <? bestLevel p then Pick x (level d) (bestSharedCt p) else p
    else p
  else if level d <? bestLevel p then Pick x (level d) (bestSharedCt p) else p.

(** The part of the invariant that the search relies on. *)
Record searchable (s : intr_state) : Prop := {
  se_table : length (xt_interrupt_table s) = 64%nat;
  se_flags : forall x c, ~ (has (flags (vec s x c)) VECDESC_FL_SHARED = true
                            /\ has (flags (vec s x c)) VECDESC_FL_NONSHARED = true)
}.

Lemma consider_eq s fl c force x d p :
  searchable s -> 0 <= c < 2 -> 0 <= x < 32 ->
  consider s fl c force x d p = Ret (if usable s fl c force x d then choose s fl c x d p else p).
Proof.
  intros [Hl Hs] Hc Hx. specialize (Hs x c). unfold consider, usable, choose, int_has_handler, is_shared. fold (vec s x c).
  cbv zeta. change portNUM_PROCESSORS with 2. rewrite (rd_in Unhandled) by lia. cbn [mbind outcome_bind].
  destruct (force =? -1), (force =? x); cbn [negb andb orb]; try done.
  all: destruct (bool_decide (cpuflag d c = INTDESC_RESVD)); cbn [negb andb orb]; try done.
  all: destruct (bool_decide (cpuflag d c = INTDESC_SPECIAL)); cbn [negb andb orb]; try done.
  all: destruct (has fl (Z.shiftl 1 (level d))); cbn [negb andb orb]; try done.
  all: destruct ((has fl ESP_INTR_FLAG_EDGE && bool_decide (type d = INTTP_LEVEL))
         || (negb (has fl ESP_INTR_FLAG_EDGE) && bool_decide (type d = INTTP_EDGE))); cbn [negb andb orb]; try done.
  all: destruct (bool_decide (at_ Unhandled (xt_interrupt_table s) (x * 2 + c) = Unhandled)),
         (has (flags (vec s x c)) VECDESC_FL_SHARED), (has (flags (vec s x c)) VECDESC_FL_NONSHARED); cbn [negb andb orb]; try done; try tauto.
  all: destruct (has (flags (vec s x c)) VECDESC_FL_RESERVED); cbn [negb andb orb]; try done.
  all: destruct (has fl ESP_INTR_FLAG_SHARED); cbn [negb andb orb]; try done.
  all: repeat (case_match; cbn [negb andb orb]); done.
Qed.

Section Search.
Context (s : intr_state) (fl c force : Z) (D : list int_desc_t).
Context (Hs : searchable s) (Hc : 0 <= c < 2) (HD : length D = 32%nat) (Hlv : Forall (fun d => level d < 9) D).

Let ok (y : nat) (d : int_desc_t) : Prop := D !! y = Some d /\ usable s fl c force (Z.of_nat y) d = true.

(** An invariant of the loop carries over to its end. *)
Lemma consider_all_inv (I : nat -> pick -> Prop) :
  (forall x d p, D !! x = Some d -> I x p ->
     I (S x) (if usable s fl c force (Z.of_nat x) d then choose s fl c (Z.of_nat x) d p else p)) ->
  forall p, I 0%nat p -> exists p', consider_all s fl c force 0 D p = Ret p' /\ I 32%nat p'.
Proof.
  intros Hstep.
  assert (HL : forall L x p, D = take x D ++ L -> (x <= 32)%nat -> I x p ->
    exists p', consider_all s fl c force (Z.of_nat x) L p = Ret p' /\ I 32%nat p').
  { induction L as [|d L IH]; intros x p HDx Hx HI; cbn [consider_all].
    - exists p. split; [done|]. apply (f_equal length) in HDx. rewrite length_app, length_take, HD in HDx. cbn in HDx.
      by replace 32%nat with x by lia.
    - assert (Hd : D !! x = Some d).
      { rewrite HDx, lookup_app_r; rewrite length_take, HD; [|lia]. replace (x - x `min` 32)%nat with 0%nat by lia. done. }
      assert ((x < 32)%nat) by (apply lookup_lt_Some in Hd; lia).
      rewrite consider_eq by (done || lia). cbn [mbind outcome_bind]. replace (Z.of_nat x + 1) with (Z.of_nat (S x)) by lia.
      apply IH; [|lia|by apply Hstep]. by rewrite (take_S_r _ _ _ Hd), <- app_assoc. }
  intros p HI. apply (HL D 0%nat p); [done|lia|done].
Qed.

(** Alone: the lowest level, and the lowest number at that level. *)
Definition best_alone (x : nat) (p : pick) : Prop :=
  (best p = -1 /\ bestLevel p = 9 /\ forall y d, (y < x)%nat -> ~ ok y d)
  \/ exists b d, best p = Z.of_nat b /\ bestLevel p = level d /\ ok b d /\ (b < x)%nat
       /\ forall y e, (y < x)%nat -> ok y e -> level d < level e \/ level d = level e /\ (b <= y)%nat.

Lemma best_alone_step x d p :
  has fl ESP_INTR_FLAG_SHARED = false -> D !! x = Some d -> best_alone x p ->
  best_alone (S x) (if usable s fl c force (Z.of_nat x) d then choose s fl c (Z.of_nat x) d p else p).
Proof.
  intros Hfl Hd HI. assert (Hld : level d < 9) by (rewrite Forall_lookup in Hlv; eauto).
  assert (Hcase : forall y e, (y < S x)%nat -> ok y e -> (y < x)%nat \/ y = x /\ e = d).
  { intros y e Hy [He _]. destruct (decide (y = x)) as [->|]; [right; split; [done|congruence]|left; lia]. }
  destruct (usable s fl c force (Z.of_nat x) d) eqn:Eu.
  - unfold choose. rewrite Hfl. destruct (Z.ltb_spec (level d) (bestLevel p)) as [Hlt|Hge].
    + right. exists x, d. split_and!; [done|done|done|lia|]. intros y e Hy He.
      destruct (Hcase y e Hy He) as [Hy'|[-> ->]]; [|right; split; [done|lia]].
      destruct HI as [(_ & _ & Hno)|(b & f & _ & Hb & _ & _ & Hmin)]; [by destruct (Hno y e Hy')|].
      destruct (Hmin y e Hy' He); left; lia.
    + destruct HI as [(_ & Hb & _)|(b & f & H1 & H2 & H3 & H4 & Hmin)]; [lia|]. right. exists b, f.
      split_and!; [done|done|done|lia|]. intros y e Hy He.
      destruct (Hcase y e Hy He) as [Hy'|[-> ->]]; [auto|]. lia.
  - destruct HI as [(H1 & H2 & Hno)|(b & f & H1 & H2 & H3 & H4 & Hmin)]; [left|right].
    + split_and!; [done|done|]. intros y e Hy He. destruct (Hcase y e Hy He) as [Hy'|[-> ->]]; [by apply (Hno y e)|].
      destruct He as [_ He]. congruence.
    + exists b, f. split_and!; [done|done|done|lia|]. intros y e Hy He.
      destruct (Hcase y e Hy He) as [Hy'|[-> ->]]; [auto|]. destruct He as [_ He]. congruence.
Qed.

(** Shared: an interrupt that is already shared, if there is one. *)
Definition best_shared (x : nat) (p : pick) : Prop :=
  (best p = -1 /\ bestLevel p = 9 /\ bestSharedCt p = INT_MAX /\ forall y d, (y < x)%nat -> ~ ok y d)
  \/ exists b d, best p = Z.of_nat b /\ ok b d /\ (b < x)%nat
       /\ (is_shared s (Z.of_nat b) c = true
           \/ bestSharedCt p = INT_MAX /\ forall y e, (y < x)%nat -> ok y e -> is_shared s (Z.of_nat y) c = false /\ (b <= y)%nat).

Lemma best_shared_step x d p :
  has fl ESP_INTR_FLAG_SHARED = true -> (forall y, Z.of_nat (length (shared_vec_info (vec s y c))) < INT_MAX) ->
  D !! x = Some d -> best_shared x p ->
  best_shared (S x) (if usable s fl c force (Z.of_nat x) d then choose s fl c (Z.of_nat x) d p else p).
Proof.
  intros Hfl Hct Hd HI. assert (Hld : level d < 9) by (rewrite Forall_lookup in Hlv; eauto).
  assert (Hcase : forall y e, (y < S x)%nat -> ok y e -> (y < x)%nat \/ y = x /\ e = d).
  { intros y e Hy [He _]. destruct (decide (y = x)) as [->|]; [right; split; [done|congruence]|left; lia]. }
  destruct (usable s fl c force (Z.of_nat x) d) eqn:Eu.
  - unfold choose. rewrite Hfl. destruct (is_shared s (Z.of_nat x) c) eqn:Es.
    + destruct (_ || _) eqn:Et.
      * right. exists x, d. split_and!; [done|done|lia|by left].
      * apply orb_false_iff in Et as [Et _]. apply Z.ltb_ge in Et. specialize (Hct (Z.of_nat x)).
        destruct HI as [(_ & _ & Hm & _)|(b & f & H1 & H2 & H3 & [H4|[H4 _]])]; [lia| |lia].
        right. exists b, f. split_and!; [done|done|lia|by left].
    + destruct HI as [(H1 & H2 & H3 & Hno)|(b & f & H1 & H2 & H3 & H4)].
      * rewrite H1, H2. cbn [Z.eqb]. rewrite (proj2 (Z.ltb_lt _ _) Hld). right. exists x, d.
        split_and!; [done|done|lia|right; split; [done|]]. intros y e Hy He.
        destruct (Hcase y e Hy He) as [Hy'|[-> ->]]; [by destruct (Hno y e Hy')|]. split; [done|lia].
      * rewrite H1, (proj2 (Z.eqb_neq _ _)) by lia. right. exists b, f. split_and!; [done|done|lia|].
        destruct H4 as [H4|[H4 H5]]; [by left|right]. split; [done|]. intros y e Hy He.
        destruct (Hcase y e Hy He) as [Hy'|[-> ->]]; [by eapply H5|]. split; [done|lia].
  - destruct HI as [(H1 & H2 & H3 & Hno)|(b & f & H1 & H2 & H3 & H4)]; [left|right].
    + split_and!; [done|done|done|]. intros y e Hy He. destruct (Hcase y e Hy He) as [Hy'|[-> ->]]; [by apply (Hno y e)|].
      destruct He as [_ He]. congruence.
    + exists b, f. split_and!; [done|done|lia|]. destruct H4 as [H4|[H4 H5]]; [by left|right].
      split; [done|]. intros y e Hy He. destruct (Hcase y e Hy He) as [Hy'|[-> ->]]; [by eapply H5|].
      destruct He as [_ He]. congruence.
Qed.
End Search.

(** The flags in force when the caller asks for no level. *)
Definition any_level (fl : Z) : Z :=
  if negb (has fl ESP_INTR_FLAG_LEVELMASK) then Z.lor fl ESP_INTR_FLAG_LOWMED else fl.

(** The outcome of a search. *)
Definition found (coretimer_0 : bool) (s : intr_state) (fl c force r : Z) : Prop :=
  let ok (y : nat) (d : int_desc_t) := int_desc coretimer_0 !! y = Some d /\ usable s fl c force (Z.of_nat y) d = true in
  (r = -1 /\ forall y d, ~ ok y d)
  \/ exists b d, r = Z.of_nat b /\ ok b d
       /\ (has fl ESP_INTR_FLAG_SHARED = false ->
           forall y e, ok y e -> level d < level e \/ level d = level e /\ (b <= y)%nat)
       /\ (has fl ESP_INTR_FLAG_SHARED = true ->
           is_shared s (Z.of_nat b) c = true
           \/ forall y e, ok y e -> is_shared s (Z.of_nat y) c = false /\ (b <= y)%nat).

Lemma int_desc_length t : length (int_desc t) = 32%nat.
Proof. by destruct t. Qed.

Lemma int_desc_levels t : Forall (fun d => level d < 9) (int_desc t).
Proof. destruct t; repeat (constructor; [done|]); constructor. Qed.

Lemma get_free_int_spec coretimer_0 s fl c force :
  searchable s -> 0 <= c < 2 -> (forall y, Z.of_nat (length (shared_vec_info (vec s y c))) < INT_MAX) ->
  exists r, get_free_int coretimer_0 s fl c force = Ret r /\ found coretimer_0 s (any_level fl) c force r.
Proof.
  intros Hs Hc Hct. unfold get_free_int. fold (any_level fl). generalize (any_level fl). clear fl. intros fl.
  pose proof (int_desc_length coretimer_0) as HD. pose proof (int_desc_levels coretimer_0) as Hlv. unfold found.
  set (D := int_desc coretimer_0) in *.
  assert (Hlt : forall y d, D !! y = Some d -> (y < 32)%nat) by (intros y d Hy; apply lookup_lt_Some in Hy; lia).
  destruct (has fl ESP_INTR_FLAG_SHARED) eqn:Hfl.
  - destruct (consider_all_inv s fl c force D Hs Hc HD (best_shared s fl c force D)
      ltac:(intros x d p Hx HI; by apply best_shared_step) (Pick (-1) 9 INT_MAX)) as (p & Hrun & HI).
    { left. split_and!; [done|done|done|lia]. }
    exists (best p). rewrite Hrun. split; [done|]. destruct HI as [(-> & _ & _ & Hno)|(b & d & -> & [H1 H2] & _ & H4)]; [left|right].
    + split; [done|]. intros y d [Hy Hu]. by apply (Hno y d (Hlt y d Hy)).
    + exists b, d. split_and!; [done|done|done|done|]. intros _. destruct H4 as [H4|[_ H4]]; [by left|right].
      intros y e [Hy Hu]. by apply (H4 y e (Hlt y e Hy)).
  - destruct (consider_all_inv s fl c force D Hs Hc HD (best_alone s fl c force D)
      ltac:(intros x d p Hx HI; by apply best_alone_step) (Pick (-1) 9 INT_MAX)) as (p & Hrun & HI).
    { left. split_and!; [done|done|lia]. }
    exists (best p). rewrite Hrun. split; [done|]. destruct HI as [(-> & _ & Hno)|(b & d & -> & _ & [H1 H2] & _ & H4)]; [left|right].
    + split; [done|]. intros y d [Hy Hu]. by apply (Hno y d (Hlt y d Hy)).
    + exists b, d. split_and!; [done|done|done| |done]. intros _ y e [Hy Hu]. by apply (H4 y e (Hlt y e Hy)).
Qed.

(** ** What an operation does to one interrupt *)

Record hw_ok (s : intr_state) : Prop := {
  hw_table : length (xt_interrupt_table s) = 64%nat;
  hw_mask : length (non_iram_int_mask s) = 2%nat;
  hw_enable : length (intenable s) = 2%nat
}.

(** The flags of an interrupt, and the addresses in its shared list. *)
Definition addrs (d : vector_desc_t) : list Z := sv_addr <$> shared_vec_info d.
Definition view (s : intr_state) (no c : Z) : Z * list Z := (flags (vec s no c), addrs (vec s no c)).
Definition slot (s : intr_state) (i : Z) : xt_handler := at_ Unhandled (xt_interrupt_table s) i.

(** From [s0] to [s] only interrupt [no] of CPU [c] has changed. *)
Record touch (no c : Z) (v : Z * list Z) (t : xt_handler) (s0 s : intr_state) : Prop := {
  to_hw : hw_ok s;
  to_sorted : sorted (vector_desc_head s);
  to_found : exists d, find_desc_for_int s no c = Some d;
  to_view : view s no c = v;
  to_slot : slot s (no * 2 + c) = t;
  to_others : forall no' c', no' <> no \/ c' <> c -> view s no' c' = view s0 no' c';
  to_slots : forall i, i <> no * 2 + c -> slot s i = slot s0 i
}.

Section Touch.
Context (no c : Z) (s0 : intr_state) (Hc : 0 <= c < 2) (Hno : 0 <= no < 32).

Lemma touch_start s d :
  hw_ok s -> sorted (vector_desc_head s) -> find_desc_for_int s no c = Some d ->
  touch no c (flags d, addrs d) (slot s (no * 2 + c)) s s.
Proof. intros Hw Hs Hf. split; try done; [eauto|]. unfold view, vec. by rewrite Hf. Qed.

Lemma touch_desc v t s Q :
  touch no c v t s0 s -> (forall d, cpu d = c -> intno d = no -> (flags d, addrs d) = v -> Q d s) -> wp (desc no c) Q s.
Proof.
  intros [_ _ [d Hf] Hv _ _ _] HQ. unfold desc. do 2 wp_step. rewrite Hf. wp_step.
  destruct (find_at_key _ _ _ _ Hf) as (_ & E1 & E2). apply HQ; [done|done|]. unfold view, vec in Hv. by rewrite Hf in Hv.
Qed.

Lemma touch_set f v v' t s Q :
  touch no c v t s0 s -> (forall d, cpu (f d) = cpu d /\ intno (f d) = intno d) ->
  (forall d, (flags d, addrs d) = v -> (flags (f d), addrs (f d)) = v') ->
  (forall s', touch no c v' t s0 s' -> Q tt s') -> wp (set_desc no c f) Q s.
Proof.
  intros Ht Hk Hv HQ. unfold set_desc. apply wp_bind. eapply touch_desc; [exact Ht|]. intros d _ _ Hd. wp_step. apply HQ.
  destruct Ht as [Hw Hs [e He] Hview Hslot Ho Hsl].
  assert (Hfu : forall no' c', find_desc_for_int (with_descs (update_desc no c f (vector_desc_head s)) s) no' c'
    = if (c =? c') && (no =? no') then f <$> find_desc_for_int s no' c' else find_desc_for_int s no' c')
    by (intros no' c'; by apply find_desc_update).
  split; try done.
  - by destruct Hw.
  - by apply update_sorted.
  - rewrite Hfu, !Z.eqb_refl. cbn [andb]. rewrite He. by eexists.
  - unfold view, vec in *. rewrite Hfu, !Z.eqb_refl. cbn [andb]. rewrite He in *. cbn [fmap option_fmap default] in *. by apply Hv.
  - intros no' c' Hne. rewrite <- Ho by done. unfold view, vec. rewrite Hfu.
    destruct ((c =? c') && (no =? no')) eqn:E; [|done]. simplify_bool. lia.
Qed.

(** Changes of the other parts of the state. *)
Lemma touch_same v t s s' :
  touch no c v t s0 s -> hw_ok s' -> vector_desc_head s' = vector_desc_head s -> xt_interrupt_table s' = xt_interrupt_table s ->
  touch no c v t s0 s'.
Proof.
  intros [Hw Hs Hf Hv Ht Ho Hsl] Hw' E1 E2.
  assert (Hfi : forall x y, find_desc_for_int s' x y = find_desc_for_int s x y) by (intros x y; unfold find_desc_for_int; by rewrite E1).
  split; try done.
  - by rewrite E1.
  - by rewrite Hfi.
  - unfold view, vec in *. by rewrite Hfi.
  - unfold slot in *. by rewrite E2.
  - intros x y Hxy. rewrite <- Ho by done. unfold view, vec. by rewrite Hfi.
  - intros i Hi. rewrite <- Hsl by done. unfold slot. by rewrite E2.
Qed.

Lemma touch_lock v t s n : touch no c v t s0 s -> touch no c v t s0 (with_spinlock n s).
Proof. intros Ht. eapply touch_same; [exact Ht|by destruct Ht as [[] _ _ _ _ _ _]|done|done]. Qed.

Lemma touch_matrix v t s x y z Q :
  touch no c v t s0 s -> (forall s', touch no c v t s0 s' -> Q tt s') -> wp (intr_matrix_set x y z) Q s.
Proof.
  intros Ht HQ. unfold intr_matrix_set. wp_step. apply HQ. eapply touch_same; [exact Ht|by destruct Ht as [[] _ _ _ _ _ _]|done|done].
Qed.

Lemma touch_intenable v t s k f Q :
  0 <= k < 2 -> touch no c v t s0 s -> (forall s', touch no c v t s0 s' -> Q tt s') -> wp (change_intenable k f) Q s.
Proof.
  intros Hk Ht HQ. pose proof Ht as [[H1 H2 H3] _ _ _ _ _ _]. unfold change_intenable. do 2 wp_step. apply wp_bind. wp_arr.
  apply wp_bind. wp_arr. wp_step. apply HQ. eapply touch_same; [exact Ht|split; cbn; rewrite ?length_insert; done|done|done].
Qed.

Lemma touch_mask v t s k f Q :
  0 <= k < 2 -> touch no c v t s0 s -> (forall s', touch no c v t s0 s' -> Q tt s') -> wp (change_mask k f) Q s.
Proof.
  intros Hk Ht HQ. pose proof Ht as [[H1 H2 H3] _ _ _ _ _ _]. unfold change_mask. do 2 wp_step. apply wp_bind. wp_arr.
  apply wp_bind. wp_arr. wp_step. apply HQ. eapply touch_same; [exact Ht|split; cbn; rewrite ?length_insert; done|done|done].
Qed.

(** The slot changes when the level is one that C can handle. *)
Definition set_slot (coretimer_0 : bool) (f t : xt_handler) : xt_handler :=
  match int_desc coretimer_0 !! Z.to_nat no with
  | Some d => if XCHAL_EXCM_LEVEL <? level d then t else f
  | None => t
  end.

Lemma touch_handler ct v t s f Q :
  touch no c v t s0 s -> (forall s', touch no c v (set_slot ct f t) s0 s' -> Q tt s') ->
  wp (xt_set_interrupt_handler ct c no f) Q s.
Proof.
  intros Ht HQ. pose proof Ht as [[H1 H2 H3] Hs Hf Hv Hsl Ho Hso]. unfold xt_set_interrupt_handler, set_slot in *.
  rewrite (proj2 (Z.ltb_ge no 0)), (proj2 (Z.leb_gt 32 no)) by lia. cbn [orb]. apply wp_bind.
  destruct (lookup_lt_is_Some_2 (int_desc ct) (Z.to_nat no)) as [d Hd]; [rewrite int_desc_length; lia|].
  eapply wp_lift; [apply rd_ok; split; [rewrite int_desc_length; lia|exact Hd]|]. rewrite Hd in HQ.
  destruct (XCHAL_EXCM_LEVEL <? level d); [wp_step; by apply HQ|]. change portNUM_PROCESSORS with 2.
  do 2 wp_step. apply wp_bind. eapply wp_wr; [lia|]. wp_step. apply HQ. split; try done.
  - split; cbn; rewrite ?length_insert; done.
  - unfold slot. cbn. apply at_insert_eq. lia.
  - intros i Hi. rewrite <- Hso by done. unfold slot. cbn. apply at_insert_ne; lia.
Qed.
End Touch.

(** ** Flags as bits *)

Lemma has_bit f k : 0 <= k -> has f (Z.shiftl 1 k) = Z.testbit f k.
Proof.
  intros Hk. unfold has. rewrite Z.shiftl_1_l. destruct (Z.testbit f k) eqn:E.
  - apply negb_true_iff, Z.eqb_neq. intros H. apply (f_equal (fun z => Z.testbit z k)) in H.
    rewrite Z.land_spec, Z.pow2_bits_true, Z.bits_0, E in H by lia. done.
  - apply negb_false_iff, Z.eqb_eq. apply Z.bits_inj'. intros i Hi. rewrite Z.land_spec, Z.bits_0.
    destruct (Z.eq_dec i k) as [->|Hne]; [by rewrite E|]. rewrite Z.pow2_bits_false by lia. apply andb_false_r.
Qed.

Definition bit_RESERVED (f : Z) : bool := Z.testbit f 0.
Definition bit_INIRAM (f : Z) : bool := Z.testbit f 1.
Definition bit_SHARED (f : Z) : bool := Z.testbit f 2.
Definition bit_NONSHARED (f : Z) : bool := Z.testbit f 3.

Lemma has_RESERVED f : has f VECDESC_FL_RESERVED = bit_RESERVED f.
Proof. by apply has_bit. Qed.
Lemma has_INIRAM f : has f VECDESC_FL_INIRAM = bit_INIRAM f.
Proof. by apply has_bit. Qed.
Lemma has_SHARED f : has f VECDESC_FL_SHARED = bit_SHARED f.
Proof. by apply has_bit. Qed.
Lemma has_NONSHARED f : has f VECDESC_FL_NONSHARED = bit_NONSHARED f.
Proof. by apply has_bit. Qed.

Create Rewrite HintDb intr.
#[export] Hint Rewrite has_RESERVED has_INIRAM has_SHARED has_NONSHARED : intr.

(** A flag word with the IRAM bit set or cleared keeps the other bits. *)
Definition iram_word (b : bool) (f : Z) : Z := if b then Z.lor f VECDESC_FL_INIRAM else Z.ldiff f VECDESC_FL_INIRAM.

Lemma iram_word_bits b f :
  bit_RESERVED (iram_word b f) = bit_RESERVED f /\ bit_SHARED (iram_word b f) = bit_SHARED f
  /\ bit_NONSHARED (iram_word b f) = bit_NONSHARED f.
Proof.
  unfold iram_word, bit_RESERVED, bit_SHARED, bit_NONSHARED. destruct b; rewrite ?Z.lor_spec, ?Z.ldiff_spec;
    change (Z.testbit VECDESC_FL_INIRAM 0) with false; change (Z.testbit VECDESC_FL_INIRAM 2) with false;
    change (Z.testbit VECDESC_FL_INIRAM 3) with false; cbn [negb]; by rewrite ?orb_false_r, ?andb_true_r.
Qed.

Lemma shared_word_bits f :
  bit_RESERVED (Z.lor f VECDESC_FL_SHARED) = bit_RESERVED f /\ bit_SHARED (Z.lor f VECDESC_FL_SHARED) = true
  /\ bit_NONSHARED (Z.lor f VECDESC_FL_SHARED) = bit_NONSHARED f.
Proof.
  unfold bit_RESERVED, bit_SHARED, bit_NONSHARED. rewrite !Z.lor_spec.
  change (Z.testbit VECDESC_FL_SHARED 0) with false. change (Z.testbit VECDESC_FL_SHARED 2) with true.
  change (Z.testbit VECDESC_FL_SHARED 3) with false. by rewrite !orb_false_r, orb_true_r.
Qed.

(** ** The operations *)

Lemma find_shared_some a (l : list shared_vector_desc_t) : a ∈ sv_addr <$> l -> exists v, find_shared a l = Some v.
Proof.
  intros (v & -> & Hv)%list_elem_of_fmap. unfold find_shared.
  destruct (filter (fun w => sv_addr w = sv_addr v) l) as [|w l'] eqn:E; [|by exists w].
  assert (Hin : v ∈ filter (fun w => sv_addr w = sv_addr v) l) by (by apply list_elem_of_filter).
  rewrite E in Hin. by apply elem_of_nil in Hin.
Qed.

Lemma mark_disabled_addrs a b (l : list shared_vector_desc_t) : sv_addr <$> (mark_disabled a b <$> l) = sv_addr <$> l.
Proof. rewrite <- list_fmap_compose. apply list_fmap_ext. intros _ v _. unfold compose, mark_disabled. by destruct (_ =? _). Qed.

Definition handle_ok (h : intr_handle) (as_ : list Z) : Prop :=
  match h_shared h with Some a => a ∈ as_ | None => True end.

Section Ops.
Context (no c : Z) (s0 : intr_state) (Hc : 0 <= c < 2) (Hno : 0 <= no < 32).

Lemma touch_switch h b fl as_ t s Q :
  h_cpu h = c -> h_intno h = no -> handle_ok h as_ -> touch no c (fl, as_) t s0 s ->
  (forall r s', touch no c (fl, as_) t s0 s' -> Q r s') -> wp (switch_source h b) Q s.
Proof.
  intros <- <- Hh Ht HQ. unfold switch_source. apply wp_bind. eapply touch_desc; [exact Ht|]. intros d _ _ [= <- <-].
  unfold handle_ok in Hh. destruct (h_shared h) as [a|]; [|wp_step; by apply HQ].
  destruct (find_shared_some a (shared_vec_info d) Hh) as [v Hv]. rewrite Hv. apply wp_bind.
  eapply touch_set with (v' := (flags d, addrs d)); [exact Ht|done| |].
  - intros e He. rewrite <- He. cbn [flags with_shared]. unfold addrs. cbn [shared_vec_info with_shared]. by rewrite mark_disabled_addrs.
  - intros s' Ht'. wp_step. by apply HQ.
Qed.

Lemma touch_disable core h fl as_ t s Q :
  0 <= core < 2 -> h_cpu h = c -> h_intno h = no -> handle_ok h as_ -> touch no c (fl, as_) t s0 s ->
  (forall r s', touch no c (fl, as_) t s0 s' -> Q r s') -> wp (esp_intr_disable core (Some h)) Q s.
Proof.
  intros Hcore E1 E2 Hh Ht HQ. unfold esp_intr_disable, portENTER_CRITICAL, portEXIT_CRITICAL, ESP_INTR_DISABLE. do 2 wp_step. apply wp_bind.
  eapply touch_switch; [done|done|exact Hh|by apply touch_lock|]. intros src s1 Ht1. destruct (0 <=? src).
  - apply wp_bind. eapply touch_matrix; [exact Ht1|]. intros s2 Ht2. do 3 wp_step. apply HQ. by apply touch_lock.
  - destruct (negb _); [do 3 wp_step; apply HQ; by apply touch_lock|].
    apply wp_bind. eapply touch_intenable; [done|exact Ht1|]. intros s2 Ht2. do 3 wp_step. apply HQ. by apply touch_lock.
Qed.

Lemma touch_enable core h fl as_ t s Q :
  0 <= core < 2 -> h_cpu h = c -> h_intno h = no -> handle_ok h as_ -> touch no c (fl, as_) t s0 s ->
  (forall r s', touch no c (fl, as_) t s0 s' -> Q r s') -> wp (esp_intr_enable core (Some h)) Q s.
Proof.
  intros Hcore E1 E2 Hh Ht HQ. unfold esp_intr_enable, portENTER_CRITICAL, portEXIT_CRITICAL, ESP_INTR_ENABLE. do 2 wp_step. apply wp_bind.
  eapply touch_switch; [done|done|exact Hh|by apply touch_lock|]. intros src s1 Ht1. destruct (0 <=? src).
  - apply wp_bind. eapply touch_matrix; [exact Ht1|]. intros s2 Ht2. do 3 wp_step. apply HQ. by apply touch_lock.
  - destruct (negb _); [wp_step; by apply HQ|].
    apply wp_bind. eapply touch_intenable; [done|exact Ht1|]. intros s2 Ht2. do 3 wp_step. apply HQ. by apply touch_lock.
Qed.

(** The interrupt is taken alone. *)
Lemma touch_take_alone ct msh src fl reg mask handler arg f as_ t s Q :
  has fl ESP_INTR_FLAG_SHARED = false -> touch no c (f, as_) t s0 s ->
  (forall t' s', t' = (if negb (handler =? 0) then set_slot no ct (Handler handler arg) t else t) ->
     touch no c (VECDESC_FL_NONSHARED, as_) t' s0 s' -> Q (Some tt) s') ->
  wp (take_int ct c msh src fl reg mask handler arg no) Q s.
Proof.
  intros Hfl Ht HQ. unfold take_int. rewrite Hfl. apply wp_bind.
  eapply touch_set with (v' := (VECDESC_FL_NONSHARED, as_)); [exact Ht|done|by intros d [= _ <-]|]. intros s1 Ht1. apply wp_bind.
  assert (Hend : forall t' s2, t' = (if negb (handler =? 0) then set_slot no ct (Handler handler arg) t else t) ->
    touch no c (VECDESC_FL_NONSHARED, as_) t' s0 s2 ->
    wp (set_desc no c (with_source (to_signed 8 src));; mret (Some tt)) Q s2).
  { intros t' s2 Et Ht2. apply wp_bind. eapply touch_set with (v' := (VECDESC_FL_NONSHARED, as_)); [exact Ht2|done|by intros d|]. intros s3 Ht3.
    wp_step. by eapply HQ. }
  destruct (negb (handler =? 0)).
  - eapply touch_handler; [done|done|exact Ht1|]. intros s2 Ht2. by eapply Hend.
  - wp_step. by eapply Hend.
Qed.

(** An entry joins the shared list. *)
Lemma touch_take_shared ct a src fl reg mask handler arg f as_ t s Q :
  has fl ESP_INTR_FLAG_SHARED = true -> touch no c (f, as_) t s0 s ->
  (forall s', touch no c (Z.lor f VECDESC_FL_SHARED, a :: as_) (set_slot no ct (SharedIsr c no) t) s0 s' -> Q (Some tt) s') ->
  wp (take_int ct c (Some a) src fl reg mask handler arg no) Q s.
Proof.
  intros Hfl Ht HQ. unfold take_int. rewrite Hfl. apply wp_bind.
  eapply touch_set with (v' := (Z.lor f VECDESC_FL_SHARED, a :: as_)); [exact Ht|done|by intros d [= <- <-]|]. intros s1 Ht1. apply wp_bind.
  eapply touch_handler; [done|done|exact Ht1|]. intros s2 Ht2. wp_step. by apply HQ.
Qed.

Lemma touch_connect src fl f as_ t s Q :
  touch no c (f, as_) t s0 s ->
  (forall s', touch no c (iram_word (has fl ESP_INTR_FLAG_IRAM) f, as_) t s0 s' -> Q (IntrHandle c no (head as_)) s') ->
  wp (connect c src fl no) Q s.
Proof.
  intros Ht HQ. unfold connect. apply wp_bind.
  assert (Hrest : forall s1, touch no c (iram_word (has fl ESP_INTR_FLAG_IRAM) f, as_) t s0 s1 ->
    wp ((if 0 <=? src then intr_matrix_set c src no else mret tt);;
        d ← desc no c;
        let ret := IntrHandle c no (sv_addr <$> head (shared_vec_info d)) in
        ESP_INTR_ENABLE c no;;
        (if has fl ESP_INTR_FLAG_INTRDISABLED then esp_intr_disable c (Some ret);; mret tt else mret tt);;
        mret ret) Q s1).
  { intros s1 Ht1. apply wp_bind.
    assert (Hd : forall s2, touch no c (iram_word (has fl ESP_INTR_FLAG_IRAM) f, as_) t s0 s2 ->
      wp (d ← desc no c;
        let ret := IntrHandle c no (sv_addr <$> head (shared_vec_info d)) in
        ESP_INTR_ENABLE c no;;
        (if has fl ESP_INTR_FLAG_INTRDISABLED then esp_intr_disable c (Some ret);; mret tt else mret tt);;
        mret ret) Q s2).
    { intros s2 Ht2. apply wp_bind. eapply touch_desc; [exact Ht2|]. intros d _ _ [= _ Has]. cbv zeta.
      assert (Eh : sv_addr <$> head (shared_vec_info d) = head as_) by (rewrite <- Has; unfold addrs; by destruct (shared_vec_info d)).
      rewrite Eh. apply wp_bind. eapply touch_intenable; [exact Hc|exact Ht2|]. intros s3 Ht3. apply wp_bind.
      destruct (has fl ESP_INTR_FLAG_INTRDISABLED); [|do 2 wp_step; by apply HQ].
      apply wp_bind. eapply touch_disable; [exact Hc|done|done| |exact Ht3|].
      - unfold handle_ok. cbn [h_shared]. destruct as_; [done|left].
      - intros r s4 Ht4. do 2 wp_step. by apply HQ. }
    destruct (0 <=? src); [eapply touch_matrix; [exact Ht1|done]|wp_step; by apply Hd]. }
  unfold iram_word in *. destruct (has fl ESP_INTR_FLAG_IRAM).
  - apply wp_bind. eapply touch_set with (v' := (Z.lor f VECDESC_FL_INIRAM, as_)); [exact Ht|done|by intros d [= <- <-]|]. intros s1 Ht1.
    eapply touch_mask; [exact Hc|exact Ht1|]. done.
  - apply wp_bind. eapply touch_set with (v' := (Z.ldiff f VECDESC_FL_INIRAM, as_)); [exact Ht|done|by intros d [= <- <-]|]. intros s1 Ht1.
    eapply touch_mask; [exact Hc|exact Ht1|]. done.
Qed.
End Ops.

(** ** Allocation *)

(** Like [wp], for code that can stop on a fault. *)
Definition wpx {A} (E : fault -> Prop) (m : M intr_state A) (Q : A -> intr_state -> Prop) (s : intr_state) : Prop :=
  match m s with Ret (a, s') => Q a s' | Stuck e => E e end.

Lemma wpx_bind {A B} E (m : M intr_state A) (k : A -> M intr_state B) Q s :
  wpx E m (fun a => wpx E (k a) Q) s -> wpx E (m ≫= k) Q s.
Proof. unfold wpx, mbind, M_bind. by destruct (m s) as [[a s']|e]. Qed.

Lemma wpx_of_wp {A} E (m : M intr_state A) Q s : wp m Q s -> wpx E m Q s.
Proof. unfold wp, wpx. by destruct (m s) as [[a s']|e]. Qed.

(** The code writes through [NULL] exactly when a new descriptor belongs in
    front of all others. *)
Definition in_front (no c : Z) (s : intr_state) : Prop :=
  vector_desc_head s <> [] /\ Forall (fun d => c * 32 + no < key d) (vector_desc_head s).

Lemma get_desc_cases ok no c s :
  hw_ok s -> sorted (vector_desc_head s) -> 0 <= c < 2 -> 0 <= no < 32 ->
  wpx (fun e => e = NullDeref /\ in_front no c s) (get_desc_for_int ok no c)
    (fun k s' => match k with
                 | Some k => k = (no, c) /\ touch no c (view s no c) (slot s (no * 2 + c)) s s'
                 | None => s' = s
                 end) s.
Proof.
  intros Hw Hs Hc Hno. unfold get_desc_for_int. apply wpx_bind, wpx_of_wp, wp_get.
  destruct (find_desc_for_int s no c) as [d|] eqn:Ef.
  { apply wpx_of_wp, wp_ret. destruct (find_at_key _ _ _ _ Ef) as (_ & E1 & E2). split; [congruence|].
    pose proof (touch_start no c s d Hw Hs Ef) as Ht. by rewrite (to_view _ _ _ _ _ _ Ht). }
  destruct ok; [|by apply wpx_of_wp, wp_ret]. unfold insert_vector_desc. apply wpx_bind, wpx_bind, wpx_of_wp, wp_get.
  rewrite !wrap_small by lia. set (n := VectorDesc 0 c no 0 []). apply wpx_bind.
  destruct (insert_split false n (vector_desc_head s)) as (l1 & l2 & El & H1 & H2 & Hi).
  assert (Hn : in_bounds n) by done. unfold find_desc_for_int in Ef. rewrite El in Hs, Ef.
  unfold wpx at 1, lift. rewrite Hi. destruct (_ || _) eqn:Eb; cbn iota beta.
  - apply wpx_of_wp, wp_modify. apply wpx_of_wp, wp_ret. split; [done|].
    assert (Hfi : forall x y, find_desc_for_int (with_descs (l1 ++ n :: l2) s) x y
      = if at_key x y n then Some n else find_desc_for_int s x y).
    { intros x y. unfold find_desc_for_int. cbn [vector_desc_head with_descs]. rewrite El. by apply find_insert. }
    assert (Hkn : at_key no c n = true) by (unfold at_key; cbn; by rewrite !Z.eqb_refl).
    split; try done.
    + by destruct Hw.
    + by apply insert_sorted.
    + rewrite Hfi, Hkn. by eexists.
    + unfold view, vec. rewrite Hfi, Hkn. unfold find_desc_for_int. rewrite El, Ef. done.
    + intros x y Hxy. unfold view, vec. rewrite Hfi. destruct (at_key x y n) eqn:E; [|done].
      unfold at_key in E. cbn in E. simplify_bool. lia.
  - split; [done|]. cbn [orb] in Eb. apply orb_false_iff in Eb as [Eb1 Eb2]. apply bool_decide_eq_false in Eb1.
    apply negb_false_iff, bool_decide_eq_true in Eb2. subst l1. cbn [app] in *. unfold in_front. rewrite El.
    split; [by rewrite <- El|]. pose proof (insert_sorted n [] l2 Hn Hs Ef H1 H2) as [Ho _]. cbn in Ho.
    apply StronglySorted_inv in Ho as [_ Ho]. by rewrite Forall_fmap in Ho.
Qed.

Record quiet (s s' : intr_state) : Prop := {
  qu_hw : hw_ok s';
  qu_sorted : sorted (vector_desc_head s');
  qu_view : forall no c, view s' no c = view s no c;
  qu_slot : forall i, slot s' i = slot s i
}.

Lemma touch_quiet no c s s' : touch no c (view s no c) (slot s (no * 2 + c)) s s' -> quiet s s'.
Proof.
  intros [Hw Hs _ Hv Ht Ho Hso]. split; [done|done| |].
  - intros x y. destruct (decide (x = no)) as [->|]; [destruct (decide (y = c)) as [->|]; [done|]|]; apply Ho; auto.
  - intros i. destruct (decide (i = no * 2 + c)) as [->|]; auto.
Qed.

Lemma quiet_lock s s' n : quiet s s' -> quiet s (with_spinlock n s').
Proof. intros [[]]. by split. Qed.

Lemma quiet_refl s : hw_ok s -> sorted (vector_desc_head s) -> quiet s s.
Proof. by split. Qed.

Lemma default_level_bit fl k : 8 <= k -> has (default_level fl) (Z.shiftl 1 k) = has fl (Z.shiftl 1 k).
Proof.
  intros Hk. rewrite !has_bit by lia. unfold default_level. destruct (negb _); [|done].
  assert (HT : forall m, 0 <= m < 2 ^ 8 -> Z.testbit (Z.lor fl m) k = Z.testbit fl k).
  { intros m Hm. rewrite Z.lor_spec. assert (Z.testbit m k = false) as ->; [|by rewrite orb_false_r].
    rewrite Z.testbit_false by lia. rewrite Z.div_small; [done|].
    split; [lia|]. pose proof (Z.pow_le_mono_r 2 8 k ltac:(lia) Hk). lia. }
  destruct (has fl ESP_INTR_FLAG_SHARED); apply HT; done.
Qed.

Lemma found_range ct s fl c force r : found ct s fl c force r -> r <> -1 -> 0 <= r < 32.
Proof.
  intros [[-> _]|(b & d & -> & [Hb _] & _)] Hr; [done|]. apply lookup_lt_Some in Hb. rewrite int_desc_length in Hb. lia.
Qed.

Lemma any_default fl : any_level (default_level fl) = default_level fl.
Proof.
  unfold any_level, default_level, has. destruct (Z.land fl ESP_INTR_FLAG_LEVELMASK =? 0) eqn:E; cbn [negb]; [|by rewrite E].
  apply Z.eqb_eq in E. destruct (negb (Z.land fl ESP_INTR_FLAG_SHARED =? 0)); rewrite Z.land_lor_distr_l, E; reflexivity.
Qed.

Lemma touch_base no c v t n s s' : touch no c v t (with_spinlock n s) s' -> touch no c v t s s'.
Proof. by intros []. Qed.

(** What an allocation leaves behind: nothing when it fails; else an
    interrupt that the search allows, with the flags, the shared list and the
    handler of its kind. *)
Definition taken (ct : bool) (core : Z) (msh : option Z) (src fl handler arg : Z) (s : intr_state) (h : intr_handle) (s' : intr_state) : Prop :=
  exists x, found ct s (default_level fl) core (forced src) x /\ 0 <= x < 32 /\
    let v := view s x core in
    let t := slot s (x * 2 + core) in
    if has fl ESP_INTR_FLAG_SHARED then
      exists a, msh = Some a /\ h = IntrHandle core x (Some a)
        /\ touch x core (iram_word (has fl ESP_INTR_FLAG_IRAM) (Z.lor v.1 VECDESC_FL_SHARED), a :: v.2)
             (set_slot x ct (SharedIsr core x) t) s s'
    else
      h = IntrHandle core x (head v.2)
      /\ touch x core (iram_word (has fl ESP_INTR_FLAG_IRAM) VECDESC_FL_NONSHARED, v.2)
           (if negb (handler =? 0) then set_slot x ct (Handler handler arg) t else t) s s'.

Definition alloc_post ct core msh src fl handler arg (s : intr_state) (r : esp_err_t * option intr_handle) (s' : intr_state) : Prop :=
  match r with
  | (err, Some h) => err = ESP_OK /\ taken ct core msh src fl handler arg s h s'
  | (err, None) => err <> ESP_OK /\ quiet s s'
  end.

(** The flags of the states between operations. *)
Record searching (core : Z) (s : intr_state) : Prop := {
  sg_hw : hw_ok s;
  sg_sorted : sorted (vector_desc_head s);
  sg_search : searchable s;
  sg_count : forall y, Z.of_nat (length (shared_vec_info (vec s y core))) < INT_MAX
}.

Lemma searching_lock core n s : searching core s -> searching core (with_spinlock n s).
Proof. intros [[] ? [] ?]. split; [by split|done|by split|done]. Qed.

Section Alloc.
Context (ct : bool) (core : Z) (Hcore : 0 <= core < 2) (s0 : intr_state).
Context (msh : option Z) (src fl reg mask handler arg : Z).
Let post := alloc_post ct core msh src fl handler arg s0.

(** From the taking of the interrupt on. *)
Lemma take_connect x s :
  found ct s0 (default_level fl) core (forced src) x -> 0 <= x < 32 ->
  touch x core (view s0 x core) (slot s0 (x * 2 + core)) s0 s ->
  wp (taken ← take_int ct core msh src (default_level fl) reg mask handler arg x;
      match taken with
      | None => portEXIT_CRITICAL;; mret (ESP_ERR_NO_MEM, None)
      | Some _ => ret ← connect core src (default_level fl) x; portEXIT_CRITICAL;; mret (ESP_OK, Some ret)
      end) post s.
Proof.
  intros Hf Hx Ht. destruct (view s0 x core) as [f as_] eqn:Ev.
  assert (Hsh : has (default_level fl) ESP_INTR_FLAG_SHARED = has fl ESP_INTR_FLAG_SHARED) by (by apply default_level_bit).
  assert (Hir : has (default_level fl) ESP_INTR_FLAG_IRAM = has fl ESP_INTR_FLAG_IRAM) by (by apply default_level_bit). apply wp_bind.
  assert (Hend : forall g l t s1,
    (forall s2, touch x core (iram_word (has fl ESP_INTR_FLAG_IRAM) g, l) t s0 s2 ->
       taken ct core msh src fl handler arg s0 (IntrHandle core x (head l)) s2) ->
    touch x core (g, l) t s0 s1 ->
    wp (ret ← connect core src (default_level fl) x; portEXIT_CRITICAL;; mret (ESP_OK, Some ret)) post s1).
  { intros g l t s1 Hk Ht1. apply wp_bind. eapply touch_connect; [done|done|exact Ht1|]. intros s2 Ht2. unfold portEXIT_CRITICAL.
    do 3 wp_step. split; [done|]. apply Hk. apply touch_lock. by rewrite <- Hir. }
  destruct (has fl ESP_INTR_FLAG_SHARED) eqn:Es.
  - destruct msh as [a|] eqn:Em.
    + eapply touch_take_shared; [done|done|by rewrite Hsh|exact Ht|]. intros s1 Ht1. eapply Hend; [|exact Ht1].
      intros s2 Ht2. exists x. split_and!; [done|lia|lia|]. rewrite Es, Ev. cbv zeta. by exists a.
    + unfold take_int. rewrite Hsh. wp_step. unfold portEXIT_CRITICAL. do 3 wp_step.
      split; [done|]. apply quiet_lock, (touch_quiet x core). by rewrite Ev.
  - eapply touch_take_alone; [done|done|by rewrite Hsh|exact Ht|]. intros t' s1 -> Ht1. eapply Hend; [|exact Ht1].
    intros s2 Ht2. exists x. split_and!; [done|lia|lia|]. rewrite Es, Ev. by cbv zeta.
Qed.
End Alloc.

Lemma alloc_spec ct core mr mv msh src fl reg mask handler arg s :
  0 <= core < 2 -> searching core s ->
  wpx (fun e => e = NullDeref /\ exists x, found ct s (default_level fl) core (forced src) x /\ in_front x core s)
    (esp_intr_alloc_intrstatus ct core mr mv msh src fl reg mask handler arg)
    (alloc_post ct core msh src fl handler arg s) s.
Proof.
  intros Hcore Hs. unfold esp_intr_alloc_intrstatus.
  assert (Hq : quiet s s) by (apply quiet_refl; apply Hs).
  destruct (negb (args_ok _ _ _ _ _)); [by apply wpx_of_wp, wp_ret|]. cbv zeta.
  destruct mr; cbn [negb]; [|by apply wpx_of_wp, wp_ret]. unfold portENTER_CRITICAL, portEXIT_CRITICAL at 1 2.
  apply wpx_bind, wpx_of_wp, wp_modify. apply wpx_bind, wpx_of_wp, wp_get.
  pose proof (searching_lock core (spinlock s + 1) s Hs) as Hs1. set (s1 := with_spinlock (spinlock s + 1) s) in *.
  destruct (get_free_int_spec ct s1 (default_level fl) core (forced src)) as (x & Hrun & Hfound); [apply Hs1|done|apply Hs1|].
  rewrite any_default in Hfound. apply wpx_bind, wpx_of_wp, (wp_lift _ x); [done|].
  assert (Hfs : found ct s (default_level fl) core (forced src) x) by exact Hfound.
  destruct (Z.eqb_spec x (-1)) as [->|Hx].
  { apply wpx_bind, wpx_of_wp, wp_modify. apply wpx_of_wp, wp_ret. split; [done|]. by do 2 apply quiet_lock. }
  apply found_range in Hfound as Hxr; [|done]. apply wpx_bind.
  pose proof (get_desc_cases mv x core s1 ltac:(apply Hs1) ltac:(apply Hs1) Hcore Hxr) as Hg. unfold wpx in Hg |- * at 1.
  destruct (get_desc_for_int mv x core s1) as [[k s2]|e]; [|by destruct Hg; split; [|exists x]].
  destruct k as [k|].
  - destruct Hg as [-> Ht]. rewrite bool_decide_eq_false_2 by done. apply wpx_of_wp. apply take_connect; [done|done|done|].
    exact (touch_base _ _ _ _ _ _ _ Ht).
  - rewrite bool_decide_eq_true_2 by done. subst s2. apply wpx_of_wp. wp_step. apply wp_modify. wp_step. split; [done|].
    by do 2 apply quiet_lock.
Qed.

(** ** Freeing *)

Fixpoint drop_addr (a : option Z) (l : list Z) : list Z :=
  match l with
  | [] => []
  | b :: l => if bool_decide (Some b = a) then l else b :: drop_addr a l
  end.

Lemma unlink_addrs a l : sv_addr <$> unlink a l = drop_addr a (sv_addr <$> l).
Proof. induction l as [|v l IH]; cbn; [done|]. case_bool_decide; cbn; [done|]. by rewrite IH. Qed.

Lemma drop_sublist a l : sublist (drop_addr a l) l.
Proof. induction l as [|b l IH]; cbn; [done|]. case_bool_decide; by constructor. Qed.

Lemma drop_keeps a b l : b ∈ l -> Some b <> a -> b ∈ drop_addr a l.
Proof.
  intros Hb Hne. induction l as [|e l IH]; cbn; [by apply elem_of_nil in Hb|].
  case_bool_decide as E; apply elem_of_cons in Hb as [->|Hb]; [done|done|left|right; auto].
Qed.

Lemma addrs_nil d : addrs d = [] <-> shared_vec_info d = [].
Proof. unfold addrs. destruct (shared_vec_info d); by split. Qed.

(** The list of a shared interrupt that loses an entry, and whether the
    interrupt is free then. *)
Definition left_over (h : intr_handle) (v : Z * list Z) : list Z :=
  if bit_SHARED v.1 then drop_addr (h_shared h) v.2 else v.2.
Definition gone (h : intr_handle) (v : Z * list Z) : bool :=
  bit_NONSHARED v.1 || (bit_SHARED v.1 && bool_decide (left_over h v = [])).

Lemma touch_drop h v t s0 s Q :
  (bit_SHARED v.1 = true -> v.2 <> []) -> touch (h_intno h) (h_cpu h) v t s0 s ->
  (forall s', touch (h_intno h) (h_cpu h) (v.1, left_over h v) t s0 s' ->
     Q (bit_SHARED v.1 && bool_decide (left_over h v = [])) s') ->
  wp (drop_shared h) Q s.
Proof.
  destruct v as [f as_]. intros Hne Ht HQ. unfold drop_shared, left_over in *. cbn [fst snd] in *.
  apply wp_bind. eapply touch_desc; [exact Ht|]. intros d _ _ [= <- Ha]. autorewrite with intr.
  destruct (bit_SHARED (flags d)); [|wp_step; by apply HQ].
  apply wp_bind, wp_check.
  { rewrite bool_decide_eq_false_2; [done|]. intros E%addrs_nil. rewrite E in Ha. by apply Hne. }
  apply wp_bind. eapply touch_set with (v' := (flags d, drop_addr (h_shared h) as_)); [exact Ht|done| |].
  { intros e [= He Hae]. unfold addrs in *. cbn. rewrite unlink_addrs. congruence. }
  intros s1 Ht1. apply wp_bind. eapply touch_desc; [exact Ht1|]. intros e _ _ [= _ He]. wp_step.
  rewrite (bool_decide_ext (shared_vec_info e = []) (drop_addr (h_shared h) as_ = [])) by (rewrite <- He; symmetry; apply addrs_nil).
  by apply HQ.
Qed.

Lemma intr_free_spec ct h s :
  0 <= h_cpu h < 2 -> 0 <= h_intno h < 32 ->
  let v := view s (h_intno h) (h_cpu h) in
  let t := slot s (h_intno h * 2 + h_cpu h) in
  touch (h_intno h) (h_cpu h) v t s s -> handle_ok h v.2 -> (bit_SHARED v.1 = true -> v.2 <> []) ->
  wp (esp_intr_free ct (h_cpu h) (Some h)) (fun r s' => r = ESP_OK /\
    touch (h_intno h) (h_cpu h) (if gone h v then 0 else v.1, left_over h v)
      (if gone h v then set_slot (h_intno h) ct Unhandled t else t) s s') s.
Proof.
  intros Hc Hno v t Ht Hh Hne. clearbody v t. unfold esp_intr_free, portENTER_CRITICAL, portEXIT_CRITICAL.
  apply wp_bind. eapply touch_desc; [exact Ht|]. intros d Ec _ _. rewrite Ec, Z.eqb_refl. cbn [negb].
  do 2 wp_step. apply wp_bind. destruct v as [f as_]. eapply touch_disable; [done|done|done|done|done|exact Hh|by apply touch_lock|].
  intros r s1 Ht1. apply wp_bind. eapply touch_drop; [exact Hne|exact Ht1|]. intros s2 Ht2.
  apply wp_bind. eapply touch_desc; [exact Ht2|]. intros e _ _ [= He _]. autorewrite with intr. rewrite He. cbn [fst snd] in *.
  fold (gone h (f, as_)). apply wp_bind. unfold gone, left_over in *. cbn [fst snd] in *. destruct (bit_NONSHARED f || _).
  - apply wp_bind. eapply touch_handler; [done|done|exact Ht2|]. intros s3 Ht3. apply wp_bind.
    eapply touch_set; [exact Ht3|done| |].
    { intros e' [= Hf Ha]. cbn. rewrite Z.land_0_r. f_equal. exact Ha. }
    intros s4 Ht4. eapply touch_mask; [done|exact Ht4|]. intros s5 Ht5. do 3 wp_step. split; [done|]. by apply touch_lock.
  - do 4 wp_step. split; [done|]. by apply touch_lock.
Qed.

Lemma free_other_cpu ct core h d s :
  find_desc_for_int s (h_intno h) (h_cpu h) = Some d -> core <> h_cpu h ->
  esp_intr_free ct core (Some h) s = Ret (ESP_ERR_INVALID_ARG, s).
Proof.
  intros Hf Hne. unfold esp_intr_free, desc, mbind, M_bind, get. cbn. rewrite Hf.
  destruct (find_at_key _ _ _ _ Hf) as (_ & E & _). cbn. rewrite E. by rewrite (proj2 (Z.eqb_neq _ _)) by done.
Qed.

(** ** The invariant *)

#[export] Instance intr_handle_eq_dec : EqDecision intr_handle.
Proof. solve_decision. Defined.

(** The result of [malloc]. *)
Definition heap_addr (a : Z) : Prop := 0 < a < 2 ^ 32 /\ a mod 4 = 0.

(** Flags and shared list of one interrupt. *)
Record vec_ok (v : Z * list Z) : Prop := {
  vo_excl : bit_SHARED v.1 = true -> bit_NONSHARED v.1 = false;
  vo_alone : bit_NONSHARED v.1 = true -> v.2 = [];
  vo_list : v.2 <> [] -> bit_SHARED v.1 = true \/ bit_RESERVED v.1 = true;
  vo_nodup : NoDup v.2;
  vo_addr : Forall heap_addr v.2
}.

(** What a handle that was not freed relies on. *)
Definition holds (h : intr_handle) (v : Z * list Z) (t : xt_handler) : Prop :=
  match h_shared h with
  | None => bit_NONSHARED v.1 = true
  | Some a => bit_SHARED v.1 = true /\ a ∈ v.2 /\ t = SharedIsr (h_cpu h) (h_intno h)
  end.

Definition on (no c : Z) (h : intr_handle) : Prop := h_intno h = no /\ h_cpu h = c.
#[export] Instance on_dec no c h : Decision (on no c h).
Proof. unfold on. apply _. Defined.

Record live_ok (s : intr_state) (h : intr_handle) : Prop := {
  lo_cpu : 0 <= h_cpu h < 2;
  lo_intno : 0 <= h_intno h < 32;
  lo_holds : holds h (view s (h_intno h) (h_cpu h)) (slot s (h_intno h * 2 + h_cpu h))
}.

Record intr_inv (s : intr_state) (live : list intr_handle) : Prop := {
  ii_hw : hw_ok s;
  ii_sorted : sorted (vector_desc_head s);
  ii_vec : forall no c, vec_ok (view s no c);
  ii_live : Forall (live_ok s) live;
  ii_nodup : NoDup live
}.

Lemma NoDup_below (n : Z) (l : list Z) : 0 <= n -> NoDup l -> Forall (fun a => 0 <= a < n) l -> Z.of_nat (length l) <= n.
Proof.
  intros Hn Hd Hl. apply Z2Nat.inj_le; [lia|done|]. rewrite Nat2Z.id, <- (length_seqZ 0 n). apply submseteq_length.
  apply NoDup_submseteq; [done|]. intros a Ha. rewrite Forall_forall in Hl. apply elem_of_seqZ. specialize (Hl a Ha). lia.
Qed.

Lemma NoDup_words (l : list Z) : NoDup l -> Forall heap_addr l -> Z.of_nat (length l) <= 2 ^ 30.
Proof.
  intros Hn Hl. rewrite Forall_forall in Hl.
  assert (Hd : NoDup ((fun a => a / 4) <$> l)).
  { apply NoDup_fmap_2_strong; [|done]. intros a b Ha Hb E. destruct (Hl a Ha) as [_ Ra], (Hl b Hb) as [_ Rb].
    rewrite (Z.div_mod a 4), (Z.div_mod b 4), Ra, Rb by done. by rewrite E. }
  rewrite <- (length_fmap (fun a => a / 4) l). apply NoDup_below; [lia|done|].
  apply Forall_fmap, Forall_forall. intros a Ha. destruct (Hl a Ha) as [[H1 H2] _]. cbn.
  split; [apply Z.div_pos; lia|]. apply Z.div_lt_upper_bound; lia.
Qed.

Lemma inv_searching s live core : intr_inv s live -> searching core s.
Proof.
  intros [Hw Hs Hv _ _]. split; [done|done| |].
  - split; [apply Hw|]. intros x c [E1 E2]. autorewrite with intr in *.
    pose proof (vo_excl _ (Hv x c) E1) as E3. cbn [fst view] in E3. congruence.
  - intros y. destruct (Hv y core) as [_ _ _ Hn Ha]. cbn [snd view] in *.
    pose proof (NoDup_words _ Hn Ha) as Hle. unfold addrs in Hle. rewrite length_fmap in Hle. unfold INT_MAX. lia.
Qed.

Lemma holds_found s no c h t : holds h (view s no c) t -> exists d, find_desc_for_int s no c = Some d.
Proof.
  unfold holds, view, vec. destruct (find_desc_for_int s no c) as [d|]; [eauto|]. destruct (h_shared h); cbn; intros H; [by destruct H|done].
Qed.

Lemma inv_touch s live live' no c v t s' :
  intr_inv s live -> touch no c v t s s' -> vec_ok v -> NoDup live' -> 0 <= c < 2 -> 0 <= no < 32 ->
  (forall h, h ∈ live' -> on no c h /\ holds h v t \/ ~ on no c h /\ h ∈ live) -> intr_inv s' live'.
Proof.
  intros [Hw Hs Hv Hl _] [Tw Ts _ Tv Tt To Tl] Hok Hn Hc Hno Hlive. split; [done|done| | |done].
  - intros x y. destruct (decide (x = no)) as [->|]; [destruct (decide (y = c)) as [->|]; [by rewrite Tv|]|]; rewrite To by auto; apply Hv.
  - apply Forall_forall. intros h Hh. destruct (Hlive h Hh) as [[[E1 E2] Hho]|[Hno' Hin]].
    + split; rewrite ?E1, ?E2; [done|done|]. by rewrite Tv, Tt.
    + rewrite Forall_forall in Hl. destruct (Hl h Hin) as [L1 L2 L3]. split; [done|done|].
      unfold on in Hno'. rewrite To by lia. rewrite Tl by lia. done.
Qed.

Lemma inv_quiet s live s' : intr_inv s live -> quiet s s' -> intr_inv s' live.
Proof.
  intros [Hw Hs Hv Hl Hn] [Qw Qs Qv Ql]. split; [done|done| | |done].
  - intros x y. by rewrite Qv.
  - eapply Forall_impl; [exact Hl|]. intros h [L1 L2 L3]. split; [done|done|]. by rewrite Qv, Ql.
Qed.

Lemma inv_drop s h live : intr_inv s (h :: live) -> intr_inv s live.
Proof. intros [? ? ? Hl%Forall_cons Hn%NoDup_cons]. by split; [| | |apply Hl|apply Hn]. Qed.

(** ** Every operation keeps the invariant *)

Lemma usable_facts s fl c force x d :
  usable s fl c force x d = true ->
  bit_RESERVED (view s x c).1 = false /\ bit_NONSHARED (view s x c).1 = false /\ has fl (Z.shiftl 1 (level d)) = true
  /\ (has fl ESP_INTR_FLAG_SHARED = false -> bit_SHARED (view s x c).1 = false)
  /\ (bit_SHARED (view s x c).1 = false -> slot s (x * 2 + c) = Unhandled)
  /\ (bit_SHARED (view s x c).1 = true -> bit_INIRAM (view s x c).1 = has fl ESP_INTR_FLAG_IRAM).
Proof.
  unfold usable, is_shared, view. cbv zeta. autorewrite with intr. cbn [fst].
  intros ((((((((_ & _)%andb_true_iff & _)%andb_true_iff & Hl)%andb_true_iff & _)%andb_true_iff & Ht)%andb_true_iff & Hr)%andb_true_iff
    & Hn)%andb_true_iff & Hs)%andb_true_iff.
  apply negb_true_iff in Hr, Hn. split_and!; [done|done|done| | |]; intros E; rewrite E in *.
  - by apply negb_true_iff in Hs.
  - rewrite orb_false_r in Ht. by apply bool_decide_eq_true in Ht.
  - destruct (has fl ESP_INTR_FLAG_SHARED); [|done]. by apply eqb_prop in Hs.
Qed.

Lemma args_shared src fl reg mask handler :
  args_ok src fl reg mask handler = true -> has fl ESP_INTR_FLAG_SHARED = true -> has fl ESP_INTR_FLAG_HIGH = false.
Proof.
  unfold args_ok. intros H E. rewrite E in H. apply negb_true_iff in H. destruct (has fl ESP_INTR_FLAG_HIGH); [|done].
  destruct (handler =? 0); cbn in H; rewrite ?orb_true_r in H; done.
Qed.

(** Without a high level in the flags, the handler is one that C can be. *)
Lemma low_level fl d :
  has fl ESP_INTR_FLAG_HIGH = false -> has (default_level fl) (Z.shiftl 1 (level d)) = true -> 1 <= level d <= 7 ->
  level d <= XCHAL_EXCM_LEVEL.
Proof.
  intros Hh Hl Hd. destruct (Z.le_gt_cases (level d) XCHAL_EXCM_LEVEL) as [|Hgt]; [done|]. unfold XCHAL_EXCM_LEVEL in *.
  assert (Hb : Z.testbit fl (level d) = true).
  { rewrite has_bit in Hl by lia. unfold default_level in Hl. destruct (negb _); [|done].
    assert (level d = 4 \/ level d = 5 \/ level d = 6 \/ level d = 7) as Hcase by lia.
    destruct (has fl ESP_INTR_FLAG_SHARED); rewrite Z.lor_spec in Hl; destruct Hcase as [E|[E|[E|E]]]; rewrite E in *; cbn in Hl;
      by rewrite orb_false_r in Hl. }
  unfold has in Hh. apply negb_false_iff, Z.eqb_eq in Hh. apply (f_equal (fun z => Z.testbit z (level d))) in Hh.
  rewrite Z.land_spec, Hb, Z.bits_0 in Hh. cbn [andb] in Hh.
  assert (level d = 4 \/ level d = 5 \/ level d = 6 \/ level d = 7) as [E|[E|[E|E]]] by lia; rewrite E in Hh; done.
Qed.

Lemma int_desc_level_range t : Forall (fun d => 1 <= level d <= 7) (int_desc t).
Proof. destruct t; repeat (constructor; [done|]); constructor. Qed.

Lemma vec_alone b : vec_ok (iram_word b VECDESC_FL_NONSHARED, []).
Proof. destruct b; (split; cbn; [done|done|done|constructor|constructor]). Qed.

Lemma vec_shared b f as_ a :
  bit_NONSHARED f = false -> NoDup as_ -> Forall heap_addr as_ -> heap_addr a -> a ∉ as_ ->
  vec_ok (iram_word b (Z.lor f VECDESC_FL_SHARED), a :: as_).
Proof.
  intros Hf Hn Ha Haa Hfresh. destruct (iram_word_bits b (Z.lor f VECDESC_FL_SHARED)) as (_ & I2 & I3).
  destruct (shared_word_bits f) as (_ & S2 & S3). split; cbn [fst snd]; rewrite ?I2, ?I3, ?S2, ?S3.
  - done.
  - congruence.
  - by left.
  - by constructor.
  - by constructor.
Qed.

Lemma inv_alloc ct core msh src fl reg mask handler arg s live h s' :
  0 <= core < 2 -> intr_inv s live -> args_ok src fl reg mask handler = true ->
  (forall a, msh = Some a -> heap_addr a /\ forall no c, a ∉ (view s no c).2) ->
  taken ct core msh src fl handler arg s h s' -> intr_inv s' (h :: live).
Proof.
  intros Hcore HI Hargs Hfresh (x & Hf & Hx & Ht). pose proof (ii_vec _ _ HI x core) as Hv.
  destruct Hf as [[-> _]|(b & d & Eb & [Hd Hu] & _)]; [lia|]. rewrite <- Eb in Hu. apply usable_facts in Hu as (Hr & Hns & Hlev & Hsh & _ & _).
  pose proof (default_level_bit fl 8 ltac:(lia)) as E8. fold ESP_INTR_FLAG_SHARED in E8. rewrite E8 in Hsh. cbv zeta in Ht.
  assert (Hother : forall k, k ∈ live -> on x core k ->
    exists a, h_shared k = Some a /\ holds k (view s x core) (slot s (x * 2 + core))).
  { intros k Hk [E1 E2]. pose proof (ii_live _ _ HI) as Hl. rewrite Forall_forall in Hl. destruct (Hl k Hk) as [_ _ Hh].
    rewrite E1, E2 in Hh. destruct (h_shared k) as [a|] eqn:Ek; [by exists a|]. unfold holds in Hh. rewrite Ek in Hh. congruence. }
  destruct (has fl ESP_INTR_FLAG_SHARED) eqn:Efl.
  - destruct Ht as (a & Ema & -> & Ht). destruct (Hfresh a Ema) as [Ha Hna].
    assert (Hslot : forall t, set_slot x ct (SharedIsr core x) t = SharedIsr core x).
    { intros t. unfold set_slot. rewrite Eb, Nat2Z.id, Hd. pose proof (int_desc_level_range ct) as Hlr. rewrite Forall_lookup in Hlr.
      by rewrite (proj2 (Z.ltb_ge _ _)) by (eapply low_level; [by eapply args_shared|exact Hlev|by eapply Hlr]). }
    rewrite Hslot in Ht. destruct (iram_word_bits (has fl ESP_INTR_FLAG_IRAM) (Z.lor (view s x core).1 VECDESC_FL_SHARED)) as (_ & I2 & _).
    destruct (shared_word_bits (view s x core).1) as (_ & S2 & _).
    eapply inv_touch; [exact HI|exact Ht|apply vec_shared; [done|apply Hv|apply Hv|done|apply Hna]| |done|done|].
    + constructor; [|apply HI]. intros Hin. destruct (Hother _ Hin) as (b' & [= <-] & _ & Hin' & _); [done|]. by apply (Hna x core).
    + intros k [->|Hk]%elem_of_cons; [left; split; [done|]|].
      * unfold holds. cbn [h_shared h_cpu h_intno fst snd]. rewrite I2, S2. split_and!; [done|left|done].
      * destruct (decide (on x core k)) as [Hon|Hon]; [left; split; [done|]|by right].
        destruct (Hother k Hk Hon) as (b' & Ek & Hh). unfold holds in *. rewrite Ek in *. cbn [fst snd]. rewrite I2, S2.
        destruct Hh as (_ & Hh & _). destruct Hon as [-> ->]. split_and!; [done|by right|done].
  - specialize (Hsh eq_refl). assert (Hnil : (view s x core).2 = []).
    { destruct (view s x core).2 eqn:E; [done|]. destruct (vo_list _ Hv); rewrite ?E in *; congruence. }
    rewrite Hnil in Ht. destruct Ht as [-> Ht].
    assert (Hnone : forall k, k ∈ live -> ~ on x core k).
    { intros k Hk Hon. destruct (Hother k Hk Hon) as (a & Ek & Hh). unfold holds in Hh. rewrite Ek in Hh. destruct Hh. congruence. }
    eapply inv_touch; [exact HI|exact Ht|apply vec_alone| |done|done|].
    + constructor; [|apply HI]. intros Hin. by apply (Hnone _ Hin).
    + intros k [->|Hk]%elem_of_cons; [left; split; [done|]|right; auto]. unfold holds. cbn [h_shared head fst snd].
      destruct (iram_word_bits (has fl ESP_INTR_FLAG_IRAM) VECDESC_FL_NONSHARED) as (_ & _ & ->). done.
Qed.

Lemma live_start s live h :
  intr_inv s live -> h ∈ live ->
  let v := view s (h_intno h) (h_cpu h) in
  let t := slot s (h_intno h * 2 + h_cpu h) in
  touch (h_intno h) (h_cpu h) v t s s /\ holds h v t /\ handle_ok h v.2 /\ live_ok s h.
Proof.
  intros HI Hin v t. pose proof (ii_live _ _ HI) as Hl. rewrite Forall_forall in Hl. pose proof (Hl h Hin) as Hok.
  destruct Hok as [L1 L2 L3]. destruct (holds_found _ _ _ _ _ L3) as [d Hd]. split_and!; [|done| |done].
  - pose proof (touch_start _ _ s d ltac:(apply HI) ltac:(apply HI) Hd) as Ht. pose proof (to_view _ _ _ _ _ _ Ht) as E.
    by rewrite <- E in Ht.
  - unfold handle_ok, holds in *. destruct (h_shared h); [apply L3|done].
Qed.

Lemma vec_freed h v : vec_ok v -> vec_ok (if gone h v then 0 else v.1, left_over h v).
Proof.
  intros [V1 V2 V3 V4 V5].
  assert (Hsub : sublist (left_over h v) v.2) by (unfold left_over; destruct (bit_SHARED _); [apply drop_sublist|done]).
  assert (Hg : gone h v = true -> left_over h v = []).
  { unfold gone. intros [Hn|[_ E%bool_decide_eq_true]%andb_true_iff]%orb_true_iff; [|done]. unfold left_over.
    destruct (bit_SHARED v.1) eqn:E; [specialize (V1 eq_refl); congruence|]. auto. }
  assert (Hfa : Forall heap_addr (left_over h v)) 
    by (rewrite Forall_forall in *; eauto using elem_of_sublist).
  assert (Hnd : NoDup (left_over h v)) by (eapply sublist_NoDup; eauto).
  destruct (gone h v) eqn:Eg; split; cbn [fst snd]; try done.
  - intros H. by destruct (H (Hg eq_refl)).
  - intros Hn. apply V2 in Hn. rewrite Hn in Hsub. by apply sublist_nil_r in Hsub.
  - intros Hne. apply V3. intros E. rewrite E in Hsub. by apply sublist_nil_r in Hsub.
Qed.

(** The other handles of an interrupt outlive one that is freed. *)
Lemma holds_freed h k v t ct :
  vec_ok v -> holds h v t -> holds k v t -> on (h_intno h) (h_cpu h) k -> k <> h ->
  holds k (if gone h v then 0 else v.1, left_over h v) (if gone h v then set_slot (h_intno h) ct Unhandled t else t).
Proof.
  intros Hv Hh Hk [E1 E2] Hne. unfold holds in *.
  destruct (h_shared h) as [a|] eqn:Eh, (h_shared k) as [b|] eqn:Ek.
  - destruct Hh as (S1 & Ha & _), Hk as (_ & Hb & ->). assert (Hab : Some b <> h_shared h).
    { rewrite Eh. intros [= ->]. apply Hne. destruct h, k; cbn in *. congruence. }
    pose proof (drop_keeps (h_shared h) b v.2 Hb Hab) as Hin. assert (Hg : gone h v = false).
    { unfold gone. rewrite (vo_excl _ Hv S1), S1. cbn [orb andb]. apply bool_decide_eq_false_2. unfold left_over. rewrite S1.
      intros E. rewrite E in Hin. by apply elem_of_nil in Hin. }
    rewrite Hg. cbn [fst snd]. unfold left_over. by rewrite S1.
  - destruct Hh as (S1 & _). pose proof (vo_excl _ Hv S1). congruence.
  - destruct Hk as (S1 & _). pose proof (vo_excl _ Hv S1). congruence.
  - destruct Hne. destruct h, k; cbn in *. congruence.
Qed.

Lemma inv_free ct core s live h r s' :
  intr_inv s live -> h ∈ live -> esp_intr_free ct core (Some h) s = Ret (r, s') ->
  intr_inv s' (if decide (r = ESP_OK) then filter (fun k => k <> h) live else live).
Proof.
  intros HI Hin Hrun. destruct (live_start s live h HI Hin) as (Ht & Hh & Hok & [L1 L2 L3]).
  destruct (decide (core = h_cpu h)) as [->|Hne].
  - pose proof (intr_free_spec ct h s L1 L2 Ht Hok) as Hspec. unfold wp in Hspec. rewrite Hrun in Hspec.
    set (v := view s (h_intno h) (h_cpu h)) in *. set (t := slot s (h_intno h * 2 + h_cpu h)) in *.
    pose proof (ii_vec _ _ HI (h_intno h) (h_cpu h)) as Hv. fold v in Hv.
    destruct Hspec as [-> Ht'].
    { intros S1. unfold holds in Hh. destruct (h_shared h) as [a|].
      - destruct Hh as (_ & Ha & _). intros E. rewrite E in Ha. by apply elem_of_nil in Ha.
      - pose proof (vo_excl _ Hv S1). congruence. }
    rewrite decide_True by done. eapply inv_touch; [exact HI|exact Ht'|by apply vec_freed|by apply NoDup_filter, HI|done|done|].
    intros k [Hkh Hk]%list_elem_of_filter. destruct (decide (on (h_intno h) (h_cpu h) k)) as [Hon|]; [left|by right].
    split; [done|]. apply holds_freed; try done. destruct (live_start s live k HI Hk) as (_ & Hhk & _ & _).
    destruct Hon as [E1 E2]. by rewrite E1, E2 in Hhk.
  - destruct (holds_found _ _ _ _ _ Hh) as [d Hd]. rewrite (free_other_cpu ct core h d s Hd Hne) in Hrun.
    injection Hrun as <- <-. by rewrite decide_False.
Qed.

(** A live handle can be switched on and off. *)
Lemma quiet_enable core s live h (b : bool) r s' :
  0 <= core < 2 -> intr_inv s live -> h ∈ live ->
  (if b then esp_intr_enable core (Some h) else esp_intr_disable core (Some h)) s = Ret (r, s') -> quiet s s'.
Proof.
  intros Hcore HI Hin Hrun. destruct (live_start s live h HI Hin) as (Ht & _ & Hok & [L1 L2 _]). apply touch_quiet with (no := h_intno h) (c := h_cpu h).
  destruct (view s (h_intno h) (h_cpu h)) as [f as_].
  assert (Hwp : wp (if b then esp_intr_enable core (Some h) else esp_intr_disable core (Some h))
    (fun _ s2 => touch (h_intno h) (h_cpu h) (f, as_) (slot s (h_intno h * 2 + h_cpu h)) s s2) s).
  { destruct b; [eapply touch_enable|eapply touch_disable]; try done; exact Ht. }
  unfold wp in Hwp. by rewrite Hrun in Hwp.
Qed.

(** An interrupt that nobody holds gets new flags. *)
Lemma inv_reflag s live no c f s' :
  intr_inv s live -> (forall h, h ∈ live -> ~ on no c h) -> 0 <= c < 2 -> 0 <= no < 32 ->
  bit_NONSHARED f = false -> bit_SHARED f = true \/ bit_RESERVED f = true ->
  touch no c (f, (view s no c).2) (slot s (no * 2 + c)) s s' -> intr_inv s' live.
Proof.
  intros HI Hnone Hc Hno H1 H2 Ht. pose proof (ii_vec _ _ HI no c) as Hv.
  eapply inv_touch; [exact HI|exact Ht| |apply HI|done|done|intros h Hh; right; auto].
  split; cbn [fst snd]; [done|congruence|by intros|apply Hv|apply Hv].
Qed.

(** What both operations that change flags do. *)
Lemma reflag_run (k : Z -> Z -> M intr_state unit) f ok no c s r s' :
  hw_ok s -> sorted (vector_desc_head s) -> 0 <= c < 2 -> 0 <= no < 32 ->
  (forall v t s1 Q, touch no c v t s s1 -> (forall s2, touch no c (f, v.2) t s s2 -> Q tt s2) -> wp (k no c) Q s1) ->
  (portENTER_CRITICAL;;
   vd ← get_desc_for_int ok no c;
   match vd with
   | None => portEXIT_CRITICAL;; mret ESP_ERR_NO_MEM
   | Some (no, c) => k no c;; portEXIT_CRITICAL;; mret ESP_OK
   end) s = Ret (r, s') ->
  r <> ESP_OK /\ quiet s s' \/ r = ESP_OK /\ touch no c (f, (view s no c).2) (slot s (no * 2 + c)) s s'.
Proof.
  intros Hw Hs Hc Hno Hk Hrun.
  assert (Hwp : wpx (fun _ => True) (portENTER_CRITICAL;;
   vd ← get_desc_for_int ok no c;
   match vd with
   | None => portEXIT_CRITICAL;; mret ESP_ERR_NO_MEM
   | Some (no, c) => k no c;; portEXIT_CRITICAL;; mret ESP_OK
   end) (fun r s' => r <> ESP_OK /\ quiet s s' \/ r = ESP_OK /\ touch no c (f, (view s no c).2) (slot s (no * 2 + c)) s s') s);
    [|by unfold wpx in Hwp; rewrite Hrun in Hwp]. clear Hrun.
  unfold portENTER_CRITICAL, portEXIT_CRITICAL. apply wpx_bind, wpx_of_wp, wp_modify. apply wpx_bind.
  set (s1 := with_spinlock (spinlock s + 1) s).
  pose proof (get_desc_cases ok no c s1 ltac:(by destruct Hw) Hs Hc Hno) as Hg. unfold wpx in Hg |- * at 1.
  destruct (get_desc_for_int ok no c s1) as [[[d|] s2]|e]; [| |done]; apply wpx_of_wp.
  - destruct Hg as [-> Ht%touch_base]. apply wp_bind. eapply Hk; [exact Ht|]. intros s3 Ht3. do 3 wp_step. right. split; [done|].
    by apply touch_lock.
  - subst s2. do 3 wp_step. left. split; [done|]. by do 2 apply quiet_lock; apply quiet_refl.
Qed.

Lemma inv_mark_shared ok no c ram s live r s' :
  intr_inv s live -> (forall h, h ∈ live -> ~ on no c h) -> 0 <= c -> 0 <= no ->
  esp_intr_mark_shared ok no c ram s = Ret (r, s') -> intr_inv s' live.
Proof.
  intros HI Hnone Hc Hno Hrun. unfold esp_intr_mark_shared in Hrun. change portNUM_PROCESSORS with 2 in Hrun.
  destruct (Z.ltb_spec 31 no); [by injection Hrun as <- <-|]. destruct (Z.leb_spec 2 c); [by injection Hrun as <- <-|].
  set (f := if ram then Z.lor VECDESC_FL_SHARED VECDESC_FL_INIRAM else VECDESC_FL_SHARED).
  apply (reflag_run (fun no c => set_desc no c (with_flags VECDESC_FL_SHARED);;
    (if ram then set_desc no c (fun d => with_flags (Z.lor (flags d) VECDESC_FL_INIRAM) d) else mret tt)) f) in Hrun;
    [|apply HI|apply HI|lia|lia|].
  - destruct Hrun as [[_ Hq]|[_ Ht]]; [by eapply inv_quiet|]. eapply inv_reflag; [exact HI|exact Hnone|lia|lia| | |exact Ht]; destruct ram; auto.
  - intros v t s1 Q Ht HQ. apply wp_bind. eapply touch_set with (v' := (VECDESC_FL_SHARED, v.2)); [exact Ht|done|by intros d <-|].
    intros s2 Ht2. subst f. destruct ram; [|wp_step; by apply HQ].
    eapply touch_set; [exact Ht2|done| |exact HQ]. by intros d [= <- <-].
Qed.

Lemma inv_reserve ok no c s live r s' :
  intr_inv s live -> (forall h, h ∈ live -> ~ on no c h) -> 0 <= c -> 0 <= no ->
  esp_intr_reserve ok no c s = Ret (r, s') -> intr_inv s' live.
Proof.
  intros HI Hnone Hc Hno Hrun. unfold esp_intr_reserve in Hrun. change portNUM_PROCESSORS with 2 in Hrun.
  destruct (Z.ltb_spec 31 no); [by injection Hrun as <- <-|]. destruct (Z.leb_spec 2 c); [by injection Hrun as <- <-|].
  apply (reflag_run (fun no c => set_desc no c (with_flags VECDESC_FL_RESERVED)) VECDESC_FL_RESERVED) in Hrun;
    [|apply HI|apply HI|lia|lia|].
  - destruct Hrun as [[_ Hq]|[_ Ht]]; [by eapply inv_quiet|]. eapply inv_reflag; [exact HI|exact Hnone|lia|lia| | |exact Ht]; auto.
  - intros v t s1 Q Ht HQ. eapply touch_set; [exact Ht|done| |exact HQ]. by intros d <-.
Qed.

Lemma quiet_noniram (b : bool) core s live s' :
  0 <= core < 2 -> intr_inv s live ->
  (if b then esp_intr_noniram_enable core else esp_intr_noniram_disable core) s = Ret (tt, s') -> quiet s s'.
Proof.
  intros Hcore HI Hrun. pose proof (ii_hw _ _ HI) as [H1 H2 H3].
  assert (Hq : forall s2, hw_ok s2 -> vector_desc_head s2 = vector_desc_head s -> xt_interrupt_table s2 = xt_interrupt_table s -> quiet s s2).
  { intros s2 Hw E1 E2. split; [done|by rewrite E1; apply HI| |]; intros; unfold view, vec, find_desc_for_int, slot; by rewrite ?E1, ?E2. }
  unfold esp_intr_noniram_enable, esp_intr_noniram_disable, change_intenable, get, lift, modify, mbind, M_bind in Hrun.
  destruct b; cbn in Hrun; repeat (case_match; try done); simplify_eq/=;
    match goal with H : wr (intenable _) _ _ = Ret _ |- _ => rewrite wr_in in H by lia; injection H as <- end;
    (apply Hq; [split; cbn; by rewrite ?length_insert|done|done]).
Qed.

(** ** Every use of the allocator *)

(** [live] has the handles that callers keep and have not freed.  A handle is
    used until it is freed, [malloc] gives a word that no shared list has,
    and the flags of an interrupt are set when nobody holds it. *)
Inductive intr_step (ct : bool) : intr_state * list intr_handle -> intr_state * list intr_handle -> Prop :=
| StepAlloc core mr mv msh src fl reg mask handler arg (keep : bool) err ret s live s' :
    0 <= core < 2 -> (forall a, msh = Some a -> heap_addr a /\ forall no c, a ∉ (view s no c).2) ->
    esp_intr_alloc_intrstatus ct core mr mv msh src fl reg mask handler arg s = Ret ((err, ret), s') ->
    intr_step ct (s, live) (s', if keep then option_list ret ++ live else live)
| StepFree core h r s live s' :
    0 <= core < 2 -> h ∈ live -> esp_intr_free ct core (Some h) s = Ret (r, s') ->
    intr_step ct (s, live) (s', if decide (r = ESP_OK) then filter (fun k => k <> h) live else live)
| StepEnable core h (b : bool) r s live s' :
    0 <= core < 2 -> h ∈ live ->
    (if b then esp_intr_enable core (Some h) else esp_intr_disable core (Some h)) s = Ret (r, s') ->
    intr_step ct (s, live) (s', live)
| StepMark ok no c ram r s live s' :
    0 <= c -> 0 <= no -> (forall h, h ∈ live -> ~ on no c h) -> esp_intr_mark_shared ok no c ram s = Ret (r, s') ->
    intr_step ct (s, live) (s', live)
| StepReserve ok no c r s live s' :
    0 <= c -> 0 <= no -> (forall h, h ∈ live -> ~ on no c h) -> esp_intr_reserve ok no c s = Ret (r, s') ->
    intr_step ct (s, live) (s', live)
| StepNonIram (b : bool) core s live s' :
    0 <= core < 2 -> (if b then esp_intr_noniram_enable core else esp_intr_noniram_disable core) s = Ret (tt, s') ->
    intr_step ct (s, live) (s', live).

Lemma inv_initial : intr_inv initial_state [].
Proof. split; [by split| |by intros; split; constructor|constructor|constructor]. split; constructor. Qed.

(** An allocation that returns has done what [taken] says, or nothing. *)
Lemma alloc_run ct core mr mv msh src fl reg mask handler arg s live err ret s' :
  0 <= core < 2 -> intr_inv s live ->
  esp_intr_alloc_intrstatus ct core mr mv msh src fl reg mask handler arg s = Ret ((err, ret), s') ->
  (err <> ESP_OK /\ ret = None /\ quiet s s')
  \/ exists h, err = ESP_OK /\ ret = Some h /\ args_ok src fl reg mask handler = true /\ taken ct core msh src fl handler arg s h s'.
Proof.
  intros Hcore HI Hrun. pose proof (alloc_spec ct core mr mv msh src fl reg mask handler arg s Hcore (inv_searching _ _ _ HI)) as Hs.
  unfold wpx in Hs. rewrite Hrun in Hs. destruct ret as [h|]; [right|left]; cbn in Hs; [|by destruct Hs].
  exists h. destruct Hs as [-> Ht]. split_and!; [done|done| |done].
  unfold esp_intr_alloc_intrstatus in Hrun. by destruct (args_ok src fl reg mask handler).
Qed.

Lemma inv_step ct x y : intr_step ct x y -> intr_inv x.1 x.2 -> intr_inv y.1 y.2.
Proof.
  intros Hst HI. destruct Hst; cbn [fst snd] in *.
  - eapply alloc_run in H1; [|done|exact HI]. destruct H1 as [(_ & -> & Hq)|(h & _ & -> & Ha & Ht)].
    + destruct keep; by eapply inv_quiet.
    + pose proof (inv_alloc _ _ _ _ _ _ _ _ _ _ _ _ _ H HI Ha H0 Ht) as HI'. destruct keep; [done|by eapply inv_drop].
  - by eapply inv_free.
  - eapply inv_quiet; [exact HI|]. by eapply quiet_enable.
  - by eapply inv_mark_shared.
  - by eapply inv_reserve.
  - eapply inv_quiet; [exact HI|]. by eapply quiet_noniram.
Qed.

Definition intr_reachable (ct : bool) (s : intr_state) (live : list intr_handle) : Prop :=
  rtc (intr_step ct) (initial_state, []) (s, live).

Lemma reachable_inv ct s live : intr_reachable ct s live -> intr_inv s live.
Proof.
  assert (H : forall x y, rtc (intr_step ct) x y -> intr_inv x.1 x.2 -> intr_inv y.1 y.2) by (induction 1; eauto using inv_step).
  intros Hr. exact (H _ _ Hr inv_initial).
Qed.

(** C11: However the allocator is used, two handles that are kept for one
    interrupt of one CPU are both shared, with different entries in the list
    of the interrupt, and the interrupt runs the shared dispatcher; an
    interrupt that is held alone is never offered by the search again,
    whatever the flags and the forced number. *)
Theorem intr_alloc_exclusive ct s live :
  intr_reachable ct s live ->
  (forall (i j : nat) h k, live !! i = Some h -> live !! j = Some k -> i <> j -> h_intno h = h_intno k -> h_cpu h = h_cpu k ->
     exists a b d, h_shared h = Some a /\ h_shared k = Some b /\ a <> b
       /\ find_desc_for_int s (h_intno h) (h_cpu h) = Some d
       /\ a ∈ sv_addr <$> shared_vec_info d /\ b ∈ sv_addr <$> shared_vec_info d
       /\ rd (xt_interrupt_table s) (h_intno h * 2 + h_cpu h) = Ret (SharedIsr (h_cpu h) (h_intno h)))
  /\ (forall h, h ∈ live -> h_shared h = None -> forall fl force, get_free_int ct s fl (h_cpu h) force <> Ret (h_intno h)).
Proof.
  intros HI%reachable_inv. split.
  - intros i j h k Hi Hj Hij E1 E2. assert (Hne : h <> k) by (intros ->; by apply Hij, (NoDup_lookup live i j k (ii_nodup _ _ HI))).
    destruct (live_start s live h HI ltac:(by eapply list_elem_of_lookup_2)) as (Ht & Hh & _ & [L1 L2 _]).
    destruct (live_start s live k HI ltac:(by eapply list_elem_of_lookup_2)) as (_ & Hk & _ & _). rewrite <- E1, <- E2 in Hk.
    pose proof (ii_vec _ _ HI (h_intno h) (h_cpu h)) as Hv. destruct (to_found _ _ _ _ _ _ Ht) as [d Hd].
    pose proof (ii_hw _ _ HI) as [HT _ _]. unfold holds in Hh, Hk.
    destruct (h_shared h) as [a|] eqn:Eh, (h_shared k) as [b|] eqn:Ek.
    + exists a, b, d. unfold view, vec, slot, addrs in Hh, Hk. rewrite Hd in Hh, Hk. cbn [default snd] in Hh, Hk.
      destruct Hh as (_ & Ha & Hsl), Hk as (_ & Hb & _). split_and!; [done|done| |done|done|done|].
      * intros ->. apply Hne. destruct h, k; cbn in *. congruence.
      * rewrite (rd_in Unhandled) by lia. by rewrite Hsl.
    + destruct Hh as (S1 & _). pose proof (vo_excl _ Hv S1). congruence.
    + destruct Hk as (S1 & _). pose proof (vo_excl _ Hv S1). congruence.
    + destruct Hne. destruct h, k; cbn in *. congruence.
  - intros h Hin Eh fl force Hrun. destruct (live_start s live h HI Hin) as (_ & Hh & _ & [L1 L2 _]).
    pose proof (inv_searching s live (h_cpu h) HI) as [_ _ S3 S4].
    destruct (get_free_int_spec ct s fl (h_cpu h) force S3 L1 S4) as (r & Hr & Hf). rewrite Hrun in Hr. injection Hr as <-.
    destruct Hf as [[E _]|(b & d & Eb & [_ Hu] & _)]; [lia|]. rewrite <- Eb in Hu. apply usable_facts in Hu as (_ & Hn & _).
    unfold holds in Hh. rewrite Eh in Hh. congruence.
Qed.

(** In every state that use of the allocator leads to, the search
    succeeds without failing its assertion.  It gives -1 only when no
    interrupt passes the tests.  For an unshared request it gives the usable
    interrupt of the lowest level, and of those the one with the lowest
    number; for a shared request one that is shared already, or else, when
    there is none, the first usable one. *)
Theorem get_free_int_best ct s live fl c force :
  intr_reachable ct s live -> 0 <= c < 2 ->
  exists r, get_free_int ct s fl c force = Ret r /\ found ct s (any_level fl) c force r.
Proof. intros HI%reachable_inv Hc. pose proof (inv_searching s live c HI) as [_ _ S3 S4]. by apply get_free_int_spec. Qed.

Lemma taken_touch ct core msh src fl handler arg s h s1 :
  taken ct core msh src fl handler arg s h s1 -> h_cpu h = core /\ exists v t, touch (h_intno h) core v t s s1.
Proof.
  intros (x & _ & _ & Ht). cbv zeta in Ht. destruct (has fl ESP_INTR_FLAG_SHARED);
    [destruct Ht as (a & _ & -> & Ht)|destruct Ht as [-> Ht]]; eauto.
Qed.

(** What an allocation can come to in a state that use of the allocator
    leads to.  With an error, the flags, the shared lists and the handlers of
    all interrupts are as before; with [ESP_OK], the handle is for an interrupt
    that the search allows, on the caller's CPU; and it stops only where the
    interrupt has no descriptor yet and comes before all that have one, where
    the code writes through a null pointer. *)
Theorem alloc_outcomes ct core mr mv msh src fl reg mask handler arg s live :
  intr_reachable ct s live -> 0 <= core < 2 ->
  match esp_intr_alloc_intrstatus ct core mr mv msh src fl reg mask handler arg s with
  | Ret ((err, None), s') =>
      err <> ESP_OK /\ (forall no c, view s' no c = view s no c) /\ (forall i, slot s' i = slot s i)
  | Ret ((err, Some h), s') =>
      err = ESP_OK /\ h_cpu h = core /\ found ct s (default_level fl) core (forced src) (h_intno h)
      /\ (forall no c, no <> h_intno h \/ c <> core -> view s' no c = view s no c)
  | Stuck e => e = NullDeref /\ exists x, found ct s (default_level fl) core (forced src) x /\ in_front x core s
  end.
Proof.
  intros HI%reachable_inv Hcore.
  pose proof (alloc_spec ct core mr mv msh src fl reg mask handler arg s Hcore (inv_searching _ _ _ HI)) as Hs. unfold wpx in Hs.
  destruct (esp_intr_alloc_intrstatus _ _ _ _ _ _ _ _ _ _ _ s) as [[[err [h|]] s']|e]; cbn in Hs; [| |done].
  - destruct Hs as [-> Ht]. destruct (taken_touch _ _ _ _ _ _ _ _ _ _ Ht) as (Ec & v & t & Ht'). split_and!; [done|done| |apply Ht'].
    destruct Ht as (x & Hf & _ & Ht). cbv zeta in Ht.
    destruct (has fl ESP_INTR_FLAG_SHARED); [destruct Ht as (a & _ & -> & _)|destruct Ht as [-> _]]; done.
  - destruct Hs as [Hne [_ _ Qv Qt]]. done.
Qed.

(** ** An allocation that is undone *)

(** The search cannot tell the interrupts of two states apart. *)
Definition alike (s s' : intr_state) (y c : Z) : Prop :=
  let v := view s y c in let v' := view s' y c in
  bit_RESERVED v'.1 = bit_RESERVED v.1 /\ bit_SHARED v'.1 = bit_SHARED v.1 /\ bit_NONSHARED v'.1 = bit_NONSHARED v.1
  /\ (bit_SHARED v.1 = true -> bit_INIRAM v'.1 = bit_INIRAM v.1 /\ length v'.2 = length v.2)
  /\ (bit_SHARED v.1 = false -> slot s' (y * 2 + c) = slot s (y * 2 + c)).

Lemma alike_refl s s' y c : view s' y c = view s y c -> slot s' (y * 2 + c) = slot s (y * 2 + c) -> alike s s' y c.
Proof. intros E1 E2. unfold alike. by rewrite E1, E2. Qed.

Lemma alike_consider s s' fl c force x d p :
  searchable s -> searchable s' -> 0 <= c < 2 -> 0 <= x < 32 -> alike s s' x c ->
  consider s' fl c force x d p = consider s fl c force x d p.
Proof.
  intros Hs Hs' Hc Hx (Hr & Hsh & Hn & Hi & Ht). rewrite !consider_eq by done. unfold usable, choose, is_shared.
  unfold view, addrs, slot in *. cbv zeta in *. autorewrite with intr. cbn [fst snd] in *. rewrite Hr, Hsh, Hn, !length_fmap in *.
  destruct (bit_SHARED (flags (vec s x c))).
  - destruct (Hi eq_refl) as [-> ->]. by rewrite !orb_true_r.
  - rewrite (Ht eq_refl). done.
Qed.

Lemma alike_search ct s s' fl c force :
  searchable s -> searchable s' -> 0 <= c < 2 -> (forall y, 0 <= y < 32 -> alike s s' y c) ->
  get_free_int ct s' fl c force = get_free_int ct s fl c force.
Proof.
  intros Hs Hs' Hc Ha. unfold get_free_int. fold (any_level fl).
  assert (HL : forall L x p, 0 <= x -> x + Z.of_nat (length L) <= 32 ->
    consider_all s' (any_level fl) c force x L p = consider_all s (any_level fl) c force x L p).
  { induction L as [|d L IH]; intros x p Hx HL; cbn [consider_all]; [done|]. cbn [length] in HL.
    rewrite (alike_consider s s') by (done || lia || (apply Ha; lia)). destruct (consider _ _ _ _ _ _ _); cbn; [|done]. apply IH; lia. }
  rewrite HL; [done|lia|]. rewrite int_desc_length. lia.
Qed.

Lemma set_slot_idle no ct f : set_slot no ct Unhandled (set_slot no ct f Unhandled) = Unhandled.
Proof. unfold set_slot. destruct (int_desc ct !! Z.to_nat no) as [d|]; [destruct (_ <? _)|]; done. Qed.

Lemma iram_word_iram b f : bit_INIRAM (iram_word b f) = b.
Proof.
  unfold iram_word, bit_INIRAM. destruct b; rewrite ?Z.lor_spec, ?Z.ldiff_spec; change (Z.testbit VECDESC_FL_INIRAM 1) with true;
    [apply orb_true_r|apply andb_false_r].
Qed.

(** The interrupt of the pair itself. *)
Lemma alike_undone ct core msh src fl handler arg s h s1 :
  (forall x, vec_ok (view s x core)) -> taken ct core msh src fl handler arg s h s1 ->
  let v1 := view s1 (h_intno h) core in
  let t1 := slot s1 (h_intno h * 2 + core) in
  (bit_SHARED (view s (h_intno h) core).1 = true -> (view s (h_intno h) core).2 <> []) ->
  forall s2, view s2 (h_intno h) core = (if gone h v1 then 0 else v1.1, left_over h v1) ->
  slot s2 (h_intno h * 2 + core) = (if gone h v1 then set_slot (h_intno h) ct Unhandled t1 else t1) ->
  alike s s2 (h_intno h) core.
Proof.
  intros Hok (x & Hf & Hx & Ht) v1 t1. destruct Hf as [[-> _]|(b & d & Eb & [_ Hu] & _)]; [lia|]. rewrite <- Eb in Hu.
  apply usable_facts in Hu as (Hr & Hns & _ & Hsh & Hsl & Hir). specialize (Hok x). cbv zeta in Ht.
  rewrite (default_level_bit fl 8 ltac:(lia) : has (default_level fl) ESP_INTR_FLAG_SHARED = _) in Hsh.
  rewrite (default_level_bit fl 10 ltac:(lia) : has (default_level fl) ESP_INTR_FLAG_IRAM = _) in Hir.
  assert (Hnil : bit_SHARED (view s x core).1 = false -> (view s x core).2 = []).
  { intros E. destruct (view s x core).2 eqn:E2; [done|]. destruct (vo_list _ Hok); rewrite ?E2 in *; congruence. }
  assert (Hgone : bit_SHARED (view s x core).1 = false -> forall s2 f, view s2 x core = (0, []) ->
    slot s2 (x * 2 + core) = set_slot x ct Unhandled (set_slot x ct f Unhandled) -> alike s s2 x core).
  { intros E s2 f Ev Es. unfold alike. rewrite Ev, Hr, E, Hns, Es, set_slot_idle. cbn [fst snd]. rewrite Hsl by done. by split_and!. }
  destruct (has fl ESP_INTR_FLAG_SHARED) eqn:Efl.
  - destruct Ht as (a & _ & -> & Ht). cbn [h_intno] in *. intros Hne s2 Ev Es.
    destruct (iram_word_bits (has fl ESP_INTR_FLAG_IRAM) (Z.lor (view s x core).1 VECDESC_FL_SHARED)) as (I1 & I2 & I3).
    destruct (shared_word_bits (view s x core).1) as (S1 & S2 & S3).
    subst v1 t1. rewrite (to_view _ _ _ _ _ _ Ht), (to_slot _ _ _ _ _ _ Ht) in *.
    unfold gone, left_over in Ev, Es. cbn [fst snd h_shared drop_addr] in Ev, Es. rewrite I2, I3, S2, S3, Hns in Ev, Es.
    rewrite (bool_decide_eq_true_2 (Some a = Some a)) in Ev, Es by done. cbn [orb andb] in Ev, Es.
    destruct (bit_SHARED (view s x core).1) eqn:Esh.
    + specialize (Hne eq_refl). rewrite bool_decide_eq_false_2 in Ev, Es by done. unfold alike. rewrite Ev. cbn [fst snd].
      rewrite I1, I2, I3, S1, S2, S3, iram_word_iram, Hir, Esh by done. by split_and!.
    + rewrite Hnil, bool_decide_eq_true_2, Hsl in * by done. by eapply Hgone.
  - destruct Ht as [-> Ht]. cbn [h_intno] in *. specialize (Hsh Efl). rewrite Hnil in Ht by done. intros _ s2 Ev Es.
    subst v1 t1. rewrite (to_view _ _ _ _ _ _ Ht), (to_slot _ _ _ _ _ _ Ht) in *.
    destruct (iram_word_bits (has fl ESP_INTR_FLAG_IRAM) VECDESC_FL_NONSHARED) as (I1 & I2 & I3).
    unfold gone, left_over in Ev, Es. cbn [fst snd] in Ev, Es. rewrite I2, I3 in Ev, Es. rewrite Hsl in Es by done.
    change (bit_NONSHARED VECDESC_FL_NONSHARED) with true in Ev, Es. change (bit_SHARED VECDESC_FL_NONSHARED) with false in Ev, Es.
    cbn [orb] in Ev, Es.
    destruct (negb (handler =? 0)); [by eapply Hgone|]. apply (Hgone Hsh s2 Unhandled); [done|]. rewrite Es. 
    unfold set_slot. destruct (int_desc ct !! Z.to_nat x) as [e|]; [destruct (_ <? _)|]; done.
Qed.

(** An allocation that succeeds and is freed again on the same CPU leaves
    the search as it was: for all flags, CPUs and forced numbers it gives what
    it gave before.  The interrupt must not be one that was marked as shared
    while no handler used it, since the last free takes that mark away. *)
Theorem alloc_free_available ct core mr mv msh src fl reg mask handler arg s live h s1 :
  intr_reachable ct s live -> 0 <= core < 2 -> (forall a, msh = Some a -> heap_addr a /\ forall no c, a ∉ (view s no c).2) ->
  esp_intr_alloc_intrstatus ct core mr mv msh src fl reg mask handler arg s = Ret ((ESP_OK, Some h), s1) ->
  (bit_SHARED (view s (h_intno h) core).1 = true -> (view s (h_intno h) core).2 <> []) ->
  exists s2, esp_intr_free ct core (Some h) s1 = Ret (ESP_OK, s2)
    /\ forall fl' c' force', 0 <= c' < 2 -> get_free_int ct s2 fl' c' force' = get_free_int ct s fl' c' force'.
Proof.
  intros HI%reachable_inv Hcore Hfresh Hrun Hmark.
  destruct (alloc_run _ _ _ _ _ _ _ _ _ _ _ _ _ _ _ _ Hcore HI Hrun) as [[E _]|(h' & _ & [= <-] & Hargs & Ht)]; [done|].
  pose proof (inv_alloc _ _ _ _ _ _ _ _ _ _ _ _ _ Hcore HI Hargs Hfresh Ht) as HI1.
  destruct (live_start s1 (h :: live) h HI1 ltac:(left)) as (Ht1 & Hh & Hok & [L1 L2 _]).
  destruct (taken_touch _ _ _ _ _ _ _ _ _ _ Ht) as (Ec & v' & t' & Ht'). rewrite Ec in *.
  pose proof (intr_free_spec ct h s1 ltac:(by rewrite Ec) L2) as Hfree. rewrite Ec in Hfree. specialize (Hfree Ht1 Hok).
  assert (Hne : bit_SHARED (view s1 (h_intno h) core).1 = true -> (view s1 (h_intno h) core).2 <> []).
  { intros S1 E. unfold holds in Hh. destruct (h_shared h); [rewrite E in Hh; destruct Hh as (_ & Hh & _); by apply elem_of_nil in Hh|].
    pose proof (vo_excl _ (ii_vec _ _ HI1 (h_intno h) core) S1). congruence. }
  specialize (Hfree Hne). unfold wp in Hfree. destruct (esp_intr_free ct core (Some h) s1) as [[r s2]|] eqn:Efree; [|done].
  destruct Hfree as [-> Ht2]. exists s2. split; [done|]. intros fl' c' force' Hc'.
  pose proof (inv_free ct core s1 (h :: live) h ESP_OK s2 HI1 ltac:(left) Efree) as HI2.
  apply alike_search; [by eapply inv_searching|by eapply inv_searching|done|]. intros y Hy.
  destruct (decide (y = h_intno h /\ c' = core)) as [[-> ->]|Hyc].
  - eapply alike_undone; [intros x; apply HI|exact Ht|done|apply Ht2|apply Ht2].
  - apply alike_refl; [rewrite (to_others _ _ _ _ _ _ Ht2) by lia; apply Ht'; lia|].
    rewrite (to_slots _ _ _ _ _ _ Ht2) by lia. apply Ht'. lia.
Qed.

(** ** Examples *)

Definition run {A} (m : M intr_state A) (s : intr_state) : intr_state :=
  match m s with Ret (_, s') => s' | Stuck _ => s end.
Definition alloc_shared (a handler : Z) : M intr_state (esp_err_t * option intr_handle) :=
  esp_intr_alloc_intrstatus true 0 true true (Some a) 5 ESP_INTR_FLAG_SHARED 0 0 handler 7.

Definition ex_s1 : intr_state := run (alloc_shared 0x3ffb0000 0x400d0000) initial_state.
Definition ex_s2 : intr_state := run (alloc_shared 0x3ffb0040 0x400d0100) ex_s1.
Definition ex_h1 : intr_handle := IntrHandle 0 2 (Some 0x3ffb0000).
Definition ex_h2 : intr_handle := IntrHandle 0 2 (Some 0x3ffb0040).

Lemma ex_run1 : alloc_shared 0x3ffb0000 0x400d0000 initial_state = Ret ((ESP_OK, Some ex_h1), ex_s1).
Proof. vm_compute. reflexivity. Qed.
Lemma ex_run2 : alloc_shared 0x3ffb0040 0x400d0100 ex_s1 = Ret ((ESP_OK, Some ex_h2), ex_s2).
Proof. vm_compute. reflexivity. Qed.

Lemma ex_view1 no c : (view ex_s1 no c).2 = if at_key no c (VectorDesc 0 0 2 0 []) then [0x3ffb0000] else [].
Proof.
  assert (E : vector_desc_head ex_s1 = [VectorDesc 4 0 2 0 [SharedVec 0x3ffb0000 false 5 0 0 0x400d0000 7]]) by (vm_compute; reflexivity).
  unfold view, vec, find_desc_for_int. rewrite E. cbn [find_desc]. unfold at_key. cbn [cpu intno]. by destruct (_ && _).
Qed.

Lemma ex_reach1 : intr_reachable true ex_s1 [ex_h1].
Proof.
  eapply rtc_once. eapply (StepAlloc true 0 true true (Some 0x3ffb0000) 5 _ _ _ _ _ true _ (Some ex_h1) _ []); [lia| |exact ex_run1].
  intros a [= <-]. split; [done|]. intros no c. apply not_elem_of_nil.
Qed.

Lemma ex_reach2 : intr_reachable true ex_s2 [ex_h2; ex_h1].
Proof.
  eapply rtc_r; [exact ex_reach1|].
  eapply (StepAlloc true 0 true true (Some 0x3ffb0040) 5 _ _ _ _ _ true _ (Some ex_h2) _ [ex_h1]); [lia| |exact ex_run2].
  intros a [= <-]. split; [done|]. intros no c. rewrite ex_view1. destruct (at_key _ _ _); [|apply not_elem_of_nil].
  by intros E%list_elem_of_singleton.
Qed.

Lemma intr_alloc_exclusive_witness :
  exists a b d, h_shared ex_h2 = Some a /\ h_shared ex_h1 = Some b /\ a <> b
    /\ find_desc_for_int ex_s2 2 0 = Some d
    /\ a ∈ sv_addr <$> shared_vec_info d /\ b ∈ sv_addr <$> shared_vec_info d
    /\ rd (xt_interrupt_table ex_s2) 4 = Ret (SharedIsr 0 2).
Proof.
  apply (proj1 (intr_alloc_exclusive true ex_s2 [ex_h2; ex_h1] ex_reach2) 0%nat 1%nat ex_h2 ex_h1); [done|done|done|done|done].
Defined.

Lemma get_free_int_best_witness :
  exists r, get_free_int true ex_s2 ESP_INTR_FLAG_LEVEL3 0 (-1) = Ret r
    /\ found true ex_s2 (any_level ESP_INTR_FLAG_LEVEL3) 0 (-1) r.
Proof. apply (get_free_int_best true ex_s2 [ex_h2; ex_h1]); [exact ex_reach2|lia]. Defined.

Lemma alloc_free_available_witness :
  exists s2, esp_intr_free true 0 (Some ex_h2) ex_s2 = Ret (ESP_OK, s2)
    /\ forall fl' c' force', 0 <= c' < 2 -> get_free_int true s2 fl' c' force' = get_free_int true ex_s1 fl' c' force'.
Proof.
  apply (alloc_free_available true 0 true true (Some 0x3ffb0040) 5 ESP_INTR_FLAG_SHARED 0 0 0x400d0100 7 ex_s1 [ex_h1] ex_h2 ex_s2).
  - exact ex_reach1.
  - lia.
  - intros a [= <-]. split; [done|]. intros no c. rewrite ex_view1. destruct (at_key _ _ _); [|apply not_elem_of_nil].
    by intros E%list_elem_of_singleton.
  - exact ex_run2.
  - intros _. by rewrite ex_view1.
Defined.

Lemma alloc_outcomes_witness :
  match esp_intr_alloc_intrstatus true 0 true true None 6 ESP_INTR_FLAG_LEVEL3 0 0 0x400d0200 0 ex_s2 with
  | Ret ((err, None), s') =>
      err <> ESP_OK /\ (forall no c, view s' no c = view ex_s2 no c) /\ (forall i, slot s' i = slot ex_s2 i)
  | Ret ((err, Some h), s') =>
      err = ESP_OK /\ h_cpu h = 0 /\ found true ex_s2 (default_level ESP_INTR_FLAG_LEVEL3) 0 (forced 6) (h_intno h)
      /\ (forall no c, no <> h_intno h \/ c <> 0 -> view s' no c = view ex_s2 no c)
  | Stuck e => e = NullDeref /\ exists x, found true ex_s2 (default_level ESP_INTR_FLAG_LEVEL3) 0 (forced 6) x /\ in_front x 0 ex_s2
  end.
Proof. exact (alloc_outcomes true 0 true true None 6 ESP_INTR_FLAG_LEVEL3 0 0 0x400d0200 0 ex_s2 [ex_h2; ex_h1] ex_reach2 ltac:(lia)). Defined.

(** After an interrupt of level 3 (number 23) was allocated, an allocation
    that gets number 2 puts its descriptor in front, through [NULL]. *)
Example insert_in_front_faults :
  esp_intr_alloc true 0 true true None 6 0 0x400d0200 0
    (run (esp_intr_alloc true 0 true true None 5 ESP_INTR_FLAG_LEVEL3 0x400d0000 0) initial_state) = Stuck NullDeref.
Proof. vm_compute. reflexivity. Qed.

(** An enable from the other CPU of an internal source keeps the lock. *)
Example enable_keeps_lock :
  spinlock (run (esp_intr_enable 1 (Some (IntrHandle 0 7 None)))
    (run (esp_intr_alloc true 0 true true None (-4) 0 0x400d0000 0) initial_state)) = 1.
Proof. vm_compute. reflexivity. Qed.
