(* ===== verification/Ulp.v ===== *)
(** * Programs of the ULP coprocessor (components/ulp)

    Programs are arrays of 32-bit instructions, written with the encoding
    macros of ulp.h.  Branches to labels are written as tokens that are not
    instructions: [ulp_process_macros_and_load] (ulp_macro.c) removes the
    tokens, fixes the branches and stores the program in RTC slow memory.
    [ulp_load_binary] (ulp.c) stores a program that was assembled elsewhere.

    RTC slow memory is a list of 8192 bytes.  [qsort] of the C library is an
    argument with the laws of the C standard: it permutes its array into an
    order that the comparison function accepts. *)

From stdpp Require Import sorting.
From S2P Require Import Prelude.

#[local] Open Scope Z_scope.

(** ** Bit fields *)

(** A word from its fields, each a width and a value, lowest first. *)
Fixpoint pack (fs : list (Z * Z)) : Z :=
  match fs with
  | [] => 0
  | (w, v) :: fs => wrap w v + 2 ^ w * pack fs
  end.

Definition field (lo w x : Z) : Z := wrap w (Z.shiftr x lo).
Definition set_field (lo w v x : Z) : Z := x + (wrap w v - field lo w x) * 2 ^ lo.

(** ** Instructions (ulp.h) *)

Definition OPCODE_WR_REG : Z := 1.
Definition OPCODE_RD_REG : Z := 2.
Definition RD_REG_PERIPH_RTC_CNTL : Z := 0.
Definition RD_REG_PERIPH_RTC_IO : Z := 1.
Definition RD_REG_PERIPH_SENS : Z := 2.
Definition OPCODE_DELAY : Z := 4.
Definition OPCODE_ADC : Z := 5.
Definition OPCODE_ST : Z := 6.
Definition SUB_OPCODE_ST : Z := 4.
Definition OPCODE_ALU : Z := 7.
Definition SUB_OPCODE_ALU_REG : Z := 0.
Definition SUB_OPCODE_ALU_IMM : Z := 1.
Definition ALU_SEL_ADD : Z := 0.
Definition ALU_SEL_SUB : Z := 1.
Definition ALU_SEL_AND : Z := 2.
Definition ALU_SEL_OR : Z := 3.
Definition ALU_SEL_MOV : Z := 4.
Definition ALU_SEL_LSH : Z := 5.
Definition ALU_SEL_RSH : Z := 6.
Definition OPCODE_BRANCH : Z := 8.
Definition SUB_OPCODE_BX : Z := 0.
Definition BX_JUMP_TYPE_DIRECT : Z := 0.
Definition BX_JUMP_TYPE_ZERO : Z := 1.
Definition BX_JUMP_TYPE_OVF : Z := 2.
Definition SUB_OPCODE_B : Z := 1.
Definition B_CMP_L : Z := 0.
Definition B_CMP_GE : Z := 1.
Definition OPCODE_END : Z := 9.
Definition SUB_OPCODE_END : Z := 0.
Definition SUB_OPCODE_SLEEP : Z := 1.
Definition OPCODE_TSENS : Z := 10.
Definition OPCODE_HALT : Z := 11.
Definition OPCODE_LD : Z := 13.
Definition OPCODE_MACRO : Z := 15.
Definition SUB_OPCODE_MACRO_LABEL : Z := 0.
Definition SUB_OPCODE_MACRO_BRANCH : Z := 1.

Definition ESP_ERR_ULP_BASE : Z := 0x1200.
Definition ESP_ERR_ULP_SIZE_TOO_BIG : esp_err_t := ESP_ERR_ULP_BASE + 1.
Definition ESP_ERR_ULP_INVALID_LOAD_ADDR : esp_err_t := ESP_ERR_ULP_BASE + 2.
Definition ESP_ERR_ULP_DUPLICATE_LABEL : esp_err_t := ESP_ERR_ULP_BASE + 3.
Definition ESP_ERR_ULP_UNDEFINED_LABEL : esp_err_t := ESP_ERR_ULP_BASE + 4.
Definition ESP_ERR_ULP_BRANCH_OUT_OF_RANGE : esp_err_t := ESP_ERR_ULP_BASE + 5.

(** The members of the union [ulp_insn_t]; arguments in the order of the
    fields. *)
Definition delay (cycles unused opcode : Z) : Z := pack [(16, cycles); (12, unused); (4, opcode)].
Definition st (dreg sreg unused1 offset unused2 sub_opcode opcode : Z) : Z :=
  pack [(2, dreg); (2, sreg); (6, unused1); (11, offset); (4, unused2); (3, sub_opcode); (4, opcode)].
Definition ld (dreg sreg unused1 offset unused2 opcode : Z) : Z :=
  pack [(2, dreg); (2, sreg); (6, unused1); (11, offset); (7, unused2); (4, opcode)].
Definition halt (unused opcode : Z) : Z := pack [(28, unused); (4, opcode)].
Definition bx (dreg addr unused reg type sub_opcode opcode : Z) : Z :=
  pack [(2, dreg); (11, addr); (8, unused); (1, reg); (3, type); (3, sub_opcode); (4, opcode)].
Definition b (imm cmp offset sign sub_opcode opcode : Z) : Z :=
  pack [(16, imm); (1, cmp); (7, offset); (1, sign); (3, sub_opcode); (4, opcode)].
Definition alu_reg (dreg sreg treg unused sel sub_opcode opcode : Z) : Z :=
  pack [(2, dreg); (2, sreg); (2, treg); (15, unused); (4, sel); (3, sub_opcode); (4, opcode)].
Definition alu_imm (dreg sreg imm unused sel sub_opcode opcode : Z) : Z :=
  pack [(2, dreg); (2, sreg); (16, imm); (1, unused); (4, sel); (3, sub_opcode); (4, opcode)].
Definition wr_reg (addr periph_sel data low high opcode : Z) : Z :=
  pack [(8, addr); (2, periph_sel); (8, data); (5, low); (5, high); (4, opcode)].
Definition rd_reg (addr periph_sel unused low high opcode : Z) : Z :=
  pack [(8, addr); (2, periph_sel); (8, unused); (5, low); (5, high); (4, opcode)].
Definition adc (dreg mux sar_sel unused1 cycles unused2 opcode : Z) : Z :=
  pack [(2, dreg); (4, mux); (1, sar_sel); (1, unused1); (16, cycles); (4, unused2); (4, opcode)].
Definition tsens (dreg wait_delay reserved opcode : Z) : Z :=
  pack [(2, dreg); (14, wait_delay); (12, reserved); (4, opcode)].
Definition end_ (wakeup unused sub_opcode opcode : Z) : Z :=
  pack [(1, wakeup); (24, unused); (3, sub_opcode); (4, opcode)].
Definition sleep (cycle_sel unused sub_opcode opcode : Z) : Z :=
  pack [(4, cycle_sel); (21, unused); (3, sub_opcode); (4, opcode)].
Definition macro (label unused sub_opcode opcode : Z) : Z :=
  pack [(16, label); (8, unused); (4, sub_opcode); (4, opcode)].

(** The fields that the loader looks at and changes. *)
Definition macro_opcode (x : Z) : Z := field 28 4 x.
Definition macro_sub_opcode (x : Z) : Z := field 24 4 x.
Definition macro_label (x : Z) : Z := field 0 16 x.
Definition b_opcode (x : Z) : Z := field 28 4 x.
Definition b_sub_opcode (x : Z) : Z := field 25 3 x.
Definition bx_reg (x : Z) : Z := field 21 1 x.
Definition set_b_offset (v x : Z) : Z := set_field 17 7 v x.
Definition set_b_sign (v x : Z) : Z := set_field 24 1 v x.
Definition set_bx_addr (v x : Z) : Z := set_field 2 11 v x.

Definition DR_REG_RTCCNTL_BASE : Z := 0x3ff48000.
Definition DR_REG_RTCIO_BASE : Z := 0x3ff48400.
Definition DR_REG_SENS_BASE : Z := 0x3ff48800.
Definition DR_REG_RTCMEM0_BASE : Z := 0x3ff61000.

Definition SOC_REG_TO_ULP_PERIPH_SEL (reg : Z) : outcome Z :=
  if reg <? DR_REG_RTCCNTL_BASE then Stuck AssertFailed
  else if reg <? DR_REG_RTCIO_BASE then Ret RD_REG_PERIPH_RTC_CNTL
  else if reg <? DR_REG_SENS_BASE then Ret RD_REG_PERIPH_RTC_IO
  else if reg <? DR_REG_RTCMEM0_BASE then Ret RD_REG_PERIPH_SENS
  else Stuck AssertFailed.

Definition I_DELAY (cycles_ : Z) : Z := delay cycles_ 0 OPCODE_DELAY.
Definition I_HALT : Z := halt 0 OPCODE_HALT.
Definition I_WR_REG (reg low_bit high_bit val : Z) : outcome Z :=
  sel ← SOC_REG_TO_ULP_PERIPH_SEL reg;
  Ret (wr_reg (Z.land reg 0xff / 4) sel val low_bit high_bit OPCODE_WR_REG).
Definition I_RD_REG (reg low_bit high_bit : Z) : outcome Z :=
  sel ← SOC_REG_TO_ULP_PERIPH_SEL reg;
  Ret (rd_reg (Z.land reg 0xff / 4) sel 0 low_bit high_bit OPCODE_RD_REG).
Definition I_WR_REG_BIT (reg shift val : Z) : outcome Z := I_WR_REG reg shift shift val.
Definition I_WAKE : Z := end_ 1 0 SUB_OPCODE_END OPCODE_END.

Definition RTC_CNTL_OPTIONS0_REG : Z := DR_REG_RTCCNTL_BASE + 0x0.
Definition RTC_CNTL_STATE0_REG : Z := DR_REG_RTCCNTL_BASE + 0x18.
Definition RTC_CNTL_ULP_CP_SLP_TIMER_EN_S : Z := 24.
Definition I_END : outcome Z := I_WR_REG_BIT RTC_CNTL_STATE0_REG RTC_CNTL_ULP_CP_SLP_TIMER_EN_S 0.

Definition I_SLEEP_CYCLE_SEL (timer_idx : Z) : Z := sleep timer_idx 0 SUB_OPCODE_SLEEP OPCODE_END.
Definition I_TSENS (reg_dest delay : Z) : Z := tsens reg_dest delay 0 OPCODE_TSENS.
Definition I_ADC (reg_dest adc_idx pad_idx : Z) : Z := adc reg_dest (pad_idx + 1) adc_idx 0 0 0 OPCODE_ADC.
Definition I_ST (reg_val reg_addr offset_ : Z) : Z := st reg_val reg_addr 0 offset_ 0 SUB_OPCODE_ST OPCODE_ST.
Definition I_LD (reg_dest reg_addr offset_ : Z) : Z := ld reg_dest reg_addr 0 offset_ 0 OPCODE_LD.

Definition I_BL (pc_offset imm_value : Z) : Z :=
  b imm_value B_CMP_L (Z.abs pc_offset) (if 0 <=? pc_offset then 0 else 1) SUB_OPCODE_B OPCODE_BRANCH.
Definition I_BGE (pc_offset imm_value : Z) : Z :=
  b imm_value B_CMP_GE (Z.abs pc_offset) (if 0 <=? pc_offset then 0 else 1) SUB_OPCODE_B OPCODE_BRANCH.
Definition I_BXR (reg_pc : Z) : Z := bx reg_pc 0 0 1 BX_JUMP_TYPE_DIRECT SUB_OPCODE_BX OPCODE_BRANCH.
Definition I_BXI (imm_pc : Z) : Z := bx 0 imm_pc 0 0 BX_JUMP_TYPE_DIRECT SUB_OPCODE_BX OPCODE_BRANCH.
Definition I_BXZR (reg_pc : Z) : Z := bx reg_pc 0 0 1 BX_JUMP_TYPE_ZERO SUB_OPCODE_BX OPCODE_BRANCH.
Definition I_BXZI (imm_pc : Z) : Z := bx 0 imm_pc 0 0 BX_JUMP_TYPE_ZERO SUB_OPCODE_BX OPCODE_BRANCH.
Definition I_BXFR (reg_pc : Z) : Z := bx reg_pc 0 0 1 BX_JUMP_TYPE_OVF SUB_OPCODE_BX OPCODE_BRANCH.
Definition I_BXFI (imm_pc : Z) : Z := bx 0 imm_pc 0 0 BX_JUMP_TYPE_OVF SUB_OPCODE_BX OPCODE_BRANCH.

Definition I_ADDR (reg_dest reg_src1 reg_src2 : Z) : Z := alu_reg reg_dest reg_src1 reg_src2 0 ALU_SEL_ADD SUB_OPCODE_ALU_REG OPCODE_ALU.
Definition I_SUBR (reg_dest reg_src1 reg_src2 : Z) : Z := alu_reg reg_dest reg_src1 reg_src2 0 ALU_SEL_SUB SUB_OPCODE_ALU_REG OPCODE_ALU.
Definition I_ANDR (reg_dest reg_src1 reg_src2 : Z) : Z := alu_reg reg_dest reg_src1 reg_src2 0 ALU_SEL_AND SUB_OPCODE_ALU_REG OPCODE_ALU.
Definition I_ORR (reg_dest reg_src1 reg_src2 : Z) : Z := alu_reg reg_dest reg_src1 reg_src2 0 ALU_SEL_OR SUB_OPCODE_ALU_REG OPCODE_ALU.
Definition I_MOVR (reg_dest reg_src : Z) : Z := alu_reg reg_dest reg_src 0 0 ALU_SEL_MOV SUB_OPCODE_ALU_REG OPCODE_ALU.
Definition I_LSHR (reg_dest reg_src reg_shift : Z) : Z := alu_reg reg_dest reg_src reg_shift 0 ALU_SEL_LSH SUB_OPCODE_ALU_REG OPCODE_ALU.
Definition I_RSHR (reg_dest reg_src reg_shift : Z) : Z := alu_reg reg_dest reg_src reg_shift 0 ALU_SEL_RSH SUB_OPCODE_ALU_REG OPCODE_ALU.
Definition I_ADDI (reg_dest reg_src imm_ : Z) : Z := alu_imm reg_dest reg_src imm_ 0 ALU_SEL_ADD SUB_OPCODE_ALU_IMM OPCODE_ALU.
Definition I_SUBI (reg_dest reg_src imm_ : Z) : Z := alu_imm reg_dest reg_src imm_ 0 ALU_SEL_SUB SUB_OPCODE_ALU_IMM OPCODE_ALU.
Definition I_ANDI (reg_dest reg_src imm_ : Z) : Z := alu_imm reg_dest reg_src imm_ 0 ALU_SEL_AND SUB_OPCODE_ALU_IMM OPCODE_ALU.
Definition I_ORI (reg_dest reg_src imm_ : Z) : Z := alu_imm reg_dest reg_src imm_ 0 ALU_SEL_OR SUB_OPCODE_ALU_IMM OPCODE_ALU.
Definition I_MOVI (reg_dest imm_ : Z) : Z := alu_imm reg_dest 0 imm_ 0 ALU_SEL_MOV SUB_OPCODE_ALU_IMM OPCODE_ALU.
Definition I_LSHI (reg_dest reg_src imm_ : Z) : Z := alu_imm reg_dest reg_src imm_ 0 ALU_SEL_LSH SUB_OPCODE_ALU_IMM OPCODE_ALU.
Definition I_RSHI (reg_dest reg_src imm_ : Z) : Z := alu_imm reg_dest reg_src imm_ 0 ALU_SEL_RSH SUB_OPCODE_ALU_IMM OPCODE_ALU.

Definition M_LABEL (label_num : Z) : Z := macro label_num 0 SUB_OPCODE_MACRO_LABEL OPCODE_MACRO.
Definition M_BRANCH (label_num : Z) : Z := macro label_num 0 SUB_OPCODE_MACRO_BRANCH OPCODE_MACRO.
Definition M_BL (label_num imm_value : Z) : list Z := [M_BRANCH label_num; I_BL 0 imm_value].
Definition M_BGE (label_num imm_value : Z) : list Z := [M_BRANCH label_num; I_BGE 0 imm_value].
Definition M_BX (label_num : Z) : list Z := [M_BRANCH label_num; I_BXI 0].
Definition M_BXZ (label_num : Z) : list Z := [M_BRANCH label_num; I_BXZI 0].
Definition M_BXF (label_num : Z) : list Z := [M_BRANCH label_num; I_BXFI 0].

(** ** RTC slow memory *)

Definition RTC_SLOW_MEM_SIZE : Z := 8192.
Definition rtc_mem : Type := list Z.

Definition word (m : rtc_mem) (i : Z) : Z := le_decode (slice m (4 * i) 4).
Definition words_bytes (ws : list Z) : list Z := concat (le_encode 4 <$> ws).

Definition rd_word (i : Z) : M rtc_mem Z :=
  m ← get;
  if (0 <=? i) && (4 * i + 4 <=? Z.of_nat (length m)) then mret (word m i) else stuck OutOfBounds.
Definition wr_words (i : Z) (ws : list Z) : M rtc_mem unit :=
  m ← get;
  m ← lift (blit m (4 * i) (words_bytes ws));
  put m.

(** ** ulp_macro.c *)

Record reloc_info_t : Type := RelocInfo { label : Z; addr : Z; type : Z }.
Definition RELOC_TYPE_LABEL : Z := 0.
Definition RELOC_TYPE_BRANCH : Z := 1.
Definition RELOC_INFO_LABEL (label_num insn_addr : Z) : reloc_info_t :=
  RelocInfo (wrap 16 label_num) (wrap 11 insn_addr) RELOC_TYPE_LABEL.
Definition RELOC_INFO_BRANCH (label_num insn_addr : Z) : reloc_info_t :=
  RelocInfo (wrap 16 label_num) (wrap 11 insn_addr) RELOC_TYPE_BRANCH.

Definition do_single_reloc (load_addr : Z) (label_info branch_info : reloc_info_t) : M rtc_mem esp_err_t :=
  let insn_offset := u32 (addr branch_info - load_addr) in
  let at_insn := load_addr + insn_offset in
  insn ← rd_word at_insn;
  check (b_opcode insn =? OPCODE_BRANCH);;
  if b_sub_opcode insn =? SUB_OPCODE_B then
    let offset := addr label_info - addr branch_info in
    let abs_offset := Z.abs offset in
    let sign := if 0 <=? offset then 0 else 1 in
    if 127 <? abs_offset then mret ESP_ERR_ULP_BRANCH_OUT_OF_RANGE
    else wr_words at_insn [set_b_sign sign (set_b_offset abs_offset insn)];; mret ESP_OK
  else if b_sub_opcode insn =? SUB_OPCODE_BX then
    check (bx_reg insn =? 0);;
    wr_words at_insn [set_bx_addr (addr label_info) insn];;
    mret ESP_OK
  else stuck AssertFailed.

(** Step 1. *)
Definition macro_count (program : list Z) : Z :=
  Z.of_nat (length (filter (fun r_insn => macro_opcode r_insn = OPCODE_MACRO) program)).

(** Step 2: [write_ptr] is at word [cur_insn_addr] of the memory. *)
Fixpoint record_macros (cur_insn_addr : Z) (program : list Z) : M rtc_mem (list reloc_info_t) :=
  match program with
  | [] => mret []
  | r_insn :: rest =>
      if macro_opcode r_insn =? OPCODE_MACRO then
        reloc ←
          (if macro_sub_opcode r_insn =? SUB_OPCODE_MACRO_LABEL then
             mret (RELOC_INFO_LABEL (macro_label r_insn) cur_insn_addr)
           else if macro_sub_opcode r_insn =? SUB_OPCODE_MACRO_BRANCH then
             mret (RELOC_INFO_BRANCH (macro_label r_insn) cur_insn_addr)
           else stuck AssertFailed);
        check (negb (bool_decide (rest = [])));;
        relocs ← record_macros cur_insn_addr rest;
        mret (reloc :: relocs)
      else
        wr_words cur_insn_addr [r_insn];;
        record_macros (u32 (cur_insn_addr + 1)) rest
  end.

(** Step 3. *)
Definition reloc_sort_func (lhs rhs : reloc_info_t) : Z :=
  if label lhs <? label rhs then -1
  else if label rhs <? label lhs then 1
  else if type lhs <? type rhs then -1
  else if type rhs <? type lhs then 1
  else 0.

Class Qsort : Type := qsort : list reloc_info_t -> list reloc_info_t.
Class QsortLaws (Q : Qsort) : Prop := {
  qsort_permutes : forall l, qsort l ≡ₚ l;
  qsort_sorts : forall l, StronglySorted (fun x y => reloc_sort_func x y <= 0) (qsort l)
}.

(** Step 4.  [label_info] is the label of the outer loop, [None] before its
    first round; the inner loop ends a round at the next label. *)
Fixpoint fix_insns (load_addr : Z) (label_info : option reloc_info_t) (relocs : list reloc_info_t) : M rtc_mem esp_err_t :=
  match relocs with
  | [] => mret ESP_OK
  | cur_reloc :: rest =>
      match label_info with
      | None => check (type cur_reloc =? RELOC_TYPE_LABEL);; fix_insns load_addr (Some cur_reloc) rest
      | Some info =>
          if type cur_reloc =? RELOC_TYPE_LABEL then
            if label cur_reloc =? label info then mret ESP_ERR_ULP_DUPLICATE_LABEL
            else fix_insns load_addr (Some cur_reloc) rest
          else if negb (label cur_reloc =? label info) then mret ESP_ERR_ULP_UNDEFINED_LABEL
          else
            rc ← do_single_reloc load_addr info cur_reloc;
            if negb (rc =? ESP_OK) then mret rc else fix_insns load_addr label_info rest
      end
  end.

Section Load.
Context `{Q : !Qsort}.
(** [CONFIG_ULP_COPROC_RESERVE_MEM] *)
Variable reserve_mem : Z.

(** Gives the error code and the new [*psize]. *)
Definition ulp_process_macros_and_load (malloc_ok : bool) (load_addr : Z) (program : list Z) : M rtc_mem (esp_err_t * Z) :=
  let psize := Z.of_nat (length program) in
  let count := macro_count program in
  let real_program_size := psize - count in
  let ulp_mem_end := reserve_mem / 4 in
  if ulp_mem_end <? load_addr then mret (ESP_ERR_ULP_INVALID_LOAD_ADDR, psize)
  else if ulp_mem_end <? u32 (real_program_size + load_addr) then mret (ESP_ERR_ULP_SIZE_TOO_BIG, psize)
  else if count =? 0 then wr_words load_addr program;; mret (ESP_OK, psize)
  else if negb malloc_ok then mret (ESP_ERR_NO_MEM, psize)
  else
    reloc_info ← record_macros load_addr program;
    rc ← fix_insns load_addr None (qsort reloc_info);
    if negb (rc =? ESP_OK) then mret (rc, psize) else mret (ESP_OK, real_program_size).

(** ** ulp.c *)

Record ulp_binary_header_t : Type := Header { magic : Z; text_offset : Z; text_size : Z; data_size : Z; bss_size : Z }.
Definition ULP_BINARY_MAGIC_ESP32 : Z := 0x00706c75.

Definition decode_header (l : list Z) : ulp_binary_header_t :=
  Header (le_decode (slice l 0 4)) (le_decode (slice l 4 2)) (le_decode (slice l 6 2))
    (le_decode (slice l 8 2)) (le_decode (slice l 10 2)).

(** [memcpy] of [n] bytes out of a buffer. *)
Definition bytes_at (l : list Z) (off n : Z) : outcome (list Z) :=
  if (0 <=? off) && (0 <=? n) && (off + n <=? Z.of_nat (length l)) then Ret (slice l off n) else Stuck OutOfBounds.

Definition wr_bytes (off : Z) (data : list Z) : M rtc_mem unit :=
  m ← get;
  m ← lift (blit m off data);
  put m.

Definition ulp_load_binary (load_addr : Z) (program_binary : list Z) (program_size : Z) : M rtc_mem esp_err_t :=
  let program_size_bytes := u32 (program_size * 4) in
  let load_addr_bytes := u32 (load_addr * 4) in
  if program_size_bytes <? 12 then mret ESP_ERR_INVALID_SIZE
  else if reserve_mem <? load_addr_bytes then mret ESP_ERR_INVALID_ARG
  else if reserve_mem <? u32 (load_addr_bytes + program_size_bytes) then mret ESP_ERR_INVALID_SIZE
  else
    hdr ← lift (bytes_at program_binary 0 12);
    let header := decode_header hdr in
    if negb (magic header =? ULP_BINARY_MAGIC_ESP32) then mret ESP_ERR_NOT_SUPPORTED
    else
      let total_size := text_offset header + text_size header + data_size header in
      if negb (total_size =? program_size_bytes) then mret ESP_ERR_INVALID_SIZE
      else
        let text_data_size := text_size header + data_size header in
        src ← lift (bytes_at program_binary (text_offset header) text_data_size);
        wr_bytes load_addr_bytes src;;
        wr_bytes (load_addr_bytes + text_data_size) (replicate (Z.to_nat (bss_size header)) 0);;
        mret ESP_OK.
End Load.

(** Peripheral registers, by address. *)
Definition change_reg (reg : Z) (f : Z -> Z) : M (gmap Z Z) unit := modify (fun r => <[reg := f (default 0 (r !! reg))]> r).
Definition CLEAR_PERI_REG_MASK (reg mask : Z) : M (gmap Z Z) unit := change_reg reg (fun v => Z.ldiff v mask).
Definition SET_PERI_REG_MASK (reg mask : Z) : M (gmap Z Z) unit := change_reg reg (fun v => Z.lor v mask).
Definition SET_PERI_REG_BITS (reg bit_map value shift : Z) : M (gmap Z Z) unit :=
  change_reg reg (fun v => Z.lor (Z.ldiff v (Z.shiftl bit_map shift)) (Z.shiftl (Z.land value bit_map) shift)).

Definition SENS_SAR_START_FORCE_REG : Z := DR_REG_SENS_BASE + 0x002c.
Definition SENS_PC_INIT_V : Z := 0x7FF.
Definition SENS_PC_INIT_S : Z := 11.
Definition SENS_ULP_CP_FORCE_START_TOP_M : Z := Z.shiftl 1 8.
Definition RTC_CNTL_ULP_CP_SLP_TIMER_EN : Z := Z.shiftl 1 24.
Definition RTC_CNTL_BIAS_I2C_FOLW_8M : Z := Z.shiftl 1 17.
Definition RTC_CNTL_BIAS_CORE_FOLW_8M : Z := Z.shiftl 1 20.
Definition RTC_CNTL_BIAS_SLEEP_FOLW_8M : Z := Z.shiftl 1 14.

(** The delay of 10 microseconds has no effect on the registers. *)
Definition ulp_run (entry_point : Z) : M (gmap Z Z) esp_err_t :=
  CLEAR_PERI_REG_MASK RTC_CNTL_STATE0_REG RTC_CNTL_ULP_CP_SLP_TIMER_EN;;
  SET_PERI_REG_BITS SENS_SAR_START_FORCE_REG SENS_PC_INIT_V entry_point SENS_PC_INIT_S;;
  CLEAR_PERI_REG_MASK SENS_SAR_START_FORCE_REG SENS_ULP_CP_FORCE_START_TOP_M;;
  SET_PERI_REG_MASK RTC_CNTL_OPTIONS0_REG RTC_CNTL_BIAS_I2C_FOLW_8M;;
  SET_PERI_REG_MASK RTC_CNTL_OPTIONS0_REG RTC_CNTL_BIAS_CORE_FOLW_8M;;
  SET_PERI_REG_MASK RTC_CNTL_OPTIONS0_REG RTC_CNTL_BIAS_SLEEP_FOLW_8M;;
  SET_PERI_REG_MASK RTC_CNTL_STATE0_REG RTC_CNTL_ULP_CP_SLP_TIMER_EN;;
  mret ESP_OK.

(** ** Bit fields read and written *)

Fixpoint width (fs : list (Z * Z)) : Z := match fs with [] => 0 | (w, _) :: fs => w + width fs end.
Definition widths_ok (fs : list (Z * Z)) : Prop := Forall (fun f => 0 <= f.1) fs.

Lemma width_nonneg fs : widths_ok fs -> 0 <= width fs.
Proof. induction 1 as [|[w v] fs Hf _ IH]; cbn in *; lia. Qed.

Lemma pack_range fs : widths_ok fs -> 0 <= pack fs < 2 ^ width fs.
Proof.
  induction 1 as [|[w v] fs Hf Hfs IH]; cbn -[Z.pow] in *; [done|]. pose proof (width_nonneg fs Hfs).
  rewrite Z.pow_add_r by lia. pose proof (wrap_range w v Hf).
  generalize dependent (wrap w v). generalize dependent (pack fs). generalize (2 ^ width fs) (2 ^ w). intros B A p Hp v'. nia.
Qed.

Lemma pack_app l1 l2 : widths_ok l1 -> pack (l1 ++ l2) = pack l1 + 2 ^ width l1 * pack l2.
Proof.
  induction 1 as [|[w v] fs Hf Hfs IH]; cbn -[Z.pow] in *; [lia|]. pose proof (width_nonneg fs Hfs).
  rewrite Z.pow_add_r, IH by lia. ring.
Qed.

Lemma field_pack l1 w v l2 :
  widths_ok l1 -> 0 <= w -> field (width l1) w (pack (l1 ++ (w, v) :: l2)) = wrap w v.
Proof.
  intros H1 Hw. unfold field. rewrite Z.shiftr_div_pow2 by (by apply width_nonneg). rewrite pack_app by done. cbn [pack].
  pose proof (pack_range l1 H1). rewrite Z.mul_comm, Z.div_add, Z.div_small, Z.add_0_l by lia. unfold wrap.
  rewrite Z.mul_comm, Z.mod_add by lia. apply Z.mod_mod. lia.
Qed.

Lemma set_field_pack l1 w v v' l2 :
  widths_ok l1 -> 0 <= w -> set_field (width l1) w v' (pack (l1 ++ (w, v) :: l2)) = pack (l1 ++ (w, v') :: l2).
Proof. intros H1 Hw. unfold set_field. rewrite field_pack by done. rewrite !pack_app by done. cbn [pack]. ring. Qed.

Lemma macro_fields n u sub op :
  macro_label (macro n u sub op) = wrap 16 n /\ macro_sub_opcode (macro n u sub op) = wrap 4 sub
  /\ macro_opcode (macro n u sub op) = wrap 4 op.
Proof.
  unfold macro_label, macro_sub_opcode, macro_opcode, macro. split_and!.
  - apply (field_pack [] 16); [constructor|lia].
  - apply (field_pack [(16, n); (8, u)] 4); [repeat constructor; cbn; lia|lia].
  - apply (field_pack [(16, n); (8, u); (4, sub)] 4); [repeat constructor; cbn; lia|lia].
Qed.

Lemma b_fields imm cmp off sign sub op :
  b_opcode (b imm cmp off sign sub op) = wrap 4 op /\ b_sub_opcode (b imm cmp off sign sub op) = wrap 3 sub.
Proof.
  unfold b_opcode, b_sub_opcode, b. split.
  - apply (field_pack [(16, imm); (1, cmp); (7, off); (1, sign); (3, sub)] 4); [repeat constructor; cbn; lia|lia].
  - apply (field_pack [(16, imm); (1, cmp); (7, off); (1, sign)] 3); [repeat constructor; cbn; lia|lia].
Qed.

Lemma bx_fields dreg a u reg ty sub op :
  let x := bx dreg a u reg ty sub op in
  b_opcode x = wrap 4 op /\ b_sub_opcode x = wrap 3 sub /\ bx_reg x = wrap 1 reg.
Proof.
  unfold b_opcode, b_sub_opcode, bx_reg, bx. split_and!.
  - apply (field_pack [(2, dreg); (11, a); (8, u); (1, reg); (3, ty); (3, sub)] 4); [repeat constructor; cbn; lia|lia].
  - apply (field_pack [(2, dreg); (11, a); (8, u); (1, reg); (3, ty)] 3); [repeat constructor; cbn; lia|lia].
  - apply (field_pack [(2, dreg); (11, a); (8, u)] 1); [repeat constructor; cbn; lia|lia].
Qed.

Lemma b_set imm cmp off sign sub op off' sign' :
  set_b_sign sign' (set_b_offset off' (b imm cmp off sign sub op)) = b imm cmp off' sign' sub op.
Proof.
  unfold set_b_sign, set_b_offset, b.
  assert (set_field 17 7 off' (pack [(16, imm); (1, cmp); (7, off); (1, sign); (3, sub); (4, op)])
    = pack [(16, imm); (1, cmp); (7, off'); (1, sign); (3, sub); (4, op)]) as ->.
  { apply (set_field_pack [(16, imm); (1, cmp)] 7); [repeat constructor; cbn; lia|lia]. }
  apply (set_field_pack [(16, imm); (1, cmp); (7, off')] 1); [repeat constructor; cbn; lia|lia].
Qed.

Lemma bx_set dreg a u reg ty sub op a' : set_bx_addr a' (bx dreg a u reg ty sub op) = bx dreg a' u reg ty sub op.
Proof. unfold set_bx_addr, bx. apply (set_field_pack [(2, dreg)] 11); [repeat constructor; cbn; lia|lia]. Qed.

(** ** Words in memory *)

Lemma slice_same (l l' : list Z) o o' n :
  0 <= o -> 0 <= o' -> 0 <= n -> o + n <= Z.of_nat (length l) -> o' + n <= Z.of_nat (length l') ->
  (forall i, 0 <= i < n -> at_ 0 l (o + i) = at_ 0 l' (o' + i)) -> slice l o n = slice l' o' n.
Proof.
  intros Ho Ho' Hn Hl Hl' H. pose proof (length_slice l o n Ho Hn Hl). pose proof (length_slice l' o' n Ho' Hn Hl').
  apply (at_ext 0); [lia|]. intros i Hi. rewrite !at_slice by done. rewrite (proj2 (within_spec 0 n i)) by lia. apply H. lia.
Qed.

Lemma length_words_bytes ws : Z.of_nat (length (words_bytes ws)) = 4 * Z.of_nat (length ws).
Proof.
  unfold words_bytes. induction ws as [|w ws IH]; cbn [fmap list_fmap concat length]; [done|].
  rewrite length_app, length_le_encode. lia.
Qed.

Lemma slice_words_bytes ws k :
  0 <= k < Z.of_nat (length ws) -> slice (words_bytes ws) (4 * k) 4 = le_encode 4 (at_ 0 ws k).
Proof.
  revert k. induction ws as [|w ws IH]; intros k Hk; cbn [length] in Hk; [lia|].
  unfold words_bytes in *. cbn [fmap list_fmap concat]. destruct (decide (k = 0)) as [->|].
  - rewrite (at_lookup 0 (w :: ws) 0 w) by done. by apply slice_app_l.
  - rewrite slice_app_r by (rewrite length_le_encode; lia). rewrite length_le_encode.
    replace (4 * k - Z.of_nat 4) with (4 * (k - 1)) by lia. rewrite IH by lia. f_equal.
    change (w :: ws) with ([w] ++ ws). rewrite at_app by lia. by rewrite (proj2 (Z.ltb_ge _ _)) by (cbn; lia).
Qed.

(** A word of the memory as a 32-bit number. *)
Definition is_word (w : Z) : Prop := 0 <= w < 2 ^ 32.

Lemma wp_wr_words i ws m Q :
  0 <= i -> 4 * (i + Z.of_nat (length ws)) <= Z.of_nat (length m) -> Forall is_word ws ->
  (forall m', length m' = length m ->
     (forall j, 0 <= j -> 4 * j + 4 <= Z.of_nat (length m) ->
        word m' j = if within i (Z.of_nat (length ws)) j then at_ 0 ws (j - i) else word m j) ->
     (forall o, ~ 4 * i <= o < 4 * (i + Z.of_nat (length ws)) -> at_ 0 m' o = at_ 0 m o) -> Q tt m') ->
  wp (wr_words i ws) Q m.
Proof.
  intros Hi Hl Hws HQ. unfold wr_words. do 2 wp_step. apply wp_bind. pose proof (length_words_bytes ws) as HL.
  destruct (blit_spec m (4 * i) (words_bytes ws)) as (m' & Hb & Hlen & Hat); [lia|lia|].
  eapply wp_lift; [exact Hb|]. wp_step. apply HQ; [done| |].
  - intros j Hj Hjl. unfold word. destruct (within i (Z.of_nat (length ws)) j) eqn:E.
    + apply within_spec in E. rewrite <- (le_decode_encode 4 (at_ 0 ws (j - i))).
      * f_equal. rewrite <- slice_words_bytes by lia. apply slice_same; [lia|lia|lia|lia|lia|]. intros o Ho.
        rewrite Hat, (proj2 (within_spec _ _ _)) by lia. f_equal. lia.
      * destruct (lookup_lt_is_Some_2 ws (Z.to_nat (j - i))) as [w Hw]; [lia|].
        rewrite (at_lookup 0 ws _ w) by (lia || done). rewrite Forall_lookup in Hws. exact (Hws _ _ Hw).
    + apply within_false in E. f_equal. apply slice_same; [lia|lia|lia|lia|lia|]. intros o Ho.
      rewrite Hat, (proj2 (within_false _ _ _)) by lia. done.
  - intros o Ho. rewrite Hat, (proj2 (within_false _ _ _)) by lia. done.
Qed.

Lemma wp_rd_word i m Q : 0 <= i -> 4 * i + 4 <= Z.of_nat (length m) -> Q (word m i) m -> wp (rd_word i) Q m.
Proof. intros Hi Hl HQ. unfold rd_word. do 2 wp_step. rewrite (proj2 (Z.leb_le _ _) Hi), (proj2 (Z.leb_le _ _) Hl). cbn [andb]. by wp_step. Qed.

(** ** Programs with labels *)

(** What one writes: instructions, labels, and branches to labels. *)
Inductive ulp_item : Type :=
| Insn (w : Z)
| Label (n : Z)
| BL (n imm : Z)
| BGE (n imm : Z)
| BX (n : Z)
| BXZ (n : Z)
| BXF (n : Z).

Definition item_words (it : ulp_item) : list Z :=
  match it with
  | Insn w => [w]
  | Label n => [M_LABEL n]
  | BL n imm => M_BL n imm
  | BGE n imm => M_BGE n imm
  | BX n => M_BX n
  | BXZ n => M_BXZ n
  | BXF n => M_BXF n
  end.
Definition source_words (items : list ulp_item) : list Z := concat (item_words <$> items).

Definition item_size (it : ulp_item) : Z := match it with Label _ => 0 | _ => 1 end.
Fixpoint program_size (items : list ulp_item) : Z :=
  match items with [] => 0 | it :: items => item_size it + program_size items end.

(** The items with their addresses. *)
Fixpoint placed (pc : Z) (items : list ulp_item) : list (Z * ulp_item) :=
  match items with [] => [] | it :: items => (pc, it) :: placed (pc + item_size it) items end.

(** A reference assembler: the addresses of the labels, then the encodings of
    ulp.h with the targets filled in. *)
Definition label_at (p : Z * ulp_item) : option (Z * Z) := match p.2 with Label n => Some (n, p.1) | _ => None end.
Definition label_table (pc : Z) (items : list ulp_item) : list (Z * Z) := omap label_at (placed pc items).
Fixpoint target (tbl : list (Z * Z)) (n : Z) : Z :=
  match tbl with [] => 0 | (k, a) :: tbl => if k =? n then a else target tbl n end.

Definition encode_item (tbl : list (Z * Z)) (p : Z * ulp_item) : list Z :=
  match p.2 with
  | Insn w => [w]
  | Label _ => []
  | BL n imm => [I_BL (target tbl n - p.1) imm]
  | BGE n imm => [I_BGE (target tbl n - p.1) imm]
  | BX n => [I_BXI (target tbl n)]
  | BXZ n => [I_BXZI (target tbl n)]
  | BXF n => [I_BXFI (target tbl n)]
  end.
Definition assemble (pc : Z) (items : list ulp_item) : list Z :=
  concat (encode_item (label_table pc items) <$> placed pc items).

(** The label a branch goes to, and whether its distance is limited. *)
Definition branch_to (it : ulp_item) : option (Z * bool) :=
  match it with
  | BL n _ | BGE n _ => Some (n, true)
  | BX n | BXZ n | BXF n => Some (n, false)
  | _ => None
  end.

(** Labels are defined once, branches have a label, and relative ones reach
    it. *)
Record links (pc : Z) (items : list ulp_item) : Prop := {
  ln_once : NoDup (label_table pc items).*1;
  ln_defined : forall q it n near, (q, it) ∈ placed pc items -> branch_to it = Some (n, near) -> n ∈ (label_table pc items).*1;
  ln_reach : forall q it n, (q, it) ∈ placed pc items -> branch_to it = Some (n, true) ->
    Z.abs (target (label_table pc items) n - q) <= 127
}.

(** Items that are what they are meant to be: a plain instruction is not a
    token, label numbers have 16 bits, and the program does not end in a
    label. *)
Definition item_ok (it : ulp_item) : Prop :=
  match it with
  | Insn w => is_word w /\ macro_opcode w <> OPCODE_MACRO
  | Label n | BL n _ | BGE n _ | BX n | BXZ n | BXF n => 0 <= n < 2 ^ 16
  end.
Definition ends_ok (items : list ulp_item) : Prop := forall n, last items <> Some (Label n).

(** ** Removing the tokens *)

(** The instruction of an item before its branch is fixed, and after. *)
Definition raw (it : ulp_item) : Z :=
  match it with
  | Insn w => w
  | Label _ => 0
  | BL _ imm => I_BL 0 imm
  | BGE _ imm => I_BGE 0 imm
  | BX _ => I_BXI 0
  | BXZ _ => I_BXZI 0
  | BXF _ => I_BXFI 0
  end.
Definition fixed (it : ulp_item) (q t : Z) : Z :=
  match it with
  | BL _ imm => I_BL (t - q) imm
  | BGE _ imm => I_BGE (t - q) imm
  | BX _ => I_BXI t
  | BXZ _ => I_BXZI t
  | BXF _ => I_BXFI t
  | _ => raw it
  end.

Definition reloc_of (p : Z * ulp_item) : option reloc_info_t :=
  match p.2, branch_to p.2 with
  | Label n, _ => Some (RELOC_INFO_LABEL n p.1)
  | _, Some (n, _) => Some (RELOC_INFO_BRANCH n p.1)
  | _, None => None
  end.
Definition relocs (pc : Z) (items : list ulp_item) : list reloc_info_t := omap reloc_of (placed pc items).

#[local] Opaque pack field.

Lemma pack32 fs : widths_ok fs -> width fs = 32 -> is_word (pack fs).
Proof. intros Hw E. pose proof (pack_range fs Hw) as H. rewrite E in H. exact H. Qed.

Lemma b_word imm cmp off sign sub op : is_word (b imm cmp off sign sub op).
Proof. apply pack32; [repeat constructor; cbn; lia|done]. Qed.

Lemma bx_word dreg a u reg ty sub op : is_word (bx dreg a u reg ty sub op).
Proof. apply pack32; [repeat constructor; cbn; lia|done]. Qed.

Lemma raw_word it : item_ok it -> is_word (raw it).
Proof. destruct it; cbn [item_ok raw]; intros H; [apply H|done|apply b_word|apply b_word|apply bx_word..]. Qed.

(** A branch instruction is not a token. *)
Lemma branch_not_macro it n near :
  branch_to it = Some (n, near) -> item_words it = [M_BRANCH n; raw it] /\ macro_opcode (raw it) = OPCODE_BRANCH.
Proof.
  destruct it; cbn [branch_to item_words raw]; intros [= <- <-]; (split; [done|]).
  all: unfold I_BL, I_BGE, I_BXI, I_BXZI, I_BXFI; change macro_opcode with b_opcode.
  1, 2: rewrite (proj1 (b_fields _ _ _ _ _ _)); reflexivity.
  all: rewrite (proj1 (bx_fields _ _ _ _ _ _ _)); reflexivity.
Qed.

(** The three shapes of an item. *)
Lemma item_cases it :
  item_ok it ->
  (exists n, it = Label n /\ 0 <= n < 2 ^ 16)
  \/ (exists n near, branch_to it = Some (n, near) /\ 0 <= n < 2 ^ 16 /\ item_size it = 1)
  \/ (item_words it = [raw it] /\ branch_to it = None /\ macro_opcode (raw it) <> OPCODE_MACRO /\ item_size it = 1
      /\ forall q, reloc_of (q, it) = None).
Proof. destruct it; cbn; intros H; eauto 10. right; right. by destruct H. Qed.

Lemma label_token n :
  0 <= n < 2 ^ 16 ->
  macro_opcode (M_LABEL n) = OPCODE_MACRO /\ macro_sub_opcode (M_LABEL n) = SUB_OPCODE_MACRO_LABEL /\ macro_label (M_LABEL n) = n.
Proof.
  intros Hn. unfold M_LABEL. destruct (macro_fields n 0 SUB_OPCODE_MACRO_LABEL OPCODE_MACRO) as (-> & -> & ->).
  by rewrite !wrap_small.
Qed.

Lemma branch_token n :
  0 <= n < 2 ^ 16 ->
  macro_opcode (M_BRANCH n) = OPCODE_MACRO /\ macro_sub_opcode (M_BRANCH n) = SUB_OPCODE_MACRO_BRANCH /\ macro_label (M_BRANCH n) = n.
Proof.
  intros Hn. unfold M_BRANCH. destruct (macro_fields n 0 SUB_OPCODE_MACRO_BRANCH OPCODE_MACRO) as (-> & -> & ->).
  by rewrite !wrap_small.
Qed.

Lemma reloc_branch it q n near : branch_to it = Some (n, near) -> reloc_of (q, it) = Some (RELOC_INFO_BRANCH n q).
Proof. destruct it; cbn; intros [= <- <-]; done. Qed.

Lemma source_cons it items : source_words (it :: items) = item_words it ++ source_words items.
Proof. done. Qed.

Lemma source_nonempty items : items <> [] -> source_words items <> [].
Proof. destruct items as [|it items]; [done|]. intros _. rewrite source_cons. by destruct it. Qed.

Lemma macro_count_app l1 l2 : macro_count (l1 ++ l2) = macro_count l1 + macro_count l2.
Proof. unfold macro_count. rewrite filter_app, length_app. lia. Qed.

Lemma source_size items :
  Forall item_ok items -> Z.of_nat (length (source_words items)) - macro_count (source_words items) = program_size items.
Proof.
  induction 1 as [|it items Hit _ IH]; [done|]. rewrite source_cons, macro_count_app, length_app. cbn [program_size].
  enough (Z.of_nat (length (item_words it)) - macro_count (item_words it) = item_size it) by lia. unfold macro_count.
  destruct (item_cases it Hit) as [(n & -> & Hn)|[(n & near & Hb & Hn & ->)|(Hw & _ & Hm & -> & _)]].
  - cbn [item_words item_size]. rewrite filter_cons_True; [done|]. by destruct (label_token n Hn).
  - destruct (branch_not_macro _ _ _ Hb) as [-> Hop]. rewrite filter_cons_True by (by destruct (branch_token n Hn)).
    rewrite filter_cons_False; [done|]. by rewrite Hop.
  - rewrite Hw, filter_cons_False by done. done.
Qed.

Lemma program_size_nonneg items : 0 <= program_size items.
Proof. induction items as [|it items IH]; cbn; [done|]. destruct it; cbn; lia. Qed.

Lemma placed_range pc items q it : (q, it) ∈ placed pc items -> pc <= q <= pc + program_size items - item_size it.
Proof.
  revert pc. induction items as [|it' items IH]; intros pc; cbn [placed program_size]; [by intros H; apply elem_of_nil in H|].
  pose proof (program_size_nonneg items). assert (0 <= item_size it') by (destruct it'; cbn; lia).
  intros [[= -> ->]|Hin]%elem_of_cons; [lia|]. apply IH in Hin. lia.
Qed.

(** No macro, no relocation. *)
Lemma no_macros pc items :
  Forall item_ok items -> macro_count (source_words items) = 0 ->
  source_words items = raw <$> items /\ relocs pc items = [] /\ forall q it, (q, it) ∈ placed pc items -> exists w, it = Insn w.
Proof.
  intros Hok. revert pc. induction Hok as [|it items Hit _ IH]; intros pc.
  { intros _. split_and!; [done|done|]. intros q it H. by apply elem_of_nil in H. }
  rewrite source_cons, macro_count_app. intros H0. assert (0 <= macro_count (source_words items)) by (unfold macro_count; lia).
  assert (0 <= macro_count (item_words it)) by (unfold macro_count; lia).
  destruct (IH (pc + item_size it) ltac:(lia)) as (E1 & E2 & E3). unfold relocs in *. cbn [placed omap list_omap].
  assert (Hz : macro_count (item_words it) = 0) by lia.
  assert (Hin : exists w, it = Insn w).
  { unfold macro_count in Hz. destruct (item_cases it Hit) as [(n & -> & Hn)|[(n & near & Hb & Hn & _)|(_ & Hb & _ & _ & Hr)]].
    - cbn [item_words] in Hz. rewrite filter_cons_True in Hz by (by destruct (label_token n Hn)). cbn in Hz. lia.
    - destruct (branch_not_macro _ _ _ Hb) as [Ew _]. rewrite Ew, filter_cons_True in Hz by (by destruct (branch_token n Hn)). cbn in Hz. lia.
    - destruct it; try done; [eauto|by specialize (Hr 0)]. }
  destruct Hin as [w ->]. cbn [item_words app fmap list_fmap raw]. rewrite E1. split_and!; [done|exact E2|].
  intros q it [[= -> ->]|Hin]%elem_of_cons; eauto.
Qed.

(** The state between the steps: [items] from [pc] on are in memory as they
    were written, and the rest of the memory is that of [m0]. *)
Definition in_bounds (m : rtc_mem) (j : Z) : Prop := 0 <= j /\ 4 * j + 4 <= Z.of_nat (length m).
Definition same_outside (pc n : Z) (m m' : rtc_mem) : Prop :=
  length m' = length m /\ forall j, in_bounds m j -> ~ (pc <= j < pc + n) -> word m' j = word m j.

Lemma wp_wr_word pc w m Q :
  in_bounds m pc -> is_word w ->
  (forall m', word m' pc = w -> same_outside pc 1 m m' -> Q tt m') -> wp (wr_words pc [w]) Q m.
Proof.
  intros [H1 H2] Hw HQ. apply wp_wr_words; [done|cbn; lia|by constructor|]. intros m' Hl Hwd _. apply HQ.
  - rewrite Hwd by lia. rewrite (proj2 (within_spec _ _ _)) by (cbn; lia). by rewrite Z.sub_diag.
  - split; [done|]. intros j [Hj1 Hj2] Hn. rewrite Hwd by lia. by rewrite (proj2 (within_false _ _ _)) by (cbn; lia).
Qed.

Lemma same_trans pc n m m1 m2 pc1 n1 pc2 n2 :
  same_outside pc1 n1 m m1 -> same_outside pc2 n2 m1 m2 ->
  pc <= pc1 -> pc1 + n1 <= pc + n -> pc <= pc2 -> pc2 + n2 <= pc + n -> same_outside pc n m m2.
Proof.
  intros [L1 W1] [L2 W2] H1 H2 H3 H4. split; [congruence|]. intros j Hj Hn.
  rewrite W2; [apply W1; [done|lia]|unfold in_bounds in *; by rewrite L1|lia].
Qed.

Definition loaded (pc : Z) (items : list ulp_item) (m : rtc_mem) : Prop :=
  forall q it, (q, it) ∈ placed pc items -> item_size it = 1 -> word m q = raw it.

Lemma loaded_cons pc it items m m' :
  (item_size it = 1 -> word m pc = raw it) -> in_bounds m pc ->
  same_outside (pc + item_size it) (program_size items) m m' -> loaded (pc + item_size it) items m' -> loaded pc (it :: items) m'.
Proof.
  intros Hw Hb [_ Hs] Hl q it' [[= -> ->]|Hin]%elem_of_cons Hsz; [|by apply Hl]. rewrite Hs by (done || lia). auto.
Qed.

Lemma ends_size items : items <> [] -> ends_ok items -> 1 <= program_size items.
Proof.
  induction items as [|it items IH]; [done|]. intros _ Hend. cbn [program_size]. pose proof (program_size_nonneg items).
  destruct items as [|it2 items]; [destruct it; cbn; try lia; by destruct (Hend n)|].
  assert (1 <= program_size (it2 :: items)) by (apply IH; [done|]; intros n E; by apply (Hend n)).
  assert (0 <= item_size it) by (destruct it; cbn; lia). lia.
Qed.

Lemma record_spec items pc m :
  Forall item_ok items -> ends_ok items -> 0 <= pc -> pc + program_size items < 2 ^ 32 ->
  4 * (pc + program_size items) <= Z.of_nat (length m) ->
  wp (record_macros pc (source_words items)) (fun R m' =>
    R = relocs pc items /\ same_outside pc (program_size items) m m' /\ loaded pc items m') m.
Proof.
  intros Hok. revert pc m. induction Hok as [|it items Hit Hok IH]; intros pc m Hend Hpc Hlt Hm.
  { apply wp_ret. split_and!; [done|by split|]. intros q it Hin. by apply elem_of_nil in Hin. }
  rewrite source_cons. cbn [program_size] in *. pose proof (program_size_nonneg items) as Hsz.
  assert (Hend' : ends_ok items) by (intros n E; apply (Hend n); destruct items; [done|exact E]).
  unfold relocs in *. cbn [placed omap list_omap].
  assert (Hnext : forall m1, (item_size it = 1 -> word m1 pc = raw it) -> in_bounds m1 pc -> same_outside pc (item_size it) m m1 ->
    wp (record_macros (pc + item_size it) (source_words items)) (fun R m' =>
      R = omap reloc_of (placed (pc + item_size it) items) /\ same_outside pc (item_size it + program_size items) m m'
      /\ loaded pc (it :: items) m') m1).
  { intros m1 Hw Hb Hs. assert (0 <= item_size it) by (destruct it; cbn; lia). pose proof Hs as [Hl _].
    eapply wp_mono; [apply (IH (pc + item_size it) m1); [done|lia|lia|rewrite Hl; lia]|]. intros R m' (HR & Hs' & Hld).
    split_and!; [done|eapply same_trans; [exact Hs|exact Hs'|lia..]|]. by eapply loaded_cons. }
  destruct (item_cases it Hit) as [(n & -> & Hn)|[(n & near & Hb & Hn & Hone)|(Hw & Hb & Hmac & Hone & Hr)]].
  - cbn [item_words app record_macros item_size] in *. rewrite Z.add_0_r in Hnext |- *. destruct (label_token n Hn) as (-> & -> & ->). rewrite Z.eqb_refl.
    change (SUB_OPCODE_MACRO_LABEL =? SUB_OPCODE_MACRO_LABEL) with true. cbn iota. do 2 wp_step.
    assert (Hne : items <> []) by (intros ->; by apply (Hend n)).
    apply wp_bind, wp_check; [by rewrite bool_decide_eq_false_2 by (by apply source_nonempty)|]. apply wp_bind.
    eapply wp_mono; [apply Hnext|].
    + done.
    + pose proof (ends_size items Hne Hend'). split; lia.
    + by split.
    + intros R m' (-> & Hs & Hl). wp_step. split_and!; [done|exact Hs|exact Hl].
  - destruct (branch_not_macro _ _ _ Hb) as [-> Hop]. cbn [app record_macros]. destruct (branch_token n Hn) as (-> & -> & ->).
    rewrite Z.eqb_refl. change (SUB_OPCODE_MACRO_BRANCH =? SUB_OPCODE_MACRO_LABEL) with false.
    change (SUB_OPCODE_MACRO_BRANCH =? SUB_OPCODE_MACRO_BRANCH) with true. cbn iota. do 2 wp_step.
    apply wp_bind, wp_check; [done|]. rewrite Hop. change (OPCODE_BRANCH =? OPCODE_MACRO) with false. cbn iota.
    rewrite (reloc_branch _ _ _ _ Hb). rewrite Hone in *. do 2 apply wp_bind. apply wp_wr_word; [split; lia|by apply raw_word|].
    intros m1 Hw1 Hs1. rewrite u32_small by lia. eapply wp_mono; [apply Hnext; [done|split; [done|destruct Hs1 as [-> _]; lia]|done]|].
    intros R m' (-> & Hs & Hl). wp_step. split_and!; [done|exact Hs|exact Hl].
  - rewrite Hw. cbn [app record_macros]. rewrite (proj2 (Z.eqb_neq _ _)) by done. rewrite Hr, Hone in *.
    apply wp_bind. apply wp_wr_word; [split; lia|by apply raw_word|].
    intros m1 Hw1 Hs1. rewrite u32_small by lia. eapply wp_mono; [apply Hnext; [done|split; [done|destruct Hs1 as [-> _]; lia]|done]|].
    done.
Qed.

(** ** Fixing one branch *)

Definition reaches (near : bool) (q t : Z) : bool := negb near || (Z.abs (t - q) <=? 127).

Lemma relative_insn it n :
  branch_to it = Some (n, true) ->
  exists cmp imm, raw it = b imm cmp 0 0 SUB_OPCODE_B OPCODE_BRANCH
    /\ forall q t, fixed it q t = b imm cmp (Z.abs (t - q)) (if 0 <=? t - q then 0 else 1) SUB_OPCODE_B OPCODE_BRANCH.
Proof. destruct it; cbn [branch_to]; intros [= <-]; [exists B_CMP_L, imm|exists B_CMP_GE, imm]; split; done. Qed.

Lemma absolute_insn it n :
  branch_to it = Some (n, false) ->
  exists ty, raw it = bx 0 0 0 0 ty SUB_OPCODE_BX OPCODE_BRANCH
    /\ forall q t, fixed it q t = bx 0 t 0 0 ty SUB_OPCODE_BX OPCODE_BRANCH.
Proof.
  destruct it; cbn [branch_to]; intros [= <-];
    [exists BX_JUMP_TYPE_DIRECT|exists BX_JUMP_TYPE_ZERO|exists BX_JUMP_TYPE_OVF]; split; done.
Qed.

Lemma reloc_spec load li br it n near m Q :
  branch_to it = Some (n, near) -> 0 <= load <= addr br -> addr br < 2 ^ 11 -> in_bounds m (addr br) -> word m (addr br) = raw it ->
  (reaches near (addr br) (addr li) = false -> Q ESP_ERR_ULP_BRANCH_OUT_OF_RANGE m) ->
  (reaches near (addr br) (addr li) = true -> forall m', word m' (addr br) = fixed it (addr br) (addr li) ->
     same_outside (addr br) 1 m m' -> Q ESP_OK m') ->
  wp (do_single_reloc load li br) Q m.
Proof.
  intros Hb Hl Ha Hin Hw Hno Hyes. unfold do_single_reloc. cbv zeta. rewrite u32_small by lia.
  replace (load + (addr br - load)) with (addr br) by lia. apply wp_bind. destruct Hin as [Hi1 Hi2].
  apply wp_rd_word; [done|done|]. rewrite Hw. unfold reaches in *. destruct near.
  - destruct (relative_insn it n Hb) as (cmp & imm & -> & Hf).
    destruct (b_fields imm cmp 0 0 SUB_OPCODE_B OPCODE_BRANCH) as [-> ->]. apply wp_bind, wp_check; [done|].
    change (wrap 3 SUB_OPCODE_B =? SUB_OPCODE_B) with true. cbn iota. cbn [negb orb] in *.
    destruct (Z.leb_spec (Z.abs (addr li - addr br)) 127) as [Hle|Hgt].
    + rewrite (proj2 (Z.ltb_ge _ _)) by lia. apply wp_bind. rewrite b_set, <- Hf.
      apply wp_wr_word; [done|rewrite Hf; apply b_word|]. intros m' H1 H2. wp_step. by apply Hyes.
    + rewrite (proj2 (Z.ltb_lt _ _)) by lia. wp_step. by apply Hno.
  - destruct (absolute_insn it n Hb) as (ty & -> & Hf).
    destruct (bx_fields 0 0 0 0 ty SUB_OPCODE_BX OPCODE_BRANCH) as (-> & -> & ->). apply wp_bind, wp_check; [done|].
    change (wrap 3 SUB_OPCODE_BX =? SUB_OPCODE_B) with false. change (wrap 3 SUB_OPCODE_BX =? SUB_OPCODE_BX) with true. cbn iota.
    apply wp_bind, wp_check; [done|]. apply wp_bind. rewrite bx_set, <- (Hf (addr br)).
    apply wp_wr_word; [done|rewrite Hf; apply bx_word|]. intros m' H1 H2. wp_step. by apply Hyes.
Qed.

(** ** Walking the sorted relocations *)

Definition is_label (r : reloc_info_t) : Prop := type r = RELOC_TYPE_LABEL.
Definition is_branch (r : reloc_info_t) : Prop := type r = RELOC_TYPE_BRANCH.
#[export] Instance is_label_dec r : Decision (is_label r).
Proof. unfold is_label. apply _. Defined.
#[export] Instance is_branch_dec r : Decision (is_branch r).
Proof. unfold is_branch. apply _. Defined.

Lemma label_not_branch r : is_label r -> is_branch r -> False.
Proof. unfold is_label, is_branch. intros ->. done. Qed.

Definition before (x y : reloc_info_t) : Prop := reloc_sort_func x y <= 0.

Lemma before_iff x y : before x y <-> label x < label y \/ label x = label y /\ type x <= type y.
Proof. unfold before, reloc_sort_func. repeat case_test; lia. Qed.

Definition labels_of (l : list reloc_info_t) : list Z := label <$> filter is_label l.
Definition branch_addrs (l : list reloc_info_t) : list Z := addr <$> filter is_branch l.

(** [t] is a definition of the label that [r] goes to. *)
Definition defines (t r : reloc_info_t) : Prop := is_label t /\ label t = label r.

Section Fix.
(** [find] gives the branch at an address of the program. *)
Context (load : Z) (find : Z -> ulp_item).

Record fixable (m : rtc_mem) (r : reloc_info_t) : Prop := {
  fx_branch : exists near, branch_to (find (addr r)) = Some (label r, near);
  fx_addr : load <= addr r < 2 ^ 11;
  fx_in : in_bounds m (addr r);
  fx_word : word m (addr r) = raw (find (addr r))
}.

Definition near_of (r : reloc_info_t) : bool := match branch_to (find (addr r)) with Some (_, near) => near | None => false end.

(** What the walk from label [li] over [l] comes to. *)
Inductive walked (li : reloc_info_t) (l : list reloc_info_t) (m' : rtc_mem) : esp_err_t -> Prop :=
| WalkOk :
    NoDup (labels_of (li :: l)) ->
    (forall r, r ∈ l -> is_branch r -> exists t, t ∈ li :: l /\ defines t r /\ reaches (near_of r) (addr r) (addr t) = true
       /\ word m' (addr r) = fixed (find (addr r)) (addr r) (addr t)) ->
    walked li l m' ESP_OK
| WalkDuplicate : ~ NoDup (labels_of (li :: l)) -> walked li l m' ESP_ERR_ULP_DUPLICATE_LABEL
| WalkUndefined r :
    r ∈ l -> is_branch r -> (forall t, t ∈ li :: l -> ~ defines t r) -> walked li l m' ESP_ERR_ULP_UNDEFINED_LABEL
| WalkRange r t :
    r ∈ l -> is_branch r -> t ∈ li :: l -> defines t r -> reaches (near_of r) (addr r) (addr t) = false ->
    walked li l m' ESP_ERR_ULP_BRANCH_OUT_OF_RANGE.

Definition untouched (l : list reloc_info_t) (m m' : rtc_mem) : Prop :=
  length m' = length m /\ forall j, in_bounds m j -> j ∉ branch_addrs l -> word m' j = word m j.

Lemma labels_cons_label r l : is_label r -> labels_of (r :: l) = label r :: labels_of l.
Proof. intros H. unfold labels_of. by rewrite filter_cons_True. Qed.

Lemma labels_cons_branch r l : is_branch r -> labels_of (r :: l) = labels_of l.
Proof. intros H. unfold labels_of. rewrite filter_cons_False; [done|]. unfold is_label, is_branch in *. by rewrite H. Qed.

Lemma branch_addrs_label r l : is_label r -> branch_addrs (r :: l) = branch_addrs l.
Proof. intros H. unfold branch_addrs. rewrite filter_cons_False; [done|]. unfold is_label, is_branch in *. by rewrite H. Qed.

Lemma branch_addrs_branch r l : is_branch r -> branch_addrs (r :: l) = addr r :: branch_addrs l.
Proof. intros H. unfold branch_addrs. by rewrite filter_cons_True. Qed.

Lemma walked_label li r l m' e :
  StronglySorted before (li :: r :: l) -> is_label li -> is_label r -> label r <> label li ->
  walked r l m' e -> walked li (r :: l) m' e.
Proof.
  intros Hs Hli Hr Hne Hw. apply StronglySorted_inv in Hs as [Hs Hf]. apply StronglySorted_inv in Hs as [_ Hrl].
  apply Forall_cons in Hf as [Hlr _]. apply before_iff in Hlr. rewrite Forall_forall in Hrl.
  assert (Hgt : forall t, t ∈ r :: l -> label li < label t).
  { intros t [->|Ht]%elem_of_cons; [lia|]. specialize (Hrl t Ht). apply before_iff in Hrl. lia. }
  assert (Hli_new : label li ∉ labels_of (r :: l)).
  { intros (t & Et & Ht)%list_elem_of_fmap. apply list_elem_of_filter in Ht as [_ Ht]. specialize (Hgt t Ht). lia. }
  destruct Hw as [Hn Hok|Hn|r' Hr' Hb Hno|r' t Hr' Hb Ht Hd Hre].
  - apply WalkOk; [rewrite labels_cons_label by done; by constructor|].
    intros r' [->|Hr']%elem_of_cons Hb; [by destruct (label_not_branch r)|].
    destruct (Hok r' Hr' Hb) as (t & Ht & ?). exists t. split; [by right|done].
  - apply WalkDuplicate. rewrite labels_cons_label by done. intros [_ H]%NoDup_cons. done.
  - apply (WalkUndefined _ _ _ r'); [by right|done|]. intros t [->|Ht]%elem_of_cons; [|by apply Hno].
    intros [_ E]. assert (Hr2 : r' ∈ r :: l) by (by right). specialize (Hgt r' Hr2). lia.
  - apply (WalkRange _ _ _ r' t); try done; by right.
Qed.

Lemma walked_branch li r l m' e :
  is_label li -> is_branch r -> label r = label li -> reaches (near_of r) (addr r) (addr li) = true ->
  word m' (addr r) = fixed (find (addr r)) (addr r) (addr li) -> walked li l m' e -> walked li (r :: l) m' e.
Proof.
  intros Hli Hr Hlab Hre Hwd Hw.
  assert (Hsub : forall t, t ∈ li :: l -> t ∈ li :: r :: l) by (intros t [->|?]%elem_of_cons; [left|right; by right]).
  assert (Hlabs : labels_of (li :: r :: l) = labels_of (li :: l)).
  { rewrite !(labels_cons_label li) by done. by rewrite labels_cons_branch. }
  destruct Hw as [Hn Hok|Hn|r' Hr' Hb Hno|r' t Hr' Hb Ht Hd Hre'].
  - apply WalkOk; [by rewrite Hlabs|]. intros r' [->|Hr']%elem_of_cons Hb.
    + exists li. split_and!; [left|done|done|done].
    + destruct (Hok r' Hr' Hb) as (t & Ht & ?). exists t. split; [auto|done].
  - apply WalkDuplicate. by rewrite Hlabs.
  - apply (WalkUndefined _ _ _ r'); [by right|done|]. intros t [->|[->|Ht]%elem_of_cons]%elem_of_cons; [apply Hno; left| |apply Hno; by right].
    intros [H _]. by destruct (label_not_branch r).
  - apply (WalkRange _ _ _ r' t); try done; [by right|auto].
Qed.

Lemma fix_spec li l m :
  0 <= load -> StronglySorted before (li :: l) -> is_label li -> Forall (fun r => is_label r \/ is_branch r) l ->
  NoDup (branch_addrs l) -> (forall r, r ∈ l -> is_branch r -> fixable m r) ->
  wp (fix_insns load (Some li) l) (fun e m' => walked li l m' e /\ untouched l m m') m.
Proof.
  intros Hload. revert li m. induction l as [|r l IH]; intros li m Hs Hli Hty Hnd Hfx; cbn [fix_insns].
  { apply wp_ret. split; [|by split]. apply WalkOk; [rewrite labels_cons_label by done; repeat constructor; apply not_elem_of_nil|].
    intros r Hr. by apply elem_of_nil in Hr. }
  apply Forall_cons in Hty as [Hr Hty]. destruct (decide (is_label r)) as [Hlr|Hlr].
  - rewrite (proj2 (Z.eqb_eq _ _)) by exact Hlr. rewrite branch_addrs_label in Hnd by done.
    destruct (Z.eqb_spec (label r) (label li)) as [E|Hne].
    + apply wp_ret. split; [|by split]. apply WalkDuplicate. rewrite !labels_cons_label by done. rewrite E.
      intros [H _]%NoDup_cons. apply H. left.
    + eapply wp_mono; [apply IH; [by apply StronglySorted_inv in Hs as [Hs _]|done|done|done|]|].
      * intros r' Hr'. apply Hfx. by right.
      * intros e m' [Hw Hu]. split; [by apply walked_label|]. unfold untouched in *. by rewrite branch_addrs_label.
  - destruct Hr as [Hr|Hr]; [done|]. rewrite (proj2 (Z.eqb_neq _ _)) by exact Hlr. rewrite branch_addrs_branch in Hnd by done.
    apply NoDup_cons in Hnd as [Hnin Hnd]. assert (Hr1 : r ∈ r :: l) by left.
    destruct (Z.eqb_spec (label r) (label li)) as [E|Hne]; cbn [negb].
    + destruct (Hfx r Hr1 Hr) as [[near Hb] Ha Hin Hwd]. assert (Hnear : near_of r = near) by (unfold near_of; by rewrite Hb).
      apply wp_bind. eapply reloc_spec; [exact Hb|lia|lia|done|done| |].
      * intros Hre. apply wp_ret. split; [|by split]. apply (WalkRange _ _ _ r li); try done; [left|by rewrite Hnear].
      * intros Hre m1 Hw1 [Hl1 Hs1]. cbn [negb Z.eqb]. change (ESP_OK =? ESP_OK) with true. cbn [negb].
        assert (Hother : forall j, in_bounds m j -> j <> addr r -> word m1 j = word m j) by (intros j Hj Hjr; apply Hs1; [done|lia]).
        eapply wp_mono; [apply IH; [|done|done|done|]|].
        -- apply StronglySorted_inv in Hs as [Hs Hf]. apply StronglySorted_inv in Hs as [Hs _]. apply Forall_cons in Hf as [_ Hf]. by constructor.
        -- intros r' Hr' Hb'. assert (Hr2 : r' ∈ r :: l) by (by right). destruct (Hfx r' Hr2 Hb') as [F1 F2 F3 F4].
           split; [done|done|unfold in_bounds; by rewrite Hl1|]. rewrite Hother; [done|done|].
           intros Eq. apply Hnin. rewrite <- Eq. apply list_elem_of_fmap. exists r'. split; [done|]. by apply list_elem_of_filter.
        -- intros e m' [Hw [Hu1 Hu2]]. unfold in_bounds in *. split.
           ++ apply walked_branch; try done; [by rewrite Hnear|]. rewrite Hu2; [done|by rewrite Hl1|done].
           ++ split; [congruence|]. intros j Hj Hjn. rewrite branch_addrs_branch, not_elem_of_cons in Hjn by done.
              destruct Hjn as [Hj1 Hj2]. rewrite Hu2; [by apply Hother|by rewrite Hl1|done].
    + apply wp_ret. split; [|by split]. apply (WalkUndefined _ _ _ r); [left|done|].
      intros t [->|[->|Ht]%elem_of_cons]%elem_of_cons [Hlt Hll]; [congruence|done|].
      apply StronglySorted_inv in Hs as [Hs _]. apply StronglySorted_inv in Hs as [_ Hf]. rewrite Forall_forall in Hf.
      specialize (Hf t Ht). apply before_iff in Hf. unfold is_label, is_branch, RELOC_TYPE_LABEL, RELOC_TYPE_BRANCH in *. lia.
Qed.
End Fix.

(** ** From relocations back to the program *)

Section Program.
Context (pc : Z) (items : list ulp_item).
Hypothesis Hok : Forall item_ok items.

Lemma placed_items q it pc' its : (q, it) ∈ placed pc' its -> it ∈ its.
Proof.
  revert pc'. induction its as [|i its IH]; intros pc'; cbn; [intros H; by apply elem_of_nil in H|].
  intros [[= -> ->]|H]%elem_of_cons; [left|right; eauto].
Qed.

Lemma placed_ok q it : (q, it) ∈ placed pc items -> item_ok it.
Proof. intros H%placed_items. rewrite Forall_forall in Hok. auto. Qed.

(** Two instructions have different addresses. *)
Lemma placed_unique q it it' pc' its :
  (q, it) ∈ placed pc' its -> (q, it') ∈ placed pc' its -> item_size it = 1 -> item_size it' = 1 -> it = it'.
Proof.
  revert pc'. induction its as [|i its IH]; intros pc'; cbn [placed]; [intros H; by apply elem_of_nil in H|].
  intros [E|H]%elem_of_cons [E'|H']%elem_of_cons S1 S2; simplify_eq; [done| | |eauto].
  - apply placed_range in H'. lia.
  - apply placed_range in H. lia.
Qed.

(** Every address of the program has an instruction. *)
Lemma placed_total j pc' its :
  pc' <= j < pc' + program_size its -> exists it, (j, it) ∈ placed pc' its /\ item_size it = 1.
Proof.
  revert pc'. induction its as [|i its IH]; intros pc'; cbn [placed program_size]; [lia|]. intros Hj.
  assert (item_size i = 0 \/ item_size i = 1) as [E|E] by (destruct i; cbn; auto).
  - rewrite E in *. destruct (IH (pc' + 0)) as (it & H & S1); [lia|]. exists it. split; [by right|done].
  - rewrite E in *. destruct (decide (j = pc')) as [->|]; [exists i; split; [left|done]|].
    destruct (IH (pc' + 1)) as (it & H & S1); [lia|]. exists it. split; [by right|done].
Qed.

Lemma placed_below q it pc' its : ends_ok its -> (q, it) ∈ placed pc' its -> q < pc' + program_size its.
Proof.
  revert pc'. induction its as [|i its IH]; intros pc' He; cbn [placed program_size]; [intros H; by apply elem_of_nil in H|].
  assert (0 <= item_size i) by (destruct i; cbn; lia).
  assert (He' : ends_ok its) by (intros n E; apply (He n); destruct its; [done|exact E]).
  intros [[= -> ->]|H']%elem_of_cons.
  - pose proof (ends_size (i :: its) ltac:(done) He) as Hs. cbn [program_size] in Hs. lia.
  - apply IH in H'; [lia|done].
Qed.

Definition find_insn (q : Z) : ulp_item :=
  default (Insn 0) (head (filter (fun it => item_size it = 1) (omap (fun p => if p.1 =? q then Some p.2 else None) (placed pc items)))).

Lemma find_placed q it : (q, it) ∈ placed pc items -> item_size it = 1 -> find_insn q = it.
Proof.
  intros Hin Hs. unfold find_insn.
  set (l := filter _ _). assert (Hl : it ∈ l).
  { apply list_elem_of_filter. split; [done|]. apply list_elem_of_omap. exists (q, it). split; [done|]. cbn. by rewrite Z.eqb_refl. }
  destruct l as [|it' l'] eqn:E; [by apply elem_of_nil in Hl|]. cbn.
  assert (Hl' : it' ∈ it' :: l') by left. rewrite <- E in Hl'. apply list_elem_of_filter in Hl' as [Hs' Ho].
  apply list_elem_of_omap in Ho as ([q' it2] & Hp & Hq). cbn in Hq. destruct (Z.eqb_spec q' q) as [->|]; [|done].
  injection Hq as ->. by eapply placed_unique.
Qed.

Lemma branch_size it n near : branch_to it = Some (n, near) -> item_size it = 1.
Proof. by destruct it. Qed.

Lemma branch_num it n near : item_ok it -> branch_to it = Some (n, near) -> 0 <= n < 2 ^ 16.
Proof. destruct it; cbn; intros H [= <- <-]; done. Qed.

Context (Hpc : 0 <= pc) (Hend : ends_ok items) (Hfit : pc + program_size items <= 2 ^ 11).

Lemma reloc_in r :
  r ∈ relocs pc items <->
  (exists n q, (q, Label n) ∈ placed pc items /\ r = RelocInfo n q RELOC_TYPE_LABEL)
  \/ (exists n near q it, (q, it) ∈ placed pc items /\ branch_to it = Some (n, near) /\ r = RelocInfo n q RELOC_TYPE_BRANCH).
Proof.
  assert (Hw : forall q it, (q, it) ∈ placed pc items -> wrap 11 q = q).
  { intros q it H. pose proof (placed_below _ _ _ _ Hend H). apply placed_range in H as Hr. assert (0 <= item_size it) by (destruct it; cbn; lia).
    apply wrap_small. lia. }
  unfold relocs. rewrite list_elem_of_omap. split.
  - intros ([q it] & Hp & Hr). pose proof (Hw q it Hp) as Eq. pose proof (placed_ok q it Hp) as Hi.
    destruct (branch_to it) as [[n near]|] eqn:Eb.
    + rewrite (reloc_branch _ _ _ _ Eb) in Hr. injection Hr as <-. right. exists n, near, q, it. split_and!; [done|done|].
      unfold RELOC_INFO_BRANCH. rewrite Eq. rewrite wrap_small by (by eapply branch_num). done.
    + destruct it as [w|n| | | | |]; try done. injection Hr as <-. left. exists n, q. split; [done|]. unfold RELOC_INFO_LABEL. cbn [fst].
      rewrite Eq. rewrite wrap_small by done. done.
  - intros [(n & q & Hp & ->)|(n & near & q & it & Hp & Hb & ->)].
    + exists (q, Label n). split; [done|]. cbn. unfold RELOC_INFO_LABEL. rewrite (Hw q _ Hp), wrap_small; [done|]. exact (placed_ok q _ Hp).
    + exists (q, it). split; [done|]. rewrite (reloc_branch _ _ _ _ Hb). unfold RELOC_INFO_BRANCH.
      rewrite (Hw q _ Hp), wrap_small; [done|]. eapply branch_num; [by eapply placed_ok|done].
Qed.

Lemma relocs_labels its pc' :
  Forall item_ok its -> labels_of (omap reloc_of (placed pc' its)) = (label_table pc' its).*1.
Proof.
  unfold label_table. intros H. revert pc'. induction H as [|it its Hi _ IH]; intros pc'; [done|]. cbn [placed omap list_omap].
  destruct it as [w|n|n imm|n imm|n|n|n]; cbn [reloc_of branch_to label_at fst snd]; [apply IH| |rewrite labels_cons_branch by done; apply IH..].
  rewrite labels_cons_label by done. rewrite fmap_cons. cbn [fst label RELOC_INFO_LABEL]. rewrite wrap_small by done. f_equal. apply IH.
Qed.

Lemma relocs_branches its pc' :
  0 <= pc' -> pc' + program_size its <= 2 ^ 11 -> NoDup (branch_addrs (omap reloc_of (placed pc' its)))
  /\ Forall (fun a => pc' <= a) (branch_addrs (omap reloc_of (placed pc' its))).
Proof.
  revert pc'. induction its as [|it its IH]; intros pc' H0 H1; cbn [placed omap list_omap program_size] in *; [split; constructor|].
  pose proof (program_size_nonneg its). assert (0 <= item_size it) by (destruct it; cbn; lia).
  destruct (IH (pc' + item_size it)) as [Hn Hf]; [lia|lia|].
  assert (Hf' : Forall (fun a => pc' <= a) (branch_addrs (omap reloc_of (placed (pc' + item_size it) its))))
    by (eapply Forall_impl; [exact Hf|]; intros a; cbn; lia).
  destruct (branch_to it) as [[n near]|] eqn:Eb.
  - rewrite (reloc_branch _ _ _ _ Eb). rewrite branch_addrs_branch by done. rewrite (branch_size _ _ _ Eb) in *. cbn [addr RELOC_INFO_BRANCH].
    rewrite wrap_small by lia. split; [|constructor; [lia|done]]. constructor; [|done]. rewrite Forall_forall in Hf.
    intros Hin. specialize (Hf _ Hin). lia.
  - by destruct it.
Qed.
End Program.

(** ** The loader *)

Lemma target_in tbl n a : NoDup tbl.*1 -> (n, a) ∈ tbl -> target tbl n = a.
Proof.
  induction tbl as [|[k c] tbl IH]; cbn [target]; [intros _ H; by apply elem_of_nil in H|]. rewrite fmap_cons. intros [Hn Hnd]%NoDup_cons.
  intros [[= -> ->]|Hin]%elem_of_cons; [by rewrite Z.eqb_refl|]. destruct (Z.eqb_spec k n) as [->|]; [|auto].
  destruct Hn. apply list_elem_of_fmap. by exists (n, a).
Qed.

Lemma label_table_in pc items n a : (n, a) ∈ label_table pc items <-> (a, Label n) ∈ placed pc items.
Proof.
  unfold label_table. rewrite list_elem_of_omap. split.
  - intros ([q it] & Hp & Hl). destruct it; try done. cbn in Hl. by injection Hl as -> ->.
  - intros Hp. by exists (a, Label n).
Qed.

Lemma encode_length tbl p : Z.of_nat (length (encode_item tbl p)) = item_size p.2.
Proof. by destruct p as [q []]. Qed.

Lemma assemble_at tbl pc its q it w :
  (q, it) ∈ placed pc its -> encode_item tbl (q, it) = [w] -> at_ 0 (concat (encode_item tbl <$> placed pc its)) (q - pc) = w.
Proof.
  revert pc. induction its as [|i its IH]; intros pc; cbn [placed]; [intros H; by apply elem_of_nil in H|].
  rewrite fmap_cons. cbn [concat]. intros [[= -> ->]|Hin]%elem_of_cons Hw.
  - rewrite Hw, Z.sub_diag. done.
  - apply placed_range in Hin as Hr. assert (0 <= item_size i) by (destruct i; cbn; lia).
    assert (Hs : item_size it = 1).
    { pose proof (encode_length tbl (q, it)) as E. rewrite Hw in E. done. }
    assert (0 <= item_size it) by lia. rewrite at_app by lia. rewrite encode_length. cbn [snd].
    rewrite (proj2 (Z.ltb_ge _ _)) by lia. replace (q - pc - item_size i) with (q - (pc + item_size i)) by lia. auto.
Qed.

Lemma encode_branch tbl q it n near : branch_to it = Some (n, near) -> encode_item tbl (q, it) = [fixed it q (target tbl n)].
Proof. destruct it; cbn; intros [= <- <-]; done. Qed.

Lemma encode_insn tbl q it : item_size it = 1 -> branch_to it = None -> encode_item tbl (q, it) = [raw it].
Proof. by destruct it. Qed.

(** What a run comes to, in terms of the program that was written. *)
Inductive load_result (load : Z) (items : list ulp_item) (m' : rtc_mem) : esp_err_t -> Prop :=
| LoadOk :
    links load items ->
    (forall j, load <= j < load + program_size items -> word m' j = at_ 0 (assemble load items) (j - load)) ->
    load_result load items m' ESP_OK
| LoadDuplicate : ~ NoDup (label_table load items).*1 -> load_result load items m' ESP_ERR_ULP_DUPLICATE_LABEL
| LoadUndefined q it n near :
    (q, it) ∈ placed load items -> branch_to it = Some (n, near) -> n ∉ (label_table load items).*1 ->
    load_result load items m' ESP_ERR_ULP_UNDEFINED_LABEL
| LoadRange q it n a :
    (q, it) ∈ placed load items -> branch_to it = Some (n, true) -> (n, a) ∈ label_table load items -> 127 < Z.abs (a - q) ->
    load_result load items m' ESP_ERR_ULP_BRANCH_OUT_OF_RANGE.

Section Loader.
Context (load : Z) (items : list ulp_item).
Context (Hok : Forall item_ok items) (Hend : ends_ok items) (Hload : 0 <= load) (Hfit : load + program_size items <= 2 ^ 11).
Let tbl := label_table load items.
Let R := relocs load items.

Lemma defined_in n : n ∈ tbl.*1 <-> exists t, t ∈ R /\ is_label t /\ label t = n.
Proof.
  unfold tbl, R. rewrite list_elem_of_fmap. split.
  - intros ([k a] & -> & Hin). apply label_table_in in Hin. exists (RelocInfo k a RELOC_TYPE_LABEL). split; [|done].
    apply reloc_in; [done..|]. left. by exists k, a.
  - intros (t & Hin & Hl & <-). apply reloc_in in Hin; [|done..]. destruct Hin as [(k & q & Hp & ->)|(k & near & q & it & _ & _ & ->)]; [|done].
    exists (k, q). split; [done|]. by apply label_table_in.
Qed.

Lemma label_addr_in t n : t ∈ R -> is_label t -> label t = n -> (n, addr t) ∈ tbl.
Proof.
  intros Hin Hl <-. apply reloc_in in Hin; [|done..]. destruct Hin as [(k & q & Hp & ->)|(k & near & q & it & _ & _ & ->)]; [|done].
  by apply label_table_in.
Qed.

Lemma branch_reloc q it n near :
  (q, it) ∈ placed load items -> branch_to it = Some (n, near) ->
  RelocInfo n q RELOC_TYPE_BRANCH ∈ R /\ find_insn load items q = it.
Proof.
  intros Hp Hb. split; [|by eapply find_placed, branch_size]. apply reloc_in; [done..|]. right. by exists n, near, q, it.
Qed.

Lemma branch_of r : r ∈ R -> is_branch r -> exists near, (addr r, find_insn load items (addr r)) ∈ placed load items
  /\ branch_to (find_insn load items (addr r)) = Some (label r, near).
Proof.
  intros Hin Hb. apply reloc_in in Hin; [|done..]. destruct Hin as [(k & q & _ & ->)|(k & near & q & it & Hp & Hbr & ->)]; [done|].
  exists near. cbn [addr label]. rewrite (find_placed load items q it Hp) by (by eapply branch_size). done.
Qed.

(** The contents once all branches are fixed. *)
Lemma contents m m' :
  NoDup tbl.*1 -> loaded load items m -> length m' = length m -> 4 * (load + program_size items) <= Z.of_nat (length m) ->
  (forall j, in_bounds m j -> j ∉ branch_addrs R -> word m' j = word m j) ->
  (forall r, r ∈ R -> is_branch r -> word m' (addr r) = fixed (find_insn load items (addr r)) (addr r) (target tbl (label r))) ->
  forall j, load <= j < load + program_size items -> word m' j = at_ 0 (assemble load items) (j - load).
Proof.
  intros Hnd Hld Hlen Hm Hout Hin j Hj. destruct (placed_total j load items Hj) as (it & Hp & Hs). symmetry. unfold assemble.
  fold tbl. destruct (branch_to it) as [[n near]|] eqn:Eb.
  - destruct (branch_reloc j it n near Hp Eb) as [Hr Hf]. pose proof (Hin _ Hr eq_refl) as Hw. cbn [addr label] in Hw. rewrite Hw, Hf.
    eapply assemble_at; [exact Hp|]. by eapply encode_branch.
  - rewrite Hout.
    + rewrite (Hld j it Hp Hs). eapply assemble_at; [exact Hp|]. by apply encode_insn.
    + split; lia.
    + intros (r & -> & Hr)%list_elem_of_fmap. apply list_elem_of_filter in Hr as [Hbr Hr].
      destruct (branch_of r Hr Hbr) as (near & Hp' & Hb'). rewrite (find_placed load items (addr r) it Hp Hs) in Hb'. congruence.
Qed.

(** The walk over the sorted relocations, in terms of the program. *)
Lemma walked_result li l m m' e :
  li :: l ≡ₚ R -> is_label li -> loaded load items m -> length m' = length m ->
  4 * (load + program_size items) <= Z.of_nat (length m) -> untouched l m m' ->
  walked (find_insn load items) li l m' e -> load_result load items m' e.
Proof.
  intros HP Hli Hld Hlen Hm [_ Hu] Hw.
  assert (HR : forall r, r ∈ R <-> r ∈ li :: l) by (intros r; by rewrite HP).
  assert (Hbl : forall r, r ∈ R -> is_branch r -> r ∈ l).
  { intros r Hr Hb. apply HR in Hr as Hr'. apply elem_of_cons in Hr' as [->|]; [|done]. by destruct (label_not_branch li). }
  assert (Hlabs : labels_of (li :: l) ≡ₚ tbl.*1).
  { unfold tbl. rewrite <- (relocs_labels items load Hok). unfold labels_of. by rewrite HP. }
  assert (Hnear : forall r n near, branch_to (find_insn load items (addr r)) = Some (n, near) -> near_of (find_insn load items) r = near)
    by (intros r n near E; unfold near_of; by rewrite E).
  destruct Hw as [Hn Hall|Hn|r Hr Hb Hno|r t Hr Hb Ht [Hd1 Hd2] Hre].
  - rewrite Hlabs in Hn.
    assert (Hfix : forall r, r ∈ R -> is_branch r -> reaches (near_of (find_insn load items) r) (addr r) (target tbl (label r)) = true
      /\ label r ∈ tbl.*1 /\ word m' (addr r) = fixed (find_insn load items (addr r)) (addr r) (target tbl (label r))).
    { intros r Hr Hb. destruct (Hall r (Hbl r Hr Hb) Hb) as (t & Ht & [Hd1 Hd2] & Hre & Hwd). apply HR in Ht.
      rewrite (target_in tbl (label r) (addr t) Hn) by (by apply label_addr_in). split_and!; [done|apply defined_in; eauto|done]. }
    apply LoadOk.
    + split; [done| |].
      * intros q it n near Hp Hb. destruct (branch_reloc q it n near Hp Hb) as [Hr _]. by apply (Hfix _ Hr).
      * intros q it n Hp Hb. destruct (branch_reloc q it n true Hp Hb) as [Hr Hf].
        destruct (Hfix _ Hr eq_refl) as [Hre _]. rewrite (Hnear _ n true) in Hre by (cbn [addr]; by rewrite Hf).
        unfold reaches in Hre. cbn [negb orb addr label] in Hre. by apply Z.leb_le in Hre.
    + eapply contents; [done|exact Hld|done|done| |].
      * intros j Hj Hjn. apply Hu; [done|]. intros Hj'. apply Hjn. unfold branch_addrs in *. apply list_elem_of_fmap in Hj' as (r & -> & Hr).
        apply list_elem_of_filter in Hr as [Hb Hr]. apply list_elem_of_fmap. exists r. split; [done|]. apply list_elem_of_filter. split; [done|].
        apply HR. by right.
      * intros r Hr Hb. by apply Hfix.
  - apply LoadDuplicate. fold tbl. by rewrite <- Hlabs.
  - assert (Hr' : r ∈ R) by (apply HR; by right). destruct (branch_of r Hr' Hb) as (near & Hp & Hbr).
    eapply LoadUndefined; [exact Hp|exact Hbr|]. fold tbl. rewrite defined_in. intros (t & Ht & Hl & E). apply HR in Ht. by apply (Hno t Ht).
  - assert (Hr' : r ∈ R) by (apply HR; by right). destruct (branch_of r Hr' Hb) as (near & Hp & Hbr). apply HR in Ht.
    rewrite (Hnear r _ _ Hbr) in Hre. unfold reaches in Hre. apply orb_false_iff in Hre as [Hne Hre]. apply negb_false_iff in Hne. subst near.
    apply Z.leb_gt in Hre. eapply (LoadRange _ _ _ _ _ (label r) (addr t)); [exact Hp|exact Hbr|by apply label_addr_in|lia].
Qed.
End Loader.

Section LoadSpec.
Context {Q : Qsort} {HQ : QsortLaws Q} (reserve_mem load : Z) (items : list ulp_item) (m : rtc_mem).
Context (Hok : Forall item_ok items) (Hend : ends_ok items).
Context (Hload : 0 <= load) (Hres : reserve_mem <= RTC_SLOW_MEM_SIZE) (Hfit : load + program_size items <= reserve_mem / 4).
Context (Hm : Z.of_nat (length m) = RTC_SLOW_MEM_SIZE).

(** The branch with the smallest label number has no label. *)
Definition first_undefined : Prop :=
  exists q it n near, (q, it) ∈ placed load items /\ branch_to it = Some (n, near)
    /\ forall k, k ∈ (label_table load items).*1 -> n < k.

Lemma load_fits : load + program_size items <= 2 ^ 11.
Proof. clear - Hres Hfit. unfold RTC_SLOW_MEM_SIZE in *. pose proof (Z.div_le_mono reserve_mem 8192 4 ltac:(lia) Hres) as H. etransitivity; [exact Hfit|exact H]. Qed.

Lemma copy_spec :
  macro_count (source_words items) = 0 ->
  wp (wr_words load (source_words items)) (fun _ m' =>
    load_result load items m' ESP_OK /\ same_outside load (program_size items) m m' /\ ~ first_undefined) m.
Proof.
  intros H0. destruct (no_macros load items Hok H0) as (Esrc & Erel & Hins). pose proof (source_size items Hok) as Hs.
  assert (Htbl : label_table load items = []).
  { destruct (label_table load items) as [|[n a] l] eqn:E; [done|]. assert (Hin : (n, a) ∈ label_table load items) by (rewrite E; left).
    apply label_table_in, Hins in Hin as [w ?]. done. }
  assert (Hnb : forall q it n near, (q, it) ∈ placed load items -> branch_to it = Some (n, near) -> False).
  { intros q it n near Hp Hb. destruct (Hins q it Hp) as [w ->]. done. }
  pose proof load_fits as Hf. change (2 ^ 11) with 2048 in Hf. unfold RTC_SLOW_MEM_SIZE in *. apply wp_wr_words; [done|lia| |].
  - rewrite Esrc. apply Forall_fmap. eapply Forall_impl; [exact Hok|]. intros it. apply raw_word.
  - intros m' Hl Hw _. split_and!; [| |by intros (q & it & n & near & Hp & Hb & _); eauto].
    + apply LoadOk.
      * split; [rewrite Htbl; constructor|intros; by exfalso; eauto|intros; by exfalso; eauto].
      * intros j Hj. rewrite Hw by lia. rewrite (proj2 (within_spec _ _ _)) by lia. f_equal. unfold assemble. rewrite Htbl, Esrc.
        clear - Hins. revert Hins. generalize load. induction items as [|it its IH]; intros pc Hins; [done|].
        cbn [placed]. rewrite !fmap_cons. cbn [concat]. destruct (Hins pc it) as [w ->]; [left|]. cbn [encode_item snd app raw]. f_equal.
        apply IH. intros q it Hp. apply (Hins q it). by right.
    + split; [done|]. intros j [Hj1 Hj2] Hn. rewrite Hw by lia. by rewrite (proj2 (within_false _ _ _)) by lia.
Qed.

Lemma relocs_type r : r ∈ relocs load items -> is_label r \/ is_branch r.
Proof.
  intros Hr. apply reloc_in in Hr; [|done|done|done|exact load_fits].
  destruct Hr as [(n & q & _ & ->)|(n & near & q & it & _ & _ & ->)]; [by left|by right].
Qed.

Lemma fix_sorted li l m1 :
  li :: l ≡ₚ relocs load items -> StronglySorted before (li :: l) -> is_label li -> loaded load items m1 ->
  4 * (load + program_size items) <= Z.of_nat (length m1) ->
  wp (fix_insns load (Some li) l) (fun e m' => walked (find_insn load items) li l m' e /\ untouched l m1 m') m1.
Proof.
  intros HP HS Hlab Hld Hl1. assert (Hrel : forall r, r ∈ li :: l -> r ∈ relocs load items) by (intros r; by rewrite HP).
  apply fix_spec; [done|exact HS|done| | |].
  - apply Forall_forall. intros r Hr. apply relocs_type, Hrel. by right.
  - destruct (relocs_branches items load Hload load_fits) as [Hn _]. fold (relocs load items) in Hn. unfold branch_addrs in *. rewrite <- HP in Hn.
    by rewrite filter_cons_False in Hn by (intros H; by eapply label_not_branch).
  - intros r Hr Hb. assert (Hr' : r ∈ relocs load items) by (apply Hrel; by right).
    destruct (branch_of load items Hok Hend Hload load_fits r Hr' Hb) as (near & Hp & Hbr). apply placed_range in Hp as Hrange.
    rewrite (branch_size _ _ _ Hbr) in Hrange. pose proof load_fits.
    split; [eauto|lia|split; lia|]. apply Hld; [done|by eapply branch_size].
Qed.

Lemma record_fix_spec :
  match (reloc_info ← record_macros load (source_words items); fix_insns load None (qsort reloc_info)) m with
  | Ret (e, m') => load_result load items m' e /\ same_outside load (program_size items) m m' /\ ~ first_undefined
  | Stuck f => f = AssertFailed /\ first_undefined
  end.
Proof.
  pose proof load_fits as Hf. change (2 ^ 11) with 2048 in Hf. unfold RTC_SLOW_MEM_SIZE in *. pose proof (program_size_nonneg items) as Hsz.
  destruct (wp_inv _ _ _ (record_spec items load m Hok Hend Hload ltac:(lia) ltac:(lia))) as (R & m1 & Hrun & -> & [Hl1 Ho1] & Hld).
  rewrite (run_bind _ _ _ _ _ Hrun). pose proof (qsort_permutes (relocs load items)) as HP.
  pose proof (qsort_sorts (relocs load items)) as HS.
  assert (Hrel : forall r, r ∈ qsort (relocs load items) -> r ∈ relocs load items) by (intros r; by rewrite HP).
  destruct (qsort (relocs load items)) as [|li l] eqn:Eq; cbn [fix_insns].
  - cbn. apply Permutation_nil_l in HP. assert (Hno : forall r, r ∈ relocs load items -> False) by (intros r Hr; rewrite <- HP in Hr; by apply elem_of_nil in Hr).
    split_and!; [|done..|intros (q & it & n & near & Hp & Hb & _); by eapply Hno, branch_reloc]. apply LoadOk.
    + split.
      * rewrite <- (relocs_labels items load Hok). fold (relocs load items). rewrite <- HP. constructor.
      * intros q it n near Hp Hb. exfalso. by eapply Hno, branch_reloc.
      * intros q it n Hp Hb. exfalso. by eapply Hno, branch_reloc.
    + eapply (contents load items) with (m := m1); try done; [|lia|].
      * rewrite <- (relocs_labels items load Hok). fold (relocs load items). rewrite <- HP. constructor.
      * intros r Hr. rewrite <- HP in Hr. by apply elem_of_nil in Hr.
  - assert (Hli : li ∈ relocs load items) by (apply Hrel; left). destruct (decide (is_label li)) as [Hlab|Hlab].
    + rewrite (proj2 (Z.eqb_eq _ _)) by exact Hlab.
      pose proof (fix_sorted li l m1 HP HS Hlab Hld ltac:(lia)) as Hfix.
      destruct (wp_inv _ _ _ Hfix) as (e & m' & Hrun' & Hw & Hu). rewrite (run_bind (check true) _ m1 tt m1 eq_refl), Hrun'. split_and!.
      * eapply walked_result; [done|done|done|done|exact HP|done|exact Hld|by destruct Hu|lia|done|done].
      * split; [destruct Hu; congruence|]. intros j Hj Hn. rewrite (proj2 Hu); [by apply Ho1|unfold in_bounds in *; by rewrite Hl1|].
        intros (r & -> & Hr)%list_elem_of_fmap. apply list_elem_of_filter in Hr as [Hb Hr].
        destruct (branch_of load items Hok Hend Hload load_fits r) as (near & Hp & Hbr); [apply Hrel; by right|done|].
        apply placed_range in Hp. rewrite (branch_size _ _ _ Hbr) in Hp. lia.
      * intros (q & it & n & near & Hp & Hb & Hlt). destruct (branch_reloc load items Hok Hend Hload load_fits q it n near Hp Hb) as [Hr _]. rewrite <- HP in Hr.
        assert (n < label li) by (apply Hlt, (defined_in load items Hok Hend Hload load_fits); by exists li).
        apply elem_of_cons in Hr as [<-|Hr]; [done|]. apply StronglySorted_inv in HS as [_ HS]. rewrite Forall_forall in HS. specialize (HS _ Hr). apply before_iff in HS. cbn in HS. lia.
    + rewrite (proj2 (Z.eqb_neq _ _)) by exact Hlab. cbn. split; [done|]. destruct (relocs_type li Hli) as [|Hb]; [done|].
      destruct (branch_of load items Hok Hend Hload load_fits li Hli Hb) as (near & Hp & Hbr). exists (addr li), (find_insn load items (addr li)), (label li), near.
      split_and!; [done|done|]. intros k Hk. apply (defined_in load items) in Hk as (t & Ht & Htl & <-); [|done..].
      rewrite <- HP in Ht. apply elem_of_cons in Ht as [->|Ht]; [done|]. apply StronglySorted_inv in HS as [_ HS]. rewrite Forall_forall in HS.
      specialize (HS t Ht). apply before_iff in HS. unfold is_label, is_branch, RELOC_TYPE_LABEL, RELOC_TYPE_BRANCH in *. lia.
Qed.

Lemma load_spec :
  match ulp_process_macros_and_load reserve_mem true load (source_words items) m with
  | Ret ((e, n), m') =>
      load_result load items m' e /\ same_outside load (program_size items) m m'
      /\ n = (if e =? ESP_OK then program_size items else Z.of_nat (length (source_words items))) /\ ~ first_undefined
  | Stuck f => f = AssertFailed /\ first_undefined
  end.
Proof.
  unfold ulp_process_macros_and_load. cbv zeta. rewrite (source_size items Hok). pose proof (program_size_nonneg items) as Hsz.
  pose proof load_fits as Hf. rewrite (proj2 (Z.ltb_ge _ _)) by lia. rewrite u32_small by lia. rewrite (proj2 (Z.ltb_ge _ _)) by lia.
  destruct (Z.eqb_spec (macro_count (source_words items)) 0) as [H0|H0].
  - pose proof (copy_spec H0) as Hw. destruct (wp_inv _ _ _ Hw) as (u & m' & Hrun & HR & Hs & Hno).
    rewrite (run_bind _ _ _ _ _ Hrun). cbn. split_and!; [done|done| |done]. pose proof (source_size items Hok). lia.
  - cbn [negb]. pose proof record_fix_spec as Hr. unfold mbind, M_bind in *.
    destruct (record_macros load (source_words items) m) as [[R m1]|f]; [|done].
    destruct (fix_insns load None (qsort R) m1) as [[e m']|f]; [|done]. destruct Hr as (HR & Hs & Hno).
    destruct (Z.eqb_spec e ESP_OK) as [->|Hne]; cbn; (split_and!; [done|done| |done]); [done|]. by rewrite (proj2 (Z.eqb_neq _ _)).
Qed.
End LoadSpec.

(** C15: The macro processor is an assembler.  A program of instructions,
    labels and branches to labels that does not end in a label, and that
    fits, loads exactly if it links: every label is defined once, every
    branch has its label, and every relative branch is within 127 words of
    it.  Then the memory from the load address on holds what the reference
    assembler gives, the encodings of the branches to the addresses of their
    labels, the rest of the memory is unchanged, and the reported size is the
    number of instructions.  This holds for every [qsort]. *)
Theorem ulp_load_assembles {Q : Qsort} {HQ : QsortLaws Q} reserve_mem load items m :
  Forall item_ok items -> ends_ok items -> 0 <= load -> reserve_mem <= RTC_SLOW_MEM_SIZE ->
  load + program_size items <= reserve_mem / 4 -> Z.of_nat (length m) = RTC_SLOW_MEM_SIZE ->
  ((exists n m', ulp_process_macros_and_load reserve_mem true load (source_words items) m = Ret ((ESP_OK, n), m')) <-> links load items)
  /\ forall n m', ulp_process_macros_and_load reserve_mem true load (source_words items) m = Ret ((ESP_OK, n), m') ->
     n = program_size items /\ length m' = length m
     /\ forall j, 0 <= j < RTC_SLOW_MEM_SIZE / 4 ->
          word m' j = if within load (program_size items) j then at_ 0 (assemble load items) (j - load) else word m j.
Proof.
  intros Hok Hend Hload Hres Hfit Hm. pose proof (load_spec reserve_mem load items m Hok Hend Hload Hres Hfit Hm) as Hs. split.
  - split.
    + intros (n & m' & Hrun). rewrite Hrun in Hs. destruct Hs as [HR _]. by inversion HR.
    + intros [L1 L2 L3]. destruct (ulp_process_macros_and_load _ _ _ _ _) as [[[e n] m']|f].
      * exists n, m'. destruct Hs as [HR _]. destruct HR as [| |q it k near Hp Hb Hn|q it k a Hp Hb Ha Hr]; [done|done|by destruct Hn; eauto|].
        specialize (L3 q it k Hp Hb). rewrite (target_in _ k a) in L3 by done. lia.
      * destruct Hs as [_ (q & it & k & near & Hp & Hb & Hlt)]. specialize (Hlt k (L2 q it k near Hp Hb)). lia.
  - intros n m' Hrun. rewrite Hrun in Hs. destruct Hs as (HR & [Hl Ho] & Hn & _). split_and!; [done|done|].
    intros j Hj. change (RTC_SLOW_MEM_SIZE / 4) with 2048 in Hj. unfold RTC_SLOW_MEM_SIZE in *. destruct (within _ _ _) eqn:E.
    + apply within_spec in E. inversion HR. auto.
    + apply within_false in E. apply Ho; [split; lia|done].
Qed.

(** C30: What the errors mean.  On a program that fits and does not link, the
    result [ESP_ERR_ULP_DUPLICATE_LABEL], [ESP_ERR_ULP_UNDEFINED_LABEL] or
    [ESP_ERR_ULP_BRANCH_OUT_OF_RANGE] is given only for a label that is
    defined twice, a branch without a label, a relative branch that is too
    long; the size is not changed and no word outside of the program's place
    is written.  No error code is returned, but the assertion of ulp_macro.c:232
    fails, exactly when some branch goes to a number smaller than those of all
    labels; ulp.h promises an error code for every invalid program. *)
Theorem ulp_load_errors {Q : Qsort} {HQ : QsortLaws Q} reserve_mem load items m :
  Forall item_ok items -> ends_ok items -> 0 <= load -> reserve_mem <= RTC_SLOW_MEM_SIZE ->
  load + program_size items <= reserve_mem / 4 -> Z.of_nat (length m) = RTC_SLOW_MEM_SIZE -> ~ links load items ->
  match ulp_process_macros_and_load reserve_mem true load (source_words items) m with
  | Ret ((e, n), m') =>
      e <> ESP_OK /\ load_result load items m' e /\ n = Z.of_nat (length (source_words items))
      /\ (forall j, 0 <= j < RTC_SLOW_MEM_SIZE / 4 -> within load (program_size items) j = false -> word m' j = word m j)
      /\ ~ first_undefined load items
  | Stuck f => f = AssertFailed /\ first_undefined load items
  end.
Proof.
  intros Hok Hend Hload Hres Hfit Hm Hlinks. pose proof (load_spec reserve_mem load items m Hok Hend Hload Hres Hfit Hm) as Hs.
  destruct (ulp_process_macros_and_load _ _ _ _ _) as [[[e n] m']|f]; [|exact Hs]. destruct Hs as (HR & [Hl Ho] & Hn & Hno).
  assert (He : e <> ESP_OK) by (intros ->; by inversion HR). rewrite (proj2 (Z.eqb_neq _ _) He) in Hn. split_and!; [done|done|done| |done].
  intros j Hj E. change (RTC_SLOW_MEM_SIZE / 4) with 2048 in Hj. unfold RTC_SLOW_MEM_SIZE in *. apply within_false in E.
  apply Ho; [split; lia|done].
Qed.

(** ** Binaries *)

(** A binary with the header, [gap] bytes that are not loaded, and the
    sections. *)
Definition binary_header (gap text data : list Z) (bss : Z) : list Z :=
  le_encode 4 ULP_BINARY_MAGIC_ESP32 ++ le_encode 2 (12 + Z.of_nat (length gap)) ++ le_encode 2 (Z.of_nat (length text))
  ++ le_encode 2 (Z.of_nat (length data)) ++ le_encode 2 bss.
Definition ulp_binary (gap text data : list Z) (bss : Z) : list Z := binary_header gap text data bss ++ gap ++ text ++ data.

Lemma binary_header_length gap text data bss : length (binary_header gap text data bss) = 12%nat.
Proof. unfold binary_header. rewrite !length_app, !length_le_encode. done. Qed.

Lemma decode_binary_header gap text data bss :
  12 + Z.of_nat (length gap) < 2 ^ 16 -> Z.of_nat (length text) < 2 ^ 16 -> Z.of_nat (length data) < 2 ^ 16 -> 0 <= bss < 2 ^ 16 ->
  decode_header (binary_header gap text data bss)
  = Header ULP_BINARY_MAGIC_ESP32 (12 + Z.of_nat (length gap)) (Z.of_nat (length text)) (Z.of_nat (length data)) bss.
Proof.
  intros H1 H2 H3 H4. unfold decode_header, binary_header.
  set (f0 := le_encode 4 ULP_BINARY_MAGIC_ESP32). set (f1 := le_encode 2 (12 + Z.of_nat (length gap))).
  set (f2 := le_encode 2 (Z.of_nat (length text))). set (f3 := le_encode 2 (Z.of_nat (length data))). set (f4 := le_encode 2 bss).
  rewrite (slice_field _ [] f0 (f1 ++ f2 ++ f3 ++ f4)), (slice_field _ f0 f1 (f2 ++ f3 ++ f4)), (slice_field _ (f0 ++ f1) f2 (f3 ++ f4)),
    (slice_field _ (f0 ++ f1 ++ f2) f3 f4), (slice_field _ (f0 ++ f1 ++ f2 ++ f3) f4 []) by (by rewrite ?app_nil_r, <- ?app_assoc).
  unfold f0, f1, f2, f3, f4. rewrite !le_decode_encode by (done || (change (256 ^ Z.of_nat 2) with (2 ^ 16); lia)). done.
Qed.

Lemma wp_wr_bytes off data m Q :
  0 <= off -> off + Z.of_nat (length data) <= Z.of_nat (length m) ->
  (forall m', length m' = length m ->
     (forall i, at_ 0 m' i = if within off (Z.of_nat (length data)) i then at_ 0 data (i - off) else at_ 0 m i) -> Q tt m') ->
  wp (wr_bytes off data) Q m.
Proof.
  intros H0 H1 HQ. unfold wr_bytes. do 2 wp_step. apply wp_bind. destruct (blit_spec m off data H0 H1) as (m' & Hb & Hl & Hat).
  eapply wp_lift; [exact Hb|]. wp_step. by apply HQ.
Qed.

(** A binary that is well formed and fits, its zeroed section included,
    is loaded: the text and data sections are at the load address, zeros
    behind them, and nothing else is changed. *)
Theorem ulp_binary_loads reserve_mem load gap text data bss n m :
  12 + Z.of_nat (length gap) < 2 ^ 16 -> Z.of_nat (length text) < 2 ^ 16 -> Z.of_nat (length data) < 2 ^ 16 -> 0 <= bss < 2 ^ 16 ->
  0 <= load -> Z.of_nat (length (ulp_binary gap text data bss)) = 4 * n -> reserve_mem < 2 ^ 32 ->
  4 * load + 4 * n <= reserve_mem ->
  4 * load + Z.of_nat (length text) + Z.of_nat (length data) + bss <= Z.of_nat (length m) ->
  exists m', ulp_load_binary reserve_mem load (ulp_binary gap text data bss) n m = Ret (ESP_OK, m')
    /\ length m' = length m
    /\ forall i, at_ 0 m' i = if within (4 * load) (Z.of_nat (length (text ++ data))) i then at_ 0 (text ++ data) (i - 4 * load)
                              else if within (4 * load + Z.of_nat (length (text ++ data))) bss i then 0 else at_ 0 m i.
Proof.
  intros H1 H2 H3 H4 Hload Hn Hres Hfit Hm.
  assert (Hlen : 4 * n = 12 + Z.of_nat (length gap) + Z.of_nat (length text) + Z.of_nat (length data)).
  { rewrite <- Hn. unfold ulp_binary. rewrite !length_app, binary_header_length. lia. }
  assert (Hwp : wp (ulp_load_binary reserve_mem load (ulp_binary gap text data bss) n) (fun r m' => r = ESP_OK /\ length m' = length m
    /\ forall i, at_ 0 m' i = if within (4 * load) (Z.of_nat (length (text ++ data))) i then at_ 0 (text ++ data) (i - 4 * load)
                              else if within (4 * load + Z.of_nat (length (text ++ data))) bss i then 0 else at_ 0 m i) m).
  { unfold ulp_load_binary. cbv zeta. rewrite !(u32_small (_ * 4)) by lia. rewrite (u32_small (_ + _)) by lia.
    rewrite !(proj2 (Z.ltb_ge _ _)) by lia. apply wp_bind. unfold bytes_at at 1. rewrite Hn.
    rewrite !(proj2 (Z.leb_le _ _)) by lia. cbn [andb]. eapply wp_lift; [done|].
    assert (slice (ulp_binary gap text data bss) 0 12 = binary_header gap text data bss) as ->
      by (apply slice_app_l; by rewrite binary_header_length).
    rewrite decode_binary_header by done. cbn [magic text_offset text_size data_size bss_size].
    rewrite Z.eqb_refl. cbn [negb]. rewrite (proj2 (Z.eqb_eq _ _)) by lia. cbn [negb]. apply wp_bind.
    eapply wp_lift with (a := text ++ data).
    { unfold bytes_at. rewrite Hn, !(proj2 (Z.leb_le _ _)) by lia. cbn [andb]. f_equal.
      apply (slice_field _ (binary_header gap text data bss ++ gap) (text ++ data) []).
      - unfold ulp_binary. by rewrite app_nil_r, <- app_assoc.
      - rewrite length_app, binary_header_length. lia.
      - rewrite length_app. lia. }
    apply wp_bind. apply wp_wr_bytes; [lia|rewrite length_app; lia|]. intros m1 Hl1 Hat1. apply wp_bind.
    apply wp_wr_bytes; [lia|rewrite length_replicate; lia|]. intros m2 Hl2 Hat2. wp_step. split_and!; [done|congruence|].
    intros i. rewrite Hat2, Hat1, length_replicate, Z2Nat.id by lia. rewrite length_app, Nat2Z.inj_add. replace (load * 4) with (4 * load) by lia.
    destruct (within (4 * load + _) bss i) eqn:E1; [|by destruct (within (4 * load) _ i)]. apply within_spec in E1.
    rewrite (proj2 (within_false (4 * load) _ i)) by lia. apply at_lookup; [lia|]. apply lookup_replicate. split; [done|lia]. }
  destruct (wp_inv _ _ _ Hwp) as (r & m' & Hrun & -> & HR). by exists m'.
Qed.

(** ** Starting a program *)

(** After [ulp_run] the coprocessor starts at the low 11 bits of the entry
    point, is not forced to start, and its timer is on. *)
Lemma ulp_run_effect entry_point (r : gmap Z Z) :
  exists r', ulp_run entry_point r = Ret (ESP_OK, r')
    /\ (forall i, 0 <= i < 11 -> Z.testbit (default 0 (r' !! SENS_SAR_START_FORCE_REG)) (11 + i) = Z.testbit entry_point i)
    /\ Z.testbit (default 0 (r' !! SENS_SAR_START_FORCE_REG)) 8 = false
    /\ Z.testbit (default 0 (r' !! RTC_CNTL_STATE0_REG)) 24 = true
    /\ forall reg, reg <> SENS_SAR_START_FORCE_REG -> reg <> RTC_CNTL_STATE0_REG -> reg <> RTC_CNTL_OPTIONS0_REG -> r' !! reg = r !! reg.
Proof.
  unfold ulp_run, CLEAR_PERI_REG_MASK, SET_PERI_REG_MASK, SET_PERI_REG_BITS, change_reg, modify, mbind, M_bind, mret, M_ret.
  eexists. split; [reflexivity|]. cbv beta. split_and!.
  - intros i Hi. rewrite !lookup_insert_ne by done. rewrite lookup_insert_eq. cbn [default from_option id]. rewrite lookup_insert_eq. cbn [default from_option id].
    rewrite Z.ldiff_spec, Z.lor_spec, Z.ldiff_spec. change SENS_ULP_CP_FORCE_START_TOP_M with (2 ^ 8).
    rewrite Z.pow2_bits_false by lia. cbn [negb]. rewrite andb_true_r, !Z.shiftl_spec by lia.
    change SENS_PC_INIT_V with (Z.ones 11). change SENS_PC_INIT_S with 11. replace (11 + i - 11) with i by lia.
    rewrite Z.land_spec, Z.ones_spec_low by lia. by rewrite andb_false_r, andb_true_r.
  - rewrite !lookup_insert_ne by done. rewrite lookup_insert_eq. cbn [default from_option id]. rewrite Z.ldiff_spec.
    change (Z.testbit SENS_ULP_CP_FORCE_START_TOP_M 8) with true. apply andb_false_r.
  - rewrite lookup_insert_eq. cbn [default from_option id]. rewrite Z.lor_spec. change (Z.testbit RTC_CNTL_ULP_CP_SLP_TIMER_EN 24) with true. apply orb_true_r.
  - intros reg H1 H2 H3. rewrite !lookup_insert_ne by congruence. done.
Qed.

(** ** A sort, and examples *)

#[export] Instance before_dec : RelDecision before.
Proof. intros x y. unfold before. apply _. Defined.

#[export] Instance before_total : Total before.
Proof. intros x y. rewrite !before_iff. lia. Qed.

#[export] Instance before_trans : Transitive before.
Proof. intros x y z. rewrite !before_iff. lia. Qed.

Definition merge_qsort : Qsort := merge_sort before.

Lemma merge_qsort_laws : QsortLaws merge_qsort.
Proof.
  split; intros l.
  - apply merge_sort_Permutation.
  - apply (StronglySorted_merge_sort before).
Qed.

(** The loop of the branch test of the component. *)
Definition ex_items : list ulp_item :=
  [Insn (I_MOVI 0 34); Label 1; Insn (I_ADDI 0 0 1); BL 1 64; BX 2; Insn I_HALT; Label 2; Insn I_WAKE; Insn I_HALT].
Definition ex_mem : rtc_mem := replicate (Z.to_nat 8192) 0.

Lemma ex_mem_length : Z.of_nat (length ex_mem) = RTC_SLOW_MEM_SIZE.
Proof. unfold ex_mem. rewrite length_replicate. reflexivity. Qed.

Lemma ex_items_ok : Forall item_ok ex_items.
Proof. repeat constructor; vm_compute; congruence. Qed.

Lemma ex_ends_ok : ends_ok ex_items.
Proof. by intros n. Qed.

Lemma ex_links : links 0 ex_items.
Proof.
  split.
  - apply (bool_decide_unpack _). vm_compute. exact I.
  - intros q it n near Hp Hb. change (label_table 0 ex_items).*1 with [1; 2].
    apply list_elem_of_In in Hp. cbn in Hp. decompose [or] Hp; simplify_eq/=; set_solver.
  - intros q it n Hp Hb. apply list_elem_of_In in Hp. cbn in Hp. decompose [or] Hp; simplify_eq/=; vm_compute; congruence.
Qed.

Lemma ulp_load_assembles_witness :
  exists n m', @ulp_process_macros_and_load merge_qsort 512 true 0 (source_words ex_items) ex_mem = Ret ((ESP_OK, n), m').
Proof.
  apply (proj2 (proj1 (@ulp_load_assembles merge_qsort merge_qsort_laws 512 0 ex_items ex_mem
    ex_items_ok ex_ends_ok ltac:(lia) ltac:(unfold RTC_SLOW_MEM_SIZE; lia) ltac:(vm_compute; congruence) ex_mem_length)) ex_links).
Defined.

(** A branch to a label that is not there, with a smaller number than the
    label that is. *)
Definition ex_bad : list ulp_item := [Label 5; BX 3; Insn I_HALT].

Lemma ex_bad_links : ~ links 0 ex_bad.
Proof.
  intros [_ H _]. specialize (H 0 (BX 3) 3 false ltac:(right; left) eq_refl). change (label_table 0 ex_bad).*1 with [5] in H. set_solver.
Qed.

(** A label that is defined twice. *)
Definition ex_twice : list ulp_item := [Label 5; Insn I_WAKE; Label 5; BX 5; Insn I_HALT].

Lemma ex_twice_links : ~ links 0 ex_twice.
Proof. intros [H _ _]. apply (bool_decide_pack _) in H. revert H. vm_compute. done. Qed.

Lemma ulp_load_errors_witness :
  first_undefined 0 ex_bad
  /\ exists n m', @ulp_process_macros_and_load merge_qsort 512 true 0 (source_words ex_twice) ex_mem = Ret ((ESP_ERR_ULP_DUPLICATE_LABEL, n), m')
       /\ load_result 0 ex_twice m' ESP_ERR_ULP_DUPLICATE_LABEL /\ n = Z.of_nat (length (source_words ex_twice))
       /\ (forall j, 0 <= j < RTC_SLOW_MEM_SIZE / 4 -> within 0 (program_size ex_twice) j = false -> word m' j = word ex_mem j)
       /\ ~ first_undefined 0 ex_twice.
Proof.
  split.
  - pose proof (@ulp_load_errors merge_qsort merge_qsort_laws 512 0 ex_bad ex_mem
      ltac:(repeat constructor; vm_compute; congruence) ltac:(by intros n) ltac:(lia) ltac:(unfold RTC_SLOW_MEM_SIZE; lia)
      ltac:(vm_compute; congruence) ex_mem_length ex_bad_links) as H.
    assert (E : @ulp_process_macros_and_load merge_qsort 512 true 0 (source_words ex_bad) ex_mem = Stuck AssertFailed) by (vm_compute; reflexivity).
    rewrite E in H. exact (proj2 H).
  - pose proof (@ulp_load_errors merge_qsort merge_qsort_laws 512 0 ex_twice ex_mem
      ltac:(repeat constructor; vm_compute; congruence) ltac:(by intros n) ltac:(lia) ltac:(unfold RTC_SLOW_MEM_SIZE; lia)
      ltac:(vm_compute; congruence) ex_mem_length ex_twice_links) as H.
    assert (E : match @ulp_process_macros_and_load merge_qsort 512 true 0 (source_words ex_twice) ex_mem with Ret ((e, _), _) => e | Stuck _ => 0 end = ESP_ERR_ULP_DUPLICATE_LABEL) by (vm_compute; reflexivity).
    destruct (@ulp_process_macros_and_load merge_qsort 512 true 0 (source_words ex_twice) ex_mem) as [[[e n] m']|f]; [|discriminate E]. subst e.
    exists n, m'. split; [reflexivity|]. exact (proj2 H).
Defined.

(** That program stops on an assertion instead of an error code. *)
Example undefined_label_asserts :
  @ulp_process_macros_and_load merge_qsort 512 true 0 (source_words ex_bad) ex_mem = Stuck AssertFailed.
Proof. vm_compute. reflexivity. Qed.

Lemma ulp_binary_loads_witness :
  exists m', ulp_load_binary 512 2 (ulp_binary [] [1; 2; 3; 4] [5; 6; 7; 8] 16) 5 ex_mem = Ret (ESP_OK, m')
    /\ length m' = length ex_mem
    /\ forall i, at_ 0 m' i = if within (4 * 2) (Z.of_nat (length ([1; 2; 3; 4] ++ [5; 6; 7; 8]))) i
                              then at_ 0 ([1; 2; 3; 4] ++ [5; 6; 7; 8]) (i - 4 * 2)
                              else if within (4 * 2 + Z.of_nat (length ([1; 2; 3; 4] ++ [5; 6; 7; 8]))) 16 i then 0 else at_ 0 ex_mem i.
Proof.
  apply (ulp_binary_loads 512 2 [] [1; 2; 3; 4] [5; 6; 7; 8] 16 5 ex_mem); try (cbn; lia).
  rewrite ex_mem_length. cbn. unfold RTC_SLOW_MEM_SIZE. lia.
Defined.

(** The size of the zeroed section is not checked: 8 bytes of code with 9000
    bytes to clear run past the end of the RTC memory. *)
Example bss_not_checked : ulp_load_binary 512 0 (ulp_binary [] [1; 2; 3; 4] [5; 6; 7; 8] 9000) 5 ex_mem = Stuck OutOfBounds.
Proof. vm_compute. reflexivity. Qed.

(** A load address of 2^30 words is taken for 0. *)
Example load_addr_wraps :
  match ulp_load_binary 512 (2 ^ 30) (ulp_binary [] [1; 2; 3; 4] [5; 6; 7; 8] 0) 5 ex_mem with
  | Ret (rc, m') => rc = ESP_OK /\ slice m' 0 8 = [1; 2; 3; 4; 5; 6; 7; 8]
  | Stuck _ => False
  end.
Proof. vm_compute. done. Qed.
