(* ===== verification/WearLevel.v ===== *)
(** * Wear levelling (components/wear_levelling)

    A [WL_Flash] offers a flash of [flash_size] bytes on top of a driver with
    one page more.  The additional page, the dummy, moves through the memory:
    after every [updaterate] erasures the page behind it is copied into it.
    The position of the dummy is kept in two copies at the end of the memory:
    a header with a checksum, written once per round of the dummy, and one byte
    per step, cleared when the step is done.

    The driver is any implementation of the abstract class [Flash_Access]; the
    two that the component has, [Partition] and [SPI_Flash], are instances of
    it over the models of partition.c and flash_ops.c (in [WearMount]).  The
    checksum is the function [crc32_le] of the ROM, a parameter. *)

From S2P Require Import Prelude FlashOps.

#[local] Open Scope Z_scope.

(** ** The driver *)

(** The methods of [Flash_Access] on the driver object [d] of type [Drv], over
    the state [D] of the device.  [fa_read] gets the bytes of the buffer and
    returns its new ones. *)
Class Flash_Access (Drv D : Type) := {
  fa_erase_sector : Drv -> Z -> M D esp_err_t;
  fa_erase_range : Drv -> Z -> Z -> M D esp_err_t;
  fa_write : Drv -> Z -> list Z -> M D esp_err_t;
  fa_read : Drv -> Z -> list Z -> M D (esp_err_t * list Z)
}.

(** ** Data *)

Record wl_state_t : Type := WLState {
  pos : Z;
  max_pos : Z;
  move_count : Z;
  access_count : Z;
  max_count : Z;
  block_size : Z;
  version : Z;
  crc : Z
}.
Definition sizeof_wl_state_t : Z := 32.

Definition encode_state (s : wl_state_t) : list Z :=
  le_encode 4 (pos s) ++ le_encode 4 (max_pos s) ++ le_encode 4 (move_count s) ++ le_encode 4 (access_count s)
  ++ le_encode 4 (max_count s) ++ le_encode 4 (block_size s) ++ le_encode 4 (version s) ++ le_encode 4 (crc s).
Definition word (l : list Z) (i : Z) : Z := le_decode (slice l (4 * i) 4).
Definition decode_state (l : list Z) : wl_state_t :=
  WLState (word l 0) (word l 1) (word l 2) (word l 3) (word l 4) (word l 5) (word l 6) (word l 7).

Definition set_pos (v : Z) (s : wl_state_t) : wl_state_t :=
  WLState v (max_pos s) (move_count s) (access_count s) (max_count s) (block_size s) (version s) (crc s).
Definition set_access_count (v : Z) (s : wl_state_t) : wl_state_t :=
  WLState (pos s) (max_pos s) (move_count s) v (max_count s) (block_size s) (version s) (crc s).
Definition set_move_count (v : Z) (s : wl_state_t) : wl_state_t :=
  WLState (pos s) (max_pos s) v (access_count s) (max_count s) (block_size s) (version s) (crc s).
Definition set_crc (v : Z) (s : wl_state_t) : wl_state_t :=
  WLState (pos s) (max_pos s) (move_count s) (access_count s) (max_count s) (block_size s) (version s) v.

Record wl_config_t : Type := WLConfig {
  start_addr : Z;
  full_mem_size : Z;
  page_size : Z;
  sector_size : Z;
  updaterate : Z;
  wr_size : Z;
  cfg_version : Z;
  temp_buff_size : Z;
  cfg_crc : Z
}.
Definition sizeof_wl_config_t : Z := 36.

Definition encode_config (c : wl_config_t) : list Z :=
  le_encode 4 (start_addr c) ++ le_encode 4 (full_mem_size c) ++ le_encode 4 (page_size c) ++ le_encode 4 (sector_size c)
  ++ le_encode 4 (updaterate c) ++ le_encode 4 (wr_size c) ++ le_encode 4 (cfg_version c) ++ le_encode 4 (temp_buff_size c) ++ le_encode 4 (cfg_crc c).

(** The object.  [flash_drv] is [None] when it is [NULL], [temp_buff] when
    its allocation failed. *)
Record WL_Flash (Drv : Type) : Type := WLFlash {
  configured : bool;
  initialized : bool;
  state : wl_state_t;
  cfg : wl_config_t;
  flash_drv : option Drv;
  addr_cfg : Z;
  addr_state1 : Z;
  addr_state2 : Z;
  flash_size : Z;
  state_size : Z;
  cfg_size : Z;
  temp_buff : option (list Z);
  dummy_addr : Z;
  used_bits : Z
}.
Arguments WLFlash {Drv}.
Arguments configured {Drv}. Arguments initialized {Drv}. Arguments state {Drv}. Arguments cfg {Drv}. Arguments flash_drv {Drv}.
Arguments addr_cfg {Drv}. Arguments addr_state1 {Drv}. Arguments addr_state2 {Drv}. Arguments flash_size {Drv}. Arguments state_size {Drv}.
Arguments cfg_size {Drv}. Arguments temp_buff {Drv}. Arguments dummy_addr {Drv}. Arguments used_bits {Drv}.

Section Setters.
Context {Drv : Type}.
Implicit Type o : WL_Flash Drv.
Definition with_configured v o : WL_Flash Drv :=
  WLFlash v (initialized o) (state o) (cfg o) (flash_drv o) (addr_cfg o) (addr_state1 o) (addr_state2 o) (flash_size o) (state_size o) (cfg_size o) (temp_buff o) (dummy_addr o) (used_bits o).
Definition with_initialized v o : WL_Flash Drv :=
  WLFlash (configured o) v (state o) (cfg o) (flash_drv o) (addr_cfg o) (addr_state1 o) (addr_state2 o) (flash_size o) (state_size o) (cfg_size o) (temp_buff o) (dummy_addr o) (used_bits o).
Definition with_state v o : WL_Flash Drv :=
  WLFlash (configured o) (initialized o) v (cfg o) (flash_drv o) (addr_cfg o) (addr_state1 o) (addr_state2 o) (flash_size o) (state_size o) (cfg_size o) (temp_buff o) (dummy_addr o) (used_bits o).
Definition with_cfg v o : WL_Flash Drv :=
  WLFlash (configured o) (initialized o) (state o) v (flash_drv o) (addr_cfg o) (addr_state1 o) (addr_state2 o) (flash_size o) (state_size o) (cfg_size o) (temp_buff o) (dummy_addr o) (used_bits o).
Definition with_drv v o : WL_Flash Drv :=
  WLFlash (configured o) (initialized o) (state o) (cfg o) v (addr_cfg o) (addr_state1 o) (addr_state2 o) (flash_size o) (state_size o) (cfg_size o) (temp_buff o) (dummy_addr o) (used_bits o).
Definition with_layout ac a1 a2 fs ss cs o : WL_Flash Drv :=
  WLFlash (configured o) (initialized o) (state o) (cfg o) (flash_drv o) ac a1 a2 fs ss cs (temp_buff o) (dummy_addr o) (used_bits o).
Definition with_temp v o : WL_Flash Drv :=
  WLFlash (configured o) (initialized o) (state o) (cfg o) (flash_drv o) (addr_cfg o) (addr_state1 o) (addr_state2 o) (flash_size o) (state_size o) (cfg_size o) v (dummy_addr o) (used_bits o).
Definition with_dummy v o : WL_Flash Drv :=
  WLFlash (configured o) (initialized o) (state o) (cfg o) (flash_drv o) (addr_cfg o) (addr_state1 o) (addr_state2 o) (flash_size o) (state_size o) (cfg_size o) (temp_buff o) v (used_bits o).
Definition with_used v o : WL_Flash Drv :=
  WLFlash (configured o) (initialized o) (state o) (cfg o) (flash_drv o) (addr_cfg o) (addr_state1 o) (addr_state2 o) (flash_size o) (state_size o) (cfg_size o) (temp_buff o) (dummy_addr o) v.
End Setters.

(** The bytes [off .. off + n - 1] of a buffer, and a buffer in which they are replaced. *)
Definition part {A} (l : list A) (off n : Z) : outcome (list A) :=
  if (0 <=? off) && (0 <=? n) && (off + n <=? Z.of_nat (length l)) then Ret (slice l off n) else Stuck OutOfBounds.
Definition fill {A} (l : list A) (off : Z) (v : list A) : list A :=
  take (Z.to_nat off) l ++ v ++ drop (Z.to_nat off + length v) l.

(** Division of unsigned numbers. *)
Definition udiv {S} (a b : Z) : M S Z := if b =? 0 then stuck DivByZero else mret (a / b).
Definition umod {S} (a b : Z) : M S Z := if b =? 0 then stuck DivByZero else mret (a mod b).

(** [WL_RESULT_CHECK]: go on unless there was an error. *)
Notation "m '>>?' k" := (r ← m; if r =? ESP_OK then k else mret r) (at level 62, right associativity).

Section WL.
Context {Drv D : Type} `{Flash_Access Drv D} (crc32_le : Z -> list Z -> Z).

(** The object and the device. *)
Record wl : Type := Wl { obj : WL_Flash Drv; dev : D }.

Definition this : M wl (WL_Flash Drv) := w ← get; mret (obj w).
Definition set_obj (f : WL_Flash Drv -> WL_Flash Drv) : M wl unit := modify (fun w => Wl (f (obj w)) (dev w)).
Definition on_dev {A} (m : M D A) : M wl A := fun w =>
  match m (dev w) with Ret (a, d) => Ret (a, Wl (obj w) d) | Stuck e => Stuck e end.

(** A call of a method of the driver. *)
Definition on_drv {A} (m : Drv -> M D A) : M wl A :=
  o ← this; match flash_drv o with Some d => on_dev (m d) | None => stuck NullDeref end.
Definition drv_erase_range (a n : Z) : M wl esp_err_t := on_drv (fun d => fa_erase_range d a n).
Definition drv_erase_sector (n : Z) : M wl esp_err_t := on_drv (fun d => fa_erase_sector d n).
Definition drv_write (a : Z) (l : list Z) : M wl esp_err_t := on_drv (fun d => fa_write d a l).
Definition drv_read (a : Z) (buf : list Z) : M wl (esp_err_t * list Z) := on_drv (fun d => fa_read d a buf).

(** Read one byte. *)
Definition drv_read1 (a : Z) : M wl (esp_err_t * Z) := '(r, l) ← drv_read a [0]; mret (r, at_ 0 l 0).

Definition state_crc (s : wl_state_t) : Z := crc32_le UINT32_MAX (take 28 (encode_state s)).
Definition config_crc (c : wl_config_t) : Z := crc32_le UINT32_MAX (take 32 (encode_config c)).

(** ** Configuration *)

(** [pcfg] is the configuration or [NULL], [drv] the driver or [NULL],
    [temp] the buffer that [malloc] returns or [NULL]. *)
Definition WL_config (pcfg : option wl_config_t) (drv : option Drv) (temp : option (list Z)) : M wl esp_err_t :=
  match pcfg with
  | None => stuck NullDeref
  | Some c =>
      let c := WLConfig (start_addr c) (full_mem_size c) (page_size c) (sector_size c) (updaterate c) (wr_size c) (cfg_version c) (temp_buff_size c) (config_crc c) in
      set_obj (with_cfg c);;
      set_obj (with_configured false);;
      set_obj (with_drv drv);;
      rest ← umod (sector_size c) (temp_buff_size c);
      if match drv with Some _ => negb (rest =? 0) || (page_size c <? sector_size c) | None => true end then mret ESP_ERR_INVALID_ARG
      else
        set_obj (with_temp temp);;
        sectors ← udiv (full_mem_size c) (sector_size c);
        let need := u32 (sizeof_wl_state_t + u32 (sectors * wr_size c)) in
        let state_size := if sector_size c <? need then u32 (u32 (need + sector_size c - 1) / sector_size c * sector_size c) else sector_size c in
        let cfg_size := u32 (u32 (sizeof_wl_config_t + sector_size c - 1) / sector_size c * sector_size c) in
        pages ← udiv (u32 (full_mem_size c - state_size * 2 - cfg_size)) (page_size c);
        set_obj (with_layout (u32 (start_addr c + full_mem_size c - cfg_size))
                             (u32 (start_addr c + full_mem_size c - state_size * 2 - cfg_size))
                             (u32 (start_addr c + full_mem_size c - state_size * 1 - cfg_size))
                             (u32 (u32 (pages - 1) * page_size c)) state_size cfg_size);;
        set_obj (with_configured true);;
        mret ESP_OK
  end.

(** ** The stored state *)

Fixpoint recover_loop (n : nat) (i position : Z) : M wl (esp_err_t * Z) :=
  match n with
  | O => mret (ESP_OK, position)
  | S n =>
      o ← this;
      '(r, pos_bits) ← drv_read1 (u32 (addr_state1 o + sizeof_wl_state_t + i * wr_size (cfg o)));
      if negb (r =? ESP_OK) then mret (r, position)
      else if pos_bits =? 0xff then mret (ESP_OK, i)
      else recover_loop n (i + 1) i
  end.

Definition recoverPos : M wl esp_err_t :=
  o ← this;
  '(r, position) ← recover_loop (Z.to_nat (max_pos (state o))) 0 0;
  if negb (r =? ESP_OK) then mret r
  else
    set_obj (fun o => with_state (set_pos position (state o)) o);;
    (if position =? max_pos (state o) then set_obj (fun o => with_state (set_pos (u32 (position - 1)) (state o)) o) else mret tt);;
    mret r.

(** Erase a copy of the state and write its header. *)
Definition write_state (addr : Z) (s : wl_state_t) : M wl esp_err_t :=
  o ← this;
  drv_erase_range addr (state_size o) >>? drv_write addr (encode_state s).

Definition initSections : M wl esp_err_t :=
  o ← this;
  per_state ← udiv (flash_size o) (state_size o);
  let max_count := if negb (updaterate (cfg o) =? 0) then updaterate (cfg o) else u32 (per_state * updaterate (cfg o)) in
  pages ← udiv (flash_size o) (page_size (cfg o));
  let s := WLState 0 (u32 (1 + pages)) 0 0 max_count (page_size (cfg o)) (cfg_version (cfg o)) (crc (state o)) in
  let s := set_crc (state_crc s) s in
  set_obj (fun o => with_used 0 (with_state s o));;
  write_state (addr_state1 o) s >>?
  write_state (addr_state2 o) s >>?
  drv_erase_range (addr_cfg o) (cfg_size o) >>?
  drv_write (addr_cfg o) (encode_config (cfg o)).

(** Copy the bytes behind a header that are not erased. *)
Fixpoint copy_bits (n : nat) (i from to : Z) : M wl esp_err_t :=
  match n with
  | O => mret ESP_OK
  | S n =>
      '(r, pos_bits) ← drv_read1 (u32 (from + sizeof_wl_state_t + i));
      if negb (r =? ESP_OK) then mret r
      else (if negb (pos_bits =? 0xff) then drv_write (u32 (to + sizeof_wl_state_t + i)) [pos_bits] else mret ESP_OK) >>? copy_bits n (i + 1) from to
  end.

(** Write the header [s] and the bytes of the copy at [from] to the copy at [to]. *)
Definition copy_state (from to : Z) (s : wl_state_t) : M wl esp_err_t :=
  o ← this;
  sectors ← udiv (full_mem_size (cfg o)) (sector_size (cfg o));
  write_state to s >>?
  copy_bits (Z.to_nat (u32 (sectors * wr_size (cfg o)))) 0 from to.

(** Read a header into [this->state]. *)
Definition read_state (addr : Z) : M wl esp_err_t :=
  o ← this;
  '(r, l) ← drv_read addr (encode_state (state o));
  set_obj (fun o => with_state (decode_state l) o);;
  mret r.

Definition init_body (s2 : wl_state_t) : M wl esp_err_t :=
  o ← this;
  let s1 := state o in
  let crc1 := state_crc s1 in
  let crc2 := state_crc s2 in
  if (crc1 =? crc s1) && (crc2 =? crc s2) then
    if negb (version s1 =? cfg_version (cfg o)) then initSections >>? recoverPos
    else
      (if negb (crc1 =? crc2) then copy_state (addr_state1 o) (addr_state2 o) s1 else mret ESP_OK) >>?
      recoverPos
  else if negb (crc1 =? crc s1) && negb (crc2 =? crc s2) then initSections >>? recoverPos
  else
    (if crc1 =? crc s1 then
       copy_state (addr_state1 o) (addr_state2 o) s1 >>?
       read_state (addr_state2 o)
     else
       copy_state (addr_state2 o) (addr_state1 o) s2 >>?
       read_state (addr_state1 o) >>?
       (set_obj (fun o => with_state (set_pos (u32 (max_pos (state o) - 1)) (state o)) o);; mret ESP_OK)) >>?
    (o ← this;
     if negb (version (state o) =? cfg_version (cfg o)) then initSections else mret ESP_OK).

(** [junk] are the bytes of the local variable [sa_copy]. *)
Definition WL_init (junk : list Z) : M wl esp_err_t :=
  o ← this;
  if negb (configured o) then mret ESP_ERR_INVALID_STATE
  else
    set_obj (with_initialized false);;
    read_state (addr_state1 o);;
    '(r, l) ← drv_read (addr_state2 o) junk;
    if negb (r =? ESP_OK) then mret r
    else
      init_body (decode_state l) >>?
      (set_obj (with_initialized true);; mret ESP_OK).

(** ** Moving the dummy page *)

(** An error while a page is moved: try again at the next access. *)
Definition again (r : esp_err_t) : M wl esp_err_t :=
  set_obj (fun o => with_state (set_access_count (u32 (max_count (state o) - 1)) (state o)) o);;
  mret r.

Fixpoint copy_page (n : nat) (i data_addr : Z) : M wl esp_err_t :=
  match n with
  | O => mret ESP_OK
  | S n =>
      o ← this;
      let size := temp_buff_size (cfg o) in
      match temp_buff o with
      | None => stuck NullDeref
      | Some buf =>
          '(r, l) ← drv_read (u32 (data_addr + i * size)) buf;
          set_obj (with_temp (Some l));;
          if negb (r =? ESP_OK) then again r
          else
            r ← drv_write (u32 (dummy_addr o + i * size)) l;
            if negb (r =? ESP_OK) then again r else copy_page n (i + 1) data_addr
      end
  end.

(** The state is written when the dummy has gone round. *)
Definition next_round : M wl esp_err_t :=
  set_obj (fun o => with_state (set_pos 0 (state o)) o);;
  set_obj (fun o => with_state (set_move_count (u32 (move_count (state o) + 1)) (state o)) o);;
  set_obj (fun o => if u32 (max_pos (state o) - 1) <=? move_count (state o) then with_state (set_move_count 0 (state o)) o else o);;
  set_obj (fun o => with_state (set_crc (state_crc (state o)) (state o)) o);;
  o ← this;
  write_state (addr_state1 o) (state o) >>?
  write_state (addr_state2 o) (state o).

(** The page was moved: record it. *)
Definition step_done : M wl esp_err_t :=
  set_obj (with_used 0);;
  o ← this;
  let byte_pos := u32 (pos (state o) * wr_size (cfg o)) in
  r ← drv_write (u32 (addr_state1 o + sizeof_wl_state_t + byte_pos)) [used_bits o];
  if negb (r =? ESP_OK) then again r
  else
    r ← drv_write (u32 (addr_state2 o + sizeof_wl_state_t + byte_pos)) [used_bits o];
    if negb (r =? ESP_OK) then again r
    else
      set_obj (fun o => with_state (set_pos (u32 (pos (state o) + 1)) (state o)) o);;
      o ← this;
      if max_pos (state o) <=? pos (state o) then next_round else mret ESP_OK.

Definition updateWL : M wl esp_err_t :=
  set_obj (fun o => with_state (set_access_count (u32 (access_count (state o) + 1)) (state o)) o);;
  o ← this;
  if access_count (state o) <? max_count (state o) then mret ESP_OK
  else
    set_obj (fun o => with_state (set_access_count 0 (state o)) o);;
    let next := u32 (pos (state o) + 1) in
    let next := if max_pos (state o) <=? next then 0 else next in
    let data_addr := u32 (start_addr (cfg o) + next * page_size (cfg o)) in
    set_obj (with_dummy (u32 (start_addr (cfg o) + pos (state o) * page_size (cfg o))));;
    o ← this;
    r ← drv_erase_range (dummy_addr o) (page_size (cfg o));
    if negb (r =? ESP_OK) then again r
    else
      copy_count ← udiv (page_size (cfg o)) (temp_buff_size (cfg o));
      copy_page (Z.to_nat copy_count) 0 data_addr >>?
      step_done.

(** ** Access *)

Definition calcAddr (addr : Z) : M wl Z :=
  o ← this;
  result ← umod (u32 (flash_size o - move_count (state o) * page_size (cfg o) + addr)) (flash_size o);
  let dummy := u32 (pos (state o) * page_size (cfg o)) in
  mret (if result <? dummy then result else u32 (result + page_size (cfg o))).

Definition WL_chip_size : M wl Z := o ← this; mret (if configured o then flash_size o else 0).
Definition WL_sector_size : M wl Z := o ← this; mret (if configured o then sector_size (cfg o) else 0).

Definition WL_erase_sector (sector : Z) : M wl esp_err_t :=
  o ← this;
  if negb (initialized o) then mret ESP_ERR_INVALID_STATE
  else
    updateWL >>?
    (o ← this;
     virt_addr ← calcAddr (u32 (sector * sector_size (cfg o)));
     n ← udiv (u32 (start_addr (cfg o) + virt_addr)) (sector_size (cfg o));
     drv_erase_sector n).

Fixpoint erase_sectors (n : nat) (sector : Z) : M wl esp_err_t :=
  match n with
  | O => mret ESP_OK
  | S n => WL_erase_sector (u32 sector) >>? erase_sectors n (sector + 1)
  end.

Definition WL_erase_range (start_address size : Z) : M wl esp_err_t :=
  o ← this;
  if negb (initialized o) then mret ESP_ERR_INVALID_STATE
  else
    erase_count ← udiv (u32 (size + sector_size (cfg o) - 1)) (sector_size (cfg o));
    start_sector ← udiv start_address (sector_size (cfg o));
    erase_sectors (Z.to_nat erase_count) start_sector.

Fixpoint write_pages (n : nat) (i dest_addr : Z) (src : list Z) (size : Z) : M wl esp_err_t :=
  match n with
  | O => mret ESP_OK
  | S n =>
      o ← this;
      virt_addr ← calcAddr (u32 (dest_addr + i * page_size (cfg o)));
      l ← lift (part src (u32 (i * page_size (cfg o))) size);
      drv_write (u32 (start_addr (cfg o) + virt_addr)) l >>? write_pages n (i + 1) dest_addr src size
  end.

(** [src] is the memory from [src] on. *)
Definition WL_write (dest_addr : Z) (src : list Z) (size : Z) : M wl esp_err_t :=
  o ← this;
  if negb (initialized o) then mret ESP_ERR_INVALID_STATE
  else
    count ← udiv (u32 (size - 1)) (page_size (cfg o));
    write_pages (Z.to_nat count) 0 dest_addr src size >>?
    (virt_addr_last ← calcAddr (u32 (dest_addr + count * page_size (cfg o)));
     l ← lift (part src (u32 (count * page_size (cfg o))) (u32 (size - count * page_size (cfg o))));
     drv_write (u32 (start_addr (cfg o) + virt_addr_last)) l).

(** Read [n] bytes into the buffer [dest] at [off]. *)
Definition read_into (addr : Z) (dest : list Z) (off n : Z) : M wl (esp_err_t * list Z) :=
  old ← lift (part dest off n);
  '(r, l) ← drv_read addr old;
  mret (r, fill dest off l).

Fixpoint read_pages (n : nat) (i src_addr : Z) (dest : list Z) (size : Z) : M wl (esp_err_t * list Z) :=
  match n with
  | O => mret (ESP_OK, dest)
  | S n =>
      o ← this;
      virt_addr ← calcAddr (u32 (src_addr + i * page_size (cfg o)));
      '(r, dest) ← read_into (u32 (start_addr (cfg o) + virt_addr)) dest (u32 (i * page_size (cfg o))) size;
      if negb (r =? ESP_OK) then mret (r, dest) else read_pages n (i + 1) src_addr dest size
  end.

(** [dest] is the memory from [dest] on; its new contents are returned. *)
Definition WL_read (src_addr : Z) (dest : list Z) (size : Z) : M wl (esp_err_t * list Z) :=
  o ← this;
  if negb (initialized o) then mret (ESP_ERR_INVALID_STATE, dest)
  else
    count ← udiv (u32 (size - 1)) (page_size (cfg o));
    '(r, dest) ← read_pages (Z.to_nat count) 0 src_addr dest size;
    if negb (r =? ESP_OK) then mret (r, dest)
    else
      virt_addr_last ← calcAddr (u32 (src_addr + count * page_size (cfg o)));
      read_into (u32 (start_addr (cfg o) + virt_addr_last)) dest (u32 (count * page_size (cfg o))) (u32 (size - count * page_size (cfg o))).

Definition WL_flush : M wl esp_err_t :=
  set_obj (fun o => with_state (set_access_count (u32 (max_count (state o) - 1)) (state o)) o);;
  updateWL.
End WL.
Arguments wl : clear implicits.
Arguments Wl {Drv D}.
