(* ===== verification/WearSpec.v ===== *)
(** * What wear levelling guarantees

    Over any driver that obeys [FlashLaws]: the pages offered to the user are
    stored in all pages but the dummy, moving the dummy leaves their contents
    alone ([wl_refines_flash]), and after a loss of power at any call of the
    driver the next start finds them again ([power_loss_safe]). *)

From S2P Require Import Prelude FlashOps WearLevel.

#[local] Open Scope Z_scope.

(** ** The laws of a driver

    [cell d a] is the byte at address [a] of the driver, [usable] an invariant
    of the device, [SEC] the unit that is erased, [cap] the size.  A call that
    reports an error leaves a device that is [spoiled], after a read one with
    [read_failed]. *)
Class FlashLaws {Drv D : Type} `{Flash_Access Drv D} (drv : Drv) (SEC cap : Z) := {
  cell : D -> Z -> Z;
  usable : D -> Prop;
  spoiled : D -> D -> Prop;
  read_failed : D -> D -> Prop;
  read_failed_spoiled : forall d d', read_failed d d' -> spoiled d d';
  cell_byte : forall d a, 0 <= cell d a < 256;
  erase_range_law : forall d a n, usable d -> 0 <= a -> 0 <= n -> a + n <= cap -> a mod SEC = 0 -> n mod SEC = 0 ->
    wp (fa_erase_range drv a n)
       (fun r d' => if r =? ESP_OK then usable d' /\ forall x, cell d' x = if within a n x then 255 else cell d x else spoiled d d') d;
  erase_sector_law : forall d n, usable d -> 0 <= n -> (n + 1) * SEC <= cap ->
    wp (fa_erase_sector drv n)
       (fun r d' => if r =? ESP_OK then usable d' /\ forall x, cell d' x = if within (n * SEC) SEC x then 255 else cell d x else spoiled d d') d;
  write_law : forall d a l, usable d -> 0 <= a -> a + Z.of_nat (length l) <= cap -> Forall (fun b => 0 <= b < 256) l ->
    wp (fa_write drv a l)
       (fun r d' => if r =? ESP_OK
          then usable d' /\ forall x, cell d' x = if within a (Z.of_nat (length l)) x then Z.land (cell d x) (at_ 0 l (x - a)) else cell d x
          else spoiled d d') d;
  read_law : forall d a buf, usable d -> 0 <= a -> a + Z.of_nat (length buf) <= cap ->
    wp (fa_read drv a buf)
       (fun '(r, l) d' => length l = length buf
          /\ if r =? ESP_OK then usable d' /\ (forall x, cell d' x = cell d x) /\ forall i, 0 <= i < Z.of_nat (length buf) -> at_ 0 l i = cell d (a + i)
             else read_failed d d') d
}.

(** ** Runs that return an error code *)

Definition run {S} (m : M S esp_err_t) (Q E : S -> Prop) (s : S) : Prop := wp m (fun r s' => if r =? ESP_OK then Q s' else E s') s.

Section Run.
Context {S : Type}.
Implicit Types (m k : M S esp_err_t) (Q E : S -> Prop).

Lemma run_seq m k Q E s : run m (run k Q E) E s -> run (m >>? k) Q E s.
Proof.
  intros H. apply wp_bind. eapply wp_mono; [exact H|]. intros r s' Hr. cbn beta in Hr. destruct (r =? ESP_OK) eqn:Er; [done|]. apply wp_ret. by rewrite Er.
Qed.

Lemma run_mono m (Q Q' E E' : S -> Prop) s : run m Q E s -> (forall s', Q s' -> Q' s') -> (forall s', E s' -> E' s') -> run m Q' E' s.
Proof. intros H HQ HE. eapply wp_mono; [exact H|]. intros r s' Hr. cbn in *. destruct (r =? ESP_OK); auto. Qed.

Lemma run_ok Q E s : Q s -> run (mret ESP_OK) Q E s.
Proof. done. Qed.

(** The other form of the check. *)
Lemma run_test m (k1 : esp_err_t -> M S esp_err_t) (k2 : M S esp_err_t) Q E s :
  run m (run k2 Q E) (fun s' => forall r, r <> ESP_OK -> run (k1 r) Q E s') s -> run (r ← m; if negb (r =? ESP_OK) then k1 r else k2) Q E s.
Proof.
  intros H. apply wp_bind. eapply wp_mono; [exact H|]. intros r s' Hr. cbn in Hr. destruct (Z.eqb_spec r ESP_OK) as [E1|Hne]; cbn [negb]; [done|]. by apply Hr.
Qed.
End Run.

(** ** Words *)

Lemma length_encode_state s : length (encode_state s) = 32%nat.
Proof. unfold encode_state. by rewrite !length_app, !length_le_encode. Qed.
Lemma length_encode_config c : length (encode_config c) = 36%nat.
Proof. unfold encode_config. by rewrite !length_app, !length_le_encode. Qed.
Lemma encode_state_bytes s : Forall (fun b => 0 <= b < 256) (encode_state s).
Proof. unfold encode_state. repeat (apply Forall_app; split; [apply le_encode_bytes|]). apply le_encode_bytes. Qed.
Lemma encode_config_bytes c : Forall (fun b => 0 <= b < 256) (encode_config c).
Proof. unfold encode_config. repeat (apply Forall_app; split; [apply le_encode_bytes|]). apply le_encode_bytes. Qed.

Definition state_words (s : wl_state_t) : list Z := [pos s; max_pos s; move_count s; access_count s; max_count s; block_size s; version s; crc s].
Definition small_state (s : wl_state_t) : Prop := Forall (fun v => 0 <= v < 2 ^ 32) (state_words s).

Lemma word_at (l l1 l2 : list Z) v i : 0 <= v < 2 ^ 32 -> l = l1 ++ le_encode 4 v ++ l2 -> 4 * i = Z.of_nat (length l1) -> word l i = v.
Proof.
  intros Hv El Ei. unfold word. rewrite (slice_field l l1 (le_encode 4 v) l2) by (try done; by rewrite length_le_encode). by apply le_decode_encode.
Qed.

Lemma decode_encode_state s : small_state s -> decode_state (encode_state s) = s.
Proof.
  intros Hs. unfold small_state, state_words in Hs. rewrite !Forall_cons in Hs. destruct Hs as (H0 & H1 & H2 & H3 & H4 & H5 & H6 & H7 & _). destruct s as [v0 v1 v2 v3 v4 v5 v6 v7]. cbn in *.
  unfold decode_state, encode_state. cbn [pos max_pos move_count access_count max_count block_size version crc].
  f_equal.
  - by eapply (word_at _ []); [|reflexivity|].
  - by eapply (word_at _ (le_encode 4 _)); [|reflexivity|by rewrite length_le_encode].
  - eapply (word_at _ (le_encode 4 _ ++ le_encode 4 _)); [done|rewrite <- !app_assoc; reflexivity|by rewrite !length_app, !length_le_encode].
  - eapply (word_at _ (le_encode 4 _ ++ le_encode 4 _ ++ le_encode 4 _)); [done|rewrite <- !app_assoc; reflexivity|by rewrite !length_app, !length_le_encode].
  - eapply (word_at _ (le_encode 4 _ ++ le_encode 4 _ ++ le_encode 4 _ ++ le_encode 4 _)); [done|rewrite <- !app_assoc; reflexivity|by rewrite !length_app, !length_le_encode].
  - eapply (word_at _ (le_encode 4 _ ++ le_encode 4 _ ++ le_encode 4 _ ++ le_encode 4 _ ++ le_encode 4 _)); [done|rewrite <- !app_assoc; reflexivity|by rewrite !length_app, !length_le_encode].
  - eapply (word_at _ (le_encode 4 _ ++ le_encode 4 _ ++ le_encode 4 _ ++ le_encode 4 _ ++ le_encode 4 _ ++ le_encode 4 _)); [done|rewrite <- !app_assoc; reflexivity|by rewrite !length_app, !length_le_encode].
  - eapply (word_at _ (le_encode 4 _ ++ le_encode 4 _ ++ le_encode 4 _ ++ le_encode 4 _ ++ le_encode 4 _ ++ le_encode 4 _ ++ le_encode 4 _) []); [done|rewrite <- !app_assoc, app_nil_r; reflexivity|by rewrite !length_app, !length_le_encode].
Qed.

(** ** Where a byte is stored *)

(** Of [N + 1] pages of [P] bytes, page [p] is the dummy and the pages have
    been turned [mc] times. *)
Definition turned (N P mc x : Z) : Z := (N * P - mc * P + x) mod (N * P).
Definition phys (N P mc p x : Z) : Z := let r := turned N P mc x in if r <? p * P then r else r + P.

Section Address.
Context (N P : Z) (HN : 1 <= N) (HP : 0 < P).

Lemma turned_range mc x : 0 <= turned N P mc x < N * P.
Proof. apply Z.mod_pos_bound. nia. Qed.

Lemma phys_range mc p x : 0 <= p <= N -> 0 <= phys N P mc p x < (N + 1) * P /\ ~ p * P <= phys N P mc p x < p * P + P.
Proof. intros Hp. unfold phys. pose proof (turned_range mc x). destruct (Z.ltb_spec (turned N P mc x) (p * P)); nia. Qed.

(** The page of an address stays together. *)
Lemma turned_step mc x k : 0 <= k -> x mod P + k < P -> turned N P mc (x + k) = turned N P mc x + k.
Proof.
  intros Hk Hx. unfold turned. set (b := N * P - mc * P). assert (Hb : b + x = (N - mc + x / P) * P + x mod P) by (subst b; pose proof (Z.div_mod x P ltac:(lia)); lia).
  set (q := N - mc + x / P) in *. pose proof (Z.mod_pos_bound x P HP) as Hm. replace (b + (x + k)) with (q * P + (x mod P + k)) by lia. rewrite Hb.
  assert (G : forall t, 0 <= t < P -> (q * P + t) mod (N * P) = (q mod N) * P + t).
  { intros t Ht. symmetry. apply (Z.mod_unique _ _ (q / N)).
    - left. pose proof (Z.mod_pos_bound q N ltac:(lia)). nia.
    - pose proof (Z.div_mod q N ltac:(lia)). nia. }
  rewrite !G by lia. lia.
Qed.

Lemma turned_page mc x : (turned N P mc x) mod P = x mod P.
Proof.
  unfold turned. rewrite (Z.mul_comm N P), Z.rem_mul_r by lia. rewrite (Z.mul_comm P (_ mod N)), Z_mod_plus_full, Z.mod_mod by lia.
  replace (P * N - mc * P + x) with (x + (N - mc) * P) by lia. apply Z_mod_plus_full.
Qed.

Lemma phys_step mc p x k : 0 <= k -> x mod P + k < P -> phys N P mc p (x + k) = phys N P mc p x + k.
Proof.
  intros Hk Hx. unfold phys. rewrite turned_step by done. pose proof (turned_page mc x) as Hr. set (r := turned N P mc x) in *.
  assert (Hd : r + k < p * P <-> r < p * P).
  { pose proof (Z.div_mod r P ltac:(lia)) as Ed. rewrite Hr in Ed. set (q := r / P) in *. pose proof (Z.mod_pos_bound x P HP). split; intros Hlt; [lia|].
    assert (q < p) by nia. nia. }
  destruct (Z.ltb_spec (r + k) (p * P)), (Z.ltb_spec r (p * P)); lia.
Qed.

(** Different bytes are stored at different places. *)
Lemma turned_inj mc x y : 0 <= x < N * P -> 0 <= y < N * P -> turned N P mc x = turned N P mc y -> x = y.
Proof.
  unfold turned. intros Hx Hy E. set (b := N * P - mc * P) in *. assert (Hm : 0 < N * P) by nia.
  pose proof (Z.div_mod (b + x) (N * P) ltac:(lia)) as E1. pose proof (Z.div_mod (b + y) (N * P) ltac:(lia)) as E2. rewrite E in E1.
  set (q1 := (b + x) / (N * P)) in *. set (q2 := (b + y) / (N * P)) in *. assert (q1 = q2); [|lia].
  assert (x - y = N * P * (q1 - q2)) by lia. destruct (decide (q1 = q2)); [done|]. exfalso. assert (q1 - q2 <= -1 \/ 1 <= q1 - q2) as [?|?] by lia; nia.
Qed.

Lemma phys_inj mc p x y : 0 <= x < N * P -> 0 <= y < N * P -> phys N P mc p x = phys N P mc p y -> x = y.
Proof.
  intros Hx Hy E. apply (turned_inj mc); [done|done|]. unfold phys in E. destruct (Z.ltb_spec (turned N P mc x) (p * P)), (Z.ltb_spec (turned N P mc y) (p * P)); lia.
Qed.

(** The dummy moves by one page: the page behind it takes its place. *)
Lemma phys_move mc p x : 0 <= p < N ->
  phys N P mc (p + 1) x = if within ((p + 1) * P) P (phys N P mc p x) then phys N P mc p x - P else phys N P mc p x.
Proof.
  intros Hp. unfold phys. set (r := turned N P mc x). destruct (within _ _ _) eqn:Ew.
  - apply within_spec in Ew. destruct (Z.ltb_spec r (p * P)), (Z.ltb_spec r ((p + 1) * P)); lia.
  - assert (Hn : ~ (p + 1) * P <= (if r <? p * P then r else r + P) < (p + 1) * P + P) by (rewrite <- within_spec; congruence).
    destruct (Z.ltb_spec r (p * P)), (Z.ltb_spec r ((p + 1) * P)); lia.
Qed.

Definition next_turn (mc : Z) : Z := if N <=? mc + 1 then 0 else mc + 1.

(** The dummy goes back to the first page. *)
Lemma phys_wrap mc x : 0 <= mc < N -> 0 <= x ->
  phys N P (next_turn mc) 0 x = if within 0 P (phys N P mc N x) then phys N P mc N x + N * P else phys N P mc N x.
Proof.
  intros Hmc Hx. pose proof (turned_range mc x) as Hr. unfold phys. rewrite (proj2 (Z.ltb_lt (turned N P mc x) (N * P))) by lia.
  assert (E : turned N P (next_turn mc) x = (turned N P mc x - P) mod (N * P)).
  { unfold turned, next_turn. rewrite Zminus_mod_idemp_l. destruct (Z.leb_spec N (mc + 1)) as [Hle|Hlt].
    - assert (mc = N - 1) as -> by lia. replace (N * P - 0 * P + x) with (N * P - (N - 1) * P + x - P + 1 * (N * P)) by lia. apply Z_mod_plus_full.
    - f_equal. lia. }
  rewrite E. set (r := turned N P mc x) in *. rewrite (proj2 (Z.ltb_ge _ (0 * P))) by (pose proof (Z.mod_pos_bound (r - P) (N * P) ltac:(nia)); lia).
  destruct (within 0 P r) eqn:Ew.
  - apply within_spec in Ew. replace ((r - P) mod (N * P)) with (r - P + N * P); [lia|]. apply (Z.mod_unique _ _ (-1)); [left; nia|lia].
  - assert (Hn : ~ 0 <= r < 0 + P) by (rewrite <- within_spec; congruence). rewrite Z.mod_small; lia.
Qed.
End Address.

(** ** The layout of a configured object *)

Section Spec.
Context {Drv D : Type} `{Flash_Access Drv D} (drv : Drv) (SEC cap : Z) {FL : FlashLaws drv SEC cap} (crc32_le : Z -> list Z -> Z).
Context (crc_word : forall c l, 0 <= crc32_le c l < 2 ^ 32).
Implicit Types (o : WL_Flash Drv) (w : wl Drv D) (d : D) (f : Z -> Z).

(** An object over [N] pages for its user. *)
Record fits (N : Z) (o : WL_Flash Drv) : Prop := {
  ft_configured : configured o = true;
  ft_drv : flash_drv o = Some drv;
  ft_sector : sector_size (cfg o) = SEC /\ 0 < SEC;
  ft_page : 0 < page_size (cfg o) /\ page_size (cfg o) mod SEC = 0;
  ft_temp : 0 < temp_buff_size (cfg o) /\ page_size (cfg o) mod temp_buff_size (cfg o) = 0;
  ft_buff : exists buf, temp_buff o = Some buf /\ Z.of_nat (length buf) = temp_buff_size (cfg o);
  ft_wr : 0 < wr_size (cfg o);
  ft_pages : 1 <= N /\ flash_size o = N * page_size (cfg o);
  ft_start : 0 <= start_addr (cfg o) /\ start_addr (cfg o) mod SEC = 0;
  ft_data : start_addr (cfg o) + (N + 1) * page_size (cfg o) <= addr_state1 o;
  ft_one : addr_state1 o + state_size o <= addr_state2 o;
  ft_two : addr_state2 o + state_size o <= addr_cfg o;
  ft_cfg : addr_cfg o + cfg_size o <= cap /\ cap < 2 ^ 31;
  ft_aligned : addr_state1 o mod SEC = 0 /\ addr_state2 o mod SEC = 0 /\ addr_cfg o mod SEC = 0 /\ state_size o mod SEC = 0 /\ cfg_size o mod SEC = 0;
  ft_bits : exists n, full_mem_size (cfg o) / sector_size (cfg o) = n /\ N + 1 <= n /\ sizeof_wl_state_t + n * wr_size (cfg o) <= state_size o;
  ft_csize : sizeof_wl_config_t <= cfg_size o;
  ft_rate : 0 <= updaterate (cfg o) < 2 ^ 32;
  ft_version : 0 <= cfg_version (cfg o) < 2 ^ 32
}.

(** What the operations leave alone in an object. *)
Record same_place o o' : Prop := {
  sp_configured : configured o' = configured o;
  sp_cfg : cfg o' = cfg o;
  sp_drv : flash_drv o' = flash_drv o;
  sp_ac : addr_cfg o' = addr_cfg o;
  sp_a1 : addr_state1 o' = addr_state1 o;
  sp_a2 : addr_state2 o' = addr_state2 o;
  sp_fs : flash_size o' = flash_size o;
  sp_ss : state_size o' = state_size o;
  sp_cs : cfg_size o' = cfg_size o;
  sp_temp : length <$> temp_buff o' = length <$> temp_buff o;
  sp_init : initialized o' = initialized o
}.

Lemma wear_place_refl o : same_place o o.
Proof. by split. Qed.
Lemma same_place_trans o1 o2 o3 : same_place o1 o2 -> same_place o2 o3 -> same_place o1 o3.
Proof. intros [] []. split; congruence. Qed.

Lemma fits_same N o o' : same_place o o' -> fits N o -> fits N o'.
Proof.
  intros [E1 E2 E3 E4 E5 E6 E7 E8 E9 E10 _] [F1 F2 F3 F4 F5 F6 F7 F8 F9 F10 F11 F12 F13 F14 F15 F16 F17 F18].
  destruct F6 as (buf & Eb & Hb). rewrite Eb in E10. destruct (temp_buff o') as [buf'|] eqn:Eb'; [|done]. injection E10 as E10.
  split; rewrite ?E1, ?E2, ?E3, ?E4, ?E5, ?E6, ?E7, ?E8, ?E9; try done. exists buf'. split; [done|]. by rewrite E10.
Qed.

(** ** Calls of the driver *)

Lemma wp_on_dev {A} (m : M D A) (Q : A -> wl Drv D -> Prop) w : wp m (fun a d => Q a (Wl (obj w) d)) (dev w) -> wp (on_dev m) Q w.
Proof. unfold wp, on_dev. by destruct (m (dev w)) as [[a d]|]. Qed.

Lemma wp_this (Q : WL_Flash Drv -> wl Drv D -> Prop) w : Q (obj w) w -> wp this Q w.
Proof. intros HQ. apply wp_bind, wp_get, wp_ret. exact HQ. Qed.

Lemma wp_set_obj g (Q : unit -> wl Drv D -> Prop) w : Q tt (Wl (g (obj w)) (dev w)) -> wp (set_obj g) Q w.
Proof. intros HQ. by apply wp_modify. Qed.

(** After an error the device is one that was spoiled. *)
Definition broken w w' : Prop := obj w' = obj w /\ spoiled (dev w) (dev w').

Lemma run_erase w a n : flash_drv (obj w) = Some drv -> usable (dev w) -> 0 <= a -> 0 <= n -> a + n <= cap -> a mod SEC = 0 -> n mod SEC = 0 ->
  run (drv_erase_range a n) (fun w' => exists d', w' = Wl (obj w) d' /\ usable d' /\ forall x, cell d' x = if within a n x then 255 else cell (dev w) x)
    (broken w) w.
Proof.
  intros Hd Hu H1 H2 H3 H4 H5. unfold drv_erase_range, on_drv. apply wp_bind, wp_this. rewrite Hd. apply wp_on_dev. eapply wp_mono; [by apply erase_range_law|].
  intros r d' Hr. cbn beta in Hr. destruct (r =? ESP_OK); [|by split]. destruct Hr as [Hu' Hc]. by exists d'.
Qed.

Lemma run_write w a l : flash_drv (obj w) = Some drv -> usable (dev w) -> 0 <= a -> a + Z.of_nat (length l) <= cap -> Forall (fun b => 0 <= b < 256) l ->
  run (drv_write a l)
    (fun w' => exists d', w' = Wl (obj w) d' /\ usable d'
       /\ forall x, cell d' x = if within a (Z.of_nat (length l)) x then Z.land (cell (dev w) x) (at_ 0 l (x - a)) else cell (dev w) x)
    (broken w) w.
Proof.
  intros Hd Hu H1 H2 H3. unfold drv_write, on_drv. apply wp_bind, wp_this. rewrite Hd. apply wp_on_dev. eapply wp_mono; [by apply write_law|].
  intros r d' Hr. cbn beta in Hr. destruct (r =? ESP_OK); [|by split]. destruct Hr as [Hu' Hc]. by exists d'.
Qed.

Lemma wp_drv_read w a buf (Q : esp_err_t * list Z -> wl Drv D -> Prop) :
  flash_drv (obj w) = Some drv -> usable (dev w) -> 0 <= a -> a + Z.of_nat (length buf) <= cap ->
  (forall l d', length l = length buf -> usable d' -> (forall x, cell d' x = cell (dev w) x) ->
     (forall i, 0 <= i < Z.of_nat (length buf) -> at_ 0 l i = cell (dev w) (a + i)) -> Q (ESP_OK, l) (Wl (obj w) d')) ->
  (forall r l d', r <> ESP_OK -> length l = length buf -> read_failed (dev w) d' -> Q (r, l) (Wl (obj w) d')) ->
  wp (drv_read a buf) Q w.
Proof.
  intros Hd Hu H1 H2 Hok Herr. unfold drv_read, on_drv. apply wp_bind, wp_this. rewrite Hd. apply wp_on_dev. eapply wp_mono; [by apply read_law|].
  intros [r l] d' [Hl Hr]. destruct (Z.eqb_spec r ESP_OK) as [->|Hne]; [|by apply Herr]. destruct Hr as (Hu' & Hc & Hi). by apply Hok.
Qed.

Lemma wp_drv_read1 w a (Q : esp_err_t * Z -> wl Drv D -> Prop) :
  flash_drv (obj w) = Some drv -> usable (dev w) -> 0 <= a < cap ->
  (forall d', usable d' -> (forall x, cell d' x = cell (dev w) x) -> Q (ESP_OK, cell (dev w) a) (Wl (obj w) d')) ->
  (forall r b d', r <> ESP_OK -> spoiled (dev w) d' -> Q (r, b) (Wl (obj w) d')) ->
  wp (drv_read1 a) Q w.
Proof.
  intros Hd Hu Ha Hok Herr. unfold drv_read1. apply wp_bind. apply wp_drv_read; [done|done|lia|cbn; lia|..].
  - intros l d' Hl Hu' Hc Hi. apply wp_ret. cbn in Hi. rewrite Hi, Z.add_0_r by lia. by apply Hok.
  - intros r l d' Hr Hl Hs. apply wp_ret. apply Herr; [done|by apply read_failed_spoiled].
Qed.

(** A range of bytes is the same on two devices. *)
Definition same d d' a b : Prop := forall x, a <= x < b -> cell d' x = cell d x.

(** [l] is stored at [a]. *)
Definition stored_at d a (l : list Z) : Prop := forall i, 0 <= i < Z.of_nat (length l) -> cell d (a + i) = at_ 0 l i.

Lemma stored_same d d' a l : same d d' a (a + Z.of_nat (length l)) -> stored_at d a l -> stored_at d' a l.
Proof. intros Hs Hl i Hi. rewrite Hs by lia. by apply Hl. Qed.

Lemma land_255 b : 0 <= b < 256 -> Z.land 255 b = b.
Proof. intros Hb. change 255 with (Z.ones 8). rewrite Z.land_comm, Z.land_ones by lia. apply Z.mod_small. lia. Qed.

(** Erase a range and write to its start. *)
Lemma run_rewrite w a n l Q (E : wl Drv D -> Prop) :
  flash_drv (obj w) = Some drv -> usable (dev w) -> 0 <= a -> 0 <= n -> a + n <= cap -> a mod SEC = 0 -> n mod SEC = 0 ->
  Z.of_nat (length l) <= n -> Forall (fun b => 0 <= b < 256) l ->
  (forall d1 d2, usable d2 -> (forall x, cell d1 x = if within a n x then 255 else cell (dev w) x) ->
     (forall x, cell d2 x = if within a (Z.of_nat (length l)) x then at_ 0 l (x - a) else if within a n x then 255 else cell (dev w) x) -> Q (Wl (obj w) d2)) ->
  (forall w', broken w w' -> E w') ->
  (forall d1 w', (forall x, cell d1 x = if within a n x then 255 else cell (dev w) x) -> broken (Wl (obj w) d1) w' -> E w') ->
  run (drv_erase_range a n >>? drv_write a l) Q E w.
Proof.
  intros Hd Hu H1 H2 H3 H4 H5 Hl Hb HQ HE1 HE2. apply run_seq. eapply run_mono; [by apply run_erase| |by apply HE1]. intros w1 (d1 & -> & Hu1 & Hc1).
  eapply run_mono; [by apply run_write; [..|cbn; lia|]| |]; cbn [obj dev].
  - intros w2 (d2 & -> & Hu2 & Hc2). apply (HQ d1 d2); [done|done|]. intros x. rewrite Hc2, Hc1. destruct (within a (Z.of_nat (length l)) x) eqn:E1; [|done].
    apply within_spec in E1. rewrite (proj2 (within_spec a n x)) by lia. apply land_255.
    assert (Hx : 0 <= x - a < Z.of_nat (length l)) by lia. revert Hb. rewrite Forall_forall. intros Hb. apply Hb. unfold at_, rd.
    rewrite (proj2 (in_range_true _ _)) by lia. destruct (l !! Z.to_nat (x - a)) as [b|] eqn:Eb; [by eapply list_elem_of_lookup_2|]. apply lookup_ge_None in Eb. lia.
  - intros w2 Hw2. by apply (HE2 d1).
Qed.

(** ** What is stored *)

(** The header that is stored in round [mc]. *)
Definition header (N : Z) o (mc : Z) : wl_state_t :=
  let s := WLState 0 (N + 1) mc 0 (updaterate (cfg o)) (page_size (cfg o)) (cfg_version (cfg o)) 0 in set_crc (state_crc crc32_le s) s.

(** The byte for step [i] in the copy at [a]. *)
Definition bit_addr o (a i : Z) : Z := a + sizeof_wl_state_t + i * wr_size (cfg o).
(** The first [q] steps are done, and no other. *)
Definition bits_exact (N : Z) o d (a q : Z) : Prop := forall i, 0 <= i <= N -> cell d (bit_addr o a i) = 255 <-> q <= i.
(** The first [q] steps are done. *)
Definition bits_used o d (a q : Z) : Prop := forall i, 0 <= i < q -> cell d (bit_addr o a i) <> 255.
Definition erased d (a n : Z) : Prop := forall x, a <= x < a + n -> cell d x = 255.

(** The user's byte [x] is [f x]. *)
Definition data (N : Z) o d (mc p : Z) f : Prop :=
  forall x, 0 <= x < N * page_size (cfg o) -> cell d (start_addr (cfg o) + phys N (page_size (cfg o)) mc p x) = f x.

Definition in_memory (N : Z) o (mc p : Z) : Prop :=
  exists ac c, state o = WLState p (N + 1) mc ac (updaterate (cfg o)) (page_size (cfg o)) (cfg_version (cfg o)) c /\ 0 <= ac < 2 ^ 32.

(** The object and the device agree: the dummy is page [min q N]. *)
Record valid (N : Z) w (mc q : Z) f : Prop := {
  va_fits : fits N (obj w);
  va_usable : usable (dev w);
  va_turn : 0 <= mc < N;
  va_step : 0 <= q <= N + 1;
  va_memory : in_memory N (obj w) mc (Z.min q N);
  va_header1 : stored_at (dev w) (addr_state1 (obj w)) (encode_state (header N (obj w) mc));
  va_bits1 : bits_exact N (obj w) (dev w) (addr_state1 (obj w)) q;
  va_header2 : stored_at (dev w) (addr_state2 (obj w)) (encode_state (header N (obj w) mc));
  va_data : data N (obj w) (dev w) mc (Z.min q N) f
}.

(** What is on the device when the power may fail. *)
Inductive crash (N : Z) o d f : Prop :=
| InStep mc q : 0 <= mc < N -> 0 <= q <= N + 1 -> stored_at d (addr_state1 o) (encode_state (header N o mc)) -> bits_exact N o d (addr_state1 o) q ->
    stored_at d (addr_state2 o) (encode_state (header N o mc)) -> data N o d mc (Z.min q N) f -> crash N o d f
| NoFirst mc : 0 <= mc < N -> erased d (addr_state1 o) sizeof_wl_state_t -> stored_at d (addr_state2 o) (encode_state (header N o mc)) ->
    bits_used o d (addr_state2 o) (N + 1) -> data N o d mc N f -> crash N o d f
| OldSecond mc mc2 : 0 <= mc < N -> 0 <= mc2 < N -> stored_at d (addr_state1 o) (encode_state (header N o mc)) -> bits_exact N o d (addr_state1 o) 0 ->
    stored_at d (addr_state2 o) (encode_state (header N o mc2)) -> data N o d mc 0 f -> crash N o d f
| NoSecond mc : 0 <= mc < N -> stored_at d (addr_state1 o) (encode_state (header N o mc)) -> bits_exact N o d (addr_state1 o) 0 ->
    erased d (addr_state2 o) sizeof_wl_state_t -> data N o d mc 0 f -> crash N o d f.

Lemma header_same N o o' mc : same_place o o' -> header N o' mc = header N o mc.
Proof. intros [_ E _ _ _ _ _ _ _ _ _]. unfold header. by rewrite E. Qed.

Lemma data_place N o o' d mc p f : same_place o o' -> data N o d mc p f -> data N o' d mc p f.
Proof. intros [_ E _ _ _ _ _ _ _ _ _]. unfold data. by rewrite E. Qed.

Lemma bit_place o o' a i : same_place o o' -> bit_addr o' a i = bit_addr o a i.
Proof. intros [_ E _ _ _ _ _ _ _ _ _]. unfold bit_addr. by rewrite E. Qed.

Lemma bits_exact_place N o o' d a q : same_place o o' -> bits_exact N o d a q -> bits_exact N o' d a q.
Proof. intros Hs Hb i Hi. rewrite (bit_place o o' a i Hs). by apply Hb. Qed.

Lemma crash_place N o o' d f : same_place o o' -> crash N o d f -> crash N o' d f.
Proof.
  intros Hs. pose proof Hs as [_ _ _ _ E1 E2 _ _ _ _ _]. assert (Hd : forall mc p, data N o d mc p f -> data N o' d mc p f) by (intros mc p; by apply data_place).
  assert (Hb : forall a q, bits_exact N o d a q -> bits_exact N o' d a q) by (intros a q; by apply bits_exact_place).
  assert (Hh : forall mc a, stored_at d a (encode_state (header N o mc)) -> stored_at d a (encode_state (header N o' mc))) by (intros mc a; by rewrite (header_same N o o')).
  intros [mc q|mc|mc mc2|mc].
  - apply (InStep N o' d f mc q); rewrite ?E1, ?E2; auto.
  - apply (NoFirst N o' d f mc); rewrite ?E1, ?E2; auto. intros i Hi. rewrite (bit_place o o'); auto.
  - apply (OldSecond N o' d f mc mc2); rewrite ?E1, ?E2; auto.
  - apply (NoSecond N o' d f mc); rewrite ?E1, ?E2; auto.
Qed.

Lemma length_header N o mc : Z.of_nat (length (encode_state (header N o mc))) = 32.
Proof. by rewrite length_encode_state. Qed.

Lemma header_small N o mc : fits N o -> 0 <= mc < N -> small_state (header N o mc).
Proof.
  intros [F1 F2 F3 F4 F5 F6 F7 F8 F9 F10 F11 F12 F13 F14 F15 F16 F17 F18] Hmc. destruct F15 as (n & _ & Hnn & F15).
  unfold sizeof_wl_state_t, sizeof_wl_config_t in *.
  assert (N * 1 <= (N + 1) * page_size (cfg o)) by nia. assert (page_size (cfg o) <= (N + 1) * page_size (cfg o)) by nia.
  assert (0 <= state_size o). { pose proof (proj1 F3). assert (0 <= n * wr_size (cfg o)) by nia. lia. }
  repeat constructor; cbn; try lia; try apply crc_word.
Qed.

(** ** Regions *)

Record bounds (N : Z) o : Prop := {
  bo_n : 1 <= N;
  bo_page : 0 < page_size (cfg o);
  bo_start : 0 <= start_addr (cfg o);
  bo_size : page_size (cfg o) <= N * page_size (cfg o);
  bo_data : start_addr (cfg o) + N * page_size (cfg o) + page_size (cfg o) <= addr_state1 o;
  bo_state : 32 <= state_size o;
  bo_one : addr_state1 o + state_size o <= addr_state2 o;
  bo_two : addr_state2 o + state_size o <= addr_cfg o;
  bo_cfg : addr_cfg o + cfg_size o <= cap;
  bo_csize : 36 <= cfg_size o;
  bo_cap : cap < 2 ^ 31;
  bo_count : N < 2 ^ 31
}.

Lemma fits_bounds N o : fits N o -> bounds N o.
Proof.
  intros [F1 F2 F3 F4 F5 F6 F7 F8 F9 F10 F11 F12 F13 F14 F15 F16 F17 F18]. destruct F15 as (n & _ & Hnn & F15). unfold sizeof_wl_state_t, sizeof_wl_config_t in *.
  assert (0 <= n * wr_size (cfg o)) by nia. assert (N * 1 <= N * page_size (cfg o)) by nia. split; try lia. nia.
Qed.

Lemma bit_range N o a i : fits N o -> 0 <= i <= N -> a + 32 <= bit_addr o a i < a + state_size o.
Proof.
  intros Hf Hi. destruct (ft_bits _ _ Hf) as (n & _ & Hn & Hs). pose proof (ft_wr _ _ Hf). unfold bit_addr, sizeof_wl_state_t in *. nia.
Qed.

Lemma bit_ne N o a i j : fits N o -> i <> j -> bit_addr o a i <> bit_addr o a j.
Proof. intros Hf Hij. pose proof (ft_wr _ _ Hf). unfold bit_addr. nia. Qed.

Lemma bits_keep N o d d' a q : fits N o -> same d d' a (a + state_size o) -> bits_exact N o d a q -> bits_exact N o d' a q.
Proof. intros Hf Hs Hb i Hi. pose proof (bit_range N o a i Hf Hi). rewrite Hs by lia. by apply Hb. Qed.

Lemma used_keep N o d d' a q : fits N o -> q <= N + 1 -> same d d' a (a + state_size o) -> bits_used o d a q -> bits_used o d' a q.
Proof. intros Hf Hq Hs Hb i Hi. pose proof (bit_range N o a i Hf ltac:(lia)). rewrite Hs by lia. by apply Hb. Qed.

Lemma header_keep N o d d' a mc : fits N o -> same d d' a (a + state_size o) -> stored_at d a (encode_state (header N o mc)) -> stored_at d' a (encode_state (header N o mc)).
Proof. intros Hf Hs. apply stored_same. rewrite length_header. intros x Hx. apply Hs. pose proof (bo_state _ _ (fits_bounds _ _ Hf)). lia. Qed.

(** The dummy page does not matter. *)
Lemma data_keep N o d d' mc p f : fits N o -> 0 <= p <= N ->
  (forall x, start_addr (cfg o) <= x < addr_state1 o ->
     ~ start_addr (cfg o) + p * page_size (cfg o) <= x < start_addr (cfg o) + p * page_size (cfg o) + page_size (cfg o) -> cell d' x = cell d x) ->
  data N o d mc p f -> data N o d' mc p f.
Proof.
  intros Hf Hp Hs Hd x Hx. destruct (fits_bounds _ _ Hf). destruct (phys_range N (page_size (cfg o)) ltac:(done) ltac:(done) mc p x Hp) as [H1 H2].
  rewrite Hs by lia. by apply Hd.
Qed.

Lemma udiv_run {A} a b (k : Z -> M (wl Drv D) A) Q w : b <> 0 -> wp (k (a / b)) Q w -> wp (udiv a b ≫= k) Q w.
Proof. intros Hb Hk. unfold udiv. rewrite (proj2 (Z.eqb_neq b 0)) by done. by apply wp_bind, wp_ret. Qed.

Lemma run_again r Q E w : r <> ESP_OK -> (forall g, E (Wl (g (obj w)) (dev w))) -> run (again r) Q E w.
Proof. intros Hr HE. unfold again. apply wp_bind, wp_set_obj, wp_ret. rewrite (proj2 (Z.eqb_neq r ESP_OK)) by done. apply HE. Qed.

Lemma page_in M p P : 0 < P -> 0 <= p <= M -> 0 <= p * P <= M * P.
Proof. nia. Qed.
Lemma page_apart p q P : 0 < P -> p <> q -> p * P + P <= q * P \/ q * P + P <= p * P.
Proof. intros HP Hne. assert (p + 1 <= q \/ q + 1 <= p) as [?|?] by lia; [left|right]; nia. Qed.

(** ** Moving a page *)

Section Move.
Context (N : Z) (d0 : D) (p src : Z) (E : wl Drv D -> Prop).
Context (HE : forall o1 o2 d, E (Wl o1 d) -> E (Wl o2 d)).

Lemma copy_page_spec n i o d P T to from Q :
  P = page_size (cfg o) -> T = temp_buff_size (cfg o) -> to = start_addr (cfg o) + p * P -> from = start_addr (cfg o) + src * P ->
  fits N o -> usable d -> 0 <= p <= N -> 0 <= src <= N -> src <> p -> dummy_addr o = to -> 0 <= i -> (i + Z.of_nat n) * T = P ->
  (forall x, ~ to <= x < to + P -> cell d x = cell d0 x) -> (forall k, 0 <= k < i * T -> cell d (to + k) = cell d0 (from + k)) ->
  (forall k, i * T <= k < P -> cell d (to + k) = 255) ->
  (forall d1 d2, (forall x, ~ to <= x < to + P -> cell d1 x = cell d0 x) -> spoiled d1 d2 -> E (Wl o d2)) ->
  (forall o' d', same_place o o' -> state o' = state o -> usable d' -> (forall x, ~ to <= x < to + P -> cell d' x = cell d0 x) ->
     (forall k, 0 <= k < P -> cell d' (to + k) = cell d0 (from + k)) -> Q (Wl o' d')) ->
  run (copy_page n i from) Q E (Wl o d).
Proof.
  intros EP ET Eto Efrom Hf Hu Hp Hsrc Hne Hdum Hi HP Hout Hdone Hrest Herr HQ.
  revert i o d EP ET Eto Efrom Hf Hu Hdum Hi HP Hout Hdone Hrest Herr HQ. induction n as [|n IH]; intros i o d EP ET Eto Efrom Hf Hu Hdum Hi HP Hout Hdone Hrest Herr HQ; cbn [copy_page].
  { apply run_ok. apply HQ; [apply wear_place_refl|done|done|done|]. intros k Hk. apply Hdone. replace (i * T) with P by lia. done. }
  pose proof (fits_bounds _ _ Hf) as [B1 B2 B3 B4 B5 B6 B7 B8 B9 B10 B11 B12]. rewrite <- EP in B2, B4, B5. destruct (ft_temp _ _ Hf) as [HT _]. rewrite <- ET in HT.
  destruct (ft_buff _ _ Hf) as (buf & Eb & Hlen). rewrite <- ET in Hlen. assert (Hrange : 0 <= i * T /\ i * T + T <= P) by nia.
  destruct (page_in N p P B2 Hp) as [Hp1 Hp2]. destruct (page_in N src P B2 Hsrc) as [Hs1 Hs2].
  assert (Hto : to + P <= addr_state1 o /\ 0 <= to) by lia. assert (Hfrom : from + P <= addr_state1 o /\ 0 <= from) by lia.
  assert (Hapart : from + P <= to \/ to + P <= from) by (destruct (page_apart src p P B2 Hne); [left|right]; lia).
  apply wp_bind, wp_this. cbn [obj]. rewrite Eb, Hdum, <- ET. apply wp_bind. rewrite !u32_small by lia. apply wp_drv_read; [apply Hf|done|lia|lia|..]; cbn [obj dev].
  2:{ intros r l d' Hr Hl Hs%read_failed_spoiled. apply wp_bind, wp_set_obj. rewrite (proj2 (Z.eqb_neq r ESP_OK)) by done. apply run_again; [done|]. intros g. eapply HE, Herr; [exact Hout|exact Hs]. }
  intros l d1 Hl Hu1 Hc1 Hli. apply wp_bind, wp_set_obj. cbn [obj dev]. change (negb (ESP_OK =? ESP_OK)) with false. cbv iota.
  assert (Hsp : same_place o (with_temp (Some l) o)) by (split; try reflexivity; cbn; rewrite Eb; cbn; by rewrite Hl). set (o1 := with_temp (Some l) o) in *.
  assert (Hf1 : fits N o1) by (by eapply fits_same).
  assert (Hbytes : Forall (fun b => 0 <= b < 256) l).
  { apply Forall_forall. intros b Hb. apply list_elem_of_lookup in Hb as [j Hj]. pose proof (lookup_lt_Some _ _ _ Hj) as Hlt. specialize (Hli (Z.of_nat j) ltac:(lia)).
    unfold at_, rd in Hli. rewrite (proj2 (in_range_true _ _)), Nat2Z.id, Hj in Hli by lia. subst b. apply cell_byte. }
  apply run_test. eapply run_mono; [apply (run_write (Wl o1 d1)); [apply Hf1|done|lia|lia|done]| |].
  2:{ intros [o' d'] [_ Hbr] r Hr. cbn in Hbr. apply run_again; [done|]. intros g. eapply HE, (Herr d1); [|exact Hbr]. intros x Hx. rewrite Hc1. by apply Hout. }
  intros w2 (d2 & -> & Hu2 & Hc2). cbn [obj dev] in *. rewrite Hl, Hlen in Hc2. apply (IH (i + 1) o1 d2); clear IH; [exact EP|exact ET|exact Eto|exact Efrom|exact Hf1|exact Hu2|exact Hdum|lia|lia|..].
  - intros x Hx. rewrite Hc2, Hc1. destruct (within (to + i * T) T x) eqn:Ew; [apply within_spec in Ew; lia|]. by apply Hout.
  - intros k Hk. rewrite Hc2, Hc1. destruct (within (to + i * T) T (to + k)) eqn:Ew.
    + apply within_spec in Ew. rewrite Hrest by lia. replace (to + k - (to + i * T)) with (k - i * T) by lia. rewrite Hli by lia.
      rewrite land_255 by apply cell_byte. rewrite Hout by lia. f_equal. lia.
    + assert (~ to + i * T <= to + k < to + i * T + T) by (rewrite <- within_spec; congruence). apply Hdone. lia.
  - intros k Hk. rewrite Hc2, Hc1. destruct (within (to + i * T) T (to + k)) eqn:Ew; [apply within_spec in Ew; lia|]. apply Hrest. lia.
  - intros d3 d4 Hd3 Hsp4. eapply HE. by apply (Herr d3 d4).
  - intros o' d' Hsp' Hst' Hu' Hout' Hcopy. apply HQ; [by eapply same_place_trans|exact Hst'|exact Hu'|exact Hout'|exact Hcopy].
Qed.
End Move.

(** The page behind the dummy was copied into it. *)
Lemma data_move N o d0 d mc p f : fits N o -> 0 <= p < N ->
  let P := page_size (cfg o) in let to := start_addr (cfg o) + p * P in
  (forall x, ~ to <= x < to + P -> cell d x = cell d0 x) -> (forall k, 0 <= k < P -> cell d (to + k) = cell d0 (start_addr (cfg o) + (p + 1) * P + k)) ->
  data N o d0 mc p f -> data N o d mc (p + 1) f.
Proof.
  intros Hf Hp P to Hout Hcopy Hd x Hx. destruct (fits_bounds _ _ Hf). fold P in Hx |- *. destruct (phys_range N P ltac:(done) ltac:(done) mc p x ltac:(lia)) as [R1 R2].
  specialize (Hd x Hx). fold P in Hd. rewrite phys_move by lia. destruct (within ((p + 1) * P) P (phys N P mc p x)) eqn:Ew.
  - apply within_spec in Ew. replace (start_addr (cfg o) + (phys N P mc p x - P)) with (to + (phys N P mc p x - (p + 1) * P)) by (subst to; lia).
    rewrite Hcopy by lia. rewrite <- Hd. f_equal. lia.
  - rewrite Hout by (subst to; lia). done.
Qed.

Lemma data_wrap N o d0 d mc f : fits N o -> 0 <= mc < N ->
  let P := page_size (cfg o) in let to := start_addr (cfg o) + N * P in
  (forall x, ~ to <= x < to + P -> cell d x = cell d0 x) -> (forall k, 0 <= k < P -> cell d (to + k) = cell d0 (start_addr (cfg o) + 0 * P + k)) ->
  data N o d0 mc N f -> data N o d (next_turn N mc) 0 f.
Proof.
  intros Hf Hmc P to Hout Hcopy Hd x Hx. destruct (fits_bounds _ _ Hf). fold P in Hx |- *. destruct (phys_range N P ltac:(done) ltac:(done) mc N x ltac:(lia)) as [R1 R2].
  specialize (Hd x Hx). fold P in Hd. rewrite phys_wrap by lia. destruct (within 0 P (phys N P mc N x)) eqn:Ew.
  - apply within_spec in Ew. replace (start_addr (cfg o) + (phys N P mc N x + N * P)) with (to + phys N P mc N x) by (subst to; lia).
    rewrite Hcopy by lia. rewrite <- Hd. f_equal. lia.
  - rewrite Hout by (subst to; lia). done.
Qed.

Lemma next_turn_range N mc : 1 <= N -> 0 <= mc < N -> 0 <= next_turn N mc < N.
Proof. intros HN Hmc. unfold next_turn. destruct (Z.leb_spec N (mc + 1)); lia. Qed.

(** After an error: the contents can be recovered if [cl] holds. *)
Definition fails N o f (cl : Prop) w : Prop := exists dx, spoiled dx (dev w) /\ (cl -> crash N o dx f).

Lemma fails_obj N o f cl o1 o2 d : fails N o f cl (Wl o1 d) -> fails N o f cl (Wl o2 d).
Proof. done. Qed.

Lemma run_write_state N w a s Q (E : wl Drv D -> Prop) :
  fits N (obj w) -> usable (dev w) -> a = addr_state1 (obj w) \/ a = addr_state2 (obj w) ->
  (forall d2, usable d2 ->
     (forall x, cell d2 x = if within a 32 x then at_ 0 (encode_state s) (x - a) else if within a (state_size (obj w)) x then 255 else cell (dev w) x) -> Q (Wl (obj w) d2)) ->
  (forall d2, spoiled (dev w) d2 -> E (Wl (obj w) d2)) ->
  (forall d1 d2, (forall x, cell d1 x = if within a (state_size (obj w)) x then 255 else cell (dev w) x) -> spoiled d1 d2 -> E (Wl (obj w) d2)) ->
  run (write_state a s) Q E w.
Proof.
  intros Hf Hu Ha HQ HE1 HE2. pose proof (fits_bounds _ _ Hf) as [B1 B2 B3 B4 B5 B6 B7 B8 B9 B10 B11 B12]. destruct (ft_aligned _ _ Hf) as (A1 & A2 & _ & A4 & _).
  unfold write_state. apply wp_bind, wp_this.
  apply (run_rewrite w a (state_size (obj w)) (encode_state s)); rewrite ?length_encode_state; try done; try lia.
  - apply Hf.
  - destruct Ha as [->| ->]; done.
  - apply encode_state_bytes.
  - intros d1 d2 Hu2 Hc1 Hc2. by apply HQ.
  - intros [o' d'] [E1 Hb]. cbn in E1, Hb. subst o'. by apply HE1.
  - intros d1 [o' d'] Hc1 [E1 Hb]. cbn in E1, Hb. subst o'. by apply (HE2 d1).
Qed.

(** A copy of the state that was just written: no step is done. *)
Lemma fresh_state N o d0 d a mc : fits N o ->
  (forall x, cell d x = if within a 32 x then at_ 0 (encode_state (header N o mc)) (x - a) else if within a (state_size o) x then 255 else cell d0 x) ->
  stored_at d a (encode_state (header N o mc)) /\ bits_exact N o d a 0.
Proof.
  intros Hf Hc. split.
  - intros i Hi. rewrite length_header in Hi. rewrite Hc, (proj2 (within_spec a 32 (a + i))) by lia. f_equal. lia.
  - intros i Hi. pose proof (bit_range N o a i Hf Hi) as Hb. rewrite Hc. destruct (within a 32 _) eqn:E1; [apply within_spec in E1; lia|].
    rewrite (proj2 (within_spec a (state_size o) _)) by lia. lia.
Qed.

(** Ranges that a write of one copy of the state leaves alone. *)
Lemma same_outside d0 d a n l (g : Z -> Z) lo hi : (forall x, cell d x = if within a l x then g x else if within a n x then 255 else cell d0 x) ->
  l <= n -> hi <= a \/ a + n <= lo -> same d0 d lo hi.
Proof.
  intros Hc Hl Hr x Hx. rewrite Hc. destruct (within a l x) eqn:E1; [apply within_spec in E1; lia|]. destruct (within a n x) eqn:E2; [apply within_spec in E2; lia|done].
Qed.
Lemma same_erased d0 d a n lo hi : (forall x, cell d x = if within a n x then 255 else cell d0 x) -> hi <= a \/ a + n <= lo -> same d0 d lo hi.
Proof. intros Hc Hr x Hx. rewrite Hc. destruct (within a n x) eqn:E2; [apply within_spec in E2; lia|done]. Qed.

Lemma data_same N o d d' mc p f : fits N o -> 0 <= p <= N -> same d d' (start_addr (cfg o)) (addr_state1 o) -> data N o d mc p f -> data N o d' mc p f.
Proof. intros Hf Hp Hs. apply data_keep; [done|done|]. intros x Hx _. by apply Hs. Qed.

Definition round_state N o mc c : wl_state_t := WLState (N + 1) (N + 1) mc 0 (updaterate (cfg o)) (page_size (cfg o)) (cfg_version (cfg o)) c.

Lemma next_round_spec N o d mc c f :
  fits N o -> usable d -> 0 <= mc < N -> state o = round_state N o mc c ->
  stored_at d (addr_state2 o) (encode_state (header N o mc)) -> data N o d mc N f -> data N o d (next_turn N mc) 0 f ->
  crash N o d f ->
  run (next_round crc32_le) (fun w' => same_place o (obj w') /\ valid N w' (next_turn N mc) 0 f) (fails N o f (bits_used o d (addr_state2 o) (N + 1))) (Wl o d).
Proof.
  intros Hf Hu Hmc Est Hh2 Hd Hd' Hcr. pose proof (fits_bounds _ _ Hf) as [B1 B2 B3 B4 B5 B6 B7 B8 B9 B10 B11 B12].
  unfold next_round. do 4 (apply wp_bind, wp_set_obj; cbn [obj dev]). rewrite Est. unfold round_state. cbn [state with_state set_pos set_move_count move_count max_pos].
  set (mc' := next_turn N mc). pose proof (next_turn_range N mc B1 Hmc) as Hmc'. fold mc' in Hmc'.
  set (o1 := with_state (header N o mc') o).
  match goal with |- wp _ _ (Wl ?x d) => assert (Eo : x = o1) end.
  { rewrite (u32_small (mc + 1)), (u32_small (N + 1 - 1)) by lia. unfold o1, mc', next_turn, header. replace (N + 1 - 1) with N by lia.
    destruct (Z.leb_spec N (mc + 1)); cbn; [done|]. done. }
  rewrite Eo. clear Eo. assert (Hsp : same_place o o1) by (by split). assert (Hf1 : fits N o1) by (by eapply fits_same).
  apply wp_bind, wp_this. cbn [obj]. change (state o1) with (header N o mc'). apply run_seq. set (cl := bits_used o d (addr_state2 o) (N + 1)).
  apply (run_write_state N (Wl o1 d)); cbn [obj dev]; [done|done|by left| | |].
  2:{ intros d2 Hsp2. exists d. split; [exact Hsp2|]. done. }
  2:{ intros d1 d2 Hc1 Hsp2. exists d1. split; [exact Hsp2|]. intros Hcl. change (state_size o1) with (state_size o) in Hc1. change (addr_state1 o1) with (addr_state1 o) in Hc1.
      pose proof (fun lo hi => same_erased d d1 (addr_state1 o) (state_size o) lo hi Hc1) as Hs. apply (NoFirst N o d1 f mc); [done| | | |].
      - intros x Hx. unfold sizeof_wl_state_t in Hx. rewrite Hc1, (proj2 (within_spec _ _ _)) by lia. done.
      - eapply header_keep; [done| |exact Hh2]. apply Hs. lia.
      - eapply (used_keep N); [done|lia| |exact Hcl]. apply Hs. lia.
      - eapply data_same; [done|lia| |exact Hd]. apply Hs. lia. }
  intros d2 Hu2 Hc2. change (state_size o1) with (state_size o) in Hc2. change (addr_state1 o1) with (addr_state1 o) in Hc2.
  pose proof (fun lo hi => same_outside d d2 (addr_state1 o) (state_size o) 32 _ lo hi Hc2 B6) as Hs2. destruct (fresh_state N o d d2 (addr_state1 o) mc' Hf Hc2) as [Hn1 Hn2].
  assert (Hh22 : stored_at d2 (addr_state2 o) (encode_state (header N o mc))) by (eapply header_keep; [done| |exact Hh2]; apply Hs2; lia).
  assert (Hd2 : data N o d2 mc' 0 f) by (eapply data_same; [done|lia| |exact Hd']; apply Hs2; lia).
  apply (run_write_state N (Wl o1 d2)); cbn [obj dev]; [done|done|by right| | |].
  2:{ intros d3 Hsp3. exists d2. split; [exact Hsp3|]. intros _. by apply (OldSecond N o d2 f mc' mc). }
  2:{ intros d3 d4 Hc3 Hsp3. exists d3. split; [exact Hsp3|]. intros _. change (state_size o1) with (state_size o) in Hc3. change (addr_state2 o1) with (addr_state2 o) in Hc3.
      pose proof (fun lo hi => same_erased d2 d3 (addr_state2 o) (state_size o) lo hi Hc3) as Hs3. apply (NoSecond N o d3 f mc'); [done| | | |].
      - eapply header_keep; [done| |exact Hn1]. apply Hs3. lia.
      - eapply bits_keep; [done| |exact Hn2]. apply Hs3. lia.
      - intros x Hx. unfold sizeof_wl_state_t in Hx. rewrite Hc3, (proj2 (within_spec _ _ _)) by lia. done.
      - eapply data_same; [done|lia| |exact Hd2]. apply Hs3. lia. }
  intros d4 Hu4 Hc4. change (state_size o1) with (state_size o) in Hc4. change (addr_state2 o1) with (addr_state2 o) in Hc4.
  pose proof (fun lo hi => same_outside d2 d4 (addr_state2 o) (state_size o) 32 _ lo hi Hc4 B6) as Hs4. destruct (fresh_state N o d2 d4 (addr_state2 o) mc' Hf Hc4) as [Hm1 Hm2].
  split; [done|]. split; cbn [obj dev]; try done; try lia.
  - exists 0, (crc (header N o mc')). split; [|lia]. rewrite Z.min_l by lia. unfold o1, header. done.
  - eapply header_keep; [done| |exact Hn1]. apply Hs4. cbn. lia.
  - eapply bits_exact_place; [exact Hsp|]. eapply bits_keep; [done| |exact Hn2]. apply Hs4. cbn. lia.
  - rewrite Z.min_l by lia. eapply data_place; [exact Hsp|]. eapply data_same; [done|lia| |exact Hd2]. apply Hs4. lia.
Qed.

(** The second copy has all steps that the first one has. *)
Definition clean N w q : Prop := bits_used (obj w) (dev w) (addr_state2 (obj w)) (Z.min q N).

(** A byte is cleared. *)
Lemma run_clear N w a Q (E : wl Drv D -> Prop) :
  fits N (obj w) -> usable (dev w) -> 0 <= a < cap ->
  (forall d', usable d' -> (forall x, cell d' x = if decide (x = a) then 0 else cell (dev w) x) -> Q (Wl (obj w) d')) ->
  (forall d', spoiled (dev w) d' -> E (Wl (obj w) d')) ->
  run (drv_write a [0]) Q E w.
Proof.
  intros Hf Hu Ha HQ HE. eapply run_mono; [apply run_write; [apply Hf|done|lia|cbn; lia|by repeat constructor]| |].
  - intros w' (d' & -> & Hu' & Hc). apply HQ; [done|]. intros x. rewrite Hc. cbn [length]. case_decide as Ex.
    + subst x. rewrite (proj2 (within_spec _ _ _)), Z.sub_diag by lia. apply Z.land_0_r.
    + destruct (within a _ x) eqn:Ew; [apply within_spec in Ew; lia|done].
  - intros [o' d'] [E1 Hb]. cbn in E1, Hb. subst o'. by apply HE.
Qed.

(** The byte of step [p] is cleared. *)
Lemma bits_step N o d d' a p q : fits N o -> 0 <= p <= N -> p = Z.min q N -> 0 <= q <= N + 1 -> (forall x, cell d' x = if decide (x = bit_addr o a p) then 0 else cell d x) ->
  bits_exact N o d a q -> bits_exact N o d' a (p + 1).
Proof.
  intros Hf Hp Hpq Hq Hc Hb i Hi. rewrite Hc. case_decide as Ei.
  - destruct (decide (i = p)) as [->|Hne]; [lia|]. by apply (bit_ne N o a i p Hf) in Hne.
  - assert (i <> p) by (intros ->; done). rewrite (Hb i Hi). lia.
Qed.

Lemma used_step N o d d' a p : fits N o -> (forall x, cell d' x = if decide (x = bit_addr o a p) then 0 else cell d x) -> bits_used o d a p -> bits_used o d' a (p + 1).
Proof. intros Hf Hc Hb i Hi. rewrite Hc. case_decide as Ei; [lia|]. apply Hb. assert (i <> p) by (intros ->; done). lia. Qed.

Lemma same_clear d d' a lo hi : (forall x, cell d' x = if decide (x = a) then 0 else cell d x) -> ~ lo <= a < hi -> same d d' lo hi.
Proof. intros Hc Ha x Hx. rewrite Hc, decide_False; [done|]. intros ->. lia. Qed.

Lemma step_done_spec N o d mc p q c f :
  fits N o -> usable d -> 0 <= mc < N -> 0 <= q <= N + 1 -> p = Z.min q N ->
  state o = WLState p (N + 1) mc 0 (updaterate (cfg o)) (page_size (cfg o)) (cfg_version (cfg o)) c ->
  stored_at d (addr_state1 o) (encode_state (header N o mc)) -> bits_exact N o d (addr_state1 o) q -> stored_at d (addr_state2 o) (encode_state (header N o mc)) ->
  data N o d mc p f -> (if decide (p < N) then data N o d mc (p + 1) f else data N o d (next_turn N mc) 0 f) ->
  let cl := bits_used o d (addr_state2 o) p in
  run (step_done crc32_le) (fun w' => same_place o (obj w') /\ exists mc' q', valid N w' mc' q' f /\ (cl -> clean N w' q')) (fails N o f cl) (Wl o d).
Proof.
  intros Hf Hu Hmc Hq Hp Est Hh1 Hb1 Hh2 Hd Hnext cl. pose proof (fits_bounds _ _ Hf) as [B1 B2 B3 B4 B5 B6 B7 B8 B9 B10 B11 B12].
  assert (HpN : 0 <= p <= N) by lia. pose proof (bit_range N o (addr_state1 o) p Hf HpN) as R1. pose proof (bit_range N o (addr_state2 o) p Hf HpN) as R2.
  unfold step_done. apply wp_bind, wp_set_obj. cbn [obj dev]. set (o1 := with_used 0 o). assert (Hsp1 : same_place o o1) by (by split). assert (Hf1 : fits N o1) by (by eapply fits_same).
  apply wp_bind, wp_this. cbn [obj]. change (state o1) with (state o). change (cfg o1) with (cfg o). change (addr_state1 o1) with (addr_state1 o). change (addr_state2 o1) with (addr_state2 o).
  change (used_bits o1) with 0. rewrite Est. cbn [pos]. assert (Ea : forall a, u32 (a + sizeof_wl_state_t + u32 (p * wr_size (cfg o))) = u32 (bit_addr o a p)).
  { intros a. unfold bit_addr, u32, wrap. apply Zplus_mod_idemp_r. }
  rewrite !Ea, !u32_small by lia. apply run_test.
  assert (Hcr0 : crash N o d f) by (by apply (InStep N o d f mc q); try done; rewrite <- Hp).
  apply (run_clear N (Wl o1 d)); cbn [obj dev]; [done|done|lia| |intros d' Hsp' r Hr; apply run_again; [done|]; intros g; by exists d].
  intros d1 Hu1 Hc1. pose proof (bits_step N o d d1 (addr_state1 o) p q Hf HpN Hp Hq Hc1 Hb1) as Hb11. pose proof (fun lo hi => same_clear d d1 _ lo hi Hc1) as Hs1.
  assert (Hh11 : stored_at d1 (addr_state1 o) (encode_state (header N o mc))) by (eapply stored_same; [|exact Hh1]; rewrite length_header; apply Hs1; lia).
  assert (Hh12 : stored_at d1 (addr_state2 o) (encode_state (header N o mc))) by (eapply header_keep; [done| |exact Hh2]; apply Hs1; lia).
  assert (Hdat : forall m r, 0 <= r <= N -> data N o d m r f -> data N o d1 m r f) by (intros m r Hr; apply data_same; [done|done|apply Hs1; lia]).
  assert (Hd1 : data N o d1 mc (Z.min (p + 1) N) f).
  { case_decide as Elt; [rewrite Z.min_l by lia; apply Hdat; [lia|done]|]. replace (Z.min (p + 1) N) with p by lia. by apply Hdat. }
  assert (Hcr1 : crash N o d1 f) by (apply (InStep N o d1 f mc (p + 1)); try done; lia).
  apply run_test. apply (run_clear N (Wl o1 d1)); cbn [obj dev]; [done|done|lia| |intros d' Hsp' r Hr; apply run_again; [done|]; intros g; by exists d1].
  intros d2 Hu2 Hc2. pose proof (fun lo hi => same_clear d1 d2 _ lo hi Hc2) as Hs2.
  assert (Hb21 : bits_exact N o d2 (addr_state1 o) (p + 1)) by (eapply bits_keep; [done| |exact Hb11]; apply Hs2; lia).
  assert (Hh21 : stored_at d2 (addr_state1 o) (encode_state (header N o mc))) by (eapply header_keep; [done| |exact Hh11]; apply Hs2; lia).
  assert (Hh22 : stored_at d2 (addr_state2 o) (encode_state (header N o mc))) by (eapply stored_same; [|exact Hh12]; rewrite length_header; apply Hs2; lia).
  assert (Hdat2 : forall m r, 0 <= r <= N -> data N o d1 m r f -> data N o d2 m r f) by (intros m r Hr; apply data_same; [done|done|apply Hs2; lia]).
  assert (Hcl2 : cl -> bits_used o d2 (addr_state2 o) (p + 1)).
  { intros Hcl. eapply used_step; [done|exact Hc2|]. eapply (used_keep N); [done|lia| |exact Hcl]. apply Hs1. lia. }
  apply wp_bind, wp_set_obj. cbn [obj dev]. change (state o1) with (state o). rewrite Est. cbn [pos set_pos]. rewrite (u32_small (p + 1)) by lia.
  set (st2 := set_pos (p + 1) _). apply wp_bind, wp_this. cbn [obj]. change (state (with_state st2 o1)) with st2. cbn [st2 set_pos max_pos pos].
  assert (Hsp2 : same_place o (with_state st2 o1)) by (by split). assert (Hf2 : fits N (with_state st2 o1)) by (by eapply fits_same).
  assert (Hcr2 : crash N o d2 f) by (apply (InStep N o d2 f mc (p + 1)); try done; [lia|apply Hdat2; [lia|done]]).
  case_decide as Elt.
  - rewrite (proj2 (Z.leb_gt (N + 1) (p + 1))) by lia. apply run_ok. split; [done|]. exists mc, (p + 1). split.
    + split; cbn [obj dev]; try done; try lia.
      * exists 0, c. split; [|lia]. rewrite Z.min_l by lia. done.
      * rewrite Z.min_l by lia. eapply data_place; [exact Hsp2|]. apply Hdat2; [lia|]. apply Hdat; [lia|done].
    + intros Hcl. unfold clean. cbn [obj dev]. rewrite Z.min_l by lia. by apply Hcl2.
  - assert (Ep : p = N) by lia. rewrite (proj2 (Z.leb_le (N + 1) (p + 1))) by lia.
    pose proof (next_round_spec N (with_state st2 o1) d2 mc c f) as Hnr. eapply run_mono; [apply Hnr|..]; clear Hnr.
    + done.
    + done.
    + done.
    + unfold st2, round_state. cbn. by rewrite Ep.
    + done.
    + eapply data_place; [exact Hsp2|]. apply Hdat2; [lia|]. apply Hdat; [lia|]. rewrite Ep in Hd. exact Hd.
    + eapply data_place; [exact Hsp2|]. apply Hdat2; [lia|]. apply Hdat; [lia|done].
    + by eapply crash_place.
    + intros w' [Hsp' Hv]. split; [by eapply same_place_trans|]. exists (next_turn N mc), 0. split; [done|]. intros _ i Hi. lia.
    + intros w' (dx & Hsx & Hx). exists dx. split; [done|]. intros Hcl. assert (Hback : same_place (with_state st2 o1) o) by (destruct Hsp2; by split).
      eapply crash_place; [exact Hback|]. apply Hx. rewrite <- Ep. by apply Hcl2.
Qed.

Lemma div_exact a b : 0 < b -> a mod b = 0 -> a / b * b = a.
Proof. intros Hb Ha. pose proof (Z.div_mod a b ltac:(lia)). lia. Qed.

(** [updateWL] keeps the user's bytes, also when it fails on the way. *)
Lemma update_spec N w mc q f : valid N w mc q f ->
  run (updateWL crc32_le) (fun w' => same_place (obj w) (obj w') /\ exists mc' q', valid N w' mc' q' f /\ (clean N w q -> clean N w' q')) (fails N (obj w) f (clean N w q)) w.
Proof.
  intros [Hf Hu Hmc Hq (ac & c & Est & Hac) Hh1 Hb1 Hh2 Hd]. destruct w as [o d]. unfold clean. cbn [obj dev] in *.
  pose proof (fits_bounds _ _ Hf) as [B1 B2 B3 B4 B5 B6 B7 B8 B9 B10 B11 B12]. set (p := Z.min q N) in *. assert (Hp : 0 <= p <= N) by lia.
  unfold updateWL. apply wp_bind, wp_set_obj. cbn [obj dev]. rewrite Est. cbn [set_access_count access_count pos max_pos move_count max_count block_size version crc].
  apply wp_bind, wp_this. cbn [obj with_state state access_count max_count]. destruct (_ <? _).
  { apply run_ok. set (o1 := with_state _ o). assert (Hsp : same_place o o1) by (by split). split; [done|]. exists mc, q. split; [|done].
    split; try done; cbn [obj dev]; [by eapply fits_same|]. eexists _, _. split; [reflexivity|]. apply u32_range. }
  apply wp_bind, wp_set_obj. cbn [obj dev with_state state set_access_count pos max_pos move_count max_count block_size version crc cfg].
  apply wp_bind, wp_set_obj. cbn [obj dev with_dummy cfg state]. rewrite (u32_small (p + 1)) by lia. destruct (page_in N p _ B2 Hp) as [P1 P2]. rewrite (u32_small (_ + p * _)) by lia.
  set (to := start_addr (cfg o) + p * page_size (cfg o)). set (src := if decide (p < N) then p + 1 else 0).
  assert (Esrc : (if N + 1 <=? p + 1 then 0 else p + 1) = src) by (unfold src; case_decide; destruct (Z.leb_spec (N + 1) (p + 1)); lia). rewrite Esrc.
  assert (Hsrc : 0 <= src <= N /\ src <> p) by (unfold src; case_decide; lia). destruct (page_in N src _ B2 (proj1 Hsrc)) as [S1 S2]. rewrite (u32_small (_ + src * _)) by lia.
  match goal with |- wp _ _ (Wl ?x d) => set (o1 := x) end.
  assert (Hsp1 : same_place o o1) by (by split). assert (Hf1 : fits N o1) by (by eapply fits_same). assert (Est1 : state o1 = WLState p (N + 1) mc 0 (updaterate (cfg o)) (page_size (cfg o)) (cfg_version (cfg o)) c) by done.
  apply wp_bind, wp_this. cbn [obj]. change (cfg o1) with (cfg o). change (dummy_addr o1) with to. set (cl := bits_used o d (addr_state2 o) p).
  assert (Hdum : forall d', (forall x, ~ to <= x < to + page_size (cfg o) -> cell d' x = cell d x) ->
    stored_at d' (addr_state1 o) (encode_state (header N o mc)) /\ bits_exact N o d' (addr_state1 o) q /\ stored_at d' (addr_state2 o) (encode_state (header N o mc))
    /\ data N o d' mc p f /\ (cl -> bits_used o d' (addr_state2 o) p)).
  { intros d' Hout. assert (Hs : forall lo hi, to + page_size (cfg o) <= lo -> same d d' lo hi) by (intros lo hi Hlo x Hx; apply Hout; lia).
    split_and!; [eapply header_keep; [done| |exact Hh1]; apply Hs; lia|eapply bits_keep; [done| |exact Hb1]; apply Hs; lia|
      eapply header_keep; [done| |exact Hh2]; apply Hs; lia|eapply data_keep; [done|done| |exact Hd]; intros x _ Hx; apply Hout; exact Hx|
      intros Hcl; eapply (used_keep N); [done|lia| |exact Hcl]; apply Hs; lia]. }
  assert (Hcr : forall d', (forall x, ~ to <= x < to + page_size (cfg o) -> cell d' x = cell d x) -> crash N o d' f).
  { intros d' Hout. destruct (Hdum d' Hout) as (G1 & G2 & G3 & G4 & _). by apply (InStep N o d' f mc q). }
  apply run_test. eapply run_mono; [apply (run_erase (Wl o1 d)); cbn [obj dev]; [apply Hf1|done|lia|lia|lia| |apply Hf]| |].
  { destruct (ft_page _ _ Hf) as [_ E1], (ft_start _ _ Hf) as [_ E2]. unfold to. destruct (ft_sector _ _ Hf) as [_ HS]. rewrite Z.add_mod, E2, Z.mul_mod, E1, Z.mul_0_r by lia. done. }
  2:{ intros [o' d'] [_ Hb] r Hr. cbn in Hb. apply run_again; [done|]. intros g. exists d. split; [exact Hb|]. intros _. by apply Hcr. }
  intros w2 (d2 & -> & Hu2 & Hc2). cbn [obj dev] in *. destruct (ft_temp _ _ Hf) as [HT HTm]. apply udiv_run; [lia|]. apply run_seq.
  assert (Hout2 : forall x, ~ to <= x < to + page_size (cfg o) -> cell d2 x = cell d x) by (intros x Hx; rewrite Hc2; destruct (within to _ x) eqn:Ew; [apply within_spec in Ew; lia|done]).
  apply (copy_page_spec N d p src (fails N o f cl) ltac:(done) _ _ o1 d2 (page_size (cfg o)) (temp_buff_size (cfg o)) to (start_addr (cfg o) + src * page_size (cfg o))); try done; try lia.
  - cbn. rewrite Z2Nat.id by (apply Z.div_pos; lia). by apply div_exact.
  - intros k Hk. rewrite Hc2, (proj2 (within_spec _ _ _)) by lia. done.
  - intros d3 d4 Hout3 Hs3. exists d3. split; [exact Hs3|]. intros _. by apply Hcr.
  - intros o3 d3 Hsp3 Est3 Hu3 Hout3 Hcopy. destruct (Hdum d3 Hout3) as (G1 & G2 & G3 & G4 & G5).
    assert (Hsp : same_place o o3) by (by eapply same_place_trans). assert (Hf3 : fits N o3) by (by eapply fits_same).
    pose proof (step_done_spec N o3 d3 mc p q c f Hf3 Hu3 Hmc Hq eq_refl) as Hsd. cbv zeta in Hsd. rewrite (sp_cfg _ _ Hsp), (sp_a1 _ _ Hsp), (sp_a2 _ _ Hsp), (header_same N o o3 mc Hsp) in Hsd.
    eapply run_mono; [apply Hsd|..]; clear Hsd.
    + by rewrite Est3.
    + done.
    + by eapply bits_exact_place.
    + done.
    + by eapply data_place.
    + case_decide as Elt; (eapply data_place; [exact Hsp|]).
      * eapply (data_move N o d d3 mc p f); [done|lia|exact Hout3|exact Hcopy|exact Hd].
      * assert (Ep : p = N) by lia. eapply (data_wrap N o d d3 mc f); [done|done| |rewrite <- Ep; exact Hcopy|rewrite <- Ep at 2; exact Hd]. rewrite <- Ep. exact Hout3.
    + intros w' [Hsp' (mc' & q' & Hv & Hcl)]. split; [by eapply same_place_trans|]. exists mc', q'. split; [done|]. intros Hc0. apply Hcl. intros i Hi. rewrite (bit_place o o3 _ i Hsp). by apply G5.
    + intros w' (dx & Hsx & Hx). exists dx. split; [done|]. intros Hc0. assert (Hback : same_place o3 o) by (destruct Hsp; by split). eapply crash_place; [exact Hback|]. apply Hx.
      intros i Hi. rewrite (bit_place o o3 _ i Hsp). by apply G5.
Qed.

(** ** Access by the user *)

(** The range of [n] bytes at [a] is within one page. *)
Definition in_page (P a n : Z) : Prop := 0 <= a /\ 0 < n /\ a mod P + n <= P.

Lemma in_page_end N P a n : 0 < P -> in_page P a n -> a < N * P -> a + n <= N * P.
Proof.
  intros HP (H0 & H1 & H2) Ha. pose proof (Z.div_mod a P ltac:(lia)) as E. assert (a / P < N) by (apply Z.div_lt_upper_bound; lia). nia.
Qed.

Lemma calc_spec N w mc q f x (Q : Z -> wl Drv D -> Prop) : valid N w mc q f -> 0 <= x < N * page_size (cfg (obj w)) ->
  Q (phys N (page_size (cfg (obj w))) mc (Z.min q N) x) w -> wp (calcAddr x) Q w.
Proof.
  intros [Hf Hu Hmc Hq (ac & c & Est & Hac) _ _ _ _] Hx HQ. pose proof (fits_bounds _ _ Hf) as [B1 B2 B3 B4 B5 B6 B7 B8 B9 B10 B11 B12].
  destruct (ft_pages _ _ Hf) as [_ Efs]. set (P := page_size (cfg (obj w))) in *. destruct (page_in N mc P B2 ltac:(lia)) as [M1 M2]. destruct (page_in N (Z.min q N) P B2 ltac:(lia)) as [Q1 Q2].
  unfold calcAddr. apply wp_bind, wp_this. rewrite Efs, Est. cbn [move_count pos]. fold P. unfold umod. rewrite (proj2 (Z.eqb_neq (N * P) 0)) by lia. apply wp_bind, wp_ret.
  rewrite (u32_small (N * P - mc * P + x)) by lia. fold (turned N P mc x). pose proof (turned_range N P B1 B2 mc x). rewrite (u32_small (Z.min q N * P)), (u32_small (turned N P mc x + P)) by lia.
  by apply wp_ret.
Qed.

(** A change of bytes in one page. *)
Definition changed f (a n : Z) (g : Z -> Z -> Z) : Z -> Z := fun x => if within a n x then g (x - a) (f x) else f x.

Lemma valid_change N w mc q f a n g d' :
  valid N w mc q f -> in_page (page_size (cfg (obj w))) a n -> a < N * page_size (cfg (obj w)) -> usable d' ->
  let b := start_addr (cfg (obj w)) + phys N (page_size (cfg (obj w))) mc (Z.min q N) a in
  (forall y, cell d' y = if within b n y then g (y - b) (cell (dev w) y) else cell (dev w) y) ->
  valid N (Wl (obj w) d') mc q (changed f a n g) /\ (clean N w q -> clean N (Wl (obj w) d') q).
Proof.
  intros [Hf Hu Hmc Hq Hst Hh1 Hb1 Hh2 Hd] Hin Ha Hu' b Hc. pose proof (fits_bounds _ _ Hf) as [B1 B2 B3 B4 B5 B6 B7 B8 B9 B10 B11 B12]. destruct Hin as (H0 & H1 & H2).
  pose proof (in_page_end N _ a n B2 (conj H0 (conj H1 H2)) Ha) as Hend. destruct w as [o d]. unfold clean. cbn [obj dev] in *. set (P := page_size (cfg o)) in *. set (p := Z.min q N) in *.
  assert (Hp : 0 <= p <= N) by lia. assert (Hstep : forall k, 0 <= k < n -> phys N P mc p (a + k) = phys N P mc p a + k) by (intros k Hk; apply phys_step; lia).
  destruct (phys_range N P B1 B2 mc p a Hp) as [R1 _]. destruct (phys_range N P B1 B2 mc p (a + (n - 1)) Hp) as [R2 _]. rewrite Hstep in R2 by lia.
  assert (Hs : forall lo hi, addr_state1 o <= lo -> same d d' lo hi).
  { intros lo hi Hlo x Hx. rewrite Hc. destruct (within b n x) eqn:Ew; [apply within_spec in Ew; unfold b in Ew; lia|done]. }
  split; [split; try done; cbn [obj dev]|intros Hcl; eapply (used_keep N); [done|lia| |exact Hcl]; apply Hs; lia].
  - eapply header_keep; [done| |exact Hh1]. apply Hs. lia.
  - eapply bits_keep; [done| |exact Hb1]. apply Hs. lia.
  - eapply header_keep; [done| |exact Hh2]. apply Hs. lia.
  - intros x Hx. change (cell d' (start_addr (cfg o) + phys N P mc p x) = changed f a n g x). fold P in Hx. rewrite Hc. unfold changed. specialize (Hd x Hx). fold P in Hd. destruct (within a n x) eqn:Ea.
    + apply within_spec in Ea. pose proof (Hstep (x - a) ltac:(lia)) as Ek. replace (a + (x - a)) with x in Ek by lia. rewrite Ek in Hd |- *.
      rewrite (proj2 (within_spec _ _ _)) by (unfold b; lia). rewrite Hd. f_equal. unfold b. lia.
    + destruct (within b n _) eqn:Eb; [|done]. exfalso. apply within_spec in Eb. unfold b in Eb.
      assert (Hx2 : phys N P mc p x = phys N P mc p (a + (phys N P mc p x - phys N P mc p a))) by (rewrite Hstep; lia).
      apply phys_inj in Hx2; [|done|done|done|lia]. assert (Hne : ~ a <= x < a + n) by (rewrite <- within_spec; congruence). lia.
Qed.

(** After a failed call that changes nothing else. *)
Lemma valid_fails N w mc q f d' (o' : WL_Flash Drv) : valid N w mc q f -> spoiled (dev w) d' -> fails N (obj w) f (clean N w q) (Wl o' d').
Proof. intros [Hf Hu Hmc Hq Hst Hh1 Hb1 Hh2 Hd] Hs. exists (dev w). split; [done|]. intros _. by apply (InStep N (obj w) (dev w) f mc q). Qed.

Lemma fails_place N o o' f cl cl' w : same_place o o' -> (cl' -> cl) -> fails N o f cl w -> fails N o' f cl' w.
Proof. intros Hs Hc (dx & H1 & H2). exists dx. split; [done|]. intros Hcl. eapply crash_place; [exact Hs|]. by apply H2, Hc. Qed.

(** The object is in use, with contents [f]. *)
Definition works N w f (cl : bool) : Prop := initialized (obj w) = true /\ exists mc q, valid N w mc q f /\ (cl = true -> clean N w q).

(** After a failed call: with a clean second copy the contents are still there. *)
Definition lost_at N o f (cl : bool) w : Prop := exists dx, spoiled dx (dev w) /\ (cl = true -> crash N o dx f).

Lemma update_works N w f cl : works N w f cl -> run (updateWL crc32_le) (fun w' => same_place (obj w) (obj w') /\ works N w' f cl) (lost_at N (obj w) f cl) w.
Proof.
  intros [Hi (mc & q & Hv & Hcl)]. eapply run_mono; [by apply (update_spec N w mc q f)| |].
  - intros w' [Hsp (mc' & q' & Hv' & Hc')]. split; [done|]. split; [by rewrite (sp_init _ _ Hsp)|]. exists mc', q'. split; [done|]. auto.
  - intros w' (dx & Hs & Hx). exists dx. auto.
Qed.

Definition erased_at f (a n : Z) : Z -> Z := changed f a n (fun _ _ => 255).
Definition written_at f (a : Z) (l : list Z) : Z -> Z := changed f a (Z.of_nat (length l)) (fun i v => Z.land v (at_ 0 l i)).

Lemma mod_mod_divide a b c : 0 < c -> 0 < b -> b mod c = 0 -> (a mod b) mod c = a mod c.
Proof.
  intros Hc Hb Hd. rewrite (Z.mod_eq a b) by lia. apply Z.mod_divide in Hd as [k ->]; [|lia]. replace (a - k * c * (a / (k * c))) with (a + (- (k * (a / (k * c)))) * c) by lia.
  apply Z_mod_plus_full.
Qed.

Lemma phys_aligned N P mc p x c : 1 <= N -> 0 < P -> 0 < c -> P mod c = 0 -> x mod c = 0 -> phys N P mc p x mod c = 0.
Proof.
  intros HN HP Hc HPc Hx. assert (E : phys N P mc p x mod P = x mod P).
  { unfold phys. pose proof (turned_page N P HN HP mc x) as Et. destruct (_ <? _); [done|]. rewrite <- Et. rewrite <- (Z.mul_1_l P) at 2. apply Z_mod_plus_full. }
  rewrite <- (mod_mod_divide _ P c), E, mod_mod_divide by done. done.
Qed.

Lemma erase_sector_works N w f cl sector : works N w f cl -> 0 <= sector -> sector * SEC < N * page_size (cfg (obj w)) ->
  run (WL_erase_sector crc32_le sector) (fun w' => same_place (obj w) (obj w') /\ works N w' (erased_at f (sector * SEC) SEC) cl) (lost_at N (obj w) f cl) w.
Proof.
  intros Hw Hs0 Hs. pose proof Hw as [Hi (mc0 & q0 & Hv0 & _)]. pose proof (va_fits _ _ _ _ _ Hv0) as Hf0. pose proof (fits_bounds _ _ Hf0) as [B1 B2 B3 B4 B5 B6 B7 B8 B9 B10 B11 B12].
  destruct (ft_sector _ _ Hf0) as [ES HS]. destruct (ft_page _ _ Hf0) as [_ EP]. destruct (ft_start _ _ Hf0) as [_ Est].
  unfold WL_erase_sector. apply wp_bind, wp_this. rewrite Hi. cbn [negb]. apply run_seq. eapply run_mono; [by apply update_works| |done].
  intros w1 [Hsp [Hi1 (mc & q & Hv & Hcl)]]. pose proof (sp_cfg _ _ Hsp) as Ec. pose proof (va_fits _ _ _ _ _ Hv) as Hf.
  assert (Hin : in_page (page_size (cfg (obj w))) (sector * SEC) SEC).
  { split; [nia|]. split; [done|]. set (P := page_size (cfg (obj w))) in *. pose proof (Z.mod_pos_bound (sector * SEC) P B2) as Hm.
    assert (Hz : ((sector * SEC) mod P) mod SEC = 0) by (rewrite mod_mod_divide by done; apply Z_mod_mult).
    apply Z.mod_divide in Hz as [k1 Hk1]; [|lia]. apply Z.mod_divide in EP as [k2 Hk2]; [|lia]. rewrite Hk1 in Hm |- *. rewrite Hk2 in Hm |- *. assert (k1 < k2) by nia. nia. }
  pose proof (in_page_end N _ _ _ B2 Hin Hs) as Hend. apply wp_bind, wp_this. rewrite Ec, ES. rewrite (u32_small (sector * SEC)) by nia.
  apply wp_bind. eapply (calc_spec N w1 mc q f); [done|rewrite Ec; nia|]. rewrite Ec. set (P := page_size (cfg (obj w))) in *. set (b := phys N P mc (Z.min q N) (sector * SEC)).
  destruct (phys_range N P B1 B2 mc (Z.min q N) (sector * SEC) ltac:(destruct Hv; lia)) as [R1 _]. fold b in R1.
  assert (Hb : (start_addr (cfg (obj w)) + b) mod SEC = 0).
  { assert (Hbm : b mod SEC = 0) by (apply phys_aligned; [done|done|done|done|apply Z_mod_mult]). rewrite Z.add_mod, Est, Hbm by lia. done. }
  rewrite (u32_small (_ + b)) by lia. apply udiv_run; [lia|]. pose proof (div_exact _ SEC HS Hb) as Ed. set (n := (start_addr (cfg (obj w)) + b) / SEC) in *.
  assert (Hb2 : b + SEC <= (N + 1) * P).
  { pose proof (phys_step N P B1 B2 mc (Z.min q N) (sector * SEC) (SEC - 1) ltac:(lia) ltac:(destruct Hin as (_ & _ & ?); lia)) as Ek. fold b in Ek.
    destruct (phys_range N P B1 B2 mc (Z.min q N) (sector * SEC + (SEC - 1)) ltac:(destruct Hv; lia)) as [R2 _]. lia. }
  unfold drv_erase_sector, on_drv. apply wp_bind, wp_this. rewrite (ft_drv _ _ Hf). apply wp_on_dev. eapply wp_mono; [apply erase_sector_law; [apply Hv|apply Z.div_pos; lia|lia]|].
  intros r d' Hr. cbn beta in Hr. rewrite Ed in Hr. destruct (r =? ESP_OK).
  - destruct Hr as [Hu' Hc]. split; [done|]. cbn [obj]. pose proof (valid_change N w1 mc q f (sector * SEC) SEC (fun _ _ => 255) d' Hv) as Hvc. cbv zeta in Hvc. rewrite Ec in Hvc.
    destruct (Hvc Hin Hs Hu' Hc) as [Hv' Hc']. split; [done|]. exists mc, q. split; [exact Hv'|]. auto.
  - exists (dev w1). split; [done|]. intros _. assert (Hback : same_place (obj w1) (obj w)) by (destruct Hsp; by split). eapply crash_place; [exact Hback|].
    destruct Hv. by apply (InStep N (obj w1) (dev w1) f mc q).
Qed.

Lemma lost_place N o o' f cl w : same_place o o' -> lost_at N o f cl w -> lost_at N o' f cl w.
Proof. intros Hs (dx & H1 & H2). exists dx. split; [done|]. intros Hcl. eapply crash_place; [exact Hs|]. by apply H2. Qed.
Lemma same_place_sym o o' : same_place o o' -> same_place o' o.
Proof. intros []. by split. Qed.

Lemma data_ext N o d mc p f g : (forall x, f x = g x) -> data N o d mc p f -> data N o d mc p g.
Proof. intros E Hd x Hx. rewrite <- E. by apply Hd. Qed.
Lemma works_ext N w f g cl : (forall x, f x = g x) -> works N w f cl -> works N w g cl.
Proof.
  intros E [Hi (mc & q & [V1 V2 V3 V4 V5 V6 V7 V8 V9] & Hc)]. split; [done|]. exists mc, q. split; [|done]. split; try done. by eapply data_ext.
Qed.
Lemma works_any N w f cl : works N w f cl -> works N w f false.
Proof. intros [Hi (mc & q & Hv & _)]. split; [done|]. by exists mc, q. Qed.
Lemma lost_ext N o f g cl w : (forall x, f x = g x) -> lost_at N o f cl w -> lost_at N o g cl w.
Proof.
  intros E (dx & Hs & Hx). exists dx. split; [done|]. intros Hcl. specialize (Hx Hcl). pose proof (fun mc p => data_ext N o dx mc p f g E) as Hd.
  destruct Hx as [mc q|mc|mc mc2|mc]; [apply (InStep N o dx g mc q)|apply (NoFirst N o dx g mc)|apply (OldSecond N o dx g mc mc2)|apply (NoSecond N o dx g mc)]; auto.
Qed.

Lemma erased_more f a m n x : 0 <= m -> 0 <= n -> erased_at (erased_at f a m) (a + m) n x = erased_at f a (m + n) x.
Proof.
  intros Hm Hn. unfold erased_at, changed. destruct (within (a + m) n x) eqn:E1, (within a m x) eqn:E2, (within a (m + n) x) eqn:E3; try done; exfalso;
    rewrite ?within_spec in *; repeat match goal with H : within _ _ _ = false |- _ => apply not_true_iff_false in H; rewrite within_spec in H end; lia.
Qed.

Lemma erase_sectors_works N n : forall w f cl s, works N w f cl -> 0 <= s -> (s + Z.of_nat n) * SEC <= N * page_size (cfg (obj w)) -> 0 < SEC ->
  run (erase_sectors crc32_le n s) (fun w' => same_place (obj w) (obj w') /\ works N w' (erased_at f (s * SEC) (Z.of_nat n * SEC)) cl)
    (fun w' => exists k, 0 <= k < Z.of_nat n /\ lost_at N (obj w) (erased_at f (s * SEC) (k * SEC)) cl w') w.
Proof.
  induction n as [|n IH]; intros w f cl s Hw Hs Hend HS; cbn [erase_sectors].
  { apply run_ok. split; [apply wear_place_refl|]. eapply works_ext; [|exact Hw]. intros x. unfold erased_at, changed. destruct (within _ _ x) eqn:E; [apply within_spec in E; lia|done]. }
  pose proof Hw as [_ (mc & q & Hv & _)]. destruct (fits_bounds _ _ (va_fits _ _ _ _ _ Hv)).
  apply run_seq. rewrite u32_small by nia. eapply run_mono; [apply (erase_sector_works N w f cl s); [done|done|nia]| |].
  - intros w1 [Hsp Hw1]. eapply run_mono; [apply (IH w1 (erased_at f (s * SEC) SEC) cl (s + 1) Hw1); [lia|rewrite (sp_cfg _ _ Hsp); nia|done]| |].
    + intros w2 [Hsp2 Hw2]. split; [by eapply same_place_trans|]. eapply works_ext; [|exact Hw2]. intros x. replace ((s + 1) * SEC) with (s * SEC + SEC) by lia. rewrite erased_more by nia.
      f_equal. lia.
    + intros w2 (k & Hk & Hl). exists (k + 1). split; [lia|]. eapply lost_place; [apply same_place_sym; exact Hsp|]. eapply lost_ext; [|exact Hl]. intros x.
      replace ((s + 1) * SEC) with (s * SEC + SEC) by lia. rewrite erased_more by nia. f_equal. lia.
  - intros w1 Hl. exists 0. split; [lia|]. eapply lost_ext; [|exact Hl]. intros x. unfold erased_at, changed. destruct (within _ _ x) eqn:E; [apply within_spec in E; lia|done].
Qed.

Lemma flush_works N w f cl : works N w f cl -> run (WL_flush crc32_le) (fun w' => same_place (obj w) (obj w') /\ works N w' f cl) (lost_at N (obj w) f cl) w.
Proof.
  intros [Hi (mc & q & Hv & Hcl)]. unfold WL_flush. apply wp_bind, wp_set_obj. set (o1 := with_state _ (obj w)). assert (Hsp : same_place (obj w) o1) by (by split).
  eapply run_mono; [apply (update_works N (Wl o1 (dev w)) f cl)| |].
  - split; [done|]. exists mc, q. split; [|done]. destruct Hv as [Hf Hu Hmc Hq (ac & c & Est & Hac) Hh1 Hb1 Hh2 Hd]. split; try done; cbn [obj dev]; [by eapply fits_same|].
    exists (u32 (max_count (state (obj w)) - 1)), c. split; [|apply u32_range]. unfold o1. rewrite Est. done.
  - intros w' [Hsp' Hw']. split; [by eapply same_place_trans|done].
  - intros w' Hl. eapply lost_place; [apply same_place_sym; exact Hsp|done].
Qed.

(** A write within one page. *)
Lemma write_works N w f cl a l : works N w f cl -> in_page (page_size (cfg (obj w))) a (Z.of_nat (length l)) -> a < N * page_size (cfg (obj w)) ->
  Forall (fun b => 0 <= b < 256) l ->
  run (WL_write a l (Z.of_nat (length l))) (fun w' => same_place (obj w) (obj w') /\ works N w' (written_at f a l) cl) (lost_at N (obj w) f cl) w.
Proof.
  intros [Hi (mc & q & Hv & Hcl)] Hin Ha Hby. pose proof (va_fits _ _ _ _ _ Hv) as Hf. pose proof (fits_bounds _ _ Hf) as [B1 B2 B3 B4 B5 B6 B7 B8 B9 B10 B11 B12].
  set (P := page_size (cfg (obj w))) in *. set (n := Z.of_nat (length l)) in *. pose proof Hin as (H0 & H1 & H2). pose proof (Z.mod_pos_bound a P B2).
  unfold WL_write. apply wp_bind, wp_this. rewrite Hi. cbn [negb]. rewrite u32_small by lia. apply udiv_run; [lia|]. fold P. rewrite (Z.div_small (n - 1) P) by lia.
  cbn [Z.to_nat write_pages]. apply run_seq, run_ok. rewrite Z.mul_0_l, Z.add_0_r, Z.sub_0_r. rewrite (u32_small a), (u32_small 0), (u32_small n) by lia.
  apply wp_bind. eapply (calc_spec N w mc q f); [done|lia|]. fold P. set (b := phys N P mc (Z.min q N) a). assert (Hq : 0 <= Z.min q N <= N) by (destruct Hv; lia).
  destruct (phys_range N P B1 B2 mc (Z.min q N) a Hq) as [R1 _]. fold b in R1.
  pose proof (phys_step N P B1 B2 mc (Z.min q N) a (n - 1) ltac:(lia) ltac:(lia)) as Ek. fold b in Ek. destruct (phys_range N P B1 B2 mc (Z.min q N) (a + (n - 1)) Hq) as [R2 _].
  apply wp_bind. eapply wp_lift. { unfold part. cbn [Z.leb Z.compare]. rewrite (proj2 (Z.leb_le 0 n)), Z.add_0_l, Z.leb_refl by lia. cbn [andb]. reflexivity. }
  assert (Esl : slice l 0 n = l) by (unfold slice, n; rewrite Nat2Z.id; cbn; by rewrite firstn_all). rewrite Esl. rewrite u32_small by lia.
  eapply run_mono; [apply run_write; [apply Hf|apply Hv|lia|fold n; lia|done]| |].
  - intros w' (d' & -> & Hu' & Hc). split; [apply wear_place_refl|]. destruct (valid_change N w mc q f a n (fun i v => Z.land v (at_ 0 l i)) d' Hv Hin Ha Hu' Hc) as [Hv' Hc'].
    split; [done|]. exists mc, q. split; [exact Hv'|]. auto.
  - intros [o' d'] [Eo Hb]. exists (dev w). split; [done|]. intros _. destruct Hv. by apply (InStep N (obj w) (dev w) f mc q).
Qed.

(** A read within one page. *)
Lemma read_works N w f cl a dest : works N w f cl -> in_page (page_size (cfg (obj w))) a (Z.of_nat (length dest)) -> a < N * page_size (cfg (obj w)) ->
  wp (WL_read a dest (Z.of_nat (length dest)))
     (fun '(r, l) w' => if r =? ESP_OK then same_place (obj w) (obj w') /\ works N w' f cl /\ length l = length dest /\ (forall i, 0 <= i < Z.of_nat (length dest) -> at_ 0 l i = f (a + i))
                        else lost_at N (obj w) f cl w') w.
Proof.
  intros [Hi (mc & q & Hv & Hcl)] Hin Ha. pose proof (va_fits _ _ _ _ _ Hv) as Hf. pose proof (fits_bounds _ _ Hf) as [B1 B2 B3 B4 B5 B6 B7 B8 B9 B10 B11 B12].
  set (P := page_size (cfg (obj w))) in *. set (n := Z.of_nat (length dest)) in *. pose proof Hin as (H0 & H1 & H2). pose proof (Z.mod_pos_bound a P B2).
  pose proof (in_page_end N P a n B2 Hin Ha) as Hend.
  unfold WL_read. apply wp_bind, wp_this. rewrite Hi. cbn [negb]. rewrite u32_small by lia. apply udiv_run; [lia|]. fold P. rewrite (Z.div_small (n - 1) P) by lia.
  cbn [Z.to_nat read_pages]. apply wp_bind, wp_ret. change (negb (ESP_OK =? ESP_OK)) with false. cbv iota. rewrite Z.mul_0_l, Z.add_0_r, Z.sub_0_r. rewrite (u32_small a), (u32_small 0), (u32_small n) by lia.
  apply wp_bind. eapply (calc_spec N w mc q f); [done|lia|]. fold P. set (b := phys N P mc (Z.min q N) a). assert (Hq : 0 <= Z.min q N <= N) by (destruct Hv; lia).
  assert (Hstep : forall k, 0 <= k < n -> phys N P mc (Z.min q N) (a + k) = b + k) by (intros k Hk; apply phys_step; lia).
  destruct (phys_range N P B1 B2 mc (Z.min q N) a Hq) as [R1 _]. fold b in R1. destruct (phys_range N P B1 B2 mc (Z.min q N) (a + (n - 1)) Hq) as [R2 _]. rewrite Hstep in R2 by lia.
  unfold read_into. apply wp_bind. eapply wp_lift. { unfold part. cbn [Z.leb Z.compare]. rewrite (proj2 (Z.leb_le 0 n)), Z.add_0_l, Z.leb_refl by lia. cbn [andb]. reflexivity. }
  assert (Esl : slice dest 0 n = dest) by (unfold slice, n; rewrite Nat2Z.id; cbn; by rewrite firstn_all). rewrite Esl. rewrite u32_small by lia. apply wp_bind.
  assert (Efill : forall l, length l = length dest -> fill dest 0 l = l).
  { intros l Hl. unfold fill. cbn. rewrite drop_ge by lia. apply app_nil_r. }
  apply wp_drv_read; [apply Hf|apply Hv|lia|fold n; lia|..].
  - intros l d' Hl Hu' Hc Hli. apply wp_ret. rewrite Efill by done. change (ESP_OK =? ESP_OK) with true. cbv iota. split; [apply wear_place_refl|]. split; [|split; [done|]].
    + split; [done|]. exists mc, q. destruct Hv as [V1 V2 V3 V4 V5 V6 V7 V8 V9]. split; [|intros Hc1; specialize (Hcl Hc1); intros i Hii; cbn [obj dev]; rewrite Hc; by apply Hcl]. split; try done; cbn [obj dev].
      * eapply stored_same; [|exact V6]. intros x _. apply Hc.
      * intros i Hii. rewrite Hc. by apply V7.
      * eapply stored_same; [|exact V8]. intros x _. apply Hc.
      * intros x Hx. rewrite Hc. by apply V9.
    + intros i Hii. fold n in Hii. rewrite Hli by done. rewrite <- (va_data _ _ _ _ _ Hv (a + i)) by (fold P; lia). fold P. rewrite Hstep by done. f_equal. lia.
  - intros r l d' Hr Hl Hs%read_failed_spoiled. apply wp_ret. rewrite (proj2 (Z.eqb_neq r ESP_OK)) by done. exists (dev w). split; [done|]. intros _. destruct Hv. by apply (InStep N (obj w) (dev w) f mc q).
Qed.

(** ** Runs of operations *)

Inductive wl_op : Type := OpErase (sector : Z) | OpEraseRange (a n : Z) | OpWrite (a : Z) (l : list Z) | OpRead (a : Z) (n : nat) | OpFlush.

(** The operations on a flash of [N] pages of [P] bytes, within its bounds; reads and writes within a page. *)
Definition allowed (N P : Z) (op : wl_op) : Prop :=
  match op with
  | OpErase s => 0 <= s /\ s * SEC < N * P
  | OpEraseRange a n => 0 <= a /\ 0 <= n /\ (a / SEC + (n + SEC - 1) / SEC) * SEC <= N * P
  | OpWrite a l => in_page P a (Z.of_nat (length l)) /\ a < N * P /\ Forall (fun b => 0 <= b < 256) l
  | OpRead a n => in_page P a (Z.of_nat n) /\ a < N * P
  | OpFlush => True
  end.

(** What they do to a plain flash with contents [f], and what they read. *)
Definition after_op (op : wl_op) f : Z -> Z :=
  match op with
  | OpErase s => erased_at f (s * SEC) SEC
  | OpEraseRange a n => erased_at f (a / SEC * SEC) ((n + SEC - 1) / SEC * SEC)
  | OpWrite a l => written_at f a l
  | OpRead _ _ | OpFlush => f
  end.
Definition bytes_from f (a : Z) (n : nat) : list Z := (fun i => f (a + i)) <$> seqZ 0 (Z.of_nat n).
Definition read_by (op : wl_op) f : list Z := match op with OpRead a n => bytes_from f a n | _ => [] end.
Fixpoint after_ops (ops : list wl_op) f : Z -> Z := match ops with [] => f | op :: ops => after_ops ops (after_op op f) end.
Fixpoint reads (ops : list wl_op) f : list (list Z) := match ops with [] => [] | op :: ops => read_by op f :: reads ops (after_op op f) end.

(** The contents when a run of operations is cut off: those after some of
    the operations, the last of which may have erased some of its sectors. *)
Inductive cut : list wl_op -> (Z -> Z) -> (Z -> Z) -> Prop :=
| cut_here ops f : cut ops f f
| cut_erase a n k ops f : 0 <= k < (n + SEC - 1) / SEC -> cut (OpEraseRange a n :: ops) f (erased_at f (a / SEC * SEC) (k * SEC))
| cut_later op ops f g : cut ops (after_op op f) g -> cut (op :: ops) f g.

Definition do_op (op : wl_op) : M (wl Drv D) (esp_err_t * list Z) :=
  match op with
  | OpErase s => r ← WL_erase_sector crc32_le s; mret (r, [])
  | OpEraseRange a n => r ← WL_erase_range crc32_le a n; mret (r, [])
  | OpWrite a l => r ← WL_write a l (Z.of_nat (length l)); mret (r, [])
  | OpRead a n => WL_read a (replicate n 0) (Z.of_nat n)
  | OpFlush => r ← WL_flush crc32_le; mret (r, [])
  end.

(** A run of operations that stops at the first error. *)
Fixpoint do_ops (ops : list wl_op) : M (wl Drv D) (esp_err_t * list (list Z)) :=
  match ops with
  | [] => mret (ESP_OK, [])
  | op :: ops =>
      '(r, l) ← do_op op;
      if negb (r =? ESP_OK) then mret (r, [])
      else '(r, ls) ← do_ops ops; mret (r, l :: ls)
  end.

Lemma run_result (m : M (wl Drv D) esp_err_t) Q E w (l : list Z) :
  run m Q E w -> wp (r ← m; mret (r, l)) (fun '(r, l') w' => if r =? ESP_OK then Q w' /\ l' = l else E w') w.
Proof. intros Hr. apply wp_bind. eapply wp_mono; [exact Hr|]. intros r w' H'. cbn beta in H'. apply wp_ret. by destruct (r =? ESP_OK). Qed.

Lemma do_op_spec N w f cl op : works N w f cl -> allowed N (page_size (cfg (obj w))) op ->
  wp (do_op op)
     (fun '(r, l) w' => if r =? ESP_OK then (same_place (obj w) (obj w') /\ works N w' (after_op op f) cl) /\ l = read_by op f
                        else exists g, cut [op] f g /\ lost_at N (obj w) g cl w') w.
Proof.
  intros Hw Hop. assert (Hcut : forall w', lost_at N (obj w) f cl w' -> exists g, cut [op] f g /\ lost_at N (obj w) g cl w') by (intros w' Hl; exists f; split; [apply cut_here|done]).
  destruct op as [s|a n|a l|a n|]; cbn [do_op allowed after_op read_by] in *.
  - destruct Hop as [H1 H2]. apply run_result. eapply run_mono; [by apply (erase_sector_works N w f cl s)|done|exact Hcut].
  - destruct Hop as (H1 & H2 & H3). apply run_result. pose proof Hw as [Hi (mc & q & Hv & _)]. pose proof (va_fits _ _ _ _ _ Hv) as Hf. destruct (fits_bounds _ _ Hf). destruct (ft_sector _ _ Hf) as [ES HS].
    assert (Hq0 : 0 <= (n + SEC - 1) / SEC) by (apply Z.div_pos; lia). assert (Ha0 : 0 <= a / SEC) by (apply Z.div_pos; lia).
    unfold WL_erase_range. apply wp_bind, wp_this. rewrite Hi. cbn [negb]. rewrite ES. pose proof (Z.div_mod (n + SEC - 1) SEC ltac:(lia)). pose proof (Z.mod_pos_bound (n + SEC - 1) SEC HS).
    assert (HSP : SEC <= page_size (cfg (obj w))).
    { destruct (ft_page _ _ Hf) as [HP HPm]. apply Z.mod_divide in HPm; [|lia]. by apply Z.divide_pos_le. }
    pose proof (Z.mul_nonneg_nonneg _ _ Ha0 (Z.lt_le_incl _ _ HS)) as Ha1. pose proof H3 as H3'. rewrite Z.mul_add_distr_r in H3'.
    rewrite u32_small by lia. do 2 (apply udiv_run; [lia|]).
    eapply run_mono; [apply (erase_sectors_works N _ w f cl (a / SEC)); [done|done|rewrite Z2Nat.id by done; done|done]| |]; rewrite Z2Nat.id by done; [done|].
    intros w' (k & Hk & Hl). exists (erased_at f (a / SEC * SEC) (k * SEC)). split; [by apply cut_erase|done].
  - destruct Hop as (H1 & H2 & H3). apply run_result. eapply run_mono; [by apply (write_works N w f cl a l)|done|exact Hcut].
  - destruct Hop as [H1 H2]. pose proof (read_works N w f cl a (replicate n 0)) as Hr. rewrite length_replicate in Hr. eapply wp_mono; [by apply Hr|]. intros [r l] w' H'.
    destruct (r =? ESP_OK); [|by apply Hcut]. destruct H' as (K1 & K2 & K3 & K4). split; [done|]. unfold bytes_from. apply (at_ext 0).
    + rewrite K3, length_fmap, length_seqZ, Nat2Z.id. done.
    + rewrite K3. intros i Hii. rewrite K4 by done. symmetry. apply at_lookup; [lia|]. rewrite list_lookup_fmap, lookup_seqZ_lt by lia. cbn. do 2 f_equal. lia.
  - apply run_result. eapply run_mono; [by apply (flush_works N w f cl)|done|exact Hcut].
Qed.

Lemma do_ops_spec N ops : forall w f cl, works N w f cl -> Forall (allowed N (page_size (cfg (obj w)))) ops ->
  wp (do_ops ops)
     (fun '(r, ls) w' => if r =? ESP_OK then same_place (obj w) (obj w') /\ works N w' (after_ops ops f) cl /\ ls = reads ops f
                         else exists g, cut ops f g /\ lost_at N (obj w) g cl w') w.
Proof.
  induction ops as [|op ops IH]; intros w f cl Hw Hops; cbn [do_ops after_ops reads].
  { apply wp_ret. split; [apply wear_place_refl|done]. }
  apply Forall_cons in Hops as [Hop Hops]. apply wp_bind. eapply wp_mono; [by apply (do_op_spec N w f cl op)|]. intros [r l] w1 H1.
  destruct (r =? ESP_OK) eqn:Er; cbn [negb].
  - destruct H1 as [[Hsp Hw1] ->]. apply wp_bind. eapply wp_mono; [apply (IH w1 (after_op op f) cl Hw1); by rewrite (sp_cfg _ _ Hsp)|]. intros [r2 ls] w2 H2. apply wp_ret.
    destruct (r2 =? ESP_OK).
    + destruct H2 as (Hsp2 & Hw2 & ->). split; [by eapply same_place_trans|done].
    + destruct H2 as (g & Hg & Hl). exists g. split; [by apply cut_later|]. eapply lost_place; [apply same_place_sym; exact Hsp|done].
  - apply wp_ret. rewrite Er. destruct H1 as (g & Hg & Hl). exists g. split; [|done]. inversion Hg; subst; [apply cut_here|by apply cut_erase|]. 
    match goal with H' : cut [] _ _ |- _ => inversion H'; subst end. apply cut_later, cut_here.
Qed.

(** A call of the driver has failed. *)
Definition troubled w : Prop := exists dx, spoiled dx (dev w).

(** C5: Wear levelling is invisible to its user: over every driver that obeys
    the laws of a flash, any run of erasures, writes and reads (within a page)
    and flushes, however often the dummy page moves on the way, returns, and
    unless a call of the driver fails it succeeds, reads what a plain flash of
    [N] pages would, and leaves the object with the contents of that flash. *)
Theorem wl_refines_flash N w f ops : works N w f false -> Forall (allowed N (page_size (cfg (obj w)))) ops ->
  wp (do_ops ops) (fun '(r, ls) w' => if r =? ESP_OK then ls = reads ops f /\ works N w' (after_ops ops f) false else troubled w') w.
Proof.
  intros Hw Hops. eapply wp_mono; [by apply (do_ops_spec N ops w f false)|]. intros [r ls] w' H'. destruct (r =? ESP_OK).
  - by destruct H' as (_ & H1 & H2).
  - destruct H' as (g & _ & dx & Hs & _). by exists dx.
Qed.

(** ** Starting up *)

Definition same_cells d d' : Prop := forall x, cell d' x = cell d x.

Lemma take_crc (s : wl_state_t) v : take 28 (encode_state (set_crc v s)) = take 28 (encode_state s).
Proof.
  unfold encode_state. cbn [set_crc pos max_pos move_count access_count max_count block_size version crc]. rewrite !app_assoc.
  rewrite !take_app_le by (rewrite !length_app, !length_le_encode; lia). done.
Qed.

Lemma header_crc N o mc : state_crc crc32_le (header N o mc) = crc (header N o mc).
Proof. unfold header. cbv zeta. unfold state_crc at 1. rewrite take_crc. done. Qed.

Lemma stored_list d a (l L : list Z) : length l = length L -> (forall i, 0 <= i < Z.of_nat (length l) -> at_ 0 l i = cell d (a + i)) -> stored_at d a L -> l = L.
Proof. intros Hl Hi HL. apply (at_ext 0); [done|]. intros i Hii. rewrite Hi by done. apply HL. by rewrite <- Hl. Qed.

Lemma erased_stored d a : erased d a sizeof_wl_state_t -> stored_at d a (replicate 32 255).
Proof.
  intros He i Hi. rewrite length_replicate in Hi. unfold sizeof_wl_state_t in He. rewrite He by lia. symmetry. apply at_lookup; [lia|]. apply lookup_replicate_2. lia.
Qed.

(** A header is read. *)
Lemma read_state_spec N o d a L : fits N o -> usable d -> a = addr_state1 o \/ a = addr_state2 o -> length L = 32%nat -> stored_at d a L ->
  run (read_state a) (fun w' => exists d', w' = Wl (with_state (decode_state L) o) d' /\ usable d' /\ same_cells d d') troubled (Wl o d).
Proof.
  intros Hf Hu Ha HL Hst. destruct (fits_bounds _ _ Hf). unfold read_state. apply wp_bind, wp_this. cbn [obj]. apply wp_bind.
  apply wp_drv_read; cbn [obj dev]; rewrite ?length_encode_state; [apply Hf|done|lia|lia|..].
  - intros l d' Hl Hu' Hc Hi. apply wp_bind, wp_set_obj, wp_ret. change (ESP_OK =? ESP_OK) with true. cbv iota. rewrite (stored_list d a l L); [by exists d'|lia| |done].
    intros i Hii. rewrite Hl in Hii. by apply Hi.
  - intros r l d' Hr Hl Hs%read_failed_spoiled. apply wp_bind, wp_set_obj, wp_ret. rewrite (proj2 (Z.eqb_neq r ESP_OK)) by done. by exists d.
Qed.

Lemma recover_loop_spec N o q n : forall i position d, fits N o -> usable d -> bits_exact N o d (addr_state1 o) q -> 0 <= i -> i + Z.of_nat n = N + 1 -> i <= q <= N + 1 -> (i = 0 \/ position = i - 1) -> (n = 0%nat -> 0 < i) ->
  wp (recover_loop n i position)
     (fun '(r, pp) w' => if r =? ESP_OK then pp = Z.min q N /\ exists d', w' = Wl o d' /\ usable d' /\ same_cells d d' else troubled w') (Wl o d).
Proof.
  induction n as [|n IH]; intros i position d Hf Hu Hb Hi Hn Hq Hpos Hz; cbn [recover_loop].
  { apply wp_ret. split; [specialize (Hz eq_refl); lia|]. by exists d. }
  pose proof (fits_bounds _ _ Hf) as [B1 B2 B3 B4 B5 B6 B7 B8 B9 B10 B11 B12]. apply wp_bind, wp_this. cbn [obj]. pose proof (bit_range N o (addr_state1 o) i Hf ltac:(lia)) as R.
  fold (bit_addr o (addr_state1 o) i). rewrite u32_small by lia. apply wp_bind. apply wp_drv_read1; cbn [obj dev]; [apply Hf|done|lia|..].
  - intros d' Hu' Hc. change (negb (ESP_OK =? ESP_OK)) with false. cbv iota. destruct (Z.eqb_spec (cell d (bit_addr o (addr_state1 o) i)) 0xff) as [E|E].
    + apply wp_ret. apply Hb in E; [|lia]. split; [lia|]. by exists d'.
    + assert (Hlt : i < q) by (destruct (decide (q <= i)) as [Hle|]; [apply Hb in Hle; [done|lia]|lia]).
      eapply wp_mono; [apply (IH (i + 1) i d'); try done; try lia; [intros j Hj; rewrite Hc; by apply Hb]|]. intros [r pp] w' Hr. destruct (r =? ESP_OK); [|done]. destruct Hr as (E1 & d2 & -> & Hu2 & Hc2).
      split; [done|]. exists d2. split_and!; [done|done|]. intros x. by rewrite Hc2.
  - intros r b d' Hr Hs. rewrite (proj2 (Z.eqb_neq r ESP_OK)) by done. cbn [negb]. apply wp_ret. rewrite (proj2 (Z.eqb_neq r ESP_OK)) by done. by exists d.
Qed.

Lemma recover_spec N o d q : fits N o -> usable d -> bits_exact N o d (addr_state1 o) q -> 0 <= q <= N + 1 -> max_pos (state o) = N + 1 ->
  run recoverPos (fun w' => exists d', w' = Wl (with_state (set_pos (Z.min q N) (state o)) o) d' /\ usable d' /\ same_cells d d') troubled (Wl o d).
Proof.
  intros Hf Hu Hb Hq Hm. pose proof (fits_bounds _ _ Hf) as [B1 _ _ _ _ _ _ _ _ _ _ _]. unfold recoverPos. apply wp_bind, wp_this. cbn [obj]. rewrite Hm. apply wp_bind.
  eapply wp_mono; [apply (recover_loop_spec N o q _ 0 0 d); try done; rewrite ?Z2Nat.id; try lia|]. intros [r pp] w' Hr.
  destruct (Z.eqb_spec r ESP_OK) as [->|Hne]; cbn [negb]; [|apply wp_ret; by rewrite (proj2 (Z.eqb_neq r ESP_OK)) in * by done]. destruct Hr as (-> & d' & -> & Hu' & Hc').
  apply wp_bind, wp_set_obj. rewrite (proj2 (Z.eqb_neq (Z.min q N) (N + 1))) by lia. apply wp_bind, wp_ret, wp_ret. change (ESP_OK =? ESP_OK) with true. cbv iota. by exists d'.
Qed.

(** The bytes of one copy are copied to the other, which is erased there. *)
Lemma copy_bits_spec N o from to n : forall i d, fits N o -> usable d -> 0 <= i ->
  (from = addr_state1 o /\ to = addr_state2 o \/ from = addr_state2 o /\ to = addr_state1 o) -> 32 + i + Z.of_nat n <= state_size o ->
  (forall j, i <= j < i + Z.of_nat n -> cell d (to + 32 + j) = 255) ->
  run (copy_bits n i from to)
    (fun w' => exists d', w' = Wl o d' /\ usable d' /\ forall x, cell d' x = if within (to + 32 + i) (Z.of_nat n) x then cell d (x - to + from) else cell d x)
    troubled (Wl o d).
Proof.
  induction n as [|n IH]; intros i d Hf Hu Hi Hft Hn He; cbn [copy_bits].
  { apply run_ok. exists d. split_and!; [done|done|]. intros x. destruct (within _ _ x) eqn:E; [apply within_spec in E; lia|done]. }
  pose proof (fits_bounds _ _ Hf) as [B1 B2 B3 B4 B5 B6 B7 B8 B9 B10 B11 B12]. unfold sizeof_wl_state_t. rewrite !u32_small by lia.
  apply wp_bind. apply wp_drv_read1; cbn [obj dev]; [apply Hf|done|lia| |intros r b d' Hr Hs; rewrite (proj2 (Z.eqb_neq r ESP_OK)) by done; cbn [negb]; apply wp_ret; rewrite (proj2 (Z.eqb_neq r ESP_OK)) by done; by exists d].
  intros d1 Hu1 Hc1. change (negb (ESP_OK =? ESP_OK)) with false. cbv iota. set (b := cell d (from + 32 + i)).
  assert (Hb : run (if negb (b =? 255) then drv_write (to + 32 + i) [b] else mret ESP_OK)
    (fun w' => exists d', w' = Wl o d' /\ usable d' /\ forall x, cell d' x = if decide (x = to + 32 + i) then b else cell d x) troubled (Wl o d1)).
  { destruct (Z.eqb_spec b 255) as [E|E]; cbn [negb].
    - apply run_ok. exists d1. split_and!; [done|done|]. intros x. rewrite Hc1. case_decide as Ex; [subst x; rewrite E; apply He; lia|done].
    - eapply run_mono; [apply (run_write (Wl o d1)); cbn [obj dev length]; [apply Hf|done|lia|lia|repeat constructor; apply cell_byte]| |intros w' [_ Hb']; by exists d1].
      intros w' (d' & -> & Hu' & Hc'). exists d'. split_and!; [done|done|]. intros x. rewrite Hc'. cbn [obj dev length]. rewrite Hc1. case_decide as Ex.
      + subst x. rewrite (proj2 (within_spec _ _ _)), Z.sub_diag by lia. rewrite He by lia. apply land_255, cell_byte.
      + destruct (within (to + 32 + i) _ x) eqn:Ew; [apply within_spec in Ew; lia|done]. }
  apply run_seq. eapply run_mono; [exact Hb| |done]. intros w2 (d2 & -> & Hu2 & Hc2).
  eapply run_mono; [apply (IH (i + 1) d2); try done; try lia| |done].
  - intros j Hj. rewrite Hc2, decide_False by lia. apply He. lia.
  - intros w3 (d3 & -> & Hu3 & Hc3). exists d3. split_and!; [done|done|]. intros x. rewrite Hc3. destruct (within (to + 32 + (i + 1)) (Z.of_nat n) x) eqn:E1.
    + apply within_spec in E1. rewrite (proj2 (within_spec (to + 32 + i) _ x)) by lia. rewrite Hc2, decide_False by lia. done.
    + rewrite Hc2. case_decide as Ex.
      * subst x. rewrite (proj2 (within_spec _ _ _)) by lia. unfold b. f_equal. lia.
      * destruct (within (to + 32 + i) _ x) eqn:E2; [|done]. apply within_spec in E2. assert (~ to + 32 + (i + 1) <= x < to + 32 + (i + 1) + Z.of_nat n) by (rewrite <- within_spec; congruence). lia.
Qed.

Lemma copy_state_spec N o d from to mc : fits N o -> usable d ->
  (from = addr_state1 o /\ to = addr_state2 o \/ from = addr_state2 o /\ to = addr_state1 o) ->
  run (copy_state from to (header N o mc))
    (fun w' => exists d', w' = Wl o d' /\ usable d' /\ stored_at d' to (encode_state (header N o mc))
       /\ (forall i, 0 <= i <= N -> cell d' (bit_addr o to i) = cell d (bit_addr o from i)) /\ (forall x, ~ to <= x < to + state_size o -> cell d' x = cell d x)) troubled (Wl o d).
Proof.
  intros Hf Hu Hft. pose proof (fits_bounds _ _ Hf) as [B1 B2 B3 B4 B5 B6 B7 B8 B9 B10 B11 B12]. destruct (ft_sector _ _ Hf) as [ES HS].
  destruct (ft_bits _ _ Hf) as (n & En & Hn & Hss). pose proof (ft_wr _ _ Hf) as Hwr. unfold sizeof_wl_state_t in Hss.
  unfold copy_state. apply wp_bind, wp_this. cbn [obj]. apply udiv_run; [lia|]. rewrite En. assert (Hnw : 0 <= n * wr_size (cfg o)) by nia. rewrite u32_small by lia. apply run_seq.
  apply (run_write_state N (Wl o d)); cbn [obj dev]; [done|done|tauto| |intros d2 Hs; by exists d|intros d1 d2 _ Hs; by exists d1]. intros d1 Hu1 Hc1.
  eapply run_mono; [apply (copy_bits_spec N o from to _ 0 d1); try done; rewrite ?Z2Nat.id by done; [lia|]| |done].
  - intros j Hj. rewrite Hc1. destruct (within to 32 _) eqn:E; [apply within_spec in E; lia|]. rewrite (proj2 (within_spec _ _ _)) by lia. done.
  - intros w' (d' & -> & Hu' & Hc'). rewrite Z2Nat.id, Z.add_0_r in Hc' by done. exists d'. split_and!; [done|done| | |].
    + intros i Hi. rewrite length_header in Hi. rewrite Hc'. destruct (within (to + 32) _ _) eqn:E; [apply within_spec in E; lia|]. rewrite Hc1, (proj2 (within_spec _ _ _)) by lia. f_equal. lia.
    + intros i Hi. pose proof (bit_range N o to i Hf Hi) as R. assert (Hin : to + 32 <= bit_addr o to i < to + 32 + n * wr_size (cfg o)) by (unfold bit_addr, sizeof_wl_state_t in *; nia).
      rewrite Hc', (proj2 (within_spec _ _ _)) by lia. replace (bit_addr o to i - to + from) with (bit_addr o from i) by (unfold bit_addr; lia).
      pose proof (bit_range N o from i Hf Hi) as R2. rewrite Hc1. destruct (within to 32 _) eqn:E1; [apply within_spec in E1; lia|]. destruct (within to (state_size o) _) eqn:E2; [apply within_spec in E2; lia|done].
    + intros x Hx. rewrite Hc'. destruct (within (to + 32) _ x) eqn:E; [apply within_spec in E; lia|]. rewrite Hc1. destruct (within to 32 x) eqn:E1; [apply within_spec in E1; lia|].
      destruct (within to (state_size o) x) eqn:E2; [apply within_spec in E2; lia|done].
Qed.

Lemma same_cells_sub d d' a b : same_cells d d' -> same d d' a b.
Proof. intros Hc x _. apply Hc. Qed.

Lemma bits_cells N o d d' a q : same_cells d d' -> bits_exact N o d a q -> bits_exact N o d' a q.
Proof. intros Hc Hb i Hi. rewrite Hc. by apply Hb. Qed.
Lemma stored_cells d d' a l : same_cells d d' -> stored_at d a l -> stored_at d' a l.
Proof. intros Hc. apply stored_same. by apply same_cells_sub. Qed.
Lemma data_cells N o d d' mc p f : same_cells d d' -> data N o d mc p f -> data N o d' mc p f.
Proof. intros Hc Hd x Hx. rewrite Hc. by apply Hd. Qed.

Lemma crash_cells N o d d' f : same_cells d d' -> crash N o d f -> crash N o d' f.
Proof.
  intros Hc. pose proof (fun a l => stored_cells d d' a l Hc) as Hs. pose proof (fun a q => bits_cells N o d d' a q Hc) as Hb. pose proof (fun mc p => data_cells N o d d' mc p f Hc) as Hd.
  intros [mc q|mc ? He ? Hu|mc mc2|mc ? ? ? He]; [apply (InStep N o d' f mc q)|apply (NoFirst N o d' f mc)|apply (OldSecond N o d' f mc mc2)|apply (NoSecond N o d' f mc)]; auto.
  - intros x Hx. rewrite Hc. by apply He.
  - intros i Hi. rewrite Hc. by apply Hu.
  - intros x Hx. rewrite Hc. by apply He.
Qed.

(** What is in an object that was started matters only up to [initialized]. *)
Lemma valid_initialized N w mc q f b : valid N w mc q f -> valid N (Wl (with_initialized b (obj w)) (dev w)) mc q f.
Proof. intros [Hf V2 V3 V4 V5 V6 V7 V8 V9]. split; try done. by destruct Hf; split. Qed.

Lemma fits_state N o s : fits N o -> fits N (with_state s o).
Proof. apply fits_same. by split. Qed.

Section Start.
Context (N : Z) (read_stops : forall d d' a buf, read_failed d d' -> wp (fa_read drv a buf) (fun '(r, _) d2 => r <> ESP_OK /\ spoiled d d2) d').

(** Both headers are read first. *)
Lemma init_reads o d junk L1 L2 Q : fits N o -> usable d -> length L1 = 32%nat -> length L2 = 32%nat -> length junk = 32%nat ->
  stored_at d (addr_state1 o) L1 -> stored_at d (addr_state2 o) L2 ->
  (forall d', usable d' -> same_cells d d' ->
     run (init_body crc32_le (decode_state L2)) (fun w' => Q (Wl (with_initialized true (obj w')) (dev w'))) troubled (Wl (with_state (decode_state L1) (with_initialized false o)) d')) ->
  run (WL_init crc32_le junk) Q troubled (Wl o d).
Proof.
  intros Hf Hu H1 H2 Hj Hst1 Hst2 HQ. pose proof (fits_bounds _ _ Hf) as [B1 B2 B3 B4 B5 B6 B7 B8 B9 B10 B11 B12]. unfold WL_init. apply wp_bind, wp_this. cbn [obj].
  rewrite (ft_configured _ _ Hf). cbn [negb]. apply wp_bind, wp_set_obj. cbn [obj dev]. set (o1 := with_initialized false o).
  apply wp_bind. unfold read_state. apply wp_bind, wp_this. cbn [obj]. apply wp_bind. apply wp_drv_read; cbn [obj dev]; rewrite ?length_encode_state; [apply Hf|done|lia|lia|..].
  - intros l d1 Hl Hu1 Hc1 Hi. apply wp_bind, wp_set_obj, wp_ret. cbn [obj dev]. rewrite (stored_list d (addr_state1 o) l L1); [|lia|intros i Hii; rewrite Hl in Hii; by apply Hi|done].
    apply wp_bind. apply wp_drv_read; cbn [obj dev]; rewrite ?Hj; [apply Hf|done|lia|lia|..].
    + intros l2 d2 Hl2 Hu2 Hc2 Hi2. change (negb (ESP_OK =? ESP_OK)) with false. cbv iota.
      assert (Hc : same_cells d d2) by (intros x; by rewrite Hc2, Hc1).
      rewrite (stored_list d1 (addr_state2 o) l2 L2); [|lia|intros i Hii; rewrite Hl2 in Hii; by apply Hi2|by eapply stored_cells].
      apply run_seq. eapply run_mono; [by apply HQ| |done]. intros w' Hw'. apply wp_bind, wp_set_obj, wp_ret. exact Hw'.
    + intros r l2 d2 Hr _ Hs%read_failed_spoiled. rewrite (proj2 (Z.eqb_neq r ESP_OK)) by done. cbn [negb]. apply wp_ret. rewrite (proj2 (Z.eqb_neq r ESP_OK)) by done. by exists d1.
  - intros r l d1 Hr Hl Hs. apply wp_bind, wp_set_obj, wp_ret. cbn [obj dev]. apply wp_bind. unfold drv_read, on_drv. apply wp_bind, wp_this. cbn [obj]. change (flash_drv _) with (flash_drv o).
    rewrite (ft_drv _ _ Hf). apply wp_on_dev. cbn [dev]. eapply wp_mono; [by apply (read_stops d d1)|]. intros [r2 l2] d2 [Hr2 Hs2].
    rewrite (proj2 (Z.eqb_neq r2 ESP_OK)) by done. cbn [negb]. apply wp_ret. rewrite (proj2 (Z.eqb_neq r2 ESP_OK)) by done. by exists d.
Qed.

Definition started f w : Prop := exists mc q, valid N w mc q f.

(** The position is recovered from the bytes behind the header. *)
Lemma recover_started o d mc q f : fits N o -> usable d -> state o = header N o mc -> 0 <= mc < N -> 0 <= q <= N + 1 ->
  stored_at d (addr_state1 o) (encode_state (header N o mc)) -> bits_exact N o d (addr_state1 o) q -> stored_at d (addr_state2 o) (encode_state (header N o mc)) ->
  data N o d mc (Z.min q N) f -> run recoverPos (started f) troubled (Wl o d).
Proof.
  intros Hf Hu Est Hmc Hq H1 Hb H2 Hd. eapply run_mono; [apply (recover_spec N o d q); [done|done|done|done|by rewrite Est]| |done].
  intros w' (d' & -> & Hu' & Hc). exists mc, q. split; cbn [obj dev]; [by apply fits_state|done|done|done| | | | |].
  - rewrite Est. exists 0, (crc (header N o mc)). split; [|lia]. done.
  - by eapply stored_cells.
  - by eapply bits_cells.
  - by eapply stored_cells.
  - by eapply data_cells.
Qed.

(** The headers of an erased copy and of one that was written. *)
Definition blank : wl_state_t := decode_state (replicate 32 255).
Context (blank_bad : state_crc crc32_le blank <> crc blank).

Lemma header_ok o mc : (state_crc crc32_le (header N o mc) =? crc (header N o mc)) = true.
Proof. apply Z.eqb_eq, header_crc. Qed.
Lemma blank_no : (state_crc crc32_le blank =? crc blank) = false.
Proof. by apply Z.eqb_neq. Qed.

(** Power was lost during a step: the position is recovered. *)
Lemma init_in_step o d mc q f : fits N o -> usable d -> state o = header N o mc -> 0 <= mc < N -> 0 <= q <= N + 1 ->
  stored_at d (addr_state1 o) (encode_state (header N o mc)) -> bits_exact N o d (addr_state1 o) q -> stored_at d (addr_state2 o) (encode_state (header N o mc)) ->
  data N o d mc (Z.min q N) f -> run (init_body crc32_le (header N o mc)) (started f) troubled (Wl o d).
Proof.
  intros Hf Hu Est Hmc Hq H1 Hb H2 Hd. unfold init_body. apply wp_bind, wp_this. cbn [obj]. rewrite Est, header_ok. cbn [andb].
  change (version (header N o mc)) with (cfg_version (cfg o)). rewrite !Z.eqb_refl. cbn [negb]. apply run_seq, run_ok. by apply (recover_started o d mc q f).
Qed.

(** ... before the second copy was written: it is written, or it is the same by chance. *)
Lemma init_old_second o d mc mc2 f : fits N o -> usable d -> state o = header N o mc -> 0 <= mc < N -> 0 <= mc2 < N ->
  (crc (header N o mc) = crc (header N o mc2) -> mc = mc2) ->
  stored_at d (addr_state1 o) (encode_state (header N o mc)) -> bits_exact N o d (addr_state1 o) 0 -> stored_at d (addr_state2 o) (encode_state (header N o mc2)) ->
  data N o d mc 0 f -> run (init_body crc32_le (header N o mc2)) (started f) troubled (Wl o d).
Proof.
  intros Hf Hu Est Hmc Hmc2 Hinj H1 Hb H2 Hd. pose proof (fits_bounds _ _ Hf) as [B1 B2 B3 B4 B5 B6 B7 B8 B9 B10 B11 B12]. unfold init_body. apply wp_bind, wp_this. cbn [obj]. rewrite Est, !header_ok. cbn [andb].
  change (version (header N o mc)) with (cfg_version (cfg o)). rewrite Z.eqb_refl, !header_crc. cbn [negb]. apply run_seq. destruct (Z.eqb_spec (crc (header N o mc)) (crc (header N o mc2))) as [E|E]; cbn [negb].
  - apply run_ok. apply Hinj in E. subst mc2. apply (recover_started o d mc 0 f); try done; [lia|]. by rewrite Z.min_l by lia.
  - eapply run_mono; [apply (copy_state_spec N o d (addr_state1 o) (addr_state2 o) mc); [done|done|by left]| |done].
    intros w' (d' & -> & Hu' & Hs' & Hb' & Ho). apply (recover_started o d' mc 0 f); try done; [lia|..].
    + eapply header_keep; [done| |exact H1]. intros x Hx. apply Ho. lia.
    + eapply bits_keep; [done| |exact Hb]. intros x Hx. apply Ho. lia.
    + rewrite Z.min_l by lia. eapply data_same; [done|lia| |exact Hd]. intros x Hx. apply Ho. lia.
Qed.

(** ... while the first copy was erased: it is written from the second, and the last step is done again. *)
Lemma init_no_first o d mc f : fits N o -> usable d -> state o = blank -> 0 <= mc < N ->
  stored_at d (addr_state2 o) (encode_state (header N o mc)) -> bits_used o d (addr_state2 o) (N + 1) -> data N o d mc N f ->
  run (init_body crc32_le (header N o mc)) (started f) troubled (Wl o d).
Proof.
  intros Hf Hu Est Hmc H2 Hb Hd. pose proof (fits_bounds _ _ Hf) as [B1 B2 B3 B4 B5 B6 B7 B8 B9 B10 B11 B12]. unfold init_body. apply wp_bind, wp_this. cbn [obj]. rewrite Est, header_ok, blank_no. cbn [andb negb].
  apply run_seq, run_seq. eapply run_mono; [apply (copy_state_spec N o d (addr_state2 o) (addr_state1 o) mc); [done|done|by right]| |done].
  intros w' (d1 & -> & Hu1 & Hs1 & Hb1 & Ho1). apply run_seq. eapply run_mono; [apply (read_state_spec N o d1 (addr_state1 o) (encode_state (header N o mc)) Hf Hu1); [by left|apply length_encode_state|exact Hs1]| |done].
  intros w2 (d2 & -> & Hu2 & Hc2). rewrite decode_encode_state by by apply header_small. apply wp_bind, wp_set_obj. cbn [obj dev]. apply run_ok.
  apply wp_bind, wp_this. cbn [obj]. change (version _) with (cfg_version (cfg o)) at 1. rewrite Z.eqb_refl. cbn [negb]. apply run_ok.
  assert (Ho2 : forall x, ~ addr_state1 o <= x < addr_state1 o + state_size o -> cell d2 x = cell d x) by (intros x Hx; rewrite Hc2; by apply Ho1).
  exists mc, (N + 1). split; cbn [obj dev]; [by apply fits_state, fits_state|done|done|lia| | | | |].
  - exists 0, (crc (header N o mc)). split; [|lia]. cbn. replace (N + 1 - 1) with N by lia. rewrite Z.min_r, u32_small by lia. done.
  - by eapply stored_cells.
  - intros i Hi. rewrite Hc2. cbn. change (bit_addr _ _ i) with (bit_addr o (addr_state1 o) i). rewrite Hb1 by done. specialize (Hb i ltac:(lia)). lia.
  - apply (header_keep N o d d2 (addr_state2 o) mc Hf); [|exact H2]. intros x Hx. apply Ho2. lia.
  - rewrite Z.min_r by lia. apply (data_same N o d d2 mc N f Hf); [lia| |exact Hd]. intros x Hx. apply Ho2. lia.
Qed.

(** ... while the second copy was erased: it is written from the first. *)
Lemma init_no_second o d mc f : fits N o -> usable d -> state o = header N o mc -> 0 <= mc < N ->
  stored_at d (addr_state1 o) (encode_state (header N o mc)) -> bits_exact N o d (addr_state1 o) 0 -> data N o d mc 0 f ->
  run (init_body crc32_le blank) (started f) troubled (Wl o d).
Proof.
  intros Hf Hu Est Hmc H1 Hb Hd. pose proof (fits_bounds _ _ Hf) as [B1 B2 B3 B4 B5 B6 B7 B8 B9 B10 B11 B12]. unfold init_body. apply wp_bind, wp_this. cbn [obj]. rewrite Est, header_ok, blank_no. cbn [andb negb].
  apply run_seq, run_seq. eapply run_mono; [apply (copy_state_spec N o d (addr_state1 o) (addr_state2 o) mc); [done|done|by left]| |done].
  intros w' (d1 & -> & Hu1 & Hs1 & Hb1 & Ho1). eapply run_mono; [apply (read_state_spec N o d1 (addr_state2 o) (encode_state (header N o mc)) Hf Hu1); [by right|apply length_encode_state|exact Hs1]| |done].
  intros w2 (d2 & -> & Hu2 & Hc2). rewrite decode_encode_state by by apply header_small.
  apply wp_bind, wp_this. cbn [obj]. change (version _) with (cfg_version (cfg o)) at 1. rewrite Z.eqb_refl. cbn [negb]. apply run_ok.
  assert (Ho2 : forall x, ~ addr_state2 o <= x < addr_state2 o + state_size o -> cell d2 x = cell d x) by (intros x Hx; rewrite Hc2; by apply Ho1).
  exists mc, 0. split; cbn [obj dev]; [by apply fits_state|done|done|lia| | | | |].
  - exists 0, (crc (header N o mc)). split; [|lia]. rewrite Z.min_l by lia. done.
  - apply (header_keep N o d d2 (addr_state1 o) mc Hf); [|exact H1]. intros x Hx. apply Ho2. lia.
  - apply (bits_keep N o d d2 (addr_state1 o) 0 Hf); [|exact Hb]. intros x Hx. apply Ho2. lia.
  - by eapply stored_cells.
  - rewrite Z.min_l by lia. apply (data_same N o d d2 mc 0 f Hf); [lia| |exact Hd]. intros x Hx. apply Ho2. lia.
Qed.

Lemma started_works f w : started f w -> works N (Wl (with_initialized true (obj w)) (dev w)) f false.
Proof. intros (mc & q & Hv). split; [done|]. exists mc, q. split; [by apply valid_initialized|done]. Qed.

(** A start on a flash that was left in order. *)
Lemma init_kept o d mc q f junk : fits N o -> usable d -> length junk = 32%nat -> 0 <= mc < N -> 0 <= q <= N + 1 ->
  stored_at d (addr_state1 o) (encode_state (header N o mc)) -> bits_exact N o d (addr_state1 o) q -> stored_at d (addr_state2 o) (encode_state (header N o mc)) ->
  data N o d mc (Z.min q N) f -> run (WL_init crc32_le junk) (fun w' => works N w' f false) troubled (Wl o d).
Proof.
  intros Hf Hu Hj Hmc Hq H1 Hb H2 Hd. pose proof (fun mc => length_encode_state (header N o mc)) as Hlen.
  assert (Hf1 : forall s, fits N (with_state s (with_initialized false o))) by (intros s; apply fits_state; by destruct Hf; split).
  apply (init_reads o d junk (encode_state (header N o mc)) (encode_state (header N o mc))); try done. intros d' Hu' Hc. rewrite decode_encode_state by by apply header_small.
  eapply run_mono; [eapply (init_in_step _ d' mc q f (Hf1 _)); try done; [by eapply stored_cells|by eapply bits_cells|by eapply stored_cells|by eapply data_cells]|apply started_works|done].
Qed.

(** A start after a loss of power. *)
Lemma wear_init_spec o d f junk : fits N o -> usable d -> crash N o d f -> length junk = 32%nat ->
  (forall mc mc2, 0 <= mc < N -> 0 <= mc2 < N -> crc (header N o mc) = crc (header N o mc2) -> mc = mc2) ->
  run (WL_init crc32_le junk) (fun w' => works N w' f false) troubled (Wl o d).
Proof.
  intros Hf Hu Hcr Hj Hinj. pose proof (fun mc => length_encode_state (header N o mc)) as Hlen.
  pose proof (started_works f) as Hst.
  assert (Hf1 : forall s, fits N (with_state s (with_initialized false o))) by (intros s; apply fits_state; by destruct Hf; split).
  destruct Hcr as [mc q Hmc Hq H1 Hb H2 Hd|mc Hmc He H2 Hb Hd|mc mc2 Hmc Hmc2 H1 Hb H2 Hd|mc Hmc H1 Hb He Hd].
  - by apply (init_kept o d mc q f junk).
  - apply (init_reads o d junk (replicate 32 255) (encode_state (header N o mc))); try done; [by apply erased_stored|]. intros d' Hu' Hc. rewrite decode_encode_state by by apply header_small.
    eapply run_mono; [eapply (init_no_first _ d' mc f (Hf1 _)); try done; [by eapply stored_cells|intros i Hi; rewrite Hc; by apply Hb|by eapply data_cells]|exact Hst|done].
  - apply (init_reads o d junk (encode_state (header N o mc)) (encode_state (header N o mc2))); try done. intros d' Hu' Hc. rewrite !decode_encode_state by by apply header_small.
    eapply run_mono; [eapply (init_old_second _ d' mc mc2 f (Hf1 _)); try done; [by apply Hinj|by eapply stored_cells|by eapply bits_cells|by eapply stored_cells|by eapply data_cells]|exact Hst|done].
  - apply (init_reads o d junk (encode_state (header N o mc)) (replicate 32 255)); try done; [by apply erased_stored|]. intros d' Hu' Hc. rewrite decode_encode_state by by apply header_small.
    eapply run_mono; [eapply (init_no_second _ d' mc f (Hf1 _)); try done; [by eapply stored_cells|by eapply bits_cells|by eapply data_cells]|exact Hst|done].
Qed.

(** The first start: no header is good, and both copies are written.  The
    contents are those that the memory has behind the dummy. *)
Lemma sections_spec o d : fits N o -> usable d ->
  run (initSections crc32_le)
    (fun w' => exists d', w' = Wl (with_used 0 (with_state (header N o 0) o)) d' /\ usable d' /\ stored_at d' (addr_state1 o) (encode_state (header N o 0))
       /\ bits_exact N o d' (addr_state1 o) 0 /\ stored_at d' (addr_state2 o) (encode_state (header N o 0)) /\ same d d' (start_addr (cfg o)) (addr_state1 o)) troubled (Wl o d).
Proof.
  intros Hf Hu. pose proof (fits_bounds _ _ Hf) as [B1 B2 B3 B4 B5 B6 B7 B8 B9 B10 B11 B12]. destruct (ft_aligned _ _ Hf) as (_ & _ & A3 & _ & A5).
  unfold initSections. apply wp_bind, wp_this. cbn [obj]. apply udiv_run; [lia|]. cbv zeta. apply udiv_run; [lia|]. rewrite (proj2 (ft_pages _ _ Hf)). rewrite Z.div_mul, (Z.add_comm 1 N), (u32_small (N + 1)) by lia.
  apply wp_bind, wp_set_obj. cbn [obj dev]. match goal with |- context [set_crc ?a ?b] => assert (Es : set_crc a b = header N o 0) end.
  { unfold header, state_crc, set_crc. cbn [pos max_pos move_count access_count max_count block_size version]. destruct (Z.eqb_spec (updaterate (cfg o)) 0) as [E|E]; cbn [negb]; [|done].
    rewrite E, Z.mul_0_r. done. }
  rewrite Es. clear Es. set (o1 := with_used 0 (with_state (header N o 0) o)). assert (Hf1 : fits N o1) by (eapply fits_same; [|exact Hf]; by split).
  apply run_seq. apply (run_write_state N (Wl o1 d)); cbn [obj dev]; [done|done|by left| |by exists d|intros d1 d2 _ Hs; by exists d1]. intros d1 Hu1 Hc1.
  destruct (fresh_state N o d d1 (addr_state1 o) 0 Hf Hc1) as [K1 K2]. pose proof (fun lo hi => same_outside d d1 (addr_state1 o) (state_size o) 32 _ lo hi Hc1 B6) as S1.
  apply run_seq. apply (run_write_state N (Wl o1 d1)); cbn [obj dev]; [done|done|by right| |by exists d1|intros d2 d3 _ Hs; by exists d2]. intros d2 Hu2 Hc2.
  destruct (fresh_state N o d1 d2 (addr_state2 o) 0 Hf Hc2) as [K3 _]. pose proof (fun lo hi => same_outside d1 d2 (addr_state2 o) (state_size o) 32 _ lo hi Hc2 B6) as S2.
  apply (run_rewrite (Wl o1 d2) (addr_cfg o) (cfg_size o) (encode_config (cfg o))); cbn [obj dev]; rewrite ?length_encode_config; try done; try lia; [apply Hf|apply encode_config_bytes| | |].
  - intros _ d3 Hu3 _ Hc3. pose proof (fun lo hi => same_outside d2 d3 (addr_cfg o) (cfg_size o) 36 _ lo hi Hc3 B10) as S3. exists d3. split_and!; [done|done|..].
    + eapply header_keep; [done|apply S3; lia|]. eapply header_keep; [done|apply S2; lia|exact K1].
    + eapply bits_keep; [done|apply S3; lia|]. eapply bits_keep; [done|apply S2; lia|exact K2].
    + eapply header_keep; [done|apply S3; lia|exact K3].
    + intros x Hx. rewrite (S3 (start_addr (cfg o)) (addr_state1 o)), (S2 (start_addr (cfg o)) (addr_state1 o)), (S1 (start_addr (cfg o)) (addr_state1 o)) by lia. done.
  - intros w' [_ Hb]. by exists d2.
  - intros d3 w' _ [_ Hb]. by exists d3.
Qed.

Lemma format_spec o d L1 L2 junk : fits N o -> usable d -> length L1 = 32%nat -> length L2 = 32%nat -> length junk = 32%nat ->
  stored_at d (addr_state1 o) L1 -> stored_at d (addr_state2 o) L2 ->
  state_crc crc32_le (decode_state L1) <> crc (decode_state L1) -> state_crc crc32_le (decode_state L2) <> crc (decode_state L2) ->
  run (WL_init crc32_le junk) (fun w' => works N w' (fun x => cell d (start_addr (cfg o) + page_size (cfg o) + x)) true) troubled (Wl o d).
Proof.
  intros Hf Hu H1 H2 Hj Hs1 Hs2 Hc1 Hc2. pose proof (fits_bounds _ _ Hf) as [B1 B2 B3 B4 B5 B6 B7 B8 B9 B10 B11 B12].
  apply (init_reads o d junk L1 L2); try done. intros d' Hu' Hc. set (o1 := with_state _ _). assert (Hf1 : fits N o1) by (apply fits_state; by destruct Hf; split).
  unfold init_body. apply wp_bind, wp_this. cbn [obj]. change (state o1) with (decode_state L1). rewrite (proj2 (Z.eqb_neq (state_crc _ (decode_state L1)) _)), (proj2 (Z.eqb_neq (state_crc _ (decode_state L2)) _)) by done.
  cbn [andb negb]. apply run_seq. eapply run_mono; [by apply (sections_spec o1 d')| |done]. intros w1 (d1 & -> & Hu1 & K1 & K2 & K3 & K4).
  set (o2 := with_used 0 _). assert (Hsp : same_place o1 o2) by (by split). assert (Hf2 : fits N o2) by (by eapply fits_same).
  eapply run_mono; [apply (recover_spec N o2 d1 0); [done|done|by eapply bits_exact_place|lia|done]| |done]. intros w2 (d2 & -> & Hu2 & Hc2').
  split; [done|]. exists 0, 0. split; [|intros _ i Hi; lia]. apply (valid_initialized N (Wl (with_state (set_pos (Z.min 0 N) (state o2)) o2) d2)). rewrite Z.min_l by lia.
  split; cbn [obj dev]; [by apply fits_state|done|lia|lia|..].
  - exists 0, (crc (header N o 0)). split; [|lia]. rewrite Z.min_l by lia. done.
  - by eapply stored_cells.
  - by eapply bits_cells.
  - by eapply stored_cells.
  - intros x Hx. rewrite Hc2', Z.min_l by lia. change (cfg _) with (cfg o) in *. assert (Ep : phys N (page_size (cfg o)) 0 0 x = page_size (cfg o) + x).
    { unfold phys, turned. rewrite Z.mul_0_l, Z.sub_0_r. replace (N * page_size (cfg o) + x) with (x + 1 * (N * page_size (cfg o))) by lia. rewrite Z_mod_plus_full, Z.mod_small by done. destruct (Z.ltb_spec x 0); lia. }
    rewrite Ep. rewrite K4 by (cbn; lia). rewrite Hc. f_equal. lia.
Qed.

(** *** The object after a reset *)

(** What the configuration decides in an object. *)
Record placed o o' : Prop := {
  pl_configured : configured o' = configured o;
  pl_cfg : cfg o' = cfg o;
  pl_drv : flash_drv o' = flash_drv o;
  pl_ac : addr_cfg o' = addr_cfg o;
  pl_a1 : addr_state1 o' = addr_state1 o;
  pl_a2 : addr_state2 o' = addr_state2 o;
  pl_fs : flash_size o' = flash_size o;
  pl_ss : state_size o' = state_size o;
  pl_cs : cfg_size o' = cfg_size o
}.

Lemma fits_placed o o' buf : placed o o' -> fits N o -> temp_buff o' = Some buf -> Z.of_nat (length buf) = temp_buff_size (cfg o') -> fits N o'.
Proof.
  intros [E1 E2 E3 E4 E5 E6 E7 E8 E9] [F1 F2 F3 F4 F5 F6 F7 F8 F9 F10 F11 F12 F13 F14 F15 F16 F17 F18] Eb Hb.
  split; rewrite ?E1, ?E2, ?E3, ?E4, ?E5, ?E6, ?E7, ?E8, ?E9; try done. exists buf. rewrite <- E2. done.
Qed.

Lemma crash_placed o o' d f : placed o o' -> crash N o d f -> crash N o' d f.
Proof.
  intros [E1 E2 E3 E4 E5 E6 E7 E8 E9] Hcr. eapply (crash_place N (with_temp (temp_buff o') (with_initialized (initialized o') o))); [by split|].
  by destruct Hcr as [mc q|mc|mc mc2|mc]; [apply (InStep _ _ _ _ mc q)|apply (NoFirst _ _ _ _ mc)|apply (OldSecond _ _ _ _ mc mc2)|apply (NoSecond _ _ _ _ mc)].
Qed.

(** [o] was configured with [c]. *)
Definition made_by (c : wl_config_t) o : Prop := exists temp w0 w1, WL_config crc32_le (Some c) (Some drv) temp w0 = Ret (ESP_OK, w1) /\ placed (obj w1) o.

(** The configuration decides the layout, whatever the object was before. *)
Lemma config_again c o temp w : made_by c o ->
  exists w', WL_config crc32_le (Some c) (Some drv) temp w = Ret (ESP_OK, w') /\ dev w' = dev w /\ placed o (obj w') /\ temp_buff (obj w') = temp
    /\ temp_buff_size (cfg (obj w')) = temp_buff_size c.
Proof.
  intros (temp0 & w0 & w1 & Hrun & Hp). revert Hrun. unfold WL_config, umod, udiv, set_obj, modify, stuck, mbind, M_bind, mret, M_ret. cbv zeta.
  cbn [sector_size temp_buff_size page_size full_mem_size wr_size start_addr]. destruct (temp_buff_size c =? 0); [done|]. destruct (_ || _); [done|]. destruct (sector_size c =? 0); [done|].
  destruct (page_size c =? 0); [done|]. intros [= <-]. eexists. split; [reflexivity|]. cbn [obj dev] in *. split; [done|]. split; [|by split]. destruct Hp as [E1 E2 E3 E4 E5 E6 E7 E8 E9].
  split; [rewrite E1|rewrite E2|rewrite E3|rewrite E4|rewrite E5|rewrite E6|rewrite E7|rewrite E8|rewrite E9]; reflexivity.
Qed.

(** A reset: the object is made anew from the same configuration. *)
Definition restart (c : wl_config_t) (temp junk : list Z) : M (wl Drv D) esp_err_t := WL_config crc32_le (Some c) (Some drv) (Some temp) >>? WL_init crc32_le junk.

Context (spoiled_keeps : forall d d', spoiled d d' -> same_cells d d').

(** C3: A loss of power between two calls of the driver (the calls fail from
    there on and leave the memory alone) loses nothing. Assumed: operations
    that stay within a page, on an object whose second copy of the state is
    complete ([works] with [true]), over a driver with the laws of a flash,
    and a checksum that tells the headers with different move counts apart.
    Whatever operations were under way, there is a point in them, between two
    operations or between two sectors of one erasure, such that every start on
    the memory as it was left then, with the same configuration, gives an
    object with the contents at that point, unless the driver fails again. The
    second copy may be incomplete after that ([works] with [false]): a second
    loss of power may mix up the pages, and so may a loss while the state is
    recovered (WL_Flash.cpp:140 and 187; [hole_in_second_copy] and
    [two_losses] of [WearWitness]). *)
Theorem power_loss_safe c w f ops :
  works N w f true -> made_by c (obj w) -> (forall mc mc2, 0 <= mc < N -> 0 <= mc2 < N -> crc (header N (obj w) mc) = crc (header N (obj w) mc2) -> mc = mc2) ->
  Forall (allowed N (page_size (cfg (obj w)))) ops ->
  wp (do_ops ops)
     (fun '(r, _) w' => r <> ESP_OK -> exists g, cut ops f g /\
        forall o2 d2 temp junk, usable d2 -> same_cells (dev w') d2 -> Z.of_nat (length temp) = temp_buff_size c -> length junk = 32%nat ->
        run (restart c temp junk) (fun w2 => works N w2 g false) troubled (Wl o2 d2)) w.
Proof.
  intros Hw Hmade Hinj Hops. eapply wp_mono; [by apply (do_ops_spec N ops w f true)|]. intros [r ls] w' H' Hr. rewrite (proj2 (Z.eqb_neq r ESP_OK)) in H' by done.
  destruct H' as (g & Hg & dx & Hs & Hcr). specialize (Hcr eq_refl). exists g. split; [done|]. intros o2 d2 temp junk Hu Hc Ht Hj.
  assert (Hcr2 : crash N (obj w) d2 g) by (eapply crash_cells; [exact Hc|]; eapply crash_cells; [by apply spoiled_keeps|exact Hcr]).
  pose proof Hw as [_ (mc & q & Hv & _)]. pose proof (va_fits _ _ _ _ _ Hv) as Hf.
  destruct (config_again c (obj w) (Some temp) (Wl o2 d2) Hmade) as ([o3 d3] & Hrun & Ed & Hp & Et & Ec). cbn [obj dev] in *. subst d3. unfold restart. apply run_seq.
  unfold run at 1, wp. rewrite Hrun. change (ESP_OK =? ESP_OK) with true. cbv iota.
  apply wear_init_spec; [by eapply fits_placed; [exact Hp|exact Hf|exact Et|rewrite Ec]|done|by eapply crash_placed|done|].
  intros m1 m2 H1 H2. unfold header. rewrite (pl_cfg _ _ Hp). by apply Hinj.
Qed.
End Start.
End Spec.
