(* ===== verification/WearMount.v ===== *)
(** * Wear levelling over partitions (components/wear_levelling)

    The drivers [Partition] and [SPI_Flash] over the models of partition.c and
    flash_ops.c, the table of mounted instances of wear_levelling.cpp, and the
    proof that a partition obeys the laws of a driver, so that what [WearSpec]
    shows holds for the flash behind a handle. *)

From S2P Require Import Prelude FlashMmap FlashOps Partition.
Import FlashMmap FlashOps Partition.
From S2P Require Import WearLevel WearSpec.

#[local] Open Scope Z_scope.

(** ** Configurations that leave room *)

(** Sectors of one copy of the state, of the configuration, and pages for the user. *)
Definition state_sectors (c : wl_config_t) : Z :=
  let need := sizeof_wl_state_t + full_mem_size c / sector_size c * wr_size c in
  if sector_size c <? need then (need + sector_size c - 1) / sector_size c else 1.
Definition cfg_sectors (c : wl_config_t) : Z := (sizeof_wl_config_t + sector_size c - 1) / sector_size c.
Definition user_pages (c : wl_config_t) : Z := full_mem_size c / sector_size c - state_sectors c * 2 - cfg_sectors c - 1.

(** The addresses of the two copies of the state. *)
Definition first_copy (c : wl_config_t) : Z := start_addr c + (user_pages c + 1) * sector_size c.
Definition second_copy (c : wl_config_t) : Z := first_copy c + state_sectors c * sector_size c.

Record good_config (cap : Z) (c : wl_config_t) : Prop := {
  gc_sector : 0 < sector_size c;
  gc_page : page_size c = sector_size c;
  gc_temp : 0 < temp_buff_size c /\ sector_size c mod temp_buff_size c = 0;
  gc_wr : 0 < wr_size c;
  gc_start : 0 <= start_addr c /\ start_addr c mod sector_size c = 0;
  gc_full : full_mem_size c mod sector_size c = 0;
  gc_cap : start_addr c + full_mem_size c <= cap < 2 ^ 31;
  gc_pages : 1 <= user_pages c;
  gc_rate : 0 <= updaterate c < 2 ^ 32;
  gc_version : 0 <= cfg_version c < 2 ^ 32
}.

(** The smallest number of units of [S] for [n] bytes. *)
Lemma round_up n S : 0 < S -> n <= (n + S - 1) / S * S < n + S.
Proof. intros HS. pose proof (Z.div_mod (n + S - 1) S ltac:(lia)). pose proof (Z.mod_pos_bound (n + S - 1) S HS). lia. Qed.

(** The layout in sectors. *)
Record sectors_of (c : wl_config_t) (S k sn cn N : Z) : Prop := {
  so_full : full_mem_size c = k * S;
  so_div : full_mem_size c / S = k;
  so_sum : k = N + 1 + sn * 2 + cn;
  so_need : 32 <= 32 + k * wr_size c <= sn * S;
  so_state : (if S <? 32 + k * wr_size c then (32 + k * wr_size c + S - 1) / S * S else S) = sn * S;
  so_cfg : (36 + S - 1) / S = cn;
  so_room : 36 <= cn * S;
  so_sn : S <= sn * S;
  so_end : (k - sn * 2 - cn) * S = (N + 1) * S;
  so_fit : (N + 1) * S + sn * S * 2 + cn * S = k * S;
  so_small : 36 + S - 1 < 2 ^ 31 /\ 32 + k * wr_size c + S - 1 < 2 ^ 31 /\ k * S < 2 ^ 31;
  so_pos : N <= N * S /\ N < k
}.

Lemma config_sectors cap c : good_config cap c ->
  sectors_of c (sector_size c) (full_mem_size c / sector_size c) (state_sectors c) (cfg_sectors c) (user_pages c).
Proof.
  intros [G1 G2 [G3 G3'] G4 [G5 G5'] G6 [G7 G7'] G8 G9 G10]. set (S := sector_size c) in *. set (k := full_mem_size c / S) in *.
  assert (Ek : full_mem_size c = k * S) by (symmetry; by apply div_exact).
  assert (EN : k = user_pages c + 1 + state_sectors c * 2 + cfg_sectors c) by (unfold user_pages; fold S k; lia).
  pose proof (round_up 36 S G1) as Rc. pose proof (round_up (32 + k * wr_size c) S G1) as Rs.
  assert (Hcn : 1 <= cfg_sectors c) by (unfold cfg_sectors, sizeof_wl_config_t; fold S; apply Z.div_le_lower_bound; lia).
  assert (Hsn : 1 <= state_sectors c) by (unfold state_sectors, sizeof_wl_state_t; fold S k; destruct (Z.ltb_spec S (32 + k * wr_size c)); [apply Z.div_le_lower_bound|]; lia).
  assert (Est : (if S <? 32 + k * wr_size c then (32 + k * wr_size c + S - 1) / S * S else S) = state_sectors c * S).
  { unfold state_sectors, sizeof_wl_state_t. fold S k. destruct (S <? _); lia. }
  assert (Hk : 0 <= k * wr_size c) by (apply Z.mul_nonneg_nonneg; lia). assert (Hneed : 32 + k * wr_size c <= state_sectors c * S < 32 + k * wr_size c + S \/ 32 + k * wr_size c <= state_sectors c * S /\ state_sectors c = 1).
  { rewrite <- Est. unfold state_sectors, sizeof_wl_state_t. fold S k. destruct (Z.ltb_spec S (32 + k * wr_size c)); [left; lia|right; lia]. }
  set (sn := state_sectors c) in *. set (N := user_pages c) in *. set (cn := cfg_sectors c) in *.
  assert (Ecn : (36 + S - 1) / S = cn) by done. rewrite Ecn in Rc. assert (PP : forall n, 1 <= n -> S <= n * S) by (clear - G1; intros n Hn; nia). pose proof (PP N G8) as P1. pose proof (PP sn Hsn) as P2. pose proof (PP cn Hcn) as P3.
  assert (Esum : (N + 1) * S + sn * S * 2 + cn * S = k * S) by (rewrite EN; ring). rewrite Z.mul_add_distr_r in Esum.
  assert (P4 : N <= N * S) by (clear - G1 G8; nia).
  split; try done; try lia.
Qed.

Section Config.
Context {Drv D : Type} `{Flash_Access Drv D} (drv : Drv) (crc32_le : Z -> list Z -> Z).

(** A good configuration is accepted and gives an object that fits. *)
Lemma config_fits cap c buf (w : wl Drv D) : good_config cap c -> Z.of_nat (length buf) = temp_buff_size c ->
  exists w', WL_config crc32_le (Some c) (Some drv) (Some buf) w = Ret (ESP_OK, w') /\ dev w' = dev w
    /\ fits drv (sector_size c) cap (user_pages c) (obj w') /\ start_addr (cfg (obj w')) = start_addr c /\ page_size (cfg (obj w')) = page_size c
    /\ addr_state1 (obj w') = first_copy c /\ addr_state2 (obj w') = second_copy c.
Proof.
  intros G Hbuf. pose proof (config_sectors cap c G) as [K1 K2 K3 K4 K5 K6 K7 K8 K9 K10 (K11 & K12 & K13) [K14 K15]]. destruct G as [G1 G2 [G3 G3'] G4 [G5 G5'] G6 [G7 G7'] G8 G9 G10].
  set (S := sector_size c) in *. set (k := full_mem_size c / S) in *. set (sn := state_sectors c) in *. set (N := user_pages c) in *. set (cn := cfg_sectors c) in *.
  unfold WL_config, umod, udiv, set_obj, modify, stuck, mbind, M_bind, mret, M_ret. cbv zeta. cbn [sector_size temp_buff_size page_size full_mem_size wr_size start_addr].
  fold S k. rewrite G2. rewrite (proj2 (Z.eqb_neq (temp_buff_size c) 0)), G3', Z.ltb_irrefl by lia. cbn [Z.eqb negb orb]. rewrite (proj2 (Z.eqb_neq S 0)) by lia. unfold sizeof_wl_state_t, sizeof_wl_config_t.
  assert (Hk0 : 0 <= k * wr_size c) by lia. rewrite (u32_small (k * wr_size c)) by lia. rewrite (u32_small (32 + _)) by lia. rewrite (u32_small (32 + _ + _ - _)), (u32_small (36 + S - 1)), K6 by lia.
  assert (Ess : (if S <? 32 + k * wr_size c then u32 ((32 + k * wr_size c + S - 1) / S * S) else S) = sn * S).
  { rewrite <- K5. destruct (S <? _); [|done]. rewrite u32_small; [done|]. rewrite K5. lia. }
  rewrite Ess, (u32_small (cn * S)), (u32_small (full_mem_size c - _ - _)) by lia. rewrite K1. replace (k * S - sn * S * 2 - cn * S) with ((N + 1) * S) by lia. rewrite Z.div_mul by lia.
  replace (N + 1 - 1) with N by lia. rewrite (u32_small N), (u32_small (N * S)), !u32_small by lia.
  eexists. split; [reflexivity|]. cbn [obj dev with_configured with_layout with_temp with_drv with_cfg cfg start_addr page_size]. split; [done|]. split; [|split_and!; [done|done|unfold first_copy; cbn; fold S N; lia|unfold second_copy, first_copy; cbn; fold S N sn; lia]].
  assert (A : forall n, (n * S) mod S = 0) by (intros n; apply Z_mod_mult). assert (B : forall a n, a mod S = 0 -> (a + n * S) mod S = 0) by (intros a n Ha; by rewrite Z_mod_plus_full).
  split; cbn; try done; try lia.
  - split; [lia|]. apply Z_mod_same_full.
  - by exists buf.
  - split; [|split; [|split; [|done]]]; [replace (start_addr c + k * S - sn * S * 2 - cn * S) with (start_addr c + (N + 1) * S) by lia|replace (start_addr c + k * S - sn * S * 1 - cn * S) with (start_addr c + (k - sn - cn) * S) by lia|
      replace (start_addr c + k * S - cn * S) with (start_addr c + (k - cn) * S) by lia]; by apply B.
  - exists k. fold S k. rewrite Z.div_mul by lia. unfold sizeof_wl_state_t. split_and!; [done|lia|lia].
Qed.
End Config.

(** ** The drivers *)

Section Drivers.
Context {W : Type} `{!RomFlash W}.

(** A [Partition] object.  [src_ptr] and [dst_ptr] are the addresses of the
    buffers of its calls, [p_malloc] and [p_junk] what [malloc] returns in
    calls on an encrypted partition. *)
Record Partition_drv : Type := PartitionDrv {
  partition : esp_partition_t;
  src_ptr : Z -> list Z -> Z;
  dst_ptr : Z -> list Z -> Z;
  p_malloc : bool;
  p_junk : list Z
}.

Definition Partition_chip_size (d : Partition_drv) : Z := p_size (partition d).
Definition Partition_sector_size (d : Partition_drv) : Z := SPI_FLASH_SEC_SIZE.
Definition Partition_erase_range (d : Partition_drv) (a n : Z) : M (part_state W) esp_err_t := esp_partition_erase_range (partition d) a n.
Definition Partition_erase_sector (d : Partition_drv) (sector : Z) : M (part_state W) esp_err_t :=
  Partition_erase_range d (u32 (sector * SPI_FLASH_SEC_SIZE)) SPI_FLASH_SEC_SIZE.
Definition Partition_write (d : Partition_drv) (a : Z) (l : list Z) : M (part_state W) esp_err_t :=
  esp_partition_write (p_malloc d) (p_junk d) (partition d) a (src_ptr d a l) l.
Definition Partition_read (d : Partition_drv) (a : Z) (buf : list Z) : M (part_state W) (esp_err_t * list Z) :=
  esp_partition_read (p_malloc d) (partition d) a (dst_ptr d a buf) buf.

#[export] Instance Partition_access : Flash_Access Partition_drv (part_state W) := {|
  fa_erase_sector := Partition_erase_sector;
  fa_erase_range := Partition_erase_range;
  fa_write := Partition_write;
  fa_read := Partition_read
|}.

(** An [SPI_Flash] object: the whole chip. *)
Record SPI_Flash : Type := SPIFlash { spi_src : Z -> list Z -> Z; spi_dst : Z -> list Z -> Z }.

Definition SPI_Flash_chip_size (d : SPI_Flash) (s : flash_state W) : Z := spi_flash_get_chip_size s.
Definition SPI_Flash_sector_size (d : SPI_Flash) : Z := SPI_FLASH_SEC_SIZE.
Definition SPI_Flash_erase_sector (d : SPI_Flash) (sector : Z) : M (flash_state W) esp_err_t := spi_flash_erase_sector sector.
Definition SPI_Flash_erase_range (d : SPI_Flash) (a n : Z) : M (flash_state W) esp_err_t :=
  spi_flash_erase_range a (u32 (u32 (n + SPI_FLASH_SEC_SIZE - 1) / SPI_FLASH_SEC_SIZE * SPI_FLASH_SEC_SIZE)).
Definition SPI_Flash_write (d : SPI_Flash) (a : Z) (l : list Z) : M (flash_state W) esp_err_t := spi_flash_write a (spi_src d a l) l.
Definition SPI_Flash_read (d : SPI_Flash) (a : Z) (buf : list Z) : M (flash_state W) (esp_err_t * list Z) := spi_flash_read a (spi_dst d a buf) buf.

#[export] Instance SPI_Flash_access : Flash_Access SPI_Flash (flash_state W) := {|
  fa_erase_sector := SPI_Flash_erase_sector;
  fa_erase_range := SPI_Flash_erase_range;
  fa_write := SPI_Flash_write;
  fa_read := SPI_Flash_read
|}.
End Drivers.

(** *** They obey the laws *)

Section Laws.
Context {W : Type} `{!RomFlash W} `{!RomLaws W}.

(** The state of the driver below: large enough tables, a chip of at most
    16 MB that holds the addresses up to [top]. *)
Definition flash_fine (top : Z) (m : mmap_state) : Prop := sized m /\ top <= chip_size m <= 2 ^ 24.

Lemma fine_same top m m' : flash_fine top m -> same_mmu m m' -> sized m' -> flash_fine top m'.
Proof. intros [_ Hc] (_ & _ & _ & _ & _ & E) Hs. split; [done|]. by rewrite E. Qed.

Lemma within_shift b a n x : within (b + a) n (b + x) = within a n x.
Proof. destruct (within a n x) eqn:E; [apply within_spec in E; apply within_spec; lia|apply within_false in E; apply within_false; lia]. Qed.

Lemma programmed_shift (c : Z -> Z) b a l x : programmed c (b + a) l (b + x) = if within a (Z.of_nat (length l)) x then Z.land (c (b + x)) (at_ 0 l (x - a)) else c (b + x).
Proof.
  rewrite programmed_all, within_shift. destruct (within a _ x) eqn:E; [|done]. apply within_spec in E. replace (b + x - (b + a)) with (x - a) by lia.
  destruct (lookup_lt_is_Some_2 l (Z.to_nat (x - a))) as [v Hv]; [lia|]. by rewrite !(at_lookup _ l _ v) by (lia || done).
Qed.

(** The chip with the offset [b] of a partition. *)
Definition chip_cell (b : Z) (s : flash_state W) (a : Z) : Z := content (chip s) (b + a).

Lemma chip_erase top b a n s : flash_fine top (mm s) -> 0 <= b -> 0 <= a -> 0 <= n -> b + a + n < 2 ^ 32 ->
  wp (spi_flash_erase_range (b + a) n)
     (fun r s' => r = ESP_OK -> flash_fine top (mm s') /\ forall x, chip_cell b s' x = if within a n x then 255 else chip_cell b s x) s.
Proof.
  intros Hf H0 H1 H2 H3. destruct (wp_inv _ _ _ (erase_range_spec s (b + a) n ltac:(lia) ltac:(lia) ltac:(lia))) as (r & s' & Hrun & Hm & Hok).
  unfold wp. rewrite Hrun. intros Hr. destruct (Hok Hr) as (_ & _ & _ & _ & _ & Hc). split; [by rewrite Hm|]. intros x. unfold chip_cell. rewrite Hc. unfold erased_range. by rewrite within_shift.
Qed.

Lemma chip_write top b a l p s : flash_fine top (mm s) -> 0 <= b -> 0 <= a -> b + a + Z.of_nat (length l) < 2 ^ 32 ->
  wp (spi_flash_write (b + a) p l)
     (fun r s' => r = ESP_OK -> flash_fine top (mm s') /\ forall x, chip_cell b s' x = if within a (Z.of_nat (length l)) x then Z.land (chip_cell b s x) (at_ 0 l (x - a)) else chip_cell b s x) s.
Proof.
  intros Hf H0 H1 H2. destruct (wp_inv _ _ _ (write_spec s (b + a) p l (proj1 Hf) (proj2 (proj2 Hf)) ltac:(lia) ltac:(lia))) as (r & s' & Hrun & Hok & Hs & Hm).
  unfold wp. rewrite Hrun. intros Hr. destruct (Hok Hr) as (_ & Hc & _). split; [by eapply fine_same|]. intros x. unfold chip_cell. by rewrite Hc, programmed_shift.
Qed.

Lemma chip_read top b a buf p s : rom_reliable -> flash_fine top (mm s) -> 0 <= b -> 0 <= a -> b + a + Z.of_nat (length buf) < 2 ^ 32 -> b + a + Z.of_nat (length buf) <= top ->
  wp (spi_flash_read (b + a) p buf)
     (fun '(r, l) s' => r = ESP_OK /\ length l = length buf /\ flash_fine top (mm s') /\ (forall x, chip_cell b s' x = chip_cell b s x) /\ forall i, 0 <= i < Z.of_nat (length buf) -> at_ 0 l i = chip_cell b s (a + i)) s.
Proof.
  intros Hrel Hf H0 H1 H2 H3. destruct (wp_inv _ _ _ (read_spec s (b + a) p buf ltac:(lia) ltac:(lia))) as ([r l] & s' & Hrun & Hok & Hl & (Hm & _ & Hc) & Hr).
  cbn [fst snd] in *. specialize (Hr Hrel ltac:(destruct Hf; lia)).
  unfold wp. rewrite Hrun. split; [done|]. split; [done|]. split; [by rewrite Hm|]. unfold chip_cell. split; [intros x; by rewrite Hc|]. intros i Hi. cbn in Hok. rewrite (proj2 (Hok Hr) i Hi). f_equal. lia.
Qed.

Lemma wp_on_fl {A} (m : M (flash_state W) A) (Q : A -> part_state W -> Prop) s : wp m (fun a f => Q a (with_fl f s)) (fl s) -> wp (on_fl m) Q s.
Proof. unfold wp, on_fl. by destruct (m (fl s)) as [[a f]|]. Qed.

(** A partition without encryption that the address space holds. *)
Record plain_partition (d : Partition_drv) : Prop := {
  pp_address : 0 <= p_address (partition d);
  pp_size : 0 <= p_size (partition d) < 2 ^ 31;
  pp_end : p_address (partition d) + p_size (partition d) < 2 ^ 32;
  pp_plain : p_encrypted (partition d) = false
}.

Section PartitionLaws.
Context (reliable : rom_reliable) (d : Partition_drv) (Hd : plain_partition d).
Let cap : Z := p_size (partition d).
Let b : Z := p_address (partition d).

Lemma partition_erase_law top (s : part_state W) a n : flash_fine top (mmu s) -> 0 <= a -> 0 <= n -> a + n <= cap ->
  wp (Partition_erase_range d a n)
     (fun r s' => if r =? ESP_OK then flash_fine top (mmu s') /\ forall x, chip_cell b (fl s') x = if within a n x then 255 else chip_cell b (fl s) x else True) s.
Proof.
  intros Hf H1 H2 H3. destruct Hd as [D1 D2 D3 D4]. subst cap b. unfold Partition_erase_range, esp_partition_erase_range.
  case_test; [done|]. rewrite (u32_small (a + n)) by lia. case_test; [done|]. case_test; [done|]. case_test; [done|]. rewrite u32_small by lia.
  apply wp_on_fl. eapply wp_mono; [apply (chip_erase top (p_address (partition d)) a n (fl s) Hf); lia|]. intros r f Hr. cbn in Hr. destruct (Z.eqb_spec r ESP_OK); [by apply Hr|done].
Qed.

#[export] Instance partition_laws : FlashLaws d SPI_FLASH_SEC_SIZE cap.
Proof.
  refine {| cell s := chip_cell b (fl s); usable s := flash_fine (b + cap) (mmu s); spoiled _ _ := True; read_failed _ _ := False |}; [done|..].
  - intros s a. apply rom_byte.
  - intros s a n Hf H1 H2 H3 _ _. by apply partition_erase_law.
  - intros s n Hf H1 H2. destruct Hd as [D1 D2 D3 D4]. unfold SPI_FLASH_SEC_SIZE in *. cbn [fa_erase_sector Partition_access]. unfold Partition_erase_sector, SPI_FLASH_SEC_SIZE.
    rewrite u32_small by (subst cap; lia). apply partition_erase_law; [done|lia|lia|lia].
  - intros s a l Hf H1 H2 _. destruct Hd as [D1 D2 D3 D4]. subst cap b. cbn [fa_write Partition_access]. unfold Partition_write, esp_partition_write.
    case_test; [done|]. rewrite (u32_small (a + _)) by lia. case_test; [done|]. rewrite D4, u32_small by lia.
    apply wp_on_fl. eapply wp_mono; [apply (chip_write _ (p_address (partition d)) a l _ (fl s) Hf); lia|]. intros r f Hr. cbn in Hr. destruct (Z.eqb_spec r ESP_OK); [by apply Hr|done].
  - intros s a buf Hf H1 H2. destruct Hd as [D1 D2 D3 D4]. subst cap b. cbn [fa_read Partition_access]. unfold Partition_read, esp_partition_read.
    case_test; [lia|]. rewrite (u32_small (a + _)) by lia. case_test; [lia|]. rewrite D4. cbn [negb]. rewrite u32_small by lia.
    apply wp_on_fl. eapply wp_mono; [apply (chip_read _ (p_address (partition d)) a buf _ (fl s) reliable Hf); lia|]. intros [r l] f (-> & Hl & Hr). by split.
Defined.
End PartitionLaws.

Section ChipLaws.
Context (reliable : rom_reliable) (d : SPI_Flash) (cap : Z) (Hcap : cap < 2 ^ 31).

Lemma spi_erase_law (s : flash_state W) a n : flash_fine cap (mm s) -> 0 <= a -> 0 <= n -> a + n <= cap ->
  wp (spi_flash_erase_range a n) (fun r s' => if r =? ESP_OK then flash_fine cap (mm s') /\ forall x, chip_cell 0 s' x = if within a n x then 255 else chip_cell 0 s x else True) s.
Proof. intros Hf H1 H2 H3. eapply wp_mono; [apply (chip_erase _ 0 a n s Hf); lia|]. intros r f Hr. cbn in Hr. destruct (Z.eqb_spec r ESP_OK); [by apply Hr|done]. Qed.

#[export] Instance spi_laws : FlashLaws d SPI_FLASH_SEC_SIZE cap.
Proof.
  refine {| cell s := chip_cell 0 s; usable s := flash_fine cap (mm s); spoiled _ _ := True; read_failed _ _ := False |}; [done|..].
  - intros s a. apply rom_byte.
  - intros s a n Hf H1 H2 H3 _ H5. cbn [fa_erase_range SPI_Flash_access]. unfold SPI_Flash_erase_range, SPI_FLASH_SEC_SIZE in *. rewrite (u32_small (n + 4096 - 1)) by lia.
    replace ((n + 4096 - 1) / 4096 * 4096) with n by (pose proof (round_up n 4096 ltac:(lia)); pose proof (div_exact n 4096 ltac:(lia) H5); lia). rewrite u32_small by lia. by apply spi_erase_law.
  - intros s n Hf H1 H2. cbn [fa_erase_sector SPI_Flash_access]. unfold SPI_Flash_erase_sector, spi_flash_erase_sector, SPI_FLASH_SEC_SIZE in *. rewrite u32_small by lia. apply spi_erase_law; [done|lia|lia|lia].
  - intros s a l Hf H1 H2 _. cbn [fa_write SPI_Flash_access]. unfold SPI_Flash_write. eapply wp_mono; [apply (chip_write _ 0 a l _ s Hf); lia|]. intros r f Hr. cbn in Hr. destruct (Z.eqb_spec r ESP_OK); [by apply Hr|done].
  - intros s a buf Hf H1 H2. cbn [fa_read SPI_Flash_access]. unfold SPI_Flash_read. eapply wp_mono; [apply (chip_read _ 0 a buf _ s reliable Hf); lia|]. intros [r l] f (-> & Hl & Hr). by split.
Defined.
End ChipLaws.
End Laws.

(** ** Handles (wear_levelling.cpp)

    The locks are left out: [wl_mount] and [wl_unmount] hold the lock of the
    table, the other functions that of an instance. *)

Definition MAX_WL_HANDLES : Z := 8.
Definition WL_INVALID_HANDLE : Z := -1.
Definition WL_DEFAULT_UPDATERATE : Z := 16.
Definition WL_DEFAULT_TEMP_BUFF_SIZE : Z := 32.
Definition WL_DEFAULT_WRITE_SIZE : Z := 16.
Definition WL_DEFAULT_START_ADDR : Z := 0.
Definition WL_CURRENT_VERSION : Z := 1.

(** The configuration of [wl_mount] for [size] bytes; its checksum is not set yet. *)
Definition mount_config (size garbage : Z) : wl_config_t :=
  WLConfig WL_DEFAULT_START_ADDR size SPI_FLASH_SEC_SIZE SPI_FLASH_SEC_SIZE WL_DEFAULT_UPDATERATE WL_DEFAULT_WRITE_SIZE WL_CURRENT_VERSION
    WL_DEFAULT_TEMP_BUFF_SIZE garbage.

Section Table.
Context {Drv D : Type} `{Flash_Access Drv D} (crc32_le : Z -> list Z -> Z).

Record mounts : Type := Mounts { s_instances : list (option (WL_Flash Drv)); device : D }.

(** What the allocations of [wl_mount] return, and what is in memory that is not initialised. *)
Record mount_mem : Type := MountMem {
  mem_part : option Drv;
  mem_flash : option (WL_Flash Drv);
  mem_temp : option (list Z);
  mem_state : list Z;
  mem_crc : Z
}.

Definition set_slot (h : Z) (v : option (WL_Flash Drv)) : M mounts unit :=
  T ← get;
  l ← lift (wr (s_instances T) h v);
  modify (fun T => Mounts l (device T)).

(** A method of the instance of a handle. *)
Definition on_instance {A} (h : Z) (m : M (wl Drv D) A) : M mounts A :=
  T ← get;
  i ← lift (rd (s_instances T) h);
  match i with
  | None => stuck NullDeref
  | Some o =>
      '(a, w) ← lift (m (Wl o (device T)));
      modify (fun T => Mounts (s_instances T) (dev w));;
      set_slot h (Some (obj w));;
      mret a
  end.

Fixpoint free_slot (i : Z) (l : list (option (WL_Flash Drv))) : option Z :=
  match l with
  | [] => None
  | None :: _ => Some i
  | Some _ :: l => free_slot (i + 1) l
  end.

Definition wl_mount (size : Z) (mem : mount_mem) : M mounts (esp_err_t * Z) :=
  T ← get;
  match free_slot 0 (s_instances T) with
  | None => mret (ESP_ERR_NO_MEM, WL_INVALID_HANDLE)
  | Some h =>
      match mem_part mem with
      | None => mret (ESP_ERR_NO_MEM, WL_INVALID_HANDLE)
      | Some part =>
          match mem_flash mem with
          | None => mret (ESP_ERR_NO_MEM, WL_INVALID_HANDLE)
          | Some o =>
              let o := with_temp None (with_initialized false (with_configured false o)) in
              '(r, w) ← lift ((WL_config crc32_le (Some (mount_config size (mem_crc mem))) (Some part) (mem_temp mem) >>?
                               WL_init crc32_le (mem_state mem)) (Wl o (device T)));
              modify (fun T => Mounts (s_instances T) (dev w));;
              if negb (r =? ESP_OK) then mret (r, WL_INVALID_HANDLE)
              else set_slot h (Some (obj w));; mret (ESP_OK, h)
          end
      end
  end.

Definition check_handle (h : Z) : M mounts esp_err_t :=
  if h =? WL_INVALID_HANDLE then mret ESP_ERR_NOT_FOUND
  else if MAX_WL_HANDLES <=? h then mret ESP_ERR_INVALID_ARG
  else
    T ← get;
    i ← lift (rd (s_instances T) h);
    mret (match i with None => ESP_ERR_NOT_FOUND | Some _ => ESP_OK end).

Definition wl_unmount (h : Z) : M mounts esp_err_t :=
  r ← check_handle h;
  if r =? ESP_OK then
    r ← on_instance h (WL_flush crc32_le);
    set_slot h None;;
    mret r
  else mret r.

Definition wl_erase_range (h start size : Z) : M mounts esp_err_t :=
  r ← check_handle h;
  if negb (r =? ESP_OK) then mret r else on_instance h (WL_erase_range crc32_le start size).

Definition wl_write (h dest : Z) (src : list Z) (size : Z) : M mounts esp_err_t :=
  r ← check_handle h;
  if negb (r =? ESP_OK) then mret r else on_instance h (WL_write dest src size).

Definition wl_read (h src : Z) (dest : list Z) (size : Z) : M mounts (esp_err_t * list Z) :=
  r ← check_handle h;
  if negb (r =? ESP_OK) then mret (r, dest) else on_instance h (WL_read src dest size).

Definition wl_size (h : Z) : M mounts Z :=
  r ← check_handle h;
  if negb (r =? ESP_OK) then mret 0 else on_instance h WL_chip_size.

Definition wl_sector_size (h : Z) : M mounts Z :=
  r ← check_handle h;
  if negb (r =? ESP_OK) then mret 0 else on_instance h WL_sector_size.

(** *** Sessions *)

(** The calls of a user of a handle. *)
Inductive wl_call : Type := CallErase (a n : Z) | CallWrite (a : Z) (l : list Z) | CallRead (a : Z) (n : nat).

Definition as_op (c : wl_call) : wl_op :=
  match c with CallErase a n => OpEraseRange a n | CallWrite a l => OpWrite a l | CallRead a n => OpRead a n end.

Definition call (h : Z) (c : wl_call) : M mounts (esp_err_t * list Z) :=
  match c with
  | CallErase a n => r ← wl_erase_range h a n; mret (r, [])
  | CallWrite a l => r ← wl_write h a l (Z.of_nat (length l)); mret (r, [])
  | CallRead a n => wl_read h a (replicate n 0) (Z.of_nat n)
  end.

Fixpoint calls (h : Z) (cs : list wl_call) : M mounts (esp_err_t * list (list Z)) :=
  match cs with
  | [] => mret (ESP_OK, [])
  | c :: cs =>
      '(r, l) ← call h c;
      if negb (r =? ESP_OK) then mret (r, [])
      else '(r, ls) ← calls h cs; mret (r, l :: ls)
  end.

(** Mount, work, unmount. *)
Definition session (size : Z) (mem : mount_mem) (cs : list wl_call) : M mounts (esp_err_t * (list (list Z) * Z)) :=
  '(r, h) ← wl_mount size mem;
  if negb (r =? ESP_OK) then mret (r, ([], 0))
  else
    '(r, ls) ← calls h cs;
    if negb (r =? ESP_OK) then mret (r, ([], 0))
    else
      n ← wl_size h;
      r ← wl_unmount h;
      mret (r, (ls, n)).
End Table.
Arguments mounts : clear implicits.
Arguments mount_mem : clear implicits.

(** ** What a session guarantees *)

Section Handles.
Context {Drv D : Type} `{Flash_Access Drv D} (crc32_le : Z -> list Z -> Z).
Implicit Types (T : mounts Drv D) (h : Z).

(** Handle [h] is mounted. *)
Definition mounted T h (o : WL_Flash Drv) : Prop := 0 <= h < MAX_WL_HANDLES /\ rd (s_instances T) h = Ret (Some o).

Lemma wp_set_slot h v (Q : unit -> mounts Drv D -> Prop) T : 0 <= h < Z.of_nat (length (s_instances T)) ->
  Q tt (Mounts (<[Z.to_nat h := v]> (s_instances T)) (device T)) -> wp (set_slot h v) Q T.
Proof. intros Hh HQ. unfold set_slot. apply wp_bind, wp_get, wp_bind. eapply wp_lift; [|by apply wp_modify]. unfold wr. by rewrite (proj2 (in_range_true _ _)). Qed.

(** The table with the instance and the device replaced. *)
Definition with_wl T h (w : wl Drv D) : mounts Drv D := Mounts (<[Z.to_nat h := Some (obj w)]> (s_instances T)) (dev w).

Lemma wp_check_handle T h o (Q : esp_err_t -> mounts Drv D -> Prop) : mounted T h o -> Q ESP_OK T -> wp (check_handle h) Q T.
Proof.
  intros [Hh Hr] HQ. unfold check_handle, WL_INVALID_HANDLE, MAX_WL_HANDLES in *. rewrite (proj2 (Z.eqb_neq h (-1))), (proj2 (Z.leb_gt 8 h)) by lia. apply wp_bind, wp_get, wp_bind.
  eapply wp_lift; [exact Hr|]. by apply wp_ret.
Qed.

Lemma wp_on_instance {A} T h o (m : M (wl Drv D) A) (Q : A -> mounts Drv D -> Prop) : mounted T h o ->
  wp m (fun a w => Q a (with_wl T h w)) (Wl o (device T)) -> wp (on_instance h m) Q T.
Proof.
  intros [Hh Hr] Hm. apply rd_ok in Hr as Hr'. destruct Hr' as [Hin _]. destruct (wp_inv _ _ _ Hm) as (a & w & Hrun & HQ). unfold on_instance. apply wp_bind, wp_get, wp_bind.
  eapply wp_lift; [exact Hr|]. apply wp_bind. eapply wp_lift; [exact Hrun|]. apply wp_bind, wp_modify, wp_bind. by apply wp_set_slot.
Qed.

Lemma mounted_with T h o w : mounted T h o -> mounted (with_wl T h w) h (obj w).
Proof. intros [Hh Hr]. split; [done|]. apply rd_ok in Hr as [Hin _]. apply rd_ok. cbn. rewrite length_insert. split; [done|]. apply list_lookup_insert_eq. lia. Qed.

(** Slots after a change of slot [h]. *)
Lemma with_wl_with T h w w' : with_wl (with_wl T h w) h w' = with_wl T h w'.
Proof. unfold with_wl. cbn. by rewrite list_insert_insert_eq. Qed.

(** A call through a handle is the operation of the instance. *)
Lemma call_spec T h o c (Q : esp_err_t * list Z -> mounts Drv D -> Prop) : mounted T h o ->
  wp (do_op crc32_le (as_op c)) (fun a w => Q a (with_wl T h w)) (Wl o (device T)) -> wp (call crc32_le h c) Q T.
Proof.
  intros Hm Hop. destruct c as [a n|a l|a n]; cbn [call as_op do_op] in *.
  - apply wp_bind. unfold wl_erase_range. apply wp_bind. eapply wp_check_handle; [exact Hm|]. cbn [negb Z.eqb ESP_OK]. eapply wp_on_instance; [exact Hm|].
    destruct (wp_inv _ _ _ Hop) as (x & w & Hrun & HQ). unfold mbind, M_bind in Hrun. unfold wp. destruct (WL_erase_range _ _ _ _) as [[r w1]|]; [|done]. by injection Hrun as <- <-.
  - apply wp_bind. unfold wl_write. apply wp_bind. eapply wp_check_handle; [exact Hm|]. cbn [negb Z.eqb ESP_OK]. eapply wp_on_instance; [exact Hm|].
    destruct (wp_inv _ _ _ Hop) as (x & w & Hrun & HQ). unfold mbind, M_bind in Hrun. unfold wp. destruct (WL_write _ _ _ _) as [[r w1]|]; [|done]. by injection Hrun as <- <-.
  - unfold wl_read. apply wp_bind. eapply wp_check_handle; [exact Hm|]. cbn [negb Z.eqb ESP_OK]. by eapply wp_on_instance.
Qed.

Lemma free_handle_spec i l h : free_slot i l = Some h -> i <= h < i + Z.of_nat (length l) /\ (l : list (option (WL_Flash Drv))) !! Z.to_nat (h - i) = Some None
  /\ forall j, i <= j < h -> exists o, l !! Z.to_nat (j - i) = Some (Some o).
Proof.
  revert i. induction l as [|[o|] l IH]; intros i Hf; cbn in Hf; [done| |].
  - destruct (IH _ Hf) as (H1 & H2 & H3). cbn [length]. split; [lia|]. replace (Z.to_nat (h - i)) with (S (Z.to_nat (h - (i + 1)))) by lia. split; [done|].
    intros j Hj. destruct (decide (j = i)) as [->|Hne]; [exists o; by rewrite Z.sub_diag|]. replace (Z.to_nat (j - i)) with (S (Z.to_nat (j - (i + 1)))) by lia. apply H3. lia.
  - injection Hf as <-. cbn [length]. rewrite Z.sub_diag. split; [lia|]. split; [done|]. lia.
Qed.
End Handles.

(** *** Starting keeps the place of an object *)

Section Placed.
Context {Drv D : Type} `{Flash_Access Drv D} (crc32_le : Z -> list Z -> Z).

Lemma placed_trans o1 o2 o3 : placed o1 o2 -> placed o2 o3 -> placed (Drv := Drv) o1 o3.
Proof. intros [] []. split; congruence. Qed.
Lemma same_placed o o' : same_place o o' -> placed (Drv := Drv) o o'.
Proof. intros []. by split. Qed.

Definition stays (w w' : wl Drv D) : Prop := placed (obj w) (obj w').
#[local] Instance stays_preorder : PreOrder stays.
Proof. split; [intros w; by split|]. intros w1 w2 w3. apply placed_trans. Qed.

Lemma stays_set g : (forall o, placed o (g o)) -> respects stays (set_obj (D := D) g).
Proof. intros Hg. apply respects_modify. intros w. apply Hg. Qed.
Lemma stays_dev {A} (m : M D A) : respects stays (on_dev (Drv := Drv) m).
Proof. intros w a w' Hm. unfold on_dev in Hm. destruct (m (dev w)) as [[b d]|]; [|done]. injection Hm as <- <-. by split. Qed.
Lemma stays_this : respects stays this.
Proof. unfold this. respects_auto. Qed.
#[local] Hint Resolve stays_this stays_dev : respects.
#[local] Hint Extern 1 (respects stays (set_obj _)) => apply stays_set; intros o; by split : respects.

Lemma stays_read a buf : respects stays (drv_read a buf).
Proof. unfold drv_read, on_drv. respects_auto. Qed.
Lemma stays_write a l : respects stays (drv_write a l).
Proof. unfold drv_write, on_drv. respects_auto. Qed.
Lemma stays_erase a n : respects stays (drv_erase_range a n).
Proof. unfold drv_erase_range, on_drv. respects_auto. Qed.
#[local] Hint Resolve stays_read stays_write stays_erase : respects.
Lemma stays_read1 a : respects stays (drv_read1 a).
Proof. unfold drv_read1. respects_auto. Qed.
Lemma stays_udiv a b : respects stays (udiv a b).
Proof. unfold udiv. respects_auto. Qed.
#[local] Hint Resolve stays_read1 stays_udiv : respects.

Lemma stays_recover : respects stays recoverPos.
Proof.
  assert (Hl : forall n i p, respects stays (recover_loop n i p)) by (induction n as [|n IH]; intros i p; cbn [recover_loop]; respects_auto).
  unfold recoverPos. respects_auto.
Qed.
Lemma stays_write_state a s : respects stays (write_state a s).
Proof. unfold write_state. respects_auto. Qed.
Lemma stays_read_state a : respects stays (read_state a).
Proof. unfold read_state. respects_auto. Qed.
#[local] Hint Resolve stays_recover stays_write_state stays_read_state : respects.
Lemma stays_sections : respects stays (initSections crc32_le).
Proof. unfold initSections. respects_auto. Qed.
Lemma stays_copy from to s : respects stays (copy_state from to s).
Proof.
  assert (Hl : forall n i, respects stays (copy_bits n i from to)) by (induction n as [|n IH]; intros i; cbn [copy_bits]; respects_auto).
  unfold copy_state. respects_auto.
Qed.
#[local] Hint Resolve stays_sections stays_copy : respects.

Lemma init_stays junk : respects stays (WL_init crc32_le junk).
Proof. unfold WL_init, init_body. respects_auto. Qed.
End Placed.

Section Session.
Context {Drv D : Type} `{Flash_Access Drv D} (drv : Drv) (cap : Z) {FL : FlashLaws drv SPI_FLASH_SEC_SIZE cap} (crc32_le : Z -> list Z -> Z).
Context (crc_word : forall c l, 0 <= crc32_le c l < 2 ^ 32).
Context (read_stops : forall (d d' : D) a buf, read_failed d d' -> wp (fa_read drv a buf) (fun '(r, _) d2 => r <> ESP_OK /\ spoiled d d2) d').
Context (whole : cap mod SPI_FLASH_SEC_SIZE = 0) (room : 5 * SPI_FLASH_SEC_SIZE <= cap < 2 ^ 31).

Let conf : wl_config_t := mount_config cap 0.
(** The pages that a mounted partition offers. *)
Definition mount_pages : Z := user_pages (mount_config cap 0).

(** The field [crc] of the configuration does not matter. *)
Lemma config_garbage g temp : WL_config (D := D) crc32_le (Some (mount_config cap g)) (Some drv) temp = WL_config crc32_le (Some conf) (Some drv) temp.
Proof. reflexivity. Qed.

Lemma mount_good : good_config cap conf.
Proof.
  unfold SPI_FLASH_SEC_SIZE in *. split; cbn; unfold WL_DEFAULT_START_ADDR; try done; try lia. unfold user_pages, state_sectors, cfg_sectors, sizeof_wl_config_t, sizeof_wl_state_t. cbn. unfold SPI_FLASH_SEC_SIZE, WL_DEFAULT_WRITE_SIZE in *.
  change ((36 + 4096 - 1) / 4096) with 1. pose proof (div_exact cap 4096 ltac:(lia) whole). set (k := cap / 4096) in *. pose proof (round_up (32 + k * 16) 4096 ltac:(lia)).
  destruct (Z.ltb_spec 4096 (32 + k * 16)); lia.
Qed.

(** No state is stored at [a]. *)
Definition no_state (d : D) (a : Z) : Prop := let s := decode_state (bytes_from (cell d) a 32) in state_crc crc32_le s <> crc s.

(** What a mount of the device finds: nothing, and then the contents are those
    behind the first page, or what another mount has left. *)
Definition kept (d : D) (f : Z -> Z) : Prop :=
  usable d /\
  ((no_state d (first_copy conf) /\ no_state d (second_copy conf) /\ forall x, f x = cell d (SPI_FLASH_SEC_SIZE + x))
   \/ exists o mc q, made_by (D := D) drv crc32_le conf o /\ valid drv SPI_FLASH_SEC_SIZE cap crc32_le mount_pages (Wl o d) mc q f).

Lemma bytes_stored (d : D) a : stored_at drv SPI_FLASH_SEC_SIZE cap d a (bytes_from (cell d) a 32).
Proof.
  intros i Hi. unfold bytes_from in *. rewrite length_fmap, length_seqZ in Hi. symmetry. apply at_lookup; [lia|]. rewrite list_lookup_fmap, lookup_seqZ_lt by lia. cbn. do 2 f_equal. lia.
Qed.

Lemma made_same c o o' : made_by (D := D) drv crc32_le c o -> same_place o o' -> made_by (D := D) drv crc32_le c o'.
Proof. intros (temp & w0 & w1 & Hr & Hp) Hs. exists temp, w0, w1. split; [done|]. eapply placed_trans; [exact Hp|by apply same_placed]. Qed.

(** Configure and start. *)
Lemma start_spec d f o buf junk : kept d f -> Z.of_nat (length buf) = WL_DEFAULT_TEMP_BUFF_SIZE -> length junk = 32%nat ->
  run (WL_config crc32_le (Some conf) (Some drv) (Some buf) >>? WL_init crc32_le junk)
    (fun w => works drv SPI_FLASH_SEC_SIZE cap crc32_le mount_pages w f false /\ made_by (D := D) drv crc32_le conf (obj w)) (fun _ => True) (Wl o d).
Proof.
  intros [Hu Hk] Hb Hj. destruct (config_fits drv crc32_le cap conf buf (Wl o d) mount_good Hb) as ([o1 d1] & Hrun & Ed & Hf & Est & Epg & E1 & E2). cbn [obj dev] in *. subst d1.
  apply run_seq. unfold run at 1, wp. rewrite Hrun. change (ESP_OK =? ESP_OK) with true. cbv iota.
  assert (Hw : run (WL_init crc32_le junk) (fun w => works drv SPI_FLASH_SEC_SIZE cap crc32_le mount_pages w f false) (fun _ => True) (Wl o1 d)).
  { destruct Hk as [(K1 & K2 & K3)|(o0 & mc & q & Hm & [V1 V2 V3 V4 V5 V6 V7 V8 V9])].
    - eapply run_mono; [apply (format_spec drv SPI_FLASH_SEC_SIZE cap crc32_le mount_pages read_stops o1 d (bytes_from (cell d) (first_copy conf) 32) (bytes_from (cell d) (second_copy conf) 32) junk); try done; rewrite ?E1, ?E2; apply bytes_stored| |done].
      intros w Hw. eapply works_ext; [|eapply works_any; exact Hw]. intros x. rewrite Est, Epg, K3. f_equal.
    - destruct (config_again drv crc32_le conf o0 (Some buf) (Wl o d) Hm) as (w' & Hrun' & _ & Hp & _). rewrite Hrun in Hrun'. injection Hrun' as <-. cbn [obj dev] in *.
      assert (Eh : header crc32_le mount_pages o1 mc = header crc32_le mount_pages o0 mc) by (unfold header; by rewrite (pl_cfg _ _ Hp)).
      eapply run_mono; [apply (init_kept drv SPI_FLASH_SEC_SIZE cap crc32_le crc_word mount_pages read_stops o1 d mc q f junk); try done; rewrite ?Eh, ?(pl_a1 _ _ Hp), ?(pl_a2 _ _ Hp); try done|done|done].
      + intros x Hx. unfold bit_addr. rewrite (pl_cfg _ _ Hp). by apply V7.
      + intros x. rewrite (pl_cfg _ _ Hp). by apply V9. }
  destruct (wp_inv _ _ _ Hw) as (r & w & Hr & HQ). unfold run, wp. rewrite Hr. destruct (r =? ESP_OK); [|done]. split; [done|].
  exists (Some buf), (Wl o d), (Wl o1 d). split; [done|]. by apply (init_stays crc32_le junk) in Hr.
Qed.

Lemma config_page temp (w w' : wl Drv D) : WL_config crc32_le (Some conf) (Some drv) temp w = Ret (ESP_OK, w') -> page_size (cfg (obj w')) = SPI_FLASH_SEC_SIZE.
Proof.
  unfold WL_config, umod, udiv, set_obj, modify, stuck, mbind, M_bind, mret, M_ret. cbv zeta. cbn [sector_size temp_buff_size page_size full_mem_size wr_size start_addr conf mount_config].
  cbn. by intros [= <-].
Qed.

Definition sound_mem (mem : mount_mem Drv) : Prop :=
  mem_part mem = Some drv /\ (exists o, mem_flash mem = Some o) /\ (exists buf, mem_temp mem = Some buf /\ Z.of_nat (length buf) = WL_DEFAULT_TEMP_BUFF_SIZE) /\ length (mem_state mem) = 32%nat.

Lemma mount_spec mem (T : mounts Drv D) f h : sound_mem mem -> length (s_instances T) = 8%nat -> free_slot 0 (s_instances T) = Some h -> kept (device T) f ->
  wp (wl_mount crc32_le cap mem)
     (fun '(r, h') T' => if r =? ESP_OK then h' = h /\ exists w, T' = with_wl T h w /\ mounted T' h (obj w) /\ works drv SPI_FLASH_SEC_SIZE cap crc32_le mount_pages w f false /\ made_by (D := D) drv crc32_le conf (obj w)
                         else h' = WL_INVALID_HANDLE /\ s_instances T' = s_instances T) T.
Proof.
  intros (M1 & (o & M2) & (buf & M3 & M3') & M4) Hlen Hfree Hk. unfold wl_mount. apply wp_bind, wp_get. rewrite Hfree, M1, M2, M3. cbv zeta. apply free_handle_spec in Hfree as (Hh & _).
  rewrite config_garbage. set (o1 := with_temp _ _). destruct (wp_inv _ _ _ (start_spec (device T) f o1 buf (mem_state mem) Hk M3' M4)) as (r & w & Hrun & HQ).
  apply wp_bind. eapply wp_lift; [exact Hrun|]. apply wp_bind, wp_modify. destruct (Z.eqb_spec r ESP_OK) as [->|Hne]; cbn [negb].
  - apply wp_bind, wp_set_slot; [cbn; lia|]. apply wp_ret. cbn [Z.eqb ESP_OK]. split; [done|]. exists w. split; [done|]. split; [|done]. split; [unfold MAX_WL_HANDLES; lia|].
    apply rd_ok. cbn. rewrite length_insert. split; [lia|]. apply list_lookup_insert_eq. lia.
  - apply wp_ret. by rewrite (proj2 (Z.eqb_neq r ESP_OK)).
Qed.

Lemma calls_spec cs : forall (T : mounts Drv D) h o f, mounted T h o -> works drv SPI_FLASH_SEC_SIZE cap crc32_le mount_pages (Wl o (device T)) f false ->
  page_size (cfg o) = SPI_FLASH_SEC_SIZE -> Forall (fun c => allowed SPI_FLASH_SEC_SIZE mount_pages SPI_FLASH_SEC_SIZE (as_op c)) cs ->
  wp (calls crc32_le h cs)
     (fun '(r, ls) T' => (exists w, T' = with_wl T h w) /\ (r = ESP_OK -> exists w, T' = with_wl T h w /\ same_place o (obj w)
        /\ works drv SPI_FLASH_SEC_SIZE cap crc32_le mount_pages w (after_ops SPI_FLASH_SEC_SIZE (as_op <$> cs) f) false /\ ls = reads SPI_FLASH_SEC_SIZE (as_op <$> cs) f)) T.
Proof.
  induction cs as [|c cs IH]; intros T h o f Hm Hw Hp Hcs; cbn [calls].
  { assert (ET : T = with_wl T h (Wl o (device T))) by (destruct Hm as [_ Hr]; apply rd_ok in Hr as [_ Hr]; unfold with_wl; destruct T; cbn in *; by rewrite list_insert_id).
    apply wp_ret. split; [by exists (Wl o (device T))|]. intros _. exists (Wl o (device T)). split; [exact ET|]. split; [apply wear_place_refl|done]. }
  apply Forall_cons in Hcs as [Hc Hcs]. apply wp_bind. eapply call_spec; [exact Hm|].
  eapply wp_mono; [apply (do_op_spec drv SPI_FLASH_SEC_SIZE cap crc32_le mount_pages (Wl o (device T)) f false (as_op c) Hw); cbn [obj]; by rewrite Hp|].
  intros [r l] w Hr. destruct (Z.eqb_spec r ESP_OK) as [->|Hne]; cbn [negb].
  - destruct Hr as [[Hsp Hw'] ->]. cbn [obj] in Hsp. apply wp_bind. destruct w as [o' d'].
    eapply wp_mono; [apply (IH (with_wl T h (Wl o' d')) h o' _ (mounted_with T h o (Wl o' d') Hm) Hw'); [cbn in Hsp; by rewrite (sp_cfg _ _ Hsp)|done]|].
    intros [r ls] T' [(w1 & E1) Hr]. apply wp_ret. rewrite with_wl_with in E1. split; [by exists w1|]. intros Hok. destruct (Hr Hok) as (w2 & E2 & Hsp2 & Hw2 & ->). rewrite with_wl_with in E2.
    exists w2. split; [done|]. split; [by eapply same_place_trans|done].
  - apply wp_ret. split; [by exists w|done].
Qed.

Lemma wp_wl_size (T : mounts Drv D) h o (Q : Z -> mounts Drv D -> Prop) : mounted T h o -> configured o = true -> Q (flash_size o) (with_wl T h (Wl o (device T))) -> wp (wl_size h) Q T.
Proof.
  intros Hm Hc HQ. unfold wl_size. apply wp_bind. eapply wp_check_handle; [exact Hm|]. cbn [negb Z.eqb ESP_OK]. eapply wp_on_instance; [exact Hm|]. unfold WL_chip_size. apply wp_bind, wp_this. cbn [obj]. rewrite Hc.
  by apply wp_ret.
Qed.

Lemma unmount_spec (T : mounts Drv D) h o f : mounted T h o -> length (s_instances T) = 8%nat -> works drv SPI_FLASH_SEC_SIZE cap crc32_le mount_pages (Wl o (device T)) f false -> made_by (D := D) drv crc32_le conf o ->
  wp (wl_unmount crc32_le h) (fun r T' => s_instances T' = <[Z.to_nat h := None]> (s_instances T) /\ (r = ESP_OK -> kept (device T') f)) T.
Proof.
  intros Hm Hlen Hw Hmade. unfold wl_unmount. apply wp_bind. eapply wp_check_handle; [exact Hm|]. cbn [Z.eqb ESP_OK]. apply wp_bind. eapply wp_on_instance; [exact Hm|].
  eapply wp_mono; [apply (flush_works drv SPI_FLASH_SEC_SIZE cap crc32_le mount_pages (Wl o (device T)) f false Hw)|]. intros r w Hr. cbn beta in Hr.
  apply wp_bind, wp_set_slot; [unfold with_wl; cbn; rewrite length_insert, Hlen; destruct Hm as [Hh _]; unfold MAX_WL_HANDLES in Hh; lia|]. apply wp_ret. unfold with_wl. cbn [s_instances device].
  rewrite list_insert_insert_eq. split; [done|]. intros ->. destruct Hr as [Hsp [_ (mc & q & Hv & _)]]. split; [apply Hv|]. right. exists (obj w), mc, q. split; [by eapply made_same|]. by destruct w.
Qed.

Lemma session_spec mem (T : mounts Drv D) f cs : sound_mem mem -> length (s_instances T) = 8%nat -> kept (device T) f ->
  Forall (fun c => allowed SPI_FLASH_SEC_SIZE mount_pages SPI_FLASH_SEC_SIZE (as_op c)) cs ->
  wp (session crc32_le cap mem cs)
     (fun '(r, (ls, n)) T' => r = ESP_OK -> s_instances T' = s_instances T /\ ls = reads SPI_FLASH_SEC_SIZE (as_op <$> cs) f /\ n = mount_pages * SPI_FLASH_SEC_SIZE
        /\ kept (device T') (after_ops SPI_FLASH_SEC_SIZE (as_op <$> cs) f)) T.
Proof.
  intros Hmem Hlen Hk Hcs. unfold session. apply wp_bind. destruct (free_slot 0 (s_instances T)) as [h|] eqn:Hfree.
  2:{ unfold wl_mount. apply wp_bind, wp_get. rewrite Hfree. do 2 apply wp_ret. done. }
  eapply wp_mono; [by apply (mount_spec mem T f h)|]. intros [r h'] T1 Hr. destruct (Z.eqb_spec r ESP_OK) as [->|Hne]; cbn [negb]; [|by apply wp_ret].
  destruct Hr as (-> & [o1 d1] & -> & Hm1 & Hw1 & Hmade). cbn [obj] in *. assert (Hc1 : page_size (cfg o1) = SPI_FLASH_SEC_SIZE).
  { destruct (config_again drv crc32_le conf o1 None (Wl o1 d1) Hmade) as (w' & Hrun & _ & Hp & _). rewrite <- (pl_cfg _ _ Hp). by eapply config_page. }
  apply wp_bind. eapply wp_mono; [exact (calls_spec cs (with_wl T h (Wl o1 d1)) h o1 f Hm1 Hw1 Hc1 Hcs)|]. intros [r ls] T2 [_ Hr]. destruct (Z.eqb_spec r ESP_OK) as [->|Hne]; cbn [negb]; [|by apply wp_ret].
  destruct (Hr eq_refl) as ([o2 d2] & -> & Hsp & Hw2 & ->). rewrite with_wl_with. cbn [obj] in Hsp.
  assert (Hm2 : mounted (with_wl T h (Wl o2 d2)) h o2) by (rewrite <- (with_wl_with T h (Wl o1 d1)); by apply (mounted_with _ h o1 (Wl o2 d2))).
  pose proof Hw2 as [_ (mc & q & Hv & _)]. pose proof (va_fits _ _ _ _ _ _ _ _ _ Hv) as Hf. cbn [obj] in Hf.
  apply wp_bind. eapply wp_wl_size; [exact Hm2|apply Hf|]. rewrite with_wl_with. cbn [with_wl device].
  apply wp_bind. eapply wp_mono; [apply (unmount_spec (with_wl T h (Wl o2 d2)) h o2 (after_ops SPI_FLASH_SEC_SIZE (as_op <$> cs) f) Hm2); [cbn; by rewrite length_insert|exact Hw2|by eapply made_same]|].
  intros r T3 [Hs Hk3]. apply wp_ret. intros Hok. split; [|split; [done|split; [|by apply Hk3]]].
  - rewrite Hs. cbn [with_wl s_instances]. rewrite list_insert_insert_eq. apply list_insert_id. apply free_handle_spec in Hfree as (_ & Hn & _). by rewrite Z.sub_0_r in Hn.
  - rewrite (proj2 (ft_pages _ _ _ _ _ Hf)), (sp_cfg _ _ Hsp). by rewrite Hc1.
Qed.
End Session.

Section PartitionSession.
Context {W : Type} `{!RomFlash W} `{!RomLaws W} (reliable : rom_reliable (W := W)) (crc32_le : Z -> list Z -> Z) (crc_word : forall c l, 0 <= crc32_le c l < 2 ^ 32).
Context (d : Partition_drv) (Hd : plain_partition d).
Let size : Z := p_size (partition d).

(** C12: Sessions on a partition: mounting an unencrypted partition of whole
    sectors, five at least, with memory for the buffer and the objects,
    working with it through the handle by accesses that each stay within a
    page, and unmounting it, over a ROM whose reads succeed
    ([rom_reliable]), never gets stuck; and if all calls succeed it reads what
    a plain flash of that size would, leaves the table of handles as it was
    and leaves a partition on which the next mount finds the contents. Without
    these conditions the code goes wrong: accesses of more than a page
    (WL_Flash.cpp:434 and 453), no memory for the buffer (:77), fewer sectors
    (:90). *)
Theorem partition_session mem (T : mounts Partition_drv (part_state W)) f cs :
  size mod SPI_FLASH_SEC_SIZE = 0 -> 5 * SPI_FLASH_SEC_SIZE <= size -> sound_mem d mem -> length (s_instances T) = 8%nat ->
  kept (FL := partition_laws reliable d Hd) d size crc32_le (device T) f ->
  Forall (fun c => allowed SPI_FLASH_SEC_SIZE (mount_pages size) SPI_FLASH_SEC_SIZE (as_op c)) cs ->
  wp (session crc32_le size mem cs)
     (fun '(r, (ls, n)) T' => r = ESP_OK -> s_instances T' = s_instances T /\ ls = reads SPI_FLASH_SEC_SIZE (as_op <$> cs) f /\ n = mount_pages size * SPI_FLASH_SEC_SIZE
        /\ kept (FL := partition_laws reliable d Hd) d size crc32_le (device T') (after_ops SPI_FLASH_SEC_SIZE (as_op <$> cs) f)) T.
Proof.
  intros Hwhole Hroom Hmem Hlen Hk Hcs. apply (session_spec (FL := partition_laws reliable d Hd) d size crc32_le crc_word); try done.
  split; [done|]. apply Hd.
Qed.
End PartitionSession.
