(* ===== verification/WearWitness.v ===== *)
(** * Wear levelling: a driver, runs and examples

    A small flash with a supply of calls, after which every call fails, obeys
    the laws of [WearSpec]; with it, and with the partition of the examples of
    [Partition], the theorems are applied to runs.  The examples at the end
    show calls outside their reach. *)

From S2P Require Import Prelude FlashMmap FlashOps Partition.
Import FlashMmap FlashOps Partition.
From S2P Require Import WearLevel WearSpec WearMount.

#[local] Open Scope Z_scope.

(** ** The checksum *)

Fixpoint crc_bits (n : nat) (c : Z) : Z :=
  match n with O => c | S n => crc_bits n (Z.lxor (Z.shiftr c 1) (if Z.odd c then 0xEDB88320 else 0)) end.
Fixpoint crc_bytes (c : Z) (l : list Z) : Z := match l with [] => c | b :: l => crc_bytes (crc_bits 8 (Z.lxor c b)) l end.
Definition crc32_ex (c : Z) (l : list Z) : Z := u32 (Z.lxor (crc_bytes (Z.lxor c UINT32_MAX) l) UINT32_MAX).

Lemma crc32_ex_word c l : 0 <= crc32_ex c l < 2 ^ 32.
Proof. apply u32_range. Qed.
Lemma blank_ex_bad : state_crc crc32_ex blank <> crc blank.
Proof. vm_compute. discriminate. Qed.

(** ** A flash that fails after a number of calls *)

Record emu : Type := Emu { e_log : list nor_op; e_left : nat }.

Definition emu_do (op : nor_op) : M emu esp_err_t := fun d =>
  match e_left d with O => Ret (ESP_FAIL, d) | S n => Ret (ESP_OK, Emu (op :: e_log d) n) end.
Definition emu_read (a : Z) (buf : list Z) : M emu (esp_err_t * list Z) := fun d =>
  match e_left d with O => Ret ((ESP_FAIL, buf), d) | S n => Ret ((ESP_OK, bytes_from (nor_byte (e_log d)) a (length buf)), Emu (e_log d) n) end.

#[export] Instance emu_access : Flash_Access unit emu := {|
  fa_erase_sector _ n := emu_do (NorErase (n * 64) 64);
  fa_erase_range _ a n := emu_do (NorErase a n);
  fa_write _ a l := emu_do (NorWrite a l);
  fa_read _ a buf := emu_read a buf
|}.

Definition emu_out (d d' : emu) : Prop := d' = d /\ e_left d = 0%nat.

Lemma nor_write_byte log a l x : nor_byte (NorWrite a l :: log) x = if within a (Z.of_nat (length l)) x then Z.land (nor_byte log x) (at_ 0 l (x - a)) else nor_byte log x.
Proof. pose proof (programmed_shift (nor_byte log) 0 a l x) as Hp. rewrite !Z.add_0_l in Hp. exact Hp. Qed.

#[export] Instance emu_laws : FlashLaws tt 64 512.
Proof.
  refine {| cell d := nor_byte (e_log d); usable _ := True; spoiled := emu_out; read_failed := emu_out |}; [done|..].
  - intros d a. apply nor_byte_range.
  - intros [log [|n]] a m _ _ _ _ _ _; by split.
  - intros [log [|n]] m _ _ _; by split.
  - intros [log [|n]] a l _ _ _ _; [by split|]. split; [done|]. intros x. apply nor_write_byte.
  - intros [log [|n]] a buf _ _ _; unfold wp; cbn [fa_read emu_access emu_read e_left e_log]; [by split|]. unfold bytes_from. rewrite length_fmap, length_seqZ, Nat2Z.id. split; [done|]. split; [done|]. split; [done|].
    intros i Hi. apply at_lookup; [lia|]. rewrite list_lookup_fmap, lookup_seqZ_lt by lia. cbn. do 2 f_equal. lia.
Defined.

Lemma emu_read_stops (d d' : emu) a buf : read_failed d d' -> wp (fa_read tt a buf) (fun '(r, _) d2 => r <> ESP_OK /\ spoiled d d2) d'.
Proof. intros [-> E]. destruct d as [log n]. cbn in E. subst n. by split. Qed.
Lemma emu_keeps (d d' : emu) : spoiled d d' -> same_cells tt 64 512 d d'.
Proof. intros [-> _]. by intros x. Qed.

(** ** Runs on the small flash *)

(** Eight sectors of 64 bytes: four pages for the user, and the dummy moves at every erasure. *)
Definition small_config : wl_config_t := WLConfig 0 512 64 64 1 4 1 16 0.
Definition no_object : WL_Flash unit := WLFlash false false (WLState 0 0 0 0 0 0 0 0) small_config None 0 0 0 0 0 0 None 0 0.
Definition new_buff : list Z := replicate 16 0.
Definition new_state : list Z := replicate 32 0.

Definition result_of {A B} (d : B) (o : outcome (A * B)) : B := match o with Ret (_, b) => b | Stuck _ => d end.

Definition start_small (left : nat) : outcome (esp_err_t * wl unit emu) := restart tt crc32_ex small_config new_buff new_state (Wl no_object (Emu [NorErase 0 512] left)).
Definition small (left : nat) : wl unit emu := result_of (Wl no_object (Emu [] 0)) (start_small left).
Definition ones (x : Z) : Z := nor_byte [NorErase 0 512] (0 + 64 + x).

Lemma small_good : good_config 512 small_config.
Proof. split; vm_compute; intuition congruence. Qed.

(** The first start of an erased flash. *)
Lemma small_works left : start_small left = Ret (ESP_OK, small left) -> works tt 64 512 crc32_ex 4 (small left) ones true /\ made_by (D := emu) tt crc32_ex small_config (obj (small left)).
Proof.
  intros Hrun. destruct (config_fits tt crc32_ex 512 small_config new_buff (Wl no_object (Emu [NorErase 0 512] left)) small_good eq_refl) as ([o1 d1] & Hc & Ed & Hf & Es & Ep & E1 & E2).
  cbn [obj dev] in *. subst d1. unfold start_small, restart in Hrun. rewrite (run_bind _ _ _ _ _ Hc) in Hrun. change (ESP_OK =? ESP_OK) with true in Hrun. cbv iota in Hrun.
  split; [|exists (Some new_buff), (Wl no_object (Emu [NorErase 0 512] left)), (Wl o1 (Emu [NorErase 0 512] left)); split; [exact Hc|by apply (init_stays crc32_ex new_state) in Hrun]].
  pose proof (format_spec tt 64 512 crc32_ex 4 emu_read_stops o1 (Emu [NorErase 0 512] left) (replicate 32 255) (replicate 32 255) new_state Hf I eq_refl eq_refl eq_refl) as Hw.
  unfold run, wp in Hw. rewrite Hrun in Hw. change (ESP_OK =? ESP_OK) with true in Hw. cbv iota in Hw. rewrite Es, Ep in Hw. apply Hw; try apply blank_ex_bad.
  - rewrite E1. apply erased_stored. intros x Hx. change (first_copy small_config) with 320 in Hx. cbn. rewrite (proj2 (within_spec _ _ _)); [done|]. unfold sizeof_wl_state_t in Hx. lia.
  - rewrite E2. apply erased_stored. intros x Hx. change (second_copy small_config) with 384 in Hx. cbn. rewrite (proj2 (within_spec _ _ _)); [done|]. unfold sizeof_wl_state_t in Hx. lia.
Qed.

(** Twelve erasures: the dummy goes round twice. *)
Definition small_ops : list wl_op :=
  [OpWrite 3 [1; 2; 3]; OpErase 1; OpErase 2; OpWrite 130 [7; 8]; OpErase 1; OpEraseRange 64 50; OpErase 3; OpRead 0 8; OpErase 1; OpErase 1; OpFlush; OpErase 3; OpErase 1; OpErase 1; OpFlush;
   OpRead 128 4; OpWrite 130 [3]; OpRead 128 4; OpRead 0 8].

Lemma small_start : start_small 2000 = Ret (ESP_OK, small 2000).
Proof. vm_compute. reflexivity. Qed.
Lemma small_allowed w : page_size (cfg (obj w)) = 64 -> Forall (allowed 64 4 (page_size (cfg (obj (w : wl unit emu))))) small_ops.
Proof. intros ->. unfold small_ops. repeat apply Forall_cons_2; try apply Forall_nil_2; cbn; unfold in_page; repeat split; try done; try (vm_compute; intuition congruence); repeat constructor; lia. Qed.

Lemma wl_refines_flash_witness :
  wp (do_ops crc32_ex small_ops) (fun '(r, ls) w' => if r =? ESP_OK then ls = reads 64 small_ops ones /\ works tt 64 512 crc32_ex 4 w' (after_ops 64 small_ops ones) false else troubled tt 64 512 w') (small 2000).
Proof.
  refine (wl_refines_flash tt 64 512 crc32_ex 4 (small 2000) ones small_ops _ _).
  - eapply works_any. exact (proj1 (small_works 2000 small_start)).
  - apply small_allowed. vm_compute. reflexivity.
Defined.

(** The run succeeds, and the dummy has moved on. *)
Example small_run : match do_ops crc32_ex small_ops (small 2000) with
  | Ret ((r, ls), w) => r = ESP_OK /\ ls = reads 64 small_ops ones /\ pos (state (obj w)) = 2 /\ move_count (state (obj w)) = 2
  | Stuck _ => False end.
Proof. vm_compute. repeat split. Qed.

(** *** Loss of power *)

(** The calls of the driver end in the middle: the first copy of the state is erased, its header not yet written. *)
#[local] Abbreviation weak := (small 66).
Definition round_ops : list wl_op := OpWrite 0 [1] :: replicate 6 OpFlush.

Lemma weak_start : start_small 66 = Ret (ESP_OK, weak).
Proof. vm_compute. reflexivity. Qed.
Lemma weak_headers mc mc2 : 0 <= mc < 4 -> 0 <= mc2 < 4 -> crc (header crc32_ex 4 (obj weak) mc) = crc (header crc32_ex 4 (obj weak) mc2) -> mc = mc2.
Proof.
  intros H1 H2. assert (Hm : forall m, 0 <= m < 4 -> m = 0 \/ m = 1 \/ m = 2 \/ m = 3) by (clear; lia).
  destruct (Hm mc H1) as [->|[->|[->| ->]]]; destruct (Hm mc2 H2) as [->|[->|[->| ->]]]; vm_compute; congruence.
Qed.

Lemma power_loss_safe_witness :
  wp (do_ops crc32_ex round_ops)
     (fun '(r, _) w' => r <> ESP_OK -> exists g, cut 64 round_ops ones g /\
        forall o2 d2 temp junk, usable d2 -> same_cells tt 64 512 (dev w') d2 -> Z.of_nat (length temp) = temp_buff_size small_config -> length junk = 32%nat ->
        run (restart tt crc32_ex small_config temp junk) (fun w2 => works tt 64 512 crc32_ex 4 w2 g false) (troubled tt 64 512) (Wl o2 d2)) weak.
Proof.
  refine (power_loss_safe tt 64 512 crc32_ex crc32_ex_word 4 emu_read_stops blank_ex_bad emu_keeps small_config weak ones round_ops _ _ weak_headers _).
  - exact (proj1 (small_works 66 weak_start)).
  - exact (proj2 (small_works 66 weak_start)).
  - unfold round_ops. repeat apply Forall_cons_2; try apply Forall_nil_2; cbn; unfold in_page; repeat split; try (vm_compute; intuition congruence). repeat constructor; lia.
Defined.

(** A new supply of calls; a reset. *)
Definition refill (n : nat) (w : wl unit emu) : wl unit emu := Wl (obj w) (Emu (e_log (dev w)) n).
Definition reset (n : nat) (w : wl unit emu) : wl unit emu := result_of w (restart tt crc32_ex small_config new_buff new_state (refill n (Wl no_object (dev w)))).
Definition moves (n : nat) (w : wl unit emu) : wl unit emu := result_of w (do_ops crc32_ex (replicate n OpFlush) w).
(** Four pages with one byte each, and what they read as. *)
Definition full : wl unit emu := result_of (small 0) (do_ops crc32_ex [OpWrite 0 [1]; OpWrite 64 [2]; OpWrite 128 [3]; OpWrite 192 [4]] (small 2000)).
Definition contents (w : wl unit emu) : outcome (esp_err_t * list (list Z)) :=
  match do_ops crc32_ex [OpRead 0 1; OpRead 64 1; OpRead 128 1; OpRead 192 1] (refill 100 w) with Ret (a, _) => Ret a | Stuck e => Stuck e end.

(** The supply of [weak] does end there, and the contents are found. *)
Example weak_run : match do_ops crc32_ex round_ops weak with
  | Ret ((r, _), w) => r <> ESP_OK /\ nor_byte (e_log (dev w)) 320 = 255 /\ nor_byte (e_log (dev w)) 324 = 255
      /\ contents (reset 500 w) = Ret (ESP_OK, [[1]; [255]; [255]; [255]])
  | Stuck _ => False end.
Proof. vm_compute. split; [discriminate|]. done. Qed.

(** Power is lost while the state is written, and again during the start that
    follows, behind the header of the first copy: the next start takes the
    position 0, and the pages are mixed up. *)
Example two_losses : contents (reset 500 (moves 6 (refill 56 full))) = Ret (ESP_OK, [[1]; [2]; [3]; [4]])
  /\ contents (reset 500 (reset 4 (moves 6 (refill 56 full)))) <> Ret (ESP_OK, [[1]; [2]; [3]; [4]]).
Proof. vm_compute. split; [done|discriminate]. Qed.

(** The byte of a step is written to the first copy only, then power is lost;
    the start that follows does not complete the second copy.  When the first
    copy has to be made from it later, that start is still right, but the one
    after it finds the pages in the wrong order. *)
Example hole_in_second_copy : let w := reset 500 (moves 12 (refill 45 (reset 500 (moves 12 (refill 10 full))))) in
  contents w = Ret (ESP_OK, [[1]; [2]; [3]; [4]]) /\ contents (reset 500 w) = Ret (ESP_OK, [[2]; [3]; [4]; [1]]).
Proof. vm_compute. done. Qed.

(** The write of the byte to the second copy fails; the retry erases the page
    that the first copy says is in use, and a loss of power then loses it. *)
Example retry_loses_page : contents (reset 500 (moves 1 (refill 1 (moves 1 (refill 10 full))))) = Ret (ESP_OK, [[255]; [2]; [3]; [4]]).
Proof. vm_compute. done. Qed.

(** *** Calls outside the bounds *)

(** A write of more than a page writes its whole length at every page: here
    past the last page, over the header of the first copy of the state. *)
Example write_over_state : let w := moves 5 (refill 500 full) in
  nor_byte (e_log (dev w)) 324 = 5 /\ match do_op crc32_ex (OpWrite 0 (replicate 70 0)) w with Ret ((r, _), w) => r = ESP_OK /\ nor_byte (e_log (dev w)) 324 = 0 | Stuck _ => False end.
Proof. vm_compute. done. Qed.

(** A read of three pages leaves its buffer. *)
Example read_over_buffer : WL_read 0 (replicate 129 0) 129 full = Stuck OutOfBounds.
Proof. vm_compute. done. Qed.

(** A memory of three or four sectors is accepted. *)
Definition tiny (k : Z) : wl_config_t := WLConfig 0 (64 * k) 64 64 1 4 1 16 0.
Example config_three : match WL_config crc32_ex (Some (tiny 3)) (Some tt) (Some new_buff) (Wl no_object (Emu [] 0)) with
  Ret (r, w) => r = ESP_OK /\ flash_size (obj w) = 0xffffffc0 | Stuck _ => False end.
Proof. vm_compute. done. Qed.
Example config_four : match restart tt crc32_ex (tiny 4) new_buff new_state (Wl no_object (Emu [NorErase 0 512] 500)) with
  Ret (r, w) => r = ESP_OK /\ flash_size (obj w) = 0 /\ do_op crc32_ex (OpRead 0 1) w = Stuck DivByZero | Stuck _ => False end.
Proof. vm_compute. done. Qed.

(** Without memory for its buffer an object is configured, and moving a page uses the null pointer. *)
Example no_buffer : match (WL_config crc32_ex (Some small_config) (Some tt) None >>? WL_init crc32_ex new_state) (Wl no_object (Emu [NorErase 0 512] 500)) with
  Ret (r, w) => r = ESP_OK /\ do_op crc32_ex (OpErase 0) w = Stuck NullDeref | Stuck _ => False end.
Proof. vm_compute. done. Qed.

(** A negative handle other than [WL_INVALID_HANDLE] is looked up in the table. *)
Example negative_handle (T : mounts unit emu) : wl_size (-2) T = Stuck OutOfBounds.
Proof. done. Qed.

(** ** A session on a partition *)

Definition ex_drv : Partition_drv := PartitionDrv ex_part (fun _ _ => 0) (fun _ _ => 0) true [].
Lemma ex_drv_plain : plain_partition ex_drv.
Proof. split; vm_compute; intuition congruence. Qed.
Lemma ex_reliable : rom_reliable (W := list nor_op).
Proof. done. Qed.

Definition ex_erased_chip : part_state (list nor_op) := PartState (set_chip [NorErase 0x9000 0x6000] FlashOps.ex_state) [ex_part] false.
Definition ex_table : mounts Partition_drv (part_state (list nor_op)) := Mounts (replicate 8 None) ex_erased_chip.
Definition ex_object : WL_Flash Partition_drv := WLFlash false false (WLState 0 0 0 0 0 0 0 0) (mount_config 0 0) None 0 0 0 0 0 0 None 0 0.
Definition ex_mem : mount_mem Partition_drv := MountMem (Some ex_drv) (Some ex_object) (Some (replicate 32 0)) (replicate 32 0) 77.
Definition ex_calls : list wl_call := [CallErase 0 4096; CallWrite 4094 [1; 2]; CallWrite 4096 [3]; CallRead 4090 6; CallRead 4096 2].

Lemma ex_kept : kept (FL := partition_laws ex_reliable ex_drv ex_drv_plain) ex_drv 0x6000 crc32_ex (device ex_table) (fun x => chip_cell 0x9000 (fl ex_erased_chip) (4096 + x)).
Proof.
  split; [split; [split; reflexivity|split; vm_compute; congruence]|]. left. split; [vm_compute; congruence|]. split; [vm_compute; congruence|]. done.
Qed.

Lemma partition_session_witness :
  wp (session crc32_ex 0x6000 ex_mem ex_calls)
     (fun '(r, (ls, n)) T' => r = ESP_OK -> s_instances T' = s_instances ex_table /\ ls = reads 4096 (as_op <$> ex_calls) (fun x => chip_cell 0x9000 (fl ex_erased_chip) (4096 + x)) /\ n = 2 * 4096
        /\ kept (FL := partition_laws ex_reliable ex_drv ex_drv_plain) ex_drv 0x6000 crc32_ex (device T') (after_ops 4096 (as_op <$> ex_calls) (fun x => chip_cell 0x9000 (fl ex_erased_chip) (4096 + x)))) ex_table.
Proof.
  refine (partition_session ex_reliable crc32_ex crc32_ex_word ex_drv ex_drv_plain ex_mem ex_table _ ex_calls _ _ _ _ ex_kept _).
  - vm_compute. reflexivity.
  - vm_compute. congruence.
  - split; [reflexivity|]. split; [by exists ex_object|]. split; [by exists (replicate 32 0)|reflexivity].
  - reflexivity.
  - unfold ex_calls. repeat apply Forall_cons_2; try apply Forall_nil_2; cbn; unfold in_page; repeat split; try (vm_compute; intuition congruence); repeat constructor; lia.
Defined.

Example session_run : match session crc32_ex 0x6000 ex_mem ex_calls ex_table with
  | Ret ((r, (ls, n)), _) => r = ESP_OK /\ ls = [[]; []; []; [255; 255; 255; 255; 1; 2]; [3; 255]] /\ n = 8192 | Stuck _ => False end.
Proof. vm_compute. done. Qed.
