(* ===== verification/RtosList.v ===== *)
(** * Lists of the FreeRTOS kernel (components/freertos/list.c, list.h)

    A list is a ring of items through [pxNext] and [pxPrevious], closed by the
    marker [xListEnd] inside the list itself, with an index [pxIndex] that
    walks around it.  Items and list headers live in a memory by address; the
    marker of the list at [L] is the item at address [L + 8]; it has no owner
    and no container in the code, and no operation reads these fields of it on
    a list that is not empty.

    The ring is related to the sequence of its items ([list_at]), and the walk
    of the index to a rotation of that sequence ([visits]).  The integrity
    check bytes are not configured. *)

From stdpp Require Import sorting.
From S2P Require Import Prelude.

#[local] Open Scope Z_scope.

Definition portMAX_DELAY : Z := 0xffffffff.

Record ListItem_t : Type := Item {
  xItemValue : Z;
  pxNext : Z;
  pxPrevious : Z;
  pvOwner : Z;
  pvContainer : Z
}.

Record List_t : Type := ListHdr { uxNumberOfItems : Z; pxIndex : Z }.

Record list_mem : Type := ListMem { items : gmap Z ListItem_t; lists : gmap Z List_t }.

(** [&pxList->xListEnd] *)
Definition xListEnd (pxList : Z) : Z := pxList + 8.

(** ** Access to memory *)

Definition item (a : Z) : M list_mem ListItem_t :=
  s ← get; match items s !! a with Some i => mret i | None => stuck NullDeref end.
Definition set_item (a : Z) (f : ListItem_t -> ListItem_t) : M list_mem unit :=
  i ← item a; modify (fun s => ListMem (<[a := f i]> (items s)) (lists s)).
Definition list_ (a : Z) : M list_mem List_t :=
  s ← get; match lists s !! a with Some l => mret l | None => stuck NullDeref end.
Definition set_list (a : Z) (f : List_t -> List_t) : M list_mem unit :=
  l ← list_ a; modify (fun s => ListMem (items s) (<[a := f l]> (lists s))).

Definition set_value (v : Z) (i : ListItem_t) : ListItem_t := Item v (pxNext i) (pxPrevious i) (pvOwner i) (pvContainer i).
Definition set_next (v : Z) (i : ListItem_t) : ListItem_t := Item (xItemValue i) v (pxPrevious i) (pvOwner i) (pvContainer i).
Definition set_previous (v : Z) (i : ListItem_t) : ListItem_t := Item (xItemValue i) (pxNext i) v (pvOwner i) (pvContainer i).
Definition set_owner (v : Z) (i : ListItem_t) : ListItem_t := Item (xItemValue i) (pxNext i) (pxPrevious i) v (pvContainer i).
Definition set_container (v : Z) (i : ListItem_t) : ListItem_t := Item (xItemValue i) (pxNext i) (pxPrevious i) (pvOwner i) v.
Definition set_count (n : Z) (l : List_t) : List_t := ListHdr n (pxIndex l).
Definition set_index (a : Z) (l : List_t) : List_t := ListHdr (uxNumberOfItems l) a.

(** ** list.c *)

Definition vListInitialise (pxList : Z) : M list_mem unit :=
  set_list pxList (set_index (xListEnd pxList));;
  set_item (xListEnd pxList) (set_value portMAX_DELAY);;
  set_item (xListEnd pxList) (set_next (xListEnd pxList));;
  set_item (xListEnd pxList) (set_previous (xListEnd pxList));;
  set_list pxList (set_count 0).

Definition vListInitialiseItem (pxItem : Z) : M list_mem unit := set_item pxItem (set_container 0).

Definition vListInsertEnd (pxList pxNewListItem : Z) : M list_mem unit :=
  l ← list_ pxList;
  let pxIndex := pxIndex l in
  set_item pxNewListItem (set_next pxIndex);;
  i ← item pxIndex;
  set_item pxNewListItem (set_previous (pxPrevious i));;
  i ← item pxIndex;
  set_item (pxPrevious i) (set_next pxNewListItem);;
  set_item pxIndex (set_previous pxNewListItem);;
  set_item pxNewListItem (set_container pxList);;
  set_list pxList (fun l => set_count (u32 (uxNumberOfItems l + 1)) l).

(** The loop that looks for the place of a new value. *)
Fixpoint find_place (fuel : nat) (pxIterator xValueOfInsertion : Z) : M list_mem Z :=
  match fuel with
  | O => stuck OutOfFuel
  | S fuel =>
      i ← item pxIterator;
      n ← item (pxNext i);
      if xItemValue n <=? xValueOfInsertion then find_place fuel (pxNext i) xValueOfInsertion else mret pxIterator
  end.

Definition vListInsert (fuel : nat) (pxList pxNewListItem : Z) : M list_mem unit :=
  n ← item pxNewListItem;
  let xValueOfInsertion := xItemValue n in
  pxIterator ←
    (if xValueOfInsertion =? portMAX_DELAY then e ← item (xListEnd pxList); mret (pxPrevious e)
     else find_place fuel (xListEnd pxList) xValueOfInsertion);
  i ← item pxIterator;
  set_item pxNewListItem (set_next (pxNext i));;
  n ← item pxNewListItem;
  set_item (pxNext n) (set_previous pxNewListItem);;
  set_item pxNewListItem (set_previous pxIterator);;
  set_item pxIterator (set_next pxNewListItem);;
  set_item pxNewListItem (set_container pxList);;
  set_list pxList (fun l => set_count (u32 (uxNumberOfItems l + 1)) l).

Definition uxListRemove (pxItemToRemove : Z) : M list_mem Z :=
  i ← item pxItemToRemove;
  let pxList := pvContainer i in
  set_item (pxNext i) (set_previous (pxPrevious i));;
  i ← item pxItemToRemove;
  set_item (pxPrevious i) (set_next (pxNext i));;
  l ← list_ pxList;
  (if pxIndex l =? pxItemToRemove then
     i ← item pxItemToRemove; set_list pxList (set_index (pxPrevious i))
   else mret tt);;
  set_item pxItemToRemove (set_container 0);;
  set_list pxList (fun l => set_count (u32 (uxNumberOfItems l - 1)) l);;
  l ← list_ pxList;
  mret (uxNumberOfItems l).

(** ** Macros of list.h *)

Definition listSET_LIST_ITEM_OWNER (pxListItem pxOwner : Z) : M list_mem unit := set_item pxListItem (set_owner pxOwner).
Definition listGET_LIST_ITEM_OWNER (pxListItem : Z) : M list_mem Z := i ← item pxListItem; mret (pvOwner i).
Definition listSET_LIST_ITEM_VALUE (pxListItem xValue : Z) : M list_mem unit := set_item pxListItem (set_value xValue).
Definition listGET_LIST_ITEM_VALUE (pxListItem : Z) : M list_mem Z := i ← item pxListItem; mret (xItemValue i).
Definition listGET_ITEM_VALUE_OF_HEAD_ENTRY (pxList : Z) : M list_mem Z :=
  e ← item (xListEnd pxList); i ← item (pxNext e); mret (xItemValue i).
Definition listGET_HEAD_ENTRY (pxList : Z) : M list_mem Z := e ← item (xListEnd pxList); mret (pxNext e).
Definition listGET_NEXT (pxListItem : Z) : M list_mem Z := i ← item pxListItem; mret (pxNext i).
Definition listGET_END_MARKER (pxList : Z) : Z := xListEnd pxList.
Definition listCURRENT_LIST_LENGTH (pxList : Z) : M list_mem Z := l ← list_ pxList; mret (uxNumberOfItems l).
Definition listLIST_IS_EMPTY (pxList : Z) : M list_mem bool := l ← list_ pxList; mret (uxNumberOfItems l =? 0).
Definition listIS_CONTAINED_WITHIN (pxList pxListItem : Z) : M list_mem bool :=
  i ← item pxListItem; mret (pvContainer i =? pxList).
Definition listLIST_ITEM_CONTAINER (pxListItem : Z) : M list_mem Z := i ← item pxListItem; mret (pvContainer i).
Definition listLIST_IS_INITIALISED (pxList : Z) : M list_mem bool :=
  e ← item (xListEnd pxList); mret (xItemValue e =? portMAX_DELAY).
Definition listGET_OWNER_OF_HEAD_ENTRY (pxList : Z) : M list_mem Z :=
  e ← item (xListEnd pxList); i ← item (pxNext e); mret (pvOwner i).

Definition listGET_OWNER_OF_NEXT_ENTRY (pxList : Z) : M list_mem Z :=
  l ← list_ pxList;
  i ← item (pxIndex l);
  set_list pxList (set_index (pxNext i));;
  l ← list_ pxList;
  (if pxIndex l =? xListEnd pxList then
     i ← item (pxIndex l); set_list pxList (set_index (pxNext i))
   else mret tt);;
  l ← list_ pxList;
  i ← item (pxIndex l);
  mret (pvOwner i).

(** ** Fields of the memory *)

Definition nx (s : list_mem) (a : Z) : option Z := pxNext <$> items s !! a.
Definition pv (s : list_mem) (a : Z) : option Z := pxPrevious <$> items s !! a.
Definition value (s : list_mem) (a : Z) : option Z := xItemValue <$> items s !! a.
Definition owner (s : list_mem) (a : Z) : option Z := pvOwner <$> items s !! a.
Definition container (s : list_mem) (a : Z) : option Z := pvContainer <$> items s !! a.

(** A path from [u] through [xs] to [v], both ways. *)
Fixpoint seg (s : list_mem) (u : Z) (xs : list Z) (v : Z) : Prop :=
  match xs with
  | [] => nx s u = Some v /\ pv s v = Some u
  | x :: xs => nx s u = Some x /\ pv s x = Some u /\ seg s x xs v
  end.

Lemma seg_app s u xs y ys v : seg s u (xs ++ y :: ys) v <-> seg s u xs y /\ seg s y ys v.
Proof. revert u. induction xs as [|x xs IH]; intros u; cbn; [tauto|]. rewrite IH. tauto. Qed.

Lemma seg_frame s s' u xs v :
  (forall x, x ∈ u :: xs -> nx s' x = nx s x) -> (forall x, x ∈ xs ++ [v] -> pv s' x = pv s x) -> seg s u xs v -> seg s' u xs v.
Proof.
  revert u. induction xs as [|x xs IH]; intros u Hn Hp; cbn [seg].
  - intros [H1 H2]. split; [rewrite Hn; [done|left]|rewrite Hp; [done|left]].
  - intros (H1 & H2 & H3). split_and!; [rewrite Hn; [done|left]|rewrite Hp; [done|left]|].
    apply IH; [intros y Hy; apply Hn; by right|intros y Hy; apply Hp; by right|done].
Qed.

(** The neighbours of a gap between [xs1] and [xs2]. *)
Definition left_of (u : Z) (xs1 : list Z) : Z := default u (last xs1).
Definition right_of (xs2 : list Z) (v : Z) : Z := default v (head xs2).

Lemma left_of_cons u x xs1 : left_of u (x :: xs1) = left_of x xs1.
Proof. unfold left_of. destruct xs1 as [|y xs1]; [done|]. rewrite last_cons_cons. by destruct (last (y :: xs1)) eqn:E; [|apply last_None in E]. Qed.

Lemma left_of_in u xs1 : left_of u xs1 ∈ u :: xs1.
Proof. unfold left_of. destruct (last xs1) as [x|] eqn:E; [right|left]. apply last_Some in E as [l ->]. apply elem_of_app. right. left. Qed.

Lemma right_of_in xs2 v : right_of xs2 v ∈ xs2 ++ [v].
Proof. destruct xs2; left. Qed.

Lemma seg_gap s u xs1 xs2 v :
  seg s u (xs1 ++ xs2) v -> nx s (left_of u xs1) = Some (right_of xs2 v) /\ pv s (right_of xs2 v) = Some (left_of u xs1).
Proof.
  revert u. induction xs1 as [|x xs1 IH]; intros u; cbn [app]; [by destruct xs2; cbn; intuition|].
  rewrite left_of_cons. cbn [seg]. intros (_ & _ & H). by apply IH.
Qed.

(** [n] is put between [a] and [b]. *)
Record spliced (L a n b : Z) (s s' : list_mem) : Prop := {
  sp_nx : forall x, nx s' x = if decide (x = a) then Some n else if decide (x = n) then Some b else nx s x;
  sp_pv : forall x, pv s' x = if decide (x = b) then Some n else if decide (x = n) then Some a else pv s x;
  sp_value : forall x, value s' x = value s x;
  sp_owner : forall x, owner s' x = owner s x;
  sp_container : forall x, container s' x = if decide (x = n) then Some L else container s x
}.

(** The links do not depend on the headers. *)
Lemma spliced_hdr L a n b s s' l : spliced L a n b s s' -> spliced L a n b s (ListMem (items s') l).
Proof. by intros [H1 H2 H3 H4 H5]. Qed.

Lemma seg_insert L n s s' xs2 v xs1 u :
  spliced L (left_of u xs1) n (right_of xs2 v) s s' ->
  NoDup (u :: xs1 ++ xs2) -> NoDup (xs1 ++ xs2 ++ [v]) -> n ∉ u :: xs1 ++ xs2 ++ [v] ->
  seg s u (xs1 ++ xs2) v -> seg s' u (xs1 ++ n :: xs2) v.
Proof.
  revert u. induction xs1 as [|x xs1 IH]; intros u [Hn Hp Hv Ho Hc] Hd1 Hd2 Hnew Hseg; cbn [app] in *.
  - change (left_of u []) with u in *. cbn [seg]. split_and!.
    + rewrite Hn. by rewrite decide_True.
    + rewrite Hp, decide_False, decide_True; [done|done|]. intros ->. apply Hnew. right. apply right_of_in.
    + assert (Hnu : n <> u) by set_solver.
      destruct xs2 as [|y ys]; cbn [seg app] in *.
      * change (right_of [] v) with v in *. rewrite Hn, Hp, decide_False, !decide_True; done.
      * change (right_of (y :: ys) v) with y in *. destruct Hseg as (H1 & H2 & H3). split_and!.
        -- rewrite Hn, decide_False, decide_True; done.
        -- rewrite Hp. by rewrite decide_True.
        -- apply NoDup_cons in Hd1 as [Hu _]. apply NoDup_cons in Hd2 as [Hy _].
           eapply seg_frame; [| |exact H3]; intros z Hz.
           ++ rewrite Hn, !decide_False; [done| |]; intros ->; [set_solver|done].
           ++ rewrite Hp, !decide_False; [done| |]; intros ->; [set_solver|done].
  - rewrite left_of_cons in *. apply NoDup_cons in Hd1 as [Hu Hd1]. pose proof Hd2 as [Hx Hd2']%NoDup_cons.
    cbn [seg] in *. destruct Hseg as (H1 & H2 & H3). pose proof (left_of_in x xs1) as Hl. pose proof (right_of_in xs2 v) as Hr. split_and!.
    + rewrite Hn, !decide_False; [done|set_solver|]. intros ->. apply Hu. apply elem_of_cons in Hl as [->|Hl]; [left|right]. apply elem_of_app. by left.
    + rewrite Hp, !decide_False; [done|set_solver|]. intros ->. apply Hx. apply elem_of_app. by right.
    + apply IH; [by split|done|done|set_solver|done].
Qed.

(** The item between [a] and [b] is taken out. *)
Record unlinked (a n b : Z) (s s' : list_mem) : Prop := {
  un_nx : forall x, nx s' x = if decide (x = a) then Some b else nx s x;
  un_pv : forall x, pv s' x = if decide (x = b) then Some a else pv s x;
  un_value : forall x, value s' x = value s x;
  un_owner : forall x, owner s' x = owner s x;
  un_container : forall x, container s' x = if decide (x = n) then Some 0 else container s x
}.

Lemma seg_remove n s s' xs2 v xs1 u :
  unlinked (left_of u xs1) n (right_of xs2 v) s s' ->
  NoDup (u :: xs1 ++ n :: xs2) -> NoDup (xs1 ++ n :: xs2 ++ [v]) ->
  seg s u (xs1 ++ n :: xs2) v -> seg s' u (xs1 ++ xs2) v.
Proof.
  revert u. induction xs1 as [|x xs1 IH]; intros u [Hn Hp Hv Ho Hc] Hd1 Hd2 Hseg; cbn [app] in *.
  - change (left_of u []) with u in *. cbn [seg] in Hseg. destruct Hseg as (_ & _ & H3).
    apply NoDup_cons in Hd1 as [Hu _]. apply NoDup_cons in Hd2 as [Hnn Hd2].
    destruct xs2 as [|y ys]; cbn [seg app] in *.
    + change (right_of [] v) with v in *. rewrite Hn, Hp, !decide_True; done.
    + change (right_of (y :: ys) v) with y in *. destruct H3 as (H1 & H2 & H3). apply NoDup_cons in Hd2 as [Hy _]. split_and!.
      * rewrite Hn. by rewrite decide_True.
      * rewrite Hp. by rewrite decide_True.
      * eapply seg_frame; [| |exact H3]; intros z Hz; [rewrite Hn, decide_False|rewrite Hp, decide_False]; try done; intros ->; set_solver.
  - rewrite left_of_cons in *. apply NoDup_cons in Hd1 as [Hu Hd1]. pose proof Hd2 as [Hx Hd2']%NoDup_cons.
    cbn [seg] in *. destruct Hseg as (H1 & H2 & H3). pose proof (left_of_in x xs1) as Hl. pose proof (right_of_in xs2 v) as Hr. split_and!.
    + rewrite Hn, decide_False; [done|]. intros ->. apply Hu. apply elem_of_cons in Hl as [->|Hl]; [left|right]. apply elem_of_app. by left.
    + rewrite Hp, decide_False; [done|]. intros ->. apply Hx. apply elem_of_app. right. by right.
    + apply IH; [by split|done|done|done].
Qed.

(** ** Running the accesses *)

Lemma wp_item a i (Q : ListItem_t -> list_mem -> Prop) s : items s !! a = Some i -> Q i s -> wp (item a) Q s.
Proof. intros H HQ. unfold item. do 2 wp_step. rewrite H. by wp_step. Qed.

Lemma wp_item_next a y (Q : ListItem_t -> list_mem -> Prop) s :
  nx s a = Some y -> (forall i, items s !! a = Some i -> pxNext i = y -> Q i s) -> wp (item a) Q s.
Proof. unfold nx. intros (i & Hi & E)%fmap_Some HQ. eapply wp_item; [exact Hi|]. by apply HQ. Qed.

Lemma wp_item_prev a y (Q : ListItem_t -> list_mem -> Prop) s :
  pv s a = Some y -> (forall i, items s !! a = Some i -> pxPrevious i = y -> Q i s) -> wp (item a) Q s.
Proof. unfold pv. intros (i & Hi & E)%fmap_Some HQ. eapply wp_item; [exact Hi|]. by apply HQ. Qed.

Lemma wp_item_links a y z (Q : ListItem_t -> list_mem -> Prop) s :
  nx s a = Some y -> pv s a = Some z -> (forall i, items s !! a = Some i -> pxNext i = y -> pxPrevious i = z -> Q i s) -> wp (item a) Q s.
Proof. unfold nx, pv. intros (i & Hi & E)%fmap_Some Hp HQ. eapply wp_item; [exact Hi|]. rewrite Hi in Hp. injection Hp. auto. Qed.

Lemma wp_list L l (Q : List_t -> list_mem -> Prop) s : lists s !! L = Some l -> Q l s -> wp (list_ L) Q s.
Proof. intros H HQ. unfold list_. do 2 wp_step. rewrite H. by wp_step. Qed.

Lemma wp_set_list L l f (Q : unit -> list_mem -> Prop) s :
  lists s !! L = Some l -> Q tt (ListMem (items s) (<[L := f l]> (lists s))) -> wp (set_list L f) Q s.
Proof. intros H HQ. unfold set_list. apply wp_bind. eapply wp_list; [exact H|]. by wp_step. Qed.

(** A memory in which one field of one item is new. *)
Record put_field (g : list_mem -> Z -> option Z) (a v : Z) (s s' : list_mem) : Prop := {
  pf_lists : lists s' = lists s;
  pf_this : forall x, g s' x = if decide (x = a) then Some v else g s x;
  pf_live : forall x, is_Some (items s' !! x) <-> is_Some (items s !! x)
}.
Definition same_field (g : list_mem -> Z -> option Z) (s s' : list_mem) : Prop := forall x, g s' x = g s x.

Lemma of_items s s' :
  items s' = items s ->
  same_field nx s s' /\ same_field pv s s' /\ same_field value s s' /\ same_field owner s s' /\ same_field container s s'
  /\ (forall x, is_Some (items s' !! x) <-> is_Some (items s !! x)).
Proof. intros E. unfold same_field, nx, pv, value, owner, container. rewrite E. done. Qed.

Ltac field_update :=
  match goal with H : items ?s !! ?a = Some ?i |- _ =>
    split_and!; [split; [done| |]|..]; intros x; unfold nx, pv, value, owner, container; cbn;
    rewrite ?lookup_insert; destruct (decide (a = x)) as [<-|];
    rewrite ?H, ?(decide_True _ _ eq_refl), ?decide_False by congruence; try done; by rewrite H
  end.

Lemma wp_put_next a v (Q : unit -> list_mem -> Prop) s :
  is_Some (items s !! a) ->
  (forall s', put_field nx a v s s' /\ same_field pv s s' /\ same_field value s s' /\ same_field owner s s' /\ same_field container s s' -> Q tt s') ->
  wp (set_item a (set_next v)) Q s.
Proof. intros [i Hi] HQ. unfold set_item. apply wp_bind. eapply wp_item; [exact Hi|]. wp_step. apply HQ. field_update. Qed.

Lemma wp_put_previous a v (Q : unit -> list_mem -> Prop) s :
  is_Some (items s !! a) ->
  (forall s', put_field pv a v s s' /\ same_field nx s s' /\ same_field value s s' /\ same_field owner s s' /\ same_field container s s' -> Q tt s') ->
  wp (set_item a (set_previous v)) Q s.
Proof. intros [i Hi] HQ. unfold set_item. apply wp_bind. eapply wp_item; [exact Hi|]. wp_step. apply HQ. field_update. Qed.

Lemma wp_put_value a v (Q : unit -> list_mem -> Prop) s :
  is_Some (items s !! a) ->
  (forall s', put_field value a v s s' /\ same_field nx s s' /\ same_field pv s s' /\ same_field owner s s' /\ same_field container s s' -> Q tt s') ->
  wp (set_item a (set_value v)) Q s.
Proof. intros [i Hi] HQ. unfold set_item. apply wp_bind. eapply wp_item; [exact Hi|]. wp_step. apply HQ. field_update. Qed.

Lemma wp_put_container a v (Q : unit -> list_mem -> Prop) s :
  is_Some (items s !! a) ->
  (forall s', put_field container a v s s' /\ same_field nx s s' /\ same_field pv s s' /\ same_field value s s' /\ same_field owner s s' -> Q tt s') ->
  wp (set_item a (set_container v)) Q s.
Proof. intros [i Hi] HQ. unfold set_item. apply wp_bind. eapply wp_item; [exact Hi|]. wp_step. apply HQ. field_update. Qed.

Lemma live_nx s a y : nx s a = Some y -> is_Some (items s !! a).
Proof. unfold nx. intros (i & Hi & _)%fmap_Some. by exists i. Qed.
Lemma live_pv s a y : pv s a = Some y -> is_Some (items s !! a).
Proof. unfold pv. intros (i & Hi & _)%fmap_Some. by exists i. Qed.

(** Read a field in the newest memory from what is known of the older ones. *)
Ltac chase :=
  repeat match goal with
  | H : put_field ?g _ _ _ ?s |- context [?g ?s _] => rewrite (pf_this _ _ _ _ _ H)
  | H : same_field ?g _ ?s |- context [?g ?s _] => rewrite (H _)
  | H : put_field _ _ _ _ ?s |- context [is_Some (items ?s !! _)] => rewrite (pf_live _ _ _ _ _ H)
  | H : put_field _ _ _ _ ?s |- context [lists ?s] => rewrite (pf_lists _ _ _ _ _ H)
  end.

(** ** Lists as sequences *)

Record list_at (s : list_mem) (L : Z) (xs : list Z) (idx : Z) : Prop := {
  la_hdr : lists s !! L = Some (ListHdr (Z.of_nat (length xs)) idx);
  la_len : Z.of_nat (length xs) < 2 ^ 32;
  la_seg : seg s (xListEnd L) xs (xListEnd L);
  la_nodup : NoDup (xListEnd L :: xs);
  la_index : idx ∈ xListEnd L :: xs;
  la_end : value s (xListEnd L) = Some portMAX_DELAY;
  la_in : forall x, x ∈ xs -> container s x = Some L
}.

(** The memory outside of a list and an item: what another list keeps. *)
Record frame (L : Z) (touched : list Z) (s s' : list_mem) : Prop := {
  fr_lists : forall L', L' <> L -> lists s' !! L' = lists s !! L';
  fr_links : forall x, x ∉ touched -> nx s' x = nx s x /\ pv s' x = pv s x /\ container s' x = container s x;
  fr_value : forall x, value s' x = value s x;
  fr_owner : forall x, owner s' x = owner s x;
  fr_live : forall x, is_Some (items s' !! x) <-> is_Some (items s !! x)
}.

Lemma ring_nodup (e : Z) (xs : list Z) : NoDup (e :: xs) -> NoDup (xs ++ [e]).
Proof.
  intros [He Hn]%NoDup_cons. apply NoDup_app. split_and!; [done| |apply NoDup_singleton].
  intros x Hx ->%list_elem_of_singleton. done.
Qed.

Lemma left_of_ring e xs1 xs2 : left_of e xs1 ∈ e :: xs1 ++ xs2.
Proof. pose proof (left_of_in e xs1) as [->|H]%elem_of_cons; [left|right]. apply elem_of_app. by left. Qed.

Lemma right_of_ring e xs1 xs2 : right_of xs2 e ∈ e :: xs1 ++ xs2.
Proof. pose proof (right_of_in xs2 e) as [H| ->%list_elem_of_singleton]%elem_of_app; [right|left]. apply elem_of_app. by right. Qed.

(** A splice of [n] into the ring. *)
Lemma list_at_insert s s' L xs1 xs2 idx n :
  list_at s L (xs1 ++ xs2) idx -> n ∉ xListEnd L :: xs1 ++ xs2 -> Z.of_nat (length (xs1 ++ xs2)) + 1 < 2 ^ 32 ->
  spliced L (left_of (xListEnd L) xs1) n (right_of xs2 (xListEnd L)) s s' ->
  lists s' = <[L := ListHdr (u32 (Z.of_nat (length (xs1 ++ xs2)) + 1)) idx]> (lists s) ->
  (forall x, is_Some (items s' !! x) <-> is_Some (items s !! x)) ->
  list_at s' L (xs1 ++ n :: xs2) idx /\ frame L (n :: xListEnd L :: xs1 ++ xs2) s s'.
Proof.
  intros [Hh Hb Hs Hd Hi He Hc] Hn Hlen Hsp Hl Hlive. pose proof (ring_nodup _ _ Hd) as Hd'. rewrite <- app_assoc in Hd'. split; [split|split].
  - rewrite Hl, lookup_insert_eq. do 2 f_equal. rewrite u32_small by lia. rewrite !length_app. cbn. lia.
  - revert Hlen. rewrite !length_app. cbn. lia.
  - eapply seg_insert; [exact Hsp|done|done| |done]. rewrite app_assoc. set_solver.
  - apply NoDup_cons. apply NoDup_cons in Hd as [Hd1 Hd2]. rewrite <- Permutation_middle. split; [set_solver|]. apply NoDup_cons. split; [set_solver|done].
  - rewrite <- Permutation_middle. set_solver.
  - by rewrite (sp_value _ _ _ _ _ _ Hsp).
  - intros x Hx. rewrite (sp_container _ _ _ _ _ _ Hsp). case_decide; [done|]. apply Hc. set_solver.
  - intros L' HL'. by rewrite Hl, lookup_insert_ne.
  - intros x Hx. pose proof (left_of_ring (xListEnd L) xs1 xs2). pose proof (right_of_ring (xListEnd L) xs1 xs2).
    rewrite (sp_nx _ _ _ _ _ _ Hsp), (sp_pv _ _ _ _ _ _ Hsp), (sp_container _ _ _ _ _ _ Hsp), !decide_False; [done|..]; set_solver.
  - apply Hsp.
  - apply Hsp.
  - done.
Qed.

(** Where the index is, the ring is cut in two. *)
Lemma index_split s L xs idx :
  list_at s L xs idx -> exists xs1 xs2, xs = xs1 ++ xs2 /\ right_of xs2 (xListEnd L) = idx /\ (idx = xListEnd L -> xs2 = []).
Proof.
  intros H. pose proof (la_index _ _ _ _ H) as [->|Hi]%elem_of_cons; [exists xs, []; by rewrite app_nil_r|].
  apply list_elem_of_split in Hi as (l1 & l2 & ->). exists l1, (idx :: l2). split_and!; [done|done|].
  intros ->. pose proof (la_nodup _ _ _ _ H) as [Hn _]%NoDup_cons. set_solver.
Qed.

Lemma insert_end_spec s L xs1 xs2 idx n :
  list_at s L (xs1 ++ xs2) idx -> right_of xs2 (xListEnd L) = idx -> n ∉ xListEnd L :: xs1 ++ xs2 -> is_Some (items s !! n) ->
  Z.of_nat (length (xs1 ++ xs2)) + 1 < 2 ^ 32 ->
  wp (vListInsertEnd L n) (fun _ s' => list_at s' L (xs1 ++ n :: xs2) idx /\ frame L (n :: xListEnd L :: xs1 ++ xs2) s s') s.
Proof.
  intros Hat Hidx Hn Hlive Hlen. pose proof Hat as [Hh _ Hs _ _ _ _]. destruct (seg_gap _ _ _ _ _ Hs) as [Hnx Hpv].
  set (a := left_of (xListEnd L) xs1) in *. rewrite Hidx in *.
  assert (Hni : n <> idx) by (rewrite <- Hidx; intros ->; apply Hn, right_of_ring).
  assert (Hna : n <> a) by (intros ->; apply Hn, left_of_ring).
  unfold vListInsertEnd. apply wp_bind. eapply wp_list; [exact Hh|]. cbn [pxIndex].
  apply wp_bind, wp_put_next; [done|]. intros s1 (P1 & ? & ? & ? & ?). apply wp_bind.
  eapply wp_item_prev; [chase; exact Hpv|]. intros i1 Hi1 ->.
  apply wp_bind, wp_put_previous; [by chase|]. intros s2 (P2 & ? & ? & ? & ?). apply wp_bind.
  eapply wp_item_prev; [chase; by rewrite decide_False|]. intros i2 Hi2 ->.
  apply wp_bind, wp_put_next; [chase; by eapply live_nx|]. intros s3 (P3 & ? & ? & ? & ?).
  apply wp_bind, wp_put_previous; [chase; by eapply live_pv|]. intros s4 (P4 & ? & ? & ? & ?).
  apply wp_bind, wp_put_container; [by chase|]. intros s5 (P5 & ? & ? & ? & ?).
  eapply wp_set_list; [chase; exact Hh|]. cbn [uxNumberOfItems pxIndex set_count].
  apply list_at_insert; [done|done|done| | |].
  - rewrite Hidx. apply spliced_hdr. split; intros x; chase; repeat case_decide; simplify_eq; done.
  - cbn [lists]. by chase.
  - intros x. cbn [items]. by chase.
Qed.

(** ** Insertion in order *)

Definition key (s : list_mem) (x : Z) : Z := default 0 (value s x).

(** The reference: after the items that are not greater. *)
Fixpoint sorted_insert (f : Z -> Z) (n : Z) (xs : list Z) : list Z :=
  match xs with
  | [] => [n]
  | x :: xs => if f x <=? f n then x :: sorted_insert f n xs else n :: x :: xs
  end.

(** Item values are 32-bit words. *)
Definition values_ok (s : list_mem) : Prop := forall x v, value s x = Some v -> 0 <= v <= portMAX_DELAY.

Lemma key_of s x v : value s x = Some v -> key s x = v.
Proof. unfold key. by intros ->. Qed.

Lemma live_value s x : is_Some (items s !! x) -> value s x = Some (key s x).
Proof. intros [i Hi]. unfold key, value. by rewrite Hi. Qed.

Lemma seg_live s u xs v x : seg s u xs v -> x ∈ u :: xs ++ [v] -> is_Some (items s !! x).
Proof.
  revert u. induction xs as [|y xs IH]; intros u; cbn [seg app].
  - intros [H1 H2] Hx. assert (x = u \/ x = v) as [->| ->] by set_solver; [by eapply live_nx|by eapply live_pv].
  - intros (H1 & H2 & H3) [->|Hx]%elem_of_cons; [by eapply live_nx|by eapply IH].
Qed.

Lemma sorted_insert_last f n xs : (forall x, x ∈ xs -> f x <= f n) -> sorted_insert f n xs = xs ++ [n].
Proof.
  induction xs as [|x xs IH]; intros H; cbn; [done|]. destruct (Z.leb_spec (f x) (f n)) as [_|Hlt].
  - f_equal. apply IH. intros y Hy. apply H. by right.
  - specialize (H x (list_elem_of_here _ _)). lia.
Qed.

Lemma find_place_spec s L v n xs fuel pre rest idx :
  list_at s L xs idx -> values_ok s -> key s n = v -> 0 <= v < portMAX_DELAY -> xs = pre ++ rest -> (length rest < fuel)%nat ->
  wp (find_place fuel (left_of (xListEnd L) pre) v)
     (fun r s' => s' = s /\ exists m1 m2, rest = m1 ++ m2 /\ r = left_of (xListEnd L) (pre ++ m1) /\ sorted_insert (key s) n rest = m1 ++ n :: m2) s.
Proof.
  intros Hat Hok Hv Hlt. revert fuel pre. induction rest as [|y rest IH]; intros fuel pre -> Hf; (destruct fuel as [|fuel]; [cbn in Hf; lia|]).
  all: pose proof Hat as [_ _ Hs _ _ He _]; destruct (seg_gap _ _ _ _ _ Hs) as [Hnx _]; cbn [find_place].
  all: apply wp_bind; eapply wp_item_next; [exact Hnx|]; intros i Hi ->; apply wp_bind; cbn [right_of head default from_option id].
  - assert (Hl : is_Some (items s !! xListEnd L)) by (eapply seg_live; [exact Hs|left]). destruct Hl as [j Hj].
    eapply wp_item; [exact Hj|]. assert (E : xItemValue j = portMAX_DELAY) by (unfold value in He; rewrite Hj in He; by injection He).
    rewrite E. destruct (Z.leb_spec portMAX_DELAY v) as [?|_]; [lia|]. apply wp_ret. split; [done|]. exists [], []. split_and!; [done|by rewrite (app_nil_r pre)|done].
  - assert (Hl : is_Some (items s !! y)) by (eapply seg_live; [exact Hs|]; set_solver). destruct Hl as [j Hj].
    eapply wp_item; [exact Hj|]. assert (E : key s y = xItemValue j) by (apply key_of; unfold value; by rewrite Hj).
    cbn [sorted_insert]. rewrite Hv, E. destruct (Z.leb_spec (xItemValue j) v) as [_|_].
    + assert (El : y = left_of (xListEnd L) (pre ++ [y])) by (unfold left_of; by rewrite last_snoc).
      rewrite El at 1. eapply wp_mono; [apply IH; [by rewrite <- app_assoc|cbn in Hf; lia]|].
      intros r s' (-> & m1 & m2 & -> & -> & ->). split; [done|]. exists (y :: m1), m2. split_and!; [done| |done]. by rewrite <- app_assoc.
    + apply wp_ret. split; [done|]. exists [], (y :: rest). split_and!; [done|by rewrite (app_nil_r pre)|done].
Qed.

Lemma list_insert_spec fuel s L xs idx n :
  list_at s L xs idx -> values_ok s -> n ∉ xListEnd L :: xs -> is_Some (items s !! n) ->
  Z.of_nat (length xs) + 1 < 2 ^ 32 -> (length xs < fuel)%nat ->
  wp (vListInsert fuel L n) (fun _ s' => list_at s' L (sorted_insert (key s) n xs) idx /\ frame L (n :: xListEnd L :: xs) s s') s.
Proof.
  intros Hat Hok Hn Hlive Hlen Hf. pose proof Hat as [Hh _ Hs _ _ _ _].
  pose proof (live_value _ _ Hlive) as Hv. pose proof (Hok _ _ Hv) as Hr. destruct Hlive as [ni Hni].
  assert (Ev : xItemValue ni = key s n) by (symmetry; apply key_of; unfold value; by rewrite Hni).
  unfold vListInsert. apply wp_bind. eapply wp_item; [exact Hni|]. cbn zeta. rewrite Ev. apply wp_bind.
  apply (wp_mono _ (fun r s' => s' = s /\ exists m1 m2, xs = m1 ++ m2 /\ r = left_of (xListEnd L) m1 /\ sorted_insert (key s) n xs = m1 ++ n :: m2)).
  { destruct (Z.eqb_spec (key s n) portMAX_DELAY) as [E|E].
    - rewrite <- (app_nil_r xs) in Hs. destruct (seg_gap _ _ _ _ _ Hs) as [_ Hpv]. cbn in Hpv. apply wp_bind.
      unfold pv in Hpv. apply fmap_Some in Hpv as (e & He & Ep). eapply wp_item; [exact He|]. apply wp_ret. split; [done|].
      exists xs, []. split_and!; [by rewrite app_nil_r|done|]. apply sorted_insert_last. intros x Hx. rewrite E.
      assert (Hl : is_Some (items s !! x)) by (eapply seg_live; [exact Hs|]; set_solver). apply live_value, Hok in Hl. lia.
    - apply (find_place_spec s L (key s n) n xs fuel [] xs idx); try done. lia. }
  intros r s' (-> & xs1 & xs2 & -> & -> & ->). destruct (seg_gap _ _ _ _ _ Hs) as [Hnx Hpv].
  pose proof (left_of_ring (xListEnd L) xs1 xs2) as Hla. pose proof (right_of_ring (xListEnd L) xs1 xs2) as Hrb.
  set (a := left_of (xListEnd L) xs1) in *. set (b := right_of xs2 (xListEnd L)) in *.
  assert (Hna : n <> a) by (by intros ->). assert (Hnb : n <> b) by (by intros ->).
  apply wp_bind. eapply wp_item_next; [exact Hnx|]. intros ia Hia Eb. rewrite Eb.
  apply wp_bind, wp_put_next; [by exists ni|]. intros s1 (P1 & ? & ? & ? & ?). apply wp_bind.
  eapply wp_item_next; [chase; by rewrite decide_True|]. intros i1 Hi1 Eb1. rewrite Eb1.
  apply wp_bind, wp_put_previous; [chase; by eapply live_pv|]. intros s2 (P2 & ? & ? & ? & ?).
  apply wp_bind, wp_put_previous; [chase; by exists ni|]. intros s3 (P3 & ? & ? & ? & ?).
  apply wp_bind, wp_put_next; [chase; by eapply live_nx|]. intros s4 (P4 & ? & ? & ? & ?).
  apply wp_bind, wp_put_container; [chase; by exists ni|]. intros s5 (P5 & ? & ? & ? & ?).
  eapply wp_set_list; [chase; exact Hh|]. cbn [uxNumberOfItems pxIndex set_count].
  apply list_at_insert; [done|done|done| | |].
  - apply spliced_hdr. split; intros x; chase; fold a b; repeat case_decide; simplify_eq; done.
  - cbn [lists]. by chase.
  - intros x. cbn [items]. by chase.
Qed.

(** ** Removal *)

Lemma unlinked_hdr a n b s s' l : unlinked a n b s s' -> unlinked a n b s (ListMem (items s') l).
Proof. by intros [H1 H2 H3 H4 H5]. Qed.

(** The index when [n] goes: back to the item before it. *)
Definition index_without (L n : Z) (xs1 : list Z) (idx : Z) : Z := if idx =? n then left_of (xListEnd L) xs1 else idx.

Lemma removal_gap s L xs1 xs2 idx n :
  list_at s L (xs1 ++ n :: xs2) idx ->
  let a := left_of (xListEnd L) xs1 in let b := right_of xs2 (xListEnd L) in
  nx s n = Some b /\ pv s n = Some a /\ is_Some (items s !! a) /\ is_Some (items s !! b) /\ n <> a /\ n <> b.
Proof.
  intros [_ _ Hs Hd _ _ _] a b. apply seg_app in Hs as [Hs1 Hs2].
  rewrite <- (app_nil_r xs1) in Hs1. destruct (seg_gap _ _ _ _ _ Hs1) as [Hnx1 Hpv1]. destruct (seg_gap _ _ [] _ _ Hs2) as [Hnx2 Hpv2].
  assert (Hn : n ∉ xListEnd L :: xs1 ++ xs2) by (rewrite <- Permutation_middle in Hd; apply NoDup_cons in Hd as [H1 [H2 _]%NoDup_cons]; set_solver).
  split_and!; [exact Hnx2|exact Hpv1|by eapply live_nx|by eapply live_pv|intros E; apply Hn; rewrite E..].
  - apply left_of_ring.
  - apply right_of_ring.
Qed.

Lemma list_at_remove s s' L xs1 xs2 idx n :
  list_at s L (xs1 ++ n :: xs2) idx ->
  unlinked (left_of (xListEnd L) xs1) n (right_of xs2 (xListEnd L)) s s' ->
  lists s' !! L = Some (ListHdr (u32 (Z.of_nat (length (xs1 ++ n :: xs2)) - 1)) (index_without L n xs1 idx)) ->
  (forall L', L' <> L -> lists s' !! L' = lists s !! L') ->
  (forall x, is_Some (items s' !! x) <-> is_Some (items s !! x)) ->
  list_at s' L (xs1 ++ xs2) (index_without L n xs1 idx) /\ frame L (xListEnd L :: xs1 ++ n :: xs2) s s'.
Proof.
  intros [Hh Hb Hs Hd Hi He Hc] Hun Hl Hl' Hlive. pose proof (ring_nodup _ _ Hd) as Hd'. rewrite <- app_assoc in Hd'. cbn in Hd'.
  assert (Hp : xs1 ++ n :: xs2 ≡ₚ n :: xs1 ++ xs2) by (by rewrite Permutation_middle).
  assert (Hlen : length (xs1 ++ n :: xs2) = S (length (xs1 ++ xs2))) by (by rewrite Hp).
  assert (Hn : n <> xListEnd L /\ n ∉ xs1 ++ xs2) by (rewrite Hp in Hd; apply NoDup_cons in Hd as [H1 [H2 _]%NoDup_cons]; set_solver).
  split; [split|split].
  - rewrite Hl, u32_small, Hlen; [|lia]. do 2 f_equal. lia.
  - lia.
  - by eapply seg_remove.
  - rewrite Hp in Hd. apply NoDup_cons in Hd as [H1 [H2 H3]%NoDup_cons]. apply NoDup_cons. split; [set_solver|done].
  - unfold index_without. destruct (Z.eqb_spec idx n); [apply left_of_ring|]. rewrite Hp in Hi. set_solver.
  - by rewrite (un_value _ _ _ _ _ Hun).
  - intros x Hx. rewrite (un_container _ _ _ _ _ Hun), decide_False by set_solver. apply Hc. rewrite Hp. by right.
  - done.
  - intros x Hx. pose proof (left_of_ring (xListEnd L) xs1 xs2) as Ha. pose proof (right_of_ring (xListEnd L) xs1 xs2) as Hr. rewrite Hp in Hx.
    rewrite (un_nx _ _ _ _ _ Hun), (un_pv _ _ _ _ _ Hun), (un_container _ _ _ _ _ Hun), !decide_False; [done|..]; set_solver.
  - apply Hun.
  - apply Hun.
  - done.
Qed.

Lemma remove_spec s L xs1 xs2 idx n :
  list_at s L (xs1 ++ n :: xs2) idx ->
  wp (uxListRemove n)
     (fun r s' => r = Z.of_nat (length (xs1 ++ xs2)) /\ list_at s' L (xs1 ++ xs2) (index_without L n xs1 idx)
                  /\ container s' n = Some 0 /\ frame L (xListEnd L :: xs1 ++ n :: xs2) s s') s.
Proof.
  intros Hat. pose proof Hat as [Hh Hb Hs _ _ _ Hc]. destruct (removal_gap _ _ _ _ _ _ Hat) as (Hnx & Hpv & Hla & Hlb & Hna & Hnb).
  assert (Hlen : length (xs1 ++ n :: xs2) = S (length (xs1 ++ xs2))) by (rewrite !length_app; cbn; lia).
  set (a := left_of (xListEnd L) xs1) in *. set (b := right_of xs2 (xListEnd L)) in *.
  unfold uxListRemove. apply wp_bind. eapply wp_item_links; [exact Hnx|exact Hpv|]. intros i Hi -> ->.
  assert (Ec : pvContainer i = L) by (pose proof (Hc n ltac:(set_solver)) as E; unfold container in E; rewrite Hi in E; by injection E).
  rewrite Ec. cbn zeta. apply wp_bind, wp_put_previous; [done|]. intros s1 (P1 & ? & ? & ? & ?). apply wp_bind.
  eapply wp_item_links; [chase; exact Hnx|chase; by rewrite decide_False|]. intros i1 Hi1 -> ->.
  apply wp_bind, wp_put_next; [by chase|]. intros s2 (P2 & ? & ? & ? & ?). apply wp_bind.
  eapply wp_list; [chase; exact Hh|]. cbn [pxIndex]. apply wp_bind.
  apply (wp_mono _ (fun _ s' => items s' = items s2 /\ lists s' = <[L := ListHdr (Z.of_nat (length (xs1 ++ n :: xs2))) (index_without L n xs1 idx)]> (lists s))).
  { unfold index_without. destruct (idx =? n).
    - apply wp_bind. eapply wp_item_links; [chase; by rewrite decide_False|chase; by rewrite decide_False|]. intros i2 Hi2 _ ->.
      eapply wp_set_list; [chase; exact Hh|]. cbn. by chase.
    - apply wp_ret. chase. by rewrite insert_id. }
  intros [] s3 [Ei El]. apply wp_bind, wp_put_container; [rewrite Ei; chase; by exists i|]. intros s4 (P4 & S1 & S2 & S3 & S4).
  destruct (of_items _ _ Ei) as (? & ? & ? & ? & ? & Hl3).
  assert (Ell : lists s4 !! L = Some (ListHdr (Z.of_nat (length (xs1 ++ n :: xs2))) (index_without L n xs1 idx))).
  { chase. rewrite El. apply lookup_insert_eq. }
  apply wp_bind. eapply wp_set_list; [exact Ell|]. apply wp_bind. eapply wp_list; [cbn [lists]; apply lookup_insert_eq|]. apply wp_ret.
  cbn [uxNumberOfItems set_count pxIndex]. split; [rewrite u32_small, Hlen by lia; lia|].
  assert (Hun : unlinked a n b s s4) by (split; intros x; chase; fold a b; repeat case_decide; simplify_eq; done).
  destruct (list_at_remove s (ListMem (items s4) (<[L := ListHdr (u32 (Z.of_nat (length (xs1 ++ n :: xs2)) - 1)) (index_without L n xs1 idx)]> (lists s4))) L xs1 xs2 idx n)
    as [Hg1 Hg2]; [done|by apply unlinked_hdr|apply lookup_insert_eq| | |].
  - intros L' HL'. cbn [lists]. rewrite lookup_insert_ne by done. chase. by rewrite El, lookup_insert_ne.
  - intros x. cbn [items]. chase. rewrite Hl3. by chase.
  - split_and!; [exact Hg1| |exact Hg2]. change (container s4 n = Some 0). chase. by rewrite decide_True.
Qed.

(** ** Initialisation *)

Lemma initialise_spec s L h :
  lists s !! L = Some h -> is_Some (items s !! xListEnd L) ->
  wp (vListInitialise L) (fun _ s' => list_at s' L [] (xListEnd L)) s.
Proof.
  intros Hh Hl. unfold vListInitialise. apply wp_bind. eapply wp_set_list; [exact Hh|].
  apply wp_bind, wp_put_value; [done|]. intros s1 (P1 & ? & ? & ? & ?).
  apply wp_bind, wp_put_next; [by chase|]. intros s2 (P2 & ? & ? & ? & ?).
  apply wp_bind, wp_put_previous; [by chase|]. intros s3 (P3 & ? & ? & ? & ?).
  eapply wp_set_list; [chase; apply lookup_insert_eq|]. split; cbn [lists length set_count seg].
  - by rewrite lookup_insert_eq.
  - lia.
  - change (nx s3 (xListEnd L) = Some (xListEnd L) /\ pv s3 (xListEnd L) = Some (xListEnd L)). chase. by rewrite !decide_True.
  - apply NoDup_singleton.
  - left.
  - change (value s3 (xListEnd L) = Some portMAX_DELAY). chase. by rewrite decide_True.
  - intros x Hx. set_solver.
Qed.

(** A list that has none of the touched items is untouched. *)
Lemma list_at_frame s s' L touched L' xs idx :
  frame L touched s s' -> L' <> L -> (forall x, x ∈ xListEnd L' :: xs -> x ∉ touched) -> list_at s L' xs idx -> list_at s' L' xs idx.
Proof.
  intros [Fl Fx Fv Fo Fi] HL Hx [Hh Hb Hs Hd Hi He Hc]. split; try done.
  - by rewrite Fl.
  - eapply seg_frame; [| |exact Hs]; intros x Hin; apply (Fx x), Hx; set_solver.
  - by rewrite Fv.
  - intros x Hin. rewrite (proj2 (proj2 (Fx x ltac:(apply Hx; by right)))). by apply Hc.
Qed.

(** ** The walk of the index *)

(** The items in the order in which the next calls of
    [listGET_OWNER_OF_NEXT_ENTRY] come to them. *)
Definition visits (idx : Z) (xs : list Z) : list Z :=
  match list_find (fun x => x = idx) xs with
  | Some (k, _) => drop (S k) xs ++ take (S k) xs
  | None => xs
  end.

Lemma visits_end (e : Z) (xs : list Z) : e ∉ xs -> visits e xs = xs.
Proof.
  intros H. unfold visits. destruct (list_find _ xs) as [[k y]|] eqn:E; [|done].
  apply list_find_Some in E as (Hk & -> & _). by apply list_elem_of_lookup_2 in Hk.
Qed.

Lemma visits_at (l1 l2 : list Z) (idx : Z) : idx ∉ l1 -> visits idx (l1 ++ idx :: l2) = l2 ++ l1 ++ [idx].
Proof.
  intros H. assert (E : list_find (fun x => x = idx) (l1 ++ idx :: l2) = Some (length l1, idx)).
  { apply list_find_Some. split_and!; [by apply list_lookup_middle|done|]. intros j y Hj Hlt ->.
    rewrite lookup_app_l in Hj by done. by apply list_elem_of_lookup_2 in Hj. }
  unfold visits. rewrite E, cons_middle, app_assoc, drop_app_length', take_app_length' by (rewrite length_app; cbn; lia). done.
Qed.

Lemma visits_head (x : Z) (q : list Z) : visits x (x :: q) = q ++ [x].
Proof. apply (visits_at [] q x). set_solver. Qed.

Lemma visits_perm (idx : Z) (xs : list Z) : visits idx xs ≡ₚ xs.
Proof. unfold visits. destruct (list_find _ xs) as [[k y]|]; [|done]. by rewrite Permutation_app_comm, take_drop. Qed.

(** The two positions of the index. *)
Lemma index_cases s L xs idx :
  list_at s L xs idx -> xListEnd L ∉ xs /\ (idx = xListEnd L \/ exists l1 l2, xs = (l1 ++ idx :: l2) /\ idx ∉ l1 /\ idx ∉ l2 /\ idx <> xListEnd L).
Proof.
  intros H. pose proof (la_nodup _ _ _ _ H) as [He Hd]%NoDup_cons. split; [done|].
  pose proof (la_index _ _ _ _ H) as [->|Hi]%elem_of_cons; [by left|right].
  apply list_elem_of_split in Hi as (l1 & l2 & ->). exists l1, l2. apply NoDup_app in Hd as (_ & Hd & [Hd2 _]%NoDup_cons).
  split_and!; [done| |done|set_solver]. intros Hin. apply (Hd idx Hin). left.
Qed.

(** The item after the index, past the marker. *)
Lemma next_of_index s L xs idx x q :
  list_at s L xs idx -> visits idx xs = x :: q ->
  x ∈ xs /\ visits x xs = q ++ [x]
  /\ (nx s idx = Some x /\ x <> xListEnd L \/ nx s idx = Some (xListEnd L) /\ nx s (xListEnd L) = Some x).
Proof.
  intros Hat Hv. pose proof (la_seg _ _ _ _ Hat) as Hs. destruct (index_cases _ _ _ _ Hat) as [He [->|(l1 & l2 & -> & H1 & H2 & H3)]].
  - rewrite visits_end in Hv by done. subst xs. split; [left|]. split; [apply visits_head|left]. split; [apply Hs|set_solver].
  - rewrite visits_at in Hv by done. pose proof (la_nodup _ _ _ _ Hat) as [_ Hd]%NoDup_cons.
    apply seg_app in Hs as [Hs1 Hs2]. destruct l2 as [|y l2]; cbn [app] in Hv.
    + destruct l1 as [|y l1]; injection Hv as <- <-; cbn [app seg] in *.
      * split; [left|]. split; [apply visits_head|right; tauto].
      * split; [left|]. split; [|right; tauto]. rewrite visits_head. by rewrite <- app_assoc.
    + injection Hv as <- <-. split; [set_solver|]. split.
      * change (idx :: y :: l2) with ([idx] ++ y :: l2). rewrite app_assoc, visits_at, <- app_assoc; [by rewrite <- !app_assoc|].
        rewrite cons_middle, app_assoc in Hd. apply NoDup_app in Hd as (_ & Hd & _). intros Hin. apply (Hd y Hin). left.
      * left. split; [apply Hs2|set_solver].
Qed.

Lemma wp_next_owner s L xs idx x q :
  list_at s L xs idx -> visits idx xs = x :: q ->
  wp (listGET_OWNER_OF_NEXT_ENTRY L)
     (fun r s' => Some r = owner s x /\ items s' = items s /\ list_at s' L xs x /\ frame L [] s s') s.
Proof.
  intros Hat Hv. destruct (next_of_index _ _ _ _ _ _ Hat Hv) as (Hx & Hr & Hn). pose proof Hat as [Hh Hb Hs Hd Hi He Hc].
  assert (Hlx : is_Some (items s !! x)) by (eapply seg_live; [exact Hs|set_solver]). destruct Hlx as [ix Hix].
  assert (Hfin : forall l, lists l !! L = Some (ListHdr (Z.of_nat (length xs)) x) -> items l = items s ->
            (forall L', L' <> L -> lists l !! L' = lists s !! L') ->
            Some (pvOwner ix) = owner s x /\ items l = items s /\ list_at l L xs x /\ frame L [] s l).
  { intros l E1 E2 E3. destruct (of_items _ _ E2) as (F1 & F2 & F3 & F4 & F5 & F6).
    split; [unfold owner; by rewrite Hix|]. split; [done|]. split; [|by split; auto].
    split; try done; [|by right|by rewrite F3|intros y Hy; rewrite F5; auto]. eapply seg_frame; [| |exact Hs]; intros y _; [apply F1|apply F2]. }
  unfold listGET_OWNER_OF_NEXT_ENTRY. apply wp_bind. eapply wp_list; [exact Hh|]. cbn [pxIndex]. apply wp_bind.
  destruct Hn as [[Hn Hne]|[Hn Hn']]; (eapply wp_item_next; [exact Hn|]); intros i _ ->.
  all: apply wp_bind; eapply wp_set_list; [exact Hh|]; apply wp_bind; eapply wp_list; [apply lookup_insert_eq|]; cbn [pxIndex set_index uxNumberOfItems].
  - destruct (Z.eqb_spec x (xListEnd L)); [done|]. apply wp_bind, wp_ret, wp_bind. eapply wp_list; [apply lookup_insert_eq|]. cbn [pxIndex set_index uxNumberOfItems].
    apply wp_bind. eapply wp_item; [exact Hix|]. apply wp_ret. apply Hfin; [apply lookup_insert_eq|done|]. intros L' HL'. cbn. by rewrite lookup_insert_ne.
  - rewrite Z.eqb_refl. do 2 apply wp_bind. eapply wp_item_next; [exact Hn'|]. intros j _ ->.
    eapply wp_set_list; [apply lookup_insert_eq|]. apply wp_bind. eapply wp_list; [apply lookup_insert_eq|]. cbn [pxIndex set_index uxNumberOfItems].
    apply wp_bind. eapply wp_item; [exact Hix|]. apply wp_ret. apply Hfin; [apply lookup_insert_eq|done|]. intros L' HL'. cbn. by rewrite !lookup_insert_ne.
Qed.

(** ** The abstract list *)

Inductive list_op : Type := OpInsert (n : Z) | OpInsertEnd (n : Z) | OpRemove (n : Z) | OpNext.

Definition run_op (fuel : nat) (L : Z) (o : list_op) : M list_mem (option Z) :=
  match o with
  | OpInsert n => vListInsert fuel L n;; mret None
  | OpInsertEnd n => vListInsertEnd L n;; mret None
  | OpRemove n => r ← uxListRemove n; mret (Some r)
  | OpNext => r ← listGET_OWNER_OF_NEXT_ENTRY L; mret (Some r)
  end.

Fixpoint run_ops (fuel : nat) (L : Z) (os : list list_op) : M list_mem (list (option Z)) :=
  match os with
  | [] => mret []
  | o :: os => r ← run_op fuel L o; rs ← run_ops fuel L os; mret (r :: rs)
  end.

(** The item [n] just before [i], or at the end. *)
Fixpoint insert_before (i n : Z) (xs : list Z) : list Z :=
  match xs with [] => [n] | x :: xs => if x =? i then n :: x :: xs else x :: insert_before i n xs end.

(** The item before [n]; the marker [e] when [n] is first. *)
Fixpoint item_before (e n : Z) (xs : list Z) : Z :=
  match xs with [] => e | x :: xs => if x =? n then e else item_before x n xs end.

Record abs_list : Type := AbsList { seq : list Z; here : Z }.

(** [value] and [owner] of the items are fixed; [e] is the marker. *)
Definition abs_op (f own : Z -> Z) (e : Z) (o : list_op) (a : abs_list) : option (abs_list * option Z) :=
  match o with
  | OpInsert n => if bool_decide (n ∈ e :: seq a) then None else Some (AbsList (sorted_insert f n (seq a)) (here a), None)
  | OpInsertEnd n => if bool_decide (n ∈ e :: seq a) then None else Some (AbsList (insert_before (here a) n (seq a)) (here a), None)
  | OpRemove n =>
      if bool_decide (n ∈ seq a)
      then Some (AbsList (filter (fun x => x <> n) (seq a)) (if here a =? n then item_before e n (seq a) else here a), Some (Z.of_nat (length (seq a)) - 1))
      else None
  | OpNext => match visits (here a) (seq a) with [] => None | x :: _ => Some (AbsList (seq a) x, Some (own x)) end
  end.

Fixpoint abs_ops (f own : Z -> Z) (e : Z) (os : list list_op) (a : abs_list) : option (abs_list * list (option Z)) :=
  match os with
  | [] => Some (a, [])
  | o :: os =>
      match abs_op f own e o a with
      | None => None
      | Some (a, r) => match abs_ops f own e os a with None => None | Some (a, rs) => Some (a, r :: rs) end
      end
  end.

Definition op_items (o : list_op) : list Z :=
  match o with OpInsert n | OpInsertEnd n | OpRemove n => [n] | OpNext => [] end.

Definition owner_of (s : list_mem) (x : Z) : Z := default 0 (owner s x).

Lemma insert_before_split (i n : Z) xs1 xs2 : i ∉ xs1 -> head xs2 = Some i \/ xs2 = [] -> insert_before i n (xs1 ++ xs2) = xs1 ++ n :: xs2.
Proof.
  induction xs1 as [|x xs1 IH]; intros Hi Hh; cbn.
  - destruct Hh as [Hh| ->]; [|done]. destruct xs2 as [|y xs2]; [done|]. injection Hh as ->. cbn. by rewrite Z.eqb_refl.
  - destruct (Z.eqb_spec x i); [set_solver|]. f_equal. apply IH; [set_solver|done].
Qed.

Lemma item_before_split (e n : Z) xs1 xs2 : n ∉ xs1 -> item_before e n (xs1 ++ n :: xs2) = left_of e xs1.
Proof.
  revert e. induction xs1 as [|x xs1 IH]; intros e Hn; cbn; [by rewrite Z.eqb_refl|].
  destruct (Z.eqb_spec x n); [set_solver|]. rewrite IH by set_solver. by rewrite left_of_cons.
Qed.

Lemma filter_notin (n : Z) (xs : list Z) : n ∉ xs -> filter (fun x => x <> n) xs = xs.
Proof. induction xs as [|x xs IH]; intros H; [done|]. rewrite filter_cons_True by set_solver. f_equal. apply IH. set_solver. Qed.

Lemma filter_without (n : Z) (xs1 xs2 : list Z) : n ∉ xs1 -> n ∉ xs2 -> filter (fun x => x <> n) (xs1 ++ n :: xs2) = xs1 ++ xs2.
Proof.
  intros H1 H2. rewrite filter_app, filter_cons_False by (intros []; done).
  by rewrite !filter_notin.
Qed.

Lemma insert_end_before s L xs idx n :
  list_at s L xs idx -> n ∉ xListEnd L :: xs -> is_Some (items s !! n) -> Z.of_nat (length xs) + 1 < 2 ^ 32 ->
  wp (vListInsertEnd L n) (fun _ s' => list_at s' L (insert_before idx n xs) idx /\ frame L (n :: xListEnd L :: xs) s s') s.
Proof.
  intros Hat Hn Hl Hlen. pose proof (la_nodup _ _ _ _ Hat) as [He Hd]%NoDup_cons. destruct (index_split _ _ _ _ Hat) as (xs1 & xs2 & -> & Hi & Hx).
  rewrite insert_before_split; [by apply insert_end_spec| |].
  - destruct xs2 as [|y xs2]; [cbn in Hi; subst; by rewrite app_nil_r in He|]. cbn in Hi. subst y. intros Hin.
    apply NoDup_app in Hd as (_ & Hd & _). apply (Hd idx Hin). left.
  - destruct xs2 as [|y xs2]; [by right|left]. cbn in Hi |- *. by subst.
Qed.

(** What one operation needs of the memory. *)
Record op_ready (s : list_mem) (L : Z) (fuel : nat) (a : abs_list) (o : list_op) : Prop := {
  or_values : values_ok s;
  or_live : Forall (fun n => is_Some (items s !! n)) (op_items o);
  or_len : Z.of_nat (length (seq a)) + 1 < 2 ^ 32;
  or_fuel : (length (seq a) < fuel)%nat
}.

Lemma run_op_spec s L fuel a o a' r :
  list_at s L (seq a) (here a) -> op_ready s L fuel a o -> abs_op (key s) (owner_of s) (xListEnd L) o a = Some (a', r) ->
  wp (run_op fuel L o) (fun r' s' => r' = r /\ list_at s' L (seq a') (here a') /\ frame L (op_items o ++ xListEnd L :: seq a) s s') s.
Proof.
  intros Hat [Hok Hlive Hlen Hf] E. destruct a as [xs idx]. cbn [seq here] in *. pose proof (la_nodup _ _ _ _ Hat) as [He Hd]%NoDup_cons.
  destruct o as [n|n|n|]; cbn [abs_op run_op op_items seq here] in *; try (apply Forall_cons in Hlive as [Hlive _]).
  - case_bool_decide; [done|]. injection E as <- <-. apply wp_bind. eapply wp_mono; [by apply list_insert_spec|]. intros _ s' [H1 H2]. by apply wp_ret.
  - case_bool_decide; [done|]. injection E as <- <-. apply wp_bind. eapply wp_mono; [by apply insert_end_before|]. intros _ s' [H1 H2]. by apply wp_ret.
  - case_bool_decide as Hn; [|done]. injection E as <- <-. apply list_elem_of_split in Hn as (xs1 & xs2 & ->).
    apply NoDup_app in Hd as (_ & Hd1 & [Hd2 _]%NoDup_cons). assert (n ∉ xs1) by (intros Hin; apply (Hd1 n Hin); left).
    apply wp_bind. eapply wp_mono; [by apply remove_spec|]. intros r s' (-> & H1 & H2 & H3). apply wp_ret. cbn [seq here].
    rewrite item_before_split, filter_without by done. split_and!; [|exact H1|].
    + f_equal. rewrite !length_app. cbn. lia.
    + split; try apply H3. intros x Hx. apply H3. set_solver.
  - destruct (visits idx xs) as [|x q] eqn:Ev; [done|]. injection E as <- <-. apply wp_bind.
    eapply wp_mono; [by eapply wp_next_owner|]. intros r s' (H1 & H2 & H3 & H4). apply wp_ret. cbn [seq here]. split_and!; [|exact H3|].
    + unfold owner_of. by rewrite <- H1.
    + split; try apply H4. intros y _. apply H4. set_solver.
Qed.

Lemma sorted_insert_perm f n xs : sorted_insert f n xs ≡ₚ n :: xs.
Proof. induction xs as [|x xs IH]; cbn; [done|]. destruct (f x <=? f n); [|done]. rewrite IH. apply Permutation_swap. Qed.

Lemma insert_before_perm i n xs : insert_before i n xs ≡ₚ n :: xs.
Proof. induction xs as [|x xs IH]; cbn; [done|]. destruct (x =? i); [done|]. rewrite IH. apply Permutation_swap. Qed.

(** One operation adds at most its own item. *)
Lemma abs_op_grows f own e o a a' r :
  abs_op f own e o a = Some (a', r) -> (length (seq a') <= S (length (seq a)))%nat /\ forall x, x ∈ seq a' -> x ∈ op_items o ++ seq a.
Proof.
  destruct o as [n|n|n|]; cbn [abs_op op_items].
  - case_bool_decide; [done|]. intros [= <- <-]. cbn [seq]. split; [by rewrite sorted_insert_perm|intros x; by rewrite sorted_insert_perm].
  - case_bool_decide; [done|]. intros [= <- <-]. cbn [seq]. split; [by rewrite insert_before_perm|intros x; by rewrite insert_before_perm].
  - case_bool_decide; [|done]. intros [= <- <-]. cbn [seq]. split; [pose proof (length_filter (fun x => x <> n) (seq a)); lia|].
    intros x [_ Hx]%list_elem_of_filter. by right.
  - destruct (visits _ _); [done|]. intros [= <- <-]. cbn [seq]. split; [lia|done].
Qed.

Lemma sorted_insert_ext f g n xs : (forall x, f x = g x) -> sorted_insert f n xs = sorted_insert g n xs.
Proof. intros E. induction xs as [|x xs IH]; cbn; [done|]. by rewrite !E, IH. Qed.

Lemma abs_ops_ext f g own own' e os a :
  (forall x, f x = g x) -> (forall x, own x = own' x) -> abs_ops f own e os a = abs_ops g own' e os a.
Proof.
  intros Ef Eo. revert a. induction os as [|o os IH]; intros a; cbn; [done|].
  assert (E : abs_op f own e o a = abs_op g own' e o a).
  { destruct o as [n|n|n|]; cbn; [by rewrite (sorted_insert_ext f g)|done..|]. destruct (visits _ _); [done|by rewrite Eo]. }
  rewrite E. destruct (abs_op g own' e o a) as [[a' r]|]; [|done]. by rewrite IH.
Qed.

Lemma frame_trans L t1 t2 s1 s2 s3 : frame L t1 s1 s2 -> frame L t2 s2 s3 -> frame L (t1 ++ t2) s1 s3.
Proof.
  intros [A1 A2 A3 A4 A5] [B1 B2 B3 B4 B5]. split.
  - intros L' HL'. by rewrite B1, A1.
  - intros x [H1 H2]%not_elem_of_app. destruct (A2 x H1) as (<- & <- & <-). by apply B2.
  - intros x. by rewrite B3, A3.
  - intros x. by rewrite B4, A4.
  - intros x. by rewrite B5, A5.
Qed.

Lemma frame_weaken L t t' s s' : frame L t s s' -> (forall x, x ∈ t -> x ∈ t') -> frame L t' s s'.
Proof. intros [A1 A2 A3 A4 A5] Hsub. split; try done. intros x Hx. apply A2. intros Hin. by apply Hx, Hsub. Qed.

(** The items a run of operations may touch. *)
Definition ops_items (os : list list_op) : list Z := mbind op_items os.

Lemma run_ops_spec fuel L os s a a' rs :
  list_at s L (seq a) (here a) -> values_ok s -> Forall (fun n => is_Some (items s !! n)) (ops_items os) ->
  Z.of_nat (length (seq a) + length os) < 2 ^ 32 -> (length (seq a) + length os <= fuel)%nat ->
  abs_ops (key s) (owner_of s) (xListEnd L) os a = Some (a', rs) ->
  wp (run_ops fuel L os)
     (fun rs' s' => rs' = rs /\ list_at s' L (seq a') (here a') /\ frame L (ops_items os ++ xListEnd L :: seq a) s s') s.
Proof.
  revert s a rs. induction os as [|o os IH]; intros s a rs Hat Hok Hl Hlen Hf E; cbn [run_ops abs_ops] in *.
  - injection E as <- <-. apply wp_ret. split_and!; [done|done|]. by split.
  - destruct (abs_op _ _ _ o a) as [[a1 r]|] eqn:E1; [|done]. destruct (abs_ops _ _ _ os a1) as [[a2 rs']|] eqn:E2; [|done].
    injection E as <- <-. unfold ops_items in Hl. rewrite bind_cons in Hl. apply Forall_app in Hl as [Hl1 Hl2]. cbn [length] in *.
    destruct (abs_op_grows _ _ _ _ _ _ _ E1) as [Hg1 Hg2]. apply wp_bind.
    eapply wp_mono; [eapply run_op_spec; [exact Hat|split; [done|done|lia|lia]|exact E1]|].
    intros r1 s1 (-> & Hat1 & Hfr). pose proof Hfr as [_ _ Fv Fo Fi]. apply wp_bind.
    eapply wp_mono; [apply (IH s1 a1 rs')|].
    + done.
    + intros x v. rewrite Fv. apply Hok.
    + eapply Forall_impl; [exact Hl2|]. intros n Hn. by apply Fi.
    + lia.
    + lia.
    + rewrite <- E2. apply abs_ops_ext; intros x; unfold key, owner_of; by rewrite ?Fv, ?Fo.
    + intros rs1 s2 (-> & Hat2 & Hfr2). apply wp_ret. split_and!; [done|done|].
      eapply frame_weaken; [by eapply frame_trans|]. intros x. unfold ops_items. rewrite bind_cons.
      rewrite !elem_of_app, !elem_of_cons. intros [Hx|[Hx|[->|Hx]]]; [tauto..|]. apply Hg2, elem_of_app in Hx. tauto.
Qed.

(** ** Order of a sorted list *)

Lemma sorted_insert_split f n xs :
  StronglySorted (fun x y => f x <= f y) xs ->
  exists l1 l2, xs = l1 ++ l2 /\ sorted_insert f n xs = l1 ++ n :: l2
    /\ Forall (fun x => f x <= f n) l1 /\ Forall (fun x => f n < f x) l2.
Proof.
  induction xs as [|x xs IH]; intros H; cbn; [by exists [], []|]. apply StronglySorted_inv in H as [H1 H2].
  destruct (Z.leb_spec (f x) (f n)) as [Hle|Hlt].
  - destruct (IH H1) as (l1 & l2 & -> & -> & F1 & F2). exists (x :: l1), l2. split_and!; [done|done|by constructor|done].
  - exists [], (x :: xs). split_and!; [done|done|by constructor|]. constructor; [done|].
    eapply Forall_impl; [exact H2|]. cbn. lia.
Qed.

Lemma sorted_insert_sorted f n xs :
  StronglySorted (fun x y => f x <= f y) xs -> StronglySorted (fun x y => f x <= f y) (sorted_insert f n xs).
Proof.
  induction xs as [|x xs IH]; intros H; cbn; [by repeat constructor|]. pose proof H as [H1 H2]%StronglySorted_inv.
  destruct (Z.leb_spec (f x) (f n)) as [Hle|Hlt].
  - constructor; [by apply IH|]. rewrite sorted_insert_perm. by constructor.
  - constructor; [done|]. constructor; [lia|]. eapply Forall_impl; [exact H2|]. cbn. lia.
Qed.

Lemma sorted_by_ext (f g : Z -> Z) xs :
  (forall x, g x = f x) -> StronglySorted (fun x y => f x <= f y) xs -> StronglySorted (fun x y => g x <= g y) xs.
Proof. intros E H. induction H as [|x xs H IH Hx]; constructor; [done|]. eapply Forall_impl; [exact Hx|]. cbn. intros y. by rewrite !E. Qed.

(** ** Round robin *)

Lemma nexts_spec fuel L xs p q idx s :
  list_at s L xs idx -> visits idx xs = p ++ q ->
  wp (run_ops fuel L (replicate (length p) OpNext))
     (fun rs s' => rs = (fun x => Some (owner_of s x)) <$> p /\ list_at s' L xs (left_of idx p) /\ visits (left_of idx p) xs = q ++ p /\ items s' = items s) s.
Proof.
  revert q idx s. induction p as [|x p IH]; intros q idx s Hat Hv; cbn [length replicate run_ops].
  - apply wp_ret. split_and!; [done|done|by rewrite app_nil_r|done].
  - destruct (next_of_index _ _ _ _ _ _ Hat Hv) as (_ & Hv' & _). apply wp_bind. cbn [run_op]. apply wp_bind.
    eapply wp_mono; [by eapply wp_next_owner|]. intros r s1 (Hr & Hi & Hat1 & _). apply wp_ret, wp_bind.
    eapply wp_mono; [apply (IH (q ++ [x]) x s1 Hat1); by rewrite app_assoc|].
    intros rs s2 (-> & Hat2 & Hv2 & Hi2). apply wp_ret. rewrite left_of_cons. split_and!; [|done|by rewrite Hv2, <- app_assoc|by rewrite Hi2].
    cbn. f_equal; [unfold owner_of; by rewrite <- Hr|]. apply list_fmap_ext. intros k y _. unfold owner_of, owner. by rewrite Hi.
Qed.

(** Where [vListInsertEnd] puts an item, seen from the index. *)
Lemma visits_insert_before L s xs idx n :
  list_at s L xs idx -> n ∉ xListEnd L :: xs ->
  exists q c, visits idx xs = q ++ c /\ visits idx (insert_before idx n xs) = q ++ n :: c /\ c = (if idx =? xListEnd L then [] else [idx]).
Proof.
  intros Hat Hn. destruct (index_cases _ _ _ _ Hat) as [He [->|(l1 & l2 & -> & H1 & H2 & H3)]].
  - exists xs, []. rewrite Z.eqb_refl, app_nil_r.
    pose proof (insert_before_split (xListEnd L) n xs [] He (or_intror eq_refl)) as E. rewrite app_nil_r in E. rewrite E.
    rewrite !visits_end by set_solver. done.
  - exists (l2 ++ l1), [idx]. destruct (Z.eqb_spec idx (xListEnd L)); [done|]. rewrite (insert_before_split idx n l1 (idx :: l2)) by (done || by left).
    rewrite (cons_middle n), (app_assoc l1 [n]), !visits_at by set_solver. by rewrite <- !app_assoc.
Qed.

(** What [uxListRemove] leaves of the order. *)
Lemma visits_remove L s xs1 xs2 idx n :
  list_at s L (xs1 ++ n :: xs2) idx ->
  visits (index_without L n xs1 idx) (xs1 ++ xs2) = filter (fun x => x <> n) (visits idx (xs1 ++ n :: xs2)).
Proof.
  intros Hat. pose proof (la_nodup _ _ _ _ Hat) as [He Hd]%NoDup_cons. apply NoDup_app in Hd as (Hda & Hd1 & [Hd2 Hdb]%NoDup_cons).
  assert (Hn1 : n ∉ xs1) by (intros Hin; apply (Hd1 n Hin); left). unfold index_without. destruct (Z.eqb_spec idx n) as [->|Hne].
  - rewrite visits_at, app_assoc, filter_app, (filter_cons_False _ n), filter_nil, app_nil_r, filter_notin by (try set_solver; intros []; done).
    unfold left_of. destruct (last xs1) as [p|] eqn:E; cbn.
    + apply last_Some in E as [l ->]. rewrite <- app_assoc. cbn. rewrite visits_at; [done|].
      apply NoDup_app in Hda as (_ & Hda & _). intros Hin. apply (Hda p Hin). left.
    + apply last_None in E as ->. rewrite app_nil_r. cbn in *. rewrite visits_end; set_solver.
  - destruct (index_cases _ _ _ _ Hat) as [_ [->|(l1 & l2 & E & H1 & H2 & H3)]].
    + rewrite !visits_end, filter_without by set_solver. done.
    + rewrite E, visits_at by done. assert (Hin : idx ∈ xs1 \/ idx ∈ xs2) by (assert (idx ∈ xs1 ++ n :: xs2) by (rewrite E; set_solver); set_solver).
      assert (Hf : filter (fun x => x <> n) (l1 ++ idx :: l2) = xs1 ++ xs2) by (rewrite <- E; by apply filter_without).
      rewrite filter_app, filter_cons_True in Hf by done. rewrite <- Hf, visits_at by (intros [_ ?]%list_elem_of_filter; done).
      by rewrite !filter_app, filter_cons_True.
Qed.

(** ** Properties *)

(** C21: [vListInsert], [vListInsertEnd], [uxListRemove] and
    [listGET_OWNER_OF_NEXT_ENTRY] implement the abstract list, a sequence of
    items with a current position: a run of operations that the abstract list
    allows terminates, returns what the abstract list returns, leaves the ring
    of the resulting sequence with the index at the resulting position, keeps
    values and owners, and does not change any other list of the memory. *)
Theorem list_ops_refine fuel L os s a a' rs :
  list_at s L (seq a) (here a) -> values_ok s -> Forall (fun n => is_Some (items s !! n)) (ops_items os) ->
  Z.of_nat (length (seq a) + length os) < 2 ^ 32 -> (length (seq a) + length os <= fuel)%nat ->
  abs_ops (key s) (owner_of s) (xListEnd L) os a = Some (a', rs) ->
  wp (run_ops fuel L os)
     (fun rs' s' => rs' = rs /\ list_at s' L (seq a') (here a')
        /\ (forall x, value s' x = value s x /\ owner s' x = owner s x)
        /\ forall L' ys i, L' <> L -> (forall x, x ∈ xListEnd L' :: ys -> x ∉ (ops_items os ++ xListEnd L :: seq a)) ->
             list_at s L' ys i -> list_at s' L' ys i) s.
Proof.
  intros Hat Hok Hl Hlen Hf E. eapply wp_mono; [by eapply run_ops_spec|]. intros rs' s' (-> & Hat' & Hfr).
  split_and!; [done|done|intros x; split; apply Hfr|]. intros L' ys i HL Hd. by eapply list_at_frame.
Qed.

(** [vListInsert] keeps a list in the order of the item values and is
    stable: the new item goes behind every item whose value is not greater
    and in front of the greater ones, the others keep their order, the index
    stays, and the loop ends, also for the value of the end marker. *)
Theorem list_insert_sorted fuel s L xs idx n :
  list_at s L xs idx -> values_ok s -> n ∉ xListEnd L :: xs -> is_Some (items s !! n) ->
  Z.of_nat (length xs) + 1 < 2 ^ 32 -> (length xs < fuel)%nat -> StronglySorted (fun x y => key s x <= key s y) xs ->
  wp (vListInsert fuel L n)
     (fun _ s' => exists l1 l2, xs = l1 ++ l2 /\ list_at s' L (l1 ++ n :: l2) idx
        /\ Forall (fun x => key s x <= key s n) l1 /\ Forall (fun x => key s n < key s x) l2
        /\ StronglySorted (fun x y => key s' x <= key s' y) (l1 ++ n :: l2)) s.
Proof.
  intros Hat Hok Hn Hl Hlen Hf Hs. eapply wp_mono; [by apply list_insert_spec|]. intros _ s' [Hat' Hfr].
  pose proof (sorted_insert_sorted _ n _ Hs) as Hs'. destruct (sorted_insert_split _ n _ Hs) as (l1 & l2 & -> & E & H1 & H2).
  rewrite E in *. exists l1, l2. split_and!; try done.
  eapply sorted_by_ext; [|exact Hs']. intros x. unfold key. by rewrite (fr_value _ _ _ _ Hfr).
Qed.

(** The index goes round robin: [n] calls of
    [listGET_OWNER_OF_NEXT_ENTRY] on a list of [n] items return the owners of
    the items in visiting order, every item once, and the visiting order is
    then the same again. *)
Theorem list_round_robin fuel L xs idx s :
  list_at s L xs idx ->
  wp (run_ops fuel L (replicate (length xs) OpNext))
     (fun rs s' => rs = (fun x => Some (owner_of s x)) <$> visits idx xs /\ visits idx xs ≡ₚ xs
        /\ exists idx', list_at s' L xs idx' /\ visits idx' xs = visits idx xs) s.
Proof.
  intros Hat. rewrite <- (Permutation_length (visits_perm idx xs)).
  eapply wp_mono; [apply (nexts_spec fuel L xs (visits idx xs) [] idx s Hat); by rewrite app_nil_r|].
  intros rs s' (-> & Hat' & Hv & _). split_and!; [done|apply visits_perm|]. by eexists.
Qed.

(** Neither insertion at the end nor removal reorders the visits of the
    other items: [vListInsertEnd] puts the new item behind all of them except
    the current one, and [uxListRemove] only takes the item out, also when the
    index is at it. *)
Theorem list_order_kept s L xs idx n :
  list_at s L xs idx ->
  (n ∉ xListEnd L :: xs -> is_Some (items s !! n) -> Z.of_nat (length xs) + 1 < 2 ^ 32 ->
     wp (vListInsertEnd L n)
        (fun _ s' => exists xs' q c, list_at s' L xs' idx /\ visits idx xs = q ++ c /\ visits idx xs' = q ++ n :: c
                     /\ c = if idx =? xListEnd L then [] else [idx]) s)
  /\ (n ∈ xs ->
     wp (uxListRemove n)
        (fun r s' => exists xs' idx', list_at s' L xs' idx' /\ r = Z.of_nat (length xs) - 1 /\ container s' n = Some 0
                     /\ visits idx' xs' = filter (fun x => x <> n) (visits idx xs)) s).
Proof.
  intros Hat. split.
  - intros Hn Hl Hlen. destruct (visits_insert_before _ _ _ _ _ Hat Hn) as (q & c & Hq & Hq' & Hc).
    eapply wp_mono; [by apply insert_end_before|]. intros _ s' [H1 _]. by exists (insert_before idx n xs), q, c.
  - intros Hn. apply list_elem_of_split in Hn as (xs1 & xs2 & ->). eapply wp_mono; [by apply remove_spec|].
    intros r s' (-> & H1 & H2 & _). eexists _, _. split_and!; [exact H1| |done|by eapply visits_remove].
    rewrite !length_app. cbn. lia.
Qed.

(** ** Witnesses *)

(** An initialised list at [0x1000], its marker at [0x1008], and four items
    that are in no list. *)
Definition ex_item (v o : Z) : ListItem_t := Item v 0 0 o 0.
Definition ex_raw : list_mem :=
  ListMem (list_to_map [(0x1008, ex_item 0 0); (0x2000, ex_item 5 0xa); (0x2014, ex_item 3 0xb); (0x2028, ex_item 5 0xc); (0x203c, ex_item portMAX_DELAY 0xd)])
          (list_to_map [(0x1000, ListHdr 7 7)]).
Definition after {A} (m : M list_mem A) (s : list_mem) : list_mem := match m s with Ret (_, s') => s' | _ => s end.
Definition ex_mem : list_mem := after (vListInitialise 0x1000) ex_raw.

Lemma ex_at : list_at ex_mem 0x1000 [] 0x1008.
Proof.
  pose proof (initialise_spec ex_raw 0x1000 _ eq_refl ltac:(by eexists)) as H. apply wp_inv in H as (r & s' & E & H).
  assert (Es : s' = ex_mem) by (unfold ex_mem, after; by rewrite E). by subst.
Qed.

(** Values of a memory given by a list of items. *)
Definition values_okb (s : list_mem) : bool := forallb (fun '(_, i) => (0 <=? xItemValue i) && (xItemValue i <=? portMAX_DELAY)) (map_to_list (items s)).
Lemma values_okb_ok s : values_okb s = true -> values_ok s.
Proof.
  intros H x v. unfold value. intros (i & Hi & ->)%fmap_Some. apply elem_of_map_to_list in Hi. unfold values_okb in H.
  rewrite forallb_forall in H. specialize (H (x, i) (proj1 (list_elem_of_In _ _) Hi)). cbn in H. simplify_bool. lia.
Qed.

Definition ex_ops : list list_op := [OpInsert 0x2000; OpInsert 0x203c; OpInsert 0x2014; OpNext; OpInsert 0x2028; OpNext; OpRemove 0x2000; OpNext].

Definition ex_two : list_mem := after (run_ops 3 0x1000 [OpInsert 0x2000; OpInsert 0x2014; OpNext]) ex_mem.

Lemma ex_two_at : list_at ex_two 0x1000 [0x2014; 0x2000] 0x2014.
Proof.
  assert (H : wp (run_ops 3 0x1000 [OpInsert 0x2000; OpInsert 0x2014; OpNext])
                 (fun _ s' => list_at s' 0x1000 [0x2014; 0x2000] 0x2014) ex_mem).
  { eapply wp_mono.
    - apply (run_ops_spec _ _ _ _ (AbsList [] 0x1008) (AbsList [0x2014; 0x2000] 0x2014) [None; None; Some 0xb] ex_at).
      + by apply values_okb_ok.
      + repeat constructor; by eexists.
      + by vm_compute.
      + cbn. lia.
      + by vm_compute.
    - cbn. tauto. }
  apply wp_inv in H as (r & s' & E & H). assert (Es : s' = ex_two) by (unfold ex_two, after; by rewrite E). by subst.
Qed.

Lemma list_ops_refine_witness :
  wp (run_ops 8 0x1000 ex_ops)
     (fun rs' s' => rs' = [None; None; None; Some 0xb; None; Some 0xa; Some 3; Some 0xc] /\ list_at s' 0x1000 [0x2014; 0x2028; 0x203c] 0x2028
        /\ (forall x, value s' x = value ex_mem x /\ owner s' x = owner ex_mem x)
        /\ forall L' ys i, L' <> 0x1000 -> (forall x, x ∈ xListEnd L' :: ys -> x ∉ ops_items ex_ops ++ [0x1008]) ->
             list_at ex_mem L' ys i -> list_at s' L' ys i) ex_mem.
Proof.
  apply (list_ops_refine 8 0x1000 ex_ops ex_mem (AbsList [] 0x1008) (AbsList [0x2014; 0x2028; 0x203c] 0x2028)
           [None; None; None; Some 0xb; None; Some 0xa; Some 3; Some 0xc] ex_at).
  - by apply values_okb_ok.
  - repeat constructor; by eexists.
  - by vm_compute.
  - cbn. lia.
  - by vm_compute.
Defined.

Lemma list_insert_sorted_witness :
  wp (vListInsert 3 0x1000 0x2028)
     (fun _ s' => exists l1 l2, [0x2014; 0x2000] = l1 ++ l2 /\ list_at s' 0x1000 (l1 ++ 0x2028 :: l2) 0x2014
        /\ Forall (fun x => key ex_two x <= key ex_two 0x2028) l1 /\ Forall (fun x => key ex_two 0x2028 < key ex_two x) l2
        /\ StronglySorted (fun x y => key s' x <= key s' y) (l1 ++ 0x2028 :: l2)) ex_two.
Proof.
  apply (list_insert_sorted 3 ex_two 0x1000 [0x2014; 0x2000] 0x2014 0x2028 ex_two_at).
  - by apply values_okb_ok.
  - cbn. set_solver.
  - by eexists.
  - by vm_compute.
  - cbn. lia.
  - repeat constructor; vm_compute; congruence.
Defined.

Lemma list_round_robin_witness :
  wp (run_ops 1 0x1000 [OpNext; OpNext])
     (fun rs s' => rs = [Some 0xa; Some 0xb] /\ [0x2000; 0x2014] ≡ₚ [0x2014; 0x2000]
        /\ exists idx', list_at s' 0x1000 [0x2014; 0x2000] idx' /\ visits idx' [0x2014; 0x2000] = [0x2000; 0x2014]) ex_two.
Proof. exact (list_round_robin 1 0x1000 [0x2014; 0x2000] 0x2014 ex_two ex_two_at). Defined.

Lemma list_order_kept_witness :
  wp (uxListRemove 0x2014)
     (fun r s' => exists xs' idx', list_at s' 0x1000 xs' idx' /\ r = 1 /\ container s' 0x2014 = Some 0 /\ visits idx' xs' = [0x2000]) ex_two.
Proof. apply (list_order_kept ex_two 0x1000 [0x2014; 0x2000] 0x2014 0x2014 ex_two_at). left. Defined.
