(* ===== verification/RtosStore.v ===== *)
(** * The lists of the kernel taken together

    The kernel keeps its tasks in many lists over one memory of items.  Here
    the memory is described by a view, the sequence and the index of every
    list, and the operations of [RtosList] become updates of the view: the
    lists share no item, an item that is in no list has no container. *)

From S2P Require Import Prelude RtosList.

#[local] Open Scope Z_scope.

(** Sequence and index of each list, by the address of the list. *)
Notation view := (gmap Z (list Z * Z)).

(** [n] is neither in a list nor the marker of one. *)
Definition free (V : view) (n : Z) : Prop := forall L xs i, V !! L = Some (xs, i) -> n ∉ xListEnd L :: xs.

Record store (s : list_mem) (V : view) : Prop := {
  st_at : forall L xs i, V !! L = Some (xs, i) -> list_at s L xs i;
  st_sep : forall L1 xs1 i1 L2 xs2 i2 x, V !! L1 = Some (xs1, i1) -> V !! L2 = Some (xs2, i2) -> L1 <> L2 ->
             x ∈ xListEnd L1 :: xs1 -> x ∉ xListEnd L2 :: xs2;
  st_out : forall x, is_Some (items s !! x) -> free V x -> container s x = Some 0;
  st_null : V !! 0 = None;
  st_values : values_ok s;
  st_small : Z.of_nat (size (items s)) <= 2 ^ 32
}.

(** Nothing but links and containers has changed. *)
Record same_items (s s' : list_mem) : Prop := {
  si_value : forall x, value s' x = value s x;
  si_owner : forall x, owner s' x = owner s x;
  si_live : forall x, is_Some (items s' !! x) <-> is_Some (items s !! x)
}.

Lemma same_items_refl s : same_items s s.
Proof. by split. Qed.

Lemma same_items_trans s1 s2 s3 : same_items s1 s2 -> same_items s2 s3 -> same_items s1 s3.
Proof.
  intros [A1 A2 A3] [B1 B2 B3]. split; intros x.
  - by rewrite B1.
  - by rewrite B2.
  - by rewrite B3.
Qed.

Lemma frame_same L t s s' : frame L t s s' -> same_items s s'.
Proof. intros [_ _ F1 F2 F3]. by split. Qed.

Lemma same_size s s' : (forall x, is_Some (items s' !! x) <-> is_Some (items s !! x)) -> size (items s') = size (items s).
Proof.
  intros H. rewrite <- !size_dom. f_equal. apply leibniz_equiv. intros x. by rewrite !elem_of_dom.
Qed.

(** Distinct live items are not more than the memory has. *)
Lemma live_length s (xs : list Z) : NoDup xs -> (forall x, x ∈ xs -> is_Some (items s !! x)) -> (length xs <= size (items s))%nat.
Proof.
  intros Hd Hl. rewrite <- (size_list_to_set (C := gset Z) xs) by done. rewrite <- size_dom. apply subseteq_size.
  intros x Hx. apply elem_of_list_to_set in Hx. by apply elem_of_dom, Hl.
Qed.

Lemma list_room s L xs i n :
  list_at s L xs i -> n ∉ xListEnd L :: xs -> is_Some (items s !! n) -> (length xs + 2 <= size (items s))%nat.
Proof.
  intros Hat Hn Hl. pose proof (live_length s (n :: xListEnd L :: xs)) as H. cbn [length] in H.
  assert (Hd : NoDup (n :: xListEnd L :: xs)) by (constructor; [done|apply Hat]). specialize (H Hd).
  enough (S (S (length xs)) <= size (items s))%nat by lia. apply H.
  intros x [->|Hx]%elem_of_cons; [done|]. eapply seg_live; [exact (la_seg _ _ _ _ Hat)|]. set_solver.
Qed.

Lemma store_live s V L xs i x : store s V -> V !! L = Some (xs, i) -> x ∈ xListEnd L :: xs -> is_Some (items s !! x).
Proof. intros HS HV Hx. eapply seg_live; [exact (la_seg _ _ _ _ (st_at _ _ HS _ _ _ HV))|]. set_solver. Qed.

(** An item is in one list only. *)
Lemma store_unique s V L1 xs1 i1 L2 xs2 i2 x :
  store s V -> V !! L1 = Some (xs1, i1) -> V !! L2 = Some (xs2, i2) -> x ∈ xs1 -> x ∈ xs2 -> L1 = L2.
Proof.
  intros HS H1 H2 Hx1 Hx2. destruct (decide (L1 = L2)) as [|Hne]; [done|exfalso].
  eapply (st_sep _ _ HS L1 xs1 i1 L2 xs2 i2 x); try done; by right.
Qed.

Lemma store_container s V L xs i x : store s V -> V !! L = Some (xs, i) -> x ∈ xs -> container s x = Some L.
Proof. intros HS HV Hx. by apply (la_in _ _ _ _ (st_at _ _ HS _ _ _ HV)). Qed.

(** The general step: one list of the view is new, the rest is framed. *)
Lemma store_update s s' V L xs i xs' i' t :
  store s V -> V !! L = Some (xs, i) -> list_at s' L xs' i' -> frame L t s s' ->
  (forall x, x ∈ t -> x ∈ xListEnd L :: xs \/ free V x) ->
  (forall x, x ∈ xs' -> x ∈ xs \/ free V x) ->
  (forall x, x ∈ xs -> x ∉ xs' -> container s' x = Some 0) ->
  (forall x, x ∈ t -> free V x -> x ∈ xs') ->
  store s' (<[L := (xs', i')]> V).
Proof.
  intros HS HV Hat Hfr Ht Hx' Hgone Hnew.
  assert (Hother : forall L2 xs2 i2 x, V !! L2 = Some (xs2, i2) -> L2 <> L -> x ∈ xListEnd L2 :: xs2 -> x ∉ t /\ x ∉ xListEnd L :: xs').
  { intros L2 xs2 i2 x H2 Hne Hx. assert (Hn : x ∉ xListEnd L :: xs) by (eapply (st_sep _ _ HS); [exact H2|exact HV|done|done]).
    split.
    - intros Hin. destruct (Ht x Hin) as [?|Hf]; [done|]. by apply (Hf _ _ _ H2).
    - intros [->|Hin]%elem_of_cons; [apply Hn; left|]. destruct (Hx' x Hin) as [?|Hf]; [apply Hn; by right|]. by apply (Hf _ _ _ H2). }
  assert (Hlook : forall L2 xs2 i2, <[L := (xs', i')]> V !! L2 = Some (xs2, i2) -> (L2 = L /\ xs2 = xs' /\ i2 = i') \/ (L2 <> L /\ V !! L2 = Some (xs2, i2))).
  { intros L2 xs2 i2. rewrite lookup_insert. case_decide as E; [intros [= <- <-]; left; by subst|]. right. by split. }
  split.
  - intros L2 xs2 i2 [(-> & -> & ->)|[Hne H2]]%Hlook; [done|]. eapply list_at_frame; [exact Hfr|done| |by apply (st_at _ _ HS)].
    intros x Hx. by eapply Hother.
  - intros L1 xs1 i1 L2 xs2 i2 x [(-> & -> & ->)|[Hne1 H1]]%Hlook [(-> & -> & ->)|[Hne2 H2]]%Hlook Hne Hx; try done.
    + intros Hx2. by apply (Hother _ _ _ _ H2 Hne2 Hx2).
    + by apply (Hother _ _ _ _ H1 Hne1 Hx).
    + by eapply (st_sep _ _ HS L1 xs1 i1 L2 xs2 i2).
  - intros x Hl Hf. assert (HfL : x ∉ xListEnd L :: xs') by (apply (Hf L xs' i'); by rewrite lookup_insert_eq).
    destruct (decide (x ∈ xs)) as [Hin|Hnin]; [apply Hgone; set_solver|].
    assert (Hf0 : free V x).
    { intros L2 xs2 i2 H2. destruct (decide (L2 = L)) as [->|Hne]; [rewrite HV in H2; injection H2 as <- <-; set_solver|].
      apply (Hf L2 xs2 i2). by rewrite lookup_insert_ne. }
    destruct (decide (x ∈ t)) as [Hit|Hnt]; [exfalso; apply HfL; right; by apply Hnew|].
    rewrite (proj2 (proj2 (fr_links _ _ _ _ Hfr x Hnt))). apply (st_out _ _ HS); [by apply (fr_live _ _ _ _ Hfr)|done].
  - assert (L <> 0) by (intros ->; by rewrite (st_null _ _ HS) in HV). rewrite lookup_insert_ne by done. apply HS.
  - intros x v. rewrite (fr_value _ _ _ _ Hfr). apply HS.
  - rewrite (same_size s s') by apply Hfr. apply HS.
Qed.

(** ** Operations on the view *)

Definition view_insert (f : Z -> Z) (L n : Z) (V : view) : view :=
  match V !! L with Some (xs, i) => <[L := (sorted_insert f n xs, i)]> V | None => V end.
Definition view_insert_end (L n : Z) (V : view) : view :=
  match V !! L with Some (xs, i) => <[L := (insert_before i n xs, i)]> V | None => V end.
Definition view_remove (L n : Z) (V : view) : view :=
  match V !! L with
  | Some (xs, i) => <[L := (filter (fun x => x <> n) xs, if i =? n then item_before (xListEnd L) n xs else i)]> V
  | None => V
  end.
Definition view_next (L x : Z) (V : view) : view :=
  match V !! L with Some (xs, _) => <[L := (xs, x)]> V | None => V end.

Lemma store_insert s V L xs i n :
  store s V -> V !! L = Some (xs, i) -> free V n -> is_Some (items s !! n) ->
  wp (vListInsert (size (items s)) L n) (fun _ s' => store s' (view_insert (key s) L n V) /\ same_items s s') s.
Proof.
  intros HS HV Hf Hl. pose proof (st_at _ _ HS _ _ _ HV) as Hat. pose proof (Hf _ _ _ HV) as Hn.
  pose proof (list_room _ _ _ _ _ Hat Hn Hl). pose proof (st_small _ _ HS).
  eapply wp_mono; [apply list_insert_spec; [exact Hat|apply HS|done|done|lia|lia]|]. intros _ s' [Hat' Hfr].
  split; [|by eapply frame_same]. unfold view_insert. rewrite HV. eapply store_update; [exact HS|exact HV|exact Hat'|exact Hfr|..].
  - intros x [->|Hx]%elem_of_cons; [by right|by left].
  - intros x. rewrite sorted_insert_perm. intros [->|Hx]%elem_of_cons; [by right|by left].
  - intros x Hx. rewrite sorted_insert_perm. set_solver.
  - intros x [->|Hx]%elem_of_cons Hfx; rewrite sorted_insert_perm; [left|]. exfalso. by apply (Hfx _ _ _ HV).
Qed.

Lemma store_insert_end s V L xs i n :
  store s V -> V !! L = Some (xs, i) -> free V n -> is_Some (items s !! n) ->
  wp (vListInsertEnd L n) (fun _ s' => store s' (view_insert_end L n V) /\ same_items s s') s.
Proof.
  intros HS HV Hf Hl. pose proof (st_at _ _ HS _ _ _ HV) as Hat. pose proof (Hf _ _ _ HV) as Hn.
  pose proof (list_room _ _ _ _ _ Hat Hn Hl). pose proof (st_small _ _ HS).
  eapply wp_mono; [apply insert_end_before; [exact Hat|done|done|lia]|]. intros _ s' [Hat' Hfr].
  split; [|by eapply frame_same]. unfold view_insert_end. rewrite HV. eapply store_update; [exact HS|exact HV|exact Hat'|exact Hfr|..].
  - intros x [->|Hx]%elem_of_cons; [by right|by left].
  - intros x. rewrite insert_before_perm. intros [->|Hx]%elem_of_cons; [by right|by left].
  - intros x Hx. rewrite insert_before_perm. set_solver.
  - intros x [->|Hx]%elem_of_cons Hfx; rewrite insert_before_perm; [left|]. exfalso. by apply (Hfx _ _ _ HV).
Qed.

Lemma store_remove s V L xs i n :
  store s V -> V !! L = Some (xs, i) -> n ∈ xs ->
  wp (uxListRemove n) (fun r s' => r = Z.of_nat (length xs) - 1 /\ store s' (view_remove L n V) /\ same_items s s') s.
Proof.
  intros HS HV Hn. pose proof (st_at _ _ HS _ _ _ HV) as Hat. pose proof (la_nodup _ _ _ _ Hat) as [_ Hd]%NoDup_cons.
  apply list_elem_of_split in Hn as (xs1 & xs2 & ->). apply NoDup_app in Hd as (_ & Hd1 & [Hd2 _]%NoDup_cons).
  assert (n ∉ xs1) by (intros Hin; apply (Hd1 n Hin); left).
  eapply wp_mono; [by apply remove_spec|]. intros r s' (-> & Hat' & Hc & Hfr).
  split; [rewrite !length_app; cbn; lia|]. split; [|by eapply frame_same].
  unfold view_remove. rewrite HV, filter_without, item_before_split by done.
  eapply store_update; [exact HS|exact HV|exact Hat'|exact Hfr|..].
  - intros x Hx. by left.
  - intros x Hx. left. set_solver.
  - intros x Hx Hnx. assert (x = n) as -> by set_solver. done.
  - intros x Hx Hfx. exfalso. by apply (Hfx _ _ _ HV).
Qed.

Lemma store_next s V L xs i x q :
  store s V -> V !! L = Some (xs, i) -> visits i xs = x :: q ->
  wp (listGET_OWNER_OF_NEXT_ENTRY L)
     (fun r s' => Some r = owner s x /\ store s' (view_next L x V) /\ same_items s s' /\ items s' = items s) s.
Proof.
  intros HS HV Hv. pose proof (st_at _ _ HS _ _ _ HV) as Hat. eapply wp_mono; [by eapply wp_next_owner|].
  intros r s' (Hr & Hi & Hat' & Hfr). split_and!; [done| |by eapply frame_same|done]. unfold view_next. rewrite HV.
  eapply store_update; [exact HS|exact HV|exact Hat'|exact Hfr|..].
  - set_solver.
  - intros y Hy. by left.
  - done.
  - set_solver.
Qed.

(** Values may change on items that are not markers. *)
Lemma store_set_value s V n v :
  store s V -> is_Some (items s !! n) -> 0 <= v <= portMAX_DELAY -> (forall L xs i, V !! L = Some (xs, i) -> n <> xListEnd L) ->
  wp (listSET_LIST_ITEM_VALUE n v)
     (fun _ s' => store s' V /\ (forall x, value s' x = if decide (x = n) then Some v else value s x)
                  /\ (forall x, owner s' x = owner s x) /\ (forall x, is_Some (items s' !! x) <-> is_Some (items s !! x))) s.
Proof.
  intros HS Hl Hv Hm. apply wp_put_value; [done|]. intros s' (P & Fn & Fp & Fo & Fc). pose proof (pf_this _ _ _ _ _ P) as Pv.
  split_and!; [|exact Pv|exact Fo|apply P]. split.
  - intros L xs i HV. destruct (st_at _ _ HS _ _ _ HV) as [Hh Hb Hs Hd Hi He Hc]. split; try done.
    + by rewrite (pf_lists _ _ _ _ _ P).
    + eapply seg_frame; [| |exact Hs]; intros x _; [apply Fn|apply Fp].
    + rewrite Pv, decide_False; [done|]. intros E. by apply (Hm _ _ _ HV).
    + intros x Hx. rewrite Fc. by apply Hc.
  - apply HS.
  - intros x Hx Hf. rewrite Fc. apply (st_out _ _ HS); [by apply (pf_live _ _ _ _ _ P)|done].
  - apply HS.
  - intros x w. rewrite Pv. case_decide; [intros [= <-]; done|apply HS].
  - rewrite (same_size s s') by apply P. apply HS.
Qed.

Lemma wp_put_owner a v (Q : unit -> list_mem -> Prop) s :
  is_Some (items s !! a) ->
  (forall s', put_field owner a v s s' /\ same_field nx s s' /\ same_field pv s s' /\ same_field value s s' /\ same_field container s s' -> Q tt s') ->
  wp (set_item a (set_owner v)) Q s.
Proof. intros [i Hi] HQ. unfold set_item. apply wp_bind. eapply wp_item; [exact Hi|]. wp_step. apply HQ. field_update. Qed.

Lemma store_set_owner s V n o :
  store s V -> is_Some (items s !! n) ->
  wp (listSET_LIST_ITEM_OWNER n o)
     (fun _ s' => store s' V /\ (forall x, value s' x = value s x)
                  /\ (forall x, owner s' x = if decide (x = n) then Some o else owner s x) /\ (forall x, is_Some (items s' !! x) <-> is_Some (items s !! x))) s.
Proof.
  intros HS Hl. apply wp_put_owner; [done|]. intros s' (P & Fn & Fp & Fv & Fc). split_and!; [|exact Fv|exact (pf_this _ _ _ _ _ P)|apply P]. split.
  - intros L xs i HV. destruct (st_at _ _ HS _ _ _ HV) as [Hh Hb Hs Hd Hi He Hc]. split; try done.
    + by rewrite (pf_lists _ _ _ _ _ P).
    + eapply seg_frame; [| |exact Hs]; intros x _; [apply Fn|apply Fp].
    + by rewrite Fv.
    + intros x Hx. rewrite Fc. by apply Hc.
  - apply HS.
  - intros x Hx Hf. rewrite Fc. apply (st_out _ _ HS); [by apply (pf_live _ _ _ _ _ P)|done].
  - apply HS.
  - intros x w. rewrite Fv. apply HS.
  - rewrite (same_size s s') by apply P. apply HS.
Qed.

(** ** Reading *)

Section Reads.
Context (s : list_mem) (V : view) (HS : store s V).

Lemma read_length L xs i (Q : Z -> list_mem -> Prop) :
  V !! L = Some (xs, i) -> Q (Z.of_nat (length xs)) s -> wp (listCURRENT_LIST_LENGTH L) Q s.
Proof. intros HV HQ. unfold listCURRENT_LIST_LENGTH. apply wp_bind. eapply wp_list; [exact (la_hdr _ _ _ _ (st_at _ _ HS _ _ _ HV))|]. by apply wp_ret. Qed.

Lemma read_empty L xs i (Q : bool -> list_mem -> Prop) :
  V !! L = Some (xs, i) -> Q (match xs with [] => true | _ => false end) s -> wp (listLIST_IS_EMPTY L) Q s.
Proof.
  intros HV HQ. unfold listLIST_IS_EMPTY. apply wp_bind. eapply wp_list; [exact (la_hdr _ _ _ _ (st_at _ _ HS _ _ _ HV))|]. apply wp_ret.
  cbn [uxNumberOfItems]. destruct xs as [|x xs]; [done|]. destruct (Z.eqb_spec (Z.of_nat (length (x :: xs))) 0); [cbn in *; lia|done].
Qed.

Lemma read_head_owner L x xs i o (Q : Z -> list_mem -> Prop) :
  V !! L = Some (x :: xs, i) -> owner s x = Some o -> Q o s -> wp (listGET_OWNER_OF_HEAD_ENTRY L) Q s.
Proof.
  intros HV Ho HQ. destruct (la_seg _ _ _ _ (st_at _ _ HS _ _ _ HV)) as (Hn & _). unfold listGET_OWNER_OF_HEAD_ENTRY.
  apply wp_bind. eapply wp_item_next; [exact Hn|]. intros j _ ->. apply wp_bind.
  unfold owner in Ho. apply fmap_Some in Ho as (ix & Hi & ->). eapply wp_item; [exact Hi|]. by apply wp_ret.
Qed.

Lemma read_head_value L x xs i v (Q : Z -> list_mem -> Prop) :
  V !! L = Some (x :: xs, i) -> value s x = Some v -> Q v s -> wp (listGET_ITEM_VALUE_OF_HEAD_ENTRY L) Q s.
Proof.
  intros HV Ho HQ. destruct (la_seg _ _ _ _ (st_at _ _ HS _ _ _ HV)) as (Hn & _). unfold listGET_ITEM_VALUE_OF_HEAD_ENTRY.
  apply wp_bind. eapply wp_item_next; [exact Hn|]. intros j _ ->. apply wp_bind.
  unfold value in Ho. apply fmap_Some in Ho as (ix & Hi & ->). eapply wp_item; [exact Hi|]. by apply wp_ret.
Qed.

Lemma read_head L xs i (Q : Z -> list_mem -> Prop) :
  V !! L = Some (xs, i) -> Q (right_of xs (xListEnd L)) s -> wp (listGET_HEAD_ENTRY L) Q s.
Proof.
  intros HV HQ. pose proof (la_seg _ _ _ _ (st_at _ _ HS _ _ _ HV)) as Hs. destruct (seg_gap _ _ [] _ _ Hs) as [Hn _].
  unfold listGET_HEAD_ENTRY. apply wp_bind. eapply wp_item_next; [exact Hn|]. intros j _ ->. by apply wp_ret.
Qed.

Lemma read_next L xs1 x xs2 i (Q : Z -> list_mem -> Prop) :
  V !! L = Some (xs1 ++ x :: xs2, i) -> Q (right_of xs2 (xListEnd L)) s -> wp (listGET_NEXT x) Q s.
Proof.
  intros HV HQ. pose proof (la_seg _ _ _ _ (st_at _ _ HS _ _ _ HV)) as Hs. apply seg_app in Hs as [_ Hs].
  destruct (seg_gap _ _ [] _ _ Hs) as [Hn _]. unfold listGET_NEXT. apply wp_bind. eapply wp_item_next; [exact Hn|]. intros j _ ->. by apply wp_ret.
Qed.

Lemma read_value n v (Q : Z -> list_mem -> Prop) : value s n = Some v -> Q v s -> wp (listGET_LIST_ITEM_VALUE n) Q s.
Proof. intros (j & Hj & ->)%fmap_Some HQ. unfold listGET_LIST_ITEM_VALUE. apply wp_bind. eapply wp_item; [exact Hj|]. by apply wp_ret. Qed.

Lemma read_owner n o (Q : Z -> list_mem -> Prop) : owner s n = Some o -> Q o s -> wp (listGET_LIST_ITEM_OWNER n) Q s.
Proof. intros (j & Hj & ->)%fmap_Some HQ. unfold listGET_LIST_ITEM_OWNER. apply wp_bind. eapply wp_item; [exact Hj|]. by apply wp_ret. Qed.

Lemma read_container n c (Q : Z -> list_mem -> Prop) : container s n = Some c -> Q c s -> wp (listLIST_ITEM_CONTAINER n) Q s.
Proof. intros (j & Hj & ->)%fmap_Some HQ. unfold listLIST_ITEM_CONTAINER. apply wp_bind. eapply wp_item; [exact Hj|]. by apply wp_ret. Qed.

Lemma read_within L n c (Q : bool -> list_mem -> Prop) : container s n = Some c -> Q (c =? L) s -> wp (listIS_CONTAINED_WITHIN L n) Q s.
Proof. intros (j & Hj & ->)%fmap_Some HQ. unfold listIS_CONTAINED_WITHIN. apply wp_bind. eapply wp_item; [exact Hj|]. by apply wp_ret. Qed.
End Reads.
