(* ===== verification/RtosTasks.v ===== *)
(** * Tasks and scheduling of the FreeRTOS kernel (components/freertos/tasks.c)

    The task lists, the tick, delays and time-outs, blocking on event lists,
    suspension of tasks and of the scheduler, priority inheritance, and the
    choice of the task to run on each of the two CPUs.

    A task control block at address [t] has its [xGenericListItem] at [t + 4]
    and its [xEventListItem] at [t + 24]; the lists are those of [RtosList].
    The CPU that runs a function is its argument [core].  A function is one
    step: its critical sections are not interleaved with the other CPU.  A
    request to the port (a yield, an interrupt to the other CPU, the tick hook)
    is recorded in the state.  Stack overflow checks, run time statistics,
    trace macros and [uxTaskNumber], which only debuggers read, are left out. *)

From S2P Require Import Prelude RtosList RtosStore.

#[local] Open Scope Z_scope.

Definition configMAX_PRIORITIES : Z := 25.
Definition portNUM_PROCESSORS : Z := 2.
Definition tskNO_AFFINITY : Z := 0x7fffffff.
Definition taskEVENT_LIST_ITEM_VALUE_IN_USE : Z := 0x80000000.

Record TCB_t : Type := TCB { uxPriority : Z; xCoreID : Z; uxBasePriority : Z; uxMutexesHeld : Z }.

Definition xGenericListItem (t : Z) : Z := t + 4.
Definition xEventListItem (t : Z) : Z := t + 24.

(** What the kernel asks of the port. *)
Inductive request : Type :=
| Yield (core : Z)
| YieldOther (core : Z)
| TickHook (core : Z)
| FreeTCB (t : Z).

(** Addresses of the lists that are variables of the file. *)
Class TaskLists : Type := {
  pxReadyTasksLists : Z;
  xDelayedTaskList1 : Z;
  xDelayedTaskList2 : Z;
  xPendingReadyList : Z;
  xTasksWaitingTermination : Z;
  xSuspendedTaskList : Z
}.

(** [&pxReadyTasksLists[p]] and [&xPendingReadyList[core]]; a [List_t] has 20 bytes. *)
Definition ready `{TaskLists} (p : Z) : Z := pxReadyTasksLists + 20 * p.
Definition pending `{TaskLists} (core : Z) : Z := xPendingReadyList + 20 * core.

Record kernel : Type := Kernel {
  mem : list_mem;
  tcbs : gmap Z TCB_t;
  pxCurrentTCB : list Z;
  pxDelayedTaskList : Z;
  pxOverflowDelayedTaskList : Z;
  uxTasksDeleted : Z;
  uxCurrentNumberOfTasks : Z;
  xTickCount : Z;
  uxTopReadyPriority : Z;
  xSchedulerRunning : bool;
  uxPendedTicks : Z;
  xYieldPending : list bool;
  xNumOfOverflows : Z;
  xNextTaskUnblockTime : Z;
  uxSchedulerSuspended : list Z;
  requests : list request
}.
Definition with_mem (v : list_mem) (k : kernel) : kernel :=
  Kernel v (tcbs k) (pxCurrentTCB k) (pxDelayedTaskList k) (pxOverflowDelayedTaskList k) (uxTasksDeleted k) (uxCurrentNumberOfTasks k) (xTickCount k) (uxTopReadyPriority k) (xSchedulerRunning k) (uxPendedTicks k) (xYieldPending k) (xNumOfOverflows k) (xNextTaskUnblockTime k) (uxSchedulerSuspended k) (requests k).
Definition with_tcbs (v : gmap Z TCB_t) (k : kernel) : kernel :=
  Kernel (mem k) v (pxCurrentTCB k) (pxDelayedTaskList k) (pxOverflowDelayedTaskList k) (uxTasksDeleted k) (uxCurrentNumberOfTasks k) (xTickCount k) (uxTopReadyPriority k) (xSchedulerRunning k) (uxPendedTicks k) (xYieldPending k) (xNumOfOverflows k) (xNextTaskUnblockTime k) (uxSchedulerSuspended k) (requests k).
Definition with_current (v : list Z) (k : kernel) : kernel :=
  Kernel (mem k) (tcbs k) v (pxDelayedTaskList k) (pxOverflowDelayedTaskList k) (uxTasksDeleted k) (uxCurrentNumberOfTasks k) (xTickCount k) (uxTopReadyPriority k) (xSchedulerRunning k) (uxPendedTicks k) (xYieldPending k) (xNumOfOverflows k) (xNextTaskUnblockTime k) (uxSchedulerSuspended k) (requests k).
Definition with_deleted (v : Z) (k : kernel) : kernel :=
  Kernel (mem k) (tcbs k) (pxCurrentTCB k) (pxDelayedTaskList k) (pxOverflowDelayedTaskList k) v (uxCurrentNumberOfTasks k) (xTickCount k) (uxTopReadyPriority k) (xSchedulerRunning k) (uxPendedTicks k) (xYieldPending k) (xNumOfOverflows k) (xNextTaskUnblockTime k) (uxSchedulerSuspended k) (requests k).
Definition with_count (v : Z) (k : kernel) : kernel :=
  Kernel (mem k) (tcbs k) (pxCurrentTCB k) (pxDelayedTaskList k) (pxOverflowDelayedTaskList k) (uxTasksDeleted k) v (xTickCount k) (uxTopReadyPriority k) (xSchedulerRunning k) (uxPendedTicks k) (xYieldPending k) (xNumOfOverflows k) (xNextTaskUnblockTime k) (uxSchedulerSuspended k) (requests k).
Definition with_tick (v : Z) (k : kernel) : kernel :=
  Kernel (mem k) (tcbs k) (pxCurrentTCB k) (pxDelayedTaskList k) (pxOverflowDelayedTaskList k) (uxTasksDeleted k) (uxCurrentNumberOfTasks k) v (uxTopReadyPriority k) (xSchedulerRunning k) (uxPendedTicks k) (xYieldPending k) (xNumOfOverflows k) (xNextTaskUnblockTime k) (uxSchedulerSuspended k) (requests k).
Definition with_top (v : Z) (k : kernel) : kernel :=
  Kernel (mem k) (tcbs k) (pxCurrentTCB k) (pxDelayedTaskList k) (pxOverflowDelayedTaskList k) (uxTasksDeleted k) (uxCurrentNumberOfTasks k) (xTickCount k) v (xSchedulerRunning k) (uxPendedTicks k) (xYieldPending k) (xNumOfOverflows k) (xNextTaskUnblockTime k) (uxSchedulerSuspended k) (requests k).
Definition with_pended (v : Z) (k : kernel) : kernel :=
  Kernel (mem k) (tcbs k) (pxCurrentTCB k) (pxDelayedTaskList k) (pxOverflowDelayedTaskList k) (uxTasksDeleted k) (uxCurrentNumberOfTasks k) (xTickCount k) (uxTopReadyPriority k) (xSchedulerRunning k) v (xYieldPending k) (xNumOfOverflows k) (xNextTaskUnblockTime k) (uxSchedulerSuspended k) (requests k).
Definition with_yield (v : list bool) (k : kernel) : kernel :=
  Kernel (mem k) (tcbs k) (pxCurrentTCB k) (pxDelayedTaskList k) (pxOverflowDelayedTaskList k) (uxTasksDeleted k) (uxCurrentNumberOfTasks k) (xTickCount k) (uxTopReadyPriority k) (xSchedulerRunning k) (uxPendedTicks k) v (xNumOfOverflows k) (xNextTaskUnblockTime k) (uxSchedulerSuspended k) (requests k).
Definition with_overflows (v : Z) (k : kernel) : kernel :=
  Kernel (mem k) (tcbs k) (pxCurrentTCB k) (pxDelayedTaskList k) (pxOverflowDelayedTaskList k) (uxTasksDeleted k) (uxCurrentNumberOfTasks k) (xTickCount k) (uxTopReadyPriority k) (xSchedulerRunning k) (uxPendedTicks k) (xYieldPending k) v (xNextTaskUnblockTime k) (uxSchedulerSuspended k) (requests k).
Definition with_unblock (v : Z) (k : kernel) : kernel :=
  Kernel (mem k) (tcbs k) (pxCurrentTCB k) (pxDelayedTaskList k) (pxOverflowDelayedTaskList k) (uxTasksDeleted k) (uxCurrentNumberOfTasks k) (xTickCount k) (uxTopReadyPriority k) (xSchedulerRunning k) (uxPendedTicks k) (xYieldPending k) (xNumOfOverflows k) v (uxSchedulerSuspended k) (requests k).
Definition with_suspended (v : list Z) (k : kernel) : kernel :=
  Kernel (mem k) (tcbs k) (pxCurrentTCB k) (pxDelayedTaskList k) (pxOverflowDelayedTaskList k) (uxTasksDeleted k) (uxCurrentNumberOfTasks k) (xTickCount k) (uxTopReadyPriority k) (xSchedulerRunning k) (uxPendedTicks k) (xYieldPending k) (xNumOfOverflows k) (xNextTaskUnblockTime k) v (requests k).
Definition with_requests (v : list request) (k : kernel) : kernel :=
  Kernel (mem k) (tcbs k) (pxCurrentTCB k) (pxDelayedTaskList k) (pxOverflowDelayedTaskList k) (uxTasksDeleted k) (uxCurrentNumberOfTasks k) (xTickCount k) (uxTopReadyPriority k) (xSchedulerRunning k) (uxPendedTicks k) (xYieldPending k) (xNumOfOverflows k) (xNextTaskUnblockTime k) (uxSchedulerSuspended k) v.
Definition with_delayed (d o : Z) (k : kernel) : kernel :=
  Kernel (mem k) (tcbs k) (pxCurrentTCB k) d o (uxTasksDeleted k) (uxCurrentNumberOfTasks k) (xTickCount k) (uxTopReadyPriority k) (xSchedulerRunning k) (uxPendedTicks k) (xYieldPending k) (xNumOfOverflows k) (xNextTaskUnblockTime k) (uxSchedulerSuspended k) (requests k).

(** ** Access to the state *)

Definition on_mem {A} (m : M list_mem A) : M kernel A := fun k =>
  match m (mem k) with Ret (a, s) => Ret (a, with_mem s k) | Stuck e => Stuck e end.
Definition tcb (t : Z) : M kernel TCB_t :=
  k ← get; match tcbs k !! t with Some c => mret c | None => stuck NullDeref end.
Definition set_tcb (t : Z) (f : TCB_t -> TCB_t) : M kernel unit :=
  c ← tcb t; modify (fun k => with_tcbs (<[t := f c]> (tcbs k)) k).
Definition current (core : Z) : M kernel Z := k ← get; lift (rd (pxCurrentTCB k) core).
Definition set_current (core t : Z) : M kernel unit :=
  k ← get; l ← lift (wr (pxCurrentTCB k) core t); modify (with_current l).
Definition suspended (core : Z) : M kernel Z := k ← get; lift (rd (uxSchedulerSuspended k) core).
Definition set_suspended (core n : Z) : M kernel unit :=
  k ← get; l ← lift (wr (uxSchedulerSuspended k) core n); modify (with_suspended l).
Definition yield_pending (core : Z) : M kernel bool := k ← get; lift (rd (xYieldPending k) core).
Definition set_yield (core : Z) (b : bool) : M kernel unit :=
  k ← get; l ← lift (wr (xYieldPending k) core b); modify (with_yield l).
Definition request_ (r : request) : M kernel unit := modify (fun k => with_requests (requests k ++ [r]) k).
(** [vListInsert]: the number of items in memory bounds its loop. *)
Definition insert_ (L n : Z) : M kernel unit := k ← get; on_mem (vListInsert (size (items (mem k))) L n).

Definition set_priority (p : Z) (c : TCB_t) : TCB_t := TCB p (xCoreID c) (uxBasePriority c) (uxMutexesHeld c).
Definition set_held (n : Z) (c : TCB_t) : TCB_t := TCB (uxPriority c) (xCoreID c) (uxBasePriority c) n.

Section Tasks.
Context `{TaskLists}.

(** ** Lists of tasks *)

Definition prvInitialiseTaskLists (core : Z) : M kernel unit :=
  for_ (Z.to_nat configMAX_PRIORITIES) 0 (fun p => on_mem (vListInitialise (ready p)));;
  on_mem (vListInitialise xDelayedTaskList1);;
  on_mem (vListInitialise xDelayedTaskList2);;
  on_mem (vListInitialise (pending core));;
  on_mem (vListInitialise xTasksWaitingTermination);;
  on_mem (vListInitialise xSuspendedTaskList);;
  modify (with_delayed xDelayedTaskList1 xDelayedTaskList2).

Definition taskRECORD_READY_PRIORITY (p : Z) : M kernel unit :=
  k ← get; if uxTopReadyPriority k <? p then modify (with_top p) else mret tt.

Definition prvAddTaskToReadyList (pxTCB : Z) : M kernel unit :=
  c ← tcb pxTCB;
  taskRECORD_READY_PRIORITY (uxPriority c);;
  on_mem (vListInsertEnd (ready (uxPriority c)) (xGenericListItem pxTCB)).

Definition prvResetNextTaskUnblockTime : M kernel unit :=
  k ← get;
  empty ← on_mem (listLIST_IS_EMPTY (pxDelayedTaskList k));
  if (empty : bool) then modify (with_unblock portMAX_DELAY)
  else
    pxTCB ← on_mem (listGET_OWNER_OF_HEAD_ENTRY (pxDelayedTaskList k));
    v ← on_mem (listGET_LIST_ITEM_VALUE (xGenericListItem pxTCB));
    modify (with_unblock v).

Definition prvAddCurrentTaskToDelayedList (core xTimeToWake : Z) : M kernel unit :=
  t ← current core;
  on_mem (listSET_LIST_ITEM_VALUE (xGenericListItem t) xTimeToWake);;
  k ← get;
  if xTimeToWake <? xTickCount k then insert_ (pxOverflowDelayedTaskList k) (xGenericListItem t)
  else
    insert_ (pxDelayedTaskList k) (xGenericListItem t);;
    if xTimeToWake <? xNextTaskUnblockTime k then modify (with_unblock xTimeToWake) else mret tt.

Definition taskSWITCH_DELAYED_LISTS : M kernel unit :=
  k ← get;
  empty ← on_mem (listLIST_IS_EMPTY (pxDelayedTaskList k));
  check empty;;
  modify (with_delayed (pxOverflowDelayedTaskList k) (pxDelayedTaskList k));;
  modify (with_overflows (to_signed 32 (xNumOfOverflows k + 1)));;
  prvResetNextTaskUnblockTime.

Definition tskCAN_RUN_HERE (core cpuid : Z) : bool := (cpuid =? core) || (cpuid =? tskNO_AFFINITY).

(** The array is read only where the value is used: for a task without
    affinity the C code also reads the element [tskNO_AFFINITY]. *)
Definition taskYIELD_OTHER_CORE (core cpuid uxPriority_ : Z) : M kernel unit :=
  if negb (cpuid =? tskNO_AFFINITY) then
    t ← current cpuid;
    c ← tcb t;
    if uxPriority c <? uxPriority_ then request_ (YieldOther cpuid) else mret tt
  else
    (fix other (n : nat) (i : Z) : M kernel unit :=
       match n with
       | O => mret tt
       | S n =>
           if i =? core then other n (i + 1)
           else
             t ← current i;
             c ← tcb t;
             if uxPriority c <? uxPriority_ then request_ (YieldOther i) else other n (i + 1)
       end) (Z.to_nat portNUM_PROCESSORS) 0.

(** Take a task out of its state list and out of an event list. *)
Definition unlink_task (pxTCB : Z) : M kernel unit :=
  on_mem (uxListRemove (xGenericListItem pxTCB));;
  ev ← on_mem (listLIST_ITEM_CONTAINER (xEventListItem pxTCB));
  if ev =? 0 then mret tt else on_mem (uxListRemove (xEventListItem pxTCB));; mret tt.

(** ** The tick *)

(** Move tasks whose time has come to the ready lists. *)
Fixpoint unblock_loop (fuel : nat) (core xConstTickCount : Z) (xSwitchRequired : bool) : M kernel bool :=
  match fuel with
  | O => stuck OutOfFuel
  | S fuel =>
      k ← get;
      empty ← on_mem (listLIST_IS_EMPTY (pxDelayedTaskList k));
      if (empty : bool) then modify (with_unblock portMAX_DELAY);; mret xSwitchRequired
      else
        pxTCB ← on_mem (listGET_OWNER_OF_HEAD_ENTRY (pxDelayedTaskList k));
        xItemValue ← on_mem (listGET_LIST_ITEM_VALUE (xGenericListItem pxTCB));
        if xConstTickCount <? xItemValue then modify (with_unblock xItemValue);; mret xSwitchRequired
        else
          unlink_task pxTCB;;
          prvAddTaskToReadyList pxTCB;;
          c ← tcb pxTCB;
          cur ← current core;
          cc ← tcb cur;
          unblock_loop fuel core xConstTickCount (if uxPriority cc <=? uxPriority c then true else xSwitchRequired)
  end.

Definition xTaskIncrementTick (core : Z) : M kernel bool :=
  if negb (core =? 0) then request_ (TickHook core);; mret true
  else
    n ← suspended core;
    xSwitchRequired ←
      (if n =? 0 then
         modify (fun k => with_tick (u32 (xTickCount k + 1)) k);;
         k ← get;
         let xConstTickCount := xTickCount k in
         (if xConstTickCount =? 0 then taskSWITCH_DELAYED_LISTS else mret tt);;
         k ← get;
         sw ← (if xNextTaskUnblockTime k <=? xConstTickCount
               then unblock_loop (S (size (items (mem k)))) core xConstTickCount false else mret false);
         cur ← current core;
         cc ← tcb cur;
         len ← on_mem (listCURRENT_LIST_LENGTH (ready (uxPriority cc)));
         let sw := if 1 <? len then true else sw in
         k ← get;
         (if uxPendedTicks k =? 0 then request_ (TickHook core) else mret tt);;
         mret sw
       else
         modify (fun k => with_pended (u32 (uxPendedTicks k + 1)) k);;
         request_ (TickHook core);;
         mret false);
    y ← yield_pending core;
    mret (if (y : bool) then true else xSwitchRequired).

(** ** Delays *)

Definition vTaskDelay (core xTicksToDelay : Z) : M kernel unit :=
  (if 0 <? xTicksToDelay then
     n ← suspended core;
     check (n =? 0);;
     k ← get;
     let xTimeToWake := u32 (xTickCount k + xTicksToDelay) in
     t ← current core;
     on_mem (uxListRemove (xGenericListItem t));;
     prvAddCurrentTaskToDelayedList core xTimeToWake
   else mret tt);;
  request_ (Yield core).

(** ** Suspension of the scheduler *)

Definition vTaskSuspendAll (core : Z) : M kernel unit := n ← suspended core; set_suspended core (u32 (n + 1)).

Fixpoint pending_loop (fuel : nat) (core : Z) : M kernel unit :=
  match fuel with
  | O => stuck OutOfFuel
  | S fuel =>
      empty ← on_mem (listLIST_IS_EMPTY (pending core));
      if (empty : bool) then mret tt
      else
        pxTCB ← on_mem (listGET_OWNER_OF_HEAD_ENTRY (pending core));
        on_mem (uxListRemove (xEventListItem pxTCB));;
        on_mem (uxListRemove (xGenericListItem pxTCB));;
        prvAddTaskToReadyList pxTCB;;
        c ← tcb pxTCB;
        cur ← current core;
        cc ← tcb cur;
        if tskCAN_RUN_HERE core (xCoreID c) && (uxPriority cc <=? uxPriority c) then set_yield core true
        else pending_loop fuel core
  end.

Fixpoint pended_ticks (fuel : nat) (core : Z) : M kernel unit :=
  match fuel with
  | O => stuck OutOfFuel
  | S fuel =>
      k ← get;
      if 0 <? uxPendedTicks k then
        sw ← xTaskIncrementTick core;
        (if (sw : bool) then set_yield core true else mret tt);;
        modify (fun k => with_pended (u32 (uxPendedTicks k - 1)) k);;
        pended_ticks fuel core
      else mret tt
  end.

Definition xTaskResumeAll (core : Z) : M kernel bool :=
  n ← suspended core;
  check (negb (n =? 0));;
  set_suspended core (u32 (n - 1));;
  n ← suspended core;
  k ← get;
  if (n =? 0) && (0 <? uxCurrentNumberOfTasks k) then
    pending_loop (S (size (items (mem k)))) core;;
    k ← get;
    pended_ticks (S (Z.to_nat (uxPendedTicks k))) core;;
    y ← yield_pending core;
    if (y : bool) then request_ (Yield core);; mret true else mret false
  else mret false.

(** ** The choice of the task to run *)

(** Turn the list until its index is at the task [pxRefTCB]. *)
Fixpoint rewind (fuel : nat) (L pxRefTCB : Z) : M kernel unit :=
  match fuel with
  | O => stuck OutOfFuel
  | S fuel =>
      pxResetTCB ← on_mem (listGET_OWNER_OF_NEXT_ENTRY L);
      if pxResetTCB =? pxRefTCB then mret tt else rewind fuel L pxRefTCB
  end.

(** Is the task the current one of another CPU? *)
Fixpoint executing (n : nat) (i core pxTCB : Z) : M kernel bool :=
  match n with
  | O => mret false
  | S n =>
      if i =? core then executing n (i + 1) core pxTCB
      else
        t ← current i;
        if t =? pxTCB then mret true else executing n (i + 1) core pxTCB
  end.

(** Look through one ready list; returns [ableToSchedule] and [holdTop]. *)
Fixpoint scan (fuel : nat) (core L pxRefTCB : Z) (resetListHead holdTop : bool) : M kernel (bool * bool) :=
  match fuel with
  | O => stuck OutOfFuel
  | S fuel =>
      pxTCB ← on_mem (listGET_OWNER_OF_NEXT_ENTRY L);
      ex ← executing (Z.to_nat portNUM_PROCESSORS) 0 core pxTCB;
      able ←
        (if (ex : bool) then mret false
         else
           c ← tcb pxTCB;
           if (xCoreID c =? tskNO_AFFINITY) || (xCoreID c =? core)
           then set_current core pxTCB;; mret true
           else mret false);
      if (able : bool) then
        k ← get;
        (if resetListHead then rewind (size (items (mem k))) L pxRefTCB else mret tt);;
        mret (true, holdTop)
      else if pxTCB =? pxRefTCB then mret (false, true)
      else scan fuel core L pxRefTCB true true
  end.

(** The task at the index, at which the look through the list ends. *)
Definition reference (L : Z) : M kernel Z :=
  l ← on_mem (list_ L);
  i ← on_mem (item (pxIndex l));
  if pxIndex l =? xListEnd L then on_mem (listGET_OWNER_OF_NEXT_ENTRY L) else mret (pvOwner i).

(** The priorities below [n], from the highest. *)
Fixpoint select_task (n : nat) (core : Z) (holdTop : bool) : M kernel unit :=
  match n with
  | O => mret tt
  | S n =>
      let L := ready (Z.of_nat n) in
      empty ← on_mem (listLIST_IS_EMPTY L);
      if (empty : bool) then
        (if holdTop then mret tt else modify (fun k => with_top (u32 (uxTopReadyPriority k - 1)) k));;
        select_task n core holdTop
      else
        pxRefTCB ← reference L;
        k ← get;
        '(able, holdTop) ← scan (size (items (mem k))) core L pxRefTCB false holdTop;
        if (able : bool) then mret tt else select_task n core holdTop
  end.

Definition vTaskSwitchContext (core : Z) : M kernel unit :=
  n ← suspended core;
  if negb (n =? 0) then set_yield core true
  else
    set_yield core false;;
    k ← get;
    select_task (Z.to_nat (to_signed 32 (uxTopReadyPriority k) + 1)) core false.

(** ** Event lists *)

(** The current task leaves its ready list, for ever or until a time. *)
Definition block_current (core xTicksToWait : Z) : M kernel unit :=
  t ← current core;
  on_mem (uxListRemove (xGenericListItem t));;
  if xTicksToWait =? portMAX_DELAY then on_mem (vListInsertEnd xSuspendedTaskList (xGenericListItem t))
  else k ← get; prvAddCurrentTaskToDelayedList core (u32 (xTickCount k + xTicksToWait)).

Definition vTaskPlaceOnEventList (core pxEventList xTicksToWait : Z) : M kernel unit :=
  check (negb (pxEventList =? 0));;
  t ← current core;
  insert_ pxEventList (xEventListItem t);;
  block_current core xTicksToWait.

Definition vTaskPlaceOnUnorderedEventList (core pxEventList xItemValue xTicksToWait : Z) : M kernel unit :=
  check (negb (pxEventList =? 0));;
  n ← suspended core;
  check (negb (n =? 0));;
  t ← current core;
  on_mem (listSET_LIST_ITEM_VALUE (xEventListItem t) (Z.lor xItemValue taskEVENT_LIST_ITEM_VALUE_IN_USE));;
  on_mem (vListInsertEnd pxEventList (xEventListItem t));;
  block_current core xTicksToWait.

Definition vTaskPlaceOnEventListRestricted (core pxEventList xTicksToWait : Z) : M kernel unit :=
  check (negb (pxEventList =? 0));;
  t ← current core;
  on_mem (vListInsertEnd pxEventList (xEventListItem t));;
  on_mem (uxListRemove (xGenericListItem t));;
  k ← get;
  prvAddCurrentTaskToDelayedList core (u32 (xTickCount k + xTicksToWait)).

(** Does the unblocked task call for a switch, here or on the other CPU? *)
Definition yield_for (core pxUnblockedTCB : Z) : M kernel bool :=
  c ← tcb pxUnblockedTCB;
  cur ← current core;
  cc ← tcb cur;
  if tskCAN_RUN_HERE core (xCoreID c) && (uxPriority cc <=? uxPriority c) then set_yield core true;; mret true
  else if negb (xCoreID c =? core) then taskYIELD_OTHER_CORE core (xCoreID c) (uxPriority c);; mret false
  else mret false.

Definition xTaskRemoveFromEventList (core pxEventList : Z) : M kernel bool :=
  empty ← on_mem (listLIST_IS_EMPTY pxEventList);
  if (empty : bool) then mret false
  else
    pxUnblockedTCB ← on_mem (listGET_OWNER_OF_HEAD_ENTRY pxEventList);
    check (negb (pxUnblockedTCB =? 0));;
    on_mem (uxListRemove (xEventListItem pxUnblockedTCB));;
    n ← suspended core;
    (if n =? 0 then
       on_mem (uxListRemove (xGenericListItem pxUnblockedTCB));;
       prvAddTaskToReadyList pxUnblockedTCB
     else on_mem (vListInsertEnd (pending core) (xEventListItem pxUnblockedTCB)));;
    yield_for core pxUnblockedTCB.

Definition xTaskRemoveFromUnorderedEventList (core pxEventListItem xItemValue : Z) : M kernel bool :=
  n ← suspended core;
  check (negb (n =? 0));;
  on_mem (listSET_LIST_ITEM_VALUE pxEventListItem (Z.lor xItemValue taskEVENT_LIST_ITEM_VALUE_IN_USE));;
  pxUnblockedTCB ← on_mem (listGET_LIST_ITEM_OWNER pxEventListItem);
  check (negb (pxUnblockedTCB =? 0));;
  on_mem (uxListRemove pxEventListItem);;
  on_mem (uxListRemove (xGenericListItem pxUnblockedTCB));;
  prvAddTaskToReadyList pxUnblockedTCB;;
  yield_for core pxUnblockedTCB.

Definition uxTaskResetEventItemValue (core : Z) : M kernel Z :=
  t ← current core;
  uxReturn ← on_mem (listGET_LIST_ITEM_VALUE (xEventListItem t));
  c ← tcb t;
  on_mem (listSET_LIST_ITEM_VALUE (xEventListItem t) (u32 (configMAX_PRIORITIES - uxPriority c)));;
  mret uxReturn.

(** ** Time-outs *)

Record TimeOut_t : Type := TimeOut { xOverflowCount : Z; xTimeOnEntering : Z }.

Definition vTaskSetTimeOutState : M kernel TimeOut_t := k ← get; mret (TimeOut (xNumOfOverflows k) (xTickCount k)).

(** Returns whether the time is over, and the new contents of both arguments. *)
Definition xTaskCheckForTimeOut (pxTimeOut : TimeOut_t) (pxTicksToWait : Z) : M kernel (bool * TimeOut_t * Z) :=
  k ← get;
  let xConstTickCount := xTickCount k in
  if pxTicksToWait =? portMAX_DELAY then mret (false, pxTimeOut, pxTicksToWait)
  else if negb (xNumOfOverflows k =? xOverflowCount pxTimeOut) && (xTimeOnEntering pxTimeOut <=? xConstTickCount)
  then mret (true, pxTimeOut, pxTicksToWait)
  else if u32 (xConstTickCount - xTimeOnEntering pxTimeOut) <? pxTicksToWait then
    t ← vTaskSetTimeOutState;
    mret (false, t, u32 (pxTicksToWait - u32 (xConstTickCount - xTimeOnEntering pxTimeOut)))
  else mret (true, pxTimeOut, pxTicksToWait).

(** ** Suspension of tasks *)

Definition prvGetTCBFromHandle (core pxHandle : Z) : M kernel Z := if pxHandle =? 0 then current core else mret pxHandle.

Definition vTaskSuspend (core xTaskToSuspend : Z) : M kernel unit :=
  pxTCB ← prvGetTCBFromHandle core xTaskToSuspend;
  unlink_task pxTCB;;
  on_mem (vListInsertEnd xSuspendedTaskList (xGenericListItem pxTCB));;
  curTCB ← current core;
  k ← get;
  if pxTCB =? curTCB then
    if xSchedulerRunning k then
      n ← suspended core;
      check (n =? 0);;
      request_ (Yield core)
    else
      len ← on_mem (listCURRENT_LIST_LENGTH xSuspendedTaskList);
      if len =? uxCurrentNumberOfTasks k then set_current core 0 else vTaskSwitchContext core
  else if xSchedulerRunning k then prvResetNextTaskUnblockTime else mret tt.

Definition prvTaskIsTaskSuspended (core xTask : Z) : M kernel bool :=
  check (negb (xTask =? 0));;
  a ← on_mem (listIS_CONTAINED_WITHIN xSuspendedTaskList (xGenericListItem xTask));
  if (a : bool) then
    b ← on_mem (listIS_CONTAINED_WITHIN (pending core) (xEventListItem xTask));
    if (b : bool) then mret false else on_mem (listIS_CONTAINED_WITHIN 0 (xEventListItem xTask))
  else mret false.

Definition vTaskResume (core xTaskToResume : Z) : M kernel unit :=
  check (negb (xTaskToResume =? 0));;
  cur ← current core;
  if negb (xTaskToResume =? 0) && negb (xTaskToResume =? cur) then
    s ← prvTaskIsTaskSuspended core xTaskToResume;
    if (s : bool) then
      on_mem (uxListRemove (xGenericListItem xTaskToResume));;
      prvAddTaskToReadyList xTaskToResume;;
      c ← tcb xTaskToResume;
      cc ← tcb cur;
      if tskCAN_RUN_HERE core (xCoreID c) && (uxPriority cc <=? uxPriority c) then request_ (Yield core)
      else if negb (xCoreID c =? core) then taskYIELD_OTHER_CORE core (xCoreID c) (uxPriority c)
      else mret tt
    else mret tt
  else mret tt.

Definition xTaskResumeFromISR (core xTaskToResume : Z) : M kernel bool :=
  check (negb (xTaskToResume =? 0));;
  s ← prvTaskIsTaskSuspended core xTaskToResume;
  if (s : bool) then
    n ← suspended core;
    if n =? 0 then
      on_mem (uxListRemove (xGenericListItem xTaskToResume));;
      prvAddTaskToReadyList xTaskToResume;;
      c ← tcb xTaskToResume;
      cur ← current core;
      cc ← tcb cur;
      if tskCAN_RUN_HERE core (xCoreID c) && (uxPriority cc <=? uxPriority c) then mret true
      else if negb (xCoreID c =? core) then taskYIELD_OTHER_CORE core (xCoreID c) (uxPriority c);; mret false
      else mret false
    else on_mem (vListInsertEnd (pending core) (xEventListItem xTaskToResume));; mret false
  else mret false.

(** ** Creation and deletion *)

(** The CPU whose current task a new task without affinity competes with. *)
Definition start_core (core pxNewTCB xCoreID_ : Z) : M kernel Z :=
  if xCoreID_ =? tskNO_AFFINITY then
    tcb0 ← current 0;
    tcb1 ← current 1;
    if tcb0 =? 0 then mret 0
    else if tcb1 =? 0 then mret 1
    else
      c0 ← tcb tcb0;
      c1 ← tcb tcb1;
      cn ← tcb pxNewTCB;
      if (uxPriority c0 <? uxPriority cn) && (uxPriority c0 <? uxPriority c1) then mret 0
      else if uxPriority c1 <? uxPriority cn then mret 1
      else mret core
  else mret xCoreID_.

Definition prvAddNewTaskToReadyList (core pxNewTCB xCoreID_ : Z) : M kernel unit :=
  check ((xCoreID_ =? tskNO_AFFINITY) || (xCoreID_ <? portNUM_PROCESSORS));;
  modify (fun k => with_count (u32 (uxCurrentNumberOfTasks k + 1)) k);;
  cpu ← start_core core pxNewTCB xCoreID_;
  cur ← current cpu;
  k ← get;
  (if cur =? 0 then
     set_current cpu pxNewTCB;;
     if uxCurrentNumberOfTasks k =? 1 then prvInitialiseTaskLists core else mret tt
   else if xSchedulerRunning k then mret tt
   else
     cc ← tcb cur;
     cn ← tcb pxNewTCB;
     if uxPriority cc <=? uxPriority cn then set_current cpu pxNewTCB else mret tt);;
  prvAddTaskToReadyList pxNewTCB;;
  if xSchedulerRunning k then
    curTCB ← current cpu;
    cn ← tcb pxNewTCB;
    lower ← (if curTCB =? 0 then mret true else cc ← tcb curTCB; mret (uxPriority cc <? uxPriority cn));
    if (lower : bool) then
      if cpu =? core then request_ (Yield core) else taskYIELD_OTHER_CORE core cpu (uxPriority cn)
    else mret tt
  else mret tt.

Definition vTaskDelete (core xTaskToDelete : Z) : M kernel unit :=
  pxTCB ← prvGetTCBFromHandle core xTaskToDelete;
  unlink_task pxTCB;;
  on_mem (vListInsertEnd xTasksWaitingTermination (xGenericListItem pxTCB));;
  modify (fun k => with_deleted (u32 (uxTasksDeleted k + 1)) k);;
  k ← get;
  if xSchedulerRunning k then
    cur ← current core;
    if pxTCB =? cur then
      n ← suspended core;
      check (n =? 0);;
      request_ (Yield core)
    else prvResetNextTaskUnblockTime
  else mret tt.

(** Called by the idle task; [prvDeleteTCB] returns the memory of the task. *)
Fixpoint prvCheckTasksWaitingTermination (fuel : nat) : M kernel unit :=
  match fuel with
  | O => stuck OutOfFuel
  | S fuel =>
      k ← get;
      if 0 <? uxTasksDeleted k then
        xListIsEmpty ← on_mem (listLIST_IS_EMPTY xTasksWaitingTermination);
        (if (xListIsEmpty : bool) then mret tt
         else
           pxTCB ← on_mem (listGET_OWNER_OF_HEAD_ENTRY xTasksWaitingTermination);
           on_mem (uxListRemove (xGenericListItem pxTCB));;
           modify (fun k => with_count (u32 (uxCurrentNumberOfTasks k - 1)) k);;
           modify (fun k => with_deleted (u32 (uxTasksDeleted k - 1)) k);;
           modify (fun k => with_tcbs (delete pxTCB (tcbs k)) k);;
           request_ (FreeTCB pxTCB));;
        prvCheckTasksWaitingTermination fuel
      else mret tt
  end.

(** ** Priorities *)

(** The value of an event list item that is not borrowed. *)
Definition reset_event_value (pxTCB p : Z) : M kernel unit :=
  v ← on_mem (listGET_LIST_ITEM_VALUE (xEventListItem pxTCB));
  if Z.land v taskEVENT_LIST_ITEM_VALUE_IN_USE =? 0
  then on_mem (listSET_LIST_ITEM_VALUE (xEventListItem pxTCB) (u32 (configMAX_PRIORITIES - p)))
  else mret tt.

Definition vTaskPriorityInherit (core pxMutexHolder : Z) : M kernel unit :=
  if pxMutexHolder =? 0 then mret tt
  else
    c ← tcb pxMutexHolder;
    cur ← current core;
    cc ← tcb cur;
    if uxPriority c <? uxPriority cc then
      reset_event_value pxMutexHolder (uxPriority cc);;
      r ← on_mem (listIS_CONTAINED_WITHIN (ready (uxPriority c)) (xGenericListItem pxMutexHolder));
      if (r : bool) then
        on_mem (uxListRemove (xGenericListItem pxMutexHolder));;
        set_tcb pxMutexHolder (set_priority (uxPriority cc));;
        prvAddTaskToReadyList pxMutexHolder
      else set_tcb pxMutexHolder (set_priority (uxPriority cc))
    else mret tt.

Definition xTaskPriorityDisinherit (pxMutexHolder : Z) : M kernel bool :=
  if pxMutexHolder =? 0 then mret false
  else
    c ← tcb pxMutexHolder;
    check (negb (uxMutexesHeld c =? 0));;
    set_tcb pxMutexHolder (set_held (u32 (uxMutexesHeld c - 1)));;
    c ← tcb pxMutexHolder;
    if negb (uxPriority c =? uxBasePriority c) && (uxMutexesHeld c =? 0) then
      on_mem (uxListRemove (xGenericListItem pxMutexHolder));;
      set_tcb pxMutexHolder (set_priority (uxBasePriority c));;
      on_mem (listSET_LIST_ITEM_VALUE (xEventListItem pxMutexHolder) (u32 (configMAX_PRIORITIES - uxBasePriority c)));;
      prvAddTaskToReadyList pxMutexHolder;;
      mret true
    else mret false.

Definition pvTaskIncrementMutexHeldCount (core : Z) : M kernel Z :=
  cur ← current core;
  (if cur =? 0 then mret tt else set_tcb cur (fun c => set_held (u32 (uxMutexesHeld c + 1)) c));;
  current core.

Definition vTaskPrioritySet (core xTask uxNewPriority : Z) : M kernel unit :=
  check (uxNewPriority <? configMAX_PRIORITIES);;
  let uxNewPriority := if configMAX_PRIORITIES <=? uxNewPriority then configMAX_PRIORITIES - 1 else uxNewPriority in
  pxTCB ← prvGetTCBFromHandle core xTask;
  c ← tcb pxTCB;
  if uxBasePriority c =? uxNewPriority then mret tt
  else
    cur ← current core;
    xYieldRequired ←
      (if uxBasePriority c <? uxNewPriority then
         if pxTCB =? cur then mret false
         else
           cc ← tcb cur;
           if tskCAN_RUN_HERE core (xCoreID c) && (uxPriority cc <=? uxNewPriority) then mret true
           else if negb (xCoreID c =? core) then taskYIELD_OTHER_CORE core (xCoreID c) uxNewPriority;; mret false
           else mret false
       else mret (pxTCB =? cur));
    let uxPriorityUsedOnEntry := uxPriority c in
    set_tcb pxTCB (fun c => TCB (if uxBasePriority c =? uxPriority c then uxNewPriority else uxPriority c)
                                (xCoreID c) uxNewPriority (uxMutexesHeld c));;
    reset_event_value pxTCB uxNewPriority;;
    r ← on_mem (listIS_CONTAINED_WITHIN (ready uxPriorityUsedOnEntry) (xGenericListItem pxTCB));
    (if (r : bool) then
       on_mem (uxListRemove (xGenericListItem pxTCB));;
       prvAddTaskToReadyList pxTCB
     else mret tt);;
    if (xYieldRequired : bool) then request_ (Yield core) else mret tt.

End Tasks.
