(* ===== verification/RtosSched.v ===== *)
(** * Scheduling and time in the FreeRTOS kernel: theorems about [RtosTasks]

    The invariant [wf] relates the kernel's variables to a view of its lists;
    the specifications of the helper functions of tasks.c are updates of the
    view.  On top of them: the choice of the task to run, the tick and delays,
    time-outs. *)

From stdpp Require Import sorting.
From S2P Require Import Prelude RtosList RtosStore RtosTasks.

#[local] Open Scope Z_scope.

(** ** Running the accesses *)

Lemma wp_on_mem {A} (m : M list_mem A) (Q : A -> kernel -> Prop) k :
  wp m (fun a s => Q a (with_mem s k)) (mem k) -> wp (on_mem m) Q k.
Proof. unfold wp, on_mem. destruct (m (mem k)) as [[a s]|]; done. Qed.

Lemma with_mem_id k : with_mem (mem k) k = k.
Proof. by destruct k. Qed.

Lemma wp_tcb t c (Q : TCB_t -> kernel -> Prop) k : tcbs k !! t = Some c -> Q c k -> wp (tcb t) Q k.
Proof. intros E HQ. unfold tcb. do 2 wp_step. rewrite E. by wp_step. Qed.

Lemma wp_set_tcb t c f (Q : unit -> kernel -> Prop) k :
  tcbs k !! t = Some c -> Q tt (with_tcbs (<[t := f c]> (tcbs k)) k) -> wp (set_tcb t f) Q k.
Proof. intros E HQ. unfold set_tcb. apply wp_bind. eapply wp_tcb; [exact E|]. by wp_step. Qed.

Definition is_core (core : Z) : Prop := core = 0 \/ core = 1.

(** The arrays that have an element for each CPU. *)
Record arrays_ok (k : kernel) : Prop := {
  ao_current : length (pxCurrentTCB k) = 2%nat;
  ao_yield : length (xYieldPending k) = 2%nat;
  ao_suspended : length (uxSchedulerSuspended k) = 2%nat
}.

Definition cur (k : kernel) (core : Z) : Z := at_ 0 (pxCurrentTCB k) core.
Definition susp (k : kernel) (core : Z) : Z := at_ 0 (uxSchedulerSuspended k) core.
Definition yieldp (k : kernel) (core : Z) : bool := at_ false (xYieldPending k) core.

Lemma core_range core (n : nat) : is_core core -> n = 2%nat -> 0 <= core < Z.of_nat n.
Proof. intros [->| ->] ->; lia. Qed.

Lemma wp_current core (Q : Z -> kernel -> Prop) k : arrays_ok k -> is_core core -> Q (cur k core) k -> wp (current core) Q k.
Proof. intros [Ha _ _] Hc HQ. unfold current. do 2 wp_step. eapply wp_lift; [apply rd_in; by apply core_range|]. exact HQ. Qed.

Lemma wp_suspended core (Q : Z -> kernel -> Prop) k : arrays_ok k -> is_core core -> Q (susp k core) k -> wp (suspended core) Q k.
Proof. intros [_ _ Ha] Hc HQ. unfold suspended. do 2 wp_step. eapply wp_lift; [apply rd_in; by apply core_range|]. exact HQ. Qed.

Lemma wp_yield_pending core (Q : bool -> kernel -> Prop) k : arrays_ok k -> is_core core -> Q (yieldp k core) k -> wp (yield_pending core) Q k.
Proof. intros [_ Ha _] Hc HQ. unfold yield_pending. do 2 wp_step. eapply wp_lift; [apply rd_in; by apply core_range|]. exact HQ. Qed.

Lemma wp_set_current core t (Q : unit -> kernel -> Prop) k :
  arrays_ok k -> is_core core -> Q tt (with_current (<[Z.to_nat core := t]> (pxCurrentTCB k)) k) -> wp (set_current core t) Q k.
Proof. intros [Ha _ _] Hc HQ. unfold set_current. do 2 wp_step. wp_step. eapply wp_lift; [apply wr_in; by apply core_range|]. by wp_step. Qed.

Lemma wp_set_yield core b (Q : unit -> kernel -> Prop) k :
  arrays_ok k -> is_core core -> Q tt (with_yield (<[Z.to_nat core := b]> (xYieldPending k)) k) -> wp (set_yield core b) Q k.
Proof. intros [_ Ha _] Hc HQ. unfold set_yield. do 2 wp_step. wp_step. eapply wp_lift; [apply wr_in; by apply core_range|]. by wp_step. Qed.

Lemma wp_set_suspended core n (Q : unit -> kernel -> Prop) k :
  arrays_ok k -> is_core core -> Q tt (with_suspended (<[Z.to_nat core := n]> (uxSchedulerSuspended k)) k) -> wp (set_suspended core n) Q k.
Proof. intros [_ _ Ha] Hc HQ. unfold set_suspended. do 2 wp_step. wp_step. eapply wp_lift; [apply wr_in; by apply core_range|]. by wp_step. Qed.

(** ** The invariant *)

(** The lists of the kernel are distinct variables. *)
Class TaskListsLaws (T : TaskLists) : Prop := {
  tl_delayed1 : forall p, 0 <= p < configMAX_PRIORITIES -> ready p <> xDelayedTaskList1;
  tl_delayed2 : forall p, 0 <= p < configMAX_PRIORITIES -> ready p <> xDelayedTaskList2;
  tl_suspended : forall p, 0 <= p < configMAX_PRIORITIES -> ready p <> xSuspendedTaskList;
  tl_both : xDelayedTaskList1 <> xDelayedTaskList2;
  tl_susp1 : xSuspendedTaskList <> xDelayedTaskList1;
  tl_susp2 : xSuspendedTaskList <> xDelayedTaskList2
}.

Lemma ready_inj `{TaskLists} p p' : ready p = ready p' -> p = p'.
Proof. unfold ready. lia. Qed.

(** The sequence of a list. *)
Definition sq (V : view) (L : Z) : list Z := match V !! L with Some (xs, _) => xs | None => [] end.

Lemma sq_lookup V L xs i : V !! L = Some (xs, i) -> sq V L = xs.
Proof. unfold sq. by intros ->. Qed.

Lemma sq_in V L x : x ∈ sq V L -> exists xs i, V !! L = Some (xs, i) /\ x ∈ xs.
Proof. unfold sq. destruct (V !! L) as [[xs i]|]; [|set_solver]. intros Hx. by exists xs, i. Qed.

Lemma is_Some_pair V L : is_Some (V !! L) -> exists i, V !! L = Some (sq V L, i).
Proof. intros [[xs i] E]. exists i. by rewrite (sq_lookup _ _ _ _ E). Qed.

Lemma sq_view_remove L n V L' : sq (view_remove L n V) L' = if decide (L' = L) then filter (fun x => x <> n) (sq V L) else sq V L'.
Proof.
  unfold view_remove, sq. destruct (V !! L) as [[xs i]|] eqn:E.
  - rewrite lookup_insert. repeat case_decide; subst; done.
  - case_decide; subst; [by rewrite E|done].
Qed.

Lemma sq_view_insert f L n V L' :
  is_Some (V !! L) -> sq (view_insert f L n V) L' = if decide (L' = L) then sorted_insert f n (sq V L) else sq V L'.
Proof. intros [[xs i] E]. unfold view_insert, sq. rewrite E, lookup_insert. repeat case_decide; subst; done. Qed.

Lemma sq_view_insert_end L n V L' i :
  V !! L = Some (sq V L, i) -> sq (view_insert_end L n V) L' = if decide (L' = L) then insert_before i n (sq V L) else sq V L'.
Proof. intros E. unfold view_insert_end. rewrite E. unfold sq at 1. rewrite lookup_insert. repeat case_decide; subst; done. Qed.

Lemma sq_view_next L n V L' : sq (view_next L n V) L' = sq V L'.
Proof. unfold view_next, sq. destruct (V !! L) as [[xs i]|] eqn:E; [|done]. rewrite lookup_insert. case_decide; [subst; by rewrite E|done]. Qed.

Lemma view_insert_ext f g L n V : (forall x, f x = g x) -> view_insert f L n V = view_insert g L n V.
Proof. intros E. unfold view_insert. destruct (V !! L) as [[xs i]|]; [|done]. by rewrite (sorted_insert_ext f g). Qed.

Lemma live_view_remove L n V L' : is_Some (view_remove L n V !! L') <-> is_Some (V !! L').
Proof. unfold view_remove. destruct (V !! L) as [[xs i]|] eqn:E; [|done]. rewrite lookup_insert. case_decide; [subst; rewrite E|done]. by split; eexists. Qed.
Lemma live_view_insert f L n V L' : is_Some (view_insert f L n V !! L') <-> is_Some (V !! L').
Proof. unfold view_insert. destruct (V !! L) as [[xs i]|] eqn:E; [|done]. rewrite lookup_insert. case_decide; [subst; rewrite E|done]. by split; eexists. Qed.
Lemma live_view_insert_end L n V L' : is_Some (view_insert_end L n V !! L') <-> is_Some (V !! L').
Proof. unfold view_insert_end. destruct (V !! L) as [[xs i]|] eqn:E; [|done]. rewrite lookup_insert. case_decide; [subst; rewrite E|done]. by split; eexists. Qed.
Lemma live_view_next L n V L' : is_Some (view_next L n V !! L') <-> is_Some (V !! L').
Proof. unfold view_next. destruct (V !! L) as [[xs i]|] eqn:E; [|done]. rewrite lookup_insert. case_decide; [subst; rewrite E|done]. by split; eexists. Qed.

(** An item in a list of the view. *)
Definition linked (V : view) (x : Z) : Prop := exists L, x ∈ sq V L.

Section Invariant.
Context {T : TaskLists} {TL : TaskListsLaws T}.

Definition state_list (L : Z) : Prop :=
  (exists p, 0 <= p < configMAX_PRIORITIES /\ L = ready p) \/ L = xDelayedTaskList1 \/ L = xDelayedTaskList2 \/ L = xSuspendedTaskList.

(** What holds between the lists and the task control blocks. *)
Record wf (k : kernel) (V : view) : Prop := {
  w_store : store (mem k) V;
  w_arrays : arrays_ok k;
  w_tasks : forall t c, tcbs k !! t = Some c ->
    0 <= uxPriority c < configMAX_PRIORITIES /\ t <> 0
    /\ owner (mem k) (xGenericListItem t) = Some t /\ owner (mem k) (xEventListItem t) = Some t
    /\ forall L, is_Some (V !! L) -> xListEnd L <> xGenericListItem t /\ xListEnd L <> xEventListItem t;
  w_lists : forall L, state_list L -> is_Some (V !! L);
  w_ready : forall p x, 0 <= p < configMAX_PRIORITIES -> x ∈ sq V (ready p) ->
    exists t c, x = xGenericListItem t /\ tcbs k !! t = Some c /\ uxPriority c = p;
  w_top : 0 <= uxTopReadyPriority k < configMAX_PRIORITIES;
  w_top_max : forall p x, 0 <= p < configMAX_PRIORITIES -> x ∈ sq V (ready p) -> p <= uxTopReadyPriority k;
  w_which : pxDelayedTaskList k = xDelayedTaskList1 /\ pxOverflowDelayedTaskList k = xDelayedTaskList2
            \/ pxDelayedTaskList k = xDelayedTaskList2 /\ pxOverflowDelayedTaskList k = xDelayedTaskList1;
  w_sleepers : forall L x, L = pxDelayedTaskList k \/ L = pxOverflowDelayedTaskList k -> x ∈ sq V L ->
    exists t c, x = xGenericListItem t /\ tcbs k !! t = Some c;
  w_sorted : forall L, L = pxDelayedTaskList k \/ L = pxOverflowDelayedTaskList k ->
    StronglySorted (fun x y => key (mem k) x <= key (mem k) y) (sq V L);
  w_overflow : forall x, x ∈ sq V (pxOverflowDelayedTaskList k) -> key (mem k) x < xTickCount k;
  w_next : forall x, x ∈ sq V (pxDelayedTaskList k) -> xNextTaskUnblockTime k <= key (mem k) x;
  w_tick : 0 <= xTickCount k < 2 ^ 32
}.

(** No task sleeps past its time. *)
Definition on_time (k : kernel) (V : view) : Prop := forall x, x ∈ sq V (pxDelayedTaskList k) -> xTickCount k < key (mem k) x.

Lemma state_ready p : 0 <= p < configMAX_PRIORITIES -> state_list (ready p).
Proof. intros Hp. left. by exists p. Qed.
Lemma state_delayed k V : wf k V -> state_list (pxDelayedTaskList k) /\ state_list (pxOverflowDelayedTaskList k).
Proof. intros HW. destruct (w_which _ _ HW) as [[-> ->]|[-> ->]]; unfold state_list; tauto. Qed.

(** The sleepers' lists are not ready lists, and differ. *)
Lemma delayed_apart k V : wf k V ->
  pxDelayedTaskList k <> pxOverflowDelayedTaskList k
  /\ forall p, 0 <= p < configMAX_PRIORITIES -> ready p <> pxDelayedTaskList k /\ ready p <> pxOverflowDelayedTaskList k.
Proof.
  intros HW. pose proof tl_both. destruct (w_which _ _ HW) as [[-> ->]|[-> ->]]; (split; [congruence|]); intros p Hp;
    split; (apply tl_delayed1 || apply tl_delayed2); done.
Qed.

Lemma item_task k V t c : wf k V -> tcbs k !! t = Some c ->
  is_Some (items (mem k) !! xGenericListItem t) /\ is_Some (items (mem k) !! xEventListItem t).
Proof.
  intros HW Ht. destruct (w_tasks _ _ HW _ _ Ht) as (_ & _ & Hg & He & _). unfold owner in *.
  apply fmap_Some in Hg as (i & Hi & _). apply fmap_Some in He as (j & Hj & _). by split; eexists.
Qed.

(** The items of tasks are distinct. *)
Lemma gen_event k V t c t' c' : wf k V -> tcbs k !! t = Some c -> tcbs k !! t' = Some c' -> xGenericListItem t <> xEventListItem t'.
Proof.
  intros HW Ht Ht' E. destruct (w_tasks _ _ HW _ _ Ht) as (_ & _ & Hg & _). destruct (w_tasks _ _ HW _ _ Ht') as (_ & _ & _ & He & _).
  rewrite E, He in Hg. injection Hg as ->. unfold xGenericListItem, xEventListItem in E. lia.
Qed.

Lemma gen_inj t t' : xGenericListItem t = xGenericListItem t' -> t = t'.
Proof. unfold xGenericListItem. lia. Qed.

(** An item of a task that is in no sequence is free. *)
Lemma task_free k V t c n : wf k V -> tcbs k !! t = Some c -> n = xGenericListItem t \/ n = xEventListItem t -> ~ linked V n -> free V n.
Proof.
  intros HW Ht Hn Hl L xs i E [Hm|Hin]%elem_of_cons.
  - destruct (w_tasks _ _ HW _ _ Ht) as (_ & _ & _ & _ & Hmk). destruct (Hmk L ltac:(by eexists)). naive_solver.
  - apply Hl. exists L. by rewrite (sq_lookup _ _ _ _ E).
Qed.

Lemma sorted_filter (R : Z -> Z -> Prop) (P : Z -> Prop) {HP : forall x, Decision (P x)} (xs : list Z) : StronglySorted R xs -> StronglySorted R (filter P xs).
Proof.
  intros H. induction H as [|x xs H IH Hx]; [constructor|]. rewrite filter_cons. case_decide; [|done].
  constructor; [done|]. apply Forall_forall. intros y [_ Hy]%list_elem_of_filter. rewrite Forall_forall in Hx. by apply Hx.
Qed.

Lemma sorted_on_ext (f g : Z -> Z) (xs : list Z) :
  (forall x, x ∈ xs -> g x = f x) -> StronglySorted (fun x y => f x <= f y) xs -> StronglySorted (fun x y => g x <= g y) xs.
Proof.
  intros Hl Hs. induction Hs as [|y l Hs IH Hy]; constructor; [apply IH; intros; apply Hl; by right|].
  apply Forall_forall. intros z Hz. rewrite !Hl by set_solver. rewrite Forall_forall in Hy. by apply Hy.
Qed.

Lemma same_key s s' x : same_items s s' -> key s' x = key s x.
Proof. intros [Hv _ _]. unfold key. by rewrite Hv. Qed.

(** A step of the memory keeps the invariant if it adds no wrong task. *)
Lemma wf_mem k V s' V' :
  wf k V -> store s' V' -> (forall x, owner s' x = owner (mem k) x) -> (forall L, is_Some (V' !! L) <-> is_Some (V !! L)) ->
  (forall p x, 0 <= p < configMAX_PRIORITIES -> x ∈ sq V' (ready p) ->
     x ∈ sq V (ready p) \/ exists t c, x = xGenericListItem t /\ tcbs k !! t = Some c /\ uxPriority c = p /\ p <= uxTopReadyPriority k) ->
  (forall L x, L = pxDelayedTaskList k \/ L = pxOverflowDelayedTaskList k -> x ∈ sq V' L ->
     x ∈ sq V L \/ exists t c, x = xGenericListItem t /\ tcbs k !! t = Some c) ->
  (forall L, L = pxDelayedTaskList k \/ L = pxOverflowDelayedTaskList k -> StronglySorted (fun x y => key s' x <= key s' y) (sq V' L)) ->
  (forall x, x ∈ sq V' (pxOverflowDelayedTaskList k) -> key s' x < xTickCount k) ->
  (forall x, x ∈ sq V' (pxDelayedTaskList k) -> xNextTaskUnblockTime k <= key s' x) ->
  wf (with_mem s' k) V'.
Proof.
  intros [_ HA HT HL HR Htop Hmax Hwh Hsl Hso Hov Hnx Htk] HS Ho Hl Hr Hs Hso' Hov' Hnx'. split; cbn -[state_list sq]; try done.
  - by destruct HA.
  - intros t c Ht. destruct (HT t c Ht) as (H1 & H2 & H3 & H4 & H5). rewrite !Ho. split_and!; try done; try apply H1.
    intros L HL'. apply H5. by apply Hl.
  - intros L HL'. by apply Hl, HL.
  - intros p x Hp Hx. destruct (Hr p x Hp Hx) as [Hx'|(t & c & H1 & H2 & H3 & _)]; [by apply HR|by exists t, c].
  - intros p x Hp Hx. destruct (Hr p x Hp Hx) as [Hx'|(t & c & _ & _ & _ & H4)]; [by eapply Hmax|done].
  - intros L x HL' Hx. destruct (Hs L x HL' Hx) as [Hx'|?]; [by eapply Hsl|done].
Qed.

(** The memory after a step in which no value changes. *)
Definition mem_step (k : kernel) (V' : view) (k' : kernel) : Prop :=
  exists s', k' = with_mem s' k /\ same_items (mem k) s' /\ wf k' V'.

Lemma wf_remove k V L x :
  wf k V -> x ∈ sq V L ->
  wp (on_mem (uxListRemove x)) (fun r k' => r = Z.of_nat (length (sq V L)) - 1 /\ mem_step k (view_remove L x V) k') k.
Proof.
  intros HW Hx. destruct (sq_in _ _ _ Hx) as (xs & i & E & Hx'). apply wp_on_mem.
  eapply wp_mono; [by eapply store_remove; [apply HW|..]|]. intros r s' (-> & HS & Hsame).
  split; [by rewrite (sq_lookup _ _ _ _ E)|]. exists s'. split_and!; [done|done|].
  assert (Hsub : forall L' y, y ∈ sq (view_remove L x V) L' -> y ∈ sq V L').
  { intros L' y. rewrite sq_view_remove. case_decide; [subst|done]. by intros [_ Hy]%list_elem_of_filter. }
  apply (wf_mem k V); [done|done|apply Hsame|intros; apply live_view_remove|..].
  - intros p y Hp Hy. left. by apply Hsub.
  - intros L' y HL' Hy. left. by apply Hsub.
  - intros L' HL'. apply (sorted_by_ext (key (mem k))); [intros y; by apply same_key|]. rewrite sq_view_remove.
    case_decide; [subst; apply sorted_filter|]; by apply (w_sorted _ _ HW).
  - intros y Hy. rewrite (same_key _ _ y Hsame). by apply (w_overflow _ _ HW), Hsub.
  - intros y Hy. rewrite (same_key _ _ y Hsame). by apply (w_next _ _ HW), Hsub.
Qed.

Lemma wf_insert_end k V L n :
  wf k V -> is_Some (V !! L) -> free V n -> is_Some (items (mem k) !! n) ->
  L <> pxDelayedTaskList k -> L <> pxOverflowDelayedTaskList k ->
  (forall p, 0 <= p < configMAX_PRIORITIES -> L = ready p ->
     exists t c, n = xGenericListItem t /\ tcbs k !! t = Some c /\ uxPriority c = p /\ p <= uxTopReadyPriority k) ->
  wp (on_mem (vListInsertEnd L n)) (fun _ k' => mem_step k (view_insert_end L n V) k') k.
Proof.
  intros HW HL Hf Hl Hd Ho Hr. destruct (is_Some_pair _ _ HL) as [i E]. apply wp_on_mem.
  eapply wp_mono; [by eapply store_insert_end; [apply HW|..]|]. intros _ s' (HS & Hsame). exists s'. split_and!; [done|done|].
  assert (Hoth : forall L', L' <> L -> sq (view_insert_end L n V) L' = sq V L') by (intros L' HL'; rewrite (sq_view_insert_end _ _ _ _ i E); by rewrite decide_False).
  apply (wf_mem k V); [done|done|apply Hsame|intros; apply live_view_insert_end|..].
  - intros p y Hp. destruct (decide (ready p = L)) as [<-|Hne]; [|rewrite Hoth by done; by left].
    rewrite (sq_view_insert_end _ _ _ _ i E), decide_True, insert_before_perm by done.
    intros [->|Hy]%elem_of_cons; [right; by apply Hr|by left].
  - intros L' y HL'. rewrite Hoth by naive_solver. by left.
  - intros L' HL'. rewrite Hoth by naive_solver. apply (sorted_by_ext (key (mem k))); [intros y; by apply same_key|]. by apply (w_sorted _ _ HW).
  - intros y. rewrite Hoth by done. rewrite (same_key _ _ y Hsame). apply (w_overflow _ _ HW).
  - intros y. rewrite Hoth by done. rewrite (same_key _ _ y Hsame). apply (w_next _ _ HW).
Qed.

Lemma wf_top k V p : wf k V -> uxTopReadyPriority k <= p < configMAX_PRIORITIES -> wf (with_top p k) V.
Proof.
  intros [HS HA HT HL HR Htop Hmax Hwh Hsl Hso Hov Hnx Htk] Hp. split; try done; cbn; [by destruct HA|lia|].
  intros p' x Hp' Hx. specialize (Hmax p' x Hp' Hx). lia.
Qed.

Lemma wf_unblock k V u : wf k V -> (forall x, x ∈ sq V (pxDelayedTaskList k) -> u <= key (mem k) x) -> wf (with_unblock u k) V.
Proof. intros [HS HA HT HL HR Htop Hmax Hwh Hsl Hso Hov Hnx Htk] Hu. split; try done; cbn. by destruct HA. Qed.

Lemma wf_request k V r : wf k V -> wp (request_ r) (fun _ k' => k' = with_requests (requests k ++ [r]) k /\ wf k' V) k.
Proof.
  intros HW. unfold request_. wp_step. split; [done|]. destruct HW as [HS HA HT HL HR Htop Hmax Hwh Hsl Hso Hov Hnx Htk].
  split; try done; cbn. by destruct HA.
Qed.

(** ** The choice of the task to run *)

(** Only indexes have moved. *)
Record turned (k : kernel) (V : view) (k' : kernel) (V' : view) : Prop := {
  tn_mem : exists s', k' = with_mem s' k /\ items s' = items (mem k);
  tn_wf : wf k' V';
  tn_sq : forall L, sq V' L = sq V L
}.

Lemma turned_refl k V : wf k V -> turned k V k V.
Proof. intros HW. split; [|done|done]. exists (mem k). by destruct k. Qed.

Lemma turned_trans k1 V1 k2 V2 k3 V3 : turned k1 V1 k2 V2 -> turned k2 V2 k3 V3 -> turned k1 V1 k3 V3.
Proof.
  intros [(s2 & -> & E2) _ H2] [(s3 & -> & E3) HW H3]. split; [|done|intros L; by rewrite H3].
  exists s3. split; [done|]. by rewrite E3.
Qed.

Lemma wf_turn k V L xs i x q t :
  wf k V -> V !! L = Some (xs, i) -> visits i xs = x :: q -> owner (mem k) x = Some t ->
  wp (on_mem (listGET_OWNER_OF_NEXT_ENTRY L)) (fun r k' => r = t /\ turned k V k' (view_next L x V)) k.
Proof.
  intros HW E Hv Ho. apply wp_on_mem. eapply wp_mono; [by eapply store_next; [apply HW|..]|].
  intros r s' (Hr & HS & Hsame & Hi). split; [congruence|]. split; [by exists s'| |intros L'; apply sq_view_next].
  apply (wf_mem k V); [done|done|apply Hsame|intros; apply live_view_next|..].
  - intros p y Hp. rewrite sq_view_next. by left.
  - intros L' y HL'. rewrite sq_view_next. by left.
  - intros L' HL'. rewrite sq_view_next. apply (sorted_by_ext (key (mem k))); [intros y; by apply same_key|]. by apply (w_sorted _ _ HW).
  - intros y. rewrite sq_view_next, (same_key _ _ y Hsame). apply (w_overflow _ _ HW).
  - intros y. rewrite sq_view_next, (same_key _ _ y Hsame). apply (w_next _ _ HW).
Qed.

(** The task may run on the CPU and does not run on the other one. *)
Definition can_run (k : kernel) (core t : Z) : bool :=
  match tcbs k !! t with
  | Some c => negb (cur k (1 - core) =? t) && ((xCoreID c =? tskNO_AFFINITY) || (xCoreID c =? core))
  | None => false
  end.

Lemma executing_spec core t k :
  arrays_ok k -> is_core core -> wp (executing (Z.to_nat portNUM_PROCESSORS) 0 core t) (fun b k' => k' = k /\ b = (cur k (1 - core) =? t)) k.
Proof.
  intros Ha [->| ->]; change (Z.to_nat portNUM_PROCESSORS) with 2%nat; [change (1 - 0) with 1|change (1 - 1) with 0].
  - change (wp (t' ← current 1; if t' =? t then mret true else mret false) (fun b k' => k' = k /\ b = (cur k 1 =? t)) k).
    apply wp_bind, wp_current; [done|by right|]. destruct (cur k 1 =? t); by apply wp_ret.
  - change (wp (t' ← current 0; if t' =? t then mret true else mret false) (fun b k' => k' = k /\ b = (cur k 0 =? t)) k).
    apply wp_bind, wp_current; [done|by left|]. destruct (cur k 0 =? t); by apply wp_ret.
Qed.

Section Scan.
Context (core p : Z) (Hcore : is_core core) (Hp : 0 <= p < configMAX_PRIORITIES).

Lemma ready_owner k V x : wf k V -> x ∈ sq V (ready p) -> owner (mem k) x = Some (x - 4) /\ is_Some (tcbs k !! (x - 4)).
Proof.
  intros HW Hx. destruct (w_ready _ _ HW _ _ Hp Hx) as (t & c & -> & Ht & _). destruct (w_tasks _ _ HW _ _ Ht) as (_ & _ & Ho & _).
  unfold xGenericListItem in *. replace (t + 4 - 4) with t by lia. split; [done|by eexists].
Qed.

(** The index is turned to an item that is still to come. *)
Lemma rewind_spec r1 : forall fuel k V xs i y r2,
  wf k V -> V !! ready p = Some (xs, i) -> visits i xs = r1 ++ y :: r2 -> (length r1 < fuel)%nat ->
  wp (rewind fuel (ready p) (y - 4)) (fun _ k' => exists V', turned k V k' V' /\ V' !! ready p = Some (xs, y)) k.
Proof.
  induction r1 as [|x r1 IH]; intros fuel k V xs i y r2 HW E Hv Hf; (destruct fuel as [|fuel]; [cbn in Hf; lia|]); cbn [rewind app] in *.
  all: assert (Hin : forall z, z ∈ visits i xs -> z ∈ sq V (ready p)) by (intros z; rewrite visits_perm, (sq_lookup _ _ _ _ E); done).
  - destruct (ready_owner _ _ y HW) as [Ho _]; [apply Hin; rewrite Hv; left|]. apply wp_bind.
    eapply wp_mono; [by eapply wf_turn|]. intros r k' [-> Ht]. rewrite Z.eqb_refl. apply wp_ret. eexists. split; [exact Ht|].
    unfold view_next. by rewrite E, lookup_insert_eq.
  - destruct (ready_owner _ _ x HW) as [Ho _]; [apply Hin; rewrite Hv; left|]. apply wp_bind.
    eapply wp_mono; [by eapply wf_turn|]. intros r k' [-> Ht].
    assert (Hxy : x <> y).
    { assert (Hnd : NoDup (visits i xs)) by (rewrite visits_perm; apply (NoDup_cons_1_2 (xListEnd (ready p))); apply (st_at _ _ (w_store _ _ HW) _ _ _ E)).
      rewrite Hv in Hnd. apply NoDup_cons in Hnd as [Hnd _]. set_solver. }
    destruct (Z.eqb_spec (x - 4) (y - 4)); [lia|].
    assert (E' : view_next (ready p) x V !! ready p = Some (xs, x)) by (unfold view_next; by rewrite E, lookup_insert_eq).
    assert (Hv' : visits x xs = r1 ++ y :: r2 ++ [x]).
    { destruct (next_of_index _ _ _ _ _ _ (st_at _ _ (w_store _ _ HW) _ _ _ E) Hv) as (_ & -> & _). by rewrite <- app_assoc. }
    eapply wp_mono; [eapply (IH fuel k' _ xs x y (r2 ++ [x])); [apply Ht|exact E'|exact Hv'|cbn in Hf; lia]|].
    intros _ k2 (V2 & Ht2 & E2). exists V2. split; [by eapply turned_trans|done].
Qed.

Lemma turned_current k V k1 V1 l :
  length l = 2%nat -> turned k V k1 V1 -> turned (with_current l k) V (with_current l k1) V1.
Proof.
  intros Hl [(s' & -> & Hi) HW Hsq]. split; [by exists s'| |done].
  destruct HW as [HS HA HT HL HR Htop Hmax Hwh Hsl Hso Hov Hnx Htk]. split; try done. by destruct HA.
Qed.

Lemma ready_length k V xs i : wf k V -> V !! ready p = Some (xs, i) -> (length xs < size (items (mem k)))%nat.
Proof.
  intros HW E. pose proof (st_at _ _ (w_store _ _ HW) _ _ _ E) as Hat. pose proof (live_length (mem k) (xListEnd (ready p) :: xs)) as H.
  apply H; [apply Hat|]. intros x Hx. eapply store_live; [apply HW|exact E|done].
Qed.

Lemma scan_spec rest : forall don fuel k V xs i ref reset hold,
  wf k V -> V !! ready p = Some (xs, i) -> visits i xs = rest ++ don -> last rest = Some ref -> (length rest <= fuel)%nat ->
  reset = negb (bool_decide (don = [])) -> (forall x, x ∈ don -> can_run k core (x - 4) = false) ->
  wp (scan fuel core (ready p) (ref - 4) reset hold)
     (fun r k' => exists V', if (fst r : bool)
        then exists x, x ∈ rest /\ can_run k core (x - 4) = true /\ turned (with_current (<[Z.to_nat core := x - 4]> (pxCurrentTCB k)) k) V k' V'
        else snd r = true /\ (forall x, x ∈ rest -> can_run k core (x - 4) = false) /\ turned k V k' V') k.
Proof.
  induction rest as [|x rest IH]; intros don fuel k V xs i ref reset hold HW E Hv Hlast Hf Hreset Hdone; [done|].
  destruct fuel as [|fuel]; [cbn in Hf; lia|]. cbn [scan app] in *.
  assert (Hin : forall z, z ∈ visits i xs -> z ∈ sq V (ready p)) by (intros z; rewrite visits_perm, (sq_lookup _ _ _ _ E); done).
  destruct (ready_owner _ _ x HW) as [Ho [c Hc]]; [apply Hin; rewrite Hv; left|]. apply wp_bind.
  eapply wp_mono; [by eapply wf_turn|]. intros r k1 [-> Ht]. destruct (next_of_index _ _ _ _ _ _ (st_at _ _ (w_store _ _ HW) _ _ _ E) Hv) as (_ & Hv' & _).
  assert (E1 : view_next (ready p) x V !! ready p = Some (xs, x)) by (unfold view_next; by rewrite E, lookup_insert_eq).
  pose proof Ht as [(s1 & Ek1 & Hi1) HW1 Hsq1]. apply wp_bind. eapply wp_mono; [apply executing_spec; [apply HW1|done]|].
  intros ex k2 [-> ->]. apply wp_bind.
  apply (wp_mono _ (fun b k2 => b = can_run k core (x - 4) /\ k2 = if b then with_current (<[Z.to_nat core := x - 4]> (pxCurrentTCB k)) k1 else k1)).
  { unfold can_run. rewrite Hc. subst k1. change (cur (with_mem s1 k) (1 - core)) with (cur k (1 - core)).
    destruct (cur k (1 - core) =? x - 4); cbn [negb andb]; [by apply wp_ret|]. apply wp_bind. eapply wp_tcb; [exact Hc|].
    destruct ((xCoreID c =? tskNO_AFFINITY) || (xCoreID c =? core)); [|by apply wp_ret].
    apply wp_bind. apply wp_set_current; [apply HW1|done|]. by apply wp_ret. }
  intros able k2 [-> ->]. destruct (can_run k core (x - 4)) eqn:Erun.
  - apply wp_bind, wp_get, wp_bind.
    assert (Hlen : length (<[Z.to_nat core := x - 4]> (pxCurrentTCB k)) = 2%nat) by (rewrite length_insert; apply HW).
    pose proof (turned_current _ _ _ _ _ Hlen Ht) as Htc.
    apply (wp_mono _ (fun _ k' => exists V', turned (with_current (<[Z.to_nat core := x - 4]> (pxCurrentTCB k)) k) V k' V')).
    + destruct reset; [|apply wp_ret; by eexists].
      assert (Hr : ref ∈ visits x xs).
      { rewrite Hv', <- app_assoc. apply last_Some in Hlast as [l Hl]. assert (Hrr : ref ∈ x :: rest) by (rewrite Hl; set_solver). set_solver. }
      apply list_elem_of_split in Hr as (r1 & r2 & Er). eapply wp_mono; [eapply (rewind_spec r1); [apply Htc|exact E1|exact Er|]|].
      * pose proof (ready_length _ _ _ _ HW1 E1). assert (length xs = length (visits x xs)) by (by rewrite visits_perm).
        rewrite Er, length_app in *. cbn in *. lia.
      * intros _ k' (V' & Ht' & _). exists V'. by eapply turned_trans.
    + intros _ k' (V' & Ht'). apply wp_ret. exists V'. exists x. split_and!; [left|done|done].
  - destruct (Z.eqb_spec (x - 4) (ref - 4)) as [Eq|Hne].
    + apply wp_ret. eexists. cbn. split_and!; [done| |exact Ht]. assert (x = ref) as -> by lia.
      enough (rest = []) as -> by (intros y Hy; by apply list_elem_of_singleton in Hy as ->).
      destruct rest as [|z rest]; [done|]. exfalso.
      assert (Hnd : NoDup (visits i xs)) by (rewrite visits_perm; apply (NoDup_cons_1_2 (xListEnd (ready p))); apply (st_at _ _ (w_store _ _ HW) _ _ _ E)).
      rewrite Hv in Hnd. apply NoDup_cons in Hnd as [Hnd _]. apply Hnd. rewrite last_cons_cons in Hlast.
      apply last_Some in Hlast as [l Hl]. rewrite Hl. set_solver.
    + assert (Hl' : last rest = Some ref) by (destruct rest as [|z rest]; [cbn in Hlast; congruence|by rewrite last_cons_cons in Hlast]).
      eapply wp_mono; [apply (IH (don ++ [x]) fuel k1 (view_next (ready p) x V) xs x ref); [done|done|by rewrite Hv', <- app_assoc|done|cbn in Hf; lia| |]|].
      * by destruct don.
      * intros y Hy. subst k1. apply elem_of_app in Hy as [Hy| ->%list_elem_of_singleton]; [by apply Hdone|done].
      * intros [able' hold'] k' (V' & Hres). exists V'. cbn [fst snd] in *. subst k1. destruct able'.
        -- destruct Hres as (y & Hy & Hyr & Hyt). exists y. split_and!; [by right|exact Hyr|].
           eapply turned_trans; [|exact Hyt]. apply turned_current; [rewrite length_insert; apply HW|done].
        -- destruct Hres as (-> & Hy & Hyt). split_and!; [done| |by eapply turned_trans].
           intros z [->|Hz]%elem_of_cons; [done|by apply Hy].
Qed.

(** The reference item at which a look through the list ends. *)
Lemma reference_spec k V xs i :
  wf k V -> V !! ready p = Some (xs, i) -> xs <> [] ->
  wp (reference (ready p))
     (fun r k' => exists V' y q, turned k V k' V' /\ V' !! ready p = Some (xs, y) /\ r = y - 4 /\ visits y xs = q ++ [y]) k.
Proof.
  intros HW E Hne. pose proof (st_at _ _ (w_store _ _ HW) _ _ _ E) as Hat.
  unfold reference. apply wp_bind, wp_on_mem. eapply wp_list; [apply Hat|]. cbn [pxIndex]. apply wp_bind, wp_on_mem.
  assert (Hl : is_Some (items (mem k) !! i)) by (eapply store_live; [apply HW|exact E|apply Hat]). destruct Hl as [j Hj]. eapply wp_item; [exact Hj|].
  rewrite !with_mem_id.
  destruct (index_cases _ _ _ _ Hat) as [He [->|(l1 & l2 & -> & H1 & H2 & H3)]].
  - rewrite Z.eqb_refl. destruct xs as [|x xs]; [done|]. pose proof (visits_end _ _ He) as Hv.
    destruct (ready_owner _ _ x HW) as [Ho _]; [rewrite (sq_lookup _ _ _ _ E); left|].
    eapply wp_mono; [by eapply wf_turn|]. intros r k' [-> Ht]. eexists _, x, xs. split_and!; [exact Ht| |done|apply visits_head].
    unfold view_next. by rewrite E, lookup_insert_eq.
  - destruct (Z.eqb_spec i (xListEnd (ready p))); [done|]. apply wp_ret. exists V, i, (l2 ++ l1).
    split_and!; [by apply turned_refl|done| |by rewrite visits_at, <- app_assoc].
    destruct (ready_owner _ _ i HW) as [Ho _]; [rewrite (sq_lookup _ _ _ _ E); set_solver|].
    unfold owner in Ho. rewrite Hj in Ho. by injection Ho.
Qed.
End Scan.

Lemma with_top_turned k V k' V' top :
  wf (with_top top k) V -> turned (with_top top k) V k' V' -> forall core t, turned (with_current (<[Z.to_nat core := t]> (pxCurrentTCB k)) (with_top top k)) V
    (with_current (<[Z.to_nat core := t]> (pxCurrentTCB k)) k') V'.
Proof. intros HW Ht core t. apply turned_current; [rewrite length_insert; apply HW|done]. Qed.

(** The outcome of a selection among the priorities below [n]. *)
Definition picked (core : Z) (k : kernel) (V : view) (k' : kernel) : Prop :=
  exists V' p x top,
    0 <= p < configMAX_PRIORITIES /\ x ∈ sq V (ready p) /\ can_run k core (x - 4) = true
    /\ (forall p' x', p < p' < configMAX_PRIORITIES -> x' ∈ sq V (ready p') -> can_run k core (x' - 4) = false)
    /\ turned (with_current (<[Z.to_nat core := x - 4]> (pxCurrentTCB k)) (with_top top k)) V k' V'.

Lemma picked_turned core k V k1 V1 k' : turned k V k1 V1 -> picked core k1 V1 k' -> picked core k V k'.
Proof.
  intros Ht (V' & p & x & top & Hp & Hx & Hr & Hhi & Ht'). pose proof Ht as [(s1 & -> & Hi) HW Hsq].
  exists V', p, x, top. rewrite Hsq in Hx. split_and!; try done; [apply Hp|apply Hp|intros p' x' Hp' Hx'; rewrite <- Hsq in Hx'; by apply (Hhi p' x')|].
  destruct Ht' as [(s2 & -> & Hi2) HW2 Hsq2]. split; [|done|intros L; by rewrite Hsq2]. exists s2. split; [done|]. by rewrite Hi2.
Qed.

Lemma select_spec core n : forall k V hold,
  is_core core -> wf k V -> Z.of_nat n <= configMAX_PRIORITIES -> (hold = false -> uxTopReadyPriority k = Z.of_nat n - 1) ->
  (forall p x, Z.of_nat n <= p < configMAX_PRIORITIES -> x ∈ sq V (ready p) -> can_run k core (x - 4) = false) ->
  (exists p x, 0 <= p < Z.of_nat n /\ x ∈ sq V (ready p) /\ can_run k core (x - 4) = true) ->
  wp (select_task n core hold) (fun _ k' => picked core k V k') k.
Proof.
  induction n as [|n IH]; intros k V hold Hc HW Hn Htop Hhi (p & x & Hp & Hx & Hr); [lia|]. cbn [select_task].
  assert (Hpn : 0 <= Z.of_nat n < configMAX_PRIORITIES) by lia.
  destruct (is_Some_pair V (ready (Z.of_nat n))) as [i E]; [apply (w_lists _ _ HW), state_ready; done|].
  apply wp_bind, wp_on_mem. eapply read_empty; [apply HW|exact E|]. rewrite with_mem_id.
  destruct (sq V (ready (Z.of_nat n))) as [|y ys] eqn:Exs.
  - assert (Hpl : p < Z.of_nat n) by (destruct (decide (p = Z.of_nat n)) as [->|]; [rewrite Exs in Hx; set_solver|lia]).
    assert (Hhi' : forall p x, Z.of_nat n <= p < configMAX_PRIORITIES -> x ∈ sq V (ready p) -> can_run k core (x - 4) = false).
    { intros p' x' Hp' Hx'. destruct (decide (p' = Z.of_nat n)) as [->|]; [rewrite Exs in Hx'; set_solver|]. apply (Hhi p'); [lia|done]. }
    apply wp_bind. destruct hold; [apply wp_ret; eapply (IH k V true); try done; [lia|by exists p, x; split_and!; try done; lia]|].
    wp_step. rewrite (Htop eq_refl), u32_small by (unfold configMAX_PRIORITIES in *; lia).
    assert (HW1 : wf (with_top (Z.of_nat (S n) - 1 - 1) k) V).
    { pose proof (Htop eq_refl) as Ht. destruct HW as [HS HA HT HL HR Htp Hmax Hwh Hsl Hso Hov Hnx Htk]. split; try done; cbn -[Z.of_nat]; [by destruct HA|lia|].
      intros p' x' Hp' Hx'. specialize (Hmax p' x' Hp' Hx'). destruct (decide (p' = Z.of_nat n)) as [->|]; [rewrite Exs in Hx'; set_solver|lia]. }
    eapply wp_mono; [apply (IH _ V false); try done; [lia|intros _; cbn -[Z.of_nat]; lia|exists p, x; split_and!; try done; lia]|].
    intros _ k' (V' & p' & x' & top & H1 & H2 & H3 & H4 & H5). exists V', p', x', top. by split_and!; try apply H1.
  - apply wp_bind. eapply wp_mono; [eapply reference_spec; [exact Hc|exact Hpn|exact HW|exact E|done]|].
    intros r k1 (V1 & z & q & Ht & E1 & -> & Hv). pose proof Ht as [(s1 & -> & Hi1) HW1 Hsq1]. apply wp_bind, wp_get, wp_bind.
    assert (Hlen : (length (q ++ [z]) <= size (items (mem (with_mem s1 k))))%nat).
    { rewrite <- Hv, visits_perm. enough (length (y :: ys) < size (items (mem (with_mem s1 k))))%nat by lia. eapply ready_length; try done. }
    eapply wp_mono; [apply (scan_spec core (Z.of_nat n) Hc Hpn (q ++ [z]) [] _ _ V1 (y :: ys) z z false hold HW1 E1);
                     [by rewrite app_nil_r|by rewrite last_snoc|exact Hlen|done|set_solver]|].
    intros [able hold'] k2 (V2 & Hres). cbn [fst snd] in Hres. change (can_run (with_mem s1 k) core) with (can_run k core) in Hres.
    assert (Hq : forall w, w ∈ q ++ [z] <-> w ∈ sq V (ready (Z.of_nat n))) by (intros w; rewrite <- Hv, visits_perm, Exs; done).
    destruct able.
    + destruct Hres as (w & Hw & Hwr & Hwt). apply wp_ret. exists V2, (Z.of_nat n), w, (uxTopReadyPriority k). split_and!; try done; try lia; [by apply Hq| |].
      * intros p' x' Hp' Hx'. apply (Hhi p'); [lia|done].
      * replace (with_top (uxTopReadyPriority k) k) with k by (by destruct k).
        eapply turned_trans; [|exact Hwt]. apply turned_current; [rewrite length_insert; apply HW|done].
    + destruct Hres as (-> & Hw & Hwt). pose proof (turned_trans _ _ _ _ _ _ Ht Hwt) as Htt.
      apply (wp_mono _ (fun _ k' => picked core k2 V2 k')); [|intros _ k'; by apply picked_turned].
      pose proof Htt as [(s2 & -> & Hi2) HW2 Hsq2]. apply (IH (with_mem s2 k) V2 true); try done; [lia| |].
      * intros p' x' Hp' Hx'. rewrite Hsq2 in Hx'. change (can_run k core (x' - 4) = false).
        destruct (decide (p' = Z.of_nat n)) as [->|]; [by apply Hw, Hq|apply (Hhi p'); [lia|done]].
      * exists p, x. rewrite Hsq2. split_and!; try done; try lia.
        destruct (decide (p = Z.of_nat n)) as [->|]; [|lia]. apply Hq, Hw in Hx. congruence.
Qed.

Lemma cur_set k core t : arrays_ok k -> is_core core ->
  cur (with_current (<[Z.to_nat core := t]> (pxCurrentTCB k)) k) core = t
  /\ cur (with_current (<[Z.to_nat core := t]> (pxCurrentTCB k)) k) (1 - core) = cur k (1 - core).
Proof.
  intros [Ha _ _] Hc. unfold cur. cbn [pxCurrentTCB with_current]. split; [apply at_insert_eq; by apply core_range|].
  destruct (pxCurrentTCB k) as [|a [|b [|]]]; try done. by destruct Hc as [->| ->].
Qed.

Lemma wf_yield k V core b : wf k V -> wf (with_yield (<[Z.to_nat core := b]> (xYieldPending k)) k) V.
Proof.
  intros [HS HA HT HL HR Htop Hmax Hwh Hsl Hso Hov Hnx Htk]. split; try done. destruct HA. split; try done. cbn. by rewrite length_insert.
Qed.

(** C2: When the scheduler runs and a ready task can run on the CPU (its
    affinity allows it and the other CPU does not run it), [vTaskSwitchContext]
    terminates and makes such a task current, one of the highest priority
    among them; it leaves the current task of the other CPU, the lists and
    their order alone, and [uxTopReadyPriority] stays at least the priority of
    every ready task. *)
Theorem switch_picks_highest core k V :
  is_core core -> wf k V -> susp k core = 0 ->
  (exists p x, 0 <= p < configMAX_PRIORITIES /\ x ∈ sq V (ready p) /\ can_run k core (x - 4) = true) ->
  wp (vTaskSwitchContext core)
     (fun _ k' => exists V' t c,
        cur k' core = t /\ tcbs k !! t = Some c /\ xGenericListItem t ∈ sq V (ready (uxPriority c)) /\ can_run k core t = true
        /\ (forall t' c', tcbs k !! t' = Some c' -> xGenericListItem t' ∈ sq V (ready (uxPriority c')) -> can_run k core t' = true ->
              uxPriority c' <= uxPriority c)
        /\ cur k' (1 - core) = cur k (1 - core) /\ yieldp k' core = false /\ wf k' V' /\ forall L, sq V' L = sq V L) k.
Proof.
  intros Hc HW Hs (p & x & Hp & Hx & Hr). unfold vTaskSwitchContext. apply wp_bind, wp_suspended; [apply HW|done|]. rewrite Hs. cbn [Z.eqb negb].
  apply wp_bind, wp_set_yield; [apply HW|done|]. apply wp_bind, wp_get.
  pose proof (wf_yield k V core false HW) as HWy. pose proof (w_top _ _ HW) as Htop. unfold configMAX_PRIORITIES in *.
  cbn [uxTopReadyPriority with_yield]. rewrite to_signed_pos by (change (32 - 1) with 31; lia).
  eapply wp_mono; [apply (select_spec core _ _ V false Hc HWy)|]; rewrite ?Z2Nat.id by lia.
  - unfold configMAX_PRIORITIES. lia.
  - intros _. cbn. lia.
  - intros p' x' Hp' Hx'. pose proof (w_top_max _ _ HW p' x' ltac:(unfold configMAX_PRIORITIES in *; lia) Hx'). lia.
  - exists p, x. split_and!; try done; [apply Hp|]. pose proof (w_top_max _ _ HW p x Hp Hx). lia.
  - intros _ k' (V' & p' & x' & top & Hp' & Hx' & Hr' & Hhi & [(s' & -> & _) HW' Hsq]).
    destruct (w_ready _ _ HW _ _ Hp' Hx') as (t & c & -> & Ht & Hpc). unfold xGenericListItem in *. replace (t + 4 - 4) with t in * by lia. subst p'.
    destruct (cur_set k core t (w_arrays _ _ HW) Hc) as [H1 H2]. exists V', t, c. split_and!; try done.
    + intros t' c' Ht' Hx'' Hr''. destruct (decide (uxPriority c' <= uxPriority c)) as [|Hlt]; [done|exfalso].
      enough (can_run k core (t' + 4 - 4) = false) as Hf by (replace (t' + 4 - 4) with t' in Hf by lia; congruence).
      apply (Hhi (uxPriority c') (t' + 4)); [|done]. destruct (w_tasks _ _ HW _ _ Ht') as (Hpr & _). lia.
    + unfold yieldp. cbn. apply at_insert_eq. apply core_range; [done|apply HW].
Qed.

(** ** Moving tasks between lists *)

(** What is left of a sequence when both items of a task go. *)
Definition without (t : Z) (xs : list Z) : list Z := filter (fun x => x <> xGenericListItem t /\ x <> xEventListItem t) xs.

Lemma without_in t xs x : x ∈ without t xs <-> x <> xGenericListItem t /\ x <> xEventListItem t /\ x ∈ xs.
Proof. unfold without. rewrite list_elem_of_filter. tauto. Qed.

Lemma without_filter t xs : filter (fun x => x <> xEventListItem t) (filter (fun x => x <> xGenericListItem t) xs) = without t xs.
Proof. unfold without. rewrite list_filter_filter. apply list_filter_iff. intros x. tauto. Qed.

Lemma sq_removed k V L x L' : wf k V -> x ∈ sq V L -> sq (view_remove L x V) L' = filter (fun y => y <> x) (sq V L').
Proof.
  intros HW Hx. rewrite sq_view_remove. case_decide as E; [by subst|]. symmetry. apply filter_notin. intros Hx'.
  destruct (sq_in _ _ _ Hx) as (xs & i & E1 & H1). destruct (sq_in _ _ _ Hx') as (xs' & i' & E2 & H2).
  apply E. by eapply store_unique; [apply HW|..].
Qed.

(** Where an item is. *)
Lemma linked_or_free k V t c n : wf k V -> tcbs k !! t = Some c -> n = xGenericListItem t \/ n = xEventListItem t ->
  (exists L, n ∈ sq V L /\ L <> 0 /\ container (mem k) n = Some L) \/ (~ linked V n /\ container (mem k) n = Some 0).
Proof.
  intros HW Ht Hn. assert (Hl : is_Some (items (mem k) !! n)) by (destruct (item_task _ _ _ _ HW Ht); naive_solver).
  destruct (decide (map_Forall (fun L xi => n ∉ fst xi) V)) as [Hf|Hf].
  - right. assert (Hnl : ~ linked V n) by (intros [L Hx]; destruct (sq_in _ _ _ Hx) as (xs & i & E & Hin); by apply (Hf _ _ E)).
    split; [done|]. apply (st_out _ _ (w_store _ _ HW)); [done|]. by eapply task_free.
  - left. apply map_not_Forall in Hf; [|apply _]. destruct Hf as (L & [xs i] & E & Hin). cbn in Hin. apply dec_stable in Hin.
    exists L. split; [by rewrite (sq_lookup _ _ _ _ E)|]. split; [intros ->; by rewrite (st_null _ _ (w_store _ _ HW)) in E|].
    by eapply store_container; [apply HW|..].
Qed.

Lemma mem_step_trans k V1 k1 V2 k2 : mem_step k V1 k1 -> mem_step k1 V2 k2 -> mem_step k V2 k2.
Proof.
  intros (s1 & -> & H1 & _) (s2 & -> & H2 & HW). exists s2. split_and!; [done|by eapply same_items_trans|done].
Qed.

Lemma unlink_spec k V t c L :
  wf k V -> tcbs k !! t = Some c -> xGenericListItem t ∈ sq V L ->
  wp (unlink_task t) (fun _ k' => exists V', mem_step k V' k' /\ forall L', sq V' L' = without t (sq V L')) k.
Proof.
  intros HW Ht Hg. unfold unlink_task. apply wp_bind. eapply wp_mono; [by eapply wf_remove|].
  intros r k1 (_ & Hm1). pose proof Hm1 as (s1 & -> & Hs1 & HW1). set (V1 := view_remove L (xGenericListItem t) V) in *.
  assert (Hsq1 : forall L', sq V1 L' = filter (fun y => y <> xGenericListItem t) (sq V L')) by (intros L'; by eapply sq_removed).
  apply wp_bind, wp_on_mem. destruct (linked_or_free _ _ t c (xEventListItem t) HW1 Ht ltac:(by right)) as [(E & Hin & HE & Hc)|[Hn Hc]].
  - eapply read_container; [exact Hc|]. rewrite with_mem_id. destruct (Z.eqb_spec E 0); [done|]. apply wp_bind.
    eapply wp_mono; [by eapply wf_remove|]. intros r2 k2 (_ & Hm2). apply wp_ret. eexists. split; [by eapply mem_step_trans|].
    intros L'. rewrite (sq_removed _ _ _ _ L' HW1 Hin), Hsq1. apply without_filter.
  - eapply read_container; [exact Hc|]. rewrite with_mem_id. apply wp_ret. exists V1. split; [done|]. intros L'.
    rewrite <- without_filter, <- Hsq1. symmetry. apply filter_notin. intros Hin. apply Hn. by exists L'.
Qed.

Lemma add_ready_spec k V t c :
  wf k V -> tcbs k !! t = Some c -> ~ linked V (xGenericListItem t) ->
  wp (prvAddTaskToReadyList t)
     (fun _ k' => exists top, mem_step (with_top top k) (view_insert_end (ready (uxPriority c)) (xGenericListItem t) V) k'
                  /\ top = Z.max (uxTopReadyPriority k) (uxPriority c)) k.
Proof.
  intros HW Ht Hg. destruct (w_tasks _ _ HW _ _ Ht) as (Hp & _). pose proof (w_top _ _ HW) as Htop. destruct (item_task _ _ _ _ HW Ht) as [Hl _].
  unfold prvAddTaskToReadyList. apply wp_bind. eapply wp_tcb; [exact Ht|]. apply wp_bind.
  apply (wp_mono _ (fun _ k' => k' = with_top (Z.max (uxTopReadyPriority k) (uxPriority c)) k)).
  - unfold taskRECORD_READY_PRIORITY. do 2 wp_step. destruct (Z.ltb_spec (uxTopReadyPriority k) (uxPriority c)).
    + wp_step. by rewrite Z.max_r by lia.
    + apply wp_ret. rewrite Z.max_l by lia. by destruct k.
  - intros [] ? ->. set (top := Z.max _ _). assert (HW1 : wf (with_top top k) V) by (apply wf_top; [done|lia]).
    destruct (delayed_apart _ _ HW) as [_ Hap]. destruct (Hap _ Hp) as [Ha1 Ha2].
    eapply wp_mono; [apply (wf_insert_end (with_top top k) V)|].
    + done.
    + apply (w_lists _ _ HW), state_ready. done.
    + by eapply task_free; [exact HW|exact Ht|by left|].
    + done.
    + exact Ha1.
    + exact Ha2.
    + intros p Hp' E. apply ready_inj in E as <-. exists t, c. split_and!; try done. cbn. lia.
    + intros [] k' Hm. by exists top.
Qed.

(** The memory after a step in which the value of one item changes. *)
Record valued (s : list_mem) (n v : Z) (s' : list_mem) : Prop := {
  va_value : forall x, value s' x = if decide (x = n) then Some v else value s x;
  va_owner : forall x, owner s' x = owner s x;
  va_live : forall x, is_Some (items s' !! x) <-> is_Some (items s !! x)
}.

Lemma valued_key s n v s' x : valued s n v s' -> key s' x = if decide (x = n) then v else key s x.
Proof. intros [Hv _ _]. unfold key. rewrite Hv. by case_decide. Qed.

Lemma valued_same s n v s1 s2 : valued s n v s1 -> same_items s1 s2 -> valued s n v s2.
Proof. intros [A1 A2 A3] [B1 B2 B3]. split; intros x; [by rewrite B1|by rewrite B2|by rewrite B3]. Qed.

(** The list a task that wakes at [time] goes to. *)
Definition sleep_list (k : kernel) (time : Z) : Z :=
  if time <? xTickCount k then pxOverflowDelayedTaskList k else pxDelayedTaskList k.

Definition next_with (k : kernel) (time : Z) : Z :=
  if time <? xTickCount k then xNextTaskUnblockTime k else Z.min (xNextTaskUnblockTime k) time.

(** The view after a sleeper is put into its list. *)
Lemma wf_sleep k V s' t c time V' :
  wf k V -> tcbs k !! t = Some c -> ~ linked V (xGenericListItem t) -> 0 <= time < 2 ^ 32 ->
  valued (mem k) (xGenericListItem t) time s' -> store s' V' ->
  (forall L, is_Some (V' !! L) <-> is_Some (V !! L)) ->
  (forall L, sq V' L = if decide (L = sleep_list k time) then sorted_insert (key s') (xGenericListItem t) (sq V L) else sq V L) ->
  wf (with_unblock (next_with k time) (with_mem s' k)) V'.
Proof.
  intros HW Ht Hg Htime Hval HS Hlive Hsq. destruct (delayed_apart _ _ HW) as [Hdo Hap].
  assert (Hkey : forall L x, x ∈ sq V L -> key s' x = key (mem k) x).
  { intros L x Hx. rewrite (valued_key _ _ _ _ _ Hval), decide_False; [done|]. intros ->. apply Hg. by exists L. }
  assert (Hin : forall L x, x ∈ sq V' L <-> x ∈ sq V L \/ L = sleep_list k time /\ x = xGenericListItem t).
  { intros L x. rewrite Hsq. case_decide; [rewrite sorted_insert_perm, elem_of_cons|]; naive_solver. }
  assert (Hkt : key s' (xGenericListItem t) = time) by (rewrite (valued_key _ _ _ _ _ Hval); by rewrite decide_True).
  change (wf (with_mem s' (with_unblock (next_with k time) k)) V'). apply (wf_mem (with_unblock (next_with k time) k) V); [|done|apply Hval|done|..]; cbn.
  - apply wf_unblock; [done|]. intros x Hx. pose proof (w_next _ _ HW x Hx). unfold next_with. destruct (time <? xTickCount k); lia.
  - intros p x Hp Hx. apply Hin in Hx as [Hx|[E _]]; [by left|]. exfalso. destruct (Hap p Hp). unfold sleep_list in E. by destruct (time <? xTickCount k).
  - intros L x HL Hx. apply Hin in Hx as [Hx|[_ ->]]; [by left|]. right. by exists t, c.
  - intros L HL. rewrite Hsq. assert (Hso : StronglySorted (fun x y => key s' x <= key s' y) (sq V L)).
    { eapply sorted_on_ext; [apply Hkey|by apply (w_sorted _ _ HW)]. }
    case_decide; [by apply sorted_insert_sorted|done].
  - intros x Hx. apply Hin in Hx as [Hx|[E ->]]; [rewrite (Hkey _ _ Hx); by apply (w_overflow _ _ HW)|]. rewrite Hkt.
    unfold sleep_list in E. destruct (Z.ltb_spec time (xTickCount k)); [done|congruence].
  - intros x Hx. unfold next_with. apply Hin in Hx as [Hx|[E ->]].
    + rewrite (Hkey _ _ Hx). pose proof (w_next _ _ HW x Hx). destruct (time <? xTickCount k); lia.
    + rewrite Hkt. unfold sleep_list in E. destruct (time <? xTickCount k); [congruence|lia].
Qed.

Lemma add_delayed_spec core k V t c time :
  is_core core -> wf k V -> cur k core = t -> tcbs k !! t = Some c -> ~ linked V (xGenericListItem t) -> 0 <= time < 2 ^ 32 ->
  wp (prvAddCurrentTaskToDelayedList core time)
     (fun _ k' => exists s' V', k' = with_unblock (next_with k time) (with_mem s' k) /\ valued (mem k) (xGenericListItem t) time s' /\ wf k' V'
        /\ (forall L, is_Some (V' !! L) <-> is_Some (V !! L))
        /\ forall L, sq V' L = if decide (L = sleep_list k time) then sorted_insert (key s') (xGenericListItem t) (sq V L) else sq V L) k.
Proof.
  intros Hc HW Hcur Ht Hg Htime. destruct (item_task _ _ _ _ HW Ht) as [Hl _]. destruct (w_tasks _ _ HW _ _ Ht) as (_ & _ & _ & _ & Hmk).
  unfold prvAddCurrentTaskToDelayedList. apply wp_bind, wp_current; [apply HW|done|]. rewrite Hcur. apply wp_bind, wp_on_mem.
  eapply wp_mono; [apply (store_set_value _ V); [apply HW|done|unfold portMAX_DELAY; lia|]|].
  { intros L xs i E. apply not_eq_sym. apply Hmk. by eexists. }
  intros [] s1 (HS1 & Hv1 & Ho1 & Hl1). assert (Hval : valued (mem k) (xGenericListItem t) time s1) by (by split).
  apply wp_bind, wp_get. cbn [xTickCount pxOverflowDelayedTaskList pxDelayedTaskList xNextTaskUnblockTime with_mem].
  assert (Hf : free V (xGenericListItem t)) by (by eapply task_free; [exact HW|exact Ht|by left|]).
  assert (Hlst : is_Some (V !! sleep_list k time)).
  { apply (w_lists _ _ HW). destruct (state_delayed _ _ HW). unfold sleep_list. by destruct (time <? xTickCount k). }
  destruct (is_Some_pair _ _ Hlst) as [i E].
  assert (Hins : wp (insert_ (sleep_list k time) (xGenericListItem t))
     (fun _ k' => exists s', k' = with_mem s' k /\ valued (mem k) (xGenericListItem t) time s'
                  /\ store s' (view_insert (key s') (sleep_list k time) (xGenericListItem t) V)) (with_mem s1 k)).
  { unfold insert_. apply wp_bind, wp_get. apply wp_on_mem. cbn [mem with_mem].
    eapply wp_mono; [eapply store_insert; [exact HS1|exact E|done|by apply Hl1]|]. intros [] s2 [HS2 Hs2]. exists s2.
    split_and!; [done|by eapply valued_same|]. rewrite (view_insert_ext _ (key s1)); [done|]. intros x. by apply same_key. }
  assert (Hpost : forall s', valued (mem k) (xGenericListItem t) time s' -> store s' (view_insert (key s') (sleep_list k time) (xGenericListItem t) V) ->
    let k' := with_unblock (next_with k time) (with_mem s' k) in exists s'' V', k' = with_unblock (next_with k time) (with_mem s'' k) /\ valued (mem k) (xGenericListItem t) time s'' /\ wf k' V'
        /\ (forall L, is_Some (V' !! L) <-> is_Some (V !! L))
        /\ forall L, sq V' L = if decide (L = sleep_list k time) then sorted_insert (key s'') (xGenericListItem t) (sq V L) else sq V L).
  { intros s' Hv' HS' k'. exists s', (view_insert (key s') (sleep_list k time) (xGenericListItem t) V).
    assert (Hsq : forall L, sq (view_insert (key s') (sleep_list k time) (xGenericListItem t) V) L
                   = if decide (L = sleep_list k time) then sorted_insert (key s') (xGenericListItem t) (sq V L) else sq V L).
    { intros L. rewrite sq_view_insert by done. case_decide; [by subst|done]. }
    split_and!; [done|done| |intros; apply live_view_insert|done]. by eapply wf_sleep; [..|intros; apply live_view_insert|]. }
  unfold sleep_list, next_with in *. destruct (Z.ltb_spec time (xTickCount k)) as [Hlt|Hge].
  - eapply wp_mono; [exact Hins|]. intros [] k' (s' & -> & Hv' & HS'). specialize (Hpost s' Hv' HS').
    replace (with_mem s' k) with (with_unblock (xNextTaskUnblockTime k) (with_mem s' k)) by (by destruct k). exact Hpost.
  - apply wp_bind. eapply wp_mono; [exact Hins|]. intros [] k' (s' & -> & Hv' & HS'). specialize (Hpost s' Hv' HS').
    destruct (Z.ltb_spec time (xNextTaskUnblockTime k)).
    + wp_step. cbn zeta in Hpost. rewrite Z.min_r in Hpost |- * by lia. exact Hpost.
    + apply wp_ret. cbn zeta in Hpost. rewrite Z.min_l in Hpost |- * by lia.
      replace (with_mem s' k) with (with_unblock (xNextTaskUnblockTime k) (with_mem s' k)) by (by destruct k). exact Hpost.
Qed.

(** ** The tick *)

Lemma event_not_state k V t c p :
  wf k V -> tcbs k !! t = Some c -> 0 <= p < configMAX_PRIORITIES -> xEventListItem t ∉ sq V (ready p).
Proof.
  intros HW Ht Hp Hx. destruct (w_ready _ _ HW _ _ Hp Hx) as (t' & c' & E & Ht' & _). by apply (gen_event _ _ _ _ _ _ HW Ht' Ht).
Qed.

Lemma event_not_sleeper k V t c L :
  wf k V -> tcbs k !! t = Some c -> L = pxDelayedTaskList k \/ L = pxOverflowDelayedTaskList k -> xEventListItem t ∉ sq V L.
Proof.
  intros HW Ht HL Hx. destruct (w_sleepers _ _ HW _ _ HL Hx) as (t' & c' & E & Ht'). by apply (gen_event _ _ _ _ _ _ HW Ht' Ht).
Qed.

Lemma one_list k V L1 L2 x : wf k V -> x ∈ sq V L1 -> x ∈ sq V L2 -> L1 = L2.
Proof.
  intros HW H1 H2. destruct (sq_in _ _ _ H1) as (xs1 & i1 & E1 & H1'). destruct (sq_in _ _ _ H2) as (xs2 & i2 & E2 & H2').
  by eapply store_unique; [apply HW|..].
Qed.

(** A task has moved to its ready list. *)
Record readied (t : Z) (c : TCB_t) (k : kernel) (V : view) (k' : kernel) (V' : view) : Prop := {
  rd_state : exists s' top, k' = with_mem s' (with_top top k) /\ same_items (mem k) s';
  rd_wf : wf k' V';
  rd_in : forall L x, x ∈ sq V' L <-> (x <> xGenericListItem t /\ x <> xEventListItem t /\ x ∈ sq V L) \/ L = ready (uxPriority c) /\ x = xGenericListItem t
}.

Lemma ready_task_spec k V t c L (Q : unit -> kernel -> Prop) :
  wf k V -> tcbs k !! t = Some c -> xGenericListItem t ∈ sq V L ->
  (forall k' V', readied t c k V k' V' -> Q tt k') ->
  wp (unlink_task t) (fun _ k' => wp (prvAddTaskToReadyList t) Q k') k.
Proof.
  intros HW Ht Hg HQ. eapply wp_mono; [by eapply unlink_spec|]. intros [] k1 (V1 & (s1 & -> & Hs1 & HW1) & Hsq1).
  assert (Hn : ~ linked V1 (xGenericListItem t)) by (intros [L' Hx]; rewrite Hsq1, without_in in Hx; tauto).
  eapply wp_mono; [by eapply add_ready_spec|]. intros [] k2 (top & (s2 & -> & Hs2 & HW2) & _). destruct (w_tasks _ _ HW _ _ Ht) as (Hp & _).
  destruct (is_Some_pair V1 (ready (uxPriority c))) as [i E]; [apply (w_lists _ _ HW1), state_ready; done|].
  eapply HQ. split; [exists s2, top; split; [done|by eapply same_items_trans]|exact HW2|].
  intros L' x. rewrite (sq_view_insert_end _ _ _ _ i E). case_decide as EL.
  - rewrite insert_before_perm, elem_of_cons, Hsq1, without_in. subst L'. naive_solver.
  - rewrite Hsq1, without_in. naive_solver.
Qed.

(** The tasks whose time has come at [now] are ready. *)
Record woken (now : Z) (k : kernel) (V : view) (k' : kernel) (V' : view) : Prop := {
  wk_state : exists s' top u, k' = with_unblock u (with_mem s' (with_top top k)) /\ same_items (mem k) s';
  wk_wf : wf k' V';
  wk_on_time : forall x, x ∈ sq V' (pxDelayedTaskList k) <-> x ∈ sq V (pxDelayedTaskList k) /\ now < key (mem k) x;
  wk_ready : forall p x, 0 <= p < configMAX_PRIORITIES ->
    x ∈ sq V' (ready p) <-> x ∈ sq V (ready p)
      \/ x ∈ sq V (pxDelayedTaskList k) /\ key (mem k) x <= now /\ exists t c, x = xGenericListItem t /\ tcbs k !! t = Some c /\ uxPriority c = p;
  wk_event : forall t, xGenericListItem t ∈ sq V (pxDelayedTaskList k) -> key (mem k) (xGenericListItem t) <= now -> ~ linked V' (xEventListItem t);
  wk_gone : forall x, linked V' x -> linked V x;
  wk_overflow : forall x, x ∈ sq V' (pxOverflowDelayedTaskList k) <-> x ∈ sq V (pxOverflowDelayedTaskList k)
}.

Lemma woken_step now t c k V k1 V1 k' V' :
  wf k V -> tcbs k !! t = Some c -> xGenericListItem t ∈ sq V (pxDelayedTaskList k) -> key (mem k) (xGenericListItem t) <= now ->
  readied t c k V k1 V1 -> woken now k1 V1 k' V' -> woken now k V k' V'.
Proof.
  intros HW Ht Hg Hk [(s1 & top1 & -> & Hs1) HW1 Hin] [(s2 & top2 & u & -> & Hs2) HW2 Hon Hrd Hev Hgn Hov]. cbn in Hon, Hrd, Hev, Hov.
  destruct (delayed_apart _ _ HW) as [Hdo Hap]. destruct (w_tasks _ _ HW _ _ Ht) as (Hp & _).
  assert (Hkey : forall x, key s1 x = key (mem k) x) by (intros x; by apply same_key).
  assert (Hd : forall x, x ∈ sq V1 (pxDelayedTaskList k) <-> x ∈ sq V (pxDelayedTaskList k) /\ x <> xGenericListItem t).
  { intros x. rewrite Hin. pose proof (event_not_sleeper _ _ _ _ (pxDelayedTaskList k) HW Ht (or_introl eq_refl)). destruct (Hap _ Hp). naive_solver. }
  assert (Hr : forall p x, 0 <= p < configMAX_PRIORITIES -> x ∈ sq V1 (ready p) <-> x ∈ sq V (ready p) \/ p = uxPriority c /\ x = xGenericListItem t).
  { intros p x Hpp. rewrite Hin. pose proof (event_not_state _ _ _ _ p HW Ht Hpp).
    assert (xGenericListItem t ∉ sq V (ready p)) by (intros Hx; destruct (Hap p Hpp) as [Hne _]; apply Hne; exact (one_list _ _ _ _ _ HW Hx Hg)).
    split; [intros [?|[E ->]]; [naive_solver|right; split; [by apply ready_inj|done]]|]. intros [?|[-> ->]]; [left|by right]. split_and!; [..|done]; by intros ->. }
  split; [exists s2, top2, u; split; [done|by eapply same_items_trans]|done|..].
  - intros x. rewrite Hon, Hkey, Hd. split; [tauto|]. intros [H1 H2]. split_and!; try done. intros ->. lia.
  - intros p x Hpp. rewrite (Hrd p x Hpp), (Hr p x Hpp), Hkey, Hd. split.
    + intros [[H1|[-> ->]]|([H1 H2] & H3 & H4)]; [by left|right; split_and!; try done; by exists t, c|right; by split_and!].
    + intros [H1|(H1 & H2 & t' & c' & -> & Ht' & Hp')]; [by left; left|]. destruct (decide (t' = t)) as [->|Hne].
      * left. right. assert (c' = c) as -> by congruence. done.
      * right. split_and!; try done; [intros E; by apply gen_inj in E|by exists t', c'].
  - intros t' Hg' Hk'. destruct (decide (t' = t)) as [->|Hne].
    + intros Hl%Hgn. destruct Hl as [L Hx]. apply Hin in Hx as [?|[_ E]]; [tauto|]. symmetry in E. by apply (gen_event _ _ _ _ _ _ HW Ht Ht) in E.
    + apply Hev; [apply Hd; split; [done|]; intros E; by apply gen_inj in E|by rewrite Hkey].
  - intros x [L Hx]%Hgn. apply Hin in Hx as [(_ & _ & Hx)|[_ ->]]; by eexists.
  - intros x. rewrite Hov, Hin. pose proof (event_not_sleeper _ _ _ _ (pxOverflowDelayedTaskList k) HW Ht (or_intror eq_refl)). destruct (Hap _ Hp).
    assert (xGenericListItem t ∉ sq V (pxOverflowDelayedTaskList k)) by (intros Hx; apply Hdo; exact (one_list _ _ _ _ _ HW Hg Hx)). naive_solver.
Qed.

(** No task is to be woken. *)
Lemma woken_none now k V u :
  wf k V -> (forall x, x ∈ sq V (pxDelayedTaskList k) -> now < key (mem k) x /\ u <= key (mem k) x) -> woken now k V (with_unblock u k) V.
Proof.
  intros HW Hd. split; try done.
  - exists (mem k), (uxTopReadyPriority k), u. split; [by destruct k|apply same_items_refl].
  - apply wf_unblock; [done|]. intros x Hx. by apply Hd.
  - intros x. split; [|tauto]. intros Hx. by split; [|apply Hd].
  - intros p x Hp. split; [by left|]. intros [?|(H1 & H2 & _)]; [done|]. destruct (Hd x H1). lia.
  - intros t Hg Hk. destruct (Hd _ Hg). lia.
Qed.

Lemma unblock_spec core now fuel : forall k V sw,
  is_core core -> wf k V -> is_Some (tcbs k !! cur k core) -> (length (sq V (pxDelayedTaskList k)) < fuel)%nat ->
  wp (unblock_loop fuel core now sw) (fun r k' => exists V', woken now k V k' V') k.
Proof.
  induction fuel as [|fuel IH]; intros k V sw Hc HW Hcur Hf; [lia|]. cbn [unblock_loop]. apply wp_bind, wp_get.
  destruct (state_delayed _ _ HW) as [Hsd _]. destruct (is_Some_pair _ _ (w_lists _ _ HW _ Hsd)) as [i E].
  apply wp_bind, wp_on_mem. eapply read_empty; [apply HW|exact E|]. rewrite with_mem_id.
  destruct (sq V (pxDelayedTaskList k)) as [|x xs] eqn:Exs.
  - apply wp_bind. wp_step. apply wp_ret. exists V. apply woken_none; [done|]. rewrite Exs. set_solver.
  - assert (Hx : x ∈ sq V (pxDelayedTaskList k)) by (rewrite Exs; left).
    destruct (w_sleepers _ _ HW _ _ (or_introl eq_refl) Hx) as (t & c & -> & Ht). destruct (w_tasks _ _ HW _ _ Ht) as (_ & _ & Ho & _).
    destruct (item_task _ _ _ _ HW Ht) as [Hl _]. apply wp_bind, wp_on_mem. eapply read_head_owner; [apply HW|exact E|exact Ho|]. rewrite with_mem_id.
    apply wp_bind, wp_on_mem. eapply read_value; [apply live_value; exact Hl|]. rewrite with_mem_id.
    destruct (Z.ltb_spec now (key (mem k) (xGenericListItem t))) as [Hlt|Hge].
    + apply wp_bind. wp_step. apply wp_ret. exists V. apply woken_none; [done|]. intros y Hy.
      pose proof (w_sorted _ _ HW _ (or_introl eq_refl)) as Hs. rewrite Exs in Hs, Hy. apply StronglySorted_inv in Hs as [_ Hs].
      rewrite Forall_forall in Hs. apply elem_of_cons in Hy as [->|Hy]; [lia|]. specialize (Hs y Hy). lia.
    + apply wp_bind. eapply wp_mono; [apply (ready_task_spec k V t c _ (fun _ k' => exists V1, readied t c k V k' V1) HW Ht Hx); by eauto|].
      intros [] ku Hu. apply wp_bind. eapply wp_mono; [exact Hu|]. intros [] k1 [V1 Hrd].
      pose proof Hrd as [(s1 & top & -> & Hs1) HW1 Hin1]. destruct Hcur as [cc Hcc].
      apply wp_bind. eapply wp_tcb; [exact Ht|]. apply wp_bind, wp_current; [apply HW1|done|]. apply wp_bind. eapply wp_tcb; [exact Hcc|].
      eapply wp_mono; [apply IH; [done|exact HW1|by eexists|]|].
      * cbn [pxDelayedTaskList with_mem with_top]. enough (length (sq V1 (pxDelayedTaskList k)) <= length xs)%nat by (cbn in Hf; lia).
        destruct (is_Some_pair _ _ (w_lists _ _ HW1 _ Hsd)) as [i1 E1].
        apply NoDup_incl_length; [apply NoDup_ListNoDup, (NoDup_cons_1_2 (xListEnd (pxDelayedTaskList k))), (st_at _ _ (w_store _ _ HW1) _ _ _ E1)|].
        intros y Hy%list_elem_of_In. apply list_elem_of_In. apply Hin1 in Hy as [(H1 & _ & H3)|[E2 _]].
        -- rewrite Exs in H3. set_solver.
        -- destruct (delayed_apart _ _ HW) as [_ Hap]. destruct (Hap (uxPriority c)); [apply (w_tasks _ _ HW _ _ Ht)|congruence].
      * intros r k' (V' & Hwk). exists V'. by eapply woken_step.
Qed.

Lemma key_range k V x : wf k V -> 0 <= key (mem k) x <= portMAX_DELAY.
Proof.
  intros HW. unfold key. destruct (value (mem k) x) as [v|] eqn:E; cbn; [|unfold portMAX_DELAY; lia].
  by apply (st_values _ _ (w_store _ _ HW) _ _ E).
Qed.

(** [prvResetNextTaskUnblockTime] re-establishes the bound on the wake times. *)
Lemma reset_unblock_spec k V :
  wf (with_unblock (-1) k) V -> wp prvResetNextTaskUnblockTime (fun _ k' => exists u, k' = with_unblock u k /\ wf k' V) k.
Proof.
  intros HW. pose proof (w_store _ _ HW) as HS. cbn in HS. destruct (state_delayed _ _ HW) as [Hsd _]. cbn in Hsd.
  destruct (is_Some_pair _ _ (w_lists _ _ HW _ Hsd)) as [i E]. cbn [pxDelayedTaskList with_unblock] in E.
  assert (Hset : forall u, (forall x, x ∈ sq V (pxDelayedTaskList k) -> u <= key (mem k) x) -> exists u', with_unblock u k = with_unblock u' k /\ wf (with_unblock u k) V).
  { intros u Hu. exists u. split; [done|]. change (wf (with_unblock u (with_unblock (-1) k)) V). by apply wf_unblock. }
  unfold prvResetNextTaskUnblockTime. apply wp_bind, wp_get. apply wp_bind, wp_on_mem. eapply read_empty; [exact HS|exact E|]. rewrite with_mem_id.
  destruct (sq V (pxDelayedTaskList k)) as [|x xs] eqn:Exs.
  - wp_step. apply Hset. set_solver.
  - assert (Hx : x ∈ sq V (pxDelayedTaskList k)) by (rewrite Exs; left).
    destruct (w_sleepers _ _ HW _ _ (or_introl eq_refl) Hx) as (t & c & -> & Ht). destruct (w_tasks _ _ HW _ _ Ht) as (_ & _ & Ho & _).
    destruct (item_task _ _ _ _ HW Ht) as [Hl _]. apply wp_bind, wp_on_mem. eapply read_head_owner; [exact HS|exact E|exact Ho|]. rewrite with_mem_id.
    apply wp_bind, wp_on_mem. eapply read_value; [apply live_value; exact Hl|]. rewrite with_mem_id. wp_step. apply Hset.
    pose proof (w_sorted _ _ HW _ (or_introl eq_refl)) as Hs. cbn [pxDelayedTaskList with_unblock mem] in Hs. rewrite Exs in Hs.
    apply StronglySorted_inv in Hs as [_ Hs]. rewrite Forall_forall in Hs. intros y [->|Hy]%elem_of_cons; [done|by apply Hs].
Qed.

(** The delayed lists change places when the tick count wraps. *)
Lemma switch_lists_spec k V :
  wf k V -> sq V (pxDelayedTaskList k) = [] ->
  wp taskSWITCH_DELAYED_LISTS
     (fun _ k' => exists u n, k' = with_unblock u (with_overflows n (with_delayed (pxOverflowDelayedTaskList k) (pxDelayedTaskList k) (with_tick 0 k)))
                  /\ wf k' V) (with_tick 0 k).
Proof.
  intros HW Hd. destruct (state_delayed _ _ HW) as [Hsd Hso]. destruct (is_Some_pair _ _ (w_lists _ _ HW _ Hsd)) as [i E].
  unfold taskSWITCH_DELAYED_LISTS. apply wp_bind, wp_get. apply wp_bind, wp_on_mem.
  eapply read_empty; [apply HW|exact E|]. rewrite with_mem_id, Hd. apply wp_bind, wp_check; [done|]. apply wp_bind. wp_step. apply wp_bind. wp_step.
  eapply wp_mono; [apply (reset_unblock_spec _ V)|intros [] k' (u & -> & HW'); eauto].
  destruct HW as [HS HA HT HL HR Htop Hmax Hwh Hsl Hsort Hov Hnx Htk]. split; try done; cbn -[sq state_list].
  - by destruct HA.
  - naive_solver.
  - intros L x HL'. apply Hsl. tauto.
  - intros L HL'. apply Hsort. tauto.
  - rewrite Hd. set_solver.
  - intros x _. unfold key. destruct (value (mem k) x) as [v|] eqn:Ev; cbn; [|lia]. apply (st_values _ _ HS) in Ev. lia.
Qed.

(** ** Sleeping *)

(** The ticks that are left until a task is woken. *)
Definition remaining (k : kernel) (V : view) (t d : Z) : Prop :=
  xGenericListItem t ∈ sq V (pxDelayedTaskList k) /\ d = key (mem k) (xGenericListItem t) - xTickCount k
  \/ xGenericListItem t ∈ sq V (pxOverflowDelayedTaskList k) /\ d = key (mem k) (xGenericListItem t) - xTickCount k + 2 ^ 32.

(** What a tick leaves alone. *)
Record same_tasks (k k' : kernel) : Prop := {
  sm_tcbs : tcbs k' = tcbs k;
  sm_current : pxCurrentTCB k' = pxCurrentTCB k;
  sm_suspended : uxSchedulerSuspended k' = uxSchedulerSuspended k;
  sm_pended : uxPendedTicks k' = uxPendedTicks k;
  sm_key : forall x, key (mem k') x = key (mem k) x
}.

Record ticked (k : kernel) (V : view) (k' : kernel) (V' : view) : Prop := {
  tk_wf : wf k' V';
  tk_on_time : on_time k' V';
  tk_count : xTickCount k' = u32 (xTickCount k + 1);
  tk_same : same_tasks k k';
  tk_due : forall t c, tcbs k !! t = Some c -> remaining k V t 1 -> xGenericListItem t ∈ sq V' (ready (uxPriority c)) /\ ~ linked V' (xEventListItem t);
  tk_later : forall t d, remaining k V t d -> d <> 1 -> remaining k' V' t (d - 1);
  tk_ready : forall p x, 0 <= p < configMAX_PRIORITIES ->
    x ∈ sq V' (ready p) <-> x ∈ sq V (ready p) \/ exists t c, x = xGenericListItem t /\ tcbs k !! t = Some c /\ uxPriority c = p /\ remaining k V t 1
}.

(** The tick count is one further and the lists fit it again. *)
Record advanced (k : kernel) (V : view) (k2 : kernel) : Prop := {
  ad_wf : wf k2 V;
  ad_count : xTickCount k2 = u32 (xTickCount k + 1);
  ad_mem : mem k2 = mem k;
  ad_same : same_tasks k k2;
  ad_due : forall x, x ∈ sq V (pxDelayedTaskList k2) -> xTickCount k2 <= key (mem k) x;
  ad_remaining : forall t d, remaining k V t d <-> remaining k2 V t (d - 1)
}.

Lemma advance_spec k V :
  wf k V -> on_time k V ->
  wp (if u32 (xTickCount k + 1) =? 0 then taskSWITCH_DELAYED_LISTS else mret tt) (fun _ k2 => advanced k V k2) (with_tick (u32 (xTickCount k + 1)) k).
Proof.
  intros HW Hon. pose proof (w_tick _ _ HW) as Htk. destruct (decide (xTickCount k = 2 ^ 32 - 1)) as [Hw|Hw].
  - assert (Eu : u32 (xTickCount k + 1) = 0) by (by rewrite Hw). rewrite Eu. cbn [Z.eqb].
    assert (Hd : sq V (pxDelayedTaskList k) = []).
    { destruct (sq V (pxDelayedTaskList k)) as [|x xs] eqn:E; [done|]. specialize (Hon x ltac:(rewrite E; left)).
      pose proof (key_range _ _ x HW). unfold portMAX_DELAY in *. lia. }
    eapply wp_mono; [by apply switch_lists_spec|]. intros [] k2 (u & n & -> & HW2). split; cbn; try done.
    + intros x _. by apply (key_range _ _ x HW).
    + intros t d. unfold remaining. cbn. rewrite Hd, Hw. split; [intros [[? _]|[H1 H2]]|intros [[H1 H2]|[? _]]]; try set_solver; [left|right]; (split; [done|lia]).
  - assert (Eu : u32 (xTickCount k + 1) = xTickCount k + 1) by (apply u32_small; lia). rewrite Eu.
    destruct (Z.eqb_spec (xTickCount k + 1) 0); [lia|]. apply wp_ret. split; cbn; try done.
    + destruct HW as [HS HA HT HL HR Htop Hmax Hwh Hsl Hso Hov Hnx _]. split; try done; cbn -[sq]; [by destruct HA| |lia].
      intros x Hx. specialize (Hov x Hx). lia.
    + intros x Hx. specialize (Hon x Hx). lia.
    + intros t d. unfold remaining. cbn. split; (intros [[H1 H2]|[H1 H2]]; [left|right]); (split; [done|lia]).
Qed.

(** From the tasks that are woken to the effect of the tick. *)
Lemma ticked_of k V k2 k3 V' k' :
  advanced k V k2 -> woken (xTickCount k2) k2 V k3 V' -> wf k' V' -> (exists r, k' = with_requests r k3) -> ticked k V k' V'.
Proof.
  intros [HW2 Hct Hmem Hsame Hdue Hrem] [(s3 & top & u & -> & Hs3) HW3 Hon Hrd Hev Hgn Hov] HW' [r ->]. destruct Hsame as [St Sc Ss Sp Sk].
  assert (Hkey : forall x, key s3 x = key (mem k2) x) by (intros x; by apply same_key).
  assert (Hz : forall x, x ∈ sq V (pxDelayedTaskList k2) -> xTickCount k2 <= key (mem k2) x) by (intros x Hx; rewrite Hmem; by apply Hdue).
  assert (Hov2 : forall x, x ∈ sq V (pxOverflowDelayedTaskList k2) -> 0 <= key (mem k2) x < xTickCount k2).
  { intros x Hx. split; [apply (key_range _ _ x HW2)|by apply (w_overflow _ _ HW2)]. }
  pose proof (w_tick _ _ HW2) as Htk2.
  assert (H1 : forall t, remaining k V t 1 <-> xGenericListItem t ∈ sq V (pxDelayedTaskList k2) /\ key (mem k2) (xGenericListItem t) <= xTickCount k2).
  { intros t. rewrite Hrem. unfold remaining. split.
    - intros [[Hx E]|[Hx E]]; [split; [done|lia]|]. specialize (Hov2 _ Hx). lia.
    - intros [Hx Hk]. left. split; [done|]. specialize (Hz _ Hx). lia. }
  split; cbn; try done.
  - intros x Hx. cbn in *. rewrite Hkey. by apply Hon.
  - split; cbn; try done. intros x. rewrite Hkey. apply Sk.
  - intros t c Ht Hr. apply H1 in Hr as [Hx Hk]. rewrite <- St in Ht. destruct (w_tasks _ _ HW2 _ _ Ht) as (Hp & _). split; [|by apply Hev].
    apply Hrd; [done|]. right. split_and!; try done. by exists t, c.
  - intros t d Hr Hd. apply Hrem in Hr. unfold remaining in *. cbn. rewrite Hkey. destruct Hr as [[Hx E]|[Hx E]]; [left|right].
    + split; [apply Hon; split; [done|]; specialize (Hz _ Hx); lia|done].
    + split; [by apply Hov|done].
  - intros p x Hp. rewrite (Hrd p x Hp). split; (intros [?|Hx]; [by left|right]).
    + destruct Hx as (Hx & Hk & t & c & -> & Ht & Hpc). exists t, c. rewrite <- St. split_and!; try done. by apply H1.
    + destruct Hx as (t & c & -> & Ht & Hpc & Hr). apply H1 in Hr as [Hx Hk]. split_and!; try done. exists t, c. by rewrite St.
Qed.

Lemma tick_spec k V :
  wf k V -> on_time k V -> susp k 0 = 0 -> is_Some (tcbs k !! cur k 0) ->
  wp (xTaskIncrementTick 0) (fun _ k' => exists V', ticked k V k' V') k.
Proof.
  intros HW Hon Hs [cc Hcc]. unfold xTaskIncrementTick. change (negb (0 =? 0)) with false. cbv iota.
  apply wp_bind, wp_suspended; [apply HW|by left|]. rewrite Hs. change (0 =? 0) with true. cbv iota. apply wp_bind.
  apply (wp_mono _ (fun _ k' => exists V', ticked k V k' V' /\ arrays_ok k')).
  2: { intros sw k' (V' & Ht & Ha). apply wp_bind, wp_yield_pending; [done|by left|]. apply wp_ret. by exists V'. }
  apply wp_bind. wp_step. apply wp_bind, wp_get. cbn [xTickCount with_tick]. apply wp_bind.
  eapply wp_mono; [by apply advance_spec|]. intros [] k2 Had. pose proof Had as [HW2 Hct Hmem Hsame Hdue Hrem]. apply wp_bind, wp_get. apply wp_bind.
  rewrite <- Hct. assert (Hc2 : is_Some (tcbs k2 !! cur k2 0)) by (unfold cur; rewrite (sm_tcbs _ _ Hsame), (sm_current _ _ Hsame); by exists cc).
  apply (wp_mono _ (fun _ k3 => exists V', woken (xTickCount k2) k2 V k3 V')).
  { destruct (Z.leb_spec (xNextTaskUnblockTime k2) (xTickCount k2)).
    - apply unblock_spec; [by left|done|done|]. destruct (state_delayed _ _ HW2) as [Hsd _].
      destruct (is_Some_pair _ _ (w_lists _ _ HW2 _ Hsd)) as [i E]. enough (length (sq V (pxDelayedTaskList k2)) <= size (items (mem k2)))%nat by lia.
      apply live_length; [apply (NoDup_cons_1_2 (xListEnd (pxDelayedTaskList k2))), (st_at _ _ (w_store _ _ HW2) _ _ _ E)|].
      intros x Hx. eapply store_live; [apply HW2|exact E|by right].
    - apply wp_ret. exists V. replace k2 with (with_unblock (xNextTaskUnblockTime k2) k2) at 3 by (by destruct k2).
      apply woken_none; [done|]. intros x Hx. pose proof (w_next _ _ HW2 x Hx). lia. }
  intros sw k3 (V' & Hwk). pose proof Hwk as [(s3 & top & u & -> & Hs3) HW3 _ _ _ _ _]. destruct Hc2 as [c2 Hc2].
  apply wp_bind, wp_current; [apply HW3|by left|]. apply wp_bind. eapply wp_tcb; [exact Hc2|].
  destruct (w_tasks _ _ HW2 _ _ Hc2) as (Hp & _). destruct (is_Some_pair V' (ready (uxPriority c2))) as [i E]; [apply (w_lists _ _ HW3), state_ready; done|].
  apply wp_bind, wp_on_mem. eapply read_length; [apply HW3|exact E|]. rewrite with_mem_id. apply wp_bind, wp_get, wp_bind.
  destruct (uxPendedTicks _ =? 0).
  - eapply wp_mono; [apply wf_request; exact HW3|]. intros [] k4 [-> HW4]. apply wp_ret. exists V'. split; [|apply HW4].
    eapply ticked_of; [exact Had|exact Hwk|exact HW4|by eexists].
  - apply wp_ret, wp_ret. exists V'. split; [|apply HW3]. eapply ticked_of; [exact Had|exact Hwk|exact HW3|].
    exists (requests k2). by destruct k2.
Qed.

(** The current task goes to sleep. *)
Lemma sleep_spec core k V t c L n (Q : unit -> kernel -> Prop) :
  is_core core -> wf k V -> on_time k V -> cur k core = t -> tcbs k !! t = Some c -> xGenericListItem t ∈ sq V L -> 0 < n < 2 ^ 32 ->
  (forall s' u V', let k' := with_unblock u (with_mem s' k) in
     wf k' V' -> on_time k' V' -> remaining k' V' t n ->
     (forall L' x, x <> xGenericListItem t -> x ∈ sq V' L' <-> x ∈ sq V L') ->
     valued (mem k) (xGenericListItem t) (u32 (xTickCount k + n)) s' -> (forall L', is_Some (V' !! L') <-> is_Some (V !! L')) ->
     (forall L', ~ state_list L' -> sq V' L' = filter (fun x => x <> xGenericListItem t) (sq V L')) -> Q tt k') ->
  wp (on_mem (uxListRemove (xGenericListItem t))) (fun _ k1 => wp (prvAddCurrentTaskToDelayedList core (u32 (xTickCount k + n))) Q k1) k.
Proof.
  intros Hc HW Hon Hcur Ht Hg Hn HQ. eapply wp_mono; [by eapply wf_remove|]. intros r k1 (_ & s1 & -> & Hs1 & HW1).
  assert (Hin1 : forall L' x, x ∈ sq (view_remove L (xGenericListItem t) V) L' <-> x <> xGenericListItem t /\ x ∈ sq V L').
  { intros L' x. rewrite (sq_removed _ _ _ _ L' HW Hg), list_elem_of_filter. done. }
  assert (Hnl : ~ linked (view_remove L (xGenericListItem t) V) (xGenericListItem t)) by (intros [L' Hx]; apply Hin1 in Hx; tauto).
  pose proof (u32_range (xTickCount k + n)) as Hur. pose proof (w_tick _ _ HW) as Htk.
  eapply wp_mono; [apply (add_delayed_spec core _ _ t c _ Hc HW1 Hcur Ht Hnl Hur)|].
  intros [] k2 (s2 & V2 & -> & Hval & HW2 & Hlv2 & Hsq2). set (time := u32 (xTickCount k + n)) in *.
  assert (Hkt : key s2 (xGenericListItem t) = time) by (rewrite (valued_key _ _ _ _ _ Hval); by rewrite decide_True).
  assert (Hko : forall x, x <> xGenericListItem t -> key s2 x = key (mem k) x).
  { intros x Hx. rewrite (valued_key _ _ _ _ _ Hval), decide_False by done. cbn. by apply same_key. }
  destruct (delayed_apart _ _ HW) as [Hdo _].
  assert (Hin2 : forall L' x, x ∈ sq V2 L' <-> (x <> xGenericListItem t /\ x ∈ sq V L') \/ L' = sleep_list k time /\ x = xGenericListItem t).
  { intros L' x. rewrite Hsq2. change (sleep_list (with_mem s1 k) time) with (sleep_list k time).
    case_decide; [rewrite sorted_insert_perm, elem_of_cons|]; rewrite Hin1; naive_solver. }
  assert (Htime : (xTickCount k + n < 2 ^ 32 /\ time = xTickCount k + n) \/ (2 ^ 32 <= xTickCount k + n /\ time = xTickCount k + n - 2 ^ 32)).
  { unfold time, u32, wrap. destruct (decide (xTickCount k + n < 2 ^ 32)); [left; split; [done|]; apply Z.mod_small; lia|right; split; [lia|]].
    symmetry. apply (Z.mod_unique _ _ 1); lia. }
  apply (HQ s2 _ V2); [exact HW2| | | | | |].
  - intros x Hx. cbn in *. apply Hin2 in Hx as [[Hx Hx']|[E ->]]; [rewrite Hko by done; by apply Hon|]. rewrite Hkt.
    unfold sleep_list in E. destruct (Z.ltb_spec time (xTickCount k)); [congruence|lia].
  - unfold remaining. cbn. rewrite Hkt. unfold sleep_list in Hin2. destruct (Z.ltb_spec time (xTickCount k)); [right|left]; (split; [apply Hin2; by right|lia]).
  - intros L' x Hne. rewrite Hin2. naive_solver.
  - destruct Hval as [A1 A2 A3], Hs1 as [B1 B2 B3]. split; intros x; cbn in *; [by rewrite A1, B1|by rewrite A2, B2|by rewrite A3, B3].
  - intros L'. by rewrite Hlv2, live_view_remove.
  - intros L' HL'. rewrite Hsq2, decide_False; [by rewrite (sq_removed _ _ _ _ L' HW Hg)|]. intros ->. apply HL'. destruct (state_delayed _ _ HW).
    unfold sleep_list. cbn. by destruct (_ <? _).
Qed.

Fixpoint ticks (j : nat) : M kernel unit := match j with O => mret tt | S j => xTaskIncrementTick 0;; ticks j end.

Lemma ticks_spec j : forall k V t c n,
  wf k V -> on_time k V -> susp k 0 = 0 -> is_Some (tcbs k !! cur k 0) -> tcbs k !! t = Some c -> remaining k V t n -> Z.of_nat j <= n -> 0 < n ->
  wp (ticks j) (fun _ k' => exists V', wf k' V' /\ on_time k' V'
      /\ if Z.of_nat j <? n then remaining k' V' t (n - Z.of_nat j) else xGenericListItem t ∈ sq V' (ready (uxPriority c))) k.
Proof.
  induction j as [|j IH]; intros k V t c n HW Hon Hs Hcur Ht Hr Hj Hn; cbn [ticks].
  - apply wp_ret. exists V. split_and!; [done|done|]. destruct (Z.ltb_spec (Z.of_nat 0) n); [|lia]. by rewrite Z.sub_0_r.
  - apply wp_bind. eapply wp_mono; [by apply tick_spec|]. intros _ k1 (V1 & [HW1 Hon1 Hct1 [St Sc Ss Sp Sk] Hdue Hlat _]).
    destruct (decide (n = 1)) as [->|Hn1].
    + assert (j = 0%nat) as -> by lia. apply wp_ret. exists V1. split_and!; [done|done|]. by apply Hdue.
    + eapply wp_mono; [apply (IH k1 V1 t c (n - 1)); try done|].
      * unfold susp. by rewrite Ss.
      * unfold cur. by rewrite St, Sc.
      * by rewrite St.
      * by apply Hlat.
      * lia.
      * lia.
      * intros [] k' (V' & H1 & H2 & H3). exists V'. split_and!; [done|done|].
        destruct (Z.ltb_spec (Z.of_nat j) (n - 1)), (Z.ltb_spec (Z.of_nat (S j)) n); try lia; [|done].
        replace (n - Z.of_nat (S j)) with (n - 1 - Z.of_nat j) by lia. done.
Qed.

(** C14: [vTaskDelay] and the tick agree on time, also across the wrap-around of
    the tick count and the switch of the two delayed lists: a task that delays
    itself by [n] ticks is in a delayed list for the first [n - 1] ticks and in
    the ready list of its priority at the [n]-th, neither earlier nor later. *)
Theorem delay_wakes_on_time core k V t c n j :
  is_core core -> wf k V -> on_time k V -> susp k core = 0 -> susp k 0 = 0 -> is_Some (tcbs k !! cur k 0) ->
  cur k core = t -> tcbs k !! t = Some c -> xGenericListItem t ∈ sq V (ready (uxPriority c)) -> 0 < n < 2 ^ 32 -> 0 <= j <= n ->
  wp (vTaskDelay core n;; ticks (Z.to_nat j))
     (fun _ k' => exists V', wf k' V' /\ on_time k' V'
        /\ if j <? n then remaining k' V' t (n - j) /\ forall p, 0 <= p < configMAX_PRIORITIES -> xGenericListItem t ∉ sq V' (ready p)
           else xGenericListItem t ∈ sq V' (ready (uxPriority c))) k.
Proof.
  intros Hc HW Hon Hs Hs0 Hcur0 Hcur Ht Hg Hn Hj. apply wp_bind. unfold vTaskDelay. destruct (Z.ltb_spec 0 n); [|lia].
  do 2 apply wp_bind. apply wp_suspended; [apply HW|done|]. rewrite Hs. apply wp_bind, wp_check; [done|]. apply wp_bind, wp_get.
  cbv zeta. apply wp_bind, wp_current; [apply HW|done|]. rewrite Hcur. apply wp_bind.
  eapply wp_mono; [eapply (sleep_spec core k V t c _ n (fun _ k' => exists s' u V', k' = with_unblock u (with_mem s' k) /\ wf k' V' /\ on_time k' V' /\ remaining k' V' t n)); try done|].
  { intros s' u V' k' H1 H2 H3 _ _ _ _. by exists s', u, V'. }
  intros r k1 Hk1. eapply wp_mono; [exact Hk1|]. intros [] k2 (s' & u & V' & -> & HW2 & Hon2 & Hr2).
  eapply wp_mono; [apply wf_request; exact HW2|]. intros [] k3 [-> HW3].
  eapply wp_mono; [apply (ticks_spec _ _ V' t c n HW3); try done; rewrite Z2Nat.id; lia|]. rewrite Z2Nat.id by lia.
  intros [] k' (V2 & H1 & H2 & H3). exists V2. split_and!; [done|done|]. destruct (j <? n); [|done]. split; [done|].
  intros p Hp Hx. destruct (delayed_apart _ _ H1) as [_ Hap]. destruct (Hap p Hp) as [Ha Ho].
  destruct H3 as [[Hin _]|[Hin _]]; [apply Ha|apply Ho]; exact (one_list _ _ _ _ _ H1 Hx Hin).
Qed.

(** ** Time-outs *)

(** The kernel's clock shows the absolute tick [T]. *)
Definition clock (k : kernel) (T : Z) : Prop := 0 <= T /\ xTickCount k = T mod 2 ^ 32 /\ xNumOfOverflows k = to_signed 32 (T / 2 ^ 32).

(** C27: [xTaskCheckForTimeOut] measures time across the wrap-around of the
    tick count: less than [2^32] ticks after [vTaskSetTimeOutState] it reports
    a time-out exactly when at least as many ticks have passed as were to be
    waited; otherwise it moves the start to now and subtracts the ticks that
    have passed from the ticks to wait; a wait for ever never times out. *)
Theorem timeout_exact k0 k T0 T1 w :
  clock k0 T0 -> clock k T1 -> 0 <= T1 - T0 < 2 ^ 32 -> 0 <= w <= portMAX_DELAY ->
  wp vTaskSetTimeOutState (fun start _ =>
     wp (xTaskCheckForTimeOut start w)
        (fun r k' => k' = k /\
           if w =? portMAX_DELAY then r = (false, start, w)
           else if w <=? T1 - T0 then r = (true, start, w)
           else r = (false, TimeOut (xNumOfOverflows k) (xTickCount k), w - (T1 - T0))) k) k0.
Proof.
  intros (HT0 & E0 & O0) (HT1 & E1 & O1) He Hw. unfold vTaskSetTimeOutState at 1. apply wp_bind, wp_get, wp_ret.
  unfold xTaskCheckForTimeOut. apply wp_bind, wp_get. cbn [xTimeOnEntering xOverflowCount]. destruct (Z.eqb_spec w portMAX_DELAY) as [->|Hne]; [by apply wp_ret|].
  pose proof (Z.div_mod T0 (2 ^ 32) ltac:(lia)) as D0. pose proof (Z.div_mod T1 (2 ^ 32) ltac:(lia)) as D1.
  pose proof (Z.mod_pos_bound T0 (2 ^ 32) ltac:(lia)). pose proof (Z.mod_pos_bound T1 (2 ^ 32) ltac:(lia)).
  rewrite E0, E1, O0, O1. assert (Hcase : (T1 / 2 ^ 32 = T0 / 2 ^ 32 /\ T0 mod 2 ^ 32 <= T1 mod 2 ^ 32) \/ (T1 / 2 ^ 32 = T0 / 2 ^ 32 + 1 /\ T1 mod 2 ^ 32 < T0 mod 2 ^ 32)) by nia.
  assert (Hu : u32 (T1 mod 2 ^ 32 - T0 mod 2 ^ 32) = T1 - T0).
  { unfold u32, wrap. destruct Hcase as [[Hq Hle]|[Hq Hlt]]; symmetry; [apply (Z.mod_unique _ _ 0)|apply (Z.mod_unique _ _ (-1))]; lia. }
  assert (Ht : negb (to_signed 32 (T1 / 2 ^ 32) =? to_signed 32 (T0 / 2 ^ 32)) && (T0 mod 2 ^ 32 <=? T1 mod 2 ^ 32) = false).
  { destruct Hcase as [[-> _]|[_ Hlt]]; [by rewrite Z.eqb_refl|]. apply andb_false_intro2. by apply Z.leb_gt. }
  rewrite Ht, Hu. destruct (Z.ltb_spec (T1 - T0) w), (Z.leb_spec w (T1 - T0)); try lia; [|by apply wp_ret].
  apply wp_bind. unfold vTaskSetTimeOutState. apply wp_bind, wp_get, wp_ret, wp_ret. rewrite E1, O1. split; [done|]. do 2 f_equal.
  apply u32_small. unfold portMAX_DELAY in *. lia.
Qed.
End Invariant.
