(* ===== verification/RtosWake.v ===== *)
(** * Waking and blocking tasks

    What [xTaskRemoveFromEventList] and its variants do to the task at the head
    of an event list, and what placing the current task in an event list does,
    as used by event groups and queues: the effect on the lists of the kernel,
    and the variables that are left alone. *)

From S2P Require Import Prelude RtosList RtosStore RtosTasks RtosSched.

#[local] Open Scope Z_scope.

(** ** Words of bits *)

Lemma below_pow2 n z : 0 <= n -> 0 <= z -> (forall m, n <= m -> Z.testbit z m = false) -> z < 2 ^ n.
Proof.
  intros Hn Hz H. destruct (decide (z < 2 ^ n)) as [|Hge]; [done|exfalso]. assert (0 < 2 ^ n) by (by apply Z.pow_pos_nonneg).
  assert (Hl : n <= Z.log2 z) by (apply Z.log2_le_pow2; lia). specialize (H _ Hl). rewrite Z.bit_log2 in H by lia. done.
Qed.

Lemma bits_above n z m : 0 <= z < 2 ^ n -> n <= m -> Z.testbit z m = false.
Proof.
  intros Hz Hm. destruct (decide (z = 0)) as [->|]; [apply Z.bits_0|]. apply Z.bits_above_log2; [lia|].
  assert (Z.log2 z < n) by (apply Z.log2_lt_pow2; lia). lia.
Qed.

Lemma lor_below n a b : 0 <= n -> 0 <= a < 2 ^ n -> 0 <= b < 2 ^ n -> 0 <= Z.lor a b < 2 ^ n.
Proof.
  intros Hn Ha Hb. assert (0 <= Z.lor a b) by (apply Z.lor_nonneg; lia). split; [done|]. apply below_pow2; [done|done|].
  intros m Hm. by rewrite Z.lor_spec, !(bits_above n).
Qed.

Lemma ldiff_below n a b : 0 <= n -> 0 <= a < 2 ^ n -> 0 <= Z.ldiff a b < 2 ^ n.
Proof.
  intros Hn Ha. assert (0 <= Z.ldiff a b) by (apply Z.ldiff_nonneg; lia). split; [done|]. apply below_pow2; [done|done|].
  intros m Hm. by rewrite Z.ldiff_spec, (bits_above n).
Qed.

(** ** Waking one task *)

(** Variables that waking a task does not touch. *)
Record kept (k k' : kernel) : Prop := {
  kp_tcbs : tcbs k' = tcbs k;
  kp_current : pxCurrentTCB k' = pxCurrentTCB k;
  kp_delayed : pxDelayedTaskList k' = pxDelayedTaskList k;
  kp_overflow : pxOverflowDelayedTaskList k' = pxOverflowDelayedTaskList k;
  kp_count : uxCurrentNumberOfTasks k' = uxCurrentNumberOfTasks k;
  kp_tick : xTickCount k' = xTickCount k;
  kp_running : xSchedulerRunning k' = xSchedulerRunning k;
  kp_pended : uxPendedTicks k' = uxPendedTicks k;
  kp_suspended : uxSchedulerSuspended k' = uxSchedulerSuspended k
}.

Lemma kept_refl k : kept k k.
Proof. by split. Qed.
Lemma kept_trans k1 k2 k3 : kept k1 k2 -> kept k2 k3 -> kept k1 k3.
Proof. intros [] []. split; congruence. Qed.

Section Wake.
Context {T : TaskLists} {TL : TaskListsLaws T}.

Lemma apart_ready L' : ~ state_list L' -> forall p, 0 <= p < configMAX_PRIORITIES -> L' <> ready p.
Proof. intros H p Hp ->. by apply H, state_ready. Qed.

(** Both CPUs run a task, and tasks are bound to a CPU that exists. *)
Record cpus_ok (k : kernel) : Prop := {
  cp_current : forall core, is_core core -> is_Some (tcbs k !! cur k core);
  cp_affinity : forall t c, tcbs k !! t = Some c -> xCoreID c = tskNO_AFFINITY \/ is_core (xCoreID c)
}.

Lemma cpus_kept k k' : kept k k' -> cpus_ok k -> cpus_ok k'.
Proof. intros Hk [H1 H2]. split; unfold cur in *; by rewrite ?(kp_tcbs _ _ Hk), ?(kp_current _ _ Hk). Qed.

Lemma yield_other_spec core cpu p k V :
  is_core core -> wf k V -> cpus_ok k -> cpu = tskNO_AFFINITY \/ is_core cpu ->
  wp (taskYIELD_OTHER_CORE core cpu p) (fun _ k' => exists r, k' = with_requests r k /\ wf k' V) k.
Proof.
  intros Hc HW [Hcur _] Hcpu.
  assert (Hnone : exists r, k = with_requests r k /\ wf k V) by (exists (requests k); by destruct k).
  assert (Hask : forall q, wp (request_ q) (fun _ k' => exists r, k' = with_requests r k /\ wf k' V) k).
  { intros q. eapply wp_mono; [by apply wf_request|]. intros [] k' [-> HW']. by eexists. }
  assert (Hone : forall i (m : M kernel unit), is_core i -> wp m (fun _ k' => exists r, k' = with_requests r k /\ wf k' V) k ->
    wp (t ← current i; c ← tcb t; if uxPriority c <? p then request_ (YieldOther i) else m) (fun _ k' => exists r, k' = with_requests r k /\ wf k' V) k).
  { intros i m Hi Hm. apply wp_bind, wp_current; [apply HW|done|]. destruct (Hcur i Hi) as [c Hcc]. apply wp_bind. eapply wp_tcb; [exact Hcc|].
    by destruct (uxPriority c <? p). }
  unfold taskYIELD_OTHER_CORE. destruct (Z.eqb_spec cpu tskNO_AFFINITY) as [->|Hne]; cbn [negb].
  - change (Z.to_nat portNUM_PROCESSORS) with 2%nat. destruct Hc as [->| ->].
    + change (0 =? 0) with true. change (0 + 1 =? 0) with false. cbv iota. apply (Hone 1); [by right|]. by apply wp_ret.
    + change (0 =? 1) with false. change (0 + 1 =? 1) with true. cbv iota. apply (Hone 0); [by left|]. by apply wp_ret.
  - destruct Hcpu as [?|Hcpu]; [done|]. apply (Hone cpu); [done|]. by apply wp_ret.
Qed.

Lemma yield_for_spec core t c k V :
  is_core core -> wf k V -> cpus_ok k -> tcbs k !! t = Some c ->
  wp (yield_for core t) (fun _ k' => wf k' V /\ kept k k' /\ mem k' = mem k) k.
Proof.
  intros Hc HW Hcp Ht. pose proof Hcp as [Hcur Haff]. unfold yield_for. apply wp_bind. eapply wp_tcb; [exact Ht|].
  apply wp_bind, wp_current; [apply HW|done|]. destruct (Hcur core Hc) as [cc Hcc]. apply wp_bind. eapply wp_tcb; [exact Hcc|].
  destruct (tskCAN_RUN_HERE core (xCoreID c) && (uxPriority cc <=? uxPriority c)).
  - apply wp_bind, wp_set_yield; [apply HW|done|]. apply wp_ret. split_and!; [by apply wf_yield|by split|done].
  - destruct (negb (xCoreID c =? core)).
    + apply wp_bind. eapply wp_mono; [apply (yield_other_spec _ _ _ _ V); try done; by eapply Haff|]. intros [] k' (r & -> & HW'). apply wp_ret. by split_and!.
    + apply wp_ret. by split_and!.
Qed.

(** Task [t] is awake: its event item has the value [v] and is in no list, its
    generic item is in its ready list. *)
Record roused (t : Z) (c : TCB_t) (v : Z) (k : kernel) (V : view) (k' : kernel) (V' : view) : Prop := {
  ro_wf : wf k' V';
  ro_kept : kept k k';
  ro_lists : forall L, is_Some (V' !! L) <-> is_Some (V !! L);
  ro_in : forall L x, x ∈ sq V' L <-> (x <> xGenericListItem t /\ x <> xEventListItem t /\ x ∈ sq V L) \/ L = ready (uxPriority c) /\ x = xGenericListItem t;
  ro_sq : forall L, (forall p, 0 <= p < configMAX_PRIORITIES -> L <> ready p) -> sq V' L = without t (sq V L);
  ro_value : forall x, value (mem k') x = if decide (x = xEventListItem t) then Some v else value (mem k) x;
  ro_owner : forall x, owner (mem k') x = owner (mem k) x;
  ro_live : forall x, is_Some (items (mem k') !! x) <-> is_Some (items (mem k) !! x)
}.

(** An event item's value does not matter to the invariant. *)
Lemma wf_event_value k V t c v s' :
  wf k V -> tcbs k !! t = Some c -> store s' V -> valued (mem k) (xEventListItem t) v s' -> wf (with_mem s' k) V.
Proof.
  intros HW Ht HS Hval.
  assert (Hkey : forall L x, L = pxDelayedTaskList k \/ L = pxOverflowDelayedTaskList k -> x ∈ sq V L -> key s' x = key (mem k) x).
  { intros L x HL Hx. rewrite (valued_key _ _ _ _ _ Hval), decide_False; [done|]. intros ->. by apply (event_not_sleeper _ _ _ _ L HW Ht HL). }
  apply (wf_mem k V); [done|done|apply Hval|done|by left|by left|..].
  - intros L HL. pose proof (w_sorted _ _ HW L HL) as Hs. assert (Hl : forall x, x ∈ sq V L -> key s' x = key (mem k) x) by (intros x; by apply Hkey).
    by eapply sorted_on_ext.
  - intros x Hx. rewrite (Hkey _ x (or_intror eq_refl) Hx). by apply (w_overflow _ _ HW).
  - intros x Hx. rewrite (Hkey _ x (or_introl eq_refl) Hx). by apply (w_next _ _ HW).
Qed.

(** The last steps of a wake-up, after the event item was removed. *)
Lemma rouse_rest core k V t c L G v s1 s2 :
  is_core core -> wf k V -> cpus_ok k -> tcbs k !! t = Some c -> xEventListItem t ∈ sq V L -> xGenericListItem t ∈ sq V G ->
  valued (mem k) (xEventListItem t) v s1 -> same_items s1 s2 -> wf (with_mem s2 k) (view_remove L (xEventListItem t) V) ->
  wp (on_mem (uxListRemove (xGenericListItem t)))
     (fun _ k3 => wp (prvAddTaskToReadyList t) (fun _ k4 => wp (yield_for core t) (fun _ k' => exists V', roused t c v k V k' V') k4) k3) (with_mem s2 k).
Proof.
  intros Hc HW Hcp Ht He Hg [Hv1 Ho1 Hl1] Hs2 HW2. destruct (w_tasks _ _ HW _ _ Ht) as (Hp & _).
  assert (Hsq2 : forall L', sq (view_remove L (xEventListItem t) V) L' = filter (fun y => y <> xEventListItem t) (sq V L')) by (intros L'; by eapply sq_removed).
  assert (Hg2 : xGenericListItem t ∈ sq (view_remove L (xEventListItem t) V) G).
  { rewrite Hsq2. apply list_elem_of_filter. split; [|done]. by apply (gen_event _ _ _ _ _ _ HW Ht Ht). }
  eapply wp_mono; [by eapply wf_remove|]. intros r3 k3 (_ & s3 & -> & Hs3 & HW3).
  set (V3 := view_remove G (xGenericListItem t) (view_remove L (xEventListItem t) V)) in *.
  assert (Hsq3 : forall L', sq V3 L' = without t (sq V L')).
  { intros L'. unfold V3. rewrite (sq_removed _ _ _ _ L' HW2 Hg2), Hsq2. unfold without. rewrite list_filter_filter. apply list_filter_iff. tauto. }
  assert (Hn3 : ~ linked V3 (xGenericListItem t)) by (intros [L' Hx]; rewrite Hsq3, without_in in Hx; tauto).
  eapply wp_mono; [by eapply add_ready_spec|]. intros [] k4 (top & (s4 & -> & Hs4 & HW4) & _).
  eapply wp_mono; [eapply yield_for_spec; [done|exact HW4|by eapply (cpus_kept k)|exact Ht]|].
  intros b k5 (HW5 & Hk5 & Hm5). destruct (is_Some_pair V3 (ready (uxPriority c))) as [i E]; [apply (w_lists _ _ HW3), state_ready; done|].
  pose proof (same_items_trans _ _ _ (same_items_trans _ _ _ Hs2 Hs3) Hs4) as Hsi. eexists. split; [exact HW5| | | | | | |].
  - eapply kept_trans; [|exact Hk5]. by split.
  - intros L'. rewrite live_view_insert_end. unfold V3. by rewrite !live_view_remove.
  - intros L' x. rewrite (sq_view_insert_end _ _ _ _ i E). case_decide as EL.
    + rewrite insert_before_perm, elem_of_cons, Hsq3, without_in. subst L'. naive_solver.
    + rewrite Hsq3, without_in. naive_solver.
  - intros L' HL'. rewrite (sq_view_insert_end _ _ _ _ i E), decide_False; [apply Hsq3|]. by apply HL'.
  - intros x. rewrite Hm5. cbn. rewrite (si_value _ _ Hsi). apply Hv1.
  - intros x. rewrite Hm5. cbn. rewrite (si_owner _ _ Hsi). apply Ho1.
  - intros x. rewrite Hm5. cbn. rewrite (si_live _ _ Hsi). apply Hl1.
Qed.

Lemma rouse_spec core k V t c L G v :
  is_core core -> wf k V -> cpus_ok k -> susp k core <> 0 -> tcbs k !! t = Some c ->
  xEventListItem t ∈ sq V L -> xGenericListItem t ∈ sq V G -> 0 <= v < 2 ^ 32 ->
  wp (xTaskRemoveFromUnorderedEventList core (xEventListItem t) v)
     (fun _ k' => exists V', roused t c (Z.lor v taskEVENT_LIST_ITEM_VALUE_IN_USE) k V k' V') k.
Proof.
  intros Hc HW Hcp Hs Ht He Hg Hv. destruct (w_tasks _ _ HW _ _ Ht) as (Hp & Ht0 & _ & Hoe & Hmk). destruct (item_task _ _ _ _ HW Ht) as [_ Hle].
  unfold xTaskRemoveFromUnorderedEventList. apply wp_bind, wp_suspended; [apply HW|done|].
  apply wp_bind, wp_check; [by apply negb_true_iff, Z.eqb_neq|]. set (w := Z.lor v taskEVENT_LIST_ITEM_VALUE_IN_USE).
  assert (Hw : 0 <= w <= portMAX_DELAY).
  { pose proof (lor_below 32 v taskEVENT_LIST_ITEM_VALUE_IN_USE ltac:(lia) Hv). unfold taskEVENT_LIST_ITEM_VALUE_IN_USE, portMAX_DELAY in *. lia. }
  apply wp_bind, wp_on_mem. eapply wp_mono; [apply (store_set_value _ V); [apply HW|done|done|]|].
  { intros L' xs i E. apply not_eq_sym. apply Hmk. by eexists. }
  intros [] s1 (HS1 & Hv1 & Ho1 & Hl1). assert (Hval : valued (mem k) (xEventListItem t) w s1) by (by split).
  pose proof (wf_event_value _ _ _ _ _ _ HW Ht HS1 Hval) as HW1.
  apply wp_bind, wp_on_mem. eapply read_owner; [cbn; rewrite Ho1; exact Hoe|]. rewrite with_mem_id.
  apply wp_bind, wp_check; [by apply negb_true_iff, Z.eqb_neq|].
  apply wp_bind. eapply wp_mono; [by eapply wf_remove|]. intros r2 k2 (_ & s2 & -> & Hs2 & HW2).
  apply wp_bind. eapply wp_mono; [by eapply (rouse_rest core k V t c L G w s1 s2)|]. intros r3 k3 H3. by apply wp_bind.
Qed.

(** The first task of an event list is woken while the scheduler runs. *)
Lemma wake_head_spec core k V t c L G xs :
  is_core core -> wf k V -> cpus_ok k -> susp k core = 0 -> tcbs k !! t = Some c ->
  sq V L = xEventListItem t :: xs -> xGenericListItem t ∈ sq V G ->
  wp (xTaskRemoveFromEventList core L) (fun _ k' => exists V', roused t c (key (mem k) (xEventListItem t)) k V k' V') k.
Proof.
  intros Hc HW Hcp Hs Ht He Hg. destruct (w_tasks _ _ HW _ _ Ht) as (Hp & Ht0 & _ & Hoe & Hmk). destruct (item_task _ _ _ _ HW Ht) as [_ Hle].
  assert (Hin : xEventListItem t ∈ sq V L) by (rewrite He; left). destruct (sq_in _ _ _ Hin) as (xs' & i & E & _).
  pose proof (sq_lookup _ _ _ _ E) as E'. rewrite He in E'. subst xs'. unfold xTaskRemoveFromEventList.
  apply wp_bind, wp_on_mem. eapply read_empty; [apply HW|exact E|]. rewrite with_mem_id. cbv iota.
  apply wp_bind, wp_on_mem. eapply read_head_owner; [apply HW|exact E|exact Hoe|]. rewrite with_mem_id.
  apply wp_bind, wp_check; [by apply negb_true_iff, Z.eqb_neq|].
  apply wp_bind. eapply wp_mono; [by eapply wf_remove|]. intros r2 k2 (_ & s2 & -> & Hs2 & HW2).
  apply wp_bind, wp_suspended; [apply HW2|done|]. change (susp (with_mem s2 k) core) with (susp k core). rewrite Hs. cbv iota.
  change (0 =? 0) with true. cbv iota. apply wp_bind. apply wp_bind. assert (Hv : valued (mem k) (xEventListItem t) (key (mem k) (xEventListItem t)) (mem k)).
  { split; [|done|done]. intros x. case_decide as Ex; [subst x|done]. unfold key. destruct Hle as [it Hit]. unfold value. by rewrite Hit. }
  by apply (rouse_rest core k V t c L G _ (mem k) s2).
Qed.

(** ** Blocking the current task *)

(** The generic item of task [t] has gone to sleep. *)
Record asleep (t ticks : Z) (k : kernel) (V : view) (k' : kernel) (V' : view) : Prop := {
  as_wf : wf k' V';
  as_on_time : on_time k' V';
  as_kept : kept k k';
  as_lists : forall L', is_Some (V' !! L') <-> is_Some (V !! L');
  as_in : forall L' x, x <> xGenericListItem t -> x ∈ sq V' L' <-> x ∈ sq V L';
  as_sq : forall L', ~ state_list L' -> sq V' L' = filter (fun x => x <> xGenericListItem t) (sq V L');
  as_sleeps : if ticks =? portMAX_DELAY then xGenericListItem t ∈ sq V' xSuspendedTaskList else remaining k' V' t ticks;
  as_value : forall x, x <> xGenericListItem t -> value (mem k') x = value (mem k) x
}.

Lemma block_current_spec core k V t c G ticks :
  is_core core -> wf k V -> on_time k V -> cur k core = t -> tcbs k !! t = Some c -> xGenericListItem t ∈ sq V G -> 0 < ticks <= portMAX_DELAY ->
  wp (block_current core ticks) (fun _ k' => exists V', asleep t ticks k V k' V') k.
Proof.
  intros Hc HW Hon Hcur Ht Hg Hn. destruct (item_task _ _ _ _ HW Ht) as [Hl _]. unfold block_current. apply wp_bind, wp_current; [apply HW|done|]. rewrite Hcur.
  apply wp_bind. pose proof (wf_remove k V G _ HW Hg) as Hrm. destruct (Z.eqb_spec ticks portMAX_DELAY) as [->|Hne].
  - eapply wp_mono; [exact Hrm|]. intros r k1 (_ & s1 & -> & Hs1 & HW1). set (V1 := view_remove G (xGenericListItem t) V) in *.
    assert (Hsq1 : forall L', sq V1 L' = filter (fun x => x <> xGenericListItem t) (sq V L')) by (intros L'; unfold V1; by rewrite (sq_removed _ _ _ _ L' HW Hg)).
    assert (Hin1 : forall L' x, x ∈ sq V1 L' <-> x <> xGenericListItem t /\ x ∈ sq V L') by (intros L' x; by rewrite Hsq1, list_elem_of_filter).
    assert (Hss : state_list xSuspendedTaskList) by (unfold state_list; tauto). destruct (is_Some_pair _ _ (w_lists _ _ HW1 _ Hss)) as [i E].
    destruct (w_which _ _ HW) as [[Ed Eo]|[Ed Eo]]; pose proof tl_susp1; pose proof tl_susp2.
    all: eapply wp_mono; [apply (wf_insert_end (with_mem s1 k) V1 xSuspendedTaskList (xGenericListItem t)); cbn;
      [exact HW1|by eexists|eapply task_free; [exact HW1|exact Ht|by left|intros [L' Hx]; apply Hin1 in Hx; tauto]|by apply (si_live _ _ Hs1)|by rewrite Ed|by rewrite Eo|
       intros p Hp E'; symmetry in E'; by apply (tl_suspended p Hp) in E']|].
    all: intros [] k2 (s2 & -> & Hs2 & HW2); eexists; split; [exact HW2| |by split|intros L'; rewrite live_view_insert_end; apply live_view_remove| | | |].
    all: try (intros x Hx; cbn in *; rewrite (sq_view_insert_end _ _ _ _ i E), decide_False in Hx by (rewrite Ed; congruence);
              apply Hin1 in Hx as [_ Hx]; rewrite (same_key _ _ x (same_items_trans _ _ _ Hs1 Hs2)); by apply Hon).
    all: try (intros L' x Hx; rewrite (sq_view_insert_end _ _ _ _ i E); case_decide; [rewrite insert_before_perm, elem_of_cons; subst L'|]; rewrite Hin1; naive_solver).
    all: try (intros L' HL'; rewrite (sq_view_insert_end _ _ _ _ i E), decide_False; [apply Hsq1|intros ->; by apply HL']).
    all: try (rewrite Z.eqb_refl, (sq_view_insert_end _ _ _ _ i E), decide_True, insert_before_perm by done; left).
    all: intros x Hx; cbn; by rewrite (si_value _ _ Hs2), (si_value _ _ Hs1).
  - assert (Hsl : wp (on_mem (uxListRemove (xGenericListItem t)))
        (fun _ k1 => wp (prvAddCurrentTaskToDelayedList core (u32 (xTickCount k + ticks))) (fun _ k' => exists V', asleep t ticks k V k' V') k1) k).
    { apply (sleep_spec core k V t c G ticks); try done; [unfold portMAX_DELAY in *; lia|]. intros s' u V' k' H1 H2 H3 H4 H5 H6 H7. exists V'. split; try done.
      - by rewrite (proj2 (Z.eqb_neq _ _) Hne).
      - intros x Hx. cbn. by rewrite (va_value _ _ _ _ H5), decide_False. }
    eapply wp_mono; [exact (wp_and _ _ _ _ Hrm Hsl)|]. intros r k1 [(_ & s1 & -> & _) Hw]. apply wp_bind, wp_get. exact Hw.
Qed.

(** The current task [t] waits in the list [E] and sleeps. *)
Record placed (E t v ticks : Z) (k : kernel) (V : view) (k' : kernel) (V' : view) : Prop := {
  pl_wf : wf k' V';
  pl_on_time : on_time k' V';
  pl_kept : kept k k';
  pl_lists : forall L', is_Some (V' !! L') <-> is_Some (V !! L');
  pl_in : forall L' x, x <> xGenericListItem t -> x ∈ sq V' L' <-> x ∈ sq V L' \/ L' = E /\ x = xEventListItem t;
  pl_sleeps : if ticks =? portMAX_DELAY then xGenericListItem t ∈ sq V' xSuspendedTaskList else remaining k' V' t ticks;
  pl_value : forall x, x <> xGenericListItem t -> value (mem k') x = if decide (x = xEventListItem t) then Some v else value (mem k) x;
  pl_sq : forall L', ~ state_list L' -> L' <> E -> sq V' L' = filter (fun x => x <> xGenericListItem t) (sq V L')
}.

(** The event item is in the list: the task blocks. *)
Lemma block_placed core k V t c E G v ticks s2 V2 :
  is_core core -> on_time k V -> cur k core = t -> tcbs k !! t = Some c -> ~ state_list E -> xGenericListItem t ∈ sq V G -> ~ linked V (xEventListItem t) ->
  0 < ticks <= portMAX_DELAY -> wf k V ->
  wf (with_mem s2 k) V2 -> valued (mem k) (xEventListItem t) v s2 -> (forall L', is_Some (V2 !! L') <-> is_Some (V !! L')) ->
  (forall L' x, x ∈ sq V2 L' <-> x ∈ sq V L' \/ L' = E /\ x = xEventListItem t) -> (forall L', L' <> E -> sq V2 L' = sq V L') ->
  wp (block_current core ticks)
     (fun _ k' => exists V', placed E t v ticks k V k' V' /\ sq V' E = filter (fun x => x <> xGenericListItem t) (sq V2 E)) (with_mem s2 k).
Proof.
  intros Hc Hon Hcur Ht Hap Hg Hne Hn HW HW2 Hval Hl2 Hin2 Hsq2. destruct (state_delayed _ _ HW) as [Hsd _].
  assert (Hon2 : on_time (with_mem s2 k) V2).
  { intros x Hx. cbn in *. apply Hin2 in Hx as [Hx|[EE _]]; [|exfalso; apply Hap; rewrite <- EE; exact Hsd].
    rewrite (valued_key _ _ _ _ _ Hval), decide_False; [by apply Hon|]. intros ->. apply Hne. by eexists. }
  eapply wp_mono; [apply (block_current_spec core (with_mem s2 k) V2 t c G ticks Hc HW2 Hon2 Hcur Ht); [apply Hin2; by left|done]|].
  intros [] k3 (V3 & [HW3 Hon3 Hk3 Hl3 Hin3 Hsq3 Hr3 Hv3]). exists V3. split; [split; try done|by apply Hsq3].
  - destruct Hk3 as [K1 K2 K3 K4 K5 K6 K7 K8 K9]. by split.
  - intros L'. by rewrite Hl3.
  - intros L' x Hx. by rewrite Hin3, Hin2.
  - intros x Hx. rewrite Hv3 by done. apply Hval.
  - intros L' HL' HE. by rewrite Hsq3, Hsq2.
Qed.

Lemma place_spec core k V t c E G v ticks :
  is_core core -> wf k V -> on_time k V -> cur k core = t -> tcbs k !! t = Some c -> susp k core <> 0 ->
  is_Some (V !! E) -> ~ state_list E -> E <> 0 -> xGenericListItem t ∈ sq V G -> ~ linked V (xEventListItem t) ->
  0 <= v < 2 ^ 32 -> 0 < ticks <= portMAX_DELAY ->
  wp (vTaskPlaceOnUnorderedEventList core E v ticks)
     (fun _ k' => exists V', placed E t (Z.lor v taskEVENT_LIST_ITEM_VALUE_IN_USE) ticks k V k' V') k.
Proof.
  intros Hc HW Hon Hcur Ht Hs HE Hap HE0 Hg Hne Hv Hn. destruct (item_task _ _ _ _ HW Ht) as [_ Hl]. destruct (w_tasks _ _ HW _ _ Ht) as (_ & _ & _ & _ & Hmk).
  destruct (state_delayed _ _ HW) as [Hsd Hso]. set (w := Z.lor v taskEVENT_LIST_ITEM_VALUE_IN_USE).
  assert (Hw : 0 <= w <= portMAX_DELAY).
  { pose proof (lor_below 32 v taskEVENT_LIST_ITEM_VALUE_IN_USE ltac:(lia) Hv). unfold taskEVENT_LIST_ITEM_VALUE_IN_USE, portMAX_DELAY in *. lia. }
  unfold vTaskPlaceOnUnorderedEventList. apply wp_bind, wp_check; [by apply negb_true_iff, Z.eqb_neq|].
  apply wp_bind, wp_suspended; [apply HW|done|]. apply wp_bind, wp_check; [by apply negb_true_iff, Z.eqb_neq|].
  apply wp_bind, wp_current; [apply HW|done|]. rewrite Hcur. apply wp_bind, wp_on_mem.
  eapply wp_mono; [apply (store_set_value _ V); [apply HW|done|exact Hw|]|].
  { intros L' xs i E'. apply not_eq_sym. apply Hmk. by eexists. }
  intros [] s1 (HS1 & Hv1 & Ho1 & Hl1). assert (Hval : valued (mem k) (xEventListItem t) w s1) by (by split).
  pose proof (wf_event_value _ _ _ _ _ _ HW Ht HS1 Hval) as HW1. destruct (is_Some_pair _ _ HE) as [i Ei].
  apply wp_bind. eapply wp_mono; [apply (wf_insert_end (with_mem s1 k) V E (xEventListItem t)); [exact HW1|done|eapply task_free; [exact HW1|exact Ht|by right|done]|by apply Hl1|..]|].
  { intros ->. by apply Hap. }
  { intros ->. by apply Hap. }
  { intros p Hp ->. exfalso. by apply Hap, state_ready. }
  intros [] k2 (s2 & -> & Hs2 & HW2). pose proof (sq_view_insert_end E (xEventListItem t) V) as Hsq. specialize (fun L' => Hsq L' i Ei).
  eapply wp_mono; [apply (block_placed core k V t c E G w ticks s2 (view_insert_end E (xEventListItem t) V)); try done|].
  - by eapply valued_same.
  - intros L'. apply live_view_insert_end.
  - intros L' x. rewrite Hsq. case_decide; [rewrite insert_before_perm, elem_of_cons; subst L'|]; naive_solver.
  - intros L' HL'. by rewrite Hsq, decide_False.
  - intros [] k3 (V3 & H3 & _). by exists V3.
Qed.

(** An item that is no generic item enters an event list in the order of its value. *)
Lemma wf_insert_event k V L n :
  wf k V -> is_Some (V !! L) -> ~ state_list L -> free V n -> is_Some (items (mem k) !! n) ->
  wp (insert_ L n) (fun _ k' => mem_step k (view_insert (key (mem k)) L n V) k') k.
Proof.
  intros HW HL Hap Hf Hl. destruct (is_Some_pair _ _ HL) as [i E]. unfold insert_. apply wp_bind, wp_get. apply wp_on_mem.
  eapply wp_mono; [by eapply store_insert; [apply HW|..]|]. intros _ s' (HS & Hsame). exists s'. split_and!; [done|done|].
  assert (Hoth : forall L', state_list L' -> sq (view_insert (key (mem k)) L n V) L' = sq V L').
  { intros L' HL'. rewrite sq_view_insert by done. rewrite decide_False; [done|]. by intros ->. }
  destruct (state_delayed _ _ HW) as [Hd Ho].
  apply (wf_mem k V); [done|done|apply Hsame|intros; apply live_view_insert|..].
  - intros p y Hp. rewrite Hoth by (by apply state_ready). by left.
  - intros L' y [->| ->]; rewrite Hoth by done; by left.
  - intros L' HL'. rewrite Hoth by (by destruct HL' as [->| ->]). apply (sorted_by_ext (key (mem k))); [intros y; by apply same_key|]. by apply (w_sorted _ _ HW).
  - intros y. rewrite Hoth by done. rewrite (same_key _ _ y Hsame). apply (w_overflow _ _ HW).
  - intros y. rewrite Hoth by done. rewrite (same_key _ _ y Hsame). apply (w_next _ _ HW).
Qed.

(** The current task is placed among the waiting tasks by its priority. *)
Lemma place_ordered_spec core k V t c E G ticks :
  is_core core -> wf k V -> on_time k V -> cur k core = t -> tcbs k !! t = Some c ->
  is_Some (V !! E) -> ~ state_list E -> E <> 0 -> xGenericListItem t ∈ sq V G -> ~ linked V (xEventListItem t) -> 0 < ticks <= portMAX_DELAY ->
  wp (vTaskPlaceOnEventList core E ticks)
     (fun _ k' => exists V', placed E t (key (mem k) (xEventListItem t)) ticks k V k' V'
        /\ sq V' E = filter (fun x => x <> xGenericListItem t) (sorted_insert (key (mem k)) (xEventListItem t) (sq V E))) k.
Proof.
  intros Hc HW Hon Hcur Ht HE Hap HE0 Hg Hne Hn. destruct (item_task _ _ _ _ HW Ht) as [_ Hl].
  unfold vTaskPlaceOnEventList. apply wp_bind, wp_check; [by apply negb_true_iff, Z.eqb_neq|]. apply wp_bind, wp_current; [apply HW|done|]. rewrite Hcur.
  apply wp_bind. eapply wp_mono; [apply (wf_insert_event k V E); try done; by eapply task_free; [..|by right|]|]. intros [] k2 (s2 & -> & Hs2 & HW2).
  pose proof (sq_view_insert (key (mem k)) E (xEventListItem t) V) as Hsq. specialize (fun L' => Hsq L' HE).
  eapply wp_mono; [apply (block_placed core k V t c E G (key (mem k) (xEventListItem t)) ticks s2 (view_insert (key (mem k)) E (xEventListItem t) V)); try done|].
  - split; [|apply Hs2|apply Hs2]. intros x. rewrite (si_value _ _ Hs2). case_decide as Ex; [subst x|done]. unfold key, value. destruct Hl as [it ->]. done.
  - intros L'. apply live_view_insert.
  - intros L' x. rewrite Hsq. case_decide; [rewrite sorted_insert_perm, elem_of_cons; subst L'|]; naive_solver.
  - intros L' HL'. by rewrite Hsq, decide_False.
  - intros [] k3 (V3 & H3 & H4). exists V3. split; [done|]. by rewrite H4, Hsq, decide_True.
Qed.

(** A task that has gone to sleep is in a list of the scheduler. *)
Lemma placed_state E t v ticks k V k' V' : placed E t v ticks k V k' V' -> exists S, state_list S /\ xGenericListItem t ∈ sq V' S.
Proof.
  intros [HW _ _ _ _ Hs _ _]. destruct (state_delayed _ _ HW) as [H1 H2]. destruct (ticks =? portMAX_DELAY).
  - exists xSuspendedTaskList. split; [unfold state_list; tauto|done].
  - destruct Hs as [[Hs _]|[Hs _]]; eauto.
Qed.

Lemma placed_not_generic E t v ticks k V k' V' L' x : placed E t v ticks k V k' V' -> ~ state_list L' -> x ∈ sq V' L' -> x <> xGenericListItem t.
Proof.
  intros Hp HL Hx ->. destruct (placed_state _ _ _ _ _ _ _ _ Hp) as (S & HS & Hg). apply HL. by rewrite (one_list _ _ _ _ _ (pl_wf _ _ _ _ _ _ _ _ Hp) Hx Hg).
Qed.

(** ** Lists of waiting tasks *)

(** The tasks whose event items are in [L] are blocked. *)
Record parked (k : kernel) (V : view) (L : Z) : Prop := {
  pk_list : is_Some (V !! L);
  pk_apart : ~ state_list L;
  pk_waiters : forall x, x ∈ sq V L -> exists t c G, x = xEventListItem t /\ tcbs k !! t = Some c /\ xGenericListItem t ∈ sq V G
}.

Lemma parked_roused k V L t c v k' V' : wf k V -> tcbs k !! t = Some c -> roused t c v k V k' V' -> parked k V L -> parked k' V' L.
Proof.
  intros HW Ht [HW' Hk Hls Hin Hsq Hv Ho Hl] [HL Hap Hwt]. split; [by apply Hls|done|]. intros x Hx. apply Hin in Hx as [(H1 & H2 & Hx)|[E _]].
  - destruct (Hwt x Hx) as (t' & c' & G & -> & Ht' & Hg). exists t', c', G. rewrite (kp_tcbs _ _ Hk). split_and!; try done. apply Hin. left.
    split_and!; [|by apply (gen_event _ _ _ _ _ _ HW Ht' Ht)|done]. intros E%gen_inj. by subst.
  - exfalso. apply Hap. rewrite E. apply state_ready, (w_tasks _ _ HW _ _ Ht).
Qed.

Lemma parked_placed k V L E t c v ticks k' V' : wf k V -> tcbs k !! t = Some c -> placed E t v ticks k V k' V' -> parked k V L -> parked k' V' L.
Proof.
  intros HW Ht Hp [HL Hap Hwt]. pose proof Hp as [HW' _ Hk Hls Hin _ _ _]. split; [by apply Hls|done|].
  intros x Hx. pose proof (placed_not_generic _ _ _ _ _ _ _ _ _ _ Hp Hap Hx) as Hne. rewrite (kp_tcbs _ _ Hk). destruct (placed_state _ _ _ _ _ _ _ _ Hp) as (S & _ & HS).
  apply (Hin L x Hne) in Hx as [Hx|[_ ->]]; [|by exists t, c, S]. destruct (Hwt x Hx) as (t' & c' & G & -> & Ht' & HG).
  destruct (decide (t' = t)) as [->|Ht2]; [by exists t, c', S|]. exists t', c', G. split_and!; [done|done|]. apply Hin; [intros E'%gen_inj; done|by left].
Qed.

(** The first task of [L], if there is one, is awake; yields may be requested. *)
Definition woke (L : Z) (k : kernel) (V : view) (k' : kernel) (V' : view) : Prop :=
  wf k' V' /\
  match sq V L with
  | [] => V' = V /\ exists rq, k' = with_requests rq k
  | x :: _ => exists t c k1 rq, x = xEventListItem t /\ tcbs k !! t = Some c /\ roused t c (key (mem k) x) k V k1 V' /\ k' = with_requests rq k1
  end.

Lemma woke_kept L k V k' V' : woke L k V k' V' -> kept k k'.
Proof.
  intros [_ H]. destruct (sq V L); [by destruct H as (_ & rq & ->); split|]. destruct H as (t & c & k1 & rq & _ & _ & [_ [] _ _ _ _ _ _] & ->). by split.
Qed.

Lemma woke_parked L k V k' V' L' : wf k V -> woke L k V k' V' -> parked k V L' -> parked k' V' L'.
Proof.
  intros HW [_ H] Hp. destruct (sq V L).
  - destruct H as (-> & rq & ->). destruct Hp. by split.
  - destruct H as (t & c & k1 & rq & _ & Ht & Hr & ->). destruct (parked_roused _ _ _ _ _ _ _ _ HW Ht Hr Hp). by split.
Qed.

(** The task that is first is ready, and waits no longer. *)
Lemma woke_first L k V k' V' t c xs : wf k V -> tcbs k !! t = Some c -> sq V L = xEventListItem t :: xs -> woke L k V k' V' ->
  xGenericListItem t ∈ sq V' (ready (uxPriority c)) /\ ~ linked V' (xEventListItem t).
Proof.
  intros HW Ht E [_ H]. rewrite E in H. destruct H as (t' & c' & k1 & rq & Et & Ht' & [_ _ _ Hin _ _ _ _] & ->).
  assert (t' = t) as -> by (unfold xEventListItem in Et; lia). assert (c' = c) as -> by congruence. split; [apply Hin; by right|].
  intros [L' [(_ & Hx & _)|[_ Hx]]%Hin]; [done|]. symmetry in Hx. by apply (gen_event _ _ _ _ _ _ HW Ht Ht) in Hx.
Qed.

(** A task that waits nowhere stays where it is. *)
Lemma woke_other L k V k' V' t c : wf k V -> tcbs k !! t = Some c -> ~ linked V (xEventListItem t) -> woke L k V k' V' ->
  (forall L', xGenericListItem t ∈ sq V' L' <-> xGenericListItem t ∈ sq V L') /\ ~ linked V' (xEventListItem t).
Proof.
  intros HW Ht Hne [_ H]. destruct (sq V L) as [|x xs] eqn:E; [by destruct H as (-> & _)|].
  destruct H as (t' & c' & k1 & rq & -> & Ht' & [_ _ _ Hin _ _ _ _] & ->). assert (Htt : t' <> t) by (intros ->; apply Hne; exists L; rewrite E; left).
  pose proof (gen_event _ _ _ _ _ _ HW Ht Ht') as G1. pose proof (gen_event _ _ _ _ _ _ HW Ht' Ht) as G2.
  assert (G3 : xGenericListItem t <> xGenericListItem t') by (intros E'%gen_inj; congruence). split.
  - intros L'. rewrite Hin. naive_solver.
  - intros [L' [(_ & _ & Hx)|[_ Hx]]%Hin]; [apply Hne; by exists L'|]. symmetry in Hx. done.
Qed.
End Wake.
