(* ===== verification/RtosWitness.v ===== *)
(** * A concrete kernel

    The invariant of [RtosSched] is decidable on a concrete state, so that
    states that the kernel's own functions reach can be checked by evaluation:
    the witnesses of the theorems about scheduling, and the states in which
    the code of tasks.c does not do what its comments say. *)

From stdpp Require Import sorting.
From S2P Require Import Prelude RtosList RtosStore RtosTasks RtosSched RtosWake.

#[local] Open Scope Z_scope.

(** ** Deciding the invariant *)

#[local] Instance List_t_eq_dec : EqDecision List_t.
Proof. solve_decision. Defined.

#[local] Instance seg_dec s u xs v : Decision (seg s u xs v).
Proof. revert u. induction xs as [|x xs IH]; intros u; cbn [seg]; apply _. Defined.

Definition list_check (s : list_mem) (L : Z) (xi : list Z * Z) : Prop :=
  lists s !! L = Some (ListHdr (Z.of_nat (length (fst xi))) (snd xi)) /\ Z.of_nat (length (fst xi)) < 2 ^ 32
  /\ seg s (xListEnd L) (fst xi) (xListEnd L) /\ NoDup (xListEnd L :: fst xi) /\ snd xi ∈ xListEnd L :: fst xi
  /\ value s (xListEnd L) = Some portMAX_DELAY /\ Forall (fun x => container s x = Some L) (fst xi).

Definition store_check (s : list_mem) (V : view) : Prop :=
  map_Forall (list_check s) V
  /\ map_Forall (fun L1 xi1 => map_Forall (fun L2 xi2 => L1 = L2 \/ Forall (fun x => x ∉ xListEnd L2 :: fst xi2) (xListEnd L1 :: fst xi1)) V) V
  /\ map_Forall (fun x i => pvContainer i = 0 \/ ~ map_Forall (fun L xi => x ∉ xListEnd L :: fst xi) V) (items s)
  /\ V !! 0 = None
  /\ map_Forall (fun _ i => 0 <= xItemValue i <= portMAX_DELAY) (items s)
  /\ Z.of_nat (size (items s)) <= 2 ^ 32.

Lemma list_check_ok s L xs i : list_check s L (xs, i) -> list_at s L xs i.
Proof. intros (H1 & H2 & H3 & H4 & H5 & H6 & H7). split; try done. by rewrite Forall_forall in H7. Qed.

Lemma store_check_ok s V : store_check s V -> store s V.
Proof.
  intros (H1 & H2 & H3 & H4 & H5 & H6). split; try done.
  - intros L xs i E. apply list_check_ok. by apply (H1 L (xs, i)).
  - intros L1 xs1 i1 L2 xs2 i2 x E1 E2 Hne Hx. destruct (H2 _ _ E1 _ _ E2) as [?|H]; [done|]. rewrite Forall_forall in H. by apply H.
  - intros x [i Hi] Hf. unfold container. rewrite Hi. cbn. f_equal. destruct (H3 _ _ Hi) as [?|Hn]; [done|]. exfalso. apply Hn.
    intros L [xs j] E. by apply (Hf L xs j).
  - intros x v (i & Hi & ->)%fmap_Some. by apply (H5 _ _ Hi).
Qed.

Section Check.
Context {T : TaskLists}.

Definition priorities : list Z := seqZ 0 configMAX_PRIORITIES.
Definition state_lists : list Z := (ready <$> priorities) ++ [xDelayedTaskList1; xDelayedTaskList2; xSuspendedTaskList].
(** The task whose generic item is [x]. *)
Definition task_of (k : kernel) (x : Z) : option TCB_t := tcbs k !! (x - 4).

Definition wf_check (k : kernel) (V : view) : Prop :=
  store_check (mem k) V
  /\ (length (pxCurrentTCB k) = 2%nat /\ length (xYieldPending k) = 2%nat /\ length (uxSchedulerSuspended k) = 2%nat)
  /\ map_Forall (fun t c => 0 <= uxPriority c < configMAX_PRIORITIES /\ t <> 0
       /\ owner (mem k) (xGenericListItem t) = Some t /\ owner (mem k) (xEventListItem t) = Some t
       /\ map_Forall (fun L _ => xListEnd L <> xGenericListItem t /\ xListEnd L <> xEventListItem t) V) (tcbs k)
  /\ Forall (fun L => is_Some (V !! L)) state_lists
  /\ Forall (fun p => Forall (fun x => (uxPriority <$> task_of k x) = Some p /\ p <= uxTopReadyPriority k) (sq V (ready p))) priorities
  /\ 0 <= uxTopReadyPriority k < configMAX_PRIORITIES
  /\ (pxDelayedTaskList k = xDelayedTaskList1 /\ pxOverflowDelayedTaskList k = xDelayedTaskList2
      \/ pxDelayedTaskList k = xDelayedTaskList2 /\ pxOverflowDelayedTaskList k = xDelayedTaskList1)
  /\ Forall (fun L => Forall (fun x => is_Some (task_of k x)) (sq V L) /\ StronglySorted (fun x y => key (mem k) x <= key (mem k) y) (sq V L))
       [pxDelayedTaskList k; pxOverflowDelayedTaskList k]
  /\ Forall (fun x => key (mem k) x < xTickCount k) (sq V (pxOverflowDelayedTaskList k))
  /\ Forall (fun x => xNextTaskUnblockTime k <= key (mem k) x) (sq V (pxDelayedTaskList k))
  /\ 0 <= xTickCount k < 2 ^ 32.

Lemma priorities_in p : 0 <= p < configMAX_PRIORITIES -> p ∈ priorities.
Proof. intros Hp. apply elem_of_seqZ. lia. Qed.

Lemma task_of_some k x c : task_of k x = Some c -> x = xGenericListItem (x - 4) /\ tcbs k !! (x - 4) = Some c.
Proof. intros H. split; [unfold xGenericListItem; lia|done]. Qed.

Lemma wf_check_ok k V : wf_check k V -> wf k V.
Proof.
  intros (HS & (A1 & A2 & A3) & HT & HL & HR & Htop & Hwh & Hsl & Hov & Hnx & Htk). rewrite Forall_forall in HL, HR, Hsl, Hov, Hnx. split; try done.
  - by apply store_check_ok.
  - intros t c Ht. destruct (HT _ _ Ht) as (H1 & H2 & H3 & H4 & H5). split_and!; try done; try apply H1. intros L [xi E]. by apply (H5 _ _ E).
  - intros L HLs. apply HL. unfold state_lists. destruct HLs as [(p & Hp & ->)|H]; apply elem_of_app; [left|right; set_solver].
    apply list_elem_of_fmap. exists p. split; [done|by apply priorities_in].
  - intros p x Hp Hx. specialize (HR p (priorities_in p Hp)). rewrite Forall_forall in HR. destruct (HR x Hx) as [(c & Hc & ->)%fmap_Some _].
    destruct (task_of_some _ _ _ Hc). by exists (x - 4), c.
  - intros p x Hp Hx. specialize (HR p (priorities_in p Hp)). rewrite Forall_forall in HR. by apply (HR x Hx).
  - intros L x HLd Hx. destruct (Hsl L ltac:(set_solver)) as [Hf _]. rewrite Forall_forall in Hf. destruct (Hf x Hx) as [c Hc].
    destruct (task_of_some _ _ _ Hc). by exists (x - 4), c.
  - intros L HLd. apply (Hsl L). set_solver.
Qed.

Lemma on_time_nil k V : sq V (pxDelayedTaskList k) = [] -> on_time k V.
Proof. intros E x Hx. rewrite E in Hx. by apply not_elem_of_nil in Hx. Qed.

Lemma cpus_check k :
  is_Some (tcbs k !! cur k 0) -> is_Some (tcbs k !! cur k 1) ->
  map_Forall (fun _ c => xCoreID c = tskNO_AFFINITY \/ xCoreID c = 0 \/ xCoreID c = 1) (tcbs k) -> cpus_ok k.
Proof. intros H0 H1 Ha. split; [by intros core [->| ->]|]. intros t c Ht. exact (Ha t c Ht). Qed.

Lemma not_state L' : L' ∉ state_lists -> ~ state_list L'.
Proof.
  unfold state_lists. intros H [(p & Hp & ->)|H']; apply H, elem_of_app; [left|right; set_solver].
  apply list_elem_of_fmap. exists p. split; [done|by apply priorities_in].
Qed.

Lemma empty_list V L' x (P : Prop) : sq V L' = [] -> x ∈ sq V L' -> P.
Proof. intros -> Hx. by apply not_elem_of_nil in Hx. Qed.

Lemma not_linked_check V x : map_Forall (fun L' xi => x ∉ fst xi) V -> ~ linked V x.
Proof. intros H [L' Hx]. destruct (sq_in _ _ _ Hx) as (xs & i & E & Hx'). exact (H L' (xs, i) E Hx'). Qed.

#[global] Instance wf_check_dec k V : Decision (wf_check k V).
Proof. unfold wf_check, store_check, list_check. apply _. Defined.
End Check.

(** ** Four tasks and an event list *)

#[local] Instance demo : TaskLists := {|
  pxReadyTasksLists := 0x1000; xDelayedTaskList1 := 0x1200; xDelayedTaskList2 := 0x1220;
  xPendingReadyList := 0x1240; xTasksWaitingTermination := 0x1280; xSuspendedTaskList := 0x12a0 |}.

#[local] Instance demo_laws : TaskListsLaws demo.
Proof. split; unfold ready, configMAX_PRIORITIES; cbn; lia. Qed.

Definition demo_event : Z := 0x1300.
Definition demo_lists : list Z := state_lists ++ [pending 0; xTasksWaitingTermination; demo_event].

(** The idle tasks of both CPUs, a task for any CPU, a task for CPU 1. *)
Definition idle0 : Z := 0x2000.
Definition idle1 : Z := 0x2100.
Definition taskA : Z := 0x2200.
Definition taskB : Z := 0x2300.
Definition demo_tcbs : list (Z * TCB_t) := [(idle0, TCB 0 0 0 0); (idle1, TCB 0 1 0 0); (taskA, TCB 5 tskNO_AFFINITY 5 0); (taskB, TCB 7 1 7 0)].

Definition demo_items : list (Z * ListItem_t) :=
  ((fun L => (xListEnd L, Item 0 0 0 0 0)) <$> demo_lists ++ [pending 1])
  ++ mbind (fun '(t, c) => [(xGenericListItem t, Item 0 0 0 t 0); (xEventListItem t, Item (configMAX_PRIORITIES - uxPriority c) 0 0 t 0)]) demo_tcbs.

Definition demo_raw : kernel :=
  Kernel (ListMem (list_to_map demo_items) (list_to_map ((fun L => (L, ListHdr 0 0)) <$> demo_lists ++ [pending 1])))
    (list_to_map demo_tcbs) [0; 0] 0 0 0 0 0 0 false 0 [false; false] 0 portMAX_DELAY [0; 0] [].

(** The state after a run that returns. *)
Definition kernel_after {A} (m : M kernel A) (k : kernel) : kernel := match m k with Ret (_, k') => k' | _ => k end.

Definition demo_start : kernel :=
  kernel_after (prvAddNewTaskToReadyList 0 idle0 0;; prvAddNewTaskToReadyList 0 idle1 1;; prvAddNewTaskToReadyList 0 taskA tskNO_AFFINITY;;
                prvAddNewTaskToReadyList 0 taskB 1;; on_mem (vListInitialise demo_event)) demo_raw.

(** The view read off the memory. *)
Fixpoint walk (fuel : nat) (s : list_mem) (a e : Z) : list Z :=
  match fuel with O => [] | S fuel => if a =? e then [] else a :: walk fuel s (default 0 (nx s a)) e end.
Definition view_of (s : list_mem) (Ls : list Z) : view :=
  list_to_map ((fun L => (L, (walk 9 s (default 0 (nx s (xListEnd L))) (xListEnd L), default 0 (pxIndex <$> lists s !! L)))) <$> Ls).
Definition demo_view (k : kernel) : view := view_of (mem k) demo_lists.

Lemma demo_start_wf : wf demo_start (demo_view demo_start).
Proof. apply wf_check_ok. apply (bool_decide_unpack (wf_check demo_start (demo_view demo_start))). vm_compute. exact I. Qed.

Example demo_start_lists :
  (sq (demo_view demo_start) (ready 0), sq (demo_view demo_start) (ready 5), sq (demo_view demo_start) (ready 7), pxCurrentTCB demo_start)
  = ([0x2004; 0x2104], [0x2204], [0x2304], [idle0; taskB]).
Proof. vm_compute. reflexivity. Qed.

(** Close a goal that is decidable and closed. *)
Ltac by_eval := apply (bool_decide_unpack _); vm_compute; exact I.
Ltac check_wf := apply wf_check_ok; match goal with |- wf_check ?k ?V => apply (bool_decide_unpack (wf_check k V)) end; vm_compute; exact I.

(** CPU 0 may run its idle task and [taskA]; [taskB] runs on CPU 1. *)
Lemma switch_picks_highest_witness :
  exists x, x ∈ sq (demo_view demo_start) (ready 5) /\ can_run demo_start 0 (x - 4) = true /\
  wp (vTaskSwitchContext 0)
     (fun _ k' => exists V' t c,
        cur k' 0 = t /\ tcbs demo_start !! t = Some c /\ xGenericListItem t ∈ sq (demo_view demo_start) (ready (uxPriority c)) /\ can_run demo_start 0 t = true
        /\ (forall t' c', tcbs demo_start !! t' = Some c' -> xGenericListItem t' ∈ sq (demo_view demo_start) (ready (uxPriority c')) ->
              can_run demo_start 0 t' = true -> uxPriority c' <= uxPriority c)
        /\ cur k' (1 - 0) = cur demo_start (1 - 0) /\ yieldp k' 0 = false /\ wf k' V' /\ forall L, sq V' L = sq (demo_view demo_start) L) demo_start.
Proof.
  exists 0x2204. assert (H1 : 0x2204 ∈ sq (demo_view demo_start) (ready 5)) by (apply (bool_decide_unpack _); vm_compute; exact I).
  assert (H2 : can_run demo_start 0 (0x2204 - 4) = true) by (vm_compute; reflexivity).
  refine (conj H1 (conj H2 (switch_picks_highest 0 demo_start (demo_view demo_start) (or_introl eq_refl) demo_start_wf _ _))).
  - vm_compute. reflexivity.
  - refine (ex_intro _ 5 (ex_intro _ 0x2204 (conj _ (conj H1 H2)))). unfold configMAX_PRIORITIES. clear. lia.
Defined.

(** [taskA] runs on CPU 0, three ticks before the tick count wraps. *)
Definition demo_late : kernel := with_tick (2 ^ 32 - 3) (kernel_after (vTaskSwitchContext 0) demo_start).

Lemma demo_late_wf : wf demo_late (demo_view demo_late).
Proof. check_wf. Qed.

Lemma delay_wakes_on_time_witness :
  wp (vTaskDelay 0 5;; ticks (Z.to_nat 5))
     (fun _ k' => exists V', wf k' V' /\ on_time k' V' /\ xGenericListItem taskA ∈ sq V' (ready 5)) demo_late.
Proof.
  apply (delay_wakes_on_time 0 demo_late (demo_view demo_late) taskA (TCB 5 tskNO_AFFINITY 5 0) 5 5).
  - by left.
  - exact demo_late_wf.
  - apply on_time_nil. vm_compute. reflexivity.
  - vm_compute. reflexivity.
  - vm_compute. reflexivity.
  - vm_compute. eexists. reflexivity.
  - vm_compute. reflexivity.
  - vm_compute. reflexivity.
  - apply (bool_decide_unpack _). vm_compute. exact I.
  - lia.
  - lia.
Defined.

Lemma timeout_exact_witness :
  wp vTaskSetTimeOutState (fun start _ =>
     wp (xTaskCheckForTimeOut start 10)
        (fun r k' => k' = with_overflows 1 (with_tick 4 demo_late) /\ r = (false, TimeOut 1 4, 3)) (with_overflows 1 (with_tick 4 demo_late))) demo_late.
Proof.
  apply (timeout_exact demo_late (with_overflows 1 (with_tick 4 demo_late)) (2 ^ 32 - 3) (2 ^ 32 + 4) 10).
  - vm_compute. done.
  - vm_compute. done.
  - lia.
  - unfold portMAX_DELAY. lia.
Defined.

(** ** Where the code falls short *)

(** The list of tasks made ready while the scheduler is suspended is
    initialised only for the CPU that creates the first task: waking a task
    from CPU 1 with its scheduler suspended dereferences [NULL]. *)
Example pending_list_of_cpu1 :
  (vTaskSuspendAll 1;; vTaskPlaceOnEventList 0 demo_event portMAX_DELAY;; xTaskRemoveFromEventList 1 demo_event) (kernel_after (vTaskSwitchContext 0) demo_start)
  = Stuck NullDeref.
Proof. vm_compute. reflexivity. Qed.

(** Ticks that CPU 0 could not process are lost when CPU 1 resumes its
    scheduler first: they are counted down without advancing the tick count. *)
Definition demo_two : kernel := kernel_after (vTaskSuspendAll 0;; vTaskSuspendAll 1;; xTaskIncrementTick 0;; xTaskIncrementTick 0) demo_start.
Example pended_ticks_lost :
  uxPendedTicks demo_two = 2 /\
  let k := kernel_after (xTaskResumeAll 1;; xTaskResumeAll 0) demo_two in xTickCount k = xTickCount demo_two /\ uxPendedTicks k = 0.
Proof. vm_compute. done. Qed.

(** [xTaskResumeAll] stops at the first task that preempts the caller: the
    tasks behind it stay in the pending list although the scheduler runs. *)
Definition demo_pending : kernel :=
  kernel_after
    (vTaskSwitchContext 0;; vTaskPlaceOnEventList 0 demo_event portMAX_DELAY;; vTaskSwitchContext 0;;
     vTaskSuspendAll 0;; xTaskRemoveFromEventList 0 demo_event;;
     vTaskPlaceOnEventList 1 demo_event portMAX_DELAY;; vTaskSwitchContext 1;; xTaskRemoveFromEventList 0 demo_event;;
     xTaskResumeAll 0) demo_start.
Example pending_task_left_behind :
  susp demo_pending 0 = 0
  /\ sq (demo_view demo_pending) (pending 0) = [xEventListItem taskB]
  /\ sq (demo_view demo_pending) (ready 5) = [xGenericListItem taskA]
  /\ sq (demo_view demo_pending) (ready 7) = [].
Proof. vm_compute. done. Qed.

(** A task that runs on the other CPU can be deleted and its memory freed by
    the idle task while it is still that CPU's current task. *)
Example running_task_freed :
  let k := kernel_after (vTaskDelete 0 taskB;; prvCheckTasksWaitingTermination 2) demo_start in
  cur k 1 = taskB /\ requests k = [FreeTCB taskB].
Proof. vm_compute. done. Qed.
