(* ===== verification/RtosQueue.v ===== *)
(** * Queues, semaphores and mutexes (components/freertos/queue.c)

    A queue is a ring of items of equal size in memory, with a list of the
    tasks that wait for room and a list of the tasks that wait for an item, in
    the order of their priorities.  A semaphore is a queue whose items have no
    bytes; a mutex is a semaphore whose [pcHead] is [NULL] and whose [pcTail]
    is the task that holds it.  The tasks and lists are those of [RtosTasks].

    The memory that items are copied from and to is a map from addresses to
    bytes; an access outside of it is a fault.  The configuration is the one
    with queue sets and with static as well as dynamic allocation, in which a
    [Queue_t] has 80 bytes and its lists are at offsets 16 and 36.

    A call that may block is a loop of two critical sections.  Its model takes
    the rounds it is given: what other tasks and interrupts do between the
    sections and after them, and the CPU on which the task goes on.  The call
    returns, or is still in progress when the rounds are used up. *)

From S2P Require Import Prelude RtosList RtosTasks.

#[local] Open Scope Z_scope.

(** [pxMutexHolder] is another name of [pcTail], [uxQueueType] of [pcHead];
    [u] is a read pointer or, in a recursive mutex, the number of calls. *)
Record Queue_t : Type := Queue {
  pcHead : Z;
  pcTail : Z;
  pcWriteTo : Z;
  u : Z;
  uxMessagesWaiting : Z;
  uxLength : Z;
  uxItemSize : Z;
  ucStaticallyAllocated : bool;
  pxQueueSetContainer : Z
}.

Definition queueQUEUE_IS_MUTEX : Z := 0.
Definition queueSEND_TO_BACK : Z := 0.
Definition queueSEND_TO_FRONT : Z := 1.
Definition queueOVERWRITE : Z := 2.
Definition sizeof_Queue_t : Z := 80.

Definition xTasksWaitingToSend (q : Z) : Z := q + 16.
Definition xTasksWaitingToReceive (q : Z) : Z := q + 36.

Definition with_head (v : Z) (x : Queue_t) : Queue_t :=
  Queue v (pcTail x) (pcWriteTo x) (u x) (uxMessagesWaiting x) (uxLength x) (uxItemSize x) (ucStaticallyAllocated x) (pxQueueSetContainer x).
Definition with_tail (v : Z) (x : Queue_t) : Queue_t :=
  Queue (pcHead x) v (pcWriteTo x) (u x) (uxMessagesWaiting x) (uxLength x) (uxItemSize x) (ucStaticallyAllocated x) (pxQueueSetContainer x).
Definition with_write (v : Z) (x : Queue_t) : Queue_t :=
  Queue (pcHead x) (pcTail x) v (u x) (uxMessagesWaiting x) (uxLength x) (uxItemSize x) (ucStaticallyAllocated x) (pxQueueSetContainer x).
Definition with_u (v : Z) (x : Queue_t) : Queue_t :=
  Queue (pcHead x) (pcTail x) (pcWriteTo x) v (uxMessagesWaiting x) (uxLength x) (uxItemSize x) (ucStaticallyAllocated x) (pxQueueSetContainer x).
Definition with_waiting (v : Z) (x : Queue_t) : Queue_t :=
  Queue (pcHead x) (pcTail x) (pcWriteTo x) (u x) v (uxLength x) (uxItemSize x) (ucStaticallyAllocated x) (pxQueueSetContainer x).
Definition with_length (v : Z) (x : Queue_t) : Queue_t :=
  Queue (pcHead x) (pcTail x) (pcWriteTo x) (u x) (uxMessagesWaiting x) v (uxItemSize x) (ucStaticallyAllocated x) (pxQueueSetContainer x).
Definition with_size (v : Z) (x : Queue_t) : Queue_t :=
  Queue (pcHead x) (pcTail x) (pcWriteTo x) (u x) (uxMessagesWaiting x) (uxLength x) v (ucStaticallyAllocated x) (pxQueueSetContainer x).
Definition with_static (v : bool) (x : Queue_t) : Queue_t :=
  Queue (pcHead x) (pcTail x) (pcWriteTo x) (u x) (uxMessagesWaiting x) (uxLength x) (uxItemSize x) v (pxQueueSetContainer x).
Definition with_container (v : Z) (x : Queue_t) : Queue_t :=
  Queue (pcHead x) (pcTail x) (pcWriteTo x) (u x) (uxMessagesWaiting x) (uxLength x) (uxItemSize x) (ucStaticallyAllocated x) v.

(** The kernel, the queues, the memory. *)
Record qs : Type := Qs { qker : kernel; queues : gmap Z Queue_t; ram : gmap Z Z }.

Definition in_ker {A} (m : M kernel A) : M qs A := fun s =>
  match m (qker s) with Ret (a, k) => Ret (a, Qs k (queues s) (ram s)) | Stuck e => Stuck e end.
Definition queue (q : Z) : M qs Queue_t :=
  s ← get; match queues s !! q with Some x => mret x | None => stuck NullDeref end.
Definition set_queue (q : Z) (f : Queue_t -> Queue_t) : M qs unit :=
  x ← queue q; modify (fun s => Qs (qker s) (<[q := f x]> (queues s)) (ram s)).

(** [memcpy] from and to the memory *)
Fixpoint load_bytes (a : Z) (n : nat) : M qs (list Z) :=
  match n with
  | O => mret []
  | S n =>
      s ← get;
      match ram s !! a with
      | Some b => l ← load_bytes (a + 1) n; mret (b :: l)
      | None => stuck OutOfBounds
      end
  end.
Fixpoint store_bytes (a : Z) (l : list Z) : M qs unit :=
  match l with
  | [] => mret tt
  | b :: l =>
      s ← get;
      match ram s !! a with
      | Some _ => modify (fun s => Qs (qker s) (queues s) (<[a := b]> (ram s)));; store_bytes (a + 1) l
      | None => stuck OutOfBounds
      end
  end.

Section Queue.
Context `{TaskLists}.

(** [portYIELD_WITHIN_API], on the CPU [core] *)
Definition queueYIELD (core : Z) : M qs unit := in_ker (request_ (Yield core)).

(** Wake the first task of an event list, if there is one. *)
Definition wake (core L : Z) : M qs bool :=
  empty ← in_ker (on_mem (listLIST_IS_EMPTY L));
  if (empty : bool) then mret false else in_ker (xTaskRemoveFromEventList core L).

(** ** Creation *)

Definition xQueueGenericReset (core xQueue : Z) (xNewQueue : bool) : M qs bool :=
  check (negb (xQueue =? 0));;
  x ← queue xQueue;
  set_queue xQueue (with_tail (u32 (pcHead x + uxLength x * uxItemSize x)));;
  set_queue xQueue (with_waiting 0);;
  set_queue xQueue (with_write (pcHead x));;
  set_queue xQueue (with_u (u32 (pcHead x + (uxLength x - 1) * uxItemSize x)));;
  (if xNewQueue then
     in_ker (on_mem (vListInitialise (xTasksWaitingToSend xQueue)));;
     in_ker (on_mem (vListInitialise (xTasksWaitingToReceive xQueue)))
   else
     w ← wake core (xTasksWaitingToSend xQueue);
     if (w : bool) then queueYIELD core else mret tt);;
  mret true.

Definition prvInitialiseNewQueue (core uxQueueLength uxItemSize_ pucQueueStorage pxNewQueue : Z) : M qs unit :=
  (if uxItemSize_ =? 0 then set_queue pxNewQueue (with_head pxNewQueue) else set_queue pxNewQueue (with_head pucQueueStorage));;
  set_queue pxNewQueue (with_length uxQueueLength);;
  set_queue pxNewQueue (with_size uxItemSize_);;
  xQueueGenericReset core pxNewQueue true;;
  set_queue pxNewQueue (with_container 0).

(** [n] bytes of memory at [a], of which the contents are given. *)
Definition map_bytes (a : Z) (l : list Z) : gmap Z Z := list_to_map (imap (fun i b => (a + Z.of_nat i, b)) l).

(** [p] is what [pvPortMalloc] returns for the size that is asked for, [rest]
    the contents of the memory behind the queue structure. *)
Definition queue_bytes (uxQueueLength uxItemSize_ : Z) : Z := if uxItemSize_ =? 0 then 0 else u32 (uxQueueLength * uxItemSize_).
Definition malloc_size (uxQueueLength uxItemSize_ : Z) : Z := u32 (sizeof_Queue_t + queue_bytes uxQueueLength uxItemSize_).

Definition xQueueGenericCreate (core p : Z) (rest : list Z) (uxQueueLength uxItemSize_ : Z) : M qs Z :=
  check (0 <? uxQueueLength);;
  (if negb (p =? 0) then
     (if malloc_size uxQueueLength uxItemSize_ <? sizeof_Queue_t then stuck OutOfBounds else mret tt);;
     modify (fun s => Qs (qker s) (<[p := Queue 0 0 0 0 0 0 0 false 0]> (queues s)) (map_bytes (p + sizeof_Queue_t) rest ∪ ram s));;
     prvInitialiseNewQueue core uxQueueLength uxItemSize_ (p + sizeof_Queue_t) p
   else mret tt);;
  mret p.

Definition xQueueGenericCreateStatic (core uxQueueLength uxItemSize_ pucQueueStorage pxStaticQueue : Z) : M qs Z :=
  check (0 <? uxQueueLength);;
  check (negb (pxStaticQueue =? 0));;
  check (negb (negb (pucQueueStorage =? 0) && (uxItemSize_ =? 0)));;
  check (negb ((pucQueueStorage =? 0) && negb (uxItemSize_ =? 0)));;
  modify (fun s => Qs (qker s) (<[pxStaticQueue := Queue 0 0 0 0 0 0 0 true 0]> (queues s)) (ram s));;
  prvInitialiseNewQueue core uxQueueLength uxItemSize_ pucQueueStorage pxStaticQueue;;
  mret pxStaticQueue.

(** ** Copying *)

(** [item] are the bytes at [pvItemToQueue]. *)
Definition prvCopyDataToQueue (pxQueue : Z) (item : list Z) (xPosition : Z) : M qs bool :=
  x ← queue pxQueue;
  xReturn ←
    (if uxItemSize x =? 0 then
       if pcHead x =? queueQUEUE_IS_MUTEX then
         r ← in_ker (xTaskPriorityDisinherit (pcTail x));
         set_queue pxQueue (with_tail 0);;
         mret r
       else mret false
     else if xPosition =? queueSEND_TO_BACK then
       store_bytes (pcWriteTo x) item;;
       let w := u32 (pcWriteTo x + uxItemSize x) in
       set_queue pxQueue (with_write (if pcTail x <=? w then pcHead x else w));;
       mret false
     else
       store_bytes (u x) item;;
       let r := u32 (u x - uxItemSize x) in
       set_queue pxQueue (with_u (if r <? pcHead x then u32 (pcTail x - uxItemSize x) else r));;
       (if (xPosition =? queueOVERWRITE) && (0 <? uxMessagesWaiting x)
        then set_queue pxQueue (with_waiting (u32 (uxMessagesWaiting x - 1))) else mret tt);;
       mret false);
  x ← queue pxQueue;
  set_queue pxQueue (with_waiting (u32 (uxMessagesWaiting x + 1)));;
  mret xReturn.

(** Returns the bytes that are copied to [pvBuffer]. *)
Definition prvCopyDataFromQueue (pxQueue : Z) : M qs (list Z) :=
  x ← queue pxQueue;
  if uxItemSize x =? 0 then mret []
  else
    let r := u32 (u x + uxItemSize x) in
    let r := if pcTail x <=? r then pcHead x else r in
    set_queue pxQueue (with_u r);;
    load_bytes r (Z.to_nat (uxItemSize x)).

Definition prvIsQueueEmpty (pxQueue : Z) : M qs bool := x ← queue pxQueue; mret (uxMessagesWaiting x =? 0).
Definition prvIsQueueFull (pxQueue : Z) : M qs bool := x ← queue pxQueue; mret (uxMessagesWaiting x =? uxLength x).

(** ** Queue sets *)

(** The [n] bytes at the address of a variable that holds the handle [q]. *)
Definition handle_bytes (q n : Z) : M qs (list Z) :=
  if n <=? 4 then mret (take (Z.to_nat n) (le_encode 4 q)) else stuck OutOfBounds.

Definition prvNotifyQueueSetContainer (core pxQueue xCopyPosition : Z) : M qs bool :=
  x ← queue pxQueue;
  let c := pxQueueSetContainer x in
  check (negb (c =? 0));;
  xc ← queue c;
  check (uxMessagesWaiting xc <? uxLength xc);;
  item ← handle_bytes pxQueue (uxItemSize xc);
  xReturn ← prvCopyDataToQueue c item xCopyPosition;
  w ← wake core (xTasksWaitingToReceive c);
  mret (w || xReturn).

(** ** Sending *)

(** After an item was added: tell the queue set, or wake a receiver. *)
Definition announce (core xQueue : Z) (xYieldRequired : bool) (xCopyPosition : Z) : M qs unit :=
  x ← queue xQueue;
  if negb (pxQueueSetContainer x =? 0) then
    r ← prvNotifyQueueSetContainer core xQueue xCopyPosition;
    if (r : bool) then queueYIELD core else mret tt
  else
    empty ← in_ker (on_mem (listLIST_IS_EMPTY (xTasksWaitingToReceive xQueue)));
    if negb empty then
      w ← in_ker (xTaskRemoveFromEventList core (xTasksWaitingToReceive xQueue));
      if (w : bool) then queueYIELD core else mret tt
    else if xYieldRequired then queueYIELD core
    else mret tt.

(** The first critical section: the result, or the time the wait began. *)
Definition send_first (core xQueue pvItemToQueue xTicksToWait : Z) (entry : option TimeOut_t) (xCopyPosition : Z) : M qs (bool + TimeOut_t) :=
  x ← queue xQueue;
  if (uxMessagesWaiting x <? uxLength x) || (xCopyPosition =? queueOVERWRITE) then
    item ← load_bytes pvItemToQueue (Z.to_nat (uxItemSize x));
    xYieldRequired ← prvCopyDataToQueue xQueue item xCopyPosition;
    announce core xQueue xYieldRequired xCopyPosition;;
    mret (inl true)
  else if xTicksToWait =? 0 then mret (inl false)
  else
    match entry with
    | Some t => mret (inr t)
    | None => t ← in_ker vTaskSetTimeOutState; mret (inr t)
    end.

(** The second one: time is over, or the new contents of [xTimeOut] and [xTicksToWait]. *)
Definition send_second (core xQueue : Z) (xTimeOut : TimeOut_t) (xTicksToWait : Z) : M qs (option (TimeOut_t * Z)) :=
  '(expired, xTimeOut, xTicksToWait) ← in_ker (xTaskCheckForTimeOut xTimeOut xTicksToWait);
  if (expired : bool) then mret None
  else
    full ← prvIsQueueFull xQueue;
    (if (full : bool) then
       in_ker (vTaskPlaceOnEventList core (xTasksWaitingToSend xQueue) xTicksToWait);;
       queueYIELD core
     else mret tt);;
    mret (Some (xTimeOut, xTicksToWait)).

(** What happens in a round outside of the critical sections of the call, and
    the CPUs on which it goes on. *)
Record pause : Type := Pause { between : M qs unit; core2 : Z; after : M qs unit; core1 : Z }.

Fixpoint send_loop (rounds : list pause) (core xQueue pvItemToQueue xTicksToWait : Z) (entry : option TimeOut_t) (xCopyPosition : Z) : M qs (option bool) :=
  r ← send_first core xQueue pvItemToQueue xTicksToWait entry xCopyPosition;
  match r with
  | inl b => mret (Some b)
  | inr t =>
      match rounds with
      | [] => mret None
      | p :: rounds =>
          between p;;
          r ← send_second (core2 p) xQueue t xTicksToWait;
          match r with
          | None => mret (Some false)
          | Some (t, xTicksToWait) => after p;; send_loop rounds (core1 p) xQueue pvItemToQueue xTicksToWait (Some t) xCopyPosition
          end
      end
  end.

(** [xTaskGetSchedulerState() != taskSCHEDULER_SUSPENDED || xTicksToWait == 0] *)
Definition may_block (core xTicksToWait : Z) : M qs bool :=
  n ← in_ker (suspended core);
  s ← get;
  mret (negb (xSchedulerRunning (qker s) && negb (n =? 0) && negb (xTicksToWait =? 0))).

Definition xQueueGenericSend (rounds : list pause) (core xQueue pvItemToQueue xTicksToWait xCopyPosition : Z) : M qs (option bool) :=
  check (negb (xQueue =? 0));;
  x ← queue xQueue;
  check (negb ((pvItemToQueue =? 0) && negb (uxItemSize x =? 0)));;
  check (negb ((xCopyPosition =? queueOVERWRITE) && negb (uxLength x =? 1)));;
  ok ← may_block core xTicksToWait;
  check ok;;
  send_loop rounds core xQueue pvItemToQueue xTicksToWait None xCopyPosition.

(** For interrupt handlers; also returns whether a task of higher priority was woken. *)
Definition announce_isr (core xQueue xCopyPosition : Z) : M qs bool :=
  x ← queue xQueue;
  if negb (pxQueueSetContainer x =? 0) then prvNotifyQueueSetContainer core xQueue xCopyPosition
  else wake core (xTasksWaitingToReceive xQueue).

Definition xQueueGenericSendFromISR (core xQueue pvItemToQueue xCopyPosition : Z) : M qs (bool * bool) :=
  check (negb (xQueue =? 0));;
  x ← queue xQueue;
  check (negb ((pvItemToQueue =? 0) && negb (uxItemSize x =? 0)));;
  check (negb ((xCopyPosition =? queueOVERWRITE) && negb (uxLength x =? 1)));;
  if (uxMessagesWaiting x <? uxLength x) || (xCopyPosition =? queueOVERWRITE) then
    item ← load_bytes pvItemToQueue (Z.to_nat (uxItemSize x));
    prvCopyDataToQueue xQueue item xCopyPosition;;
    w ← announce_isr core xQueue xCopyPosition;
    mret (true, w)
  else mret (false, false).

Definition xQueueGiveFromISR (core xQueue : Z) : M qs (bool * bool) :=
  check (negb (xQueue =? 0));;
  x ← queue xQueue;
  check (uxItemSize x =? 0);;
  if uxMessagesWaiting x <? uxLength x then
    set_queue xQueue (with_waiting (u32 (uxMessagesWaiting x + 1)));;
    w ← announce_isr core xQueue queueSEND_TO_BACK;
    mret (true, w)
  else mret (false, false).

(** ** Receiving *)

(** Where the bytes go: [pvBuffer] is an address, or that of a variable of the
    caller, whose new contents are returned. *)
Definition put_item (pvBuffer : option Z) (item : list Z) : M qs unit :=
  match pvBuffer with Some a => store_bytes a item | None => mret tt end.
Definition is_null (pvBuffer : option Z) : bool := match pvBuffer with Some a => a =? 0 | None => false end.

(** Take an item that is there, or look at it; returns its bytes. *)
Definition receive_item (core xQueue : Z) (pvBuffer : option Z) (xJustPeeking : bool) : M qs (list Z) :=
  x ← queue xQueue;
  item ← prvCopyDataFromQueue xQueue;
  put_item pvBuffer item;;
  (if negb xJustPeeking then
     set_queue xQueue (with_waiting (u32 (uxMessagesWaiting x - 1)));;
     (if pcHead x =? queueQUEUE_IS_MUTEX then
        h ← in_ker (pvTaskIncrementMutexHeldCount core);
        set_queue xQueue (with_tail h)
      else mret tt);;
     w ← wake core (xTasksWaitingToSend xQueue);
     if (w : bool) then queueYIELD core else mret tt
   else
     set_queue xQueue (with_u (u x));;
     w ← wake core (xTasksWaitingToReceive xQueue);
     if (w : bool) then queueYIELD core else mret tt);;
  mret item.

(** [None] is [errQUEUE_EMPTY]. *)
Definition receive_first (core xQueue : Z) (pvBuffer : option Z) (xTicksToWait : Z) (entry : option TimeOut_t) (xJustPeeking : bool) : M qs (option (list Z) + TimeOut_t) :=
  x ← queue xQueue;
  if 0 <? uxMessagesWaiting x then item ← receive_item core xQueue pvBuffer xJustPeeking; mret (inl (Some item))
  else if xTicksToWait =? 0 then mret (inl None)
  else
    match entry with
    | Some t => mret (inr t)
    | None => t ← in_ker vTaskSetTimeOutState; mret (inr t)
    end.

Definition receive_second (core xQueue : Z) (xTimeOut : TimeOut_t) (xTicksToWait : Z) : M qs (option (TimeOut_t * Z)) :=
  '(expired, xTimeOut, xTicksToWait) ← in_ker (xTaskCheckForTimeOut xTimeOut xTicksToWait);
  if (expired : bool) then mret None
  else
    empty ← prvIsQueueEmpty xQueue;
    (if (empty : bool) then
       x ← queue xQueue;
       (if pcHead x =? queueQUEUE_IS_MUTEX then in_ker (vTaskPriorityInherit core (pcTail x)) else mret tt);;
       in_ker (vTaskPlaceOnEventList core (xTasksWaitingToReceive xQueue) xTicksToWait);;
       queueYIELD core
     else mret tt);;
    mret (Some (xTimeOut, xTicksToWait)).

(** The result, or [None] while the call is in progress. *)
Fixpoint receive_loop (rounds : list pause) (core xQueue : Z) (pvBuffer : option Z) (xTicksToWait : Z) (entry : option TimeOut_t) (xJustPeeking : bool) : M qs (option (option (list Z))) :=
  r ← receive_first core xQueue pvBuffer xTicksToWait entry xJustPeeking;
  match r with
  | inl b => mret (Some b)
  | inr t =>
      match rounds with
      | [] => mret None
      | p :: rounds =>
          between p;;
          r ← receive_second (core2 p) xQueue t xTicksToWait;
          match r with
          | None => mret (Some None)
          | Some (t, xTicksToWait) => after p;; receive_loop rounds (core1 p) xQueue pvBuffer xTicksToWait (Some t) xJustPeeking
          end
      end
  end.

Definition xQueueGenericReceive (rounds : list pause) (core xQueue : Z) (pvBuffer : option Z) (xTicksToWait : Z) (xJustPeeking : bool) : M qs (option (option (list Z))) :=
  check (negb (xQueue =? 0));;
  x ← queue xQueue;
  check (negb (is_null pvBuffer && negb (uxItemSize x =? 0)));;
  ok ← may_block core xTicksToWait;
  check ok;;
  receive_loop rounds core xQueue pvBuffer xTicksToWait None xJustPeeking.

Definition xQueueReceiveFromISR (core xQueue : Z) (pvBuffer : option Z) : M qs (option (list Z) * bool) :=
  check (negb (xQueue =? 0));;
  x ← queue xQueue;
  check (negb (is_null pvBuffer && negb (uxItemSize x =? 0)));;
  if 0 <? uxMessagesWaiting x then
    item ← prvCopyDataFromQueue xQueue;
    put_item pvBuffer item;;
    set_queue xQueue (with_waiting (u32 (uxMessagesWaiting x - 1)));;
    w ← wake core (xTasksWaitingToSend xQueue);
    mret (Some item, w)
  else mret (None, false).

Definition xQueuePeekFromISR (xQueue : Z) (pvBuffer : option Z) : M qs (option (list Z)) :=
  check (negb (xQueue =? 0));;
  x ← queue xQueue;
  check (negb (is_null pvBuffer && negb (uxItemSize x =? 0)));;
  check (negb (uxItemSize x =? 0));;
  if 0 <? uxMessagesWaiting x then
    item ← prvCopyDataFromQueue xQueue;
    put_item pvBuffer item;;
    set_queue xQueue (with_u (u x));;
    mret (Some item)
  else mret None.

(** ** Questions *)

Definition uxQueueMessagesWaiting (xQueue : Z) : M qs Z := check (negb (xQueue =? 0));; x ← queue xQueue; mret (uxMessagesWaiting x).
Definition uxQueueSpacesAvailable (xQueue : Z) : M qs Z := check (negb (xQueue =? 0));; x ← queue xQueue; mret (u32 (uxLength x - uxMessagesWaiting x)).
Definition uxQueueMessagesWaitingFromISR (xQueue : Z) : M qs Z := check (negb (xQueue =? 0));; x ← queue xQueue; mret (uxMessagesWaiting x).
Definition xQueueIsQueueEmptyFromISR (xQueue : Z) : M qs bool := check (negb (xQueue =? 0));; x ← queue xQueue; mret (uxMessagesWaiting x =? 0).
Definition xQueueIsQueueFullFromISR (xQueue : Z) : M qs bool := check (negb (xQueue =? 0));; x ← queue xQueue; mret (uxMessagesWaiting x =? uxLength x).

(** The memory of a queue that is freed is no longer there. *)
Definition vQueueDelete (xQueue : Z) : M qs unit :=
  check (negb (xQueue =? 0));;
  x ← queue xQueue;
  if ucStaticallyAllocated x then mret tt
  else
    modify (fun s => Qs (qker s) (delete xQueue (queues s))
      (filter (fun ab => ~ (xQueue + sizeof_Queue_t <= ab.1 < xQueue + malloc_size (uxLength x) (uxItemSize x))) (ram s))).

(** ** Mutexes and semaphores *)

Definition prvInitialiseMutex (core pxNewQueue : Z) : M qs unit :=
  if negb (pxNewQueue =? 0) then
    set_queue pxNewQueue (with_tail 0);;
    set_queue pxNewQueue (with_head queueQUEUE_IS_MUTEX);;
    set_queue pxNewQueue (with_u 0);;
    xQueueGenericSend [] core pxNewQueue 0 0 queueSEND_TO_BACK;;
    mret tt
  else mret tt.

Definition xQueueCreateMutex (core p : Z) : M qs Z :=
  q ← xQueueGenericCreate core p [] 1 0;
  prvInitialiseMutex core q;;
  mret q.
Definition xQueueCreateMutexStatic (core pxStaticQueue : Z) : M qs Z :=
  q ← xQueueGenericCreateStatic core 1 0 0 pxStaticQueue;
  prvInitialiseMutex core q;;
  mret q.

Definition xQueueGetMutexHolder (xSemaphore : Z) : M qs Z :=
  x ← queue xSemaphore;
  mret (if pcHead x =? queueQUEUE_IS_MUTEX then pcTail x else 0).

Definition xQueueGiveMutexRecursive (core xMutex : Z) : M qs bool :=
  check (negb (xMutex =? 0));;
  x ← queue xMutex;
  t ← in_ker (current core);
  if pcTail x =? t then
    set_queue xMutex (with_u (u32 (u x - 1)));;
    (if u32 (u x - 1) =? 0 then xQueueGenericSend [] core xMutex 0 0 queueSEND_TO_BACK;; mret tt else mret tt);;
    mret true
  else mret false.

(** The last CPU of the rounds is the one on which the call returns. *)
Definition xQueueTakeMutexRecursive (rounds : list pause) (core xMutex xTicksToWait : Z) : M qs (option bool) :=
  check (negb (xMutex =? 0));;
  x ← queue xMutex;
  t ← in_ker (current core);
  if pcTail x =? t then
    set_queue xMutex (with_u (u32 (u x + 1)));;
    mret (Some true)
  else
    r ← xQueueGenericReceive rounds core xMutex (Some 0) xTicksToWait false;
    match r with
    | Some (Some _) => x ← queue xMutex; set_queue xMutex (with_u (u32 (u x + 1)));; mret (Some true)
    | Some None => mret (Some false)
    | None => mret None
    end.

Definition xQueueCreateCountingSemaphore (core p uxMaxCount uxInitialCount : Z) : M qs Z :=
  check (negb (uxMaxCount =? 0));;
  check (uxInitialCount <=? uxMaxCount);;
  xHandle ← xQueueGenericCreate core p [] uxMaxCount 0;
  (if negb (xHandle =? 0) then set_queue xHandle (with_waiting uxInitialCount) else mret tt);;
  check (negb (xHandle =? 0));;
  mret xHandle.
Definition xQueueCreateCountingSemaphoreStatic (core uxMaxCount uxInitialCount pxStaticQueue : Z) : M qs Z :=
  check (negb (uxMaxCount =? 0));;
  check (uxInitialCount <=? uxMaxCount);;
  xHandle ← xQueueGenericCreateStatic core uxMaxCount 0 0 pxStaticQueue;
  (if negb (xHandle =? 0) then set_queue xHandle (with_waiting uxInitialCount) else mret tt);;
  mret xHandle.

(** ** Queue sets and timers *)

Definition xQueueCreateSet (core p : Z) (rest : list Z) (uxEventQueueLength : Z) : M qs Z := xQueueGenericCreate core p rest uxEventQueueLength 4.

Definition xQueueAddToSet (xQueueOrSemaphore xQueueSet : Z) : M qs bool :=
  x ← queue xQueueOrSemaphore;
  if negb (pxQueueSetContainer x =? 0) then mret false
  else if negb (uxMessagesWaiting x =? 0) then mret false
  else set_queue xQueueOrSemaphore (with_container xQueueSet);; mret true.

Definition xQueueRemoveFromSet (xQueueOrSemaphore xQueueSet : Z) : M qs bool :=
  x ← queue xQueueOrSemaphore;
  if negb (pxQueueSetContainer x =? xQueueSet) then mret false
  else if negb (uxMessagesWaiting x =? 0) then mret false
  else set_queue xQueueOrSemaphore (with_container 0);; mret true.

(** The variable [xReturn] is [NULL] unless an item was copied to it. *)
Definition xQueueSelectFromSet (rounds : list pause) (core xQueueSet xTicksToWait : Z) : M qs (option Z) :=
  r ← xQueueGenericReceive rounds core xQueueSet None xTicksToWait false;
  mret (match r with Some (Some item) => Some (le_decode item) | Some None => Some 0 | None => None end).
Definition xQueueSelectFromSetFromISR (core xQueueSet : Z) : M qs Z :=
  '(r, _) ← xQueueReceiveFromISR core xQueueSet None;
  mret (match r with Some item => le_decode item | None => 0 end).

Definition vQueueWaitForMessageRestricted (core xQueue xTicksToWait : Z) : M qs unit :=
  x ← queue xQueue;
  if uxMessagesWaiting x =? 0 then in_ker (vTaskPlaceOnEventListRestricted core (xTasksWaitingToReceive xQueue) xTicksToWait) else mret tt.
End Queue.
