(* ===== verification/RtosQueueSpec.v ===== *)
(** * What queues do

    The ring of items in memory represents a sequence of items; the operations
    on a queue are those of a bounded double-ended queue on that sequence
    ([queue_refines_deque]).  The lists of waiting tasks stay sound, and the
    first task that waits is woken when there is an item or room for it. *)

From stdpp Require Import sorting.
From S2P Require Import Prelude RtosList RtosStore RtosTasks RtosSched RtosWake RtosQueue.

#[local] Open Scope Z_scope.

(** ** Bytes in memory *)

Fixpoint read_bytes (r : gmap Z Z) (a : Z) (n : nat) : list Z :=
  match n with O => [] | S n => default 0 (r !! a) :: read_bytes r (a + 1) n end.
Fixpoint write_bytes (r : gmap Z Z) (a : Z) (l : list Z) : gmap Z Z :=
  match l with [] => r | b :: l => write_bytes (<[a := b]> r) (a + 1) l end.
Definition live_range (r : gmap Z Z) (a n : Z) : Prop := forall x, a <= x < a + n -> is_Some (r !! x).

Lemma length_read_bytes r a n : length (read_bytes r a n) = n.
Proof. revert a. induction n as [|n IH]; intros a; cbn; [done|by rewrite IH]. Qed.

Lemma read_bytes_ext r r' a n : (forall x, a <= x < a + Z.of_nat n -> r !! x = r' !! x) -> read_bytes r a n = read_bytes r' a n.
Proof.
  revert a. induction n as [|n IH]; intros a H; cbn; [done|]. rewrite H by lia. f_equal. apply IH. intros x Hx. apply H. lia.
Qed.

Lemma lookup_write_bytes r a l x :
  write_bytes r a l !! x = if decide (a <= x < a + Z.of_nat (length l)) then l !! Z.to_nat (x - a) else r !! x.
Proof.
  revert r a. induction l as [|b l IH]; intros r a; cbn [write_bytes length]; [by rewrite decide_False by (cbn; lia)|]. rewrite IH.
  destruct (decide (x = a)) as [->|Hne].
  - rewrite decide_False, lookup_insert_eq, decide_True by lia. by replace (Z.to_nat (a - a)) with 0%nat by lia.
  - rewrite lookup_insert_ne by done. destruct (decide (a + 1 <= x < a + 1 + Z.of_nat (length l))).
    + rewrite decide_True by lia. by replace (Z.to_nat (x - a)) with (S (Z.to_nat (x - (a + 1)))) by lia.
    + by rewrite decide_False by lia.
Qed.

Lemma write_bytes_out r a l x : ~ a <= x < a + Z.of_nat (length l) -> write_bytes r a l !! x = r !! x.
Proof. intros H. by rewrite lookup_write_bytes, decide_False. Qed.

Lemma read_bytes_spec r a n l : length l = n -> (forall i b, l !! i = Some b -> r !! (a + Z.of_nat i) = Some b) -> read_bytes r a n = l.
Proof.
  revert a l. induction n as [|n IH]; intros a [|b l] Hl H; try done. cbn. pose proof (H 0%nat b eq_refl) as H0. rewrite Z.add_0_r in H0. rewrite H0. cbn. f_equal.
  apply IH; [by injection Hl|]. intros i b' Hi. replace (a + 1 + Z.of_nat i) with (a + Z.of_nat (S i)) by lia. by apply H.
Qed.

Lemma read_write_bytes r a l : read_bytes (write_bytes r a l) a (length l) = l.
Proof.
  apply read_bytes_spec; [done|]. intros i b Hi. pose proof (lookup_lt_Some _ _ _ Hi). rewrite lookup_write_bytes, decide_True by lia.
  by replace (Z.to_nat (a + Z.of_nat i - a)) with i by lia.
Qed.

Lemma read_write_other r a l a' n : a' + Z.of_nat n <= a \/ a + Z.of_nat (length l) <= a' -> read_bytes (write_bytes r a l) a' n = read_bytes r a' n.
Proof. intros H. apply read_bytes_ext. intros x Hx. apply write_bytes_out. lia. Qed.

Lemma live_write_bytes r a l a' n : live_range r a' n -> live_range (write_bytes r a l) a' n.
Proof.
  intros H x Hx. rewrite lookup_write_bytes. case_decide; [|by apply H]. apply lookup_lt_is_Some. lia.
Qed.

Lemma wp_load a n (Q : list Z -> qs -> Prop) s : live_range (ram s) a (Z.of_nat n) -> Q (read_bytes (ram s) a n) s -> wp (load_bytes a n) Q s.
Proof.
  revert a Q. induction n as [|n IH]; intros a Q Hl HQ; cbn [load_bytes]; [by apply wp_ret|]. apply wp_bind, wp_get. cbn in HQ.
  destruct (Hl a) as [b Hb]; [lia|]. rewrite Hb in HQ |- *. apply wp_bind. apply IH; [intros x Hx; apply Hl; lia|]. by apply wp_ret.
Qed.

Lemma wp_store a l (Q : unit -> qs -> Prop) s :
  live_range (ram s) a (Z.of_nat (length l)) -> Q tt (Qs (qker s) (queues s) (write_bytes (ram s) a l)) -> wp (store_bytes a l) Q s.
Proof.
  revert a s. induction l as [|b l IH]; intros a s Hl HQ; cbn [store_bytes]; [apply wp_ret; by destruct s|]. apply wp_bind, wp_get.
  destruct (Hl a) as [b' Hb]; [cbn; lia|]. rewrite Hb. apply wp_bind, wp_modify. apply IH; [|done]. cbn [ram].
  intros x Hx. destruct (decide (x = a)) as [->|]; [by rewrite lookup_insert_eq|]. rewrite lookup_insert_ne by done. apply Hl. cbn. lia.
Qed.

(** ** The ring *)

(** Item [j] of a queue whose last read slot is [r]. *)
Definition slot (x : Queue_t) (i : Z) : Z := pcHead x + (i mod uxLength x) * uxItemSize x.

Record layout (x : Queue_t) (m : gmap Z Z) (r : Z) (items : list (list Z)) : Prop := {
  ly_tail : pcTail x = pcHead x + uxLength x * uxItemSize x;
  ly_small : pcTail x < 2 ^ 32;
  ly_low : uxItemSize x <= pcHead x;
  ly_read : u x = slot x r;
  ly_write : pcWriteTo x = slot x (r + 1 + Z.of_nat (length items));
  ly_live : live_range m (pcHead x) (uxLength x * uxItemSize x);
  ly_items : forall j it, items !! j = Some it -> read_bytes m (slot x (r + 1 + Z.of_nat j)) (Z.to_nat (uxItemSize x)) = it
}.

(** The queue or semaphore [x] holds the items. *)
Record holds (x : Queue_t) (m : gmap Z Z) (items : list (list Z)) : Prop := {
  ho_head : 0 < pcHead x;
  ho_length : 0 < uxLength x < 2 ^ 32;
  ho_size : 0 <= uxItemSize x;
  ho_count : uxMessagesWaiting x = Z.of_nat (length items);
  ho_room : Z.of_nat (length items) <= uxLength x;
  ho_items : Forall (fun it => Z.of_nat (length it) = uxItemSize x) items;
  ho_ring : 0 < uxItemSize x -> exists r, layout x m r items
}.

Section Ring.
Context (x : Queue_t) (Hn : 0 < uxLength x) (Hk : 0 < uxItemSize x).
Notation n := (uxLength x).
Notation k := (uxItemSize x).
Notation h := (pcHead x).

Lemma slot_range i : h <= slot x i /\ slot x i + k <= h + n * k.
Proof. unfold slot. pose proof (Z.mod_pos_bound i n Hn). nia. Qed.

Lemma slot_mod i j : i mod n = j mod n -> slot x i = slot x j.
Proof. unfold slot. by intros ->. Qed.

Lemma slot_apart i j : i mod n <> j mod n -> slot x i + k <= slot x j \/ slot x j + k <= slot x i.
Proof.
  unfold slot. intros H. set (a := i mod n) in *. set (b := j mod n) in *. destruct (decide (a < b)); [left|right].
  - assert (a + 1 <= b) by lia. nia.
  - assert (b + 1 <= a) by lia. nia.
Qed.

(** The slots of a full turn differ. *)
Lemma slot_ne i d : 0 < d < n -> (i + d) mod n <> i mod n.
Proof.
  intros Hd E. pose proof (Z.div_mod i n ltac:(lia)) as E1. pose proof (Z.div_mod (i + d) n ltac:(lia)) as E2. rewrite E in E2.
  set (q1 := i / n) in *. set (q2 := (i + d) / n) in *. assert (Ed : d = n * (q2 - q1)) by lia. destruct (decide (q2 <= q1)); nia.
Qed.

Lemma slot_next i : (if h + n * k <=? slot x i + k then h else slot x i + k) = slot x (i + 1).
Proof.
  unfold slot. pose proof (Z.mod_pos_bound i n Hn) as Hi. assert (E : (i + 1) mod n = if decide (i mod n = n - 1) then 0 else i mod n + 1).
  { case_decide as D.
    - symmetry. apply (Z.mod_unique _ _ (i / n + 1)); [lia|]. pose proof (Z.div_mod i n ltac:(lia)). lia.
    - symmetry. apply (Z.mod_unique _ _ (i / n)); [lia|]. pose proof (Z.div_mod i n ltac:(lia)). lia. }
  rewrite E. case_decide as D; destruct (Z.leb_spec (h + n * k) (h + i mod n * k + k)); nia.
Qed.

Lemma slot_prev i : (if slot x i - k <? h then h + n * k - k else slot x i - k) = slot x (i - 1).
Proof.
  unfold slot. pose proof (Z.mod_pos_bound i n Hn) as Hi. assert (E : (i - 1) mod n = if decide (i mod n = 0) then n - 1 else i mod n - 1).
  { case_decide as D.
    - symmetry. apply (Z.mod_unique _ _ (i / n - 1)); [lia|]. pose proof (Z.div_mod i n ltac:(lia)). lia.
    - symmetry. apply (Z.mod_unique _ _ (i / n)); [lia|]. pose proof (Z.div_mod i n ltac:(lia)). lia. }
  rewrite E. case_decide as D; destruct (Z.ltb_spec (h + i mod n * k - k) h); nia.
Qed.
End Ring.

Lemma wp_queue q x (Q : Queue_t -> qs -> Prop) s : queues s !! q = Some x -> Q x s -> wp (queue q) Q s.
Proof. intros E HQ. unfold queue. apply wp_bind, wp_get. rewrite E. by apply wp_ret. Qed.

Lemma wp_set_queue q x f (Q : unit -> qs -> Prop) s :
  queues s !! q = Some x -> Q tt (Qs (qker s) (<[q := f x]> (queues s)) (ram s)) -> wp (set_queue q f) Q s.
Proof. intros E HQ. unfold set_queue. apply wp_bind. eapply wp_queue; [exact E|]. by apply wp_modify. Qed.

Lemma wp_in_ker {A} (m : M kernel A) (Q : A -> qs -> Prop) s :
  wp m (fun a k => Q a (Qs k (queues s) (ram s))) (qker s) -> wp (in_ker m) Q s.
Proof. unfold wp, in_ker. destruct (m (qker s)) as [[a k]|]; done. Qed.

(** What the operations leave alone. *)
Record same_shape (x x' : Queue_t) : Prop := {
  sh_head : pcHead x' = pcHead x;
  sh_length : uxLength x' = uxLength x;
  sh_size : uxItemSize x' = uxItemSize x;
  sh_static : ucStaticallyAllocated x' = ucStaticallyAllocated x;
  sh_container : pxQueueSetContainer x' = pxQueueSetContainer x
}.
Definition in_store (x : Queue_t) (a : Z) : Prop := pcHead x <= a < pcHead x + uxLength x * uxItemSize x.

Lemma slot_shape x x' i : same_shape x x' -> slot x' i = slot x i.
Proof. intros [E1 E2 E3 _ _]. unfold slot. by rewrite E1, E2, E3. Qed.

(** Fields that do not matter to a slot. *)
Ltac same_slot x := repeat match goal with |- context [slot (?f ?a ?b) ?j] => change (slot (f a b) j) with (slot x j) end.

(** The sequence after an item was sent. *)
Definition put (pos : Z) (item : list Z) (items : list (list Z)) : list (list Z) :=
  if pos =? queueSEND_TO_BACK then items ++ [item] else if pos =? queueOVERWRITE then [item] else item :: items.

(** An item fits: there is room, or it overwrites the only one. *)
Definition fits (x : Queue_t) (pos : Z) (items : list (list Z)) : Prop :=
  (pos = queueSEND_TO_BACK \/ pos = queueSEND_TO_FRONT) /\ Z.of_nat (length items) < uxLength x
  \/ pos = queueOVERWRITE /\ uxLength x = 1 /\ 0 < uxItemSize x.

(** The memory of the ring after one slot was written. *)
Lemma layout_write x m r items i item :
  0 < uxLength x -> 0 < uxItemSize x -> layout x m r items -> Z.of_nat (length item) = uxItemSize x ->
  (forall j, (j < length items)%nat -> (r + 1 + Z.of_nat j) mod uxLength x <> i mod uxLength x) ->
  let m' := write_bytes m (slot x i) item in
  live_range m' (pcHead x) (uxLength x * uxItemSize x) /\ read_bytes m' (slot x i) (Z.to_nat (uxItemSize x)) = item
  /\ (forall j it, items !! j = Some it -> read_bytes m' (slot x (r + 1 + Z.of_nat j)) (Z.to_nat (uxItemSize x)) = it)
  /\ forall a, ~ in_store x a -> m' !! a = m !! a.
Proof.
  intros Hn Hk [_ _ _ _ _ Hl Hi] Hlen Hne m'. split_and!.
  - by apply live_write_bytes.
  - rewrite <- Hlen, Nat2Z.id. apply read_write_bytes.
  - intros j it Hj. rewrite <- (Hi j it Hj). apply read_write_other. pose proof (lookup_lt_Some _ _ _ Hj) as Hlt.
    destruct (slot_apart x Hk (r + 1 + Z.of_nat j) i (Hne j Hlt)); lia.
  - intros a Ha. apply write_bytes_out. unfold in_store in Ha. pose proof (slot_range x Hn Hk i). lia.
Qed.

Section Copy.
Context {T : TaskLists}.

Lemma copy_to_spec q x s items item pos :
  queues s !! q = Some x -> holds x (ram s) items -> Z.of_nat (length item) = uxItemSize x -> fits x pos items ->
  wp (prvCopyDataToQueue q item pos)
     (fun y s' => y = false /\ exists x' m', s' = Qs (qker s) (<[q := x']> (queues s)) m' /\ same_shape x x' /\ holds x' m' (put pos item items)
        /\ forall a, ~ in_store x a -> m' !! a = ram s !! a) s.
Proof.
  intros Ex [Hh Hn Hs Hc Hr Hit Hrg] Hlen Hfit. unfold prvCopyDataToQueue. apply wp_bind. eapply wp_queue; [exact Ex|].
  destruct (Z.eqb_spec (uxItemSize x) 0) as [E0|Hk0].
  - destruct (Z.eqb_spec (pcHead x) queueQUEUE_IS_MUTEX) as [E|_]; [unfold queueQUEUE_IS_MUTEX in *; lia|]. apply wp_bind, wp_ret.
    apply wp_bind. eapply wp_queue; [exact Ex|]. apply wp_bind. eapply wp_set_queue; [exact Ex|]. apply wp_ret. split; [done|].
    destruct Hfit as [[Hpos Hroom]|(_ & _ & ?)]; [|lia]. exists (with_waiting (u32 (uxMessagesWaiting x + 1)) x), (ram s).
    split_and!; [done|done| |done]. assert (Hl : length (put pos item items) = S (length items)).
    { unfold put. destruct Hpos as [->| ->]; cbn; [rewrite length_app; cbn; lia|done]. }
    split; cbn; try done; [rewrite Hl, Hc, u32_small; lia|rewrite Hl; lia| |lia].
    unfold put. destruct Hpos as [->| ->]; cbn; [apply Forall_app; split; [done|by constructor]|by constructor].
  - assert (Hk : 0 < uxItemSize x) by lia. destruct (Hrg Hk) as [r Hly]. pose proof Hly as [Ht Hsm Hlow Hu Hw Hl Hi].
    pose proof (slot_range x (proj1 Hn) Hk) as Hsr. destruct Hfit as [[[->| ->] Hroom]|(-> & Hone & _)].
    + change (queueSEND_TO_BACK =? queueSEND_TO_BACK) with true. cbv iota. set (i := r + 1 + Z.of_nat (length items)) in *.
      apply wp_bind, wp_bind. rewrite Hw. apply wp_store; [rewrite Hlen; intros a Ha; apply Hl; specialize (Hsr i); lia|]. cbv zeta.
      destruct (layout_write x (ram s) r items i item (proj1 Hn) Hk Hly Hlen) as (M1 & M2 & M3 & M4).
      { intros j Hj. replace i with (r + 1 + Z.of_nat j + (Z.of_nat (length items) - Z.of_nat j)) by lia. apply not_eq_sym, slot_ne; lia. }
      apply wp_bind. eapply wp_set_queue; [exact Ex|]. apply wp_ret. apply wp_bind. eapply wp_queue; [cbn; apply lookup_insert_eq|].
      apply wp_bind. eapply wp_set_queue; [cbn; apply lookup_insert_eq|]. apply wp_ret. split; [done|]. cbn. rewrite insert_insert_eq.
      eexists _, _. split_and!; [reflexivity|done| |exact M4]. unfold put. change (queueSEND_TO_BACK =? queueSEND_TO_BACK) with true. cbv iota.
      split; cbn; try done; [rewrite length_app, Hc, u32_small; cbn; lia|rewrite length_app; cbn; lia|apply Forall_app; split; [done|by constructor]|].
      intros _. exists r. split; cbn; try done.
      * rewrite u32_small by (specialize (Hsr i); lia). rewrite Ht, length_app. cbn [length]. rewrite (slot_next x (proj1 Hn) Hk i). same_slot x. f_equal. lia.
      * intros j it Hj. same_slot x. apply lookup_app_Some in Hj as [Hj|[Hj1 Hj]]; [by apply M3|]. apply list_lookup_singleton_Some in Hj as [Hj <-].
        replace (r + 1 + Z.of_nat j) with i by lia. exact M2.
    + change (queueSEND_TO_FRONT =? queueSEND_TO_BACK) with false. change (queueSEND_TO_FRONT =? queueOVERWRITE) with false. cbn [andb]. cbv iota.
      apply wp_bind, wp_bind. rewrite Hu. apply wp_store; [rewrite Hlen; intros a Ha; apply Hl; specialize (Hsr r); lia|]. cbv zeta.
      destruct (layout_write x (ram s) r items r item (proj1 Hn) Hk Hly Hlen) as (M1 & M2 & M3 & M4).
      { intros j Hj. replace (r + 1 + Z.of_nat j) with (r + (1 + Z.of_nat j)) by lia. apply slot_ne; lia. }
      apply wp_bind. eapply wp_set_queue; [exact Ex|]. apply wp_bind, wp_ret. apply wp_ret. apply wp_bind. eapply wp_queue; [cbn; apply lookup_insert_eq|].
      apply wp_bind. eapply wp_set_queue; [cbn; apply lookup_insert_eq|]. apply wp_ret. split; [done|]. cbn. rewrite insert_insert_eq.
      eexists _, _. split_and!; [reflexivity|done| |exact M4]. unfold put. cbn.
      split; cbn; try done; [rewrite Hc, u32_small; lia|lia|by constructor|].
      intros _. exists (r - 1). split; cbn; try done.
      * rewrite !u32_small by (specialize (Hsr r); lia). rewrite Ht, (slot_prev x (proj1 Hn) Hk r). by same_slot x.
      * rewrite Hw. same_slot x. f_equal. lia.
      * intros [|j] it Hj; same_slot x; cbn in Hj.
        -- injection Hj as <-. replace (r - 1 + 1 + Z.of_nat 0) with r by lia. exact M2.
        -- replace (r - 1 + 1 + Z.of_nat (S j)) with (r + 1 + Z.of_nat j) by lia. by apply M3.
    + assert (Hsame : forall i j, slot x i = slot x j) by (intros i j; apply slot_mod; by rewrite Hone, !Z.mod_1_r).
      change (queueOVERWRITE =? queueSEND_TO_BACK) with false. change (queueOVERWRITE =? queueOVERWRITE) with true. cbn [andb]. cbv iota.
      apply wp_bind, wp_bind. rewrite Hu. apply wp_store; [rewrite Hlen; intros a Ha; apply Hl; specialize (Hsr r); lia|]. cbv zeta.
      destruct (layout_write x (ram s) r [] r item (proj1 Hn) Hk) as (M1 & M2 & _ & M4); [|done|intros j Hj; cbn in Hj; lia|].
      { split; try done. rewrite Hw. apply Hsame. }
      apply wp_bind. eapply wp_set_queue; [exact Ex|]. set (x1 := with_u _ x).
      assert (Hcnt : wp (if 0 <? uxMessagesWaiting x then set_queue q (with_waiting (u32 (uxMessagesWaiting x - 1))) else mret tt)
         (fun _ s' => s' = Qs (qker s) (<[q := with_waiting 0 x1]> (queues s)) (write_bytes (ram s) (slot x r) item))
         (Qs (qker s) (<[q := x1]> (queues s)) (write_bytes (ram s) (slot x r) item))).
      { destruct (Z.ltb_spec 0 (uxMessagesWaiting x)) as [Hpos|Hpos].
        - eapply wp_set_queue; [apply lookup_insert_eq|]. cbn. rewrite insert_insert_eq. replace (uxMessagesWaiting x - 1) with 0 by lia. done.
        - apply wp_ret. do 3 f_equal. unfold x1, with_waiting, with_u. cbn. f_equal. lia. }
      apply wp_bind. eapply wp_mono; [exact Hcnt|]. intros [] s1 ->. apply wp_ret. apply wp_bind. eapply wp_queue; [apply lookup_insert_eq|].
      apply wp_bind. eapply wp_set_queue; [apply lookup_insert_eq|]. apply wp_ret. split; [done|]. cbn. rewrite insert_insert_eq.
      subst x1. eexists _, _. split_and!; [reflexivity|done| |exact M4].
      split; cbn; [done|done|done|done|lia|by constructor|]. intros _. exists (r - 1). split; cbn; try done.
      * rewrite !u32_small by (specialize (Hsr r); lia). rewrite Ht, (slot_prev x (proj1 Hn) Hk r). by same_slot x.
      * rewrite Hw. same_slot x. apply Hsame.
      * intros [|j] it Hj; cbn in Hj; [|done]. injection Hj as <-. same_slot x.
        replace (r - 1 + 1 + Z.of_nat 0) with r by lia. exact M2.
Qed.

(** Taking the first item out of the memory. *)
Lemma copy_from_spec q x s it items :
  queues s !! q = Some x -> holds x (ram s) (it :: items) ->
  wp (prvCopyDataFromQueue q)
     (fun l s' => l = it /\ exists x', s' = Qs (qker s) (<[q := x']> (queues s)) (ram s) /\ same_shape x x'
        /\ holds (with_waiting (uxMessagesWaiting x - 1) x') (ram s) items /\ x' = with_u (u x') x) s.
Proof.
  intros Ex [Hh Hn Hs Hc Hr Hit Hrg]. unfold prvCopyDataFromQueue. apply wp_bind. eapply wp_queue; [exact Ex|].
  pose proof Hit as [Hl1 Hl2]%Forall_cons. cbn [length] in *. destruct (Z.eqb_spec (uxItemSize x) 0) as [E0|Hk0].
  - apply wp_ret. split; [symmetry; apply length_zero_iff_nil; lia|]. exists x. split_and!; [destruct s; cbn in *; by rewrite insert_id|done| |by destruct x].
    split; cbn; try done; try lia.
  - assert (Hk : 0 < uxItemSize x) by lia. destruct (Hrg Hk) as [r Hly]. pose proof Hly as [Ht Hsm Hlow Hu Hw Hl Hi]. pose proof (slot_range x (proj1 Hn) Hk) as Hsr.
    cbv zeta. apply wp_bind. eapply wp_set_queue; [exact Ex|]. rewrite u32_small by (specialize (Hsr r); lia). rewrite Hu, Ht, (slot_next x (proj1 Hn) Hk r).
    apply wp_load; [intros a Ha; apply Hl; specialize (Hsr (r + 1)); lia|]. cbn [ram]. split.
    + rewrite <- (Hi 0%nat it eq_refl). by replace (r + 1 + Z.of_nat 0) with (r + 1) by lia.
    + eexists. split_and!; [reflexivity|done| |done]. split; cbn; try done; try lia. intros _. exists (r + 1). split; cbn; try done.
      * rewrite Hw. same_slot x. f_equal. cbn [length]. lia.
      * intros j it' Hj. same_slot x. rewrite <- (Hi (S j) it' Hj). do 2 f_equal. lia.
Qed.
End Copy.

(** ** Waiting tasks *)

Section Waiting.
Context {T : TaskLists} {TL : TaskListsLaws T}.

Lemma wake_spec core L s V :
  is_core core -> wf (qker s) V -> cpus_ok (qker s) -> susp (qker s) core = 0 -> parked (qker s) V L ->
  wp (wake core L) (fun b s' => exists k' V', s' = Qs k' (queues s) (ram s) /\ woke L (qker s) V k' V' /\ (sq V L = [] -> b = false)) s.
Proof.
  intros Hc HW Hcp Hs Hp. destruct (is_Some_pair _ _ (pk_list _ _ _ Hp)) as [i E]. unfold wake. apply wp_bind, wp_in_ker, wp_on_mem.
  eapply read_empty; [apply HW|exact E|]. rewrite with_mem_id. destruct (sq V L) as [|x xs] eqn:Esq.
  - apply wp_ret. exists (qker s), V. unfold woke. rewrite Esq. split_and!; [done|done|done| |done]. exists (requests (qker s)). by destruct (qker s).
  - apply wp_in_ker. destruct (pk_waiters _ _ _ Hp x) as (t & c & G & -> & Ht & Hg); [rewrite Esq; left|].
    eapply wp_mono; [by eapply (wake_head_spec core _ V t c L G xs)|]. intros b k' (V' & Hr). exists k', V'. unfold woke. rewrite Esq. cbn.
    split_and!; [done|apply Hr| |done]. exists t, c, k', (requests k'). split_and!; [done|done|done|by destruct k'].
Qed.

(** A yield changes nothing but the requests. *)
Lemma woke_request L k V k' V' r : woke L k V k' V' -> woke L k V (with_requests r k') V'.
Proof.
  intros [HW H]. split.
  - destruct HW as [HS HA HT HL HR Htop Hmax Hwh Hsl Hso Hov Hnx Htk]. split; try done; cbn. by destruct HA.
  - destruct (sq V L); [destruct H as (-> & rq & ->); split; [done|]; by exists r|]. destruct H as (t & c & k1 & rq & H1 & H2 & H3 & ->). by exists t, c, k1, r.
Qed.

Lemma yield_if_spec core L s V k' V' (b : bool) qs0 m0 :
  woke L (qker s) V k' V' ->
  wp (if b then queueYIELD core else mret tt) (fun _ s' => exists k2, s' = Qs k2 qs0 m0 /\ woke L (qker s) V k2 V') (Qs k' qs0 m0).
Proof.
  intros Hw. destruct b; [|apply wp_ret; by exists k']. unfold queueYIELD. apply wp_in_ker. unfold request_. apply wp_modify.
  eexists. split; [done|]. by apply woke_request.
Qed.

(** The queue [q] outside of a set, with its tasks, on a CPU whose scheduler runs. *)
Record idle (core q : Z) (s : qs) (V : view) (x : Queue_t) (items : list (list Z)) : Prop := {
  id_wf : wf (qker s) V;
  id_cpus : cpus_ok (qker s);
  id_susp : susp (qker s) core = 0;
  id_null : q <> 0;
  id_queue : queues s !! q = Some x;
  id_holds : holds x (ram s) items;
  id_container : pxQueueSetContainer x = 0;
  id_send : parked (qker s) V (xTasksWaitingToSend q);
  id_receive : parked (qker s) V (xTasksWaitingToReceive q)
}.

(** An operation that changed the queue and woke the first task of [L]. *)
Lemma idle_woke core q s V x items L x' m' k' V' items' :
  idle core q s V x items -> same_shape x x' -> holds x' m' items' -> woke L (qker s) V k' V' ->
  idle core q (Qs k' (<[q := x']> (queues s)) m') V' x' items'.
Proof.
  intros [HW Hcp Hs Hq Ex Hh Hct H1 H2] Hsh Hh' Hw. pose proof (woke_kept _ _ _ _ _ Hw) as Hk. split; cbn; try done.
  - apply Hw.
  - by eapply cpus_kept.
  - unfold susp. by rewrite (kp_suspended _ _ Hk).
  - by rewrite lookup_insert_eq.
  - by rewrite (sh_container _ _ Hsh).
  - by eapply woke_parked.
  - by eapply woke_parked.
Qed.

(** A state after an item was sent. *)
Record sent (core q pos : Z) (item : list Z) (s : qs) (V : view) (x : Queue_t) (items : list (list Z)) (s' : qs) (V' : view) (x' : Queue_t) : Prop := {
  se_idle : idle core q s' V' x' (put pos item items);
  se_shape : same_shape x x';
  se_woke : woke (xTasksWaitingToReceive q) (qker s) V (qker s') V';
  se_queues : queues s' = <[q := x']> (queues s);
  se_ram : forall a, ~ in_store x a -> ram s' !! a = ram s !! a
}.

(** A buffer of the caller. *)
Definition buffer (x : Queue_t) (m : gmap Z Z) (a : Z) : Prop :=
  live_range m a (uxItemSize x) /\ (0 < uxItemSize x -> a <> 0 /\ forall b, a <= b < a + uxItemSize x -> ~ in_store x b).

Lemma announce_alone core q pos s x : queues s !! q = Some x -> pxQueueSetContainer x = 0 ->
  announce core q false pos s = (w ← wake core (xTasksWaitingToReceive q); if (w : bool) then queueYIELD core else mret tt) s.
Proof.
  intros Ex Hct. unfold announce, wake, queue, get, mbind, M_bind. rewrite Ex. cbn. rewrite Hct. cbn.
  destruct (in_ker (on_mem (listLIST_IS_EMPTY (xTasksWaitingToReceive q))) s) as [[[] s1]|]; done.
Qed.

Lemma send_first_spec core q s V x items src ticks entry pos :
  is_core core -> idle core q s V x items -> fits x pos items -> live_range (ram s) src (uxItemSize x) ->
  wp (send_first core q src ticks entry pos)
     (fun r s' => r = inl true /\ exists V' x', sent core q pos (read_bytes (ram s) src (Z.to_nat (uxItemSize x))) s V x items s' V' x') s.
Proof.
  intros Hc Hid Hf Hb. pose proof Hid as [HW Hcp Hs Hq Ex Hh Hct H1 H2]. pose proof Hh as [_ Hn Hsz Hcnt Hr _ _]. unfold send_first.
  apply wp_bind. eapply wp_queue; [exact Ex|]. assert (Ec : (uxMessagesWaiting x <? uxLength x) || (pos =? queueOVERWRITE) = true).
  { rewrite Hcnt. apply orb_true_iff. rewrite Z.ltb_lt, Z.eqb_eq. destruct Hf as [[_ ?]|[? _]]; [left; lia|by right]. }
  rewrite Ec. apply wp_bind. apply wp_load; [by rewrite Z2Nat.id|]. set (item := read_bytes _ _ _).
  assert (Hlen : Z.of_nat (length item) = uxItemSize x) by (unfold item; rewrite length_read_bytes; lia).
  apply wp_bind. eapply wp_mono; [by apply (copy_to_spec q x s items item pos)|]. intros y s1 (-> & x' & m' & -> & Hsh & Hh' & Hout).
  apply wp_bind. unfold wp at 1. rewrite (announce_alone _ _ _ _ x') by (by rewrite ?(sh_container _ _ Hsh); cbn; rewrite ?lookup_insert_eq).
  apply wp_bind. eapply wp_mono; [by apply (wake_spec core (xTasksWaitingToReceive q) _ V)|]. intros b s2 (k' & V' & -> & Hw & _).
  eapply wp_mono; [by apply (yield_if_spec core (xTasksWaitingToReceive q) s V k' V')|]. intros [] s3 (k2 & -> & Hw2). apply wp_ret. split; [done|].
  exists V', x'. split; [by eapply idle_woke|done|done|done|done].
Qed.

(** Memory outside of the ring does not matter. *)
Lemma holds_ext x m m' items : (forall a, in_store x a -> m' !! a = m !! a) -> holds x m items -> holds x m' items.
Proof.
  intros Hm [Hh Hn Hs Hc Hr Hit Hrg]. split; try done. intros Hk. destruct (Hrg Hk) as [r [Ht Hsm Hlow Hu Hw Hl Hi]]. exists r. split; try done.
  - intros a Ha. rewrite Hm; [by apply Hl|done].
  - intros j it Hj. rewrite <- (Hi j it Hj). apply read_bytes_ext. intros a Ha. apply Hm. unfold in_store. pose proof (slot_range x (proj1 Hn) Hk (r + 1 + Z.of_nat j)). lia.
Qed.

Lemma with_u_back x v : with_u (u x) (with_u v x) = x.
Proof. by destruct x. Qed.

(** The memory after an item was copied to the caller. *)
Definition filled (m : gmap Z Z) (buf : option Z) (it : list Z) : gmap Z Z := match buf with Some a => write_bytes m a it | None => m end.
Definition buffer_ok (x : Queue_t) (m : gmap Z Z) (buf : option Z) : Prop := match buf with Some a => buffer x m a | None => True end.

Lemma put_item_spec x s buf it (Q : unit -> qs -> Prop) :
  Z.of_nat (length it) = uxItemSize x -> buffer_ok x (ram s) buf -> Q tt (Qs (qker s) (queues s) (filled (ram s) buf it)) -> wp (put_item buf it) Q s.
Proof.
  intros Hl Hb HQ. destruct buf as [a|]; cbn in *; [|apply wp_ret; by destruct s]. apply wp_store; [rewrite Hl; apply Hb|done].
Qed.

Lemma filled_store x m buf it a : Z.of_nat (length it) = uxItemSize x -> buffer_ok x m buf -> in_store x a -> filled m buf it !! a = m !! a.
Proof.
  intros Hl Hb Ha. destruct buf as [b|]; [|done]. cbn in *. apply write_bytes_out. intros Hr. rewrite Hl in Hr.
  destruct (decide (0 < uxItemSize x)) as [Hk|]; [|lia]. destruct Hb as [_ Hb]. by apply (proj2 (Hb Hk) a).
Qed.

(** A state after an item was received or looked at. *)
Record received (core q : Z) (buf : option Z) (peek : bool) (it : list Z) (items : list (list Z)) (s : qs) (V : view) (x : Queue_t) (s' : qs) (V' : view) (x' : Queue_t) : Prop := {
  re_idle : idle core q s' V' x' (if peek then it :: items else items);
  re_shape : same_shape x x';
  re_woke : woke (if peek then xTasksWaitingToReceive q else xTasksWaitingToSend q) (qker s) V (qker s') V';
  re_queues : queues s' = <[q := x']> (queues s);
  re_ram : ram s' = filled (ram s) buf it
}.

Lemma receive_item_spec core q s V x it items buf peek :
  is_core core -> idle core q s V x (it :: items) -> buffer_ok x (ram s) buf ->
  wp (receive_item core q buf peek) (fun l s' => l = it /\ exists V' x', received core q buf peek it items s V x s' V' x') s.
Proof.
  intros Hc Hid Hb. pose proof Hid as [HW Hcp Hs Hq Ex Hh Hct H1 H2]. pose proof Hh as [Hhd Hn Hsz Hcnt Hr [Hl _]%Forall_cons _]. cbn [length] in *.
  unfold receive_item. apply wp_bind. eapply wp_queue; [exact Ex|]. apply wp_bind.
  eapply wp_mono; [by eapply (copy_from_spec q x s it items)|]. intros l s1 (-> & x1 & -> & Hsh & Hh1 & Ex1).
  apply wp_bind. apply (put_item_spec x); [done|done|]. cbn [qker queues ram]. set (m' := filled (ram s) buf it).
  assert (Hm : forall a, in_store x a -> m' !! a = ram s !! a) by (intros a; by apply filled_store).
  apply wp_bind. destruct peek; cbn [negb].
  - apply wp_bind. eapply wp_set_queue; [apply lookup_insert_eq|]. cbn [qker queues ram]. rewrite insert_insert_eq, Ex1, with_u_back.
    apply wp_bind. eapply wp_mono; [by apply (wake_spec core (xTasksWaitingToReceive q) _ V)|]. intros b s2 (k' & V' & -> & Hw & _). cbn [qker queues ram] in *.
    eapply wp_mono; [by apply (yield_if_spec core (xTasksWaitingToReceive q) s V k' V')|]. intros [] s3 (k2 & -> & Hw2). apply wp_ret. split; [done|].
    exists V', x. split; [|done|done|done|done]. eapply idle_woke; [exact Hid|done| |exact Hw2]. by eapply holds_ext; [|exact Hh].
  - apply wp_bind. eapply wp_set_queue; [apply lookup_insert_eq|]. cbn [qker queues ram]. rewrite insert_insert_eq, u32_small by lia. set (x2 := with_waiting _ x1) in *.
    destruct (Z.eqb_spec (pcHead x) queueQUEUE_IS_MUTEX) as [E|_]; [unfold queueQUEUE_IS_MUTEX in *; lia|]. apply wp_bind, wp_ret.
    apply wp_bind. eapply wp_mono; [by apply (wake_spec core (xTasksWaitingToSend q) _ V)|]. intros b s2 (k' & V' & -> & Hw & _). cbn [qker queues ram] in *.
    eapply wp_mono; [by apply (yield_if_spec core (xTasksWaitingToSend q) s V k' V')|]. intros [] s3 (k2 & -> & Hw2). apply wp_ret. split; [done|].
    assert (Hsh2 : same_shape x x2) by (by destruct Hsh; split).
    exists V', x2. split; [|done|done|done|done]. eapply idle_woke; [exact Hid|done| |exact Hw2].
    eapply holds_ext; [|exact Hh1]. intros a Ha. apply Hm. unfold in_store in *. by rewrite (sh_head _ _ Hsh2), (sh_length _ _ Hsh2), (sh_size _ _ Hsh2) in Ha.
Qed.

(** ** The calls that do not wait *)

Lemma may_block_spec core s V : is_core core -> wf (qker s) V -> wp (may_block core 0) (fun ok s' => ok = true /\ s' = s) s.
Proof.
  intros Hc HW. unfold may_block. apply wp_bind, wp_in_ker, wp_suspended; [apply HW|done|]. apply wp_bind, wp_get, wp_ret. split; [|by destruct s].
  change (0 =? 0) with true. by rewrite andb_false_r.
Qed.

(** The position is one that the queue allows. *)
Definition position_ok (x : Queue_t) (pos : Z) : Prop :=
  pos = queueSEND_TO_BACK \/ pos = queueSEND_TO_FRONT \/ pos = queueOVERWRITE /\ uxLength x = 1 /\ 0 < uxItemSize x.

Lemma position_fits x pos items : position_ok x pos ->
  fits x pos items /\ (Z.of_nat (length items) <? uxLength x) || (pos =? queueOVERWRITE) = true
  \/ (Z.of_nat (length items) <? uxLength x) || (pos =? queueOVERWRITE) = false.
Proof.
  intros Hp. destruct ((Z.of_nat (length items) <? uxLength x) || (pos =? queueOVERWRITE)) eqn:E; [left|by right]. split; [|done].
  apply orb_true_iff in E. rewrite Z.ltb_lt, Z.eqb_eq in E. unfold fits. destruct Hp as [->|[->|(-> & H1 & H2)]]; [left|left|right; done]; (split; [tauto|]).
  - by destruct E.
  - by destruct E.
Qed.

(** The assertions at the start of a send. *)
Lemma send_checks x src pos : position_ok x pos -> (0 < uxItemSize x -> src <> 0) -> 0 <= uxItemSize x ->
  negb ((src =? 0) && negb (uxItemSize x =? 0)) = true /\ negb ((pos =? queueOVERWRITE) && negb (uxLength x =? 1)) = true.
Proof.
  intros Hp Hs Hk. split; apply negb_true_iff, andb_false_iff.
  - destruct (Z.eqb_spec (uxItemSize x) 0) as [E|]; [by right|left]. apply Z.eqb_neq, Hs. lia.
  - destruct Hp as [->|[->|(-> & -> & _)]]; [by left|by left|by right].
Qed.

(** An item is sent, or the queue is full. *)
Definition send_result (core q pos src : Z) (s : qs) (V : view) (x : Queue_t) (items : list (list Z)) (r : bool) (s' : qs) : Prop :=
  if (Z.of_nat (length items) <? uxLength x) || (pos =? queueOVERWRITE)
  then r = true /\ exists V' x', sent core q pos (read_bytes (ram s) src (Z.to_nat (uxItemSize x))) s V x items s' V' x'
  else r = false /\ s' = s.

Lemma send_spec core q s V x items src pos :
  is_core core -> idle core q s V x items -> position_ok x pos -> buffer x (ram s) src ->
  wp (xQueueGenericSend [] core q src 0 pos) (fun r s' => exists b, r = Some b /\ send_result core q pos src s V x items b s') s.
Proof.
  intros Hc Hid Hp [Hb1 Hb2]. pose proof Hid as [HW Hcp Hs Hq Ex Hh Hct H1 H2]. pose proof Hh as [_ _ Hsz Hcnt _ _ _].
  destruct (send_checks x src pos Hp) as [C1 C2]; [intros Hk; by apply Hb2|done|]. unfold xQueueGenericSend.
  apply wp_bind, wp_check; [by apply negb_true_iff, Z.eqb_neq|]. apply wp_bind. eapply wp_queue; [exact Ex|]. apply wp_bind, wp_check; [done|]. apply wp_bind, wp_check; [done|].
  apply wp_bind. eapply wp_mono; [by apply (may_block_spec core s V)|]. intros ok s1 [-> ->]. apply wp_bind, wp_check; [done|]. cbn [send_loop]. apply wp_bind. unfold send_result.
  destruct (position_fits x pos items Hp) as [[Hf E]|E]; rewrite E.
  - eapply wp_mono; [by apply (send_first_spec core q s V x items src 0 None pos)|]. intros r s' (-> & V' & x' & Hse). apply wp_ret. exists true. eauto 10.
  - unfold send_first. apply wp_bind. eapply wp_queue; [exact Ex|]. rewrite Hcnt, E. change (0 =? 0) with true. cbv iota. apply wp_ret, wp_ret. by exists false.
Qed.

Lemma queue_send_isr_spec core q s V x items src pos :
  is_core core -> idle core q s V x items -> position_ok x pos -> buffer x (ram s) src ->
  wp (xQueueGenericSendFromISR core q src pos) (fun r s' => send_result core q pos src s V x items (fst r) s') s.
Proof.
  intros Hc Hid Hp [Hb1 Hb2]. pose proof Hid as [HW Hcp Hs Hq Ex Hh Hct H1 H2]. pose proof Hh as [_ Hn Hsz Hcnt _ _ _].
  destruct (send_checks x src pos Hp) as [C1 C2]; [intros Hk; by apply Hb2|done|]. unfold xQueueGenericSendFromISR.
  apply wp_bind, wp_check; [by apply negb_true_iff, Z.eqb_neq|]. apply wp_bind. eapply wp_queue; [exact Ex|]. apply wp_bind, wp_check; [done|]. apply wp_bind, wp_check; [done|].
  unfold send_result. rewrite Hcnt. destruct (position_fits x pos items Hp) as [[Hf E]|E]; rewrite E; [|by apply wp_ret].
  apply wp_bind. apply wp_load; [by rewrite Z2Nat.id|]. set (item := read_bytes _ _ _).
  assert (Hlen : Z.of_nat (length item) = uxItemSize x) by (unfold item; rewrite length_read_bytes; lia).
  apply wp_bind. eapply wp_mono; [by apply (copy_to_spec q x s items item pos)|]. intros y s1 (-> & x' & m' & -> & Hsh & Hh' & Hout).
  apply wp_bind. unfold announce_isr. apply wp_bind. eapply wp_queue; [apply lookup_insert_eq|]. rewrite (sh_container _ _ Hsh), Hct. change (negb (0 =? 0)) with false. cbv iota.
  eapply wp_mono; [by apply (wake_spec core (xTasksWaitingToReceive q) _ V)|]. intros b s2 (k' & V' & -> & Hw & _). apply wp_ret. split; [done|].
  exists V', x'. split; [by eapply idle_woke|done|done|done|done].
Qed.

(** An item is received, or there is none. *)
Definition receive_result (core q : Z) (buf : option Z) (peek : bool) (s : qs) (V : view) (x : Queue_t) (items : list (list Z)) (r : option (list Z)) (s' : qs) : Prop :=
  match items with
  | [] => r = None /\ s' = s
  | it :: rest => r = Some it /\ exists V' x', received core q buf peek it rest s V x s' V' x'
  end.

Lemma receive_checks x m buf : buffer_ok x m buf -> 0 <= uxItemSize x -> negb (is_null buf && negb (uxItemSize x =? 0)) = true.
Proof.
  intros Hb Hk. apply negb_true_iff, andb_false_iff. destruct (Z.eqb_spec (uxItemSize x) 0) as [E|]; [by right|left].
  destruct buf as [a|]; [|done]. cbn in *. apply Z.eqb_neq. apply Hb. lia.
Qed.

Lemma receive_first_spec core q s V x items buf ticks entry peek :
  is_core core -> idle core q s V x items -> buffer_ok x (ram s) buf -> items <> [] \/ ticks = 0 ->
  wp (receive_first core q buf ticks entry peek) (fun r s' => exists l, r = inl l /\ receive_result core q buf peek s V x items l s') s.
Proof.
  intros Hc Hid Hb Hne. pose proof Hid as [HW Hcp Hs Hq Ex Hh Hct H1 H2]. pose proof Hh as [_ Hn Hsz Hcnt _ _ _].
  unfold receive_first. apply wp_bind. eapply wp_queue; [exact Ex|]. rewrite Hcnt. destruct items as [|it items]; cbn [length].
  - destruct Hne as [?| ->]; [done|]. change (0 <? Z.of_nat 0) with false. change (0 =? 0) with true. cbv iota. apply wp_ret. by exists None.
  - rewrite (proj2 (Z.ltb_lt 0 _)) by lia. apply wp_bind. eapply wp_mono; [by apply (receive_item_spec core q s V x it items)|].
    intros l s' (-> & V' & x' & Hre). apply wp_ret. exists (Some it). split; [done|]. split; [done|]. by exists V', x'.
Qed.

Lemma receive_spec core q s V x items buf peek :
  is_core core -> idle core q s V x items -> buffer_ok x (ram s) buf ->
  wp (xQueueGenericReceive [] core q buf 0 peek) (fun r s' => exists l, r = Some l /\ receive_result core q buf peek s V x items l s') s.
Proof.
  intros Hc Hid Hb. pose proof Hid as [HW Hcp Hs Hq Ex Hh Hct H1 H2]. pose proof Hh as [_ _ Hsz _ _ _ _]. unfold xQueueGenericReceive.
  apply wp_bind, wp_check; [by apply negb_true_iff, Z.eqb_neq|]. apply wp_bind. eapply wp_queue; [exact Ex|]. apply wp_bind, wp_check; [by eapply receive_checks|].
  apply wp_bind. eapply wp_mono; [by apply (may_block_spec core s V)|]. intros ok s1 [-> ->]. apply wp_bind, wp_check; [done|]. cbn [receive_loop]. apply wp_bind.
  eapply wp_mono; [apply (receive_first_spec core q s V x items); try done; by right|]. intros r s' (l & -> & Hl). apply wp_ret. by exists l.
Qed.

Lemma receive_isr_spec core q s V x items buf :
  is_core core -> idle core q s V x items -> buffer_ok x (ram s) buf ->
  wp (xQueueReceiveFromISR core q buf) (fun r s' => receive_result core q buf false s V x items (fst r) s') s.
Proof.
  intros Hc Hid Hb. pose proof Hid as [HW Hcp Hs Hq Ex Hh Hct H1 H2]. pose proof Hh as [_ Hn Hsz Hcnt Hr Hit _]. unfold xQueueReceiveFromISR.
  apply wp_bind, wp_check; [by apply negb_true_iff, Z.eqb_neq|]. apply wp_bind. eapply wp_queue; [exact Ex|]. apply wp_bind, wp_check; [by eapply receive_checks|].
  rewrite Hcnt. destruct items as [|it items]; cbn [length] in *; [by apply wp_ret|]. rewrite (proj2 (Z.ltb_lt 0 _)) by lia. apply Forall_cons in Hit as [Hl _].
  apply wp_bind. eapply wp_mono; [by eapply (copy_from_spec q x s it items)|]. intros l s1 (-> & x1 & -> & Hsh & Hh1 & Ex1).
  apply wp_bind. apply (put_item_spec x); [done|done|]. cbn [qker queues ram]. set (m' := filled (ram s) buf it).
  assert (Hm : forall a, in_store x a -> m' !! a = ram s !! a) by (intros a; by apply filled_store).
  apply wp_bind. eapply wp_set_queue; [apply lookup_insert_eq|]. cbn [qker queues ram]. rewrite insert_insert_eq, u32_small, <- Hcnt by lia. set (x2 := with_waiting _ x1) in *.
  apply wp_bind. eapply wp_mono; [by apply (wake_spec core (xTasksWaitingToSend q) _ V)|]. intros b s2 (k' & V' & -> & Hw & _). cbn [qker queues ram] in *.
  apply wp_ret. split; [done|]. assert (Hsh2 : same_shape x x2) by (by destruct Hsh; split).
  exists V', x2. split; [|done|done|done|done]. eapply idle_woke; [exact Hid|done| |exact Hw].
  eapply holds_ext; [|exact Hh1]. intros a Ha. apply Hm. unfold in_store in *. by rewrite (sh_head _ _ Hsh2), (sh_length _ _ Hsh2), (sh_size _ _ Hsh2) in Ha.
Qed.

Lemma peek_isr_spec core q s V x items buf :
  idle core q s V x items -> buffer_ok x (ram s) buf -> 0 < uxItemSize x ->
  wp (xQueuePeekFromISR q buf)
     (fun r s' => r = head items /\ idle core q s' V x items /\ ram s' = match items with [] => ram s | it :: _ => filled (ram s) buf it end) s.
Proof.
  intros Hid Hb Hk. pose proof Hid as [HW Hcp Hs Hq Ex Hh Hct H1 H2]. pose proof Hh as [_ Hn Hsz Hcnt Hr Hit _]. unfold xQueuePeekFromISR.
  apply wp_bind, wp_check; [by apply negb_true_iff, Z.eqb_neq|]. apply wp_bind. eapply wp_queue; [exact Ex|]. apply wp_bind, wp_check; [by eapply receive_checks|].
  apply wp_bind, wp_check; [apply negb_true_iff, Z.eqb_neq; lia|]. rewrite Hcnt. destruct items as [|it items]; cbn [length] in *; [by apply wp_ret|].
  rewrite (proj2 (Z.ltb_lt 0 _)) by lia. apply Forall_cons in Hit as [Hl _].
  apply wp_bind. eapply wp_mono; [by eapply (copy_from_spec q x s it items)|]. intros l s1 (-> & x1 & -> & Hsh & Hh1 & Ex1).
  apply wp_bind. apply (put_item_spec x); [done|done|]. cbn [qker queues ram]. apply wp_bind. eapply wp_set_queue; [apply lookup_insert_eq|].
  cbn [qker queues ram]. rewrite insert_insert_eq, Ex1, with_u_back, insert_id by done. apply wp_ret. split_and!; [done| |done].
  split; try done. eapply holds_ext; [|exact Hh]. intros a. by apply filled_store.
Qed.

(** A semaphore is given from an interrupt handler. *)
Lemma give_isr_spec core q s V x items :
  is_core core -> idle core q s V x items -> uxItemSize x = 0 ->
  wp (xQueueGiveFromISR core q) (fun r s' => send_result core q queueSEND_TO_BACK 0 s V x items (fst r) s') s.
Proof.
  intros Hc Hid Hk. pose proof Hid as [HW Hcp Hs Hq Ex Hh Hct H1 H2]. pose proof Hh as [Hhd Hn Hsz Hcnt Hr Hit _]. unfold xQueueGiveFromISR.
  apply wp_bind, wp_check; [by apply negb_true_iff, Z.eqb_neq|]. apply wp_bind. eapply wp_queue; [exact Ex|]. apply wp_bind, wp_check; [by apply Z.eqb_eq|].
  rewrite Hcnt. unfold send_result. rewrite orb_false_r. destruct (Z.ltb_spec (Z.of_nat (length items)) (uxLength x)) as [Hlt|Hge]; [|by apply wp_ret].
  apply wp_bind. eapply wp_set_queue; [exact Ex|]. rewrite u32_small by lia. set (x' := with_waiting _ x).
  assert (Hh' : holds x' (ram s) (put queueSEND_TO_BACK (read_bytes (ram s) 0 (Z.to_nat (uxItemSize x))) items)).
  { rewrite Hk. unfold put. cbn. split; cbn; try done; [rewrite length_app; cbn; lia|rewrite length_app; cbn; lia| |lia].
    apply Forall_app. split; [done|]. constructor; [by rewrite Hk|done]. }
  apply wp_bind. unfold announce_isr. apply wp_bind. eapply wp_queue; [apply lookup_insert_eq|]. change (pxQueueSetContainer x') with (pxQueueSetContainer x).
  rewrite Hct. change (negb (0 =? 0)) with false. cbv iota.
  eapply wp_mono; [by apply (wake_spec core (xTasksWaitingToReceive q) _ V)|]. intros b s2 (k' & V' & -> & Hw & _). apply wp_ret. split; [done|].
  exists V', x'. split; [by eapply idle_woke|done|done|done|done].
Qed.

Lemma reset_spec core q s V x items :
  is_core core -> idle core q s V x items ->
  wp (xQueueGenericReset core q false)
     (fun r s' => r = true /\ exists V' x', idle core q s' V' x' [] /\ same_shape x x' /\ ram s' = ram s /\ woke (xTasksWaitingToSend q) (qker s) V (qker s') V') s.
Proof.
  intros Hc Hid. pose proof Hid as [HW Hcp Hs Hq Ex Hh Hct H1 H2]. pose proof Hh as [Hhd Hn Hsz Hcnt Hr Hit Hrg]. unfold xQueueGenericReset.
  apply wp_bind, wp_check; [by apply negb_true_iff, Z.eqb_neq|]. apply wp_bind. eapply wp_queue; [exact Ex|].
  do 4 (apply wp_bind; eapply wp_set_queue; [first [exact Ex|apply lookup_insert_eq]|]; cbn [qker queues ram]; rewrite ?insert_insert_eq). set (x' := with_u _ _).
  assert (Hh' : holds x' (ram s) []).
  { split; cbn; try done; [lia|]. intros Hk. destruct (Hrg Hk) as [r [Ht Hsm Hlow Hu Hw Hl Hi]]. exists (uxLength x - 1). split; cbn; try done.
    - rewrite <- Ht. rewrite u32_small; [done|]. nia.
    - rewrite <- Ht. rewrite u32_small; [done|]. nia.
    - same_slot x. unfold x'. same_slot x. unfold slot. rewrite Z.mod_small by lia. rewrite u32_small; [done|]. nia.
    - same_slot x. unfold x'. same_slot x. unfold slot. replace (uxLength x - 1 + 1 + Z.of_nat 0) with (uxLength x) by lia. rewrite Z_mod_same_full. lia. }
  apply wp_bind, wp_bind. eapply wp_mono; [by apply (wake_spec core (xTasksWaitingToSend q) _ V)|]. intros b s2 (k' & V' & -> & Hw & _). cbn [qker queues ram] in *.
  eapply wp_mono; [by apply (yield_if_spec core (xTasksWaitingToSend q) s V k' V')|]. intros [] s3 (k2 & -> & Hw2). apply wp_ret. split; [done|].
  exists V', x'. split_and!; [by eapply idle_woke|done|done|done].
Qed.
End Waiting.

(** ** Refinement *)

(** The operations that do not wait, and their results. *)
Inductive qop : Type :=
| Send (src pos : Z)
| SendISR (src pos : Z)
| Receive (buf : option Z) (peek : bool)
| ReceiveISR (buf : option Z)
| PeekISR (buf : option Z)
| GiveISR
| Count
| Spaces
| Reset_.

Inductive qres : Type := RDone (b : bool) | RItem (i : option (list Z)) | RCount (n : Z).

(** A double-ended queue of at most [n] items of [k] bytes, and the memory of its users. *)
Definition abs_op (n k : Z) (o : qop) (st : list (list Z) * gmap Z Z) : qres * (list (list Z) * gmap Z Z) :=
  let '(items, c) := st in
  let send src pos :=
    if (Z.of_nat (length items) <? n) || (pos =? queueOVERWRITE) then (RDone true, (put pos (read_bytes c src (Z.to_nat k)) items, c)) else (RDone false, st) in
  let receive buf (peek : bool) :=
    match items with [] => (RItem None, st) | it :: rest => (RItem (Some it), (if peek then items else rest, filled c buf it)) end in
  match o with
  | Send src pos | SendISR src pos => send src pos
  | GiveISR => send 0 queueSEND_TO_BACK
  | Receive buf peek => receive buf peek
  | ReceiveISR buf => receive buf false
  | PeekISR buf => receive buf true
  | Count => (RCount (Z.of_nat (length items)), st)
  | Spaces => (RCount (n - Z.of_nat (length items)), st)
  | Reset_ => (RDone true, ([], c))
  end.

Fixpoint abs_ops (n k : Z) (os : list qop) (st : list (list Z) * gmap Z Z) : list qres * (list (list Z) * gmap Z Z) :=
  match os with
  | [] => ([], st)
  | o :: os => let '(r, st) := abs_op n k o st in let '(rs, st) := abs_ops n k os st in (r :: rs, st)
  end.

Section Refine.
Context {T : TaskLists} {TL : TaskListsLaws T}.

Definition do_op (core q : Z) (o : qop) : M qs qres :=
  match o with
  | Send src pos => r ← xQueueGenericSend [] core q src 0 pos; match r with Some b => mret (RDone b) | None => stuck OutOfFuel end
  | SendISR src pos => '(b, _) ← xQueueGenericSendFromISR core q src pos; mret (RDone b)
  | Receive buf peek => r ← xQueueGenericReceive [] core q buf 0 peek; match r with Some i => mret (RItem i) | None => stuck OutOfFuel end
  | ReceiveISR buf => '(i, _) ← xQueueReceiveFromISR core q buf; mret (RItem i)
  | PeekISR buf => i ← xQueuePeekFromISR q buf; mret (RItem i)
  | GiveISR => '(b, _) ← xQueueGiveFromISR core q; mret (RDone b)
  | Count => n ← uxQueueMessagesWaiting q; mret (RCount n)
  | Spaces => n ← uxQueueSpacesAvailable q; mret (RCount n)
  | Reset_ => b ← xQueueGenericReset core q false; mret (RDone b)
  end.

Fixpoint do_ops (core q : Z) (os : list qop) : M qs (list qres) :=
  match os with [] => mret [] | o :: os => r ← do_op core q o; rs ← do_ops core q os; mret (r :: rs) end.

(** Buffers are memory of the users, positions are allowed. *)
Definition valid (x : Queue_t) (c : gmap Z Z) (o : qop) : Prop :=
  match o with
  | Send src pos | SendISR src pos => position_ok x pos /\ buffer x c src
  | Receive buf _ | ReceiveISR buf => buffer_ok x c buf
  | PeekISR buf => buffer_ok x c buf /\ 0 < uxItemSize x
  | GiveISR => uxItemSize x = 0
  | Count | Spaces | Reset_ => True
  end.

(** The users' memory agrees with the memory outside of the ring. *)
Definition agrees (x : Queue_t) (m c : gmap Z Z) : Prop := forall a, ~ in_store x a -> m !! a = c !! a.

Lemma buffer_agrees x m c a : 0 <= uxItemSize x -> agrees x m c -> buffer x c a -> buffer x m a.
Proof.
  intros Hk Hag [H1 H2]. split; [|done]. intros b Hb. destruct (decide (0 < uxItemSize x)) as [Hpos|]; [|lia].
  rewrite Hag; [by apply H1|]. by apply (proj2 (H2 Hpos)).
Qed.

Lemma read_agrees x m c a : 0 <= uxItemSize x -> agrees x m c -> buffer x c a ->
  read_bytes m a (Z.to_nat (uxItemSize x)) = read_bytes c a (Z.to_nat (uxItemSize x)).
Proof.
  intros Hk Hag [_ H2]. apply read_bytes_ext. intros b Hb. apply Hag. apply H2; lia.
Qed.

Lemma filled_agrees x m c buf it : agrees x m c -> agrees x (filled m buf it) (filled c buf it).
Proof.
  intros Hag a Ha. destruct buf as [b|]; cbn; [|by apply Hag]. rewrite !lookup_write_bytes. case_decide; [done|by apply Hag].
Qed.

Lemma buffer_ok_agrees x m c buf : 0 <= uxItemSize x -> agrees x m c -> buffer_ok x c buf -> buffer_ok x m buf.
Proof. intros Hk Hag. destruct buf; [|done]. by apply buffer_agrees. Qed.

Definition refined (core q : Z) (x : Queue_t) (st : list (list Z) * gmap Z Z) (s' : qs) : Prop :=
  exists V' x', idle core q s' V' x' (fst st) /\ same_shape x x' /\ agrees x (ram s') (snd st).

Lemma send_matches core q s V x items c src pos b s' :
  idle core q s V x items -> agrees x (ram s) c -> buffer x c src -> send_result core q pos src s V x items b s' ->
  RDone b = fst (abs_op (uxLength x) (uxItemSize x) (Send src pos) (items, c))
  /\ refined core q x (snd (abs_op (uxLength x) (uxItemSize x) (Send src pos) (items, c))) s'.
Proof.
  intros Hid Hag Hb Hr. pose proof (ho_size _ _ _ (id_holds _ _ _ _ _ _ Hid)) as Hk. unfold send_result in Hr. cbn [abs_op].
  destruct ((Z.of_nat (length items) <? uxLength x) || (pos =? queueOVERWRITE)).
  - destruct Hr as (-> & V' & x' & [H1 H2 H3 H4 H5]). split; [done|]. exists V', x'. cbn. rewrite <- (read_agrees x (ram s) c) by done. split_and!; [done|done|].
    intros a Ha. rewrite H5 by done. by apply Hag.
  - destruct Hr as [-> ->]. split; [done|]. exists V, x. cbn. split_and!; [done|done|done].
Qed.

Lemma receive_matches core q s V x items c buf (peek : bool) r s' :
  idle core q s V x items -> agrees x (ram s) c -> receive_result core q buf peek s V x items r s' ->
  RItem r = fst (abs_op (uxLength x) (uxItemSize x) (Receive buf peek) (items, c))
  /\ refined core q x (snd (abs_op (uxLength x) (uxItemSize x) (Receive buf peek) (items, c))) s'.
Proof.
  intros Hid Hag Hr. unfold receive_result in Hr. cbn [abs_op]. destruct items as [|it items].
  - destruct Hr as [-> ->]. split; [done|]. exists V, x. cbn. split_and!; [done|done|done].
  - destruct Hr as (-> & V' & x' & [H1 H2 H3 H4 H5]). split; [done|]. exists V', x'. cbn. split_and!; [done|done|]. rewrite H5. by apply filled_agrees.
Qed.

Lemma do_op_refines core q s V x items c o :
  is_core core -> idle core q s V x items -> agrees x (ram s) c -> valid x c o ->
  wp (do_op core q o) (fun r s' => r = fst (abs_op (uxLength x) (uxItemSize x) o (items, c)) /\ refined core q x (snd (abs_op (uxLength x) (uxItemSize x) o (items, c))) s') s.
Proof.
  intros Hc Hid Hag Hv. pose proof Hid as [HW Hcp Hs Hq Ex Hh Hct H1 H2]. pose proof Hh as [_ Hn Hk Hcnt Hr _ _].
  assert (Hsame : refined core q x (items, c) s) by (exists V, x; cbn; split_and!; [done|done|done]).
  destruct o as [src pos|src pos|buf peek|buf|buf| | | |]; cbn [do_op valid] in *.
  - destruct Hv as [Hp Hb]. apply wp_bind. eapply wp_mono; [apply (send_spec core q s V x items src pos); [done|done|done|by eapply buffer_agrees]|].
    intros r s' (b & -> & Hr'). apply wp_ret. by eapply send_matches.
  - destruct Hv as [Hp Hb]. apply wp_bind. eapply wp_mono; [apply (queue_send_isr_spec core q s V x items src pos); [done|done|done|by eapply buffer_agrees]|].
    intros [b w] s' Hr'. apply wp_ret. by eapply (send_matches core q s V x items c src pos).
  - apply wp_bind. eapply wp_mono; [apply (receive_spec core q s V x items buf peek); [done|done|by eapply buffer_ok_agrees]|].
    intros r s' (l & -> & Hr'). apply wp_ret. by eapply receive_matches.
  - apply wp_bind. eapply wp_mono; [apply (receive_isr_spec core q s V x items buf); [done|done|by eapply buffer_ok_agrees]|].
    intros [r w] s' Hr'. apply wp_ret. by eapply (receive_matches core q s V x items c buf false).
  - destruct Hv as [Hb Hpos]. apply wp_bind. eapply wp_mono; [apply (peek_isr_spec core q s V x items buf); [done|by eapply buffer_ok_agrees|done]|].
    intros r s' (-> & Hid' & Hm). apply wp_ret. cbn [abs_op]. destruct items as [|it items]; (split; [done|]; exists V, x; cbn; split_and!; [done|done|rewrite Hm]);
      [done|by apply filled_agrees].
  - apply wp_bind. eapply wp_mono; [by apply (give_isr_spec core q s V x items)|]. intros [b w] s' Hr'. apply wp_ret.
    eapply (send_matches core q s V x items c 0 queueSEND_TO_BACK); [done|done| |done]. split; [|lia]. intros a Ha. lia.
  - unfold uxQueueMessagesWaiting. do 2 apply wp_bind. apply wp_check; [by apply negb_true_iff, Z.eqb_neq|]. apply wp_bind. eapply wp_queue; [exact Ex|].
    apply wp_ret, wp_ret. by rewrite Hcnt.
  - unfold uxQueueSpacesAvailable. do 2 apply wp_bind. apply wp_check; [by apply negb_true_iff, Z.eqb_neq|]. apply wp_bind. eapply wp_queue; [exact Ex|].
    apply wp_ret, wp_ret. rewrite u32_small by lia. by rewrite Hcnt.
  - apply wp_bind. eapply wp_mono; [by apply (reset_spec core q s V x items)|]. intros r s' (-> & V' & x' & Hid' & Hsh & Hm & _). apply wp_ret. split; [done|].
    exists V', x'. cbn. split_and!; [done|done|by rewrite Hm].
Qed.

Lemma shape_trans x x1 x2 : same_shape x x1 -> same_shape x1 x2 -> same_shape x x2.
Proof. intros [] []. split; congruence. Qed.

Lemma in_store_shape x x' a : same_shape x x' -> in_store x' a <-> in_store x a.
Proof. intros [E1 E2 E3 _ _]. unfold in_store. by rewrite E1, E2, E3. Qed.

Lemma agrees_shape x x' m c : same_shape x x' -> agrees x m c -> agrees x' m c.
Proof. intros Hsh H a Ha. apply H. by rewrite <- (in_store_shape x x'). Qed.

Lemma buffer_shape x x' c a : same_shape x x' -> buffer x c a -> buffer x' c a.
Proof.
  intros Hsh [H1 H2]. pose proof Hsh as [_ _ E _ _]. split; rewrite E; [done|]. intros Hk. destruct (H2 Hk) as [H3 H4]. split; [done|].
  intros b Hb. rewrite (in_store_shape x x' b Hsh). by apply H4.
Qed.

Lemma valid_shape x x' c o : same_shape x x' -> valid x c o -> valid x' c o.
Proof.
  intros Hsh. pose proof Hsh as [_ E2 E3 _ _]. assert (Hb : forall buf, buffer_ok x c buf -> buffer_ok x' c buf) by (intros [a|]; [by apply buffer_shape|done]).
  assert (Hb0 : forall a, buffer x c a -> buffer x' c a) by (intros a; by apply buffer_shape). destruct o; cbn; unfold position_ok; rewrite ?E2, ?E3; naive_solver.
Qed.

Lemma valid_mono x c c' o : (forall a, is_Some (c !! a) -> is_Some (c' !! a)) -> valid x c o -> valid x c' o.
Proof.
  intros Hm. assert (Hb : forall a, buffer x c a -> buffer x c' a) by (intros a [H1 H2]; split; [intros b Hb; by apply Hm, H1|done]).
  assert (Hb' : forall buf, buffer_ok x c buf -> buffer_ok x c' buf) by (intros [a|]; [apply Hb|done]). destruct o; cbn; naive_solver.
Qed.

(** The users' memory does not shrink. *)
Lemma abs_live n k o st a : is_Some (snd st !! a) -> is_Some (snd (snd (abs_op n k o st)) !! a).
Proof.
  destruct st as [items c]. cbn [snd]. intros Ha. assert (Hf : forall buf it, is_Some (filled c buf it !! a)).
  { intros [b|] it; [|done]. cbn. rewrite lookup_write_bytes. case_decide; [|done]. apply lookup_lt_is_Some. lia. }
  destruct o; cbn; try done; try (by destruct (_ || _)); destruct items; cbn; auto.
Qed.

(** C4: Every run of operations on a queue or semaphore that do not wait (sends
    to either end and overwriting, receives, peeks, counts, resets, also from
    interrupt handlers) gives the results of a bounded double-ended queue of
    items, and leaves the bytes that those operations leave in the memory of its
    users: no byte outside of the ring and the users' buffers is written, no
    byte outside of the memory is accessed, and the kernel's lists stay sound. *)
Theorem queue_refines_deque core q s V x items c os :
  is_core core -> idle core q s V x items -> agrees x (ram s) c -> Forall (valid x c) os ->
  wp (do_ops core q os)
     (fun rs s' => let '(rs', (items', c')) := abs_ops (uxLength x) (uxItemSize x) os (items, c) in
        rs = rs' /\ exists V' x', idle core q s' V' x' items' /\ same_shape x x' /\ agrees x (ram s') c') s.
Proof.
  intros Hc. revert s V x items c. induction os as [|o os IH]; intros s V x items c Hid Hag Hv; cbn [do_ops abs_ops].
  { apply wp_ret. split; [done|]. exists V, x. split_and!; [done|done|done]. }
  apply Forall_cons in Hv as [Hv Hvs]. apply wp_bind. eapply wp_mono; [by apply (do_op_refines core q s V x items c o)|].
  intros r s' (-> & V' & x' & Hid' & Hsh & Hag'). pose proof (abs_live (uxLength x) (uxItemSize x) o (items, c)) as Hlv. cbn [snd] in Hlv.
  destruct (abs_op (uxLength x) (uxItemSize x) o (items, c)) as [r [items1 c1]] eqn:Eo. cbn [fst snd] in *.
  apply wp_bind. eapply wp_mono; [apply (IH s' V' x' items1 c1); [done|by apply (agrees_shape x)|]|].
  { eapply Forall_impl; [exact Hvs|]. intros o' Ho'. apply (valid_shape x); [done|]. by eapply valid_mono. }
  intros rs s2. rewrite (sh_length _ _ Hsh), (sh_size _ _ Hsh). destruct (abs_ops (uxLength x) (uxItemSize x) os (items1, c1)) as [rs' [items' c']].
  intros (-> & V2 & x2 & Hid2 & Hsh2 & Hag2). apply wp_ret. split; [done|]. exists V2, x2. split_and!; [done|by eapply shape_trans|].
  intros a Ha. apply Hag2. by rewrite (in_store_shape x).
Qed.

(** ** Waiting for an item *)

Lemma timeout_fresh ticks (k : kernel) : 0 < ticks <= portMAX_DELAY ->
  wp vTaskSetTimeOutState (fun t k' => k' = k /\ wp (xTaskCheckForTimeOut t ticks) (fun r k2 => k2 = k /\ r = (false, t, ticks)) k) k.
Proof.
  intros Ht. unfold vTaskSetTimeOutState. apply wp_bind, wp_get, wp_ret. split; [done|]. unfold xTaskCheckForTimeOut. apply wp_bind, wp_get. cbv zeta. cbn.
  destruct (ticks =? portMAX_DELAY); [by apply wp_ret|]. rewrite Z.eqb_refl. cbn. rewrite Z.sub_diag. change (u32 0) with 0. rewrite (proj2 (Z.ltb_lt 0 ticks)) by lia.
  apply wp_bind. unfold vTaskSetTimeOutState. apply wp_bind, wp_get, wp_ret, wp_ret. split; [done|]. do 2 f_equal. rewrite u32_small; [lia|unfold portMAX_DELAY in *; lia].
Qed.

Lemma idle_placed core core' q s V x items E t c v ticks k' V' rq :
  idle core q s V x items -> susp (qker s) core' = 0 -> tcbs (qker s) !! t = Some c -> placed E t v ticks (qker s) V k' V' ->
  idle core' q (Qs (with_requests rq k') (queues s) (ram s)) V' x items.
Proof.
  intros [HW Hcp Hs Hq Ex Hh Hct H1 H2] Hs' Ht Hp. pose proof Hp as [HW' _ Hk _ _ _ _ _].
  pose proof (parked_placed _ _ _ _ _ _ _ _ _ _ HW Ht Hp H1) as [P1 P2 P3]. pose proof (parked_placed _ _ _ _ _ _ _ _ _ _ HW Ht Hp H2) as [R1 R2 R3]. split; cbn; try done.
  - destruct HW' as [HS HA HT HL HR Htop Hmax Hwh Hsl Hso Hov Hnx Htk]. split; try done; cbn. by destruct HA.
  - by destruct (cpus_kept _ _ Hk Hcp).
  - unfold susp in *. cbn. by rewrite (kp_suspended _ _ Hk).
Qed.

(** A task goes to wait for an item. *)
Lemma receive_waits core core2 q s V x t c G ticks buf peek :
  is_core core -> is_core core2 -> idle core q s V x [] -> on_time (qker s) V -> cur (qker s) core2 = t -> tcbs (qker s) !! t = Some c ->
  xGenericListItem t ∈ sq V G -> ~ linked V (xEventListItem t) -> xTasksWaitingToReceive q <> 0 -> 0 < ticks <= portMAX_DELAY ->
  wp (receive_first core q buf ticks None peek)
     (fun r s1 => s1 = s /\ exists tm, r = inr tm /\
        wp (receive_second core2 q tm ticks)
           (fun r2 s2 => r2 = Some (tm, ticks) /\ exists k' V' rq, s2 = Qs (with_requests rq k') (queues s) (ram s)
              /\ placed (xTasksWaitingToReceive q) t (key (mem (qker s)) (xEventListItem t)) ticks (qker s) V k' V'
              /\ sq V' (xTasksWaitingToReceive q)
                 = filter (fun y => y <> xGenericListItem t) (sorted_insert (key (mem (qker s))) (xEventListItem t) (sq V (xTasksWaitingToReceive q)))) s) s.
Proof.
  intros Hc Hc2 [HW Hcp Hs Hq Ex Hh Hct H1 H2] Hon Hcur Ht Hg Hne HE0 Htk. pose proof Hh as [Hhd _ _ Hcnt _ _ _]. cbn in Hcnt.
  unfold receive_first. apply wp_bind. eapply wp_queue; [exact Ex|]. rewrite Hcnt. change (0 <? 0) with false. cbv iota.
  rewrite (proj2 (Z.eqb_neq ticks 0)) by lia. apply wp_bind, wp_in_ker. eapply wp_mono; [by apply (timeout_fresh ticks)|]. intros tm k1 [-> Hck].
  apply wp_ret. split; [by destruct s|]. exists tm. split; [done|]. unfold receive_second. apply wp_bind, wp_in_ker. eapply wp_mono; [exact Hck|].
  intros r k2 [-> ->]. cbv iota. replace (Qs (qker s) (queues s) (ram s)) with s by (by destruct s). unfold prvIsQueueEmpty. apply wp_bind, wp_bind. eapply wp_queue; [exact Ex|].
  apply wp_ret. rewrite Hcnt. change (0 =? 0) with true. cbv iota. apply wp_bind, wp_bind. eapply wp_queue; [exact Ex|].
  destruct (Z.eqb_spec (pcHead x) queueQUEUE_IS_MUTEX) as [E|_]; [unfold queueQUEUE_IS_MUTEX in *; lia|]. apply wp_bind, wp_ret.
  apply wp_bind, wp_in_ker. eapply wp_mono; [eapply (place_ordered_spec core2 (qker s) V t c); try done; apply H2|]. intros [] k' (V' & Hp & Hsq).
  unfold queueYIELD. apply wp_in_ker. unfold request_. apply wp_modify. apply wp_ret. split; [done|]. exists k', V'. eexists. split_and!; [done|done|done].
Qed.

Lemma sorted_insert_first f n xs : (forall y, y ∈ xs -> f n < f y) -> sorted_insert f n xs = n :: xs.
Proof.
  intros H. destruct xs as [|y xs]; [done|]. cbn. destruct (Z.leb_spec (f y) (f n)) as [Hle|]; [|done]. specialize (H y (list_elem_of_here _ _)). lia.
Qed.

(** C16: A task that waits for an item on an empty queue, with a time-out or
    without, and has a higher priority than the other tasks that wait there, is
    made ready by the next send, on either CPU, and returns from its call with
    the item that was sent, in its buffer; the queue is empty again. *)
Theorem receive_gets_sent core coreR core' q s V x t c G ticks buf src pos :
  is_core core -> is_core coreR -> is_core core' -> idle core q s V x [] -> susp (qker s) coreR = 0 -> susp (qker s) core' = 0 ->
  on_time (qker s) V -> cur (qker s) core = t -> tcbs (qker s) !! t = Some c ->
  xGenericListItem t ∈ sq V G -> ~ linked V (xEventListItem t) -> xTasksWaitingToReceive q <> 0 -> 0 < ticks <= portMAX_DELAY ->
  (forall y, y ∈ sq V (xTasksWaitingToReceive q) -> key (mem (qker s)) (xEventListItem t) < key (mem (qker s)) y) ->
  position_ok x pos -> buffer x (ram s) src -> buffer_ok x (ram s) buf ->
  wp (xQueueGenericReceive [Pause (mret tt) core (xQueueGenericSend [] core' q src 0 pos;; mret tt) coreR] core q buf ticks false)
     (fun r s' => let item := read_bytes (ram s) src (Z.to_nat (uxItemSize x)) in
        r = Some (Some item) /\ (forall a, buf = Some a -> read_bytes (ram s') a (Z.to_nat (uxItemSize x)) = item)
        /\ exists V' x', idle coreR q s' V' x' [] /\ xGenericListItem t ∈ sq V' (ready (uxPriority c)) /\ ~ linked V' (xEventListItem t)) s.
Proof.
  intros Hc Hc1 Hc' Hid Hs1 Hs' Hon Hcur Ht Hg Hne HE0 Htk Hmax Hpos Hsrc Hbuf. pose proof Hid as [HW Hcp Hs Hq Ex Hh Hct H1 H2]. pose proof Hh as [_ Hn Hsz _ _ _ _].
  unfold xQueueGenericReceive. apply wp_bind, wp_check; [by apply negb_true_iff, Z.eqb_neq|]. apply wp_bind. eapply wp_queue; [exact Ex|].
  apply wp_bind, wp_check; [by eapply receive_checks|]. apply wp_bind. unfold may_block. apply wp_bind, wp_in_ker, wp_suspended; [apply HW|done|].
  replace (Qs (qker s) (queues s) (ram s)) with s by (by destruct s). apply wp_bind, wp_get, wp_ret. rewrite Hs. change (negb (0 =? 0)) with false. rewrite andb_false_r. cbn [andb negb].
  apply wp_bind, wp_check; [done|]. cbn [receive_loop between after RtosQueue.core1 core2]. apply wp_bind.
  eapply wp_mono; [by apply (receive_waits core core q s V x t c G ticks buf false)|]. intros r s1 (-> & tm & -> & Hsec). apply wp_bind, wp_ret. apply wp_bind.
  eapply wp_mono; [exact Hsec|]. intros r2 s2 (-> & k2 & V2 & rq & -> & Hp & Hsq). apply wp_bind, wp_bind.
  pose proof (idle_placed core core' q s V x [] _ t c _ _ k2 V2 rq Hid Hs' Ht Hp) as Hid2.
  eapply wp_mono; [by apply (send_spec core' q _ V2 x [] src pos)|]. intros r3 s3 (b & -> & Hsend). apply wp_ret.
  unfold send_result in Hsend. cbn [length] in Hsend. rewrite (proj2 (Z.ltb_lt (Z.of_nat 0) (uxLength x))) in Hsend by lia. cbn [orb ram] in Hsend.
  set (item := read_bytes (ram s) src _) in *. destruct Hsend as (-> & V3 & x3 & [Hid3 Hsh3 Hw3 _ Hm3]). cbn [qker ram] in *.
  assert (Eput : put pos item [] = [item]) by (unfold put; by destruct Hpos as [->|[->|(-> & _ & _)]]). rewrite Eput in Hid3.
  pose proof (kp_suspended _ _ (kept_trans _ _ _ (pl_kept _ _ _ _ _ _ _ _ Hp) (kept_trans k2 (with_requests rq k2) _ ltac:(by split) (woke_kept _ _ _ _ _ Hw3)))) as Hsu.
  assert (Hid4 : idle coreR q s3 V3 x3 [item]) by (destruct Hid3; split; try done; unfold susp in *; by rewrite Hsu).
  assert (Hbuf3 : buffer_ok x3 (ram s3) buf).
  { destruct buf as [a|]; [|done]. cbn in *. apply (buffer_shape x); [done|]. destruct Hbuf as [B1 B2]. split; [|done]. intros y Hy.
    destruct (decide (0 < uxItemSize x)) as [Hk|]; [|lia]. rewrite Hm3; [by apply B1|]. by apply (proj2 (B2 Hk)). }
  apply wp_bind. eapply wp_mono; [apply (receive_first_spec coreR q s3 V3 x3 [item]); [done|done|done|by left]|].
  intros r4 s4 (l & -> & -> & V4 & x4 & [Hid5 Hsh5 Hw5 _ Hm5]). apply wp_ret. cbn zeta. split; [done|].
  assert (Hlen : Z.of_nat (length item) = uxItemSize x) by (unfold item; rewrite length_read_bytes; lia). split.
  - intros a ->. rewrite Hm5. cbn. rewrite <- Hlen, Nat2Z.id. apply read_write_bytes.
  - exists V4, x4. split; [done|]. assert (Ht2 : tcbs (with_requests rq k2) !! t = Some c) by (cbn; by rewrite (kp_tcbs _ _ (pl_kept _ _ _ _ _ _ _ _ Hp))).
    assert (Hge : xEventListItem t <> xGenericListItem t) by (apply not_eq_sym; by apply (gen_event _ _ _ _ _ _ HW Ht Ht)).
    rewrite sorted_insert_first, filter_cons_True in Hsq by done.
    destruct (woke_first _ _ _ _ _ t c _ (id_wf _ _ _ _ _ _ Hid2) Ht2 Hsq Hw3) as [R1 R2].
    assert (Ht3 : tcbs (qker s3) !! t = Some c) by (by rewrite (kp_tcbs _ _ (woke_kept _ _ _ _ _ Hw3))).
    destruct (woke_other _ _ _ _ _ t c (id_wf _ _ _ _ _ _ Hid4) Ht3 R2 Hw5) as [O1 O2]. split; [by apply O1|done].
Qed.
End Refine.
