(* ===== verification/RtosMutex.v ===== *)
(** * Mutexes and priority inheritance

    A mutex is a queue of length one without bytes ([RtosQueue]).  While a task
    of higher priority waits for it, the task that holds it runs at the priority
    of the waiting task; it returns to its own priority when it gives back the
    last mutex that it holds. *)

From stdpp Require Import sorting.
From S2P Require Import Prelude RtosList RtosStore RtosTasks RtosSched RtosWake RtosQueue RtosQueueSpec.

#[local] Open Scope Z_scope.

Section Priority.
Context {T : TaskLists} {TL : TaskListsLaws T}.

(** The control block of a task changes; its ready list still fits. *)
Lemma wf_set_tcb k V h c c' :
  wf k V -> tcbs k !! h = Some c -> 0 <= uxPriority c' < configMAX_PRIORITIES ->
  (forall p, 0 <= p < configMAX_PRIORITIES -> xGenericListItem h ∈ sq V (ready p) -> uxPriority c' = p) ->
  wf (with_tcbs (<[h := c']> (tcbs k)) k) V.
Proof.
  intros [HS HA HT HL HR Htop Hmax Hwh Hsl Hso Hov Hnx Htk] Hh Hp Hr. split; try done; cbn.
  - by destruct HA.
  - intros t d. rewrite lookup_insert_Some. intros [[<- <-]|[Hne Ht]]; [|by apply HT]. destruct (HT _ _ Hh) as (_ & H2 & H3 & H4 & H5). split_and!; try done; apply Hp.
  - intros p x Hp' Hx. destruct (HR p x Hp' Hx) as (t & d & -> & Ht & Hd). destruct (decide (t = h)) as [->|Hne].
    + exists h, c'. rewrite lookup_insert_eq. split_and!; [done|done|]. by apply Hr.
    + exists t, d. by rewrite lookup_insert_ne.
  - intros L x HL' Hx. destruct (Hsl L x HL' Hx) as (t & d & -> & Ht). destruct (decide (t = h)) as [->|Hne].
    + exists h, c'. by rewrite lookup_insert_eq.
    + exists t, d. by rewrite lookup_insert_ne.
Qed.

(** Only the control block, the place in the ready lists and the value of the
    event item of task [h] have changed. *)
Record retuned (h : Z) (c' : TCB_t) (k : kernel) (V : view) (k' : kernel) (V' : view) : Prop := {
  rt_wf : wf k' V';
  rt_kept : kept (with_tcbs (<[h := c']> (tcbs k)) k) k';
  rt_lists : forall L, is_Some (V' !! L) <-> is_Some (V !! L);
  rt_in : forall L x, x <> xGenericListItem h -> x ∈ sq V' L <-> x ∈ sq V L;
  rt_sq : forall L, (forall p, 0 <= p < configMAX_PRIORITIES -> L <> ready p) -> sq V' L = sq V L;
  rt_home : forall p, 0 <= p < configMAX_PRIORITIES -> xGenericListItem h ∈ sq V (ready p) -> xGenericListItem h ∈ sq V' (ready (uxPriority c'));
  rt_value : forall x, x <> xEventListItem h -> value (mem k') x = value (mem k) x
}.

Lemma retuned_on_time h c c' k V k' V' : wf k V -> tcbs k !! h = Some c -> retuned h c' k V k' V' -> on_time k V -> on_time k' V'.
Proof.
  intros HW Hh [HW' Hk _ _ Hsq _ Hv] Hon x Hx. destruct Hk as [_ _ Kd _ _ Kt _ _ _]. cbn in Kd, Kt. rewrite Kd in Hx. rewrite Kt.
  destruct (delayed_apart _ _ HW) as [_ Hap]. rewrite Hsq in Hx by (intros p Hp E; destruct (Hap p Hp) as [Ha _]; congruence). unfold key. rewrite Hv; [by apply Hon|].
  intros ->. by apply (event_not_sleeper _ _ _ _ (pxDelayedTaskList k) HW Hh (or_introl eq_refl)).
Qed.

Lemma retuned_parked h c c' k V k' V' L : wf k V -> tcbs k !! h = Some c -> retuned h c' k V k' V' -> parked k V L -> parked k' V' L.
Proof.
  intros HW Hh [HW' Hk Hls Hin Hsq Hhome Hv] [HL Hap Hwt]. split; [by apply Hls|done|]. intros x Hx. rewrite Hsq in Hx by (by apply apart_ready).
  destruct (Hwt x Hx) as (t & d & G & -> & Ht & Hg). rewrite (kp_tcbs _ _ Hk). cbn. destruct (decide (t = h)) as [->|Hne].
  - exists h, c'. rewrite lookup_insert_eq. destruct (decide (Exists (fun p => xGenericListItem h ∈ sq V (ready p)) (seqZ 0 configMAX_PRIORITIES))) as [He|He].
    + apply Exists_exists in He as (p & Hp%elem_of_seqZ & Hp'). exists (ready (uxPriority c')). split_and!; [done|done|]. apply (Hhome p); [lia|done].
    + exists G. split_and!; [done|done|]. rewrite Hsq; [done|]. intros p Hp ->. apply He. apply Exists_exists. exists p. split; [apply elem_of_seqZ; lia|done].
  - exists t, d, G. rewrite lookup_insert_ne by done. split_and!; [done|done|]. apply Hin; [|done]. intros E%gen_inj. done.
Qed.

(** Only the value of the event item of [h] changes. *)
Definition event_step (h : Z) (k : kernel) (V : view) (k' : kernel) : Prop :=
  exists s', k' = with_mem s' k /\ wf k' V /\ forall x, x <> xEventListItem h -> value s' x = value (mem k) x.

Lemma event_step_refl h k V : wf k V -> event_step h k V k.
Proof. intros HW. exists (mem k). split_and!; [by rewrite with_mem_id|done|done]. Qed.

Lemma set_event_spec k V h c v :
  wf k V -> tcbs k !! h = Some c -> 0 <= v < 2 ^ 32 -> wp (on_mem (listSET_LIST_ITEM_VALUE (xEventListItem h) v)) (fun _ k' => event_step h k V k') k.
Proof.
  intros HW Hh Hv. destruct (w_tasks _ _ HW _ _ Hh) as (_ & _ & _ & _ & Hmk). destruct (item_task _ _ _ _ HW Hh) as [_ Hl]. apply wp_on_mem.
  eapply wp_mono; [apply (store_set_value _ V); [apply HW|done|unfold portMAX_DELAY; lia|]|].
  { intros L' xs i E. apply not_eq_sym. apply Hmk. by eexists. }
  intros [] s1 (HS1 & Hv1 & Ho1 & Hl1). exists s1. split_and!; [done|by eapply wf_event_value|]. intros x Hx. by rewrite Hv1, decide_False.
Qed.

Lemma reset_event_spec k V h c p :
  wf k V -> tcbs k !! h = Some c -> 0 <= p < configMAX_PRIORITIES -> wp (reset_event_value h p) (fun _ k' => event_step h k V k') k.
Proof.
  intros HW Hh Hp. destruct (item_task _ _ _ _ HW Hh) as [_ Hl]. unfold reset_event_value. apply wp_bind, wp_on_mem. eapply read_value; [by apply live_value|].
  rewrite with_mem_id. destruct (_ =? 0); [|apply wp_ret; by apply event_step_refl]. eapply set_event_spec; [done|done|apply u32_range].
Qed.

Lemma contained_spec k V h c p :
  wf k V -> tcbs k !! h = Some c -> 0 <= p < configMAX_PRIORITIES ->
  wp (on_mem (listIS_CONTAINED_WITHIN (ready p) (xGenericListItem h))) (fun r k' => k' = k /\ if (r : bool) then xGenericListItem h ∈ sq V (ready p) else xGenericListItem h ∉ sq V (ready p)) k.
Proof.
  intros HW Hh Hp. apply wp_on_mem. destruct (linked_or_free _ _ h c (xGenericListItem h) HW Hh ltac:(by left)) as [(E & Hin & HE & Hc)|[Hn Hc]].
  - eapply read_within; [exact Hc|]. rewrite with_mem_id. split; [done|]. destruct (Z.eqb_spec E (ready p)) as [->|Hne]; [done|]. intros Hx. apply Hne. by apply (one_list _ _ _ _ _ HW Hin Hx).
  - eapply read_within; [exact Hc|]. rewrite with_mem_id. split; [done|]. destruct (Z.eqb_spec 0 (ready p)) as [E|Hne]; [|intros Hx; apply Hn; by eexists].
    destruct (w_lists _ _ HW (ready p) (state_ready p Hp)) as [y Hy]. rewrite <- E, (st_null _ _ (w_store _ _ HW)) in Hy. done.
Qed.

(** A ready task moves to the ready list of its new priority. *)
Lemma requeue_spec k V h c f (m : M kernel unit) :
  wf k V -> tcbs k !! h = Some c -> xGenericListItem h ∈ sq V (ready (uxPriority c)) -> 0 <= uxPriority (f c) < configMAX_PRIORITIES ->
  (forall k1 V1, wf k1 V1 -> tcbs k1 !! h = Some (f c) -> wp m (fun _ k2 => event_step h k1 V1 k2) k1) ->
  wp (on_mem (uxListRemove (xGenericListItem h)))
     (fun _ k1 => wp (set_tcb h f) (fun _ k2 => wp m (fun _ k3 => wp (prvAddTaskToReadyList h) (fun _ k' => exists V', retuned h (f c) k V k' V') k3) k2) k1) k.
Proof.
  intros HW Hh Hg Hp Hm. destruct (w_tasks _ _ HW _ _ Hh) as (Hpc & _). eapply wp_mono; [by eapply wf_remove|]. intros r k1 (_ & s1 & -> & Hs1 & HW1).
  set (V1 := view_remove (ready (uxPriority c)) (xGenericListItem h) V) in *.
  assert (Hsq1 : forall L', sq V1 L' = filter (fun y => y <> xGenericListItem h) (sq V L')) by (intros L'; by eapply sq_removed).
  assert (Hn1 : ~ linked V1 (xGenericListItem h)) by (intros [L' Hx]; rewrite Hsq1 in Hx; apply list_elem_of_filter in Hx as [? _]; done).
  eapply wp_set_tcb; [exact Hh|]. cbn [tcbs with_mem]. set (k2 := with_tcbs _ _).
  assert (HW2 : wf k2 V1) by (eapply (wf_set_tcb (with_mem s1 k)); [done|exact Hh|done|]; intros p _ Hx; exfalso; apply Hn1; by eexists).
  assert (Hh2 : tcbs k2 !! h = Some (f c)) by (unfold k2; cbn; apply lookup_insert_eq).
  eapply wp_mono; [by apply (Hm k2 V1)|]. intros [] k3 (s3 & -> & HW3 & Hv3).
  eapply wp_mono; [by eapply (add_ready_spec (with_mem s3 k2) V1 h (f c))|]. intros [] k4 (top & (s4 & -> & Hs4 & HW4) & _).
  destruct (is_Some_pair V1 (ready (uxPriority (f c)))) as [i E]; [apply (w_lists _ _ HW1), state_ready; done|].
  eexists. split; [exact HW4|by split| | | | |].
  - intros L'. rewrite live_view_insert_end. unfold V1. apply live_view_remove.
  - intros L' x Hx. rewrite (sq_view_insert_end _ _ _ _ i E). case_decide; [rewrite insert_before_perm, elem_of_cons; subst L'|]; rewrite Hsq1, list_elem_of_filter; naive_solver.
  - intros L' HL'. rewrite (sq_view_insert_end _ _ _ _ i E), decide_False by (by apply HL'). rewrite Hsq1. apply filter_notin. intros Hx.
    apply (HL' _ Hpc). exact (one_list _ _ _ _ _ HW Hx Hg).
  - intros p _ _. rewrite (sq_view_insert_end _ _ _ _ i E), decide_True, insert_before_perm by done. left.
  - intros x Hx. cbn. rewrite (si_value _ _ Hs4). cbn. rewrite (Hv3 x Hx). cbn. apply (si_value _ _ Hs1).
Qed.

Lemma retuned_event h c c' k V k1 k' V' :
  tcbs k !! h = Some c -> event_step h k V k1 -> retuned h c' k1 V k' V' -> retuned h c' k V k' V'.
Proof.
  intros Hh (s1 & -> & HW1 & Hv1) [HW' Hk Hls Hin Hsq Hhome Hv]. split; [done| |done..|].
  - by destruct Hk.
  - intros x Hx. rewrite (Hv x Hx). cbn. by apply Hv1.
Qed.

(** [vTaskPriorityInherit] raises the priority of the holder to that of the caller. *)
Lemma inherit_spec core k V h c t cc :
  is_core core -> wf k V -> h <> 0 -> tcbs k !! h = Some c -> cur k core = t -> tcbs k !! t = Some cc ->
  wp (vTaskPriorityInherit core h)
     (fun _ k' => exists V', if uxPriority c <? uxPriority cc then retuned h (set_priority (uxPriority cc) c) k V k' V' else k' = k /\ V' = V) k.
Proof.
  intros Hc HW Hh0 Hh Hcur Ht. destruct (w_tasks _ _ HW _ _ Hh) as (Hpc & _). destruct (w_tasks _ _ HW _ _ Ht) as (Hpt & _).
  unfold vTaskPriorityInherit. rewrite (proj2 (Z.eqb_neq h 0)) by done. apply wp_bind. eapply wp_tcb; [exact Hh|]. apply wp_bind, wp_current; [apply HW|done|]. rewrite Hcur.
  apply wp_bind. eapply wp_tcb; [exact Ht|]. destruct (uxPriority c <? uxPriority cc); [|apply wp_ret; by exists V].
  apply wp_bind. eapply wp_mono; [by eapply (reset_event_spec k V h c)|]. intros [] k1 Hev. pose proof Hev as (s1 & -> & HW1 & Hv1).
  apply wp_bind. eapply wp_mono; [by apply (contained_spec (with_mem s1 k) V h c)|]. intros r k2 [-> Hr]. destruct r.
  - pose proof (requeue_spec (with_mem s1 k) V h c (set_priority (uxPriority cc)) (mret tt) HW1 Hh Hr Hpt) as Hrq.
    apply wp_bind. eapply wp_mono; [apply Hrq; intros k3 V3 HW3 _; apply wp_ret; by apply event_step_refl|]. intros r k3 H3.
    apply wp_bind. eapply wp_mono; [exact H3|]. intros [] k4 H4. apply (wp_inv (mret tt)) in H4. destruct H4 as (a & k5 & E & H5). injection E as <- <-.
    eapply wp_mono; [exact H5|]. intros [] k6 (V' & Hrt). exists V'. by eapply retuned_event.
  - assert (Hnr : forall p, 0 <= p < configMAX_PRIORITIES -> xGenericListItem h ∉ sq V (ready p)).
    { intros p Hp Hx. destruct (w_ready _ _ HW p _ Hp Hx) as (t' & d & E%gen_inj & Ht' & Hd). subst t'. apply Hr. replace (uxPriority c) with p by congruence. done. }
    eapply wp_set_tcb; [exact Hh|]. exists V. eapply retuned_event; [exact Hh|exact Hev|]. split; [|by split|done|done|done| |done].
    + eapply (wf_set_tcb (with_mem s1 k)); [done|exact Hh|done|]. intros p Hp Hx. by apply Hnr in Hx.
    + intros p Hp Hx. by apply Hnr in Hx.
Qed.

(** A control block whose priority stays. *)
Lemma retuned_tcb k V h c c' :
  wf k V -> tcbs k !! h = Some c -> uxPriority c' = uxPriority c -> retuned h c' k V (with_tcbs (<[h := c']> (tcbs k)) k) V.
Proof.
  intros HW Hh Hp. destruct (w_tasks _ _ HW _ _ Hh) as (Hpc & _).
  assert (Hr : forall p, 0 <= p < configMAX_PRIORITIES -> xGenericListItem h ∈ sq V (ready p) -> uxPriority c = p).
  { intros p Hp' Hx. destruct (w_ready _ _ HW p _ Hp' Hx) as (t' & d & E%gen_inj & Ht' & Hd). subst t'. congruence. }
  split; [|by split|done|done|done| |done].
  - eapply wf_set_tcb; [done|exact Hh|by rewrite Hp|]. rewrite Hp. exact Hr.
  - intros p Hp' Hx. rewrite Hp. by rewrite (Hr p Hp' Hx).
Qed.

Lemma retuned_trans h c1 c2 k V k1 V1 k2 V2 : retuned h c1 k V k1 V1 -> retuned h c2 k1 V1 k2 V2 -> retuned h c2 k V k2 V2.
Proof.
  intros [HW1 Hk1 Hl1 Hi1 Hs1 Hh1 Hv1] [HW2 Hk2 Hl2 Hi2 Hs2 Hh2 Hv2].
  assert (Hc1 : tcbs k1 !! h = Some c1) by (rewrite (kp_tcbs _ _ Hk1); cbn; apply lookup_insert_eq). destruct (w_tasks _ _ HW1 _ _ Hc1) as (Hp1 & _). split.
  - done.
  - destruct Hk1 as [K1 K2 K3 K4 K5 K6 K7 K8 K9], Hk2 as [J1 J2 J3 J4 J5 J6 J7 J8 J9]. cbn in *. split; cbn; try congruence. by rewrite J1, K1, insert_insert_eq.
  - intros L. by rewrite Hl2.
  - intros L x Hx. by rewrite Hi2, Hi1.
  - intros L HL. by rewrite Hs2, Hs1.
  - intros p Hp Hx. apply (Hh2 (uxPriority c1)); [done|]. by apply (Hh1 p).
  - intros x Hx. by rewrite Hv2, Hv1.
Qed.

(** What giving a mutex back makes of the control block. *)
Definition given (c : TCB_t) : TCB_t :=
  let c := set_held (uxMutexesHeld c - 1) c in
  if negb (uxPriority c =? uxBasePriority c) && (uxMutexesHeld c =? 0) then set_priority (uxBasePriority c) c else c.

Lemma disinherit_spec k V h c :
  wf k V -> h <> 0 -> tcbs k !! h = Some c -> xGenericListItem h ∈ sq V (ready (uxPriority c)) -> 0 < uxMutexesHeld c < 2 ^ 32 ->
  0 <= uxBasePriority c < configMAX_PRIORITIES ->
  wp (xTaskPriorityDisinherit h) (fun _ k' => exists V', retuned h (given c) k V k' V') k.
Proof.
  intros HW Hh0 Hh Hg Hm Hb. unfold xTaskPriorityDisinherit. rewrite (proj2 (Z.eqb_neq h 0)) by done. apply wp_bind. eapply wp_tcb; [exact Hh|].
  apply wp_bind, wp_check; [apply negb_true_iff, Z.eqb_neq; lia|]. apply wp_bind. eapply wp_set_tcb; [exact Hh|]. rewrite u32_small by lia.
  set (c1 := set_held (uxMutexesHeld c - 1) c). pose proof (retuned_tcb k V h c c1 HW Hh eq_refl) as R1. pose proof (rt_wf _ _ _ _ _ _ R1) as HW1.
  assert (Hh1 : tcbs (with_tcbs (<[h := c1]> (tcbs k)) k) !! h = Some c1) by apply lookup_insert_eq. apply wp_bind. eapply wp_tcb; [exact Hh1|].
  unfold given. fold c1. cbv zeta. destruct (negb _ && _); [|apply wp_ret; by exists V].
  assert (Hbw : 0 <= u32 (configMAX_PRIORITIES - uxBasePriority c1) < 2 ^ 32) by apply u32_range.
  pose proof (requeue_spec _ V h c1 (set_priority (uxBasePriority c1)) (on_mem (listSET_LIST_ITEM_VALUE (xEventListItem h) (u32 (configMAX_PRIORITIES - uxBasePriority c1)))) HW1 Hh1 Hg Hb) as Hrq.
  apply wp_bind. eapply wp_mono; [apply Hrq; intros k3 V3 HW3 Hh3; by eapply set_event_spec|]. intros r k3 H3. apply wp_bind. eapply wp_mono; [exact H3|].
  intros [] k4 H4. apply wp_bind. eapply wp_mono; [exact H4|]. intros [] k5 H5. apply wp_bind. eapply wp_mono; [exact H5|]. intros [] k6 (V' & R2).
  apply wp_ret. exists V'. by eapply retuned_trans.
Qed.

(** The same CPUs run the same tasks. *)
Lemma retuned_cpus h c c' k V k' V' : tcbs k !! h = Some c -> xCoreID c' = xCoreID c -> retuned h c' k V k' V' -> cpus_ok k -> cpus_ok k'.
Proof.
  intros Hh Hx Hr Hcp. apply (cpus_kept _ _ (rt_kept _ _ _ _ _ _ Hr)). destruct Hcp as [H1 H2]. split; cbn.
  - intros core Hc. change (cur (with_tcbs _ k) core) with (cur k core). destruct (decide (cur k core = h)) as [->|]; [by rewrite lookup_insert_eq|].
    rewrite lookup_insert_ne by done. by apply H1.
  - intros t d. rewrite lookup_insert_Some. intros [[<- <-]|[_ Ht]]; [rewrite Hx; by apply (H2 h)|by apply (H2 t)].
Qed.

Lemma given_core c : xCoreID (given c) = xCoreID c.
Proof. unfold given. cbv zeta. by destruct (negb _ && _). Qed.

Lemma retuned_linked h c c' k V k' V' x : wf k V -> tcbs k !! h = Some c -> retuned h c' k V k' V' -> x <> xGenericListItem h -> linked V' x <-> linked V x.
Proof. intros HW Hh Hr Hx. split; intros [L H]; exists L; by apply (rt_in _ _ _ _ _ _ Hr). Qed.
End Priority.

(** ** The mutex *)

Section Mutex.
Context {T : TaskLists} {TL : TaskListsLaws T}.

(** The mutex [q], outside of a set, is held by task [h], or free if [h] is 0. *)
Record mutex_at (q : Z) (s : qs) (V : view) (x : Queue_t) (h : Z) : Prop := {
  mu_wf : wf (qker s) V;
  mu_cpus : cpus_ok (qker s);
  mu_null : q <> 0;
  mu_queue : queues s !! q = Some x;
  mu_type : pcHead x = queueQUEUE_IS_MUTEX;
  mu_size : uxItemSize x = 0;
  mu_length : uxLength x = 1;
  mu_container : pxQueueSetContainer x = 0;
  mu_count : uxMessagesWaiting x = if h =? 0 then 1 else 0;
  mu_holder : pcTail x = h;
  mu_send : parked (qker s) V (xTasksWaitingToSend q);
  mu_receive : parked (qker s) V (xTasksWaitingToReceive q)
}.

(** The queue structure changed, and the kernel in a way that keeps its lists sound. *)
Lemma mutex_moved q s V x h x' h' k' V' :
  mutex_at q s V x h -> same_shape x x' -> uxMessagesWaiting x' = (if h' =? 0 then 1 else 0) -> pcTail x' = h' ->
  wf k' V' -> cpus_ok k' -> (forall L, parked (qker s) V L -> parked k' V' L) ->
  mutex_at q (Qs k' (<[q := x']> (queues s)) (ram s)) V' x' h'.
Proof.
  intros [HW Hcp Hq Ex Hty Hsz Hln Hct Hcnt Hho H1 H2] [E1 E2 E3 E4 E5] Hc Ht HW' Hcp' Hp.
  split; cbn; try done; [apply lookup_insert_eq|congruence..|by apply Hp|by apply Hp].
Qed.

(** After an item was added: the first task that waits, if there is one, is woken. *)
Lemma announce_spec core q pos y s V x :
  is_core core -> wf (qker s) V -> cpus_ok (qker s) -> susp (qker s) core = 0 -> parked (qker s) V (xTasksWaitingToReceive q) ->
  queues s !! q = Some x -> pxQueueSetContainer x = 0 ->
  wp (announce core q y pos) (fun _ s' => exists k' V', s' = Qs k' (queues s) (ram s) /\ woke (xTasksWaitingToReceive q) (qker s) V k' V') s.
Proof.
  intros Hc HW Hcp Hs Hp Ex Hct. pose proof (wake_spec core _ s V Hc HW Hcp Hs Hp) as Hwake. destruct (is_Some_pair _ _ (pk_list _ _ _ Hp)) as [i E].
  unfold announce. apply wp_bind. eapply wp_queue; [exact Ex|]. rewrite Hct. change (negb (0 =? 0)) with false. cbv iota.
  apply wp_bind, wp_in_ker, wp_on_mem. eapply read_empty; [apply HW|exact E|]. rewrite with_mem_id. replace (Qs (qker s) (queues s) (ram s)) with s by (by destruct s).
  destruct (sq V (xTasksWaitingToReceive q)) as [|z zs] eqn:Esq; cbn [negb].
  - assert (Hw : woke (xTasksWaitingToReceive q) (qker s) V (qker s) V).
    { split; [done|]. rewrite Esq. split; [done|]. exists (requests (qker s)). by destruct (qker s). }
    destruct s as [k Q m]. eapply wp_mono; [apply (yield_if_spec core (xTasksWaitingToReceive q) (Qs k Q m) V k V y Q m Hw)|].
    intros [] s' (k2 & -> & Hw2). by exists k2, V.
  - destruct (pk_waiters _ _ _ Hp z) as (t & c & G & -> & Ht & Hg); [rewrite Esq; left|]. apply wp_bind, wp_in_ker.
    eapply wp_mono; [by eapply (wake_head_spec core _ V t c _ G zs)|]. intros b k' (V' & Hr).
    assert (Hw : woke (xTasksWaitingToReceive q) (qker s) V k' V').
    { split; [apply Hr|]. rewrite Esq. exists t, c, k', (requests k'). split_and!; [done|done|done|by destruct k']. }
    eapply wp_mono; [apply (yield_if_spec core _ s V k' V' b _ _ Hw)|]. intros [] s' (k2 & -> & Hw2). by exists k2, V'.
Qed.

(** Giving the mutex back, on any CPU. *)
Lemma give_spec core q s V x h c :
  is_core core -> mutex_at q s V x h -> susp (qker s) core = 0 -> h <> 0 -> tcbs (qker s) !! h = Some c -> xGenericListItem h ∈ sq V (ready (uxPriority c)) ->
  0 < uxMutexesHeld c < 2 ^ 32 -> 0 <= uxBasePriority c < configMAX_PRIORITIES ->
  wp (xQueueGenericSend [] core q 0 0 queueSEND_TO_BACK)
     (fun r s' => r = Some true /\ exists k1 V1 V' x', retuned h (given c) (qker s) V k1 V1 /\ woke (xTasksWaitingToReceive q) k1 V1 (qker s') V'
        /\ mutex_at q s' V' x' 0) s.
Proof.
  intros Hc Hmu Hs Hh0 Hh Hg Hm Hb. pose proof Hmu as [HW Hcp Hq Ex Hty Hsz Hln Hct Hcnt Hho H1 H2]. rewrite (proj2 (Z.eqb_neq h 0)) in Hcnt by done.
  unfold xQueueGenericSend. apply wp_bind, wp_check; [by apply negb_true_iff, Z.eqb_neq|]. apply wp_bind. eapply wp_queue; [exact Ex|]. rewrite Hsz, Hln.
  apply wp_bind, wp_check; [done|]. apply wp_bind, wp_check; [done|]. apply wp_bind. eapply wp_mono; [by apply (may_block_spec core s V)|]. intros ok s1 [-> ->].
  apply wp_bind, wp_check; [done|]. cbn [send_loop]. apply wp_bind. unfold send_first. apply wp_bind. eapply wp_queue; [exact Ex|]. rewrite Hcnt, Hln, Hsz.
  change ((0 <? 1) || (queueSEND_TO_BACK =? queueOVERWRITE)) with true. cbv iota. apply wp_bind, wp_ret.
  apply wp_bind. unfold prvCopyDataToQueue. apply wp_bind. eapply wp_queue; [exact Ex|]. rewrite Hsz, Hty. change (0 =? 0) with true. change (queueQUEUE_IS_MUTEX =? queueQUEUE_IS_MUTEX) with true.
  cbv iota. rewrite Hho. apply wp_bind, wp_bind, wp_in_ker. eapply wp_mono; [by apply (disinherit_spec (qker s) V h c)|]. intros y k1 (V1 & Hr).
  apply wp_bind. eapply wp_set_queue; [exact Ex|]. apply wp_ret. apply wp_bind. eapply wp_queue; [apply lookup_insert_eq|].
  apply wp_bind. eapply wp_set_queue; [apply lookup_insert_eq|]. cbn [queues qker ram]. rewrite insert_insert_eq. apply wp_ret. cbn [with_tail uxMessagesWaiting]. rewrite Hcnt. change (u32 (0 + 1)) with 1.
  set (x' := with_waiting 1 (with_tail 0 x)). assert (Hcp1 : cpus_ok k1) by (by eapply retuned_cpus; [exact Hh|apply given_core|exact Hr|]).
  assert (Hp1 : forall L, parked (qker s) V L -> parked k1 V1 L) by (intros L; by eapply retuned_parked).
  assert (Hs1 : susp k1 core = 0) by (unfold susp in *; by rewrite (kp_suspended _ _ (rt_kept _ _ _ _ _ _ Hr))).
  apply wp_bind. eapply wp_mono; [eapply (announce_spec core q queueSEND_TO_BACK y _ V1 x'); [done|apply Hr|done|done|by apply Hp1|apply lookup_insert_eq|done]|].
  intros [] s' (k' & V' & -> & Hw). cbn [qker queues ram] in *. apply wp_ret, wp_ret. split; [done|]. exists k1, V1, V', x'. split_and!; [done|done|].
  eapply mutex_moved; [exact Hmu|by split|done|done|apply Hw|by eapply cpus_kept; [eapply woke_kept|]|].
  intros L HL. eapply woke_parked; [apply Hr|exact Hw|]. by apply Hp1.
Qed.

(** The rest of a call that takes the mutex, when it is free: the task that
    runs on the CPU holds it. *)
Lemma take_free_spec core q s V x t c ticks entry :
  is_core core -> mutex_at q s V x 0 -> susp (qker s) core = 0 -> cur (qker s) core = t -> tcbs (qker s) !! t = Some c ->
  wp (receive_loop [] core q (Some 0) ticks entry false)
     (fun r s' => r = Some (Some []) /\ exists V' x', mutex_at q s' V' x' t /\ tcbs (qker s') !! t = Some (set_held (u32 (uxMutexesHeld c + 1)) c)) s.
Proof.
  intros Hc Hmu Hs Hcur Ht. pose proof Hmu as [HW Hcp Hq Ex Hty Hsz Hln Hct Hcnt Hho H1 H2]. cbn in Hcnt. destruct (w_tasks _ _ HW _ _ Ht) as (_ & Ht0 & _).
  cbn [receive_loop]. apply wp_bind. unfold receive_first. apply wp_bind. eapply wp_queue; [exact Ex|]. rewrite Hcnt. change (0 <? 1) with true. cbv iota.
  apply wp_bind. unfold receive_item. apply wp_bind. eapply wp_queue; [exact Ex|]. unfold prvCopyDataFromQueue. apply wp_bind, wp_bind. eapply wp_queue; [exact Ex|].
  rewrite Hsz, Hty, Hcnt. change (0 =? 0) with true. change (queueQUEUE_IS_MUTEX =? queueQUEUE_IS_MUTEX) with true. cbn [negb put_item store_bytes]. cbv iota.
  apply wp_ret, wp_bind, wp_ret. do 2 apply wp_bind. eapply wp_set_queue; [exact Ex|]. change (u32 (1 - 1)) with 0.
  apply wp_bind, wp_bind, wp_in_ker. unfold pvTaskIncrementMutexHeldCount. cbn [qker]. apply wp_bind, wp_current; [apply HW|done|]. rewrite Hcur, (proj2 (Z.eqb_neq t 0)) by done.
  apply wp_bind. eapply wp_set_tcb; [exact Ht|]. set (c' := set_held _ c). pose proof (retuned_tcb (qker s) V t c c' HW Ht eq_refl) as Hr.
  set (k1 := with_tcbs (<[t:=c']> (tcbs (qker s))) (qker s)) in *. apply wp_current; [apply Hr|done|]. change (cur k1 core) with (cur (qker s) core). rewrite Hcur.
  eapply wp_set_queue; [apply lookup_insert_eq|]. cbn [queues qker ram]. rewrite insert_insert_eq. set (x' := with_tail t (with_waiting 0 x)).
  assert (Hcp1 : cpus_ok k1) by (by eapply retuned_cpus; [exact Ht| |exact Hr|]). assert (Hp1 : forall L, parked (qker s) V L -> parked k1 V L) by (intros L; by eapply retuned_parked).
  apply wp_bind. eapply wp_mono; [by apply (wake_spec core (xTasksWaitingToSend q) (Qs k1 (<[q:=x']> (queues s)) (ram s)) V Hc (rt_wf _ _ _ _ _ _ Hr) Hcp1 Hs (Hp1 _ H1))|].
  intros b s2 (k2 & V2 & -> & Hw & _). cbn [qker queues ram] in Hw.
  eapply wp_mono; [by apply (yield_if_spec core (xTasksWaitingToSend q) (Qs k1 (<[q:=x']> (queues s)) (ram s)) V k2 V2)|]. intros [] s3 (k3 & -> & Hw3). cbn [qker queues ram] in *.
  apply wp_ret, wp_ret, wp_ret. split; [done|]. exists V2, x'. pose proof (woke_kept _ _ _ _ _ Hw3) as Hk3. split.
  - eapply mutex_moved; [exact Hmu|by split|cbn; by rewrite (proj2 (Z.eqb_neq t 0))|done|apply Hw3|by eapply cpus_kept|].
    intros L HL. eapply woke_parked; [apply Hr|exact Hw3|]. by apply Hp1.
  - cbn. rewrite (kp_tcbs _ _ Hk3). cbn. apply lookup_insert_eq.
Qed.

Lemma sorted_insert_on f g n xs : f n = g n -> (forall x, x ∈ xs -> f x = g x) -> sorted_insert f n xs = sorted_insert g n xs.
Proof.
  intros En. induction xs as [|x xs IH]; intros E; cbn; [done|]. rewrite En, (E x) by left. destruct (_ <=? _); [|done]. f_equal. apply IH.
  intros y Hy. apply E. by right.
Qed.

(** A task waits for the mutex, and lends its priority to the one that holds it. *)
Lemma take_waits core coreR q s V x h c t cc G ticks :
  is_core core -> mutex_at q s V x h -> h <> 0 -> susp (qker s) core = 0 -> on_time (qker s) V ->
  tcbs (qker s) !! h = Some c -> cur (qker s) core = t -> tcbs (qker s) !! t = Some cc -> uxPriority c < uxPriority cc ->
  xGenericListItem t ∈ sq V G -> ~ linked V (xEventListItem t) -> ~ linked V (xEventListItem h) ->
  xTasksWaitingToReceive q <> 0 -> 0 < ticks <= portMAX_DELAY ->
  wp (xQueueGenericReceive [Pause (mret tt) core (mret tt) coreR] core q (Some 0) ticks false)
     (fun r s' => r = None /\ exists k1 V1 V', retuned h (set_priority (uxPriority cc) c) (qker s) V k1 V1 /\ mutex_at q s' V' x h /\ kept k1 (qker s')
        /\ (exists k2 rq, qker s' = with_requests rq k2 /\ placed (xTasksWaitingToReceive q) t (key (mem (qker s)) (xEventListItem t)) ticks k1 V1 k2 V')
        /\ sq V' (xTasksWaitingToReceive q)
           = filter (fun y => y <> xGenericListItem t) (sorted_insert (key (mem (qker s))) (xEventListItem t) (sq V (xTasksWaitingToReceive q)))) s.
Proof.
  intros Hc Hmu Hh0 Hs Hon Hh Hcur Ht Hlt Hg Hne Hnh HE0 Htk. pose proof Hmu as [HW Hcp Hq Ex Hty Hsz Hln Hct Hcnt Hho H1 H2].
  rewrite (proj2 (Z.eqb_neq h 0)) in Hcnt by done. assert (Hth : t <> h) by (intros ->; assert (cc = c) as -> by congruence; lia).
  assert (Hgg : xGenericListItem t <> xGenericListItem h) by (intros E%gen_inj; done). pose proof (gen_event _ _ _ _ _ _ HW Hh Ht) as Hge.
  unfold xQueueGenericReceive. apply wp_bind, wp_check; [by apply negb_true_iff, Z.eqb_neq|]. apply wp_bind. eapply wp_queue; [exact Ex|].
  rewrite Hsz. apply wp_bind, wp_check; [done|]. apply wp_bind. unfold may_block. apply wp_bind, wp_in_ker, wp_suspended; [apply HW|done|].
  replace (Qs (qker s) (queues s) (ram s)) with s by (by destruct s). apply wp_bind, wp_get, wp_ret. rewrite Hs. change (negb (0 =? 0)) with false. rewrite andb_false_r. cbn [andb negb].
  apply wp_bind, wp_check; [done|]. cbn [receive_loop between after RtosQueue.core1 core2]. apply wp_bind. unfold receive_first at 1. apply wp_bind. eapply wp_queue; [exact Ex|].
  rewrite Hcnt. change (0 <? 0) with false. cbv iota. rewrite (proj2 (Z.eqb_neq ticks 0)) by lia.
  apply wp_bind, wp_in_ker. eapply wp_mono; [by apply (timeout_fresh ticks)|]. intros tm k1 [-> Hck]. replace (Qs (qker s) (queues s) (ram s)) with s by (by destruct s).
  apply wp_ret, wp_bind, wp_ret. apply wp_bind. unfold receive_second. apply wp_bind, wp_in_ker. eapply wp_mono; [exact Hck|]. intros r k2 [-> ->]. cbv iota.
  replace (Qs (qker s) (queues s) (ram s)) with s by (by destruct s). unfold prvIsQueueEmpty. apply wp_bind, wp_bind. eapply wp_queue; [exact Ex|]. apply wp_ret. rewrite Hcnt.
  change (0 =? 0) with true. cbv iota. apply wp_bind, wp_bind. eapply wp_queue; [exact Ex|]. rewrite Hty, Hho. change (queueQUEUE_IS_MUTEX =? queueQUEUE_IS_MUTEX) with true. cbv iota.
  apply wp_bind, wp_in_ker. eapply wp_mono; [by apply (inherit_spec core (qker s) V h c t cc)|]. intros [] k1. rewrite (proj2 (Z.ltb_lt _ _)) by done. intros (V1 & Hr).
  pose proof (rt_kept _ _ _ _ _ _ Hr) as Hk1. assert (Hp1 : forall L, parked (qker s) V L -> parked k1 V1 L) by (intros L; by apply (retuned_parked h c (set_priority (uxPriority cc) c))).
  assert (Ht1 : tcbs k1 !! t = Some cc) by (rewrite (kp_tcbs _ _ Hk1); cbn; by rewrite lookup_insert_ne).
  assert (Hsq1 : sq V1 (xTasksWaitingToReceive q) = sq V (xTasksWaitingToReceive q)) by (apply (rt_sq _ _ _ _ _ _ Hr), apart_ready, H2).
  assert (Hkey : forall y, y <> xEventListItem h -> key (mem k1) y = key (mem (qker s)) y) by (intros y Hy; unfold key; by rewrite (rt_value _ _ _ _ _ _ Hr y Hy)).
  assert (Het : xEventListItem t <> xEventListItem h) by (unfold xEventListItem; lia).
  apply wp_bind, wp_in_ker. cbn [qker queues ram]. eapply wp_mono; [eapply (place_ordered_spec core k1 V1 t cc _ G ticks)|].
  { done. } { apply Hr. } { by apply (retuned_on_time h c (set_priority (uxPriority cc) c) (qker s) V). } { unfold cur in *. by rewrite (kp_current _ _ Hk1). } { done. } { apply (Hp1 _ H2). } { apply H2. } { done. }
  { by apply (rt_in _ _ _ _ _ _ Hr). } { rewrite retuned_linked; [done|exact HW|exact Hh|exact Hr|]. apply not_eq_sym. done. } { done. }
  intros [] k2 (V2 & Hpl & Hsq2). unfold queueYIELD. apply wp_in_ker. unfold request_. apply wp_modify. apply wp_ret, wp_bind, wp_ret. cbn [qker queues ram]. set (k3 := with_requests _ k2).
  apply wp_bind. unfold receive_first. apply wp_bind. eapply wp_queue; [exact Ex|]. rewrite Hcnt. change (0 <? 0) with false. cbv iota. rewrite (proj2 (Z.eqb_neq ticks 0)) by lia.
  apply wp_ret, wp_ret. split; [done|]. exists k1, V1, V2. pose proof (pl_kept _ _ _ _ _ _ _ _ Hpl) as Hk2. assert (Hk3 : kept k1 k3) by (by destruct Hk2).
  rewrite Hkey in Hpl by done. split_and!; [done| |done|by eexists k2, _|].
  - rewrite <- (insert_id (queues s) q x Ex). eapply mutex_moved; [exact Hmu|by split|by rewrite (proj2 (Z.eqb_neq h 0))|done| | |].
    + destruct (pl_wf _ _ _ _ _ _ _ _ Hpl) as [HS HA HT HL HR Htop Hmax Hwh Hsl Hso Hov Hnx Htk']. split; try done; cbn. by destruct HA.
    + eapply cpus_kept; [exact Hk3|]. by eapply retuned_cpus; [exact Hh| |exact Hr|].
    + intros L HL. destruct (parked_placed _ _ _ _ _ _ _ _ _ _ (rt_wf _ _ _ _ _ _ Hr) Ht1 Hpl (Hp1 L HL)). by split.
  - rewrite Hsq2, Hsq1. f_equal. apply sorted_insert_on; [by apply Hkey|]. intros y Hy. apply Hkey. intros ->. apply Hnh. by eexists.
Qed.

(** C9: Priority inheritance.  While a task of higher priority waits for a
    mutex, with a time-out or without, and before all others that wait for it,
    the ready task that holds it has the priority of the waiting task, in the
    control block and in the ready lists.  When it gives back the mutex, on
    either CPU, the mutex is free and the waiting task is ready; the task that
    gave it back has its own priority again if it holds no other mutex, and
    keeps the one it was lent otherwise, until it gives back the last one.  When
    the waiting task runs, on either CPU, while the mutex is free, its call
    returns and it holds the mutex. *)
Theorem mutex_lends_priority core coreH q s V x h c t cc G ticks :
  is_core core -> is_core coreH -> mutex_at q s V x h -> susp (qker s) core = 0 -> susp (qker s) coreH = 0 -> on_time (qker s) V ->
  tcbs (qker s) !! h = Some c -> xGenericListItem h ∈ sq V (ready (uxPriority c)) -> ~ linked V (xEventListItem h) ->
  0 < uxMutexesHeld c < 2 ^ 32 -> 0 <= uxBasePriority c <= uxPriority c -> uxPriority c < uxPriority cc ->
  cur (qker s) core = t -> tcbs (qker s) !! t = Some cc -> xGenericListItem t ∈ sq V G -> ~ linked V (xEventListItem t) ->
  (forall y, y ∈ sq V (xTasksWaitingToReceive q) -> key (mem (qker s)) (xEventListItem t) < key (mem (qker s)) y) ->
  xTasksWaitingToReceive q <> 0 -> 0 < ticks <= portMAX_DELAY ->
  let back := if uxMutexesHeld c =? 1 then uxBasePriority c else uxPriority cc in
  wp (xQueueGenericReceive [Pause (mret tt) core (mret tt) core] core q (Some 0) ticks false)
     (fun r s1 => r = None /\ exists V1,
        mutex_at q s1 V1 x h /\ tcbs (qker s1) !! h = Some (set_priority (uxPriority cc) c) /\ xGenericListItem h ∈ sq V1 (ready (uxPriority cc))
        /\ (if ticks =? portMAX_DELAY then xGenericListItem t ∈ sq V1 xSuspendedTaskList else remaining (qker s1) V1 t ticks)
        /\ wp (xQueueGenericSend [] coreH q 0 0 queueSEND_TO_BACK)
              (fun r s2 => r = Some true /\ exists V2 x2,
                 mutex_at q s2 V2 x2 0 /\ tcbs (qker s2) !! h = Some (set_priority back (set_held (uxMutexesHeld c - 1) c))
                 /\ xGenericListItem h ∈ sq V2 (ready back) /\ xGenericListItem t ∈ sq V2 (ready (uxPriority cc)) /\ ~ linked V2 (xEventListItem t)) s1) s
  /\ forall coreR s3 V3 x3 c3 tm ticks3,
       is_core coreR -> mutex_at q s3 V3 x3 0 -> susp (qker s3) coreR = 0 -> cur (qker s3) coreR = t -> tcbs (qker s3) !! t = Some c3 ->
       wp (receive_loop [] coreR q (Some 0) ticks3 (Some tm) false)
          (fun r s4 => r = Some (Some []) /\ exists V4 x4, mutex_at q s4 V4 x4 t /\ tcbs (qker s4) !! t = Some (set_held (u32 (uxMutexesHeld c3 + 1)) c3)) s3.
Proof.
  intros Hc Hc' Hmu Hs Hs' Hon Hh Hg Hnh Hm Hb Hlt Hcur Ht HG Hnt Hfirst HE0 Htk back. split; [|intros; by apply (take_free_spec coreR q s3 V3 x3 t c3)].
  pose proof (mu_wf _ _ _ _ _ Hmu) as HW. destruct (w_tasks _ _ HW _ _ Hh) as (Hpc & Hh0 & _). destruct (w_tasks _ _ HW _ _ Ht) as (Hpt & _).
  assert (Hth : t <> h) by (intros ->; assert (cc = c) as -> by congruence; lia). assert (Hgg : xGenericListItem h <> xGenericListItem t) by (intros E%gen_inj; done).
  eapply wp_mono; [by apply (take_waits core core q s V x h c t cc G ticks)|]. intros r s1 (-> & k1 & V1 & V2 & Hr & Hmu1 & Hk & (k2 & rq & Ek & Hpl) & Hsq).
  pose proof (rt_kept _ _ _ _ _ _ Hr) as Hk1. split; [done|]. exists V2. set (c1 := set_priority (uxPriority cc) c) in *.
  assert (Hh1 : tcbs (qker s1) !! h = Some c1) by (rewrite (kp_tcbs _ _ Hk), (kp_tcbs _ _ Hk1); apply lookup_insert_eq).
  assert (Ht1 : tcbs (qker s1) !! t = Some cc) by (rewrite (kp_tcbs _ _ Hk), (kp_tcbs _ _ Hk1); cbn; by rewrite lookup_insert_ne).
  assert (Hg1 : xGenericListItem h ∈ sq V2 (ready (uxPriority cc))).
  { apply (pl_in _ _ _ _ _ _ _ _ Hpl); [done|]. left. by apply (rt_home _ _ _ _ _ _ Hr _ Hpc). }
  assert (Hnh1 : ~ linked V2 (xEventListItem h)).
  { intros [L Hx]. apply (pl_in _ _ _ _ _ _ _ _ Hpl) in Hx as [Hx|[_ E]].
    - apply Hnh. apply (retuned_linked h c c1 (qker s) V k1 V1); [done|done|done| |by eexists]. apply not_eq_sym. by apply (gen_event _ _ _ _ _ _ HW Hh Hh).
    - unfold xEventListItem in E. lia.
    - apply not_eq_sym. by apply (gen_event _ _ _ _ _ _ HW Ht Hh). }
  split_and!; [done|done|done| |].
  { pose proof (pl_sleeps _ _ _ _ _ _ _ _ Hpl) as Hsl. destruct (ticks =? portMAX_DELAY); [done|]. rewrite Ek. exact Hsl. }
  eapply wp_mono; [apply (give_spec coreH q s1 V2 x h c1); [done|done| |done|done|done| |]|].
  { unfold susp in *. by rewrite (kp_suspended _ _ Hk), (kp_suspended _ _ Hk1). } { cbn. lia. } { cbn. lia. }
  intros r s2 (-> & k3 & V3 & V4 & x2 & Hr3 & Hw & Hmu2). split; [done|]. exists V4, x2. pose proof (rt_kept _ _ _ _ _ _ Hr3) as Hk3. pose proof (mu_wf _ _ _ _ _ Hmu1) as HW1.
  assert (Eg : given c1 = set_priority back (set_held (uxMutexesHeld c - 1) c)).
  { unfold given, c1, set_priority, set_held, back. cbn. rewrite (proj2 (Z.eqb_neq (uxPriority cc) (uxBasePriority c))) by lia. cbn. destruct (Z.eqb_spec (uxMutexesHeld c - 1) 0), (Z.eqb_spec (uxMutexesHeld c) 1); (done || lia). }
  rewrite Eg in *.
  assert (Hh3 : tcbs k3 !! h = Some (set_priority back (set_held (uxMutexesHeld c - 1) c))) by (rewrite (kp_tcbs _ _ Hk3); apply lookup_insert_eq).
  assert (Ht3 : tcbs k3 !! t = Some cc) by (rewrite (kp_tcbs _ _ Hk3); cbn; by rewrite lookup_insert_ne).
  assert (Hnh3 : ~ linked V3 (xEventListItem h)).
  { rewrite (retuned_linked _ _ _ _ _ _ _ _ HW1 Hh1 Hr3); [done|]. apply not_eq_sym. by apply (gen_event _ _ _ _ _ _ HW Hh Hh). }
  destruct (woke_other _ _ _ _ _ h _ (rt_wf _ _ _ _ _ _ Hr3) Hh3 Hnh3 Hw) as [Ho _]. rewrite sorted_insert_first, filter_cons_True in Hsq; [|apply not_eq_sym; by apply (gen_event _ _ _ _ _ _ HW Ht Ht)|done].
  assert (Hsq3 : sq V3 (xTasksWaitingToReceive q) = sq V2 (xTasksWaitingToReceive q)) by (apply (rt_sq _ _ _ _ _ _ Hr3), apart_ready, (mu_receive _ _ _ _ _ Hmu)).
  rewrite Hsq in Hsq3. destruct (woke_first _ _ _ _ _ t cc _ (rt_wf _ _ _ _ _ _ Hr3) Ht3 Hsq3 Hw) as [R1 R2]. split_and!; [done| | |done|done].
  - by rewrite (kp_tcbs _ _ (woke_kept _ _ _ _ _ Hw)).
  - apply Ho. by apply (rt_home _ _ _ _ _ _ Hr3 (uxPriority cc)).
Qed.
End Mutex.
