(* ===== verification/RtosQueueWitness.v ===== *)
(** * Concrete queues and a concrete mutex

    The hypotheses of the theorems of [RtosQueueSpec] and [RtosMutex] hold in
    states that the functions of queue.c reach from the kernel of
    [RtosWitness]; and states in which queue.c does not do what it means to. *)

From S2P Require Import Prelude RtosList RtosStore RtosTasks RtosSched RtosWake RtosWitness RtosQueue RtosQueueSpec RtosMutex.

#[local] Open Scope Z_scope.
#[local] Existing Instance demo.
#[local] Existing Instance demo_laws.

Definition qs_after {A} (m : M qs A) (s : qs) : qs := match m s with Ret (_, s') => s' | _ => s end.

(** Memory for the lists of a queue structure. *)
Definition add_list (L : Z) (k : kernel) : kernel :=
  with_mem (ListMem (<[xListEnd L := Item 0 0 0 0 0]> (items (mem k))) (<[L := ListHdr 0 0]> (lists (mem k)))) k.

Definition demo_q : Z := 0x3000.
Definition queue_view (k : kernel) : view := view_of (mem k) (demo_lists ++ [xTasksWaitingToSend demo_q; xTasksWaitingToReceive demo_q]).

(** [taskA] runs on CPU 0, [taskB] on CPU 1; there are 8 bytes for the users. *)
Definition demo_machine : qs :=
  Qs (add_list (xTasksWaitingToSend demo_q) (add_list (xTasksWaitingToReceive demo_q) (kernel_after (vTaskSwitchContext 0) demo_start)))
    ∅ (map_bytes 0x4000 [11; 12; 21; 22; 0; 0; 0; 0]).

(** A queue of three items of two bytes. *)
Definition demo_ring : qs := qs_after (xQueueGenericCreate 0 demo_q [0; 0; 0; 0; 0; 0] 3 2) demo_machine.
Definition demo_queue : Queue_t := Queue 0x3050 0x3056 0x3050 0x3054 0 3 2 false 0.

Lemma live_check m a n : Forall (fun x => is_Some (m !! x)) (seqZ a n) -> live_range m a n.
Proof. rewrite Forall_forall. intros H x Hx. apply H, elem_of_seqZ. exact Hx. Qed.

Lemma parked_empty k V L : is_Some (V !! L) -> L ∉ state_lists -> sq V L = [] -> parked k V L.
Proof. intros H1 H2 H3. split; [done|by apply not_state|]. intros x Hx. exact (empty_list _ _ _ _ H3 Hx). Qed.

Lemma demo_holds : holds demo_queue (ram demo_ring) [].
Proof.
  split; cbn; [clear; lia..|constructor|]. intros _. exists 2. split; cbn; [clear; lia..|vm_compute; reflexivity|vm_compute; reflexivity| |].
  - apply live_check. by_eval.
  - intros j it Hj. rewrite lookup_nil in Hj. discriminate Hj.
Qed.

Lemma demo_ring_idle core : is_core core -> idle core demo_q demo_ring (queue_view (qker demo_ring)) demo_queue [].
Proof.
  intros Hc. split.
  - check_wf.
  - apply cpus_check; by_eval.
  - destruct Hc as [->| ->]; vm_compute; reflexivity.
  - clear. discriminate.
  - vm_compute. reflexivity.
  - exact demo_holds.
  - reflexivity.
  - apply parked_empty; [by_eval|by_eval|vm_compute; reflexivity].
  - apply parked_empty; [by_eval|by_eval|vm_compute; reflexivity].
Qed.

Lemma buffer_check x m a : Forall (fun y => is_Some (m !! y) /\ ~ (pcHead x <= y < pcHead x + uxLength x * uxItemSize x)) (seqZ a (uxItemSize x)) -> a <> 0 -> buffer x m a.
Proof.
  rewrite Forall_forall. intros H Ha. split.
  - intros y Hy. apply H, elem_of_seqZ. exact Hy.
  - intros _. split; [done|]. intros y Hy. apply H, elem_of_seqZ. exact Hy.
Qed.

Definition demo_ops : list qop :=
  [Send 0x4000 queueSEND_TO_BACK; SendISR 0x4002 queueSEND_TO_FRONT; Receive (Some 0x4004) true; Send 0x4000 queueSEND_TO_BACK;
   SendISR 0x4000 queueSEND_TO_BACK; ReceiveISR (Some 0x4004); Spaces; Receive (Some 0x4006) false; Count; Reset_; PeekISR (Some 0x4004)].
Definition demo_results : list qres :=
  [RDone true; RDone true; RItem (Some [21; 22]); RDone true; RDone false; RItem (Some [21; 22]); RCount 1; RItem (Some [11; 12]); RCount 1; RDone true; RItem None].

Lemma demo_ops_valid : Forall (valid demo_queue (ram demo_ring)) demo_ops.
Proof.
  assert (B : forall a, a ∈ [0x4000; 0x4002; 0x4004; 0x4006] -> buffer demo_queue (ram demo_ring) a).
  { intros a Ha. apply buffer_check; [|intros ->; set_solver]. revert a Ha. apply Forall_forall. by_eval. }
  assert (P0 : position_ok demo_queue queueSEND_TO_BACK) by (left; reflexivity). assert (P1 : position_ok demo_queue queueSEND_TO_FRONT) by (right; left; reflexivity).
  unfold demo_ops. repeat (apply Forall_cons; split); cbn [valid buffer_ok]; try apply Forall_nil; try exact I;
    try (apply B; set_solver); try (split; [assumption|apply B; set_solver]).
  split; [apply B; set_solver|reflexivity].
Qed.

Lemma queue_refines_deque_witness :
  abs_ops 3 2 demo_ops ([], ram demo_ring) = (demo_results, ([], write_bytes (write_bytes (ram demo_ring) 0x4004 [21; 22]) 0x4006 [11; 12])) /\
  wp (do_ops 0 demo_q demo_ops)
     (fun rs s' => let '(rs', (items', c')) := abs_ops 3 2 demo_ops ([], ram demo_ring) in
        rs = rs' /\ exists V' x', idle 0 demo_q s' V' x' items' /\ same_shape demo_queue x' /\ agrees demo_queue (ram s') c') demo_ring.
Proof.
  split; [vm_compute; reflexivity|].
  apply (queue_refines_deque 0 demo_q demo_ring (queue_view (qker demo_ring)) demo_queue [] (ram demo_ring) demo_ops).
  - left. reflexivity.
  - apply demo_ring_idle. left. reflexivity.
  - intros a _. reflexivity.
  - exact demo_ops_valid.
Defined.

(** [taskA] waits 100 ticks on CPU 0 and goes on on CPU 1; CPU 1 sends. *)
Lemma receive_gets_sent_witness :
  wp (xQueueGenericReceive [Pause (mret tt) 0 (xQueueGenericSend [] 1 demo_q 0x4000 0 queueSEND_TO_BACK;; mret tt) 1] 0 demo_q (Some 0x4004) 100 false)
     (fun r s' => let item := [11; 12] in
        r = Some (Some item) /\ (forall a, Some 0x4004 = Some a -> read_bytes (ram s') a 2 = item)
        /\ exists V' x', idle 1 demo_q s' V' x' [] /\ xGenericListItem taskA ∈ sq V' (ready 5) /\ ~ linked V' (xEventListItem taskA)) demo_ring.
Proof.
  apply (receive_gets_sent 0 1 1 demo_q demo_ring (queue_view (qker demo_ring)) demo_queue taskA (TCB 5 tskNO_AFFINITY 5 0) (ready 5) 100 (Some 0x4004) 0x4000 queueSEND_TO_BACK).
  - left. reflexivity.
  - right. reflexivity.
  - right. reflexivity.
  - apply demo_ring_idle. left. reflexivity.
  - vm_compute. reflexivity.
  - vm_compute. reflexivity.
  - apply on_time_nil. vm_compute. reflexivity.
  - vm_compute. reflexivity.
  - vm_compute. reflexivity.
  - by_eval.
  - apply not_linked_check. by_eval.
  - discriminate.
  - unfold portMAX_DELAY. clear. lia.
  - assert (E : sq (queue_view (qker demo_ring)) (xTasksWaitingToReceive demo_q) = []) by (vm_compute; reflexivity). intros y Hy. exact (empty_list _ _ _ _ E Hy).
  - left. reflexivity.
  - apply buffer_check; [by_eval|discriminate].
  - apply buffer_check; [by_eval|discriminate].
Defined.

(** ** A mutex that [taskA] holds *)

Definition demo_taken : qs := qs_after (xQueueCreateMutex 0 demo_q;; xQueueGenericReceive [] 0 demo_q (Some 0) 0 false) demo_machine.
Definition demo_mutex : Queue_t := Queue 0 taskA demo_q 0 0 1 0 false 0.

Lemma demo_taken_mutex : mutex_at demo_q demo_taken (queue_view (qker demo_taken)) demo_mutex taskA.
Proof.
  split; [check_wf|apply cpus_check; by_eval|discriminate|vm_compute; reflexivity|reflexivity|reflexivity|reflexivity|reflexivity|reflexivity|reflexivity|..].
  - apply parked_empty; [by_eval|by_eval|vm_compute; reflexivity].
  - apply parked_empty; [by_eval|by_eval|vm_compute; reflexivity].
Qed.

(** [taskB] waits on CPU 1; [taskA] gives the mutex back on CPU 0. *)
Lemma mutex_lends_priority_witness :
  wp (xQueueGenericReceive [Pause (mret tt) 1 (mret tt) 1] 1 demo_q (Some 0) portMAX_DELAY false)
     (fun r s1 => r = None /\ exists V1,
        mutex_at demo_q s1 V1 demo_mutex taskA /\ tcbs (qker s1) !! taskA = Some (TCB 7 tskNO_AFFINITY 5 1) /\ xGenericListItem taskA ∈ sq V1 (ready 7)
        /\ xGenericListItem taskB ∈ sq V1 xSuspendedTaskList
        /\ wp (xQueueGenericSend [] 0 demo_q 0 0 queueSEND_TO_BACK)
              (fun r s2 => r = Some true /\ exists V2 x2,
                 mutex_at demo_q s2 V2 x2 0 /\ tcbs (qker s2) !! taskA = Some (TCB 5 tskNO_AFFINITY 5 0)
                 /\ xGenericListItem taskA ∈ sq V2 (ready 5) /\ xGenericListItem taskB ∈ sq V2 (ready 7) /\ ~ linked V2 (xEventListItem taskB)) s1) demo_taken.
Proof.
  refine (proj1 (mutex_lends_priority 1 0 demo_q demo_taken (queue_view (qker demo_taken)) demo_mutex taskA (TCB 5 tskNO_AFFINITY 5 1) taskB (TCB 7 1 7 0) (ready 7) portMAX_DELAY _ _ _ _ _ _ _ _ _ _ _ _ _ _ _ _ _ _ _)).
  - right. reflexivity.
  - left. reflexivity.
  - exact demo_taken_mutex.
  - vm_compute. reflexivity.
  - vm_compute. reflexivity.
  - apply on_time_nil. vm_compute. reflexivity.
  - vm_compute. reflexivity.
  - by_eval.
  - apply not_linked_check. by_eval.
  - cbn. clear. lia.
  - cbn. clear. lia.
  - cbn. clear. lia.
  - vm_compute. reflexivity.
  - vm_compute. reflexivity.
  - by_eval.
  - apply not_linked_check. by_eval.
  - assert (E : sq (queue_view (qker demo_taken)) (xTasksWaitingToReceive demo_q) = []) by (vm_compute; reflexivity). intros y Hy. exact (empty_list _ _ _ _ E Hy).
  - discriminate.
  - unfold portMAX_DELAY. clear. lia.
Defined.

(** ** Where the code falls short *)

(** The size of the items is computed with 32 bits: a queue of 2^31 items of
    two bytes is created without room for an item, and the first send writes
    behind the memory that was allocated. *)
Example create_overflows :
  malloc_size (2 ^ 31) 2 = sizeof_Queue_t /\
  match xQueueGenericCreate 0 demo_q [] (2 ^ 31) 2 demo_machine with
  | Ret (q, s) => q = demo_q /\ xQueueGenericSend [] 0 q 0x4000 0 queueSEND_TO_BACK s = Stuck OutOfBounds
  | Stuck _ => False
  end.
Proof. vm_compute. done. Qed.

(** Overwriting, which the assertion allows on any queue of length one, makes
    the count of a binary semaphore larger than its length. *)
Example overwrite_semaphore :
  match (xQueueGenericCreate 0 demo_q [] 1 0;; xQueueGenericSend [] 0 demo_q 0 0 queueOVERWRITE;; xQueueGenericSend [] 0 demo_q 0 0 queueOVERWRITE) demo_machine with
  | Ret (r, s) => r = Some true /\ (uxMessagesWaiting <$> queues s !! demo_q) = Some 2 /\ (uxLength <$> queues s !! demo_q) = Some 1
  | Stuck _ => False
  end.
Proof. vm_compute. done. Qed.

(** A counting semaphore for which there is no memory stops the program instead
    of returning a null handle. *)
Example counting_without_memory : xQueueCreateCountingSemaphore 0 0 5 5 demo_machine = Stuck AssertFailed.
Proof. reflexivity. Qed.
