(* ===== verification/RtosNotify.v ===== *)
(** * Task notifications, periodic delays and the state of a task (components/freertos/tasks.c)

    Each task has a notification value and a notification state; a task waits
    for a notification without an event list.  A wait is two critical sections
    with whatever happens while the task has given up the CPU between them, and
    is modelled as two functions.  All these functions are marked as untested
    in this port, and stop at an assertion when the configuration says so
    ([CONFIG_FREERTOS_ASSERT_ON_UNTESTED_FUNCTION], which it does by default,
    components/freertos/Kconfig:44); the theorems say what they do with either
    value of that option. *)

From S2P Require Import Prelude RtosList RtosStore RtosTasks RtosSched RtosWake.

#[local] Open Scope Z_scope.

(** ** Data *)

Inductive eNotifyValue : Type := eNotWaitingNotification | eWaitingNotification | eNotified.
Inductive eNotifyAction : Type := eNoAction | eSetBits | eIncrement | eSetValueWithOverwrite | eSetValueWithoutOverwrite.
Inductive eTaskState : Type := eRunning | eReady | eBlocked | eSuspended | eDeleted.

#[export] Instance eNotifyValue_eq_dec : EqDecision eNotifyValue.
Proof. solve_decision. Defined.

(** The fields of a task control block that only notifications use. *)
Record note : Type := Note { ulNotifiedValue : Z; eNotifyState : eNotifyValue }.

Record nstate : Type := NState { nker : kernel; notes : gmap Z note }.
Definition with_nker (k : kernel) (s : nstate) : nstate := NState k (notes s).
Definition with_notes (n : gmap Z note) (s : nstate) : nstate := NState (nker s) n.

Definition on_kernel {A} (m : M kernel A) : M nstate A := fun s =>
  match m (nker s) with Ret (a, k) => Ret (a, with_nker k s) | Stuck e => Stuck e end.
Definition note_of (t : Z) : M nstate note := s ← get; match notes s !! t with Some n => mret n | None => stuck NullDeref end.
Definition set_note (t : Z) (n : note) : M nstate unit := modify (fun s => with_notes (<[t := n]> (notes s)) s).
Definition set_notify_state (t : Z) (st : eNotifyValue) : M nstate unit := n ← note_of t; set_note t (Note (ulNotifiedValue n) st).
Definition set_notify_value (t v : Z) : M nstate unit := n ← note_of t; set_note t (Note v (eNotifyState n)).

Section Notify.
Context `{TaskLists} (CONFIG_FREERTOS_ASSERT_ON_UNTESTED_FUNCTION : bool).

Definition UNTESTED_FUNCTION {S} : M S unit := check (negb CONFIG_FREERTOS_ASSERT_ON_UNTESTED_FUNCTION).

(** ** Waiting *)

(** The current task gives up the CPU until it is notified or the time is over. *)
Definition wait_for_notification (core xTicksToWait : Z) : M nstate unit :=
  if 0 <? xTicksToWait then on_kernel (block_current core xTicksToWait);; on_kernel (request_ (Yield core)) else mret tt.

Definition ulTaskNotifyTake_enter (core xTicksToWait : Z) : M nstate unit :=
  UNTESTED_FUNCTION;;
  t ← on_kernel (current core);
  n ← note_of t;
  if ulNotifiedValue n =? 0 then
    set_notify_state t eWaitingNotification;;
    wait_for_notification core xTicksToWait
  else mret tt.

Definition ulTaskNotifyTake_exit (core : Z) (xClearCountOnExit : bool) : M nstate Z :=
  t ← on_kernel (current core);
  n ← note_of t;
  let ulReturn := ulNotifiedValue n in
  (if negb (ulReturn =? 0) then set_notify_value t (if xClearCountOnExit then 0 else u32 (ulReturn - 1)) else mret tt);;
  set_notify_state t eNotWaitingNotification;;
  mret ulReturn.

Definition xTaskNotifyWait_enter (core ulBitsToClearOnEntry xTicksToWait : Z) : M nstate unit :=
  UNTESTED_FUNCTION;;
  t ← on_kernel (current core);
  n ← note_of t;
  if bool_decide (eNotifyState n <> eNotified) then
    set_notify_value t (Z.ldiff (ulNotifiedValue n) ulBitsToClearOnEntry);;
    set_notify_state t eWaitingNotification;;
    wait_for_notification core xTicksToWait
  else mret tt.

(** The result and [*pulNotificationValue]. *)
Definition xTaskNotifyWait_exit (core ulBitsToClearOnExit : Z) : M nstate (bool * Z) :=
  t ← on_kernel (current core);
  n ← note_of t;
  xReturn ←
    (if bool_decide (eNotifyState n = eWaitingNotification) then mret false
     else set_notify_value t (Z.ldiff (ulNotifiedValue n) ulBitsToClearOnExit);; mret true);
  set_notify_state t eNotWaitingNotification;;
  mret (xReturn, ulNotifiedValue n).

(** ** Notifying *)

(** The [switch] over the actions. *)
Definition notify_action (t ulValue : Z) (eAction : eNotifyAction) (eOriginalNotifyState : eNotifyValue) : M nstate bool :=
  n ← note_of t;
  match eAction with
  | eSetBits => set_notify_value t (Z.lor (ulNotifiedValue n) ulValue);; mret true
  | eIncrement => set_notify_value t (u32 (ulNotifiedValue n + 1));; mret true
  | eSetValueWithOverwrite => set_notify_value t ulValue;; mret true
  | eSetValueWithoutOverwrite =>
      if bool_decide (eOriginalNotifyState <> eNotified) then set_notify_value t ulValue;; mret true else mret false
  | eNoAction => mret true
  end.

(** Is the task more urgent than the one that runs here?  If not, the other CPU is asked. *)
Definition notify_yield (core pxTCB : Z) : M kernel bool :=
  c ← tcb pxTCB;
  cur ← current core;
  cc ← tcb cur;
  if tskCAN_RUN_HERE core (xCoreID c) && (uxPriority cc <? uxPriority c) then mret true
  else if negb (xCoreID c =? core) then taskYIELD_OTHER_CORE core (xCoreID c) (uxPriority c);; mret false
  else mret false.

Definition not_on_event_list (pxTCB : Z) : M kernel unit := e ← on_mem (listLIST_ITEM_CONTAINER (xEventListItem pxTCB)); check (e =? 0).

Definition xTaskNotify (core xTaskToNotify ulValue : Z) (eAction : eNotifyAction) : M nstate bool :=
  UNTESTED_FUNCTION;;
  check (negb (xTaskToNotify =? 0));;
  n ← note_of xTaskToNotify;
  let eOriginalNotifyState := eNotifyState n in
  set_notify_state xTaskToNotify eNotified;;
  xReturn ← notify_action xTaskToNotify ulValue eAction eOriginalNotifyState;
  (if bool_decide (eOriginalNotifyState = eWaitingNotification) then
     on_kernel (on_mem (uxListRemove (xGenericListItem xTaskToNotify)));;
     on_kernel (prvAddTaskToReadyList xTaskToNotify);;
     on_kernel (not_on_event_list xTaskToNotify);;
     higher ← on_kernel (notify_yield core xTaskToNotify);
     if (higher : bool) then on_kernel (request_ (Yield core)) else mret tt
   else mret tt);;
  mret xReturn.
Definition xTaskNotifyGive (core xTaskToNotify : Z) : M nstate bool := xTaskNotify core xTaskToNotify 0 eIncrement.

(** A waiting task is made ready, or pending while the scheduler is suspended; is it more urgent? *)
Definition notify_wake_isr (core pxTCB : Z) : M kernel bool :=
  not_on_event_list pxTCB;;
  n ← suspended core;
  (if n =? 0 then
     on_mem (uxListRemove (xGenericListItem pxTCB));;
     prvAddTaskToReadyList pxTCB
   else on_mem (vListInsertEnd (pending core) (xEventListItem pxTCB)));;
  notify_yield core pxTCB.

(** The result and whether [*pxHigherPriorityTaskWoken] is set. *)
Definition xTaskNotifyFromISR (core xTaskToNotify ulValue : Z) (eAction : eNotifyAction) : M nstate (bool * bool) :=
  UNTESTED_FUNCTION;;
  check (negb (xTaskToNotify =? 0));;
  n ← note_of xTaskToNotify;
  let eOriginalNotifyState := eNotifyState n in
  set_notify_state xTaskToNotify eNotified;;
  xReturn ← notify_action xTaskToNotify ulValue eAction eOriginalNotifyState;
  woken ← (if bool_decide (eOriginalNotifyState = eWaitingNotification) then on_kernel (notify_wake_isr core xTaskToNotify) else mret false);
  mret (xReturn, woken).

Definition vTaskNotifyGiveFromISR (core xTaskToNotify : Z) : M nstate bool :=
  UNTESTED_FUNCTION;;
  check (negb (xTaskToNotify =? 0));;
  n ← note_of xTaskToNotify;
  set_notify_state xTaskToNotify eNotified;;
  set_notify_value xTaskToNotify (u32 (ulNotifiedValue n + 1));;
  if bool_decide (eNotifyState n = eWaitingNotification) then on_kernel (notify_wake_isr core xTaskToNotify) else mret false.

(** ** Periodic delays *)

(** [*pxPreviousWakeTime] before the call is an argument, after it the result. *)
Definition vTaskDelayUntil (core pxPreviousWakeTime xTimeIncrement : Z) : M kernel Z :=
  UNTESTED_FUNCTION;;
  check (0 <? xTimeIncrement);;
  n ← suspended core;
  check (n =? 0);;
  k ← get;
  let xConstTickCount := xTickCount k in
  let xTimeToWake := u32 (pxPreviousWakeTime + xTimeIncrement) in
  let xShouldDelay :=
    if xConstTickCount <? pxPreviousWakeTime then (xTimeToWake <? pxPreviousWakeTime) && (xConstTickCount <? xTimeToWake)
    else (xTimeToWake <? pxPreviousWakeTime) || (xConstTickCount <? xTimeToWake) in
  (if xShouldDelay then
     t ← current core;
     on_mem (uxListRemove (xGenericListItem t));;
     prvAddCurrentTaskToDelayedList core xTimeToWake
   else mret tt);;
  request_ (Yield core);;
  mret xTimeToWake.

(** ** The state of a task *)

Definition eTaskGetState (core xTask : Z) : M kernel eTaskState :=
  curTCB ← current core;
  UNTESTED_FUNCTION;;
  check (negb (xTask =? 0));;
  if xTask =? curTCB then mret eRunning
  else
    pxStateList ← on_mem (listLIST_ITEM_CONTAINER (xGenericListItem xTask));
    k ← get;
    if (pxStateList =? pxDelayedTaskList k) || (pxStateList =? pxOverflowDelayedTaskList k) then mret eBlocked
    else if pxStateList =? xSuspendedTaskList then
      e ← on_mem (listLIST_ITEM_CONTAINER (xEventListItem xTask));
      mret (if e =? 0 then eSuspended else eBlocked)
    else if pxStateList =? xTasksWaitingTermination then mret eDeleted
    else mret eReady.

Definition uxTaskPriorityGet (core xTask : Z) : M kernel Z := UNTESTED_FUNCTION;; t ← prvGetTCBFromHandle core xTask; c ← tcb t; mret (uxPriority c).
Definition uxTaskPriorityGetFromISR (core xTask : Z) : M kernel Z := t ← prvGetTCBFromHandle core xTask; c ← tcb t; mret (uxPriority c).
End Notify.

(** ** Specifications *)

Section Spec.
Context {T : TaskLists} {TL : TaskListsLaws T}.

Lemma wp_on_kernel {A} (m : M kernel A) (P : A -> nstate -> Prop) s : wp m (fun a k => P a (with_nker k s)) (nker s) -> wp (on_kernel m) P s.
Proof. unfold wp, on_kernel. by destruct (m (nker s)) as [[a k]|]. Qed.
Lemma wp_note t n (P : note -> nstate -> Prop) s : notes s !! t = Some n -> P n s -> wp (note_of t) P s.
Proof. intros E HP. unfold note_of. apply wp_bind, wp_get. rewrite E. by apply wp_ret. Qed.
Lemma wp_notify_state t n st (P : unit -> nstate -> Prop) s :
  notes s !! t = Some n -> P tt (with_notes (<[t := Note (ulNotifiedValue n) st]> (notes s)) s) -> wp (set_notify_state t st) P s.
Proof. intros E HP. unfold set_notify_state. apply wp_bind. eapply wp_note; [exact E|]. by apply wp_modify. Qed.
Lemma wp_notify_value t n v (P : unit -> nstate -> Prop) s :
  notes s !! t = Some n -> P tt (with_notes (<[t := Note v (eNotifyState n)]> (notes s)) s) -> wp (set_notify_value t v) P s.
Proof. intros E HP. unfold set_notify_value. apply wp_bind. eapply wp_note; [exact E|]. by apply wp_modify. Qed.
Lemma wp_untested {S} (P : unit -> S -> Prop) s : P tt s -> wp (UNTESTED_FUNCTION false) P s.
Proof. by apply wp_check. Qed.

(** The value after a notification of a task that has not been notified yet. *)
Definition notified_value (u : Z) (a : eNotifyAction) (v : Z) : Z :=
  match a with eNoAction => v | eSetBits => Z.lor v u | eIncrement => u32 (v + 1) | eSetValueWithOverwrite | eSetValueWithoutOverwrite => u end.

Lemma action_spec t n u a st s (P : bool -> nstate -> Prop) : notes s !! t = Some n -> st <> eNotified ->
  P true (with_notes (<[t := Note (notified_value u a (ulNotifiedValue n)) (eNotifyState n)]> (notes s)) s) -> wp (notify_action t u a st) P s.
Proof.
  intros E Hst HP. unfold notify_action. apply wp_bind. eapply wp_note; [exact E|].
  assert (Hset : forall v, P true (with_notes (<[t := Note v (eNotifyState n)]> (notes s)) s) -> wp (set_notify_value t v;; mret true) P s).
  { intros v Hv. apply wp_bind. eapply wp_notify_value; [exact E|]. by apply wp_ret. }
  destruct a; [|by apply Hset..|rewrite bool_decide_eq_true_2 by done; by apply Hset].
  apply wp_ret. cbn in HP. replace (Note (ulNotifiedValue n) (eNotifyState n)) with n in HP by (by destruct n). rewrite insert_id in HP by done. by destruct s.
Qed.

(** A task waits for a notification, with the value [v]. *)
Record waiting (t : Z) (c : TCB_t) (v : Z) (s : nstate) (V : view) : Prop := {
  wt_wf : wf (nker s) V;
  wt_cpus : cpus_ok (nker s);
  wt_task : tcbs (nker s) !! t = Some c;
  wt_linked : linked V (xGenericListItem t);
  wt_event : ~ linked V (xEventListItem t);
  wt_note : notes s !! t = Some (Note v eWaitingNotification)
}.

Lemma notify_yield_spec core t c k V : is_core core -> wf k V -> cpus_ok k -> tcbs k !! t = Some c ->
  wp (notify_yield core t) (fun _ k' => wf k' V /\ kept k k' /\ mem k' = mem k) k.
Proof.
  intros Hc HW Hcp Ht. pose proof Hcp as [Hcur Haff]. unfold notify_yield. apply wp_bind. eapply wp_tcb; [exact Ht|].
  apply wp_bind, wp_current; [apply HW|done|]. destruct (Hcur core Hc) as [cc Hcc]. apply wp_bind. eapply wp_tcb; [exact Hcc|].
  destruct (tskCAN_RUN_HERE core (xCoreID c) && (uxPriority cc <? uxPriority c)); [apply wp_ret; by split_and!|]. destruct (negb (xCoreID c =? core)).
  - apply wp_bind. eapply wp_mono; [apply (yield_other_spec _ _ _ _ V); try done; by eapply Haff|]. intros [] k' (r & -> & HW'). apply wp_ret. by split_and!.
  - apply wp_ret. by split_and!.
Qed.

Lemma no_event_spec t c k V (P : unit -> kernel -> Prop) : wf k V -> tcbs k !! t = Some c -> ~ linked V (xEventListItem t) -> P tt k -> wp (not_on_event_list t) P k.
Proof.
  intros HW Ht He HP. destruct (item_task _ _ _ _ HW Ht) as [_ Hl]. unfold not_on_event_list. apply wp_bind, wp_on_mem. eapply read_container.
  - apply (st_out _ _ (w_store _ _ HW)); [done|]. by eapply task_free; [exact HW|exact Ht|by right|].
  - rewrite with_mem_id. by apply wp_check.
Qed.

(** The task moves to the ready list of its priority. *)
Lemma make_ready_spec t c k V (P : unit -> kernel -> Prop) : wf k V -> tcbs k !! t = Some c -> linked V (xGenericListItem t) -> ~ linked V (xEventListItem t) ->
  (forall k' V', wf k' V' -> kept k k' -> xGenericListItem t ∈ sq V' (ready (uxPriority c)) -> ~ linked V' (xEventListItem t) -> P tt k') ->
  wp (on_mem (uxListRemove (xGenericListItem t))) (fun _ k1 => wp (prvAddTaskToReadyList t) P k1) k.
Proof.
  intros HW Ht [G Hg] He HP. destruct (w_tasks _ _ HW _ _ Ht) as (Hp & _). eapply wp_mono; [by eapply wf_remove|]. intros r k1 (_ & s1 & -> & Hs1 & HW1).
  set (V1 := view_remove G (xGenericListItem t) V) in *. assert (Hin1 : forall L' x, x ∈ sq V1 L' <-> x <> xGenericListItem t /\ x ∈ sq V L') by (intros L' x; unfold V1; by rewrite (sq_removed _ _ _ _ L' HW Hg), list_elem_of_filter).
  assert (Hn : ~ linked V1 (xGenericListItem t)) by (intros [L' Hx]; apply Hin1 in Hx; tauto).
  eapply wp_mono; [by eapply add_ready_spec|]. intros [] k2 (top & (s2 & -> & Hs2 & HW2) & _). destruct (is_Some_pair V1 (ready (uxPriority c))) as [i E]; [apply (w_lists _ _ HW1), state_ready; done|].
  eapply HP; [exact HW2|by split| |].
  - rewrite (sq_view_insert_end _ _ _ _ i E), decide_True by done. rewrite insert_before_perm. left.
  - intros [L' Hx]. rewrite (sq_view_insert_end _ _ _ _ i E) in Hx. case_decide as EL.
    + rewrite insert_before_perm, elem_of_cons in Hx. destruct Hx as [Hx|Hx]; [symmetry in Hx; by apply (gen_event _ _ _ _ _ _ HW Ht Ht) in Hx|].
      apply Hin1 in Hx as [_ Hx]. apply He. by exists (ready (uxPriority c)).
    + apply Hin1 in Hx as [_ Hx]. apply He. by exists L'.
Qed.

(** A notification by a task, or by an interrupt handler. *)
Definition notify (untested isr : bool) (core t u : Z) (a : eNotifyAction) : M nstate bool :=
  if isr then '(r, _) ← xTaskNotifyFromISR untested core t u a; mret r else xTaskNotify untested core t u a.

(** With the option the functions stop before they have done anything. *)
Lemma notify_untested isr core t u a s : notify true isr core t u a s = Stuck AssertFailed.
Proof. by destruct isr. Qed.

(** An interrupt handler that finds the scheduler of its CPU suspended leaves
    the task in the pending list of the CPU, for [xTaskResumeAll]. *)
Definition deferred (isr : bool) (core : Z) (k : kernel) : bool := isr && negb (susp k core =? 0).

(** The task is ready, or pending. *)
Definition woken (later : bool) (core t : Z) (c : TCB_t) (k : kernel) : Prop :=
  exists V, wf k V /\ if later then xEventListItem t ∈ sq V (pending core) /\ linked V (xGenericListItem t) else xGenericListItem t ∈ sq V (ready (uxPriority c)).

(** It is, and has been notified of [v]. *)
Definition notified (later : bool) (core t : Z) (c : TCB_t) (v : Z) (s : nstate) : Prop := woken later core t c (nker s) /\ notes s !! t = Some (Note v eNotified).

(** The event item of the task enters the pending list. *)
Lemma pend_spec core t c k V (P : unit -> kernel -> Prop) : wf k V -> tcbs k !! t = Some c -> linked V (xGenericListItem t) -> ~ linked V (xEventListItem t) -> is_Some (V !! pending core) -> ~ state_list (pending core) ->
  (forall k' V', wf k' V' -> kept k k' -> xEventListItem t ∈ sq V' (pending core) -> linked V' (xGenericListItem t) -> P tt k') -> wp (on_mem (vListInsertEnd (pending core) (xEventListItem t))) P k.
Proof.
  intros HW Ht [G Hg] He HL Hap HP. destruct (item_task _ _ _ _ HW Ht) as [_ Hl]. destruct (state_delayed _ _ HW) as [Hsd Hso]. destruct (is_Some_pair _ _ HL) as [i E].
  eapply wp_mono; [apply (wf_insert_end k V (pending core) (xEventListItem t) HW HL); [by eapply task_free; [exact HW|exact Ht|by right|]|done|congruence|congruence|]|].
  { intros p Hp Er. exfalso. apply Hap. rewrite Er. by apply state_ready. }
  intros [] k2 (s2 & -> & Hs2 & HW2). eapply HP; [exact HW2|by split| |].
  - rewrite (sq_view_insert_end _ _ _ _ i E), decide_True, insert_before_perm by done. left.
  - exists G. rewrite (sq_view_insert_end _ _ _ _ i E). case_decide as EL; [rewrite insert_before_perm, elem_of_cons; subst G; by right|done].
Qed.

Lemma wake_isr_spec core t c k V : is_core core -> wf k V -> cpus_ok k -> tcbs k !! t = Some c -> linked V (xGenericListItem t) -> ~ linked V (xEventListItem t) ->
  (susp k core <> 0 -> is_Some (V !! pending core) /\ ~ state_list (pending core)) ->
  wp (notify_wake_isr core t) (fun _ k' => woken (deferred true core k) core t c k') k.
Proof.
  intros Hc HW Hcp Ht Hg He Hs. unfold notify_wake_isr, deferred. apply wp_bind. eapply no_event_spec; [exact HW|exact Ht|exact He|]. apply wp_bind, wp_suspended; [apply HW|done|].
  assert (Hyield : forall k2 V2, wf k2 V2 -> kept k k2 -> wp (notify_yield core t) (fun _ k3 => wf k3 V2) k2).
  { intros k2 V2 HW2 K2. eapply wp_mono; [apply (notify_yield_spec core t c k2 V2 Hc HW2); [by eapply cpus_kept|by rewrite (kp_tcbs _ _ K2)]|]. by intros y k3 (HW3 & _ & _). }
  destruct (Z.eqb_spec (susp k core) 0) as [E0|E0]; cbn [andb negb]; apply wp_bind.
  - apply wp_bind. eapply make_ready_spec; [exact HW|exact Ht|exact Hg|exact He|]. intros k2 V2 HW2 K2 Hr2 He2. eapply wp_mono; [by apply Hyield|]. intros y k3 HW3. by exists V2.
  - destruct (Hs E0) as [HL Hap]. eapply pend_spec; [done..|]. intros k2 V2 HW2 K2 Hp2 Hg2. eapply wp_mono; [by apply Hyield|]. intros y k3 HW3. by exists V2.
Qed.

Lemma wake_now_spec core t c s V : is_core core -> wf (nker s) V -> cpus_ok (nker s) -> tcbs (nker s) !! t = Some c -> linked V (xGenericListItem t) -> ~ linked V (xEventListItem t) ->
  wp (on_kernel (on_mem (uxListRemove (xGenericListItem t)));; on_kernel (prvAddTaskToReadyList t);; on_kernel (not_on_event_list t);;
      higher ← on_kernel (notify_yield core t); if (higher : bool) then on_kernel (request_ (Yield core)) else mret tt)
     (fun _ s' => exists k' V', s' = with_nker k' s /\ wf k' V' /\ xGenericListItem t ∈ sq V' (ready (uxPriority c))) s.
Proof.
  intros Hc HW Hcp Ht Hg He. apply wp_bind, wp_on_kernel. set (P := fun (_ : unit) k2 => exists V2, wf k2 V2 /\ kept (nker s) k2 /\ xGenericListItem t ∈ sq V2 (ready (uxPriority c)) /\ ~ linked V2 (xEventListItem t)).
  eapply wp_mono; [apply (make_ready_spec t c (nker s) V P HW Ht Hg He); intros k2 V2; by exists V2|]. intros r1 k1 Hk1. apply wp_bind, wp_on_kernel. eapply wp_mono; [exact Hk1|].
  intros [] k2 (V2 & HW2 & K2 & Hr2 & He2). assert (Ht2 : tcbs k2 !! t = Some c) by (by rewrite (kp_tcbs _ _ K2)). apply wp_bind, wp_on_kernel. eapply no_event_spec; [exact HW2|exact Ht2|exact He2|].
  apply wp_bind, wp_on_kernel. eapply wp_mono; [apply (notify_yield_spec core t c k2 V2 Hc HW2); [by eapply cpus_kept|done]|]. intros y k3 (HW3 & _ & _).
  destruct y; [|apply wp_ret; by exists k3, V2]. apply wp_on_kernel. eapply wp_mono; [by apply wf_request|]. intros [] k4 [-> HW4]. by eexists _, V2.
Qed.

Lemma notify_spec isr core t c v u a s V : waiting t c v s V -> is_core core -> (deferred isr core (nker s) = true -> is_Some (V !! pending core) /\ ~ state_list (pending core)) ->
  wp (notify false isr core t u a) (fun r s' => r = true /\ notified (deferred isr core (nker s)) core t c (notified_value u a v) s') s.
Proof.
  intros [HW Hcp Ht Hg He Hn] Hc Hs. destruct (w_tasks _ _ HW _ _ Ht) as (_ & Ht0 & _). unfold notify.
  assert (Hbegin : forall B (k : note -> bool -> M nstate B) P, wp (k (Note v eWaitingNotification) true) P (with_notes (<[t := Note (notified_value u a v) eNotified]> (notes s)) s) ->
    wp (UNTESTED_FUNCTION false;; check (negb (t =? 0));; n ← note_of t; let st := eNotifyState n in set_notify_state t eNotified;; r ← notify_action t u a st; k n r) P s).
  { intros B k P Hk. apply wp_bind, wp_untested, wp_bind, wp_check; [by apply negb_true_iff, Z.eqb_neq|]. apply wp_bind. eapply wp_note; [exact Hn|]. apply wp_bind. eapply wp_notify_state; [exact Hn|].
    apply wp_bind. eapply action_spec; [cbn; by rewrite lookup_insert_eq|done|]. cbn. by rewrite insert_insert_eq. }
  assert (Hend : forall b k', woken b core t c k' -> notified b core t c (notified_value u a v) (with_nker k' (with_notes (<[t := Note (notified_value u a v) eNotified]> (notes s)) s))).
  { intros b k' Hw. split; [done|]. cbn. apply lookup_insert_eq. }
  destruct isr.
  - apply wp_bind. unfold xTaskNotifyFromISR. apply (Hbegin _ (fun n r => woken ← (if bool_decide (eNotifyState n = eWaitingNotification) then on_kernel (notify_wake_isr core t) else mret false); mret (r, woken))).
    apply wp_bind, wp_on_kernel. eapply wp_mono; [apply (wake_isr_spec core t c (nker s) V); try done; intros Hne; apply Hs; cbn; by apply negb_true_iff, Z.eqb_neq|]. intros y k3 Hw. apply wp_ret, wp_ret. split; [done|by apply Hend].
  - unfold xTaskNotify. apply (Hbegin _ (fun n r => (if bool_decide (eNotifyState n = eWaitingNotification) then
      on_kernel (on_mem (uxListRemove (xGenericListItem t)));; on_kernel (prvAddTaskToReadyList t);; on_kernel (not_on_event_list t);;
      higher ← on_kernel (notify_yield core t); if (higher : bool) then on_kernel (request_ (Yield core)) else mret tt else mret tt);; mret r)).
    apply wp_bind. eapply wp_mono; [by apply (wake_now_spec core t c (with_notes (<[t := Note (notified_value u a v) eNotified]> (notes s)) s) V)|].
    intros [] s' (k' & V' & -> & HW' & Hr'). apply wp_ret. split; [done|]. apply (Hend false). by exists V'.
Qed.

Lemma wait_enter_waits core t c v st entry ticks s V :
  is_core core -> wf (nker s) V -> on_time (nker s) V -> cpus_ok (nker s) -> cur (nker s) core = t -> tcbs (nker s) !! t = Some c ->
  xGenericListItem t ∈ sq V (ready (uxPriority c)) -> ~ linked V (xEventListItem t) -> notes s !! t = Some (Note v st) -> st <> eNotified -> 0 < ticks <= portMAX_DELAY ->
  wp (xTaskNotifyWait_enter false core entry ticks) (fun _ s' => exists k V', asleep t ticks (nker s) V k V' /\ nker s' = with_requests (requests k ++ [Yield core]) k /\ waiting t c (Z.ldiff v entry) s' V') s.
Proof.
  intros Hc HW Hon Hcp Hcur Ht Hg He Hn Hst Hticks. unfold xTaskNotifyWait_enter. apply wp_bind, wp_untested, wp_bind, wp_on_kernel, wp_current; [apply HW|done|]. rewrite Hcur.
  replace (with_nker (nker s) s) with s by (by destruct s). apply wp_bind. eapply wp_note; [exact Hn|]. cbn [eNotifyState ulNotifiedValue]. rewrite bool_decide_eq_true_2 by done.
  apply wp_bind. eapply wp_notify_value; [exact Hn|]. apply wp_bind. eapply wp_notify_state; [cbn; by rewrite lookup_insert_eq|]. cbn [ulNotifiedValue notes with_notes]. rewrite insert_insert_eq.
  unfold wait_for_notification. destruct (Z.ltb_spec 0 ticks); [|lia]. apply wp_bind, wp_on_kernel. cbn [nker with_notes].
  eapply wp_mono; [apply (block_current_spec core (nker s) V t c (ready (uxPriority c)) ticks); done|]. intros [] k1 (V1 & A1). apply wp_on_kernel.
  eapply wp_mono; [apply wf_request, A1|]. intros [] k2 [-> HW2]. exists k1, V1. split; [done|]. split; [done|]. pose proof (as_kept _ _ _ _ _ _ A1) as K1. split; cbn.
  - exact HW2.
  - eapply cpus_kept; [|exact Hcp]. destruct K1. by split.
  - by rewrite (kp_tcbs _ _ K1).
  - pose proof (as_sleeps _ _ _ _ _ _ A1) as Hs. destruct (ticks =? portMAX_DELAY); [by eexists|]. destruct Hs as [[Hs _]|[Hs _]]; by eexists.
  - intros [L' Hx]. apply He. exists L'. apply (as_in _ _ _ _ _ _ A1); [|done]. intros E. symmetry in E. by apply (gen_event _ _ _ _ _ _ HW Ht Ht) in E.
  - by rewrite lookup_insert_eq.
Qed.

Lemma wait_exit_result core t n ex s : is_core core -> arrays_ok (nker s) -> cur (nker s) core = t -> notes s !! t = Some n ->
  wp (xTaskNotifyWait_exit core ex) (fun r s' => let got := negb (bool_decide (eNotifyState n = eWaitingNotification)) in
    r = (got, ulNotifiedValue n) /\ nker s' = nker s /\ notes s' = <[t := Note (if got then Z.ldiff (ulNotifiedValue n) ex else ulNotifiedValue n) eNotWaitingNotification]> (notes s)) s.
Proof.
  intros Hc Ha Hcur Hn. unfold xTaskNotifyWait_exit. apply wp_bind, wp_on_kernel, wp_current; [done|done|]. rewrite Hcur. replace (with_nker (nker s) s) with s by (by destruct s).
  apply wp_bind. eapply wp_note; [exact Hn|]. case_bool_decide; cbn [negb].
  - apply wp_bind, wp_ret, wp_bind. eapply wp_notify_state; [exact Hn|]. by apply wp_ret.
  - apply wp_bind, wp_bind. eapply wp_notify_value; [exact Hn|]. apply wp_ret, wp_bind. eapply wp_notify_state; [cbn; by rewrite lookup_insert_eq|]. apply wp_ret. cbn. by rewrite insert_insert_eq.
Qed.

(** C20: without the option [CONFIG_FREERTOS_ASSERT_ON_UNTESTED_FUNCTION] a task
    that calls [xTaskNotifyWait] with nothing pending leaves the ready lists; a
    notification that comes while it waits, from a task or an interrupt handler
    of either CPU, succeeds, stores the value that the action asks for and puts
    the task into the ready list of its priority, or into the pending list of
    the CPU when an interrupt handler finds the scheduler suspended (if that
    list is initialised); when the task runs again, on whichever CPU, the call
    returns true with that value and has cleared the bits it was to clear, on
    entry and on exit.  If no notification came before it runs again, the call
    returns false.  With the option, which is on by default, the wait and the
    notification stop at the assertion of [UNTESTED_FUNCTION]. *)
Theorem notification_reaches_waiter (untested : bool) core t c v st entry ticks s V :
  is_core core -> wf (nker s) V -> on_time (nker s) V -> cpus_ok (nker s) -> cur (nker s) core = t -> tcbs (nker s) !! t = Some c ->
  xGenericListItem t ∈ sq V (ready (uxPriority c)) -> ~ linked V (xEventListItem t) -> notes s !! t = Some (Note v st) -> st <> eNotified -> 0 < ticks <= portMAX_DELAY ->
  let v' := Z.ldiff v entry in
  if untested then xTaskNotifyWait_enter untested core entry ticks s = Stuck AssertFailed /\ forall s2 isr core2 u a, notify untested isr core2 t u a s2 = Stuck AssertFailed
  else wp (xTaskNotifyWait_enter untested core entry ticks) (fun _ s1 =>
    (exists k V1, asleep t ticks (nker s) V k V1 /\ nker s1 = with_requests (requests k ++ [Yield core]) k /\ waiting t c v' s1 V1)
    /\ (forall s2 core2 ex, is_core core2 -> arrays_ok (nker s2) -> cur (nker s2) core2 = t -> notes s2 !! t = notes s1 !! t ->
          wp (xTaskNotifyWait_exit core2 ex) (fun r s3 => r = (false, v') /\ notes s3 !! t = Some (Note v' eNotWaitingNotification)) s2)
    /\ (forall s2 V2 c2 isr core2 u a, waiting t c2 v' s2 V2 -> is_core core2 -> (deferred isr core2 (nker s2) = true -> is_Some (V2 !! pending core2) /\ ~ state_list (pending core2)) ->
          wp (notify untested isr core2 t u a) (fun r s3 => r = true /\ notified (deferred isr core2 (nker s2)) core2 t c2 (notified_value u a v') s3
            /\ forall s4 core4 ex, is_core core4 -> arrays_ok (nker s4) -> cur (nker s4) core4 = t -> notes s4 !! t = notes s3 !! t ->
                 wp (xTaskNotifyWait_exit core4 ex) (fun r s5 => r = (true, notified_value u a v')
                   /\ notes s5 !! t = Some (Note (Z.ldiff (notified_value u a v') ex) eNotWaitingNotification)) s4) s2)) s.
Proof.
  intros Hc HW Hon Hcp Hcur Ht Hg He Hn Hst Hticks v'. destruct untested; [split; [done|by intros; apply notify_untested]|].
  eapply wp_mono; [by apply (wait_enter_waits core t c v st entry ticks s V)|]. intros [] s1 (k & V1 & A1 & E1 & W1). split_and!; [by exists k, V1| |].
  - intros s2 core2 ex Hc2 Ha2 Hcur2 Hn2. rewrite (wt_note _ _ _ _ _ W1) in Hn2. eapply wp_mono; [apply (wait_exit_result core2 t _ ex s2 Hc2 Ha2 Hcur2 Hn2)|]. intros r s3 (-> & _ & ->). split; [done|]. by rewrite lookup_insert_eq.
  - intros s2 V2 c2 isr core2 u a W2 Hc2 Hs2. eapply wp_mono; [apply (notify_spec isr core2 t c2 v' u a s2 V2 W2 Hc2 Hs2)|]. intros r s3 [-> Hd]. split_and!; [done|done|]. intros s4 core4 ex Hc4 Ha4 Hcur4 Hn4. rewrite (proj2 Hd) in Hn4.
    eapply wp_mono; [apply (wait_exit_result core4 t _ ex s4 Hc4 Ha4 Hcur4 Hn4)|]. intros r s5 (-> & _ & ->). split; [done|]. by rewrite lookup_insert_eq.
Qed.

(** ** Periodic delays *)

(** The test of [vTaskDelayUntil], at the time [N], for a task that last woke at [P]. *)
Lemma should_delay P N inc : P <= N < P + 2 ^ 32 -> 0 < inc < 2 ^ 32 ->
  (if u32 N <? u32 P then (u32 (P + inc) <? u32 P) && (u32 N <? u32 (P + inc)) else (u32 (P + inc) <? u32 P) || (u32 N <? u32 (P + inc))) = (N <? P + inc)
  /\ u32 (u32 P + inc) = u32 (P + inc).
Proof.
  intros HN Hi. split; [|unfold u32, wrap; apply Zplus_mod_idemp_l]. change (2 ^ 32) with 4294967296 in *. unfold u32, wrap. change (2 ^ 32) with 4294967296.
  pose proof (Z.div_mod P 4294967296 ltac:(lia)). pose proof (Z.mod_pos_bound P 4294967296 ltac:(lia)). pose proof (Z.div_mod N 4294967296 ltac:(lia)). pose proof (Z.mod_pos_bound N 4294967296 ltac:(lia)).
  pose proof (Z.div_mod (P + inc) 4294967296 ltac:(lia)). pose proof (Z.mod_pos_bound (P + inc) 4294967296 ltac:(lia)).
  destruct (Z.ltb_spec (N mod 4294967296) (P mod 4294967296)), (Z.ltb_spec ((P + inc) mod 4294967296) (P mod 4294967296)), (Z.ltb_spec (N mod 4294967296) ((P + inc) mod 4294967296)), (Z.ltb_spec N (P + inc)); cbn; lia.
Qed.

(** C35: without the option [CONFIG_FREERTOS_ASSERT_ON_UNTESTED_FUNCTION]
    [vTaskDelayUntil] keeps a period whatever the tick count and its overflow
    are: called with the scheduler running, at the time [N], less than 2^32
    ticks after the previous wake time [P], it returns [P] plus the period, and
    the task is in the ready list of its priority at exactly that time and not
    before, or goes on at once when that time is over.  With the option, which
    is on by default, it stops at the assertion of [UNTESTED_FUNCTION]. *)
Theorem delay_until_periodic (untested : bool) core k V t c P N inc :
  is_core core -> wf k V -> on_time k V -> susp k core = 0 -> susp k 0 = 0 -> is_Some (tcbs k !! cur k 0) ->
  cur k core = t -> tcbs k !! t = Some c -> xGenericListItem t ∈ sq V (ready (uxPriority c)) ->
  xTickCount k = u32 N -> P <= N < P + 2 ^ 32 -> 0 < inc < 2 ^ 32 ->
  if untested then vTaskDelayUntil untested core (u32 P) inc k = Stuck AssertFailed
  else wp (vTaskDelayUntil untested core (u32 P) inc) (fun r k1 => r = u32 (P + inc) /\
    if P + inc <=? N then k1 = with_requests (requests k ++ [Yield core]) k
    else forall j, 0 <= j <= P + inc - N ->
      wp (ticks (Z.to_nat j)) (fun _ k2 => exists V2, wf k2 V2 /\ on_time k2 V2
        /\ if N + j <? P + inc then remaining k2 V2 t (P + inc - (N + j)) else xGenericListItem t ∈ sq V2 (ready (uxPriority c))) k1) k.
Proof.
  intros Hc HW Hon Hs Hs0 Hcur0 Hcur Ht Hg Htk HN Hi. destruct untested; [done|]. destruct (should_delay P N inc HN Hi) as [Hsd Hw]. unfold vTaskDelayUntil. apply wp_bind, wp_untested, wp_bind, wp_check; [apply Z.ltb_lt; lia|].
  apply wp_bind, wp_suspended; [apply HW|done|]. rewrite Hs. apply wp_bind, wp_check; [done|]. apply wp_bind, wp_get. rewrite Htk, Hw. cbv zeta. rewrite Hsd.
  destruct (Z.ltb_spec N (P + inc)), (Z.leb_spec (P + inc) N); try lia; apply wp_bind.
  - apply wp_bind, wp_current; [apply HW|done|]. rewrite Hcur. apply wp_bind.
    assert (Ew : u32 (P + inc) = u32 (xTickCount k + (P + inc - N))) by (rewrite Htk; unfold u32, wrap; rewrite Zplus_mod_idemp_l; f_equal; lia). rewrite Ew.
    eapply wp_mono; [eapply (sleep_spec core k V t c _ (P + inc - N) (fun _ k' => exists s' u V', k' = with_unblock u (with_mem s' k) /\ wf k' V' /\ on_time k' V' /\ remaining k' V' t (P + inc - N))); try done; [lia|]|].
    { intros s' u V' k' H1 H2 H3 _ _ _ _. by exists s', u, V'. }
    intros r k1 Hk1. eapply wp_mono; [exact Hk1|]. intros [] k2 (s' & u & V' & -> & HW2 & Hon2 & Hr2). apply wp_bind. eapply wp_mono; [apply wf_request; exact HW2|]. intros [] k3 [-> HW3]. apply wp_ret.
    split; [done|]. intros j Hj. eapply wp_mono; [apply (ticks_spec _ _ V' t c (P + inc - N) HW3); try done; rewrite ?Z2Nat.id; lia|]. rewrite Z2Nat.id by lia.
    intros [] k' (V2 & H1 & H2 & H3). exists V2. split_and!; [done|done|]. destruct (Z.ltb_spec j (P + inc - N)), (Z.ltb_spec (N + j) (P + inc)); try lia; [|done].
    by replace (P + inc - (N + j)) with (P + inc - N - j) by lia.
  - apply wp_ret, wp_bind. eapply wp_mono; [by apply wf_request|]. intros [] k2 [-> _]. by apply wp_ret.
Qed.
End Spec.
