(* ===== verification/RtosNotifyWitness.v ===== *)
(** * A concrete notification and a concrete period

    The hypotheses of the theorems of [RtosNotify] hold in the kernel of
    [RtosWitness]; runs of the model show a notification across the CPUs, and
    what becomes of a task that waits for one for ever. *)

From S2P Require Import Prelude RtosList RtosStore RtosTasks RtosSched RtosWake RtosWitness RtosNotify.

#[local] Open Scope Z_scope.
#[local] Existing Instance demo.
#[local] Existing Instance demo_laws.

(** [taskA] runs on CPU 0 and has not been notified. *)
Definition demo_notes : nstate := NState demo_late {[ taskA := Note 0xf0 eNotWaitingNotification ]}.

Lemma late_cpus : cpus_ok (nker demo_notes).
Proof. apply cpus_check; by_eval. Qed.

Lemma notification_reaches_waiter_witness :
  wp (xTaskNotifyWait_enter false 0 0x30 100) (fun _ s1 =>
    (exists k V1, asleep taskA 100 demo_late (demo_view demo_late) k V1 /\ nker s1 = with_requests (requests k ++ [Yield 0]) k /\ waiting taskA (TCB 5 tskNO_AFFINITY 5 0) 0xc0 s1 V1)
    /\ (forall s2 core2 ex, is_core core2 -> arrays_ok (nker s2) -> cur (nker s2) core2 = taskA -> notes s2 !! taskA = notes s1 !! taskA ->
          wp (xTaskNotifyWait_exit core2 ex) (fun r s3 => r = (false, 0xc0) /\ notes s3 !! taskA = Some (Note 0xc0 eNotWaitingNotification)) s2)
    /\ (forall s2 V2 c2 isr core2 u a, waiting taskA c2 0xc0 s2 V2 -> is_core core2 -> (deferred isr core2 (nker s2) = true -> is_Some (V2 !! pending core2) /\ ~ state_list (pending core2)) ->
          wp (notify false isr core2 taskA u a) (fun r s3 => r = true /\ notified (deferred isr core2 (nker s2)) core2 taskA c2 (notified_value u a 0xc0) s3
            /\ forall s4 core4 ex, is_core core4 -> arrays_ok (nker s4) -> cur (nker s4) core4 = taskA -> notes s4 !! taskA = notes s3 !! taskA ->
                 wp (xTaskNotifyWait_exit core4 ex) (fun r s5 => r = (true, notified_value u a 0xc0)
                   /\ notes s5 !! taskA = Some (Note (Z.ldiff (notified_value u a 0xc0) ex) eNotWaitingNotification)) s4) s2)) demo_notes.
Proof.
  apply (notification_reaches_waiter false 0 taskA (TCB 5 tskNO_AFFINITY 5 0) 0xf0 eNotWaitingNotification 0x30 100 demo_notes (demo_view demo_late)).
  - by left.
  - exact demo_late_wf.
  - apply on_time_nil. vm_compute. reflexivity.
  - exact late_cpus.
  - vm_compute. reflexivity.
  - vm_compute. reflexivity.
  - by_eval.
  - apply not_linked_check. by_eval.
  - reflexivity.
  - discriminate.
  - unfold portMAX_DELAY. lia.
Defined.

(** Two ticks after the wake-up before, a period of ten ends behind the overflow. *)
Lemma delay_until_periodic_witness :
  wp (vTaskDelayUntil false 0 (2 ^ 32 - 5) 10) (fun r k1 => r = 5 /\
    forall j, 0 <= j <= 8 ->
      wp (ticks (Z.to_nat j)) (fun _ k2 => exists V2, wf k2 V2 /\ on_time k2 V2
        /\ if 2 ^ 32 - 3 + j <? 2 ^ 32 - 5 + 10 then remaining k2 V2 taskA (2 ^ 32 - 5 + 10 - (2 ^ 32 - 3 + j)) else xGenericListItem taskA ∈ sq V2 (ready 5)) k1) demo_late.
Proof.
  apply (delay_until_periodic false 0 demo_late (demo_view demo_late) taskA (TCB 5 tskNO_AFFINITY 5 0) (2 ^ 32 - 5) (2 ^ 32 - 3) 10).
  - by left.
  - exact demo_late_wf.
  - apply on_time_nil. vm_compute. reflexivity.
  - vm_compute. reflexivity.
  - vm_compute. reflexivity.
  - vm_compute. eexists. reflexivity.
  - vm_compute. reflexivity.
  - vm_compute. reflexivity.
  - by_eval.
  - vm_compute. reflexivity.
  - lia.
  - lia.
Defined.

Definition nstate_after {A} (m : M nstate A) (s : nstate) : nstate := match m s with Ret (_, s') => s' | _ => s end.

(** [taskA] waits, [taskB] on CPU 1 gives twice, [taskA] is ready and takes both. *)
Definition demo_given : nstate :=
  nstate_after (ulTaskNotifyTake_enter false 0 100;; on_kernel (vTaskSwitchContext 0);; xTaskNotifyGive false 1 taskA;; xTaskNotifyGive false 1 taskA;; on_kernel (vTaskSwitchContext 0))
    (NState demo_late {[ taskA := Note 0 eNotWaitingNotification ]}).
Example gives_are_counted :
  cur (nker demo_given) 0 = taskA /\ notes demo_given !! taskA = Some (Note 2 eNotified)
  /\ ulTaskNotifyTake_exit 0 false demo_given = Ret (2, with_notes {[ taskA := Note 1 eNotWaitingNotification ]} demo_given).
Proof. vm_compute. done. Qed.

(** A task that waits for ever for a notification is in the suspended list and
    in no event list: it counts as suspended, [vTaskResume] wakes it, and its
    wait reports a time-out. *)
Definition demo_forever : nstate :=
  nstate_after (xTaskNotifyWait_enter false 0 0 portMAX_DELAY;; on_kernel (vTaskSwitchContext 0)) demo_notes.
Example forever_is_suspended : exists k, eTaskGetState false 0 taskA (nker demo_forever) = Ret (eSuspended, k).
Proof. eexists. vm_compute. reflexivity. Qed.
Example resume_ends_wait :
  exists s, (on_kernel (vTaskResume 1 taskA);; on_kernel (vTaskSwitchContext 0);; xTaskNotifyWait_exit 0 0) demo_forever = Ret ((false, 0xf0), s) /\ cur (nker s) 0 = taskA.
Proof. eexists. split; vm_compute; reflexivity. Qed.
