(* ===== verification/RtosTimers.v ===== *)
(** * Software timers (components/freertos/timers.c)

    One task, the timer service, keeps the timers that run in two lists sorted
    by the tick at which they expire: those that expire before the tick count
    overflows, and those that expire after it.  Everybody else sends it
    commands through a queue.

    What the service uses of the kernel is the class [TimerKernel]: the tick
    count, the queue of commands, suspending and resuming the scheduler,
    waiting, and the functions of the application that it calls.  These are
    recorded in [calls].  The lists are those of [RtosList]; the message is
    four words, of which a timer command uses three. *)

From S2P Require Import Prelude RtosList.

#[local] Open Scope Z_scope.

(** ** Data *)

Record Timer_t : Type := Timer {
  pcTimerName : Z;
  xTimerPeriodInTicks : Z;
  uxAutoReload : Z;
  pvTimerID : Z;
  pxCallbackFunction : Z
}.
(** [&pxTimer->xTimerListItem] *)
Definition xTimerListItem (pxTimer : Z) : Z := pxTimer + 4.

Definition set_period (v : Z) (t : Timer_t) : Timer_t := Timer (pcTimerName t) v (uxAutoReload t) (pvTimerID t) (pxCallbackFunction t).

(** The union of the message begins at [word1]. *)
Record DaemonTaskMessage_t : Type := Message { xMessageID : Z; word1 : Z; word2 : Z; word3 : Z }.
Definition xMessageValue (m : DaemonTaskMessage_t) : Z := word1 m.
Definition pxTimer_of (m : DaemonTaskMessage_t) : Z := word2 m.

(** What the service does that others see: it calls the function of a timer,
    with the timer, or a function that was pended, or blocks. *)
Inductive tcall : Type := TimerCallback (f pxTimer : Z) | PendedCall (f pvParameter1 ulParameter2 : Z) | BlockedFor (xTicksToWait : Z).

Definition tmrCOMMAND_EXECUTE_CALLBACK_FROM_ISR : Z := -2.
Definition tmrCOMMAND_EXECUTE_CALLBACK : Z := -1.
Definition tmrCOMMAND_START_DONT_TRACE : Z := 0.
Definition tmrCOMMAND_START : Z := 1.
Definition tmrCOMMAND_RESET : Z := 2.
Definition tmrCOMMAND_STOP : Z := 3.
Definition tmrCOMMAND_CHANGE_PERIOD : Z := 4.
Definition tmrCOMMAND_DELETE : Z := 5.
Definition tmrFIRST_FROM_ISR_COMMAND : Z := 6.
Definition tmrCOMMAND_START_FROM_ISR : Z := 6.
Definition tmrCOMMAND_RESET_FROM_ISR : Z := 7.
Definition tmrCOMMAND_STOP_FROM_ISR : Z := 8.
Definition tmrCOMMAND_CHANGE_PERIOD_FROM_ISR : Z := 9.
Definition tmrNO_DELAY : Z := 0.

(** The kernel as timers.c uses it.  A queue is known by its handle;
    [tk_send] returns [None] while the caller still waits for room. *)
Class TimerKernel (Q : Type) := {
  tk_ticks : M Q Z;
  tk_running : M Q bool;
  tk_create : M Q Z;
  tk_send : Z -> DaemonTaskMessage_t -> Z -> M Q (option bool);
  tk_send_isr : Z -> DaemonTaskMessage_t -> M Q (bool * bool);
  tk_receive : Z -> M Q (option DaemonTaskMessage_t);
  tk_wait : Z -> Z -> M Q unit;
  tk_suspend_all : M Q unit;
  tk_resume_all : M Q bool;
  tk_yield : M Q unit;
  tk_call : tcall -> M Q unit
}.

Record tstate (Q : Type) : Type := TState {
  tmem : list_mem;
  timers : gmap Z Timer_t;
  xTimerQueue : Z;
  pxCurrentTimerList : Z;
  pxOverflowTimerList : Z;
  xLastTime : Z;
  tker : Q;
  calls : list tcall
}.
Arguments TState {Q}. Arguments tmem {Q}. Arguments timers {Q}. Arguments xTimerQueue {Q}. Arguments pxCurrentTimerList {Q}.
Arguments pxOverflowTimerList {Q}. Arguments xLastTime {Q}. Arguments tker {Q}. Arguments calls {Q}.

Section Timers.
Context {Q : Type} `{TimerKernel Q} (xActiveTimerList1 xActiveTimerList2 : Z).
Implicit Type s : tstate Q.

Definition with_tmem v s : tstate Q := TState v (timers s) (xTimerQueue s) (pxCurrentTimerList s) (pxOverflowTimerList s) (xLastTime s) (tker s) (calls s).
Definition with_timers v s : tstate Q := TState (tmem s) v (xTimerQueue s) (pxCurrentTimerList s) (pxOverflowTimerList s) (xLastTime s) (tker s) (calls s).
Definition with_tqueue v s : tstate Q := TState (tmem s) (timers s) v (pxCurrentTimerList s) (pxOverflowTimerList s) (xLastTime s) (tker s) (calls s).
Definition with_tlists c o s : tstate Q := TState (tmem s) (timers s) (xTimerQueue s) c o (xLastTime s) (tker s) (calls s).
Definition with_last v s : tstate Q := TState (tmem s) (timers s) (xTimerQueue s) (pxCurrentTimerList s) (pxOverflowTimerList s) v (tker s) (calls s).
Definition with_tker v s : tstate Q := TState (tmem s) (timers s) (xTimerQueue s) (pxCurrentTimerList s) (pxOverflowTimerList s) (xLastTime s) v (calls s).
Definition with_call c s : tstate Q := TState (tmem s) (timers s) (xTimerQueue s) (pxCurrentTimerList s) (pxOverflowTimerList s) (xLastTime s) (tker s) (calls s ++ [c]).

Definition on_lists {A} (m : M list_mem A) : M (tstate Q) A := fun s =>
  match m (tmem s) with Ret (a, l) => Ret (a, with_tmem l s) | Stuck e => Stuck e end.
Definition on_ker {A} (m : M Q A) : M (tstate Q) A := fun s =>
  match m (tker s) with Ret (a, k) => Ret (a, with_tker k s) | Stuck e => Stuck e end.
(** The timer at an address; one that was freed is not there any more. *)
Definition timer (t : Z) : M (tstate Q) Timer_t := s ← get; match timers s !! t with Some x => mret x | None => stuck NullDeref end.
Definition set_timer (t : Z) (x : Timer_t) : M (tstate Q) unit := modify (fun s => with_timers (<[t := x]> (timers s)) s).
Definition tinsert (L n : Z) : M (tstate Q) unit := s ← get; on_lists (vListInsert (size (items (tmem s))) L n).
(** A function of the application is called. *)
Definition invoke (c : tcall) : M (tstate Q) unit := modify (with_call c);; on_ker (tk_call c).

(** ** The API *)

Definition prvCheckForValidListAndQueue : M (tstate Q) unit :=
  s ← get;
  if xTimerQueue s =? 0 then
    on_lists (vListInitialise xActiveTimerList1);;
    on_lists (vListInitialise xActiveTimerList2);;
    modify (with_tlists xActiveTimerList1 xActiveTimerList2);;
    q ← on_ker tk_create;
    modify (with_tqueue q);;
    check (negb (q =? 0))
  else mret tt.

(** [created] is the result of [xTaskCreatePinnedToCore]. *)
Definition xTimerCreateTimerTask (created : bool) : M (tstate Q) bool :=
  prvCheckForValidListAndQueue;;
  s ← get;
  let xReturn := if xTimerQueue s =? 0 then false else created in
  check xReturn;;
  mret xReturn.

(** [p] is what [pvPortMalloc] returns, [garbage] what is in the list item there. *)
Definition xTimerCreate (p : Z) (garbage : ListItem_t) (pcTimerName xTimerPeriodInTicks uxAutoReload pvTimerID pxCallbackFunction : Z) : M (tstate Q) Z :=
  if xTimerPeriodInTicks =? 0 then check false;; mret 0
  else if p =? 0 then mret 0
  else
    prvCheckForValidListAndQueue;;
    set_timer p (Timer pcTimerName xTimerPeriodInTicks uxAutoReload pvTimerID pxCallbackFunction);;
    modify (fun s => with_tmem (ListMem (<[xTimerListItem p := garbage]> (items (tmem s))) (lists (tmem s))) s);;
    on_lists (vListInitialiseItem (xTimerListItem p));;
    mret p.

(** [junk] is the last word of the message, which is not set.  The result is
    that of the send and, from an interrupt, whether a task was woken. *)
Definition xTimerGenericCommand (xTimer xCommandID xOptionalValue xTicksToWait junk : Z) : M (tstate Q) (option bool * bool) :=
  s ← get;
  if xTimerQueue s =? 0 then mret (Some false, false)
  else
    let xMessage := Message xCommandID xOptionalValue xTimer junk in
    if xCommandID <? tmrFIRST_FROM_ISR_COMMAND then
      running ← on_ker tk_running;
      r ← on_ker (tk_send (xTimerQueue s) xMessage (if (running : bool) then xTicksToWait else tmrNO_DELAY));
      mret (r, false)
    else
      '(r, woken) ← on_ker (tk_send_isr (xTimerQueue s) xMessage);
      mret (Some r, woken).

(** The macros of timers.h. *)
Definition xTimerStart (xTimer xTicksToWait junk : Z) : M (tstate Q) (option bool * bool) :=
  now ← on_ker tk_ticks; xTimerGenericCommand xTimer tmrCOMMAND_START now xTicksToWait junk.
Definition xTimerStop (xTimer xTicksToWait junk : Z) : M (tstate Q) (option bool * bool) := xTimerGenericCommand xTimer tmrCOMMAND_STOP 0 xTicksToWait junk.
Definition xTimerDelete (xTimer xTicksToWait junk : Z) : M (tstate Q) (option bool * bool) := xTimerGenericCommand xTimer tmrCOMMAND_DELETE 0 xTicksToWait junk.
Definition xTimerReset (xTimer xTicksToWait junk : Z) : M (tstate Q) (option bool * bool) :=
  now ← on_ker tk_ticks; xTimerGenericCommand xTimer tmrCOMMAND_RESET now xTicksToWait junk.
Definition xTimerChangePeriod (xTimer xNewPeriod xTicksToWait junk : Z) : M (tstate Q) (option bool * bool) :=
  xTimerGenericCommand xTimer tmrCOMMAND_CHANGE_PERIOD xNewPeriod xTicksToWait junk.
Definition xTimerStartFromISR (xTimer junk : Z) : M (tstate Q) (option bool * bool) :=
  now ← on_ker tk_ticks; xTimerGenericCommand xTimer tmrCOMMAND_START_FROM_ISR now 0 junk.
Definition xTimerStopFromISR (xTimer junk : Z) : M (tstate Q) (option bool * bool) := xTimerGenericCommand xTimer tmrCOMMAND_STOP_FROM_ISR 0 0 junk.
Definition xTimerChangePeriodFromISR (xTimer xNewPeriod junk : Z) : M (tstate Q) (option bool * bool) :=
  xTimerGenericCommand xTimer tmrCOMMAND_CHANGE_PERIOD_FROM_ISR xNewPeriod 0 junk.
Definition xTimerResetFromISR (xTimer junk : Z) : M (tstate Q) (option bool * bool) :=
  now ← on_ker tk_ticks; xTimerGenericCommand xTimer tmrCOMMAND_RESET_FROM_ISR now 0 junk.

(** The timer service sends itself a command and asserts that there was room. *)
Definition reload (pxTimer xTime : Z) : M (tstate Q) unit :=
  '(xResult, _) ← xTimerGenericCommand pxTimer tmrCOMMAND_START_DONT_TRACE xTime tmrNO_DELAY 0;
  check (match xResult with Some true => true | _ => false end).

Definition pcTimerGetTimerName (xTimer : Z) : M (tstate Q) Z := t ← timer xTimer; mret (pcTimerName t).
Definition pvTimerGetTimerID (xTimer : Z) : M (tstate Q) Z := t ← timer xTimer; mret (pvTimerID t).
Definition xTimerIsTimerActive (xTimer : Z) : M (tstate Q) bool :=
  timer xTimer;;
  b ← on_lists (listIS_CONTAINED_WITHIN 0 (xTimerListItem xTimer));
  mret (negb b).

Definition xTimerPendFunctionCall (xFunctionToPend pvParameter1 ulParameter2 xTicksToWait : Z) : M (tstate Q) (option bool) :=
  s ← get;
  check (negb (xTimerQueue s =? 0));;
  on_ker (tk_send (xTimerQueue s) (Message tmrCOMMAND_EXECUTE_CALLBACK xFunctionToPend pvParameter1 ulParameter2) xTicksToWait).

Definition xTimerPendFunctionCallFromISR (xFunctionToPend pvParameter1 ulParameter2 : Z) : M (tstate Q) (bool * bool) :=
  s ← get;
  on_ker (tk_send_isr (xTimerQueue s) (Message tmrCOMMAND_EXECUTE_CALLBACK_FROM_ISR xFunctionToPend pvParameter1 ulParameter2)).

(** ** The timer service *)

Definition prvInsertTimerInActiveList (pxTimer xNextExpiryTime xTimeNow xCommandTime : Z) : M (tstate Q) bool :=
  t ← timer pxTimer;
  on_lists (listSET_LIST_ITEM_VALUE (xTimerListItem pxTimer) xNextExpiryTime);;
  on_lists (listSET_LIST_ITEM_OWNER (xTimerListItem pxTimer) pxTimer);;
  s ← get;
  if xNextExpiryTime <=? xTimeNow then
    if xTimerPeriodInTicks t <=? u32 (xTimeNow - xCommandTime) then mret true
    else tinsert (pxOverflowTimerList s) (xTimerListItem pxTimer);; mret false
  else if (xTimeNow <? xCommandTime) && (xCommandTime <=? xNextExpiryTime) then mret true
  else tinsert (pxCurrentTimerList s) (xTimerListItem pxTimer);; mret false.

(** Every timer of the current list has expired. *)
Fixpoint switch_loop (fuel : nat) : M (tstate Q) unit :=
  s ← get;
  let L := pxCurrentTimerList s in
  empty ← on_lists (listLIST_IS_EMPTY L);
  if (empty : bool) then mret tt
  else
    match fuel with
    | O => stuck OutOfFuel
    | S fuel =>
        xNextExpireTime ← on_lists (listGET_ITEM_VALUE_OF_HEAD_ENTRY L);
        pxTimer ← on_lists (listGET_OWNER_OF_HEAD_ENTRY L);
        on_lists (uxListRemove (xTimerListItem pxTimer));;
        t ← timer pxTimer;
        invoke (TimerCallback (pxCallbackFunction t) pxTimer);;
        t ← timer pxTimer;
        (if uxAutoReload t =? 1 then
           let xReloadTime := u32 (xNextExpireTime + xTimerPeriodInTicks t) in
           if xNextExpireTime <? xReloadTime then
             on_lists (listSET_LIST_ITEM_VALUE (xTimerListItem pxTimer) xReloadTime);;
             on_lists (listSET_LIST_ITEM_OWNER (xTimerListItem pxTimer) pxTimer);;
             tinsert L (xTimerListItem pxTimer)
           else reload pxTimer xNextExpireTime
         else mret tt);;
        switch_loop fuel
    end.

Definition prvSwitchTimerLists (fuel : nat) : M (tstate Q) unit :=
  switch_loop fuel;;
  modify (fun s => with_tlists (pxOverflowTimerList s) (pxCurrentTimerList s) s).

Definition prvSampleTimeNow (fuel : nat) : M (tstate Q) (Z * bool) :=
  xTimeNow ← on_ker tk_ticks;
  s ← get;
  switched ← (if xTimeNow <? xLastTime s then prvSwitchTimerLists fuel;; mret true else mret false);
  modify (with_last xTimeNow);;
  mret (xTimeNow, switched).

Definition prvGetNextExpireTime : M (tstate Q) (Z * bool) :=
  s ← get;
  empty ← on_lists (listLIST_IS_EMPTY (pxCurrentTimerList s));
  if (empty : bool) then mret (0, true)
  else v ← on_lists (listGET_ITEM_VALUE_OF_HEAD_ENTRY (pxCurrentTimerList s)); mret (v, false).

Definition prvProcessExpiredTimer (xNextExpireTime xTimeNow : Z) : M (tstate Q) unit :=
  s ← get;
  pxTimer ← on_lists (listGET_OWNER_OF_HEAD_ENTRY (pxCurrentTimerList s));
  on_lists (uxListRemove (xTimerListItem pxTimer));;
  t ← timer pxTimer;
  (if uxAutoReload t =? 1 then
     again ← prvInsertTimerInActiveList pxTimer (u32 (xNextExpireTime + xTimerPeriodInTicks t)) xTimeNow xNextExpireTime;
     if (again : bool) then reload pxTimer xNextExpireTime else mret tt
   else mret tt);;
  t ← timer pxTimer;
  invoke (TimerCallback (pxCallbackFunction t) pxTimer).

Definition prvProcessTimerOrBlockTask (fuel : nat) (xNextExpireTime : Z) (xListWasEmpty : bool) : M (tstate Q) unit :=
  on_ker tk_suspend_all;;
  '(xTimeNow, switched) ← prvSampleTimeNow fuel;
  if (switched : bool) then on_ker tk_resume_all;; mret tt
  else if negb xListWasEmpty && (xNextExpireTime <=? xTimeNow) then
    on_ker tk_resume_all;;
    prvProcessExpiredTimer xNextExpireTime xTimeNow
  else
    s ← get;
    modify (with_call (BlockedFor (u32 (xNextExpireTime - xTimeNow))));;
    on_ker (tk_wait (xTimerQueue s) (u32 (xNextExpireTime - xTimeNow)));;
    yielded ← on_ker tk_resume_all;
    if (yielded : bool) then mret tt else on_ker tk_yield.

(** The [switch] over the commands, at [xTimeNow]. *)
Definition run_command (xMessage : DaemonTaskMessage_t) (xTimeNow : Z) : M (tstate Q) unit :=
  let pxTimer := pxTimer_of xMessage in
  let id := xMessageID xMessage in
  if (id =? tmrCOMMAND_START) || (id =? tmrCOMMAND_START_FROM_ISR) || (id =? tmrCOMMAND_RESET) || (id =? tmrCOMMAND_RESET_FROM_ISR) || (id =? tmrCOMMAND_START_DONT_TRACE) then
    t ← timer pxTimer;
    expired ← prvInsertTimerInActiveList pxTimer (u32 (xMessageValue xMessage + xTimerPeriodInTicks t)) xTimeNow (xMessageValue xMessage);
    if (expired : bool) then
      invoke (TimerCallback (pxCallbackFunction t) pxTimer);;
      t ← timer pxTimer;
      if uxAutoReload t =? 1 then reload pxTimer (u32 (xMessageValue xMessage + xTimerPeriodInTicks t)) else mret tt
    else mret tt
  else if (id =? tmrCOMMAND_STOP) || (id =? tmrCOMMAND_STOP_FROM_ISR) then mret tt
  else if (id =? tmrCOMMAND_CHANGE_PERIOD) || (id =? tmrCOMMAND_CHANGE_PERIOD_FROM_ISR) then
    t ← timer pxTimer;
    set_timer pxTimer (set_period (xMessageValue xMessage) t);;
    check (0 <? xMessageValue xMessage);;
    prvInsertTimerInActiveList pxTimer (u32 (xTimeNow + xMessageValue xMessage)) xTimeNow xTimeNow;;
    mret tt
  else if id =? tmrCOMMAND_DELETE then modify (fun s => with_timers (delete pxTimer (timers s)) s)
  else mret tt.

(** One message. *)
Definition process_message (fuel : nat) (xMessage : DaemonTaskMessage_t) : M (tstate Q) unit :=
  if xMessageID xMessage <? 0 then invoke (PendedCall (word1 xMessage) (word2 xMessage) (word3 xMessage))
  else
    let pxTimer := pxTimer_of xMessage in
    timer pxTimer;;
    out ← on_lists (listIS_CONTAINED_WITHIN 0 (xTimerListItem pxTimer));
    (if (out : bool) then mret tt else on_lists (uxListRemove (xTimerListItem pxTimer));; mret tt);;
    '(xTimeNow, _) ← prvSampleTimeNow fuel;
    run_command xMessage xTimeNow.

(** The loop over the messages; [false] while there are more than [rounds]. *)
Fixpoint prvProcessReceivedCommands (fuel rounds : nat) : M (tstate Q) bool :=
  s ← get;
  match rounds with
  | O => mret false
  | S rounds =>
      m ← on_ker (tk_receive (xTimerQueue s));
      match m with
      | None => mret true
      | Some xMessage => process_message fuel xMessage;; prvProcessReceivedCommands fuel rounds
      end
  end.

(** One round of [prvTimerTask]. *)
Definition timer_task_round (fuel rounds : nat) : M (tstate Q) bool :=
  '(xNextExpireTime, xListWasEmpty) ← prvGetNextExpireTime;
  prvProcessTimerOrBlockTask fuel xNextExpireTime xListWasEmpty;;
  prvProcessReceivedCommands fuel rounds.
End Timers.
