(* ===== verification/RtosTimerSpec.v ===== *)
(** * The lists of the timer service as a map of due times

    Time is a number of ticks that never overflows; the tick count is that
    number modulo 2^32.  The two lists of 32-bit ticks of [RtosTimers] are a map
    from the timers that run to the times at which they expire ([held]), and
    the list operations of the service are updates of that map.  The file also
    states the laws of a kernel under the service ([TimerKernelLaws]) and what it
    is for the service to run to its end unless a condition fails ([safe]). *)

From stdpp Require Import sorting.
From S2P Require Import Prelude RtosList RtosStore RtosTimers.

#[local] Open Scope Z_scope.

(** ** Time *)

(** The latest time up to [n] at which the tick count was [v]. *)
Definition past (n v : Z) : Z := n - u32 (n - v).

Lemma u32_eq x : u32 x = x mod 4294967296.
Proof. reflexivity. Qed.

Lemma past_spec n v : 0 <= v < 4294967296 -> past n v <= n < past n v + 4294967296 /\ u32 (past n v) = v.
Proof.
  intros Hv. unfold past. pose proof (u32_range (n - v)) as Hr. change (2 ^ 32) with 4294967296 in Hr. split; [lia|]. rewrite !u32_eq.
  rewrite Zminus_mod_idemp_r. replace (n - (n - v)) with v by lia. by apply Z.mod_small.
Qed.

Lemma past_u32 n c : c <= n < c + 4294967296 -> past n (u32 c) = c.
Proof. intros Hc. unfold past. rewrite !u32_eq, Zminus_mod_idemp_r, Z.mod_small; lia. Qed.

(** Within a period the order of the ticks is the order of the times. *)
Lemma same_period_le d d' : d / 4294967296 = d' / 4294967296 -> u32 d <= u32 d' -> d <= d'.
Proof. intros E. rewrite !u32_eq. pose proof (Z.div_mod d 4294967296 ltac:(lia)). pose proof (Z.div_mod d' 4294967296 ltac:(lia)). lia. Qed.

Lemma later_period_le d d' q : d / 4294967296 = q -> d' / 4294967296 = q + 1 -> d <= d'.
Proof.
  intros E E'. pose proof (Z.div_mod d 4294967296 ltac:(lia)). pose proof (Z.div_mod d' 4294967296 ltac:(lia)).
  pose proof (Z.mod_pos_bound d 4294967296 ltac:(lia)). pose proof (Z.mod_pos_bound d' 4294967296 ltac:(lia)). lia.
Qed.

(** The tests of [prvInsertTimerInActiveList] for a timer of period [P] that
    was started at [c], seen at [n]: they find out whether it has expired, and
    in which period of the tick count it does. *)
Lemma expiry_tests n c P :
  c <= n < c + 4294967296 -> 0 < P < 4294967296 ->
  if u32 (c + P) <=? u32 n then (P <=? u32 (u32 n - u32 c)) = (c + P <=? n) /\ (n < c + P -> (c + P) / 4294967296 = n / 4294967296 + 1)
  else (u32 n <? u32 c) && (u32 c <=? u32 (c + P)) = (c + P <=? n) /\ (n < c + P -> (c + P) / 4294967296 = n / 4294967296).
Proof.
  intros Hc HP. rewrite (u32_eq (u32 n - u32 c)), !(u32_eq n), !(u32_eq c), !(u32_eq (c + P)), <- Zminus_mod, (Z.mod_small (n - c)) by lia.
  pose proof (Z.div_mod n 4294967296 ltac:(lia)) as En. pose proof (Z.div_mod c 4294967296 ltac:(lia)) as Ec. pose proof (Z.div_mod (c + P) 4294967296 ltac:(lia)) as Ee.
  pose proof (Z.mod_pos_bound n 4294967296 ltac:(lia)) as Rn. pose proof (Z.mod_pos_bound c 4294967296 ltac:(lia)) as Rc. pose proof (Z.mod_pos_bound (c + P) 4294967296 ltac:(lia)) as Re.
  set (qn := n / 4294967296) in *. set (qc := c / 4294967296) in *. set (qe := (c + P) / 4294967296) in *. set (rn := n mod 4294967296) in *. set (rc := c mod 4294967296) in *. set (re := (c + P) mod 4294967296) in *.
  clearbody qn qc qe rn rc re. destruct (Z.leb_spec re rn).
  - split; [|lia]. destruct (Z.leb_spec P (n - c)), (Z.leb_spec (c + P) n); lia.
  - split; [|lia]. destruct (Z.ltb_spec rn rc), (Z.leb_spec rc re), (Z.leb_spec (c + P) n); cbn; lia.
Qed.

(** ** The laws of the kernel

    [clock] is the time, [inbox] the commands in the queue with handle
    [handle], which there is in a kernel that is [fine] and which is yet to be
    created in one that is [unmade].  The service runs from one of its handlers to the next without
    interruption: time passes and commands arrive in the functions
    that it calls and where it resumes the scheduler or waits.

    [space] is the number of commands for which the queue has room: a send
    fails only when there is none.  Others send at most [busy] commands while
    the service is in one of those functions.  The queue is created if there is
    memory for it ([can_create]). *)
Class TimerKernelLaws (Q : Type) `{TimerKernel Q} := {
  clock : Q -> Z;
  unmade : Q -> Prop;
  can_create : Q -> Prop;
  inbox : Q -> list DaemonTaskMessage_t;
  space : Q -> Z;
  busy : Z;
  fine : Q -> Prop;
  handle : Z;
  handle_null : handle <> 0;
  busy_nonneg : 0 <= busy;
  create_law : forall k, unmade k ->
    wp tk_create (fun r k' => (r = 0 /\ k' = k /\ ~ can_create k) \/ (r = handle /\ fine k' /\ clock k' = clock k /\ inbox k' = [])) k;
  ticks_law : forall k, fine k -> wp tk_ticks (fun r k' => r = u32 (clock k) /\ k' = k) k;
  running_law : forall k, fine k -> wp tk_running (fun _ k' => k' = k) k;
  send_law : forall k m, fine k ->
    wp (tk_send handle m tmrNO_DELAY) (fun r k' => (r = Some false /\ k' = k /\ space k <= 0)
      \/ (r = Some true /\ fine k' /\ clock k' = clock k /\ inbox k' = inbox k ++ [m] /\ space k' = space k - 1)) k;
  receive_law : forall k, fine k ->
    wp (tk_receive handle) (fun r k' => fine k' /\ clock k' = clock k /\ inbox k = match r with Some m => m :: inbox k' | None => [] end
      /\ (r = None -> inbox k' = []) /\ space k <= space k') k;
  suspend_law : forall k, fine k -> wp tk_suspend_all (fun _ k' => fine k' /\ clock k' = clock k /\ inbox k' = inbox k /\ space k' = space k) k;
  call_law : forall k c, fine k -> wp (tk_call c) (fun _ k' => fine k' /\ clock k <= clock k' /\ (exists ex, inbox k' = inbox k ++ ex) /\ space k - busy <= space k') k;
  resume_law : forall k, fine k -> wp tk_resume_all (fun _ k' => fine k' /\ clock k <= clock k' /\ (exists ex, inbox k' = inbox k ++ ex) /\ space k - busy <= space k') k;
  wait_law : forall k n, fine k -> wp (tk_wait handle n) (fun _ k' => fine k' /\ clock k <= clock k' /\ (exists ex, inbox k' = inbox k ++ ex) /\ space k - busy <= space k') k;
  yield_law : forall k, fine k -> wp tk_yield (fun _ k' => fine k' /\ clock k <= clock k' /\ (exists ex, inbox k' = inbox k ++ ex) /\ space k - busy <= space k') k
}.

(** ** Runs that return under a condition *)

(** [m] returns and establishes [Q] whenever [G] holds; otherwise it does so
    too, or stops at an assertion. *)
Definition safe {S A} (G : Prop) (m : M S A) (Q : A -> S -> Prop) (s : S) : Prop :=
  match m s with Ret (a, s') => Q a s' | Stuck e => e = AssertFailed /\ ~ G end.

Section Safe.
Context {S : Type} {G : Prop}.
Lemma safe_wp {A} (m : M S A) Q s : wp m Q s -> safe G m Q s.
Proof. unfold wp, safe. by destruct (m s). Qed.
Lemma safe_bind {A B} (m : M S A) (k : A -> M S B) Q s : safe G m (fun a s' => safe G (k a) Q s') s -> safe G (m ≫= k) Q s.
Proof. unfold safe, mbind, M_bind. by destruct (m s) as [[a s']|]. Qed.
Lemma safe_ret {A} (a : A) (Q : A -> S -> Prop) s : Q a s -> safe G (mret a) Q s.
Proof. done. Qed.
Lemma safe_mono {A} (m : M S A) (P Q : A -> S -> Prop) s : safe G m P s -> (forall a s', P a s' -> Q a s') -> safe G m Q s.
Proof. unfold safe. destruct (m s) as [[a s']|]; auto. Qed.
(** A step that does not stop, and the rest. *)
Lemma safe_step {A B} (m : M S A) (k : A -> M S B) Q s : wp m (fun a s' => safe G (k a) Q s') s -> safe G (m ≫= k) Q s.
Proof. intros Hm. by apply safe_bind, safe_wp. Qed.
Lemma safe_check b (Q : unit -> S -> Prop) s : (G -> b = true) -> (b = true -> Q tt s) -> safe G (check b) Q s.
Proof. intros HG HQ. unfold check. destruct b; [by apply HQ|]. split; [done|]. intros g. by specialize (HG g). Qed.
(** Under the condition it is a run that returns. *)
Lemma safe_returns {A} (m : M S A) Q s : G -> safe G m Q s -> wp m Q s.
Proof. unfold wp, safe. intros g. destruct (m s) as [[a s']|]; [done|]. by intros [_ []]. Qed.
End Safe.

(** ** The lists and the map of due times *)

Lemma item_inj t t' : xTimerListItem t = xTimerListItem t' -> t = t'.
Proof. unfold xTimerListItem. lia. Qed.

Lemma elem_item t (ts : list Z) : xTimerListItem t ∈ xTimerListItem <$> ts <-> t ∈ ts.
Proof. rewrite list_elem_of_fmap. split; [intros (t' & E & Hin); apply item_inj in E; by subst|intros Hin; by exists t]. Qed.

Lemma filter_item t (ts : list Z) : filter (fun x => x <> xTimerListItem t) (xTimerListItem <$> ts) = xTimerListItem <$> filter (fun t' => t' <> t) ts.
Proof.
  induction ts as [|t' ts IH]; [done|]. cbn [fmap list_fmap]. rewrite !filter_cons. destruct (decide (t' = t)) as [->|Hne].
  - rewrite !decide_False by naive_solver. exact IH.
  - rewrite decide_True by (intros E; apply item_inj in E; done). rewrite decide_True by done. cbn. by rewrite IH.
Qed.

Lemma sorted_by_filter {B} (R : B -> B -> Prop) (P : B -> Prop) `{!forall x, Decision (P x)} (l : list B) : StronglySorted R l -> StronglySorted R (filter P l).
Proof.
  induction 1 as [|x l Hl IH Hx]; [constructor|]. rewrite filter_cons. case_decide; [|done]. constructor; [done|]. apply Forall_forall. intros y Hy. apply list_elem_of_filter in Hy as [_ Hy].
  by eapply Forall_forall in Hx.
Qed.

(** Order by [f], kept where [f] is. *)
Lemma sorted_in (f g : Z -> Z) (l : list Z) : (forall x, x ∈ l -> g x = f x) -> StronglySorted (fun x y => f x <= f y) l -> StronglySorted (fun x y => g x <= g y) l.
Proof.
  intros E H. induction H as [|x l Hl IH Hx]; constructor; [apply IH; set_solver|]. apply Forall_forall. intros y Hy. eapply Forall_forall in Hx; [|exact Hy]. cbn in Hx.
  rewrite !E by set_solver. done.
Qed.

Lemma same_items_key m m' x : same_items m m' -> key m' x = key m x.
Proof. intros S. unfold key. by rewrite (si_value _ _ S). Qed.

(** A new item in a list of timers that is sorted. *)
Lemma sorted_insert_items f t (ts : list Z) : exists ts', sorted_insert f (xTimerListItem t) (xTimerListItem <$> ts) = xTimerListItem <$> ts' /\ forall t', t' ∈ ts' <-> t' = t \/ t' ∈ ts.
Proof.
  induction ts as [|u ts (ts' & E & Hin)]; cbn [fmap list_fmap sorted_insert].
  - exists [t]. split; [done|]. set_solver.
  - case_match.
    + exists (u :: ts'). split; [by cbn; f_equal|]. intros t'. rewrite !elem_of_cons, Hin. tauto.
    + exists (t :: u :: ts). split; [done|]. intros t'. by rewrite elem_of_cons.
Qed.

(** The current list for [false], the other for [true]. *)
Definition pick (C O : Z) (b : bool) : Z := if b then O else C.

(** The lists [C] and [O] hold the timers [A] that run, with their due times;
    those of [C] are due in the period [q] of the tick count, those of [O] in
    the next one. *)
Record held (q : Z) (m : list_mem) (T : gmap Z Timer_t) (C O : Z) (A : gmap Z Z) (V : view) : Prop := {
  h_store : store m V;
  h_lists : forall b, exists (ts : list Z) i, V !! pick C O b = Some (xTimerListItem <$> ts, i)
              /\ (forall t, t ∈ ts <-> exists d, A !! t = Some d /\ d / 4294967296 = q + Z.b2z b)
              /\ StronglySorted (fun x y => key m x <= key m y) (xTimerListItem <$> ts);
  h_ne : C <> O;
  h_only : forall l, is_Some (V !! l) -> exists b, l = pick C O b;
  h_timer : forall t x, T !! t = Some x -> is_Some (items m !! xTimerListItem t) /\ 0 < xTimerPeriodInTicks x < 4294967296 /\ forall b, xTimerListItem t <> xListEnd (pick C O b);
  h_due : forall t d, A !! t = Some d -> (exists b, d / 4294967296 = q + Z.b2z b) /\ value m (xTimerListItem t) = Some (u32 d) /\ owner m (xTimerListItem t) = Some t /\ is_Some (T !! t)
}.

Section Held.
Context (q : Z) (m : list_mem) (T : gmap Z Timer_t) (C O : Z) (A : gmap Z Z) (V : view) (K : held q m T C O A V).

Lemma pick_ne b b' : b <> b' -> pick C O b <> pick C O b'.
Proof. pose proof (h_ne _ _ _ _ _ _ _ K). destruct b, b'; cbn; congruence. Qed.

(** A timer that does not run is in no list. *)
Lemma held_free t x : T !! t = Some x -> A !! t = None -> free V (xTimerListItem t).
Proof.
  intros Ht HA l xs i Hl. destruct (h_timer _ _ _ _ _ _ _ K t x Ht) as (_ & _ & Hm). destruct (h_only _ _ _ _ _ _ _ K l ltac:(by eexists)) as [b ->].
  destruct (h_lists _ _ _ _ _ _ _ K b) as (ts & j & E & Hin & _). rewrite E in Hl. injection Hl as <- <-. rewrite elem_of_cons, elem_item, Hin.
  intros [Ec|(d & Ed & _)]; [by apply (Hm b)|congruence].
Qed.

Lemma held_container t x : T !! t = Some x -> exists c, container m (xTimerListItem t) = Some c /\ (c =? 0) = bool_decide (A !! t = None).
Proof.
  intros Ht. pose proof (h_store _ _ _ _ _ _ _ K) as HS. destruct (A !! t) as [d|] eqn:Ed.
  - destruct (h_due _ _ _ _ _ _ _ K t d Ed) as ([b Hb] & _). destruct (h_lists _ _ _ _ _ _ _ K b) as (ts & j & E & Hin & _). exists (pick C O b). split.
    + eapply store_container; [exact HS|exact E|]. apply elem_item, Hin. by exists d.
    + apply Z.eqb_neq. intros E0. rewrite E0, (st_null _ _ HS) in E. done.
  - exists 0. split; [|done]. apply (st_out _ _ HS); [by apply (h_timer _ _ _ _ _ _ _ K t x)|by eapply held_free].
Qed.

Lemma held_within t x (Q : bool -> list_mem -> Prop) : T !! t = Some x -> Q (bool_decide (A !! t = None)) m -> wp (listIS_CONTAINED_WITHIN 0 (xTimerListItem t)) Q m.
Proof. intros Ht HQ. destruct (held_container t x Ht) as (c & E & Eb). eapply read_within; [exact E|]. by rewrite Eb. Qed.

(** One list of the view is new, the values and owners are not. *)
Lemma held_update m' b (ts : list Z) i A' :
  same_items m m' -> store m' (<[pick C O b := (xTimerListItem <$> ts, i)]> V) ->
  (forall t, t ∈ ts <-> exists d, A' !! t = Some d /\ d / 4294967296 = q + Z.b2z b) ->
  (forall t d, d / 4294967296 = q + Z.b2z (negb b) -> A' !! t = Some d <-> A !! t = Some d) ->
  StronglySorted (fun x y => key m' x <= key m' y) (xTimerListItem <$> ts) ->
  (forall t d, A' !! t = Some d -> (exists b, d / 4294967296 = q + Z.b2z b) /\ value m (xTimerListItem t) = Some (u32 d) /\ owner m (xTimerListItem t) = Some t /\ is_Some (T !! t)) ->
  held q m' T C O A' (<[pick C O b := (xTimerListItem <$> ts, i)]> V).
Proof.
  intros SI HS Hts Hoth Hsort Hdue. destruct (h_lists _ _ _ _ _ _ _ K b) as (ts0 & i0 & E0 & _). split; [done| |apply K| | |].
  - intros b'. destruct (decide (b' = b)) as [->|Hne].
    + exists ts, i. rewrite lookup_insert_eq. done.
    + destruct (h_lists _ _ _ _ _ _ _ K b') as (ts' & i' & E' & Hin' & Hs'). exists ts', i'. rewrite lookup_insert_ne by (apply pick_ne; congruence). split_and!; [done| |].
      * intros t. rewrite Hin'. assert (b' = negb b) as -> by (destruct b, b'; done). split; intros (d & Ed & Eq); exists d; (split; [by apply Hoth|done]).
      * eapply sorted_in; [|exact Hs']. intros x _. by apply same_items_key.
  - intros l Hl. apply (h_only _ _ _ _ _ _ _ K). destruct (decide (pick C O b = l)) as [<-|]; [by rewrite E0|]. by rewrite lookup_insert_ne in Hl.
  - intros t x Ht. destruct (h_timer _ _ _ _ _ _ _ K t x Ht) as (H1 & H2). split; [by apply (si_live _ _ SI)|done].
  - intros t d Ed. rewrite (si_value _ _ SI), (si_owner _ _ SI). by apply Hdue.
Qed.

(** ** Operations *)

Lemma held_remove t d : A !! t = Some d ->
  wp (uxListRemove (xTimerListItem t)) (fun _ m' => same_items m m' /\ exists V', held q m' T C O (delete t A) V') m.
Proof.
  intros Ed. destruct (h_due _ _ _ _ _ _ _ K t d Ed) as ([b Hb] & _). destruct (h_lists _ _ _ _ _ _ _ K b) as (ts & j & E & Hin & Hs).
  eapply wp_mono; [eapply store_remove; [apply K|exact E|]; apply elem_item, Hin; by exists d|]. intros r m' (_ & HS & SI). split; [done|]. eexists.
  unfold view_remove in HS. rewrite E, filter_item in HS. eapply held_update; [exact SI|exact HS|..].
  - intros t'. rewrite list_elem_of_filter, Hin. split.
    + intros [Hne (d' & E' & Eq)]. exists d'. by rewrite lookup_delete_ne by done.
    + intros (d' & [Hne E']%lookup_delete_Some & Eq). split; [congruence|]. by exists d'.
  - intros t' d' Eq. rewrite lookup_delete_Some. split; [naive_solver|]. intros E'. split; [|done]. intros <-. rewrite Ed in E'. injection E' as <-. destruct b; cbn in *; lia.
  - rewrite <- filter_item. apply sorted_by_filter. eapply sorted_in; [|exact Hs]. intros x _. by apply same_items_key.
  - intros t' d' [Hne E']%lookup_delete_Some. by apply (h_due _ _ _ _ _ _ _ K).
Qed.

Lemma held_insert b t x d : T !! t = Some x -> A !! t = None -> value m (xTimerListItem t) = Some (u32 d) -> owner m (xTimerListItem t) = Some t -> d / 4294967296 = q + Z.b2z b ->
  wp (vListInsert (size (items m)) (pick C O b) (xTimerListItem t)) (fun _ m' => same_items m m' /\ exists V', held q m' T C O (<[t := d]> A) V') m.
Proof.
  intros Ht HA Hv Ho Hd. destruct (h_lists _ _ _ _ _ _ _ K b) as (ts & j & E & Hin & Hs).
  eapply wp_mono; [eapply store_insert; [apply K|exact E|by eapply held_free|by apply (h_timer _ _ _ _ _ _ _ K t x)]|]. intros _ m' (HS & SI). split; [done|].
  unfold view_insert in HS. rewrite E in HS. destruct (sorted_insert_items (key m) t ts) as (ts' & E' & Hin'). pose proof (sorted_insert_sorted (key m) (xTimerListItem t) _ Hs) as Hs'. rewrite E' in HS, Hs'.
  eexists. eapply held_update; [exact SI|exact HS|..].
  - intros t'. rewrite Hin', Hin. split.
    + intros [->|(d' & Ed & Eq)]; [exists d; by rewrite lookup_insert_eq|]. exists d'. rewrite lookup_insert_ne by congruence. done.
    + intros (d' & Ed & Eq). destruct (decide (t = t')) as [->|Hne]; [by left|right]. exists d'. by rewrite lookup_insert_ne in Ed.
  - intros t' d' Eq. destruct (decide (t = t')) as [<-|Hne]; [|by rewrite lookup_insert_ne]. rewrite lookup_insert_eq, HA. split; [|done]. intros [= <-]. destruct b; cbn in *; lia.
  - eapply sorted_in; [|exact Hs']. intros y _. by apply same_items_key.
  - intros t' d' Ed. destruct (decide (t = t')) as [<-|Hne].
    + rewrite lookup_insert_eq in Ed. injection Ed as <-. split_and!; [by exists b|done|done|by rewrite Ht].
    + rewrite lookup_insert_ne in Ed by done. by apply (h_due _ _ _ _ _ _ _ K).
Qed.

(** The new due time of a timer that does not run. *)
Lemma held_set t x v : T !! t = Some x -> A !! t = None -> 0 <= v < 4294967296 ->
  wp (listSET_LIST_ITEM_VALUE (xTimerListItem t) v;; listSET_LIST_ITEM_OWNER (xTimerListItem t) t)
     (fun _ m' => held q m' T C O A V /\ value m' (xTimerListItem t) = Some v /\ owner m' (xTimerListItem t) = Some t) m.
Proof.
  intros Ht HA Hv. destruct (h_timer _ _ _ _ _ _ _ K t x Ht) as (Hl & _ & Hm). pose proof (held_free t x Ht HA) as Hf. apply wp_bind.
  eapply wp_mono; [apply (store_set_value _ V); [apply K|done|unfold portMAX_DELAY; lia|]|].
  { intros l xs i HV E. apply (Hf l xs i HV). rewrite E. left. }
  intros _ m1 (HS1 & V1 & O1 & L1). eapply wp_mono; [apply (store_set_owner _ V); [done|by apply L1]|]. intros _ m2 (HS2 & V2 & O2 & L2).
  split; [|by rewrite V2, V1, O2, !decide_True]. split; [done| |apply K|apply K| |].
  - intros b. destruct (h_lists _ _ _ _ _ _ _ K b) as (ts & i & E & Hin & Hs). exists ts, i. split_and!; [done..|]. eapply sorted_in; [|exact Hs].
    intros y Hy. unfold key. rewrite V2, V1, decide_False; [done|]. intros ->. apply (Hf _ _ _ E). by right.
  - intros t' x' Ht'. destruct (h_timer _ _ _ _ _ _ _ K t' x' Ht') as (H1 & H2). split; [by apply L2, L1|done].
  - intros t' d Ed. assert (xTimerListItem t' <> xTimerListItem t) as Hne by (intros E%item_inj; congruence). rewrite V2, V1, O2, O1, !decide_False by done. by apply (h_due _ _ _ _ _ _ _ K).
Qed.

(** What the current list tells. *)
Lemma held_current : exists xs i, V !! C = Some (xs, i) /\
  match xs with
  | [] => forall t d, A !! t = Some d -> d / 4294967296 = q + 1
  | y :: _ => exists t d x, A !! t = Some d /\ T !! t = Some x /\ d / 4294967296 = q /\ value m y = Some (u32 d) /\ owner m y = Some t /\ (forall t' d', A !! t' = Some d' -> d <= d')
  end.
Proof.
  destruct (h_lists _ _ _ _ _ _ _ K false) as (ts & i & E & Hin & Hs). cbn in E, Hin. exists (xTimerListItem <$> ts), i. split; [done|]. destruct ts as [|t ts]; cbn [fmap list_fmap].
  - intros t d Ed. destruct (h_due _ _ _ _ _ _ _ K t d Ed) as ([[] Hb] & _); [done|]. exfalso. assert (t ∈ ([] : list Z)) as []%not_elem_of_nil. apply Hin. by exists d.
  - destruct (proj1 (Hin t) ltac:(left)) as (d & Ed & Eq). destruct (h_due _ _ _ _ _ _ _ K t d Ed) as (_ & Hv & Ho & [x Hx]). exists t, d, x. split_and!; [done|done|lia|done|done|].
    intros t' d' Ed'. destruct (h_due _ _ _ _ _ _ _ K t' d' Ed') as ([[] Hb] & Hv' & _); cbn in Hb.
    + apply (later_period_le d d' q); lia.
    + apply same_period_le; [lia|]. assert (t' ∈ t :: ts) as [->|Ht']%elem_of_cons by (apply Hin; exists d'; split; [done|cbn; lia]); [rewrite Ed in Ed'; injection Ed' as ->; lia|].
      apply StronglySorted_inv in Hs as [_ Hs]. eapply Forall_forall in Hs; [|by apply elem_item]. by rewrite (key_of _ _ _ Hv), (key_of _ _ _ Hv') in Hs.
Qed.

(** When the period is over and the current list is empty, the lists change their roles. *)
Lemma held_swap : (forall t d, A !! t = Some d -> d / 4294967296 = q + 1) -> held (q + 1) m T O C A V.
Proof.
  intros HA. assert (P : forall b, pick O C b = pick C O (negb b)) by (by intros []). split; [apply K| |by intros E; apply (h_ne _ _ _ _ _ _ _ K)| | |].
  - intros b. destruct (h_lists _ _ _ _ _ _ _ K (negb b)) as (ts & i & E & Hin & Hs). exists ts, i. rewrite P. split_and!; [done| |done]. intros t. rewrite Hin.
    destruct b; cbn; (split; intros (d & Ed & Eq); exists d; (split; [done|]); pose proof (HA t d Ed); lia).
  - intros l Hl. destruct (h_only _ _ _ _ _ _ _ K l Hl) as [b ->]. exists (negb b). by rewrite P, negb_involutive.
  - intros t x Ht. destruct (h_timer _ _ _ _ _ _ _ K t x Ht) as (H1 & H2 & H3). split; [done|]. split; [done|]. intros b. rewrite P. apply H3.
  - intros t d Ed. destruct (h_due _ _ _ _ _ _ _ K t d Ed) as (_ & H1). split; [|done]. exists false. rewrite (HA t d Ed). cbn. lia.
Qed.

(** Other timers than those that run may come, change and go. *)
Lemma held_timers T' : (forall t d, A !! t = Some d -> is_Some (T' !! t)) ->
  (forall t x, T' !! t = Some x -> is_Some (items m !! xTimerListItem t) /\ 0 < xTimerPeriodInTicks x < 4294967296 /\ forall b, xTimerListItem t <> xListEnd (pick C O b)) -> held q m T' C O A V.
Proof.
  intros H1 H2. split; [apply K..|done|]. intros t d Ed. destruct (h_due _ _ _ _ _ _ _ K t d Ed) as (H3 & H4 & H5 & _). split_and!; try done. by eapply H1.
Qed.
End Held.
