(* ===== verification/RtosTimerService.v ===== *)
(** * What the timer service guarantees

    Over every kernel with [TimerKernelLaws] the handlers of the service do to
    the map of due times what [turn] and [commanded] say: a turn calls the
    timer that is due first, or all that were due before the tick count
    overflowed, in the order of their due times and none before; nothing is
    due when the service blocks, and it blocks no longer than until the next
    timer is due, whatever the tick count and its overflows are.  A handler
    returns when the queue has room for what the service and the others send
    ([has_room]), and stops only at an assertion otherwise. *)

From S2P Require Import Prelude RtosList RtosStore RtosTimers RtosTimerSpec.

#[local] Open Scope Z_scope.

(** ** The abstract service *)

(** The command with which the service restarts a timer that expired at [d]. *)
Definition restart (t d : Z) : DaemonTaskMessage_t := Message tmrCOMMAND_START_DONT_TRACE (u32 d) t 0.

(** What becomes of a timer that expires at [d]: it stops; it runs again from
    [d] on, if [keep] says so of its next due time; or it will when the service
    comes to its own command. *)
Inductive renewed (keep : Z -> bool) (x : Timer_t) (t d : Z) (A : gmap Z Z) : gmap Z Z -> list DaemonTaskMessage_t -> Prop :=
| renewed_once : uxAutoReload x <> 1 -> renewed keep x t d A (delete t A) []
| renewed_again : uxAutoReload x = 1 -> keep (d + xTimerPeriodInTicks x) = true -> renewed keep x t d A (<[t := d + xTimerPeriodInTicks x]> A) []
| renewed_later : uxAutoReload x = 1 -> keep (d + xTimerPeriodInTicks x) = false -> renewed keep x t d A (delete t A) [restart t d].

(** In period [q] of the tick count; after [n]. *)
Definition in_period (q e : Z) : bool := e / 4294967296 =? q.
Definition after (n e : Z) : bool := n <? e.

(** At [n] timers of [A] that are due expire, the earliest first, and are
    renewed as long as they are due in period [q]: what is called, and which
    commands the service sends to itself. *)
Inductive expire (T : gmap Z Timer_t) (q n : Z) : gmap Z Z -> gmap Z Z -> list tcall -> list DaemonTaskMessage_t -> Prop :=
| expire_none A : expire T q n A A [] []
| expire_first A t d x A1 ms1 A2 cs ms :
    A !! t = Some d -> T !! t = Some x -> d <= n -> (forall t' d', A !! t' = Some d' -> d <= d') ->
    renewed (in_period q) x t d A A1 ms1 -> expire T q n A1 A2 cs ms ->
    expire T q n A A2 (TimerCallback (pxCallbackFunction x) t :: cs) (ms1 ++ ms).

(** A sample of the time at [n] after one at [L]: when the tick count has
    overflowed in between, all that was due in the last period expires, so that
    what runs afterwards is due in this period or later; otherwise nothing does. *)
Definition switched (T : gmap Z Timer_t) (L n : Z) (A A' : gmap Z Z) (cs : list tcall) (ms : list DaemonTaskMessage_t) : Prop :=
  expire T (L / 4294967296) n A A' cs ms /\ (forall t d, A' !! t = Some d -> n / 4294967296 <= d / 4294967296)
  /\ (n / 4294967296 = L / 4294967296 -> A' = A /\ cs = [] /\ ms = []).

(** One turn at [n] after a sample at [L]: the timer that is due first
    expires; or the tick count has overflowed; or nothing is due, and the
    service blocks until the next timer is due or for a shorter time. *)
Inductive turn (T : gmap Z Timer_t) (L n : Z) (A : gmap Z Z) : gmap Z Z -> list tcall -> list DaemonTaskMessage_t -> Prop :=
| turn_expires t d x A' ms :
    n / 4294967296 = L / 4294967296 -> A !! t = Some d -> T !! t = Some x -> d <= n -> (forall t' d', A !! t' = Some d' -> d <= d') ->
    renewed (after n) x t d A A' ms -> turn T L n A A' [TimerCallback (pxCallbackFunction x) t] ms
| turn_overflows A' cs ms : L / 4294967296 < n / 4294967296 -> switched T L n A A' cs ms -> turn T L n A A' cs ms
| turn_blocks w : n / 4294967296 = L / 4294967296 -> 0 <= w -> (forall t d, A !! t = Some d -> n < d /\ n + w <= d) -> turn T L n A A [BlockedFor w] [].

(** The commands that start a timer. *)
Definition starts (id : Z) : bool := (id =? tmrCOMMAND_START) || (id =? tmrCOMMAND_START_FROM_ISR) || (id =? tmrCOMMAND_RESET) || (id =? tmrCOMMAND_RESET_FROM_ISR) || (id =? tmrCOMMAND_START_DONT_TRACE).
Definition changes_period (id : Z) : bool := (id =? tmrCOMMAND_CHANGE_PERIOD) || (id =? tmrCOMMAND_CHANGE_PERIOD_FROM_ISR).

(** The command [m] to the timer [x], which does not run in [A], at [n].  A
    timer that was started at [past n v] is due a period later; it has expired
    if that is over, and starts again from then on if it reloads. *)
Inductive commanded (T : gmap Z Timer_t) (n : Z) (m : DaemonTaskMessage_t) (x : Timer_t) (A : gmap Z Z) : gmap Z Timer_t -> gmap Z Z -> list tcall -> list DaemonTaskMessage_t -> Prop :=
| cmd_start d : starts (xMessageID m) = true -> d = past n (xMessageValue m) + xTimerPeriodInTicks x -> n < d ->
    commanded T n m x A T (<[pxTimer_of m := d]> A) [] []
| cmd_expired d : starts (xMessageID m) = true -> d = past n (xMessageValue m) + xTimerPeriodInTicks x -> d <= n ->
    commanded T n m x A T A [TimerCallback (pxCallbackFunction x) (pxTimer_of m)] (if uxAutoReload x =? 1 then [restart (pxTimer_of m) d] else [])
| cmd_period v : changes_period (xMessageID m) = true -> v = xMessageValue m -> 0 < v ->
    commanded T n m x A (<[pxTimer_of m := set_period v x]> T) (<[pxTimer_of m := n + v]> A) [] []
| cmd_delete : xMessageID m = tmrCOMMAND_DELETE -> commanded T n m x A (delete (pxTimer_of m) T) A [] []
| cmd_stop : starts (xMessageID m) = false -> changes_period (xMessageID m) = false -> xMessageID m <> tmrCOMMAND_DELETE -> commanded T n m x A T A [] [].

Lemma expire_keeps_out T q n A A' cs ms t : expire T q n A A' cs ms -> A !! t = None -> A' !! t = None.
Proof.
  induction 1 as [|A t0 d x A1 ms1 A2 cs ms Ed Ht Hd Hmin R _ IH]; [done|]. intros E. apply IH. assert (t0 <> t) by congruence. destruct R; by rewrite ?lookup_delete_ne, ?lookup_insert_ne.
Qed.

Section Service.
Context {Q : Type} {TK : TimerKernel Q} {TL : TimerKernelLaws Q}.
Implicit Types (s : tstate Q) (A : gmap Z Z).

Record serving (q : Z) s A : Prop := {
  sv_fine : fine (tker s);
  sv_queue : xTimerQueue s = handle;
  sv_held : exists V, held q (tmem s) (timers s) (pxCurrentTimerList s) (pxOverflowTimerList s) A V
}.
(** The service at rest; [L] is the time of the last sample. *)
Definition at_rest (L : Z) s A : Prop := serving (L / 4294967296) s A /\ xLastTime s = u32 L.

(** The run from [s] to [s'] made the calls [cs] and sent the commands [ms] to
    the service itself, others may have sent some too. *)
Record went (s s' : tstate Q) (cs : list tcall) (ms : list DaemonTaskMessage_t) : Prop := {
  go_calls : calls s' = calls s ++ cs;
  go_clock : clock (tker s) <= clock (tker s');
  go_inbox : exists ex, inbox (tker s') = inbox (tker s) ++ ex /\ ms `sublist_of` ex
}.

(** Whichever timers of the last period expire, the queue has room for the
    commands with which the service restarts them, for those that others send
    in the meantime, and for one more. *)
Definition has_room (L : Z) s A : Prop := forall A' cs ms, expire (timers s) (L / 4294967296) (clock (tker s)) A A' cs ms ->
  (1 + Z.of_nat (length cs)) * busy + Z.of_nat (length ms) + 1 <= space (tker s).

Lemma went_refl s : went s s [] [].
Proof. split; [by rewrite app_nil_r|lia|]. exists []. by rewrite app_nil_r. Qed.

Lemma went_trans s1 s2 s3 cs1 cs2 ms1 ms2 : went s1 s2 cs1 ms1 -> went s2 s3 cs2 ms2 -> went s1 s3 (cs1 ++ cs2) (ms1 ++ ms2).
Proof.
  intros [C1 L1 (e1 & I1 & M1)] [C2 L2 (e2 & I2 & M2)]. split; [by rewrite C2, C1, app_assoc|lia|]. exists (e1 ++ e2). rewrite I2, I1, app_assoc. split; [done|]. by apply sublist_app.
Qed.

(** A run that makes no call and leaves the kernel. *)
Lemma went_same s s' : calls s' = calls s -> tker s' = tker s -> went s s' [] [].
Proof. intros Ec Ek. split; [by rewrite Ec, app_nil_r|rewrite Ek; lia|]. exists []. by rewrite Ek, app_nil_r. Qed.

(** A timer whose restart has been sent does not expire again. *)
Lemma few_restarts T q n A A' cs ms : expire T q n A A' cs ms -> (length ms <= size A)%nat.
Proof.
  induction 1 as [|A t d x A1 ms1 A2 cs ms Ed Ht Hd Hmin R _ IH]; [cbn; lia|]. pose proof (map_size_delete_Some t A ltac:(by exists d)) as Hdel.
  assert (0 < size A)%nat. { apply Nat.neq_0_lt_0. intros E%map_size_empty_inv. by rewrite E in Ed. }
  rewrite length_app. destruct R; cbn [length]; [lia| |lia]. rewrite map_size_insert_Some in IH by (by exists d). lia.
Qed.

(** There is room when nobody else sends commands and every timer that runs has a place. *)
Lemma room_alone L s A : busy = 0 -> Z.of_nat (size A) < space (tker s) -> has_room L s A.
Proof. intros Hb Hk A' cs ms X%few_restarts. rewrite Hb. lia. Qed.

(** ** Pieces of the handlers *)

Lemma wp_on_lists {B} (m : M list_mem B) (P : B -> tstate Q -> Prop) s : wp m (fun a l => P a (with_tmem l s)) (tmem s) -> wp (on_lists m) P s.
Proof. unfold wp, on_lists. by destruct (m (tmem s)) as [[a l]|]. Qed.
Lemma wp_kernel {B} (m : M Q B) (P : B -> tstate Q -> Prop) s : wp m (fun a k => P a (with_tker k s)) (tker s) -> wp (on_ker m) P s.
Proof. unfold wp, on_ker. by destruct (m (tker s)) as [[a l]|]. Qed.
Lemma wp_timer t x (P : Timer_t -> tstate Q -> Prop) s : timers s !! t = Some x -> P x s -> wp (timer t) P s.
Proof. intros E HP. unfold timer. apply wp_bind, wp_get. rewrite E. by apply wp_ret. Qed.

(** The lists and the timers alone matter for [held]. *)
Lemma serving_tmem q s A A' l V : serving q s A -> held q l (timers s) (pxCurrentTimerList s) (pxOverflowTimerList s) A' V -> serving q (with_tmem l s) A'.
Proof. intros S K. split; [apply S..|]. by exists V. Qed.

Lemma set_spec {B} q s A t x v (k : M (tstate Q) B) (P : B -> tstate Q -> Prop) : serving q s A -> timers s !! t = Some x -> A !! t = None -> 0 <= v < 4294967296 ->
  (forall l, serving q (with_tmem l s) A -> value l (xTimerListItem t) = Some v -> owner l (xTimerListItem t) = Some t -> wp k P (with_tmem l s)) ->
  wp (on_lists (listSET_LIST_ITEM_VALUE (xTimerListItem t) v);; on_lists (listSET_LIST_ITEM_OWNER (xTimerListItem t) t);; k) P s.
Proof.
  intros S Ht HA Hv HP. destruct (sv_held _ _ _ S) as [V K]. pose proof (held_set _ _ _ _ _ _ _ K t x v Ht HA Hv) as W. apply wp_inv in W as ([] & l & E & K' & Hvl & Hol).
  specialize (HP l (serving_tmem _ _ _ _ _ _ S K') Hvl Hol). unfold wp, mbind, M_bind, on_lists in *. destruct (listSET_LIST_ITEM_VALUE _ _ (tmem s)) as [[? l1]|]; [|done].
  cbn [tmem with_tmem]. by rewrite E.
Qed.

Lemma put_in_spec q s A b t x d (P : unit -> tstate Q -> Prop) : serving q s A -> timers s !! t = Some x -> A !! t = None ->
  value (tmem s) (xTimerListItem t) = Some (u32 d) -> owner (tmem s) (xTimerListItem t) = Some t -> d / 4294967296 = q + Z.b2z b ->
  (forall l, serving q (with_tmem l s) (<[t := d]> A) -> P tt (with_tmem l s)) ->
  wp (tinsert (pick (pxCurrentTimerList s) (pxOverflowTimerList s) b) (xTimerListItem t)) P s.
Proof.
  intros S Ht HA Hv Ho Hd HP. destruct (sv_held _ _ _ S) as [V K]. unfold tinsert. apply wp_bind, wp_get, wp_on_lists.
  eapply wp_mono; [by apply (held_insert _ _ _ _ _ _ _ K b t x d)|]. intros [] l (_ & V' & K'). apply HP. by eapply serving_tmem.
Qed.

Lemma take_off_spec q s A t d (P : Z -> tstate Q -> Prop) : serving q s A -> A !! t = Some d ->
  (forall r l, serving q (with_tmem l s) (delete t A) -> P r (with_tmem l s)) -> wp (on_lists (uxListRemove (xTimerListItem t))) P s.
Proof.
  intros S Hd HP. destruct (sv_held _ _ _ S) as [V K]. apply wp_on_lists. eapply wp_mono; [by apply (held_remove _ _ _ _ _ _ _ K t d)|].
  intros r l (_ & V' & K'). apply HP. by eapply serving_tmem.
Qed.

(** [prvInsertTimerInActiveList] for a timer started at [c], seen at [n]. *)
Lemma insert_timer_spec n c s A t x (P : bool -> tstate Q -> Prop) :
  serving (n / 4294967296) s A -> timers s !! t = Some x -> A !! t = None -> c <= n < c + 4294967296 ->
  (forall l, serving (n / 4294967296) (with_tmem l s) (if c + xTimerPeriodInTicks x <=? n then A else <[t := c + xTimerPeriodInTicks x]> A) -> P (c + xTimerPeriodInTicks x <=? n) (with_tmem l s)) ->
  wp (prvInsertTimerInActiveList t (u32 (c + xTimerPeriodInTicks x)) (u32 n) (u32 c)) P s.
Proof.
  intros S Ht HA Hc HP. destruct (sv_held _ _ _ S) as [V K]. destruct (h_timer _ _ _ _ _ _ _ K t x Ht) as (_ & Hper & _). set (d := c + xTimerPeriodInTicks x) in *.
  pose proof (expiry_tests n c (xTimerPeriodInTicks x) Hc Hper) as Htest. fold d in Htest. unfold prvInsertTimerInActiveList. apply wp_bind. eapply wp_timer; [exact Ht|].
  pose proof (u32_range d) as Hr. change (2 ^ 32) with 4294967296 in Hr. eapply set_spec; [exact S|exact Ht|done|lia|]. intros l S1 Hv Ho. apply wp_bind, wp_get. cbn [pxCurrentTimerList pxOverflowTimerList with_tmem].
  destruct (Z.leb_spec (u32 d) (u32 n)) as [Hle|Hlt], Htest as [-> Hq]; destruct (Z.leb_spec d n) as [Hd|Hd]; [by apply wp_ret, HP| |by apply wp_ret, HP|];
    apply wp_bind; [apply (put_in_spec _ _ _ true t x d _ S1)|apply (put_in_spec _ _ _ false t x d _ S1)]; try done; try (cbn; rewrite Hq by done; lia);
    intros l' S2; apply wp_ret, (HP l'), S2.
Qed.

(** The service sends itself a command. *)
Lemma reload_spec G q s A t d (P : unit -> tstate Q -> Prop) : serving q s A -> (G -> 0 < space (tker s)) ->
  (forall k, serving q (with_tker k s) A -> went s (with_tker k s) [] [restart t d] -> space k = space (tker s) - 1 -> P tt (with_tker k s)) -> safe G (reload t (u32 d)) P s.
Proof.
  intros S HG HP. destruct (sv_held _ _ _ S) as [V K]. unfold reload, xTimerGenericCommand. apply safe_step, wp_bind, wp_get. rewrite (sv_queue _ _ _ S).
  destruct (Z.eqb_spec handle 0) as [E|_]; [by destruct (handle_null E)|]. cbn [Z.ltb Z.compare tmrCOMMAND_START_DONT_TRACE tmrFIRST_FROM_ISR_COMMAND Z.ltb].
  apply wp_bind, wp_kernel. eapply wp_mono; [apply running_law, S|]. intros r _ ->.
  assert ((if r then tmrNO_DELAY else tmrNO_DELAY) = tmrNO_DELAY) as -> by (by destruct r).
  apply wp_bind, wp_kernel. cbn [tker with_tker]. eapply wp_mono; [apply (send_law (tker s) (restart t d)), S|].
  intros r' k [(-> & -> & Hk)|(-> & Hf & Hc & Hi & Hk)]; apply wp_ret, safe_check; [intros g; specialize (HG g); lia|done|done|]. intros _. apply HP; [| |done].
  - split; [done|apply S|by exists V].
  - split; cbn [calls tker with_tker]; [by rewrite app_nil_r|lia|]. by exists [restart t d].
Qed.

(** The service calls a function. *)
Lemma invoke_spec q s A c (P : unit -> tstate Q -> Prop) : serving q s A ->
  (forall k, serving q (with_tker k (with_call c s)) A -> went s (with_tker k (with_call c s)) [c] [] -> space (tker s) - busy <= space k -> P tt (with_tker k (with_call c s))) -> wp (invoke c) P s.
Proof.
  intros S HP. destruct (sv_held _ _ _ S) as [V K]. unfold invoke. apply wp_bind, wp_modify, wp_kernel. eapply wp_mono; [apply call_law, S|]. intros [] k (Hf & Hc & (ex & Hi) & Hk). apply HP; [| |done].
  - split; [done|apply S|by exists V].
  - split; [done|done|]. exists ex. split; [done|]. apply sublist_nil_l.
Qed.

(** ** The tick count overflows *)

(** The ticks that the timers of the current list have left in the period [q]. *)
Definition left_in (q : Z) A : Z := map_fold (fun _ d w => Z.max 0 ((q + 1) * 4294967296 - d) + w) 0 A.

Lemma left_in_insert q A t d : A !! t = None -> left_in q (<[t := d]> A) = Z.max 0 ((q + 1) * 4294967296 - d) + left_in q A.
Proof. intros E. unfold left_in. rewrite map_fold_insert_L; [done| |done]. intros. lia. Qed.

Lemma left_in_delete q A t d : A !! t = Some d -> left_in q A = Z.max 0 ((q + 1) * 4294967296 - d) + left_in q (delete t A).
Proof. intros E. rewrite <- (left_in_insert q (delete t A) t d) by apply lookup_delete_eq. by rewrite insert_delete_id. Qed.

Lemma left_in_bound q A : (forall t d, A !! t = Some d -> q <= d / 4294967296) -> left_in q A <= Z.of_nat (size A) * 4294967296.
Proof.
  induction A as [|t d A E IH] using map_ind; [done|]. intros HA. rewrite left_in_insert, map_size_insert_None by done.
  assert (q <= d / 4294967296) as Hd by (apply (HA t), lookup_insert_eq). pose proof (Z.div_mod d 4294967296 ltac:(lia)). pose proof (Z.mod_pos_bound d 4294967296 ltac:(lia)).
  assert (left_in q A <= Z.of_nat (size A) * 4294967296). { apply IH. intros t' d' E'. apply (HA t'). rewrite lookup_insert_ne; [done|congruence]. } lia.
Qed.

(** Nothing but the memory of the lists, the kernel and the log has changed. *)
Record kept (s s' : tstate Q) : Prop := {
  kp_timers : timers s' = timers s;
  kp_cur : pxCurrentTimerList s' = pxCurrentTimerList s;
  kp_ovf : pxOverflowTimerList s' = pxOverflowTimerList s;
  kp_last : xLastTime s' = xLastTime s
}.

Lemma u32_add_u32 a b : u32 (u32 a + b) = u32 (a + b).
Proof. rewrite !u32_eq. apply Zplus_mod_idemp_l. Qed.

(** A timer that expired in the last period starts again. *)
Lemma renew_spec G q s A t d x n (P : unit -> tstate Q -> Prop) :
  serving q s (delete t A) -> timers s !! t = Some x -> A !! t = Some d -> d / 4294967296 = q -> (q + 1) * 4294967296 <= n ->
  (G -> forall A' ms, renewed (in_period q) x t d A A' ms -> Z.of_nat (length ms) <= space (tker s)) ->
  (forall s' A' ms, kept s s' -> serving q s' A' -> renewed (in_period q) x t d A A' ms -> left_in q A' < left_in q A -> went s s' [] ms -> space (tker s') = space (tker s) - Z.of_nat (length ms) -> P tt s') ->
  safe G (if uxAutoReload x =? 1 then
          let xReloadTime := u32 (u32 d + xTimerPeriodInTicks x) in
          if u32 d <? xReloadTime then
             on_lists (listSET_LIST_ITEM_VALUE (xTimerListItem t) xReloadTime);;
             on_lists (listSET_LIST_ITEM_OWNER (xTimerListItem t) t);;
             tinsert (pxCurrentTimerList s) (xTimerListItem t)
          else reload t (u32 d)
        else mret tt) P s.
Proof.
  intros S Ht Ed Hd Hn HG HP. destruct (sv_held _ _ _ S) as [V K]. destruct (h_timer _ _ _ _ _ _ _ K t x Ht) as (_ & Hper & _). set (e := d + xTimerPeriodInTicks x).
  rewrite u32_add_u32. fold e.
  pose proof (Z.div_mod d 4294967296 ltac:(lia)) as E1. pose proof (Z.mod_pos_bound d 4294967296 ltac:(lia)) as R1. pose proof (Z.div_mod e 4294967296 ltac:(lia)) as E2. pose proof (Z.mod_pos_bound e 4294967296 ltac:(lia)) as R2.
  assert (Hdel : left_in q (delete t A) < left_in q A) by (rewrite (left_in_delete q A t d Ed); lia). cbv zeta. destruct (Z.eqb_spec (uxAutoReload x) 1) as [Hr|Hr].
  - destruct (Z.ltb_spec (u32 d) (u32 e)) as [Hlt|Hge].
    + rewrite !u32_eq in Hlt. assert (e / 4294967296 = q) as He by (unfold e in *; lia). apply safe_wp. eapply set_spec; [exact S|exact Ht|apply lookup_delete_eq|apply u32_range|]. intros l S1 Hv Ho.
      apply (put_in_spec _ _ _ false t x e _ S1); [done|apply lookup_delete_eq|done|done|cbn; lia|]. intros l' S2. rewrite insert_delete_eq in S2.
      apply (HP _ (<[t := e]> A) []); [done|exact S2|apply renewed_again; [done|by apply Z.eqb_eq]| |by apply went_same|cbn; lia]. rewrite (left_in_delete q A t d Ed), <- insert_delete_eq, left_in_insert by apply lookup_delete_eq. unfold e in *. lia.
    + rewrite !u32_eq in Hge. assert (renewed (in_period q) x t d A (delete t A) [restart t d]) as Hlate by (apply renewed_later; [done|apply Z.eqb_neq; fold e; unfold e in *; lia]).
      eapply reload_spec; [exact S|intros g; specialize (HG g _ _ Hlate); cbn in HG; lia|]. intros k S1 W1 E3. apply (HP _ (delete t A) [restart t d]); [done|exact S1|exact Hlate|done|done|exact E3].
  - apply safe_ret. apply (HP s (delete t A) []); [done|exact S|by constructor|done|apply went_refl|cbn; lia].
Qed.

Lemma kept_join s1 s2 s3 : kept s1 s2 -> kept s2 s3 -> kept s1 s3.
Proof. intros [] []. split; congruence. Qed.

(** The next timer of the current list, as the service reads it. *)
Record next_is (q : Z) s A (t d : Z) (x : Timer_t) : Prop := {
  nx_due : A !! t = Some d;
  nx_timer : timers s !! t = Some x;
  nx_period : d / 4294967296 = q;
  nx_first : forall t' d', A !! t' = Some d' -> d <= d';
  nx_value : listGET_ITEM_VALUE_OF_HEAD_ENTRY (pxCurrentTimerList s) (tmem s) = Ret (u32 d, tmem s);
  nx_owner : listGET_OWNER_OF_HEAD_ENTRY (pxCurrentTimerList s) (tmem s) = Ret (t, tmem s)
}.

Lemma wp_read {B} (m : M list_mem B) a (P : B -> tstate Q -> Prop) s : m (tmem s) = Ret (a, tmem s) -> P a s -> wp (on_lists m) P s.
Proof. intros E HP. apply wp_on_lists. unfold wp. rewrite E. by destruct s. Qed.

Lemma empty_spec q s A (P : bool -> tstate Q -> Prop) : serving q s A ->
  ((forall t d, A !! t = Some d -> d / 4294967296 = q + 1) -> P true s) -> (forall t d x, next_is q s A t d x -> P false s) ->
  wp (on_lists (listLIST_IS_EMPTY (pxCurrentTimerList s))) P s.
Proof.
  intros S H1 H2. destruct (sv_held _ _ _ S) as [V K]. pose proof (h_store _ _ _ _ _ _ _ K) as HS. destruct (held_current _ _ _ _ _ _ _ K) as (xs & i & E & Hx).
  assert (Eid : with_tmem (tmem s) s = s) by (by destruct s). apply wp_on_lists. eapply read_empty; [exact HS|exact E|]. rewrite Eid. destruct xs as [|y xs]; [by apply H1|].
  destruct Hx as (t & d & x & Ed & Ht & Hq & Hv & Ho & Hmin). apply (H2 t d x). split; [done..| |].
  - edestruct (wp_inv (listGET_ITEM_VALUE_OF_HEAD_ENTRY (pxCurrentTimerList s)) (fun r m => r = u32 d /\ m = tmem s)) as (? & ? & -> & -> & ->); [by eapply read_head_value|done].
  - edestruct (wp_inv (listGET_OWNER_OF_HEAD_ENTRY (pxCurrentTimerList s)) (fun r m => r = t /\ m = tmem s)) as (? & ? & -> & -> & ->); [by eapply read_head_owner|done].
Qed.

Lemma switch_loop_spec (G : Prop) fuel q n s A : serving q s A -> (q + 1) * 4294967296 <= n -> left_in q A <= Z.of_nat fuel ->
  (G -> forall A' cs ms, expire (timers s) q n A A' cs ms -> Z.of_nat (length cs) * busy + Z.of_nat (length ms) <= space (tker s)) ->
  safe G (switch_loop fuel) (fun _ s' => exists A' cs ms, kept s s' /\ serving q s' A' /\ (forall t d, A' !! t = Some d -> d / 4294967296 = q + 1)
    /\ expire (timers s) q n A A' cs ms /\ went s s' cs ms /\ space (tker s) - Z.of_nat (length cs) * busy - Z.of_nat (length ms) <= space (tker s')) s.
Proof.
  revert s A. induction fuel as [|fuel IH]; intros s A S Hn Hf HG; cbn [switch_loop]; apply safe_step, wp_get, safe_step; eapply empty_spec; try exact S.
  - intros Hall. apply safe_ret. exists A, [], []. split_and!; [done|done|done|constructor|apply went_refl|cbn; lia].
  - intros t d x [Ed Ht Hq _ _ _]. exfalso. rewrite (left_in_delete q A t d Ed) in Hf. pose proof (Z.div_mod d 4294967296 ltac:(lia)). pose proof (Z.mod_pos_bound d 4294967296 ltac:(lia)).
    assert (0 <= left_in q (delete t A)) by (unfold left_in; apply (map_fold_weak_ind (fun r _ => 0 <= r)); lia). lia.
  - intros Hall. apply safe_ret. exists A, [], []. split_and!; [done|done|done|constructor|apply went_refl|cbn; lia].
  - intros t d x [Ed Ht Hq Hmin Hv Ho]. apply safe_step, (wp_read _ _ _ _ Hv), safe_step, (wp_read _ _ _ _ Ho), safe_step. eapply take_off_spec; [exact S|exact Ed|]. intros _ l S1.
    apply safe_step. eapply wp_timer; [exact Ht|]. apply safe_step. eapply invoke_spec; [exact S1|]. intros k S2 W2 E2. apply safe_step. eapply wp_timer; [exact Ht|]. apply safe_bind. cbn [tker with_tmem] in E2.
    assert (d <= n) as Hdn by (pose proof (Z.div_mod d 4294967296 ltac:(lia)); pose proof (Z.mod_pos_bound d 4294967296 ltac:(lia)); lia).
    apply (renew_spec G q (with_tker k (with_call (TimerCallback (pxCallbackFunction x) t) (with_tmem l s))) A t d x n); [exact S2|exact Ht|done..| |].
    { intros g A' ms' R'. pose proof (HG g _ _ _ (expire_first _ _ _ _ _ _ _ _ _ _ _ _ Ed Ht Hdn Hmin R' (expire_none _ _ _ _))) as H. rewrite app_nil_r in H. cbn [length tker with_tker] in H |- *. lia. }
    intros s3 A3 ms3 K3 S3 R3 D3 W3 E3. cbn [tker with_tker] in E3.
    eapply safe_mono; [apply (IH s3 A3 S3 Hn); [lia|]|].
    { intros g A' cs ms X. rewrite (kp_timers _ _ K3) in X. pose proof (HG g _ _ _ (expire_first _ _ _ _ _ _ _ _ _ _ _ _ Ed Ht Hdn Hmin R3 X)) as H. rewrite length_app in H. cbn [length] in H. lia. }
    intros [] s4 (A4 & cs & ms & K4 & S4 & Hall & X4 & W4 & E4).
    exists A4, (TimerCallback (pxCallbackFunction x) t :: cs), (ms3 ++ ms). split_and!; [|done|done| | |rewrite length_app; cbn [length]; lia].
    + eapply kept_join; [|exact K4]. eapply kept_join; [|exact K3]. done.
    + eapply expire_first; [exact Ed|exact Ht|done|done|exact R3|]. by rewrite (kp_timers _ _ K3) in X4.
    + eapply (went_trans s _ _ [TimerCallback (pxCallbackFunction x) t] cs ms3 ms); [|exact W4].
      eapply (went_trans s _ _ [TimerCallback (pxCallbackFunction x) t] [] [] ms3); [|exact W3].
      eapply (went_trans s (with_tmem l s) _ [] [TimerCallback (pxCallbackFunction x) t] [] []); [by apply went_same|exact W2].
Qed.

(** Enough rounds of [switch_loop] for every timer: one per tick. *)
Definition enough (fuel : nat) s : Prop := Z.of_nat (size (timers s)) * 4294967296 <= Z.of_nat fuel.

Lemma enough_left q fuel s A : serving q s A -> enough fuel s -> left_in q A <= Z.of_nat fuel.
Proof.
  intros S Hf. destruct (sv_held _ _ _ S) as [V K]. etrans; [|exact Hf].
  etrans; [apply left_in_bound; intros t d Ed; destruct (h_due _ _ _ _ _ _ _ K t d Ed) as ([[] Hb] & _); cbn in Hb; lia|].
  assert (size A <= size (timers s))%nat; [|lia]. rewrite <- !size_dom. apply subseteq_size. intros t [d Ed]%elem_of_dom. apply elem_of_dom. by apply (h_due _ _ _ _ _ _ _ K t d).
Qed.

(** The period of the tick count has changed if and only if the count is less than it was. *)
Lemma overflow_test L n : L <= n < L + 4294967296 -> (u32 n <? u32 L) = negb (n / 4294967296 =? L / 4294967296) /\ (n / 4294967296 = L / 4294967296 \/ n / 4294967296 = L / 4294967296 + 1).
Proof.
  intros Hn. rewrite !u32_eq. pose proof (Z.div_mod L 4294967296 ltac:(lia)). pose proof (Z.mod_pos_bound L 4294967296 ltac:(lia)). pose proof (Z.div_mod n 4294967296 ltac:(lia)). pose proof (Z.mod_pos_bound n 4294967296 ltac:(lia)).
  destruct (Z.ltb_spec (n mod 4294967296) (L mod 4294967296)), (Z.eqb_spec (n / 4294967296) (L / 4294967296)); cbn; split; lia.
Qed.

(** What runs is due in the period of the last sample or the next. *)
Lemma at_rest_period L s A t d : at_rest L s A -> A !! t = Some d -> L / 4294967296 <= d / 4294967296.
Proof. intros [S _] Ed. destruct (sv_held _ _ _ S) as [V K]. destruct (h_due _ _ _ _ _ _ _ K t d Ed) as ([[] Hb] & _); cbn in Hb; lia. Qed.

(** [prvSampleTimeNow]: the time [n], and what has expired in the period before. *)
Lemma sample_spec (G : Prop) fuel L s A : at_rest L s A -> L <= clock (tker s) < L + 4294967296 -> enough fuel s -> (G -> has_room L s A) ->
  safe G (prvSampleTimeNow fuel) (fun r s' => exists A' cs ms, let n := clock (tker s) in
    r = (u32 n, negb (n / 4294967296 =? L / 4294967296)) /\ timers s' = timers s /\ at_rest n s' A' /\ switched (timers s) L n A A' cs ms /\ went s s' cs ms
    /\ space (tker s) - Z.of_nat (length cs) * busy - Z.of_nat (length ms) <= space (tker s') /\ (n / 4294967296 = L / 4294967296 -> s' = with_last (u32 n) s)) s.
Proof.
  intros [S HL] Hn Hf HG. set (n := clock (tker s)) in *. unfold prvSampleTimeNow. apply safe_step, wp_kernel. eapply wp_mono; [apply ticks_law, S|]. intros r k [-> ->]. fold n.
  assert (Eid : with_tker (tker s) s = s) by (by destruct s). rewrite Eid. apply safe_step, wp_get. rewrite HL. destruct (overflow_test L n Hn) as [-> Hq]. cbv zeta.
  destruct (Z.eqb_spec (n / 4294967296) (L / 4294967296)) as [Eq|Hne]; cbn [negb]; apply safe_bind.
  - apply safe_ret. apply safe_step, wp_modify, safe_ret.
    assert (at_rest n (with_last (u32 n) s) A) as R1 by (split; [|done]; rewrite Eq; destruct (sv_held _ _ _ S) as [V K]; split; [apply S..|by exists V]).
    exists A, [], []. split_and!; [done|done|done| |by apply went_same|cbn; lia|done]. split_and!; [constructor| |done]. intros t d. by apply (at_rest_period n (with_last (u32 n) s) A).
  - apply safe_bind. unfold prvSwitchTimerLists. apply safe_bind. pose proof (Z.div_mod n 4294967296 ltac:(lia)). pose proof (Z.mod_pos_bound n 4294967296 ltac:(lia)).
    eapply safe_mono; [apply (switch_loop_spec G fuel (L / 4294967296) n s A S); [lia|by eapply enough_left|]|].
    { intros g A' cs ms X. specialize (HG g A' cs ms X). pose proof busy_nonneg. fold n in HG. lia. }
    intros [] s4 (A4 & cs & ms & K4 & S4 & Hall & X4 & W4 & E4). apply safe_wp, wp_modify, wp_ret, safe_step, wp_modify, safe_ret. exists A4, cs, ms.
    split_and!; [done|apply K4| | | |exact E4|done].
    + split; [|done]. destruct (sv_held _ _ _ S4) as [V4 H4]. replace (n / 4294967296) with (L / 4294967296 + 1) by lia. split; [apply S4..|]. exists V4. by apply held_swap.
    + split_and!; [done| |done]. intros t d Ed. rewrite (Hall t d Ed). lia.
    + rewrite <- (app_nil_r cs), <- (app_nil_r ms). by eapply went_trans; [exact W4|apply went_same].
Qed.

(** ** A turn of the service *)

Lemma at_rest_ker L s A k : at_rest L s A -> fine k -> at_rest L (with_tker k s) A.
Proof. intros [[Hf Hq [V K]] HL] Hk. split; [|done]. split; [done|done|by exists V]. Qed.

(** The laws for commands that let time pass. *)
Lemma wait_spec {B} (m : M Q B) s (P : B -> tstate Q -> Prop) :
  wp m (fun _ k' => fine k' /\ clock (tker s) <= clock k' /\ (exists ex, inbox k' = inbox (tker s) ++ ex) /\ space (tker s) - busy <= space k') (tker s) ->
  (forall b k, fine k -> went s (with_tker k s) [] [] -> space (tker s) - busy <= space k -> P b (with_tker k s)) -> wp (on_ker m) P s.
Proof.
  intros Hm HP. apply wp_kernel. eapply wp_mono; [exact Hm|]. intros b k (Hf & Hc & (ex & Hi) & Hk). apply HP; [done| |done]. split; cbn [tker calls with_tker]; [by rewrite app_nil_r|done|].
  exists ex. split; [done|]. apply sublist_nil_l.
Qed.

Lemma expired_spec (G : Prop) n s A t d x : at_rest n s A -> next_is (n / 4294967296) s A t d x -> d <= n -> (G -> 0 < space (tker s)) ->
  safe G (prvProcessExpiredTimer (u32 d) (u32 n)) (fun _ s' => exists A' ms, timers s' = timers s /\ at_rest n s' A' /\ renewed (after n) x t d A A' ms
                                                   /\ went s s' [TimerCallback (pxCallbackFunction x) t] ms) s.
Proof.
  intros [S HL] [Ed Ht Hq Hmin Hv Ho] Hd HG. unfold prvProcessExpiredTimer. apply safe_step, wp_get, safe_step, (wp_read _ _ _ _ Ho), safe_step.
  eapply take_off_spec; [exact S|exact Ed|]. intros _ l S1. apply safe_step. eapply wp_timer; [exact Ht|]. rewrite u32_add_u32.
  (* the rest: the timer is read again and its function called *)
  assert (Hcall : forall s2 A2 ms, timers s2 = timers s -> xLastTime s2 = u32 n -> serving (n / 4294967296) s2 A2 -> renewed (after n) x t d A A2 ms -> went s s2 [] ms ->
    safe G (y ← timer t; invoke (TimerCallback (pxCallbackFunction y) t)) (fun _ s' => exists A' ms, timers s' = timers s /\ at_rest n s' A' /\ renewed (after n) x t d A A' ms /\ went s s' [TimerCallback (pxCallbackFunction x) t] ms) s2).
  { intros s2 A2 ms E2 L2 S2 R2 W2. apply safe_step. eapply wp_timer; [by rewrite E2|]. apply safe_wp. eapply invoke_spec; [exact S2|]. intros k S3 W3 _. exists A2, ms. split_and!; [done|by split|done|].
    rewrite <- (app_nil_r ms). by apply (went_trans s s2 _ [] [TimerCallback (pxCallbackFunction x) t] ms []). }
  apply safe_bind. destruct (Z.eqb_spec (uxAutoReload x) 1) as [Hr|Hr].
  - pose proof (Z.div_mod d 4294967296 ltac:(lia)). pose proof (Z.mod_pos_bound d 4294967296 ltac:(lia)). pose proof (Z.div_mod n 4294967296 ltac:(lia)). pose proof (Z.mod_pos_bound n 4294967296 ltac:(lia)).
    apply safe_step. eapply (insert_timer_spec n d); [exact S1|exact Ht|apply lookup_delete_eq|lia|]. intros l' S2. destruct (Z.leb_spec (d + xTimerPeriodInTicks x) n).
    + eapply reload_spec; [exact S2|exact HG|]. intros k S3 W3 _. apply (Hcall _ (delete t A) [restart t d]); [done|exact HL|exact S3|apply renewed_later; [done|by apply Z.ltb_ge]|].
      apply (went_trans s (with_tmem l' (with_tmem l s)) _ [] [] [] [restart t d]); [by apply went_same|exact W3].
    + apply safe_ret, (Hcall _ (<[t := d + xTimerPeriodInTicks x]> A) []); [done|exact HL|by rewrite insert_delete_eq in S2|apply renewed_again; [done|by apply Z.ltb_lt]|by apply went_same].
  - apply safe_ret, (Hcall _ (delete t A) []); [done|exact HL|exact S1|by constructor|by apply went_same].
Qed.

Lemma next_spec q s A : serving q s A ->
  wp prvGetNextExpireTime (fun r s' => s' = s /\ (r = (0, true) /\ (forall t d, A !! t = Some d -> d / 4294967296 = q + 1) \/ exists t d x, r = (u32 d, false) /\ next_is q s A t d x)) s.
Proof.
  intros S. unfold prvGetNextExpireTime. apply wp_bind, wp_get, wp_bind. eapply empty_spec; [exact S|intros Hall; apply wp_ret; by auto|]. intros t d x N.
  apply wp_bind, (wp_read _ _ _ _ (nx_value _ _ _ _ _ _ N)), wp_ret. split; [done|right]. by exists t, d, x.
Qed.

(** How long the service blocks when nothing is due. *)
Lemma block_time n s A v (e : bool) : (v = 0 /\ e = true /\ (forall t d, A !! t = Some d -> d / 4294967296 = n / 4294967296 + 1) \/ exists t d x, v = u32 d /\ e = false /\ next_is (n / 4294967296) s A t d x) ->
  negb e && (v <=? u32 n) = false -> 0 <= u32 (v - u32 n) /\ forall t d, A !! t = Some d -> n < d /\ n + u32 (v - u32 n) <= d.
Proof.
  intros Hv Hc. pose proof (Z.div_mod n 4294967296 ltac:(lia)). pose proof (Z.mod_pos_bound n 4294967296 ltac:(lia)). rewrite !u32_eq in *. split; [apply Z.mod_pos_bound; lia|]. intros t d Ed.
  destruct Hv as [(-> & -> & Hall)|(t0 & d0 & x & -> & -> & [Ed0 _ Hq Hmin _ _])].
  - specialize (Hall t d Ed). pose proof (Z.div_mod d 4294967296 ltac:(lia)). pose proof (Z.mod_pos_bound d 4294967296 ltac:(lia)). split; [lia|].
    assert ((0 - n mod 4294967296) mod 4294967296 <= 4294967296 - n mod 4294967296); [|lia]. destruct (Z.eq_dec (n mod 4294967296) 0) as [->|Hz]; [by vm_compute|].
    set (r := n mod 4294967296) in *. clearbody r. pose proof (Z.mod_unique_pos (0 - r) 4294967296 (-1) (4294967296 - r) ltac:(lia) ltac:(lia)). lia.
  - specialize (Hmin t d Ed). pose proof (Z.div_mod d0 4294967296 ltac:(lia)). pose proof (Z.mod_pos_bound d0 4294967296 ltac:(lia)). cbn [negb andb] in Hc. rewrite u32_eq in Hc. apply Z.leb_gt in Hc.
    rewrite Z.mod_small by (rewrite u32_eq; lia). rewrite u32_eq. lia.
Qed.

(** The service blocks. *)
Lemma block_spec n s A w : at_rest n s A ->
  wp (modify (with_call (BlockedFor w));; on_ker (tk_wait (xTimerQueue s) w);; yielded ← on_ker tk_resume_all; if (yielded : bool) then mret tt else on_ker tk_yield)
     (fun _ s' => at_rest n s' A /\ timers s' = timers s /\ went s s' [BlockedFor w] []) s.
Proof.
  intros R. pose proof R as [[Hf Hq [V K]] HL]. apply wp_bind, wp_modify, wp_bind. set (s1 := with_call (BlockedFor w) s).
  assert (R1 : forall k, fine k -> at_rest n (with_tker k s1) A) by (intros k Fk; split; [|done]; split; [done|done|by exists V]).
  assert (W1 : went s s1 [BlockedFor w] []) by (split; [done|done|exists []; by rewrite app_nil_r]).
  rewrite Hq. eapply (wait_spec _ s1); [by apply wait_law|]. intros _ k2 F2 W2 _. apply wp_bind. eapply wait_spec; [by apply resume_law|]. intros y k3 F3 W3 _.
  pose proof (went_trans _ _ _ _ _ _ _ (went_trans _ _ _ _ _ _ _ W1 W2) W3) as W4. destruct y; [apply wp_ret; by split; [apply R1|]|].
  eapply wait_spec; [by apply yield_law|]. intros [] k5 F5 W5 _. split_and!; [by apply R1|done|]. apply (went_trans _ _ _ _ [] _ [] W4 W5).
Qed.

(** C6: one turn of the timer service ([prvGetNextExpireTime] and
    [prvProcessTimerOrBlockTask]) at the time [n], less than 2^32 ticks after
    the last sample at [L] ([turn]).  While the tick count has not overflowed
    since, the timer that is due first is called, one in a turn, and renewed
    from the time at which it was due; if none is due, the service blocks, no
    longer than until the next one is.  After an overflow all timers that were
    due in the last period are called in the order of their due times, and the
    lists change their roles.  No timer is called before its time.  The turn
    returns when the queue has room for the commands that the service sends to
    itself and those of others in the meantime ([has_room]); only without that
    room may it stop, and only at an assertion (timers.c:408 or 762).  The functions that are called neither create
    timers nor use the lists: they send commands. *)
Theorem timer_turn_refines fuel L s A (n := clock (tker s)) :
  at_rest L s A -> L <= n < L + 4294967296 -> enough fuel s ->
  safe (has_room L s A) ('(xNextExpireTime, xListWasEmpty) ← prvGetNextExpireTime; prvProcessTimerOrBlockTask fuel xNextExpireTime xListWasEmpty)
    (fun _ s' => exists A' cs ms, turn (timers s) L n A A' cs ms /\ at_rest n s' A' /\ timers s' = timers s /\ went s s' cs ms) s.
Proof.
  intros R Hn Hf. set (G := has_room L s A). pose proof R as [S HL]. apply safe_step. eapply wp_mono; [apply (next_spec _ s A S)|]. intros [v e] s0 [-> Hv]. unfold prvProcessTimerOrBlockTask.
  apply safe_step, wp_kernel. eapply wp_mono; [apply suspend_law, S|]. intros [] k1 (F1 & C1 & I1 & E1). assert (W1 : went s (with_tker k1 s) [] []) by (split; [by rewrite app_nil_r|cbn; lia|exists []; by rewrite app_nil_r]).
  apply safe_bind. eapply safe_mono; [apply (sample_spec G fuel L (with_tker k1 s) A); [by apply at_rest_ker|cbn; rewrite C1; exact Hn|exact Hf|intros g; unfold has_room; cbn; rewrite C1, E1; exact g]|].
  cbn [tker with_tker timers]. rewrite C1. fold n. cbv zeta.
  intros r s2 (A2 & cs & ms & -> & T2 & R2 & X2 & W2 & E2 & Hsame). destruct (overflow_test L n Hn) as [_ Hq]. destruct (Z.eqb_spec (n / 4294967296) (L / 4294967296)) as [Eq|Hne]; cbn [negb].
  - destruct X2 as (_ & _ & Hno). destruct (Hno Eq) as (-> & -> & ->). rewrite (Hsame Eq) in *. rewrite <- Eq in Hv. clear W2 Hsame Hno. set (s2' := with_last (u32 n) (with_tker k1 s)) in *.
    assert (W2 : went s s2' [] []) by (destruct W1; by split). destruct (negb e && (v <=? u32 n)) eqn:Hc.
    + destruct Hv as [[[= -> ->] _]|(t & d & x & [= -> ->] & N)]; [done|]. cbn in Hc. apply Z.leb_le in Hc. apply same_period_le in Hc; [|apply N].
      apply safe_step. eapply (wait_spec _ s2'); [by apply resume_law|]. intros _ k3 F3 W3 E3.
      eapply safe_mono; [apply (expired_spec G n (with_tker k3 s2') A t d x); [by apply at_rest_ker|by destruct N; split|done|]|].
      { intros g. pose proof (g A [] [] (expire_none _ _ _ _)) as H. cbn in H, E3 |- *. lia. }
      intros [] s4 (A4 & ms4 & T4 & R4 & N4 & W4). exists A4, [TimerCallback (pxCallbackFunction x) t], ms4. split_and!; [|done|done|].
      * by eapply turn_expires; [exact Eq|apply N|apply N|exact Hc|apply N|].
      * apply (went_trans s s2' s4 [] _ [] ms4 W2), (went_trans s2' _ s4 [] _ [] ms4 W3 W4).
    + destruct (block_time n s A v e ltac:(destruct Hv as [[[= -> ->] ?]|(t & d & x & [= -> ->] & N)]; [left|right; exists t, d, x]; done) Hc) as [Hw0 Hw].
      apply safe_step, wp_get, safe_wp. eapply wp_mono; [by apply (block_spec n s2' A)|]. intros [] s3 (R3 & T3 & W3).
      exists A, [BlockedFor (u32 (v - u32 n))], []. split_and!; [by constructor|done|done|]. apply (went_trans s s2' s3 [] _ [] [] W2 W3).
  - apply safe_step. eapply (wait_spec _ s2); [apply resume_law, R2|]. intros _ k3 F3 W3 _. apply safe_ret. exists A2, cs, ms. split_and!; [apply turn_overflows; [lia|done]|by apply at_rest_ker|done|].
    apply (went_trans s _ _ [] _ [] _ W1). rewrite <- (app_nil_r cs), <- (app_nil_r ms). by apply (went_trans _ s2 _ cs [] ms []).
Qed.

(** ** Commands *)

(** The timer leaves its list. *)
Lemma take_out_spec {B} (G : Prop) L s A t x (k : M (tstate Q) B) (P : B -> tstate Q -> Prop) : at_rest L s A -> timers s !! t = Some x ->
  (forall l, at_rest L (with_tmem l s) (delete t A) -> safe G k P (with_tmem l s)) ->
  safe G (out ← on_lists (listIS_CONTAINED_WITHIN 0 (xTimerListItem t)); (if (out : bool) then mret tt else on_lists (uxListRemove (xTimerListItem t));; mret tt);; k) P s.
Proof.
  intros [S HL] Ht HP. destruct (sv_held _ _ _ S) as [V K]. apply safe_step, wp_on_lists. eapply held_within; [exact K|exact Ht|]. assert (Eid : with_tmem (tmem s) s = s) by (by destruct s).
  rewrite Eid. case_bool_decide as Ed; apply safe_step.
  - apply wp_ret. specialize (HP (tmem s)). rewrite Eid, delete_id in HP by done. by apply HP.
  - destruct (A !! t) as [d|] eqn:E; [|done]. apply wp_bind. eapply take_off_spec; [exact S|exact E|]. intros _ l S1. apply wp_ret, HP. by split.
Qed.

(** The outcome of a command. *)
Definition obeyed n m x s A s' : Prop := exists A' cs ms, commanded (timers s) n m x A (timers s') A' cs ms /\ at_rest n s' A' /\ went s s' cs ms.

Section Command.
Context (G : Prop) (n : Z) (s : tstate Q) (A : gmap Z Z) (m : DaemonTaskMessage_t) (x : Timer_t) (t := pxTimer_of m).
Context (R : at_rest n s A) (HA : A !! t = None) (Ht : timers s !! t = Some x) (Hv : 0 <= xMessageValue m < 4294967296)
  (HG : G -> busy < space (tker s) /\ (changes_period (xMessageID m) = true -> 0 < xMessageValue m)).

Lemma start_command_spec : starts (xMessageID m) = true ->
  safe G (y ← timer t;
    expired ← prvInsertTimerInActiveList t (u32 (xMessageValue m + xTimerPeriodInTicks y)) (u32 n) (xMessageValue m);
    if (expired : bool) then
      invoke (TimerCallback (pxCallbackFunction y) t);;
      y ← timer t;
      if uxAutoReload y =? 1 then reload t (u32 (xMessageValue m + xTimerPeriodInTicks y)) else mret tt
    else mret tt) (fun _ s' => obeyed n m x s A s') s.
Proof.
  intros Es. destruct R as [S HL]. destruct (past_spec n (xMessageValue m) Hv) as [Hp Ep]. set (c := past n (xMessageValue m)) in *. set (d := c + xTimerPeriodInTicks x).
  assert (Ed : u32 (xMessageValue m + xTimerPeriodInTicks x) = u32 d) by (rewrite <- Ep; apply u32_add_u32).
  apply safe_step. eapply wp_timer; [exact Ht|]. rewrite Ed, <- Ep at 1. apply safe_step. eapply (insert_timer_spec n c); [exact S|exact Ht|done|lia|]. fold d. intros l S1. destruct (Z.leb_spec d n) as [Hd|Hd].
  - apply safe_step. eapply invoke_spec; [exact S1|]. intros k S2 W2 E2. apply safe_step. eapply wp_timer; [exact Ht|]. rewrite Ed.
    assert (C : commanded (timers s) n m x A (timers s) A [TimerCallback (pxCallbackFunction x) t] (if uxAutoReload x =? 1 then [restart t d] else [])) by (by constructor).
    assert (W3 : went s (with_tker k (with_call (TimerCallback (pxCallbackFunction x) t) (with_tmem l s))) [TimerCallback (pxCallbackFunction x) t] []) by (destruct W2; by split).
    destruct (uxAutoReload x =? 1).
    + eapply reload_spec; [exact S2|intros g; destruct (HG g); cbn in E2 |- *; lia|]. intros k' S3 W4 _. eexists A, _, _. split_and!; [exact C|by split|]. apply (went_trans _ _ _ [TimerCallback (pxCallbackFunction x) t] [] [] [restart t d] W3 W4).
    + apply safe_ret. eexists A, _, _. split_and!; [exact C|by split|exact W3].
  - apply safe_ret. exists (<[t := d]> A), [], []. split_and!; [by apply (cmd_start _ _ _ _ _ d)|by split|by apply went_same].
Qed.

Lemma period_spec : changes_period (xMessageID m) = true ->
  safe G (y ← timer t; set_timer t (set_period (xMessageValue m) y);; check (0 <? xMessageValue m);; prvInsertTimerInActiveList t (u32 (u32 n + xMessageValue m)) (u32 n) (u32 n);; mret tt) (fun _ s' => obeyed n m x s A s') s.
Proof.
  intros Es. destruct R as [S HL]. destruct (sv_held _ _ _ S) as [V K]. apply safe_step. eapply wp_timer; [exact Ht|]. apply safe_step, wp_modify. apply safe_bind, safe_check; [intros g; by apply Z.ltb_lt, HG|]. intros Hpos%Z.ltb_lt.
  set (x' := set_period (xMessageValue m) x). set (s1 := with_timers (<[t := x']> (timers s)) s).
  assert (S1 : serving (n / 4294967296) s1 A).
  { split; [apply S..|]. exists V. apply (held_timers _ _ _ _ _ _ _ K (<[t := x']> (timers s))).
    - intros t' d Ed. destruct (decide (t = t')) as [<-|Hne]; [by rewrite HA in Ed|]. rewrite lookup_insert_ne by done. by apply (h_due _ _ _ _ _ _ _ K t' d).
    - intros t' y. destruct (decide (t = t')) as [<-|Hne]; [|rewrite lookup_insert_ne by done; apply (h_timer _ _ _ _ _ _ _ K)].
      rewrite lookup_insert_eq. intros [= <-]. destruct (h_timer _ _ _ _ _ _ _ K t x Ht) as (H1 & _ & H3). split; [done|]. split; [cbn; lia|done]. }
  apply safe_step. rewrite u32_add_u32. eapply (insert_timer_spec n n s1 A t x'); [exact S1|apply lookup_insert_eq|done|lia|]. cbn [xTimerPeriodInTicks x' set_period].
  destruct (Z.leb_spec (n + xMessageValue m) n); [lia|]. intros l S2. apply safe_ret. exists (<[t := n + xMessageValue m]> A), [], []. split_and!; [by constructor|by split|by apply went_same].
Qed.

Lemma run_command_spec : safe G (run_command m (u32 n)) (fun _ s' => obeyed n m x s A s') s.
Proof.
  assert (Hstop : starts (xMessageID m) = false -> changes_period (xMessageID m) = false -> xMessageID m <> tmrCOMMAND_DELETE -> safe G (mret tt) (fun _ s' => obeyed n m x s A s') s).
  { intros H0 H1 H2. apply safe_ret. exists A, [], []. split_and!; [by constructor|done|apply went_refl]. }
  unfold run_command. fold t (starts (xMessageID m)) (changes_period (xMessageID m)). cbv zeta. destruct (starts (xMessageID m)) eqn:Es; [by apply start_command_spec|]. pose proof period_spec as Hper.
  destruct ((xMessageID m =? tmrCOMMAND_STOP) || (xMessageID m =? tmrCOMMAND_STOP_FROM_ISR)) eqn:Eh.
  { apply Hstop; [done| |intros E; by rewrite E in Eh]. by apply orb_true_iff in Eh as [->%Z.eqb_eq| ->%Z.eqb_eq]. }
  destruct (changes_period (xMessageID m)) eqn:Ec; [by apply Hper|]. destruct (Z.eqb_spec (xMessageID m) tmrCOMMAND_DELETE) as [Ed|Ed]; [|by apply Hstop].
  apply safe_wp, wp_modify. exists A, [], []. split_and!; [by constructor| |by apply went_same]. destruct R as [S HL]. destruct (sv_held _ _ _ S) as [V K]. split; [|done]. split; [apply S..|]. exists V.
  apply (held_timers _ _ _ _ _ _ _ K (delete t (timers s))).
  - intros t' d E. assert (t <> t') by congruence. rewrite lookup_delete_ne by done. by apply (h_due _ _ _ _ _ _ _ K t' d).
  - intros t' y [_ Hy]%lookup_delete_Some. by apply (h_timer _ _ _ _ _ _ _ K).
Qed.
End Command.

(** C13: one command to a timer, taken from the queue at the time [n]: the timer
    leaves the lists, what was due in the last period of the tick count
    expires if the count has overflowed ([switched]), and then the timer runs
    until a period after it was started, is called at once if that is over
    already and starts again if it reloads, gets its new period from now on, is
    freed, or stays out of the lists, as the command says ([commanded]).  The
    command is carried out to its end when a new period is not zero and the
    queue has room for the restarts and for what others send in the meantime
    ([has_room]); only otherwise may the service stop, and only at an assertion
    (timers.c:670, 693 or 762).  The functions
    that are called neither create timers nor use the lists. *)
Theorem timer_command_refines fuel L s A m x (n := clock (tker s)) :
  at_rest L s A -> L <= n < L + 4294967296 -> enough fuel s -> 0 <= xMessageID m -> 0 <= xMessageValue m < 4294967296 -> timers s !! pxTimer_of m = Some x ->
  safe (has_room L s (delete (pxTimer_of m) A) /\ (changes_period (xMessageID m) = true -> 0 < xMessageValue m)) (process_message fuel m) (fun _ s' => exists A1 A2 cs1 cs2 ms1 ms2,
    switched (timers s) L n (delete (pxTimer_of m) A) A1 cs1 ms1 /\ commanded (timers s) n m x A1 (timers s') A2 cs2 ms2 /\ at_rest n s' A2 /\ went s s' (cs1 ++ cs2) (ms1 ++ ms2)) s.
Proof.
  intros R Hn Hf Hid Hv Ht. set (G := _ /\ _). unfold process_message. destruct (Z.ltb_spec (xMessageID m) 0); [lia|]. cbv zeta. apply safe_step. eapply wp_timer; [exact Ht|].
  eapply take_out_spec; [exact R|exact Ht|]. intros l R1. apply safe_bind. eapply safe_mono; [apply (sample_spec G fuel L _ _ R1); [exact Hn|exact Hf|by intros [g _]]|].
  intros r s2 (A1 & cs1 & ms1 & -> & T2 & R2 & X2 & W2 & E2 & _). cbn [tker with_tmem] in *. fold n in R2, X2 |- *.
  eapply safe_mono; [apply (run_command_spec G n s2 A1 m x R2); [by eapply expire_keeps_out; [apply X2|apply lookup_delete_eq]|by rewrite T2|done|]|].
  { intros [g1 g2]. split; [|done]. specialize (g1 _ _ _ (proj1 X2)). lia. }
  intros [] s3 (A2 & cs2 & ms2 & C3 & R3 & W3). exists A1, A2, cs1, cs2, ms1, ms2. rewrite T2 in C3. split_and!; [done..|]. eapply went_trans; [|exact W3]. destruct W2. by split.
Qed.
End Service.
