(* ===== verification/RtosTimerCreate.v ===== *)
(** * Creation of timers

    The first call of [xTimerCreate] or [xTimerCreateTimerTask] sets up the
    lists and the queue of the timer service; every later one adds a timer that
    does not run.  Both lead to the states in which the guarantees of
    [RtosTimerService] hold, and [xTimerIsTimerActive] tells which timers run. *)

From S2P Require Import Prelude RtosList RtosStore RtosTimers RtosTimerSpec RtosTimerService.

#[local] Open Scope Z_scope.

(** ** Memory *)

(** An item outside of the lists may be overwritten. *)
Lemma store_outside (m : list_mem) V a (g : ListItem_t) (m' := ListMem (<[a := g]> (items m)) (lists m)) :
  store m V -> free V a -> pvContainer g = 0 -> 0 <= xItemValue g <= portMAX_DELAY -> Z.of_nat (size (items m)) < 2 ^ 32 -> store m' V.
Proof.
  intros HS Hf Hg Hv Hn. assert (Hout : forall x, x <> a -> items m' !! x = items m !! x) by (intros x Hx; apply lookup_insert_ne; congruence).
  assert (Hin : forall L xs i x, V !! L = Some (xs, i) -> x ∈ xListEnd L :: xs -> x <> a) by (intros L xs i x HV Hx ->; by apply (Hf _ _ _ HV)). split.
  - intros L xs i HV. destruct (st_at _ _ HS _ _ _ HV) as [Hh Hb Hs Hd Hi He Hc]. split; try done.
    + eapply seg_frame; [| |exact Hs]; intros x Hx; unfold nx, pv; (rewrite Hout; [done|]); eapply Hin; [exact HV|set_solver|exact HV|set_solver].
    + unfold value. rewrite Hout; [done|]. eapply Hin; [exact HV|left].
    + intros x Hx. unfold container. rewrite Hout; [by apply Hc|]. eapply Hin; [exact HV|by right].
  - apply HS.
  - intros x Hx Hfx. unfold container. destruct (decide (x = a)) as [->|Hne]; [cbn; by rewrite lookup_insert_eq, <- Hg|]. rewrite Hout in * by done. by apply (st_out _ _ HS).
  - apply HS.
  - intros x v. unfold value. destruct (decide (x = a)) as [->|Hne]; [cbn; rewrite lookup_insert_eq; intros [= <-]; done|]. rewrite Hout by done. apply HS.
  - cbn [items m']. rewrite map_size_insert. destruct (items m !! a); unfold id; lia.
Qed.

Lemma initialise_run (m : list_mem) L h i : lists m !! L = Some h -> items m !! xListEnd L = Some i ->
  vListInitialise L m = Ret (tt, ListMem (<[xListEnd L := Item portMAX_DELAY (xListEnd L) (xListEnd L) (pvOwner i) (pvContainer i)]> (items m)) (<[L := ListHdr 0 (xListEnd L)]> (lists m))).
Proof.
  intros Hh Hi. unfold vListInitialise, set_list, set_item, list_, item, get, modify, mbind, M_bind, mret, M_ret. cbn. rewrite Hh. cbn. rewrite Hi. cbn.
  do 2 (rewrite lookup_insert_eq; cbn). rewrite !insert_insert_eq. cbn. rewrite lookup_insert_eq. cbn. by rewrite !insert_insert_eq.
Qed.

(** Two new lists. *)
Lemma store_two (m : list_mem) L1 L2 (e1 := xListEnd L1) (e2 := xListEnd L2) o1 c1 o2 c2 :
  L1 <> L2 -> L1 <> 0 -> L2 <> 0 ->
  items m !! e1 = Some (Item portMAX_DELAY e1 e1 o1 c1) -> items m !! e2 = Some (Item portMAX_DELAY e2 e2 o2 c2) ->
  lists m !! L1 = Some (ListHdr 0 e1) -> lists m !! L2 = Some (ListHdr 0 e2) ->
  (forall x i, items m !! x = Some i -> 0 <= xItemValue i <= portMAX_DELAY /\ (x <> e1 -> x <> e2 -> pvContainer i = 0)) -> Z.of_nat (size (items m)) <= 2 ^ 32 ->
  store m (<[L1 := ([], e1)]> (<[L2 := ([], e2)]> ∅)).
Proof.
  intros Hne H1 H2 Hi1 Hi2 Hl1 Hl2 Hall Hn.
  assert (Hlook : forall L xs i, (<[L1 := ([], e1)]> (<[L2 := ([], e2)]> ∅) : view) !! L = Some (xs, i) -> xs = [] /\ i = xListEnd L /\ (L = L1 \/ L = L2)).
  { intros L xs i. rewrite !lookup_insert. repeat case_decide; [intros [= <- <-]..|done]; subst; auto. }
  assert (Hat : forall L, lists m !! L = Some (ListHdr 0 (xListEnd L)) -> (exists o c, items m !! xListEnd L = Some (Item portMAX_DELAY (xListEnd L) (xListEnd L) o c)) -> list_at m L [] (xListEnd L)).
  { intros L Hh (o & c & Hi). split; cbn [seg length]; [done|lia|unfold nx, pv; by rewrite Hi|apply NoDup_singleton|left|unfold value; by rewrite Hi|set_solver]. }
  split.
  - intros L xs i (-> & -> & [->| ->])%Hlook; apply Hat; by eauto.
  - intros L xs i L' xs' i' x (-> & _ & _)%Hlook (-> & _ & _)%Hlook HL. unfold xListEnd. set_unfold. lia.
  - intros x [i Hx] Hf. unfold container. rewrite Hx. cbn. f_equal. apply (Hall x i Hx).
    + intros ->. apply (Hf L1 [] e1); [by rewrite lookup_insert_eq|left].
    + intros ->. apply (Hf L2 [] e2); [by rewrite lookup_insert_ne, lookup_insert_eq|left].
  - by rewrite !lookup_insert_ne.
  - intros x v. unfold value. intros (i & Hx & ->)%fmap_Some. by apply (Hall x i).
  - done.
Qed.

Lemma held_two (m : list_mem) L1 L2 : L1 <> L2 -> store m (<[L1 := ([], xListEnd L1)]> (<[L2 := ([], xListEnd L2)]> ∅)) ->
  held 0 m ∅ L1 L2 ∅ (<[L1 := ([], xListEnd L1)]> (<[L2 := ([], xListEnd L2)]> ∅)).
Proof.
  intros Hne HS. split; [done| |done| |done|done].
  - intros b. exists [], (xListEnd (pick L1 L2 b)). split_and!; [|intros t; split; [by intros ?%not_elem_of_nil|by intros (d & ? & _)]|constructor].
    destruct b; cbn [pick]; [rewrite lookup_insert_ne by done|]; by rewrite lookup_insert_eq.
  - intros l. rewrite !lookup_insert. case_decide as E; [by exists false|]. case_decide as E'; [by exists true|]. by intros [].
Qed.

(** A new timer. *)
Lemma held_new q (m : list_mem) T C O A V p x (g : ListItem_t) : held q m T C O A V -> T !! p = None -> (forall b, xTimerListItem p <> xListEnd (pick C O b)) ->
  pvContainer g = 0 -> 0 <= xItemValue g <= portMAX_DELAY -> Z.of_nat (size (items m)) < 2 ^ 32 -> 0 < xTimerPeriodInTicks x < 4294967296 ->
  A !! p = None /\ held q (ListMem (<[xTimerListItem p := g]> (items m)) (lists m)) (<[p := x]> T) C O A V.
Proof.
  intros K Hp Hm Hg Hv Hn Hper. assert (HA : A !! p = None). { destruct (A !! p) eqn:E; [|done]. destruct (h_due _ _ _ _ _ _ _ K p _ E) as (_ & _ & _ & [y Hy]). by rewrite Hp in Hy. }
  assert (Hf : free V (xTimerListItem p)).
  { intros l xs i Hl. destruct (h_only _ _ _ _ _ _ _ K l ltac:(by eexists)) as [b ->]. destruct (h_lists _ _ _ _ _ _ _ K b) as (ts & j & E & Hin & _). rewrite E in Hl. injection Hl as <- <-.
    rewrite elem_of_cons, elem_item, Hin. intros [Ec|(d & Ed & _)]; [by apply (Hm b)|congruence]. }
  assert (Hout : forall y, y <> xTimerListItem p -> (<[xTimerListItem p := g]> (items m)) !! y = items m !! y) by (intros y Hy; apply lookup_insert_ne; congruence).
  split; [done|]. split; [apply (store_outside m V (xTimerListItem p) g); [apply K|done..]| |apply K|apply K| |].
  - intros b. destruct (h_lists _ _ _ _ _ _ _ K b) as (ts & i & E & Hts & Hs). exists ts, i. split_and!; [done..|]. eapply sorted_in; [|exact Hs]. intros y Hy. unfold key, value. cbn. rewrite Hout; [done|]. intros ->. apply (Hf _ _ _ E). by right.
  - intros t y. destruct (decide (p = t)) as [<-|Hne].
    + rewrite lookup_insert_eq. intros [= <-]. split; [|done]. cbn. rewrite lookup_insert_eq. by eexists.
    + rewrite lookup_insert_ne by done. intros Ht. destruct (h_timer _ _ _ _ _ _ _ K t y Ht) as (H1 & H2). split; [|done]. cbn. rewrite Hout; [done|]. intros E%item_inj. congruence.
  - intros t d Ed. destruct (h_due _ _ _ _ _ _ _ K t d Ed) as (H1 & H2 & H3 & H4). assert (t <> p) by congruence. unfold value, owner. cbn. rewrite Hout by (intros E%item_inj; congruence). rewrite lookup_insert_ne by congruence. done.
Qed.

Section Create.
Context {Q : Type} {TK : TimerKernel Q} {TL : TimerKernelLaws Q} (L1 L2 : Z).
Implicit Types (s : tstate Q) (A : gmap Z Z).

(** Before the first timer is created: the lists are zeroed memory, as is every item. *)
Record fresh s : Prop := {
  fr_queue : xTimerQueue s = 0;
  fr_kernel : unmade (tker s);
  fr_last : xLastTime s = 0;
  fr_addr : L1 <> L2 /\ L1 <> 0 /\ L2 <> 0;
  fr_hdrs : is_Some (lists (tmem s) !! L1) /\ is_Some (lists (tmem s) !! L2) /\ is_Some (items (tmem s) !! xListEnd L1) /\ is_Some (items (tmem s) !! xListEnd L2);
  fr_items : forall x i, items (tmem s) !! x = Some i -> 0 <= xItemValue i <= portMAX_DELAY /\ pvContainer i = 0;
  fr_few : Z.of_nat (size (items (tmem s))) < 2 ^ 32;
  fr_timers : timers s = ∅
}.

(** The service is set up when its queue can be created. *)
Lemma check_lists_spec (G : Prop) s : fresh s -> (G -> can_create (tker s)) ->
  safe G (prvCheckForValidListAndQueue L1 L2) (fun _ s' => at_rest 0 s' ∅ /\ timers s' = ∅ /\ pxCurrentTimerList s' = L1 /\ pxOverflowTimerList s' = L2
    /\ calls s' = calls s /\ clock (tker s') = clock (tker s) /\ inbox (tker s') = [] /\ size (items (tmem s')) = size (items (tmem s))) s.
Proof.
  intros [Hq Hk Hl (Hne & H1 & H2) ([h1 Hh1] & [h2 Hh2] & [i1 Hi1] & [i2 Hi2]) Hall Hfew HT] HG. unfold prvCheckForValidListAndQueue. apply safe_step, wp_get. rewrite Hq. cbn [Z.eqb].
  assert (Hee : xListEnd L1 <> xListEnd L2) by (unfold xListEnd; lia). apply safe_step, wp_on_lists. eapply wp_run; [by apply (initialise_run _ _ h1 i1)|].
  apply safe_step, wp_on_lists. eapply wp_run; [apply (initialise_run _ _ h2 i2); cbn; by rewrite lookup_insert_ne|]. apply safe_step, wp_modify, safe_step, wp_kernel.
  eapply wp_mono; [by apply create_law|]. intros r k Hr. pose proof handle_null as Hnull.
  apply safe_step, wp_modify, safe_check; [intros g; apply negb_true_iff, Z.eqb_neq; destruct Hr as [(_ & _ & Hno)|(-> & _)]; [by destruct (Hno (HG g))|done]|].
  intros Hr0. destruct Hr as [[-> _]|(-> & Hf & Hc & Hi)]; [done|]. clear Hr0.
  split_and!; [|exact HT|done|done|done|done|done|].
  - split; [|exact Hl]. split; [done|done|]. eexists. cbn [timers with_tker with_tqueue with_tlists with_tmem]. rewrite HT. apply held_two; [done|].
    eapply (store_two _ L1 L2); cbn [tmem with_tker with_tqueue with_tlists with_tmem items lists]; [done..| | | | | |].
    + rewrite lookup_insert_ne by congruence. apply lookup_insert_eq.
    + apply lookup_insert_eq.
    + rewrite lookup_insert_ne by congruence. apply lookup_insert_eq.
    + apply lookup_insert_eq.
    + intros x i. rewrite !lookup_insert. repeat case_decide; [intros [= <-]; cbn; unfold portMAX_DELAY; split; [lia|congruence]..|]. intros Hx. split; [|intros _ _]; by apply (Hall x i Hx).
    + rewrite !map_size_insert_Some; [lia| |]; rewrite ?lookup_insert_ne by done; by eexists.
  - cbn. rewrite !map_size_insert_Some; [lia| |]; rewrite ?lookup_insert_ne by done; by eexists.
Qed.

(** There is room for the list item of the timer [p], apart from the markers. *)
Definition room s (p : Z) : Prop := timers s !! p = None /\ xTimerListItem p <> xListEnd L1 /\ xTimerListItem p <> xListEnd L2 /\ Z.of_nat (size (items (tmem s))) < 2 ^ 32.

(** The service is at rest with the two lists, or not there yet. *)
Definition usable (L : Z) s A : Prop :=
  (at_rest L s A /\ (forall b, pick (pxCurrentTimerList s) (pxOverflowTimerList s) b = L1 \/ pick (pxCurrentTimerList s) (pxOverflowTimerList s) b = L2)) \/ (fresh s /\ L = 0 /\ A = ∅).

Lemma usable_ready (G : Prop) L s A : usable L s A -> (G -> xTimerQueue s = 0 -> can_create (tker s)) ->
  safe G (prvCheckForValidListAndQueue L1 L2) (fun _ s' => at_rest L s' A /\ timers s' = timers s /\ calls s' = calls s /\ clock (tker s') = clock (tker s) /\ size (items (tmem s')) = size (items (tmem s))
    /\ forall b, pick (pxCurrentTimerList s') (pxOverflowTimerList s') b = L1 \/ pick (pxCurrentTimerList s') (pxOverflowTimerList s') b = L2) s.
Proof.
  intros [[R Hp]|(F & -> & ->)] HG.
  - unfold prvCheckForValidListAndQueue. apply safe_step, wp_get. rewrite (sv_queue _ _ _ (proj1 R)). destruct (Z.eqb_spec handle 0) as [E|_]; [by destruct (handle_null E)|]. by apply safe_ret.
  - eapply safe_mono; [apply (check_lists_spec G s F); intros g; apply (HG g), F|]. intros [] s' (R & T' & E1 & E2 & C' & K' & _ & N'). rewrite (fr_timers _ F), E1, E2. split_and!; try done. intros []; cbn; auto.
Qed.

(** C32: [xTimerCreate], be it the first call or a later one: without memory it
    returns NULL and changes nothing; with memory for the timer it returns its
    handle, the service is ready, and the new timer has the parameters of the
    call and does not run, while the timers that run are those that ran.  It
    returns whenever the period is not zero and, on the first call, the queue
    of the service can be created; without these it stops at one of the two
    assertions (timers.c:318 and 799), with a period of zero always, where the comment at
    timers.h:173 has it return NULL. *)
Theorem timer_create_ready p g name per reload id f L s A :
  usable L s A -> room s p -> 0 <= xItemValue g <= portMAX_DELAY -> 0 <= per < 4294967296 ->
  safe (per <> 0 /\ (xTimerQueue s = 0 -> can_create (tker s))) (xTimerCreate L1 L2 p g name per reload id f) (fun r s' => per <> 0 /\
    (r = 0 /\ p = 0 /\ s' = s \/
     r = p /\ p <> 0 /\ at_rest L s' A /\ A !! p = None /\ timers s' = <[p := Timer name per reload id f]> (timers s) /\ calls s' = calls s /\ clock (tker s') = clock (tker s))) s.
Proof.
  intros U (Hp & Hm1 & Hm2 & Hfew) Hg Hper. unfold xTimerCreate. destruct (Z.eqb_spec per 0) as [->|Hper0]; [apply safe_bind, safe_check; [by intros []|done]|].
  destruct (Z.eqb_spec p 0) as [->|Hp0]; [apply safe_ret; by auto|]. apply safe_bind. eapply safe_mono; [apply (usable_ready _ L s A U); by intros []|]. intros [] s1 ([[Hf Hq [V K]] HL] & T1 & C1 & K1 & N1 & P1).
  destruct (held_new _ _ _ _ _ _ _ p (Timer name per reload id f) (set_container 0 g) K) as [HA K']; [by rewrite T1|intros b; by destruct (P1 b) as [-> | ->]|done|done|by rewrite N1|cbn; lia|].
  apply safe_step, wp_modify, safe_step, wp_modify, safe_step, wp_on_lists. eapply wp_run.
  { unfold vListInitialiseItem, set_item, item, get, modify, mbind, M_bind, mret, M_ret. cbn. rewrite lookup_insert_eq. cbn. by rewrite insert_insert_eq. }
  apply safe_ret. split; [done|right]. split_and!; try done; [|cbn; by rewrite T1]. split; [|done]. split; [done|done|by exists V].
Qed.

(** [xTimerIsTimerActive] tells whether the timer runs. *)
Lemma is_active_spec L s A t x : at_rest L s A -> timers s !! t = Some x -> xTimerIsTimerActive t s = Ret (bool_decide (is_Some (A !! t)), s).
Proof.
  intros [[Hf Hq [V K]] HL] Ht. edestruct (wp_inv (xTimerIsTimerActive t) (fun r s' => r = bool_decide (is_Some (A !! t)) /\ s' = s) s) as (r & s' & -> & -> & ->); [|done].
  unfold xTimerIsTimerActive. apply wp_bind. eapply wp_timer; [exact Ht|]. apply wp_bind, wp_on_lists. eapply held_within; [exact K|exact Ht|]. apply wp_ret. split; [|by destruct s].
  by destruct (A !! t).
Qed.
End Create.
