(* ===== verification/RtosTimerWitness.v ===== *)
(** * A timer service at work

    A small kernel with the laws of [RtosTimerSpec]: a queue of bounded length
    and a clock that moves when the service waits.  On it the hypotheses of the
    theorems on timers hold, and runs of the model show what the service does
    at an overflow of the tick count and when its own command meets others. *)

From S2P Require Import Prelude RtosList RtosStore RtosTimers RtosTimerSpec RtosTimerService RtosTimerCreate.

#[local] Open Scope Z_scope.

(** ** The kernel *)

Record fifo : Type := Fifo { now : Z; queued : list DaemonTaskMessage_t; room_for : nat; there : bool }.

Definition push (m : DaemonTaskMessage_t) : M fifo bool := fun k =>
  if (length (queued k) <? room_for k)%nat then Ret (true, Fifo (now k) (queued k ++ [m]) (room_for k) (there k)) else Ret (false, k).

#[export] Instance fifo_kernel : TimerKernel fifo := {
  tk_ticks := gets (fun k => u32 (now k));
  tk_running := mret true;
  tk_create := modify (fun k => Fifo (now k) [] (room_for k) true);; mret 0x5000;
  tk_send := fun _ m _ => b ← push m; mret (Some b);
  tk_send_isr := fun _ m => b ← push m; mret (b, false);
  tk_receive := fun _ k => match queued k with [] => Ret (None, k) | m :: q => Ret (Some m, Fifo (now k) q (room_for k) (there k)) end;
  tk_wait := fun _ w => modify (fun k => Fifo (now k + Z.max 0 w) (queued k) (room_for k) (there k));
  tk_suspend_all := mret tt;
  tk_resume_all := mret false;
  tk_yield := mret tt;
  tk_call := fun _ => mret tt
}.

#[export, refine] Instance fifo_laws : TimerKernelLaws fifo := {
  clock := now;
  unmade := fun _ => True;
  can_create := fun _ => True;
  space := fun k => Z.of_nat (room_for k) - Z.of_nat (length (queued k));
  busy := 0;
  inbox := queued;
  fine := fun k => there k = true;
  handle := 0x5000
}.
Proof.
  - done.
  - lia.
  - intros k _. right. by split.
  - intros k _. by split.
  - intros k _. done.
  - intros k m Hk. cbn. apply wp_bind. unfold push, wp. destruct (Nat.ltb_spec (length (queued k)) (room_for k)); [right|left]; split_and!; try done; [cbn; rewrite length_app; cbn; lia|lia].
  - intros k Hk. unfold wp. cbn. destruct (queued k) eqn:E; cbn; rewrite ?E; cbn; split_and!; try done; lia.
  - intros k Hk. by split.
  - intros k c Hk. split_and!; [done|done|exists []; by rewrite app_nil_r|lia].
  - intros k Hk. split_and!; [done|done|exists []; by rewrite app_nil_r|lia].
  - intros k n Hk. cbn. split_and!; [done|cbn; lia|exists []; by rewrite app_nil_r|cbn; lia].
  - intros k Hk. split_and!; [done|done|exists []; by rewrite app_nil_r|lia].
Defined.

(** ** A service with two timers *)

Definition zero : ListItem_t := Item 0 0 0 0 0.
Abbreviation ex_mem := (ListMem (<[0x1008 := zero]> (<[0x1108 := zero]> ∅)) (<[0x1000 := ListHdr 0 0]> (<[0x1100 := ListHdr 0 0]> ∅))).
(** Nothing created yet, a few ticks before the count overflows. *)
Definition ex_fresh : tstate fifo := TState ex_mem ∅ 0 0 0 0 (Fifo 4294967200 [] 10 false) [].

Lemma fresh_ok : fresh 0x1000 0x1100 ex_fresh.
Proof.
  split; [done|done|done|done|split_and!; by eexists| |vm_compute; done|done].
  intros x i. cbn [items tmem ex_fresh]. rewrite !lookup_insert. repeat case_decide; [intros [= <-]; done..|done].
Qed.

(** The first timer is created. *)
Lemma timer_create_ready_witness :
  usable 0x1000 0x1100 0 ex_fresh ∅ /\ room 0x1000 0x1100 ex_fresh 0x2000 /\
  wp (xTimerCreate 0x1000 0x1100 0x2000 zero 0 100 1 7 0x400) (fun r s' => 100 <> 0 /\
    (r = 0 /\ 0x2000 = 0 /\ s' = ex_fresh \/
     r = 0x2000 /\ 0x2000 <> 0 /\ at_rest 0 s' ∅ /\ (∅ : gmap Z Z) !! 0x2000 = None /\ timers s' = <[0x2000 := Timer 0 100 1 7 0x400]> (timers ex_fresh) /\ calls s' = calls ex_fresh /\ clock (tker s') = clock (tker ex_fresh))) ex_fresh.
Proof.
  assert (U : usable 0x1000 0x1100 0 ex_fresh ∅) by (right; split_and!; [exact fresh_ok|done|done]).
  assert (R : room 0x1000 0x1100 ex_fresh 0x2000) by (split_and!; [done|done|done|vm_compute; done]).
  split; [exact U|]. split; [exact R|]. eapply safe_returns; [|apply (timer_create_ready 0x1000 0x1100 0x2000 zero 0 100 1 7 0x400 0 ex_fresh ∅ U R); [done|lia]]. by split.
Defined.

Definition after_run {A} (m : M (tstate fifo) A) (s : tstate fifo) : tstate fifo := match m s with Ret (_, s') => s' | Stuck _ => s end.

Lemma after_wp {A} (m : M (tstate fifo) A) (P : A -> tstate fifo -> Prop) s : wp m P s -> exists a, P a (after_run m s).
Proof. unfold wp, after_run. destruct (m s) as [[a s']|]; [by exists a|done]. Qed.

(** The lists, then a timer of 100 ticks that reloads and one of 130 that does not. *)
Definition ex_lists : tstate fifo := after_run (prvCheckForValidListAndQueue 0x1000 0x1100) ex_fresh.
Abbreviation ex_reloads := (Timer 0 100 1 7 0x400).
Abbreviation ex_once := (Timer 0 130 0 8 0x500).
Definition ex_idle : tstate fifo :=
  with_last 4294967200 (with_timers (<[0x2100 := ex_once]> (<[0x2000 := ex_reloads]> (timers ex_lists)))
    (with_tmem (ListMem (<[0x2104 := zero]> (<[0x2004 := zero]> (items (tmem ex_lists)))) (lists (tmem ex_lists))) ex_lists)).

Lemma idle_serving : serving 0 ex_idle ∅.
Proof.
  pose proof (check_lists_spec 0x1000 0x1100 True ex_fresh fresh_ok (fun _ => I)) as H. unfold safe in H. assert (E : prvCheckForValidListAndQueue 0x1000 0x1100 ex_fresh = Ret (tt, ex_lists)) by reflexivity.
  rewrite E in H. destruct H as ([[Hf Hq [V K]] _] & T1 & P1 & P2 & _). change (0 / 4294967296) with 0 in K. rewrite P1, P2 in K. split; [done|done|]. exists V.
  edestruct (held_new _ _ _ _ _ _ _ 0x2000 ex_reloads zero K) as [_ K1]; [by rewrite T1|by intros []|done|done|vm_compute; done|cbn; lia|].
  edestruct (held_new _ _ _ _ _ _ _ 0x2100 ex_once zero K1) as [_ K2]; [by rewrite T1|by intros []|done|done|vm_compute; done|cbn; lia|]. exact K2.
Qed.

(** The first was started at 4294967150, the second at 4294967200. *)
Definition ex_one : tstate fifo := after_run (prvInsertTimerInActiveList 0x2000 4294967250 4294967200 4294967150) ex_idle.
Definition ex_two : tstate fifo := after_run (prvInsertTimerInActiveList 0x2100 34 4294967200 4294967200) ex_one.
Abbreviation ex_due := (<[0x2100 := 4294967330]> (<[0x2000 := 4294967250]> (∅ : gmap Z Z))).

Lemma two_serving : serving 0 ex_two ex_due.
Proof.
  assert (S1 : serving 0 ex_one (<[0x2000 := 4294967250]> ∅)).
  { destruct (after_wp (prvInsertTimerInActiveList 0x2000 4294967250 4294967200 4294967150) (fun _ s => serving 0 s (<[0x2000 := 4294967250]> ∅)) ex_idle) as [_ S1]; [|exact S1].
    apply (insert_timer_spec 4294967200 4294967150 ex_idle ∅ 0x2000 ex_reloads); [exact idle_serving|reflexivity|done|lia|]. intros l S. exact S. }
  destruct (after_wp (prvInsertTimerInActiveList 0x2100 34 4294967200 4294967200) (fun _ s => serving 0 s ex_due) ex_one) as [_ S2]; [|exact S2].
  apply (insert_timer_spec 4294967200 4294967200 ex_one (<[0x2000 := 4294967250]> ∅) 0x2100 ex_once); [exact S1|reflexivity|done|lia|]. intros l S. exact S.
Qed.

(** The tick count has overflowed since. *)
Definition ex_late : tstate fifo := with_tker (Fifo 4294967300 [] 10 true) ex_two.

Lemma late_at_rest : at_rest 4294967200 ex_late ex_due.
Proof. destruct two_serving as [Hf Hq [V K]]. split; [|reflexivity]. split; [done|done|by exists V]. Qed.

(** Rounds for two timers. *)
Definition rounds : nat := Z.to_nat 8589934592.
Lemma rounds_enough : enough rounds ex_late.
Proof. unfold enough. change (size (timers ex_late)) with 2%nat. unfold rounds. rewrite Z2Nat.id by lia. lia. Qed.
#[local] Opaque rounds.

(** A turn after the overflow: there is room for what it sends, so that it returns. *)
Lemma timer_turn_refines_witness :
  at_rest 4294967200 ex_late ex_due /\ 4294967200 <= clock (tker ex_late) < 4294967200 + 4294967296 /\ enough rounds ex_late /\ has_room 4294967200 ex_late ex_due /\
  wp ('(xNextExpireTime, xListWasEmpty) ← prvGetNextExpireTime; prvProcessTimerOrBlockTask rounds xNextExpireTime xListWasEmpty)
    (fun _ s' => exists A' cs ms, turn (timers ex_late) 4294967200 (clock (tker ex_late)) ex_due A' cs ms /\ at_rest (clock (tker ex_late)) s' A' /\ timers s' = timers ex_late /\ went ex_late s' cs ms) ex_late.
Proof.
  assert (H : 4294967200 <= clock (tker ex_late) < 4294967200 + 4294967296) by (change (clock (tker ex_late)) with 4294967300; lia).
  assert (G : has_room 4294967200 ex_late ex_due) by (apply room_alone; vm_compute; done).
  split; [exact late_at_rest|]. split; [exact H|]. split; [exact rounds_enough|]. split; [exact G|].
  apply (safe_returns _ _ _ G). exact (timer_turn_refines rounds 4294967200 ex_late ex_due late_at_rest H rounds_enough).
Defined.

(** The second timer is reset ten ticks before its command is processed, across the overflow. *)
Lemma timer_command_refines_witness :
  let m := Message tmrCOMMAND_RESET 4294967290 0x2100 0 in
  wp (process_message rounds m) (fun _ s' => exists A1 A2 cs1 cs2 ms1 ms2,
    switched (timers ex_late) 4294967200 (clock (tker ex_late)) (delete 0x2100 ex_due) A1 cs1 ms1 /\ commanded (timers ex_late) (clock (tker ex_late)) m ex_once A1 (timers s') A2 cs2 ms2
    /\ at_rest (clock (tker ex_late)) s' A2 /\ went ex_late s' (cs1 ++ cs2) (ms1 ++ ms2)) ex_late.
Proof.
  cbv zeta. eapply safe_returns; [|apply (timer_command_refines rounds 4294967200 ex_late ex_due (Message tmrCOMMAND_RESET 4294967290 0x2100 0) ex_once late_at_rest)].
  - split; [apply room_alone; vm_compute; done|done].
  - change (clock (tker ex_late)) with 4294967300. lia.
  - exact rounds_enough.
  - cbn. unfold tmrCOMMAND_RESET. lia.
  - cbn. lia.
  - reflexivity.
Defined.

(** ** Runs *)

Definition run_turn (fuel : nat) : M (tstate fifo) unit := '(v, e) ← prvGetNextExpireTime; prvProcessTimerOrBlockTask fuel v e.
Fixpoint run_rounds (k : nat) : M (tstate fifo) unit := match k with O => mret tt | S k => timer_task_round 5 5;; run_rounds k end.

(** At the overflow the first timer expires and is due again 100 ticks after
    it was; the service sleeps 30 ticks to the second timer and 20 to the
    first, which then expires every 100 ticks. *)
Example overflow_run : calls (after_run (run_rounds 7) ex_late) =
  [TimerCallback 0x400 0x2000; BlockedFor 30; TimerCallback 0x500 0x2100; BlockedFor 20; TimerCallback 0x400 0x2000; BlockedFor 100; TimerCallback 0x400 0x2000].
Proof. vm_compute. reflexivity. Qed.

(** A stop that waits in the queue while the timer expires comes before the
    command with which the service restarts the timer, and is lost. *)
Example stop_lost :
  (xTimerStop 0x2000 0 0;; timer_task_round 5 5;; xTimerIsTimerActive 0x2000) (ex_late : tstate fifo) = Ret (true, after_run (xTimerStop 0x2000 0 0;; timer_task_round 5 5) ex_late)
  /\ queued (tker (after_run (xTimerStop 0x2000 0 0;; timer_task_round 5 5) ex_late)) = [].
Proof. vm_compute. done. Qed.

(** When the commands of others have filled the queue, the service stops at its assertion. *)
Example no_room_for_restart :
  run_turn 5 (with_tker (Fifo 4294967300 [Message tmrCOMMAND_STOP 0 0x2100 0] 1 true) ex_two) = Stuck AssertFailed.
Proof. vm_compute. reflexivity. Qed.
