(* ===== verification/EventGroup.v ===== *)
(** * Event groups (components/freertos/event_groups.c)

    An event group is a word of event bits and the list of the tasks that wait
    for some of them; a task's event list item holds, as its value, the bits
    it waits for and how it waits.  The tasks and lists are those of
    [RtosTasks] and [RtosList]; the group at address [g] has its list at
    [g + 4].

    [xEventGroupWaitBits] and [xEventGroupSync] are cut in two at the point
    where the task gives up the CPU: the first part returns the value, or
    blocks the task; the second part runs when the task runs again.  The
    functions that an interrupt handler calls hand a call to the timer task. *)

From S2P Require Import Prelude RtosList RtosStore RtosTasks RtosSched RtosWake.

#[local] Open Scope Z_scope.

Definition eventCLEAR_EVENTS_ON_EXIT_BIT : Z := 0x01000000.
Definition eventUNBLOCKED_DUE_TO_BIT_SET : Z := 0x02000000.
Definition eventWAIT_FOR_ALL_BITS : Z := 0x04000000.
Definition eventEVENT_BITS_CONTROL_BYTES : Z := 0xff000000.

(** The kernel and the event bits of the groups. *)
Record egs : Type := Egs { ker : kernel; bits : gmap Z Z }.

Definition xTasksWaitingForBits (xEventGroup : Z) : Z := xEventGroup + 4.

Definition on_ker {A} (m : M kernel A) : M egs A := fun s =>
  match m (ker s) with Ret (a, k) => Ret (a, Egs k (bits s)) | Stuck e => Stuck e end.
Definition uxEventBits (g : Z) : M egs Z :=
  s ← get; match bits s !! g with Some b => mret b | None => stuck NullDeref end.
Definition set_uxEventBits (g b : Z) : M egs unit :=
  o ← uxEventBits g; modify (fun s => Egs (ker s) (<[g := b]> (bits s))).
(** [pxEventBits->uxEventBits &= ~b] *)
Definition clear_bits (g b : Z) : M egs unit := o ← uxEventBits g; set_uxEventBits g (Z.ldiff o b).

Section EventGroup.
Context `{TaskLists}.

(** [p] is what [pvPortMalloc] returns. *)
Definition xEventGroupCreate (p : Z) : M egs Z :=
  (if negb (p =? 0) then
     modify (fun s => Egs (ker s) (<[p := 0]> (bits s)));;
     on_ker (on_mem (vListInitialise (xTasksWaitingForBits p)))
   else mret tt);;
  (* vPortCPUInitializeMutex(&pxEventBits->eventGroupMux) *)
  (if p =? 0 then stuck NullDeref else mret tt);;
  mret p.

Definition prvTestWaitCondition (uxCurrentEventBits uxBitsToWaitFor : Z) (xWaitForAllBits : bool) : bool :=
  if xWaitForAllBits then Z.land uxCurrentEventBits uxBitsToWaitFor =? uxBitsToWaitFor
  else negb (Z.land uxCurrentEventBits uxBitsToWaitFor =? 0).

(** Is the condition of the waiting task, in the value of its item, met? *)
Definition match_found (v b : Z) : bool :=
  let uxControlBits := Z.land v eventEVENT_BITS_CONTROL_BYTES in
  let uxBitsWaitedFor := Z.ldiff v eventEVENT_BITS_CONTROL_BYTES in
  if Z.land uxControlBits eventWAIT_FOR_ALL_BITS =? 0 then negb (Z.land uxBitsWaitedFor b =? 0)
  else Z.land uxBitsWaitedFor b =? uxBitsWaitedFor.

(** The bits the task asks to be cleared. *)
Definition to_clear (v : Z) : Z :=
  if negb (Z.land (Z.land v eventEVENT_BITS_CONTROL_BYTES) eventCLEAR_EVENTS_ON_EXIT_BIT =? 0)
  then Z.ldiff v eventEVENT_BITS_CONTROL_BYTES else 0.

Fixpoint set_bits_loop (fuel : nat) (core g pxListItem uxBitsToClear : Z) : M egs Z :=
  match fuel with
  | O => stuck OutOfFuel
  | S fuel =>
      if pxListItem =? listGET_END_MARKER (xTasksWaitingForBits g) then mret uxBitsToClear
      else
        pxNext ← on_ker (on_mem (listGET_NEXT pxListItem));
        v ← on_ker (on_mem (listGET_LIST_ITEM_VALUE pxListItem));
        b ← uxEventBits g;
        if match_found v b then
          on_ker (xTaskRemoveFromUnorderedEventList core pxListItem (Z.lor b eventUNBLOCKED_DUE_TO_BIT_SET));;
          set_bits_loop fuel core g pxNext (Z.lor uxBitsToClear (to_clear v))
        else set_bits_loop fuel core g pxNext uxBitsToClear
  end.

Definition xEventGroupSetBits (core xEventGroup uxBitsToSet : Z) : M egs Z :=
  check (negb (xEventGroup =? 0));;
  check (Z.land uxBitsToSet eventEVENT_BITS_CONTROL_BYTES =? 0);;
  on_ker (vTaskSuspendAll core);;
  pxListItem ← on_ker (on_mem (listGET_HEAD_ENTRY (xTasksWaitingForBits xEventGroup)));
  b ← uxEventBits xEventGroup;
  set_uxEventBits xEventGroup (Z.lor b uxBitsToSet);;
  s ← get;
  uxBitsToClear ← set_bits_loop (size (items (mem (ker s)))) core xEventGroup pxListItem 0;
  clear_bits xEventGroup uxBitsToClear;;
  on_ker (xTaskResumeAll core);;
  uxEventBits xEventGroup.

(** The outcome of the first part of a wait. *)
Inductive waiting : Type := Returned (b : Z) | Blocked.

(** [xTaskGetSchedulerState() != taskSCHEDULER_SUSPENDED || xTicksToWait == 0] *)
Definition may_wait (core xTicksToWait : Z) : M egs bool :=
  n ← on_ker (suspended core);
  s ← get;
  mret (negb (xSchedulerRunning (ker s) && negb (n =? 0) && negb (xTicksToWait =? 0))).

(** Leave the critical section; a task that has blocked gives up the CPU. *)
Definition leave_wait (core : Z) (blocked : bool) : M egs unit :=
  xAlreadyYielded ← on_ker (xTaskResumeAll core);
  if blocked && negb xAlreadyYielded then on_ker (request_ (Yield core)) else mret tt.

Definition xEventGroupWaitBits_enter (core xEventGroup uxBitsToWaitFor : Z) (xClearOnExit xWaitForAllBits : bool) (xTicksToWait : Z) : M egs waiting :=
  check (negb (xEventGroup =? 0));;
  check (Z.land uxBitsToWaitFor eventEVENT_BITS_CONTROL_BYTES =? 0);;
  check (negb (uxBitsToWaitFor =? 0));;
  ok ← may_wait core xTicksToWait;
  check ok;;
  on_ker (vTaskSuspendAll core);;
  uxCurrentEventBits ← uxEventBits xEventGroup;
  if prvTestWaitCondition uxCurrentEventBits uxBitsToWaitFor xWaitForAllBits then
    (if xClearOnExit then clear_bits xEventGroup uxBitsToWaitFor else mret tt);;
    leave_wait core false;;
    mret (Returned uxCurrentEventBits)
  else if xTicksToWait =? 0 then
    leave_wait core false;;
    mret (Returned uxCurrentEventBits)
  else
    let uxControlBits := Z.lor (if xClearOnExit then eventCLEAR_EVENTS_ON_EXIT_BIT else 0) (if xWaitForAllBits then eventWAIT_FOR_ALL_BITS else 0) in
    on_ker (vTaskPlaceOnUnorderedEventList core (xTasksWaitingForBits xEventGroup) (Z.lor uxBitsToWaitFor uxControlBits) xTicksToWait);;
    leave_wait core true;;
    mret Blocked.

Definition xEventGroupWaitBits_exit (core xEventGroup uxBitsToWaitFor : Z) (xClearOnExit xWaitForAllBits : bool) : M egs Z :=
  uxReturn ← on_ker (uxTaskResetEventItemValue core);
  uxReturn ←
    (if Z.land uxReturn eventUNBLOCKED_DUE_TO_BIT_SET =? 0 then
       b ← uxEventBits xEventGroup;
       (if prvTestWaitCondition b uxBitsToWaitFor xWaitForAllBits
        then (if xClearOnExit then clear_bits xEventGroup uxBitsToWaitFor else mret tt) else mret tt);;
       mret b
     else mret uxReturn);
  mret (Z.ldiff uxReturn eventEVENT_BITS_CONTROL_BYTES).

Definition xEventGroupSync_enter (core xEventGroup uxBitsToSet uxBitsToWaitFor xTicksToWait : Z) : M egs waiting :=
  check (Z.land uxBitsToWaitFor eventEVENT_BITS_CONTROL_BYTES =? 0);;
  check (negb (uxBitsToWaitFor =? 0));;
  ok ← may_wait core xTicksToWait;
  check ok;;
  on_ker (vTaskSuspendAll core);;
  uxOriginalBitValue ← uxEventBits xEventGroup;
  xEventGroupSetBits core xEventGroup uxBitsToSet;;
  if Z.land (Z.lor uxOriginalBitValue uxBitsToSet) uxBitsToWaitFor =? uxBitsToWaitFor then
    clear_bits xEventGroup uxBitsToWaitFor;;
    leave_wait core false;;
    mret (Returned (Z.lor uxOriginalBitValue uxBitsToSet))
  else if negb (xTicksToWait =? 0) then
    on_ker (vTaskPlaceOnUnorderedEventList core (xTasksWaitingForBits xEventGroup)
              (Z.lor (Z.lor uxBitsToWaitFor eventCLEAR_EVENTS_ON_EXIT_BIT) eventWAIT_FOR_ALL_BITS) xTicksToWait);;
    leave_wait core true;;
    mret Blocked
  else
    b ← uxEventBits xEventGroup;
    leave_wait core false;;
    mret (Returned b).

Definition xEventGroupSync_exit (core xEventGroup uxBitsToWaitFor : Z) : M egs Z :=
  uxReturn ← on_ker (uxTaskResetEventItemValue core);
  uxReturn ←
    (if Z.land uxReturn eventUNBLOCKED_DUE_TO_BIT_SET =? 0 then
       b ← uxEventBits xEventGroup;
       (if Z.land b uxBitsToWaitFor =? uxBitsToWaitFor then clear_bits xEventGroup uxBitsToWaitFor else mret tt);;
       mret b
     else mret uxReturn);
  mret (Z.ldiff uxReturn eventEVENT_BITS_CONTROL_BYTES).

Definition xEventGroupClearBits (xEventGroup uxBitsToClear : Z) : M egs Z :=
  check (negb (xEventGroup =? 0));;
  check (Z.land uxBitsToClear eventEVENT_BITS_CONTROL_BYTES =? 0);;
  uxReturn ← uxEventBits xEventGroup;
  clear_bits xEventGroup uxBitsToClear;;
  mret uxReturn.

Definition xEventGroupGetBitsFromISR (xEventGroup : Z) : M egs Z := uxEventBits xEventGroup.

Fixpoint delete_loop (fuel : nat) (core g : Z) : M egs unit :=
  match fuel with
  | O => stuck OutOfFuel
  | S fuel =>
      n ← on_ker (on_mem (listCURRENT_LIST_LENGTH (xTasksWaitingForBits g)));
      if 0 <? n then
        pxNext ← on_ker (on_mem (listGET_HEAD_ENTRY (xTasksWaitingForBits g)));
        check (negb (pxNext =? xListEnd (xTasksWaitingForBits g)));;
        on_ker (xTaskRemoveFromUnorderedEventList core pxNext eventUNBLOCKED_DUE_TO_BIT_SET);;
        delete_loop fuel core g
      else mret tt
  end.

(** The group is gone from the bits when its memory is freed. *)
Definition vEventGroupDelete (core xEventGroup : Z) : M egs unit :=
  on_ker (vTaskSuspendAll core);;
  s ← get;
  delete_loop (S (size (items (mem (ker s))))) core xEventGroup;;
  modify (fun s => Egs (ker s) (delete xEventGroup (bits s)));;
  on_ker (xTaskResumeAll core);;
  mret tt.

Definition vEventGroupSetBitsCallback (core pvEventGroup ulBitsToSet : Z) : M egs unit :=
  xEventGroupSetBits core pvEventGroup ulBitsToSet;; mret tt.
Definition vEventGroupClearBitsCallback (pvEventGroup ulBitsToClear : Z) : M egs unit :=
  xEventGroupClearBits pvEventGroup ulBitsToClear;; mret tt.
End EventGroup.

(** ** Words of bits *)

(** Event bits and control bits do not meet. *)
Lemma control_bit m : m < 24 -> Z.testbit eventEVENT_BITS_CONTROL_BYTES m = false.
Proof.
  intros Hm. change eventEVENT_BITS_CONTROL_BYTES with (Z.shiftl 0xff 24).
  destruct (decide (m < 0)); [by apply Z.testbit_neg_r|]. rewrite Z.shiftl_spec by lia. apply Z.testbit_neg_r. lia.
Qed.

Lemma land_control b : 0 <= b < 2 ^ 24 -> Z.land b eventEVENT_BITS_CONTROL_BYTES = 0.
Proof.
  intros Hb. apply Z.bits_inj'. intros m Hm. rewrite Z.land_spec, Z.bits_0. destruct (decide (m < 24)).
  - rewrite control_bit by done. apply andb_false_r.
  - by rewrite (bits_above 24) by lia.
Qed.

(** A condition that is not met is not met by fewer bits either. *)
Lemma match_mono v b c : match_found v b = false -> match_found v (Z.ldiff b c) = false.
Proof.
  unfold match_found. set (w := Z.ldiff v _). destruct (Z.land _ eventWAIT_FOR_ALL_BITS =? 0).
  - rewrite !negb_false_iff, !Z.eqb_eq. intros H. apply Z.bits_inj'. intros m Hm. rewrite Z.bits_0, Z.land_spec, Z.ldiff_spec.
    apply (f_equal (fun z => Z.testbit z m)) in H. rewrite Z.land_spec, Z.bits_0 in H. by rewrite andb_assoc, H.
  - rewrite !Z.eqb_neq. intros H E. apply H. apply Z.bits_inj'. intros m Hm. rewrite Z.land_spec.
    apply (f_equal (fun z => Z.testbit z m)) in E. rewrite Z.land_spec, Z.ldiff_spec in E. destruct (Z.testbit w m), (Z.testbit b m), (Z.testbit c m); done.
Qed.

(** What a waiting task wants, bit by bit: bit 26 of its item's value asks for
    all of the bits 0 to 23, otherwise any will do. *)
Definition wants (v b : Z) : Prop :=
  if Z.testbit v 26 then forall i, 0 <= i < 24 -> Z.testbit v i = true -> Z.testbit b i = true
  else exists i, 0 <= i < 24 /\ Z.testbit v i = true /\ Z.testbit b i = true.

Lemma key_word s V x : store s V -> 0 <= key s x < 2 ^ 32.
Proof.
  intros HS. unfold key. destruct (value s x) as [v|] eqn:E; cbn; [|lia]. pose proof (st_values _ _ HS _ _ E). unfold portMAX_DELAY in *. lia.
Qed.

Lemma control_high m : 24 <= m < 32 -> Z.testbit eventEVENT_BITS_CONTROL_BYTES m = true.
Proof. intros Hm. assert (Hm' : m ∈ seqZ 24 8) by (apply elem_of_seqZ; lia). clear Hm. revert m Hm'. apply Forall_forall. by repeat constructor. Qed.

Lemma waited_bit v i : 0 <= v < 2 ^ 32 -> Z.testbit (Z.ldiff v eventEVENT_BITS_CONTROL_BYTES) i = bool_decide (i < 24) && Z.testbit v i.
Proof.
  intros Hv. rewrite Z.ldiff_spec. destruct (decide (i < 24)); [rewrite control_bit, bool_decide_eq_true_2 by done; by rewrite andb_true_r|].
  rewrite bool_decide_eq_false_2 by done. destruct (decide (i < 32)); [rewrite control_high by lia; apply andb_false_r|]. by rewrite (bits_above 32) by lia.
Qed.

Lemma wait_all_bit v : (Z.land (Z.land v eventEVENT_BITS_CONTROL_BYTES) eventWAIT_FOR_ALL_BITS =? 0) = negb (Z.testbit v 26).
Proof.
  rewrite <- Z.land_assoc. change (Z.land eventEVENT_BITS_CONTROL_BYTES eventWAIT_FOR_ALL_BITS) with (2 ^ 26). destruct (Z.testbit v 26) eqn:E; cbn [negb].
  - apply Z.eqb_neq. intros H. apply (f_equal (fun z => Z.testbit z 26)) in H. by rewrite Z.land_spec, E in H.
  - apply Z.eqb_eq, Z.bits_inj'. intros m Hm. rewrite Z.land_spec, Z.bits_0. destruct (decide (m = 26)) as [->|]; [by rewrite E|].
    rewrite Z.pow2_bits_false by lia. apply andb_false_r.
Qed.

(** The test of [xEventGroupSetBits] is that condition. *)
Lemma match_found_wants v b : 0 <= v < 2 ^ 32 -> match_found v b = true <-> wants v b.
Proof.
  intros Hv. unfold match_found, wants. rewrite wait_all_bit. destruct (Z.testbit v 26); cbn [negb].
  - rewrite Z.eqb_eq. split.
    + intros H i Hi Hvi. apply (f_equal (fun z => Z.testbit z i)) in H. by rewrite Z.land_spec, waited_bit, bool_decide_eq_true_2, Hvi in H by lia.
    + intros H. apply Z.bits_inj'. intros i Hi. rewrite Z.land_spec, waited_bit by done. destruct (decide (i < 24)) as [Hi2|Hi2]; [|by rewrite bool_decide_eq_false_2].
      rewrite bool_decide_eq_true_2 by done. cbn. destruct (Z.testbit v i) eqn:E; [|done]. by apply H.
  - rewrite negb_true_iff, Z.eqb_neq. split.
    + intros H. set (z := Z.land _ b) in *. destruct (decide (z = 0)) as [?|Hz]; [done|].
      assert (Hz0 : 0 <= z) by (apply Z.land_nonneg; left; apply Z.ldiff_nonneg; lia).
      pose proof (Z.bit_log2 z ltac:(lia)) as Hl. unfold z in Hl at 1. rewrite Z.land_spec, waited_bit, !andb_true_iff, bool_decide_eq_true in Hl by done.
      destruct Hl as [[H1 H2] H3]. exists (Z.log2 z). pose proof (Z.log2_nonneg z). split_and!; [lia|lia|done|done].
    + intros (i & Hi & H1 & H2) H. apply (f_equal (fun z => Z.testbit z i)) in H. by rewrite Z.land_spec, waited_bit, bool_decide_eq_true_2, H1, H2, Z.bits_0 in H by lia.
Qed.

(** ** Setting bits *)

Lemma wp_on_ker {A} (m : M kernel A) (Q : A -> egs -> Prop) s :
  wp m (fun a k => Q a (Egs k (bits s))) (ker s) -> wp (on_ker m) Q s.
Proof. unfold wp, on_ker. destruct (m (ker s)) as [[a k]|]; done. Qed.

Lemma egs_id s : Egs (ker s) (bits s) = s.
Proof. by destruct s. Qed.

Lemma wp_bits g b (Q : Z -> egs -> Prop) s : bits s !! g = Some b -> Q b s -> wp (uxEventBits g) Q s.
Proof. intros E HQ. unfold uxEventBits. do 2 wp_step. rewrite E. by wp_step. Qed.

Lemma wp_set_bits g b v (Q : unit -> egs -> Prop) s :
  bits s !! g = Some b -> Q tt (Egs (ker s) (<[g := v]> (bits s))) -> wp (set_uxEventBits g v) Q s.
Proof. intros E HQ. unfold set_uxEventBits. apply wp_bind. eapply wp_bits; [exact E|]. by wp_step. Qed.

Lemma wp_clear_bits g b v (Q : unit -> egs -> Prop) s :
  bits s !! g = Some b -> Q tt (Egs (ker s) (<[g := Z.ldiff b v]> (bits s))) -> wp (clear_bits g v) Q s.
Proof. intros E HQ. unfold clear_bits. apply wp_bind. eapply wp_bits; [exact E|]. eapply wp_set_bits; [exact E|done]. Qed.

Lemma list_filter_iff' (P Q : Z -> Prop) {HP : forall x, Decision (P x)} {HQ : forall x, Decision (Q x)} (xs : list Z) :
  (forall x, x ∈ xs -> P x <-> Q x) -> filter P xs = filter Q xs.
Proof.
  induction xs as [|x xs IH]; intros H; [done|]. rewrite !filter_cons, IH by (intros y Hy; apply H; by right).
  pose proof (H x (list_elem_of_here _ _)). repeat case_decide; tauto.
Qed.

Section SetBits.
Context {T : TaskLists} {TL : TaskListsLaws T} (g : Z).
Notation L := (xTasksWaitingForBits g).

(** The group [g] has the bits [b] and its list holds blocked tasks. *)
Record group_ok (s : egs) (V : view) (b : Z) : Prop := {
  go_wf : wf (ker s) V;
  go_cpus : cpus_ok (ker s);
  go_bits : bits s !! g = Some b;
  go_word : 0 <= b < 2 ^ 24;
  go_list : is_Some (V !! L);
  go_apart : ~ state_list L;
  go_waiters : forall x, x ∈ sq V L -> exists t c G, x = xEventListItem t /\ tcbs (ker s) !! t = Some c /\ xGenericListItem t ∈ sq V G
}.

(** The condition of the waiting item, and what is cleared for the items met. *)
Definition sat (s : egs) (b x : Z) : bool := match_found (key (mem (ker s)) x) b.
Fixpoint clears (s : egs) (b : Z) (xs : list Z) : Z :=
  match xs with [] => 0 | x :: xs => Z.lor (if sat s b x then to_clear (key (mem (ker s)) x) else 0) (clears s b xs) end.

(** Of the waiting items [xs], those whose condition is met by [b] are served. *)
Record served (b : Z) (xs : list Z) (s : egs) (V : view) (s' : egs) (V' : view) : Prop := {
  sv_ok : group_ok s' V' b;
  sv_kept : kept (ker s) (ker s');
  sv_bits : bits s' = bits s;
  sv_lists : forall L', is_Some (V' !! L') <-> is_Some (V !! L');
  sv_woken : forall t c, tcbs (ker s) !! t = Some c -> xEventListItem t ∈ xs -> sat s b (xEventListItem t) = true ->
    xGenericListItem t ∈ sq V' (ready (uxPriority c)) /\ ~ linked V' (xEventListItem t)
    /\ value (mem (ker s')) (xEventListItem t) = Some (Z.lor (Z.lor b eventUNBLOCKED_DUE_TO_BIT_SET) taskEVENT_LIST_ITEM_VALUE_IN_USE);
  sv_asleep : forall t c, tcbs (ker s) !! t = Some c -> xEventListItem t ∉ xs \/ sat s b (xEventListItem t) = false ->
    (forall L', xGenericListItem t ∈ sq V' L' <-> xGenericListItem t ∈ sq V L')
    /\ (forall L', xEventListItem t ∈ sq V' L' <-> xEventListItem t ∈ sq V L')
    /\ value (mem (ker s')) (xEventListItem t) = value (mem (ker s)) (xEventListItem t);
  sv_sq : forall L', (forall p, 0 <= p < configMAX_PRIORITIES -> L' <> ready p) -> forall x, x ∈ sq V' L' -> x ∈ sq V L'
}.

Lemma served_nil b s V : group_ok s V b -> served b [] s V s V.
Proof. intros Hg. split; [done|apply kept_refl|done|done| |done|done]. intros t c _ Hx. by apply not_elem_of_nil in Hx. Qed.

Lemma event_inj t t' : xEventListItem t = xEventListItem t' -> t = t'.
Proof. unfold xEventListItem. lia. Qed.

(** Waking a waiting task leaves a sound group. *)
Lemma group_roused s V b t c v k' V' :
  group_ok s V b -> tcbs (ker s) !! t = Some c -> roused t c v (ker s) V k' V' -> group_ok (Egs k' (bits s)) V' b.
Proof.
  intros [HW Hcp Hb Hbw HL Hap Hwt] Ht [HW' Hk Hls Hin Hsq Hv Ho Hl]. split; cbn; try done.
  - by eapply cpus_kept.
  - by apply Hls.
  - intros x Hx. apply Hin in Hx as [(H1 & H2 & Hx)|[E _]].
    + destruct (Hwt x Hx) as (t' & c' & G & -> & Ht' & Hg). exists t', c', G. rewrite (kp_tcbs _ _ Hk). split_and!; try done. apply Hin. left.
      split_and!; [|by apply (gen_event _ _ _ _ _ _ HW Ht' Ht)|done]. intros E%gen_inj. by subst.
    + exfalso. apply Hap. rewrite E. apply state_ready, (w_tasks _ _ HW _ _ Ht).
Qed.

Lemma served_cons b s V t c v k1 V1 xs s' V' :
  group_ok s V b -> tcbs (ker s) !! t = Some c -> xEventListItem t ∉ xs -> sat s b (xEventListItem t) = true ->
  v = Z.lor (Z.lor b eventUNBLOCKED_DUE_TO_BIT_SET) taskEVENT_LIST_ITEM_VALUE_IN_USE ->
  roused t c v (ker s) V k1 V1 -> served b xs (Egs k1 (bits s)) V1 s' V' -> served b (xEventListItem t :: xs) s V s' V'.
Proof.
  intros Hg Ht Hnx Hsat -> Hro [Hok Hk Hb Hls' Hwk Has Hsq]. pose proof Hro as [HW1 Hk1 Hls Hin Hsq1 Hv Ho Hl]. pose proof (go_wf _ _ _ Hg) as HW. cbn in *.
  assert (Hsat1 : forall x, x <> xEventListItem t -> sat (Egs k1 (bits s)) b x = sat s b x).
  { intros x Hx. unfold sat, key. cbn. by rewrite Hv, decide_False. }
  assert (Hself : xGenericListItem t ∈ sq V' (ready (uxPriority c)) /\ ~ linked V' (xEventListItem t)
            /\ value (mem (ker s')) (xEventListItem t) = Some (Z.lor (Z.lor b eventUNBLOCKED_DUE_TO_BIT_SET) taskEVENT_LIST_ITEM_VALUE_IN_USE)).
  { destruct (Has t c) as (H1 & H2 & H3); [by rewrite (kp_tcbs _ _ Hk1)|by left|]. rewrite H3, Hv, decide_True by done. split_and!; [apply H1, Hin; by right| |done].
    intros [L' Hx%H2]. apply Hin in Hx as [(_ & Hx & _)|[_ E]]; [done|]. symmetry in E. by apply (gen_event _ _ _ _ _ _ HW Ht Ht) in E. }
  split; [done|by eapply kept_trans|done|intros L'; by rewrite Hls'| | |].
  - intros t' c' Ht' Hx Hs'. destruct (decide (t' = t)) as [->|Hne]; [assert (c' = c) as -> by congruence; exact Hself|].
    assert (xEventListItem t' <> xEventListItem t) by (intros E%event_inj; done).
    apply Hwk; [by rewrite (kp_tcbs _ _ Hk1)|set_solver|by rewrite Hsat1].
  - intros t' c' Ht' Hor. assert (Hne : xEventListItem t' <> xEventListItem t) by (intros E%event_inj; subst; destruct Hor; [set_solver|congruence]).
    assert (t' <> t) by (intros ->; done).
    destruct (Has t' c') as (H1 & H2 & H3); [by rewrite (kp_tcbs _ _ Hk1)|destruct Hor; [left; set_solver|right; by rewrite Hsat1]|].
    assert (Hgg : xGenericListItem t' <> xGenericListItem t) by (intros E%gen_inj; done).
    pose proof (gen_event _ _ _ _ _ _ HW Ht' Ht). pose proof (gen_event _ _ _ _ _ _ HW Ht Ht').
    split_and!; [intros L'; rewrite H1, Hin|intros L'; rewrite H2, Hin|by rewrite H3, Hv, decide_False]; naive_solver.
  - intros L' HL' x Hx%Hsq; [|done]. rewrite Hsq1, without_in in Hx by done. tauto.
Qed.

Lemma clears_ext s s' b xs : (forall x, x ∈ xs -> key (mem (ker s')) x = key (mem (ker s)) x) -> clears s' b xs = clears s b xs.
Proof.
  induction xs as [|x xs IH]; intros H; cbn [clears]; [done|]. unfold sat. rewrite H by left. f_equal. apply IH. intros y Hy. apply H. by right.
Qed.

Lemma set_bits_loop_spec core b rest : forall fuel kpt s V cl,
  is_core core -> group_ok s V b -> susp (ker s) core <> 0 -> sq V L = kpt ++ rest -> (length rest < fuel)%nat ->
  wp (set_bits_loop fuel core g (right_of rest (xListEnd L)) cl)
     (fun r s' => exists V', r = Z.lor cl (clears s b rest) /\ served b rest s V s' V'
                  /\ sq V' L = kpt ++ filter (fun x => sat s b x = false) rest) s.
Proof.
  induction rest as [|x rest IH]; intros fuel kpt s V cl Hc Hg Hs Hsq Hf; (destruct fuel as [|fuel]; [cbn in Hf; lia|]); cbn [set_bits_loop right_of head default from_option id].
  - unfold listGET_END_MARKER. rewrite Z.eqb_refl. apply wp_ret. exists V. cbn. rewrite Z.lor_0_r. split_and!; [done|by apply served_nil|done].
  - pose proof (go_wf _ _ _ Hg) as HW. destruct (is_Some_pair _ _ (go_list _ _ _ Hg)) as [i E].
    pose proof (st_at _ _ (w_store _ _ HW) _ _ _ E) as Hat. pose proof (la_nodup _ _ _ _ Hat) as [Hme Hnd]%NoDup_cons. rewrite Hsq in Hme, Hnd.
    unfold listGET_END_MARKER. destruct (Z.eqb_spec x (xListEnd L)) as [->|_]; [exfalso; apply Hme; set_solver|].
    apply NoDup_app in Hnd as (_ & Hnd1 & [Hnd2 _]%NoDup_cons).
    destruct (go_waiters _ _ _ Hg x) as (t & c & G & -> & Ht & Hgen); [rewrite Hsq; set_solver|]. destruct (item_task _ _ _ _ HW Ht) as [_ Hle].
    apply wp_bind, wp_on_ker, wp_on_mem. eapply read_next; [apply HW|rewrite E, Hsq; reflexivity|]. rewrite with_mem_id, egs_id.
    apply wp_bind, wp_on_ker, wp_on_mem. eapply read_value; [apply live_value; exact Hle|]. rewrite with_mem_id, egs_id.
    apply wp_bind. eapply wp_bits; [apply Hg|]. fold (sat s b (xEventListItem t)). destruct (sat s b (xEventListItem t)) eqn:Esat.
    + apply wp_bind, wp_on_ker. pose proof (go_word _ _ _ Hg) as Hbw.
      eapply wp_mono; [apply (rouse_spec core _ V t c L G); try done; [apply Hg|rewrite Hsq; set_solver|]|].
      { apply lor_below; [lia|lia|unfold eventUNBLOCKED_DUE_TO_BIT_SET; lia]. }
      intros _ k1 (V1 & Hro). pose proof Hro as [HW1 Hk1 Hls Hin Hsq1 Hv Ho Hl]. pose proof (group_roused _ _ _ _ _ _ _ _ Hg Ht Hro) as Hg1.
      assert (Hgen_in : forall y, y ∈ kpt ++ rest -> y <> xGenericListItem t).
      { intros y Hy ->. destruct (go_waiters _ _ _ Hg (xGenericListItem t)) as (t' & c' & _ & E' & Ht' & _); [rewrite Hsq; set_solver|].
        by apply (gen_event _ _ _ _ _ _ HW Ht Ht') in E'. }
      assert (Hn : xEventListItem t ∉ kpt ++ rest) by (intros [Hx|Hx]%elem_of_app; [apply (Hnd1 _ Hx); left|done]).
      assert (Hsq' : sq V1 L = kpt ++ rest).
      { rewrite Hsq1 by (intros p Hp E'; apply (go_apart _ _ _ Hg); rewrite E'; by apply state_ready). rewrite Hsq, <- without_filter, (filter_notin (xGenericListItem t)).
        - apply filter_without; set_solver.
        - intros [Hx|[Hx|Hx]%elem_of_cons]%elem_of_app; [eapply Hgen_in; [|reflexivity]; set_solver| |eapply Hgen_in; [|reflexivity]; set_solver].
          by apply (gen_event _ _ _ _ _ _ HW Ht Ht) in Hx. }
      assert (Hkey : forall y, y ∈ rest -> key (mem k1) y = key (mem (ker s)) y).
      { intros y Hy. unfold key. rewrite Hv, decide_False; [done|]. intros ->. set_solver. }
      eapply wp_mono; [apply (IH fuel kpt (Egs k1 (bits s)) V1); try done; [unfold susp; cbn; by rewrite (kp_suspended _ _ Hk1)|cbn in Hf; lia]|].
      intros r s' (V' & -> & Hsv & Hsqv). exists V'. split_and!.
      * rewrite (clears_ext s) by exact Hkey. cbn [clears]. by rewrite Esat, Z.lor_assoc.
      * by eapply served_cons.
      * rewrite Hsqv, filter_cons_False by (rewrite Esat; done). f_equal. apply list_filter_iff'. intros y Hy. unfold sat. by rewrite Hkey.
    + eapply wp_mono; [apply (IH fuel (kpt ++ [xEventListItem t]) s V cl); try done; [by rewrite <- app_assoc|cbn in Hf; lia]|].
      intros r s' (V' & -> & Hsv & Hsqv). exists V'. split_and!.
      * cbn [clears]. by rewrite Esat, Z.lor_0_l.
      * destruct Hsv as [H1 H2 H3 H7 H4 H5 H6]. split; try done.
        -- intros t' c' Ht' [E'|Hx]%elem_of_cons Hs'; [apply event_inj in E' as ->; congruence|by apply H4].
        -- intros t' c' Ht' Hor. apply (H5 t' c'); [done|]. destruct (decide (xEventListItem t' ∈ rest)); [|by left]. right. destruct Hor as [Hno|?]; [exfalso; apply Hno; by right|done].
      * rewrite Hsqv, filter_cons_True, <- app_assoc by done. done.
Qed.

(** Nothing is pending on the CPU: no task was made ready and no tick was
    missed while its scheduler was suspended. *)
Record quiet (core : Z) (k : kernel) (V : view) : Prop := {
  qu_list : is_Some (V !! pending core);
  qu_empty : sq V (pending core) = [];
  qu_apart : ~ state_list (pending core);
  qu_pended : uxPendedTicks k = 0
}.

Lemma wf_suspended k V core n : wf k V -> wf (with_suspended (<[Z.to_nat core := n]> (uxSchedulerSuspended k)) k) V.
Proof.
  intros [HS HA HT HL HR Htop Hmax Hwh Hsl Hso Hov Hnx Htk]. split; try done. destruct HA. split; try done. cbn. by rewrite length_insert.
Qed.

Lemma suspend_spec core k V :
  is_core core -> wf k V -> 0 <= susp k core -> susp k core + 1 < 2 ^ 32 ->
  wp (vTaskSuspendAll core) (fun _ k' => k' = with_suspended (<[Z.to_nat core := susp k core + 1]> (uxSchedulerSuspended k)) k /\ wf k' V) k.
Proof.
  intros Hc HW H0 H1. unfold vTaskSuspendAll. apply wp_bind, wp_suspended; [apply HW|done|]. rewrite u32_small by lia.
  apply wp_set_suspended; [apply HW|done|]. split; [done|by apply wf_suspended].
Qed.

Lemma resume_spec core k V n :
  is_core core -> wf k V -> quiet core k V -> susp k core = n + 1 -> 0 <= n -> n + 1 < 2 ^ 32 ->
  wp (xTaskResumeAll core) (fun _ k' => exists r, k' = with_requests r (with_suspended (<[Z.to_nat core := n]> (uxSchedulerSuspended k)) k) /\ wf k' V) k.
Proof.
  intros Hc HW [Hl He Hap Hp] Hs Hn Hn1. unfold xTaskResumeAll. apply wp_bind, wp_suspended; [apply HW|done|]. rewrite Hs.
  apply wp_bind, wp_check; [apply negb_true_iff, Z.eqb_neq; lia|]. replace (n + 1 - 1) with n by lia. rewrite u32_small by lia.
  apply wp_bind, wp_set_suspended; [apply HW|done|]. set (k1 := with_suspended _ k).
  assert (HW1 : wf k1 V) by (by apply wf_suspended). apply wp_bind, wp_suspended; [apply HW1|done|]. apply wp_bind, wp_get.
  assert (Hsame : exists r, k1 = with_requests r k1 /\ wf k1 V) by (exists (requests k); by destruct k).
  destruct ((susp k1 core =? 0) && (0 <? uxCurrentNumberOfTasks k1)); [|by apply wp_ret].
  destruct (is_Some_pair _ _ Hl) as [i E]. rewrite He in E. apply wp_bind. cbn [pending_loop]. apply wp_bind, wp_on_mem.
  eapply read_empty; [apply HW1|exact E|]. rewrite with_mem_id. apply wp_ret. apply wp_bind, wp_get. apply wp_bind. cbn [pended_ticks]. apply wp_bind, wp_get.
  change (uxPendedTicks k1) with (uxPendedTicks k). rewrite Hp. change (0 <? 0) with false. cbv iota. apply wp_ret.
  apply wp_bind, wp_yield_pending; [apply HW1|done|]. destruct (yieldp k1 core); [|by apply wp_ret].
  apply wp_bind. eapply wp_mono; [by apply wf_request|]. intros [] k2 [-> HW2]. apply wp_ret. by eexists.
Qed.

(** The group and the CPU are in a state in which no operation is under way. *)
Record steady (core : Z) (s : egs) (V : view) (b : Z) : Prop := {
  sd_group : group_ok s V b;
  sd_quiet : quiet core (ker s) V;
  sd_apart : pending core <> L;
  sd_susp : 0 <= susp (ker s) core;
  sd_nest : susp (ker s) core + 2 < 2 ^ 32
}.

(** No task waits for bits that are set. *)
Definition none_missed (s : egs) (V : view) (b : Z) : Prop := forall x, x ∈ sq V L -> sat s b x = false.

(** A group whose bits are new. *)
Lemma group_set_bits s V b b' : group_ok s V b -> 0 <= b' < 2 ^ 24 -> group_ok (Egs (ker s) (<[g := b']> (bits s))) V b'.
Proof. intros [HW Hcp Hb Hbw HL Hap Hwt] Hb'. split; cbn; try done. by rewrite lookup_insert_eq. Qed.

(** A group in a kernel that differs only outside of lists and tasks. *)
Lemma group_ker s V b k' :
  group_ok s V b -> wf k' V -> tcbs k' = tcbs (ker s) -> pxCurrentTCB k' = pxCurrentTCB (ker s) -> group_ok (Egs k' (bits s)) V b.
Proof.
  intros [HW [Hc1 Hc2] Hb Hbw HL Hap Hwt] HW' Ht Hc. split; cbn; try done; rewrite ?Ht.
  - split; unfold cur; by rewrite ?Ht, ?Hc.
  - done.
Qed.

Lemma suspended_back (l : list Z) core n m : is_core core -> length l = 2%nat -> at_ 0 l core = n ->
  <[Z.to_nat core := n]> (<[Z.to_nat core := m]> l) = l.
Proof. intros Hc Hl Hn. destruct l as [|a [|b [|]]]; try done. by destruct Hc as [->| ->]; cbn in *; rewrite <- Hn. Qed.

(** The state after the bits [B] were set, [s] before. *)
Record bits_set (B b : Z) (s : egs) (V : view) (s' : egs) (V' : view) : Prop := {
  bs_group : group_ok s' V' (Z.ldiff (Z.lor b B) (clears s (Z.lor b B) (sq V L)));
  bs_bits : bits s' = <[g := Z.ldiff (Z.lor b B) (clears s (Z.lor b B) (sq V L))]> (bits s);
  bs_kept : kept (ker s) (ker s');
  bs_lists : forall L', is_Some (V' !! L') <-> is_Some (V !! L');
  bs_left : sq V' L = filter (fun x => sat s (Z.lor b B) x = false) (sq V L);
  bs_woken : forall t c, tcbs (ker s) !! t = Some c -> xEventListItem t ∈ sq V L -> sat s (Z.lor b B) (xEventListItem t) = true ->
    xGenericListItem t ∈ sq V' (ready (uxPriority c)) /\ ~ linked V' (xEventListItem t)
    /\ value (mem (ker s')) (xEventListItem t) = Some (Z.lor (Z.lor (Z.lor b B) eventUNBLOCKED_DUE_TO_BIT_SET) taskEVENT_LIST_ITEM_VALUE_IN_USE);
  bs_asleep : forall t c, tcbs (ker s) !! t = Some c -> xEventListItem t ∉ sq V L \/ sat s (Z.lor b B) (xEventListItem t) = false ->
    (forall L', xGenericListItem t ∈ sq V' L' <-> xGenericListItem t ∈ sq V L')
    /\ (forall L', xEventListItem t ∈ sq V' L' <-> xEventListItem t ∈ sq V L')
    /\ value (mem (ker s')) (xEventListItem t) = value (mem (ker s)) (xEventListItem t);
  bs_sq : forall L', (forall p, 0 <= p < configMAX_PRIORITIES -> L' <> ready p) -> forall x, x ∈ sq V' L' -> x ∈ sq V L'
}.

Lemma set_bits_spec core s V b B :
  is_core core -> steady core s V b -> g <> 0 -> 0 <= B < 2 ^ 24 ->
  wp (xEventGroupSetBits core g B)
     (fun r s' => r = Z.ldiff (Z.lor b B) (clears s (Z.lor b B) (sq V L)) /\ exists V', bits_set B b s V s' V') s.
Proof.
  intros Hc [Hg Hq Hpl Hs0 Hs1] Hg0 HB. pose proof (go_wf _ _ _ Hg) as HW. pose proof (go_word _ _ _ Hg) as Hbw.
  assert (Hb' : 0 <= Z.lor b B < 2 ^ 24) by (apply lor_below; lia).
  unfold xEventGroupSetBits. apply wp_bind, wp_check; [by apply negb_true_iff, Z.eqb_neq|].
  apply wp_bind, wp_check; [apply Z.eqb_eq; by apply land_control|].
  apply wp_bind, wp_on_ker. eapply wp_mono; [apply (suspend_spec core _ V); try done; lia|]. intros [] k1 [-> HW1].
  set (n := susp (ker s) core) in *. set (k1 := with_suspended _ (ker s)) in *.
  destruct (is_Some_pair _ _ (go_list _ _ _ Hg)) as [i E].
  apply wp_bind, wp_on_ker, wp_on_mem. eapply read_head; [apply HW1|exact E|]. rewrite with_mem_id. cbn [ker bits].
  apply wp_bind. eapply wp_bits; [apply Hg|]. apply wp_bind. eapply wp_set_bits; [apply Hg|]. cbn [ker bits]. apply wp_bind, wp_get.
  set (s2 := Egs k1 (<[g := Z.lor b B]> (bits s))).
  assert (Hg2 : group_ok s2 V (Z.lor b B)) by (apply (group_set_bits (Egs k1 (bits s)) V b); [by apply (group_ker s)|done]).
  assert (Hsusp : susp k1 core = n + 1) by (apply at_insert_eq; apply core_range; [done|apply HW]).
  apply wp_bind. eapply wp_mono; [apply (set_bits_loop_spec core (Z.lor b B) (sq V L) _ [] s2 V 0 Hc Hg2)|].
  { cbn. rewrite Hsusp. lia. }
  { done. }
  { pose proof (st_at _ _ (w_store _ _ HW1) _ _ _ E) as Hat. pose proof (live_length (mem k1) (xListEnd L :: sq V L)) as Hll. cbn [length] in Hll.
    apply Hll; [apply Hat|]. intros x Hx. eapply store_live; [apply HW1|exact E|done]. }
  intros r s3 (V' & -> & Hsv & Hsq). rewrite Z.lor_0_l. pose proof Hsv as [Hg3 Hk3 Hb3 Hl3 Hw3 Ha3 Hq3].
  rewrite (clears_ext s s2) by done. set (cl := clears s (Z.lor b B) (sq V L)).
  apply wp_bind. eapply wp_clear_bits; [apply Hg3|]. apply wp_bind, wp_on_ker. cbn [ker bits].
  pose proof (go_wf _ _ _ Hg3) as HW3. assert (Hq' : quiet core (ker s3) V').
  { destruct Hq as [Q1 Q2 Q3 Q4]. split; [by apply Hl3| |done|by rewrite (kp_pended _ _ Hk3)].
    destruct (sq V' (pending core)) as [|x xs] eqn:Ex; [done|]. assert (Hx : x ∈ sq V (pending core)) by (apply Hq3; [by apply apart_ready|rewrite Ex; left]).
    rewrite Q2 in Hx. by apply not_elem_of_nil in Hx. }
  eapply wp_mono; [apply (resume_spec core _ V' n Hc HW3 Hq'); [|done|lia]|].
  { unfold susp. by rewrite (kp_suspended _ _ Hk3). }
  intros _ k4 (rq & -> & HW4). cbn [bits]. eapply wp_bits; [cbn; by rewrite lookup_insert_eq|]. split; [done|]. exists V'.
  assert (Hkk : kept (ker s) (with_requests rq (with_suspended (<[Z.to_nat core := n]> (uxSchedulerSuspended (ker s3))) (ker s3)))).
  { destruct Hk3 as [K1 K2 K3 K4 K5 K6 K7 K8 K9]. split; cbn in *; try done. rewrite K9. apply suspended_back; [done|apply HW|done]. }
  split; cbn [ker bits]; try done.
  - apply (group_set_bits (Egs _ (bits s3)) V' (Z.lor b B)); [|apply ldiff_below; lia]. by apply (group_ker s3).
  - rewrite Hb3. cbn. by rewrite insert_insert_eq.
Qed.

(** C10: [xEventGroupSetBits] takes off the group's list exactly the waiting
    tasks whose condition the new bits meet (any or all of the bits they wait
    for) and makes them ready, hands each of them the bits that were set when it
    was woken, clears afterwards the bits that woken tasks asked to be cleared
    and no others, leaves every other task where it is, and returns the
    remaining bits; afterwards no task waits for bits that are set. *)
Theorem set_bits_wakes core s V b B :
  is_core core -> steady core s V b -> g <> 0 -> 0 <= B < 2 ^ 24 ->
  wp (xEventGroupSetBits core g B)
     (fun r s' => exists V', bits_set B b s V s' V' /\ bits s' !! g = Some r
        /\ (forall x, x ∈ sq V L -> x ∈ sq V' L <-> ~ wants (key (mem (ker s)) x) (Z.lor b B))
        /\ forall x, x ∈ sq V' L -> ~ wants (key (mem (ker s')) x) r) s.
Proof.
  intros Hc Hsd Hg0 HB. eapply wp_mono; [by apply set_bits_spec|]. intros r s' (-> & V' & Hbs). exists V'. split; [done|].
  pose proof Hbs as [Hg Hb Hk _ Hl _ Ha _]. split; [by rewrite Hb, lookup_insert_eq|].
  assert (Hsat : forall x, x ∈ sq V L -> sat s (Z.lor b B) x = false <-> ~ wants (key (mem (ker s)) x) (Z.lor b B)).
  { intros x Hx. rewrite <- match_found_wants by exact (key_word _ _ _ (w_store _ _ (go_wf _ _ _ (sd_group _ _ _ _ Hsd)))). unfold sat. by rewrite not_true_iff_false. }
  split; [intros x Hx; rewrite Hl, list_elem_of_filter, Hsat by done; tauto|]. intros x Hx. rewrite Hl in Hx. apply list_elem_of_filter in Hx as [Hs Hx].
  destruct (go_waiters _ _ _ (sd_group _ _ _ _ Hsd) x Hx) as (t & c & G & -> & Ht & _). destruct (Ha t c Ht (or_intror Hs)) as (_ & _ & Hv).
  rewrite <- match_found_wants by exact (key_word _ _ _ (w_store _ _ (go_wf _ _ _ Hg))). rewrite not_true_iff_false.
  unfold sat, key in *. rewrite Hv. by apply match_mono.
Qed.

(** ** Waiting *)

(** The value of a waiting task's item: the bits it waits for, how it waits. *)
Definition wait_value (w : Z) (clear all : bool) : Z :=
  Z.lor (Z.lor w (Z.lor (if clear then eventCLEAR_EVENTS_ON_EXIT_BIT else 0) (if all then eventWAIT_FOR_ALL_BITS else 0))) taskEVENT_LIST_ITEM_VALUE_IN_USE.

Lemma ldiff_control w : 0 <= w < 2 ^ 24 -> Z.ldiff w eventEVENT_BITS_CONTROL_BYTES = w.
Proof. intros Hw. pose proof (Z.lor_ldiff_and w eventEVENT_BITS_CONTROL_BYTES) as E. by rewrite land_control, Z.lor_0_r in E. Qed.

(** A word of event bits [w] with control bits [u]. *)
Lemma control_split w u : 0 <= w < 2 ^ 24 -> Z.ldiff u eventEVENT_BITS_CONTROL_BYTES = 0 ->
  Z.ldiff (Z.lor w u) eventEVENT_BITS_CONTROL_BYTES = w /\ Z.land (Z.lor w u) eventEVENT_BITS_CONTROL_BYTES = Z.land u eventEVENT_BITS_CONTROL_BYTES.
Proof.
  intros Hw Hu. rewrite Z.ldiff_land, Z.land_lor_distr_l, <- !Z.ldiff_land, Hu, ldiff_control, Z.lor_0_r by done.
  by rewrite Z.land_lor_distr_l, land_control.
Qed.

Lemma wait_value_split w clear all : 0 <= w < 2 ^ 24 ->
  Z.ldiff (wait_value w clear all) eventEVENT_BITS_CONTROL_BYTES = w
  /\ (Z.land (Z.land (wait_value w clear all) eventEVENT_BITS_CONTROL_BYTES) eventWAIT_FOR_ALL_BITS =? 0) = negb all
  /\ (Z.land (Z.land (wait_value w clear all) eventEVENT_BITS_CONTROL_BYTES) eventCLEAR_EVENTS_ON_EXIT_BIT =? 0) = negb clear.
Proof.
  intros Hw. unfold wait_value. rewrite <- Z.lor_assoc. destruct (control_split w (Z.lor (Z.lor (if clear then eventCLEAR_EVENTS_ON_EXIT_BIT else 0)
    (if all then eventWAIT_FOR_ALL_BITS else 0)) taskEVENT_LIST_ITEM_VALUE_IN_USE) Hw) as [E1 E2]; [by destruct clear, all|].
  rewrite E1, E2. by destruct clear, all.
Qed.

(** The condition a task blocks on is the one its item records. *)
Lemma wait_value_match w clear all b : 0 <= w < 2 ^ 24 -> match_found (wait_value w clear all) b = prvTestWaitCondition b w all.
Proof.
  intros Hw. destruct (wait_value_split w clear all Hw) as (E1 & E2 & _). unfold match_found, prvTestWaitCondition. rewrite E1, E2, (Z.land_comm w b). by destruct all.
Qed.
Lemma wait_value_clear w clear all : 0 <= w < 2 ^ 24 -> to_clear (wait_value w clear all) = if clear then w else 0.
Proof. intros Hw. destruct (wait_value_split w clear all Hw) as (E1 & _ & E2). unfold to_clear. rewrite E1, E2. by destruct clear. Qed.

Lemma quiet_placed core E t v ticks k V k' V' : quiet core k V -> pending core <> E -> placed E t v ticks k V k' V' -> quiet core k' V'.
Proof.
  intros [Q1 Q2 Q3 Q4] Hpl Hp. pose proof Hp as [_ _ Hk Hls Hin _ _].
  split; [by apply Hls| |done|by rewrite (kp_pended _ _ Hk)]. destruct (sq V' (pending core)) as [|x xs] eqn:Ex; [done|exfalso].
  assert (Hx : x ∈ sq V' (pending core)) by (rewrite Ex; left). pose proof (placed_not_generic _ _ _ _ _ _ _ _ _ _ Hp Q3 Hx) as Hne.
  apply (Hin _ x Hne) in Hx as [Hx|[EE _]]; [|done]. rewrite Q2 in Hx. by apply not_elem_of_nil in Hx.
Qed.

Lemma steady_placed core s V b t c v ticks s' V' :
  steady core s V b -> tcbs (ker s) !! t = Some c -> placed L t v ticks (ker s) V (ker s') V' -> bits s' = bits s -> steady core s' V' b.
Proof.
  intros [[HW Hcp Hb Hbw HL Hap Hwt] Hq Hpl Hs0 Hs1] Ht Hp Eb. pose proof Hp as [HW' _ Hk Hls Hin _ _]. split; [split| |done|..]; try done.
  - by eapply cpus_kept.
  - by rewrite Eb.
  - by apply Hls.
  - intros x Hx. pose proof (placed_not_generic _ _ _ _ _ _ _ _ _ _ Hp Hap Hx) as Hne. rewrite (kp_tcbs _ _ Hk). destruct (placed_state _ _ _ _ _ _ _ _ Hp) as (S & _ & HS).
    apply (Hin L x Hne) in Hx as [Hx|[_ ->]]; [|by exists t, c, S]. destruct (Hwt x Hx) as (t' & c' & G & -> & Ht' & HG).
    destruct (decide (t' = t)) as [->|Ht2]; [by exists t, c', S|]. exists t', c', G. split_and!; [done|done|]. apply Hin; [intros E%gen_inj; done|by left].
  - by eapply (quiet_placed core); [|exact Hpl|exact Hp].
  - unfold susp. by rewrite (kp_suspended _ _ Hk).
  - unfold susp. by rewrite (kp_suspended _ _ Hk).
Qed.

Lemma none_missed_placed s V b t w clear all ticks s' V' :
  none_missed s V b -> ~ state_list L -> 0 <= w < 2 ^ 24 -> ~ linked V (xEventListItem t) -> prvTestWaitCondition b w all = false ->
  placed L t (wait_value w clear all) ticks (ker s) V (ker s') V' -> none_missed s' V' b.
Proof.
  intros Hnm Hap Hw Hne Hc Hp x Hx. pose proof (placed_not_generic _ _ _ _ _ _ _ _ _ _ Hp Hap Hx) as Hg. unfold sat, key. rewrite (pl_value _ _ _ _ _ _ _ _ Hp x Hg).
  apply (pl_in _ _ _ _ _ _ _ _ Hp _ x Hg) in Hx as [Hx|[_ ->]].
  - rewrite decide_False; [by apply Hnm|]. intros ->. apply Hne. by eexists.
  - rewrite decide_True by done. cbn. by rewrite wait_value_match.
Qed.

Lemma leave_spec core s V n blocked :
  is_core core -> wf (ker s) V -> quiet core (ker s) V -> susp (ker s) core = n + 1 -> 0 <= n -> n + 1 < 2 ^ 32 ->
  wp (leave_wait core blocked)
     (fun _ s' => exists r, s' = Egs (with_requests r (with_suspended (<[Z.to_nat core := n]> (uxSchedulerSuspended (ker s))) (ker s))) (bits s) /\ wf (ker s') V) s.
Proof.
  intros Hc HW Hq Hs Hn Hn1. unfold leave_wait. apply wp_bind, wp_on_ker. eapply wp_mono; [by apply (resume_spec core _ V n)|].
  intros y k' (r & -> & HW'). cbn [bits]. destruct (blocked && negb y); [|apply wp_ret; by exists r].
  apply wp_on_ker. eapply wp_mono; [by apply wf_request|]. intros [] k2 [-> HW2]. by eexists.
Qed.

(** [may_wait] holds where the code asserts it. *)
Definition waitable (core ticks : Z) (s : egs) : Prop := xSchedulerRunning (ker s) = true -> susp (ker s) core = 0 \/ ticks = 0.

Lemma may_wait_spec core ticks s V :
  is_core core -> wf (ker s) V -> waitable core ticks s -> wp (may_wait core ticks) (fun ok s' => ok = true /\ s' = s) s.
Proof.
  intros Hc HW Hm. unfold may_wait. apply wp_bind, wp_on_ker, wp_suspended; [apply HW|done|]. rewrite egs_id. apply wp_bind, wp_get, wp_ret. split; [|done].
  destruct (xSchedulerRunning (ker s)) eqn:Er; cbn; [|done]. destruct (Hm Er) as [->| ->]; cbn; [done|by rewrite andb_false_r].
Qed.

Lemma back_id core k n r : is_core core -> length (uxSchedulerSuspended k) = 2%nat -> susp k core = n ->
  with_requests r (with_suspended (<[Z.to_nat core := n]> (uxSchedulerSuspended (with_suspended (<[Z.to_nat core := n + 1]> (uxSchedulerSuspended k)) k)))
    (with_suspended (<[Z.to_nat core := n + 1]> (uxSchedulerSuspended k)) k)) = with_requests r k.
Proof. intros Hc Hl Hs. cbn. rewrite suspended_back by done. by destruct k. Qed.

Lemma placed_back E t v ticks core k V k' V' n r :
  is_core core -> length (uxSchedulerSuspended k) = 2%nat -> susp k core = n ->
  placed E t v ticks (with_suspended (<[Z.to_nat core := n + 1]> (uxSchedulerSuspended k)) k) V k' V' ->
  wf (with_requests r (with_suspended (<[Z.to_nat core := n]> (uxSchedulerSuspended k')) k')) V' ->
  placed E t v ticks k V (with_requests r (with_suspended (<[Z.to_nat core := n]> (uxSchedulerSuspended k')) k')) V'.
Proof.
  intros Hc Hl Hs [HW Ho Hk Hls Hin Hsl Hv] HW'. split; try done. destruct Hk as [K1 K2 K3 K4 K5 K6 K7 K8 K9]. split; cbn in *; try done.
  rewrite K9. by apply suspended_back.
Qed.

(** What the first part of [xEventGroupWaitBits] by task [t] leaves. *)
Record entered (core t w : Z) (clear all : bool) (ticks b : Z) (s : egs) (V : view) (r : waiting) (s' : egs) : Prop := {
  en_met : prvTestWaitCondition b w all = true ->
    r = Returned b /\ exists rq, s' = Egs (with_requests rq (ker s)) (if clear then <[g := Z.ldiff b w]> (bits s) else bits s);
  en_poll : prvTestWaitCondition b w all = false -> ticks = 0 -> r = Returned b /\ exists rq, s' = Egs (with_requests rq (ker s)) (bits s);
  en_wait : prvTestWaitCondition b w all = false -> ticks <> 0 ->
    r = Blocked /\ bits s' = bits s /\ exists V', placed L t (wait_value w clear all) ticks (ker s) V (ker s') V'
}.

Lemma wait_enter_spec core s V b t c G w clear all ticks :
  is_core core -> steady core s V b -> on_time (ker s) V -> waitable core ticks s -> g <> 0 -> L <> 0 -> 0 < w < 2 ^ 24 -> 0 <= ticks <= portMAX_DELAY ->
  cur (ker s) core = t -> tcbs (ker s) !! t = Some c -> xGenericListItem t ∈ sq V G -> ~ linked V (xEventListItem t) ->
  wp (xEventGroupWaitBits_enter core g w clear all ticks) (entered core t w clear all ticks b s V) s.
Proof.
  intros Hc [Hg Hq Hpl Hs0 Hs1] Hon Hm Hg0 HL0 Hw Htk Hcur Ht HG Hne. pose proof (go_wf _ _ _ Hg) as HW. pose proof (go_bits _ _ _ Hg) as Hb.
  unfold xEventGroupWaitBits_enter. apply wp_bind, wp_check; [by apply negb_true_iff, Z.eqb_neq|].
  apply wp_bind, wp_check; [apply Z.eqb_eq, land_control; lia|]. apply wp_bind, wp_check; [apply negb_true_iff, Z.eqb_neq; lia|].
  apply wp_bind. eapply wp_mono; [by apply (may_wait_spec core ticks s V)|]. intros ok s' [-> ->]. apply wp_bind, wp_check; [done|].
  apply wp_bind, wp_on_ker. eapply wp_mono; [apply (suspend_spec core _ V); try done; lia|]. intros [] k1 [E1 HW1].
  set (n := susp (ker s) core) in *. assert (Hl2 : length (uxSchedulerSuspended (ker s)) = 2%nat) by apply HW.
  assert (Hsusp : susp k1 core = n + 1) by (rewrite E1; apply at_insert_eq, core_range; done).
  assert (Hq1 : quiet core k1 V) by (rewrite E1; destruct Hq; by split).
  apply wp_bind. eapply wp_bits; [exact Hb|]. destruct (prvTestWaitCondition b w all) eqn:Econd; [|destruct (Z.eqb_spec ticks 0) as [->|Htk0]].
  - apply wp_bind. apply (wp_mono _ (fun _ s1 => s1 = Egs k1 (if clear then <[g := Z.ldiff b w]> (bits s) else bits s))).
    { destruct clear; [by eapply wp_clear_bits; [exact Hb|]|by apply wp_ret]. }
    intros [] s1 ->. apply wp_bind. eapply wp_mono; [apply (leave_spec core _ V n); cbn; try done; lia|]. intros [] s2 (r & -> & HW2). apply wp_ret.
    split; [intros _|congruence|congruence]. split; [done|]. exists r. cbn. rewrite E1. by rewrite back_id.
  - apply wp_bind. eapply wp_mono; [apply (leave_spec core _ V n); cbn; try done; lia|]. intros [] s2 (r & -> & HW2). apply wp_ret.
    split; [congruence|intros _ _|congruence]. split; [done|]. exists r. cbn. rewrite E1. by rewrite back_id.
  - apply wp_bind, wp_on_ker. cbn [ker bits]. set (v := Z.lor w _).
    assert (Hv : 0 <= v < 2 ^ 32).
    { apply lor_below; [lia|lia|]. destruct clear, all; by vm_compute. }
    eapply wp_mono; [apply (place_spec core k1 V t c L G v ticks); try done|].
    { by rewrite E1. } { by rewrite E1. } { by rewrite E1. } { lia. } { by eapply go_list. } { by eapply go_apart. } { lia. }
    intros [] k2 (V2 & Hp2). pose proof Hp2 as [HW2 _ Hk2 Hls2 _ _ _].
    pose proof (quiet_placed _ _ _ _ _ _ _ _ _ Hq1 Hpl Hp2) as Hq2.
    apply wp_bind. eapply wp_mono; [apply (leave_spec core (Egs k2 _) V2 n); cbn; try done; [unfold susp; by rewrite (kp_suspended _ _ Hk2)|lia]|].
    intros [] s3 (r & -> & HW3). apply wp_ret. split; [congruence|congruence|intros _ _]. split; [done|]. split; [done|]. exists V2. cbn. rewrite E1 in Hp2.
    by apply (placed_back _ _ _ _ _ _ _ _ _ n r) in Hp2.
Qed.

(** C31: [xEventGroupWaitBits] returns the bits at once when the condition
    (any or all of the bits waited for) holds, clearing the bits waited for when
    asked to, and when the caller does not want to wait; otherwise it changes no
    event bit and the caller waits in the group's list with its condition, in a
    delayed list with exactly the ticks it asked for remaining or, without a
    time-out, among the suspended tasks, and still no task waits for bits that
    are set. *)
Theorem wait_bits_outcome core s V b t c G w clear all ticks :
  is_core core -> steady core s V b -> none_missed s V b -> on_time (ker s) V -> waitable core ticks s -> g <> 0 -> L <> 0 ->
  0 < w < 2 ^ 24 -> 0 <= ticks <= portMAX_DELAY ->
  cur (ker s) core = t -> tcbs (ker s) !! t = Some c -> xGenericListItem t ∈ sq V G -> ~ linked V (xEventListItem t) ->
  wp (xEventGroupWaitBits_enter core g w clear all ticks)
     (fun r s' =>
        if prvTestWaitCondition b w all then r = Returned b /\ exists rq, s' = Egs (with_requests rq (ker s)) (if clear then <[g := Z.ldiff b w]> (bits s) else bits s)
        else if ticks =? 0 then r = Returned b /\ exists rq, s' = Egs (with_requests rq (ker s)) (bits s)
        else r = Blocked /\ bits s' = bits s /\ exists V', placed L t (wait_value w clear all) ticks (ker s) V (ker s') V' /\ none_missed s' V' b
             /\ forall core', steady core' s V b -> steady core' s' V' b) s.
Proof.
  intros Hc Hsd Hnm Hon Hm Hg0 HL0 Hw Htk Hcur Ht HG Hne. eapply wp_mono; [by apply (wait_enter_spec core s V b t c G)|].
  intros r s' [H1 H2 H3]. destruct (prvTestWaitCondition b w all) eqn:Ec; [by apply H1|]. destruct (Z.eqb_spec ticks 0) as [->|Ht0]; [by apply H2|].
  destruct (H3 eq_refl Ht0) as (-> & Eb & V' & Hp). split_and!; [done|done|]. exists V'. split_and!; [done| |].
  - apply (none_missed_placed s V b t w clear all ticks s' V' Hnm); [apply (go_apart _ _ _ (sd_group _ _ _ _ Hsd))|lia|done|done|done].
  - intros core' Hsd'. by eapply (steady_placed core' s).
Qed.

(** The second part of a wait, for a task that was woken by [xEventGroupSetBits]. *)
Lemma wait_exit_spec core s V t c b w clear all b0 :
  is_core core -> wf (ker s) V -> 0 <= b < 2 ^ 24 -> cur (ker s) core = t -> tcbs (ker s) !! t = Some c ->
  value (mem (ker s)) (xEventListItem t) = Some (Z.lor (Z.lor b eventUNBLOCKED_DUE_TO_BIT_SET) taskEVENT_LIST_ITEM_VALUE_IN_USE) ->
  bits s !! g = Some b0 ->
  wp (xEventGroupWaitBits_exit core g w clear all)
     (fun r s' => r = b /\ bits s' = bits s /\ wf (ker s') V /\ value (mem (ker s')) (xEventListItem t) = Some (configMAX_PRIORITIES - uxPriority c)) s.
Proof.
  intros Hc HW Hb Hcur Ht Hv Hb0. destruct (item_task _ _ _ _ HW Ht) as [_ Hl]. destruct (w_tasks _ _ HW _ _ Ht) as (Hpr & _ & _ & _ & Hmk).
  unfold xEventGroupWaitBits_exit. apply wp_bind, wp_on_ker. unfold uxTaskResetEventItemValue. apply wp_bind, wp_current; [apply HW|done|]. rewrite Hcur.
  apply wp_bind, wp_on_mem. eapply read_value; [exact Hv|]. rewrite with_mem_id. apply wp_bind. eapply wp_tcb; [exact Ht|].
  unfold configMAX_PRIORITIES in *. rewrite u32_small by lia. apply wp_bind, wp_on_mem.
  eapply wp_mono; [apply (store_set_value _ V); [apply HW|done|unfold portMAX_DELAY; lia|]|].
  { intros L' xs i E'. apply not_eq_sym. apply Hmk. by eexists. }
  intros [] s1 (HS1 & Hv1 & Ho1 & Hl1). assert (Hval : valued (mem (ker s)) (xEventListItem t) (25 - uxPriority c) s1) by (by split).
  pose proof (wf_event_value _ _ _ _ _ _ HW Ht HS1 Hval) as HW1. apply wp_ret. rewrite <- Z.lor_assoc.
  destruct (control_split b (Z.lor eventUNBLOCKED_DUE_TO_BIT_SET taskEVENT_LIST_ITEM_VALUE_IN_USE) Hb eq_refl) as [E1 _]. set (u := Z.lor b (Z.lor eventUNBLOCKED_DUE_TO_BIT_SET taskEVENT_LIST_ITEM_VALUE_IN_USE)) in *.
  assert (E2 : Z.land u eventUNBLOCKED_DUE_TO_BIT_SET <> 0).
  { unfold u. rewrite Z.land_lor_distr_l. intros E. apply Z.lor_eq_0_iff in E as [_ E]. done. }
  apply wp_bind. rewrite (proj2 (Z.eqb_neq _ _) E2). apply wp_ret, wp_ret. cbn. split_and!; [done|done|done|]. rewrite Hv1. by rewrite decide_True.
Qed.

(** What is cleared holds what each served item asked for. *)
Lemma clears_served s b xs x : x ∈ xs -> sat s b x = true -> Z.ldiff (to_clear (key (mem (ker s)) x)) (clears s b xs) = 0.
Proof.
  induction xs as [|y xs IH]; intros Hx Hs; [by apply not_elem_of_nil in Hx|]. cbn [clears]. apply Z.bits_inj'. intros m Hm.
  rewrite Z.ldiff_spec, Z.lor_spec, Z.bits_0. apply elem_of_cons in Hx as [<-|Hx].
  - rewrite Hs. by destruct (Z.testbit (to_clear _) m).
  - specialize (IH Hx Hs). apply (f_equal (fun z => Z.testbit z m)) in IH. rewrite Z.ldiff_spec, Z.bits_0 in IH.
    destruct (Z.testbit (to_clear _) m), (Z.testbit (clears s b xs) m); try done. by rewrite orb_true_r.
Qed.

(** C22: A task that blocks in [xEventGroupWaitBits] and whose condition another
    call of [xEventGroupSetBits], on either CPU, meets is made ready by that
    call, and returns from the wait with the bits as they were when the
    condition was met, whatever was cleared since; when it asked for the bits it
    waited for to be cleared, they are. *)
Theorem wait_set_round_trip core core' s V b t c G w clear all ticks B :
  is_core core -> is_core core' -> steady core s V b -> steady core' s V b -> on_time (ker s) V -> waitable core ticks s -> g <> 0 -> L <> 0 ->
  0 < w < 2 ^ 24 -> 0 < ticks <= portMAX_DELAY -> 0 <= B < 2 ^ 24 ->
  cur (ker s) core = t -> tcbs (ker s) !! t = Some c -> xGenericListItem t ∈ sq V G -> ~ linked V (xEventListItem t) ->
  prvTestWaitCondition b w all = false -> prvTestWaitCondition (Z.lor b B) w all = true ->
  wp (xEventGroupWaitBits_enter core g w clear all ticks)
     (fun r1 s1 => r1 = Blocked /\
        wp (xEventGroupSetBits core' g B)
           (fun r2 s2 => (exists V2, wf (ker s2) V2 /\ xGenericListItem t ∈ sq V2 (ready (uxPriority c)) /\ ~ linked V2 (xEventListItem t))
              /\ (clear = true -> Z.land r2 w = 0)
              /\ wp (xEventGroupWaitBits_exit core g w clear all) (fun r3 s3 => r3 = Z.lor b B /\ bits s3 !! g = Some r2) s2) s1) s.
Proof.
  intros Hc Hc' Hsd Hsd' Hon Hm Hg0 HL0 Hw Htk HB Hcur Ht HG Hne Hno Hyes. eapply wp_mono; [apply (wait_enter_spec core s V b t c G w clear all ticks); try done; lia|].
  intros r s1 [_ _ H3]. destruct (H3 Hno ltac:(lia)) as (-> & Eb & V1 & Hp). split; [done|].
  pose proof (steady_placed core' s V b t c _ _ s1 V1 Hsd' Ht Hp Eb) as Hsd1. pose proof Hp as [HW1 _ Hk1 _ Hin1 _ Hv1].
  assert (Hge : xEventListItem t <> xGenericListItem t) by (intros E; symmetry in E; by apply (gen_event _ _ _ _ _ _ (go_wf _ _ _ (sd_group _ _ _ _ Hsd)) Ht Ht) in E).
  assert (Hval : value (mem (ker s1)) (xEventListItem t) = Some (wait_value w clear all)) by (rewrite Hv1, decide_True; done).
  assert (Hx : xEventListItem t ∈ sq V1 L) by (apply Hin1; [done|by right]).
  assert (Hsat : sat s1 (Z.lor b B) (xEventListItem t) = true) by (unfold sat, key; rewrite Hval; cbn; rewrite wait_value_match by lia; done).
  eapply wp_mono; [by apply (set_bits_spec core' s1 V1 b B)|]. intros r s2 (-> & V2 & Hbs). pose proof Hbs as [Hg2 Hb2 Hk2 _ _ Hw2 _ _].
  assert (Ht1 : tcbs (ker s1) !! t = Some c) by (by rewrite (kp_tcbs _ _ Hk1)).
  destruct (Hw2 t c Ht1 Hx Hsat) as (R1 & R2 & R3). split_and!; [exists V2; split_and!; [apply Hg2|done|done]| |].
  - intros ->. pose proof (clears_served s1 (Z.lor b B) _ _ Hx Hsat) as Hcl. unfold key in Hcl. rewrite Hval in Hcl. cbn in Hcl. rewrite wait_value_clear in Hcl by lia.
    apply Z.bits_inj'. intros m Hm'. apply (f_equal (fun z => Z.testbit z m)) in Hcl. rewrite Z.ldiff_spec, Z.bits_0 in Hcl. rewrite Z.land_spec, Z.ldiff_spec, Z.bits_0.
    destruct (Z.testbit w m), (Z.testbit (clears _ _ _) m); try done; by rewrite ?andb_false_r.
  - eapply wp_mono; [eapply (wait_exit_spec core s2 V2 t c (Z.lor b B)); [done|apply Hg2| | | |exact R3|by rewrite Hb2, lookup_insert_eq]|].
    { apply lor_below; [lia|apply (go_word _ _ _ (sd_group _ _ _ _ Hsd))|lia]. }
    { unfold cur. by rewrite (kp_current _ _ Hk2), (kp_current _ _ Hk1). }
    { by rewrite (kp_tcbs _ _ Hk2). }
    intros r3 s3 (-> & Eb3 & _ & _). split; [done|]. by rewrite Eb3, Hb2, lookup_insert_eq.
Qed.
End SetBits.
