(* ===== verification/EventWitness.v ===== *)
(** * A concrete event group

    The hypotheses of the theorems of [EventGroup] hold in states that the
    kernel's own functions reach from the kernel of [RtosWitness]. *)

From S2P Require Import Prelude RtosList RtosStore RtosTasks RtosSched RtosWake RtosWitness EventGroup.

#[local] Open Scope Z_scope.
#[local] Existing Instance demo.
#[local] Existing Instance demo_laws.

(** The group whose list is [demo_event], with no bit set; the lists of pending
    tasks of both CPUs are initialised, [taskA] runs on CPU 0, [taskB] on CPU 1. *)
Definition demo_group : Z := 0x12fc.
Definition group_view (k : kernel) : view := view_of (mem k) (demo_lists ++ [pending 1]).
Definition demo_idle : egs :=
  Egs (kernel_after (on_mem (vListInitialise (pending 1));; vTaskSwitchContext 0) demo_start) {[ demo_group := 0 ]}.

Definition egs_after {A} (m : M egs A) (s : egs) : egs := match m s with Ret (_, s') => s' | _ => s end.

(** [taskA] waits for bits 0 and 1, to be cleared; CPU 0 runs its idle task. *)
Definition demo_waiting : egs :=
  egs_after (xEventGroupWaitBits_enter 0 demo_group 3 true true 100;; on_ker (vTaskSwitchContext 0)) demo_idle.

Lemma demo_cpus : cpus_ok (ker demo_idle) /\ cpus_ok (ker demo_waiting).
Proof. split; apply cpus_check; by_eval. Qed.

(** The facts of [steady] that are evaluated. *)
Lemma steady_check core s b :
  group_ok demo_group s (group_view (ker s)) b -> is_Some (group_view (ker s) !! pending core) -> sq (group_view (ker s)) (pending core) = [] ->
  pending core ∉ state_lists -> pending core <> xTasksWaitingForBits demo_group -> uxPendedTicks (ker s) = 0 -> susp (ker s) core = 0 ->
  steady demo_group core s (group_view (ker s)) b.
Proof.
  intros Hg H1 H2 H3 H4 H5 H6. split; [done| |done|by rewrite H6|by rewrite H6]. split; [done|done|by apply not_state|done].
Qed.

Lemma demo_idle_group : group_ok demo_group demo_idle (group_view (ker demo_idle)) 0.
Proof.
  split.
  - check_wf.
  - apply demo_cpus.
  - vm_compute. reflexivity.
  - clear. lia.
  - by_eval.
  - apply not_state. by_eval.
  - assert (E : sq (group_view (ker demo_idle)) (xTasksWaitingForBits demo_group) = []) by (vm_compute; reflexivity).
    intros x Hx. exact (empty_list _ _ _ _ E Hx).
Qed.

Lemma demo_waiting_group : group_ok demo_group demo_waiting (group_view (ker demo_waiting)) 0.
Proof.
  split.
  - check_wf.
  - apply demo_cpus.
  - vm_compute. reflexivity.
  - clear. lia.
  - by_eval.
  - apply not_state. by_eval.
  - assert (E : sq (group_view (ker demo_waiting)) (xTasksWaitingForBits demo_group) = [xEventListItem taskA]) by (vm_compute; reflexivity).
    rewrite E. intros x ->%list_elem_of_singleton. refine (ex_intro _ taskA (ex_intro _ (TCB 5 tskNO_AFFINITY 5 0) (ex_intro _ xDelayedTaskList1 _))).
    split_and!; [reflexivity|vm_compute; reflexivity|by_eval].
Qed.

Lemma demo_idle_steady core : is_core core -> steady demo_group core demo_idle (group_view (ker demo_idle)) 0.
Proof. intros [->| ->]; (apply steady_check; [exact demo_idle_group|by_eval|vm_compute; reflexivity|by_eval|vm_compute; discriminate|vm_compute; reflexivity|vm_compute; reflexivity]). Qed.

Lemma demo_waiting_steady : steady demo_group 1 demo_waiting (group_view (ker demo_waiting)) 0.
Proof. apply steady_check; [exact demo_waiting_group|by_eval|vm_compute; reflexivity|by_eval|vm_compute; discriminate|vm_compute; reflexivity|vm_compute; reflexivity]. Qed.

(** CPU 1 sets bits 0, 1 and 2: [taskA] is woken. *)
Lemma set_bits_wakes_witness :
  wp (xEventGroupSetBits 1 demo_group 7)
     (fun r s' => exists V', bits_set demo_group 7 0 demo_waiting (group_view (ker demo_waiting)) s' V'
        /\ bits s' !! demo_group = Some r
        /\ (forall x, x ∈ sq (group_view (ker demo_waiting)) (xTasksWaitingForBits demo_group) ->
              x ∈ sq V' (xTasksWaitingForBits demo_group) <-> ~ wants (key (mem (ker demo_waiting)) x) 7)
        /\ forall x, x ∈ sq V' (xTasksWaitingForBits demo_group) -> ~ wants (key (mem (ker s')) x) r) demo_waiting.
Proof.
  apply (set_bits_wakes demo_group 1 demo_waiting (group_view (ker demo_waiting)) 0 7).
  - right. reflexivity.
  - exact demo_waiting_steady.
  - discriminate.
  - clear. lia.
Defined.

Example set_bits_demo :
  match xEventGroupSetBits 1 demo_group 7 demo_waiting with
  | Ret (r, s) => r = 4 /\ sq (group_view (ker s)) (ready 5) = [xGenericListItem taskA]
                  /\ value (mem (ker s)) (xEventListItem taskA) = Some (Z.lor (Z.lor 7 eventUNBLOCKED_DUE_TO_BIT_SET) taskEVENT_LIST_ITEM_VALUE_IN_USE)
  | Stuck _ => False
  end.
Proof. vm_compute. done. Qed.

(** [taskA] waits for bits 0 and 1 of a group without bits, for 100 ticks. *)
Lemma wait_bits_outcome_witness :
  wp (xEventGroupWaitBits_enter 0 demo_group 3 true true 100)
     (fun r s' => r = Blocked /\ bits s' = bits demo_idle
        /\ exists V', placed (xTasksWaitingForBits demo_group) taskA (wait_value 3 true true) 100 (ker demo_idle) (group_view (ker demo_idle)) (ker s') V'
           /\ none_missed demo_group s' V' 0
           /\ forall core', steady demo_group core' demo_idle (group_view (ker demo_idle)) 0 -> steady demo_group core' s' V' 0) demo_idle.
Proof.
  apply (wait_bits_outcome demo_group 0 demo_idle (group_view (ker demo_idle)) 0 taskA (TCB 5 tskNO_AFFINITY 5 0) (ready 5) 3 true true 100).
  - left. reflexivity.
  - apply demo_idle_steady. left. reflexivity.
  - assert (E : sq (group_view (ker demo_idle)) (xTasksWaitingForBits demo_group) = []) by (vm_compute; reflexivity).
    intros x Hx. exact (empty_list _ _ _ _ E Hx).
  - apply on_time_nil. vm_compute. reflexivity.
  - intros _. left. vm_compute. reflexivity.
  - discriminate.
  - discriminate.
  - clear. lia.
  - unfold portMAX_DELAY. clear. lia.
  - vm_compute. reflexivity.
  - vm_compute. reflexivity.
  - by_eval.
  - apply not_linked_check. by_eval.
Defined.

(** [taskB] waits on CPU 1 for bit 2 or bit 3; CPU 0 sets bits 3 and 4. *)
Lemma wait_set_round_trip_witness :
  wp (xEventGroupWaitBits_enter 1 demo_group 12 true false portMAX_DELAY)
     (fun r1 s1 => r1 = Blocked /\
        wp (xEventGroupSetBits 0 demo_group 24)
           (fun r2 s2 => (exists V2, wf (ker s2) V2 /\ xGenericListItem taskB ∈ sq V2 (ready 7) /\ ~ linked V2 (xEventListItem taskB))
              /\ (true = true -> Z.land r2 12 = 0)
              /\ wp (xEventGroupWaitBits_exit 1 demo_group 12 true false) (fun r3 s3 => r3 = 24 /\ bits s3 !! demo_group = Some r2) s2) s1) demo_idle.
Proof.
  apply (wait_set_round_trip demo_group 1 0 demo_idle (group_view (ker demo_idle)) 0 taskB (TCB 7 1 7 0) (ready 7) 12 true false portMAX_DELAY 24).
  - right. reflexivity.
  - left. reflexivity.
  - apply demo_idle_steady. right. reflexivity.
  - apply demo_idle_steady. left. reflexivity.
  - apply on_time_nil. vm_compute. reflexivity.
  - intros _. left. vm_compute. reflexivity.
  - discriminate.
  - discriminate.
  - clear. lia.
  - unfold portMAX_DELAY. clear. lia.
  - clear. lia.
  - vm_compute. reflexivity.
  - vm_compute. reflexivity.
  - by_eval.
  - apply not_linked_check. by_eval.
  - reflexivity.
  - reflexivity.
Defined.

(** ** Where the code falls short *)

(** When there is no memory for a group, its mutex is initialised all the same,
    through the null pointer. *)
Example create_without_memory : xEventGroupCreate 0 demo_idle = Stuck NullDeref.
Proof. reflexivity. Qed.
